(* ===== verification/_CoqProject ===== *)
-Q . S2P
Prelude.v
Coding.v
RangeSet.v
Ids.v
Shared.v
Frame.v
FrameTheorems.v
Packet.v
PacketTheorems.v
PacketSafety.v
Float.v
TransportParams.v
TransportParamsTheorems.v
Mtud.v
CidQueue.v
SendBuffer.v
Assembler.v
AssemblerSpec.v
AssemblerTheorems.v
Recv.v
Send.v
PendingStreams.v
Retransmits.v
CidState.v
Streams.v
StreamsInv.v
StreamsOps.v
StreamsSteps.v
StreamsWrite.v
StreamsTheorems.v
Dedup.v
PendingAcks.v
Spaces.v
PacketCrypto.v
KeyUpdate.v
Timer.v
AckFrequency.v
Rtt.v
Congestion.v
Pacing.v
Datagrams.v
Config.v
Paths.v
Token.v
TokenLog.v
TokenCache.v
Connection.v
ConnRecovery.v
ConnReceive.v
Post.v
PacketBuilder.v
ConnTransmit.v
ConnInv.v
ConnInvOps.v
ConnInvReceive.v
ConnLife.v
ConnLifeTransmit.v
ConnSample.v
ConnTheorems.v
ConnSendTheorems.v
ConnLossTheorems.v
CidGenerator.v
EndpointIndex.v
Endpoint.v
EndpointInv.v
EndpointOps.v
EndpointSample.v
EndpointTheorems.v
TileNet.v
TileNetTheorems.v
Bridge.v
BridgeTheorems.v
EngineTile.v
TileEngine.v
TileEngineInv.v
TileEngineOps.v
TileSample.v
TileEngineTheorems.v
Bbr.v
Settings.v
