(* ===== verification/Prelude.v ===== *)
(** * A verification of the QUIC engine [quac]

    The program is a QUIC implementation in two layers.  The crate [quic-proto] is the protocol, without input and output: it turns
    received datagrams, timeouts and calls of the application into new state, datagrams to send and events.  The crates around it
    ([quac], [quac-tile], [quac-interface], [quac-socket], [quac-network-tile-socket]) run it: threads that read sockets steer
    datagrams to engine threads, each engine drives one endpoint with its connections, and the application talks to an engine
    through queues, flags and wakers in shared memory.  Paths below are relative to [src/]; those without a crate are in
    [quic-proto/src/].

    ** How the code is modelled

    A Rust function is a function of Rocq.  One that can panic (overflow, [unwrap], index out of range, [assert!]) is in the monad
    [M] of this file; one that returns [Result] yields [result].  A method that changes its object returns the new object.  A machine
    integer is a [Z], with [uadd], [usub] and [umul] panicking where Rust does under overflow checks; wrapping, saturating and
    truncating operations are written out.  Bytes are [Z] below 256, a buffer is the list of its bytes, instants and durations are
    nanoseconds.  Floating-point numbers are those of IEEE 754 with the rounding of the target ([Float]).  A hash map is a [gmap], an
    ordered map the list of its entries in order of keys.

    Code that is not part of the repository is a type class or a record of functions, and what the program relies on is a second
    class with its laws: the heap of the standard library ([Assembler.Heap]), packet and header keys and the TLS session
    ([Packet], [Connection.Session]), Bloom filter and LRU slab ([TokenLog], [TokenCache]), random numbers ([Connection.Rng],
    [CidGenerator.RngCore]), the slab ([EndpointIndex.Slab]), the lock-free queues and the kernel's socket calls ([TileNet]).
    Every class has a concrete instance, so every theorem that assumes laws is applied to one: see the lemmas whose name ends in [_witness].

    ** The files

    Foundations:
    - this file: outcomes, integers, lists, the hint database and tactics; [Float]; [Post], the rules for postconditions of
      computations in [M] with the database [post];
    - [Coding] ([coding.rs], [varint.rs]), [Ids] ([lib.rs], [transport_error.rs]), [Shared] ([shared.rs]): variable-length integers,
      ids, directions, error codes;
    - [RangeSet] ([range_set/]): the B-tree and the array version, both against one reference insertion.

    Wire formats:
    - [Frame], [FrameTheorems] ([frame.rs]); [Packet], [PacketTheorems], [PacketSafety] ([packet.rs]); [TransportParams],
      [TransportParamsTheorems] ([transport_parameters.rs]).

    Streams:
    - [Assembler], [AssemblerSpec], [AssemblerTheorems] ([connection/assembler.rs]); [SendBuffer] ([connection/send_buffer.rs]);
    - [Recv], [Send], [PendingStreams], [Streams] ([connection/streams/]): the halves of a stream, the queue of streams with data,
      the table with the interface of the application; [StreamsInv], [StreamsOps], [StreamsSteps], [StreamsWrite],
      [StreamsTheorems]: its invariant, that every operation keeps it, its step relation, the frames it writes;
    - [Datagrams] ([connection/datagrams.rs]).

    Parts of a connection:
    - [Dedup], [PendingAcks], [Spaces], [Retransmits] ([connection/spaces.rs]); [PacketCrypto] and [KeyUpdate]
      ([connection/packet_crypto.rs] and the key updates of [connection/mod.rs], two endpoints over an unreliable network);
    - [CidQueue] ([cid_queue.rs]), [CidState] ([connection/cid_state.rs]); [Mtud] ([connection/mtud.rs]); [Timer], [AckFrequency],
      [Pacing] (files of the same names in [connection/]); [Rtt] and [Paths] ([connection/paths.rs]);
    - [Congestion] ([congestion.rs], [congestion/new_reno.rs], [congestion/cubic.rs]); [Bbr] ([congestion/bbr/]);
    - [Config], [Settings] ([config/]): the settings with their defaults and setters, and what they announce;
    - [Token] ([token.rs]), [TokenLog] ([bloom_token_log.rs]), [TokenCache] ([token_memory_cache.rs]).

    Connections ([connection/mod.rs], [connection/packet_builder.rs]):
    - [Connection] (state, paths, keys, transport parameters, handshake data), [ConnRecovery] (acknowledgements, loss, timeouts),
      [ConnReceive] (from a datagram to the effect of each frame), [PacketBuilder] and [ConnTransmit] (outgoing packets and batches,
      [Connection::new]);
    - [ConnInv], [ConnInvOps], [ConnInvReceive], [ConnLife], [ConnLifeTransmit]: what every operation keeps; [ConnTheorems],
      [ConnSendTheorems], [ConnLossTheorems]: the properties; [ConnSample]: a concrete connection.

    Endpoints ([endpoint.rs]):
    - [CidGenerator] ([cid_generator.rs], [cid_quic_lb.rs]), [EndpointIndex], [Endpoint]; [EndpointInv], [EndpointOps]: its tables and
      that the operations keep them; [EndpointTheorems]; [EndpointSample]: a client and a server that shake hands, exchange data and
      close, run to the end.

    The engine and what is around it:
    - [TileNet], [TileNetTheorems] ([quac-interface], [quac-tile], [quac-socket], [quac-network-tile-socket], [quac/src/tileset.rs]):
      the socket, the reader that steers datagrams by connection id, the writer;
    - [Bridge], [BridgeTheorems] ([quac/src/bridge.rs], [quac/src/app.rs]): the shared memory and the handles of the application, as
      programs of atomic accesses that others may interleave with;
    - [EngineTile] ([quac/src/engine_tile.rs]): the thread's loop with its wake-up protocol, as a step relation;
    - [TileEngine] ([quac/src/tile_engine.rs]), [TileEngineInv], [TileEngineOps], [TileEngineTheorems]: the engine, its invariant, its
      properties; [TileSample]: a concrete engine and runs of it.

    ** What the theorems show

    - Data of streams: what arrives in whatever frames is delivered once and in order ([assembler_ordered_stream]); each byte written
      is acknowledged, queued or in one packet ([send_buffer_partition]); flow control in both directions, the checks on frames of the
      peer and the count of its streams ([streams_flow_control], [received_frame_checked], [remote_stream_accounting]); the frames
      written are those the peer reads ([stream_frames_written_and_read]).
    - Wire formats: round trips ([packet_roundtrip], [frame_roundtrip], [transport_params_roundtrip]) and, whatever arrives, no panic
      ([packet_decode_safe], [transport_params_read_typed]); what is configured, within the
      limits of the protocol, the peer accepts ([configured_params_accepted]).
    - Connections, after any sequence of datagrams, timeouts, transmissions and calls: packets in flight are accounted for
      ([in_flight_accounted]), a closed connection drains ([closed_connection_drains]), an unvalidated address is not flooded
      ([amplification_limit_respected]), and filling a batch of datagrams ends ([transmission_ends]); losses and acknowledgements
      ([loss_detection_exact], [acknowledgement_processed]); replayed packets ([dedup_insert_correct]); key updates
      ([key_update_agreement]).
    - Refinements of an abstract specification: [cid_queue_refines], [token_cache_refines]; agreement of two implementations:
      [array_insert_agrees].
    - Tokens: [token_validation_correct], [validation_token_single_use].
    - Endpoints: routing ([datagrams_routed]), buffers of attempts ([incoming_buffers_accounted]), stateless resets
      ([stateless_reset_bounded]), drawing of ids ([new_cid_terminates]).
    - Rates: [mtud_search_converges], [pacer_correct], [bbr_window_floor].
    - The engine: its slots, deadlines and memory ([engine_datagrams_reach_slots], [engine_slots_scheduled], [engine_memory_apart]);
      from a connection to the reader of a stream ([stream_data_delivered], [received_bytes_piped]); no lost wake-up
      ([no_lost_wakeup]); from the socket to the engine and back ([datagrams_steered], [socket_sends_prefix]).

    Lemmas next to these, on concrete inputs, record where the code does not do what it means to: see in particular the ends of
    [TileSample], [Bbr], [Settings] and [EndpointTheorems], [Mtud] and [Congestion].

    ** Bounds

    A loop that is not structural has a number of turns.  Most are computed from the data, and enough: the bytes of a datagram for its
    packets (each takes at least one byte), the buffered chunks for [read_crypto_loop], the length of the queue for the loops over frames
    and datagrams, the transmits for the batches of the socket ([send_turns]).  Four loops end only when something outside is done, and
    their turns are arguments the theorems hold for all values of: [crypto_turns] (the TLS session has nothing to write),
    [transmit_turns] (a connection has filled its batch; by [transmission_ends] some number is enough), [cid_turns] (the generator
    draws an unused id; [new_cid_terminates] says how many are enough) and the [turns] of the engine (a connection has no more
    events).  When the turns of the last two run out the
    operation yields [None]; those of the first two count as a panic, so what is shown of results never rests on them.

    The threads of [EngineTile] and [Bridge] interleave at single accesses of shared memory, and all threads see these in one order.
    The source's [Release] and [Acquire] alone do not promise this for the flag of a sleeping engine; [wakeup_lost_when_delayed] shows
    the run they leave open.

    ** Not modelled

    - [crypto/rustls.rs], [crypto/ring_like.rs]: bindings of the TLS and cryptographic libraries; their interface is modelled and
      their promises are hypotheses.
    - [connection/stats.rs], [connection/qlog.rs], tracing: counters and log output, which nothing else reads.
    - [Display], [Debug] and [Error] implementations, the text of errors, and accessors that only return a field.
    - Buffer pools, the creation of threads, the binding of sockets, the socket on systems other than Linux, and the choice of CPUs:
      system calls without a decision of the program in between.
    - [quac-test-socket], [benchmarks], and the tests: not part of the program. *)
From stdpp Require Export base list numbers option sorting.
From Stdlib Require Export ZArith Lia.

(** * Outcomes *)

(** A Rust computation either returns or panics.  A panic is an explicit
    [panic!], [unwrap]/[expect] on the wrong variant, an out-of-range index or
    an arithmetic overflow under overflow checks. *)
Inductive M (A : Type) : Type :=
| Ret (a : A)
| Panic.
Arguments Ret {A} a.
Arguments Panic {A}.

#[global] Instance M_ret : MRet M := fun A a => Ret a.
#[global] Instance M_bind : MBind M :=
  fun A B f m => match m with Ret a => f a | Panic => Panic end.
#[global] Instance M_fmap : FMap M :=
  fun A B f m => match m with Ret a => Ret (f a) | Panic => Panic end.

(** [Result<A, E>] of Rust. *)
Inductive result (E A : Type) : Type :=
| Ok (a : A)
| Err (e : E).
Arguments Ok {E A} a.
Arguments Err {E A} e.

#[global] Instance result_ret E : MRet (result E) := fun A a => Ok a.
#[global] Instance result_bind E : MBind (result E) :=
  fun A B f m => match m with Ok a => f a | Err e => Err e end.

(** [Option::unwrap] and [Option::expect]. *)
Definition unwrap {A} (o : option A) : M A :=
  match o with Some a => Ret a | None => Panic end.

(** [assert!] and [debug_assert!]. *)
Definition rassert (b : bool) : M unit := if b then Ret tt else Panic.

(** * Machine integers *)

Open Scope Z_scope.

Definition u8_max : Z := 255.
Definition u16_max : Z := 65535.
Definition u32_max : Z := 4294967295.
Definition u64_max : Z := 18446744073709551615.

(** A value that fits an unsigned 64-bit integer ([u64], [usize]). *)
Definition is_u64 (x : Z) : Prop := 0 <= x <= u64_max.

(** [a + b], [a - b] and [a * b] on [u64] under overflow checks. *)
Definition uadd (a b : Z) : M Z := if a + b <=? u64_max then Ret (a + b) else Panic.
Definition usub (a b : Z) : M Z := if b <=? a then Ret (a - b) else Panic.
Definition umul (a b : Z) : M Z := if a * b <=? u64_max then Ret (a * b) else Panic.

(** [u64::saturating_sub], [u64::saturating_add] and [u64::checked_sub]. *)
Definition sat_sub (a b : Z) : Z := if b <=? a then a - b else 0.
Definition sat_add (a b : Z) : Z := Z.min u64_max (a + b).
Definition checked_sub (a b : Z) : option Z := if b <=? a then Some (a - b) else None.

(** Length of a slice, [Vec], [VecDeque] or [Bytes] as a [usize]. *)
Definition len {A} (l : list A) : Z := Z.of_nat (length l).

(** [Range<u64>]. *)
Record Range : Type := mkRange { rstart : Z; rend : Z }.
#[global] Instance Range_eq_dec : EqDecision Range.
Proof. solve_decision. Defined.

(** [Range::is_empty]: [!(start < end)]. *)
Definition range_is_empty (r : Range) : bool := negb (rstart r <? rend r).

(** [&s[a..b]], [Bytes::split_to] and [Bytes::advance] on byte sequences. *)
Definition takeZ {A} (n : Z) (l : list A) : list A := take (Z.to_nat n) l.
Definition dropZ {A} (n : Z) (l : list A) : list A := drop (Z.to_nat n) l.

(** [Bytes::split_to(n)]: the first [n] bytes and the rest; panics when
    [n > len]. *)
Definition split_to {A} (n : Z) (l : list A) : M (list A * list A) :=
  if n <=? len l then Ret (takeZ n l, dropZ n l) else Panic.

(** [Buf::advance(n)]; panics when [n > len]. *)
Definition advance {A} (n : Z) (l : list A) : M (list A) :=
  if n <=? len l then Ret (dropZ n l) else Panic.

(** * Automation *)

Create HintDb quac discriminated.
Create Rewrite HintDb quac.

(** Case analysis on the boolean comparisons of a goal, kept as arithmetic. *)
Ltac zcases :=
  repeat match goal with
  | H : context [?a <=? ?b] |- _ => destruct (Z.leb_spec a b)
  | |- context [?a <=? ?b] => destruct (Z.leb_spec a b)
  | H : context [?a <? ?b] |- _ => destruct (Z.ltb_spec a b)
  | |- context [?a <? ?b] => destruct (Z.ltb_spec a b)
  | H : context [?a =? ?b] |- _ => destruct (Z.eqb_spec a b)
  | |- context [?a =? ?b] => destruct (Z.eqb_spec a b)
  end.

(** Inversion of a [Ret _ = Ret _] or an [m ≫= f = Ret _]. *)
Lemma M_bind_ret {A B} (f : A → M B) (m : M A) (b : B) :
  m ≫= f = Ret b → ∃ a, m = Ret a ∧ f a = Ret b.
Proof. destruct m; simpl; [eauto|discriminate]. Qed.

(** Make a decidable proposition an arithmetic atom, so that [lia] sees the
    propositional structure around it. *)
Lemma atom_true (P : Prop) : P → (P ↔ 0 = 0).
Proof. tauto. Qed.
Lemma atom_false (P : Prop) : ¬ P → (P ↔ 0 = 1).
Proof. intros. split; [done|lia]. Qed.

Ltac atomize P :=
  let Hp := fresh "Hp" in
  destruct (decide P) as [Hp|Hp];
  [apply atom_true in Hp|apply atom_false in Hp]; try rewrite !Hp in *.

Ltac inv_M :=
  repeat match goal with
  | H : Ret _ = Ret _ |- _ => injection H as H; try subst
  | H : @mret M _ _ _ = Ret _ |- _ => unfold mret, M_ret in H
  | H : Panic = Ret _ |- _ => discriminate H
  | H : _ ≫= _ = Ret _ |- _ =>
      let a := fresh "a" in let Ha := fresh "Ha" in
      apply M_bind_ret in H as (a & Ha & H)
  end.

(** * Arithmetic lemmas *)

Lemma uadd_ok a b : a + b <= u64_max → uadd a b = Ret (a + b).
Proof. unfold uadd. intros. zcases; [done|lia]. Qed.
Lemma usub_ok a b : b <= a → usub a b = Ret (a - b).
Proof. unfold usub. intros. zcases; [done|lia]. Qed.
Lemma uadd_inv a b c : uadd a b = Ret c → c = a + b ∧ a + b <= u64_max.
Proof. unfold uadd. zcases; [|done]. by intros [= <-]. Qed.
Lemma usub_inv a b c : usub a b = Ret c → c = a - b ∧ b <= a.
Proof. unfold usub. zcases; [|done]. by intros [= <-]. Qed.
Lemma usub_panic a b : a < b → usub a b = Panic.
Proof. unfold usub. intros. zcases; [lia|done]. Qed.
Lemma umul_ok a b : a * b <= u64_max → umul a b = Ret (a * b).
Proof. unfold umul. intros. zcases; [done|lia]. Qed.

Lemma len_nonneg {A} (l : list A) : 0 <= len l.
Proof. unfold len. lia. Qed.
Lemma len_nil {A} : len (@nil A) = 0.
Proof. done. Qed.
Lemma len_cons {A} (x : A) l : len (x :: l) = 1 + len l.
Proof. unfold len. simpl. lia. Qed.
Lemma len_app {A} (l k : list A) : len (l ++ k) = len l + len k.
Proof. unfold len. rewrite length_app. lia. Qed.
Lemma len_takeZ {A} n (l : list A) : 0 <= n <= len l → len (takeZ n l) = n.
Proof. unfold len, takeZ. intros. rewrite length_take. lia. Qed.
Lemma len_dropZ {A} n (l : list A) : 0 <= n <= len l → len (dropZ n l) = len l - n.
Proof. unfold len, dropZ. intros. rewrite length_drop. lia. Qed.
Lemma takeZ_dropZ {A} n (l : list A) : takeZ n l ++ dropZ n l = l.
Proof. apply take_drop. Qed.
Lemma len_0_nil {A} (l : list A) : len l <= 0 → l = [].
Proof. destruct l; [done|]. rewrite len_cons. pose proof (len_nonneg l). lia. Qed.
Lemma split_to_ok {A} n (l : list A) :
  n <= len l → split_to n l = Ret (takeZ n l, dropZ n l).
Proof. unfold split_to. intros. zcases; [done|lia]. Qed.
Lemma advance_ok {A} n (l : list A) : n <= len l → advance n l = Ret (dropZ n l).
Proof. unfold advance. intros. zcases; [done|lia]. Qed.

Lemma dropZ_dropZ {A} n m (l : list A) :
  0 <= n → 0 <= m → dropZ n (dropZ m l) = dropZ (m + n) l.
Proof. intros. unfold dropZ. rewrite drop_drop, Z2Nat.inj_add by lia. done. Qed.
Lemma dropZ_0 {A} (l : list A) : dropZ 0 l = l.
Proof. done. Qed.
Lemma takeZ_0 {A} (l : list A) : takeZ 0 l = [].
Proof. done. Qed.
Lemma dropZ_app_ge {A} n (l k : list A) :
  len l <= n → dropZ n (l ++ k) = dropZ (n - len l) k.
Proof. unfold dropZ, len. intros. rewrite drop_app_ge by lia. f_equal. lia. Qed.
Lemma dropZ_app_le {A} n (l k : list A) :
  n <= len l → dropZ n (l ++ k) = dropZ n l ++ k.
Proof. unfold dropZ, len. intros. rewrite drop_app_le by lia. done. Qed.
Lemma takeZ_app_le {A} n (l k : list A) :
  n <= len l → takeZ n (l ++ k) = takeZ n l.
Proof. unfold takeZ, len. intros. rewrite take_app_le by lia. done. Qed.
Lemma takeZ_add {A} n m (l : list A) :
  0 <= n → 0 <= m → takeZ (n + m) l = takeZ n l ++ takeZ m (dropZ n l).
Proof.
  intros. unfold takeZ, dropZ. rewrite Z2Nat.inj_add by lia.
  rewrite <- (take_take_drop l (Z.to_nat n) (Z.to_nat m)). done.
Qed.

#[export] Hint Rewrite @len_nil @len_cons @len_app : quac.
#[export] Hint Resolve len_nonneg : quac.
