(* ===== verification/Coding.v ===== *)
(** Wire coding: [quic-proto/src/coding.rs] and [quic-proto/src/varint.rs].

    A read cursor is the list of bytes that remain; a byte is a [Z] between 0
    and 255.  A decoder is a [parser]: it returns its result together with the
    bytes left, also when it fails.  An encoder returns the bytes it appends,
    or panics where the source does. *)
From S2P Require Import Prelude.

(** * Parsers *)

(** [fn decode<B: Buf>(buf: &mut B) -> Result<A, E>]. *)
Definition parser (E A : Type) : Type := list Z → result E A * list Z.

#[global] Instance parser_ret E : MRet (parser E) := fun A a bs => (Ok a, bs).
#[global] Instance parser_bind E : MBind (parser E) :=
  fun A B f p bs =>
    match p bs with
    | (Ok a, bs') => f a bs'
    | (Err e, bs') => (Err e, bs')
    end.

Definition pfail {E A} (e : E) : parser E A := fun bs => (Err e, bs).

(** [?] with a [From] conversion of the error. *)
Definition map_err {E F A} (f : E → F) (p : parser E A) : parser F A :=
  fun bs => match p bs with (Ok a, r) => (Ok a, r) | (Err e, r) => (Err (f e), r) end.

(** * Big-endian integers *)

(** [BufMut::put_u16] and friends: the [n] low bytes of [x], most significant
    first. *)
Fixpoint be_bytes (n : nat) (x : Z) : list Z :=
  match n with
  | O => []
  | S n' => Z.land (Z.shiftr x (8 * Z.of_nat n')) 255 :: be_bytes n' x
  end.

(** [u16::from_be_bytes] and friends. *)
Definition from_be (bs : list Z) : Z := fold_left (fun acc b => acc * 256 + b) bs 0.

(** * The [Codec] trait *)

Inductive UnexpectedEnd : Type := mkUnexpectedEnd.

Class Codec (A : Type) : Type := {
  decode : parser UnexpectedEnd A;
  encode : A → M (list Z)
}.

(** The law a [Codec] promises to the frame and packet layers: what is encoded
    is decoded again, whatever follows it. *)
Class CodecOk (A : Type) `{Codec A} (wf : A → Prop) : Prop := {
  encode_decode : ∀ a, wf a →
    ∃ bs, encode a = Ret bs ∧ ∀ rest, decode (bs ++ rest) = (Ok a, rest)
}.

(** Unsigned integers of [n] bytes: [u8], [u16], [u32] and [u64]. *)
Record uint (n : nat) : Type := mkUint { uval : Z }.
Arguments mkUint {n} uval.
Arguments uval {n} u.
Definition u8 := uint 1.
Definition u16 := uint 2.
Definition u32 := uint 4.
Definition u64 := uint 8.

Definition uint_wf {n} (x : uint n) : Prop := 0 <= uval x < 256 ^ Z.of_nat n.

(** [impl Codec for u8], [u16], [u32] and [u64]: [UnexpectedEnd] when fewer
    than [n] bytes remain, with the cursor left where it was. *)
#[global] Instance uint_Codec (n : nat) : Codec (uint n) := {
  decode := fun bs =>
    if len bs <? Z.of_nat n then (Err mkUnexpectedEnd, bs)
    else (Ok (mkUint (from_be (take n bs))), drop n bs);
  encode := fun x => Ret (be_bytes n (uval x))
}.

(** [std::net::Ipv4Addr] and [Ipv6Addr]: their octets. *)
Record Ipv4Addr : Type := mkIpv4 { octets4 : list Z }.
Record Ipv6Addr : Type := mkIpv6 { octets6 : list Z }.

#[global] Instance Ipv4Addr_Codec : Codec Ipv4Addr := {
  decode := fun bs =>
    if len bs <? 4 then (Err mkUnexpectedEnd, bs)
    else (Ok (mkIpv4 (take 4 bs)), drop 4 bs);
  encode := fun a => Ret (octets4 a)
}.

#[global] Instance Ipv6Addr_Codec : Codec Ipv6Addr := {
  decode := fun bs =>
    if len bs <? 16 then (Err mkUnexpectedEnd, bs)
    else (Ok (mkIpv6 (take 16 bs)), drop 16 bs);
  encode := fun a => Ret (octets6 a)
}.

(** * Variable-length integers *)

(** [VarInt(pub(crate) u64)]. *)
Record VarInt : Type := mkVarInt { into_inner : Z }.
#[global] Instance VarInt_eq_dec : EqDecision VarInt.
Proof. solve_decision. Defined.

Definition VarInt_MAX : VarInt := mkVarInt (2 ^ 62 - 1).
Definition VarInt_wf (x : VarInt) : Prop := 0 <= into_inner x < 2 ^ 62.

Inductive VarIntBoundsExceeded : Type := mkVarIntBoundsExceeded.

Definition VarInt_from_u64 (x : Z) : result VarIntBoundsExceeded VarInt :=
  if x <? 2 ^ 62 then Ok (mkVarInt x) else Err mkVarIntBoundsExceeded.

(** [u128 -> u64 -> VarInt]; the first conversion fails above [u64::MAX]. *)
Definition VarInt_try_from_u128 (x : Z) : result VarIntBoundsExceeded VarInt :=
  if x <=? u64_max then VarInt_from_u64 x else Err mkVarIntBoundsExceeded.

Definition VarInt_size (v : VarInt) : M Z :=
  let x := into_inner v in
  if x <? 2 ^ 6 then Ret 1
  else if x <? 2 ^ 14 then Ret 2
  else if x <? 2 ^ 30 then Ret 4
  else if x <? 2 ^ 62 then Ret 8
  else Panic.

(** The tail of [VarInt::decode] after the first byte [buf[0]]: read [k] more
    bytes into [buf[1..=k]] and interpret [buf[..=k]]. *)
Definition VarInt_decode_tail (b0 : Z) (k : nat) : parser UnexpectedEnd VarInt :=
  fun r =>
    if len r <? Z.of_nat k then (Err mkUnexpectedEnd, r)
    else (Ok (mkVarInt (from_be (b0 :: take k r))), drop k r).

Definition VarInt_decode : parser UnexpectedEnd VarInt := fun r =>
  match r with
  | [] => (Err mkUnexpectedEnd, [])
  | b :: r =>
      let tag := Z.shiftr b 6 in
      let b0 := Z.land b 63 in
      if tag =? 0 then (Ok (mkVarInt b0), r)
      else if tag =? 1 then VarInt_decode_tail b0 1 r
      else if tag =? 2 then VarInt_decode_tail b0 3 r
      else VarInt_decode_tail b0 7 r
  end.

Definition VarInt_encode (v : VarInt) : M (list Z) :=
  let x := into_inner v in
  if x <? 2 ^ 6 then Ret (be_bytes 1 x)
  else if x <? 2 ^ 14 then Ret (be_bytes 2 (Z.lor (Z.shiftl 1 14) (x mod 2 ^ 16)))
  else if x <? 2 ^ 30 then Ret (be_bytes 4 (Z.lor (Z.shiftl 2 30) (x mod 2 ^ 32)))
  else if x <? 2 ^ 62 then Ret (be_bytes 8 (Z.lor (Z.shiftl 3 62) x))
  else Panic.

#[global] Instance VarInt_Codec : Codec VarInt := {
  decode := VarInt_decode;
  encode := VarInt_encode
}.

(** [BufExt::get_var] and [BufMutExt::write_var]. *)
Definition get_var : parser UnexpectedEnd Z := v ← VarInt_decode; mret (into_inner v).

Definition write_var (x : Z) : M (list Z) :=
  match VarInt_from_u64 x with Ok v => VarInt_encode v | Err _ => Panic end.

(** Two writes to the same buffer. *)
Definition wapp (m n : M (list Z)) : M (list Z) := x ← m; y ← n; mret (x ++ y).
Notation "m ⧺ n" := (wapp m n) (at level 60, right associativity).

(** [m] writes what [p] reads back as [a], whatever follows. *)
Definition enc_ok {E A} (m : M (list Z)) (p : parser E A) (a : A) : Prop :=
  ∃ bs, m = Ret bs ∧ ∀ rest, p (bs ++ rest) = (Ok a, rest).

(** * Lemmas *)

Lemma be_bytes_length n x : length (be_bytes n x) = n.
Proof. induction n; simpl; [done|]. by rewrite IHn. Qed.

Lemma be_bytes_range n x : Forall (fun b => 0 <= b < 256) (be_bytes n x).
Proof.
  induction n; simpl; constructor; auto.
  change 255 with (Z.ones 8). rewrite Z.land_ones by lia. apply Z.mod_pos_bound. lia.
Qed.

Lemma fold_be_acc bs acc :
  fold_left (fun acc b => acc * 256 + b) bs acc = acc * 256 ^ len bs + from_be bs.
Proof.
  unfold from_be. revert acc. induction bs as [|b bs IH]; intros acc.
  { simpl. rewrite len_nil. lia. }
  cbn [fold_left]. rewrite IH, (IH (0 * 256 + b)), len_cons, Z.pow_add_r
    by (try apply len_nonneg; lia). ring.
Qed.

Lemma from_be_cons b bs : from_be (b :: bs) = b * 256 ^ len bs + from_be bs.
Proof. unfold from_be at 1. cbn [fold_left]. by rewrite fold_be_acc. Qed.

Lemma from_be_range bs :
  Forall (fun b => 0 <= b < 256) bs → 0 <= from_be bs < 256 ^ len bs.
Proof.
  induction 1 as [|b bs Hb Hbs IH]; [done|].
  rewrite from_be_cons, len_cons, Z.pow_add_r by (try apply len_nonneg; lia). nia.
Qed.

Lemma from_be_bytes n x : from_be (be_bytes n x) = x mod 256 ^ Z.of_nat n.
Proof.
  induction n as [|n IH]; [by rewrite Z.mod_1_r|].
  cbn [be_bytes]. rewrite from_be_cons, IH. unfold len. rewrite be_bytes_length.
  change 255 with (Z.ones 8). rewrite Z.land_ones, Z.shiftr_div_pow2 by lia.
  rewrite Z.pow_mul_r, Nat2Z.inj_succ, Z.pow_succ_r by lia.
  change (2 ^ 8) with 256. set (p := 256 ^ Z.of_nat n).
  assert (0 < p) by (apply Z.pow_pos_nonneg; lia).
  replace (256 * p) with (p * 256) by ring. rewrite Z.rem_mul_r by lia. ring.
Qed.

Lemma from_be_bytes_small n x :
  0 <= x < 256 ^ Z.of_nat n → from_be (be_bytes n x) = x.
Proof. intros. rewrite from_be_bytes. apply Z.mod_small. lia. Qed.

Lemma take_be_bytes n x rest : take n (be_bytes n x ++ rest) = be_bytes n x.
Proof. by rewrite take_app_length' by (by rewrite be_bytes_length). Qed.
Lemma drop_be_bytes n x rest : drop n (be_bytes n x ++ rest) = rest.
Proof. by rewrite drop_app_length' by (by rewrite be_bytes_length). Qed.

#[global] Instance uint_CodecOk n : CodecOk (uint n) uint_wf.
Proof.
  split. intros [x] Hx. exists (be_bytes n x). split; [done|].
  intros rest. unfold uint_wf in Hx. simpl in *.
  rewrite len_app. unfold len at 1. rewrite be_bytes_length.
  pose proof (len_nonneg rest). zcases; [lia|].
  by rewrite take_be_bytes, drop_be_bytes, from_be_bytes_small.
Qed.

#[global] Instance Ipv4Addr_CodecOk : CodecOk Ipv4Addr (fun a => length (octets4 a) = 4%nat).
Proof.
  split. intros [o] Ho. exists o. split; [done|]. intros rest. simpl in *.
  rewrite len_app. unfold len at 1. rewrite Ho. pose proof (len_nonneg rest).
  zcases; [lia|]. by rewrite take_app_length', drop_app_length'.
Qed.

#[global] Instance Ipv6Addr_CodecOk : CodecOk Ipv6Addr (fun a => length (octets6 a) = 16%nat).
Proof.
  split. intros [o] Ho. exists o. split; [done|]. intros rest. simpl in *.
  rewrite len_app. unfold len at 1. rewrite Ho. pose proof (len_nonneg rest).
  zcases; [lia|]. by rewrite take_app_length', drop_app_length'.
Qed.

(** Setting the two tag bits above a value is addition. *)
Lemma lor_tag t x k : 0 <= k → 0 <= x < 2 ^ k → Z.lor (Z.shiftl t k) x = t * 2 ^ k + x.
Proof.
  intros Hk Hx. rewrite <- Z.shiftl_mul_pow2 by lia.
  rewrite <- Z.lxor_lor, Z.add_nocarry_lxor; [done|..].
  all: apply Z.bits_inj'; intros i Hi; rewrite Z.land_spec, Z.bits_0.
  all: destruct (Z.ltb_spec i k); [by rewrite Z.shiftl_spec_low by lia|].
  all: destruct (Z.eq_dec x 0) as [->|]; [by rewrite Z.bits_0, andb_false_r|].
  all: rewrite (Z.bits_above_log2 x i), andb_false_r; [done|lia|].
  all: enough (Z.log2 x < k) by lia; apply Z.log2_lt_pow2; lia.
Qed.

(** The first byte of a tagged encoding, and what remains of the value when the
    tag is masked off. *)
Lemma VarInt_decode_tagged (n : nat) t x rest :
  0 <= t < 4 → 0 <= x < 2 ^ (8 * Z.of_nat n + 6) →
  let v := t * 2 ^ (8 * Z.of_nat n + 6) + x in
  ∃ b, be_bytes (S n) v = b :: be_bytes n v ∧ Z.shiftr b 6 = t ∧
       (t ≠ 0 → VarInt_decode_tail (Z.land b 63) n (be_bytes n v ++ rest) = (Ok (mkVarInt x), rest)).
Proof.
  intros Ht Hx v. set (p := 2 ^ (8 * Z.of_nat n)).
  assert (Hp : 0 < p) by (apply Z.pow_pos_nonneg; lia).
  assert (Hp6 : 2 ^ (8 * Z.of_nat n + 6) = 64 * p)
    by (unfold p; rewrite Z.pow_add_r by lia; change (2 ^ 6) with 64; ring).
  assert (Hv : v = t * (64 * p) + x) by (unfold v; by rewrite Hp6).
  assert (Hvp : v / p = t * 64 + x / p).
  { rewrite Hv. replace (t * (64 * p) + x) with (t * 64 * p + x) by ring.
    by rewrite Z.div_add_l by lia. }
  assert (Hxp : 0 <= x / p < 64).
  { split; [apply Z.div_pos; lia|apply Z.div_lt_upper_bound; lia]. }
  assert (Hb : Z.land (Z.shiftr v (8 * Z.of_nat n)) 255 = t * 64 + x / p).
  { change 255 with (Z.ones 8). rewrite Z.land_ones, Z.shiftr_div_pow2 by lia.
    fold p. rewrite Hvp. change (2 ^ 8) with 256. apply Z.mod_small. lia. }
  exists (t * 64 + x / p). cbn [be_bytes]. rewrite Hb. split; [done|split].
  - rewrite Z.shiftr_div_pow2 by lia. change (2 ^ 6) with 64.
    rewrite Z.div_add_l by lia. rewrite (Z.div_small (x / p)) by lia. lia.
  - intros _. unfold VarInt_decode_tail. rewrite len_app. unfold len at 1.
    rewrite be_bytes_length. pose proof (len_nonneg rest). zcases; [lia|].
    rewrite take_be_bytes, drop_be_bytes, from_be_cons, from_be_bytes.
    unfold len. rewrite be_bytes_length.
    change 63 with (Z.ones 6). rewrite Z.land_ones by lia. change (2 ^ 6) with 64.
    rewrite (Z.add_comm (t * 64)), Z.mod_add by lia. rewrite (Z.mod_small (x / p)) by lia.
    assert (256 ^ Z.of_nat n = p) as -> by (unfold p; rewrite Z.pow_mul_r by lia; done).
    rewrite Hv. replace (t * (64 * p) + x) with (x + t * 64 * p) by ring.
    rewrite Z.mod_add by lia. repeat f_equal.
    pose proof (Z.div_mod x p). lia.
Qed.

Lemma VarInt_decode_small x rest :
  0 <= x < 2 ^ 6 → VarInt_decode (be_bytes 1 x ++ rest) = (Ok (mkVarInt x), rest).
Proof.
  intros Hx. cbn [be_bytes app VarInt_decode]. rewrite Z.shiftr_0_r.
  change 255 with (Z.ones 8). change 63 with (Z.ones 6).
  rewrite !Z.land_ones, Z.shiftr_div_pow2 by lia.
  rewrite !(Z.mod_small x) by lia. by rewrite Z.div_small by lia.
Qed.

Lemma VarInt_encode_decode v :
  VarInt_wf v → ∃ bs, VarInt_encode v = Ret bs ∧ VarInt_size v = Ret (len bs) ∧
    ∀ rest, VarInt_decode (bs ++ rest) = (Ok v, rest).
Proof.
  destruct v as [x]. unfold VarInt_wf, VarInt_encode, VarInt_size. simpl into_inner. intros Hx.
  assert (Hgo : ∀ (n : nat) t, 0 < t < 4 → 0 <= x < 2 ^ (8 * Z.of_nat n + 6) →
     (if t =? 1 then 1%nat else if t =? 2 then 3%nat else 7%nat) = n →
     ∀ rest, VarInt_decode (be_bytes (S n) (t * 2 ^ (8 * Z.of_nat n + 6) + x) ++ rest)
             = (Ok (mkVarInt x), rest)).
  { intros n t Ht Hx' Hn rest.
    destruct (VarInt_decode_tagged n t x rest) as (b & -> & Hb & Hd); [lia|done|].
    cbn [app VarInt_decode]. rewrite Hb.
    destruct (Z.eqb_spec t 0); [lia|]. specialize (Hd n0).
    destruct (t =? 1); [by subst n|]. destruct (t =? 2); by subst n. }
  repeat case_match; try discriminate; zcases; try lia;
    eexists; (split; [done|]); (split; [by unfold len; rewrite be_bytes_length|]).
  - intros rest. apply VarInt_decode_small. lia.
  - rewrite Z.mod_small, lor_tag by lia. apply (Hgo 1%nat 1); done || lia.
  - rewrite Z.mod_small, lor_tag by lia. apply (Hgo 3%nat 2); done || lia.
  - rewrite lor_tag by lia. apply (Hgo 7%nat 3); done || lia.
Qed.

#[global] Instance VarInt_CodecOk : CodecOk VarInt VarInt_wf.
Proof.
  split. intros v Hv. destruct (VarInt_encode_decode v Hv) as (bs & H1 & _ & H2).
  by exists bs.
Qed.

(** * Composing encoders and decoders *)

Lemma enc_bind {E A B} (m n : M (list Z)) (p : parser E A) (k : A → parser E B) a b :
  enc_ok m p a → enc_ok n (k a) b → enc_ok (m ⧺ n) (p ≫= k) b.
Proof.
  intros (x & -> & Hx) (y & -> & Hy). exists (x ++ y). split; [done|].
  intros rest. unfold mbind, parser_bind. rewrite <- app_assoc, Hx. apply Hy.
Qed.

Lemma enc_last {E A B} (m : M (list Z)) (p : parser E A) (f : A → B) a b :
  enc_ok m p a → b = f a → enc_ok m (p ≫= (fun x => mret (f x))) b.
Proof.
  intros (x & -> & Hx) ->. exists x. split; [done|].
  intros rest. unfold mbind, parser_bind. by rewrite Hx.
Qed.

Lemma enc_ret {E A} (a : A) : enc_ok (E := E) (Ret []) (mret a) a.
Proof. by exists []. Qed.

Lemma enc_map_err {E F A} (g : E → F) (m : M (list Z)) (p : parser E A) a :
  enc_ok m p a → enc_ok m (map_err g p) a.
Proof. intros (x & -> & Hx). exists x. split; [done|]. intros rest. unfold map_err. by rewrite Hx. Qed.

Lemma enc_codec {A} (wf : A → Prop) `{CodecOk A wf} a : wf a → enc_ok (encode a) decode a.
Proof. intros Ha. destruct (encode_decode a Ha) as (bs & Hb & Hd). by exists bs. Qed.

Lemma enc_varint v : VarInt_wf v → enc_ok (VarInt_encode v) VarInt_decode v.
Proof. intros Hv. exact (enc_codec VarInt_wf v Hv). Qed.

Lemma write_var_encode x : 0 <= x < 2 ^ 62 → write_var x = VarInt_encode (mkVarInt x).
Proof. intros Hx. unfold write_var, VarInt_from_u64. zcases; [done|lia]. Qed.

Lemma enc_var x : 0 <= x < 2 ^ 62 → enc_ok (write_var x) get_var x.
Proof.
  intros Hx. rewrite write_var_encode by done.
  destruct (enc_varint (mkVarInt x) Hx) as (bs & Hb & Hd). exists bs. split; [done|].
  intros rest. unfold get_var, mbind, parser_bind. by rewrite Hd.
Qed.

(** The number of bytes of an encoded integer. *)
Definition var_size (x : Z) : Z := if x <? 2 ^ 6 then 1 else if x <? 2 ^ 14 then 2
  else if x <? 2 ^ 30 then 4 else 8.

Lemma var_size_range x : 1 <= var_size x <= 8.
Proof. unfold var_size. zcases; lia. Qed.

Lemma VarInt_size_ok x : 0 <= x < 2 ^ 62 → VarInt_size (mkVarInt x) = Ret (var_size x).
Proof. intros. unfold VarInt_size, var_size. simpl into_inner. zcases; done || lia. Qed.

Lemma write_var_len x bs : write_var x = Ret bs → len bs = var_size x.
Proof.
  unfold write_var, VarInt_from_u64, VarInt_encode, var_size.
  destruct (Z.ltb_spec x (2 ^ 62)); [|done]. cbn [into_inner].
  zcases; try lia; intros [= <-]; reflexivity.
Qed.

Lemma write_var_ok x : 0 <= x < 2 ^ 62 → ∃ bs, write_var x = Ret bs ∧ len bs = var_size x.
Proof.
  intros Hx. destruct (enc_var x Hx) as (bs & Hb & _). exists bs. split; [done|].
  by apply write_var_len.
Qed.

(** The length a first byte announces. *)
Definition varint_len (b : Z) : Z := 2 ^ Z.shiftr b 6.

Lemma byte_tag b : 0 <= b < 256 → 0 <= Z.shiftr b 6 < 4.
Proof.
  intros Hb. rewrite Z.shiftr_div_pow2 by lia. change (2 ^ 6) with 64.
  split; [apply Z.div_pos; lia|apply Z.div_lt_upper_bound; lia].
Qed.

(** Every byte string is decoded or rejected for its length alone. *)
Lemma VarInt_decode_tail_spec b0 (k : nat) r :
  0 <= b0 < 64 → Forall (fun b => 0 <= b < 256) r →
  if len r <? Z.of_nat k then VarInt_decode_tail b0 k r = (Err mkUnexpectedEnd, r)
  else ∃ x, VarInt_decode_tail b0 k r = (Ok (mkVarInt x), drop k r) ∧
            0 <= x < 2 ^ (8 * Z.of_nat k + 6).
Proof.
  intros Hb Hr. unfold VarInt_decode_tail. zcases; [done|]. eexists. split; [done|].
  rewrite from_be_cons. pose proof (from_be_range (take k r) ltac:(by apply Forall_take)) as Hx.
  assert (Hl : len (take k r) = Z.of_nat k) by (unfold len in *; rewrite length_take; lia).
  rewrite Hl in *. rewrite Z.pow_add_r, Z.pow_mul_r by lia. change (2 ^ 8) with 256. change (2 ^ 6) with 64.
  nia.
Qed.

(** Every input is decoded or rejected for its length alone. *)
Lemma VarInt_decode_spec b bs :
  Forall (fun b => 0 <= b < 256) (b :: bs) →
  if len (b :: bs) <? varint_len b then fst (VarInt_decode (b :: bs)) = Err mkUnexpectedEnd
  else ∃ v, VarInt_decode (b :: bs) = (Ok v, dropZ (varint_len b) (b :: bs)) ∧ VarInt_wf v.
Proof.
  intros [Hb Hbs]%Forall_cons. pose proof (byte_tag b Hb) as Ht.
  assert (H63 : 0 <= Z.land b 63 < 64).
  { change 63 with (Z.ones 6). rewrite Z.land_ones by lia. apply Z.mod_pos_bound. lia. }
  pose proof (len_nonneg bs). rewrite len_cons. cbn [VarInt_decode]. unfold varint_len.
  assert (Hgo : ∀ k : nat, (k <= 7)%nat → 2 ^ Z.shiftr b 6 = Z.of_nat k + 1 →
    if len bs + 1 <? 2 ^ Z.shiftr b 6
    then fst (VarInt_decode_tail (Z.land b 63) k bs) = Err mkUnexpectedEnd
    else ∃ v, VarInt_decode_tail (Z.land b 63) k bs = (Ok v, dropZ (2 ^ Z.shiftr b 6) (b :: bs)) ∧
              VarInt_wf v).
  { intros k Hk Hp. pose proof (VarInt_decode_tail_spec (Z.land b 63) k bs H63 Hbs) as Hd.
    rewrite Hp. revert Hd. zcases; try lia.
    - by intros ->.
    - intros (x & -> & Hx). exists (mkVarInt x). split.
      + f_equal. unfold dropZ. replace (Z.to_nat (Z.of_nat k + 1)) with (S k) by lia. done.
      + split; simpl; [lia|]. eapply Z.lt_le_trans; [apply Hx|]. apply Z.pow_le_mono_r; lia. }
  replace (1 + len bs) with (len bs + 1) by lia.
  assert (Z.shiftr b 6 = 0 ∨ Z.shiftr b 6 = 1 ∨ Z.shiftr b 6 = 2 ∨ Z.shiftr b 6 = 3)
    as [E|[E|[E|E]]] by lia; rewrite E in *; cbn -[Z.land VarInt_decode_tail Z.ltb len].
  - zcases; [lia|]. exists (mkVarInt (Z.land b 63)). split; [done|]. split; simpl; lia.
  - apply (Hgo 1%nat); [lia|done].
  - apply (Hgo 3%nat); [lia|done].
  - apply (Hgo 7%nat); [lia|done].
Qed.

(** A decoder that succeeds depends only on the bytes it consumes. *)
Lemma VarInt_decode_local bs v r :
  VarInt_decode bs = (Ok v, r) →
  ∃ p, bs = p ++ r ∧ p ≠ [] ∧ ∀ t, VarInt_decode (p ++ t) = (Ok v, t).
Proof.
  destruct bs as [|b bs]; [done|]. cbn [VarInt_decode].
  assert (Htail : ∀ b0 k, VarInt_decode_tail b0 k bs = (Ok v, r) →
    ∃ p, bs = p ++ r ∧ ∀ t, VarInt_decode_tail b0 k (p ++ t) = (Ok v, t)).
  { intros b0 k. unfold VarInt_decode_tail. zcases; [done|]. intros [= <- <-].
    exists (take k bs). split; [by rewrite take_drop|]. intros t.
    assert (Hl : length (take k bs) = k) by (rewrite length_take; unfold len in *; lia).
    rewrite len_app. unfold len at 1. rewrite Hl. pose proof (len_nonneg t). zcases; [lia|].
    by rewrite take_app_length', drop_app_length'. }
  repeat case_match; try (intros (p & -> & Hp)%Htail); try (intros [= <- <-]).
  - exists [b]. split; [done|]. split; [done|]. intros t. cbn [app VarInt_decode]. by zcases.
  - exists (b :: p). split; [done|]. split; [done|]. intros t. cbn [app VarInt_decode]. rewrite <- Hp. by zcases.
  - exists (b :: p). split; [done|]. split; [done|]. intros t. cbn [app VarInt_decode]. rewrite <- Hp. by zcases.
  - exists (b :: p). split; [done|]. split; [done|]. intros t. cbn [app VarInt_decode]. rewrite <- Hp. by zcases.
Qed.

Lemma get_var_local bs x r :
  get_var bs = (Ok x, r) → ∃ p, bs = p ++ r ∧ p ≠ [] ∧ ∀ t, get_var (p ++ t) = (Ok x, t).
Proof.
  unfold get_var, mbind, parser_bind. destruct (VarInt_decode bs) as [[v|] r'] eqn:Hd; [|done].
  intros [= <- <-]. destruct (VarInt_decode_local _ _ _ Hd) as (p & -> & Hp & Ht).
  exists p. split; [done|]. split; [done|]. intros t. by rewrite Ht.
Qed.

Lemma get_var_range bs x r :
  Forall (fun b => 0 <= b < 256) bs → get_var bs = (Ok x, r) → 0 <= x < 2 ^ 62.
Proof.
  intros Hb. unfold get_var, mbind, parser_bind. destruct bs as [|b bs]; [done|].
  pose proof (VarInt_decode_spec b bs Hb) as Hs. revert Hs. case_match.
  - destruct (VarInt_decode (b :: bs)) as [[v|] r'] eqn:Hd; [done|]. by intros _.
  - intros (v & -> & Hv). by intros [= <- <-].
Qed.

(** * Properties *)

(** Encoding a [VarInt] below [2^62] does not panic and appends exactly
    [size()] bytes; decoding them, whatever follows, gives the same integer and
    leaves exactly what follows. *)
Theorem varint_roundtrip v rest :
  VarInt_wf v →
  ∃ bs, VarInt_encode v = Ret bs ∧ VarInt_size v = Ret (len bs) ∧
    VarInt_decode (bs ++ rest) = (Ok v, rest).
Proof.
  intros Hv. destruct (VarInt_encode_decode v Hv) as (bs & ? & ? & Hd). exists bs. by rewrite Hd.
Qed.

Lemma varint_roundtrip_witness :
  ∃ bs, VarInt_encode (mkVarInt 494878333) = Ret bs ∧
    VarInt_size (mkVarInt 494878333) = Ret (len bs) ∧
    VarInt_decode (bs ++ [7]) = (Ok (mkVarInt 494878333), [7]).
Proof. apply (varint_roundtrip (mkVarInt 494878333) [7]). unfold VarInt_wf. simpl. lia. Defined.

(** Decoding a [VarInt] from arbitrary bytes fails exactly when the input is
    shorter than the length announced by the two high bits of the first byte;
    otherwise it consumes exactly that length and yields an integer below [2^62],
    so a decoded [VarInt] always satisfies the type's invariant. *)
Theorem varint_decode_total b bs :
  Forall (fun b => 0 <= b < 256) (b :: bs) →
  if len (b :: bs) <? varint_len b then fst (VarInt_decode (b :: bs)) = Err mkUnexpectedEnd
  else ∃ v, VarInt_decode (b :: bs) = (Ok v, dropZ (varint_len b) (b :: bs)) ∧ VarInt_wf v.
Proof. apply VarInt_decode_spec. Qed.

Lemma varint_decode_total_witness :
  fst (VarInt_decode [157; 127]) = Err mkUnexpectedEnd ∧
  ∃ v, VarInt_decode [123; 189; 9] = (Ok v, [9]) ∧ VarInt_wf v.
Proof.
  split.
  - apply (varint_decode_total 157 [127]). repeat constructor; lia.
  - apply (varint_decode_total 123 [189; 9]). repeat constructor; lia.
Defined.
