(* ===== verification/RangeSet.v ===== *)
(** Sets of [u64] kept as disjoint ranges: [quic-proto/src/range_set/].

    [Module BTree] models [RangeSet] ([btree_range_set.rs]) and [Module Arr]
    models [ArrayRangeSet] ([array_range_set.rs]).  A [BTreeMap<u64, u64>] is
    the list of its entries in key order; the entry [start -> end] is the
    [Range] [start..end].  The array version keeps the same ranges in a vector.
    Both are compared with the reference function [ins_ref]. *)
From S2P Require Import Prelude.

(** * The standard library's ordered map *)

Module BTreeMap.

(** [BTreeMap::insert]: overwrites the value of an existing key. *)
Fixpoint insert (r : Range) (m : list Range) : list Range :=
  match m with
  | [] => [r]
  | p :: m' =>
      if rstart r <? rstart p then r :: p :: m'
      else if rstart r =? rstart p then r :: m'
      else p :: insert r m'
  end.

(** [BTreeMap::remove] of a key. *)
Fixpoint remove (k : Z) (m : list Range) : list Range :=
  match m with
  | [] => []
  | p :: m' => if rstart p =? k then m' else p :: remove k m'
  end.

End BTreeMap.

(** * [RangeSet] *)

Module BTree.

Definition new : list Range := [].

(** [self.0.range((Included(0), Included(x))).next_back()]. *)
Definition pred (m : list Range) (x : Z) : option Range :=
  last (filter (fun p => 0 <= rstart p ∧ rstart p <= x) m).

(** [self.0.range((Excluded(x), Included(u64::MAX))).next()]. *)
Definition succ (m : list Range) (x : Z) : option Range :=
  head (filter (fun p => x < rstart p ∧ rstart p <= u64_max) m).

Definition is_empty (m : list Range) : bool := match m with [] => true | _ => false end.
Definition min (m : list Range) : option Z := rstart <$> head m.
Definition peek_min (m : list Range) : option Range := head m.
Definition pop_min (m : list Range) : option Range * list Range :=
  match peek_min m with
  | None => (None, m)
  | Some r => (Some r, BTreeMap.remove (rstart r) m)
  end.
Definition iter (m : list Range) : list Range := m.

(** The [while let Some(..) = self.succ(x.start)] loop of [insert]; every
    iteration removes an entry, so [length m] iterations are enough. *)
Fixpoint insert_loop (fuel : nat) (m : list Range) (x : Range) : list Range * Range :=
  match fuel with
  | O => (m, x)
  | S fuel =>
      match succ m (rstart x) with
      | None => (m, x)
      | Some next =>
          if rend x <? rstart next then (m, x)
          else insert_loop fuel (BTreeMap.remove (rstart next) m)
                 (mkRange (rstart x) (Z.max (rend next) (rend x)))
      end
  end.

Definition insert_rest (m : list Range) (x : Range) : list Range * bool :=
  let '(m, x) := insert_loop (length m) m x in
  (BTreeMap.insert x m, true).

Definition insert (m : list Range) (x : Range) : list Range * bool :=
  if range_is_empty x then (m, false)
  else
    match pred m (rstart x) with
    | Some p =>
        if rend x <=? rend p then (m, false)
        else if rstart x <=? rend p then
          insert_rest (BTreeMap.remove (rstart p) m) (mkRange (rstart p) (rend x))
        else insert_rest m x
    | None => insert_rest m x
    end.

(** The iterator [Replace] returned by [RangeSet::replace]. *)
Record Replace : Type := mkReplace {
  r_set : list Range;
  r_pred : option Range;
  r_range : Range
}.

Definition replace (m : list Range) (range : Range) : Replace :=
  match pred m (rstart range) with
  | Some p =>
      if rstart range <=? rend p then
        let replaced := mkRange (rstart range) (Z.min (rend range) (rend p)) in
        {| r_set := BTreeMap.remove (rstart p) m;
           r_pred := if rstart replaced =? rend replaced then None else Some replaced;
           r_range := mkRange (Z.min (rstart range) (rstart p)) (Z.max (rend range) (rend p)) |}
      else {| r_set := m; r_pred := None; r_range := range |}
  | None => {| r_set := m; r_pred := None; r_range := range |}
  end.

(** [Replace::next]. *)
Definition replace_next (s : Replace) : option Range * Replace :=
  match r_pred s with
  | Some p => (Some p, {| r_set := r_set s; r_pred := None; r_range := r_range s |})
  | None =>
      match succ (r_set s) (rstart (r_range s)) with
      | None => (None, s)
      | Some next =>
          if rend (r_range s) <? rstart next then (None, s)
          else
            let replaced_end := Z.min (rend (r_range s)) (rend next) in
            let s' := {| r_set := BTreeMap.remove (rstart next) (r_set s);
                         r_pred := None;
                         r_range := mkRange (rstart (r_range s))
                                      (Z.max (rend (r_range s)) (rend next)) |} in
            if rstart next =? replaced_end then (None, s')
            else (Some (mkRange (rstart next) replaced_end), s')
      end
  end.

(** A [for] loop over the iterator: the items up to the first [None]. *)
Fixpoint replace_run (fuel : nat) (s : Replace) : list Range * Replace :=
  match fuel with
  | O => ([], s)
  | S fuel =>
      match replace_next s with
      | (None, s') => ([], s')
      | (Some r, s') => let '(rs, s'') := replace_run fuel s' in (r :: rs, s'')
      end
  end.

(** Fuel for a [replace_run]: one item for [pred], one per entry, one for the
    final [None]. *)
Definition replace_fuel (s : Replace) : nat := S (S (length (r_set s))).

(** [Drop for Replace]: drain, then insert the aggregate range. *)
Definition replace_drop (s : Replace) : list Range :=
  let '(_, s') := replace_run (replace_fuel s) s in
  BTreeMap.insert (r_range s') (r_set s').

(** [for item in self.replace(range) { .. }]: the items the body sees, and the
    set once the iterator is dropped. *)
Definition replace_for (m : list Range) (range : Range) : list Range * list Range :=
  let s := replace m range in
  let '(items, s') := replace_run (replace_fuel s) s in
  (items, replace_drop s').

End BTree.

(** * [ArrayRangeSet] *)

Module Arr.

Definition new : list Range := [].
Definition iter (v : list Range) : list Range := v.
Definition size (v : list Range) : Z := len v.
Definition is_empty (v : list Range) : bool := match v with [] => true | _ => false end.

(** The inner loop of [insert]: merge the ranges after [curr] that it reaches. *)
Fixpoint merge_following (curr : Range) (rest : list Range) : list Range :=
  match rest with
  | [] => [curr]
  | next :: rest' =>
      if rstart next <=? rend curr then
        merge_following (mkRange (rstart curr) (Z.max (rend next) (rend curr))) rest'
      else curr :: rest
  end.

(** The outer loop of [insert] from the current index on; [result] is the local
    variable of the source. *)
Fixpoint insert_from (v : list Range) (x : Range) (result : bool) : list Range * bool :=
  match v with
  | [] => ([x], true)
  | range :: rest =>
      if rend x <? rstart range then (x :: range :: rest, true)
      else
        let extend := rstart x <? rstart range in
        let result := if extend then true else result in
        let range := if extend then mkRange (rstart x) (rend range) else range in
        if rend x <=? rend range then (range :: rest, result)
        else if rstart x <=? rend range then
          (merge_following (mkRange (rstart range) (rend x)) rest, true)
        else
          let '(rest', b) := insert_from rest x result in (range :: rest', b)
  end.

Definition insert (v : list Range) (x : Range) : list Range * bool :=
  if range_is_empty x then (v, false) else insert_from v x false.

(** [self.insert(x..x + 1)]. *)
Definition insert_one (v : list Range) (x : Z) : M (list Range * bool) :=
  x1 ← uadd x 1; mret (insert v (mkRange x x1)).

Fixpoint remove_from (v : list Range) (x : Range) (result : bool) : list Range * bool :=
  match v with
  | [] => ([], result)
  | range :: rest =>
      if rstart x =? rend x then (v, result)
      else if rend x <=? rstart range then (v, result)
      else if rend range <=? rstart x then
        let '(rest', b) := remove_from rest x result in (range :: rest', b)
      else
        let left := mkRange (rstart range) (rstart x) in
        let right := mkRange (rend x) (rend range) in
        let '(rest', b) := remove_from rest x true in
        if range_is_empty left && range_is_empty right then (rest', b)
        else if range_is_empty left then (right :: rest', b)
        else if range_is_empty right then (left :: rest', b)
        else (left :: right :: rest', b)
  end.

Definition remove (v : list Range) (x : Range) : list Range * bool :=
  if range_is_empty x then (v, false) else remove_from v x false.

Definition pop_min (v : list Range) : option Range * list Range :=
  match v with [] => (None, []) | r :: v' => (Some r, v') end.

Definition max (v : list Range) : M (option Z) :=
  match last v with
  | None => mret None
  | Some r => m ← usub (rend r) 1; mret (Some m)
  end.

(** [self.iter().flatten()]. *)
Definition elts (v : list Range) : list Z :=
  concat (map (fun r => seqZ (rstart r) (rend r - rstart r)) v).

Definition contains (v : list Range) (x : Z) : bool :=
  (fix go v :=
     match v with
     | [] => false
     | range :: v' =>
         if x <? rstart range then false
         else if (rstart range <=? x) && (x <? rend range) then true
         else go v'
     end) v.

End Arr.

(** * Specification *)

(** The set of integers a list of ranges stands for. *)
Definition rs_in (x : Z) (m : list Range) : Prop :=
  Exists (fun r => rstart r <= x < rend r) m.

#[global] Instance rs_in_dec x m : Decision (rs_in x m).
Proof. unfold rs_in. apply _. Defined.

(** The representation invariant: ranges in increasing order, none empty, and
    no two adjacent (they would have been merged). *)
Fixpoint wf_from (lo : Z) (m : list Range) : Prop :=
  match m with
  | [] => True
  | r :: m' => lo <= rstart r ∧ rstart r < rend r ∧ rend r <= u64_max ∧ wf_from (rend r + 1) m'
  end.

Definition wf (m : list Range) : Prop := wf_from 0 m.

(** Reference insertion of [s..e] in one pass. *)
Fixpoint ins_ref (m : list Range) (s e : Z) : list Range :=
  match m with
  | [] => [mkRange s e]
  | r :: m' =>
      if e <? rstart r then mkRange s e :: m
      else if rend r <? s then r :: ins_ref m' s e
      else ins_ref m' (Z.min (rstart r) s) (Z.max (rend r) e)
  end.

(** The non-empty intersections of the ranges of [m] with [s..e], in order. *)
Fixpoint isect (m : list Range) (s e : Z) : list Range :=
  match m with
  | [] => []
  | r :: m' =>
      let lo := Z.max (rstart r) s in
      let hi := Z.min (rend r) e in
      if lo <? hi then mkRange lo hi :: isect m' s e else isect m' s e
  end.

(** Number of integers in a list of disjoint ranges. *)
Definition rs_size (m : list Range) : Z :=
  fold_right (fun r n => rend r - rstart r + n) 0 m.

(** Whether one range of [m] contains all of [s..e]. *)
Definition covered (m : list Range) (s e : Z) : bool :=
  existsb (fun r => (rstart r <=? s) && (e <=? rend r)) m.

(** The invariant of a concrete set. *)
Ltac rs_wf := unfold wf; simpl; unfold u64_max; lia.

(** * Lemmas on the specification *)

Lemma wf_from_mono lo lo' m : lo' <= lo → wf_from lo m → wf_from lo' m.
Proof. destruct m; simpl; [done|]. intros ? (?&?&?&?). repeat split; auto; lia. Qed.

Lemma wf_from_Forall lo m :
  wf_from lo m → Forall (fun r => lo <= rstart r ∧ rstart r < rend r ∧ rend r <= u64_max) m.
Proof.
  revert lo. induction m as [|r m IH]; intros lo; [constructor|].
  intros (?&?&?&Hm). constructor; [lia|].
  eapply Forall_impl; [apply (IH _ Hm)|]. simpl. lia.
Qed.

Lemma wf_from_app lo l k :
  wf_from lo (l ++ k) → wf_from lo l ∧ wf_from lo k ∧
  Forall (fun p => Forall (fun q => rend p < rstart q) k) l.
Proof.
  revert lo. induction l as [|r l IH]; intros lo; simpl; [done|].
  intros (?&?&?&Hm). destruct (IH _ Hm) as (?&Hk&?). repeat split; auto; try lia.
  - eapply wf_from_mono; [|done]. lia.
  - constructor; [|done]. eapply Forall_impl; [by apply wf_from_Forall|]. simpl. lia.
Qed.

Lemma rs_in_nil x : rs_in x [] ↔ False.
Proof. apply Exists_nil. Qed.
Lemma rs_in_cons x r m : rs_in x (r :: m) ↔ rstart r <= x < rend r ∨ rs_in x m.
Proof. apply Exists_cons. Qed.
Lemma rs_in_app x l k : rs_in x (l ++ k) ↔ rs_in x l ∨ rs_in x k.
Proof. apply Exists_app. Qed.

Lemma rs_in_bounds lo m x : wf_from lo m → rs_in x m → lo <= x < u64_max.
Proof.
  intros Hw Hx. apply wf_from_Forall in Hw. unfold rs_in in Hx.
  rewrite Exists_exists in Hx. destruct Hx as (r & Hr & ?).
  rewrite Forall_forall in Hw. specialize (Hw r Hr). lia.
Qed.

Lemma ins_ref_in m s e lo x :
  wf_from lo m → s < e → rs_in x (ins_ref m s e) ↔ rs_in x m ∨ s <= x < e.
Proof.
  revert s e lo. induction m as [|r m IH]; intros s e lo; simpl.
  { intros _ ?. rewrite rs_in_cons, !rs_in_nil. simpl. tauto. }
  intros (?&?&?&Hm) ?. zcases.
  - rewrite !rs_in_cons. simpl. tauto.
  - rewrite !rs_in_cons. rewrite (IH _ _ _ Hm) by lia. tauto.
  - rewrite (IH _ _ _ Hm) by lia. rewrite rs_in_cons.
    assert (Z.min (rstart r) s <= x < Z.max (rend r) e ↔
            rstart r <= x < rend r ∨ s <= x < e) as -> by lia. tauto.
Qed.

Lemma ins_ref_wf m s e lo :
  wf_from lo m → lo <= s → s < e → e <= u64_max → wf_from lo (ins_ref m s e).
Proof.
  revert s e lo. induction m as [|r m IH]; intros s e lo; simpl.
  { intros. repeat split; auto; lia. }
  intros (?&?&?&Hm) ???. zcases; simpl.
  - repeat split; auto; lia.
  - repeat split; auto; try lia. apply IH; auto; lia.
  - apply IH; try lia. eapply wf_from_mono; [|done]. lia.
Qed.

(** The invariant makes the representation canonical. *)
Lemma wf_from_ext lo m1 m2 :
  wf_from lo m1 → wf_from lo m2 → (∀ x, rs_in x m1 ↔ rs_in x m2) → m1 = m2.
Proof.
  revert lo m2. induction m1 as [|r1 m1 IH]; intros lo m2 H1 H2 Heq.
  { destruct m2 as [|r2 m2]; [done|]. exfalso. destruct H2 as (?&?&?).
    apply (rs_in_nil (rstart r2)), Heq, rs_in_cons. lia. }
  destruct m2 as [|r2 m2].
  { exfalso. destruct H1 as (?&?&?).
    apply (rs_in_nil (rstart r1)), Heq, rs_in_cons. lia. }
  destruct H1 as (?&?&?&Hm1), H2 as (?&?&?&Hm2).
  assert (Hb1 : ∀ x, rs_in x m1 → rend r1 + 1 <= x) by (intros; eapply rs_in_bounds; eauto).
  assert (Hb2 : ∀ x, rs_in x m2 → rend r2 + 1 <= x) by (intros; eapply rs_in_bounds; eauto).
  assert (Heq' : ∀ x, (rstart r1 <= x < rend r1 ∨ rs_in x m1) ↔
                      (rstart r2 <= x < rend r2 ∨ rs_in x m2)).
  { intros x. by rewrite <- !rs_in_cons. }
  assert (Hs : rstart r1 = rstart r2).
  { pose proof (Heq' (rstart r1)) as [Ha _]. pose proof (Heq' (rstart r2)) as [_ Hb].
    destruct Ha as [|Ha%Hb2]; [lia|..]; destruct Hb as [|Hb%Hb1]; lia. }
  assert (He : rend r1 = rend r2).
  { pose proof (Heq' (rend r1 - 1)) as [Ha _]. pose proof (Heq' (rend r2 - 1)) as [_ Hb].
    pose proof (Heq' (rend r1)) as [_ Hc]. pose proof (Heq' (rend r2)) as [Hd _].
    destruct (Z.lt_trichotomy (rend r1) (rend r2)) as [|[|]]; [|done|].
    - destruct Hc as [|Hc%Hb1]; lia.
    - destruct Hd as [|Hd%Hb2]; lia. }
  assert (r1 = r2) as -> by (destruct r1, r2; simpl in *; by subst).
  f_equal. apply (IH (rend r2 + 1)); [done..|].
  intros x. specialize (Heq' x). split; intros Hx.
  - pose proof (Hb1 x Hx). destruct Heq' as [[|] _]; auto; lia.
  - pose proof (Hb2 x Hx). destruct Heq' as [_ [|]]; auto; lia.
Qed.

Lemma ins_ref_skip l k s e :
  Forall (fun r => rend r < s ∧ rstart r <= e) l → ins_ref (l ++ k) s e = l ++ ins_ref k s e.
Proof. induction 1; simpl; [done|]. zcases; try lia. by rewrite IHForall. Qed.

Lemma covered_spec lo m s e :
  wf_from lo m → s < e → covered m s e = true ↔ (∀ x, s <= x < e → rs_in x m).
Proof.
  intros Hm Hse. unfold covered. rewrite existsb_exists. split.
  - intros (r & Hr & [?%Z.leb_le ?%Z.leb_le]%andb_prop) x Hx.
    apply Exists_exists. exists r. rewrite list_elem_of_In. split; [done|lia].
  - intros Hall. revert lo Hm. induction m as [|r m IH]; intros lo; simpl.
    { intros _. exfalso. apply (rs_in_nil s), Hall. lia. }
    intros (?&?&?&Hm).
    destruct (Z.le_gt_cases (rend r) s) as [Hs|Hs].
    { destruct (IH) with (lo := rend r + 1) as (r' & ? & ?); [|done|eauto].
      intros x Hx. destruct (proj1 (rs_in_cons _ _ _) (Hall x Hx)) as [|]; [lia|done]. }
    exists r. split; [by left|]. rewrite andb_true_iff, !Z.leb_le. split.
    + destruct (proj1 (rs_in_cons _ _ _) (Hall s ltac:(lia))) as [|Hx]; [lia|].
      pose proof (rs_in_bounds _ _ _ Hm Hx). lia.
    + destruct (Z.le_gt_cases e (rend r)); [done|].
      destruct (proj1 (rs_in_cons _ _ _) (Hall (rend r) ltac:(lia))) as [|Hx]; [lia|].
      pose proof (rs_in_bounds _ _ _ Hm Hx). lia.
Qed.

(** * [ArrayRangeSet] computes the reference *)

Lemma merge_following_ref curr rest lo :
  wf_from lo rest → rstart curr <= lo →
  Arr.merge_following curr rest = ins_ref rest (rstart curr) (rend curr).
Proof.
  revert curr lo. induction rest as [|r rest IH]; intros [s e] lo; [done|].
  simpl. intros (?&?&?&Hm) ?. zcases; try lia; [|done].
  rewrite (IH _ _ Hm) by (simpl; lia). simpl. f_equal; lia.
Qed.

Lemma ins_ref_front lo v s e : wf_from lo v → e < lo → ins_ref v s e = mkRange s e :: v.
Proof. destruct v; simpl; [done|]. intros (?&?) ?. zcases; [done|lia..]. Qed.

Lemma arr_insert_from_ref v s e lo b :
  wf_from lo v → s < e →
  Arr.insert_from v (mkRange s e) b = (ins_ref v s e, b || negb (covered v s e)).
Proof.
  revert lo b. induction v as [|r v IH]; intros lo b Hw Hse.
  { simpl. by rewrite orb_true_r. }
  destruct Hw as (?&?&?&Hv). simpl. pose proof (wf_from_Forall _ _ Hv) as Hall.
  assert (Hcov : s < rend r + 1 → covered v s e = false).
  { intros. unfold covered. apply not_true_is_false. rewrite existsb_exists.
    intros (r' & Hr' & [?%Z.leb_le _]%andb_prop).
    rewrite Forall_forall in Hall. apply list_elem_of_In, Hall in Hr'. lia. }
  destruct r as [a c]; simpl in *.
  destruct (Z.ltb_spec e a); [|destruct (Z.ltb_spec s a)]; simpl.
  - rewrite Hcov by lia. destruct (Z.leb_spec a s); [lia|]. by rewrite orb_true_r.
  - rewrite Hcov by lia. destruct (Z.leb_spec a s), (Z.ltb_spec c s); [lia..|]. simpl.
    rewrite orb_true_r. zcases; try lia.
    + erewrite Z.min_r, Z.max_l, ins_ref_front by (eauto || lia). done.
    + erewrite merge_following_ref by (eauto; simpl; lia). simpl. repeat f_equal; lia.
  - destruct (Z.leb_spec a s); [|lia]. destruct (Z.leb_spec e c); simpl.
    + destruct (Z.ltb_spec c s); [lia|]. rewrite orb_false_r.
      erewrite Z.min_l, Z.max_l, ins_ref_front by (eauto || lia). done.
    + destruct (Z.leb_spec s c), (Z.ltb_spec c s); try lia.
      * erewrite merge_following_ref by (eauto; simpl; lia). simpl.
        rewrite Hcov, orb_true_r by lia. repeat f_equal; lia.
      * by rewrite (IH _ _ Hv).
Qed.

Lemma arr_insert_ref v x lo :
  wf_from lo v → range_is_empty x = false →
  Arr.insert v x = (ins_ref v (rstart x) (rend x), negb (covered v (rstart x) (rend x))).
Proof.
  intros Hw Hx. unfold Arr.insert. rewrite Hx. destruct x as [s e].
  unfold range_is_empty in Hx. simpl in *. zcases; [|done].
  by rewrite (arr_insert_from_ref _ _ _ lo).
Qed.

(** * [RangeSet] computes the reference *)

(** A well-formed map splits at [x] into the entries [pred] and [succ] see. *)
Lemma wf_split lo m x :
  wf_from lo m → ∃ l k, m = l ++ k ∧
    Forall (fun r => rstart r <= x) l ∧ Forall (fun r => x < rstart r) k.
Proof.
  revert lo. induction m as [|r m IH]; intros lo; [by exists [], []|].
  intros (?&?&?&Hm). destruct (Z.le_gt_cases (rstart r) x) as [Hr|Hr].
  - destruct (IH _ Hm) as (l & k & -> & ? & ?). exists (r :: l), k. auto.
  - exists [], (r :: m). split; [done|split; [constructor|]].
    constructor; [done|]. eapply Forall_impl; [by apply wf_from_Forall|]. simpl. lia.
Qed.

Lemma filter_split {A} (P : A → Prop) `{∀ x, Decision (P x)} l k :
  Forall P l → Forall (fun x => ¬ P x) k → filter P (l ++ k) = l.
Proof.
  intros Hl Hk. rewrite filter_app. induction Hl as [|x l Hx Hl IH].
  - simpl. induction Hk; [done|]. by rewrite filter_cons_False.
  - rewrite filter_cons_True by done. simpl. by f_equal.
Qed.

Lemma filter_split_r {A} (P : A → Prop) `{∀ x, Decision (P x)} l k :
  Forall (fun x => ¬ P x) l → Forall P k → filter P (l ++ k) = k.
Proof.
  intros Hl Hk. rewrite filter_app.
  assert (filter P l = []) as ->. { induction Hl; [done|]. by rewrite filter_cons_False. }
  simpl. induction Hk; [done|]. rewrite filter_cons_True by done. by f_equal.
Qed.

Lemma pred_split l k x :
  0 <= x → wf_from 0 (l ++ k) → Forall (fun r => rstart r <= x) l →
  Forall (fun r => x < rstart r) k → BTree.pred (l ++ k) x = last l.
Proof.
  intros Hx Hw Hl Hk. unfold BTree.pred. rewrite filter_split; [done|..].
  - apply wf_from_app in Hw as (Hw%wf_from_Forall & _).
    rewrite Forall_forall in *. intros r Hr. specialize (Hl r Hr). specialize (Hw r Hr). lia.
  - eapply Forall_impl; [exact Hk|]. simpl. lia.
Qed.

Lemma succ_split l k x :
  wf_from 0 k → Forall (fun r => rstart r <= x) l →
  Forall (fun r => x < rstart r) k → BTree.succ (l ++ k) x = head k.
Proof.
  intros Hw Hl Hk. unfold BTree.succ. rewrite filter_split_r; [done|..].
  - eapply Forall_impl; [exact Hl|]. simpl. lia.
  - apply wf_from_Forall in Hw.
    rewrite Forall_forall in *. intros r Hr. specialize (Hk r Hr). specialize (Hw r Hr). lia.
Qed.

Lemma remove_split l r k :
  Forall (fun p => rstart p ≠ rstart r) l →
  BTreeMap.remove (rstart r) (l ++ r :: k) = l ++ k.
Proof. induction 1; simpl; zcases; try done. by f_equal. Qed.

Lemma bt_insert_split l r k :
  Forall (fun p => rstart p < rstart r) l → Forall (fun p => rstart r < rstart p) k →
  BTreeMap.insert r (l ++ k) = l ++ r :: k.
Proof.
  induction 1; simpl; intros Hk.
  - destruct Hk; simpl; [done|]. zcases; [done|lia..].
  - zcases; try lia. f_equal. auto.
Qed.

(** The merge loop absorbs the reachable prefix of the entries above [s]. *)
Lemma insert_loop_absorb fuel l k s e :
  wf_from 0 k → Forall (fun r => rstart r <= s) l → Forall (fun r => s < rstart r) k →
  (length k <= fuel)%nat → s < e → e <= u64_max →
  ∃ k' e', BTree.insert_loop fuel (l ++ k) (mkRange s e) = (l ++ k', mkRange s e') ∧
    Forall (fun r => s < rstart r) k' ∧ ins_ref k s e = mkRange s e' :: k'.
Proof.
  revert k e. induction fuel as [|fuel IH]; intros k e Hw Hl Hk Hf Hse He.
  { destruct k; [|simpl in Hf; lia]. exists [], e. auto. }
  simpl. rewrite succ_split by done. destruct k as [|r k]; simpl; [by exists [], e|].
  destruct Hw as (?&?&?&Hw). apply Forall_cons in Hk as [? Hk]. zcases.
  - exists (r :: k), e. auto.
  - lia.
  - rewrite remove_split by (eapply Forall_impl; [exact Hl|]; simpl; lia).
    destruct (IH k (Z.max (rend r) e)) as (k' & e' & -> & ? & Hi); auto; try lia.
    { eapply wf_from_mono; [|done]. lia. }
    { simpl in Hf. lia. }
    exists k', e'. repeat split; auto. rewrite <- Hi. f_equal; lia.
Qed.

Lemma insert_rest_ref l k s e :
  wf_from 0 k → Forall (fun r => rstart r < s) l → Forall (fun r => s < rstart r) k →
  s < e → e <= u64_max →
  BTree.insert_rest (l ++ k) (mkRange s e) = (l ++ ins_ref k s e, true).
Proof.
  intros Hw Hl Hk Hse He. unfold BTree.insert_rest.
  destruct (insert_loop_absorb (length (l ++ k)) l k s e) as (k' & e' & -> & Hk' & ->);
    auto; try lia.
  - eapply Forall_impl; [exact Hl|]. simpl. lia.
  - rewrite length_app. lia.
  - by rewrite bt_insert_split.
Qed.

Lemma covered_app l k s e : covered (l ++ k) s e = covered l s e || covered k s e.
Proof. apply existsb_app. Qed.

Lemma covered_false m s e :
  Forall (fun r => s < rstart r ∨ rend r < e) m → covered m s e = false.
Proof.
  induction 1 as [|r m Hr _ IH]; [done|]. simpl. rewrite IH, orb_false_r.
  zcases; simpl; try done; lia.
Qed.

(** The four ways [pred] at [s] can relate to the rest of a well-formed map. *)
Lemma wf_pred_cases m s :
  wf m → 0 <= s →
  ∃ l k, wf_from 0 k ∧ Forall (fun r => rend r < s ∧ rstart r < s) l ∧
    Forall (fun r => s < rstart r) k ∧
    ((m = l ++ k ∧ (BTree.pred m s = None ∨ ∃ p, BTree.pred m s = Some p ∧ rend p < s)) ∨
     ∃ p, m = l ++ p :: k ∧ BTree.pred m s = Some p ∧ rstart p <= s <= rend p ∧
          0 <= rstart p < rend p ∧ rend p <= u64_max ∧ wf_from (rend p + 1) k ∧
          Forall (fun r => rend r < rstart p ∧ rstart r < rstart p) l).
Proof.
  intros Hw Hs. destruct (wf_split 0 m s Hw) as (l & k & -> & Hl & Hk).
  destruct (wf_from_app _ _ _ Hw) as (Hwl & Hwk & _).
  pose proof (pred_split l k s Hs Hw Hl Hk) as Hp.
  destruct (last l) as [p|] eqn:Hlast; cycle 1.
  { apply last_None in Hlast as ->. exists [], k. repeat split; auto. }
  apply last_Some in Hlast as (l' & ->).
  apply Forall_app in Hl as [Hl [Hps _]%Forall_cons].
  rewrite <- app_assoc in Hw. destruct (wf_from_app _ _ _ Hw) as (Hwl' & Hwp & Hsep).
  simpl in Hwp, Hw. destruct Hwp as (?&?&?&?).
  assert (Hlt : Forall (fun r => rend r < rstart p ∧ rstart r < rstart p) l').
  { apply wf_from_Forall in Hwl'. rewrite Forall_forall in *. intros r Hr.
    specialize (Hsep r Hr). apply Forall_cons in Hsep as [? _].
    specialize (Hwl' r Hr). lia. }
  destruct (Z.le_gt_cases s (rend p)).
  - exists l', k. repeat split; auto.
    { eapply Forall_impl; [exact Hlt|]. simpl. lia. }
    right. exists p. rewrite <- app_assoc in *. repeat split; auto; lia.
  - exists (l' ++ [p]), k. repeat split; auto.
    { apply Forall_app. split; [|by repeat constructor; lia].
      eapply Forall_impl; [exact Hlt|]. simpl. lia. }
    left. split; [done|]. right. eauto.
Qed.

Lemma bt_insert_ref m s e :
  wf m → 0 <= s → s < e → e <= u64_max →
  BTree.insert m (mkRange s e) = (ins_ref m s e, negb (covered m s e)).
Proof.
  intros Hw Hs Hse He. unfold BTree.insert, range_is_empty. simpl.
  destruct (Z.ltb_spec s e); [simpl|lia].
  destruct (wf_pred_cases m s Hw Hs) as (l & k & Hwk & Hl & Hk & [[-> Hp]|(p & -> & -> & Hp)]).
  - rewrite covered_app, !covered_false, ins_ref_skip.
    + assert (BTree.insert_rest (l ++ k) (mkRange s e) = (l ++ ins_ref k s e, true)) as Hr.
      { apply insert_rest_ref; auto. eapply Forall_impl; [exact Hl|]. simpl. lia. }
      destruct Hp as [->|(p & -> & ?)]; [done|]. zcases; done || lia.
    + eapply Forall_impl; [exact Hl|]. simpl. lia.
    + eapply Forall_impl; [exact Hk|]. simpl. lia.
    + eapply Forall_impl; [exact Hl|]. simpl. lia.
  - destruct Hp as (?&?&?&Hwk'&Hlp).
    rewrite covered_app, (covered_false l), ins_ref_skip;
      [|eapply Forall_impl; [exact Hl|]; simpl; lia..].
    simpl. rewrite (covered_false k) by (eapply Forall_impl; [exact Hk|]; simpl; lia).
    destruct (Z.leb_spec (rstart p) s); [|lia]. rewrite orb_false_r. simpl.
    destruct (Z.ltb_spec e (rstart p)), (Z.ltb_spec (rend p) s); try lia.
    destruct (Z.leb_spec e (rend p)); simpl.
    + rewrite Z.min_l, Z.max_l by lia. erewrite ins_ref_front by (eauto; lia). by destruct p.
    + destruct (Z.leb_spec s (rend p)); [|lia].
      rewrite remove_split by (eapply Forall_impl; [exact Hlp|]; simpl; lia).
      rewrite insert_rest_ref, Z.min_l, Z.max_r by
        (auto || lia || (eapply Forall_impl; [eassumption|]; simpl; lia)). done.
Qed.

(** * [replace] *)

Lemma isect_app l k s e : isect (l ++ k) s e = isect l s e ++ isect k s e.
Proof. induction l; simpl; [done|]. case_match; by rewrite IHl. Qed.

Lemma isect_nil m s e : Forall (fun r => rend r <= s ∨ e <= rstart r) m → isect m s e = [].
Proof. induction 1; simpl; [done|]. zcases; [lia|done]. Qed.

Lemma isect_start m s s' e :
  Forall (fun r => s <= rstart r ∧ s' <= rstart r) m → isect m s e = isect m s' e.
Proof. induction 1; simpl; [done|]. rewrite IHForall, !Z.max_l by lia. done. Qed.

Lemma replace_run_spec fuel l k s e :
  wf_from 0 k → Forall (fun r => rstart r <= s) l → Forall (fun r => s < rstart r) k →
  (length k < fuel)%nat → s < e →
  ∃ k' e', BTree.replace_run fuel (BTree.mkReplace (l ++ k) None (mkRange s e))
           = (isect k s e, BTree.mkReplace (l ++ k') None (mkRange s e')) ∧
    ins_ref k s e = mkRange s e' :: k' ∧ wf_from (e' + 1) k' ∧ s < e' ∧
    Forall (fun r => s < rstart r) k' ∧ (length k' <= length k)%nat.
Proof.
  revert k e. induction fuel as [|fuel IH]; intros k e Hw Hl Hk Hf Hse; [lia|].
  cbn [BTree.replace_run]. unfold BTree.replace_next. simpl.
  rewrite succ_split by done. destruct k as [|r k]; simpl; [by exists [], e|].
  destruct Hw as (?&?&?&Hw). apply Forall_cons in Hk as [? Hk]. simpl in Hf.
  pose proof (wf_from_Forall _ _ Hw) as Hall.
  assert (Hnil : ∀ s' e', e' <= rend r → isect k s' e' = []).
  { intros. apply isect_nil. eapply Forall_impl; [exact Hall|]. simpl. lia. }
  destruct (Z.ltb_spec e (rstart r)).
  { exists (r :: k), e. rewrite Hnil by lia. zcases; [lia|]. repeat split; auto; lia. }
  rewrite remove_split by (eapply Forall_impl; [exact Hl|]; simpl; lia).
  destruct (Z.ltb_spec (rend r) s); [lia|].
  destruct (Z.eqb_spec (rstart r) (Z.min e (rend r))) as [Heq|Hne].
  - exists k, (Z.max (rend r) e). rewrite Hnil by lia.
    destruct (Z.ltb_spec (Z.max (rstart r) s) (Z.min (rend r) e)); [lia|].
    rewrite (Z.max_comm e). repeat split; auto; try lia.
    + erewrite ins_ref_front by (eauto; lia). f_equal. f_equal; lia.
    + eapply wf_from_mono; [|done]. lia.
  - destruct (IH k (Z.max e (rend r))) as (k' & e' & -> & Hi & Hw' & ? & ? & ?); auto; try lia.
    { eapply wf_from_mono; [|done]. lia. }
    exists k', e'. destruct (Z.ltb_spec (Z.max (rstart r) s) (Z.min (rend r) e)); [|lia].
    repeat split; auto; try lia.
    + f_equal. f_equal; [f_equal; lia|]. destruct (Z.le_gt_cases e (rend r)).
      * rewrite !Hnil by lia. done.
      * by rewrite Z.max_l by lia.
    + rewrite <- Hi. f_equal; lia.
Qed.

(** Draining and re-inserting after the loop body has run. *)
Lemma replace_drop_spec l k s e :
  wf_from (e + 1) k → Forall (fun r => rstart r < s) l → 0 <= s < e →
  BTree.replace_drop (BTree.mkReplace (l ++ k) None (mkRange s e)) = l ++ mkRange s e :: k.
Proof.
  intros Hw Hl Hse. unfold BTree.replace_drop, BTree.replace_fuel. simpl.
  pose proof (wf_from_Forall _ _ Hw) as Hall.
  destruct (replace_run_spec (S (S (length (l ++ k)))) l k s e) as (k' & e' & Hr & Hi & ?&?&?&?).
  - eapply wf_from_mono; [|done]. lia.
  - eapply Forall_impl; [exact Hl|]. simpl. lia.
  - eapply Forall_impl; [exact Hall|]. simpl. lia.
  - rewrite length_app. lia.
  - lia.
  - simpl in Hr. rewrite Hr. erewrite ins_ref_front in Hi by (eauto; lia).
    injection Hi as <- <-. simpl. apply bt_insert_split; simpl; auto.
Qed.

Lemma replace_run_pred fuel m p range :
  BTree.replace_run (S fuel) (BTree.mkReplace m (Some p) range) =
  let '(rs, s) := BTree.replace_run fuel (BTree.mkReplace m None range) in (p :: rs, s).
Proof. done. Qed.

(** The whole life of an iterator without a pending [pred] item. *)
Lemma replace_tail fuel l k s e :
  wf_from 0 k → Forall (fun r => rstart r < s) l → Forall (fun r => s < rstart r) k →
  (length k < fuel)%nat → 0 <= s < e →
  ∃ s', BTree.replace_run fuel (BTree.mkReplace (l ++ k) None (mkRange s e)) = (isect k s e, s') ∧
        BTree.replace_drop s' = l ++ ins_ref k s e.
Proof.
  intros Hw Hl Hk Hf Hse.
  destruct (replace_run_spec fuel l k s e) as (k' & e' & Hr & Hi & ?&?&?&?); auto; try lia.
  { eapply Forall_impl; [exact Hl|]. simpl. lia. }
  eexists. split; [exact Hr|]. rewrite replace_drop_spec, Hi by (auto; lia). done.
Qed.

Lemma replace_for_ref m s e :
  wf m → 0 <= s → s < e → e <= u64_max →
  BTree.replace_for m (mkRange s e) = (isect m s e, ins_ref m s e).
Proof.
  intros Hw Hs Hse He. unfold BTree.replace_for, BTree.replace. cbn [rstart rend].
  destruct (wf_pred_cases m s Hw Hs) as (l & k & Hwk & Hl & Hk & [[-> Hp]|(p & -> & -> & Hp)]).
  - destruct (replace_tail (S (S (length (l ++ k)))) l k s e) as (s' & Hr & Hd);
      auto; try (rewrite length_app; lia).
    { eapply Forall_impl; [exact Hl|]. simpl. lia. }
    rewrite isect_app, (isect_nil l), ins_ref_skip by
      (eapply Forall_impl; [exact Hl|]; simpl; lia).
    destruct Hp as [->|(p & -> & ?)].
    + unfold BTree.replace_fuel. cbn [BTree.r_set].
      by rewrite Hr, Hd.
    + destruct (Z.leb_spec s (rend p)); [lia|].
      unfold BTree.replace_fuel. cbn [BTree.r_set]. by rewrite Hr, Hd.
  - destruct Hp as (?&?&?&Hwk'&Hlp). destruct (Z.leb_spec s (rend p)); [|lia].
    rewrite remove_split by (eapply Forall_impl; [exact Hlp|]; simpl; lia).
    pose proof (wf_from_Forall _ _ Hwk') as Hall.
    assert (Ht : ∀ fuel, (length k < fuel)%nat → ∃ s',
      BTree.replace_run fuel (BTree.mkReplace (l ++ k) None
        (mkRange (rstart p) (Z.max e (rend p)))) = (isect k s e, s') ∧
      BTree.replace_drop s' = l ++ ins_ref k (rstart p) (Z.max e (rend p))).
    { intros fuel Hf. destruct (replace_tail fuel l k (rstart p) (Z.max e (rend p)))
        as (s' & Hr & Hd); auto; try lia;
        try (eapply Forall_impl; [eassumption|]; simpl; lia).
      exists s'. split; [|done]. rewrite Hr. f_equal. destruct (Z.le_gt_cases (rend p) e).
      - rewrite Z.max_l by lia. apply isect_start. eapply Forall_impl; [exact Hk|]. simpl. lia.
      - rewrite !isect_nil; [done|eapply Forall_impl; [exact Hall|]; simpl; lia..]. }
    rewrite isect_app, (isect_nil l), ins_ref_skip by
      (eapply Forall_impl; [exact Hl|]; simpl; lia). cbn [isect ins_ref app].
    rewrite (Z.max_r (rstart p) s), (Z.min_comm (rend p)), (Z.min_r s), (Z.min_l (rstart p) s),
      (Z.max_comm (rend p)) by lia.
    destruct (Z.ltb_spec e (rstart p)), (Z.ltb_spec (rend p) s); try lia.
    unfold BTree.replace_fuel. cbn [BTree.r_set].
    destruct (Z.eqb_spec s (Z.min e (rend p))), (Z.ltb_spec s (Z.min e (rend p))); try lia.
    + destruct (Ht (S (S (length (l ++ k))))) as (s' & -> & ->); [rewrite length_app; lia|done].
    + rewrite replace_run_pred.
      destruct (Ht (S (length (l ++ k)))) as (s' & -> & ->); [rewrite length_app; lia|done].
Qed.

(** * Removal and size *)

Lemma remove_from_spec v s e b lo :
  wf_from lo v → s < e →
  let '(v', b') := Arr.remove_from v (mkRange s e) b in
  wf_from lo v' ∧ (∀ x, rs_in x v' ↔ rs_in x v ∧ ¬ (s <= x < e)) ∧
  (b' = true ↔ b = true ∨ ∃ x, rs_in x v ∧ s <= x < e).
Proof.
  revert b lo. induction v as [|[a c] v IH]; intros b lo Hw Hse; cbn [Arr.remove_from].
  { split; [done|split].
    - intros x. rewrite rs_in_nil. tauto.
    - split; [tauto|]. intros [?|(x & Hx & _)]; [done|by apply rs_in_nil in Hx]. }
  destruct Hw as (Ha&Hac&Hc&Hv). cbn [rstart rend] in *.
  assert (Hlow : ∀ x, rs_in x v → c + 1 <= x) by (intros; eapply rs_in_bounds; eauto).
  destruct (Z.eqb_spec s e); [lia|].
  destruct (Z.leb_spec e a) as [He|He].
  { split; [by repeat split|split].
    - intros x. rewrite rs_in_cons. simpl. split; [|tauto].
      intros Hx. split; [done|]. intros ?. destruct Hx as [|Hx%Hlow]; lia.
    - split; [tauto|]. intros [?|(x & [?|Hx%Hlow]%rs_in_cons & ?)]; simpl in *; [done|lia..]. }
  destruct (Z.leb_spec c s) as [Hs|Hs].
  { specialize (IH b _ Hv Hse). destruct (Arr.remove_from v _ b) as [v' b'].
    destruct IH as (Hw' & Hin & Hb). split; [by repeat split|split].
    - intros x. rewrite !rs_in_cons, Hin. simpl. split; [|tauto].
      intros [?|?]; [split; [by left|lia]|tauto].
    - rewrite Hb. split; intros [?|(x & Hx & ?)]; [by left| |by left|];
        right; exists x; rewrite rs_in_cons in *; [tauto|].
      destruct Hx; simpl in *; [lia|done]. }
  specialize (IH true _ Hv Hse). destruct (Arr.remove_from v _ true) as [v' b'].
  destruct IH as (Hw' & Hin & Hb).
  assert (Hb' : b' = true ↔ b = true ∨ ∃ x, rs_in x (mkRange a c :: v) ∧ s <= x < e).
  { rewrite Hb. setoid_rewrite rs_in_cons. simpl. split; [|tauto]. intros _. right.
    exists (Z.max a s). split; [left; lia|lia]. }
  assert (Hv' : ∀ x, rs_in x v' → c + 1 <= x)
    by (intros x Hx; by destruct (rs_in_bounds _ _ _ Hw' Hx)).
  unfold range_is_empty; cbn [rstart rend].
  destruct (Z.ltb_spec a s), (Z.ltb_spec e c); simpl;
    (split; [|split; [|exact Hb']]); simpl.
  all: try (repeat apply conj; first [lia | eapply wf_from_mono; [|exact Hw']; lia]).
  all: intros x; rewrite !rs_in_cons, ?Hin; cbn [rstart rend];
       pose proof (Hlow x); pose proof (Hv' x); rewrite Hin in *;
       destruct (decide (s <= x < e)); intuition lia.
Qed.

Lemma rs_size_app l k : rs_size (l ++ k) = rs_size l + rs_size k.
Proof. unfold rs_size. induction l; simpl; lia. Qed.

(** Insertion adds exactly the integers that were missing. *)
Lemma rs_size_ins_ref m s e lo :
  wf_from lo m → s < e →
  rs_size (ins_ref m s e) = rs_size m + (e - s) - rs_size (isect m s e).
Proof.
  revert s e lo. induction m as [|[a c] m IH]; intros s e lo Hw Hse; simpl.
  { simpl. lia. }
  destruct Hw as (?&Hac&?&Hm). cbn [rstart rend] in *.
  pose proof (wf_from_Forall _ _ Hm) as Hall.
  destruct (Z.ltb_spec e a); [|destruct (Z.ltb_spec c s)].
  - rewrite (isect_nil m) by (eapply Forall_impl; [exact Hall|]; simpl; lia).
    destruct (Z.ltb_spec (Z.max a s) (Z.min c e)); simpl; lia.
  - simpl. rewrite (IH _ _ _ Hm) by lia.
    destruct (Z.ltb_spec (Z.max a s) (Z.min c e)); simpl; lia.
  - rewrite (IH _ _ _ Hm) by lia.
    assert (isect m (Z.min a s) (Z.max c e) = isect m s e) as ->.
    { destruct (Z.le_gt_cases c e).
      - rewrite Z.max_r by lia. apply isect_start. eapply Forall_impl; [exact Hall|]. simpl. lia.
      - rewrite !isect_nil; [done|eapply Forall_impl; [exact Hall|]; simpl; lia..]. }
    destruct (Z.ltb_spec (Z.max a s) (Z.min c e)); simpl; lia.
Qed.

Lemma isect_range m s e lo :
  wf_from lo m → Forall (fun r => s <= rstart r ∧ rstart r < rend r ∧ rend r <= e) (isect m s e).
Proof.
  revert lo. induction m as [|r m IH]; intros lo; simpl; [constructor|].
  intros (?&?&?&Hm). zcases; [|eauto]. constructor; [simpl; lia|eauto].
Qed.

Lemma isect_wf m s e lo : wf_from lo m → wf_from s (isect m s e).
Proof.
  assert (Hgen : ∀ m lo, wf_from lo m → wf_from (Z.max lo s) (isect m s e)).
  { clear m lo. induction m as [|r m IH]; intros lo Hm; simpl in *; [done|]. destruct Hm as (?&?&?&Hm). specialize (IH _ Hm).
    zcases; simpl.
    - split; [lia|]. split; [lia|]. split; [lia|]. eapply wf_from_mono; [|exact IH]. lia.
    - eapply wf_from_mono; [|exact IH]. lia. }
  intros Hm. eapply wf_from_mono; [|apply (Hgen m lo Hm)]. lia.
Qed.

Lemma ins_ref_hi m s e lo hi :
  Forall (fun r => rend r <= hi) m → s < e → e <= hi → wf_from lo m →
  Forall (fun r => rend r <= hi) (ins_ref m s e).
Proof.
  intros Hm. revert s e lo. induction Hm as [|r m Hr Hm IH]; intros s e lo Hse He Hw; simpl.
  { by repeat constructor. }
  destruct Hw as (?&?&?&Hw). zcases; repeat constructor; try done; eapply IH; try done; lia.
Qed.

Lemma rs_in_isect m s e x : rs_in x (isect m s e) ↔ rs_in x m ∧ s <= x < e.
Proof.
  induction m as [|r m IH]; simpl; [rewrite !rs_in_nil; tauto|].
  rewrite rs_in_cons. zcases; rewrite ?rs_in_cons, IH; simpl; intuition lia.
Qed.

Lemma rs_size_bound m lo hi :
  wf_from lo m → lo <= hi → Forall (fun r => rend r <= hi) m → 0 <= rs_size m <= hi - lo.
Proof.
  revert lo. induction m as [|r m IH]; intros lo; simpl; [lia|].
  intros (?&?&?&Hm) ? [? Hf]%Forall_cons. destruct m as [|q m].
  - simpl. lia.
  - pose proof Hm as (?&?&_). apply Forall_cons in Hf as Hq. destruct Hq as [? _].
    specialize (IH (rend r + 1) Hm ltac:(lia) Hf). lia.
Qed.

(** * Properties *)

(** [RangeSet::insert] of a non-empty range keeps the ranges ordered,
    non-empty and non-adjacent, makes the set the union of the old set and the
    new range, and returns [false] exactly when nothing was missing. *)
Theorem range_set_insert_correct m s e :
  wf m → 0 <= s < e → e <= u64_max →
  let '(m', grew) := BTree.insert m (mkRange s e) in
  wf m' ∧ (∀ x, rs_in x m' ↔ rs_in x m ∨ s <= x < e) ∧
  (grew = false ↔ ∀ x, s <= x < e → rs_in x m).
Proof.
  intros Hw Hs He. rewrite bt_insert_ref by (auto; lia). split; [|split].
  - apply ins_ref_wf; auto; lia.
  - intros x. eapply ins_ref_in; [exact Hw|lia].
  - rewrite <- (covered_spec 0 m s e) by (auto; lia). by rewrite negb_false_iff.
Qed.

Lemma range_set_insert_correct_witness :
  let '(m', grew) := BTree.insert [mkRange 1 3; mkRange 5 6] (mkRange 3 5) in
  wf m' ∧ (∀ x, rs_in x m' ↔ rs_in x [mkRange 1 3; mkRange 5 6] ∨ 3 <= x < 5) ∧
  (grew = false ↔ ∀ x, 3 <= x < 5 → rs_in x [mkRange 1 3; mkRange 5 6]).
Proof.
  apply range_set_insert_correct; [|lia|by vm_compute].
  rs_wf.
Defined.

(** C40: On every well-formed set and every range of [u64] values,
    [ArrayRangeSet::insert] and [RangeSet::insert] return the same ranges and the
    same flag. *)
Theorem array_insert_agrees m x :
  wf m → 0 <= rstart x → rend x <= u64_max → Arr.insert m x = BTree.insert m x.
Proof.
  intros Hw Hs He. destruct (range_is_empty x) eqn:Hx.
  - unfold Arr.insert, BTree.insert. by rewrite Hx.
  - rewrite (arr_insert_ref m x 0) by done. destruct x as [s e].
    unfold range_is_empty in Hx. simpl in *. zcases; [|done].
    by rewrite bt_insert_ref.
Qed.

Lemma array_insert_agrees_witness :
  Arr.insert [mkRange 1 3; mkRange 5 6; mkRange 9 12] (mkRange 2 9) =
  BTree.insert [mkRange 1 3; mkRange 5 6; mkRange 9 12] (mkRange 2 9).
Proof.
  apply array_insert_agrees; [|simpl; lia|by vm_compute].
  rs_wf.
Defined.

(** Iterating [RangeSet::replace] over a non-empty range and dropping the
    iterator yields, in order and without overlap, exactly the part of the new
    range that was already present, and leaves the set that [insert] leaves. *)
Theorem range_set_replace_correct m s e :
  wf m → 0 <= s < e → e <= u64_max →
  let '(items, m') := BTree.replace_for m (mkRange s e) in
  m' = fst (BTree.insert m (mkRange s e)) ∧
  (∀ x, rs_in x items ↔ rs_in x m ∧ s <= x < e) ∧
  rs_size m' = rs_size m + (e - s) - rs_size items.
Proof.
  intros Hw Hs He. rewrite replace_for_ref, bt_insert_ref by (auto; lia). split; [done|split].
  - intros x. apply rs_in_isect.
  - eapply rs_size_ins_ref; [exact Hw|lia].
Qed.

Lemma range_set_replace_correct_witness :
  let '(items, m') := BTree.replace_for [mkRange 2 4; mkRange 6 7] (mkRange 3 9) in
  m' = fst (BTree.insert [mkRange 2 4; mkRange 6 7] (mkRange 3 9)) ∧
  (∀ x, rs_in x items ↔ rs_in x [mkRange 2 4; mkRange 6 7] ∧ 3 <= x < 9) ∧
  rs_size m' = rs_size [mkRange 2 4; mkRange 6 7] + (9 - 3) - rs_size items.
Proof.
  apply range_set_replace_correct; [|lia|by vm_compute].
  rs_wf.
Defined.

(** [ArrayRangeSet::remove] keeps the invariant, removes exactly the
    integers of the range, and reports whether any was present. *)
Theorem array_remove_correct v x :
  wf v →
  let '(v', removed) := Arr.remove v x in
  wf v' ∧ (∀ y, rs_in y v' ↔ rs_in y v ∧ ¬ (rstart x <= y < rend x)) ∧
  (removed = true ↔ ∃ y, rs_in y v ∧ rstart x <= y < rend x).
Proof.
  intros Hw. unfold Arr.remove, range_is_empty. destruct x as [s e]; simpl.
  destruct (Z.ltb_spec s e) as [Hse|Hse]; simpl.
  - pose proof (remove_from_spec v s e false 0 Hw Hse) as Hr.
    destruct (Arr.remove_from v _ false) as [v' b]. destruct Hr as (? & ? & Hb).
    split; [done|split; [done|]]. rewrite Hb. split; [|tauto]. intros [?|?]; done.
  - split; [done|split].
    + intros y. split; [intros; split; [done|lia]|tauto].
    + split; [done|]. intros (y & _ & ?). lia.
Qed.

Lemma array_remove_correct_witness :
  let '(v', removed) := Arr.remove [mkRange 1 8; mkRange 10 12] (mkRange 3 11) in
  wf v' ∧ (∀ y, rs_in y v' ↔ rs_in y [mkRange 1 8; mkRange 10 12] ∧ ¬ (3 <= y < 11)) ∧
  (removed = true ↔ ∃ y, rs_in y [mkRange 1 8; mkRange 10 12] ∧ 3 <= y < 11).
Proof.
  apply (array_remove_correct _ (mkRange 3 11)). rs_wf.
Defined.

(** [RangeSet::replace] does not guard against an empty range, as [insert]
    does: replacing [5..5] stores an empty entry, after which [replace(4..8)]
    stops at that entry and does not report the overlap with [6..7]. *)
Theorem replace_empty_range_hides_overlap :
  let m := snd (BTree.replace_for (snd (BTree.replace_for [] (mkRange 5 5))) (mkRange 6 7)) in
  m = [mkRange 5 5; mkRange 6 7] ∧ rs_in 6 m ∧
  BTree.replace_for m (mkRange 4 8) = ([], [mkRange 4 8]).
Proof.
  split; [done|split; [|done]]. apply rs_in_cons. right. apply rs_in_cons. left. simpl. lia.
Qed.
