(* ===== verification/Ids.v ===== *)
(** Sides, directions and stream identifiers: [quic-proto/src/lib.rs], and the
    transport error codes of [quic-proto/src/transport_error.rs]. *)
From stdpp Require Import countable.
From S2P Require Import Prelude Coding.
Open Scope Z_scope.

(** * Sides and directions *)

Inductive Side : Type := Client | Server.
Inductive Dir : Type := Bi | Uni.

#[global] Instance Side_eq_dec : EqDecision Side.
Proof. solve_decision. Defined.
#[global] Instance Dir_eq_dec : EqDecision Dir.
Proof. solve_decision. Defined.

Definition Side_not (s : Side) : Side := match s with Client => Server | Server => Client end.
Definition is_client (s : Side) : bool := bool_decide (s = Client).
Definition is_server (s : Side) : bool := bool_decide (s = Server).

(** The discriminants, as in [initiator as u64] and [dir as u64]. *)
Definition Side_u64 (s : Side) : Z := match s with Client => 0 | Server => 1 end.
Definition Dir_u64 (d : Dir) : Z := match d with Bi => 0 | Uni => 1 end.
Definition Dir_iter : list Dir := [Bi; Uni].

(** Arrays indexed by [dir as usize]: [[T; 2]]. *)
Record PerDir (A : Type) : Type := mkPerDir { at_bi : A; at_uni : A }.
Arguments mkPerDir {A}.
Arguments at_bi {A}.
Arguments at_uni {A}.
Definition at_dir {A} (p : PerDir A) (d : Dir) : A := match d with Bi => at_bi p | Uni => at_uni p end.
Definition set_dir {A} (p : PerDir A) (d : Dir) (a : A) : PerDir A :=
  match d with Bi => mkPerDir a (at_uni p) | Uni => mkPerDir (at_bi p) a end.

(** * Stream identifiers *)

Record StreamId : Type := mkStreamId { stream_id : Z }.
#[global] Instance StreamId_eq_dec : EqDecision StreamId.
Proof. solve_decision. Defined.
#[global] Program Instance StreamId_countable : Countable StreamId :=
  inj_countable' stream_id mkStreamId _.
Next Obligation. by intros []. Qed.

(** [(index << 2) | ((dir as u64) << 1) | initiator as u64]; the shift drops the
    bits above the 64th. *)
Definition StreamId_new (initiator : Side) (dir : Dir) (index : Z) : StreamId :=
  mkStreamId (Z.lor (Z.lor (Z.shiftl index 2 mod 2 ^ 64) (Z.shiftl (Dir_u64 dir) 1)) (Side_u64 initiator)).
Definition initiator (id : StreamId) : Side :=
  if Z.land (stream_id id) 1 =? 0 then Client else Server.
Definition dir (id : StreamId) : Dir := if Z.land (stream_id id) 2 =? 0 then Bi else Uni.
Definition index (id : StreamId) : Z := Z.shiftr (stream_id id) 2.

#[global] Instance StreamId_Codec : Codec StreamId := {
  decode := v ← VarInt_decode; mret (mkStreamId (into_inner v));
  encode := fun id => write_var (stream_id id)
}.

Definition MAX_STREAM_COUNT : Z := Z.shiftl 1 60.

(** * Transport errors *)

(** [TransportErrorCode]. *)
Record Code : Type := mkCode { code_u64 : Z }.
Definition NO_ERROR := mkCode 0.
Definition INTERNAL_ERROR := mkCode 1.
Definition CONNECTION_REFUSED := mkCode 2.
Definition FLOW_CONTROL_ERROR := mkCode 3.
Definition STREAM_LIMIT_ERROR := mkCode 4.
Definition STREAM_STATE_ERROR := mkCode 5.
Definition FINAL_SIZE_ERROR := mkCode 6.
Definition FRAME_ENCODING_ERROR := mkCode 7.
Definition TRANSPORT_PARAMETER_ERROR := mkCode 8.
Definition CONNECTION_ID_LIMIT_ERROR := mkCode 9.
Definition PROTOCOL_VIOLATION := mkCode 10.
Definition INVALID_TOKEN := mkCode 11.
Definition APPLICATION_ERROR := mkCode 12.
Definition CRYPTO_BUFFER_EXCEEDED := mkCode 13.
Definition KEY_UPDATE_ERROR := mkCode 14.
Definition AEAD_LIMIT_REACHED := mkCode 15.
Definition NO_VIABLE_PATH := mkCode 16.
(** [Code::crypto]: a TLS alert. *)
Definition Code_crypto (code : Z) : Code := mkCode (Z.lor 256 code).

(** [TransportError]; two errors are equal when their codes are, so the reason and
    the frame type are not kept. *)
Record TransportError : Type := mkTransportError { te_code : Code }.

#[global] Instance Code_Codec : Codec Code := {
  decode := x ← get_var; mret (mkCode x);
  encode := fun c => write_var (code_u64 c)
}.

(** * Lemmas *)

Definition id_wf (id : StreamId) : Prop := 0 <= stream_id id < 2 ^ 62.

(** The two low bits do not overlap the index. *)
Lemma land_low n m : 0 <= m < 4 → Z.land (Z.shiftl n 2) m = 0.
Proof.
  intros Hm. apply Z.bits_inj'. intros i Hi. rewrite Z.land_spec, Z.bits_0.
  destruct (Z.ltb_spec i 2); [by rewrite Z.shiftl_spec_low by lia|].
  destruct (Z.eq_dec m 0) as [->|]; [by rewrite Z.bits_0, andb_false_r|].
  rewrite (Z.bits_above_log2 m i), andb_false_r; [done|lia|].
  enough (Z.log2 m < 2) by lia. apply Z.log2_lt_pow2; lia.
Qed.

Definition low_bits (i : Side) (d : Dir) : Z := Z.lor (Z.shiftl (Dir_u64 d) 1) (Side_u64 i).

Lemma StreamId_new_lor i d n :
  0 <= n < 2 ^ 60 → stream_id (StreamId_new i d n) = Z.lor (Z.shiftl n 2) (low_bits i d).
Proof.
  intros Hn. unfold StreamId_new, low_bits. cbn [stream_id]. rewrite Z.lor_assoc. do 2 f_equal.
  rewrite Z.shiftl_mul_pow2 by lia. change (2 ^ 2) with 4. apply Z.mod_small. lia.
Qed.

Lemma low_bits_range i d : 0 <= low_bits i d < 4.
Proof. destruct i, d; vm_compute; split; congruence. Qed.

Lemma StreamId_new_eq i d n :
  0 <= n < 2 ^ 60 → stream_id (StreamId_new i d n) = 4 * n + low_bits i d.
Proof.
  intros Hn. rewrite StreamId_new_lor by done. pose proof (low_bits_range i d).
  rewrite lor_tag by (change (2 ^ 2) with 4; lia). change (2 ^ 2) with 4. lia.
Qed.

Lemma StreamId_parts i d n :
  0 <= n < 2 ^ 60 →
  initiator (StreamId_new i d n) = i ∧ dir (StreamId_new i d n) = d ∧ index (StreamId_new i d n) = n.
Proof.
  intros Hn. unfold initiator, dir, index. pose proof (low_bits_range i d) as Hl.
  rewrite StreamId_new_lor, !Z.land_lor_distr_l, !land_low, !Z.lor_0_l by (done || lia).
  split; [by destruct i, d|]. split; [by destruct i, d|].
  rewrite lor_tag, Z.shiftr_div_pow2 by (change (2 ^ 2) with 4; lia). change (2 ^ 2) with 4.
  rewrite Z.div_add_l by lia. rewrite Z.div_small by lia. lia.
Qed.

Lemma StreamId_new_wf i d n : 0 <= n < 2 ^ 60 → id_wf (StreamId_new i d n).
Proof.
  intros Hn. unfold id_wf. rewrite StreamId_new_eq by done. pose proof (low_bits_range i d). lia.
Qed.

(** Every identifier is built from its parts. *)
Lemma StreamId_eta id : id_wf id → StreamId_new (initiator id) (dir id) (index id) = id.
Proof.
  intros Hid. unfold id_wf in Hid. destruct id as [x]. cbn [stream_id] in *.
  assert (Hi : index (mkStreamId x) = x / 4)
    by (unfold index; cbn [stream_id]; by rewrite Z.shiftr_div_pow2 by lia).
  assert (Hx : x = Z.lor (Z.shiftl (x / 4) 2) (x mod 4)).
  { pose proof (Z.mod_pos_bound x 4). rewrite lor_tag by (change (2 ^ 2) with 4; lia).
    change (2 ^ 2) with 4. pose proof (Z.div_mod x 4). lia. }
  assert (Hb : 0 <= x / 4 < 2 ^ 60).
  { split; [apply Z.div_pos; lia|apply Z.div_lt_upper_bound; lia]. }
  assert (Hlow : low_bits (initiator (mkStreamId x)) (dir (mkStreamId x)) = x mod 4).
  { unfold initiator, dir. cbn [stream_id]. rewrite Hx at 1 2.
    rewrite !Z.land_lor_distr_l, !land_low, !Z.lor_0_l by lia.
    pose proof (Z.mod_pos_bound x 4 ltac:(lia)).
    assert (x mod 4 = 0 ∨ x mod 4 = 1 ∨ x mod 4 = 2 ∨ x mod 4 = 3) as [-> |[-> |[-> | ->]]] by lia; done. }
  assert (Hs : stream_id (StreamId_new (initiator (mkStreamId x)) (dir (mkStreamId x)) (x / 4)) = x)
    by (rewrite StreamId_new_lor, Hlow by done; by symmetry).
  rewrite Hi. destruct (StreamId_new _ _ _). simpl in Hs. by subst.
Qed.

Lemma StreamId_new_inj i d n i' d' n' :
  0 <= n < 2 ^ 60 → 0 <= n' < 2 ^ 60 →
  StreamId_new i d n = StreamId_new i' d' n' → i = i' ∧ d = d' ∧ n = n'.
Proof.
  intros Hn Hn' He. destruct (StreamId_parts i d n Hn) as (H1 & H2 & H3).
  destruct (StreamId_parts i' d' n' Hn') as (H1' & H2' & H3'). rewrite He in *. by subst.
Qed.

#[global] Instance StreamId_CodecOk : CodecOk StreamId id_wf.
Proof.
  split. intros [x] Hx. unfold id_wf in Hx. cbn [stream_id] in Hx.
  destruct (VarInt_encode_decode (mkVarInt x)) as (bs & He & _ & Hd); [done|].
  exists bs. split.
  - cbn [encode StreamId_Codec]. unfold write_var, VarInt_from_u64. cbn [stream_id]. zcases; [done|lia].
  - intros rest. cbn [decode StreamId_Codec]. unfold mbind, parser_bind. by rewrite Hd.
Qed.

(** * Properties *)

(** Stream identifiers and (initiator, direction, index) triples are in
    bijection: the accessors give back what [StreamId::new] packed, and every
    identifier below [2^62] is [StreamId::new] of its accessors. *)
Theorem stream_id_bijection i d n id :
  0 <= n < MAX_STREAM_COUNT → id_wf id →
  (initiator (StreamId_new i d n) = i ∧ dir (StreamId_new i d n) = d ∧
   index (StreamId_new i d n) = n ∧ id_wf (StreamId_new i d n)) ∧
  StreamId_new (initiator id) (dir id) (index id) = id.
Proof.
  intros Hn Hid. split; [|by apply StreamId_eta].
  destruct (StreamId_parts i d n Hn) as (? & ? & ?). auto using StreamId_new_wf.
Qed.

Lemma stream_id_bijection_witness :
  (initiator (StreamId_new Server Uni 5) = Server ∧ dir (StreamId_new Server Uni 5) = Uni ∧
   index (StreamId_new Server Uni 5) = 5 ∧ id_wf (StreamId_new Server Uni 5)) ∧
  StreamId_new (initiator (mkStreamId 1000)) (dir (mkStreamId 1000)) (index (mkStreamId 1000)) =
    mkStreamId 1000.
Proof. apply stream_id_bijection; [split; vm_compute; congruence|split; vm_compute; congruence]. Defined.
