(* ===== verification/Shared.v ===== *)
(** Types shared by endpoint and connection: [quic-proto/src/shared.rs]
    (connection identifiers, ECN codepoints), the reset token of
    [quic-proto/src/token.rs] and the constants of [quic-proto/src/lib.rs]. *)
From S2P Require Import Prelude Coding.

Definition LOC_CID_COUNT : Z := 8.
Definition RESET_TOKEN_SIZE : Z := 16.
Definition MAX_CID_SIZE : Z := 20.
Definition MIN_INITIAL_SIZE : Z := 1200.
Definition INITIAL_MTU : Z := 1200.
Definition MAX_UDP_PAYLOAD : Z := 65527.

(** * Connection identifiers *)

(** The length and the fixed array of [MAX_CID_SIZE] bytes, zero beyond the length. *)
Record ConnectionId : Type := mkConnectionId { cid_len : Z; cid_array : list Z }.
#[global] Instance ConnectionId_eq_dec : EqDecision ConnectionId.
Proof. solve_decision. Defined.

(** [Deref]: [&self.bytes[0..self.len as usize]]. *)
Definition cid_bytes (c : ConnectionId) : list Z := takeZ (cid_len c) (cid_array c).

(** [ConnectionId::new]; [copy_from_slice] into [bytes[..len]] panics when the
    slice is longer than the array. *)
Definition ConnectionId_new (bytes : list Z) : M ConnectionId :=
  _ ← rassert (len bytes <=? MAX_CID_SIZE);
  mret (mkConnectionId (len bytes) (bytes ++ replicate (Z.to_nat (MAX_CID_SIZE - len bytes)) 0)).

(** [ConnectionId::from_buf]: [copy_to_slice] panics when fewer bytes remain. *)
Definition ConnectionId_from_buf (buf : list Z) (n : Z) : M (ConnectionId * list Z) :=
  _ ← rassert (n <=? MAX_CID_SIZE);
  '(bytes, rest) ← split_to n buf;
  cid ← ConnectionId_new bytes;
  mret (cid, rest).

(** [ConnectionId::decode_long]; [None] also consumes the length byte. *)
Definition decode_long (buf : list Z) : M (option ConnectionId * list Z) :=
  match decode (A := u8) buf with
  | (Err _, buf) => mret (None, buf)
  | (Ok n, buf) =>
      let n := uval n in
      if (MAX_CID_SIZE <? n) || (len buf <? n) then mret (None, buf)
      else '(cid, buf) ← ConnectionId_from_buf buf n; mret (Some cid, buf)
  end.

(** [ConnectionId::encode_long]; [self.len() as u8] truncates to eight bits. *)
Definition encode_long (c : ConnectionId) : list Z :=
  be_bytes 1 (len (cid_bytes c) mod 256) ++ cid_bytes c.

Definition cid_wf (c : ConnectionId) : Prop :=
  0 <= cid_len c <= MAX_CID_SIZE ∧ len (cid_array c) = MAX_CID_SIZE ∧
  dropZ (cid_len c) (cid_array c) = replicate (Z.to_nat (MAX_CID_SIZE - cid_len c)) 0.

(** * Reset tokens *)

Record ResetToken : Type := mkResetToken { token_bytes : list Z }.
#[global] Instance ResetToken_eq_dec : EqDecision ResetToken.
Proof. solve_decision. Defined.

(** * Explicit congestion notification *)

Inductive EcnCodepoint : Type := Ect0 | Ect1 | Ce.
#[global] Instance EcnCodepoint_eq_dec : EqDecision EcnCodepoint.
Proof. solve_decision. Defined.

Definition ecn_bits (e : EcnCodepoint) : Z := match e with Ect0 => 2 | Ect1 => 1 | Ce => 3 end.
Definition from_bits (x : Z) : option EcnCodepoint :=
  let b := Z.land x 3 in
  if b =? 2 then Some Ect0 else if b =? 1 then Some Ect1 else if b =? 3 then Some Ce else None.
Definition is_ce (e : EcnCodepoint) : bool := match e with Ce => true | _ => false end.

(** * Lemmas *)

Lemma ConnectionId_new_ok bytes :
  len bytes <= MAX_CID_SIZE →
  ∃ c, ConnectionId_new bytes = Ret c ∧ cid_wf c ∧ cid_bytes c = bytes ∧ cid_len c = len bytes.
Proof.
  intros Hl. unfold ConnectionId_new. destruct (Z.leb_spec (len bytes) MAX_CID_SIZE); [|lia].
  cbn [rassert mbind M_bind mret M_ret]. eexists. split; [done|]. pose proof (len_nonneg bytes).
  unfold cid_wf, cid_bytes. cbn [cid_len cid_array]. split; [split; [lia|]|split; [|done]].
  - split.
    + rewrite len_app. unfold len at 2. rewrite length_replicate. lia.
    + unfold dropZ, len. rewrite Nat2Z.id. by rewrite drop_app_length.
  - unfold takeZ, len. rewrite Nat2Z.id. by rewrite take_app_length.
Qed.

(** Two well-formed identifiers are equal when their bytes are. *)
Lemma cid_bytes_inj c d : cid_wf c → cid_wf d → cid_bytes c = cid_bytes d → c = d.
Proof.
  destruct c as [n a], d as [m b]. unfold cid_wf, cid_bytes. cbn [cid_len cid_array].
  intros (Hn & Ha & Hra) (Hm & Hb & Hrb) He.
  assert (n = m) as ->.
  { apply (f_equal len) in He. rewrite !len_takeZ in He by lia. lia. }
  f_equal. unfold takeZ, dropZ in *.
  rewrite <- (take_drop (Z.to_nat m) a), <- (take_drop (Z.to_nat m) b). congruence.
Qed.

Lemma cid_bytes_len c : cid_wf c → len (cid_bytes c) = cid_len c.
Proof. intros (Hn & Ha & _). unfold cid_bytes. rewrite len_takeZ; lia. Qed.

Lemma ConnectionId_new_bytes c : cid_wf c → ConnectionId_new (cid_bytes c) = Ret c.
Proof.
  intros Hc. pose proof (cid_bytes_len c Hc) as Hl. destruct Hc as (Hn & Ha & Hr) eqn:E.
  destruct (ConnectionId_new_ok (cid_bytes c)) as (d & Hd & Hw & Hb & _); [lia|].
  rewrite Hd. f_equal. by apply cid_bytes_inj.
Qed.

(** An identifier written in long-header format is read back. *)
Lemma decode_encode_long c rest : cid_wf c → decode_long (encode_long c ++ rest) = Ret (Some c, rest).
Proof.
  intros Hc. pose proof (cid_bytes_len c Hc) as Hl. pose proof Hc as (Hn & Ha & Hr).
  unfold encode_long, decode_long. rewrite <- app_assoc. unfold MAX_CID_SIZE in *.
  destruct (encode_decode (A := u8) (mkUint (len (cid_bytes c) mod 256))) as (bs & Hb & Hd).
  { unfold uint_wf. simpl. rewrite Z.mod_small by lia. lia. }
  cbn [encode uint_Codec uval] in Hb. injection Hb as <-. rewrite Hd. cbn [uval].
  rewrite Z.mod_small by lia. rewrite len_app. pose proof (len_nonneg rest).
  destruct (Z.ltb_spec 20 (len (cid_bytes c))); [lia|].
  destruct (Z.ltb_spec (len (cid_bytes c) + len rest) (len (cid_bytes c))); [lia|]. cbn [orb].
  unfold ConnectionId_from_buf, MAX_CID_SIZE, rassert.
  destruct (Z.leb_spec (len (cid_bytes c)) 20); [|lia]. cbn [mbind M_bind].
  rewrite split_to_ok by (rewrite len_app; lia). cbn [mbind M_bind].
  rewrite takeZ_app_le, dropZ_app_le by lia. unfold takeZ, dropZ, len. rewrite !Nat2Z.id.
  rewrite take_ge, drop_ge by lia. cbn [app]. by rewrite ConnectionId_new_bytes.
Qed.

(** Taking an identifier of [n] bytes from a buffer that has them. *)
Lemma from_buf_ok buf n :
  0 <= n <= MAX_CID_SIZE → n <= len buf →
  ∃ d, ConnectionId_from_buf buf n = Ret (d, dropZ n buf) ∧ cid_wf d ∧ cid_bytes d = takeZ n buf.
Proof.
  intros Hn Hb. unfold ConnectionId_from_buf, rassert. destruct (Z.leb_spec n MAX_CID_SIZE); [|lia].
  cbn [mbind M_bind]. rewrite split_to_ok by lia. cbn [mbind M_bind].
  destruct (ConnectionId_new_ok (takeZ n buf)) as (d & -> & Hw & Hbs & _); [rewrite len_takeZ; lia|]. by exists d.
Qed.

(** Reading one from arbitrary bytes never panics and consumes a prefix. *)
Lemma decode_long_total buf :
  Forall (fun b => 0 <= b < 256) buf →
  ∃ o r k, decode_long buf = Ret (o, r) ∧ 0 <= k <= len buf ∧ r = dropZ k buf ∧
    match o with Some d => cid_wf d | None => True end.
Proof.
  intros Hbuf. unfold decode_long. destruct buf as [|b buf].
  { exists None, [], 0. done. }
  cbn [decode uint_Codec]. rewrite len_cons. pose proof (len_nonneg buf).
  destruct (Z.ltb_spec (1 + len buf) (Z.of_nat 1)); [lia|]. cbn [uval take drop].
  apply Forall_cons in Hbuf as [Hb _]. change (from_be (b :: take 0 buf)) with b.
  change (drop 0 buf) with buf.
  destruct (_ || _) eqn:Hor; [exists None, buf, 1; split; [done|]; split; [lia|done]|].
  apply orb_false_elim in Hor as [Hm%Z.ltb_ge Hr%Z.ltb_ge].
  destruct (from_buf_ok buf b) as (d & -> & Hw & _); [lia..|]. cbn [mbind M_bind].
  exists (Some d), (dropZ b buf), (1 + b). split; [done|]. split; [lia|]. split; [|done].
  unfold dropZ. rewrite Z2Nat.inj_add by lia. done.
Qed.
