(* ===== verification/Frame.v ===== *)
(** QUIC frames: [quic-proto/src/frame.rs].

    Every frame type with its encoder and the decoder [Iter] that the connection
    runs over a packet's payload.  [bytes::Bytes] is the list of its bytes. *)
From S2P Require Import Prelude Coding RangeSet Ids Shared.

(** * Frame types *)

Record FrameType : Type := mkFrameType { ty_u64 : Z }.
#[global] Instance FrameType_eq_dec : EqDecision FrameType.
Proof. solve_decision. Defined.

#[global] Instance FrameType_Codec : Codec FrameType := {
  decode := x ← get_var; mret (mkFrameType x);
  encode := fun t => write_var (ty_u64 t)
}.

Definition PADDING := mkFrameType 0.
Definition PING := mkFrameType 1.
Definition ACK := mkFrameType 2.
Definition ACK_ECN := mkFrameType 3.
Definition RESET_STREAM := mkFrameType 4.
Definition STOP_SENDING := mkFrameType 5.
Definition CRYPTO := mkFrameType 6.
Definition NEW_TOKEN := mkFrameType 7.
Definition MAX_DATA := mkFrameType 16.
Definition MAX_STREAM_DATA := mkFrameType 17.
Definition MAX_STREAMS_BIDI := mkFrameType 18.
Definition MAX_STREAMS_UNI := mkFrameType 19.
Definition DATA_BLOCKED := mkFrameType 20.
Definition STREAM_DATA_BLOCKED := mkFrameType 21.
Definition STREAMS_BLOCKED_BIDI := mkFrameType 22.
Definition STREAMS_BLOCKED_UNI := mkFrameType 23.
Definition NEW_CONNECTION_ID := mkFrameType 24.
Definition RETIRE_CONNECTION_ID := mkFrameType 25.
Definition PATH_CHALLENGE := mkFrameType 26.
Definition PATH_RESPONSE := mkFrameType 27.
Definition CONNECTION_CLOSE := mkFrameType 28.
Definition APPLICATION_CLOSE := mkFrameType 29.
Definition HANDSHAKE_DONE := mkFrameType 30.
Definition IMMEDIATE_ACK := mkFrameType 31.
Definition ACK_FREQUENCY := mkFrameType 175.

(** [StreamInfo] and [DatagramInfo]: the flag bits of the type byte. *)
Record StreamInfo : Type := mkStreamInfo { si_bits : Z }.
Definition si_fin (s : StreamInfo) : bool := negb (Z.land (si_bits s) 1 =? 0).
Definition si_len (s : StreamInfo) : bool := negb (Z.land (si_bits s) 2 =? 0).
Definition si_off (s : StreamInfo) : bool := negb (Z.land (si_bits s) 4 =? 0).
Record DatagramInfo : Type := mkDatagramInfo { di_bits : Z }.
Definition di_len (d : DatagramInfo) : bool := negb (Z.land (di_bits d) 1 =? 0).

(** [STREAM_TYS] and [DATAGRAM_TYS]. *)
Definition STREAM_TYS_start : Z := 8.
Definition STREAM_TYS_end : Z := 15.
Definition DATAGRAM_TYS_start : Z := 48.
Definition DATAGRAM_TYS_end : Z := 49.

Definition ty_stream (t : FrameType) : option StreamInfo :=
  if (STREAM_TYS_start <=? ty_u64 t) && (ty_u64 t <=? STREAM_TYS_end)
  then Some (mkStreamInfo (ty_u64 t)) else None.
Definition ty_datagram (t : FrameType) : option DatagramInfo :=
  if (DATAGRAM_TYS_start <=? ty_u64 t) && (ty_u64 t <=? DATAGRAM_TYS_end)
  then Some (mkDatagramInfo (ty_u64 t)) else None.

(** * Frames *)

Record ConnectionClose : Type := mkConnectionClose {
  cc_error_code : Code; cc_frame_type : option FrameType; cc_reason : list Z }.
Record ApplicationClose : Type := mkApplicationClose {
  ac_error_code : VarInt; ac_reason : list Z }.
Inductive Close : Type :=
| CloseConnection (x : ConnectionClose)
| CloseApplication (x : ApplicationClose).

Record EcnCounts : Type := mkEcnCounts { ect0 : Z; ect1 : Z; ce : Z }.
Record Ack : Type := mkAck {
  ack_largest : Z; ack_delay : Z; ack_additional : list Z; ack_ecn : option EcnCounts }.
Record ResetStream : Type := mkResetStream {
  rs_id : StreamId; rs_error_code : VarInt; rs_final_offset : VarInt }.
Record StopSending : Type := mkStopSending { ss_id : StreamId; ss_error_code : VarInt }.
Record Crypto : Type := mkCrypto { cr_offset : Z; cr_data : list Z }.
Record NewToken : Type := mkNewToken { nt_token : list Z }.
Record Stream : Type := mkStream {
  st_id : StreamId; st_offset : Z; st_fin : bool; st_data : list Z }.
Record StreamMeta : Type := mkStreamMeta {
  sm_id : StreamId; sm_offsets : Range; sm_fin : bool }.
Record NewConnectionId : Type := mkNewConnectionId {
  nc_sequence : Z; nc_retire_prior_to : Z; nc_id : ConnectionId; nc_reset_token : ResetToken }.
Record Datagram : Type := mkDatagram { dg_data : list Z }.
Record AckFrequency : Type := mkAckFrequency {
  af_sequence : VarInt; af_ack_eliciting_threshold : VarInt;
  af_request_max_ack_delay : VarInt; af_reordering_threshold : VarInt }.

Inductive Frame : Type :=
| FPadding
| FPing
| FAck (x : Ack)
| FResetStream (x : ResetStream)
| FStopSending (x : StopSending)
| FCrypto (x : Crypto)
| FNewToken (x : NewToken)
| FStream (x : Stream)
| FMaxData (x : VarInt)
| FMaxStreamData (id : StreamId) (offset : Z)
| FMaxStreams (dir : Dir) (count : Z)
| FDataBlocked (offset : Z)
| FStreamDataBlocked (id : StreamId) (offset : Z)
| FStreamsBlocked (dir : Dir) (limit : Z)
| FNewConnectionId (x : NewConnectionId)
| FRetireConnectionId (sequence : Z)
| FPathChallenge (x : Z)
| FPathResponse (x : Z)
| FClose (x : Close)
| FDatagram (x : Datagram)
| FAckFrequency (x : AckFrequency)
| FImmediateAck
| FHandshakeDone.

Definition frame_ty (f : Frame) : FrameType :=
  match f with
  | FPadding => PADDING
  | FResetStream _ => RESET_STREAM
  | FClose (CloseConnection _) => CONNECTION_CLOSE
  | FClose (CloseApplication _) => APPLICATION_CLOSE
  | FMaxData _ => MAX_DATA
  | FMaxStreamData _ _ => MAX_STREAM_DATA
  | FMaxStreams Bi _ => MAX_STREAMS_BIDI
  | FMaxStreams Uni _ => MAX_STREAMS_UNI
  | FPing => PING
  | FDataBlocked _ => DATA_BLOCKED
  | FStreamDataBlocked _ _ => STREAM_DATA_BLOCKED
  | FStreamsBlocked Bi _ => STREAMS_BLOCKED_BIDI
  | FStreamsBlocked Uni _ => STREAMS_BLOCKED_UNI
  | FStopSending _ => STOP_SENDING
  | FRetireConnectionId _ => RETIRE_CONNECTION_ID
  | FAck _ => ACK
  | FStream x =>
      let ty := STREAM_TYS_start in
      let ty := if st_fin x then Z.lor ty 1 else ty in
      let ty := if st_offset x =? 0 then ty else Z.lor ty 4 in
      mkFrameType ty
  | FPathChallenge _ => PATH_CHALLENGE
  | FPathResponse _ => PATH_RESPONSE
  | FNewConnectionId _ => NEW_CONNECTION_ID
  | FCrypto _ => CRYPTO
  | FNewToken _ => NEW_TOKEN
  | FDatagram _ => mkFrameType DATAGRAM_TYS_start
  | FAckFrequency _ => ACK_FREQUENCY
  | FImmediateAck => IMMEDIATE_ACK
  | FHandshakeDone => HANDSHAKE_DONE
  end.

Definition is_ack_eliciting (f : Frame) : bool :=
  match f with FAck _ | FPadding | FClose _ => false | _ => true end.

(** * Encoders *)

Definition ConnectionClose_SIZE_BOUND : Z := 1 + 8 + 8 + 8.
Definition ApplicationClose_SIZE_BOUND : Z := 1 + 8 + 8.
Definition Stream_SIZE_BOUND : Z := 1 + 8 + 8 + 8.
Definition Crypto_SIZE_BOUND : Z := 17.
Definition ResetStream_SIZE_BOUND : Z := 1 + 8 + 8 + 8.
Definition StopSending_SIZE_BOUND : Z := 1 + 8 + 8.
Definition NewConnectionId_SIZE_BOUND : Z := 1 + 8 + 8 + 1 + MAX_CID_SIZE + RESET_TOKEN_SIZE.
Definition RETIRE_CONNECTION_ID_SIZE_BOUND : Z := 9.
Definition Datagram_SIZE_BOUND : Z := 1 + 8.

(** [VarInt::from_u64(x).unwrap().size()]. *)
Definition var_len (x : Z) : M Z :=
  match VarInt_from_u64 x with Ok v => VarInt_size v | Err _ => Panic end.

Definition ConnectionClose_encode (x : ConnectionClose) (max_len : Z) : M (list Z) :=
  let ty := match cc_frame_type x with Some t => ty_u64 t | None => 0 end in
  encode CONNECTION_CLOSE ⧺ encode (cc_error_code x) ⧺ write_var ty ⧺
  (ty_size ← var_len ty;
   reason_size ← var_len (len (cc_reason x));
   m ← usub max_len 3;
   m ← usub m ty_size;
   m ← usub m reason_size;
   let actual_len := Z.min (len (cc_reason x)) m in
   write_var actual_len ⧺ mret (takeZ actual_len (cc_reason x))).

Definition ApplicationClose_encode (x : ApplicationClose) (max_len : Z) : M (list Z) :=
  encode APPLICATION_CLOSE ⧺ encode (ac_error_code x) ⧺
  (reason_size ← var_len (len (ac_reason x));
   m ← usub max_len 3;
   m ← usub m reason_size;
   let actual_len := Z.min (len (ac_reason x)) m in
   write_var actual_len ⧺ mret (takeZ actual_len (ac_reason x))).

Definition Close_encode (x : Close) (max_len : Z) : M (list Z) :=
  match x with
  | CloseConnection x => ConnectionClose_encode x max_len
  | CloseApplication x => ApplicationClose_encode x max_len
  end.

Definition is_transport_layer (x : Close) : bool :=
  match x with CloseConnection _ => true | _ => false end.

Definition EcnCounts_ZERO : EcnCounts := mkEcnCounts 0 0 0.
Definition EcnCounts_add (c : EcnCounts) (e : EcnCodepoint) : M EcnCounts :=
  match e with
  | Ect0 => n ← uadd (ect0 c) 1; mret (mkEcnCounts n (ect1 c) (ce c))
  | Ect1 => n ← uadd (ect1 c) 1; mret (mkEcnCounts (ect0 c) n (ce c))
  | Ce => n ← uadd (ce c) 1; mret (mkEcnCounts (ect0 c) (ect1 c) n)
  end.
Definition EcnCounts_encode (c : EcnCounts) : M (list Z) :=
  write_var (ect0 c) ⧺ write_var (ect1 c) ⧺ write_var (ce c).

(** The loop over the remaining ranges of [Ack::encode]. *)
Fixpoint Ack_encode_blocks (prev : Z) (rest : list Range) : M (list Z) :=
  match rest with
  | [] => mret []
  | block :: rest =>
      size ← usub (rend block) (rstart block);
      gap ← usub prev (rend block);
      gap ← usub gap 1;
      size1 ← usub size 1;
      write_var gap ⧺ write_var size1 ⧺ Ack_encode_blocks (rstart block) rest
  end.

Definition Ack_encode (delay : Z) (ranges : list Range) (ecn : option EcnCounts) : M (list Z) :=
  match rev (Arr.iter ranges) with
  | [] => Panic
  | first :: rest =>
      largest ← usub (rend first) 1;
      first_size ← usub (rend first) (rstart first);
      encode (match ecn with Some _ => ACK_ECN | None => ACK end) ⧺
      write_var largest ⧺ write_var delay ⧺
      (n ← usub (Arr.size ranges) 1; write_var n) ⧺
      (n ← usub first_size 1; write_var n) ⧺
      Ack_encode_blocks (rstart first) rest ⧺
      match ecn with Some x => EcnCounts_encode x | None => mret [] end
  end.

Definition StreamMeta_encode (x : StreamMeta) (length : bool) : M (list Z) :=
  let start := rstart (sm_offsets x) in
  let ty := STREAM_TYS_start in
  let ty := if start =? 0 then ty else Z.lor ty 4 in
  let ty := if length then Z.lor ty 2 else ty in
  let ty := if sm_fin x then Z.lor ty 1 else ty in
  write_var ty ⧺ encode (sm_id x) ⧺
  (if start =? 0 then mret [] else write_var start) ⧺
  (if length then n ← usub (rend (sm_offsets x)) start; write_var n else mret []).

Definition Crypto_encode (x : Crypto) : M (list Z) :=
  encode CRYPTO ⧺ write_var (cr_offset x) ⧺ write_var (len (cr_data x)) ⧺ mret (cr_data x).

Definition NewToken_encode (x : NewToken) : M (list Z) :=
  encode NEW_TOKEN ⧺ write_var (len (nt_token x)) ⧺ mret (nt_token x).

Definition NewToken_size (x : NewToken) : M Z :=
  n ← var_len (len (nt_token x)); mret (1 + n + len (nt_token x)).

Definition ResetStream_encode (x : ResetStream) : M (list Z) :=
  encode RESET_STREAM ⧺ encode (rs_id x) ⧺ encode (rs_error_code x) ⧺ encode (rs_final_offset x).

Definition StopSending_encode (x : StopSending) : M (list Z) :=
  encode STOP_SENDING ⧺ encode (ss_id x) ⧺ encode (ss_error_code x).

Definition NewConnectionId_encode (x : NewConnectionId) : M (list Z) :=
  encode NEW_CONNECTION_ID ⧺ write_var (nc_sequence x) ⧺ write_var (nc_retire_prior_to x) ⧺
  encode (mkUint (n := 1) (len (cid_bytes (nc_id x)) mod 256)) ⧺
  mret (cid_bytes (nc_id x)) ⧺ mret (token_bytes (nc_reset_token x)).

Definition Datagram_encode (x : Datagram) (length : bool) : M (list Z) :=
  encode (mkFrameType (Z.lor DATAGRAM_TYS_start (if length then 1 else 0))) ⧺
  (if length then write_var (len (dg_data x)) else mret []) ⧺ mret (dg_data x).

Definition Datagram_size (x : Datagram) (length : bool) : M Z :=
  n ← (if length then var_len (len (dg_data x)) else Ret 0); mret (1 + n + len (dg_data x)).

Definition AckFrequency_encode (x : AckFrequency) : M (list Z) :=
  encode ACK_FREQUENCY ⧺ encode (af_sequence x) ⧺ encode (af_ack_eliciting_threshold x) ⧺
  encode (af_request_max_ack_delay x) ⧺ encode (af_reordering_threshold x).

(** * The decoder *)

Inductive IterErr : Type := UnexpectedEndErr | InvalidFrameId | Malformed.

(** [self.bytes.get()?] and [self.bytes.get_var()?]. *)
Definition iget {A} `{Codec A} : parser IterErr A := map_err (fun _ => UnexpectedEndErr) decode.
Definition iget_var : parser IterErr Z := map_err (fun _ => UnexpectedEndErr) get_var.

(** [n] bytes, or [UnexpectedEnd]. *)
Definition take_bytes (n : Z) : parser IterErr (list Z) :=
  fun bs => if len bs <? n then (Err UnexpectedEndErr, bs) else (Ok (takeZ n bs), dropZ n bs).
Definition take_len : parser IterErr (list Z) := n ← iget_var; take_bytes n.
Definition take_remaining : parser IterErr (list Z) := fun bs => (Ok bs, []).

(** [checked_sub(..).ok_or(IterErr::Malformed)?]. *)
Definition sub_or_malformed (a b : Z) : parser IterErr Z :=
  match checked_sub a b with Some n => mret n | None => pfail Malformed end.

(** The loop of [scan_ack_blocks] for [n] more ranges.  Each iteration reads at
    least two bytes, so a [fuel] above the number of bytes is never exhausted.
    A decoded integer is below [2^62], so [gap + 2] does not overflow. *)
Fixpoint scan_loop (fuel : nat) (n : Z) (smallest : Z) : parser IterErr unit :=
  match fuel with
  | O => pfail Malformed
  | S fuel =>
      if n <=? 0 then mret tt
      else
        gap ← iget_var;
        smallest ← sub_or_malformed smallest (gap + 2);
        block ← iget_var;
        smallest ← sub_or_malformed smallest block;
        scan_loop fuel (n - 1) smallest
  end.

(** [scan_ack_blocks]; the result is the number of bytes the ranges cover. *)
Definition scan_ack_blocks (buf : list Z) (largest n : Z) : result IterErr Z :=
  let p :=
    first_block ← iget_var;
    smallest ← sub_or_malformed largest first_block;
    scan_loop (S (length buf)) n smallest in
  match p buf with
  | (Ok _, rest) => Ok (len buf - len rest)
  | (Err e, _) => Err e
  end.

(** [self.bytes.split_to(n)] of the bytes the ranges cover. *)
Definition take_ack_blocks (largest extra_blocks : Z) : parser IterErr (list Z) :=
  fun bs =>
    match scan_ack_blocks bs largest extra_blocks with
    | Err e => (Err e, bs)
    | Ok n => (Ok (takeZ n bs), dropZ n bs)
    end.

Definition decode_ack (ty : FrameType) : parser IterErr Frame :=
  largest ← iget_var;
  delay ← iget_var;
  extra_blocks ← iget_var;
  additional ← take_ack_blocks largest extra_blocks;
  if decide (ty = ACK_ECN) then
    e0 ← iget_var; e1 ← iget_var; c ← iget_var;
    mret (FAck (mkAck largest delay additional (Some (mkEcnCounts e0 e1 c))))
  else mret (FAck (mkAck largest delay additional None)).

(** [n] is at most [MAX_CID_SIZE] where [ConnectionId::new] is called, so its
    panic is not reached. *)
Definition decode_new_connection_id : parser IterErr Frame :=
  sequence ← iget_var;
  retire_prior_to ← iget_var;
  if sequence <? retire_prior_to then pfail Malformed
  else
    length ← iget (A := u8);
    let n := uval length in
    if (MAX_CID_SIZE <? n) || (n =? 0) then pfail Malformed
    else
      stage ← take_bytes n;
      match ConnectionId_new stage with
      | Panic => pfail Malformed
      | Ret id =>
          reset_token ← take_bytes RESET_TOKEN_SIZE;
          mret (FNewConnectionId (mkNewConnectionId sequence retire_prior_to id
                  (mkResetToken reset_token)))
      end.

(** The last arm of [try_next]: STREAM and DATAGRAM types carry flags. *)
Definition decode_flagged (ty : FrameType) : parser IterErr Frame :=
  match ty_stream ty with
  | Some s =>
      id ← iget;
      offset ← (if si_off s then iget_var else mret 0);
      data ← (if si_len s then take_len else take_remaining);
      mret (FStream (mkStream id offset (si_fin s) data))
  | None =>
      match ty_datagram ty with
      | Some d =>
          data ← (if di_len d then take_len else take_remaining);
          mret (FDatagram (mkDatagram data))
      | None => pfail InvalidFrameId
      end
  end.

Definition decode_close_connection : parser IterErr Frame :=
  code ← iget;
  x ← iget_var;
  r ← take_len;
  mret (FClose (CloseConnection (mkConnectionClose code
          (if x =? 0 then None else Some (mkFrameType x)) r))).

Definition is_ty (ty c : FrameType) : bool := ty_u64 ty =? ty_u64 c.

(** The [match ty] of [try_next]. *)
Definition frame_body (ty : FrameType) : parser IterErr Frame :=
  if is_ty ty PADDING then mret FPadding
  else if is_ty ty RESET_STREAM then
    id ← iget; code ← iget; off ← iget; mret (FResetStream (mkResetStream id code off))
  else if is_ty ty CONNECTION_CLOSE then decode_close_connection
  else if is_ty ty APPLICATION_CLOSE then
    code ← iget; r ← take_len; mret (FClose (CloseApplication (mkApplicationClose code r)))
  else if is_ty ty MAX_DATA then x ← iget; mret (FMaxData x)
  else if is_ty ty MAX_STREAM_DATA then id ← iget; off ← iget_var; mret (FMaxStreamData id off)
  else if is_ty ty MAX_STREAMS_BIDI then n ← iget_var; mret (FMaxStreams Bi n)
  else if is_ty ty MAX_STREAMS_UNI then n ← iget_var; mret (FMaxStreams Uni n)
  else if is_ty ty PING then mret FPing
  else if is_ty ty DATA_BLOCKED then off ← iget_var; mret (FDataBlocked off)
  else if is_ty ty STREAM_DATA_BLOCKED then
    id ← iget; off ← iget_var; mret (FStreamDataBlocked id off)
  else if is_ty ty STREAMS_BLOCKED_BIDI then n ← iget_var; mret (FStreamsBlocked Bi n)
  else if is_ty ty STREAMS_BLOCKED_UNI then n ← iget_var; mret (FStreamsBlocked Uni n)
  else if is_ty ty STOP_SENDING then
    id ← iget; code ← iget; mret (FStopSending (mkStopSending id code))
  else if is_ty ty RETIRE_CONNECTION_ID then n ← iget_var; mret (FRetireConnectionId n)
  else if is_ty ty ACK || is_ty ty ACK_ECN then decode_ack ty
  else if is_ty ty PATH_CHALLENGE then x ← iget (A := u64); mret (FPathChallenge (uval x))
  else if is_ty ty PATH_RESPONSE then x ← iget (A := u64); mret (FPathResponse (uval x))
  else if is_ty ty NEW_CONNECTION_ID then decode_new_connection_id
  else if is_ty ty CRYPTO then off ← iget_var; d ← take_len; mret (FCrypto (mkCrypto off d))
  else if is_ty ty NEW_TOKEN then t ← take_len; mret (FNewToken (mkNewToken t))
  else if is_ty ty HANDSHAKE_DONE then mret FHandshakeDone
  else if is_ty ty ACK_FREQUENCY then
    a ← iget; b ← iget; c ← iget; d ← iget; mret (FAckFrequency (mkAckFrequency a b c d))
  else if is_ty ty IMMEDIATE_ACK then mret FImmediateAck
  else decode_flagged ty.

Record Iter : Type := mkIter { it_bytes : list Z; last_ty : option FrameType }.

Definition Iter_new (payload : list Z) : result TransportError Iter :=
  match payload with
  | [] => Err (mkTransportError PROTOCOL_VIOLATION)
  | _ => Ok (mkIter payload None)
  end.

Definition try_next (it : Iter) : result IterErr Frame * Iter :=
  match iget (A := FrameType) (it_bytes it) with
  | (Err e, bs) => (Err e, mkIter bs (last_ty it))
  | (Ok ty, bs) => let '(r, bs) := frame_body ty bs in (r, mkIter bs (Some ty))
  end.

(** [InvalidFrame]; its [reason] text names the variant of [IterErr]. *)
Record InvalidFrame : Type := mkInvalidFrame { if_ty : option FrameType; if_reason : IterErr }.

Definition Iter_next (it : Iter) : option (result InvalidFrame Frame) * Iter :=
  match it_bytes it with
  | [] => (None, it)
  | _ =>
      match try_next it with
      | (Ok x, it) => (Some (Ok x), it)
      | (Err e, it) => (Some (Err (mkInvalidFrame (last_ty it) e)), mkIter [] (last_ty it))
      end
  end.

(** [impl From<InvalidFrame> for TransportError]. *)
Definition InvalidFrame_error (_ : InvalidFrame) : TransportError := mkTransportError FRAME_ENCODING_ERROR.

(** * Acknowledged ranges *)

(** [AckIter]: the remaining blocks and the largest packet number not yet
    covered. *)
Record AckIter : Type := mkAckIter { ai_largest : Z; ai_data : list Z }.
Definition AckIter_new (largest : Z) (data : list Z) : AckIter := mkAckIter largest data.
Definition Ack_iter (a : Ack) : AckIter := AckIter_new (ack_largest a) (ack_additional a).

(** One inclusive range [lo..=hi], as the pair of its ends. *)
Definition AckIter_next (it : AckIter) : M (option (Z * Z) * AckIter) :=
  match ai_data it with
  | [] => mret (None, it)
  | _ =>
      match get_var (ai_data it) with
      | (Err _, _) => Panic
      | (Ok block, data) =>
          let largest := ai_largest it in
          '(l, data) ←
            match get_var data with
            | (Ok gap, data) => k ← uadd block gap; k ← uadd k 2; l ← usub (ai_largest it) k; Ret (l, data)
            | (Err _, data) => Ret (ai_largest it, data)
            end;
          lo ← usub largest block;
          mret (Some (lo, largest), mkAckIter l data)
      end
  end.

(** Collecting the iterator; every item consumes a byte. *)
Fixpoint AckIter_collect (fuel : nat) (it : AckIter) : M (list (Z * Z)) :=
  match fuel with
  | O => Panic
  | S fuel =>
      '(o, it) ← AckIter_next it;
      match o with
      | None => mret []
      | Some r => rs ← AckIter_collect fuel it; mret (r :: rs)
      end
  end.

Definition Ack_ranges (a : Ack) : M (list (Z * Z)) :=
  AckIter_collect (S (length (ack_additional a))) (Ack_iter a).
