(* ===== verification/FrameTheorems.v ===== *)
(** Theorems about frames: round trips through the wire format, sizes, and the
    safety of decoding what a peer sends. *)
From S2P Require Import Prelude Coding RangeSet Ids Shared Frame.

(** * Every frame an endpoint writes *)

Definition Code_wf (c : Code) : Prop := 0 <= code_u64 c < 2 ^ 62.
Definition FrameType_wf (t : FrameType) : Prop := 0 <= ty_u64 t < 2 ^ 62.
Definition is_var (x : Z) : Prop := 0 <= x < 2 ^ 62.

(** The bytes written for a frame: the encoders of [frame.rs], and the writes of
    [write_control_frames] and [populate_packet] for the frames that have none.
    Acknowledgements are encoded from a set of ranges, and closes with a size
    limit; they have theorems of their own.  DATA_BLOCKED and
    STREAM_DATA_BLOCKED are never sent. *)
Definition frame_encode (f : Frame) : M (list Z) :=
  match f with
  | FPadding => encode PADDING
  | FPing => encode PING
  | FResetStream x => ResetStream_encode x
  | FStopSending x => StopSending_encode x
  | FCrypto x => Crypto_encode x
  | FNewToken x => NewToken_encode x
  | FStream x =>
      StreamMeta_encode (mkStreamMeta (st_id x)
        (mkRange (st_offset x) (st_offset x + len (st_data x))) (st_fin x)) true ⧺ mret (st_data x)
  | FMaxData x => encode MAX_DATA ⧺ encode x
  | FMaxStreamData id off => encode MAX_STREAM_DATA ⧺ encode id ⧺ write_var off
  | FMaxStreams Bi n => encode MAX_STREAMS_BIDI ⧺ write_var n
  | FMaxStreams Uni n => encode MAX_STREAMS_UNI ⧺ write_var n
  | FStreamsBlocked Bi n => encode STREAMS_BLOCKED_BIDI ⧺ write_var n
  | FStreamsBlocked Uni n => encode STREAMS_BLOCKED_UNI ⧺ write_var n
  | FNewConnectionId x => NewConnectionId_encode x
  | FRetireConnectionId n => encode RETIRE_CONNECTION_ID ⧺ write_var n
  | FPathChallenge x => encode PATH_CHALLENGE ⧺ encode (mkUint (n := 8) x)
  | FPathResponse x => encode PATH_RESPONSE ⧺ encode (mkUint (n := 8) x)
  | FDatagram x => Datagram_encode x true
  | FAckFrequency x => AckFrequency_encode x
  | FImmediateAck => encode IMMEDIATE_ACK
  | FHandshakeDone => encode HANDSHAKE_DONE
  | FAck _ | FClose _ | FDataBlocked _ | FStreamDataBlocked _ _ => Panic
  end.

Definition frame_wf (f : Frame) : Prop :=
  match f with
  | FPadding | FPing | FImmediateAck | FHandshakeDone => True
  | FResetStream x => id_wf (rs_id x) ∧ VarInt_wf (rs_error_code x) ∧ VarInt_wf (rs_final_offset x)
  | FStopSending x => id_wf (ss_id x) ∧ VarInt_wf (ss_error_code x)
  | FCrypto x => is_var (cr_offset x) ∧ is_var (len (cr_data x))
  | FNewToken x => is_var (len (nt_token x))
  | FStream x => id_wf (st_id x) ∧ is_var (st_offset x) ∧ is_var (st_offset x + len (st_data x))
  | FMaxData x => VarInt_wf x
  | FMaxStreamData id off => id_wf id ∧ is_var off
  | FMaxStreams _ n | FStreamsBlocked _ n => is_var n
  | FNewConnectionId x => is_var (nc_sequence x) ∧ 0 <= nc_retire_prior_to x <= nc_sequence x ∧
      cid_wf (nc_id x) ∧ 0 < cid_len (nc_id x) ∧ len (token_bytes (nc_reset_token x)) = RESET_TOKEN_SIZE
  | FRetireConnectionId n => is_var n
  | FPathChallenge x | FPathResponse x => 0 <= x < 2 ^ 64
  | FDatagram x => is_var (len (dg_data x))
  | FAckFrequency x => VarInt_wf (af_sequence x) ∧ VarInt_wf (af_ack_eliciting_threshold x) ∧
      VarInt_wf (af_request_max_ack_delay x) ∧ VarInt_wf (af_reordering_threshold x)
  | FAck _ | FClose _ | FDataBlocked _ | FStreamDataBlocked _ _ => False
  end.

(** The whole frame: the type, then its body. *)
Definition frame_parser : parser IterErr Frame := ty ← iget; frame_body ty.

(** * Building blocks *)

#[global] Instance FrameType_CodecOk : CodecOk FrameType FrameType_wf.
Proof.
  split. intros [x] Hx. destruct (enc_var x Hx) as (bs & Hb & Hd). exists bs. split; [done|].
  intros rest. cbn [decode FrameType_Codec]. unfold mbind, parser_bind. by rewrite Hd.
Qed.

#[global] Instance Code_CodecOk : CodecOk Code Code_wf.
Proof.
  split. intros [x] Hx. destruct (enc_var x Hx) as (bs & Hb & Hd). exists bs. split; [done|].
  intros rest. cbn [decode Code_Codec]. unfold mbind, parser_bind. by rewrite Hd.
Qed.

Lemma enc_iget {A} (wf : A → Prop) `{CodecOk A wf} a : wf a → enc_ok (encode a) iget a.
Proof. intros Ha. apply enc_map_err. by apply (enc_codec wf). Qed.

Lemma enc_iget_var x : is_var x → enc_ok (write_var x) iget_var x.
Proof. intros Hx. by apply enc_map_err, enc_var. Qed.

Lemma enc_bytes d : enc_ok (mret d) (take_bytes (len d)) d.
Proof.
  exists d. split; [done|]. intros rest. unfold take_bytes. rewrite len_app.
  pose proof (len_nonneg rest). zcases; [lia|]. unfold takeZ, dropZ, len.
  by rewrite Nat2Z.id, take_app_length, drop_app_length.
Qed.

Lemma enc_take_len d : is_var (len d) → enc_ok (write_var (len d) ⧺ mret d) take_len d.
Proof. intros Hd. eapply enc_bind; [by apply enc_iget_var|apply enc_bytes]. Qed.

Lemma enc_frame ty m f :
  FrameType_wf ty → enc_ok m (frame_body ty) f → enc_ok (encode ty ⧺ m) frame_parser f.
Proof. intros Ht Hm. eapply enc_bind; [by apply (enc_iget FrameType_wf)|done]. Qed.

Lemma enc_nil_r {A} m (p : parser IterErr A) a : enc_ok (m ⧺ Ret []) p a → enc_ok m p a.
Proof.
  intros (bs & Hb & Hd). unfold wapp in Hb. destruct m as [x|]; [|done]. simpl in Hb.
  rewrite app_nil_r in Hb. by exists bs.
Qed.

Lemma wapp_assoc a b c : (a ⧺ b) ⧺ c = a ⧺ b ⧺ c.
Proof. unfold wapp. destruct a as [x|], b as [y|], c as [z|]; simpl; try done. by rewrite app_assoc. Qed.

(** One field: the codec laws of its type. *)
Ltac enc_field :=
  first [ apply (enc_iget id_wf) | apply (enc_iget VarInt_wf) | apply (enc_iget Code_wf)
        | apply enc_iget_var | apply enc_take_len ]; assumption.
(** The fields of a frame in order, then the record built from them. *)
Ltac enc_fields :=
  lazymatch goal with
  | |- enc_ok (_ ⧺ _) (_ ≫= _) _ =>
      first [ eapply enc_last; [enc_field|reflexivity] | eapply enc_bind; [enc_field|enc_fields] ]
  | |- enc_ok _ (_ ≫= _) _ => eapply enc_last; [enc_field|reflexivity]
  end.

Lemma stream_bits (fin l off : bool) :
  let ty := Z.lor (Z.lor (Z.lor 8 (if off then 4 else 0)) (if l then 2 else 0)) (if fin then 1 else 0) in
  is_var ty ∧ 8 <= ty <= 15 ∧ si_fin (mkStreamInfo ty) = fin ∧ si_len (mkStreamInfo ty) = l ∧
  si_off (mkStreamInfo ty) = off.
Proof. destruct fin, l, off; vm_compute; intuition congruence. Qed.

(** Select the arm of a concrete frame type. *)
Ltac frame_arm :=
  unfold frame_body;
  repeat match goal with |- context [is_ty ?a ?b] =>
    let v := eval vm_compute in (is_ty a b) in change (is_ty a b) with v; cbv iota end;
  cbn [orb]; cbv iota.

Ltac frame_type := split; vm_compute; congruence.

Lemma enc_new_connection_id x :
  frame_wf (FNewConnectionId x) → enc_ok (NewConnectionId_encode x) frame_parser (FNewConnectionId x).
Proof.
  destruct x as [seq ret cid [tok]]. cbn [frame_wf nc_sequence nc_retire_prior_to nc_id nc_reset_token token_bytes].
  intros (Hs & Hr & Hc & Hl & Ht). pose proof (cid_bytes_len cid Hc) as Hcl.
  pose proof Hc as (Hn & _). unfold MAX_CID_SIZE in Hn.
  apply enc_frame; [frame_type|]. frame_arm.
  cbn [nc_sequence nc_retire_prior_to nc_id nc_reset_token token_bytes].
  eapply enc_bind; [by apply enc_iget_var|]. eapply enc_bind; [apply enc_iget_var; unfold is_var in *; lia|].
  destruct (Z.ltb_spec seq ret); [lia|]. rewrite Z.mod_small by lia.
  eapply enc_bind; [apply (enc_iget uint_wf); unfold uint_wf; simpl; lia|]. cbn [uval].
  destruct (Z.ltb_spec MAX_CID_SIZE (len (cid_bytes cid))); [unfold MAX_CID_SIZE in *; lia|].
  destruct (Z.eqb_spec (len (cid_bytes cid)) 0); [lia|]. cbn [orb].
  eapply enc_bind; [apply enc_bytes|]. rewrite ConnectionId_new_bytes by done.
  eapply enc_last; [|reflexivity]. rewrite <- Ht. apply enc_bytes.
Qed.

(** The flag bits of a concrete STREAM or DATAGRAM type. *)
Ltac flag_arm :=
  frame_arm; unfold decode_flagged;
  repeat match goal with
  | |- context [ty_stream ?t] => let v := eval vm_compute in (ty_stream t) in change (ty_stream t) with v
  | |- context [ty_datagram ?t] => let v := eval vm_compute in (ty_datagram t) in change (ty_datagram t) with v
  end; cbv iota;
  repeat match goal with
  | |- context [si_off ?t] => let v := eval vm_compute in (si_off t) in change (si_off t) with v
  | |- context [si_len ?t] => let v := eval vm_compute in (si_len t) in change (si_len t) with v
  | |- context [si_fin ?t] => let v := eval vm_compute in (si_fin t) in change (si_fin t) with v
  | |- context [di_len ?t] => let v := eval vm_compute in (di_len t) in change (di_len t) with v
  end; cbv iota.

Lemma wapp_nil_l m : mret [] ⧺ m = m.
Proof. unfold wapp. destruct m; done. Qed.

Lemma enc_stream x : frame_wf (FStream x) → enc_ok (frame_encode (FStream x)) frame_parser (FStream x).
Proof.
  destruct x as [id o fin data]. cbn [frame_wf frame_encode st_id st_offset st_fin st_data].
  intros (Hid & Ho & Hoe). unfold StreamMeta_encode. cbn [sm_id sm_offsets sm_fin rstart rend].
  pose proof (len_nonneg data). rewrite usub_ok by lia. cbn [mbind M_bind].
  replace (o + len data - o) with (len data) by lia.
  assert (Hlen : is_var (len data)) by (unfold is_var in *; lia).
  rewrite !wapp_assoc.
  destruct (Z.eqb_spec o 0) as [->|Hnz], fin; rewrite ?wapp_nil_l;
    match goal with |- enc_ok (write_var ?t ⧺ _) _ _ =>
      let v := eval vm_compute in t in change (write_var t) with (encode (mkFrameType v)) end;
    (apply enc_frame; [frame_type|]); flag_arm;
    (eapply enc_bind; [by apply (enc_iget id_wf)|]).
  1, 2: rewrite <- (wapp_nil_l (write_var _ ⧺ _)); eapply enc_bind; [apply enc_ret|].
  3, 4: eapply enc_bind; [by apply enc_iget_var|].
  all: eapply enc_last; [by apply enc_take_len|done].
Qed.

(** [m] writes what [p] reads back as [a] when [d] is all that follows. *)
Definition enc_end {A} (m : M (list Z)) (p : parser IterErr A) (a : A) (d : list Z) : Prop :=
  ∃ bs, m = Ret bs ∧ p (bs ++ d) = (Ok a, []).

Lemma enc_bind_end {A B} m n (p : parser IterErr A) (k : A → parser IterErr B) a b d :
  enc_ok m p a → enc_end n (k a) b d → enc_end (m ⧺ n) (p ≫= k) b d.
Proof.
  intros (x & -> & Hx) (y & -> & Hy). exists (x ++ y). split; [done|].
  unfold mbind, parser_bind. by rewrite <- app_assoc, Hx.
Qed.

Lemma enc_remaining {A} (f : list Z → A) d :
  enc_end (mret []) (take_remaining ≫= (fun x => mret (f x))) (f d) d.
Proof. by exists []. Qed.

(** A STREAM frame without a length takes the rest of the packet. *)
Lemma enc_stream_last id o fin data :
  id_wf id → is_var o →
  enc_end (StreamMeta_encode (mkStreamMeta id (mkRange o (o + len data)) fin) false)
    frame_parser (FStream (mkStream id o fin data)) data.
Proof.
  intros Hid Ho. unfold StreamMeta_encode. cbn [sm_id sm_offsets sm_fin rstart rend].
  destruct (Z.eqb_spec o 0) as [->|Hnz], fin;
    match goal with |- enc_end (write_var ?t ⧺ _) _ _ _ =>
      let v := eval vm_compute in t in change (write_var t) with (encode (mkFrameType v));
      eapply enc_bind_end; [apply (enc_iget FrameType_wf (mkFrameType v)); frame_type|] end;
    flag_arm; (eapply enc_bind_end; [by apply (enc_iget id_wf)|]).
  1, 2: eapply enc_bind_end; [apply enc_ret|]; apply (enc_remaining (fun d => FStream (mkStream id 0 _ d))).
  all: eapply enc_bind_end; [by apply enc_iget_var|];
    apply (enc_remaining (fun d => FStream (mkStream id o _ d))).
Qed.

#[local] Arguments enc_ok : simpl never.
#[local] Arguments wapp : simpl never.
#[local] Arguments encode : simpl never.
#[local] Arguments write_var : simpl never.
#[local] Arguments frame_parser : simpl never.

(** Every other frame, field by field. *)
Lemma enc_frame_encode f : frame_wf f → enc_ok (frame_encode f) frame_parser f.
Proof.
  destruct f as [| |x|x|x|x|x|x|x|id off|d n|off|id off|d n|x|n|x|x|x|x|x| |]; try done.
  all: try (intros _; cbn [frame_encode]; apply enc_nil_r, enc_frame; [frame_type|]; frame_arm; apply enc_ret).
  - destruct x. cbn. intros (? & ? & ?). apply enc_frame; [frame_type|]. frame_arm. cbn. enc_fields.
  - destruct x. cbn. intros (? & ?). apply enc_frame; [frame_type|]. frame_arm. cbn. enc_fields.
  - destruct x. cbn. intros (? & ?). apply enc_frame; [frame_type|]. frame_arm. cbn. enc_fields.
  - destruct x. cbn. intros ?. apply enc_frame; [frame_type|]. frame_arm. cbn. enc_fields.
  - apply enc_stream.
  - cbn. intros ?. apply enc_frame; [frame_type|]. frame_arm. enc_fields.
  - cbn. intros (? & ?). apply enc_frame; [frame_type|]. frame_arm. enc_fields.
  - destruct d; cbn; intros ?; (apply enc_frame; [frame_type|]); frame_arm; enc_fields.
  - destruct d; cbn; intros ?; (apply enc_frame; [frame_type|]); frame_arm; enc_fields.
  - apply enc_new_connection_id.
  - cbn. intros ?. apply enc_frame; [frame_type|]. frame_arm. enc_fields.
  - cbn. intros Hx. apply enc_frame; [frame_type|]. frame_arm.
    eapply enc_last; [apply (enc_iget uint_wf (mkUint (n := 8) x)); exact Hx|done].
  - cbn. intros Hx. apply enc_frame; [frame_type|]. frame_arm.
    eapply enc_last; [apply (enc_iget uint_wf (mkUint (n := 8) x)); exact Hx|done].
  - destruct x as [data]. cbn. intros Hx. unfold Datagram_encode. cbn [dg_data].
    change (Z.lor DATAGRAM_TYS_start 1) with 49. apply enc_frame; [frame_type|]. flag_arm.
    eapply enc_last; [by apply enc_take_len|done].
  - destruct x. cbn. intros (? & ? & ? & ?). apply enc_frame; [frame_type|]. frame_arm. cbn. enc_fields.
Qed.

(** * Acknowledgements *)

(** The inclusive ranges, largest first. *)
Definition inclusive (r : Range) : Z * Z := (rstart r, rend r - 1).

(** Ranges in descending order below [prev], with a gap before each. *)
Fixpoint descending (prev : Z) (rest : list Range) : Prop :=
  match rest with
  | [] => True
  | r :: rest => 0 <= rstart r < rend r ∧ rend r < prev ∧ descending (rstart r) rest
  end.

Lemma sub_ok a b : b <= a → sub_or_malformed a b = mret (a - b).
Proof. intros. unfold sub_or_malformed, checked_sub. zcases; [done|lia]. Qed.

Lemma enc_sub {A} m a b (k : Z → parser IterErr A) x :
  b <= a → enc_ok m (k (a - b)) x → enc_ok m (sub_or_malformed a b ≫= k) x.
Proof. intros Hab Hm. rewrite sub_ok by done. rewrite <- (wapp_nil_l m). eapply enc_bind; [apply enc_ret|done]. Qed.

Lemma enc_scan prev rest :
  descending prev rest → 0 <= prev < 2 ^ 62 →
  ∀ fuel, (length rest < fuel)%nat →
  enc_ok (Ack_encode_blocks prev rest) (scan_loop fuel (len rest) prev) tt.
Proof.
  revert prev. induction rest as [|r rest IH]; intros prev Hd Hp fuel Hf.
  - destruct fuel as [|fuel]; [simpl in Hf; lia|]. apply enc_ret.
  - destruct Hd as (Hr & Hrp & Hd). destruct fuel as [|fuel]; [simpl in Hf; lia|].
    cbn [Ack_encode_blocks scan_loop]. rewrite len_cons. pose proof (len_nonneg rest).
    destruct (Z.leb_spec (1 + len rest) 0); [lia|].
    do 4 (rewrite usub_ok by lia; cbn [mbind M_bind]).
    eapply enc_bind; [apply enc_iget_var; unfold is_var; lia|].
    apply enc_sub; [lia|]. eapply enc_bind; [apply enc_iget_var; unfold is_var; lia|].
    apply enc_sub; [lia|].
    replace (prev - (prev - rend r - 1 + 2) - (rend r - rstart r - 1)) with (rstart r) by lia.
    replace (1 + len rest - 1) with (len rest) by lia. apply IH; [done|lia|simpl in Hf; lia].
Qed.

(** An encoded integer, and what [get_var] makes of it. *)
Lemma write_var_get x : is_var x → ∃ p, write_var x = Ret p ∧ p ≠ [] ∧ ∀ t, get_var (p ++ t) = (Ok x, t).
Proof.
  intros Hx. destruct (enc_var x Hx) as (p & Hp & Hd). exists p. split; [done|]. split; [|done].
  intros ->. specialize (Hd []). by vm_compute in Hd.
Qed.

(** [AckIter] on one block followed by the rest. *)
Lemma AckIter_last p block largest :
  p ≠ [] → (∀ t, get_var (p ++ t) = (Ok block, t)) → block <= largest →
  AckIter_next (mkAckIter largest p) = Ret (Some (largest - block, largest), mkAckIter largest []).
Proof.
  intros Hp Hd Hb. unfold AckIter_next. cbn [ai_data ai_largest].
  destruct p as [|z p]; [done|]. specialize (Hd []). rewrite app_nil_r in Hd. rewrite Hd.
  change (get_var []) with (Err mkUnexpectedEnd : result UnexpectedEnd Z, @nil Z).
  cbn [mbind M_bind]. by rewrite usub_ok.
Qed.

Lemma AckIter_more p block q gap rest largest :
  p ≠ [] → (∀ t, get_var (p ++ t) = (Ok block, t)) → (∀ t, get_var (q ++ t) = (Ok gap, t)) →
  is_var block → is_var gap → block + gap + 2 <= largest →
  AckIter_next (mkAckIter largest (p ++ q ++ rest)) =
    Ret (Some (largest - block, largest), mkAckIter (largest - (block + gap + 2)) rest).
Proof.
  intros Hp Hd Hq Hb Hg Hl. unfold AckIter_next. cbn [ai_data ai_largest].
  destruct (p ++ q ++ rest) eqn:E; [by destruct p|]. rewrite <- E, Hd, Hq. unfold is_var in *.
  rewrite uadd_ok by (unfold u64_max; lia). cbn [mbind M_bind].
  rewrite uadd_ok by (unfold u64_max; lia). cbn [mbind M_bind].
  rewrite usub_ok by lia. cbn [mbind M_bind]. by rewrite usub_ok by lia.
Qed.

Lemma collect_ok r rest :
  0 <= rstart r < rend r → rend r <= 2 ^ 62 → descending (rstart r) rest →
  ∃ p q, write_var (rend r - rstart r - 1) = Ret p ∧ Ack_encode_blocks (rstart r) rest = Ret q ∧
    ∀ fuel, (length (p ++ q) < fuel)%nat →
    AckIter_collect fuel (mkAckIter (rend r - 1) (p ++ q)) = Ret (inclusive <$> (r :: rest)).
Proof.
  revert r. induction rest as [|r' rest IH]; intros r Hr Hmax Hd.
  - destruct (write_var_get (rend r - rstart r - 1)) as (p & Hp & Hpn & Hpg); [unfold is_var; lia|].
    exists p, []. split; [done|]. split; [done|]. intros fuel Hf. rewrite app_nil_r in *.
    destruct p as [|z p]; [done|]. simpl in Hf. destruct fuel as [|[|fuel]]; [lia..|].
    cbn [AckIter_collect]. rewrite (AckIter_last _ (rend r - rstart r - 1)) by (done || lia).
    cbn [mbind M_bind]. simpl. unfold inclusive. do 3 f_equal. lia.
  - destruct Hd as (Hr' & Hlt & Hd).
    destruct (write_var_get (rend r - rstart r - 1)) as (p & Hp & Hpn & Hpg); [unfold is_var; lia|].
    destruct (write_var_get (rstart r - rend r' - 1)) as (g & Hg & Hgn & Hgg); [unfold is_var; lia|].
    destruct (IH r') as (p' & q' & Hp' & Hq' & Hc); [done|lia|done|].
    exists p, (g ++ p' ++ q'). split; [done|]. split.
    { cbn [Ack_encode_blocks]. do 4 (rewrite usub_ok by lia; cbn [mbind M_bind]). by rewrite Hg, Hp', Hq'. }
    intros fuel Hf. destruct fuel as [|fuel]; [lia|]. cbn [AckIter_collect].
    rewrite (AckIter_more _ (rend r - rstart r - 1) _ (rstart r - rend r' - 1))
      by (done || unfold is_var; lia).
    cbn [mbind M_bind].
    replace (rend r - 1 - (rend r - rstart r - 1 + (rstart r - rend r' - 1) + 2)) with (rend r' - 1) by lia.
    rewrite Hc; [|destruct p; [done|]; rewrite !length_app in *; simpl in Hf; lia].
    cbn [mbind M_bind mret M_ret]. simpl. unfold inclusive. do 3 f_equal. lia.
Qed.

Lemma descending_rev lo m prev :
  wf_from lo m → 0 <= lo → Forall (fun r => rend r < prev) m → descending prev (rev m).
Proof.
  assert (Happ : ∀ l r prev, descending prev l → 0 <= rstart r < rend r → rend r < prev →
    Forall (fun q => rend r < rstart q) l → descending prev (l ++ [r])).
  { induction l as [|q l IH]; intros r prev' Hd Hr Hp Hl; simpl; [done|].
    destruct Hd as (? & ? & ?). apply Forall_cons in Hl as [? ?]. repeat (split; [done|]). by apply IH. }
  revert lo. induction m as [|r m IH]; intros lo Hw Hlo Hp; simpl; [done|].
  destruct Hw as (? & ? & ? & Hw). apply Forall_cons in Hp as [Hpr Hp].
  apply Happ; [by apply (IH (rend r + 1)); [|lia|]|lia|done|].
  apply Forall_rev. eapply Forall_impl; [exact (wf_from_Forall _ _ Hw)|]. simpl. lia.
Qed.

Lemma Ack_blocks_length rest prev q : Ack_encode_blocks prev rest = Ret q → (length rest <= length q)%nat.
Proof.
  revert prev q. induction rest as [|r rest IH]; intros prev q; cbn [Ack_encode_blocks]; [simpl; lia|].
  intros Hq. do 4 (apply M_bind_ret in Hq as (? & _ & Hq)).
  apply M_bind_ret in Hq as (a & Ha & Hq). apply M_bind_ret in Hq as (b & Hb & Hq). injection Hq as <-.
  apply M_bind_ret in Hb as (c & _ & Hb). apply M_bind_ret in Hb as (d & Hd & Hb). injection Hb as <-.
  apply IH in Hd. apply write_var_len in Ha. pose proof (var_size_range x1).
  rewrite !length_app. unfold len in Ha. simpl. lia.
Qed.

(** The blocks of an encoded set are scanned to their end. *)
Lemma enc_ack_blocks r rest :
  0 <= rstart r < rend r → rend r <= 2 ^ 62 → descending (rstart r) rest →
  ∃ p q, write_var (rend r - rstart r - 1) = Ret p ∧ Ack_encode_blocks (rstart r) rest = Ret q ∧
    enc_ok (Ret (p ++ q)) (take_ack_blocks (rend r - 1) (len rest)) (p ++ q) ∧
    AckIter_collect (S (length (p ++ q))) (mkAckIter (rend r - 1) (p ++ q)) =
      Ret (inclusive <$> (r :: rest)).
Proof.
  intros Hr Hmax Hd. destruct (collect_ok r rest Hr Hmax Hd) as (p & q & Hp & Hq & Hc).
  exists p, q. split; [done|]. split; [done|]. split; [|apply Hc; lia].
  exists (p ++ q). split; [done|]. intros tail. unfold take_ack_blocks, scan_ack_blocks.
  destruct (write_var_get (rend r - rstart r - 1)) as (p' & Hp' & _ & Hg); [unfold is_var; lia|].
  rewrite Hp in Hp'. injection Hp' as <-.
  destruct (enc_scan (rstart r) rest Hd ltac:(lia) (S (length ((p ++ q) ++ tail)))) as (q' & Hq' & Hs).
  { pose proof (Ack_blocks_length rest (rstart r) q Hq). rewrite !length_app. lia. }
  rewrite Hq in Hq'. injection Hq' as <-.
  match goal with |- context [(iget_var ≫= ?k) ?b] => assert ((iget_var ≫= k) b = (Ok tt, tail)) as -> end.
  { unfold mbind at 1, parser_bind, iget_var, map_err. rewrite <- app_assoc, Hg.
    rewrite sub_ok by lia. unfold mbind, parser_bind, mret, parser_ret.
    replace (rend r - 1 - (rend r - rstart r - 1)) with (rstart r) by lia. rewrite app_assoc. apply Hs. }
  rewrite len_app. replace (len (p ++ q) + len tail - len tail) with (len (p ++ q)) by lia.
  unfold takeZ, dropZ, len. by rewrite Nat2Z.id, take_app_length, drop_app_length.
Qed.

Definition ecn_wf (e : EcnCounts) : Prop := is_var (ect0 e) ∧ is_var (ect1 e) ∧ is_var (ce e).

Lemma enc_ack delay ranges ecn :
  wf ranges → ranges ≠ [] → Forall (fun r => rend r <= 2 ^ 62) ranges → len ranges <= 2 ^ 62 →
  is_var delay → (∀ e, ecn = Some e → ecn_wf e) →
  ∃ a, enc_ok (Ack_encode delay ranges ecn) frame_parser (FAck a) ∧ ack_delay a = delay ∧
    ack_ecn a = ecn ∧ Ack_ranges a = Ret (inclusive <$> rev ranges).
Proof.
  intros Hw Hne Hmax Hlen Hdl Hecn. unfold Ack_encode, Arr.iter, Arr.size.
  assert (Hrev : ∃ r rest, rev ranges = r :: rest ∧ 0 <= rstart r < rend r ∧ rend r <= 2 ^ 62 ∧
    descending (rstart r) rest ∧ len ranges = len rest + 1).
  { pose proof (descending_rev 0 ranges (2 ^ 62 + 1) Hw ltac:(lia)) as Hd.
    destruct (rev ranges) as [|r rest] eqn:E.
    { exfalso. apply Hne. rewrite <- (rev_involutive ranges), E. done. }
    destruct Hd as (? & ? & ?); [eapply Forall_impl; [exact Hmax|]; simpl; lia|].
    exists r, rest. split; [done|]. split; [done|]. split; [lia|]. split; [done|].
    assert (Hl : length (rev ranges) = S (length rest)) by (by rewrite E).
    rewrite length_rev in Hl. unfold len. lia. }
  destruct Hrev as (r & rest & -> & Hr & Hre & Hd & Hl).
  destruct (enc_ack_blocks r rest Hr Hre Hd) as (p & q & Hp & Hq & Hblk & Hcol).
  pose proof (len_nonneg rest).
  rewrite !usub_ok by lia. cbn [mbind M_bind]. rewrite ?usub_ok by lia. cbn [mbind M_bind].
  rewrite Hp, Hq. replace (len ranges - 1) with (len rest) by lia.
  exists (mkAck (rend r - 1) delay (p ++ q) ecn). split; [|done].
  assert (Hre' : (∀ m, Ret p ⧺ Ret q ⧺ m = Ret (p ++ q) ⧺ m)) by (intros m; by rewrite <- wapp_assoc).
  rewrite Hre'.
  apply enc_frame; [destruct ecn; frame_type|].
  assert (Hbody : frame_body (match ecn with Some _ => ACK_ECN | None => ACK end) =
                  decode_ack (match ecn with Some _ => ACK_ECN | None => ACK end)) by (by destruct ecn).
  rewrite Hbody. unfold decode_ack.
  eapply enc_bind; [apply enc_iget_var; unfold is_var; lia|].
  eapply enc_bind; [by apply enc_iget_var|].
  eapply enc_bind; [apply enc_iget_var; unfold is_var; lia|]. eapply enc_bind; [exact Hblk|].
  destruct ecn as [e|]; [|apply enc_ret]. destruct (Hecn e eq_refl) as (H0 & H1 & H2).
  destruct e as [e0 e1 c]. unfold EcnCounts_encode. simpl in *. enc_fields.
Qed.

(** * What a peer can make the decoder return *)

(** Inclusive ranges in descending order, ending at [hi]. *)
Fixpoint acked_below (hi : Z) (l : list (Z * Z)) : Prop :=
  match l with
  | [] => True
  | (lo, top) :: l => 0 <= lo <= top ∧ top <= hi ∧ acked_below (lo - 2) l
  end.

Lemma iget_var_local bs x r :
  iget_var bs = (Ok x, r) → ∃ p, bs = p ++ r ∧ p ≠ [] ∧ ∀ t, get_var (p ++ t) = (Ok x, t).
Proof.
  unfold iget_var, map_err. destruct (get_var bs) as [[y|] r'] eqn:Hg; [|done].
  intros [= <- <-]. by apply get_var_local.
Qed.

Lemma iget_var_range bs x r :
  Forall (fun b => 0 <= b < 256) bs → iget_var bs = (Ok x, r) → is_var x.
Proof.
  intros Hb. unfold iget_var, map_err. destruct (get_var bs) as [[y|] r'] eqn:Hg; [|done].
  intros [= <- <-]. by eapply get_var_range.
Qed.

Lemma sub_bind {A} a b (k : Z → parser IterErr A) bs :
  (sub_or_malformed a b ≫= k) bs = if b <=? a then k (a - b) bs else (Err Malformed, bs).
Proof. unfold sub_or_malformed, checked_sub. by destruct (b <=? a). Qed.

Lemma var_bind {A} (k : Z → parser IterErr A) bs :
  (iget_var ≫= k) bs = match iget_var bs with (Ok x, r) => k x r | (Err e, r) => (Err e, r) end.
Proof. done. Qed.

Lemma scan_collect fuel n smallest bs tail :
  Forall (fun b => 0 <= b < 256) bs → scan_loop fuel n smallest bs = (Ok tt, tail) →
  ∃ q, bs = q ++ tail ∧
    ∀ p block largest, p ≠ [] → (∀ t, get_var (p ++ t) = (Ok block, t)) → is_var block →
      smallest = largest - block → 0 <= smallest →
      ∃ l, acked_below (smallest - 2) l ∧ ∀ k, (length (p ++ q) < k)%nat →
        AckIter_collect k (mkAckIter largest (p ++ q)) = Ret ((smallest, largest) :: l).
Proof.
  revert n smallest bs. induction fuel as [|fuel IH]; intros n smallest bs Hb; [done|].
  cbn [scan_loop]. destruct (Z.leb_spec n 0).
  - intros [= <-]. exists []. split; [done|]. intros p block largest Hpn Hp Hbl -> H0. exists [].
    split; [done|]. intros k Hk. rewrite app_nil_r in *.
    destruct p as [|z p]; [done|]. simpl in Hk. destruct k as [|[|k]]; [lia..|].
    cbn [AckIter_collect]. by rewrite (AckIter_last _ block) by (done || lia).
  - rewrite var_bind. destruct (iget_var bs) as [[gap|] r1] eqn:Hg; [|done].
    destruct (iget_var_local _ _ _ Hg) as (g & -> & Hgn & Hgl).
    pose proof (iget_var_range _ _ _ Hb Hg) as Hgr. apply Forall_app in Hb as [_ Hb].
    rewrite sub_bind. destruct (Z.leb_spec (gap + 2) smallest); [|done].
    rewrite var_bind. destruct (iget_var r1) as [[blk|] r2] eqn:Hk; [|done].
    destruct (iget_var_local _ _ _ Hk) as (c & -> & Hcn & Hcl).
    pose proof (iget_var_range _ _ _ Hb Hk) as Hcr. apply Forall_app in Hb as [_ Hb].
    rewrite sub_bind. destruct (Z.leb_spec blk (smallest - (gap + 2))); [|done]. intros Hs.
    destruct (IH _ _ _ Hb Hs) as (q & -> & Hq). exists (g ++ c ++ q). rewrite <- !app_assoc. split; [done|].
    intros p block largest Hpn Hp Hbl Hsm Hs0.
    destruct (Hq c blk (largest - (block + gap + 2))) as (l & Hl & Hcol); try done; [lia|lia|].
    exists ((smallest - (gap + 2) - blk, largest - (block + gap + 2)) :: l).
    unfold is_var in *. split; [cbn [acked_below]; split; [lia|]; split; [lia|done]|].
    intros k Hkl. destruct k as [|k]; [lia|]. cbn [AckIter_collect].
    rewrite (AckIter_more _ block _ gap) by (done || unfold is_var; lia). cbn [mbind M_bind].
    rewrite Hcol; [|destruct p; [done|]; rewrite !length_app in *; simpl in Hkl; lia].
    cbn [mbind M_bind mret M_ret]. do 3 f_equal. lia.
Qed.

Lemma take_ack_blocks_iterates largest n bs add tail :
  Forall (fun b => 0 <= b < 256) bs → take_ack_blocks largest n bs = (Ok add, tail) →
  ∃ l, AckIter_collect (S (length add)) (mkAckIter largest add) = Ret l ∧ acked_below largest l ∧
       head (snd <$> l) = Some largest.
Proof.
  intros Hb. unfold take_ack_blocks, scan_ack_blocks.
  rewrite var_bind. destruct (iget_var bs) as [[block|] r1] eqn:Hg; [|done].
  destruct (iget_var_local _ _ _ Hg) as (p & -> & Hpn & Hpl).
  pose proof (iget_var_range _ _ _ Hb Hg) as Hbr. apply Forall_app in Hb as [_ Hb].
  rewrite sub_bind. destruct (Z.leb_spec block largest); [|done].
  destruct (scan_loop _ n (largest - block) r1) as [[[]|] t] eqn:Hs; [|done].
  destruct (scan_collect _ _ _ _ _ Hb Hs) as (q & -> & Hq). intros [= <- <-].
  assert (takeZ (len (p ++ q ++ t) - len t) (p ++ q ++ t) = p ++ q) as ->.
  { rewrite app_assoc, len_app. replace (len (p ++ q) + len t - len t) with (len (p ++ q)) by lia.
    unfold takeZ, len. by rewrite Nat2Z.id, take_app_length. }
  unfold is_var in *. destruct (Hq p block largest) as (l & Hl & Hcol); try done; [lia|].
  eexists. split; [apply Hcol; lia|]. split; [|done]. cbn [acked_below]. split; [lia|]. split; [lia|done].
Qed.

(** * Progress of the iterator *)

(** A parser only moves forward. *)
Definition forward {E A} (p : parser E A) : Prop :=
  ∀ bs x r, p bs = (Ok x, r) → ∃ q, bs = q ++ r.

Lemma forward_bind {E A B} (p : parser E A) (k : A → parser E B) :
  forward p → (∀ a, forward (k a)) → forward (p ≫= k).
Proof.
  intros Hp Hk bs x r. unfold mbind, parser_bind. destruct (p bs) as [[a|] r1] eqn:E1; [|done].
  intros Hx. destruct (Hp _ _ _ E1) as [q1 ->]. destruct (Hk a _ _ _ Hx) as [q2 ->].
  exists (q1 ++ q2). by rewrite app_assoc.
Qed.
Lemma forward_ret {E A} (a : A) : forward (E := E) (mret a).
Proof. intros bs x r [= _ <-]. by exists []. Qed.
Lemma forward_fail {E A} (e : E) : forward (A := A) (pfail e).
Proof. done. Qed.
Lemma forward_map_err {E F A} (g : E → F) (p : parser E A) : forward p → forward (map_err g p).
Proof.
  intros Hp bs x r. unfold map_err. destruct (p bs) as [[a|] r1] eqn:E1; [|done].
  intros [= <- <-]. by eapply Hp.
Qed.
Lemma forward_var : forward get_var.
Proof. intros bs x r Hx. destruct (get_var_local _ _ _ Hx) as (p & -> & _). by exists p. Qed.
Lemma forward_varint : forward VarInt_decode.
Proof. intros bs x r Hx. destruct (VarInt_decode_local _ _ _ Hx) as (p & -> & _). by exists p. Qed.
Lemma forward_uint n : forward (decode (A := uint n)).
Proof.
  intros bs x r. cbn [decode uint_Codec]. zcases; [done|]. intros [= <- <-].
  exists (take n bs). by rewrite take_drop.
Qed.
Lemma forward_bytes n : forward (take_bytes n).
Proof.
  intros bs x r. unfold take_bytes. zcases; [done|]. intros [= <- <-].
  exists (takeZ n bs). unfold takeZ, dropZ. by rewrite take_drop.
Qed.
Lemma forward_remaining : forward take_remaining.
Proof. intros bs x r [= <- <-]. exists bs. by rewrite app_nil_r. Qed.
Lemma forward_ack_blocks l n : forward (take_ack_blocks l n).
Proof.
  intros bs x r. unfold take_ack_blocks. case_match; [|done]. intros [= <- <-].
  exists (takeZ a bs). unfold takeZ, dropZ. by rewrite take_drop.
Qed.

(** Walk through a decoder built from the parsers above. *)
Ltac go_forward :=
  repeat first
    [ apply forward_ret | apply forward_fail | apply forward_var | apply forward_varint
    | apply forward_uint | apply forward_bytes | apply forward_remaining | apply forward_ack_blocks
    | apply forward_map_err | apply forward_bind; [|intros ?]
    | match goal with |- forward (if ?b then _ else _) => destruct b end
    | match goal with |- forward (match ?b with _ => _ end) => destruct b end ].

Lemma forward_body ty : forward (frame_body ty).
Proof.
  unfold frame_body, iget, iget_var, take_len, decode_ack, decode_new_connection_id, decode_flagged,
    decode_close_connection, iget_var, take_len, iget, iget_var.
  go_forward.
Qed.

(** The frames of a payload: [for frame in Iter::new(payload)?]. *)
Fixpoint Iter_collect (fuel : nat) (it : Iter) : option (list (result InvalidFrame Frame)) :=
  match fuel with
  | O => None
  | S fuel =>
      match Iter_next it with
      | (None, _) => Some []
      | (Some x, it) => xs ← Iter_collect fuel it; Some (x :: xs)
      end
  end.

Lemma try_next_shorter bs t f it :
  try_next (mkIter bs t) = (Ok f, it) → ∃ q, q ≠ [] ∧ bs = q ++ it_bytes it.
Proof.
  unfold try_next. cbn [it_bytes]. unfold iget, map_err. cbn [decode FrameType_Codec].
  unfold mbind at 1, parser_bind. destruct (get_var bs) as [[ty|] r] eqn:Hg; [|done].
  unfold mret, parser_ret. destruct (frame_body (mkFrameType ty) r) as [x r'] eqn:Hb.
  intros [= -> <-]. destruct (get_var_local _ _ _ Hg) as (p & -> & Hp & _).
  destruct (forward_body _ _ _ _ Hb) as [q ->]. exists (p ++ q). cbn [it_bytes].
  split; [by destruct p|]. by rewrite app_assoc.
Qed.

(** What a decoder guarantees of its result on any bytes. *)
Definition bytes_ok (bs : list Z) : Prop := Forall (fun b => 0 <= b < 256) bs.
Definition parse_post {E A} (Q : A → Prop) (p : parser E A) : Prop :=
  ∀ bs x r, bytes_ok bs → p bs = (Ok x, r) → Q x ∧ bytes_ok r.

Lemma parse_post_bind {E A B} (Q : A → Prop) (R : B → Prop) (p : parser E A) (k : A → parser E B) :
  parse_post Q p → (∀ a, Q a → parse_post R (k a)) → parse_post R (p ≫= k).
Proof.
  intros Hp Hk bs x r Hb. unfold mbind, parser_bind. destruct (p bs) as [[a|] r1] eqn:E1; [|done].
  destruct (Hp _ _ _ Hb E1) as [Ha Hr]. by apply Hk.
Qed.
Lemma parse_post_forward {E A} (p : parser E A) : forward p → parse_post (fun _ => True) p.
Proof. intros Hp bs x r Hb Hx. destruct (Hp _ _ _ Hx) as [q ->]. by apply Forall_app in Hb as [_ Hb]. Qed.
Lemma parse_post_skip {E A B} (R : B → Prop) (p : parser E A) (k : A → parser E B) :
  forward p → (∀ a, parse_post R (k a)) → parse_post R (p ≫= k).
Proof. intros Hp Hk. eapply parse_post_bind; [by apply parse_post_forward|]. auto. Qed.
Lemma parse_post_ret {E A} (Q : A → Prop) (a : A) : Q a → parse_post (E := E) Q (mret a).
Proof. by intros Ha bs x r Hb [= <- <-]. Qed.
Lemma parse_post_fail {E A} (Q : A → Prop) (e : E) : parse_post Q (pfail e).
Proof. done. Qed.

(** An acknowledgement whose ranges can be walked without a panic. *)
Definition ack_safe (f : Frame) : Prop :=
  match f with
  | FAck a => ∃ l, Ack_ranges a = Ret l ∧ acked_below (ack_largest a) l ∧
                   head (snd <$> l) = Some (ack_largest a)
  | _ => True
  end.

Lemma post_decode_ack ty : parse_post ack_safe (decode_ack ty).
Proof.
  unfold decode_ack, iget_var.
  apply parse_post_skip; [go_forward|]. intros largest. apply parse_post_skip; [go_forward|]. intros delay.
  apply parse_post_skip; [go_forward|]. intros n.
  eapply (parse_post_bind (fun add => ∃ l, AckIter_collect (S (length add)) (mkAckIter largest add) = Ret l ∧
    acked_below largest l ∧ head (snd <$> l) = Some largest)).
  { intros bs add r Hb Ht. split; [by eapply take_ack_blocks_iterates|].
    destruct (forward_ack_blocks _ _ _ _ _ Ht) as [q ->]. by apply Forall_app in Hb as [_ Hb]. }
  intros add Hadd. destruct (decide (ty = ACK_ECN)).
  - do 3 (apply parse_post_skip; [go_forward|]; intros ?). by apply parse_post_ret.
  - by apply parse_post_ret.
Qed.

Lemma post_body ty : parse_post ack_safe (frame_body ty).
Proof.
  unfold frame_body. set (ack := decode_ack ty).
  assert (Hack : parse_post ack_safe ack) by apply post_decode_ack. clearbody ack.
  unfold iget, iget_var, take_len, decode_new_connection_id, decode_flagged,
    decode_close_connection, iget_var, take_len, iget, iget_var.
  repeat first
    [ exact Hack | apply parse_post_fail | apply parse_post_ret; exact I
    | apply parse_post_skip; [solve [go_forward]|intros ?]
    | match goal with |- parse_post _ (if ?b then _ else _) => destruct b end
    | match goal with |- parse_post _ (match ?b with _ => _ end) => destruct b end ].
Qed.

Lemma try_next_post bs t f it :
  bytes_ok bs → try_next (mkIter bs t) = (Ok f, it) → ack_safe f ∧ bytes_ok (it_bytes it).
Proof.
  intros Hb. unfold try_next. cbn [it_bytes].
  destruct (iget bs) as [[ty|] r] eqn:Hg; [|done].
  assert (Hr : bytes_ok r).
  { unfold iget in Hg. cbn [decode FrameType_Codec] in Hg.
    assert (Hf : forward (map_err (fun _ => UnexpectedEndErr) (x ← get_var; mret (mkFrameType x)))) by go_forward.
    by apply (parse_post_forward _ Hf _ _ _ Hb) in Hg as [_ Hg]. }
  destruct (frame_body ty r) as [x r'] eqn:Hbody. intros [= -> <-]. by eapply post_body.
Qed.

Lemma Iter_collect_ok fuel bs t :
  bytes_ok bs → (length bs < fuel)%nat →
  ∃ items, Iter_collect fuel (mkIter bs t) = Some items ∧ (length items <= length bs)%nat ∧
    Forall (fun x => match x with Ok f => ack_safe f | Err _ => True end) items ∧
    (∀ i e, items !! i = Some (Err e) → S i = length items).
Proof.
  revert bs t. induction fuel as [|fuel IH]; intros bs t Hb Hf; [lia|].
  cbn [Iter_collect]. unfold Iter_next. cbn [it_bytes]. destruct bs as [|z bs].
  { exists []. split; [done|]. split; [simpl; lia|]. split; [constructor|]. by intros []. }
  assert (Hll : length (z :: bs) = S (length bs)) by done.
  set (l := z :: bs) in *. destruct (try_next (mkIter l t)) as [[f|e] [bs' t']] eqn:Hn.
  - destruct (try_next_post _ _ _ _ Hb Hn) as [Hs Hb'].
    destruct (try_next_shorter _ _ _ _ Hn) as (q & Hq & Hl). cbn [it_bytes] in *.
    assert (Hlt : (length bs' < length l)%nat).
    { rewrite Hl, length_app. destruct q; [done|]. simpl. lia. }
    destruct (IH bs' t' Hb') as (items & -> & Hlen & Hall & Hlast); [lia|]. simpl.
    exists (Ok f :: items). split; [done|]. split; [simpl; lia|]. split; [by constructor|].
    intros [|i] e Hi; [done|]. simpl. f_equal. by eapply Hlast.
  - destruct fuel as [|fuel]; [unfold l in Hf; simpl in Hf; lia|].
    eexists. split; [done|]. split; [unfold l; simpl; lia|]. split; [by repeat constructor|].
    intros [|i] e' Hi; [done|]. simpl in Hi. by rewrite lookup_nil in Hi.
Qed.

(** * Sizes *)

Lemma wapp_ret a b bs : a ⧺ b = Ret bs → ∃ x y, a = Ret x ∧ b = Ret y ∧ len bs = len x + len y.
Proof.
  intros H. apply M_bind_ret in H as (x & Hx & H). apply M_bind_ret in H as (y & Hy & H).
  injection H as <-. exists x, y. by rewrite len_app.
Qed.

(** Close frames are cut to [max_len] when the error code takes at most two
    bytes, which is what the subtraction of 3 accounts for. *)
Lemma application_close_len x max_len bs :
  ApplicationClose_encode x max_len = Ret bs → into_inner (ac_error_code x) < 2 ^ 14 → len bs <= max_len.
Proof.
  intros H Hc. apply wapp_ret in H as (t & y & Ht & H & ->). apply wapp_ret in H as (c & z & Hcode & H & ->).
  apply write_var_len in Ht. change (var_size (ty_u64 APPLICATION_CLOSE)) with 1 in Ht.
  apply M_bind_ret in H as (n & Hn & H). apply M_bind_ret in H as (m1 & Hm1 & H).
  apply M_bind_ret in H as (m & Hm & H). apply wapp_ret in H as (l & d & Hl & Hd & ->). injection Hd as <-.
  assert (len c <= 2).
  { assert (Hw : write_var (into_inner (ac_error_code x)) = Ret c).
    { unfold write_var, VarInt_from_u64. destruct (Z.ltb_spec (into_inner (ac_error_code x)) (2 ^ 62)); [|lia].
      rewrite <- Hcode. by destruct (ac_error_code x). }
    apply write_var_len in Hw. rewrite Hw. unfold var_size. zcases; lia. }
  unfold usub in Hm1, Hm. destruct (Z.leb_spec 3 max_len); [|done]. injection Hm1 as <-.
  destruct (Z.leb_spec n (max_len - 3)); [|done]. injection Hm as <-.
  pose proof (len_nonneg (ac_reason x)). apply write_var_len in Hl.
  assert (Hsz : n = var_size (len (ac_reason x)) ∧ var_size (Z.min (len (ac_reason x)) (max_len - 3 - n)) <= n).
  { unfold var_len, VarInt_from_u64 in Hn. destruct (Z.ltb_spec (len (ac_reason x)) (2 ^ 62)); [|done].
    rewrite VarInt_size_ok in Hn by lia. injection Hn as <-. split; [done|].
    unfold var_size. zcases; lia. }
  rewrite len_takeZ by lia. lia.
Qed.

Lemma parser_try_next bs t f r :
  frame_parser bs = (Ok f, r) → ∃ ty, try_next (mkIter bs t) = (Ok f, mkIter r (Some ty)).
Proof.
  unfold frame_parser, try_next, mbind, parser_bind. cbn [it_bytes].
  destruct (iget bs) as [[ty|] r1]; [|done]. intros ->. by exists ty.
Qed.

(** * Properties *)


Definition sample_frame : Frame := FStream (mkStream (mkStreamId 4) 70000 true [1; 2; 3]).


(** A STREAM frame written without its length, as the last frame of a packet,
    is decoded with all remaining bytes as its data. *)
Theorem stream_last_roundtrip id o fin data t :
  id_wf id → is_var o →
  ∃ bs ty, StreamMeta_encode (mkStreamMeta id (mkRange o (o + len data)) fin) false = Ret bs ∧
    try_next (mkIter (bs ++ data) t) = (Ok (FStream (mkStream id o fin data)), mkIter [] (Some ty)).
Proof.
  intros Hid Ho. destruct (enc_stream_last id o fin data Hid Ho) as (bs & Hb & Hd).
  destruct (parser_try_next _ t _ _ Hd) as [ty Hty]. by exists bs, ty.
Qed.

Lemma stream_last_roundtrip_witness :
  ∃ bs ty, StreamMeta_encode (mkStreamMeta (mkStreamId 8) (mkRange 5 (5 + len [7; 7])) false) false = Ret bs ∧
    try_next (mkIter (bs ++ [7; 7]) None) =
      (Ok (FStream (mkStream (mkStreamId 8) 5 false [7; 7])), mkIter [] (Some ty)).
Proof. apply stream_last_roundtrip; unfold id_wf, is_var; simpl; lia. Defined.

(** An ACK frame encoded from a non-empty set of packet numbers is decoded as
    an acknowledgement whose iterator yields exactly the ranges of the set, from
    the largest down, with the same delay and ECN counts. *)
Theorem ack_roundtrip delay ranges ecn rest t :
  wf ranges → ranges ≠ [] → Forall (fun r => rend r <= 2 ^ 62) ranges → len ranges <= 2 ^ 62 →
  is_var delay → (∀ e, ecn = Some e → ecn_wf e) →
  ∃ bs a ty, Ack_encode delay ranges ecn = Ret bs ∧
    try_next (mkIter (bs ++ rest) t) = (Ok (FAck a), mkIter rest (Some ty)) ∧
    ack_delay a = delay ∧ ack_ecn a = ecn ∧ Ack_ranges a = Ret (inclusive <$> rev ranges).
Proof.
  intros Hw Hne Hmax Hl Hd He. destruct (enc_ack delay ranges ecn) as (a & (bs & Hb & Hdec) & Ha); try done.
  destruct (parser_try_next _ t _ _ (Hdec rest)) as [ty Hty]. by exists bs, a, ty.
Qed.

Definition sample_acks : list Range := [mkRange 1 4; mkRange 5 6; mkRange 10 12; mkRange 14 15].

Lemma ack_roundtrip_witness :
  ∃ bs a ty, Ack_encode 42 sample_acks (Some (mkEcnCounts 42 24 12)) = Ret bs ∧
    try_next (mkIter (bs ++ [0]) None) = (Ok (FAck a), mkIter [0] (Some ty)) ∧
    ack_delay a = 42 ∧ ack_ecn a = Some (mkEcnCounts 42 24 12) ∧
    Ack_ranges a = Ret (inclusive <$> rev sample_acks).
Proof.
  apply ack_roundtrip.
  - unfold sample_acks. rs_wf.
  - done.
  - repeat constructor; simpl; lia.
  - vm_compute. congruence.
  - unfold is_var. lia.
  - intros e [= <-]. unfold ecn_wf, is_var. simpl. lia.
Defined.

(** Decoding an arbitrary packet payload terminates, with at most one frame
    per byte, an error only as the last item, and every ACK frame it yields can be
    walked by [AckIter] without a panic, giving ranges in descending order with
    gaps, below the largest acknowledged packet number. *)
Theorem payload_decoding_safe payload t :
  bytes_ok payload →
  ∃ items, Iter_collect (S (length payload)) (mkIter payload t) = Some items ∧
    (length items <= length payload)%nat ∧
    Forall (fun x => match x with Ok f => ack_safe f | Err _ => True end) items ∧
    (∀ i e, items !! i = Some (Err e) → S i = length items).
Proof. intros Hb. apply Iter_collect_ok; [done|lia]. Qed.

Lemma payload_decoding_safe_witness :
  ∃ items, Iter_collect 8 (mkIter [2; 10; 0; 1; 3; 2; 2] None) = Some items ∧
    (length items <= 7)%nat ∧
    Forall (fun x => match x with Ok f => ack_safe f | Err _ => True end) items ∧
    (∀ i e, items !! i = Some (Err e) → S i = length items).
Proof. apply (payload_decoding_safe [2; 10; 0; 1; 3; 2; 2] None). repeat constructor; lia. Defined.

(** An application close whose error code takes at most two bytes never
    exceeds the space it is given: the reason is cut to what is left. *)
Theorem application_close_fits x max_len bs :
  ApplicationClose_encode x max_len = Ret bs → into_inner (ac_error_code x) < 2 ^ 14 → len bs <= max_len.
Proof. apply application_close_len. Qed.

Definition sample_close (code : Z) : ApplicationClose :=
  mkApplicationClose (mkVarInt code) (replicate 30 65).

Lemma application_close_fits_witness :
  ∃ bs, ApplicationClose_encode (sample_close 5) 20 = Ret bs ∧ len bs <= 20.
Proof.
  eexists. split; [vm_compute; reflexivity|].
  apply (application_close_fits (sample_close 5) 20); [vm_compute; reflexivity|simpl; lia].
Defined.

(** With an error code of four or eight bytes an application close is longer
    than the space it is given: the subtraction of 3 in [ApplicationClose::encode]
    leaves two bytes for the code. *)
Theorem application_close_exceeds :
  ∃ bs, ApplicationClose_encode (sample_close (2 ^ 40)) 20 = Ret bs ∧ len bs = 26.
Proof. eexists. split; vm_compute; reflexivity. Qed.
