(* ===== verification/Packet.v ===== *)
(** Packet headers and packet numbers: [quic-proto/src/packet.rs].

    Header and packet protection come from the TLS library behind the traits of
    [crypto.rs]; they are the records [HeaderKey] and [PacketKey], arguments of the
    operations that use them.  A cursor over a received packet is the packet with a position; its
    decoders read the bytes from that position on. *)
From S2P Require Import Prelude Coding Shared.

(** * Constants and types *)

Definition LONG_HEADER_FORM : Z := 128.
Definition FIXED_BIT : Z := 64.
Definition SPIN_BIT : Z := 32.
Definition SHORT_RESERVED_BITS : Z := 24.
Definition LONG_RESERVED_BITS : Z := 12.
Definition KEY_PHASE_BIT : Z := 4.

Inductive SpaceId : Type := SpInitial | SpHandshake | SpData.
#[global] Instance SpaceId_eq_dec : EqDecision SpaceId.
Proof. solve_decision. Defined.

Inductive LongType : Type := Handshake | ZeroRtt.
Inductive LongHeaderType : Type := LtInitial | LtRetry | Standard (ty : LongType).

(** The message of [InvalidHeader]. *)
Inductive InvalidHeaderReason : Type :=
| UnexpectedEndOfPacket | FixedBitUnset | MalformedCid | TokenOutOfBounds | PacketTooShort | SampleTooShort | PacketTooSmall.

Inductive PacketDecodeError : Type :=
| UnsupportedVersion (src_cid dst_cid : ConnectionId) (version : Z)
| InvalidHeader (reason : InvalidHeaderReason).

Definition end_of_packet (_ : UnexpectedEnd) : PacketDecodeError := InvalidHeader UnexpectedEndOfPacket.

(** [crypto::HeaderKey] and [crypto::PacketKey]. *)
Record HeaderKey : Type := mkHeaderKey {
  sample_size : Z;
  hk_encrypt : Z → list Z → list Z;
  hk_decrypt : Z → list Z → list Z
}.
(** [decrypt] gives the plaintext the payload is cut down to. *)
Record PacketKey : Type := mkPacketKey {
  pk_encrypt : Z → list Z → Z → list Z;
  pk_decrypt : Z → list Z → list Z → option (list Z);
  tag_len : Z;
  confidentiality_limit : Z;
  integrity_limit : Z
}.
Record KeyPair (T : Type) : Type := mkKeyPair { local : T; remote : T }.
Arguments mkKeyPair {T} _ _.
Arguments local {T} _.
Arguments remote {T} _.
Record Keys : Type := mkKeys { k_header : KeyPair HeaderKey; k_packet : KeyPair PacketKey }.

(** * Packet numbers *)

Inductive PacketNumber : Type := PnU8 (x : Z) | PnU16 (x : Z) | PnU24 (x : Z) | PnU32 (x : Z).
#[global] Instance PacketNumber_eq_dec : EqDecision PacketNumber.
Proof. solve_decision. Defined.

Definition PacketNumber_new (n largest_acked : Z) : M PacketNumber :=
  d ← usub n largest_acked;
  range ← umul d 2;
  if range <? Z.shiftl 1 8 then mret (PnU8 (n mod 2 ^ 8))
  else if range <? Z.shiftl 1 16 then mret (PnU16 (n mod 2 ^ 16))
  else if range <? Z.shiftl 1 24 then mret (PnU24 (n mod 2 ^ 32))
  else if range <? Z.shiftl 1 32 then mret (PnU32 (n mod 2 ^ 32))
  else Panic.

Definition pn_len (p : PacketNumber) : Z :=
  match p with PnU8 _ => 1 | PnU16 _ => 2 | PnU24 _ => 3 | PnU32 _ => 4 end.

Definition pn_value (p : PacketNumber) : Z :=
  match p with PnU8 x | PnU16 x | PnU24 x | PnU32 x => x end.

(** [put_uint(x, 3)] writes the three low bytes. *)
Definition PacketNumber_encode (p : PacketNumber) : list Z := be_bytes (Z.to_nat (pn_len p)) (pn_value p).

Definition PacketNumber_decode_len (tag : Z) : Z := 1 + Z.land tag 3.

Definition pn_tag (p : PacketNumber) : Z := match p with PnU8 _ => 0 | PnU16 _ => 1 | PnU24 _ => 2 | PnU32 _ => 3 end.

(** [get_uint(3)] panics when fewer bytes remain; other lengths are unreachable. *)
Definition PacketNumber_decode (n : Z) (r : list Z) : M (result PacketDecodeError PacketNumber * list Z) :=
  let get (A : Type) (c : Codec A) (f : A → PacketNumber) :=
    match @decode A c r with
    | (Ok x, r) => mret (Ok (f x), r)
    | (Err e, r) => mret (Err (end_of_packet e), r)
    end in
  if n =? 1 then get u8 _ (fun x => PnU8 (uval x))
  else if n =? 2 then get u16 _ (fun x => PnU16 (uval x))
  else if n =? 3 then if len r <? 3 then Panic else mret (Ok (PnU24 (from_be (takeZ 3 r))), dropZ 3 r)
  else if n =? 4 then get u32 _ (fun x => PnU32 (uval x))
  else Panic.

Definition expand (p : PacketNumber) (expected : Z) : M Z :=
  let truncated := pn_value p in
  let nbits := pn_len p * 8 in
  let win := Z.shiftl 1 nbits in
  let hwin := win / 2 in
  let mask := win - 1 in
  let candidate := Z.lor (Z.ldiff expected mask) truncated in
  if match checked_sub expected hwin with Some x => candidate <=? x | None => false end
  then uadd candidate win
  else
    limit ← uadd expected hwin;
    if (limit <? candidate) && (win <? candidate) then usub candidate win else mret candidate.

(** * Headers *)

Record InitialHeader : Type := mkInitialHeader {
  ih_dst_cid : ConnectionId; ih_src_cid : ConnectionId; ih_token : list Z; ih_number : PacketNumber; ih_version : Z }.

Inductive Header : Type :=
| HInitial (h : InitialHeader)
| HLong (ty : LongType) (dst_cid src_cid : ConnectionId) (number : PacketNumber) (version : Z)
| HRetry (dst_cid src_cid : ConnectionId) (version : Z)
| HShort (spin key_phase : bool) (dst_cid : ConnectionId) (number : PacketNumber)
| HVersionNegotiate (random : Z) (src_cid dst_cid : ConnectionId).

Record PartialEncode : Type := mkPartialEncode { pe_start : Z; header_len : Z; pe_pn : option (Z * bool) }.

Definition LongHeaderType_byte (ty : LongHeaderType) : Z :=
  match ty with
  | LtInitial => Z.lor LONG_HEADER_FORM FIXED_BIT
  | Standard ZeroRtt => Z.lor (Z.lor LONG_HEADER_FORM FIXED_BIT) (Z.shiftl 1 4)
  | Standard Handshake => Z.lor (Z.lor LONG_HEADER_FORM FIXED_BIT) (Z.shiftl 2 4)
  | LtRetry => Z.lor (Z.lor LONG_HEADER_FORM FIXED_BIT) (Z.shiftl 3 4)
  end.

(** The bytes [Header::encode] appends to the buffer. *)
Definition Header_bytes (h : Header) : M (list Z) :=
  match h with
  | HInitial (mkInitialHeader dst src token number version) =>
      token_len ← write_var (len token);
      mret (be_bytes 1 (Z.lor (LongHeaderType_byte LtInitial) (pn_tag number)) ++ be_bytes 4 version ++
            encode_long dst ++ encode_long src ++ token_len ++ token ++ be_bytes 2 0 ++ PacketNumber_encode number)
  | HLong ty dst src number version =>
      mret (be_bytes 1 (Z.lor (LongHeaderType_byte (Standard ty)) (pn_tag number)) ++ be_bytes 4 version ++
            encode_long dst ++ encode_long src ++ be_bytes 2 0 ++ PacketNumber_encode number)
  | HRetry dst src version =>
      mret (be_bytes 1 (LongHeaderType_byte LtRetry) ++ be_bytes 4 version ++ encode_long dst ++ encode_long src)
  | HShort spin key_phase dst number =>
      mret (be_bytes 1 (Z.lor (Z.lor (Z.lor FIXED_BIT (if key_phase then KEY_PHASE_BIT else 0))
                                     (if spin then SPIN_BIT else 0)) (pn_tag number)) ++
            cid_bytes dst ++ PacketNumber_encode number)
  | HVersionNegotiate random src dst =>
      mret (be_bytes 1 (Z.lor 128 random) ++ be_bytes 4 0 ++ encode_long dst ++ encode_long src)
  end.

Definition Header_pn (h : Header) : option (Z * bool) :=
  match h with
  | HInitial h => Some (pn_len (ih_number h), true)
  | HLong _ _ _ number _ => Some (pn_len number, true)
  | HShort _ _ _ number => Some (pn_len number, false)
  | HRetry _ _ _ | HVersionNegotiate _ _ _ => None
  end.

(** [Header::encode] on the buffer [w]. *)
Definition Header_encode (h : Header) (w : list Z) : M (PartialEncode * list Z) :=
  bytes ← Header_bytes h;
  mret (mkPartialEncode (len w) (len bytes) (Header_pn h), w ++ bytes).

Definition is_protected (h : Header) : bool :=
  match h with HRetry _ _ _ | HVersionNegotiate _ _ _ => false | _ => true end.
Definition Header_number (h : Header) : option PacketNumber :=
  match h with
  | HInitial h => Some (ih_number h)
  | HLong _ _ _ number _ => Some number
  | HShort _ _ _ number => Some number
  | _ => None
  end.
Definition Header_space (h : Header) : SpaceId :=
  match h with
  | HShort _ _ _ _ => SpData
  | HLong ZeroRtt _ _ _ _ => SpData
  | HLong Handshake _ _ _ _ => SpHandshake
  | _ => SpInitial
  end.
Definition Header_key_phase (h : Header) : bool := match h with HShort _ k _ _ => k | _ => false end.
Definition Header_is_short (h : Header) : bool := match h with HShort _ _ _ _ => true | _ => false end.
Definition Header_is_1rtt (h : Header) : bool := Header_is_short h.
Definition Header_is_0rtt (h : Header) : bool := match h with HLong ZeroRtt _ _ _ _ => true | _ => false end.
Definition Header_dst_cid (h : Header) : ConnectionId :=
  match h with
  | HInitial h => ih_dst_cid h
  | HLong _ dst _ _ _ => dst
  | HRetry dst _ _ => dst
  | HShort _ _ dst _ => dst
  | HVersionNegotiate _ _ dst => dst
  end.
Definition has_frames (h : Header) : bool :=
  match h with HRetry _ _ _ | HVersionNegotiate _ _ _ => false | _ => true end.

(** [&mut buf[at..at + n]] overwritten with [bytes]. *)
Definition splice (buf : list Z) (at_ : Z) (bytes : list Z) : list Z :=
  takeZ at_ buf ++ bytes ++ dropZ (at_ + len bytes) buf.

(** [PartialEncode::finish]: the length field, then packet and header protection. *)
Definition PartialEncode_finish (pe : PartialEncode) (buf : list Z) (header_crypto : HeaderKey)
    (crypto : option (Z * PacketKey)) : M (list Z) :=
  match pe_pn pe with
  | None => mret buf
  | Some (pn_len, write_len) =>
      pn_pos ← usub (header_len pe) pn_len;
      buf ← (if (write_len : bool) then
               n ← usub (len buf) (header_len pe);
               n ← uadd n pn_len;
               _ ← rassert (n <? 2 ^ 14);
               at_ ← usub pn_pos 2;
               _ ← rassert (pn_pos <=? len buf);
               mret (splice buf at_ (be_bytes 2 (Z.lor (n mod 2 ^ 16) (Z.shiftl 1 14))))
             else mret buf);
      let buf := match crypto with Some (number, key) => pk_encrypt key number buf (header_len pe) | None => buf end in
      _ ← rassert (pn_pos + 4 + sample_size header_crypto <=? len buf);
      mret (hk_encrypt header_crypto pn_pos buf)
  end.

(** * Decoding *)

Record ProtectedInitialHeader : Type := mkProtectedInitialHeader {
  pi_dst_cid : ConnectionId; pi_src_cid : ConnectionId; token_pos : Range; pi_len : Z; pi_version : Z }.

Inductive ProtectedHeader : Type :=
| PInitial (h : ProtectedInitialHeader)
| PLong (ty : LongType) (dst_cid src_cid : ConnectionId) (len version : Z)
| PRetry (dst_cid src_cid : ConnectionId) (version : Z)
| PShort (spin : bool) (dst_cid : ConnectionId)
| PVersionNegotiate (random : Z) (dst_cid src_cid : ConnectionId).

Definition as_initial (h : ProtectedHeader) : option ProtectedInitialHeader :=
  match h with PInitial x => Some x | _ => None end.
Definition Protected_dst_cid (h : ProtectedHeader) : ConnectionId :=
  match h with
  | PInitial h => pi_dst_cid h
  | PLong _ dst _ _ _ => dst
  | PRetry dst _ _ => dst
  | PShort _ dst => dst
  | PVersionNegotiate _ dst _ => dst
  end.
Definition payload_len (h : ProtectedHeader) : option Z :=
  match h with PInitial h => Some (pi_len h) | PLong _ _ _ n _ => Some n | _ => None end.

Definition LongHeaderType_from_byte (b : Z) : M LongHeaderType :=
  _ ← rassert (negb (Z.land b LONG_HEADER_FORM =? 0));
  let t := Z.shiftr (Z.land b 48) 4 in
  if t =? 0 then mret LtInitial
  else if t =? 1 then mret (Standard ZeroRtt)
  else if t =? 2 then mret (Standard Handshake)
  else if t =? 3 then mret LtRetry
  else Panic.

(** A decoder that may also panic. *)
Definition mparser (E A : Type) : Type := list Z → M (result E A * list Z).
#[global] Instance mparser_ret E : MRet (mparser E) := fun A a bs => Ret (Ok a, bs).
#[global] Instance mparser_bind E : MBind (mparser E) :=
  fun A B f p bs =>
    match p bs with
    | Ret (Ok a, bs') => f a bs'
    | Ret (Err e, bs') => Ret (Err e, bs')
    | Panic => Panic
    end.
Definition mfail {E A} (e : E) : mparser E A := fun bs => Ret (Err e, bs).
Definition total {E A} (m : M A) : mparser E A := fun bs => match m with Ret a => Ret (Ok a, bs) | Panic => Panic end.
Definition mlift {A} (p : parser UnexpectedEnd A) : mparser PacketDecodeError A := fun bs => Ret (map_err end_of_packet p bs).

(** [buf.remaining()]. *)
Definition remaining {E} : mparser E Z := fun bs => Ret (Ok (len bs), bs).
(** [buf.advance(n)]. *)
Definition skip {E} (n : Z) : mparser E unit :=
  fun bs => match advance n bs with Ret bs => Ret (Ok tt, bs) | Panic => Panic end.

(** [ConnectionId::decode_long(buf).ok_or(InvalidHeader("malformed cid"))]. *)
Definition get_cid : mparser PacketDecodeError ConnectionId := fun bs =>
  match decode_long bs with
  | Ret (Some cid, bs) => Ret (Ok cid, bs)
  | Ret (None, bs) => Ret (Err (InvalidHeader MalformedCid), bs)
  | Panic => Panic
  end.

(** [ConnectionIdParser]: the trait, and the parser of ids of fixed length. *)
Definition ConnectionIdParser : Type := mparser PacketDecodeError ConnectionId.
Definition FixedLengthConnectionIdParser (expected_len : Z) : ConnectionIdParser := fun bs =>
  if expected_len <=? len bs then
    match ConnectionId_from_buf bs expected_len with Ret (cid, bs) => Ret (Ok cid, bs) | Panic => Panic end
  else Ret (Err (InvalidHeader PacketTooSmall), bs).

(** [ProtectedHeader::decode] of the packet of [total_len] bytes the cursor runs over. *)
Definition ProtectedHeader_decode (total_len : Z) (cid_parser : ConnectionIdParser) (supported_versions : list Z)
    (grease_quic_bit : bool) : mparser PacketDecodeError ProtectedHeader :=
  first ← mlift (decode (A := u8));
  let first := uval first in
  if negb grease_quic_bit && (Z.land first FIXED_BIT =? 0) then mfail (InvalidHeader FixedBitUnset)
  else if Z.land first LONG_HEADER_FORM =? 0 then
    let spin := negb (Z.land first SPIN_BIT =? 0) in
    dst_cid ← cid_parser;
    mret (PShort spin dst_cid)
  else
    version ← mlift (decode (A := u32));
    let version := uval version in
    dst_cid ← get_cid;
    src_cid ← get_cid;
    if version =? 0 then
      let random := Z.ldiff first LONG_HEADER_FORM in
      mret (PVersionNegotiate random dst_cid src_cid)
    else if negb (existsb (Z.eqb version) supported_versions) then
      mfail (UnsupportedVersion src_cid dst_cid version)
    else
      ty ← total (LongHeaderType_from_byte first);
      match ty with
      | LtInitial =>
          token_len ← mlift get_var;
          rem ← remaining;
          let token_start := total_len - rem in
          if rem <? token_len then mfail (InvalidHeader TokenOutOfBounds)
          else
            _ ← skip token_len;
            n ← mlift get_var;
            mret (PInitial (mkProtectedInitialHeader dst_cid src_cid
                    (mkRange token_start (token_start + token_len)) n version))
      | LtRetry => mret (PRetry dst_cid src_cid version)
      | Standard ty => n ← mlift get_var; mret (PLong ty dst_cid src_cid n version)
      end.

(** A packet with the position of the cursor over it. *)
Record PartialDecode : Type := mkPartialDecode { plain_header : ProtectedHeader; pd_buf : list Z; pd_pos : Z }.

Definition PartialDecode_new (bytes : list Z) (cid_parser : ConnectionIdParser) (supported_versions : list Z)
    (grease_quic_bit : bool) : M (result PacketDecodeError (PartialDecode * option (list Z))) :=
  d ← ProtectedHeader_decode (len bytes) cid_parser supported_versions grease_quic_bit bytes;
  match d with
  | (Err e, _) => mret (Err e)
  | (Ok plain_header, rest) =>
      let pos := len bytes - len rest in
      packet_len ← match payload_len plain_header with Some n => uadd pos n | None => mret (len bytes) end;
      match len bytes ?= packet_len with
      | Eq => mret (Ok (mkPartialDecode plain_header bytes pos, None))
      | Lt => mret (Err (InvalidHeader PacketTooShort))
      | Gt => mret (Ok (mkPartialDecode plain_header (takeZ packet_len bytes) pos, Some (dropZ packet_len bytes)))
      end
  end.

Definition has_long_header (p : PartialDecode) : bool := match plain_header p with PShort _ _ => false | _ => true end.
Definition Partial_space (p : PartialDecode) : option SpaceId :=
  match plain_header p with
  | PInitial _ => Some SpInitial
  | PLong Handshake _ _ _ _ => Some SpHandshake
  | PLong ZeroRtt _ _ _ _ => Some SpData
  | PShort _ _ => Some SpData
  | _ => None
  end.
Definition Partial_is_initial (p : PartialDecode) : bool := bool_decide (Partial_space p = Some SpInitial).
Definition Partial_is_0rtt (p : PartialDecode) : bool :=
  match plain_header p with PLong ZeroRtt _ _ _ _ => true | _ => false end.
Definition Partial_dst_cid (p : PartialDecode) : ConnectionId := Protected_dst_cid (plain_header p).
Definition Partial_len (p : PartialDecode) : Z := len (pd_buf p).

Record Packet : Type := mkPacket { pk_header : Header; pk_header_data : list Z; pk_payload : list Z }.

(** [self.header_data[0]]. *)
Definition reserved_bits_valid (p : Packet) : M bool :=
  let mask := match pk_header p with HShort _ _ _ _ => SHORT_RESERVED_BITS | _ => LONG_RESERVED_BITS end in
  match pk_header_data p with b :: _ => mret (Z.land b mask =? 0) | [] => Panic end.

(** The packet with its header unprotected, the packet number, and the position after it. *)
Definition decrypt_header (buf : list Z) (pos : Z) (header_crypto : HeaderKey)
    : M (result PacketDecodeError (PacketNumber * list Z * Z)) :=
  let packet_length := len buf in
  let pn_offset := pos in
  if packet_length <? pn_offset + 4 + sample_size header_crypto then mret (Err (InvalidHeader SampleTooShort))
  else
    let buf := hk_decrypt header_crypto pn_offset buf in
    match buf with
    | [] => Panic
    | b :: _ =>
        let n := PacketNumber_decode_len b in
        r ← PacketNumber_decode n (dropZ pos buf);
        match r with
        | (Ok number, rest) => mret (Ok (number, buf, len buf - len rest))
        | (Err e, _) => mret (Err e)
        end
    end.

(** [header_crypto.unwrap()] of a protected packet. *)
Definition unwrap_key (k : option HeaderKey) : M HeaderKey := match k with Some k => mret k | None => Panic end.

(** [bytes.slice(start..end)]. *)
Definition slice (bytes : list Z) (r : Range) : M (list Z) :=
  if (rstart r <=? rend r) && (rend r <=? len bytes) then mret (takeZ (rend r - rstart r) (dropZ (rstart r) bytes)) else Panic.

(** [PartialDecode::finish]. *)
Definition PartialDecode_finish (p : PartialDecode) (header_crypto : option HeaderKey)
    : M (result PacketDecodeError Packet) :=
  let packet (header : list Z → M Header) (buf : list Z) (pos : Z) :=
    '(header_data, payload) ← split_to pos buf;
    h ← header header_data;
    mret (Ok (mkPacket h header_data payload)) in
  let protected (header : PacketNumber → list Z → list Z → M Header) :=
    k ← unwrap_key header_crypto;
    r ← decrypt_header (pd_buf p) (pd_pos p) k;
    match r with
    | Err e => mret (Err e)
    | Ok (number, buf, pos) => packet (header number buf) buf pos
    end in
  match plain_header p with
  | PInitial (mkProtectedInitialHeader dst src token_pos _ version) =>
      protected (fun number _ header_data =>
        token ← slice header_data token_pos;
        mret (HInitial (mkInitialHeader dst src token number version)))
  | PLong ty dst src _ version => protected (fun number _ _ => mret (HLong ty dst src number version))
  | PRetry dst src version => packet (fun _ => mret (HRetry dst src version)) (pd_buf p) (pd_pos p)
  | PShort spin dst =>
      protected (fun number buf _ =>
        match buf with
        | b :: _ => mret (HShort spin (negb (Z.land b KEY_PHASE_BIT =? 0)) dst number)
        | [] => Panic
        end)
  | PVersionNegotiate random dst src => packet (fun _ => mret (HVersionNegotiate random src dst)) (pd_buf p) (pd_pos p)
  end.
