(* ===== verification/PacketTheorems.v ===== *)
(** What the packet header codec of [Packet] guarantees: packet numbers and whole
    protected packets survive a trip over the wire, and no datagram makes the decoder
    panic. *)
From S2P Require Import Prelude Coding Shared Packet.

(** * Packet numbers *)

(** Clearing the low bits and setting them to [t]. *)
Lemma replace_low_bits e t k :
  0 <= k → 0 <= e → 0 <= t < 2 ^ k → Z.lor (Z.ldiff e (2 ^ k - 1)) t = e - e mod 2 ^ k + t.
Proof.
  intros Hk He Ht. rewrite Z.sub_1_r, <- Z.ones_equiv, Z.ldiff_ones_r, lor_tag, Z.shiftr_div_pow2 by done.
  pose proof (Z.div_mod e (2 ^ k) ltac:(lia)). lia.
Qed.

(** [expand] finds the number with these low bits closest to the expected one. *)
Lemma expand_ok p n e :
  let k := pn_len p * 8 in
  pn_value p = n mod 2 ^ k → 0 <= n < 2 ^ 62 → 0 <= e → e - 2 ^ (k - 1) < n → n < e + 2 ^ (k - 1) →
  expand p e = Ret n.
Proof.
  intros k Hv Hn He Hlo Hhi. unfold expand. fold k. rewrite Z.shiftl_1_l, Hv.
  assert (Hk : 8 <= k <= 32) by (unfold k; destruct p; simpl; lia).
  assert (Hw : 2 ^ k = 2 * 2 ^ (k - 1)) by (rewrite <- Z.pow_succ_r by lia; f_equal; lia).
  pose proof (Z.pow_le_mono_r 2 8 k). pose proof (Z.pow_le_mono_r 2 k 32).
  pose proof (Z.mod_pos_bound n (2 ^ k) ltac:(lia)) as Hm.
  rewrite replace_low_bits by lia. rewrite Hw, Z.mul_comm, Z.div_mul by lia. rewrite (Z.mul_comm _ 2), <- Hw.
  pose proof (Z.div_mod n (2 ^ k) ltac:(lia)). pose proof (Z.div_mod e (2 ^ k) ltac:(lia)).
  pose proof (Z.mod_pos_bound e (2 ^ k) ltac:(lia)).
  set (h := 2 ^ (k - 1)) in *. set (q := n / 2 ^ k) in *. set (r := e / 2 ^ k) in *.
  set (u := n mod 2 ^ k) in *. set (v := e mod 2 ^ k) in *. clearbody u v q r h.
  assert (Hc : q = r ∨ q = r + 1 ∨ q = r - 1) by nia.
  assert (e - v = r * 2 ^ k) as -> by lia.
  unfold checked_sub. destruct Hc as [->|[->| ->]].
  - replace (r * 2 ^ k + u) with n by lia. rewrite (uadd_ok e h) by (unfold u64_max; lia). cbn [mbind M_bind].
    destruct (Z.leb_spec h e); [destruct (Z.leb_spec n (e - h)); [lia|]|];
      (destruct (Z.ltb_spec (e + h) n); [lia|done]).
  - assert (n = r * 2 ^ k + u + 2 ^ k) by lia. destruct (Z.leb_spec h e).
    + destruct (Z.leb_spec (r * 2 ^ k + u) (e - h)); [|lia]. rewrite uadd_ok by (unfold u64_max; lia). f_equal. lia.
    + exfalso. assert (r = 0) by nia. lia.
  - assert (n = r * 2 ^ k + u - 2 ^ k) by lia.
    assert (match (if h <=? e then Some (e - h) else None) with Some x => r * 2 ^ k + u <=? x | None => false end = false) as ->.
    { destruct (Z.leb_spec h e); [|done]. apply Z.leb_gt. lia. }
    rewrite (uadd_ok e h) by (unfold u64_max; lia). cbn [mbind M_bind].
    destruct (Z.ltb_spec (e + h) (r * 2 ^ k + u)); [|lia].
    destruct (Z.ltb_spec (2 ^ k) (r * 2 ^ k + u)); simpl.
    + rewrite usub_ok by lia. f_equal. lia.
    + exfalso. assert (r <= 0) by nia. nia.
Qed.

Lemma PacketNumber_new_ok n a :
  0 <= a <= n → n < 2 ^ 62 → 2 * (n - a) < 2 ^ 32 →
  ∃ p, PacketNumber_new n a = Ret p ∧ n - a < 2 ^ (pn_len p * 8 - 1) ∧
    (pn_value p = n mod 2 ^ (pn_len p * 8) ∨ (pn_len p = 3 ∧ pn_value p = n mod 2 ^ 32)).
Proof.
  intros Ha Hn Hr. unfold PacketNumber_new. rewrite usub_ok by lia. cbn [mbind M_bind].
  rewrite umul_ok by (unfold u64_max; lia). cbn [mbind M_bind].
  change (Z.shiftl 1 8) with 256. change (Z.shiftl 1 16) with 65536. change (Z.shiftl 1 24) with 16777216.
  change (Z.shiftl 1 32) with 4294967296.
  destruct (Z.ltb_spec ((n - a) * 2) 256); [exists (PnU8 (n mod 2 ^ 8)); simpl; split; [done|]; split; [lia|by left]|].
  destruct (Z.ltb_spec ((n - a) * 2) 65536); [exists (PnU16 (n mod 2 ^ 16)); simpl; split; [done|]; split; [lia|by left]|].
  destruct (Z.ltb_spec ((n - a) * 2) 16777216); [exists (PnU24 (n mod 2 ^ 32)); simpl; split; [done|]; split; [lia|by right]|].
  destruct (Z.ltb_spec ((n - a) * 2) 4294967296); [|lia].
  exists (PnU32 (n mod 2 ^ 32)). simpl. split; [done|]. split; [lia|by left].
Qed.

(** What the peer reads back: the low bytes of the number. *)
Definition pn_wire (p : PacketNumber) : PacketNumber :=
  match p with PnU24 x => PnU24 (x mod 2 ^ 24) | p => p end.

Definition pn_wf (p : PacketNumber) : Prop :=
  0 <= pn_value p < match p with PnU24 _ => 2 ^ 32 | _ => 2 ^ (pn_len p * 8) end.

Lemma PacketNumber_decode_encode p rest :
  pn_wf p → PacketNumber_decode (pn_len p) (PacketNumber_encode p ++ rest) = Ret (Ok (pn_wire p), rest).
Proof.
  intros Hp. unfold PacketNumber_decode, PacketNumber_encode, pn_wf in *.
  assert (Hget : ∀ n x, 0 <= x < 256 ^ Z.of_nat n →
    decode (A := uint n) (be_bytes n x ++ rest) = (Ok (mkUint x), rest)).
  { intros n x Hx. destruct (encode_decode (A := uint n) (mkUint x) Hx) as (bs & [= <-] & Hd). apply Hd. }
  destruct p as [x|x|x|x]; cbn [pn_len pn_value pn_wire] in *; simpl Z.eqb; simpl Z.to_nat; cbv iota.
  - by rewrite (Hget 1%nat).
  - by rewrite (Hget 2%nat).
  - change (Z.to_nat 3) with 3%nat. rewrite len_app. pose proof (len_nonneg rest).
    unfold len at 1. rewrite be_bytes_length. destruct (Z.ltb_spec (Z.of_nat 3 + len rest) 3); [lia|].
    unfold takeZ, dropZ. change (Z.to_nat 3) with 3%nat. by rewrite take_be_bytes, drop_be_bytes, from_be_bytes.
  - by rewrite (Hget 4%nat).
Qed.

(** * Key laws *)

(** Header protection (RFC 9001, section 5.4): it changes the low bits of the first byte, four of them in a
    long header and five in a short one, and bytes from the packet number on;
    removing it restores the packet. *)
Record header_key_ok (k : HeaderKey) : Prop := {
  hk_sample : 0 <= sample_size k < 2 ^ 16;
  hk_len : ∀ o b, len (hk_encrypt k o b) = len b ∧ len (hk_decrypt k o b) = len b;
  hk_inverse : ∀ o b, 0 < o → o + 4 + sample_size k <= len b → hk_decrypt k o (hk_encrypt k o b) = b;
  hk_first : ∀ o b0 b, 0 < o → o + 4 + sample_size k <= len (b0 :: b) → 0 <= b0 < 256 →
    ∃ b1 m, hk_encrypt k o (b0 :: b) = Z.lxor b0 m :: b1 ∧
      0 <= m < (if Z.land b0 LONG_HEADER_FORM =? 0 then 32 else 16) ∧ takeZ (o - 1) b1 = takeZ (o - 1) b
}.

(** Packet protection leaves the header alone. *)
Definition packet_key_ok (k : PacketKey) : Prop :=
  ∀ n b h, 0 <= h <= len b → len (pk_encrypt k n b h) = len b ∧ takeZ h (pk_encrypt k n b h) = takeZ h b.

(** * First bytes *)

(** A finite check covers every value below the bound. *)
Lemma forall_below (P : Z → bool) n : forallb P (seqZ 0 n) = true → ∀ m, 0 <= m < n → P m = true.
Proof.
  rewrite forallb_forall. intros Hall m Hm. apply Hall, list_elem_of_In, elem_of_seqZ. lia.
Qed.

#[global] Instance LongType_eq_dec : EqDecision LongType.
Proof. solve_decision. Defined.
#[global] Instance LongHeaderType_eq_dec : EqDecision LongHeaderType.
Proof. solve_decision. Defined.

Definition long_first (ty : LongHeaderType) (tag m : Z) : Z := Z.lxor (Z.lor (LongHeaderType_byte ty) tag) m.
Definition short_first (spin key_phase : bool) (tag m : Z) : Z :=
  Z.lxor (Z.lor (Z.lor (Z.lor FIXED_BIT (if key_phase then KEY_PHASE_BIT else 0)) (if spin then SPIN_BIT else 0)) tag) m.

Lemma long_first_ok ty tag m :
  0 <= tag < 4 → 0 <= m < 16 →
  let b := long_first ty tag m in
  0 <= b < 256 ∧ (Z.land b FIXED_BIT =? 0) = false ∧ (Z.land b LONG_HEADER_FORM =? 0) = false ∧
  LongHeaderType_from_byte b = Ret ty ∧ PacketNumber_decode_len (long_first ty tag 0) = tag + 1.
Proof.
  intros Ht Hm. set (check tag m := let b := long_first ty tag m in
    (0 <=? b) && (b <? 256) && negb (Z.land b FIXED_BIT =? 0) && negb (Z.land b LONG_HEADER_FORM =? 0) &&
    match LongHeaderType_from_byte b with Ret t => bool_decide (t = ty) | Panic => false end &&
    (PacketNumber_decode_len (long_first ty tag 0) =? tag + 1)).
  assert (Hc : forallb (fun tag => forallb (check tag) (seqZ 0 16)) (seqZ 0 4) = true).
  { unfold check. destruct ty as [| |[]]; vm_compute; reflexivity. }
  pose proof (forall_below _ _ (forall_below _ _ Hc tag Ht) m Hm) as H. unfold check in H. cbv zeta.
  apply andb_prop in H as [H H6]. apply andb_prop in H as [H H5]. apply andb_prop in H as [H H4].
  apply andb_prop in H as [H H3]. apply andb_prop in H as [H1 H2].
  split; [lia|]. split; [by apply negb_true_iff|]. split; [by apply negb_true_iff|]. split; [|lia].
  destruct (LongHeaderType_from_byte _) as [t|]; [|done]. by apply bool_decide_eq_true in H5 as ->.
Qed.

Lemma short_first_ok spin key_phase tag m :
  0 <= tag < 4 → 0 <= m < 32 →
  let b := short_first spin key_phase tag m in
  0 <= b < 256 ∧ (Z.land b FIXED_BIT =? 0) = false ∧ (Z.land b LONG_HEADER_FORM =? 0) = true ∧
  negb (Z.land b SPIN_BIT =? 0) = spin ∧ PacketNumber_decode_len (short_first spin key_phase tag 0) = tag + 1 ∧
  negb (Z.land (short_first spin key_phase tag 0) KEY_PHASE_BIT =? 0) = key_phase.
Proof.
  intros Ht Hm. set (check tag m := let b := short_first spin key_phase tag m in
    (0 <=? b) && (b <? 256) && negb (Z.land b FIXED_BIT =? 0) && (Z.land b LONG_HEADER_FORM =? 0) &&
    eqb (negb (Z.land b SPIN_BIT =? 0)) spin && (PacketNumber_decode_len (short_first spin key_phase tag 0) =? tag + 1) &&
    eqb (negb (Z.land (short_first spin key_phase tag 0) KEY_PHASE_BIT =? 0)) key_phase).
  assert (Hc : forallb (fun tag => forallb (check tag) (seqZ 0 32)) (seqZ 0 4) = true).
  { unfold check. destruct spin, key_phase; vm_compute; reflexivity. }
  pose proof (forall_below _ _ (forall_below _ _ Hc tag Ht) m Hm) as H. unfold check in H. cbv zeta.
  apply andb_prop in H as [H H7]. apply andb_prop in H as [H H6]. apply andb_prop in H as [H H5].
  apply andb_prop in H as [H H4]. apply andb_prop in H as [H H3]. apply andb_prop in H as [H1 H2].
  split; [lia|]. split; [by apply negb_true_iff|]. split; [done|]. split; [by apply eqb_prop|].
  split; [lia|by apply eqb_prop].
Qed.

Lemma negotiate_first_ok random :
  0 <= random < 128 →
  let b := Z.lor 128 random in
  0 <= b < 256 ∧ Z.land b FIXED_BIT = Z.land random FIXED_BIT ∧ (Z.land b LONG_HEADER_FORM =? 0) = false ∧
  Z.ldiff b LONG_HEADER_FORM = random.
Proof.
  intros Hr. set (check random := let b := Z.lor 128 random in
    (0 <=? b) && (b <? 256) && (Z.land b FIXED_BIT =? Z.land random FIXED_BIT) &&
    negb (Z.land b LONG_HEADER_FORM =? 0) && (Z.ldiff b LONG_HEADER_FORM =? random)).
  assert (Hc : forallb check (seqZ 0 128) = true) by (vm_compute; reflexivity).
  pose proof (forall_below _ _ Hc random Hr) as H. unfold check in H. cbv zeta.
  apply andb_prop in H as [H H5]. apply andb_prop in H as [H H4]. apply andb_prop in H as [H H3].
  apply andb_prop in H as [H1 H2]. split; [lia|]. split; [lia|]. split; [by apply negb_true_iff|lia].
Qed.

(** * Parser runs *)

(** [p] reads [bs] as [a] and leaves [rest]. *)
Definition runs {E A} (p : mparser E A) (bs : list Z) (a : A) (rest : list Z) : Prop :=
  p (bs ++ rest) = Ret (Ok a, rest).

Lemma runs_bind {E A B} (p : mparser E A) (f : A → mparser E B) b1 b2 a b rest :
  runs p b1 a (b2 ++ rest) → runs (f a) b2 b rest → runs (p ≫= f) (b1 ++ b2) b rest.
Proof. unfold runs, mbind, mparser_bind. intros Hp Hf. rewrite <- app_assoc. by rewrite Hp. Qed.

Lemma runs_ret {E A} (a : A) rest : runs (E := E) (mret a) [] a rest.
Proof. done. Qed.

Lemma runs_lift {A} (p : parser UnexpectedEnd A) bs a rest :
  p (bs ++ rest) = (Ok a, rest) → runs (mlift p) bs a rest.
Proof. unfold runs, mlift, map_err. by intros ->. Qed.

Lemma runs_u8 b rest : 0 <= b < 256 → runs (mlift (decode (A := u8))) [b] (mkUint b) rest.
Proof.
  intros Hb. apply runs_lift. cbn [decode uint_Codec app]. rewrite len_cons. pose proof (len_nonneg rest).
  by destruct (Z.ltb_spec (1 + len rest) (Z.of_nat 1)); [lia|].
Qed.

Lemma runs_u32 v rest : 0 <= v < 2 ^ 32 → runs (mlift (decode (A := u32))) (be_bytes 4 v) (mkUint v) rest.
Proof.
  intros Hv. apply runs_lift. destruct (encode_decode (A := u32) (mkUint v)) as (bs & [= <-] & Hd); [done|]. apply Hd.
Qed.

Lemma runs_cid c rest : cid_wf c → runs get_cid (encode_long c) c rest.
Proof. intros Hc. unfold runs, get_cid. by rewrite decode_encode_long. Qed.

Lemma runs_var x bs rest : 0 <= x < 2 ^ 62 → write_var x = Ret bs → runs (mlift get_var) bs x rest.
Proof. intros Hx Hb. apply runs_lift. destruct (enc_var x Hx) as (bs' & Hb' & Hd). rewrite Hb in Hb'. injection Hb' as <-. apply Hd. Qed.

(** The length field is two bytes wide whatever its value. *)
Lemma runs_length n rest :
  0 <= n < 2 ^ 14 → runs (mlift get_var) (be_bytes 2 (Z.lor (n mod 2 ^ 16) (Z.shiftl 1 14))) n rest.
Proof.
  intros Hn. apply runs_lift. rewrite Z.mod_small, Z.lor_comm, lor_tag by lia.
  destruct (VarInt_decode_tagged 1 1 n rest) as (b & Hb & Ht & Hd); [lia|simpl; lia|].
  change (8 * Z.of_nat 1 + 6) with 14 in *.
  unfold get_var, mbind, parser_bind. rewrite Hb. cbn [app VarInt_decode]. rewrite Ht. simpl Z.eqb. cbv iota.
  by rewrite Hd.
Qed.

(** * Decoding what was encoded *)

Section Decode.
Context (cid_parser : ConnectionIdParser) (versions : list Z) (grease : bool).

Definition length_field (n : Z) : list Z := be_bytes 2 (Z.lor (n mod 2 ^ 16) (Z.shiftl 1 14)).
Definition version_ok (v : Z) : Prop := 0 < v < 2 ^ 32 ∧ v ∈ versions.

(** The part of a long header that all types share. *)
Lemma runs_long_prefix total ty tag m version dst src bs a rest :
  0 <= tag < 4 → 0 <= m < 16 → version_ok version → cid_wf dst → cid_wf src →
  runs (match ty with
        | LtInitial =>
            token_len ← mlift get_var;
            rem ← remaining;
            let token_start := total - rem in
            if rem <? token_len then mfail (InvalidHeader TokenOutOfBounds)
            else
              _ ← skip token_len;
              n ← mlift get_var;
              mret (PInitial (mkProtectedInitialHeader dst src (mkRange token_start (token_start + token_len)) n version))
        | LtRetry => mret (PRetry dst src version)
        | Standard ty => n ← mlift get_var; mret (PLong ty dst src n version)
        end) bs a rest →
  runs (ProtectedHeader_decode total cid_parser versions grease)
    ([long_first ty tag m] ++ be_bytes 4 version ++ encode_long dst ++ encode_long src ++ bs) a rest.
Proof.
  intros Ht Hm [Hv Hin] Hd Hs Hbs. destruct (long_first_ok ty tag m Ht Hm) as (Hb & Hfix & Hlong & Hty & _).
  unfold ProtectedHeader_decode. eapply runs_bind; [by apply runs_u8|]. cbn [uval].
  rewrite Hfix, andb_false_r, Hlong. eapply runs_bind; [apply runs_u32; lia|]. cbn [uval].
  eapply runs_bind; [by apply runs_cid|]. eapply runs_bind; [by apply runs_cid|].
  destruct (Z.eqb_spec version 0); [lia|].
  assert (existsb (Z.eqb version) versions = true) as ->.
  { apply existsb_exists. exists version. by rewrite <- list_elem_of_In, Z.eqb_refl. }
  cbn [negb]. rewrite Hty. exact Hbs.
Qed.

Lemma runs_long total ty tag m version dst src n rest :
  0 <= tag < 4 → 0 <= m < 16 → version_ok version → cid_wf dst → cid_wf src → 0 <= n < 2 ^ 14 →
  runs (ProtectedHeader_decode total cid_parser versions grease)
    ([long_first (Standard ty) tag m] ++ be_bytes 4 version ++ encode_long dst ++ encode_long src ++ length_field n)
    (PLong ty dst src n version) rest.
Proof.
  intros Ht Hm Hv Hd Hs Hn. apply runs_long_prefix; [done..|]. rewrite <- (app_nil_r (length_field n)).
  eapply runs_bind; [by apply runs_length|apply runs_ret].
Qed.

Lemma runs_retry total version dst src rest :
  version_ok version → cid_wf dst → cid_wf src →
  runs (ProtectedHeader_decode total cid_parser versions grease)
    ([long_first LtRetry 0 0] ++ be_bytes 4 version ++ encode_long dst ++ encode_long src)
    (PRetry dst src version) rest.
Proof.
  intros Hv Hd Hs. rewrite <- (app_nil_r (encode_long src)). apply runs_long_prefix; [done..|]. apply runs_ret.
Qed.

Lemma runs_initial total tag m version dst src token tl n rest :
  0 <= tag < 4 → 0 <= m < 16 → version_ok version → cid_wf dst → cid_wf src → 0 <= n < 2 ^ 14 →
  len token < 2 ^ 62 → write_var (len token) = Ret tl →
  total = 5 + len (encode_long dst) + len (encode_long src) + len tl + len token + 2 + len rest →
  let start := 5 + len (encode_long dst) + len (encode_long src) + len tl in
  runs (ProtectedHeader_decode total cid_parser versions grease)
    ([long_first LtInitial tag m] ++ be_bytes 4 version ++ encode_long dst ++ encode_long src ++
     tl ++ token ++ length_field n)
    (PInitial (mkProtectedInitialHeader dst src (mkRange start (start + len token)) n version)) rest.
Proof.
  intros Ht Hm Hv Hd Hs Hn Htok Htl Htotal start. pose proof (len_nonneg token). pose proof (len_nonneg rest).
  apply runs_long_prefix; [done..|]. eapply runs_bind; [apply (runs_var (len token)); [lia|done]|].
  change (token ++ length_field n) with ([] ++ token ++ length_field n). eapply runs_bind; [done|]. cbv beta zeta.
  assert (Hrem : len ([] ++ (token ++ length_field n) ++ rest) = len token + 2 + len rest) by (cbn [app]; rewrite !len_app; done).
  rewrite Hrem. destruct (Z.ltb_spec (len token + 2 + len rest) (len token)); [lia|].
  replace (total - (len token + 2 + len rest)) with start by (unfold start; lia).
  eapply (runs_bind _ _ _ _ tt).
  { unfold runs, skip. rewrite advance_ok by (rewrite len_app; pose proof (len_nonneg (length_field n ++ rest)); lia).
    unfold dropZ, len. rewrite Nat2Z.id, drop_app_length. done. }
  rewrite <- (app_nil_r (length_field n)). eapply runs_bind; [by apply runs_length|apply runs_ret].
Qed.

Lemma runs_short total spin key_phase tag m dst rest :
  0 <= tag < 4 → 0 <= m < 32 → runs cid_parser (cid_bytes dst) dst rest →
  runs (ProtectedHeader_decode total cid_parser versions grease)
    ([short_first spin key_phase tag m] ++ cid_bytes dst) (PShort spin dst) rest.
Proof.
  intros Ht Hm Hp. destruct (short_first_ok spin key_phase tag m Ht Hm) as (Hb & Hfix & Hlong & Hspin & _).
  unfold ProtectedHeader_decode. eapply runs_bind; [by apply runs_u8|]. cbn [uval].
  rewrite Hfix, andb_false_r, Hlong. rewrite <- (app_nil_r (cid_bytes dst)).
  eapply runs_bind; [exact Hp|]. rewrite Hspin. apply runs_ret.
Qed.

Lemma runs_negotiate total random dst src rest :
  0 <= random < 128 → grease = true ∨ Z.land random FIXED_BIT ≠ 0 → cid_wf dst → cid_wf src →
  runs (ProtectedHeader_decode total cid_parser versions grease)
    ([Z.lor 128 random] ++ be_bytes 4 0 ++ encode_long dst ++ encode_long src)
    (PVersionNegotiate random dst src) rest.
Proof.
  intros Hr Hg Hd Hs. destruct (negotiate_first_ok random Hr) as (Hb & Hfix & Hlong & Hdiff).
  unfold ProtectedHeader_decode. eapply runs_bind; [by apply runs_u8|]. cbn [uval]. rewrite Hfix, Hlong.
  assert (negb grease && (Z.land random FIXED_BIT =? 0) = false) as ->.
  { destruct Hg as [->|Hg]; [done|]. by apply Z.eqb_neq in Hg as ->; rewrite andb_false_r. }
  eapply runs_bind; [by apply runs_u32|]. cbn [uval].
  eapply runs_bind; [by apply runs_cid|]. rewrite <- (app_nil_r (encode_long src)).
  eapply runs_bind; [by apply runs_cid|]. rewrite Z.eqb_refl, Hdiff. apply runs_ret.
Qed.

End Decode.

(** * Whole packets *)

(** The first byte of a header, and the bytes between it and the length field. *)
Definition header_first (h : Header) : Z :=
  match h with
  | HInitial h => long_first LtInitial (pn_tag (ih_number h)) 0
  | HLong ty _ _ number _ => long_first (Standard ty) (pn_tag number) 0
  | HRetry _ _ _ => long_first LtRetry 0 0
  | HShort spin key_phase _ number => short_first spin key_phase (pn_tag number) 0
  | HVersionNegotiate random _ _ => Z.lor 128 random
  end.

Definition header_middle (h : Header) (tl : list Z) : list Z :=
  match h with
  | HInitial (mkInitialHeader dst src token _ version) =>
      be_bytes 4 version ++ encode_long dst ++ encode_long src ++ tl ++ token
  | HLong _ dst src _ version | HRetry dst src version => be_bytes 4 version ++ encode_long dst ++ encode_long src
  | HShort _ _ dst _ => cid_bytes dst
  | HVersionNegotiate _ src dst => be_bytes 4 0 ++ encode_long dst ++ encode_long src
  end.

(** What a receiver knows before removing header protection, when [n] is the length field. *)
Definition protected_of (h : Header) (tl : list Z) (n : Z) : ProtectedHeader :=
  match h with
  | HInitial (mkInitialHeader dst src token _ version) =>
      let start := 5 + len (encode_long dst) + len (encode_long src) + len tl in
      PInitial (mkProtectedInitialHeader dst src (mkRange start (start + len token)) n version)
  | HLong ty dst src _ version => PLong ty dst src n version
  | HRetry dst src version => PRetry dst src version
  | HShort spin _ dst _ => PShort spin dst
  | HVersionNegotiate random src dst => PVersionNegotiate random dst src
  end.

(** Headers that name supported versions, with ids the receiver's parser recognises; the packet
    number is one read from the wire. *)
Definition header_ok (cid_parser : ConnectionIdParser) (versions : list Z) (grease : bool) (h : Header) : Prop :=
  match h with
  | HInitial (mkInitialHeader dst src token number version) =>
      cid_wf dst ∧ cid_wf src ∧ version_ok versions version ∧ len token < 2 ^ 62 ∧ pn_wf number ∧ pn_wire number = number
  | HLong _ dst src number version =>
      cid_wf dst ∧ cid_wf src ∧ version_ok versions version ∧ pn_wf number ∧ pn_wire number = number
  | HRetry dst src version => cid_wf dst ∧ cid_wf src ∧ version_ok versions version
  | HShort _ _ dst number =>
      (∀ rest, runs cid_parser (cid_bytes dst) dst rest) ∧ pn_wf number ∧ pn_wire number = number
  | HVersionNegotiate random src dst =>
      cid_wf dst ∧ cid_wf src ∧ 0 <= random < 128 ∧ (grease = true ∨ Z.land random FIXED_BIT ≠ 0)
  end.

Definition token_of (h : Header) : list Z := match h with HInitial h => ih_token h | _ => [] end.
Definition has_length (h : Header) : bool := match h with HInitial _ | HLong _ _ _ _ _ => true | _ => false end.
Definition pn_bytes (h : Header) : list Z :=
  match Header_number h with Some p => PacketNumber_encode p | None => [] end.

Lemma pn_tag_range p : 0 <= pn_tag p < 4.
Proof. destruct p; simpl; lia. Qed.

Lemma pn_tag_len p : pn_tag p + 1 = pn_len p.
Proof. by destruct p. Qed.

Lemma len_pn_encode p : len (PacketNumber_encode p) = pn_len p.
Proof. unfold len, PacketNumber_encode. rewrite be_bytes_length. destruct p; simpl; lia. Qed.

Lemma be_bytes_1 b : 0 <= b < 256 → be_bytes 1 b = [b].
Proof.
  intros Hb. simpl. rewrite Z.shiftr_0_r. change 255 with (Z.ones 8). rewrite Z.land_ones by lia.
  by rewrite Z.mod_small by (simpl; lia).
Qed.

(** The layout of an encoded header. *)
Lemma Header_bytes_layout cid_parser versions grease h :
  header_ok cid_parser versions grease h →
  ∃ tl, write_var (len (token_of h)) = Ret tl ∧ 0 <= header_first h < 256 ∧
    Header_bytes h = Ret (header_first h :: header_middle h tl ++ (if has_length h then [0; 0] else []) ++ pn_bytes h).
Proof.
  intros Hh. assert (Ht : 0 <= len (token_of h) < 2 ^ 62).
  { split; [apply len_nonneg|]. destruct h as [[]| | | |]; simpl; try done. apply Hh. }
  destruct (write_var_ok _ Ht) as (tl & Htl & _). exists tl. split; [done|].
  assert (Hfb : 0 <= header_first h < 256).
  { destruct h as [[? ? ? number ?]|ty ? ? number ?|? ? ?|spin kp ? number|random ? ?]; cbn [header_first ih_number].
    - apply (long_first_ok LtInitial (pn_tag number) 0); [apply pn_tag_range|lia].
    - apply (long_first_ok (Standard ty) (pn_tag number) 0); [apply pn_tag_range|lia].
    - apply (long_first_ok LtRetry 0 0); lia.
    - apply (short_first_ok spin kp (pn_tag number) 0); [apply pn_tag_range|lia].
    - apply negotiate_first_ok, Hh. }
  split; [done|]. match goal with |- context [header_first h :: ?x] =>
    change (header_first h :: x) with ([header_first h] ++ x) end.
  rewrite <- (be_bytes_1 (header_first h)) by done. clear Hfb Ht.
  destruct h as [[dst src token number version]|ty dst src number version|dst src version|spin kp dst number|random src dst];
    cbn [Header_bytes header_first header_middle has_length pn_bytes Header_number ih_number token_of ih_token] in *;
    unfold long_first, short_first, pn_bytes; cbn [Header_number ih_number];
    rewrite ?Htl, ?Z.lxor_0_r, ?Z.lor_0_r; cbn [mbind M_bind]; rewrite <- ?app_assoc, ?app_nil_r; done.
Qed.

(** The protected header is read back from the packet, whatever the mask of the first byte. *)
Lemma protected_decode cid_parser versions grease h tl n m rest :
  header_ok cid_parser versions grease h → write_var (len (token_of h)) = Ret tl → (has_length h = true → 0 <= n < 2 ^ 14) →
  0 <= m < (if Z.land (header_first h) LONG_HEADER_FORM =? 0 then 32 else 16) → (is_protected h = false → m = 0) →
  let bs := Z.lxor (header_first h) m :: header_middle h tl ++ (if has_length h then length_field n else []) in
  ProtectedHeader_decode (len (bs ++ rest)) cid_parser versions grease (bs ++ rest) = Ret (Ok (protected_of h tl n), rest).
Proof.
  intros Hh Htl Hn Hm Hp bs.
  assert (Hx : ∀ a, Z.lxor (Z.lxor a 0) m = Z.lxor a m) by (intros; by rewrite Z.lxor_0_r).
  destruct h as [[dst src token number version]|ty dst src number version|dst src version|spin kp dst number|random src dst];
    cbn [header_first header_middle has_length protected_of is_protected token_of ih_token ih_number header_ok] in *.
  - destruct Hh as (Hd & Hs & Hv & Htok & _). pose proof (pn_tag_range number) as Ht.
    destruct (long_first_ok LtInitial (pn_tag number) 0 Ht ltac:(lia)) as (_ & _ & Hl & _). rewrite Hl in Hm.
    assert (bs = [long_first LtInitial (pn_tag number) m] ++ be_bytes 4 version ++ encode_long dst ++ encode_long src ++
      tl ++ token ++ length_field n) as ->.
    { unfold bs, long_first. rewrite Hx, <- !app_assoc. done. }
    apply runs_initial; try done; [by apply Hn|]. rewrite !len_app. change (len [_]) with 1. change (len (be_bytes 4 version)) with 4.
    change (len (length_field n)) with 2. lia.
  - destruct Hh as (Hd & Hs & Hv & _). pose proof (pn_tag_range number) as Ht.
    destruct (long_first_ok (Standard ty) (pn_tag number) 0 Ht ltac:(lia)) as (_ & _ & Hl & _). rewrite Hl in Hm.
    assert (bs = [long_first (Standard ty) (pn_tag number) m] ++ be_bytes 4 version ++ encode_long dst ++ encode_long src ++
      length_field n) as ->.
    { unfold bs, long_first. rewrite Hx, <- !app_assoc. done. }
    apply runs_long; try done. by apply Hn.
  - destruct Hh as (Hd & Hs & Hv).
    assert (bs = [long_first LtRetry 0 0] ++ be_bytes 4 version ++ encode_long dst ++ encode_long src) as ->.
    { unfold bs. by rewrite (Hp eq_refl), Z.lxor_0_r, app_nil_r. }
    by apply runs_retry.
  - destruct Hh as (Hd & _). pose proof (pn_tag_range number) as Ht.
    destruct (short_first_ok spin kp (pn_tag number) 0 Ht ltac:(lia)) as (_ & _ & Hl & _). rewrite Hl in Hm.
    assert (bs = [short_first spin kp (pn_tag number) m] ++ cid_bytes dst) as ->.
    { unfold bs, short_first. by rewrite Hx, app_nil_r. }
    by apply runs_short.
  - destruct Hh as (Hd & Hs & Hr & Hg).
    assert (bs = [Z.lor 128 random] ++ be_bytes 4 0 ++ encode_long dst ++ encode_long src) as ->.
    { unfold bs. by rewrite (Hp eq_refl), Z.lxor_0_r, app_nil_r. }
    by apply runs_negotiate.
Qed.

Lemma takeZ_len_app {A} (l k : list A) : takeZ (len l) (l ++ k) = l.
Proof. unfold takeZ, len. by rewrite Nat2Z.id, take_app_length. Qed.
Lemma dropZ_len_app {A} (l k : list A) : dropZ (len l) (l ++ k) = k.
Proof. unfold dropZ, len. by rewrite Nat2Z.id, drop_app_length. Qed.

(** A list that agrees with [l] on the length of [l] begins with [l]. *)
Lemma takeZ_prefix {A} (l b : list A) n : n = len l → takeZ n b = l → b = l ++ dropZ n b.
Proof. intros -> Ht. rewrite <- Ht at 1. by rewrite takeZ_dropZ. Qed.

Lemma splice_ok a f g b : len f = len g → splice (a ++ f ++ b) (len a) g = a ++ g ++ b.
Proof.
  intros Hl. unfold splice. rewrite takeZ_len_app, <- Hl. f_equal. f_equal.
  replace (len a + len f) with (len (a ++ f)) by apply len_app. rewrite (app_assoc a f b). apply dropZ_len_app.
Qed.

(** Packet protection, when there is a key for it. *)
Definition sealed (crypto : option (Z * PacketKey)) (buf : list Z) (hl : Z) : list Z :=
  match crypto with Some (number, key) => pk_encrypt key number buf hl | None => buf end.

(** The second half of [PartialEncode::finish]. *)
Definition protect (hk : HeaderKey) (crypto : option (Z * PacketKey)) (hl pn_pos : Z) (buf : list Z) : M (list Z) :=
  let buf := sealed crypto buf hl in
  _ ← rassert (pn_pos + 4 + sample_size hk <=? len buf);
  mret (hk_encrypt hk pn_pos buf).

(** The first half writes the length field. *)
Lemma finish_length hk crypto (wl : bool) fb mid pnb payload :
  let n := len payload + len pnb in
  let lf := if wl then length_field n else [] in
  let hl := 1 + len mid + len lf + len pnb in
  (wl = true → n < 2 ^ 14) → len mid + n < 2 ^ 60 →
  PartialEncode_finish (mkPartialEncode 0 hl (Some (len pnb, wl)))
    ((fb :: mid ++ (if wl then [0; 0] else []) ++ pnb) ++ payload) hk crypto =
  protect hk crypto hl (1 + len mid + len lf) ((fb :: mid ++ lf ++ pnb) ++ payload).
Proof.
  intros n lf hl Hn Hmax. unfold PartialEncode_finish. cbn [pe_pn header_len].
  pose proof (len_nonneg mid). pose proof (len_nonneg payload). pose proof (len_nonneg pnb). pose proof (len_nonneg lf).
  rewrite (usub_ok hl (len pnb)) by (unfold hl; lia). cbn [mbind M_bind].
  replace (hl - len pnb) with (1 + len mid + len lf) by (unfold hl; lia). destruct wl; [|done].
  unfold hl, lf in *. change (len (length_field n)) with 2 in *. specialize (Hn eq_refl).
  change (fb :: mid ++ [0; 0] ++ pnb) with ((fb :: mid) ++ [0; 0] ++ pnb).
  assert (Hl : len (((fb :: mid) ++ [0; 0] ++ pnb) ++ payload) = 1 + len mid + 2 + len pnb + len payload)
    by (rewrite !len_app, len_cons; change (len [0; 0]) with 2; lia).
  rewrite Hl, (usub_ok _ (1 + len mid + 2 + len pnb)) by lia. cbn [mbind M_bind].
  rewrite uadd_ok by (unfold u64_max; lia). cbn [mbind M_bind].
  replace (1 + len mid + 2 + len pnb + len payload - (1 + len mid + 2 + len pnb) + len pnb) with n by (unfold n; lia).
  destruct (Z.ltb_spec n (2 ^ 14)); [|lia]. cbn [rassert mbind M_bind]. rewrite usub_ok by lia. cbn [mbind M_bind].
  destruct (Z.leb_spec (1 + len mid + 2) (1 + len mid + 2 + len pnb + len payload)); [|lia]. cbn [rassert mbind M_bind].
  replace (1 + len mid + 2 - 2) with (len (fb :: mid)) by (rewrite len_cons; lia).
  rewrite <- !app_assoc, (splice_ok (fb :: mid) [0; 0] _ (pnb ++ payload)) by done.
  fold (length_field n). unfold protect. cbn [app]. by rewrite <- !app_assoc.
Qed.

(** Packet protection changes the payload, header protection the first byte and what follows the middle. *)
Lemma protect_ok hk crypto fb mid pnb payload :
  header_key_ok hk → (∀ n k, crypto = Some (n, k) → packet_key_ok k) → 0 <= fb < 256 →
  4 + sample_size hk <= len payload + len pnb →
  ∃ m payload' tail, 0 <= m < (if Z.land fb LONG_HEADER_FORM =? 0 then 32 else 16) ∧
    len payload' = len payload ∧ len tail = len payload + len pnb ∧
    (fb :: mid ++ pnb) ++ payload' = sealed crypto ((fb :: mid ++ pnb) ++ payload) (1 + len mid + len pnb) ∧
    protect hk crypto (1 + len mid + len pnb) (1 + len mid) ((fb :: mid ++ pnb) ++ payload)
      = Ret (Z.lxor fb m :: mid ++ tail) ∧
    hk_decrypt hk (1 + len mid) (Z.lxor fb m :: mid ++ tail) = (fb :: mid ++ pnb) ++ payload'.
Proof.
  intros Hhk Hpk Hfb Hs. pose proof (len_nonneg mid). pose proof (len_nonneg payload). pose proof (len_nonneg pnb).
  unfold protect. set (buf2 := sealed _ _ _).
  assert (Hb2 : ∃ payload', buf2 = (fb :: mid ++ pnb) ++ payload' ∧ len payload' = len payload).
  { unfold buf2, sealed. destruct crypto as [[number key]|]; [|by exists payload].
    assert (Hlen : len (fb :: mid ++ pnb) = 1 + len mid + len pnb) by (rewrite len_cons, len_app; lia).
    destruct (Hpk _ _ eq_refl number ((fb :: mid ++ pnb) ++ payload) (1 + len mid + len pnb)) as [Hl Ht];
      [rewrite len_app; lia|].
    assert (Htk : takeZ (1 + len mid + len pnb) ((fb :: mid ++ pnb) ++ payload) = fb :: mid ++ pnb)
      by (rewrite <- Hlen; apply takeZ_len_app).
    rewrite Htk in Ht. apply takeZ_prefix in Ht; [|lia].
    eexists. split; [exact Ht|]. rewrite len_dropZ; rewrite ?Hl, ?len_app, ?Hlen; lia. }
  destruct Hb2 as (payload' & Hb2 & Hl'). rewrite Hb2. cbn [app].
  assert (Hlen : len (fb :: (mid ++ pnb) ++ payload') = 1 + len mid + len pnb + len payload)
    by (rewrite len_cons, !len_app; lia).
  destruct (Z.leb_spec (1 + len mid + 4 + sample_size hk) (len (fb :: (mid ++ pnb) ++ payload'))); [|lia].
  cbn [rassert mbind M_bind].
  destruct (hk_first hk Hhk (1 + len mid) fb ((mid ++ pnb) ++ payload')) as (b1 & m & Henc & Hm & Ht); [lia|lia|done|].
  replace (1 + len mid - 1) with (len mid) in Ht by lia.
  rewrite <- app_assoc, takeZ_len_app in Ht. apply takeZ_prefix in Ht; [|done].
  exists m, payload', (dropZ (len mid) b1). split; [done|]. split; [done|].
  assert (Hlb : len b1 = len mid + len pnb + len payload).
  { destruct (hk_len hk Hhk (1 + len mid) (fb :: (mid ++ pnb) ++ payload')) as [Hle _]. rewrite Henc, len_cons in Hle. lia. }
  split; [rewrite len_dropZ; lia|]. split; [done|]. rewrite <- Ht. split; [by rewrite Henc|].
  rewrite <- Henc. apply hk_inverse; [done|lia|lia].
Qed.

(** The packet number of a header, its length and the tag of the first byte. *)
Lemma header_number_ok cid_parser versions grease h p :
  header_ok cid_parser versions grease h → Header_number h = Some p →
  pn_wf p ∧ pn_wire p = p ∧ is_protected h = true ∧ Header_pn h = Some (pn_len p, has_length h) ∧
  PacketNumber_decode_len (header_first h) = pn_len p ∧ pn_bytes h = PacketNumber_encode p.
Proof.
  intros Hh Hp. unfold pn_bytes. rewrite Hp. pose proof (pn_tag_range p).
  destruct h as [[dst src token number version]|ty dst src number version|dst src version|spin kp dst number|random src dst];
    cbn [Header_number ih_number header_ok] in *; try discriminate Hp; injection Hp as ->.
  - destruct Hh as (_ & _ & _ & _ & ? & ?). destruct (long_first_ok LtInitial (pn_tag p) 0) as (_ & _ & _ & _ & ?); [done|lia|].
    do 4 (split; [done|]). split; [by rewrite <- pn_tag_len|done].
  - destruct Hh as (_ & _ & _ & ? & ?). destruct (long_first_ok (Standard ty) (pn_tag p) 0) as (_ & _ & _ & _ & ?); [done|lia|].
    do 4 (split; [done|]). split; [by rewrite <- pn_tag_len|done].
  - destruct Hh as (_ & ? & ?). destruct (short_first_ok spin kp (pn_tag p) 0) as (_ & _ & _ & _ & ? & _); [done|lia|].
    do 4 (split; [done|]). split; [by rewrite <- pn_tag_len|done].
Qed.

(** Removing header protection gives back the number and the header bytes. *)
Lemma decrypt_header_ok hk out fb mid p payload :
  header_key_ok hk → pn_wf p → pn_wire p = p → PacketNumber_decode_len fb = pn_len p →
  len out = 1 + len mid + pn_len p + len payload → 4 + sample_size hk <= pn_len p + len payload →
  hk_decrypt hk (1 + len mid) out = (fb :: mid ++ PacketNumber_encode p) ++ payload →
  decrypt_header out (1 + len mid) hk =
    Ret (Ok (p, (fb :: mid ++ PacketNumber_encode p) ++ payload, 1 + len mid + pn_len p)).
Proof.
  intros Hhk Hp Hw Hdl Hlen Hs Hdec. unfold decrypt_header.
  destruct (Z.ltb_spec (len out) (1 + len mid + 4 + sample_size hk)); [lia|]. rewrite Hdec. cbn [app].
  rewrite Hdl.
  assert (Hd : dropZ (1 + len mid) (fb :: (mid ++ PacketNumber_encode p) ++ payload) = PacketNumber_encode p ++ payload).
  { change (fb :: (mid ++ PacketNumber_encode p) ++ payload) with ((fb :: mid ++ PacketNumber_encode p) ++ payload).
    replace (1 + len mid) with (len (fb :: mid)) by (rewrite len_cons; lia).
    change (fb :: mid ++ PacketNumber_encode p) with ((fb :: mid) ++ PacketNumber_encode p).
    rewrite <- app_assoc. apply dropZ_len_app. }
  rewrite Hd, PacketNumber_decode_encode by done. cbn [mbind M_bind]. rewrite Hw. do 4 f_equal.
  rewrite len_cons, !len_app, len_pn_encode. lia.
Qed.

Lemma split_to_len {A} (l k : list A) n : n = len l → split_to n (l ++ k) = Ret (l, k).
Proof.
  intros ->. rewrite split_to_ok by (rewrite len_app; pose proof (len_nonneg k); lia).
  by rewrite takeZ_len_app, dropZ_len_app.
Qed.

(** The token lies where the decoder found it. *)
Lemma slice_token fb version dst src tl token after :
  let start := 5 + len (encode_long dst) + len (encode_long src) + len tl in
  slice (fb :: (be_bytes 4 version ++ encode_long dst ++ encode_long src ++ tl ++ token) ++ after)
    (mkRange start (start + len token)) = Ret token.
Proof.
  intros start. unfold slice. cbn [rstart rend].
  set (pre := fb :: be_bytes 4 version ++ encode_long dst ++ encode_long src ++ tl).
  assert (Hpre : start = len pre).
  { unfold start, pre. rewrite len_cons, !len_app. change (len (be_bytes 4 version)) with 4. lia. }
  assert (Heq : fb :: (be_bytes 4 version ++ encode_long dst ++ encode_long src ++ tl ++ token) ++ after = pre ++ token ++ after).
  { unfold pre. cbn [app]. by rewrite <- !app_assoc. }
  rewrite Heq, Hpre. pose proof (len_nonneg token). pose proof (len_nonneg after). pose proof (len_nonneg pre).
  rewrite !len_app. destruct (Z.leb_spec (len pre) (len pre + len token)), (Z.leb_spec (len pre + len token) (len pre + (len token + len after)));
    try lia. cbn [andb]. rewrite dropZ_len_app. replace (len pre + len token - len pre) with (len token) by lia.
  by rewrite takeZ_len_app.
Qed.

(** [PartialDecode::finish] on a protected packet. *)
Lemma finish_protected cid_parser versions grease h tl n lf p out payload hk :
  let mid := header_middle h tl ++ lf in
  let header_data := header_first h :: mid ++ PacketNumber_encode p in
  header_ok cid_parser versions grease h → Header_number h = Some p →
  decrypt_header out (1 + len mid) hk = Ret (Ok (p, header_data ++ payload, 1 + len mid + pn_len p)) →
  PartialDecode_finish (mkPartialDecode (protected_of h tl n) out (1 + len mid)) (Some hk) =
    Ret (Ok (mkPacket h header_data payload)).
Proof.
  intros mid header_data Hh Hp Hdec.
  assert (Hsplit : split_to (1 + len mid + pn_len p) (header_data ++ payload) = Ret (header_data, payload)).
  { apply split_to_len. unfold header_data. rewrite len_cons, len_app, len_pn_encode. lia. }
  destruct h as [[dst src token number version]|ty dst src number version|dst src version|spin kp dst number|random src dst];
    cbn [Header_number ih_number] in Hp; try discriminate Hp; injection Hp as ->;
    unfold PartialDecode_finish; cbn [plain_header protected_of pd_buf pd_pos unwrap_key mbind M_bind mret M_ret].
  - rewrite Hdec. cbn [mbind M_bind]. rewrite Hsplit. cbn [mbind M_bind]. unfold header_data, mid. cbn [header_middle header_first].
    rewrite <- (app_assoc _ lf). rewrite slice_token. done.
  - rewrite Hdec. cbn [mbind M_bind]. rewrite Hsplit. done.
  - rewrite Hdec. cbn [mbind M_bind]. rewrite Hsplit. cbn [mbind M_bind]. unfold header_data. cbn [app header_first].
    destruct (short_first_ok spin kp (pn_tag p) 0 (pn_tag_range p)) as (_ & _ & _ & _ & _ & Hk); [lia|]. by rewrite Hk.
Qed.

(** [PartialDecode::new] splits the packet from what follows it. *)
Lemma partial_new_ok cid_parser versions grease (bs : list Z) ph out rest :
  ProtectedHeader_decode (len (out ++ rest)) cid_parser versions grease (out ++ rest) = Ret (Ok ph, dropZ (len bs) (out ++ rest)) →
  len bs <= len out → len (out ++ rest) < 2 ^ 62 →
  match payload_len ph with Some n => len out = len bs + n | None => rest = [] end →
  PartialDecode_new (out ++ rest) cid_parser versions grease =
    Ret (Ok (mkPartialDecode ph out (len bs), match rest with [] => None | _ => Some rest end)).
Proof.
  intros Hd Hbs Hmax Hpl. unfold PartialDecode_new. rewrite Hd. cbn [mbind M_bind].
  pose proof (len_nonneg bs). pose proof (len_nonneg rest). rewrite len_app in Hmax.
  rewrite len_dropZ by (rewrite len_app; lia).
  replace (len (out ++ rest) - (len (out ++ rest) - len bs)) with (len bs) by lia.
  destruct (payload_len ph) as [n|].
  - rewrite uadd_ok by (unfold u64_max; lia). cbn [mbind M_bind]. rewrite <- Hpl, len_app.
    destruct rest as [|b rest].
    + change (len []) with 0. rewrite Z.add_0_r, Z.compare_refl. by rewrite app_nil_r.
    + rewrite (proj2 (Z.compare_gt_iff _ _)) by (rewrite len_cons; pose proof (len_nonneg rest); lia).
      by rewrite takeZ_len_app, dropZ_len_app.
  - subst rest. cbn [mbind M_bind]. rewrite app_nil_r. cbn [mbind M_bind mret M_ret]. by rewrite Z.compare_refl.
Qed.

(** What an encoded packet becomes on the wire and for its receiver. *)
Definition survives (cid_parser : ConnectionIdParser) (versions : list Z) (grease : bool) (h : Header)
    (payload : list Z) (hk : HeaderKey) (crypto : option (Z * PacketKey)) (rest : list Z) : Prop :=
  ∃ pe buf out pd header_data payload',
    Header_encode h [] = Ret (pe, buf) ∧ PartialEncode_finish pe (buf ++ payload) hk crypto = Ret out ∧
    PartialDecode_new (out ++ rest) cid_parser versions grease =
      Ret (Ok (pd, match rest with [] => None | _ => Some rest end)) ∧
    PartialDecode_finish pd (Some hk) = Ret (Ok (mkPacket h header_data payload')) ∧
    header_len pe = len header_data ∧
    header_data ++ payload' =
      sealed (if is_protected h then crypto else None) (header_data ++ payload) (len header_data).

Lemma len_middle h tl : len (header_middle h tl) <= len (header_middle h []) + len tl.
Proof.
  pose proof (len_nonneg tl). destruct h as [[]| | | |]; cbn [header_middle]; try lia.
  rewrite !len_app. change (len (@nil Z)) with 0. lia.
Qed.

(** The sizes that fit: the sample is inside the packet, the length field holds its value, and the
    datagram is not absurdly long. *)
Definition sizes_ok (h : Header) (payload : list Z) (hk : HeaderKey) (rest : list Z) : Prop :=
  (is_protected h = true → 4 + sample_size hk <= len payload + len (pn_bytes h)) ∧
  (has_length h = true → len payload + len (pn_bytes h) < 2 ^ 14) ∧ (has_length h = false → rest = []) ∧
  len (header_middle h []) + len payload + len rest < 2 ^ 59.

Lemma protected_survives cid_parser versions grease h p payload hk crypto rest :
  header_key_ok hk → (∀ n k, crypto = Some (n, k) → packet_key_ok k) → header_ok cid_parser versions grease h →
  Header_number h = Some p → sizes_ok h payload hk rest →
  survives cid_parser versions grease h payload hk crypto rest.
Proof.
  intros Hhk Hpk Hh Hp (Hs & Hl14 & Hrest & Hmax).
  pose proof (Header_bytes_layout _ _ _ _ Hh) as (tl & Htl & Hfb & Hbytes).
  destruct (header_number_ok _ _ _ _ _ Hh Hp) as (Hpw & Hpwire & Hprot & Hpn & Hdl & Hpnb). rewrite Hpnb in *.
  specialize (Hs Hprot). set (n := len payload + len (PacketNumber_encode p)) in *.
  set (lf := if has_length h then length_field n else []).
  pose proof (len_pn_encode p) as Hple. pose proof (write_var_len _ _ Htl) as Htlen.
  pose proof (var_size_range (len (token_of h))). pose proof (len_middle h tl).
  assert (1 <= pn_len p <= 4) by (destruct p; simpl; lia).
  assert (Hlf : 0 <= len lf <= 2) by (unfold lf; by destruct (has_length h)).
  pose proof (len_nonneg (header_middle h tl)). pose proof (len_nonneg payload). pose proof (len_nonneg rest).
  pose proof (hk_sample hk Hhk).
  set (mid := header_middle h tl ++ lf). assert (Hmid : len mid = len (header_middle h tl) + len lf) by apply len_app.
  destruct (protect_ok hk crypto (header_first h) mid (PacketNumber_encode p) payload Hhk Hpk Hfb)
    as (m & payload' & tail & Hm & Hl' & Hlt & Hseal & Hout & Hdec); [unfold n in *; lia|].
  set (out := Z.lxor (header_first h) m :: mid ++ tail) in *.
  assert (Hlo : len out = 1 + len mid + pn_len p + len payload') by (unfold out; rewrite len_cons, len_app; lia).
  exists (mkPartialEncode 0 (1 + len (header_middle h tl) + len lf + len (PacketNumber_encode p)) (Some (len (PacketNumber_encode p), has_length h))).
  eexists _, out, (mkPartialDecode (protected_of h tl n) out (1 + len mid)), _, payload'.
  split; [|split; [|split; [|split]]].
  - unfold Header_encode. rewrite Hbytes. cbn [mbind M_bind app]. rewrite Hpn, Hple. do 3 f_equal.
    rewrite len_cons, !len_app, Hple. unfold lf. destruct (has_length h); [change (len (length_field n)) with 2|];
      change (len [0; 0]) with 2; change (len (@nil Z)) with 0; lia.
  - etrans; [apply (finish_length hk crypto (has_length h) (header_first h) (header_middle h tl)); fold n; [done|unfold n; lia]|].
    fold n. fold lf. rewrite <- Hout. unfold mid. rewrite len_app. f_equal; [lia|lia|]. by rewrite <- app_assoc.
  - assert (Hpre : out ++ rest = (Z.lxor (header_first h) m :: mid) ++ tail ++ rest) by (unfold out; cbn [app]; by rewrite <- app_assoc).
    replace (1 + len mid) with (len (Z.lxor (header_first h) m :: mid)) by (rewrite len_cons; lia).
    apply partial_new_ok.
    + rewrite Hpre, dropZ_len_app. apply protected_decode; try done; [|by rewrite Hprot].
      intros Ehl. specialize (Hl14 Ehl). unfold n. lia.
    + rewrite Hlo, len_cons. lia.
    + rewrite len_app. lia.
    + destruct h as [[]| | | |]; cbn [protected_of payload_len pi_len has_length] in *; try (by apply Hrest);
        rewrite Hlo, len_cons; unfold n; lia.
  - eapply finish_protected; [done|done|]. fold mid.
    apply decrypt_header_ok; try done; lia.
  - assert (Hhd : len (header_first h :: mid ++ PacketNumber_encode p) = 1 + len mid + len (PacketNumber_encode p))
      by (rewrite len_cons, len_app; lia).
    fold mid. split; [|by rewrite Hprot, Hhd]. cbn [header_len]. rewrite Hhd. lia.
Qed.

(** Retry and Version Negotiation packets are not protected, and fill their datagram. *)
Lemma unprotected_survives cid_parser versions grease h payload hk crypto rest :
  header_ok cid_parser versions grease h → Header_number h = None → sizes_ok h payload hk rest →
  survives cid_parser versions grease h payload hk crypto rest.
Proof.
  intros Hh Hp (_ & _ & Hrest & Hmax).
  pose proof (Header_bytes_layout _ _ _ _ Hh) as (tl & Htl & Hfb & Hbytes).
  assert (has_length h = false ∧ is_protected h = false ∧ Header_pn h = None ∧ pn_bytes h = [] ∧ payload_len (protected_of h tl 0) = None)
    as (Hl & Hprot & Hpn & Hpb & Hpay) by (destruct h; simpl in Hp; by inversion Hp).
  specialize (Hrest Hl). subst rest. rewrite Hl, Hpb, app_nil_r in Hbytes. set (hd := header_first h :: header_middle h tl).
  exists (mkPartialEncode 0 (len hd) None), hd, (hd ++ payload), (mkPartialDecode (protected_of h tl 0) (hd ++ payload) (len hd)), hd, payload.
  split. { unfold Header_encode. rewrite Hbytes. cbn [mbind M_bind]. by rewrite Hpn. }
  split; [done|]. split.
  - apply partial_new_ok; [|rewrite len_app; pose proof (len_nonneg payload); lia| |by rewrite Hpay].
    + rewrite app_nil_r, dropZ_len_app.
      assert (hd = Z.lxor (header_first h) 0 :: header_middle h tl ++ (if has_length h then length_field 0 else [])) as ->
        by (unfold hd; by rewrite Hl, Z.lxor_0_r, app_nil_r).
      apply protected_decode; try done. destruct (_ =? _); lia.
    + rewrite app_nil_r, len_app. unfold hd. rewrite len_cons. pose proof (len_middle h tl).
      pose proof (write_var_len _ _ Htl). pose proof (var_size_range (len (token_of h))). change (len (@nil Z)) with 0 in Hmax. lia.
  - split; [|by rewrite Hprot]. unfold PartialDecode_finish.
    destruct h as [[]| | | |]; try discriminate; cbn [plain_header protected_of pd_buf pd_pos]; by rewrite split_to_len.
Qed.

(** * Properties *)

(** The parser of ids of fixed length recognises them. *)
Lemma fixed_length_runs cid rest : cid_wf cid → runs (FixedLengthConnectionIdParser (cid_len cid)) (cid_bytes cid) cid rest.
Proof.
  intros Hw. pose proof (cid_bytes_len _ Hw) as Hl. pose proof (len_nonneg rest). unfold runs, FixedLengthConnectionIdParser.
  rewrite len_app, Hl. destruct (Z.leb_spec (cid_len cid) (cid_len cid + len rest)); [|lia].
  destruct Hw as [Hr Hw]. destruct (from_buf_ok (cid_bytes cid ++ rest) (cid_len cid)) as (d & -> & Hd & Hb);
    [done|rewrite len_app; lia|].
  rewrite <- Hl, takeZ_len_app in Hb. rewrite <- Hl, dropZ_len_app. do 3 f_equal. by apply cid_bytes_inj.
Qed.

(** A packet number sent while the peer may not have acknowledged more than [a] is recovered from its
    truncated wire form by every receiver that expects a number above [a] and has not run ahead by half the
    window: building, writing, reading and expanding it never panic and give the number back. *)
Theorem packet_number_roundtrip n a rest :
  0 <= a <= n → n < 2 ^ 62 → 2 * (n - a) < 2 ^ 32 →
  ∃ p q, PacketNumber_new n a = Ret p ∧
    PacketNumber_decode (PacketNumber_decode_len (pn_tag p)) (PacketNumber_encode p ++ rest) = Ret (Ok q, rest) ∧
    ∀ e, a <= e < n + 2 ^ (pn_len p * 8 - 1) → expand q e = Ret n.
Proof.
  intros Ha Hn Hr. destruct (PacketNumber_new_ok n a Ha Hn Hr) as (p & Hnew & Hw & Hv).
  assert (Hpw : pn_wf p ∧ pn_value (pn_wire p) = n mod 2 ^ (pn_len p * 8) ∧ pn_len (pn_wire p) = pn_len p).
  { pose proof (Z.mod_pos_bound n (2 ^ 8) ltac:(lia)). pose proof (Z.mod_pos_bound n (2 ^ 16) ltac:(lia)).
    pose proof (Z.mod_pos_bound n (2 ^ 24) ltac:(lia)). pose proof (Z.mod_pos_bound n (2 ^ 32) ltac:(lia)).
    unfold pn_wf. destruct p; cbn [pn_value pn_len pn_wire] in *; change (1 * 8) with 8 in *;
      change (2 * 8) with 16 in *; change (3 * 8) with 24 in *; change (4 * 8) with 32 in *; destruct Hv as [->|[? ->]]; try lia.
    - rewrite Z.mod_mod by lia. split; [lia|]. by split.
    - split; [lia|]. split; [|done]. symmetry. change (2 ^ 32) with (2 ^ 24 * 2 ^ 8). rewrite Z.rem_mul_r by lia.
      rewrite (Z.mul_comm (2 ^ 24)), Z.mod_add, Z.mod_mod by lia. done. }
  destruct Hpw as (Hpw & Hval & Hl). exists p, (pn_wire p). split; [done|]. split.
  - assert (PacketNumber_decode_len (pn_tag p) = pn_len p) as -> by (by destruct p). by apply PacketNumber_decode_encode.
  - intros e He. apply expand_ok; rewrite ?Hl; try done; lia.
Qed.

Lemma packet_number_roundtrip_witness :
  ∃ p q, PacketNumber_new 70000 60000 = Ret p ∧
    PacketNumber_decode (PacketNumber_decode_len (pn_tag p)) (PacketNumber_encode p ++ [7]) = Ret (Ok q, [7]) ∧
    ∀ e, 60000 <= e < 70000 + 2 ^ (pn_len p * 8 - 1) → expand q e = Ret 70000.
Proof. apply packet_number_roundtrip; lia. Defined.

(** C22: a packet of any kind, sealed and put in a datagram before [rest], is split off by the receiver, and
    removing its header protection gives back the same header, with the sealed payload and the header
    bytes that authenticate it. *)
Theorem packet_roundtrip cid_parser versions grease h payload hk crypto rest :
  header_key_ok hk → (∀ n k, crypto = Some (n, k) → packet_key_ok k) → header_ok cid_parser versions grease h →
  sizes_ok h payload hk rest → survives cid_parser versions grease h payload hk crypto rest.
Proof.
  intros Hhk Hpk Hh Hs. destruct (Header_number h) eqn:Hn; [by eapply protected_survives|by apply unprotected_survives].
Qed.

(** Keys that flip bits of the header, and of the first byte of the payload. *)
Definition example_header_key : HeaderKey :=
  let flip (o : Z) (b : list Z) := match b with b0 :: b1 => Z.lxor b0 3 :: b1 | [] => [] end in mkHeaderKey 16 flip flip.
Definition example_packet_key : PacketKey :=
  mkPacketKey (fun n b h => takeZ h b ++ map (fun x => Z.lxor x 1) (dropZ h b))
    (fun n hd b => Some (map (fun x => Z.lxor x 1) b)) 0 (2 ^ 23) (2 ^ 52).
Definition example_cid : ConnectionId := mkConnectionId 8 ([1; 2; 3; 4; 5; 6; 7; 8] ++ repeat 0 12).
Definition example_headers : list Header :=
  [ HInitial (mkInitialHeader example_cid example_cid [9; 9] (PnU16 300) 1);
    HLong Handshake example_cid example_cid (PnU8 4) 1;
    HShort true false example_cid (PnU24 70000);
    HRetry example_cid example_cid 1;
    HVersionNegotiate 70 example_cid example_cid ].

Lemma example_header_key_ok : header_key_ok example_header_key.
Proof.
  split; [simpl; lia|intros o [|b0 b]; simpl; rewrite ?len_cons; done| |].
  - intros o [|b0 b] _ _; [done|]. simpl. by rewrite Z.lxor_assoc, Z.lxor_nilpotent, Z.lxor_0_r.
  - intros o b0 b _ _ Hb. exists b, 3. split; [done|]. split; [destruct (_ =? _); lia|done].
Qed.

Lemma example_packet_key_ok : packet_key_ok example_packet_key.
Proof.
  intros n b h Hh. cbn [pk_encrypt example_packet_key]. rewrite len_app.
  assert (len (map (fun x => Z.lxor x 1) (dropZ h b)) = len (dropZ h b)) as -> by (unfold len; by rewrite length_map).
  rewrite len_takeZ, len_dropZ by lia. split; [lia|].
  assert (h = len (takeZ h b)) as Hl by (rewrite len_takeZ; lia). rewrite Hl at 1. apply takeZ_len_app.
Qed.

Lemma packet_roundtrip_witness :
  Forall (fun h => survives (FixedLengthConnectionIdParser 8) [1] false h (repeat 5 40) example_header_key
    (Some (300, example_packet_key)) (if has_length h then [7] else [])) example_headers.
Proof.
  assert (cid_wf example_cid) by (split; [split; done|done]).
  assert (∀ rest, runs (FixedLengthConnectionIdParser 8) (cid_bytes example_cid) example_cid rest)
    by (intros; by apply (fixed_length_runs example_cid)).
  assert (version_ok [1] 1) by (split; [done|apply list_elem_of_here]).
  assert (∀ n k, Some (300, example_packet_key) = Some (n, k) → packet_key_ok k)
    by (intros n k [= <- <-]; apply example_packet_key_ok).
  repeat (apply Forall_cons; split); [..|apply Forall_nil; exact I]; apply packet_roundtrip; try done;
    try apply example_header_key_ok.
  all: try (split; [|split; [|split]]; try done; vm_compute; intuition discriminate).
  all: cbn [header_ok]; repeat (split; [done|]); done.
Defined.
