(* ===== verification/PacketSafety.v ===== *)
(** No datagram makes the packet decoder of [Packet] panic, and splitting a datagram
    into its packets comes to an end. *)
From S2P Require Import Prelude Coding Shared Packet.

Definition bytes_ok (bs : list Z) : Prop := Forall (fun b => 0 <= b < 256) bs.

(** * Parsers that do not panic *)

(** [p] does not panic on [bs]; when it succeeds, [Q] holds of its result and of the suffix it leaves. *)
Definition safe {E A} (p : mparser E A) (Q : A → list Z → Prop) (bs : list Z) : Prop :=
  match p bs with
  | Ret (Ok a, r) => (∃ k, bs = k ++ r) ∧ Q a r
  | Ret (Err _, _) => True
  | Panic => False
  end.

Lemma safe_ret {E A} (a : A) (Q : A → list Z → Prop) bs : Q a bs → safe (E := E) (mret a) Q bs.
Proof. intros HQ. split; [by exists []|done]. Qed.

Lemma safe_remaining {E} (Q : Z → list Z → Prop) bs : Q (len bs) bs → safe (E := E) remaining Q bs.
Proof. intros HQ. split; [by exists []|done]. Qed.

Lemma safe_fail {E A} (e : E) (Q : A → list Z → Prop) bs : safe (mfail e) Q bs.
Proof. done. Qed.

Lemma safe_bind {E A B} (p : mparser E A) (f : A → mparser E B) Q bs :
  safe p (fun a r => safe (f a) Q r) bs → safe (a ← p; f a) Q bs.
Proof.
  unfold safe, mbind, mparser_bind. destruct (p bs) as [[[a|] r]|]; [|done..].
  intros [[k ->] Hf]. destruct (f a r) as [[[b|] r']|]; [|done..].
  destruct Hf as [[k' ->] HQ]. split; [|done]. exists (k ++ k'). by rewrite app_assoc.
Qed.

Lemma safe_mono {E A} (p : mparser E A) (Q R : A → list Z → Prop) bs :
  safe p Q bs → (∀ a r k, bs = k ++ r → Q a r → R a r) → safe p R bs.
Proof.
  unfold safe. intros Hp HQR. destruct (p bs) as [[[a|] r]|]; [|done..].
  destruct Hp as [[k Hk] HQ]. split; [by exists k|]. by eapply HQR.
Qed.

Lemma bytes_suffix (bs k r : list Z) : bytes_ok bs → bs = k ++ r → bytes_ok r.
Proof. intros Hb ->. by apply Forall_app in Hb as [_ Hb]. Qed.

Lemma suffix_len (bs k r : list Z) : bs = k ++ r → len r <= len bs.
Proof. intros ->. rewrite len_app. pose proof (len_nonneg k). lia. Qed.

Lemma safe_uint n bs :
  bytes_ok bs → (0 < n)%nat →
  safe (mlift (decode (A := uint n))) (fun x r => uint_wf x ∧ bytes_ok r ∧ len r < len bs) bs.
Proof.
  intros Hb Hn. unfold safe, mlift, map_err. cbn [decode uint_Codec].
  destruct (Z.ltb_spec (len bs) (Z.of_nat n)); [done|]. split; [exists (take n bs); by rewrite take_drop|].
  split.
  { unfold uint_wf. cbn [uval]. replace (Z.of_nat n) with (len (take n bs)) by (unfold len in *; rewrite length_take; lia).
    apply from_be_range. by apply Forall_take. }
  split; [by apply Forall_drop|]. unfold len in *. rewrite length_drop. lia.
Qed.

Lemma safe_get_var bs :
  bytes_ok bs → safe (mlift get_var) (fun x r => bytes_ok r ∧ len r <= len bs ∧ 0 <= x < 2 ^ 62) bs.
Proof.
  intros Hb. unfold safe, mlift, map_err. destruct (get_var bs) as [[x|] r] eqn:Hg; [|done].
  destruct (get_var_local _ _ _ Hg) as (k & Hk & _). split; [by exists k|].
  split; [by eapply bytes_suffix|]. split; [by eapply suffix_len|]. by eapply get_var_range.
Qed.

Lemma safe_get_cid bs : bytes_ok bs → safe get_cid (fun d r => bytes_ok r ∧ len r <= len bs ∧ cid_wf d) bs.
Proof.
  intros Hb. unfold safe, get_cid. destruct (decode_long_total bs Hb) as ([d|] & r & k & -> & Hk & -> & Hd); [|done].
  split; [exists (takeZ k bs); unfold takeZ, dropZ; by rewrite take_drop|].
  split; [by apply Forall_drop|]. rewrite len_dropZ by lia. split; [lia|done].
Qed.

(** What the decoder needs of a parser of connection ids. *)
Definition cid_parser_ok (p : ConnectionIdParser) : Prop := ∀ bs, bytes_ok bs → safe p (fun d _ => cid_wf d) bs.

Lemma fixed_length_parser_ok n : 0 <= n <= MAX_CID_SIZE → cid_parser_ok (FixedLengthConnectionIdParser n).
Proof.
  intros Hn bs Hb. unfold safe, FixedLengthConnectionIdParser. destruct (Z.leb_spec n (len bs)); [|done].
  destruct (from_buf_ok bs n) as (d & -> & Hd & _); [done..|]. split; [|done].
  exists (takeZ n bs). unfold takeZ, dropZ. by rewrite take_drop.
Qed.

Lemma long_header_type_ok b :
  0 <= b < 256 → Z.land b LONG_HEADER_FORM ≠ 0 → ∃ ty, LongHeaderType_from_byte b = Ret ty.
Proof.
  intros Hb Hl. unfold LongHeaderType_from_byte. apply Z.eqb_neq in Hl. rewrite Hl. cbn [negb rassert mbind M_bind].
  assert (0 <= Z.shiftr (Z.land b 48) 4 < 4).
  { rewrite Z.shiftr_land. change (Z.shiftr 48 4) with (Z.ones 2). rewrite Z.land_ones by lia. apply Z.mod_pos_bound. lia. }
  set (t := Z.shiftr (Z.land b 48) 4) in *.
  destruct (Z.eqb_spec t 0), (Z.eqb_spec t 1), (Z.eqb_spec t 2), (Z.eqb_spec t 3); try (by eexists). lia.
Qed.

(** * The header *)

Definition header_inside (total : Z) (h : ProtectedHeader) (r : list Z) : Prop :=
  len r < total ∧
  match h with
  | PInitial h => 0 <= rstart (token_pos h) <= rend (token_pos h) ∧ rend (token_pos h) <= total - len r ∧ 0 <= pi_len h < 2 ^ 62
  | PLong _ _ _ n _ => 0 <= n < 2 ^ 62
  | _ => True
  end.

Lemma safe_token total dst src version (bs : list Z) :
  bytes_ok bs → len bs < total →
  safe (token_len ← mlift get_var;
        rem ← remaining;
        let token_start := total - rem in
        if rem <? token_len then mfail (InvalidHeader TokenOutOfBounds)
        else
          _ ← skip token_len;
          n ← mlift get_var;
          mret (PInitial (mkProtectedInitialHeader dst src (mkRange token_start (token_start + token_len)) n version)))
    (header_inside total) bs.
Proof.
  intros Hb Ht. apply safe_bind. eapply safe_mono; [by apply safe_get_var|]. intros tl r1 k1 _ (Hb1 & Hl1 & Htl).
  apply safe_bind. apply safe_remaining. cbv zeta. destruct (Z.ltb_spec (len r1) tl); [done|].
  apply safe_bind. unfold safe at 1, skip, advance. destruct (Z.leb_spec tl (len r1)); [|lia].
  split; [exists (takeZ tl r1); unfold takeZ, dropZ; by rewrite take_drop|].
  assert (Hb2 : bytes_ok (dropZ tl r1)) by (by apply Forall_drop).
  apply safe_bind. eapply safe_mono; [by apply safe_get_var|]. intros n r2 k2 _ (Hb3 & Hl2 & Hn).
  rewrite len_dropZ in Hl2 by lia. pose proof (len_nonneg r2).
  apply safe_ret. split; [lia|]. cbn [token_pos rstart rend pi_len]. lia.
Qed.

Lemma header_decode_safe cid_parser versions grease bs :
  cid_parser_ok cid_parser → bytes_ok bs →
  safe (ProtectedHeader_decode (len bs) cid_parser versions grease) (header_inside (len bs)) bs.
Proof.
  intros Hcid Hb. unfold ProtectedHeader_decode. apply safe_bind.
  eapply safe_mono; [apply (safe_uint 1); [done|lia]|]. intros [b] r1 k1 _ (Hw & Hb1 & Hl1). cbn [uval]. cbv zeta.
  destruct (_ && _); [done|]. destruct (Z.eqb_spec (Z.land b LONG_HEADER_FORM) 0) as [|Hform].
  - apply safe_bind. eapply safe_mono; [by apply Hcid|]. intros d r2 k2 Hk2 _. apply safe_ret.
    apply suffix_len in Hk2. split; [lia|done].
  - apply safe_bind. eapply safe_mono; [apply (safe_uint 4); [done|lia]|]. intros v r2 k2 _ (_ & Hb2 & Hl2).
    apply safe_bind. eapply safe_mono; [by apply safe_get_cid|]. intros dst r3 k3 _ (Hb3 & Hl3 & _).
    apply safe_bind. eapply safe_mono; [by apply safe_get_cid|]. intros src r4 k4 _ (Hb4 & Hl4 & _).
    destruct (_ =? 0); [apply safe_ret; split; [lia|done]|]. destruct (negb _); [done|].
    apply safe_bind. destruct (long_header_type_ok b Hw Hform) as [ty Hty]. unfold safe at 1, total. rewrite Hty.
    split; [by exists []|]. destruct ty as [| |ty].
    + apply safe_token; [done|lia].
    + apply safe_ret. split; [lia|done].
    + apply safe_bind. eapply safe_mono; [by apply safe_get_var|]. intros n r5 k5 _ (Hb5 & Hl5 & Hn).
      apply safe_ret. split; [lia|done].
Qed.

(** * The packet *)

(** The cursor is inside the packet, and the token before it. *)
Definition partial_wf (pd : PartialDecode) : Prop :=
  0 < pd_pos pd <= len (pd_buf pd) ∧
  match plain_header pd with
  | PInitial h => 0 <= rstart (token_pos h) <= rend (token_pos h) ∧ rend (token_pos h) <= pd_pos pd
  | _ => True
  end.

Definition new_post (bytes : list Z) (r : result PacketDecodeError (PartialDecode * option (list Z))) : Prop :=
  match r with
  | Err _ => True
  | Ok (pd, rest) =>
      partial_wf pd ∧ bytes = pd_buf pd ++ default [] rest ∧ (∀ r, rest = Some r → len r < len bytes ∧ r ≠ [])
  end.

Lemma partial_new_safe cid_parser versions grease bytes :
  cid_parser_ok cid_parser → bytes_ok bytes → len bytes < 2 ^ 62 →
  ∃ r, PartialDecode_new bytes cid_parser versions grease = Ret r ∧ new_post bytes r.
Proof.
  intros Hcid Hb Hlen. pose proof (header_decode_safe _ versions grease _ Hcid Hb) as Hs. unfold safe in Hs.
  unfold PartialDecode_new. destruct (ProtectedHeader_decode _ _ _ _ bytes) as [[[h|e] r]|]; [|by eexists|done].
  cbn [mbind M_bind]. destruct Hs as [[k Hk] [Hlr Hin]]. pose proof (len_nonneg r).
  set (pos := len bytes - len r) in *.
  assert (Hn : ∃ n, (match payload_len h with Some n => uadd pos n | None => mret (len bytes) end) = Ret n ∧ pos <= n).
  { destruct h as [h|ty d s n v| | |]; cbn [payload_len]; [| |by exists (len bytes); split; [|lia]..];
      (rewrite uadd_ok by (unfold u64_max; lia); eexists; split; [done|lia]). }
  destruct Hn as (n & -> & Hn). cbn [mbind M_bind].
  assert (Hwf : ∀ buf, pos <= len buf → partial_wf (mkPartialDecode h buf pos)).
  { intros buf Hbuf. split; [cbn [pd_pos pd_buf]; lia|]. cbn [plain_header pd_pos]. destruct h; [|done..]. lia. }
  destruct (Z.compare_spec (len bytes) n) as [Heq|Hlt|Hgt]; eexists; (split; [done|]); [|done|].
  - split; [apply Hwf; lia|]. by rewrite app_nil_r.
  - split; [apply Hwf; rewrite len_takeZ; lia|].
    split; [symmetry; apply take_drop|]. intros r' [= <-].
    assert (Hl : len (dropZ n bytes) = len bytes - n) by (rewrite len_dropZ; lia).
    split; [lia|]. intros Hnil. rewrite Hnil in Hl. change (len (@nil Z)) with 0 in Hl. lia.
Qed.

Lemma pn_decode_safe b r :
  4 <= len r → ∃ p, PacketNumber_decode (PacketNumber_decode_len b) r = Ret (Ok p, dropZ (PacketNumber_decode_len b) r) ∧
    1 <= PacketNumber_decode_len b <= 4.
Proof.
  intros Hr. unfold PacketNumber_decode_len. change 3 with (Z.ones 2). rewrite Z.land_ones by lia.
  pose proof (Z.mod_pos_bound b (2 ^ 2) ltac:(lia)) as Hm. change (2 ^ 2) with 4 in *.
  assert (b mod 4 = 0 ∨ b mod 4 = 1 ∨ b mod 4 = 2 ∨ b mod 4 = 3) as [->|[->|[->| ->]]] by lia;
    unfold PacketNumber_decode; cbn [Z.eqb Z.add Pos.add Pos.eqb decode uint_Codec];
    repeat (match goal with |- context [len r <? ?x] => destruct (Z.ltb_spec (len r) x); [unfold len in *; lia|] end);
    eexists; (split; [reflexivity|lia]).
Qed.

(** What [finish] needs of a header key: unmasking keeps the length of the packet. *)
Definition unmask_ok (k : HeaderKey) : Prop := 0 <= sample_size k ∧ ∀ o b, len (hk_decrypt k o b) = len b.

Lemma decrypt_header_safe buf pos k :
  0 < pos <= len buf → unmask_ok k →
  ∃ r, decrypt_header buf pos k = Ret r ∧
    match r with
    | Ok (_, buf', pos') => len buf' = len buf ∧ pos < pos' <= len buf ∧ buf' ≠ []
    | Err _ => True
    end.
Proof.
  intros Hpos [Hss Hlen]. unfold decrypt_header. destruct (Z.ltb_spec (len buf) (pos + 4 + sample_size k)); [by eexists|].
  specialize (Hlen pos buf). destruct (hk_decrypt k pos buf) as [|b buf'].
  { change (len (@nil Z)) with 0 in Hlen. lia. }
  assert (Hd : len (dropZ pos (b :: buf')) = len buf - pos) by (rewrite len_dropZ; lia).
  destruct (pn_decode_safe b (dropZ pos (b :: buf'))) as (p & -> & Hr); [lia|]. cbn [mbind M_bind].
  eexists. split; [done|]. rewrite (len_dropZ (PacketNumber_decode_len b)) by lia. split; [done|]. split; [lia|done].
Qed.

Definition finish_post (buf : list Z) (r : result PacketDecodeError Packet) : Prop :=
  match r with
  | Ok p => len (pk_header_data p) + len (pk_payload p) = len buf ∧ 0 < len (pk_header_data p)
  | Err _ => True
  end.

(** Splitting the packet after its header. *)
Lemma packet_split_safe (header : list Z → M Header) (buf b : list Z) n :
  len b = len buf → 0 < n <= len buf → (∀ hd, len hd = n → ∃ h, header hd = Ret h) →
  ∃ r, ('(header_data, payload) ← split_to n b; h ← header header_data; mret (Ok (mkPacket h header_data payload))) = Ret r ∧
    finish_post buf r.
Proof.
  intros Hb Hn Hh. rewrite split_to_ok by lia. cbn [mbind M_bind].
  destruct (Hh (takeZ n b)) as [h ->]; [rewrite len_takeZ; lia|]. cbn [mbind M_bind]. eexists. split; [done|].
  unfold finish_post. cbn [pk_header_data pk_payload]. rewrite len_takeZ, len_dropZ by lia. lia.
Qed.

Lemma partial_finish_safe pd k :
  partial_wf pd → unmask_ok k → ∃ r, PartialDecode_finish pd (Some k) = Ret r ∧ finish_post (pd_buf pd) r.
Proof.
  destruct pd as [h buf pos]. intros [Hpos Hin] Hk. cbn [pd_buf pd_pos plain_header] in *.
  destruct (decrypt_header_safe buf pos k Hpos Hk) as (r & Hr & Hpost).
  assert (Hprot : ∀ header : PacketNumber → list Z → list Z → M Header,
    (∀ number b hd, b ≠ [] → pos < len hd → ∃ h, header number b hd = Ret h) →
    ∃ r', (r ← decrypt_header buf pos k;
           match r with
           | Err e => mret (Err e)
           | Ok (number, buf, pos) =>
               '(header_data, payload) ← split_to pos buf;
               h ← header number buf header_data;
               mret (Ok (mkPacket h header_data payload))
           end) = Ret r' ∧ finish_post buf r').
  { intros header Hh. rewrite Hr. cbn [mbind M_bind]. destruct r as [[[p b] pos']|e]; [|by eexists].
    destruct Hpost as (Hl & Hp & Hne). apply (packet_split_safe (header p b)); [done|lia|]. intros hd Hhd. apply Hh; [done|lia]. }
  unfold PartialDecode_finish. cbn [plain_header pd_buf pd_pos unwrap_key].
  destruct h as [[dst src tp n v]|ty dst src n v|dst src v|spin dst|rnd dst src]; cbn [token_pos] in Hin.
  - apply (Hprot (fun number _ hd => token ← slice hd tp; mret (HInitial (mkInitialHeader dst src token number v)))).
    intros number b hd _ Hhd. unfold slice. rewrite (proj2 (Z.leb_le _ _)), (proj2 (Z.leb_le _ _)) by lia. by eexists.
  - apply (Hprot (fun number _ _ => mret (HLong ty dst src number v))). intros number b hd _ _. by eexists.
  - apply (packet_split_safe (fun _ => mret (HRetry dst src v))); [done|done|]. intros hd _. by eexists.
  - apply (Hprot (fun number buf _ => match buf with
        | b :: _ => mret (HShort spin (negb (Z.land b KEY_PHASE_BIT =? 0)) dst number) | [] => Panic end)).
    intros number [|b0 b] hd Hb _; [done|]. by eexists.
  - apply (packet_split_safe (fun _ => mret (HVersionNegotiate rnd src dst))); [done|done|]. intros hd _. by eexists.
Qed.

(** * Datagrams of several packets *)

(** The loop of [Connection::handle_coalesced] over the state [S] of a connection. The handler of a
    packet may change everything the loop reads. *)
Section Coalesced.
Context {S : Type} (cid_len_of : S → Z) (version_of : S → Z) (grease_of : S → bool).
Context (handle_decode : S → PartialDecode → M S).

(** [None] when the fuel runs out. *)
Fixpoint handle_coalesced (fuel : nat) (s : S) (remaining : option (list Z)) : M (option S) :=
  match remaining with
  | None => mret (Some s)
  | Some data =>
      match fuel with
      | O => mret None
      | Datatypes.S fuel =>
          r ← PartialDecode_new data (FixedLengthConnectionIdParser (cid_len_of s)) [version_of s] (grease_of s);
          match r with
          | Ok (partial_decode, rest) => s ← handle_decode s partial_decode; handle_coalesced fuel s rest
          | Err _ => mret (Some s)
          end
      end
  end.

(** The packets of a datagram are handled one after the other. *)
Fixpoint handle_all (s : S) (pds : list PartialDecode) : M S :=
  match pds with [] => mret s | pd :: pds => s ← handle_decode s pd; handle_all s pds end.

Definition handler_ok (s_ok : S → Prop) : Prop :=
  (∀ s, s_ok s → 0 <= cid_len_of s <= MAX_CID_SIZE) ∧
  (∀ s pd, s_ok s → partial_wf pd → ∃ s', handle_decode s pd = Ret s' ∧ s_ok s').

Lemma handle_coalesced_ends s_ok fuel data s :
  handler_ok s_ok → s_ok s → bytes_ok data → len data < 2 ^ 62 → len data <= Z.of_nat fuel →
  ∃ s' pds tail, handle_coalesced (Datatypes.S fuel) s (Some data) = Ret (Some s') ∧ handle_all s pds = Ret s' ∧
    data = concat (map pd_buf pds) ++ tail ∧ Forall partial_wf pds ∧ s_ok s'.
Proof.
  intros [Hcid Hh]. revert data s. induction fuel as [|fuel IH]; intros data s Hs Hb Hl Hf;
    destruct (partial_new_safe (FixedLengthConnectionIdParser (cid_len_of s)) [version_of s] (grease_of s) data
      ltac:(by apply fixed_length_parser_ok, Hcid) Hb Hl) as (r & Hr & Hpost);
    cbn [handle_coalesced]; rewrite Hr; cbn [mbind M_bind];
    (destruct r as [[pd rest]|e]; [|exists s, [], data; done]); destruct Hpost as (Hpd & Hdata & Hrest).
  - destruct Hpd as [Hpos _]. pose proof (len_nonneg (default [] rest)). rewrite Hdata, len_app in Hf. lia.
  - destruct (Hh s pd Hs Hpd) as (s1 & Hs1 & Hok1). rewrite Hs1. cbn [mbind M_bind].
    destruct rest as [rest|]; cbn [default] in Hdata.
    + destruct (Hrest rest eq_refl) as [Hlt _].
      destruct (IH rest s1) as (s' & pds & tail & Hrun & Hall & Hconc & Hwf & Hok'); try done; [|lia..|].
      { eapply bytes_suffix; [exact Hb|exact Hdata]. }
      exists s', (pd :: pds), tail. cbn [handle_coalesced] in Hrun. split; [exact Hrun|].
      cbn [handle_all map concat]. rewrite Hs1. split; [exact Hall|]. split; [by rewrite <- app_assoc, <- Hconc|].
      split; [by constructor|done].
    + exists s1, [pd], []. cbn [handle_all map concat]. rewrite Hs1. rewrite !app_nil_r in *.
      split; [by destruct fuel|]. split; [done|]. split; [done|]. split; [by apply Forall_singleton|done].
Qed.

End Coalesced.

(** * Properties *)

(** C32: whatever bytes arrive, splitting a packet from a datagram and removing its header protection
    return a value or an error, never a panic: the packet is a non-empty prefix of the datagram, the
    token lies before the packet number, and header and payload make up the whole packet. *)
Theorem packet_decode_safe cid_parser versions grease bytes k :
  cid_parser_ok cid_parser → bytes_ok bytes → len bytes < 2 ^ 62 → unmask_ok k →
  ∃ r, PartialDecode_new bytes cid_parser versions grease = Ret r ∧ new_post bytes r ∧
    ∀ pd rest, r = Ok (pd, rest) → ∃ p, PartialDecode_finish pd (Some k) = Ret p ∧ finish_post (pd_buf pd) p.
Proof.
  intros Hcid Hb Hl Hk. destruct (partial_new_safe cid_parser versions grease bytes Hcid Hb Hl) as (r & Hr & Hpost).
  exists r. split; [done|]. split; [done|]. intros pd rest ->. destruct Hpost as [Hpd _]. by apply partial_finish_safe.
Qed.

Lemma packet_decode_safe_witness :
  ∃ r, PartialDecode_new [192; 0; 0; 0; 1; 0; 0; 2; 5; 6; 1; 9; 64; 1; 2] (FixedLengthConnectionIdParser 8) [1] false = Ret r ∧
    new_post [192; 0; 0; 0; 1; 0; 0; 2; 5; 6; 1; 9; 64; 1; 2] r ∧
    ∀ pd rest, r = Ok (pd, rest) →
      ∃ p, PartialDecode_finish pd (Some (mkHeaderKey 16 (fun _ b => b) (fun _ b => b))) = Ret p ∧ finish_post (pd_buf pd) p.
Proof.
  apply packet_decode_safe; [apply fixed_length_parser_ok; unfold MAX_CID_SIZE; lia|repeat (apply Forall_cons; split; [lia|]); by apply Forall_nil|by vm_compute|].
  split; [done|by intros].
Defined.

(** The loop over the packets of a received datagram ends after at most one turn per byte, does not panic
    when the handler does not, and handles exactly the packets the datagram starts with, in their order, up
    to the first undecodable one. *)
Theorem handle_coalesced_terminates {S} (cid_len_of version_of : S → Z) grease_of handle_decode s_ok data (s : S) :
  handler_ok cid_len_of handle_decode s_ok → s_ok s → bytes_ok data → len data < 2 ^ 62 →
  ∃ s' pds tail,
    handle_coalesced cid_len_of version_of grease_of handle_decode (Datatypes.S (length data)) s (Some data) = Ret (Some s') ∧
    handle_all handle_decode s pds = Ret s' ∧ data = concat (map pd_buf pds) ++ tail ∧ Forall partial_wf pds ∧ s_ok s'.
Proof. intros. apply handle_coalesced_ends; done. Qed.

Lemma handle_coalesced_terminates_witness :
  let data := [64; 1; 2; 3; 9; 9] in
  ∃ s' pds tail,
    handle_coalesced (fun _ => 3) (fun _ => 1) (fun _ => false) (fun n _ => Ret (n + 1)) 7 0 (Some data) = Ret (Some s') ∧
    handle_all (fun n _ => Ret (n + 1)) 0 pds = Ret s' ∧ data = concat (map pd_buf pds) ++ tail ∧
    Forall partial_wf pds ∧ 0 <= s'.
Proof.
  intros data. apply (handle_coalesced_terminates (fun _ => 3) (fun _ => 1) (fun _ => false) (fun n _ => Ret (n + 1)) (Z.le 0) data 0);
    [|lia|repeat (apply Forall_cons; split; [lia|]); by apply Forall_nil|by vm_compute].
  split; [unfold MAX_CID_SIZE; lia|]. intros n pd Hn _. exists (n + 1). split; [done|lia].
Defined.
