(* ===== verification/Float.v ===== *)
(** Floating-point arithmetic the way the Rust language defines it: IEEE 754 binary32 and
    binary64 with rounding to nearest, ties to even, on the [spec_float] of the
    standard library, and the conversions and [Duration] functions the sources use. *)
From Stdlib Require Import SpecFloat.
From S2P Require Import Prelude.

Record format : Type := mkFormat { prec : Z; emax : Z }.
Definition f32 : format := mkFormat 24 128.
Definition f64 : format := mkFormat 53 1024.

(** * Arithmetic *)

Definition fmul (f : format) (x y : spec_float) : spec_float := SFmul (prec f) (emax f) x y.
Definition fdiv (f : format) (x y : spec_float) : spec_float := SFdiv (prec f) (emax f) x y.
Definition fadd (f : format) (x y : spec_float) : spec_float := SFadd (prec f) (emax f) x y.
Definition fsub (f : format) (x y : spec_float) : spec_float := SFsub (prec f) (emax f) x y.

(** [n as f32] and [n as f64]. *)
Definition of_int (f : format) (n : Z) : spec_float := binary_normalize (prec f) (emax f) n 0 false.

(** The literal [m / 10 ^ d]; correctly rounded when both are exact, as for the literals of the sources. *)
Definition decimal (f : format) (m d : Z) : spec_float := fdiv f (of_int f m) (of_int f (10 ^ d)).

(** [x as u64]: towards zero, saturating, and 0 for a NaN. *)
Definition to_u64 (x : spec_float) : Z :=
  match x with
  | S754_finite false m e => Z.min u64_max (if 0 <=? e then Z.pos m * 2 ^ e else Z.pos m / 2 ^ (- e))
  | S754_infinity false => u64_max
  | _ => 0
  end.

(** [x.round()]: to the nearest integer, ties away from zero. *)
Definition fround (f : format) (x : spec_float) : spec_float :=
  match x with
  | S754_finite s m e =>
      if 0 <=? e then x
      else
        let r := (Z.pos m + 2 ^ (- e - 1)) / 2 ^ (- e) in
        binary_normalize (prec f) (emax f) (if s then - r else r) 0 s
  | x => x
  end.

(** [x > y]. *)
Definition fgt (x y : spec_float) : bool := SFltb y x.

(** * Durations in nanoseconds *)

Definition NANOS_PER_SEC : Z := 10 ^ 9.

(** [Duration::as_secs_f32] and [as_secs_f64]. *)
Definition as_secs (f : format) (d : Z) : spec_float :=
  fadd f (of_int f (d / NANOS_PER_SEC)) (fdiv f (of_int f (d mod NANOS_PER_SEC)) (of_int f NANOS_PER_SEC)).

(** [n / d] rounded to the nearest integer, ties to even. *)
Definition div_half_even (n d : Z) : Z :=
  let q := n / d in
  let r := n mod d in
  if (2 * r <? d) || (2 * r =? d) && Z.even q then q else q + 1.

(** [Duration::from_secs_f32]: panics on a negative value, on a NaN, and above [2 ^ 64] seconds. *)
Definition from_secs (x : spec_float) : M Z :=
  match x with
  | S754_zero _ => mret 0
  | S754_finite false m e =>
      let ns := if 0 <=? e then Z.pos m * 2 ^ e * NANOS_PER_SEC else div_half_even (Z.pos m * NANOS_PER_SEC) (2 ^ (- e)) in
      _ ← rassert (ns <? 2 ^ 64 * NANOS_PER_SEC);
      mret ns
  | _ => Panic
  end.

(** [Duration::mul_f32]. *)
Definition mul_f32 (d : Z) (x : spec_float) : M Z := from_secs (fmul f32 x (as_secs f32 d)).

(** Proofs do not look into the arithmetic. *)
#[global] Arguments fmul f x y : simpl never.
#[global] Arguments fdiv f x y : simpl never.
#[global] Arguments fadd f x y : simpl never.
#[global] Arguments fsub f x y : simpl never.
#[global] Arguments of_int f n : simpl never.
#[global] Arguments decimal f m d : simpl never.
#[global] Arguments to_u64 x : simpl never.
#[global] Arguments as_secs f d : simpl never.

(** * Lemmas *)

Lemma to_u64_range x : 0 <= to_u64 x <= u64_max.
Proof.
  unfold to_u64. destruct x as [s|[]| |[] m e]; try (unfold u64_max; lia).
  split; [|apply Z.le_min_l]. apply Z.min_glb; [unfold u64_max; lia|].
  destruct (Z.leb_spec 0 e); [lia|]. apply Z.div_pos; lia.
Qed.

Lemma div_half_even_nonneg n d : 0 <= n → 0 < d → 0 <= div_half_even n d.
Proof.
  intros Hn Hd. unfold div_half_even. pose proof (Z.div_pos n d Hn Hd). destruct (_ || _); lia.
Qed.

Lemma mul_f32_nonneg d x y : mul_f32 d x = Ret y → 0 <= y.
Proof.
  unfold mul_f32, from_secs. destruct (fmul f32 x (as_secs f32 d)) as [s|s| |[] m e]; try discriminate.
  - by intros [= <-].
  - set (ns := if 0 <=? e then _ else _). unfold rassert. destruct (ns <? _); [|discriminate]. intros [= <-]. unfold ns.
    destruct (Z.leb_spec 0 e); [unfold NANOS_PER_SEC; lia|]. apply div_half_even_nonneg; [unfold NANOS_PER_SEC; lia|].
    apply Z.pow_pos_nonneg; lia.
Qed.

(** Nine eighths of 100 ms, the default loss delay. *)
Lemma mul_f32_example : mul_f32 (100 * 10 ^ 6) (decimal f32 1125 3) = Ret 112500004.
Proof. vm_compute. reflexivity. Qed.
