(* ===== verification/TransportParams.v ===== *)
(** Transport parameters: [quic-proto/src/transport_parameters.rs].

    A [VarInt] field is its value.  The random choices of [TransportParameters::new] are
    arguments. *)
From S2P Require Import Prelude Coding Ids Shared Packet.

(** * Types *)

Record SocketAddrV4 : Type := mkSocketAddrV4 { v4_ip : list Z; v4_port : Z }.
Record SocketAddrV6 : Type := mkSocketAddrV6 { v6_ip : list Z; v6_port : Z; v6_flowinfo : Z; v6_scope_id : Z }.

Record PreferredAddress : Type := mkPreferredAddress {
  address_v4 : option SocketAddrV4;
  address_v6 : option SocketAddrV6;
  pa_connection_id : ConnectionId;
  pa_stateless_reset_token : ResetToken
}.

Definition MAX_PAYLOAD_LEN : Z := 16.
Record ReservedTransportParameter : Type := mkReserved { rp_id : Z; rp_payload : list Z; rp_payload_len : Z }.

Record TransportParameters : Type := mkTransportParameters {
  max_idle_timeout : Z;
  max_udp_payload_size : Z;
  initial_max_data : Z;
  initial_max_stream_data_bidi_local : Z;
  initial_max_stream_data_bidi_remote : Z;
  initial_max_stream_data_uni : Z;
  initial_max_streams_bidi : Z;
  initial_max_streams_uni : Z;
  ack_delay_exponent : Z;
  max_ack_delay : Z;
  active_connection_id_limit : Z;
  disable_active_migration : bool;
  max_datagram_frame_size : option Z;
  initial_src_cid : option ConnectionId;
  grease_quic_bit : bool;
  min_ack_delay : option Z;
  original_dst_cid : option ConnectionId;
  retry_src_cid : option ConnectionId;
  stateless_reset_token : option ResetToken;
  preferred_address : option PreferredAddress;
  grease_transport_parameter : option ReservedTransportParameter;
  write_order : option (list Z)
}.

Definition TransportParameters_default : TransportParameters :=
  mkTransportParameters 0 65527 0 0 0 0 0 0 3 25 2 false None None false None None None None None None None.

Inductive TransportParameterId : Type :=
| OriginalDestinationConnectionId | MaxIdleTimeout | StatelessResetTokenId | MaxUdpPayloadSize | InitialMaxData
| InitialMaxStreamDataBidiLocal | InitialMaxStreamDataBidiRemote | InitialMaxStreamDataUni | InitialMaxStreamsBidi
| InitialMaxStreamsUni | AckDelayExponent | MaxAckDelay | DisableActiveMigration | PreferredAddressId
| ActiveConnectionIdLimit | InitialSourceConnectionId | RetrySourceConnectionId | ReservedTransportParameterId
| MaxDatagramFrameSize | GreaseQuicBit | MinAckDelayDraft07.
#[global] Instance TransportParameterId_eq_dec : EqDecision TransportParameterId.
Proof. solve_decision. Defined.

(** [id as u64]. *)
Definition id_code (id : TransportParameterId) : Z :=
  match id with
  | OriginalDestinationConnectionId => 0 | MaxIdleTimeout => 1 | StatelessResetTokenId => 2 | MaxUdpPayloadSize => 3
  | InitialMaxData => 4 | InitialMaxStreamDataBidiLocal => 5 | InitialMaxStreamDataBidiRemote => 6
  | InitialMaxStreamDataUni => 7 | InitialMaxStreamsBidi => 8 | InitialMaxStreamsUni => 9 | AckDelayExponent => 10
  | MaxAckDelay => 11 | DisableActiveMigration => 12 | PreferredAddressId => 13 | ActiveConnectionIdLimit => 14
  | InitialSourceConnectionId => 15 | RetrySourceConnectionId => 16 | ReservedTransportParameterId => 27
  | MaxDatagramFrameSize => 32 | GreaseQuicBit => 10930 | MinAckDelayDraft07 => 4278509083
  end.

Definition SUPPORTED : list TransportParameterId :=
  [ MaxIdleTimeout; MaxUdpPayloadSize; InitialMaxData; InitialMaxStreamDataBidiLocal; InitialMaxStreamDataBidiRemote;
    InitialMaxStreamDataUni; InitialMaxStreamsBidi; InitialMaxStreamsUni; AckDelayExponent; MaxAckDelay;
    ActiveConnectionIdLimit; ReservedTransportParameterId; StatelessResetTokenId; DisableActiveMigration;
    MaxDatagramFrameSize; PreferredAddressId; OriginalDestinationConnectionId; InitialSourceConnectionId;
    RetrySourceConnectionId; GreaseQuicBit; MinAckDelayDraft07 ].

(** [TryFrom<u64>]: the match goes through the supported parameters. *)
Definition id_try_from (value : Z) : option TransportParameterId := find (fun id => id_code id =? value) SUPPORTED.

Inductive ParamError : Type := IllegalValue | MalformedParams.
Definition ParamError_error (_ : ParamError) : TransportError := mkTransportError TRANSPORT_PARAMETER_ERROR.

(** * Field updates *)

Definition set_max_idle_timeout (p : TransportParameters) (v : Z) : TransportParameters :=
  mkTransportParameters v (max_udp_payload_size p) (initial_max_data p) (initial_max_stream_data_bidi_local p)
    (initial_max_stream_data_bidi_remote p) (initial_max_stream_data_uni p) (initial_max_streams_bidi p)
    (initial_max_streams_uni p) (ack_delay_exponent p) (max_ack_delay p) (active_connection_id_limit p)
    (disable_active_migration p) (max_datagram_frame_size p) (initial_src_cid p) (grease_quic_bit p)
    (min_ack_delay p) (original_dst_cid p) (retry_src_cid p) (stateless_reset_token p) (preferred_address p)
    (grease_transport_parameter p) (write_order p).
Definition set_max_udp_payload_size (p : TransportParameters) (v : Z) : TransportParameters :=
  mkTransportParameters (max_idle_timeout p) v (initial_max_data p) (initial_max_stream_data_bidi_local p)
    (initial_max_stream_data_bidi_remote p) (initial_max_stream_data_uni p) (initial_max_streams_bidi p)
    (initial_max_streams_uni p) (ack_delay_exponent p) (max_ack_delay p) (active_connection_id_limit p)
    (disable_active_migration p) (max_datagram_frame_size p) (initial_src_cid p) (grease_quic_bit p)
    (min_ack_delay p) (original_dst_cid p) (retry_src_cid p) (stateless_reset_token p) (preferred_address p)
    (grease_transport_parameter p) (write_order p).
Definition set_initial_max_data (p : TransportParameters) (v : Z) : TransportParameters :=
  mkTransportParameters (max_idle_timeout p) (max_udp_payload_size p) v (initial_max_stream_data_bidi_local p)
    (initial_max_stream_data_bidi_remote p) (initial_max_stream_data_uni p) (initial_max_streams_bidi p)
    (initial_max_streams_uni p) (ack_delay_exponent p) (max_ack_delay p) (active_connection_id_limit p)
    (disable_active_migration p) (max_datagram_frame_size p) (initial_src_cid p) (grease_quic_bit p)
    (min_ack_delay p) (original_dst_cid p) (retry_src_cid p) (stateless_reset_token p) (preferred_address p)
    (grease_transport_parameter p) (write_order p).
Definition set_initial_max_stream_data_bidi_local (p : TransportParameters) (v : Z) : TransportParameters :=
  mkTransportParameters (max_idle_timeout p) (max_udp_payload_size p) (initial_max_data p) v
    (initial_max_stream_data_bidi_remote p) (initial_max_stream_data_uni p) (initial_max_streams_bidi p)
    (initial_max_streams_uni p) (ack_delay_exponent p) (max_ack_delay p) (active_connection_id_limit p)
    (disable_active_migration p) (max_datagram_frame_size p) (initial_src_cid p) (grease_quic_bit p)
    (min_ack_delay p) (original_dst_cid p) (retry_src_cid p) (stateless_reset_token p) (preferred_address p)
    (grease_transport_parameter p) (write_order p).
Definition set_initial_max_stream_data_bidi_remote (p : TransportParameters) (v : Z) : TransportParameters :=
  mkTransportParameters (max_idle_timeout p) (max_udp_payload_size p) (initial_max_data p)
    (initial_max_stream_data_bidi_local p) v (initial_max_stream_data_uni p) (initial_max_streams_bidi p)
    (initial_max_streams_uni p) (ack_delay_exponent p) (max_ack_delay p) (active_connection_id_limit p)
    (disable_active_migration p) (max_datagram_frame_size p) (initial_src_cid p) (grease_quic_bit p)
    (min_ack_delay p) (original_dst_cid p) (retry_src_cid p) (stateless_reset_token p) (preferred_address p)
    (grease_transport_parameter p) (write_order p).
Definition set_initial_max_stream_data_uni (p : TransportParameters) (v : Z) : TransportParameters :=
  mkTransportParameters (max_idle_timeout p) (max_udp_payload_size p) (initial_max_data p)
    (initial_max_stream_data_bidi_local p) (initial_max_stream_data_bidi_remote p) v
    (initial_max_streams_bidi p) (initial_max_streams_uni p) (ack_delay_exponent p) (max_ack_delay p)
    (active_connection_id_limit p) (disable_active_migration p) (max_datagram_frame_size p) (initial_src_cid p)
    (grease_quic_bit p) (min_ack_delay p) (original_dst_cid p) (retry_src_cid p) (stateless_reset_token p)
    (preferred_address p) (grease_transport_parameter p) (write_order p).
Definition set_initial_max_streams_bidi (p : TransportParameters) (v : Z) : TransportParameters :=
  mkTransportParameters (max_idle_timeout p) (max_udp_payload_size p) (initial_max_data p)
    (initial_max_stream_data_bidi_local p) (initial_max_stream_data_bidi_remote p)
    (initial_max_stream_data_uni p) v (initial_max_streams_uni p) (ack_delay_exponent p) (max_ack_delay p)
    (active_connection_id_limit p) (disable_active_migration p) (max_datagram_frame_size p) (initial_src_cid p)
    (grease_quic_bit p) (min_ack_delay p) (original_dst_cid p) (retry_src_cid p) (stateless_reset_token p)
    (preferred_address p) (grease_transport_parameter p) (write_order p).
Definition set_initial_max_streams_uni (p : TransportParameters) (v : Z) : TransportParameters :=
  mkTransportParameters (max_idle_timeout p) (max_udp_payload_size p) (initial_max_data p)
    (initial_max_stream_data_bidi_local p) (initial_max_stream_data_bidi_remote p)
    (initial_max_stream_data_uni p) (initial_max_streams_bidi p) v (ack_delay_exponent p) (max_ack_delay p)
    (active_connection_id_limit p) (disable_active_migration p) (max_datagram_frame_size p) (initial_src_cid p)
    (grease_quic_bit p) (min_ack_delay p) (original_dst_cid p) (retry_src_cid p) (stateless_reset_token p)
    (preferred_address p) (grease_transport_parameter p) (write_order p).
Definition set_ack_delay_exponent (p : TransportParameters) (v : Z) : TransportParameters :=
  mkTransportParameters (max_idle_timeout p) (max_udp_payload_size p) (initial_max_data p)
    (initial_max_stream_data_bidi_local p) (initial_max_stream_data_bidi_remote p)
    (initial_max_stream_data_uni p) (initial_max_streams_bidi p) (initial_max_streams_uni p) v (max_ack_delay p)
    (active_connection_id_limit p) (disable_active_migration p) (max_datagram_frame_size p) (initial_src_cid p)
    (grease_quic_bit p) (min_ack_delay p) (original_dst_cid p) (retry_src_cid p) (stateless_reset_token p)
    (preferred_address p) (grease_transport_parameter p) (write_order p).
Definition set_max_ack_delay (p : TransportParameters) (v : Z) : TransportParameters :=
  mkTransportParameters (max_idle_timeout p) (max_udp_payload_size p) (initial_max_data p)
    (initial_max_stream_data_bidi_local p) (initial_max_stream_data_bidi_remote p)
    (initial_max_stream_data_uni p) (initial_max_streams_bidi p) (initial_max_streams_uni p)
    (ack_delay_exponent p) v (active_connection_id_limit p) (disable_active_migration p)
    (max_datagram_frame_size p) (initial_src_cid p) (grease_quic_bit p) (min_ack_delay p) (original_dst_cid p)
    (retry_src_cid p) (stateless_reset_token p) (preferred_address p) (grease_transport_parameter p)
    (write_order p).
Definition set_active_connection_id_limit (p : TransportParameters) (v : Z) : TransportParameters :=
  mkTransportParameters (max_idle_timeout p) (max_udp_payload_size p) (initial_max_data p)
    (initial_max_stream_data_bidi_local p) (initial_max_stream_data_bidi_remote p)
    (initial_max_stream_data_uni p) (initial_max_streams_bidi p) (initial_max_streams_uni p)
    (ack_delay_exponent p) (max_ack_delay p) v (disable_active_migration p) (max_datagram_frame_size p)
    (initial_src_cid p) (grease_quic_bit p) (min_ack_delay p) (original_dst_cid p) (retry_src_cid p)
    (stateless_reset_token p) (preferred_address p) (grease_transport_parameter p) (write_order p).
Definition set_disable_active_migration (p : TransportParameters) (v : bool) : TransportParameters :=
  mkTransportParameters (max_idle_timeout p) (max_udp_payload_size p) (initial_max_data p)
    (initial_max_stream_data_bidi_local p) (initial_max_stream_data_bidi_remote p)
    (initial_max_stream_data_uni p) (initial_max_streams_bidi p) (initial_max_streams_uni p)
    (ack_delay_exponent p) (max_ack_delay p) (active_connection_id_limit p) v (max_datagram_frame_size p)
    (initial_src_cid p) (grease_quic_bit p) (min_ack_delay p) (original_dst_cid p) (retry_src_cid p)
    (stateless_reset_token p) (preferred_address p) (grease_transport_parameter p) (write_order p).
Definition set_max_datagram_frame_size (p : TransportParameters) (v : option Z) : TransportParameters :=
  mkTransportParameters (max_idle_timeout p) (max_udp_payload_size p) (initial_max_data p)
    (initial_max_stream_data_bidi_local p) (initial_max_stream_data_bidi_remote p)
    (initial_max_stream_data_uni p) (initial_max_streams_bidi p) (initial_max_streams_uni p)
    (ack_delay_exponent p) (max_ack_delay p) (active_connection_id_limit p) (disable_active_migration p) v
    (initial_src_cid p) (grease_quic_bit p) (min_ack_delay p) (original_dst_cid p) (retry_src_cid p)
    (stateless_reset_token p) (preferred_address p) (grease_transport_parameter p) (write_order p).
Definition set_initial_src_cid (p : TransportParameters) (v : option ConnectionId) : TransportParameters :=
  mkTransportParameters (max_idle_timeout p) (max_udp_payload_size p) (initial_max_data p)
    (initial_max_stream_data_bidi_local p) (initial_max_stream_data_bidi_remote p)
    (initial_max_stream_data_uni p) (initial_max_streams_bidi p) (initial_max_streams_uni p)
    (ack_delay_exponent p) (max_ack_delay p) (active_connection_id_limit p) (disable_active_migration p)
    (max_datagram_frame_size p) v (grease_quic_bit p) (min_ack_delay p) (original_dst_cid p) (retry_src_cid p)
    (stateless_reset_token p) (preferred_address p) (grease_transport_parameter p) (write_order p).
Definition set_grease_quic_bit (p : TransportParameters) (v : bool) : TransportParameters :=
  mkTransportParameters (max_idle_timeout p) (max_udp_payload_size p) (initial_max_data p)
    (initial_max_stream_data_bidi_local p) (initial_max_stream_data_bidi_remote p)
    (initial_max_stream_data_uni p) (initial_max_streams_bidi p) (initial_max_streams_uni p)
    (ack_delay_exponent p) (max_ack_delay p) (active_connection_id_limit p) (disable_active_migration p)
    (max_datagram_frame_size p) (initial_src_cid p) v (min_ack_delay p) (original_dst_cid p) (retry_src_cid p)
    (stateless_reset_token p) (preferred_address p) (grease_transport_parameter p) (write_order p).
Definition set_min_ack_delay (p : TransportParameters) (v : option Z) : TransportParameters :=
  mkTransportParameters (max_idle_timeout p) (max_udp_payload_size p) (initial_max_data p)
    (initial_max_stream_data_bidi_local p) (initial_max_stream_data_bidi_remote p)
    (initial_max_stream_data_uni p) (initial_max_streams_bidi p) (initial_max_streams_uni p)
    (ack_delay_exponent p) (max_ack_delay p) (active_connection_id_limit p) (disable_active_migration p)
    (max_datagram_frame_size p) (initial_src_cid p) (grease_quic_bit p) v (original_dst_cid p) (retry_src_cid p)
    (stateless_reset_token p) (preferred_address p) (grease_transport_parameter p) (write_order p).
Definition set_original_dst_cid (p : TransportParameters) (v : option ConnectionId) : TransportParameters :=
  mkTransportParameters (max_idle_timeout p) (max_udp_payload_size p) (initial_max_data p)
    (initial_max_stream_data_bidi_local p) (initial_max_stream_data_bidi_remote p)
    (initial_max_stream_data_uni p) (initial_max_streams_bidi p) (initial_max_streams_uni p)
    (ack_delay_exponent p) (max_ack_delay p) (active_connection_id_limit p) (disable_active_migration p)
    (max_datagram_frame_size p) (initial_src_cid p) (grease_quic_bit p) (min_ack_delay p) v (retry_src_cid p)
    (stateless_reset_token p) (preferred_address p) (grease_transport_parameter p) (write_order p).
Definition set_retry_src_cid (p : TransportParameters) (v : option ConnectionId) : TransportParameters :=
  mkTransportParameters (max_idle_timeout p) (max_udp_payload_size p) (initial_max_data p)
    (initial_max_stream_data_bidi_local p) (initial_max_stream_data_bidi_remote p)
    (initial_max_stream_data_uni p) (initial_max_streams_bidi p) (initial_max_streams_uni p)
    (ack_delay_exponent p) (max_ack_delay p) (active_connection_id_limit p) (disable_active_migration p)
    (max_datagram_frame_size p) (initial_src_cid p) (grease_quic_bit p) (min_ack_delay p) (original_dst_cid p) v
    (stateless_reset_token p) (preferred_address p) (grease_transport_parameter p) (write_order p).
Definition set_stateless_reset_token (p : TransportParameters) (v : option ResetToken) : TransportParameters :=
  mkTransportParameters (max_idle_timeout p) (max_udp_payload_size p) (initial_max_data p)
    (initial_max_stream_data_bidi_local p) (initial_max_stream_data_bidi_remote p)
    (initial_max_stream_data_uni p) (initial_max_streams_bidi p) (initial_max_streams_uni p)
    (ack_delay_exponent p) (max_ack_delay p) (active_connection_id_limit p) (disable_active_migration p)
    (max_datagram_frame_size p) (initial_src_cid p) (grease_quic_bit p) (min_ack_delay p) (original_dst_cid p)
    (retry_src_cid p) v (preferred_address p) (grease_transport_parameter p) (write_order p).
Definition set_preferred_address (p : TransportParameters) (v : option PreferredAddress) : TransportParameters :=
  mkTransportParameters (max_idle_timeout p) (max_udp_payload_size p) (initial_max_data p)
    (initial_max_stream_data_bidi_local p) (initial_max_stream_data_bidi_remote p)
    (initial_max_stream_data_uni p) (initial_max_streams_bidi p) (initial_max_streams_uni p)
    (ack_delay_exponent p) (max_ack_delay p) (active_connection_id_limit p) (disable_active_migration p)
    (max_datagram_frame_size p) (initial_src_cid p) (grease_quic_bit p) (min_ack_delay p) (original_dst_cid p)
    (retry_src_cid p) (stateless_reset_token p) v (grease_transport_parameter p) (write_order p).

(** * Integer parameters *)

(** A line of [apply_params!]. *)
Record IntParam : Type := mkIntParam {
  ip_get : TransportParameters → Z; ip_set : TransportParameters → Z → TransportParameters; ip_default : Z }.

Definition int_param (id : TransportParameterId) : option IntParam :=
  match id with
  | MaxIdleTimeout => Some (mkIntParam max_idle_timeout set_max_idle_timeout 0)
  | MaxUdpPayloadSize => Some (mkIntParam max_udp_payload_size set_max_udp_payload_size 65527)
  | InitialMaxData => Some (mkIntParam initial_max_data set_initial_max_data 0)
  | InitialMaxStreamDataBidiLocal =>
      Some (mkIntParam initial_max_stream_data_bidi_local set_initial_max_stream_data_bidi_local 0)
  | InitialMaxStreamDataBidiRemote =>
      Some (mkIntParam initial_max_stream_data_bidi_remote set_initial_max_stream_data_bidi_remote 0)
  | InitialMaxStreamDataUni => Some (mkIntParam initial_max_stream_data_uni set_initial_max_stream_data_uni 0)
  | InitialMaxStreamsBidi => Some (mkIntParam initial_max_streams_bidi set_initial_max_streams_bidi 0)
  | InitialMaxStreamsUni => Some (mkIntParam initial_max_streams_uni set_initial_max_streams_uni 0)
  | AckDelayExponent => Some (mkIntParam ack_delay_exponent set_ack_delay_exponent 3)
  | MaxAckDelay => Some (mkIntParam max_ack_delay set_max_ack_delay 25)
  | ActiveConnectionIdLimit => Some (mkIntParam active_connection_id_limit set_active_connection_id_limit 2)
  | _ => None
  end.

(** * Writing *)

Definition put (bs : list Z) : M (list Z) := Ret bs.

Definition wire_size (a : PreferredAddress) : Z := 4 + 2 + 16 + 2 + 1 + len (cid_bytes (pa_connection_id a)) + 16.

Definition write_preferred (a : PreferredAddress) : M (list Z) :=
  put (match address_v4 a with Some x => v4_ip x | None => replicate 4 0 end) ⧺
  put (be_bytes 2 (match address_v4 a with Some x => v4_port x | None => 0 end)) ⧺
  put (match address_v6 a with Some x => v6_ip x | None => replicate 16 0 end) ⧺
  put (be_bytes 2 (match address_v6 a with Some x => v6_port x | None => 0 end)) ⧺
  put (be_bytes 1 (len (cid_bytes (pa_connection_id a)) mod 256)) ⧺
  put (cid_bytes (pa_connection_id a)) ⧺ put (token_bytes (pa_stateless_reset_token a)).

(** [self.payload[..self.payload_len]] panics beyond the array. *)
Definition write_reserved (r : ReservedTransportParameter) : M (list Z) :=
  write_var (rp_id r) ⧺ write_var (rp_payload_len r) ⧺
  (_ ← rassert (rp_payload_len r <=? len (rp_payload r)); put (takeZ (rp_payload_len r) (rp_payload r))).

(** One turn of the loop of [TransportParameters::write]. *)
Definition write_param (p : TransportParameters) (id : TransportParameterId) : M (list Z) :=
  let var (x : Z) := write_var (id_code id) ⧺ (n ← VarInt_size (mkVarInt x); write_var n) ⧺ VarInt_encode (mkVarInt x) in
  let cid (o : option ConnectionId) :=
    match o with
    | Some cid => write_var (id_code id) ⧺ write_var (len (cid_bytes cid)) ⧺ put (cid_bytes cid)
    | None => put []
    end in
  let flag (b : bool) := if b then write_var (id_code id) ⧺ write_var 0 else put [] in
  match id with
  | ReservedTransportParameterId => match grease_transport_parameter p with Some r => write_reserved r | None => put [] end
  | StatelessResetTokenId =>
      match stateless_reset_token p with
      | Some x => write_var (id_code id) ⧺ write_var 16 ⧺ put (token_bytes x)
      | None => put []
      end
  | DisableActiveMigration => flag (disable_active_migration p)
  | MaxDatagramFrameSize => match max_datagram_frame_size p with Some x => var x | None => put [] end
  | PreferredAddressId =>
      match preferred_address p with
      | Some x => write_var (id_code id) ⧺ write_var (wire_size x) ⧺ write_preferred x
      | None => put []
      end
  | OriginalDestinationConnectionId => cid (original_dst_cid p)
  | InitialSourceConnectionId => cid (initial_src_cid p)
  | RetrySourceConnectionId => cid (retry_src_cid p)
  | GreaseQuicBit => flag (grease_quic_bit p)
  | MinAckDelayDraft07 => match min_ack_delay p with Some x => var x | None => put [] end
  | id =>
      match int_param id with
      | Some ip => if negb (ip_get ip p =? ip_default ip) then var (ip_get ip p) else put []
      | None => Panic
      end
  end.

Fixpoint write_params (p : TransportParameters) (ids : list Z) : M (list Z) :=
  match ids with
  | [] => put []
  | idx :: ids =>
      match SUPPORTED !! Z.to_nat idx with
      | Some id => write_param p id ⧺ write_params p ids
      | None => Panic
      end
  end.

Definition TransportParameters_write (p : TransportParameters) : M (list Z) :=
  write_params p (match write_order p with Some order => order | None => seqZ 0 (len SUPPORTED) end).

(** * Reading *)

(** [r.get()?] and [r.get_var()?]: the end of the input is [Malformed]. *)
Definition plift {A} (p : parser UnexpectedEnd A) : mparser ParamError A :=
  fun bs => Ret (map_err (fun _ => MalformedParams) p bs).

(** [copy_to_slice] of [n] bytes. *)
Definition take_bytes {E} (n : Z) : mparser E (list Z) := fun bs =>
  match split_to n bs with Ret (x, bs) => Ret (Ok x, bs) | Panic => Panic end.

Definition is_unspecified (ip : list Z) : bool := forallb (Z.eqb 0) ip.

Definition read_preferred : mparser ParamError PreferredAddress :=
  ip_v4 ← plift (decode (A := Ipv4Addr));
  port_v4 ← plift (decode (A := u16));
  ip_v6 ← plift (decode (A := Ipv6Addr));
  port_v6 ← plift (decode (A := u16));
  cid_len ← plift (decode (A := u8));
  rem ← remaining;
  if (rem <? uval cid_len) || (MAX_CID_SIZE <? uval cid_len) then mfail MalformedParams
  else
    stage ← take_bytes (uval cid_len);
    cid ← total (ConnectionId_new stage);
    rem ← remaining;
    if rem <? 16 then mfail MalformedParams
    else
      token ← take_bytes RESET_TOKEN_SIZE;
      let address_v4 :=
        if is_unspecified (octets4 ip_v4) && (uval port_v4 =? 0) then None
        else Some (mkSocketAddrV4 (octets4 ip_v4) (uval port_v4)) in
      let address_v6 :=
        if is_unspecified (octets6 ip_v6) && (uval port_v6 =? 0) then None
        else Some (mkSocketAddrV6 (octets6 ip_v6) (uval port_v6) 0 0) in
      match address_v4, address_v6 with
      | None, None => mfail IllegalValue
      | _, _ => mret (mkPreferredAddress address_v4 address_v6 cid (mkResetToken token))
      end.

(** [p] on [r.take(n)], a view of the next [n] bytes. *)
Definition limited {E A} (n : Z) (p : mparser E A) : mparser E A := fun bs =>
  match p (takeZ n bs) with
  | Ret (x, rest) => Ret (x, dropZ (len (takeZ n bs) - len rest) bs)
  | Panic => Panic
  end.

Definition decode_cid (n : Z) (value : option ConnectionId) : mparser ParamError ConnectionId :=
  rem ← remaining;
  if (MAX_CID_SIZE <? n) || match value with Some _ => true | None => false end || (rem <? n) then mfail MalformedParams
  else fun bs => match ConnectionId_from_buf bs n with Ret (cid, bs) => Ret (Ok cid, bs) | Panic => Panic end.

Definition is_some {A} (o : option A) : bool := match o with Some _ => true | None => false end.

(** The parameters read so far, and [ParamState]: the integer parameters seen. *)
Record ReadState : Type := mkReadState { rs_params : TransportParameters; rs_got : list TransportParameterId }.

(** The match on the identifier in the loop of [TransportParameters::read]. *)
Definition read_value (id : TransportParameterId) (n : Z) (s : ReadState) : mparser ParamError ReadState :=
  let params := rs_params s in
  let keep (p : TransportParameters) := mkReadState p (rs_got s) in
  match id with
  | OriginalDestinationConnectionId =>
      cid ← decode_cid n (original_dst_cid params); mret (keep (set_original_dst_cid params (Some cid)))
  | StatelessResetTokenId =>
      if negb (n =? 16) || is_some (stateless_reset_token params) then mfail MalformedParams
      else tok ← take_bytes RESET_TOKEN_SIZE; mret (keep (set_stateless_reset_token params (Some (mkResetToken tok))))
  | DisableActiveMigration =>
      if negb (n =? 0) || disable_active_migration params then mfail MalformedParams
      else mret (keep (set_disable_active_migration params true))
  | PreferredAddressId =>
      if is_some (preferred_address params) then mfail MalformedParams
      else a ← limited n read_preferred; mret (keep (set_preferred_address params (Some a)))
  | InitialSourceConnectionId =>
      cid ← decode_cid n (initial_src_cid params); mret (keep (set_initial_src_cid params (Some cid)))
  | RetrySourceConnectionId =>
      cid ← decode_cid n (retry_src_cid params); mret (keep (set_retry_src_cid params (Some cid)))
  | MaxDatagramFrameSize =>
      if (8 <? n) || is_some (max_datagram_frame_size params) then mfail MalformedParams
      else x ← plift VarInt_decode; mret (keep (set_max_datagram_frame_size params (Some (into_inner x))))
  | GreaseQuicBit => if n =? 0 then mret (keep (set_grease_quic_bit params true)) else mfail MalformedParams
  | MinAckDelayDraft07 => x ← plift VarInt_decode; mret (keep (set_min_ack_delay params (Some (into_inner x))))
  | id =>
      match int_param id with
      | Some ip =>
          value ← plift VarInt_decode;
          size ← total (VarInt_size value);
          if negb (n =? size) || bool_decide (id ∈ rs_got s) then mfail MalformedParams
          else mret (mkReadState (ip_set ip params (into_inner value)) (id :: rs_got s))
      | None => _ ← skip n; mret s
      end
  end.

(** One turn of the loop: identifier, length, value. *)
Definition read_one (s : ReadState) : mparser ParamError ReadState :=
  id ← plift get_var;
  n ← plift get_var;
  rem ← remaining;
  if rem <? n then mfail MalformedParams
  else
    match id_try_from id with
    | None => _ ← skip n; mret s
    | Some id => read_value id n s
    end.

(** Each turn takes two bytes or more, so the length of the input is enough fuel. *)
Fixpoint read_loop (fuel : nat) (s : ReadState) : mparser ParamError ReadState := fun bs =>
  match bs with
  | [] => Ret (Ok s, [])
  | _ :: _ =>
      match fuel with
      | O => Panic
      | S fuel => (s ← read_one s; read_loop fuel s) bs
      end
  end.

(** The semantic validation. *)
Definition illegal (side : Side) (p : TransportParameters) : bool :=
  (20 <? ack_delay_exponent p) || (Z.shiftl 1 14 <=? max_ack_delay p) || (active_connection_id_limit p <? 2) ||
  (max_udp_payload_size p <? 1200) || (MAX_STREAM_COUNT <? initial_max_streams_bidi p) ||
  (MAX_STREAM_COUNT <? initial_max_streams_uni p) ||
  match min_ack_delay p with Some m => max_ack_delay p * 1000 <? m | None => false end ||
  is_server side &&
    (is_some (original_dst_cid p) || is_some (preferred_address p) || is_some (retry_src_cid p) ||
     is_some (stateless_reset_token p)) ||
  match preferred_address p with Some x => len (cid_bytes (pa_connection_id x)) =? 0 | None => false end.

Definition TransportParameters_read (side : Side) : mparser ParamError TransportParameters := fun bs =>
  (s ← read_loop (length bs) (mkReadState TransportParameters_default []);
   if illegal side (rs_params s) then mfail IllegalValue else mret (rs_params s)) bs.

(** * Negotiation *)

(** [Option<VarInt>] compares [None] below everything. *)
Definition opt_gt (a b : option Z) : bool :=
  match a, b with Some x, Some y => y <? x | Some _, None => true | None, _ => false end.

Definition validate_resumption_from (p cached : TransportParameters) : result TransportError unit :=
  if (active_connection_id_limit p <? active_connection_id_limit cached) ||
     (initial_max_data p <? initial_max_data cached) ||
     (initial_max_stream_data_bidi_local p <? initial_max_stream_data_bidi_local cached) ||
     (initial_max_stream_data_bidi_remote p <? initial_max_stream_data_bidi_remote cached) ||
     (initial_max_stream_data_uni p <? initial_max_stream_data_uni cached) ||
     (initial_max_streams_bidi p <? initial_max_streams_bidi cached) ||
     (initial_max_streams_uni p <? initial_max_streams_uni cached) ||
     opt_gt (max_datagram_frame_size cached) (max_datagram_frame_size p) ||
     grease_quic_bit cached && negb (grease_quic_bit p)
  then Err (mkTransportError PROTOCOL_VIOLATION)
  else Ok tt.

Definition issue_cids_limit (p : TransportParameters) : Z := Z.min (active_connection_id_limit p) LOC_CID_COUNT.

(** [generate_reserved_id], from a random number below [2 ^ 62 - 27]. *)
Definition generate_reserved_id (rand : Z) : M Z :=
  let n := rand / 31 in
  let id := 31 * n + 27 in
  _ ← rassert (id mod 31 =? 27);
  match VarInt_from_u64 id with Ok v => mret (into_inner v) | Err _ => Panic end.

(** The values [TransportParameters::new] takes from the configurations and the id generator. *)
Record ParamConfig : Type := mkParamConfig {
  pc_max_concurrent_bidi_streams : Z;
  pc_max_concurrent_uni_streams : Z;
  pc_receive_window : Z;
  pc_stream_receive_window : Z;
  pc_max_idle_timeout : option Z;
  pc_datagram_receive_buffer_size : option Z;
  pc_max_udp_payload_size : Z;
  pc_grease_quic_bit : bool;
  pc_cid_len : Z;
  pc_migration : option bool
}.

(** [TIMER_GRANULARITY] is a millisecond; [CidQueue::LEN] is 5. *)
Definition TransportParameters_new (c : ParamConfig) (src_cid : ConnectionId) (reserved : ReservedTransportParameter)
    (order : list Z) : TransportParameters :=
  mkTransportParameters (default 0 (pc_max_idle_timeout c)) (pc_max_udp_payload_size c) (pc_receive_window c)
    (pc_stream_receive_window c) (pc_stream_receive_window c) (pc_stream_receive_window c)
    (pc_max_concurrent_bidi_streams c) (pc_max_concurrent_uni_streams c) 3 25 (if pc_cid_len c =? 0 then 2 else 5)
    (match pc_migration c with Some m => negb m | None => false end)
    ((fun x => Z.min x 65535) <$> pc_datagram_receive_buffer_size c) (Some src_cid) (pc_grease_quic_bit c) (Some 1000)
    None None None None (Some reserved) (Some order).
