(* ===== verification/TransportParamsTheorems.v ===== *)
(** What the transport parameter codec of [TransportParams] guarantees: parameters survive the trip to
    the peer in whatever order they are written, and no input makes the reader panic. *)
From S2P Require Import Prelude Coding Ids Shared Packet PacketTheorems PacketSafety TransportParams.

(** * Reading what was written *)

Definition add_id (id : TransportParameterId) (S : TransportParameterId → bool) (x : TransportParameterId) : bool :=
  (id_code x =? id_code id) || S x.

(** The parameters [p] of the identifiers in [S], the others at their defaults. *)
Definition restrict (S : TransportParameterId → bool) (p : TransportParameters) : TransportParameters :=
  let d := TransportParameters_default in
  let pick {A} (id : TransportParameterId) (f : TransportParameters → A) : A := if S id then f p else f d in
  mkTransportParameters (pick MaxIdleTimeout max_idle_timeout) (pick MaxUdpPayloadSize max_udp_payload_size)
    (pick InitialMaxData initial_max_data)
    (pick InitialMaxStreamDataBidiLocal initial_max_stream_data_bidi_local)
    (pick InitialMaxStreamDataBidiRemote initial_max_stream_data_bidi_remote)
    (pick InitialMaxStreamDataUni initial_max_stream_data_uni) (pick InitialMaxStreamsBidi initial_max_streams_bidi)
    (pick InitialMaxStreamsUni initial_max_streams_uni) (pick AckDelayExponent ack_delay_exponent)
    (pick MaxAckDelay max_ack_delay) (pick ActiveConnectionIdLimit active_connection_id_limit)
    (pick DisableActiveMigration disable_active_migration) (pick MaxDatagramFrameSize max_datagram_frame_size)
    (pick InitialSourceConnectionId initial_src_cid) (pick GreaseQuicBit grease_quic_bit)
    (pick MinAckDelayDraft07 min_ack_delay) (pick OriginalDestinationConnectionId original_dst_cid)
    (pick RetrySourceConnectionId retry_src_cid) (pick StatelessResetTokenId stateless_reset_token)
    (pick PreferredAddressId preferred_address) None None.

Definition address_wf (a : PreferredAddress) : Prop :=
  match address_v4 a with
  | Some x => len (v4_ip x) = 4 ∧ 0 <= v4_port x < 2 ^ 16 ∧ is_unspecified (v4_ip x) && (v4_port x =? 0) = false
  | None => True
  end ∧
  match address_v6 a with
  | Some x => len (v6_ip x) = 16 ∧ 0 <= v6_port x < 2 ^ 16 ∧ is_unspecified (v6_ip x) && (v6_port x =? 0) = false ∧
              v6_flowinfo x = 0 ∧ v6_scope_id x = 0
  | None => True
  end ∧
  (is_some (address_v4 a) || is_some (address_v6 a) = true) ∧
  cid_wf (pa_connection_id a) ∧ len (token_bytes (pa_stateless_reset_token a)) = 16.

Definition opt_wf {A} (P : A → Prop) (o : option A) : Prop := match o with Some x => P x | None => True end.

(** Values a parameter of this type may have; the reserved parameter has an identifier of its own. *)
Definition params_wf (p : TransportParameters) : Prop :=
  (∀ id ip, int_param id = Some ip → 0 <= ip_get ip p < 2 ^ 62) ∧
  opt_wf (fun x => 0 <= x < 2 ^ 62) (max_datagram_frame_size p) ∧ opt_wf (fun x => 0 <= x < 2 ^ 62) (min_ack_delay p) ∧
  opt_wf cid_wf (initial_src_cid p) ∧ opt_wf cid_wf (original_dst_cid p) ∧ opt_wf cid_wf (retry_src_cid p) ∧
  opt_wf (fun t => len (token_bytes t) = 16) (stateless_reset_token p) ∧ opt_wf address_wf (preferred_address p) ∧
  opt_wf (fun r => 0 <= rp_payload_len r <= len (rp_payload r) ∧ len (rp_payload r) = MAX_PAYLOAD_LEN ∧
                   0 <= rp_id r < 2 ^ 62 ∧ rp_id r mod 31 = 27) (grease_transport_parameter p).

Definition state_ok (p : TransportParameters) (S : TransportParameterId → bool) (s : ReadState) : Prop :=
  rs_params s = restrict S p ∧ ∀ id, id ∈ rs_got s → S id = true.

Lemma runs_plift {A} (p : parser UnexpectedEnd A) bs a rest : p (bs ++ rest) = (Ok a, rest) → runs (plift p) bs a rest.
Proof. intros Hp. unfold runs, plift, map_err. by rewrite Hp. Qed.

Lemma runs_param_var x bs rest : 0 <= x < 2 ^ 62 → write_var x = Ret bs → runs (plift get_var) bs x rest.
Proof.
  intros Hx Hw. apply runs_plift. destruct (enc_var x Hx) as (b & Hb & Hd). rewrite Hw in Hb. injection Hb as <-. apply Hd.
Qed.

(** A parameter with a known identifier is handed to its reader. *)
Lemma read_one_known s id bid bn v rest :
  write_var (id_code id) = Ret bid → write_var (len v) = Ret bn → len v < 2 ^ 62 →
  read_one s (bid ++ bn ++ v ++ rest) = read_value id (len v) s (v ++ rest).
Proof.
  intros Hid Hn Hv. pose proof (len_nonneg v). pose proof (len_nonneg rest). unfold read_one, mbind, mparser_bind.
  rewrite (runs_param_var (id_code id) bid) by (try done; destruct id; simpl; lia).
  rewrite (runs_param_var (len v) bn) by (try done; lia). unfold remaining. rewrite len_app.
  destruct (Z.ltb_spec (len v + len rest) (len v)); [lia|].
  assert (id_try_from (id_code id) = Some id) as -> by (by destruct id). done.
Qed.

(** ** One parameter *)

Definition param_ok (p : TransportParameters) (S : TransportParameterId → bool) (id : TransportParameterId) : Prop :=
  ∃ bs, write_param p id = Ret bs ∧
    (bs = [] ∧ restrict (add_id id S) p = restrict S p ∨
     bs ≠ [] ∧ ∀ s rest, state_ok p S s → ∃ s', read_one s (bs ++ rest) = Ret (Ok s', rest) ∧ state_ok p (add_id id S) s').

(** Settles what [restrict] says of a concrete identifier. *)
Ltac restrict_id :=
  unfold restrict, add_id; cbn [id_code Z.eqb Pos.eqb orb TransportParameters_default];
  repeat match goal with H : ?S _ = false |- _ => rewrite H end; try reflexivity.

(** The same for the goals that name the value of a field. *)
Ltac restrict_goal :=
  try (intros Hc; restrict_id; rewrite Hc; reflexivity); try (intros c Hc; restrict_id; rewrite Hc; reflexivity).

Lemma param_absent p S id : write_param p id = Ret [] → restrict (add_id id S) p = restrict S p → param_ok p S id.
Proof. intros Hw Hr. exists []. split; [done|]. by left. Qed.

Lemma param_present p S id v :
  write_param p id = write_var (id_code id) ⧺ write_var (len v) ⧺ put v → len v < 2 ^ 62 →
  (∀ s rest, state_ok p S s → ∃ s', read_value id (len v) s (v ++ rest) = Ret (Ok s', rest) ∧ state_ok p (add_id id S) s') →
  param_ok p S id.
Proof.
  intros Hw Hl Hread. pose proof (len_nonneg v).
  destruct (write_var_ok (id_code id)) as (bid & Hid & Hlid); [destruct id; simpl; lia|].
  destruct (write_var_ok (len v)) as (bn & Hn & _); [lia|]. exists (bid ++ bn ++ v). split; [by rewrite Hw, Hid, Hn|].
  right. split; [intros [-> _]%app_eq_nil; pose proof (var_size_range (id_code id)); change (len (@nil Z)) with 0 in Hlid; lia|].
  intros s rest Hs. rewrite <- !app_assoc, (read_one_known s id) by done. by apply Hread.
Qed.

Lemma add_id_self id S : add_id id S id = true.
Proof. unfold add_id. by rewrite Z.eqb_refl. Qed.

Lemma add_id_mono id S x : S x = true → add_id id S x = true.
Proof. unfold add_id. intros ->. apply orb_true_r. Qed.

(** A reader that sets one field. *)
Lemma state_ok_keep p S id s p' :
  state_ok p S s → p' = restrict (add_id id S) p → state_ok p (add_id id S) (mkReadState p' (rs_got s)).
Proof. intros [_ Hg] ->. split; [done|]. intros x Hx. by apply add_id_mono, Hg. Qed.

Lemma varint_value x :
  0 <= x < 2 ^ 62 →
  ∃ v, VarInt_encode (mkVarInt x) = Ret v ∧ VarInt_size (mkVarInt x) = Ret (len v) ∧ 1 <= len v <= 8 ∧
    ∀ rest, VarInt_decode (v ++ rest) = (Ok (mkVarInt x), rest).
Proof.
  intros Hx. destruct (VarInt_encode_decode (mkVarInt x) Hx) as (v & He & Hs & Hd). exists v. split; [done|]. split; [done|].
  split; [|done]. rewrite VarInt_size_ok in Hs by done. injection Hs as <-. apply var_size_range.
Qed.

Lemma int_param_ok p S id ip : params_wf p → int_param id = Some ip → S id = false → param_ok p S id.
Proof.
  intros [Hint _] Hip HS. pose proof (Hint id ip Hip) as Hx.
  assert (Hwp : write_param p id = if negb (ip_get ip p =? ip_default ip)
    then write_var (id_code id) ⧺ (n ← VarInt_size (mkVarInt (ip_get ip p)); write_var n) ⧺ VarInt_encode (mkVarInt (ip_get ip p))
    else put []) by (destruct id; try discriminate Hip; injection Hip as <-; done).
  destruct (Z.eqb_spec (ip_get ip p) (ip_default ip)) as [Hd|Hd]; cbn [negb] in Hwp.
  { apply param_absent; [done|]. destruct id; try discriminate Hip; injection Hip as <-; cbn [ip_get ip_default] in Hd;
      restrict_id; by rewrite Hd. }
  destruct (varint_value (ip_get ip p) Hx) as (v & He & Hsz & Hl & Hdec).
  apply (param_present p S id v); [by rewrite Hwp, Hsz, He|lia|]. intros s rest [Hs Hgot].
  assert (Hset : ip_set ip (restrict S p) (ip_get ip p) = restrict (add_id id S) p)
    by (destruct id; try discriminate Hip; injection Hip as <-; cbn [ip_get ip_set]; restrict_id).
  exists (mkReadState (restrict (add_id id S) p) (id :: rs_got s)). split.
  - assert (Hrv : read_value id (len v) s = (value ← plift VarInt_decode; size ← total (VarInt_size value);
        if negb (len v =? size) || bool_decide (id ∈ rs_got s) then mfail MalformedParams
        else mret (mkReadState (ip_set ip (rs_params s) (into_inner value)) (id :: rs_got s))))
      by (destruct id; try discriminate Hip; injection Hip as <-; done).
    rewrite Hrv. unfold mbind, mparser_bind. rewrite (runs_plift VarInt_decode v (mkVarInt (ip_get ip p)) rest) by apply Hdec.
    unfold total. rewrite Hsz, Z.eqb_refl. cbn [negb orb].
    rewrite bool_decide_false by (intros Hin; specialize (Hgot id Hin); congruence). cbn [into_inner]. by rewrite Hs, Hset.
  - split; [done|]. intros x [->|Hx']%elem_of_cons; [apply add_id_self|]. by apply add_id_mono, Hgot.
Qed.

Lemma runs_take {E} (v rest : list Z) n : n = len v → runs (E := E) (take_bytes n) v v rest.
Proof. intros ->. unfold runs, take_bytes. by rewrite split_to_len. Qed.

Lemma runs_decode_cid cid o rest :
  cid_wf cid → o = None → runs (decode_cid (len (cid_bytes cid)) o) (cid_bytes cid) cid rest.
Proof.
  intros Hc ->. pose proof (fixed_length_runs cid rest Hc) as Hr. pose proof (cid_bytes_len _ Hc) as Hl.
  pose proof (len_nonneg rest). unfold runs, FixedLengthConnectionIdParser in *. rewrite len_app, Hl in *.
  destruct (Z.leb_spec (cid_len cid) (cid_len cid + len rest)); [|lia].
  unfold decode_cid, mbind, mparser_bind, remaining. rewrite len_app, Hl. destruct Hc as [Hr' _].
  destruct (Z.ltb_spec MAX_CID_SIZE (cid_len cid)); [lia|]. destruct (Z.ltb_spec (cid_len cid + len rest) (cid_len cid)); [lia|].
  cbn [orb]. destruct (ConnectionId_from_buf _ _) as [[c b]|]; [|done]. by injection Hr as -> ->.
Qed.

Lemma cid_param_ok p S id (get : TransportParameters → option ConnectionId) set :
  write_param p id = match get p with
    | Some cid => write_var (id_code id) ⧺ write_var (len (cid_bytes cid)) ⧺ put (cid_bytes cid) | None => put [] end →
  (∀ n s, read_value id n s = (cid ← decode_cid n (get (rs_params s)); mret (mkReadState (set (rs_params s) (Some cid)) (rs_got s)))) →
  get (restrict S p) = None → (get p = None → restrict (add_id id S) p = restrict S p) →
  (∀ c, get p = Some c → set (restrict S p) (Some c) = restrict (add_id id S) p) → opt_wf cid_wf (get p) → param_ok p S id.
Proof.
  intros Hw Hr Hget Habs Hset Hwf. destruct (get p) as [cid|] eqn:Hp; [|by apply param_absent; auto].
  pose proof (cid_bytes_len _ Hwf) as Hl. pose proof (proj1 Hwf) as Hrange. unfold MAX_CID_SIZE in Hrange.
  apply (param_present p S id (cid_bytes cid)); [done|lia|]. intros s rest [Hs Hg].
  exists (mkReadState (restrict (add_id id S) p) (rs_got s)). split; [|by apply (state_ok_keep p S id s)].
  rewrite Hr, Hs. unfold mbind, mparser_bind. rewrite (runs_decode_cid cid (get (restrict S p)) rest) by done. by rewrite Hset.
Qed.

Lemma flag_param_ok p S id (get : TransportParameters → bool) set :
  write_param p id = (if get p then write_var (id_code id) ⧺ write_var 0 else put []) →
  (∀ s, get (rs_params s) = false → read_value id 0 s = mret (mkReadState (set (rs_params s) true) (rs_got s))) →
  get (restrict S p) = false → (get p = false → restrict (add_id id S) p = restrict S p) →
  (get p = true → set (restrict S p) true = restrict (add_id id S) p) → param_ok p S id.
Proof.
  intros Hw Hr Hget Habs Hset. destruct (get p) eqn:Hp; [|by apply param_absent; auto].
  apply (param_present p S id []); [rewrite Hw; by destruct (write_var (id_code id)); cbn; rewrite ?app_nil_r|done|].
  intros s rest [Hs Hg]. exists (mkReadState (restrict (add_id id S) p) (rs_got s)).
  split; [|by apply (state_ok_keep p S id s)]. change (len (@nil Z)) with 0. rewrite Hr by (by rewrite Hs). rewrite Hs, Hset by done. done.
Qed.

Lemma opt_param_ok p S id (get : TransportParameters → option Z) set :
  write_param p id = match get p with
    | Some x => write_var (id_code id) ⧺ (n ← VarInt_size (mkVarInt x); write_var n) ⧺ VarInt_encode (mkVarInt x)
    | None => put [] end →
  (∀ n s, n <= 8 → get (rs_params s) = None →
    read_value id n s = (x ← plift VarInt_decode; mret (mkReadState (set (rs_params s) (Some (into_inner x))) (rs_got s)))) →
  get (restrict S p) = None → (get p = None → restrict (add_id id S) p = restrict S p) →
  (∀ c, get p = Some c → set (restrict S p) (Some c) = restrict (add_id id S) p) →
  opt_wf (fun x => 0 <= x < 2 ^ 62) (get p) → param_ok p S id.
Proof.
  intros Hw Hr Hget Habs Hset Hwf. destruct (get p) as [x|] eqn:Hp; [|by apply param_absent; auto].
  destruct (varint_value x Hwf) as (v & He & Hsz & Hl & Hdec).
  apply (param_present p S id v); [by rewrite Hw, Hsz, He|lia|]. intros s rest [Hs Hg].
  exists (mkReadState (restrict (add_id id S) p) (rs_got s)). split; [|by apply (state_ok_keep p S id s)].
  rewrite Hr by (try lia; by rewrite Hs). unfold mbind, mparser_bind. rewrite (runs_plift VarInt_decode v (mkVarInt x) rest) by apply Hdec.
  cbn [into_inner]. by rewrite Hs, Hset.
Qed.

Lemma runs_codec {A} (wf : A → Prop) `{CodecOk A wf} a bs rest :
  wf a → encode a = Ret bs → runs (plift decode) bs a rest.
Proof. intros Ha He. apply runs_plift. destruct (encode_decode a Ha) as (b & Hb & Hd). rewrite He in Hb. injection Hb as <-. apply Hd. Qed.

(** The address as it is written, and as it is read. *)
Definition ip4_of (a : PreferredAddress) : list Z := match address_v4 a with Some x => v4_ip x | None => replicate 4 0 end.
Definition port4_of (a : PreferredAddress) : Z := match address_v4 a with Some x => v4_port x | None => 0 end.
Definition ip6_of (a : PreferredAddress) : list Z := match address_v6 a with Some x => v6_ip x | None => replicate 16 0 end.
Definition port6_of (a : PreferredAddress) : Z := match address_v6 a with Some x => v6_port x | None => 0 end.

Lemma address_fields a :
  address_wf a →
  length (ip4_of a) = 4%nat ∧ 0 <= port4_of a < 2 ^ 16 ∧ length (ip6_of a) = 16%nat ∧ 0 <= port6_of a < 2 ^ 16 ∧
  (if is_unspecified (ip4_of a) && (port4_of a =? 0) then None else Some (mkSocketAddrV4 (ip4_of a) (port4_of a))) = address_v4 a ∧
  (if is_unspecified (ip6_of a) && (port6_of a =? 0) then None else Some (mkSocketAddrV6 (ip6_of a) (port6_of a) 0 0)) = address_v6 a.
Proof.
  destruct a as [v4 v6 cid tok]. intros (H4 & H6 & _). unfold ip4_of, port4_of, ip6_of, port6_of. cbn [address_v4 address_v6] in *.
  assert (length (match v4 with Some x => v4_ip x | None => replicate 4 0 end) = 4%nat ∧
    0 <= match v4 with Some x => v4_port x | None => 0 end < 2 ^ 16) as [? ?].
  { destruct v4 as [[ip port]|]; [|done]. unfold len in H4. cbn [v4_ip v4_port] in *. lia. }
  assert (length (match v6 with Some x => v6_ip x | None => replicate 16 0 end) = 16%nat ∧
    0 <= match v6 with Some x => v6_port x | None => 0 end < 2 ^ 16) as [? ?].
  { destruct v6 as [[ip port fi sc]|]; [|done]. unfold len in H6. cbn [v6_ip v6_port] in *. lia. }
  split_and!; try done; try lia.
  - destruct v4 as [[ip port]|]; [|done]. cbn [v4_ip v4_port] in *. destruct H4 as (_ & _ & ->). done.
  - destruct v6 as [[ip port fi sc]|]; [|done]. cbn [v6_ip v6_port v6_flowinfo v6_scope_id] in *.
    destruct H6 as (_ & _ & -> & -> & ->). done.
Qed.

Lemma runs_preferred a v :
  address_wf a → write_preferred a = Ret v → runs read_preferred v a [].
Proof.
  intros Hwf Hv. destruct (address_fields a Hwf) as (H4 & Hp4 & H6 & Hp6 & E4 & E6).
  destruct Hwf as (_ & _ & Hsome & Hcid & Htok). pose proof (cid_bytes_len _ Hcid) as Hcl. pose proof (proj1 Hcid) as Hcr.
  unfold MAX_CID_SIZE in Hcr.
  assert (v = ip4_of a ++ be_bytes 2 (port4_of a) ++ ip6_of a ++ be_bytes 2 (port6_of a) ++
    be_bytes 1 (len (cid_bytes (pa_connection_id a)) mod 256) ++ cid_bytes (pa_connection_id a) ++
    token_bytes (pa_stateless_reset_token a)) as -> by (by injection Hv as <-).
  clear Hv. rewrite Z.mod_small by lia. set (cb := cid_bytes (pa_connection_id a)) in *. set (tb := token_bytes (pa_stateless_reset_token a)) in *.
  unfold read_preferred.
  eapply runs_bind; [apply (runs_codec (fun a => length (octets4 a) = 4%nat) (mkIpv4 (ip4_of a))); done|].
  eapply runs_bind; [apply (runs_codec uint_wf (mkUint (port4_of a)) (be_bytes 2 (port4_of a))); [unfold uint_wf; cbn [uval]; lia|done]|].
  eapply runs_bind; [apply (runs_codec (fun a => length (octets6 a) = 16%nat) (mkIpv6 (ip6_of a))); done|].
  eapply runs_bind; [apply (runs_codec uint_wf (mkUint (port6_of a)) (be_bytes 2 (port6_of a))); [unfold uint_wf; cbn [uval]; lia|done]|].
  eapply runs_bind; [apply (runs_codec uint_wf (mkUint (len cb)) (be_bytes 1 (len cb))); [unfold uint_wf; cbn [uval]; lia|done]|].
  cbn [uval octets4 octets6]. unfold runs at 1, mbind, mparser_bind, remaining. rewrite !len_app, Htok. change (len (@nil Z)) with 0.
  unfold MAX_CID_SIZE. destruct (Z.ltb_spec (len cb + 16 + 0) (len cb)); [lia|]. destruct (Z.ltb_spec 20 (len cb)); [lia|]. cbn [orb].
  rewrite <- app_assoc, (runs_take cb (tb ++ []) (len cb)) by done.
  destruct (ConnectionId_new_ok cb) as (d & Hd & Hdw & Hdb & _); [unfold MAX_CID_SIZE; lia|].
  assert (d = pa_connection_id a) as -> by (by apply cid_bytes_inj). unfold total. rewrite Hd.
  rewrite len_app, Htok. change (len (@nil Z)) with 0. change (16 + 0 <? 16) with false. cbv iota beta.
  rewrite (runs_take tb [] RESET_TOKEN_SIZE) by done. rewrite E4, E6.
  destruct a as [[a4|] [a6|] cid [tok]]; done.
Qed.

Lemma token_param_ok p S : params_wf p → S StatelessResetTokenId = false → param_ok p S StatelessResetTokenId.
Proof.
  intros (_ & _ & _ & _ & _ & _ & Htok & _) HS. destruct (stateless_reset_token p) as [[tok]|] eqn:Hp;
    [|apply param_absent; [cbn [write_param]; by rewrite Hp|restrict_id; by rewrite Hp]].
  cbn in Htok. apply (param_present p S _ tok); [cbn [write_param]; by rewrite Hp, Htok|lia|]. intros s rest [Hs Hg].
  exists (mkReadState (restrict (add_id StatelessResetTokenId S) p) (rs_got s)).
  split; [|by apply (state_ok_keep p S _ s)]. cbn [read_value]. rewrite Htok, Hs.
  assert (is_some (stateless_reset_token (restrict S p)) = false) as -> by restrict_id. cbn [Z.eqb Pos.eqb negb orb].
  unfold mbind, mparser_bind. rewrite (runs_take tok rest RESET_TOKEN_SIZE) by done. do 3 f_equal. f_equal. restrict_id. by rewrite Hp.
Qed.

Lemma preferred_param_ok p S : params_wf p → S PreferredAddressId = false → param_ok p S PreferredAddressId.
Proof.
  intros (_ & _ & _ & _ & _ & _ & _ & Ha & _) HS. destruct (preferred_address p) as [a|] eqn:Hp;
    [|apply param_absent; [cbn [write_param]; by rewrite Hp|restrict_id; by rewrite Hp]].
  cbn in Ha. destruct (write_preferred a) as [v|] eqn:Hv; [|discriminate Hv].
  assert (Hlen : len v = wire_size a ∧ wire_size a < 2 ^ 62).
  { destruct (address_fields a Ha) as (H4 & _ & H6 & _). destruct Ha as (_ & _ & _ & Hcid & Htok).
    pose proof (cid_bytes_len _ Hcid) as Hcl. pose proof (proj1 Hcid) as Hcr. unfold MAX_CID_SIZE in Hcr.
    assert (v = ip4_of a ++ be_bytes 2 (port4_of a) ++ ip6_of a ++ be_bytes 2 (port6_of a) ++
      be_bytes 1 (len (cid_bytes (pa_connection_id a)) mod 256) ++ cid_bytes (pa_connection_id a) ++
      token_bytes (pa_stateless_reset_token a)) as -> by (by injection Hv as <-).
    unfold wire_size. rewrite !len_app, Htok. unfold len at 1 2 3 4 5. rewrite H4, H6, !be_bytes_length. lia. }
  destruct Hlen as [Hlen Hmax].
  apply (param_present p S _ v); [cbn [write_param]; by rewrite Hp, <- Hlen, Hv|lia|]. intros s rest [Hs Hg].
  exists (mkReadState (restrict (add_id PreferredAddressId S) p) (rs_got s)).
  split; [|by apply (state_ok_keep p S _ s)]. cbn [read_value]. rewrite Hs.
  assert (is_some (preferred_address (restrict S p)) = false) as -> by restrict_id.
  unfold mbind, mparser_bind, limited. rewrite takeZ_len_app. pose proof (runs_preferred a v Ha Hv) as Hrun.
  unfold runs in Hrun. rewrite app_nil_r in Hrun. rewrite Hrun. change (len (@nil Z)) with 0. rewrite Z.sub_0_r, dropZ_len_app.
  do 3 f_equal. f_equal. restrict_id. by rewrite Hp.
Qed.

(** A reserved identifier names no parameter but the reserved one. *)
Lemma reserved_unknown x : x mod 31 = 27 → id_try_from x = None ∨ x = 27.
Proof.
  intros Hx. destruct (Z.eq_dec x 27) as [|Hne]; [by right|left]. unfold id_try_from, SUPPORTED. cbn [find id_code].
  repeat match goal with |- context [?c =? x] => destruct (Z.eqb_spec c x) as [<-|]; [first [discriminate Hx|lia]|] end. done.
Qed.

Lemma reserved_param_ok p S : params_wf p → param_ok p S ReservedTransportParameterId.
Proof.
  intros (_ & _ & _ & _ & _ & _ & _ & _ & Hr). destruct (grease_transport_parameter p) as [[id pl n]|] eqn:Hp;
    [|apply param_absent; [cbn [write_param]; by rewrite Hp|restrict_id]].
  cbn in Hr. destruct Hr as (Hn & Hl & Hid & Hmod). unfold MAX_PAYLOAD_LEN in Hl.
  destruct (write_var_ok id Hid) as (bid & Hbid & Hlid). destruct (write_var_ok n ltac:(lia)) as (bn & Hbn & _).
  assert (Hlv : len (takeZ n pl) = n) by (rewrite len_takeZ; lia).
  exists (bid ++ bn ++ takeZ n pl). split.
  { cbn [write_param]. rewrite Hp. unfold write_reserved. cbn [rp_id rp_payload rp_payload_len]. rewrite Hbid, Hbn.
    unfold rassert. destruct (Z.leb_spec n (len pl)); [done|lia]. }
  right. split; [intros [-> _]%app_eq_nil; pose proof (var_size_range id); change (len (@nil Z)) with 0 in Hlid; lia|].
  intros s rest [Hs Hg]. exists s. split.
  - unfold read_one, mbind, mparser_bind. rewrite <- !app_assoc, (runs_param_var id bid) by done.
    rewrite (runs_param_var n bn) by (try done; lia). unfold remaining. rewrite len_app, Hlv. pose proof (len_nonneg rest).
    destruct (Z.ltb_spec (n + len rest) n); [lia|].
    assert (Hskip : skip (E := ParamError) n (takeZ n pl ++ rest) = Ret (Ok tt, rest)).
    { unfold skip, advance. rewrite len_app, Hlv. destruct (Z.leb_spec n (n + len rest)); [|lia].
      rewrite <- Hlv at 1. by rewrite dropZ_len_app. }
    destruct (reserved_unknown id Hmod) as [->| ->]; [by rewrite Hskip|]. change (id_try_from 27) with (Some ReservedTransportParameterId).
    cbn [read_value int_param]. unfold mbind, mparser_bind. by rewrite Hskip.
  - split; [rewrite Hs; restrict_id|]. intros x Hx. by apply add_id_mono, Hg.
Qed.

Lemma every_param_ok p S id : params_wf p → S id = false → param_ok p S id.
Proof.
  intros Hwf HS. destruct (int_param id) as [ip|] eqn:Hip; [by apply (int_param_ok p S id ip)|].
  pose proof Hwf as (_ & Hmd & Hma & Hisc & Hodc & Hrsc & _).
  destruct id; try discriminate Hip; try (by apply token_param_ok); try (by apply preferred_param_ok); try (by apply reserved_param_ok).
  - apply (cid_param_ok p S _ original_dst_cid set_original_dst_cid); try done; restrict_goal; restrict_id.
  - apply (flag_param_ok p S _ disable_active_migration set_disable_active_migration); try done;
      restrict_goal; [intros s Hs; cbn [read_value]; by rewrite Hs|restrict_id].
  - apply (cid_param_ok p S _ initial_src_cid set_initial_src_cid); try done; restrict_goal; restrict_id.
  - apply (cid_param_ok p S _ retry_src_cid set_retry_src_cid); try done; restrict_goal; restrict_id.
  - apply (opt_param_ok p S _ max_datagram_frame_size set_max_datagram_frame_size); try done;
      restrict_goal; [|restrict_id].
    intros n s Hn Hs. cbn [read_value]. rewrite Hs. by destruct (Z.ltb_spec 8 n); [lia|].
  - apply (flag_param_ok p S _ grease_quic_bit set_grease_quic_bit); try done; restrict_goal; restrict_id.
  - apply (opt_param_ok p S _ min_ack_delay set_min_ack_delay); try done; restrict_goal; restrict_id.
Qed.

(** ** All of them *)

Lemma supported_id idx id : SUPPORTED !! Z.to_nat idx = Some id → 0 <= idx → idx < 21 ∧ id_code id < 2 ^ 62.
Proof. intros Hl Hi. apply lookup_lt_Some in Hl. cbn in Hl. split; [lia|]. destruct id; simpl; lia. Qed.

(** The identifiers of a list of indices. *)
Definition ids_of (ids : list Z) : list TransportParameterId := omap (fun i => SUPPORTED !! Z.to_nat i) ids.

Fixpoint add_all (l : list TransportParameterId) (S : TransportParameterId → bool) : TransportParameterId → bool :=
  match l with [] => S | id :: l => add_all l (add_id id S) end.

Lemma add_all_spec l S x : add_all l S x = true ↔ S x = true ∨ x ∈ l.
Proof.
  revert S. induction l as [|id l IH]; intros S; cbn [add_all]; [by rewrite elem_of_nil; intuition|].
  rewrite IH. unfold add_id. rewrite orb_true_iff, Z.eqb_eq, elem_of_cons.
  assert (id_code x = id_code id ↔ x = id) as -> by (split; [|by intros ->]; by destruct x, id). intuition.
Qed.

Lemma read_loop_step fuel s bs : bs ≠ [] → read_loop (S fuel) s bs = (s ← read_one s; read_loop fuel s) bs.
Proof. by destruct bs. Qed.

Lemma supported_inj (a b : nat) id : SUPPORTED !! a = Some id → SUPPORTED !! b = Some id → a = b.
Proof.
  assert (Hnd : NoDup SUPPORTED) by (apply (bool_decide_unpack _); by vm_compute). intros Ha Hb. by eapply NoDup_lookup.
Qed.

Definition fresh_ids (S : TransportParameterId → bool) (ids : list Z) : Prop :=
  Forall (fun i => 0 <= i < 21 ∧ ∀ id, SUPPORTED !! Z.to_nat i = Some id → S id = false) ids ∧ NoDup ids.

(** The first identifier, and what remains fresh after it. *)
Lemma fresh_ids_cons S i ids :
  fresh_ids S (i :: ids) →
  ∃ id, SUPPORTED !! Z.to_nat i = Some id ∧ S id = false ∧ fresh_ids (add_id id S) ids.
Proof.
  intros [[[Hi HS] Hr]%Forall_cons [Hni Hnd]%NoDup_cons].
  destruct (SUPPORTED !! Z.to_nat i) as [id|] eqn:Hid; [|apply lookup_ge_None in Hid; cbn in Hid; lia].
  exists id. split; [done|]. split; [by apply HS|]. split; [|done].
  rewrite Forall_forall in *. intros j Hj. destruct (Hr j Hj) as [Hjr HSj]. split; [done|]. intros id' Hid'. unfold add_id.
  rewrite (HSj id' Hid'), orb_false_r. apply Z.eqb_neq. intros Heq. assert (id' = id) as -> by (by destruct id', id).
  pose proof (supported_inj _ _ _ Hid Hid'). assert (i = j) by lia. by subst.
Qed.

Lemma write_params_ok p ids S : params_wf p → fresh_ids S ids → ∃ bs, write_params p ids = Ret bs.
Proof.
  intros Hwf. revert S. induction ids as [|i ids IH]; intros S Hf; [by exists []|].
  destruct (fresh_ids_cons S i ids Hf) as (id & Hid & HS & Hf'). destruct (IH _ Hf') as [b2 Hb2].
  destruct (every_param_ok p S id Hwf HS) as (b1 & Hb1 & _). exists (b1 ++ b2). cbn [write_params]. by rewrite Hid, Hb1, Hb2.
Qed.

Lemma read_written p ids S s fuel bs :
  params_wf p → fresh_ids S ids → state_ok p S s → write_params p ids = Ret bs → (length bs <= fuel)%nat →
  ∃ s', read_loop fuel s bs = Ret (Ok s', []) ∧ state_ok p (add_all (ids_of ids) S) s'.
Proof.
  intros Hwf. revert S s fuel bs. induction ids as [|i ids IH]; intros S s fuel bs Hf Hs Hw Hfuel.
  { injection Hw as <-. exists s. split; [by destruct fuel|done]. }
  destruct (fresh_ids_cons S i ids Hf) as (id & Hid & HS & Hf'). destruct (write_params_ok p ids _ Hwf Hf') as [b2 Hb2].
  destruct (every_param_ok p S id Hwf HS) as (b1 & Hb1 & Hcase).
  assert (bs = b1 ++ b2) as -> by (cbn [write_params] in Hw; rewrite Hid, Hb1, Hb2 in Hw; by injection Hw as <-).
  unfold ids_of. cbn [omap list_omap]. rewrite Hid. cbn [add_all]. rewrite length_app in Hfuel.
  destruct Hcase as [[-> Heq]|[Hne Hread]].
  - apply IH; try done. destruct Hs as [Hs Hg]. split; [by rewrite Heq|]. intros x Hx. by apply add_id_mono, Hg.
  - destruct (Hread s b2 Hs) as (s1 & Hr1 & Hs1). destruct fuel as [|fuel]; [destruct b1; [done|cbn in Hfuel; lia]|].
    destruct (IH (add_id id S) s1 fuel b2 Hf' Hs1 Hb2) as (s2 & Hr2 & Hs2); [destruct b1; [done|cbn in Hfuel; lia]|].
    exists s2. split; [|done]. rewrite read_loop_step by (by intros [? _]%app_eq_nil). unfold mbind, mparser_bind. by rewrite Hr1.
Qed.

Lemma restrict_ext S S' p : (∀ id, S id = S' id) → restrict S p = restrict S' p.
Proof. intros H. unfold restrict. by rewrite !H. Qed.

(** The validation looks at nothing the writer drops. *)
Lemma illegal_restrict side p : illegal side (restrict (fun _ => true) p) = illegal side p.
Proof. done. Qed.

(** Every identifier is written, in whatever order. *)
Lemma all_ids ids id : ids ≡ₚ seqZ 0 21 → id ∈ ids_of ids.
Proof.
  intros Hids. assert (Hid : id ∈ SUPPORTED) by (by destruct id; apply (bool_decide_unpack _); vm_compute).
  apply list_elem_of_lookup in Hid as [n Hn]. apply list_elem_of_omap. exists (Z.of_nat n). rewrite Nat2Z.id. split; [|done].
  rewrite Hids. apply elem_of_seqZ. apply lookup_lt_Some in Hn. cbn in Hn. lia.
Qed.

(** * Reading arbitrary bytes *)

(** The posts of the readers: what is left is bytes again, and a property of the value. *)
Definition valued {A} (Q : A → Prop) (a : A) (r : list Z) : Prop := bytes_ok r ∧ Q a.

Lemma safe_plift {A} (p : parser UnexpectedEnd A) Q bs : safe (mlift p) Q bs → safe (plift p) Q bs.
Proof. unfold safe, plift, mlift, map_err. by destruct (p bs) as [[?|?] ?]. Qed.

Lemma safe_plift_uint (n : nat) bs : bytes_ok bs → (0 < n)%nat → safe (plift (decode (A := uint n))) (valued uint_wf) bs.
Proof. intros Hb Hn. eapply safe_plift, safe_mono; [by apply safe_uint|]. by intros ? ? ? _ (? & ? & _). Qed.

Lemma safe_plift_var bs :
  bytes_ok bs → safe (plift VarInt_decode) (valued (fun v => 0 <= into_inner v < 2 ^ 62)) bs.
Proof.
  intros Hb. apply safe_plift. pose proof (safe_get_var bs Hb) as Hs. unfold safe, mlift, map_err, get_var, mbind, parser_bind in *.
  destruct (VarInt_decode bs) as [[v|] r]; [|done]. cbn in Hs |- *. destruct Hs as (? & ? & ? & ?). split; [done|]. by split.
Qed.

Lemma safe_plift_ip4 bs :
  bytes_ok bs → safe (plift (decode (A := Ipv4Addr))) (valued (fun a => len (octets4 a) = 4)) bs.
Proof.
  intros Hb. unfold safe, plift, map_err. cbn [decode Ipv4Addr_Codec]. destruct (Z.ltb_spec (len bs) 4); [done|].
  split; [exists (takeZ 4 bs); unfold takeZ, dropZ; by rewrite take_drop|]. split; [by apply Forall_drop|].
  cbn [octets4]. unfold len in *. rewrite length_take. lia.
Qed.

Lemma safe_plift_ip6 bs :
  bytes_ok bs → safe (plift (decode (A := Ipv6Addr))) (valued (fun a => len (octets6 a) = 16)) bs.
Proof.
  intros Hb. unfold safe, plift, map_err. cbn [decode Ipv6Addr_Codec]. destruct (Z.ltb_spec (len bs) 16); [done|].
  split; [exists (takeZ 16 bs); unfold takeZ, dropZ; by rewrite take_drop|]. split; [by apply Forall_drop|].
  cbn [octets6]. unfold len in *. rewrite length_take. lia.
Qed.

Lemma safe_take_bytes {E} n bs :
  bytes_ok bs → 0 <= n <= len bs → safe (E := E) (take_bytes n) (valued (fun x => len x = n)) bs.
Proof.
  intros Hb Hn. unfold safe, take_bytes, split_to. destruct (Z.leb_spec n (len bs)); [|lia].
  split; [exists (takeZ n bs); unfold takeZ, dropZ; by rewrite take_drop|]. split; [by apply Forall_drop|].
  unfold len, takeZ in *. rewrite length_take. lia.
Qed.

Lemma safe_skip {E} n bs : bytes_ok bs → 0 <= n <= len bs → safe (E := E) (skip n) (valued (fun _ => True)) bs.
Proof.
  intros Hb Hn. unfold safe, skip, advance. destruct (Z.leb_spec n (len bs)); [|lia].
  split; [exists (takeZ n bs); unfold takeZ, dropZ; by rewrite take_drop|]. split; [by apply Forall_drop|done].
Qed.

Lemma safe_decode_cid n v bs : bytes_ok bs → 0 <= n → safe (decode_cid n v) (valued cid_wf) bs.
Proof.
  intros Hb Hn. apply safe_bind, safe_remaining. unfold MAX_CID_SIZE in *. destruct (Z.ltb_spec 20 n); [apply safe_fail|].
  destruct v; [apply safe_fail|]. destruct (Z.ltb_spec (len bs) n); [apply safe_fail|]. cbn [orb].
  pose proof (safe_take_bytes (E := ParamError) n bs Hb ltac:(lia)) as Ht.
  unfold safe, ConnectionId_from_buf, take_bytes in *. unfold rassert.
  destruct (split_to n bs) as [[x r]|]; [|done]. destruct Ht as (Hk & Hr & Hl). cbn [mbind M_bind].
  destruct (ConnectionId_new_ok x) as (c & -> & Hc & _); [unfold MAX_CID_SIZE; lia|]. 
  unfold MAX_CID_SIZE.
  destruct (Z.leb_spec n 20); [|lia]. cbn. split; [done|]. by split.
Qed.

Lemma safe_limited {E A} n (p : mparser E A) Q bs :
  bytes_ok bs → safe p (valued Q) (takeZ n bs) → safe (limited n p) (valued Q) bs.
Proof.
  intros Hb. unfold safe, limited. destruct (p (takeZ n bs)) as [[[a|] r]|]; [|done..]. intros (_ & _ & HQ).
  split; [eexists; unfold dropZ; by rewrite take_drop|]. split; [by apply Forall_drop|done].
Qed.

Lemma safe_read_preferred bs : bytes_ok bs → safe read_preferred (valued address_wf) bs.
Proof.
  intros Hb. unfold read_preferred.
  eapply safe_bind, safe_mono; [by apply safe_plift_ip4|]. intros ip4 r1 _ _ [Hr1 Hip4].
  eapply safe_bind, safe_mono; [by apply safe_plift_uint; [|lia]|]. intros port4 r2 _ _ [Hr2 Hport4].
  eapply safe_bind, safe_mono; [by apply safe_plift_ip6|]. intros ip6 r3 _ _ [Hr3 Hip6].
  eapply safe_bind, safe_mono; [by apply safe_plift_uint; [|lia]|]. intros port6 r4 _ _ [Hr4 Hport6].
  eapply safe_bind, safe_mono; [by apply safe_plift_uint; [|lia]|]. intros n r5 _ _ [Hr5 Hn].
  apply safe_bind, safe_remaining. destruct (Z.ltb_spec (len r5) (uval n)); [apply safe_fail|]. cbn [orb].
  destruct (Z.ltb_spec MAX_CID_SIZE (uval n)); [apply safe_fail|].
  eapply safe_bind, safe_mono; [apply safe_take_bytes; [done|unfold uint_wf in Hn; lia]|]. intros st r6 _ _ [Hr6 Hst].
  destruct (ConnectionId_new_ok st) as (cid & Hcid & Hw & _); [lia|].
  apply safe_bind. unfold total at 1. rewrite Hcid. split; [by exists []|].
  apply safe_bind, safe_remaining. destruct (Z.ltb_spec (len r6) 16); [apply safe_fail|].
  eapply safe_bind, safe_mono; [apply safe_take_bytes; [done|unfold RESET_TOKEN_SIZE; lia]|]. intros tok r7 _ _ [Hr7 Htok].
  unfold uint_wf in *.
  destruct (is_unspecified (octets4 ip4) && (uval port4 =? 0)) eqn:H4, (is_unspecified (octets6 ip6) && (uval port6 =? 0)) eqn:H6;
    [apply safe_fail|apply safe_ret; split; [done|]; unfold address_wf; cbn; split_and!; done || lia..].
Qed.

Lemma params_wf_set_int id ip p v : params_wf p → int_param id = Some ip → 0 <= v < 2 ^ 62 → params_wf (ip_set ip p v).
Proof.
  intros (Hint & Hrest) Hip Hv. split; [|by destruct id; try discriminate; injection Hip as <-].
  intros id' ip' Hip'. pose proof (Hint id' ip' Hip') as H'.
  destruct id; try discriminate; injection Hip as <-; destruct id'; try discriminate; injection Hip' as <-; done.
Qed.

(** A parameter that is not an integer changes one of the other fields. *)
Ltac wf_field Hwf :=
  split; [done|]; destruct Hwf as (Hint & ? & ? & ? & ? & ? & ? & ? & ?); split_and!; try done;
  let id := fresh "id" in let ip := fresh "ip" in let Hip := fresh "Hip" in
  intros id ip Hip; pose proof (Hint id ip Hip); destruct id; try discriminate; by injection Hip as <-.

Lemma safe_read_int id ip n s bs :
  bytes_ok bs → params_wf (rs_params s) → int_param id = Some ip →
  safe (value ← plift VarInt_decode; size ← total (VarInt_size value);
        if negb (n =? size) || bool_decide (id ∈ rs_got s) then mfail MalformedParams
        else mret (mkReadState (ip_set ip (rs_params s) (into_inner value)) (id :: rs_got s)))
       (valued (fun s => params_wf (rs_params s))) bs.
Proof.
  intros Hb Hwf Hip. eapply safe_bind, safe_mono; [by apply safe_plift_var|]. intros [v] r _ _ [Hr Hv].
  apply safe_bind. unfold total at 1. rewrite VarInt_size_ok by done. split; [by exists []|].
  destruct (_ || _); [apply safe_fail|]. apply safe_ret. split; [done|]. by eapply params_wf_set_int.
Qed.

(** Every reader keeps the parameters well formed. *)
Lemma safe_read_value id n s bs :
  bytes_ok bs → 0 <= n <= len bs → params_wf (rs_params s) →
  safe (read_value id n s) (valued (fun s => params_wf (rs_params s))) bs.
Proof.
  intros Hb Hn Hwf. destruct id; cbn [read_value int_param]; try (by eapply safe_read_int).
  - eapply safe_bind, safe_mono; [by apply safe_decode_cid; [|lia]|]. intros c r _ _ [Hr Hc]. apply safe_ret. wf_field Hwf.
  - destruct (Z.eqb_spec n 16); [|apply safe_fail]. destruct (is_some _); [apply safe_fail|]. cbn [negb orb].
    eapply safe_bind, safe_mono; [apply safe_take_bytes; [done|unfold RESET_TOKEN_SIZE; lia]|]. intros t r _ _ [Hr Ht].
    apply safe_ret. wf_field Hwf.
  - destruct (_ || _); [apply safe_fail|]. apply safe_ret. wf_field Hwf.
  - destruct (is_some _); [apply safe_fail|]. eapply safe_bind, safe_mono.
    { apply safe_limited; [done|]. apply safe_read_preferred. by apply Forall_take. }
    intros a r _ _ [Hr Ha]. apply safe_ret. wf_field Hwf.
  - eapply safe_bind, safe_mono; [by apply safe_decode_cid; [|lia]|]. intros c r _ _ [Hr Hc]. apply safe_ret. wf_field Hwf.
  - eapply safe_bind, safe_mono; [by apply safe_decode_cid; [|lia]|]. intros c r _ _ [Hr Hc]. apply safe_ret. wf_field Hwf.
  - eapply safe_bind, safe_mono; [by apply safe_skip|]. intros _ r _ _ [Hr _]. by apply safe_ret.
  - destruct (_ || _); [apply safe_fail|]. eapply safe_bind, safe_mono; [by apply safe_plift_var|].
    intros v r _ _ [Hr Hv]. apply safe_ret. wf_field Hwf.
  - destruct (n =? 0); [|apply safe_fail]. apply safe_ret. wf_field Hwf.
  - eapply safe_bind, safe_mono; [by apply safe_plift_var|]. intros v r _ _ [Hr Hv]. apply safe_ret. wf_field Hwf.
Qed.

Lemma safe_plift_get_var bs :
  bytes_ok bs → safe (plift get_var) (fun x r => bytes_ok r ∧ len r < len bs ∧ 0 <= x < 2 ^ 62) bs.
Proof.
  intros Hb. unfold safe, plift, map_err. destruct (get_var bs) as [[x|] r] eqn:Hg; [|done].
  pose proof (get_var_range _ _ _ Hb Hg). destruct (get_var_local _ _ _ Hg) as (k & -> & Hk & _). split; [by exists k|].
  split; [by eapply bytes_suffix|]. rewrite len_app. destruct k; [done|]. rewrite len_cons. pose proof (len_nonneg k). lia.
Qed.

Lemma safe_read_one s bs :
  bytes_ok bs → params_wf (rs_params s) →
  safe (read_one s) (fun s r => bytes_ok r ∧ len r < len bs ∧ params_wf (rs_params s)) bs.
Proof.
  intros Hb Hwf. eapply safe_bind, safe_mono; [by apply safe_plift_get_var|]. intros id r1 _ _ (Hr1 & Hl1 & _).
  eapply safe_bind, safe_mono; [by apply safe_plift_get_var|]. intros n r2 _ _ (Hr2 & Hl2 & Hn).
  apply safe_bind, safe_remaining. destruct (Z.ltb_spec (len r2) n); [apply safe_fail|].
  destruct (id_try_from id) as [i|].
  - eapply safe_mono; [apply safe_read_value; [done|lia|done]|]. intros s' r k Hk%suffix_len [Hr Hs']. split_and!; [done|lia|done].
  - eapply safe_bind, safe_mono; [apply safe_skip; [done|lia]|]. intros _ r k Hk%suffix_len [Hr _]. apply safe_ret. split_and!; [done|lia|done].
Qed.

(** The loop ends with nothing left. *)
Lemma safe_read_loop fuel s bs :
  bytes_ok bs → params_wf (rs_params s) → (length bs <= fuel)%nat →
  safe (read_loop fuel s) (fun s r => r = [] ∧ params_wf (rs_params s)) bs.
Proof.
  revert s bs. induction fuel as [|fuel IH]; intros s [|b bs] Hb Hwf Hf; try (by split; [exists []|]); [cbn in Hf; lia|].
  unfold safe. rewrite read_loop_step by done. apply safe_bind. eapply safe_mono; [by apply safe_read_one|].
  intros s' r _ _ (Hr & Hl & Hs'). apply IH; [done..|]. unfold len in Hl. lia.
Qed.

Lemma default_wf : params_wf TransportParameters_default.
Proof. split; [|done]. intros id ip Hip. destruct id; try discriminate; injection Hip as <-; split; by vm_compute. Qed.

(** * Properties *)


(** Parameters are written and read back. *)
Lemma params_written_and_read side p :
  params_wf p → illegal side p = false → match write_order p with Some o => o ≡ₚ seqZ 0 21 | None => True end →
  ∃ bs, TransportParameters_write p = Ret bs ∧
    TransportParameters_read side bs = Ret (Ok (restrict (fun _ => true) p), []).
Proof.
  intros Hwf Hlegal Hord. set (ids := match write_order p with Some o => o | None => seqZ 0 (len SUPPORTED) end).
  assert (Hids : ids ≡ₚ seqZ 0 21) by (unfold ids; destruct (write_order p); [done|reflexivity]).
  assert (Hf : fresh_ids (fun _ => false) ids).
  { split; [|rewrite Hids; apply NoDup_seqZ]. rewrite Hids. apply Forall_forall. intros i Hi%elem_of_seqZ. split; [lia|done]. }
  destruct (write_params_ok p ids _ Hwf Hf) as [bs Hbs]. exists bs. split; [exact Hbs|].
  destruct (read_written p ids (fun _ => false) (mkReadState TransportParameters_default []) (length bs) bs)
    as (s' & Hread & Hs' & _); try done; [split; [done|by intros id ?%elem_of_nil]|].
  assert (Hall : ∀ id, add_all (ids_of ids) (fun _ => false) id = true).
  { intros id. apply add_all_spec. right. apply all_ids, Hids. }
  unfold TransportParameters_read, mbind, mparser_bind. rewrite Hread, Hs', (restrict_ext _ (fun _ => true) p Hall).
  by rewrite (illegal_restrict side p), Hlegal.
Qed.

(** C33: whatever the order in which they are written, legal transport parameters are written without panic,
    and the peer reads back the same parameters; only the reserved parameter and the order, which carry no meaning,
    are lost. *)
Theorem transport_params_roundtrip side p :
  params_wf p → illegal side p = false → match write_order p with Some o => o ≡ₚ seqZ 0 21 | None => True end →
  ∃ bs, TransportParameters_write p = Ret bs ∧
    TransportParameters_read side bs = Ret (Ok (restrict (fun _ => true) p), []).
Proof. apply params_written_and_read. Qed.

(** A server's parameters, with a preferred address, written in reverse order. *)
Definition example_cid : ConnectionId := mkConnectionId 4 ([1; 2; 3; 4] ++ replicate 16 0).
Definition example_params : TransportParameters :=
  mkTransportParameters 30000 1472 1000000 65536 65536 65536 100 100 3 25 5 true (Some 65535) (Some example_cid) true
    (Some 1000) (Some example_cid) None (Some (mkResetToken (replicate 16 7)))
    (Some (mkPreferredAddress (Some (mkSocketAddrV4 [192; 0; 2; 1] 4433)) None example_cid (mkResetToken (replicate 16 9))))
    (Some (mkReserved 27 (replicate 16 5) 3)) (Some (reverse (seqZ 0 21))).

Lemma example_params_wf : params_wf example_params.
Proof.
  split; [|unfold opt_wf, example_params, address_wf, cid_wf; cbn; split_and!; done || lia].
  intros id ip Hip. destruct id; try discriminate; injection Hip as <-; split; by vm_compute.
Qed.

Lemma transport_params_roundtrip_witness :
  ∃ bs, TransportParameters_write example_params = Ret bs ∧
    TransportParameters_read Client bs = Ret (Ok (restrict (fun _ => true) example_params), []).
Proof.
  apply (transport_params_roundtrip Client example_params example_params_wf); [by vm_compute|].
  apply reverse_Permutation.
Defined.


(** ** Values the reader lets through *)

(** [min_ack_delay] may be given twice, and its length is not compared with the size of its value: the bytes
    that follow are then read as parameters of their own, here a [max_idle_timeout]. *)
Lemma min_ack_delay_unchecked :
  TransportParameters_read Client
    ([0xc0; 0; 0; 0; 0xff; 0x04; 0xde; 0x1b; 0; 5] ++ [0xc0; 0; 0; 0; 0xff; 0x04; 0xde; 0x1b; 4; 6; 1; 1; 10]) =
  Ret (Ok (set_max_idle_timeout (set_min_ack_delay TransportParameters_default (Some 6)) 10), []).
Proof. by vm_compute. Qed.

(** [max_datagram_frame_size] with a declared length of 4 and a value of one byte: the rest of the parameter is
    read as parameters. *)
Lemma datagram_size_length_unchecked :
  TransportParameters_read Client [0x20; 4; 5; 1; 1; 10] =
    Ret (Ok (set_max_idle_timeout (set_max_datagram_frame_size TransportParameters_default (Some 5)) 10), []).
Proof. by vm_compute. Qed.
