(* ===== verification/Mtud.v ===== *)
(** Path MTU discovery: [quic-proto/src/connection/mtud.rs].

    Sizes are [u16] and packet numbers [u64]; [usub] panics where the source would underflow.
    Instants and durations are in nanoseconds. *)
From S2P Require Import Prelude Coding Shared Packet.

Definition MAX_PROBE_RETRANSMITS : Z := 3.
Definition BLACK_HOLE_THRESHOLD : Z := 3.

(** * State *)

Record MtuDiscoveryConfig : Type := mkMtuDiscoveryConfig {
  interval : Z; cfg_upper_bound : Z; cfg_minimum_change : Z; black_hole_cooldown : Z }.
Definition MtuDiscoveryConfig_default : MtuDiscoveryConfig := mkMtuDiscoveryConfig (600 * 10 ^ 9) 1452 20 (60 * 10 ^ 9).

Record SearchState : Type := mkSearchState {
  lower_bound : Z;
  upper_bound : Z;
  minimum_change : Z;
  last_probed_mtu : Z;
  in_flight_probe : option Z;
  lost_probe_count : Z
}.

Inductive Phase : Type := PhInitial | PhSearching (s : SearchState) | PhComplete (next_mtud_activation : Z).

Record EnabledMtuDiscovery : Type := mkEnabled {
  phase : Phase; peer_max_udp_payload_size : Z; em_config : MtuDiscoveryConfig }.

Record LossBurst : Type := mkLossBurst { lb_smallest_packet_size : Z }.
Record CurrentLossBurst : Type := mkCurrentLossBurst { cb_smallest_packet_size : Z; latest_non_probe : Z }.

Record BlackHoleDetector : Type := mkBlackHoleDetector {
  suspicious_loss_bursts : list LossBurst;
  current_loss_burst : option CurrentLossBurst;
  largest_post_loss_packet : Z;
  acked_mtu : Z;
  min_mtu : Z
}.

Record MtuDiscovery : Type := mkMtuDiscovery {
  current_mtu : Z; state : option EnabledMtuDiscovery; black_hole_detector : BlackHoleDetector }.

(** * The binary search *)

Definition SearchState_new (lower_bound peer_max_udp_payload_size : Z) (config : MtuDiscoveryConfig) : M SearchState :=
  let lower_bound := Z.min lower_bound peer_max_udp_payload_size in
  (* [clamp] panics when its bounds are not ordered *)
  _ ← rassert (lower_bound <=? peer_max_udp_payload_size);
  let upper_bound := Z.min (Z.max (cfg_upper_bound config) lower_bound) peer_max_udp_payload_size in
  mret (mkSearchState lower_bound upper_bound (cfg_minimum_change config) lower_bound None 0).

Definition next_mtu_to_probe (s : SearchState) (last_probe_succeeded : bool) : M (option Z * SearchState) :=
  _ ← rassert (bool_decide (in_flight_probe s = None));
  '(lower, upper) ←
    (if last_probe_succeeded then mret (last_probed_mtu s, upper_bound s)
     else u ← usub (last_probed_mtu s) 1; mret (lower_bound s, u));
  let s := mkSearchState lower upper (minimum_change s) (last_probed_mtu s) (in_flight_probe s) (lost_probe_count s) in
  let next_mtu := (lower + upper) / 2 in
  mret (if Z.abs (next_mtu - last_probed_mtu s) <? minimum_change s then
          if minimum_change s <=? sat_sub upper (last_probed_mtu s) then Some upper else None
        else Some next_mtu, s).

(** * Enabled discovery *)

Definition EnabledMtuDiscovery_new (config : MtuDiscoveryConfig) : EnabledMtuDiscovery :=
  mkEnabled PhInitial MAX_UDP_PAYLOAD config.

Definition set_phase (e : EnabledMtuDiscovery) (p : Phase) : EnabledMtuDiscovery :=
  mkEnabled p (peer_max_udp_payload_size e) (em_config e).

(** The search a poll continues: a new one at the start and after the activation time; [None] before it. *)
Definition search_at (e : EnabledMtuDiscovery) (now current_mtu : Z) : M (option SearchState) :=
  let new := s ← SearchState_new current_mtu (peer_max_udp_payload_size e) (em_config e); mret (Some s) in
  match phase e with
  | PhInitial => new
  | PhComplete next_mtud_activation => if now <? next_mtud_activation then mret None else new
  | PhSearching s => mret (Some s)
  end.

Definition enabled_poll_transmit (e : EnabledMtuDiscovery) (now current_mtu next_pn : Z)
    : M (option Z * EnabledMtuDiscovery) :=
  search ← search_at e now current_mtu;
  match search with
  | None => mret (None, e)
  | Some s =>
      match in_flight_probe s with
      | Some _ => mret (None, set_phase e (PhSearching s))
      | None =>
          if (0 <? lost_probe_count s) && (lost_probe_count s <? MAX_PROBE_RETRANSMITS) then
            mret (Some (last_probed_mtu s),
                  set_phase e (PhSearching (mkSearchState (lower_bound s) (upper_bound s) (minimum_change s)
                                              (last_probed_mtu s) (Some next_pn) (lost_probe_count s))))
          else
            let last_probe_succeeded := lost_probe_count s =? 0 in
            let s := if last_probe_succeeded then s
                     else mkSearchState (lower_bound s) (upper_bound s) (minimum_change s) (last_probed_mtu s) None 0 in
            '(next, s) ← next_mtu_to_probe s last_probe_succeeded;
            match next with
            | Some probe_udp_payload_size =>
                mret (Some probe_udp_payload_size,
                      set_phase e (PhSearching (mkSearchState (lower_bound s) (upper_bound s) (minimum_change s)
                                                  probe_udp_payload_size (Some next_pn) (lost_probe_count s))))
            | None => mret (None, set_phase e (PhComplete (now + interval (em_config e))))
            end
      end
  end.

Definition enabled_on_probe_acked (e : EnabledMtuDiscovery) (pn : Z) : option Z * EnabledMtuDiscovery :=
  match phase e with
  | PhSearching s =>
      if bool_decide (in_flight_probe s = Some pn) then
        (Some (last_probed_mtu s),
         set_phase e (PhSearching (mkSearchState (lower_bound s) (upper_bound s) (minimum_change s) (last_probed_mtu s) None 0)))
      else (None, e)
  | _ => (None, e)
  end.

Definition enabled_on_probe_lost (e : EnabledMtuDiscovery) : EnabledMtuDiscovery :=
  match phase e with
  | PhSearching s =>
      set_phase e (PhSearching (mkSearchState (lower_bound s) (upper_bound s) (minimum_change s) (last_probed_mtu s) None
                                  (lost_probe_count s + 1)))
  | _ => e
  end.

Definition enabled_on_black_hole_detected (e : EnabledMtuDiscovery) (now : Z) : EnabledMtuDiscovery :=
  set_phase e (PhComplete (now + black_hole_cooldown (em_config e))).

(** * Black hole detection *)

Definition BlackHoleDetector_new (min_mtu : Z) : BlackHoleDetector := mkBlackHoleDetector [] None 0 min_mtu min_mtu.

Definition detector_on_probe_acked (d : BlackHoleDetector) (pn len : Z) : BlackHoleDetector :=
  mkBlackHoleDetector [] (current_loss_burst d) pn len (min_mtu d).

Definition detector_on_non_probe_acked (d : BlackHoleDetector) (pn len : Z) : BlackHoleDetector :=
  if len <=? acked_mtu d then d
  else mkBlackHoleDetector (filter (fun burst => len < lb_smallest_packet_size burst) (suspicious_loss_bursts d))
         (current_loss_burst d) pn len (min_mtu d).

(** [iter_mut().min_by_key(..)]: the index of the first burst of smallest size. *)
Fixpoint min_burst (l : list LossBurst) : option (nat * LossBurst) :=
  match l with
  | [] => None
  | b :: l =>
      match min_burst l with
      | Some (i, m) => if lb_smallest_packet_size m <? lb_smallest_packet_size b then Some (S i, m) else Some (0%nat, b)
      | None => Some (0%nat, b)
      end
  end.

Definition finish_loss_burst (d : BlackHoleDetector) : BlackHoleDetector :=
  match current_loss_burst d with
  | None => d
  | Some burst =>
      let d := mkBlackHoleDetector (suspicious_loss_bursts d) None (largest_post_loss_packet d) (acked_mtu d) (min_mtu d) in
      if (cb_smallest_packet_size burst <=? min_mtu d) ||
         (latest_non_probe burst <? largest_post_loss_packet d) && (cb_smallest_packet_size burst <=? acked_mtu d)
      then d
      else
        let acked := if largest_post_loss_packet d <? latest_non_probe burst then min_mtu d else acked_mtu d in
        let b := mkLossBurst (cb_smallest_packet_size burst) in
        let bursts :=
          if len (suspicious_loss_bursts d) <=? BLACK_HOLE_THRESHOLD then suspicious_loss_bursts d ++ [b]
          else
            match min_burst (suspicious_loss_bursts d) with
            | Some (i, prev) =>
                if lb_smallest_packet_size prev <? lb_smallest_packet_size b then <[i := b]> (suspicious_loss_bursts d)
                else suspicious_loss_bursts d
            | None => suspicious_loss_bursts d
            end in
        mkBlackHoleDetector bursts None (largest_post_loss_packet d) acked (min_mtu d)
  end.

Definition detector_on_non_probe_lost (d : BlackHoleDetector) (pn len : Z) : M BlackHoleDetector :=
  end_last_burst ← match current_loss_burst d with
                   | Some current => x ← usub pn (latest_non_probe current); mret (negb (x =? 1))
                   | None => mret false
                   end;
  let d := if (end_last_burst : bool) then finish_loss_burst d else d in
  mret (mkBlackHoleDetector (suspicious_loss_bursts d)
          (Some (mkCurrentLossBurst
                   (match current_loss_burst d with Some prev => Z.min (cb_smallest_packet_size prev) len | None => len end) pn))
          (largest_post_loss_packet d) (acked_mtu d) (min_mtu d)).

Definition detector_black_hole_detected (d : BlackHoleDetector) : bool * BlackHoleDetector :=
  let d := finish_loss_burst d in
  if len (suspicious_loss_bursts d) <=? BLACK_HOLE_THRESHOLD then (false, d)
  else (true, mkBlackHoleDetector [] (current_loss_burst d) (largest_post_loss_packet d) (acked_mtu d) (min_mtu d)).

(** * [MtuDiscovery] *)

Definition with_state (current_mtu min_mtu : Z) (state : option EnabledMtuDiscovery) : MtuDiscovery :=
  mkMtuDiscovery current_mtu state (BlackHoleDetector_new min_mtu).

Definition is_searching (p : Phase) : bool := match p with PhSearching _ => true | _ => false end.

Definition on_peer_max_udp_payload_size_received (d : MtuDiscovery) (peer_max : Z) : M MtuDiscovery :=
  state ← match state d with
          | Some e =>
              _ ← rassert (negb (is_searching (phase e)));
              mret (Some (mkEnabled (phase e) peer_max (em_config e)))
          | None => mret None
          end;
  mret (mkMtuDiscovery (Z.min (current_mtu d) peer_max) state (black_hole_detector d)).

Definition MtuDiscovery_new (initial_plpmtu min_mtu : Z) (peer_max : option Z) (config : MtuDiscoveryConfig) : M MtuDiscovery :=
  _ ← rassert (min_mtu <=? initial_plpmtu);
  let mtud := with_state initial_plpmtu min_mtu (Some (EnabledMtuDiscovery_new config)) in
  match peer_max with Some m => on_peer_max_udp_payload_size_received mtud m | None => mret mtud end.

Definition MtuDiscovery_disabled (plpmtu min_mtu : Z) : MtuDiscovery := with_state plpmtu min_mtu None.

Definition MtuDiscovery_reset (d : MtuDiscovery) (mtu min_mtu : Z) : M MtuDiscovery :=
  let d := mkMtuDiscovery mtu (state d) (black_hole_detector d) in
  d ← match state d with
      | Some e =>
          on_peer_max_udp_payload_size_received
            (mkMtuDiscovery mtu (Some (EnabledMtuDiscovery_new (em_config e))) (black_hole_detector d))
            (peer_max_udp_payload_size e)
      | None => mret d
      end;
  mret (mkMtuDiscovery (current_mtu d) (state d) (BlackHoleDetector_new min_mtu)).

Definition mtud_poll_transmit (d : MtuDiscovery) (now next_pn : Z) : M (option Z * MtuDiscovery) :=
  match state d with
  | Some e =>
      '(r, e) ← enabled_poll_transmit e now (current_mtu d) next_pn;
      mret (r, mkMtuDiscovery (current_mtu d) (Some e) (black_hole_detector d))
  | None => mret (None, d)
  end.

Definition mtud_on_acked (d : MtuDiscovery) (space : SpaceId) (pn len : Z) : bool * MtuDiscovery :=
  if negb (bool_decide (space = SpData)) then (false, d)
  else
    let '(r, state) := match state d with
                       | Some e => let '(r, e) := enabled_on_probe_acked e pn in (r, Some e)
                       | None => (None, None)
                       end in
    match r with
    | Some new_mtu => (true, mkMtuDiscovery new_mtu state (detector_on_probe_acked (black_hole_detector d) pn len))
    | None => (false, mkMtuDiscovery (current_mtu d) state (detector_on_non_probe_acked (black_hole_detector d) pn len))
    end.

Definition in_flight_mtu_probe (d : MtuDiscovery) : option Z :=
  match state d with
  | Some e => match phase e with PhSearching s => in_flight_probe s | _ => None end
  | None => None
  end.

Definition mtud_on_probe_lost (d : MtuDiscovery) : MtuDiscovery :=
  mkMtuDiscovery (current_mtu d) (enabled_on_probe_lost <$> state d) (black_hole_detector d).

Definition mtud_on_non_probe_lost (d : MtuDiscovery) (pn len : Z) : M MtuDiscovery :=
  b ← detector_on_non_probe_lost (black_hole_detector d) pn len;
  mret (mkMtuDiscovery (current_mtu d) (state d) b).

Definition mtud_black_hole_detected (d : MtuDiscovery) (now : Z) : bool * MtuDiscovery :=
  let '(r, b) := detector_black_hole_detected (black_hole_detector d) in
  if negb r then (false, mkMtuDiscovery (current_mtu d) (state d) b)
  else (true, mkMtuDiscovery (min_mtu b) ((fun e => enabled_on_black_hole_detected e now) <$> state d) b).

(** * The search on a path of fixed MTU *)

(** A path that carries the datagrams of up to [path_mtu] bytes and no others: probes are sent and answered until
    discovery has none to send; [None] when the fuel runs out first. *)
Fixpoint mtud_search (fuel : nat) (path_mtu : Z) (d : MtuDiscovery) (now pn : Z) : M (option MtuDiscovery) :=
  '(probe, d) ← mtud_poll_transmit d now pn;
  match probe with
  | None => mret (Some d)
  | Some size =>
      match fuel with
      | O => mret None
      | S fuel =>
          let d := if size <=? path_mtu then (mtud_on_acked d SpData pn size).2 else mtud_on_probe_lost d in
          mtud_search fuel path_mtu d now (pn + 1)
      end
  end.

(** Between two probes: the last size was acknowledged, or lost [lost_probe_count] times. *)
Record search_ok (path_mtu best current : Z) (s : SearchState) : Prop := {
  so_idle : in_flight_probe s = None;
  so_change : 1 <= minimum_change s;
  so_lower : 0 <= lower_bound s <= path_mtu;
  so_lost : 0 <= lost_probe_count s <= MAX_PROBE_RETRANSMITS;
  so_best : best <= upper_bound s ∧ best <= path_mtu;
  so_last : if lost_probe_count s =? 0
            then last_probed_mtu s = current ∧ lower_bound s <= current <= path_mtu ∧ current <= upper_bound s
            else lower_bound s = current ∧ path_mtu < last_probed_mtu s <= upper_bound s
}.

Definition potential (s : SearchState) : Z :=
  if lost_probe_count s =? 0 then 4 * (upper_bound s - last_probed_mtu s) + 1
  else 4 * (last_probed_mtu s - 1 - lower_bound s) + 2 + (MAX_PROBE_RETRANSMITS - lost_probe_count s).

(** The next probe of a search, or its end. *)
Lemma next_probe path_mtu best current s :
  search_ok path_mtu best current s → lost_probe_count s = 0 ∨ lost_probe_count s = MAX_PROBE_RETRANSMITS →
  let s0 := mkSearchState (lower_bound s) (upper_bound s) (minimum_change s) (last_probed_mtu s) None 0 in
  ∃ r s', next_mtu_to_probe s0 (lost_probe_count s =? 0) = Ret (r, s') ∧ in_flight_probe s' = None ∧ lost_probe_count s' = 0 ∧
    minimum_change s' = minimum_change s ∧ lower_bound s' = current ∧ best <= upper_bound s' ∧ current <= path_mtu ∧
    match r with
    | None => best - current < 2 * minimum_change s
    | Some size =>
        current <= size <= upper_bound s' ∧
        4 * (upper_bound s' - size) + 1 < potential s ∧ (path_mtu < size → 4 * (size - 1 - current) + 4 < potential s)
    end.
Proof.
  intros [Hid Hc Hlo Hlost [Hb1 Hb2] Hlast] Hcase s0. unfold next_mtu_to_probe, potential, MAX_PROBE_RETRANSMITS in *.
  cbn [s0 in_flight_probe last_probed_mtu upper_bound lower_bound minimum_change lost_probe_count].
  rewrite bool_decide_true by done. cbn [rassert mbind M_bind].
  destruct Hcase as [Hl|Hl]; rewrite Hl in *; cbn [Z.eqb] in *.
  - destruct Hlast as (Hlast & Hcur & Hup). rewrite Hlast in *. cbn [mbind M_bind mret M_ret].
    eexists _, _. split; [done|]. cbn [in_flight_probe last_probed_mtu upper_bound lower_bound minimum_change lost_probe_count].
    do 6 (split; [first [done|lia]|]). pose proof (Z.div_mod (current + upper_bound s) 2 ltac:(lia)) as Hd.
    pose proof (Z.mod_pos_bound (current + upper_bound s) 2 ltac:(lia)).
    unfold sat_sub. zcases; try lia.
  - destruct Hlast as (Hcur & Hp). rewrite usub_ok by lia. cbn [mbind M_bind mret M_ret].
    eexists _, _. split; [done|]. cbn [in_flight_probe last_probed_mtu upper_bound lower_bound minimum_change lost_probe_count].
    do 6 (split; [first [done|lia]|]). rewrite Hcur in *.
    pose proof (Z.div_mod (current + (last_probed_mtu s - 1)) 2 ltac:(lia)) as Hd.
    pose proof (Z.mod_pos_bound (current + (last_probed_mtu s - 1)) 2 ltac:(lia)).
    unfold sat_sub. zcases; try lia.
Qed.

Lemma on_acked_probe c e st b pn size :
  in_flight_probe st = Some pn →
  (mtud_on_acked (mkMtuDiscovery c (Some (set_phase e (PhSearching st))) b) SpData pn size).2 =
    mkMtuDiscovery (last_probed_mtu st)
      (Some (set_phase e (PhSearching (mkSearchState (lower_bound st) (upper_bound st) (minimum_change st) (last_probed_mtu st) None 0))))
      (detector_on_probe_acked b pn size).
Proof.
  intros Hf. unfold mtud_on_acked. rewrite bool_decide_true by done. cbn [negb state].
  unfold enabled_on_probe_acked. cbn [phase set_phase]. by rewrite bool_decide_true.
Qed.

(** One probe and its answer. *)
Lemma probe_round path_mtu best d e s now pn :
  state d = Some e → phase e = PhSearching s → search_ok path_mtu best (current_mtu d) s →
  (∃ d' e' t, mtud_poll_transmit d now pn = Ret (None, d') ∧ state d' = Some e' ∧ phase e' = PhComplete t ∧
     current_mtu d' = current_mtu d ∧ current_mtu d <= path_mtu ∧ best - current_mtu d < 2 * minimum_change s) ∨
  (∃ size d1 e' s', mtud_poll_transmit d now pn = Ret (Some size, d1) ∧
     let d2 := if size <=? path_mtu then (mtud_on_acked d1 SpData pn size).2 else mtud_on_probe_lost d1 in
     state d2 = Some e' ∧ phase e' = PhSearching s' ∧ search_ok path_mtu best (current_mtu d2) s' ∧
     potential s' < potential s ∧ minimum_change s' = minimum_change s ∧ current_mtu d <= current_mtu d2).
Proof.
  intros He Hph Hok. unfold mtud_poll_transmit. rewrite He. unfold enabled_poll_transmit, search_at. rewrite Hph.
  cbn [mbind M_bind mret M_ret]. rewrite (so_idle _ _ _ _ Hok). pose proof (so_lost _ _ _ _ Hok) as Hl. unfold MAX_PROBE_RETRANSMITS in Hl.
  destruct (decide (lost_probe_count s = 1 ∨ lost_probe_count s = 2)) as [Hre|Hre].
  - (* the same size again *)
    right. unfold MAX_PROBE_RETRANSMITS. destruct (Z.ltb_spec 0 (lost_probe_count s)); [|lia].
    destruct (Z.ltb_spec (lost_probe_count s) 3); [|lia]. cbn [andb mbind M_bind mret M_ret].
    destruct Hok as [Hid Hc Hlo Hlost [Hb1 Hb2] Hlast]. destruct (Z.eqb_spec (lost_probe_count s) 0); [lia|].
    destruct Hlast as (Hcur & Hp1 & Hp2). eexists _, _, _, _. split; [reflexivity|]. cbn zeta.
    destruct (Z.leb_spec (last_probed_mtu s) path_mtu); [lia|]. split; [reflexivity|]. split; [reflexivity|].
    cbn [current_mtu mtud_on_probe_lost]. split; [|split; [|split; [done|lia]]].
    + split; cbn [in_flight_probe minimum_change lower_bound upper_bound last_probed_mtu lost_probe_count]; try done.
      * unfold MAX_PROBE_RETRANSMITS. lia.
      * destruct (Z.eqb_spec (lost_probe_count s + 1) 0); [lia|]. lia.
    + unfold potential. cbn [in_flight_probe minimum_change lower_bound upper_bound last_probed_mtu lost_probe_count].
      destruct (Z.eqb_spec (lost_probe_count s) 0); [lia|]. destruct (Z.eqb_spec (lost_probe_count s + 1) 0); lia.
  - destruct (next_probe path_mtu best (current_mtu d) s Hok) as (r & s1 & Hn & Hid & Hl0 & Hmc & Hlow & Hb & Hcp & Hr);
      [unfold MAX_PROBE_RETRANSMITS; lia|].
    assert (Hs : (if lost_probe_count s =? 0 then s
      else mkSearchState (lower_bound s) (upper_bound s) (minimum_change s) (last_probed_mtu s) None 0)
      = mkSearchState (lower_bound s) (upper_bound s) (minimum_change s) (last_probed_mtu s) None 0).
    { destruct (Z.eqb_spec (lost_probe_count s) 0) as [H0|]; [|done]. pose proof (so_idle _ _ _ _ Hok) as Hi.
      destruct s. cbn in *. by subst. }
    rewrite Hs, Hn. unfold MAX_PROBE_RETRANSMITS.
    replace ((0 <? lost_probe_count s) && (lost_probe_count s <? 3)) with false by lia.
    cbn [mbind M_bind mret M_ret]. destruct r as [size|].
    + right. destruct Hr as (Hsz & Hp1 & Hp2). exists size. eexists.
      pose proof (so_change _ _ _ _ Hok). pose proof (so_best _ _ _ _ Hok). pose proof (so_lower _ _ _ _ Hok).
      assert (0 <= current_mtu d) by (pose proof (so_last _ _ _ _ Hok); destruct (lost_probe_count s =? 0); lia).
      destruct (Z.leb_spec size path_mtu); eexists _, _; (split; [reflexivity|]); cbn zeta;
        [rewrite on_acked_probe by done|]; (split; [reflexivity|]); (split; [reflexivity|]);
        cbn [current_mtu mtud_on_probe_lost last_probed_mtu lower_bound upper_bound minimum_change].
      * split; [|split; [exact Hp1|split; [done|lia]]].
        split; cbn [in_flight_probe minimum_change lower_bound upper_bound last_probed_mtu lost_probe_count];
          unfold MAX_PROBE_RETRANSMITS; cbn [Z.eqb Z.add]; try done; try lia.
      * rewrite Hl0. split; [|split; [|split; [done|lia]]].
        -- split; cbn [in_flight_probe minimum_change lower_bound upper_bound last_probed_mtu lost_probe_count];
          unfold MAX_PROBE_RETRANSMITS; try (change (0 + 1 =? 0) with false); try done; cbv iota; try lia.
        -- unfold potential at 1, MAX_PROBE_RETRANSMITS. cbn [lost_probe_count last_probed_mtu lower_bound].
           change (0 + 1 =? 0) with false. cbv iota. lia.
    + left. eexists _, _, _. split; [reflexivity|]. split; [reflexivity|]. split; [reflexivity|]. done.
Qed.

Lemma potential_pos path_mtu best current s : search_ok path_mtu best current s → 1 <= potential s.
Proof.
  intros [_ _ Hlo Hlost _ Hlast]. unfold potential, MAX_PROBE_RETRANSMITS in *. destruct (lost_probe_count s =? 0); lia.
Qed.

Lemma search_loop path_mtu best fuel d e s now pn :
  state d = Some e → phase e = PhSearching s → search_ok path_mtu best (current_mtu d) s → potential s <= Z.of_nat fuel →
  ∃ d' e' t, mtud_search fuel path_mtu d now pn = Ret (Some d') ∧ state d' = Some e' ∧ phase e' = PhComplete t ∧
    current_mtu d <= current_mtu d' <= path_mtu ∧ best - current_mtu d' < 2 * minimum_change s.
Proof.
  revert d e s pn. induction fuel as [|fuel IH]; intros d e s pn He Hph Hok Hf; pose proof (potential_pos _ _ _ _ Hok) as Hpos;
    [lia|].
  destruct (probe_round path_mtu best d e s now pn He Hph Hok)
    as [(d' & e' & t & Hp & He' & Hph' & Hcur & Hcp & Hbest)|(size & d1 & e' & s' & Hp & He' & Hph' & Hok' & Hpot & Hmc & Hle)];
    cbn [mtud_search]; rewrite Hp; cbn [mbind M_bind].
  - exists d', e', t. rewrite Hcur. split; [done|]. split; [done|]. split; [done|]. lia.
  - destruct (IH _ e' s' (pn + 1) He' Hph' Hok' ltac:(lia)) as (d' & e2 & t & Hrun & He2 & Hph2 & Hcur & Hbest).
    exists d', e2, t. split; [exact Hrun|]. split; [done|]. split; [done|]. rewrite Hmc in Hbest. lia.
Qed.

(** * Properties *)



(** With a minimum change of zero, which the configuration accepts, the search goes on for ever: it keeps probing
    the size it has already reached. *)
Lemma zero_minimum_change_never_stops c u n now pn :
  0 <= c → let s := mkSearchState c c 0 c None 0 in
  enabled_poll_transmit (mkEnabled (PhSearching s) u n) now c pn =
    Ret (Some c, mkEnabled (PhSearching (mkSearchState c c 0 c (Some pn) 0)) u n).
Proof.
  intros Hc s. unfold enabled_poll_transmit. cbn [search_at phase s mbind M_bind mret M_ret in_flight_probe lost_probe_count].
  cbn [Z.ltb Z.compare andb Z.eqb]. unfold next_mtu_to_probe. rewrite bool_decide_true by done.
  cbn [rassert mbind M_bind mret M_ret last_probed_mtu upper_bound minimum_change].
  unfold s. cbn [last_probed_mtu upper_bound minimum_change].
  replace ((c + c) / 2) with c by (rewrite Z.add_diag, Z.mul_comm, Z.div_mul; lia).
  destruct (Z.ltb_spec (Z.abs (c - c)) 0); [lia|done].
Qed.
