(* ===== verification/CidQueue.v ===== *)
(** The peer's connection ids: [CidQueue] of [quic-proto/src/cid_queue.rs].

    The implementation is a ring buffer of five slots.  Its specification is a finite map from
    sequence numbers to connection ids together with the active sequence number; the
    ring refines it by a forward simulation. *)
From stdpp Require Import gmap.
From S2P Require Import Prelude Coding Ids Shared Frame.
Open Scope Z_scope.

(** * Implementation *)

Definition CidData : Type := ConnectionId * option ResetToken.

Definition LEN : Z := 5.

Record CidQueue : Type := mkCidQueue {
  buffer : list (option CidData);
  cursor : Z;
  offset : Z
}.

Inductive InsertError : Type := Retired | ExceedsLimit.

(** [self.buffer[i]] as a value and as an assignment; an index outside the array
    panics. *)
Definition bget (b : list (option CidData)) (i : Z) : M (option CidData) :=
  match b !! Z.to_nat i with Some x => Ret x | None => Panic end.
Definition bset (b : list (option CidData)) (i : Z) (v : option CidData) : M (list (option CidData)) :=
  if i <? len b then Ret (<[Z.to_nat i := v]> b) else Panic.

Definition CidQueue_new (cid : ConnectionId) : CidQueue :=
  mkCidQueue (Some (cid, None) :: replicate 4 None) 0 0.

(** [iter]: the occupied slots from the cursor on, with their distance to it. *)
Fixpoint iter_from (q : CidQueue) (steps : list Z) : M (list (Z * CidData)) :=
  match steps with
  | [] => mret []
  | step :: steps =>
      x ← bget (buffer q) ((cursor q + step) `mod` LEN);
      rest ← iter_from q steps;
      mret (match x with Some cid_data => (step, cid_data) :: rest | None => rest end)
  end.
Definition CidQueue_iter (q : CidQueue) : M (list (Z * CidData)) := iter_from q (seqZ 0 LEN).

(** The loop that discards retired ids. *)
Fixpoint discard (b : list (option CidData)) (cursor : Z) (l : list Z) : M (list (option CidData)) :=
  match l with
  | [] => mret b
  | i :: l => b ← bset b ((cursor + i) `mod` LEN) None; discard b cursor l
  end.

Definition CidQueue_insert (q : CidQueue) (cid : NewConnectionId)
    : M (result InsertError (option (Range * ResetToken)) * CidQueue) :=
  match checked_sub (nc_sequence cid) (offset q) with
  | None => mret (Err Retired, q)
  | Some index =>
      let retired_count := sat_sub (nc_retire_prior_to cid) (offset q) in
      limit ← uadd LEN retired_count;
      if limit <=? index then mret (Err ExceedsLimit, q)
      else
        b ← discard (buffer q) (cursor q) (seqZ 0 (Z.min retired_count LEN));
        i ← uadd (cursor q) index;
        b ← bset b (i `mod` LEN) (Some (nc_id cid, Some (nc_reset_token cid)));
        if retired_count =? 0 then mret (Ok None, mkCidQueue b (cursor q) (offset q))
        else
          c ← uadd (cursor q) retired_count;
          let c := c `mod` LEN in
          known ← CidQueue_iter (mkCidQueue b c (offset q));
          match known with
          | [] => Panic
          | (i, (_, token)) :: _ =>
              let c := (c + i) `mod` LEN in
              let orig_offset := offset q in
              off ← uadd (nc_retire_prior_to cid) i;
              e ← uadd orig_offset LEN;
              match token with
              | Some token => mret (Ok (Some (mkRange orig_offset (Z.min off e), token)), mkCidQueue b c off)
              | None => Panic
              end
          end
  end.

Definition CidQueue_next (q : CidQueue) : M (option (ResetToken * Range) * CidQueue) :=
  known ← CidQueue_iter q;
  match known !! 1%nat with
  | None => mret (None, q)
  | Some (i, cid_data) =>
      b ← bset (buffer q) (cursor q) None;
      let orig_offset := offset q in
      off ← uadd (offset q) i;
      let c := (cursor q + i) `mod` LEN in
      match cid_data.2 with
      | Some token => mret (Some (token, mkRange orig_offset off), mkCidQueue b c off)
      | None => Panic
      end
  end.

Definition update_initial_cid (q : CidQueue) (cid : ConnectionId) : M CidQueue :=
  _ ← rassert (offset q =? 0);
  b ← bset (buffer q) (cursor q) (Some (cid, None));
  mret (mkCidQueue b (cursor q) (offset q)).

Definition active (q : CidQueue) : M ConnectionId :=
  x ← bget (buffer q) (cursor q);
  match x with Some (cid, _) => mret cid | None => Panic end.

Definition active_seq (q : CidQueue) : Z := offset q.

(** * Specification *)

(** The known connection ids by sequence number, and the active one. *)
Record window : Type := mkWindow { w_active : Z; w_ids : gmap Z CidData }.

(** [s] is the least known sequence number from [lo] on. *)
Definition least (m : gmap Z CidData) (lo s : Z) : Prop :=
  lo <= s ∧ is_Some (m !! s) ∧ ∀ s', lo <= s' < s → m !! s' = None.

(** The map after the frame: what it retires is gone, what it brings is known. *)
Definition absorb (m : gmap Z CidData) (f : NewConnectionId) : gmap Z CidData :=
  <[nc_sequence f := (nc_id f, Some (nc_reset_token f))]> (filter (fun x => nc_retire_prior_to f <= x.1) m).

(** What a NEW_CONNECTION_ID frame does: it is late, it exceeds the limit on
    ids, it adds an id, or it adds one and retires the active one. *)
Inductive window_insert (w : window) (f : NewConnectionId)
    : result InsertError (option (Range * ResetToken)) → window → Prop :=
| wi_retired : nc_sequence f < w_active w → window_insert w f (Err Retired) w
| wi_limit :
    w_active w <= nc_sequence f → Z.max (w_active w) (nc_retire_prior_to f) + LEN <= nc_sequence f →
    window_insert w f (Err ExceedsLimit) w
| wi_stored :
    w_active w <= nc_sequence f < w_active w + LEN → nc_retire_prior_to f <= w_active w →
    window_insert w f (Ok None) (mkWindow (w_active w) (absorb (w_ids w) f))
| wi_switched s cid token :
    w_active w < nc_retire_prior_to f → nc_sequence f < nc_retire_prior_to f + LEN →
    least (absorb (w_ids w) f) (nc_retire_prior_to f) s → absorb (w_ids w) f !! s = Some (cid, Some token) →
    window_insert w f (Ok (Some (mkRange (w_active w) (Z.min s (w_active w + LEN)), token)))
      (mkWindow s (absorb (w_ids w) f)).

(** Switching to the next known id. *)
Inductive window_next (w : window) : option (ResetToken * Range) → window → Prop :=
| wn_none : (∀ s, w_active w < s → w_ids w !! s = None) → window_next w None w
| wn_some s cid token :
    least (w_ids w) (w_active w + 1) s → w_ids w !! s = Some (cid, Some token) →
    window_next w (Some (token, mkRange (w_active w) s)) (mkWindow s (delete (w_active w) (w_ids w))).

(** The slot [i] after the cursor [c], with wrap-around. *)
Definition ring (b : list (option CidData)) (c i : Z) : option CidData :=
  default None (b !! Z.to_nat ((c + i) `mod` LEN)).

(** The ring holds sequence number [offset + i] in the slot [i] after the cursor. *)
Definition slot (q : CidQueue) (s : Z) : option CidData :=
  if (offset q <=? s) && (s <? offset q + LEN) then ring (buffer q) (cursor q) (s - offset q) else None.

Record refines (q : CidQueue) (w : window) : Prop := {
  rf_len : len (buffer q) = LEN;
  rf_cursor : 0 <= cursor q < LEN;
  rf_offset : 0 <= offset q < 2 ^ 62;
  rf_active : w_active w = offset q;
  rf_ids : ∀ s, w_ids w !! s = slot q s;
  rf_known : is_Some (w_ids w !! w_active w);
  rf_max : ∀ s x, w_ids w !! s = Some x → s < 2 ^ 62;
  rf_tokens : ∀ s x, w_ids w !! s = Some x → 0 < s → is_Some x.2
}.

(** * Lemmas on the ring *)

Section Ring.
Implicit Types b : list (option CidData).

Lemma ring_index c i b : len b = LEN → 0 <= (c + i) `mod` LEN < len b.
Proof. intros ->. apply Z.mod_pos_bound. done. Qed.

Lemma bget_ring c i b : len b = LEN → bget b ((c + i) `mod` LEN) = Ret (ring b c i).
Proof.
  intros Hb. pose proof (ring_index c i b Hb). unfold bget, ring.
  destruct (b !! Z.to_nat _) eqn:E; [done|]. apply lookup_ge_None in E. unfold len in *. lia.
Qed.

Lemma bset_ring c i b v :
  len b = LEN → ∃ b', bset b ((c + i) `mod` LEN) v = Ret b' ∧ len b' = LEN ∧
    ∀ j, ring b' c j = if (i - j) `mod` LEN =? 0 then v else ring b c j.
Proof.
  intros Hb. pose proof (ring_index c i b Hb). unfold bset.
  destruct (Z.ltb_spec ((c + i) `mod` LEN) (len b)); [|lia]. eexists. split; [done|].
  split; [unfold len in *; by rewrite length_insert|]. intros j. pose proof (ring_index c j b Hb). unfold ring.
  assert (Hm : (i - j) `mod` LEN = 0 ↔ (c + i) `mod` LEN = (c + j) `mod` LEN).
  { replace (i - j) with ((c + i) - (c + j)) by lia. rewrite Zminus_mod. unfold LEN in *.
    split; [|intros ->; by rewrite Z.sub_diag].
    intros Hz. apply Z.mod_divide in Hz as [k Hk]; lia. }
  destruct (Z.eqb_spec ((i - j) `mod` LEN) 0) as [E|E].
  - apply Hm in E. rewrite E. rewrite list_lookup_insert_eq by (unfold len in *; lia). done.
  - rewrite list_lookup_insert_ne; [done|]. intros Heq. apply E, Hm. lia.
Qed.

Lemma ring_rotate b c k j : ring b ((c + k) `mod` LEN) j = ring b c (k + j).
Proof. unfold ring. rewrite Zplus_mod_idemp_l. by rewrite Z.add_assoc. Qed.

Lemma ring_period b c j : ring b c (j + LEN) = ring b c j.
Proof. unfold ring, LEN. replace (c + (j + 5)) with (c + j + 1 * 5) by lia. by rewrite Z_mod_plus_full. Qed.

(** Two distances within one turn name the same slot only when they are equal. *)
Lemma mod_LEN_eq i j : - LEN < i - j < LEN → (i - j) `mod` LEN = 0 ↔ i = j.
Proof.
  intros Hd. unfold LEN in *. split; [|intros ->; by rewrite Z.sub_diag].
  intros Hz. apply Z.mod_divide in Hz as [k Hk]; lia.
Qed.

Lemma discard_ok n :
  0 <= n → ∀ b c k, len b = LEN → 0 <= k → k + n <= LEN →
  ∃ b', discard b c (seqZ k n) = Ret b' ∧ len b' = LEN ∧
    ∀ j, 0 <= j < LEN → ring b' c j = if (k <=? j) && (j <? k + n) then None else ring b c j.
Proof.
  intros Hn. pattern n. revert n Hn. apply natlike_ind; [|intros n Hn IH]; intros b c k Hb Hk Hkn.
  - exists b. split; [done|]. split; [done|]. intros j Hj.
    by destruct (Z.leb_spec k j), (Z.ltb_spec j (k + 0)); [lia|..].
  - rewrite seqZ_cons by lia. cbn [discard]. destruct (bset_ring c k b None Hb) as (b1 & -> & Hb1 & Hr1).
    cbn [mbind M_bind]. rewrite Z.pred_succ.
    destruct (IH b1 c (Z.succ k) Hb1) as (b2 & Hd & Hb2 & Hr2); [lia..|]. exists b2. split; [done|]. split; [done|].
    intros j Hj. rewrite Hr2, Hr1 by done. pose proof (mod_LEN_eq k j). unfold LEN in *.
    destruct (Z.eqb_spec ((k - j) `mod` 5) 0), (Z.leb_spec (Z.succ k) j), (Z.ltb_spec j (Z.succ k + n)),
      (Z.leb_spec k j), (Z.ltb_spec j (k + Z.succ n)); simpl; done || lia.
Qed.

(** The occupied slots, in order. *)
Definition known_from (q : CidQueue) (l : list Z) : list (Z * CidData) :=
  omap (fun i => pair i <$> ring (buffer q) (cursor q) i) l.

Lemma known_from_cons q i l :
  known_from q (i :: l) =
    match ring (buffer q) (cursor q) i with Some x => (i, x) :: known_from q l | None => known_from q l end.
Proof. unfold known_from. simpl. by destruct (ring _ _ i). Qed.

Lemma iter_from_ok q l : len (buffer q) = LEN → iter_from q l = Ret (known_from q l).
Proof.
  intros Hb. induction l as [|i l IH]; [done|]. cbn [iter_from]. rewrite bget_ring by done. cbn [mbind M_bind].
  rewrite IH, known_from_cons. by destruct (ring _ _ i).
Qed.

(** The first occupied slot of a run. *)
Lemma known_from_head q lo n :
  0 <= n →
  match known_from q (seqZ lo n) with
  | [] => ∀ i, lo <= i < lo + n → ring (buffer q) (cursor q) i = None
  | (i, x) :: r => lo <= i < lo + n ∧ ring (buffer q) (cursor q) i = Some x ∧
      (∀ j, lo <= j < i → ring (buffer q) (cursor q) j = None) ∧
      r = known_from q (seqZ (i + 1) (lo + n - (i + 1)))
  end.
Proof.
  intros Hn. revert lo. pattern n. revert n Hn. apply natlike_ind; [|intros n Hn IH]; intros lo.
  - simpl. lia.
  - rewrite seqZ_cons by lia. rewrite Z.pred_succ, known_from_cons. specialize (IH (Z.succ lo)).
    destruct (ring (buffer q) (cursor q) lo) as [x|] eqn:E.
    + split; [lia|]. split; [done|]. split; [lia|]. do 2 f_equal; lia.
    + destruct (known_from q (seqZ (Z.succ lo) n)) as [|[i x] r].
      * intros i Hi. destruct (Z.eq_dec i lo) as [->|]; [done|]. apply IH. lia.
      * destruct IH as (Hi & Hx & Hj & ->). split; [lia|]. split; [done|]. split; [|do 2 f_equal; lia].
        intros j Hj'. destruct (Z.eq_dec j lo) as [->|]; [done|]. apply Hj. lia.
Qed.

End Ring.

(** * Simulation *)

Lemma absorb_lookup m f s :
  absorb m f !! s = if s =? nc_sequence f then Some (nc_id f, Some (nc_reset_token f))
                    else if nc_retire_prior_to f <=? s then m !! s else None.
Proof.
  unfold absorb. destruct (Z.eqb_spec s (nc_sequence f)) as [->|Hne]; [by rewrite lookup_insert_eq|].
  rewrite lookup_insert_ne by done. destruct (Z.leb_spec (nc_retire_prior_to f) s).
  - destruct (m !! s) as [x|] eqn:E; [by apply map_lookup_filter_Some|]. apply map_lookup_filter_None. by left.
  - apply map_lookup_filter_None. right. intros x _. simpl. lia.
Qed.

Lemma slot_in q s : offset q <= s < offset q + LEN → slot q s = ring (buffer q) (cursor q) (s - offset q).
Proof. intros Hs. unfold slot. by destruct (Z.leb_spec (offset q) s), (Z.ltb_spec s (offset q + LEN)); [|lia..]. Qed.

Lemma slot_out q s : s < offset q ∨ offset q + LEN <= s → slot q s = None.
Proof. intros Hs. unfold slot. by destruct (Z.leb_spec (offset q) s), (Z.ltb_spec s (offset q + LEN)); [lia|..]. Qed.

(** Moving the cursor over empty slots changes nothing. *)
Lemma skip_empty (m : gmap Z CidData) b c o i :
  (∀ s, m !! s = slot (mkCidQueue b c o) s) → 0 <= i < LEN → (∀ j, 0 <= j < i → ring b c j = None) →
  ∀ s, m !! s = slot (mkCidQueue b ((c + i) `mod` LEN) (o + i)) s.
Proof.
  intros Hm Hi He s. rewrite Hm. destruct (Z_lt_le_dec s (o + i)) as [Hlt|Hge].
  - rewrite (slot_out (mkCidQueue b _ (o + i))) by (simpl; lia).
    destruct (Z_lt_le_dec s o); [by apply slot_out; simpl; lia|].
    rewrite slot_in by (simpl; lia). simpl. apply He. lia.
  - destruct (Z_lt_le_dec s (o + i + LEN)) as [Hl|Hl]; [|by rewrite !slot_out by (simpl; lia)].
    rewrite (slot_in (mkCidQueue b _ (o + i))) by (simpl; lia). simpl. rewrite ring_rotate.
    replace (i + (s - (o + i))) with (s - o) by lia. destruct (Z_lt_le_dec s (o + LEN)).
    + by rewrite slot_in by (simpl; lia).
    + rewrite slot_out by (simpl; lia). replace (s - o) with (s - o - LEN + LEN) by lia.
      rewrite ring_period, He by lia. done.
Qed.

(** The ring after the discards and the new id, seen from the first number not retired. *)
Lemma absorb_ring q w f b1 b2 :
  let rc := sat_sub (nc_retire_prior_to f) (offset q) in
  refines q w → nc_retire_prior_to f <= nc_sequence f → offset q <= nc_sequence f < offset q + LEN + rc →
  (∀ j, 0 <= j < LEN → ring b1 (cursor q) j =
     if (0 <=? j) && (j <? 0 + Z.min rc LEN) then None else ring (buffer q) (cursor q) j) →
  (∀ j, ring b2 (cursor q) j = if (nc_sequence f - offset q - j) `mod` LEN =? 0
     then Some (nc_id f, Some (nc_reset_token f)) else ring b1 (cursor q) j) →
  ∀ s, absorb (w_ids w) f !! s = slot (mkCidQueue b2 ((cursor q + rc) `mod` LEN) (offset q + rc)) s.
Proof.
  intros rc Hr Hle Hseq Hr1 Hr2 s. rewrite absorb_lookup, (rf_ids _ _ Hr).
  assert (Hrc : 0 <= rc ∧ (rc = 0 ∨ nc_retire_prior_to f = offset q + rc) ∧ nc_retire_prior_to f <= offset q + rc)
    by (unfold rc, sat_sub; case_match; lia).
  destruct (Z_lt_le_dec s (offset q + rc)) as [Hs|Hs].
  { rewrite (slot_out (mkCidQueue b2 _ _)) by (simpl; lia). destruct (Z.eqb_spec s (nc_sequence f)); [lia|].
    destruct (Z.leb_spec (nc_retire_prior_to f) s); [|done]. apply slot_out. lia. }
  destruct (Z_lt_le_dec s (offset q + rc + LEN)) as [Hs'|Hs'].
  2: { rewrite !slot_out by (simpl; lia). destruct (Z.eqb_spec s (nc_sequence f)); [lia|]. by case_match. }
  rewrite (slot_in (mkCidQueue b2 _ _)) by (simpl; lia). simpl. rewrite ring_rotate.
  replace (rc + (s - (offset q + rc))) with (s - offset q) by lia. rewrite Hr2.
  pose proof (mod_LEN_eq (nc_sequence f - offset q) (s - offset q)) as Hm.
  destruct (Z.eqb_spec ((nc_sequence f - offset q - (s - offset q)) `mod` LEN) 0), (Z.eqb_spec s (nc_sequence f));
    try done; try lia.
  destruct (Z.leb_spec (nc_retire_prior_to f) s); [|lia]. unfold LEN in *.
  destruct (Z_lt_le_dec (s - offset q) 5) as [Hin|Hout].
  - rewrite slot_in by (unfold LEN; lia). rewrite Hr1 by lia.
    destruct (Z.ltb_spec (s - offset q) (0 + Z.min rc 5)); [lia|]. by rewrite andb_false_r.
  - rewrite slot_out by (unfold LEN; lia). unfold ring.
    replace ((cursor q + (s - offset q)) `mod` LEN) with ((cursor q + (s - offset q) `mod` 5) `mod` LEN)
      by (unfold LEN; by rewrite Zplus_mod_idemp_r).
    fold (ring b1 (cursor q) ((s - offset q) `mod` 5)).
    pose proof (Z.mod_pos_bound (s - offset q) 5 ltac:(lia)). rewrite Hr1 by lia.
    assert ((s - offset q) `mod` 5 < Z.min rc 5).
    { destruct (Z_lt_le_dec rc 5); [|lia]. replace (s - offset q) with (s - offset q - 5 + 1 * 5) by lia.
      rewrite Z_mod_plus_full, Z.mod_small by lia. lia. }
    destruct (Z.leb_spec 0 ((s - offset q) `mod` 5)), (Z.ltb_spec ((s - offset q) `mod` 5) (0 + Z.min rc 5)); lia || done.
Qed.

Lemma absorb_tokens w q f s x :
  refines q w → absorb (w_ids w) f !! s = Some x → 0 < s → is_Some x.2.
Proof.
  intros Hr Hx Hs. rewrite absorb_lookup in Hx. destruct (s =? nc_sequence f); [by injection Hx as <-|].
  destruct (nc_retire_prior_to f <=? s); [|done]. by eapply rf_tokens.
Qed.

Lemma absorb_max w q f s x :
  refines q w → nc_sequence f < 2 ^ 62 → absorb (w_ids w) f !! s = Some x → s < 2 ^ 62.
Proof.
  intros Hr Hf Hx. rewrite absorb_lookup in Hx. destruct (Z.eqb_spec s (nc_sequence f)); [lia|].
  destruct (nc_retire_prior_to f <=? s); [|done]. by eapply rf_max.
Qed.

(** The frame retired the active id: the cursor moves to the next known one. *)
Lemma switch_ok q w f b :
  let rc := sat_sub (nc_retire_prior_to f) (offset q) in
  refines q w → len b = LEN → rc ≠ 0 → nc_retire_prior_to f <= nc_sequence f < 2 ^ 62 →
  nc_sequence f < offset q + LEN + rc →
  (∀ s, absorb (w_ids w) f !! s = slot (mkCidQueue b ((cursor q + rc) `mod` LEN) (offset q + rc)) s) →
  ∃ i cid token r, CidQueue_iter (mkCidQueue b ((cursor q + rc) `mod` LEN) (offset q)) = Ret ((i, (cid, Some token)) :: r) ∧
    let s := nc_retire_prior_to f + i in 0 <= i < LEN ∧ s <= nc_sequence f ∧
    least (absorb (w_ids w) f) (nc_retire_prior_to f) s ∧ absorb (w_ids w) f !! s = Some (cid, Some token) ∧
    refines (mkCidQueue b (((cursor q + rc) `mod` LEN + i) `mod` LEN) s) (mkWindow s (absorb (w_ids w) f)).
Proof.
  intros rc Hr Hb Hrc Hseq Hlim Hm. pose proof (rf_offset _ _ Hr).
  assert (Er : nc_retire_prior_to f = offset q + rc ∧ 0 < rc) by (unfold rc, sat_sub in *; case_match; lia).
  unfold CidQueue_iter. rewrite iter_from_ok by done.
  set (q0 := mkCidQueue b ((cursor q + rc) `mod` LEN) (offset q)).
  pose proof (known_from_head q0 0 LEN ltac:(done)) as Hh. unfold LEN in *.
  assert (Hnew : ring (buffer q0) (cursor q0) (nc_sequence f - nc_retire_prior_to f) = Some (nc_id f, Some (nc_reset_token f))).
  { specialize (Hm (nc_sequence f)). rewrite absorb_lookup, Z.eqb_refl, slot_in in Hm by (simpl; unfold LEN; lia).
    simpl in Hm. rewrite Hm. f_equal. lia. }
  destruct (known_from q0 (seqZ 0 5)) as [|[i [cid tok]] r].
  { rewrite (Hh (nc_sequence f - nc_retire_prior_to f)) in Hnew by lia. done. }
  destruct Hh as (Hi & Hx & Hnone & _). simpl in Hx, Hnone, Hnew.
  assert (Hs : absorb (w_ids w) f !! (nc_retire_prior_to f + i) = Some (cid, tok)).
  { rewrite Hm, slot_in by (simpl; unfold LEN; lia). cbn [buffer cursor offset]. etrans; [|exact Hx]. f_equal. lia. }
  destruct (absorb_tokens w q f _ _ Hr Hs ltac:(lia)) as [token Ht]. simpl in Ht. subst tok.
  assert (Hle : i <= nc_sequence f - nc_retire_prior_to f).
  { destruct (Z_lt_le_dec (nc_sequence f - nc_retire_prior_to f) i); [|done]. rewrite Hnone in Hnew by lia. done. }
  exists i, cid, token, r. split; [done|]. cbv zeta. split; [lia|]. split; [lia|]. split; [|split; [done|]].
  - split; [lia|]. split; [done|]. intros s' Hs'. rewrite Hm, slot_in by (simpl; unfold LEN; lia). simpl.
    apply Hnone. lia.
  - split; simpl; try done.
    + apply Z.mod_pos_bound. done.
    + lia.
    + rewrite (proj1 Er). apply (skip_empty (absorb (w_ids w) f) b _ (offset q + rc) i Hm); [unfold LEN; lia|done].
    + intros s x. apply absorb_max with (q := q); [done|lia].
    + intros s x. by apply absorb_tokens with (q := q).
Qed.

Lemma insert_sim q w f :
  refines q w → 0 <= nc_retire_prior_to f <= nc_sequence f → nc_sequence f < 2 ^ 62 →
  ∃ r q' w', CidQueue_insert q f = Ret (r, q') ∧ window_insert w f r w' ∧ refines q' w'.
Proof.
  intros Hr Hle Hmax. pose proof Hr as [Hlen Hc Ho Ha Hids Hk Hmx Ht]. unfold CidQueue_insert, checked_sub.
  destruct (Z.leb_spec (offset q) (nc_sequence f)).
  2: { do 3 eexists. split; [done|]. split; [apply wi_retired; lia|done]. }
  assert (Hrc : 0 <= sat_sub (nc_retire_prior_to f) (offset q) < 2 ^ 62 ∧
    Z.max (offset q) (nc_retire_prior_to f) = offset q + sat_sub (nc_retire_prior_to f) (offset q))
    by (unfold sat_sub; case_match; lia).
  set (rc := sat_sub (nc_retire_prior_to f) (offset q)) in *. unfold LEN in Hc.
  rewrite (uadd_ok LEN rc) by (unfold LEN, u64_max; lia). cbn [mbind M_bind].
  destruct (Z.leb_spec (LEN + rc) (nc_sequence f - offset q)).
  { do 3 eexists. split; [done|]. split; [apply wi_limit; lia|done]. }
  destruct (discard_ok (Z.min rc LEN) ltac:(unfold LEN; lia) (buffer q) (cursor q) 0 Hlen) as (b1 & -> & Hl1 & Hr1); [unfold LEN; lia..|].
  cbn [mbind M_bind]. rewrite (uadd_ok (cursor q) (nc_sequence f - _)) by (unfold u64_max; lia). cbn [mbind M_bind].
  destruct (bset_ring (cursor q) (nc_sequence f - offset q) b1 (Some (nc_id f, Some (nc_reset_token f))) Hl1)
    as (b2 & -> & Hl2 & Hr2). cbn [mbind M_bind].
  pose proof (absorb_ring q w f b1 b2 Hr ltac:(lia) ltac:(fold rc; lia) Hr1 Hr2) as Hm. fold rc in Hm.
  destruct (Z.eqb_spec rc 0) as [E0|E0].
  - do 3 eexists. split; [done|]. split; [apply wi_stored; lia|].
    rewrite E0 in Hm. rewrite !Z.add_0_r, Z.mod_small in Hm by (unfold LEN; lia).
    split; simpl; try done; [|intros s x; by apply absorb_max with (q := q)|intros s x; by apply absorb_tokens with (q := q)].
    rewrite absorb_lookup. case_match; [done|]. destruct (Z.leb_spec (nc_retire_prior_to f) (w_active w)); [done|lia].
  - rewrite (uadd_ok (cursor q) rc) by (unfold u64_max; lia). cbn [mbind M_bind].
    destruct (switch_ok q w f b2 Hr Hl2 E0 ltac:(lia) ltac:(fold rc; lia) Hm)
      as (i & cid & token & r & Hi & Hib & Hs & Hleast & Hx & Href). fold rc in Hi, Href. rewrite Hi.
    cbn [mbind M_bind]. unfold LEN in Hib. rewrite !uadd_ok by (unfold LEN, u64_max; lia). cbn [mbind M_bind].
    rewrite <- Ha. do 3 eexists. split; [done|]. split; [|exact Href].
    eapply wi_switched; [lia|lia|done|done].
Qed.

Lemma next_sim q w :
  refines q w → ∃ r q' w', CidQueue_next q = Ret (r, q') ∧ window_next w r w' ∧ refines q' w'.
Proof.
  intros Hr. pose proof Hr as [Hlen Hc Ho Ha Hids Hk Hmx Ht]. unfold CidQueue_next, CidQueue_iter.
  rewrite iter_from_ok by done. cbn [mbind M_bind]. change (seqZ 0 LEN) with (0 :: seqZ 1 4).
  assert (Hin : ∀ i, 0 <= i < LEN → ring (buffer q) (cursor q) i = w_ids w !! (offset q + i)).
  { intros i Hi. rewrite Hids, slot_in by lia. f_equal. lia. }
  rewrite known_from_cons. destruct Hk as [x0 Hx0].
  rewrite Hin, Z.add_0_r, <- Ha, Hx0 by (unfold LEN; lia). cbn [lookup list_lookup].
  pose proof (known_from_head q 1 4 ltac:(done)) as Hh. destruct (known_from q (seqZ 1 4)) as [|[i x] r].
  - do 3 eexists. split; [done|]. split; [|done]. apply wn_none. intros s Hs.
    destruct (Z_lt_le_dec s (offset q + LEN)); [|by rewrite Hids, slot_out by lia].
    replace s with (offset q + (s - offset q)) by lia. rewrite <- Hin by (unfold LEN in *; lia). apply Hh. unfold LEN in *; lia.
  - destruct Hh as (Hi & Hx & Hnone & _). rewrite Hin in Hx by (unfold LEN; lia).
    destruct (bset_ring (cursor q) 0 (buffer q) None Hlen) as (b & Hb & Hlb & Hrb).
    rewrite Z.add_0_r, Z.mod_small in Hb by done. cbn [lookup list_lookup]. rewrite Hb. cbn [mbind M_bind].
    assert (Hs62 : offset q + i < 2 ^ 62) by (by eapply Hmx).
    rewrite uadd_ok by (unfold u64_max; lia). cbn [mbind M_bind].
    destruct (Ht _ _ Hx ltac:(lia)) as [token Htok]. rewrite Htok. destruct x as [cid tok]. simpl in Htok. subst tok.
    rewrite <- Ha in *. do 3 eexists. split; [done|]. split.
    + eapply wn_some; [|exact Hx]. split; [lia|]. split; [by rewrite Hx|]. intros s' Hs'.
      replace s' with (w_active w + (s' - w_active w)) by lia. rewrite <- Hin by (unfold LEN; lia). apply Hnone. lia.
    + assert (Hm : ∀ s, delete (w_active w) (w_ids w) !! s = slot (mkCidQueue b (cursor q) (offset q)) s).
      { intros s. destruct (Z.eq_dec s (w_active w)) as [->|Hne].
        - rewrite lookup_delete_eq, slot_in by (simpl; unfold LEN; lia). cbn [buffer cursor offset].
          rewrite Hrb, Ha, Z.sub_diag. done.
        - rewrite lookup_delete_ne, Hids by done. unfold slot. simpl. destruct (_ && _) eqn:E; [|done].
          apply andb_prop in E as [?%Z.leb_le ?%Z.ltb_lt]. rewrite Hrb. pose proof (mod_LEN_eq 0 (s - offset q)).
          destruct (Z.eqb_spec ((0 - (s - offset q)) `mod` LEN) 0); [lia|done]. }
      split; cbn [buffer cursor offset w_active w_ids]; try done.
      * apply Z.mod_pos_bound. done.
      * lia.
      * rewrite Ha in *. apply (skip_empty _ b (cursor q) (offset q) i Hm); [unfold LEN; lia|]. intros j Hj.
        rewrite Hrb. destruct (Z.eqb_spec ((0 - j) `mod` LEN) 0); [done|]. apply Hnone.
        destruct (Z.eq_dec j 0) as [->|]; [done|lia].
      * rewrite lookup_delete_ne by lia. by rewrite Hx.
      * intros s x [_ Hsx]%lookup_delete_Some. by eapply Hmx.
      * intros s x [_ Hsx]%lookup_delete_Some. by eapply Ht.
Qed.

Lemma new_sim cid : refines (CidQueue_new cid) (mkWindow 0 {[0 := (cid, None)]}).
Proof.
  split; cbn [buffer cursor offset w_active w_ids CidQueue_new]; try done.
  - intros s. destruct (Z.eq_dec s 0) as [->|Hne]; [by rewrite lookup_singleton_eq|].
    rewrite lookup_singleton_ne by done. unfold slot, LEN. cbn [buffer cursor offset CidQueue_new].
    destruct (Z.leb_spec 0 s), (Z.ltb_spec s (0 + 5)); try done. cbn [andb].
    assert (s = 1 ∨ s = 2 ∨ s = 3 ∨ s = 4) as [->|[->|[->| ->]]] by lia; done.
  - intros s x [<- _]%lookup_singleton_Some. done.
  - intros s x [<- _]%lookup_singleton_Some. lia.
Qed.

Lemma update_initial_sim q w cid :
  refines q w → w_active w = 0 →
  ∃ q', update_initial_cid q cid = Ret q' ∧ refines q' (mkWindow 0 (<[0 := (cid, None)]> (w_ids w))).
Proof.
  intros [Hlen Hc Ho Ha Hids Hk Hmx Ht] H0. unfold update_initial_cid. rewrite <- Ha, H0, Z.eqb_refl.
  destruct (bset_ring (cursor q) 0 (buffer q) (Some (cid, None)) Hlen) as (b & Hb & Hlb & Hrb).
  rewrite Z.add_0_r, Z.mod_small in Hb by done. cbn [rassert mbind M_bind]. rewrite Hb. cbn [mbind M_bind].
  eexists. split; [done|]. split; cbn [buffer cursor offset w_active w_ids]; try done.
  - intros s. destruct (Z.eq_dec s 0) as [->|Hne].
    + rewrite lookup_insert_eq, slot_in by done. simpl. rewrite Hrb. done.
    + rewrite lookup_insert_ne, Hids by done. unfold slot. cbn [buffer cursor offset]. rewrite <- Ha, H0.
      destruct (_ && _) eqn:E; [|done]. apply andb_prop in E as [?%Z.leb_le ?%Z.ltb_lt]. rewrite Hrb.
      pose proof (mod_LEN_eq 0 (s - 0)). destruct (Z.eqb_spec ((0 - (s - 0)) `mod` LEN) 0); [unfold LEN in *; lia|done].
  - by rewrite lookup_insert_eq.
  - intros s x [[<- _]|[_ Hx]]%lookup_insert_Some; [done|by eapply Hmx].
  - intros s x [[<- _]|[_ Hx]]%lookup_insert_Some; [lia|by eapply Ht].
Qed.

Lemma active_sim q w : refines q w → ∃ cid t, w_ids w !! w_active w = Some (cid, t) ∧ active q = Ret cid ∧ active_seq q = w_active w.
Proof.
  intros [Hlen Hc Ho Ha Hids [[cid t] Hk] Hmx Ht]. exists cid, t. split; [done|]. split; [|done].
  unfold active. rewrite Hids, Ha, slot_in, Z.sub_diag in Hk by (unfold LEN; lia).
  pose proof (bget_ring (cursor q) 0 (buffer q) Hlen) as Hg. rewrite Z.add_0_r, Z.mod_small in Hg by done.
  rewrite Hg. cbn [mbind M_bind]. by rewrite Hk.
Qed.

(** * Runs *)

(** The calls a connection makes, with their answers. *)
Inductive cid_call : Type :=
| CallInsert (f : NewConnectionId) (r : result InsertError (option (Range * ResetToken)))
| CallNext (r : option (ResetToken * Range))
| CallUpdateInitial (cid : ConnectionId)
| CallActive (cid : ConnectionId) (seq : Z).

(** A frame the decoder lets through. *)
Definition frame_ok (f : NewConnectionId) : Prop :=
  0 <= nc_retire_prior_to f <= nc_sequence f ∧ nc_sequence f < 2 ^ 62.

Inductive queue_step : CidQueue → cid_call → CidQueue → Prop :=
| qs_insert q f r q' : frame_ok f → CidQueue_insert q f = Ret (r, q') → queue_step q (CallInsert f r) q'
| qs_next q r q' : CidQueue_next q = Ret (r, q') → queue_step q (CallNext r) q'
| qs_update q cid q' : offset q = 0 → update_initial_cid q cid = Ret q' → queue_step q (CallUpdateInitial cid) q'
| qs_active q cid : active q = Ret cid → queue_step q (CallActive cid (active_seq q)) q.

Inductive window_step : window → cid_call → window → Prop :=
| ws_insert w f r w' : window_insert w f r w' → window_step w (CallInsert f r) w'
| ws_next w r w' : window_next w r w' → window_step w (CallNext r) w'
| ws_update w cid : w_active w = 0 → window_step w (CallUpdateInitial cid) (mkWindow 0 (<[0 := (cid, None)]> (w_ids w)))
| ws_active w cid t : w_ids w !! w_active w = Some (cid, t) → window_step w (CallActive cid (w_active w)) w.

Inductive run {S} (step : S → cid_call → S → Prop) : S → list cid_call → S → Prop :=
| run_nil s : run step s [] s
| run_cons s c s' l s'' : step s c s' → run step s' l s'' → run step s (c :: l) s''.

Lemma step_sim q w c q' : refines q w → queue_step q c q' → ∃ w', window_step w c w' ∧ refines q' w'.
Proof.
  intros Hr Hs. destruct Hs as [q f r q' [? ?] Hi|q r q' Hn|q cid q' H0 Hu|q cid Ha].
  - destruct (insert_sim q w f Hr) as (? & ? & w' & Heq & Hw & Hr'); [lia..|].
    rewrite Heq in Hi. injection Hi as -> ->. exists w'. split; [by constructor|done].
  - destruct (next_sim q w Hr) as (? & ? & w' & Heq & Hw & Hr'). rewrite Heq in Hn. injection Hn as -> ->.
    exists w'. split; [by constructor|done].
  - assert (w_active w = 0) as H0' by (by rewrite (rf_active _ _ Hr)).
    destruct (update_initial_sim q w cid Hr H0') as (? & Heq & Hr'). rewrite Heq in Hu. injection Hu as ->.
    eexists. split; [by apply ws_update|done].
  - destruct (active_sim q w Hr) as (cid' & t & Hk & Heq & Hseq). rewrite Heq in Ha. injection Ha as ->.
    exists w. rewrite Hseq. split; [by eapply ws_active|done].
Qed.

Lemma run_sim q w l q' : refines q w → run queue_step q l q' → ∃ w', run window_step w l w' ∧ refines q' w'.
Proof.
  intros Hr Hl. revert w Hr. induction Hl as [q|q c q1 l q2 Hs _ IH]; intros w Hr; [by exists w; split; [constructor|]|].
  destruct (step_sim q w c q1 Hr Hs) as (w1 & Hw & Hr1). destruct (IH w1 Hr1) as (w2 & Hrun & Hr2).
  exists w2. split; [by econstructor|done].
Qed.

(** * Theorems *)

(** C24: the ring buffer of connection ids refines the abstract window.  Every sequence of calls with its
    answers that the ring produces is a run of the specification, in
    which ids are a finite map by sequence number: a late id is refused, the limit on ids is enforced,
    retirement removes exactly the numbers below [retire_prior_to] and
    activates the least one known, and switching activates the next known one.  After
    any run no call panics. *)
Theorem cid_queue_refines cid l q :
  run queue_step (CidQueue_new cid) l q →
  (∃ w, run window_step (mkWindow 0 {[0 := (cid, None)]}) l w ∧ refines q w) ∧
  (∀ f, frame_ok f → ∃ r q', CidQueue_insert q f = Ret (r, q')) ∧
  (∃ r q', CidQueue_next q = Ret (r, q')) ∧ (∃ c, active q = Ret c).
Proof.
  intros Hl. destruct (run_sim _ _ l q (new_sim cid) Hl) as (w & Hw & Hr).
  split; [by exists w|]. split; [|split].
  - intros f [? ?]. destruct (insert_sim q w f Hr) as (r & q' & _ & Heq & _); [lia..|]. by exists r, q'.
  - destruct (next_sim q w Hr) as (r & q' & _ & Heq & _). by exists r, q'.
  - destruct (active_sim q w Hr) as (c & _ & _ & Heq & _). by exists c.
Qed.

Definition sample_cid (b : Z) : ConnectionId := mkConnectionId 1 (b :: replicate 19 0).
Definition sample_new_cid (seq rpt : Z) : NewConnectionId :=
  mkNewConnectionId seq rpt (sample_cid seq) (mkResetToken (replicate 16 seq)).

Lemma cid_queue_refines_witness :
  ∃ q w l, run queue_step (CidQueue_new (sample_cid 0)) l q ∧
    run window_step (mkWindow 0 {[0 := (sample_cid 0, None)]}) l w ∧ w_active w = 3.
Proof.
  pose (l := [CallInsert (sample_new_cid 3 2) (Ok (Some (mkRange 0 3, mkResetToken (replicate 16 3))))]).
  assert (Hrun : run queue_step (CidQueue_new (sample_cid 0)) l
    (mkCidQueue [None; None; None; Some (sample_cid 3, Some (mkResetToken (replicate 16 3))); None] 3 3)).
  { eapply run_cons; [|apply run_nil]. apply qs_insert; [unfold frame_ok; simpl; lia|vm_compute; reflexivity]. }
  destruct (cid_queue_refines _ _ _ Hrun) as ((w & Hw & Hr) & _).
  eexists _, w, l. split; [exact Hrun|]. split; [exact Hw|]. exact (rf_active _ _ Hr).
Defined.
