(* ===== verification/SendBuffer.v ===== *)
(** Outgoing stream data: [quic-proto/src/connection/send_buffer.rs].

    [SendBuffer] keeps the data an application wrote until the peer acknowledges
    it.  Every operation is in the outcome monad: an index or subtraction out of
    range is a [Panic], and the theorems show that none is reached.  The last
    part runs the buffer together with the packets in flight. *)
From S2P Require Import Prelude Coding RangeSet.

(** * State and operations *)

Record SendBuffer : Type := mkSendBuffer {
  unacked_segments : list (list Z);
  unacked_len : Z;
  offset : Z;
  unsent : Z;
  acks : list Range;
  retransmits : list Range
}.

Definition new : SendBuffer := mkSendBuffer [] 0 0 0 BTree.new BTree.new.

Definition write (s : SendBuffer) (data : list Z) : M SendBuffer :=
  unacked_len' ← uadd (unacked_len s) (len data);
  offset' ← uadd (offset s) (len data);
  mret (mkSendBuffer (unacked_segments s ++ [data]) unacked_len' offset' (unsent s)
          (acks s) (retransmits s)).

(** The inner loop of [ack]: drop [to_advance] bytes from the front.  The
    [shrink_to_fit] call does not change the contents. *)
Fixpoint advance_segments (segs : list (list Z)) (to_advance : Z) : M (list (list Z)) :=
  if 0 <? to_advance then
    match segs with
    | [] => Panic
    | front :: rest =>
        if len front <=? to_advance then advance_segments rest (to_advance - len front)
        else front' ← advance to_advance front; mret (front' :: rest)
    end
  else mret segs.

(** The outer loop of [ack]; each iteration removes a range of [acks]. *)
Fixpoint ack_loop (fuel : nat) (s : SendBuffer) : M SendBuffer :=
  match fuel with
  | O => Panic
  | S fuel =>
      base ← usub (offset s) (unacked_len s);
      if decide (BTree.min (acks s) = Some base) then
        '(popped, acks') ← mret (BTree.pop_min (acks s));
        prefix ← unwrap popped;
        to_advance ← usub (rend prefix) (rstart prefix);
        unacked_len' ← usub (unacked_len s) to_advance;
        segs ← advance_segments (unacked_segments s) to_advance;
        ack_loop fuel (mkSendBuffer segs unacked_len' (offset s) (unsent s) acks' (retransmits s))
      else mret s
  end.

Definition ack (s : SendBuffer) (range : Range) : M SendBuffer :=
  base_offset ← usub (offset s) (unacked_len s);
  let range := mkRange (Z.max base_offset (rstart range)) (Z.max base_offset (rend range)) in
  let '(acks', _) := BTree.insert (acks s) range in
  let s := mkSendBuffer (unacked_segments s) (unacked_len s) (offset s) (unsent s)
             acks' (retransmits s) in
  ack_loop (S (length acks')) s.

(** [max_len -= VarInt::size(start)] when the offset is encoded. *)
Definition reserve_offset (max_len start : Z) : M Z :=
  if start =? 0 then mret max_len
  else size ← VarInt_size (mkVarInt start); usub max_len size.

Definition poll_transmit (s : SendBuffer) (max_len : Z) : M ((Range * bool) * SendBuffer) :=
  _ ← rassert (8 + 8 <=? max_len);
  match BTree.pop_min (retransmits s) with
  | (Some range, retransmits') =>
      max_len ← reserve_offset max_len (rstart range);
      n ← usub (rend range) (rstart range);
      let encode_length := n <? max_len in
      max_len ← (if encode_length then usub max_len 8 else mret max_len);
      let stop := Z.min (rend range) (sat_add max_len (rstart range)) in
      let retransmits' :=
        if stop =? rend range then retransmits'
        else fst (BTree.insert retransmits' (mkRange stop (rend range))) in
      mret ((mkRange (rstart range) stop, encode_length),
            mkSendBuffer (unacked_segments s) (unacked_len s) (offset s) (unsent s)
              (acks s) retransmits')
  | (None, _) =>
      max_len ← reserve_offset max_len (unsent s);
      n ← usub (offset s) (unsent s);
      let encode_length := n <? max_len in
      max_len ← (if encode_length then usub max_len 8 else mret max_len);
      let stop := Z.min (offset s) (sat_add max_len (unsent s)) in
      mret ((mkRange (unsent s) stop, encode_length),
            mkSendBuffer (unacked_segments s) (unacked_len s) (offset s) stop
              (acks s) (retransmits s))
  end.

(** [&segment[start..end]]. *)
Definition slice (start stop : Z) (l : list Z) : M (list Z) :=
  if (start <=? stop) && (stop <=? len l) then mret (takeZ (stop - start) (dropZ start l))
  else Panic.

Fixpoint get_loop (segs : list (list Z)) (segment_offset : Z) (offsets : Range) : M (list Z) :=
  match segs with
  | [] => mret []
  | segment :: rest =>
      next ← uadd segment_offset (len segment);
      if (segment_offset <=? rstart offsets) && (rstart offsets <? next) then
        start ← usub (rstart offsets) segment_offset;
        stop ← usub (rend offsets) segment_offset;
        slice start (Z.min stop (len segment)) segment
      else get_loop rest next offsets
  end.

Definition get (s : SendBuffer) (offsets : Range) : M (list Z) :=
  base_offset ← usub (offset s) (unacked_len s);
  get_loop (unacked_segments s) base_offset offsets.

Definition retransmit (s : SendBuffer) (range : Range) : M SendBuffer :=
  _ ← rassert (rend range <=? unsent s);
  mret (mkSendBuffer (unacked_segments s) (unacked_len s) (offset s) (unsent s) (acks s)
          (fst (BTree.insert (retransmits s) range))).

Definition retransmit_all_for_0rtt (s : SendBuffer) : M SendBuffer :=
  _ ← rassert (offset s =? unacked_len s);
  mret (mkSendBuffer (unacked_segments s) (unacked_len s) (offset s) 0 (acks s) (retransmits s)).

Definition is_fully_acked (s : SendBuffer) : bool := unacked_len s =? 0.

Definition has_unsent_data (s : SendBuffer) : bool :=
  negb (unsent s =? offset s) || negb (BTree.is_empty (retransmits s)).

Definition unacked (s : SendBuffer) : M Z :=
  usub (unacked_len s) (fold_right (fun r n => rend r - rstart r + n) 0 (acks s)).

(** The copy loop of [StreamsState::write_stream_frames]: append [get] results
    until the range is exhausted. *)
Fixpoint copy_loop (fuel : nat) (s : SendBuffer) (offsets : Range) : M (list Z) :=
  if rstart offsets =? rend offsets then mret []
  else
    match fuel with
    | O => Panic
    | S fuel =>
        data ← get s offsets;
        start ← uadd (rstart offsets) (len data);
        rest ← copy_loop fuel s (mkRange start (rend offsets));
        mret (data ++ rest)
    end.

(** * Invariant *)

(** First offset that is still buffered. *)
Definition base (s : SendBuffer) : Z := offset s - unacked_len s.

(** [w] is everything the application has written.  The buffer holds the part
    of [w] from [base] on; acknowledged ranges above [base] and lost ranges are
    well-formed sets of offsets that have been sent. *)
Record inv (w : list Z) (s : SendBuffer) : Prop := {
  inv_offset : offset s = len w;
  inv_max : offset s <= 2 ^ 62 - 1;
  inv_base : 0 <= base s <= unsent s;
  inv_unsent : unsent s <= offset s;
  inv_data : concat (unacked_segments s) = dropZ (base s) w;
  inv_acks : wf_from (base s + 1) (acks s);
  inv_acks_sent : Forall (fun r => rend r <= unsent s) (acks s);
  inv_retransmits : wf (retransmits s);
  inv_retransmits_sent : Forall (fun r => rend r <= unsent s) (retransmits s)
}.

(** Offsets the peer has acknowledged. *)
Definition acked (s : SendBuffer) (x : Z) : Prop := 0 <= x < base s ∨ rs_in x (acks s).

(** Offsets queued for (re)transmission. *)
Definition queued (s : SendBuffer) (x : Z) : Prop :=
  rs_in x (retransmits s) ∨ unsent s <= x < offset s.

(** * The buffer with its packets in flight *)

(** The buffer, the ranges carried by packets that are neither acknowledged nor
    lost, and everything written so far. *)
Record Net : Type := mkNet { buf : SendBuffer; flight : list Range; written : list Z }.

(** What happens to a stream: the application writes, a packet takes a range, a
    packet is acknowledged, a packet is declared lost, or a Retry forgets all
    0-RTT packets before anything was acknowledged or lost. *)
Inductive step : Net → Net → Prop :=
| step_write s fl w data s' :
    offset s + len data <= 2 ^ 62 - 1 → write s data = Ret s' →
    step (mkNet s fl w) (mkNet s' fl (w ++ data))
| step_send s fl w max_len r b s' :
    16 <= max_len → poll_transmit s max_len = Ret ((r, b), s') →
    step (mkNet s fl w) (mkNet s' (r :: fl) w)
| step_acked s fl1 r fl2 w s' :
    ack s r = Ret s' → step (mkNet s (fl1 ++ r :: fl2) w) (mkNet s' (fl1 ++ fl2) w)
| step_lost s fl1 r fl2 w s' :
    retransmit s r = Ret s' → step (mkNet s (fl1 ++ r :: fl2) w) (mkNet s' (fl1 ++ fl2) w)
| step_retry s fl w s' :
    acks s = [] → retransmits s = [] →
    retransmit_all_for_0rtt s = Ret s' → step (mkNet s fl w) (mkNet s' [] w).

Inductive reachable : Net → Prop :=
| reachable_new : reachable (mkNet new [] [])
| reachable_step n n' : reachable n → step n n' → reachable n'.

(** How many packets in flight carry offset [x]. *)
Definition carriers (x : Z) (fl : list Range) : nat :=
  length (filter (fun r => rstart r <= x < rend r) fl).

(** Every written offset is acknowledged, queued or carried by one packet, and
    only one of these. *)
Record ninv (n : Net) : Prop := {
  ninv_buf : inv (written n) (buf n);
  ninv_flight : Forall (fun r => 0 <= rstart r <= rend r ∧ rend r <= unsent (buf n)) (flight n);
  ninv_acked : ∀ x, acked (buf n) x → ¬ queued (buf n) x ∧ carriers x (flight n) = 0%nat;
  ninv_queued : ∀ x, queued (buf n) x → carriers x (flight n) = 0%nat;
  ninv_once : ∀ x, (carriers x (flight n) <= 1)%nat;
  ninv_cover : ∀ x, 0 <= x < offset (buf n) →
    acked (buf n) x ∨ queued (buf n) x ∨ carriers x (flight n) = 1%nat
}.

(** * Lemmas *)

Lemma VarInt_size_range x :
  0 <= x < 2 ^ 62 → ∃ n, VarInt_size (mkVarInt x) = Ret n ∧ 1 <= n <= 8.
Proof. intros. unfold VarInt_size. simpl into_inner. zcases; try lia; eexists; split; (done || lia). Qed.

Lemma advance_segments_ok segs n :
  0 <= n <= len (concat segs) →
  ∃ segs', advance_segments segs n = Ret segs' ∧ concat segs' = dropZ n (concat segs).
Proof.
  revert n. induction segs as [|f segs IH]; intros n; simpl.
  { change (len []) with 0. intros. destruct (Z.ltb_spec 0 n); [lia|].
    exists []. split; [done|]. by assert (n = 0) as -> by lia. }
  rewrite len_app. intros Hn. destruct (Z.ltb_spec 0 n); cycle 1.
  { exists (f :: segs). split; [done|]. by assert (n = 0) as -> by lia. }
  destruct (Z.leb_spec (len f) n).
  - destruct (IH (n - len f)) as (segs' & -> & Hc); [lia|].
    exists segs'. split; [done|]. by rewrite dropZ_app_ge, Hc by lia.
  - rewrite advance_ok by lia. eexists. split; [done|].
    simpl. by rewrite dropZ_app_le by lia.
Qed.

Lemma get_loop_ok segs o a b :
  0 <= o → o <= a < o + len (concat segs) → a < b → o + len (concat segs) <= u64_max →
  ∃ d, get_loop segs o (mkRange a b) = Ret d ∧ 0 < len d <= b - a ∧
       d = takeZ (len d) (dropZ (a - o) (concat segs)).
Proof.
  revert o. induction segs as [|f segs IH]; intros o Ho Ha Hab Hmax; simpl in *.
  { change (len []) with 0 in Ha. lia. }
  rewrite len_app in *. pose proof (len_nonneg f). pose proof (len_nonneg (concat segs)).
  rewrite uadd_ok by lia. simpl.
  destruct (Z.leb_spec o a); [|lia]. destruct (Z.ltb_spec a (o + len f)); simpl.
  - rewrite !usub_ok by lia. simpl. unfold slice.
    destruct (Z.leb_spec (a - o) (Z.min (b - o) (len f))); [|lia].
    destruct (Z.leb_spec (Z.min (b - o) (len f)) (len f)); [|lia]. simpl.
    set (n := Z.min (b - o) (len f) - (a - o)).
    exists (takeZ n (dropZ (a - o) f)). split; [done|].
    assert (Hlen : len (takeZ n (dropZ (a - o) f)) = n).
    { apply len_takeZ. rewrite len_dropZ by lia. lia. }
    split; [lia|]. rewrite Hlen, dropZ_app_le, takeZ_app_le by (rewrite ?len_dropZ; lia). done.
  - destruct (IH (o + len f)) as (d & -> & Hd & Heq); try lia.
    exists d. split; [done|split; [done|]].
    rewrite dropZ_app_ge by lia. by replace (a - o - len f) with (a - (o + len f)) by lia.
Qed.

Lemma inv_unacked_len w s : inv w s → len (concat (unacked_segments s)) = unacked_len s.
Proof.
  intros [Ho ? Hb Hu Hd]. rewrite Hd, len_dropZ by (unfold base in *; lia). unfold base. lia.
Qed.

Lemma get_ok w s a b :
  inv w s → base s <= a < offset s → a < b →
  ∃ d, get s (mkRange a b) = Ret d ∧ 0 < len d <= b - a ∧ d = takeZ (len d) (dropZ a w).
Proof.
  intros Hi Ha Hab. pose proof (inv_unacked_len w s Hi) as Hl. destruct Hi as [Ho Hm Hb Hu Hd].
  unfold get. rewrite usub_ok by (unfold base in *; lia). simpl. fold (base s).
  assert (base s + unacked_len s = offset s) by (unfold base; lia).
  destruct (get_loop_ok (unacked_segments s) (base s) a b) as (d & -> & ? & Heq);
    try (unfold u64_max; lia).
  exists d. repeat split; try lia. rewrite Heq at 1. rewrite Hd, dropZ_dropZ by lia.
  do 2 f_equal. lia.
Qed.

(** The copy loop returns the bytes of the range, in at most one iteration per
    byte. *)
Lemma copy_loop_ok fuel w s a b :
  inv w s → base s <= a → a <= b <= offset s → b - a <= Z.of_nat fuel →
  copy_loop fuel s (mkRange a b) = Ret (takeZ (b - a) (dropZ a w)).
Proof.
  intros Hi. revert a. induction fuel as [|fuel IH]; intros a Ha Hab Hf; simpl.
  { destruct (Z.eqb_spec a b) as [->|]; [|lia]. by rewrite Z.sub_diag. }
  destruct (Z.eqb_spec a b) as [->|]; [by rewrite Z.sub_diag|].
  destruct (get_ok w s a b Hi) as (d & -> & Hd & Heq); [lia..|]. simpl.
  pose proof (inv_max _ _ Hi). pose proof (inv_base _ _ Hi).
  rewrite uadd_ok by (unfold u64_max; lia). simpl.
  rewrite IH by lia. simpl. f_equal. rewrite Heq at 1.
  replace (b - a) with (len d + (b - (a + len d))) by lia.
  rewrite takeZ_add, dropZ_dropZ by lia. done.
Qed.

Lemma ins_ref_head lo m s e :
  wf_from lo m → s < lo → s < e → e <= u64_max →
  ∃ e' k, ins_ref m s e = mkRange s e' :: k ∧ e <= e' ∧ wf_from (e' + 1) k ∧
    (length k <= length m)%nat ∧ ∀ x, rs_in x k → rs_in x m.
Proof.
  revert lo e. induction m as [|r m IH]; intros lo e Hw Hs Hse He; simpl.
  { exists e, []. repeat split; auto; lia. }
  destruct Hw as (?&?&?&Hm). zcases; try lia.
  { exists e, (r :: m). repeat split; auto; lia. }
  rewrite Z.min_r by lia.
  destruct (IH (rend r + 1) (Z.max (rend r) e)) as (e' & k & -> & ? & ? & ? & Hk); auto; try lia.
  exists e', k. repeat split; auto; try lia. intros x Hx%Hk. apply rs_in_cons. by right.
Qed.

Lemma ack_loop_done fuel s :
  0 <= base s → unacked_len s <= offset s → wf_from (base s + 1) (acks s) →
  ack_loop (S fuel) s = Ret s.
Proof.
  intros Hb Hu Hw. simpl. rewrite usub_ok by lia. simpl. fold (base s).
  rewrite decide_False; [done|]. destruct (acks s) as [|r m]; simpl; [done|].
  destruct Hw as (?&_). intros [=]. lia.
Qed.

Lemma ack_loop_pop fuel s e' k segs :
  acks s = mkRange (base s) e' :: k → unacked_len s <= offset s → base s <= e' <= offset s →
  advance_segments (unacked_segments s) (e' - base s) = Ret segs →
  ack_loop (S fuel) s =
  ack_loop fuel (mkSendBuffer segs (offset s - e') (offset s) (unsent s) k (retransmits s)).
Proof.
  intros Ha Hu He Hadv. simpl. rewrite usub_ok by lia. simpl. fold (base s).
  rewrite Ha. rewrite decide_True by done. simpl. rewrite Z.eqb_refl. simpl.
  rewrite usub_ok by lia. simpl. rewrite usub_ok by (unfold base in *; lia). simpl.
  rewrite Hadv. simpl. do 2 f_equal. unfold base. lia.
Qed.

Lemma ins_ref_Forall m s e hi :
  Forall (fun r => rend r <= hi) m → e <= hi → Forall (fun r => rend r <= hi) (ins_ref m s e).
Proof.
  revert s e. induction m as [|r m IH]; intros s e Hm He; simpl.
  { by repeat constructor. }
  apply Forall_cons in Hm as [? Hm].
  zcases; [by repeat constructor|constructor; auto|apply IH; auto; lia].
Qed.

(** Acknowledging a sent range adds exactly that range to the acknowledged
    offsets and releases the buffered prefix that became contiguous. *)
Lemma ack_ok w s r :
  inv w s → 0 <= rstart r → rend r <= unsent s →
  ∃ s', ack s r = Ret s' ∧ inv w s' ∧
    offset s' = offset s ∧ unsent s' = unsent s ∧ retransmits s' = retransmits s ∧
    (∀ x, acked s' x ↔ acked s x ∨ rstart r <= x < rend r).
Proof.
  intros Hi Hrs Hre. pose proof (inv_unacked_len w s Hi) as Hl.
  destruct Hi as [Ho Hm Hb Hu Hd Ha Has Hr Hrr]. unfold ack.
  rewrite usub_ok by (unfold base in *; lia). cbn [mbind M_bind]. fold (base s).
  set (a := Z.max (base s) (rstart r)). set (b := Z.max (base s) (rend r)).
  assert (Hw0 : wf (acks s)) by (eapply wf_from_mono; [|exact Ha]; lia).
  destruct (Z.le_gt_cases b a) as [Hba|Hab].
  { assert (BTree.insert (acks s) (mkRange a b) = (acks s, false)) as ->.
    { unfold BTree.insert, range_is_empty. simpl. by destruct (Z.ltb_spec a b); [lia|]. }
    rewrite ack_loop_done by (simpl; auto; unfold base in *; simpl; lia).
    eexists. split; [done|]. split; [by split|]. repeat (split; [done|]).
    intros x. unfold acked. simpl. split; [tauto|]. intros [?|?]; [done|].
    left. unfold base in *. simpl in *. lia. }
  rewrite bt_insert_ref by (auto; unfold u64_max; lia).
  assert (Hbo : b <= unsent s) by lia.
  assert (Hin : ∀ x, rs_in x (ins_ref (acks s) a b) ↔ rs_in x (acks s) ∨ a <= x < b).
  { intros x. eapply ins_ref_in; eauto. }
  pose proof (ins_ref_Forall (acks s) a b (unsent s) Has Hbo) as Hall.
  destruct (Z.le_gt_cases a (base s)) as [Hab'|Hab'].
  - assert (a = base s) as Ha' by lia.
    destruct (ins_ref_head (base s + 1) (acks s) a b) as (e' & k & Heq & ? & Hk & _ & Hk');
      auto; try (unfold u64_max; lia).
    rewrite Heq in *. apply Forall_cons in Hall as [He' Hall]. simpl in He'.
    destruct (advance_segments_ok (unacked_segments s) (e' - base s)) as (segs & Hadv & Hc);
      [unfold base in *; lia|].
    set (s' := mkSendBuffer segs (offset s - e') (offset s) (unsent s) k (retransmits s)).
    erewrite ack_loop_pop by (simpl; (rewrite Ha'; done) || exact Hadv || (unfold base in *; simpl; lia)).
    cbn [length unsent offset retransmits]. fold s'.
    assert (Hb' : base s' = e') by (unfold base, s'; simpl; unfold base in *; lia).
    rewrite ack_loop_done by (rewrite ?Hb'; simpl; auto; unfold base in *; lia).
    exists s'. split; [done|]. split; [split; rewrite ?Hb'; simpl; auto; try lia|].
    { rewrite Hc, Hd, dropZ_dropZ by lia. f_equal. lia. }
    repeat (split; [done|]). intros x. unfold acked. rewrite Hb'. simpl.
    specialize (Hin x). rewrite rs_in_cons in Hin. simpl in Hin.
    assert (rs_in x k → e' + 1 <= x) by (intros Hx; apply (rs_in_bounds _ _ _ Hk Hx)).
    assert (rs_in x (acks s) → base s + 1 <= x) by (intros Hx; apply (rs_in_bounds _ _ _ Ha Hx)).
    destruct (Z.lt_ge_cases x (base s)); [intuition lia|].
    assert (a <= x) by lia. intuition lia.
  - set (s' := mkSendBuffer (unacked_segments s) (unacked_len s) (offset s) (unsent s)
                 (ins_ref (acks s) a b) (retransmits s)).
    assert (Hb' : base s' = base s) by done.
    rewrite ack_loop_done; rewrite ?Hb'; simpl; try (unfold base in *; lia).
    2:{ apply ins_ref_wf; auto; try lia. unfold u64_max. lia. }
    exists s'. split; [done|]. split; [split; rewrite ?Hb'; simpl; auto; try lia|].
    { apply ins_ref_wf; auto; try lia. unfold u64_max. lia. }
    repeat (split; [done|]). intros x. unfold acked. rewrite Hb'. simpl. rewrite Hin.
    intuition lia.
Qed.

Lemma write_ok w s data :
  inv w s → offset s + len data <= 2 ^ 62 - 1 →
  ∃ s', write s data = Ret s' ∧ inv (w ++ data) s' ∧
    offset s' = offset s + len data ∧ unsent s' = unsent s ∧ base s' = base s ∧
    acks s' = acks s ∧ retransmits s' = retransmits s.
Proof.
  intros Hi Hmax. destruct Hi as [Ho Hm Hb Hu Hd Ha Has Hr Hrr].
  pose proof (len_nonneg data). unfold write.
  rewrite !uadd_ok by (unfold base, u64_max in *; lia). simpl.
  eexists. split; [done|].
  set (s' := mkSendBuffer _ _ _ _ _ _). assert (Hb' : base s' = base s) by (unfold base; simpl; lia).
  split; [split; rewrite ?Hb'; simpl; auto; try lia|done].
  - by rewrite Ho, len_app.
  - rewrite concat_app, Hd, dropZ_app_le by lia. simpl. by rewrite app_nil_r.
Qed.

(** Bytes of STREAM frame header that depend on the range: the offset, and the
    length field when it is encoded. *)
Definition meta_size (start : Z) (encode_length : bool) : Z :=
  (if start =? 0 then 0
   else match VarInt_size (mkVarInt start) with Ret n => n | Panic => 0 end) +
  (if encode_length then 8 else 0).

Lemma poll_plan max_len a b :
  16 <= max_len → 0 <= a <= b → b < 2 ^ 62 →
  ∃ m1 m2, reserve_offset max_len a = Ret m1 ∧
    (if b - a <? m1 then usub m1 8 else mret m1) = Ret m2 ∧ 0 <= m2 ∧
    m2 + meta_size a (b - a <? m1) = max_len ∧ (16 < max_len → 0 < m2).
Proof.
  intros Hm Ha Hb. unfold reserve_offset, meta_size.
  destruct (Z.eqb_spec a 0) as [->|Hne].
  - exists max_len. destruct (Z.ltb_spec (b - 0) max_len).
    + exists (max_len - 8). rewrite usub_ok by lia. repeat split; lia.
    + exists max_len. repeat split; lia.
  - destruct (VarInt_size_range a) as (n & Hn & ?); [lia|]. rewrite Hn. simpl.
    exists (max_len - n). rewrite usub_ok by lia.
    destruct (Z.ltb_spec (b - a) (max_len - n)).
    + exists (max_len - n - 8). rewrite usub_ok by lia. repeat split; lia.
    + exists (max_len - n). repeat split; lia.
Qed.

(** Selecting data to send: the range leaves the queue, nothing else does, the
    frame fits in [max_len], and with room for one byte the range is not empty. *)
Lemma poll_transmit_ok w s max_len :
  inv w s → 16 <= max_len →
  ∃ r b s', poll_transmit s max_len = Ret ((r, b), s') ∧ inv w s' ∧
    offset s' = offset s ∧ base s' = base s ∧ acks s' = acks s ∧ unsent s <= unsent s' ∧
    0 <= rstart r <= rend r ∧ rend r <= unsent s' ∧
    (∀ x, queued s x ↔ queued s' x ∨ rstart r <= x < rend r) ∧
    (∀ x, rstart r <= x < rend r → ¬ queued s' x) ∧
    rend r - rstart r + meta_size (rstart r) b <= max_len ∧
    (16 < max_len → rstart r < rend r ∨ ∀ x, ¬ queued s x).
Proof.
  intros Hi Hmax. pose proof Hi as [Ho Hm Hb Hu Hd Ha Has Hr Hrr].
  unfold poll_transmit. destruct (Z.leb_spec (8 + 8) max_len); [|lia]. simpl rassert.
  cbn [mbind M_bind]. unfold BTree.pop_min, BTree.peek_min, queued, base.
  destruct (retransmits s) as [|[a b] rt] eqn:Hrt; cbn [head].
  - destruct (poll_plan max_len (unsent s) (offset s)) as (m1 & m2 & Hm1 & Hm2 & ? & Hsz & Hpos); [lia..|].
    rewrite Hm1. cbn [mbind M_bind]. rewrite (usub_ok (offset s) (unsent s)) by lia. cbn [mbind M_bind]. rewrite Hm2.
    cbn [mbind M_bind mret M_ret].
    do 3 eexists. split; [done|].
    assert (Hstop : unsent s <= Z.min (offset s) (sat_add m2 (unsent s)) <= unsent s + m2)
      by (unfold sat_add, u64_max; lia).
    split; [split; simpl; auto; unfold base in *; simpl; rewrite ?Hrt; try lia|].
    { eapply Forall_impl; [exact Has|]. simpl. lia. }
    simpl. repeat (split; [done || lia|]). split; [|split; [|split]].
    + intros x. rewrite !rs_in_nil. unfold sat_add, u64_max in *. lia.
    + intros x Hx. rewrite rs_in_nil. lia.
    + lia.
    + intros H16. specialize (Hpos H16). unfold sat_add, u64_max in *.
      destruct (Z.eq_dec (unsent s) (offset s)); [right|left; lia].
      intros x. rewrite rs_in_nil. lia.
  - destruct Hr as (Ha0 & Hab & Hbm & Hwt). apply Forall_cons in Hrr as [Hbu Hrr].
    cbn [rstart rend BTreeMap.remove] in *. rewrite Z.eqb_refl.
    destruct (poll_plan max_len a b) as (m1 & m2 & Hm1 & Hm2 & ? & Hsz & Hpos); [lia..|].
    rewrite Hm1. cbn [mbind M_bind]. rewrite (usub_ok b a) by lia. cbn [mbind M_bind]. rewrite Hm2.
    cbn [mbind M_bind mret M_ret].
    assert (Hstop : a <= Z.min b (sat_add m2 a) <= a + m2) by (unfold sat_add, u64_max; lia).
    assert (Hstop' : 16 < max_len → a < Z.min b (sat_add m2 a))
      by (intros H16; specialize (Hpos H16); unfold sat_add, u64_max; lia).
    set (stop := Z.min b (sat_add m2 a)) in *.
    assert (Hlow : ∀ x, rs_in x rt → b + 1 <= x) by (intros x Hx; apply (rs_in_bounds _ _ _ Hwt Hx)).
    assert (Hrt' : (if stop =? b then rt else fst (BTree.insert rt (mkRange stop b)))
                   = if stop =? b then rt else mkRange stop b :: rt).
    { destruct (Z.eqb_spec stop b); [done|]. rewrite bt_insert_ref; try lia.
      - by erewrite ins_ref_front by (eauto; lia).
      - eapply wf_from_mono; [|exact Hwt]. lia. }
    rewrite Hrt'. do 3 eexists. split; [done|]. split; [split; simpl; auto; unfold base in *; simpl; try lia|].
    { destruct (Z.eqb_spec stop b); [eapply wf_from_mono; [|exact Hwt]; lia|].
      repeat split; auto; simpl; lia. }
    { destruct (stop =? b); auto. }
    simpl. repeat (split; [done || lia|]). split; [|split; [|split]].
    + intros x. rewrite rs_in_cons. simpl.
      destruct (Z.eqb_spec stop b); rewrite ?rs_in_cons; simpl; intuition lia.
    + intros x Hx. destruct (Z.eqb_spec stop b); rewrite ?rs_in_cons; simpl;
        pose proof (Hlow x); intuition lia.
    + lia.
    + intros H16. left. auto.
Qed.

Lemma retransmit_ok w s r :
  inv w s → 0 <= rstart r → rend r <= unsent s →
  ∃ s', retransmit s r = Ret s' ∧ inv w s' ∧
    offset s' = offset s ∧ unsent s' = unsent s ∧ base s' = base s ∧ acks s' = acks s ∧
    (∀ x, queued s' x ↔ queued s x ∨ rstart r <= x < rend r).
Proof.
  intros Hi Hrs Hre. pose proof Hi as [Ho Hm Hb Hu Hd Ha Has Hr Hrr].
  unfold retransmit. destruct (Z.leb_spec (rend r) (unsent s)); [|lia]. simpl.
  eexists. split; [done|].
  destruct (Z.le_gt_cases (rend r) (rstart r)) as [Hemp|Hne].
  - assert (BTree.insert (retransmits s) r = (retransmits s, false)) as ->.
    { unfold BTree.insert, range_is_empty. by destruct (Z.ltb_spec (rstart r) (rend r)); [lia|]. }
    simpl. split; [by split|]. repeat (split; [done|]). intros x. unfold queued. simpl. intuition lia.
  - destruct r as [a b]; simpl in *. rewrite bt_insert_ref by (auto; unfold u64_max; lia). simpl.
    split; [split; simpl; auto|].
    + apply ins_ref_wf; auto. unfold u64_max. lia.
    + apply ins_ref_Forall; auto.
    + repeat (split; [done|]). intros x. unfold queued. simpl.
      rewrite (ins_ref_in _ _ _ 0) by (auto; lia). tauto.
Qed.

Lemma retry_ok w s :
  inv w s → base s = 0 → acks s = [] → retransmits s = [] →
  ∃ s', retransmit_all_for_0rtt s = Ret s' ∧ inv w s' ∧
    offset s' = offset s ∧ unsent s' = 0 ∧ base s' = 0 ∧ acks s' = [] ∧ retransmits s' = [].
Proof.
  intros [Ho Hm Hb Hu Hd Ha Has Hr Hrr] Hb0 Hacks Hrt. unfold retransmit_all_for_0rtt.
  destruct (Z.eqb_spec (offset s) (unacked_len s)); [|unfold base in *; lia].
  rewrite Hacks, Hrt. simpl. eexists. split; [done|].
  split; [split; simpl; auto; unfold base in *; simpl; try done; try lia|done].
Qed.

Lemma new_inv : inv [] new.
Proof. split; simpl; try done; unfold base; simpl; lia. Qed.

Lemma carriers_app x l k : carriers x (l ++ k) = (carriers x l + carriers x k)%nat.
Proof. unfold carriers. by rewrite filter_app, length_app. Qed.

Lemma carriers_cons x r fl :
  carriers x (r :: fl) = ((if decide (rstart r <= x < rend r)%Z then 1 else 0) + carriers x fl)%nat.
Proof. unfold carriers. rewrite filter_cons. case_decide; done. Qed.

(** One packet taken out of the flight. *)
Lemma carriers_remove x l r k :
  carriers x (l ++ r :: k) =
  ((if decide (rstart r <= x < rend r)%Z then 1 else 0) + carriers x (l ++ k))%nat.
Proof. rewrite !carriers_app, carriers_cons. lia. Qed.

Lemma carriers_zero x fl u :
  Forall (fun r => 0 <= rstart r <= rend r ∧ rend r <= u) fl → ¬ (0 <= x < u) →
  carriers x fl = 0%nat.
Proof.
  induction 1 as [|r fl Hr _ IH]; intros Hx; [done|].
  rewrite carriers_cons, IH by done. case_decide; lia.
Qed.

Lemma acked_sent w s x : inv w s → acked s x → 0 <= x < unsent s.
Proof.
  intros [Ho Hm Hb Hu Hd Ha Has Hr Hrr] [?|Hx]; [lia|].
  pose proof (rs_in_bounds _ _ _ Ha Hx). unfold rs_in in Hx.
  apply Exists_exists in Hx as (r & Hr' & ?). rewrite Forall_forall in Has.
  specialize (Has r Hr'). lia.
Qed.

(** Case analysis of one offset against the partition. *)
Ltac partition_solve :=
  intros x;
  repeat match goal with
  | H : ∀ x, acked _ x → _ |- _ => specialize (H x)
  | H : ∀ x, queued _ x → _ |- _ => specialize (H x)
  | H : ∀ x, (_ <= 1)%nat |- _ => specialize (H x)
  | H : ∀ x, _ <= x < _ → _ |- _ => specialize (H x)
  | H : ∀ x, ¬ _ <= x < _ → _ |- _ => specialize (H x)
  | H : ∀ x, _ ↔ _ |- _ => specialize (H x)
  | H : ?a <= x < ?b → _ |- _ => destruct (decide (a <= x < b)); [specialize (H ltac:(done))|clear H]
  | H : ¬ ?a <= x < ?b → _ |- _ => destruct (decide (a <= x < b)); [clear H|specialize (H ltac:(done))]
  end;
  rewrite ?carriers_cons, ?carriers_remove in *; repeat case_decide; intuition lia.

Lemma step_write_ninv s fl w data s' :
  ninv (mkNet s fl w) → offset s + len data <= 2 ^ 62 - 1 → write s data = Ret s' →
  ninv (mkNet s' fl (w ++ data)).
Proof.
  intros [Hi Hf Hac Hq Ho Hc] Hmax Hop. simpl in *.
  destruct (write_ok w s data Hi Hmax) as (s1 & Hop1 & Hi' & E1 & E2 & E3 & E4 & E5).
  rewrite Hop in Hop1. injection Hop1 as <-. pose proof (len_nonneg data).
  assert (HA : ∀ x, acked s' x ↔ acked s x) by (intros; unfold acked; by rewrite E3, E4).
  assert (HQ : ∀ x, queued s' x ↔ queued s x ∨ offset s <= x < offset s').
  { intros x. unfold queued. rewrite E5, E2, E1. destruct Hi. intuition lia. }
  assert (HS : ∀ x, acked s x → 0 <= x < unsent s) by (intros; by eapply acked_sent).
  assert (HF : ∀ x, ¬ 0 <= x < unsent s → carriers x fl = 0%nat) by (intros; by eapply carriers_zero).
  pose proof (inv_unsent _ _ Hi).
  split; simpl; auto; [by rewrite E2|partition_solve..|].
  intros x Hx. destruct (decide (x < offset s)).
  - rewrite HA, HQ. destruct (Hc x); tauto || lia.
  - right. left. apply HQ. lia.
Qed.

Lemma step_send_ninv s fl w max_len r b s' :
  ninv (mkNet s fl w) → 16 <= max_len → poll_transmit s max_len = Ret ((r, b), s') →
  ninv (mkNet s' (r :: fl) w).
Proof.
  intros [Hi Hf Hac Hq Ho Hc] Hmax Hop. simpl in *.
  destruct (poll_transmit_ok w s max_len Hi Hmax)
    as (r1 & b1 & s1 & Hop1 & Hi' & E1 & E2 & E3 & Hun & Hr1 & Hr2 & HQ & HN & _).
  rewrite Hop in Hop1. injection Hop1 as <- <- <-.
  assert (HA : ∀ x, acked s' x ↔ acked s x) by (intros; unfold acked; by rewrite E2, E3).
  split; simpl; auto; [|rewrite ?E1; partition_solve..].
  constructor; [done|]. eapply Forall_impl; [exact Hf|]. simpl. lia.
Qed.

Lemma step_acked_ninv s fl1 r fl2 w s' :
  ninv (mkNet s (fl1 ++ r :: fl2) w) → ack s r = Ret s' → ninv (mkNet s' (fl1 ++ fl2) w).
Proof.
  intros [Hi Hf Hac Hq Ho Hc] Hop. simpl in *.
  pose proof Hf as Hr. apply Forall_app in Hr as [Hf1 [Hr Hf2]%Forall_cons].
  destruct (ack_ok w s r Hi) as (s1 & Hop1 & Hi' & E1 & E2 & E3 & HA); [lia..|].
  rewrite Hop in Hop1. injection Hop1 as <-.
  assert (HQ : ∀ x, queued s' x ↔ queued s x) by (intros; unfold queued; by rewrite E1, E2, E3).
  split; simpl; auto; [|rewrite ?E1; partition_solve..].
  rewrite E2. by apply Forall_app.
Qed.

Lemma step_lost_ninv s fl1 r fl2 w s' :
  ninv (mkNet s (fl1 ++ r :: fl2) w) → retransmit s r = Ret s' → ninv (mkNet s' (fl1 ++ fl2) w).
Proof.
  intros [Hi Hf Hac Hq Ho Hc] Hop. simpl in *.
  pose proof Hf as Hr. apply Forall_app in Hr as [Hf1 [Hr Hf2]%Forall_cons].
  destruct (retransmit_ok w s r Hi) as (s1 & Hop1 & Hi' & E1 & E2 & E3 & E4 & HQ); [lia..|].
  rewrite Hop in Hop1. injection Hop1 as <-.
  assert (HA : ∀ x, acked s' x ↔ acked s x) by (intros; unfold acked; by rewrite E3, E4).
  split; simpl; auto; [|rewrite ?E1; partition_solve..].
  rewrite E2. by apply Forall_app.
Qed.

Lemma step_retry_ninv s fl w s' :
  ninv (mkNet s fl w) → acks s = [] → retransmits s = [] →
  retransmit_all_for_0rtt s = Ret s' → ninv (mkNet s' [] w).
Proof.
  intros [Hi Hf Hac Hq Ho Hc] Hacks Hrt Hop. simpl in *.
  assert (Hb0 : base s = 0).
  { unfold retransmit_all_for_0rtt in Hop. unfold base.
    destruct (Z.eqb_spec (offset s) (unacked_len s)); [lia|done]. }
  destruct (retry_ok w s Hi Hb0 Hacks Hrt) as (s1 & Hop1 & Hi' & E1 & E2 & E3 & E4 & E5).
  rewrite Hop in Hop1. injection Hop1 as <-.
  assert (HA : ∀ x, acked s' x ↔ False).
  { intros x. unfold acked. rewrite E3, E4, rs_in_nil. lia. }
  assert (HQ : ∀ x, queued s' x ↔ 0 <= x < offset s').
  { intros x. unfold queued. rewrite E2, E5, rs_in_nil. tauto. }
  split; simpl; auto; try done; intros x; rewrite ?HA, ?HQ; tauto.
Qed.

Lemma reachable_ninv n : reachable n → ninv n.
Proof.
  induction 1 as [|n n' _ IH Hs].
  - split; cbn [buf flight written]; [apply new_inv|by apply Forall_nil|..];
      unfold acked, queued, base, carriers; simpl; intros x; try done; rewrite ?rs_in_nil; lia.
  - destruct Hs; eauto using step_write_ninv, step_send_ninv, step_acked_ninv,
      step_lost_ninv, step_retry_ninv.
Qed.

(** * Properties *)

(** A sample run: write ten bytes, send them in one packet. *)
Definition sample_sent : Net :=
  match poll_transmit (mkSendBuffer [[1;2;3;4;5;6;7;8;9;10]] 10 10 0 [] []) 40 with
  | Ret ((r, _), s) => mkNet s [r] [1;2;3;4;5;6;7;8;9;10]
  | Panic => mkNet new [] []
  end.

Lemma sample_sent_reachable : reachable sample_sent.
Proof.
  eapply reachable_step; [eapply reachable_step; [constructor|]|].
  - apply (step_write new [] [] [1;2;3;4;5;6;7;8;9;10]); [by vm_compute|vm_compute; reflexivity].
  - apply (step_send _ [] _ 40 (mkRange 0 10) true); [lia|vm_compute; reflexivity].
Qed.

(** C21: In every state a stream can reach, every written offset is in exactly
    one of: acknowledged, queued for (re)transmission, carried by one packet. *)
Theorem send_buffer_partition n x :
  reachable n → 0 <= x < offset (buf n) →
  (acked (buf n) x ∧ ¬ queued (buf n) x ∧ carriers x (flight n) = 0%nat) ∨
  (¬ acked (buf n) x ∧ queued (buf n) x ∧ carriers x (flight n) = 0%nat) ∨
  (¬ acked (buf n) x ∧ ¬ queued (buf n) x ∧ carriers x (flight n) = 1%nat).
Proof.
  intros [Hi Hf Hac Hq Ho Hc]%reachable_ninv Hx.
  specialize (Hac x). specialize (Hq x). destruct (Hc x Hx) as [?|[?|?]];
    [left|right; left|right; right]; intuition lia.
Qed.

Lemma send_buffer_partition_witness :
  (acked (buf sample_sent) 4 ∧ ¬ queued (buf sample_sent) 4 ∧ carriers 4 (flight sample_sent) = 0%nat) ∨
  (¬ acked (buf sample_sent) 4 ∧ queued (buf sample_sent) 4 ∧ carriers 4 (flight sample_sent) = 0%nat) ∨
  (¬ acked (buf sample_sent) 4 ∧ ¬ queued (buf sample_sent) 4 ∧ carriers 4 (flight sample_sent) = 1%nat).
Proof. apply send_buffer_partition; [apply sample_sent_reachable|vm_compute; split; congruence]. Defined.

(** In every reachable state no operation panics: a packet in flight can be
    acknowledged or declared lost, and a range can be selected; the frame built
    from the selected range fits, carries exactly the written bytes of that
    range, and with room for one byte it is empty only if nothing is queued. *)
Theorem send_buffer_never_panics n :
  reachable n →
  (∀ r, r ∈ flight n → (∃ s', ack (buf n) r = Ret s') ∧ (∃ s', retransmit (buf n) r = Ret s')) ∧
  (∀ max_len, 16 <= max_len → ∃ r b s', poll_transmit (buf n) max_len = Ret ((r, b), s') ∧
     rend r - rstart r + meta_size (rstart r) b <= max_len ∧
     copy_loop (Z.to_nat (rend r - rstart r)) s' r
       = Ret (takeZ (rend r - rstart r) (dropZ (rstart r) (written n))) ∧
     (16 < max_len → has_unsent_data (buf n) = true → rstart r < rend r)).
Proof.
  intros [Hi Hf Hac Hq Ho Hc]%reachable_ninv. split.
  - intros r Hr. rewrite Forall_forall in Hf. specialize (Hf r Hr). split.
    + destruct (ack_ok _ _ r Hi) as (s' & ? & _); [lia..|eauto].
    + destruct (retransmit_ok _ _ r Hi) as (s' & ? & _); [lia..|eauto].
  - intros max_len Hm. destruct (poll_transmit_ok _ _ _ Hi Hm)
      as (r & b & s' & -> & Hi' & E1 & E2 & E3 & Hu & Hr1 & Hr2 & HQ & HN & Hsz & Hpos).
    exists r, b, s'. split; [done|split; [done|split]].
    + destruct (decide (rstart r = rend r)) as [Heq|Hne].
      { destruct r as [a b']; simpl in *. subst b'. rewrite Z.sub_diag. simpl. by rewrite Z.eqb_refl. }
      assert (base s' <= rstart r).
      { rewrite E2. destruct (decide (rstart r < base (buf n))); [exfalso|lia].
        destruct (Hac (rstart r)) as [Hnq _]; [left; lia|]. apply Hnq, HQ. right. lia. }
      pose proof (inv_unsent _ _ Hi'). destruct r; simpl in *. apply copy_loop_ok; auto; lia.
    + intros Hm16 Hun. destruct (Hpos Hm16) as [|Hnone]; [done|exfalso].
      unfold has_unsent_data in Hun. apply orb_true_iff in Hun as [Hun|Hun]; apply negb_true_iff in Hun.
      * apply Z.eqb_neq in Hun. apply (Hnone (unsent (buf n))). right.
        pose proof (inv_unsent _ _ Hi). lia.
      * pose proof (inv_retransmits _ _ Hi) as Hw. unfold queued in Hnone.
        destruct (retransmits (buf n)) as [|r0 m]; [done|]. destruct Hw as (?&?&_).
        apply (Hnone (rstart r0)). left. apply rs_in_cons. left. lia.
Qed.

Lemma send_buffer_never_panics_witness :
  (∀ r, r ∈ flight sample_sent →
    (∃ s', ack (buf sample_sent) r = Ret s') ∧ (∃ s', retransmit (buf sample_sent) r = Ret s')) ∧
  (∀ max_len, 16 <= max_len → ∃ r b s', poll_transmit (buf sample_sent) max_len = Ret ((r, b), s') ∧
     rend r - rstart r + meta_size (rstart r) b <= max_len ∧
     copy_loop (Z.to_nat (rend r - rstart r)) s' r
       = Ret (takeZ (rend r - rstart r) (dropZ (rstart r) (written sample_sent))) ∧
     (16 < max_len → has_unsent_data (buf sample_sent) = true → rstart r < rend r)).
Proof. apply send_buffer_never_panics. apply sample_sent_reachable. Defined.

(** A stream with nothing queued and nothing in flight is fully
    acknowledged: no written byte is ever forgotten. *)
Theorem send_buffer_quiescent_acked n :
  reachable n → has_unsent_data (buf n) = false → flight n = [] →
  is_fully_acked (buf n) = true.
Proof.
  intros [Hi Hf Hac Hq Ho Hc]%reachable_ninv Hun Hfl.
  apply orb_false_iff in Hun as [Hun Hrt]. apply negb_false_iff in Hun, Hrt.
  apply Z.eqb_eq in Hun. destruct Hi as [? ? Hb ? ? Ha Has ? ?].
  unfold is_fully_acked. apply Z.eqb_eq.
  destruct (decide (base (buf n) < offset (buf n))) as [Hlt|]; [exfalso|unfold base in *; lia].
  destruct (Hc (base (buf n))) as [[?|Hx]|[[Hx|?]|Hx]]; try lia.
  - apply (rs_in_bounds _ _ _ Ha) in Hx. lia.
  - destruct (retransmits (buf n)); [by apply rs_in_nil in Hx|done].
  - rewrite Hfl in Hx. done.
Qed.

(** The sample run with its packet acknowledged. *)
Definition sample_acked : Net :=
  match ack (buf sample_sent) (mkRange 0 10) with
  | Ret s => mkNet s [] [1;2;3;4;5;6;7;8;9;10]
  | Panic => mkNet new [] []
  end.

Lemma sample_acked_reachable : reachable sample_acked.
Proof.
  eapply reachable_step; [apply sample_sent_reachable|].
  apply (step_acked _ [] (mkRange 0 10) []). vm_compute. reflexivity.
Qed.

Lemma send_buffer_quiescent_acked_witness : is_fully_acked (buf sample_acked) = true.
Proof.
  apply send_buffer_quiescent_acked; [apply sample_acked_reachable|reflexivity|reflexivity].
Defined.

(** Acknowledging a sent range adds exactly that range to the acknowledged
    offsets, keeps the content of every byte that remains buffered, and leaves
    the send queue alone. *)
Theorem send_buffer_ack_correct w s r :
  inv w s → 0 <= rstart r → rend r <= unsent s →
  ∃ s', ack s r = Ret s' ∧ inv w s' ∧
    (∀ x, acked s' x ↔ acked s x ∨ rstart r <= x < rend r) ∧
    (∀ x, queued s' x ↔ queued s x) ∧ unacked s' = Ret (rs_size [mkRange (base s') (offset s')] - rs_size (acks s')).
Proof.
  intros Hi Hr1 Hr2. destruct (ack_ok w s r Hi Hr1 Hr2) as (s' & Hop & Hi' & E1 & E2 & E3 & HA).
  exists s'. split; [done|split; [done|split; [done|split]]].
  - intros x. unfold queued. by rewrite E1, E2, E3.
  - destruct Hi' as [? ? ? ? ? Ha Has ? ?].
    pose proof (rs_size_bound (acks s') (base s' + 1) (offset s' + 1) Ha) as Hb.
    assert (Hf : Forall (fun r => rend r <= offset s' + 1) (acks s'))
      by (eapply Forall_impl; [exact Has|]; simpl; lia).
    specialize (Hb ltac:(lia) Hf). unfold unacked. fold (rs_size (acks s')).
    rewrite usub_ok by (unfold base in *; lia). f_equal. unfold rs_size at 2. simpl. unfold base. lia.
Qed.

Lemma send_buffer_ack_correct_witness :
  ∃ s', ack (buf sample_sent) (mkRange 2 5) = Ret s' ∧ inv (written sample_sent) s' ∧
    (∀ x, acked s' x ↔ acked (buf sample_sent) x ∨ 2 <= x < 5) ∧
    (∀ x, queued s' x ↔ queued (buf sample_sent) x) ∧
    unacked s' = Ret (rs_size [mkRange (base s') (offset s')] - rs_size (acks s')).
Proof.
  apply (send_buffer_ack_correct (written sample_sent) (buf sample_sent) (mkRange 2 5)).
  - apply (ninv_buf _ (reachable_ninv _ sample_sent_reachable)).
  - vm_compute. congruence.
  - vm_compute. congruence.
Defined.
