(* ===== verification/Assembler.v ===== *)
(** Reassembly of received stream data:
    [quic-proto/src/connection/assembler.rs].

    The heap of buffered chunks is an argument: [Class Heap] states what
    [std::collections::BinaryHeap] documents, and every theorem holds for any
    such heap, whatever it does with equal elements.  [list_heap] is an
    executable instance. *)
From S2P Require Import Prelude RangeSet.

(** * Chunks *)

(** A chunk handed to the application. *)
Record Chunk : Type := mkChunk { c_offset : Z; c_bytes : list Z }.

(** A buffered chunk. *)
Record Buffer : Type := mkBuffer {
  b_offset : Z;
  b_bytes : list Z;
  allocation_size : Z;
  defragmented : bool
}.

Definition Buffer_new (offset : Z) (bytes : list Z) (alloc : Z) : Buffer :=
  mkBuffer offset bytes alloc false.

Definition Buffer_new_defragmented (offset : Z) (bytes : list Z) : Buffer :=
  mkBuffer offset bytes (len bytes) true.

(** [Ord for Buffer]: smaller offsets are greater; at the same offset longer
    chunks are greater. *)
Definition Buffer_cmp (a b : Buffer) : comparison :=
  match CompOpp (b_offset a ?= b_offset b) with
  | Eq => len (b_bytes a) ?= len (b_bytes b)
  | c => c
  end.

Definition Buffer_le (a b : Buffer) : Prop := Buffer_cmp a b ≠ Gt.

Definition try_mark_defragment (b : Buffer) (offset : Z) : M Buffer :=
  let duplicate := sat_sub offset (b_offset b) in
  let offset' := Z.max (b_offset b) offset in
  if len (b_bytes b) <=? duplicate then mret (mkBuffer offset' [] 0 true)
  else
    bytes ← advance duplicate (b_bytes b);
    d ← (if defragmented b then Ret true
         else m ← umul (len bytes) 6; Ret (allocation_size b <=? m / 5));
    mret (mkBuffer offset' bytes (if (d : bool) then len bytes else allocation_size b) d).

(** * The heap interface *)

(** [BinaryHeap<Buffer>]: [hpop] removes a greatest element, [helems] is the
    unordered iteration, [hsorted] is [into_sorted_vec].  [PeekMut] on the top is
    a pop followed, when the chunk stays, by a push of the modified chunk. *)
Class Heap (H : Type) : Type := {
  hempty : H;
  hpush : Buffer → H → H;
  hpop : H → option (Buffer * H);
  helems : H → list Buffer;
  hsorted : H → list Buffer;
  helems_empty : helems hempty = [];
  helems_push b h : helems (hpush b h) ≡ₚ b :: helems h;
  hpop_None h : hpop h = None ↔ helems h = [];
  hpop_Some h b h' : hpop h = Some (b, h') →
    helems h ≡ₚ b :: helems h' ∧ Forall (fun c => Buffer_le c b) (helems h);
  hsorted_perm h : hsorted h ≡ₚ helems h;
  hsorted_sorted h : StronglySorted Buffer_le (hsorted h)
}.

(** An executable heap: the elements in descending order. *)
Fixpoint list_heap_push (b : Buffer) (h : list Buffer) : list Buffer :=
  match h with
  | [] => [b]
  | c :: h' => match Buffer_cmp b c with Gt => b :: c :: h' | _ => c :: list_heap_push b h' end
  end.

(** * The assembler *)

Inductive State : Type :=
| Ordered
| Unordered (recvd : list Range).

Definition is_ordered (st : State) : bool := match st with Ordered => true | _ => false end.

Inductive IllegalOrderedRead : Type := mkIllegalOrderedRead.

Section Assembler.
Context {H : Type} `{Heap H}.

Record Assembler : Type := mkAssembler {
  state : State;
  next : option Buffer;
  data : H;
  buffered : Z;
  allocated : Z;
  bytes_read : Z;
  end_ : Z
}.

Definition new : Assembler := mkAssembler Ordered None hempty 0 0 0 0.

(** [reinit] keeps the heap's allocation, emptied. *)
Definition reinit (_ : Assembler) : Assembler := new.

Definition clear (s : Assembler) : Assembler :=
  mkAssembler (state s) None hempty 0 0 (bytes_read s) (end_ s).

(** [if let Some(slot) = self.next.take() { self.data.push(slot) }]. *)
Definition flush (s : Assembler) : Assembler :=
  match next s with
  | Some slot => mkAssembler (state s) None (hpush slot (data s)) (buffered s) (allocated s)
                   (bytes_read s) (end_ s)
  | None => s
  end.

(** First loop of [defragment], over the chunks from the greatest down. *)
Fixpoint mark_loop (bufs : list Buffer) (offset size_sum fragmented : Z)
    : M (list Buffer * Z * Z) :=
  match bufs with
  | [] => mret ([], size_sum, fragmented)
  | chunk :: rest =>
      chunk ← try_mark_defragment chunk offset;
      let size := len (b_bytes chunk) in
      offset' ← uadd (b_offset chunk) size;
      size_sum' ← uadd size_sum size;
      fragmented' ← (if defragmented chunk then Ret fragmented else uadd fragmented size);
      '(rest', a, b) ← mark_loop rest offset' size_sum' fragmented';
      mret (chunk :: rest', a, b)
  end.

(** Second loop of [defragment]: copy runs of contiguous fragmented chunks into
    one buffer. *)
Fixpoint rebuild_loop (bufs : list Buffer) (h : H) (buffer : list Z) (offset : Z)
    : M (H * list Z * Z) :=
  match bufs with
  | [] => mret (h, buffer, offset)
  | chunk :: rest =>
      if defragmented chunk then
        rebuild_loop rest (match b_bytes chunk with [] => h | _ => hpush chunk h end) buffer offset
      else
        stop ← uadd offset (len buffer);
        if b_offset chunk =? stop then
          rebuild_loop rest h (buffer ++ b_bytes chunk) offset
        else
          let h := match buffer with
                   | [] => h
                   | _ => hpush (Buffer_new_defragmented offset buffer) h
                   end in
          rebuild_loop rest h (b_bytes chunk) (b_offset chunk)
  end.

Definition defragment (s : Assembler) : M Assembler :=
  let s := flush s in
  let buffers := rev (hsorted (data s)) in
  '(buffers, size_sum, _) ← mark_loop buffers 0 0 0;
  '(h, buffer, offset) ← rebuild_loop buffers hempty [] 0;
  let h := match buffer with
           | [] => h
           | _ => hpush (Buffer_new_defragmented offset buffer) h
           end in
  mret (mkAssembler (state s) (next s) h size_sum size_sum (bytes_read s) (end_ s)).

Fixpoint insert_chunks (recvd : list Range) (chunks : list Buffer) : M (list Range) :=
  match chunks with
  | [] => mret recvd
  | chunk :: rest =>
      stop ← uadd (b_offset chunk) (len (b_bytes chunk));
      insert_chunks (fst (BTree.insert recvd (mkRange (b_offset chunk) stop))) rest
  end.

Definition ensure_ordering (s : Assembler) (ordered : bool)
    : M (Assembler * result IllegalOrderedRead unit) :=
  if ordered && negb (is_ordered (state s)) then mret (s, Err mkIllegalOrderedRead)
  else if negb ordered && is_ordered (state s) then
    let s := flush s in
    s ← (match helems (data s) with [] => Ret s | _ => defragment s end);
    let recvd := fst (BTree.insert BTree.new (mkRange 0 (bytes_read s))) in
    recvd ← insert_chunks recvd (helems (data s));
    mret (mkAssembler (Unordered recvd) (next s) (data s) (buffered s) (allocated s)
            (bytes_read s) (end_ s), Ok tt)
  else mret (s, Ok tt).

(** Hand out at most [max_length] bytes of the chunk on top; [keep] puts the
    rest of the chunk back. *)
Definition take_from (s : Assembler) (chunk : Buffer) (max_length : Z)
    (keep : Buffer → Assembler → Assembler) : M (option Chunk * Assembler) :=
  if max_length <? len (b_bytes chunk) then
    br ← uadd (bytes_read s) max_length;
    off ← uadd (b_offset chunk) max_length;
    bf ← usub (buffered s) max_length;
    '(out, rest) ← split_to max_length (b_bytes chunk);
    mret (Some (mkChunk (b_offset chunk) out),
          keep (mkBuffer off rest (allocation_size chunk) (defragmented chunk))
            (mkAssembler (state s) (next s) (data s) bf (allocated s) br (end_ s)))
  else
    br ← uadd (bytes_read s) (len (b_bytes chunk));
    bf ← usub (buffered s) (len (b_bytes chunk));
    al ← usub (allocated s) (allocation_size chunk);
    mret (Some (mkChunk (b_offset chunk) (b_bytes chunk)),
          mkAssembler (state s) (next s) (data s) bf al br (end_ s)).

(** The loop of [read]; an iteration that continues pops a chunk. *)
Fixpoint read_loop (fuel : nat) (s : Assembler) (max_length : Z) (ordered : bool)
    : M (option Chunk * Assembler) :=
  match fuel with
  | O => Panic
  | S fuel =>
      match hpop (data s) with
      | None => mret (None, s)
      | Some (chunk, h) =>
          let s' := mkAssembler (state s) (next s) h (buffered s) (allocated s)
                      (bytes_read s) (end_ s) in
          let keep c s := mkAssembler (state s) (next s) (hpush c (data s)) (buffered s)
                            (allocated s) (bytes_read s) (end_ s) in
          if ordered then
            if bytes_read s <? b_offset chunk then mret (None, s)
            else
              stop ← uadd (b_offset chunk) (len (b_bytes chunk));
              if stop <=? bytes_read s then
                bf ← usub (buffered s) (len (b_bytes chunk));
                al ← usub (allocated s) (allocation_size chunk);
                read_loop fuel (mkAssembler (state s) (next s) h bf al (bytes_read s) (end_ s))
                  max_length ordered
              else
                start ← usub (bytes_read s) (b_offset chunk);
                if 0 <? start then
                  bytes ← advance start (b_bytes chunk);
                  off ← uadd (b_offset chunk) start;
                  bf ← usub (buffered s) start;
                  take_from (mkAssembler (state s) (next s) h bf (allocated s) (bytes_read s) (end_ s))
                    (mkBuffer off bytes (allocation_size chunk) (defragmented chunk)) max_length keep
                else take_from s' chunk max_length keep
          else take_from s' chunk max_length keep
      end
  end.

Definition read (s : Assembler) (max_length : Z) (ordered : bool) : M (option Chunk * Assembler) :=
  match ordered, next s with
  | true, Some slot =>
      take_from (mkAssembler (state s) None (data s) (buffered s) (allocated s) (bytes_read s) (end_ s))
        slot max_length
        (fun c s => mkAssembler (state s) (Some c) (data s) (buffered s) (allocated s)
                      (bytes_read s) (end_ s))
  | _, _ => read_loop (S (length (helems (data s)))) s max_length ordered
  end.

(** The loop over the duplicate ranges in unordered mode. *)
Fixpoint dup_loop (dups : list Range) (s : Assembler) (offset : Z) (bytes : list Z) (alloc : Z)
    : M (Assembler * Z * list Z) :=
  match dups with
  | [] => mret (s, offset, bytes)
  | duplicate :: rest =>
      '(s, offset, bytes) ←
        (if offset <? rstart duplicate then
           n ← usub (rstart duplicate) offset;
           '(front, bytes) ← split_to n bytes;
           bf ← uadd (buffered s) (len front);
           al ← uadd (allocated s) alloc;
           Ret (mkAssembler (state s) (next s) (hpush (Buffer_new offset front alloc) (data s))
                   bf al (bytes_read s) (end_ s), rstart duplicate, bytes)
         else Ret (s, offset, bytes));
      n ← usub (rend duplicate) offset;
      bytes ← advance n bytes;
      dup_loop rest s (rend duplicate) bytes alloc
  end.

(** [insert] from the point where duplicate data has been discarded. *)
Definition insert_tail (s : Assembler) (offset : Z) (bytes : list Z) (alloc : Z) : M Assembler :=
  match bytes with
  | [] => mret s
  | _ =>
      let buffer := Buffer_new offset bytes alloc in
      bf ← uadd (buffered s) (len bytes);
      al ← uadd (allocated s) alloc;
      let s := mkAssembler (state s) (next s) (data s) bf al (bytes_read s) (end_ s) in
      if is_ordered (state s) && (match next s with None => true | _ => false end)
         && (match helems (data s) with [] => true | _ => false end)
         && (offset =? bytes_read s)
      then mret (mkAssembler (state s) (Some buffer) (data s) bf al (bytes_read s) (end_ s))
      else
        let s := flush s in
        let s := mkAssembler (state s) (next s) (hpush buffer (data s)) (buffered s) (allocated s)
                   (bytes_read s) (end_ s) in
        window ← usub (end_ s) (bytes_read s);
        let unique := Z.min (buffered s) window in
        over_allocation ← usub (allocated s) unique;
        m ← umul unique 3;
        let threshold := Z.max 32768 (m / 2) in
        if threshold <? over_allocation then defragment s else mret s
  end.

Definition insert (s : Assembler) (offset : Z) (bytes : list Z) (alloc : Z) : M Assembler :=
  _ ← rassert (len bytes <=? alloc);
  stop ← uadd offset (len bytes);
  let s := mkAssembler (state s) (next s) (data s) (buffered s) (allocated s) (bytes_read s)
             (Z.max (end_ s) stop) in
  match state s with
  | Unordered recvd =>
      let '(dups, recvd') := BTree.replace_for recvd (mkRange offset stop) in
      let s := mkAssembler (Unordered recvd') (next s) (data s) (buffered s) (allocated s)
                 (bytes_read s) (end_ s) in
      '(s, offset, bytes) ← dup_loop dups s offset bytes alloc;
      insert_tail s offset bytes alloc
  | Ordered =>
      if offset <? bytes_read s then
        if stop <=? bytes_read s then mret s
        else
          diff ← usub (bytes_read s) offset;
          bytes ← advance diff bytes;
          offset ← uadd offset diff;
          insert_tail s offset bytes alloc
      else insert_tail s offset bytes alloc
  end.

End Assembler.
Arguments Assembler H : clear implicits.
Arguments mkAssembler {H}.
Arguments state {H}.
Arguments next {H}.
Arguments data {H}.
Arguments buffered {H}.
Arguments allocated {H}.
Arguments bytes_read {H}.
Arguments end_ {H}.

(** * The list heap *)

Lemma Buffer_cmp_le a b :
  Buffer_le a b ↔ b_offset b < b_offset a ∨
    (b_offset a = b_offset b ∧ len (b_bytes a) <= len (b_bytes b)).
Proof.
  unfold Buffer_le, Buffer_cmp.
  destruct (Z.compare_spec (b_offset a) (b_offset b)); simpl.
  - destruct (Z.compare_spec (len (b_bytes a)) (len (b_bytes b))); intuition (lia || congruence).
  - intuition lia.
  - intuition congruence.
Qed.

Lemma Buffer_cmp_gt a b : Buffer_cmp a b = Gt → Buffer_le b a.
Proof.
  rewrite Buffer_cmp_le. unfold Buffer_cmp.
  destruct (Z.compare_spec (b_offset a) (b_offset b)); simpl; try done; [|lia].
  destruct (Z.compare_spec (len (b_bytes a)) (len (b_bytes b))); try done. lia.
Qed.

#[global] Instance Buffer_le_trans : Transitive Buffer_le.
Proof. intros a b c. rewrite !Buffer_cmp_le. lia. Qed.

Lemma list_heap_push_perm b h : list_heap_push b h ≡ₚ b :: h.
Proof.
  induction h as [|c h IH]; simpl; [done|].
  destruct (Buffer_cmp b c); [rewrite IH; apply Permutation_swap..|done].
Qed.

Lemma list_heap_push_sorted b h :
  StronglySorted (flip Buffer_le) h → StronglySorted (flip Buffer_le) (list_heap_push b h).
Proof.
  induction 1 as [|c h Hh IH Hc]; simpl; [repeat constructor|].
  assert (Hle : Buffer_cmp b c ≠ Gt → StronglySorted (flip Buffer_le) (c :: list_heap_push b h)).
  { intros Hbc. constructor; [done|]. rewrite list_heap_push_perm. by constructor. }
  destruct (Buffer_cmp b c) eqn:Hcmp; [by apply Hle|by apply Hle|].
  apply Buffer_cmp_gt in Hcmp. constructor; [by constructor|]. constructor; [done|].
  eapply Forall_impl; [exact Hc|]. intros d Hd. unfold flip in *. by etrans.
Qed.

Lemma StronglySorted_rev {A} (R : relation A) l :
  StronglySorted (flip R) l → StronglySorted R (rev l).
Proof.
  induction 1 as [|x l Hl IH Hx]; simpl; [constructor|].
  apply StronglySorted_app_2; [|done|repeat constructor].
  intros y z Hy Hz. apply list_elem_of_singleton in Hz as ->.
  rewrite Forall_forall in Hx. apply Hx. apply list_elem_of_In, in_rev, list_elem_of_In. done.
Qed.

(** Sorting on demand makes any list a heap. *)
Definition list_heap_sort (h : list Buffer) : list Buffer := foldr list_heap_push [] h.

Lemma list_heap_sort_perm h : list_heap_sort h ≡ₚ h.
Proof. induction h as [|b h IH]; simpl; [done|]. by rewrite list_heap_push_perm, IH. Qed.

Lemma list_heap_sort_sorted h : StronglySorted (flip Buffer_le) (list_heap_sort h).
Proof. induction h; simpl; [constructor|]. by apply list_heap_push_sorted. Qed.

#[global, refine] Instance list_heap : Heap (list Buffer) := {
  hempty := [];
  hpush := list_heap_push;
  hpop h := match list_heap_sort h with [] => None | b :: l => Some (b, l) end;
  helems h := h;
  hsorted h := rev (list_heap_sort h)
}.
Proof.
  - done.
  - apply list_heap_push_perm.
  - intros h. pose proof (list_heap_sort_perm h) as Hp. split.
    + destruct (list_heap_sort h); [|done]. intros _. by apply Permutation_nil.
    + intros ->. done.
  - intros h b h'. pose proof (list_heap_sort_perm h) as Hp.
    pose proof (list_heap_sort_sorted h) as Hs.
    destruct (list_heap_sort h) as [|c l]; [done|]. intros [= -> ->]. split; [done|].
    rewrite <- Hp. apply StronglySorted_inv in Hs as [_ Hs]. constructor; [|done].
    apply Buffer_cmp_le. lia.
  - intros h. rewrite <- Permutation_rev. apply list_heap_sort_perm.
  - intros h. apply StronglySorted_rev, list_heap_sort_sorted.
Defined.
