(* ===== verification/AssemblerSpec.v ===== *)
(** What the assembler promises: [quic-proto/src/connection/assembler.rs].

    The peer's stream is a function [f] from offsets to bytes.  The abstraction
    of an assembler is the set of offsets it can still deliver; [insert] adds
    offsets to it and [read] removes the ones it returns, with the bytes of [f].
    All arithmetic stays in range and no operation panics. *)
From S2P Require Import Prelude RangeSet Assembler.

(** * Specification *)

(** The bytes of the stream from [o] to [o + n]. *)
Definition slice (f : Z → Z) (o n : Z) : list Z := f <$> seqZ o n.

Definition agree (f : Z → Z) (b : Buffer) : Prop :=
  b_bytes b = slice f (b_offset b) (len (b_bytes b)).

Definition covers (x : Z) (b : Buffer) : Prop :=
  b_offset b <= x < b_offset b + len (b_bytes b).

#[global] Instance covers_dec x b : Decision (covers x b).
Proof. unfold covers. apply _. Defined.

(** How many buffers hold offset [x]. *)
Definition cnt (x : Z) (l : list Buffer) : nat := length (filter (covers x) l).

Definition sum_len (l : list Buffer) : Z := fold_right (fun b n => len (b_bytes b) + n) 0 l.
Definition sum_alloc (l : list Buffer) : Z := fold_right (fun b n => allocation_size b + n) 0 l.

(** A buffered chunk: right contents, not empty, below the end of the stream. *)
Record buf_ok (f : Z → Z) (e : Z) (b : Buffer) : Prop := {
  bo_agree : agree f b;
  bo_nonempty : 0 < len (b_bytes b);
  bo_offset : 0 <= b_offset b;
  bo_end : b_offset b + len (b_bytes b) <= e;
  bo_alloc : len (b_bytes b) <= allocation_size b
}.

(** Streams longer than this do not fit a 64-bit address space; the bound keeps
    [bytes.len() * 6] of [try_mark_defragment] in range. *)
Definition max_stream : Z := 2 ^ 61.

Section Spec.
Context {H : Type} `{Heap H}.
Implicit Types (s : Assembler H) (l : list Buffer).

Definition bufs s : list Buffer := option_list (next s) ++ helems (data s).

(** Offsets that a read can still deliver. *)
Definition pending s (x : Z) : Prop :=
  (1 <= cnt x (bufs s))%nat ∧ (is_ordered (state s) = true → bytes_read s <= x).

Record inv (f : Z → Z) s : Prop := {
  i_bufs : Forall (buf_ok f (end_ s)) (bufs s);
  i_buffered : buffered s = sum_len (bufs s);
  i_allocated : allocated s = sum_alloc (bufs s);
  i_allocated_max : allocated s <= u64_max;
  i_read : 0 <= bytes_read s <= end_ s;
  i_end : end_ s <= max_stream;
  i_next : ∀ b, next s = Some b →
    state s = Ordered ∧ helems (data s) = [] ∧ b_offset b = bytes_read s;
  i_unordered : ∀ recvd, state s = Unordered recvd →
    wf recvd ∧ Forall (fun r => rend r <= end_ s) recvd ∧
    (∀ x, (cnt x (bufs s) <= 1)%nat) ∧
    (∀ x, (1 <= cnt x (bufs s))%nat → rs_in x recvd) ∧
    bytes_read s + sum_len (bufs s) <= rs_size recvd
}.

End Spec.

(** * Streams *)

Lemma len_slice f o n : 0 <= n → len (slice f o n) = n.
Proof. intros. unfold slice, len. rewrite length_fmap, length_seqZ. lia. Qed.

Lemma slice_app f o n m :
  0 <= n → 0 <= m → slice f o (n + m) = slice f o n ++ slice f (o + n) m.
Proof. intros. unfold slice. by rewrite seqZ_app, fmap_app by lia. Qed.

Lemma takeZ_slice f o n k : 0 <= k <= n → takeZ k (slice f o n) = slice f o k.
Proof.
  intros. replace n with (k + (n - k)) by lia. rewrite slice_app by lia.
  unfold takeZ. apply take_app_length'. pose proof (len_slice f o k). unfold len in *. lia.
Qed.

Lemma dropZ_slice f o n k : 0 <= k <= n → dropZ k (slice f o n) = slice f (o + k) (n - k).
Proof.
  intros. replace n with (k + (n - k)) at 1 by lia. rewrite slice_app by lia.
  unfold dropZ. apply drop_app_length'. pose proof (len_slice f o k). unfold len in *. lia.
Qed.

(** * Counting *)

Lemma cnt_nil x : cnt x [] = 0%nat.
Proof. done. Qed.

Lemma cnt_cons x b l : cnt x (b :: l) = ((if decide (covers x b) then 1 else 0) + cnt x l)%nat.
Proof. unfold cnt. rewrite filter_cons. by case_decide. Qed.

Lemma cnt_app x l k : cnt x (l ++ k) = (cnt x l + cnt x k)%nat.
Proof. unfold cnt. by rewrite filter_app, length_app. Qed.

#[global] Instance cnt_Proper x : Proper ((≡ₚ) ==> (=)) (cnt x).
Proof. intros l k Hlk. unfold cnt. by rewrite Hlk. Qed.

#[global] Instance sum_len_Proper : Proper ((≡ₚ) ==> (=)) sum_len.
Proof. intros l k Hlk. induction Hlk; simpl; lia. Qed.

#[global] Instance sum_alloc_Proper : Proper ((≡ₚ) ==> (=)) sum_alloc.
Proof. intros l k Hlk. induction Hlk; simpl; lia. Qed.

Lemma sum_len_app l k : sum_len (l ++ k) = sum_len l + sum_len k.
Proof. induction l; simpl; lia. Qed.

Lemma sum_len_nonneg l : 0 <= sum_len l.
Proof. induction l as [|b l IH]; simpl; [lia|]. pose proof (len_nonneg (b_bytes b)). lia. Qed.

Lemma sum_len_alloc f e l : Forall (buf_ok f e) l → sum_len l <= sum_alloc l.
Proof. induction 1 as [|b l Hb _ IH]; simpl; [lia|]. destruct Hb. lia. Qed.

Lemma cnt_exists x l : (1 <= cnt x l)%nat ↔ ∃ b, b ∈ l ∧ covers x b.
Proof.
  unfold cnt. split.
  - intros Hx. destruct (filter (covers x) l) as [|c k] eqn:Hf; [simpl in Hx; lia|].
    assert (Hc : c ∈ filter (covers x) l) by (rewrite Hf; left).
    apply list_elem_of_filter in Hc as [? ?]. eauto.
  - intros (b & Hb & Hx). destruct (filter (covers x) l) as [|c k] eqn:Hf; [|simpl; lia].
    exfalso. apply (not_elem_of_nil b). rewrite <- Hf. by apply list_elem_of_filter.
Qed.

Lemma cnt_bounds f e x l : Forall (buf_ok f e) l → (1 <= cnt x l)%nat → 0 <= x < e.
Proof.
  intros Hl (b & Hb & Hx)%cnt_exists. rewrite Forall_forall in Hl. destruct (Hl b Hb).
  unfold covers in Hx. lia.
Qed.

(** A chunk without its first [k] bytes, and the chunk cut off. *)
Lemma buf_ok_drop f e b k al d :
  buf_ok f e b → 0 <= k < len (b_bytes b) → len (b_bytes b) - k <= al →
  buf_ok f e (mkBuffer (b_offset b + k) (dropZ k (b_bytes b)) al d).
Proof.
  intros [Ha Hn Ho He Hal] Hk Hal'. unfold agree in Ha.
  split; simpl; rewrite ?len_dropZ by lia; try lia.
  unfold agree; simpl. rewrite len_dropZ by lia. rewrite Ha at 1. apply dropZ_slice. lia.
Qed.

Lemma covers_drop x b k al d :
  0 <= k <= len (b_bytes b) →
  covers x (mkBuffer (b_offset b + k) (dropZ k (b_bytes b)) al d) ↔ covers x b ∧ b_offset b + k <= x.
Proof. intros. unfold covers. simpl. rewrite len_dropZ by lia. lia. Qed.

(** * [defragment] *)

(** A chunk after [try_mark_defragment]. *)
Record mark_ok (f : Z → Z) (e : Z) (b : Buffer) : Prop := {
  mo_agree : agree f b;
  mo_offset : 0 <= b_offset b;
  mo_end : b_offset b + len (b_bytes b) <= e;
  mo_nonempty : defragmented b = false → 0 < len (b_bytes b);
  mo_alloc : defragmented b = true → allocation_size b = len (b_bytes b)
}.

Lemma try_mark_ok f e b R :
  buf_ok f e b → 0 <= R <= e → e <= max_stream →
  ∃ b', try_mark_defragment b R = Ret b' ∧ mark_ok f e b' ∧
    R <= b_offset b' ∧
    b_offset b' + len (b_bytes b') = Z.max R (b_offset b + len (b_bytes b)) ∧
    (∀ x, covers x b' ↔ covers x b ∧ R <= x).
Proof.
  intros Hb HR He. pose proof Hb as [Ha Hn Ho Hbe Hal]. unfold try_mark_defragment, sat_sub.
  set (dup := if b_offset b <=? R then R - b_offset b else 0).
  assert (Hdup : b_offset b + dup = Z.max (b_offset b) R ∧ 0 <= dup)
    by (unfold dup; zcases; lia).
  destruct (Z.leb_spec (len (b_bytes b)) dup).
  - eexists. split; [done|].
    split; [split; simpl; try done; try lia; change (len []) with 0; lia|].
    unfold covers; simpl. change (len []) with 0. repeat split; lia.
  - rewrite advance_ok by lia. cbn [mbind M_bind].
    assert (Hm : ∃ d, (if defragmented b then Ret true else
       umul (len (dropZ dup (b_bytes b))) 6 ≫= (fun m => Ret (allocation_size b <=? m / 5))) = Ret d).
    { destruct (defragmented b); [by eexists|].
      rewrite umul_ok by (rewrite len_dropZ by lia; unfold max_stream, u64_max in *; lia).
      by eexists. }
    destruct Hm as [d ->]. cbn [mbind M_bind mret M_ret].
    eexists. split; [done|].
    destruct (buf_ok_drop f e b dup (if d then len (dropZ dup (b_bytes b)) else allocation_size b) d Hb)
      as [Ha' Hn' Ho' He' _]; [lia| |].
    { destruct d; rewrite ?len_dropZ; lia. }
    simpl in *. rewrite <- (proj1 Hdup). split; [split; simpl; try done; try lia|].
    { by intros ->. }
    split; [lia|]. split; [rewrite len_dropZ by lia; lia|].
    intros x. unfold covers in *. simpl. rewrite len_dropZ by lia. lia.
Qed.

Lemma mark_loop_ok f e l R sz fr :
  Forall (buf_ok f e) l → StronglySorted (fun a b => b_offset a <= b_offset b) l →
  0 <= fr <= sz → sz <= R → R <= e → e <= max_stream →
  ∃ l' fr', mark_loop l R sz fr = Ret (l', sz + sum_len l', fr') ∧
    Forall (mark_ok f e) l' ∧ R + sum_len l' <= e ∧
    (∀ x, cnt x l' = if decide (R <= x ∧ (1 <= cnt x l)%nat) then 1%nat else 0%nat).
Proof.
  intros Hl. revert R sz fr. induction Hl as [|b l Hb Hl IH]; intros R sz fr Hs Hfr Hsz HR He.
  { exists [], fr. simpl. rewrite Z.add_0_r. split; [done|]. split; [constructor|].
    split; [lia|]. intros x. rewrite cnt_nil. case_decide; [lia|done]. }
  apply StronglySorted_inv in Hs as [Hs Hbl].
  destruct (try_mark_ok f e b R Hb) as (b' & Hop & Hb' & HRb & Hend & Hcov); [lia|done|].
  pose proof (mo_end _ _ _ Hb') as Hbe'. pose proof (len_nonneg (b_bytes b')).
  simpl. rewrite Hop. cbn [mbind M_bind].
  rewrite !uadd_ok by (unfold max_stream, u64_max in *; lia). cbn [mbind M_bind].
  set (fr1 := if defragmented b' then fr else fr + len (b_bytes b')).
  assert (Hfr1 : (if defragmented b' then Ret fr else Ret (fr + len (b_bytes b'))) = Ret fr1)
    by (unfold fr1; by destruct (defragmented b')).
  rewrite Hfr1. cbn [mbind M_bind].
  destruct (IH (b_offset b' + len (b_bytes b')) (sz + len (b_bytes b')) fr1)
    as (l' & fr' & -> & Hl' & Hsum & Hc); try lia; try done.
  { unfold fr1. destruct (defragmented b'); lia. }
  cbn [mbind M_bind mret M_ret]. exists (b' :: l'), fr'.
  split; [do 3 f_equal; simpl; lia|]. split; [by constructor|]. split; [simpl; lia|].
  intros x. rewrite !cnt_cons, Hc, Hend. specialize (Hcov x).
  assert (Hlow : (1 <= cnt x l)%nat → b_offset b <= x).
  { intros (c & Hcl & Hcx)%cnt_exists. rewrite Forall_forall in Hbl.
    specialize (Hbl c Hcl). unfold covers in Hcx. lia. }
  unfold covers in *. repeat case_decide; try lia; intuition lia.
Qed.

(** * Sums and counts *)

(** The number of buffered bytes, offset by offset. *)
Fixpoint cnt_upto (n : nat) (l : list Buffer) : Z :=
  match n with O => 0 | S n => cnt_upto n l + Z.of_nat (cnt (Z.of_nat n) l) end.

Lemma cnt_upto_cons n b l :
  0 <= b_offset b →
  cnt_upto n (b :: l) =
  Z.max 0 (Z.min (Z.of_nat n) (b_offset b + len (b_bytes b)) - b_offset b) + cnt_upto n l.
Proof.
  intros Ho. induction n as [|n IH]; cbn [cnt_upto]; [lia|].
  rewrite IH, cnt_cons. unfold covers. pose proof (len_nonneg (b_bytes b)). case_decide; lia.
Qed.

Lemma sum_len_cnt f e l : Forall (buf_ok f e) l → sum_len l = cnt_upto (Z.to_nat e) l.
Proof.
  induction 1 as [|b l Hb _ IH].
  - generalize (Z.to_nat e). intros n. simpl. induction n; simpl; [done|]. rewrite cnt_nil. lia.
  - destruct Hb. rewrite cnt_upto_cons by lia. simpl. lia.
Qed.

(** Chunks that hold every offset at most as often hold at most as many bytes. *)
Lemma sum_len_mono f e l k :
  Forall (buf_ok f e) l → Forall (buf_ok f e) k → (∀ x, (cnt x l <= cnt x k)%nat) →
  sum_len l <= sum_len k.
Proof.
  intros Hl Hk Hc. rewrite (sum_len_cnt f e l), (sum_len_cnt f e k) by done.
  generalize (Z.to_nat e). intros n. induction n as [|n IH]; cbn [cnt_upto]; [done|].
  specialize (Hc (Z.of_nat n)). lia.
Qed.

Definition good (f : Z → Z) (e : Z) (b : Buffer) : Prop :=
  buf_ok f e b ∧ allocation_size b = len (b_bytes b).

Lemma good_sum f e l : Forall (good f e) l → sum_alloc l = sum_len l.
Proof. induction 1 as [|b l [_ Hb] _ IH]; simpl; lia. Qed.

Lemma cnt_empty x o al d : cnt x [mkBuffer o [] al d] = 0%nat.
Proof. rewrite cnt_cons, cnt_nil. unfold covers. simpl. change (len []) with 0. case_decide; lia. Qed.

Section Proofs.
Context {H : Type} `{Heap H}.
Implicit Types (s : Assembler H) (l : list Buffer) (h : H).

(** Pushing the accumulated run, if there is one. *)
Lemma push_run_ok f e h o buffer :
  Forall (good f e) (helems h) → buffer = slice f o (len buffer) → 0 <= o → o + len buffer <= e →
  let h' := match buffer with [] => h | _ => hpush (Buffer_new_defragmented o buffer) h end in
  Forall (good f e) (helems h') ∧
  (∀ x, cnt x (helems h') = (cnt x (helems h) + cnt x [Buffer_new_defragmented o buffer])%nat) ∧
  sum_len (helems h') = sum_len (helems h) + len buffer.
Proof.
  intros Hh Ha Ho He. destruct buffer as [|z buffer]; simpl.
  - split; [done|]. split; [|change (len []) with 0; rewrite Z.add_0_r; done].
    intros x. unfold Buffer_new_defragmented. rewrite cnt_empty. lia.
  - split; [|split].
    + rewrite helems_push. constructor; [|done]. split; [|done].
      split; simpl; try done; rewrite len_cons in *; pose proof (len_nonneg buffer); lia.
    + intros x. rewrite helems_push, !cnt_cons, cnt_nil. lia.
    + rewrite helems_push. simpl. lia.
Qed.

Lemma rebuild_loop_ok f e l h buffer o :
  Forall (mark_ok f e) l → e <= max_stream →
  Forall (good f e) (helems h) → buffer = slice f o (len buffer) → 0 <= o → o + len buffer <= e →
  ∃ h' buffer' o', rebuild_loop l h buffer o = Ret (h', buffer', o') ∧
    Forall (good f e) (helems h') ∧ buffer' = slice f o' (len buffer') ∧
    0 <= o' ∧ o' + len buffer' <= e ∧
    (∀ x, (cnt x (helems h') + cnt x [Buffer_new_defragmented o' buffer'] =
           cnt x (helems h) + cnt x [Buffer_new_defragmented o buffer] + cnt x l)%nat) ∧
    sum_len (helems h') + len buffer' = sum_len (helems h) + len buffer + sum_len l.
Proof.
  intros Hl Hmax. revert h buffer o.
  induction Hl as [|b l Hb Hl IH]; intros h buffer o Hh Ha Ho He; simpl.
  { exists h, buffer, o. rewrite Z.add_0_r. repeat split; done || (intros x; rewrite cnt_nil; lia). }
  pose proof Hb as [Hba Hbo Hbe Hbn Hbal].
  destruct (defragmented b) eqn:Hd.
  - set (h1 := match b_bytes b with [] => h | _ => hpush b h end).
    assert (Hh1 : Forall (good f e) (helems h1) ∧
      (∀ x, cnt x (helems h1) = (cnt x (helems h) + cnt x [b])%nat) ∧
      sum_len (helems h1) = sum_len (helems h) + len (b_bytes b)).
    { unfold h1. destruct b as [bo [|z bs] al d]; simpl in *.
      - split; [done|]. split; [intros x; rewrite cnt_empty; lia|change (len []) with 0; lia].
      - rewrite helems_push. split; [constructor; [|done]; split; [|by apply Hbal]|].
        { split; simpl; try done; rewrite ?Hbal by done; rewrite len_cons in *;
            pose proof (len_nonneg bs); lia. }
        split; [|simpl; lia]. intros x. rewrite helems_push, !cnt_cons, cnt_nil. lia. }
    destruct Hh1 as (Hh1 & Hc1 & Hs1).
    destruct (IH h1 buffer o) as (h' & buffer' & o' & -> & ? & ? & ? & ? & Hc & Hs); try done.
    exists h', buffer', o'. repeat split; try done; [|lia].
    intros x. rewrite Hc, Hc1, !cnt_cons, cnt_nil. lia.
  - rewrite uadd_ok by (unfold max_stream, u64_max in *; lia). cbn [mbind M_bind].
    destruct (Z.eqb_spec (b_offset b) (o + len buffer)) as [Heq|Hne].
    + destruct (IH h (buffer ++ b_bytes b) o) as (h' & buffer' & o' & -> & ? & ? & ? & ? & Hc & Hs);
        try done.
      { rewrite len_app, slice_app, <- Ha, <- Heq by apply len_nonneg. f_equal. exact Hba. }
      { rewrite len_app. lia. }
      exists h', buffer', o'. rewrite len_app in Hs. repeat split; try done; [|lia].
      intros x. rewrite Hc, !cnt_cons, cnt_nil. unfold covers. simpl.
      pose proof (len_app buffer (b_bytes b)). pose proof (len_nonneg buffer). pose proof (len_nonneg (b_bytes b)).
      repeat case_decide; lia.
    + destruct (push_run_ok f e h o buffer Hh Ha Ho He) as (Hh1 & Hc1 & Hs1).
      destruct (IH _ (b_bytes b) (b_offset b) Hh1) as (h' & buffer' & o' & -> & ? & ? & ? & ? & Hc & Hs);
        try done.
      exists h', buffer', o'. repeat split; try done; [|lia].
      intros x. rewrite Hc, Hc1, !cnt_cons, cnt_nil. unfold covers. simpl.
      repeat case_decide; lia.
Qed.

(** The facts that hold at every point of an operation. *)
Record core (f : Z → Z) s : Prop := {
  co_bufs : Forall (buf_ok f (end_ s)) (bufs s);
  co_buffered : buffered s = sum_len (bufs s);
  co_allocated : allocated s = sum_alloc (bufs s);
  co_allocated_max : allocated s <= u64_max;
  co_read : 0 <= bytes_read s <= end_ s;
  co_end : end_ s <= max_stream
}.

Lemma inv_core f s : inv f s → core f s.
Proof. by intros []. Qed.

Lemma flush_ok f s :
  core f s → core f (flush s) ∧ next (flush s) = None ∧ state (flush s) = state s ∧
    bytes_read (flush s) = bytes_read s ∧ end_ (flush s) = end_ s ∧
    buffered (flush s) = buffered s ∧ allocated (flush s) = allocated s ∧
    bufs (flush s) ≡ₚ bufs s.
Proof.
  intros Hc. unfold flush. destruct (next s) as [b|] eqn:Hn; [|done].
  assert (Hp : bufs (mkAssembler (state s) None (hpush b (data s)) (buffered s) (allocated s)
    (bytes_read s) (end_ s)) ≡ₚ bufs s) by (unfold bufs; rewrite Hn; simpl; apply helems_push).
  split; [|done]. destruct Hc. split; rewrite ?Hp; done.
Qed.

Lemma sorted_offsets h : StronglySorted (fun a b => b_offset a <= b_offset b) (rev (hsorted h)).
Proof.
  apply StronglySorted_rev. pose proof (hsorted_sorted h) as Hs.
  induction Hs as [|x l Hl IH Hx]; constructor; [done|].
  eapply Forall_impl; [exact Hx|]. intros y Hy%Buffer_cmp_le. unfold flip. lia.
Qed.

(** [defragment] keeps every buffered offset exactly once, and leaves no
    over-allocation. *)
Lemma defragment_ok f s :
  core f s →
  ∃ s', defragment s = Ret s' ∧ core f s' ∧ next s' = None ∧ state s' = state s ∧
    bytes_read s' = bytes_read s ∧ end_ s' = end_ s ∧ allocated s' = buffered s' ∧
    (∀ x, cnt x (bufs s') = Nat.min 1 (cnt x (bufs s))).
Proof.
  intros Hc0. destruct (flush_ok f s Hc0) as (Hc & Hn & Hst & Hbr & Hen & _ & _ & Hp).
  unfold defragment. set (t := flush s) in *. clearbody t.
  assert (Hbufs : bufs t = helems (data t)) by (unfold bufs; by rewrite Hn).
  assert (Hperm : rev (hsorted (data t)) ≡ₚ bufs t)
    by (rewrite Hbufs, <- (hsorted_perm (data t)); symmetry; apply Permutation_rev).
  destruct Hc as [Hb _ _ _ Hr He].
  destruct (mark_loop_ok f (end_ t) (rev (hsorted (data t))) 0 0 0) as (l & fr & -> & Hl & Hle & Hcl);
    try lia; [by rewrite Hperm|apply sorted_offsets|].
  cbn [mbind M_bind]. rewrite Z.add_0_l.
  destruct (rebuild_loop_ok f (end_ t) l hempty [] 0)
    as (h & buffer & o & -> & Hh & Ha & Ho & Hoe & Hch & Hsh); auto; try lia.
  { rewrite helems_empty. constructor. }
  { change (len []) with 0. lia. }
  cbn [mbind M_bind mret M_ret]. eexists. split; [done|].
  destruct (push_run_ok f (end_ t) h o buffer Hh Ha Ho Hoe) as (Hh' & Hc' & Hs').
  set (h' := match buffer with [] => h | _ => _ end) in *. clearbody h'.
  set (s' := mkAssembler _ _ _ _ _ _ _).
  assert (Hbs' : bufs s' = helems h') by (unfold bufs, s'; simpl; by rewrite Hn).
  assert (Hsum : sum_len (bufs s') = sum_len l).
  { rewrite Hbs', Hs', Hsh, helems_empty. simpl. change (len []) with 0. lia. }
  assert (Hcnt : ∀ x, cnt x (bufs s') = cnt x l).
  { intros x. rewrite Hbs', Hc', Hch, helems_empty, cnt_nil. unfold Buffer_new_defragmented.
    rewrite cnt_empty. lia. }
  split; [split; simpl; rewrite ?Hsum, ?Hbs'; auto; try lia|].
  - eapply Forall_impl; [exact Hh'|]. by intros ? [].
  - rewrite (good_sum f (end_ t)) by done. by rewrite <- Hbs', Hsum.
  - unfold max_stream, u64_max in *. lia.
  - split; [done|]. simpl. repeat (split; [done|]). intros x. rewrite Hcnt, Hcl.
    pose proof (cnt_Proper x _ _ Hperm) as Hx. pose proof (cnt_Proper x _ _ Hp) as Hpx.
    case_decide as Hd; [destruct (cnt x (bufs s)); lia|].
    destruct (cnt x (bufs s)) eqn:E; [done|]. exfalso. apply Hd. split; [|lia].
    assert (Hin : (1 <= cnt x (bufs t))%nat) by lia.
    eapply cnt_bounds in Hin; [|exact Hb]. lia.
Qed.

(** * [insert] *)

Definition next_ok s : Prop :=
  ∀ b, next s = Some b → state s = Ordered ∧ helems (data s) = [] ∧ b_offset b = bytes_read s.

(** Adding one chunk to the heap keeps the facts. *)
Lemma core_push f s b bf al d :
  core f s → buf_ok f (end_ s) b → allocated s + allocation_size b <= u64_max →
  bf = buffered s + len (b_bytes b) → al = allocated s + allocation_size b →
  option_list d ++ helems (data s) ≡ₚ bufs s →
  core f (mkAssembler (state s) d (hpush b (data s)) bf al (bytes_read s) (end_ s)) ∧
  bufs (mkAssembler (state s) d (hpush b (data s)) bf al (bytes_read s) (end_ s)) ≡ₚ b :: bufs s.
Proof.
  intros [] Hb Hmax -> -> Hd.
  assert (Hp : bufs (mkAssembler (state s) d (hpush b (data s)) (buffered s + len (b_bytes b))
    (allocated s + allocation_size b) (bytes_read s) (end_ s)) ≡ₚ b :: bufs s).
  { unfold bufs at 1. simpl. rewrite helems_push, <- Hd. by rewrite Permutation_middle. }
  split; [|done]. split; simpl; rewrite ?Hp; try done; simpl; try lia. by constructor.
Qed.

Lemma core_slot f s b bf al :
  core f s → buf_ok f (end_ s) b → allocated s + allocation_size b <= u64_max →
  bf = buffered s + len (b_bytes b) → al = allocated s + allocation_size b → next s = None →
  core f (mkAssembler (state s) (Some b) (data s) bf al (bytes_read s) (end_ s)) ∧
  bufs (mkAssembler (state s) (Some b) (data s) bf al (bytes_read s) (end_ s)) = b :: bufs s.
Proof.
  intros [] Hb Hmax -> -> Hn.
  assert (Hp : bufs (mkAssembler (state s) (Some b) (data s) (buffered s + len (b_bytes b))
    (allocated s + allocation_size b) (bytes_read s) (end_ s)) = b :: bufs s).
  { unfold bufs. by rewrite Hn. }
  split; [|done]. split; rewrite ?Hp; cbn [sum_len sum_alloc fold_right]; try done; simpl;
    unfold sum_len, sum_alloc in *; try lia. by constructor.
Qed.

(** What adding the bytes [o .. o + n) to the buffered ones means. *)
Definition adds s s' (o n : Z) : Prop :=
  state s' = state s ∧ bytes_read s' = bytes_read s ∧ end_ s' = end_ s ∧
  (∀ x, (1 <= cnt x (bufs s'))%nat ↔ (1 <= cnt x (bufs s))%nat ∨ o <= x < o + n) ∧
  (∀ x, (cnt x (bufs s') <= cnt x (bufs s) + if decide (o <= x < o + n)%Z then 1 else 0)%nat).

Lemma insert_tail_ok f s o bytes alloc :
  core f s → next_ok s → bytes = slice f o (len bytes) → 0 <= o → o + len bytes <= end_ s →
  len bytes <= alloc → allocated s + alloc * len bytes <= u64_max →
  ∃ s', insert_tail s o bytes alloc = Ret s' ∧ core f s' ∧ next_ok s' ∧ adds s s' o (len bytes).
Proof.
  intros Hc Hn Hf Ho He Hal Hmax. pose proof (len_nonneg bytes) as Hlen.
  unfold insert_tail. destruct bytes as [|z bs].
  { exists s. split; [done|]. split; [done|]. split; [done|]. change (len []) with 0.
    split; [done|]. split; [done|]. split; [done|]. split; intros x; [|case_decide]; lia. }
  assert (Hpos : 0 < len (z :: bs)) by (rewrite len_cons; pose proof (len_nonneg bs); lia).
  set (bytes := z :: bs) in *. clearbody bytes.
  assert (Hb : buf_ok f (end_ s) (Buffer_new o bytes alloc)) by (split; done || simpl; lia).
  assert (Hmax' : allocated s + alloc <= u64_max) by nia.
  pose proof Hc as [_ Hbf Hala Hamx Hr Hend].
  pose proof (sum_len_nonneg (bufs s)) as Hs0. pose proof (sum_len_alloc _ _ _ (co_bufs _ _ Hc)) as Hsa.
  rewrite !uadd_ok by (unfold u64_max in *; lia).
  cbn [mbind M_bind]. cbn [state next data bytes_read end_].
  match goal with |- context [if ?c then mret _ else _] => destruct c eqn:Hfast end.
  - apply andb_prop in Hfast as [[[Hor Hnn]%andb_prop Hhe]%andb_prop Hob%Z.eqb_eq].
    destruct (next s) eqn:Hns; [done|]. destruct (helems (data s)) eqn:Hhs; [|done].
    destruct (core_slot f s (Buffer_new o bytes alloc) _ _ Hc Hb Hmax' eq_refl eq_refl Hns) as [Hc' Hp].
    eexists. split; [done|]. split; [exact Hc'|]. split.
    { intros b [= <-]. simpl. split; [by destruct (state s)|]. by split. }
    split; [done|]. split; [done|]. split; [done|]. simpl in Hp |- *. rewrite Hp.
    split; intros x; rewrite cnt_cons; unfold covers; simpl; repeat case_decide; lia.
  - match goal with |- context [flush ?t] => set (s1 := t) end.
    assert (Hfl : flush s1 = mkAssembler (state s) None (data (flush s)) (buffered s + len bytes)
      (allocated s + alloc) (bytes_read s) (end_ s)).
    { unfold flush, s1. cbn [next state data buffered allocated bytes_read end_].
      by destruct (next s) eqn:Hns; simpl; rewrite ?Hns. }
    rewrite Hfl. clear Hfl. cbn [state next data buffered allocated bytes_read end_].
    destruct (flush_ok f s Hc) as (Hc1 & Hn1 & Hst1 & Hbr1 & Hen1 & Hbf1 & Hal1 & Hp1).
    set (s2 := mkAssembler _ _ _ _ _ _ _).
    destruct (core_push f (flush s) (Buffer_new o bytes alloc) (buffered s + len bytes)
      (allocated s + alloc) None Hc1) as [Hc2 Hp2]; try (simpl; congruence).
    { unfold bufs. rewrite Hn1. done. }
    rewrite Hst1, Hbr1, Hen1 in Hc2, Hp2. fold s2 in Hc2, Hp2. rewrite Hp1 in Hp2.
    assert (Hadd : adds s s2 o (len bytes)).
    { split; [done|]. split; [done|]. split; [done|]. simpl in Hp2 |- *.
      split; intros x; rewrite Hp2, cnt_cons; unfold covers; simpl; repeat case_decide; lia. }
    rewrite usub_ok by lia. cbn [mbind M_bind].
    rewrite usub_ok by (unfold u64_max in *; lia). cbn [mbind M_bind].
    rewrite umul_ok by (unfold max_stream, u64_max in *; lia). cbn [mbind M_bind].
    destruct (_ <? _).
    + destruct (defragment_ok f s2 Hc2) as (s3 & -> & Hc3 & Hn3 & Hst3 & Hbr3 & Hen3 & _ & Hcnt).
      exists s3. split; [done|]. split; [done|]. split; [intros b; by rewrite Hn3|].
      destruct Hadd as (Ha1 & Ha2 & Ha3 & Ha4 & Ha5).
      split; [congruence|]. split; [congruence|]. split; [congruence|].
      split; intros x; rewrite Hcnt; specialize (Ha4 x); specialize (Ha5 x); lia.
    + exists s2. split; [done|]. split; [done|]. split; [by intros b|done].
Qed.

(** The first half of an iteration of [dup_loop]: the bytes before the duplicate. *)
Lemma dup_front_ok f s o a bytes alloc :
  core f s → next s = None → bytes = slice f o (len bytes) → 0 <= o <= a →
  o + len bytes <= end_ s → a < o + len bytes →
  len bytes <= alloc → allocated s + alloc * len bytes <= u64_max →
  ∃ s1, (if o <? a then
      m ← usub a o; '(front, bytes) ← split_to m bytes;
      bf ← uadd (buffered s) (len front); al ← uadd (allocated s) alloc;
      Ret (mkAssembler (state s) (next s) (hpush (Buffer_new o front alloc) (data s))
        bf al (bytes_read s) (end_ s), a, bytes) else Ret (s, o, bytes))
      = Ret (s1, a, dropZ (a - o) bytes) ∧ core f s1 ∧ next s1 = None ∧ state s1 = state s ∧
        bytes_read s1 = bytes_read s ∧ end_ s1 = end_ s ∧
        allocated s1 + alloc * (len bytes - (a - o)) <= allocated s + alloc * len bytes ∧
        sum_len (bufs s1) = sum_len (bufs s) + (a - o) ∧
        ∀ x, cnt x (bufs s1) = (cnt x (bufs s) + if decide (o <= x < a)%Z then 1 else 0)%nat.
Proof.
  intros Hc Hn Hf Hoa He Ha Hal Hmax. destruct (Z.ltb_spec o a).
  - rewrite usub_ok by lia. cbn [mbind M_bind]. rewrite split_to_ok by lia. cbn [mbind M_bind].
    assert (Hlt : len (takeZ (a - o) bytes) = a - o) by (rewrite len_takeZ by lia; lia).
    pose proof (sum_len_alloc _ _ _ (co_bufs _ _ Hc)) as Hsa.
    pose proof (co_buffered _ _ Hc). pose proof (co_allocated _ _ Hc).
    pose proof (sum_len_nonneg (bufs s)).
    assert (allocated s + alloc <= u64_max) by nia.
    rewrite !uadd_ok by (rewrite ?Hlt; lia). cbn [mbind M_bind].
    destruct (core_push f s (Buffer_new o (takeZ (a - o) bytes) alloc)
      (buffered s + len (takeZ (a - o) bytes)) (allocated s + alloc) (next s) Hc) as [Hc1 Hp1];
      try done.
    { split; simpl; rewrite ?Hlt; try lia. unfold agree. simpl. rewrite Hlt.
      rewrite Hf. apply takeZ_slice. lia. }
    eexists. split; [done|]. split; [exact Hc1|]. simpl.
    split; [done|]. split; [done|]. split; [done|]. split; [done|]. split; [nia|].
    split; [rewrite Hp1; simpl; lia|]. intros x. rewrite Hp1, cnt_cons. unfold covers. simpl.
    repeat case_decide; lia.
  - assert (a = o) as -> by lia. rewrite Z.sub_diag. exists s. rewrite dropZ_0.
    repeat (split; [done || nia|]). intros x. case_decide; lia.
Qed.

Lemma dup_loop_ok f dups s o bytes alloc :
  core f s → next s = None → wf_from o dups → Forall (fun r => rend r <= o + len bytes) dups →
  bytes = slice f o (len bytes) → 0 <= o → o + len bytes <= end_ s →
  len bytes <= alloc → allocated s + alloc * len bytes <= u64_max →
  ∃ s' o' bytes', dup_loop dups s o bytes alloc = Ret (s', o', bytes') ∧
    core f s' ∧ next s' = None ∧ state s' = state s ∧ bytes_read s' = bytes_read s ∧
    end_ s' = end_ s ∧ o <= o' ∧ o' + len bytes' = o + len bytes ∧
    bytes' = slice f o' (len bytes') ∧
    allocated s' + alloc * len bytes' <= u64_max ∧
    sum_len (bufs s') + len bytes' + rs_size dups = sum_len (bufs s) + len bytes ∧
    (∀ x, (cnt x (bufs s') + (if decide (o' <= x < o' + len bytes')%Z then 1 else 0) =
      cnt x (bufs s) + if decide (o <= x < o + len bytes ∧ ¬ rs_in x dups)%Z then 1 else 0)%nat).
Proof.
  revert s o bytes. induction dups as [|[a b] dups IH]; intros s o bytes Hc Hn Hw Hd Hf Ho He Hal Hmax.
  { exists s, o, bytes. simpl. repeat (split; [done || lia|]).
    intros x. pose proof (rs_in_nil x). repeat case_decide; tauto || lia. }
  destruct Hw as (Hoa & Hab & _ & Hw). apply Forall_cons in Hd as [Hb Hd]. simpl in Hoa, Hab, Hb, Hw.
  cbn [dup_loop rstart rend].
  destruct (dup_front_ok f s o a bytes alloc)
    as (s1 & -> & Hc1 & Hn1 & Hst1 & Hbr1 & Hen1 & Hal1 & Hsum1 & Hcnt1); try done; try lia.
  cbn [mbind M_bind]. rewrite usub_ok by lia. cbn [mbind M_bind].
  rewrite advance_ok by (rewrite len_dropZ by lia; lia). cbn [mbind M_bind].
  rewrite dropZ_dropZ by lia. replace (a - o + (b - a)) with (b - o) by lia.
  assert (Hlr : len (dropZ (b - o) bytes) = len bytes - (b - o)) by (rewrite len_dropZ by lia; lia).
  destruct (IH s1 b (dropZ (b - o) bytes)) as (s' & o' & bytes' & -> & Hc' & Hn' & Hst' & Hbr' & Hen' &
    Ho' & Hl' & Hf' & Hal' & Hsum' & Hcnt'); rewrite ?Hlr; try done; try lia.
  { eapply wf_from_mono; [|exact Hw]. lia. }
  { eapply Forall_impl; [exact Hd|]. simpl. lia. }
  { rewrite Hf at 1. rewrite dropZ_slice by lia. f_equal; lia. }
  { nia. }
  exists s', o', bytes'. split; [done|]. split; [done|]. split; [done|].
  split; [congruence|]. split; [congruence|]. split; [congruence|]. split; [lia|]. split; [lia|].
  split; [done|]. split; [done|].
  split; [unfold rs_size in *; simpl; lia|]. intros x. specialize (Hcnt1 x). specialize (Hcnt' x). rewrite Hlr in Hcnt'.
  assert (Hbd : rs_in x dups → b < x).
  { intros Hx. eapply rs_in_bounds in Hx; [|exact Hw]. lia. }
  pose proof (rs_in_cons x (mkRange a b) dups) as Hrc. simpl in Hrc.
  repeat case_decide; atomize (rs_in x dups); rewrite ?Hrc in *; lia.
Qed.

(** Moving the end of the stream forward. *)
Lemma buf_ok_mono f e e' b : e <= e' → buf_ok f e b → buf_ok f e' b.
Proof. intros ? []. split; try done. lia. Qed.

Lemma core_end f s st e :
  core f s → end_ s <= e <= max_stream →
  core f (mkAssembler st (next s) (data s) (buffered s) (allocated s) (bytes_read s) e).
Proof.
  intros [] He. split; simpl; try done; try lia.
  eapply Forall_impl; [exact co_bufs0|]. intros b. apply buf_ok_mono. lia.
Qed.

(** The offsets [insert] does not discard. *)
Definition fresh s (x : Z) : Prop :=
  match state s with Ordered => bytes_read s <= x | Unordered recvd => ¬ rs_in x recvd end.

Lemma insert_ordered_ok f s o bytes alloc :
  inv f s → state s = Ordered → bytes = slice f o (len bytes) → 0 <= o →
  o + len bytes <= max_stream → len bytes <= alloc → allocated s + alloc * len bytes <= u64_max →
  ∃ s', insert s o bytes alloc = Ret s' ∧ inv f s' ∧ state s' = Ordered ∧
    bytes_read s' = bytes_read s ∧ end_ s' = Z.max (end_ s) (o + len bytes) ∧
    (∀ x, pending s' x ↔ pending s x ∨ (o <= x < o + len bytes ∧ fresh s x)).
Proof.
  intros Hi Hst Hf Ho He Hal Hmax. pose proof (inv_core _ _ Hi) as Hc.
  pose proof (len_nonneg bytes) as Hlen.
  unfold insert, rassert. destruct (Z.leb_spec (len bytes) alloc); [|lia].
  cbn [mbind M_bind]. rewrite uadd_ok by (unfold max_stream, u64_max in *; lia). cbn [mbind M_bind].
  set (s0 := mkAssembler _ _ _ _ _ _ _).
  assert (Hc0 : core f s0).
  { apply core_end; [done|]. destruct Hi. lia. }
  assert (Hn0 : next_ok s0) by (intros b; apply (i_next _ _ Hi)).
  change (state s0) with (state s). rewrite Hst. change (bytes_read s0) with (bytes_read s).
  assert (Hfin : ∀ s' o', core f s' → next_ok s' → adds s0 s' o' (o + len bytes - o') →
    (∀ x, bytes_read s <= x → o <= x < o + len bytes ↔ o' <= x < o + len bytes) →
    inv f s' ∧ state s' = Ordered ∧ bytes_read s' = bytes_read s ∧
    end_ s' = Z.max (end_ s) (o + len bytes) ∧
    (∀ x, pending s' x ↔ pending s x ∨ (o <= x < o + len bytes ∧ fresh s x))).
  { intros s' o' [] Hn' (Ha1 & Ha2 & Ha3 & Ha4 & Ha5) Hx. cbn [state bytes_read end_ s0] in *.
    assert (Hst' : state s' = Ordered) by congruence.
    split; [split; try done; by rewrite Hst'|]. split; [done|]. split; [done|]. split; [done|].
    intros x. unfold pending, fresh. rewrite Ha4, Hst', Hst, Ha2. simpl. specialize (Hx x).
    replace (bufs s0) with (bufs s) by done. lia. }
  destruct (Z.ltb_spec o (bytes_read s)).
  - destruct (Z.leb_spec (o + len bytes) (bytes_read s)).
    + exists s0. split; [done|]. apply (Hfin s0 (o + len bytes)); [done|done| |lia].
      split; [done|]. split; [done|]. split; [done|]. split; intros x; [|case_decide]; lia.
    + rewrite usub_ok by lia. cbn [mbind M_bind]. rewrite advance_ok by lia. cbn [mbind M_bind].
      rewrite uadd_ok by (unfold max_stream, u64_max in *; lia). cbn [mbind M_bind].
      replace (o + (bytes_read s - o)) with (bytes_read s) by lia.
      set (k := bytes_read s - o) in *.
      assert (Hk : len (dropZ k bytes) = len bytes - k) by (rewrite len_dropZ by lia; lia).
      destruct (insert_tail_ok f s0 (bytes_read s) (dropZ k bytes) alloc)
        as (s' & -> & Hc' & Hn' & Ha'); rewrite ?Hk; try done; try (simpl; lia).
      { rewrite Hf at 1. rewrite dropZ_slice by lia. f_equal; lia. }
      { simpl. nia. }
      exists s'. split; [done|]. apply (Hfin s' (bytes_read s)); try done; [|lia].
      rewrite Hk in Ha'. by replace (o + len bytes - bytes_read s) with (len bytes - k) by lia.
  - destruct (insert_tail_ok f s0 o bytes alloc) as (s' & -> & Hc' & Hn' & Ha'); try done; [simpl; lia|].
    exists s'. split; [done|]. apply (Hfin s' o); try done.
    by replace (o + len bytes - o) with (len bytes) by lia.
Qed.

Lemma adds_sum_len f s s' o bytes alloc :
  core f s → core f s' → adds s s' o (len bytes) →
  bytes = slice f o (len bytes) → 0 <= o → o + len bytes <= end_ s → len bytes <= alloc →
  sum_len (bufs s') <= sum_len (bufs s) + len bytes.
Proof.
  intros [Hb _ _ _ _ _] [Hb' _ _ _ _ _] (_ & _ & He & _ & Ha) Hf Ho Hoe Hal. rewrite He in Hb'.
  destruct (decide (len bytes = 0)) as [Hz|Hz].
  - rewrite Hz, Z.add_0_r. apply (sum_len_mono f (end_ s)); try done.
    intros x. specialize (Ha x). case_decide; lia.
  - rewrite Z.add_comm. apply (sum_len_mono f (end_ s) _ (Buffer_new o bytes alloc :: bufs s)); [done| |].
    + constructor; [|done]. pose proof (len_nonneg bytes). split; done || simpl; lia.
    + intros x. specialize (Ha x). rewrite cnt_cons. unfold covers; simpl. repeat case_decide; lia.
Qed.

Lemma insert_unordered_ok f s recvd o bytes alloc :
  inv f s → state s = Unordered recvd → bytes = slice f o (len bytes) → 0 <= o →
  0 < len bytes → o + len bytes <= max_stream → len bytes <= alloc →
  allocated s + alloc * len bytes <= u64_max →
  ∃ s', insert s o bytes alloc = Ret s' ∧ inv f s' ∧
    state s' = Unordered (ins_ref recvd o (o + len bytes)) ∧
    bytes_read s' = bytes_read s ∧ end_ s' = Z.max (end_ s) (o + len bytes) ∧
    (∀ x, pending s' x ↔ pending s x ∨ (o <= x < o + len bytes ∧ fresh s x)).
Proof.
  intros Hi Hst Hf Ho Hpos He Hal Hmax. pose proof (inv_core _ _ Hi) as Hc.
  destruct (i_unordered _ _ Hi recvd Hst) as (Hw & Hre & Hone & Hsub & Hsz).
  assert (Hno : next s = None).
  { destruct (next s) eqn:Hn; [|done]. apply (i_next _ _ Hi) in Hn as [Hn _]. congruence. }
  pose proof (i_end _ _ Hi). pose proof (i_read _ _ Hi).
  unfold insert, rassert. destruct (Z.leb_spec (len bytes) alloc); [|lia].
  cbn [mbind M_bind]. rewrite uadd_ok by (unfold max_stream, u64_max in *; lia). cbn [mbind M_bind].
  cbn [state]. rewrite Hst. rewrite replace_for_ref by (try done; unfold max_stream, u64_max in *; lia).
  cbn [next data buffered allocated bytes_read end_].
  set (recvd' := ins_ref recvd o (o + len bytes)). set (e' := Z.max (end_ s) (o + len bytes)).
  set (s0 := mkAssembler _ _ _ _ _ _ _).
  assert (Hc0 : core f s0) by (apply core_end; [done|lia]).
  destruct (dup_loop_ok f (isect recvd o (o + len bytes)) s0 o bytes alloc) as
    (s1 & o1 & bytes1 & -> & Hc1 & Hn1 & Hst1 & Hbr1 & Hen1 & Ho1 & Hl1 & Hf1 & Hal1 & Hsum1 & Hcnt1);
    try done; [by eapply isect_wf| |simpl; lia|].
  { eapply Forall_impl; [eapply isect_range; exact Hw|]. simpl. lia. }
  cbn [mbind M_bind]. pose proof (len_nonneg bytes1).
  assert (Hoe1 : o1 + len bytes1 <= end_ s1) by (rewrite Hl1, Hen1; simpl; lia).
  destruct (insert_tail_ok f s1 o1 bytes1 alloc) as (s' & -> & Hc' & Hn' & Ha'); try done; try lia.
  { intros b. by rewrite Hn1. }
  exists s'. split; [done|].
  pose proof (adds_sum_len f s1 s' o1 bytes1 alloc Hc1 Hc' Ha' Hf1 ltac:(lia) Hoe1 ltac:(lia)) as Hsum'.
  destruct Ha' as (Hst' & Hbr' & Hen' & Hge & Hle).
  rewrite Hst1 in Hst'. rewrite Hbr1 in Hbr'. rewrite Hen1 in Hen'.
  cbn [state bytes_read end_ s0] in *. change (bufs s0) with (bufs s) in *.
  assert (Hin : ∀ x, rs_in x recvd' ↔ rs_in x recvd ∨ o <= x < o + len bytes)
    by (intros x; apply (ins_ref_in _ _ _ 0); [done|lia]).
  assert (Hcx : ∀ x, ((1 <= cnt x (bufs s'))%nat ↔
      (1 <= cnt x (bufs s))%nat ∨ (o <= x < o + len bytes ∧ ¬ rs_in x recvd)) ∧
      (cnt x (bufs s') <= 1)%nat).
  { intros x. specialize (Hge x). specialize (Hle x). specialize (Hcnt1 x). specialize (Hone x).
    specialize (Hsub x). pose proof (rs_in_isect recvd o (o + len bytes) x) as Hix.
    revert Hle Hcnt1. repeat case_decide; atomize (rs_in x recvd); rewrite ?Hix in *; lia. }
  split; [split; try apply Hc'; [exact Hn'|]|].
  - rewrite Hst'. intros ? [= <-]. split; [|split; [|split; [|split]]].
    + apply ins_ref_wf; [done|lia..|unfold max_stream, u64_max in *; lia].
    + rewrite Hen'. apply (ins_ref_hi _ _ _ 0); [|lia|lia|done].
      eapply Forall_impl; [exact Hre|]. simpl. lia.
    + intros x. apply Hcx.
    + intros x Hx%Hcx. apply Hin. destruct Hx as [Hx|Hx]; [left; by apply Hsub|tauto].
    + rewrite Hbr'. unfold recvd'. rewrite (rs_size_ins_ref _ _ _ 0) by (done || lia). lia.
  - split; [done|]. split; [done|]. split; [done|].
    intros x. unfold pending, fresh. rewrite Hst', Hst. simpl. destruct (Hcx x) as [-> _]. clear; intuition discriminate.
Qed.

(** * [read] *)

(** The state [s] with [chunk] taken off the top. *)
Record in_hand (f : Z → Z) s (chunk : Buffer) : Prop := {
  ih_bufs : Forall (buf_ok f (end_ s)) (bufs s);
  ih_chunk : buf_ok f (end_ s) chunk;
  ih_next : next s = None;
  ih_buffered : buffered s = len (b_bytes chunk) + sum_len (bufs s);
  ih_allocated : allocated s = allocation_size chunk + sum_alloc (bufs s);
  ih_allocated_max : allocated s <= u64_max;
  ih_read : 0 <= bytes_read s;
  ih_read_end : bytes_read s + len (b_bytes chunk) <= end_ s;
  ih_end : end_ s <= max_stream
}.

(** Putting the rest of the chunk back, into the slot or onto the heap. *)
Definition keeps (keep : Buffer → Assembler H → Assembler H) : Prop :=
  ∀ c s, next s = None → bufs (keep c s) ≡ₚ c :: bufs s ∧ state (keep c s) = state s ∧
    buffered (keep c s) = buffered s ∧ allocated (keep c s) = allocated s ∧
    bytes_read (keep c s) = bytes_read s ∧ end_ (keep c s) = end_ s.

Lemma take_from_ok f s chunk n keep :
  in_hand f s chunk → keeps keep → 0 <= n →
  ∃ c s' s1, take_from s chunk n keep = Ret (Some c, s') ∧ core f s' ∧
    let k := len (c_bytes c) in
    c_offset c = b_offset chunk ∧ c_bytes c = slice f (b_offset chunk) k ∧
    k = Z.min n (len (b_bytes chunk)) ∧
    state s' = state s ∧ bytes_read s' = bytes_read s + k ∧ end_ s' = end_ s ∧
    sum_len (bufs s') + k = sum_len (bufs s) + len (b_bytes chunk) ∧
    (∀ x, cnt x (bufs s') = (cnt x (bufs s) +
       if decide (covers x chunk ∧ b_offset chunk + k <= x)%Z then 1 else 0)%nat) ∧
    data s1 = data s ∧ next s1 = None ∧
    (s' = s1 ∨ ∃ c', s' = keep c' s1 ∧ b_offset c' = b_offset chunk + k).
Proof.
  intros [Hbs Hch Hn Hbf Hal Hmx Hr Hre He] Hk Hn0. pose proof Hch as [Ha Hpos Hoff Hend Hasz].
  pose proof (sum_len_nonneg (bufs s)). pose proof (sum_len_alloc _ _ _ Hbs).
  unfold take_from. destruct (Z.ltb_spec n (len (b_bytes chunk))) as [Hlt|Hge].
  - rewrite !uadd_ok by (unfold max_stream, u64_max in *; lia). cbn [mbind M_bind].
    rewrite usub_ok by lia. cbn [mbind M_bind]. rewrite split_to_ok by lia. cbn [mbind M_bind mret M_ret].
    set (c' := mkBuffer (b_offset chunk + n) _ _ _). set (s1 := mkAssembler _ _ _ _ _ _ _).
    destruct (Hk c' s1 Hn) as (Hp & Hst & Hb1 & Ha1 & Hr1 & He1).
    change (bufs s1) with (bufs s) in Hp. simpl in Hst, Hb1, Ha1, Hr1, He1.
    assert (Hlt' : len (takeZ n (b_bytes chunk)) = n) by (rewrite len_takeZ by lia; lia).
    eexists _, (keep c' s1), s1. split; [done|].
    assert (Hbc : buf_ok f (end_ s) c') by (apply buf_ok_drop; [done|lia|lia]).
    assert (Hld : len (b_bytes c') = len (b_bytes chunk) - n) by (simpl; rewrite len_dropZ by lia; lia).
    split.
    { split; rewrite ?Hp, ?He1, ?Hb1, ?Ha1, ?Hr1; cbn [sum_len sum_alloc fold_right];
        unfold sum_len, sum_alloc in *; rewrite ?Hld; try (simpl; lia). by constructor. }
    cbv zeta. simpl c_offset. simpl c_bytes. rewrite Hlt'. split; [done|].
    split; [rewrite Ha; apply takeZ_slice; lia|]. split; [lia|]. split; [done|]. split; [done|].
    split; [done|]. split; [rewrite Hp; cbn [sum_len fold_right]; unfold sum_len in *; lia|].
    split; [|split; [done|split; [done|right; by exists c']]].
    intros x. rewrite Hp, cnt_cons.
    pose proof (covers_drop x chunk n (allocation_size chunk) (defragmented chunk) ltac:(lia)) as Hcov.
    fold c' in Hcov. repeat case_decide; lia || tauto.
  - rewrite uadd_ok by (unfold max_stream, u64_max in *; lia). cbn [mbind M_bind].
    rewrite !usub_ok by lia. cbn [mbind M_bind mret M_ret].
    set (s1 := mkAssembler _ _ _ _ _ _ _). eexists _, s1, s1. split; [done|].
    change (bufs s1) with (bufs s). cbv zeta. simpl c_offset. simpl c_bytes.
    split; [split; change (bufs s1) with (bufs s); simpl; done || lia|].
    split; [done|]. split; [done|]. split; [lia|]. split; [done|]. split; [done|]. split; [done|].
    split; [lia|]. split; [|split; [done|split; [done|by left]]].
    intros x. case_decide as Hx; [unfold covers in Hx|]; lia.
Qed.

(** What an ordered read returns. *)
Definition ordered_read (f : Z → Z) s (n : Z) (r : option Chunk) s' : Prop :=
  match r with
  | None => bytes_read s' = bytes_read s ∧ ¬ pending s (bytes_read s)
  | Some c => let k := len (c_bytes c) in
      c_offset c = bytes_read s ∧ c_bytes c = slice f (bytes_read s) k ∧ k <= n ∧
      (0 < n → 0 < k) ∧ bytes_read s' = bytes_read s + k ∧
      (∀ x, bytes_read s <= x < bytes_read s + k → pending s x)
  end ∧ ∀ x, pending s' x ↔ pending s x ∧ bytes_read s' <= x.

Definition loop_keep (c : Buffer) s : Assembler H :=
  mkAssembler (state s) (next s) (hpush c (data s)) (buffered s) (allocated s) (bytes_read s) (end_ s).
Definition slot_keep (c : Buffer) s : Assembler H :=
  mkAssembler (state s) (Some c) (data s) (buffered s) (allocated s) (bytes_read s) (end_ s).

Lemma loop_keeps : keeps loop_keep.
Proof. intros c s Hn. unfold bufs, loop_keep. simpl. rewrite Hn, helems_push. done. Qed.
Lemma slot_keeps : keeps slot_keep.
Proof. intros c s Hn. unfold bufs, slot_keep. simpl. rewrite Hn. done. Qed.

(** An ordered read of the chunk that starts at the read position. *)
Lemma take_ordered f s0 s chunk n keep :
  in_hand f s0 chunk → keeps keep → 0 <= n → state s0 = Ordered → state s = Ordered →
  b_offset chunk = bytes_read s0 → bytes_read s = bytes_read s0 → end_ s0 = end_ s →
  (∀ x, bytes_read s <= x → cnt x (bufs s) = cnt x (chunk :: bufs s0)) →
  ∃ r s' s1, take_from s0 chunk n keep = Ret (r, s') ∧ core f s' ∧ state s' = Ordered ∧
    end_ s' = end_ s ∧ ordered_read f s n r s' ∧ data s1 = data s0 ∧ next s1 = None ∧
    (s' = s1 ∨ ∃ c', s' = keep c' s1 ∧ b_offset c' = bytes_read s').
Proof.
  intros Hh Hk Hn Hst0 Hst Ho Hbr He Hcnt.
  destruct (take_from_ok f s0 chunk n keep Hh Hk Hn) as
    (c & s' & s1 & -> & Hc' & Hco & Hcb & Hcl & Hst' & Hbr' & Hen' & _ & Hcx & Hd & Hn1 & Hs1).
  pose proof (bo_nonempty _ _ _ (ih_chunk _ _ _ Hh)). pose proof (len_nonneg (c_bytes c)).
  eexists _, s', s1. split; [done|]. split; [done|]. split; [congruence|]. split; [congruence|].
  split; [|split; [done|split; [done|]]].
  - split.
    + split; [congruence|]. split; [rewrite Hcb at 1; f_equal; congruence|]. split; [lia|].
      split; [lia|]. split; [lia|]. intros x Hx. unfold pending. specialize (Hcnt x ltac:(lia)).
      rewrite cnt_cons in Hcnt. unfold covers in Hcnt. revert Hcnt. case_decide; lia.
    + intros x. unfold pending. rewrite Hst', Hst0, Hst, Hcx. cbn [is_ordered].
      specialize (Hcnt x). rewrite cnt_cons in Hcnt. unfold covers in *.
      revert Hcnt. repeat case_decide; lia.
  - destruct Hs1 as [->|(c' & -> & Hc'o)]; [by left|right]. exists c'. split; [done|]. lia.
Qed.

Lemma ordered_read_weaken f s s0 n r s' :
  bytes_read s0 = bytes_read s → (∀ x, pending s0 x ↔ pending s x) →
  ordered_read f s0 n r s' → ordered_read f s n r s'.
Proof.
  intros Hb Hp [Hr Hx]. split.
  - destruct r; rewrite <- Hb; [|by rewrite <- Hp].
    destruct Hr as (? & ? & ? & ? & ? & Hr). do 5 (split; [done|]). intros x Hxr. by apply Hp, Hr.
  - intros x. by rewrite Hx, Hp.
Qed.

(** The top of the heap has the smallest offset. *)
Lemma pop_ok f s chunk h :
  core f s → next s = None → hpop (data s) = Some (chunk, h) →
  bufs s ≡ₚ chunk :: helems h ∧ buf_ok f (end_ s) chunk ∧ Forall (buf_ok f (end_ s)) (helems h) ∧
  length (helems (data s)) = S (length (helems h)) ∧
  (∀ x, (1 <= cnt x (bufs s))%nat → b_offset chunk <= x).
Proof.
  intros [Hb _ _ _ _ _] Hn [Hp Hle]%hpop_Some. unfold bufs in *. rewrite Hn in *. simpl in *.
  split; [done|]. rewrite Hp in Hb. apply Forall_cons in Hb as [Hb1 Hb2].
  split; [done|]. split; [done|]. split; [by rewrite Hp|].
  intros x (c & Hc & Hx)%cnt_exists. rewrite Forall_forall in Hle. specialize (Hle c Hc).
  apply Buffer_cmp_le in Hle. unfold covers in Hx. lia.
Qed.

Lemma in_hand_drop f s h chunk k :
  core f s → next s = None → bufs s ≡ₚ chunk :: helems h → buf_ok f (end_ s) chunk →
  Forall (buf_ok f (end_ s)) (helems h) → 0 <= k < len (b_bytes chunk) →
  bytes_read s + (len (b_bytes chunk) - k) <= end_ s →
  in_hand f (mkAssembler (state s) (next s) h (buffered s - k) (allocated s) (bytes_read s) (end_ s))
    (mkBuffer (b_offset chunk + k) (dropZ k (b_bytes chunk)) (allocation_size chunk) (defragmented chunk)).
Proof.
  intros [] Hn Hp Hc Hh Hk Hend. pose proof (bo_alloc _ _ _ Hc). unfold bufs in *. rewrite Hn in *.
  simpl in *. rewrite Hp in *. cbn [sum_len sum_alloc fold_right] in *.
  split; unfold bufs; simpl; rewrite ?Hn, ?len_dropZ by lia; try done; try lia; simpl;
    unfold sum_len, sum_alloc in *; try lia.
  apply buf_ok_drop; [done|lia|lia].
Qed.

Lemma read_loop_ordered_ok f fuel s n :
  core f s → next s = None → state s = Ordered → 0 <= n → (length (helems (data s)) < fuel)%nat →
  ∃ r s', read_loop fuel s n true = Ret (r, s') ∧ core f s' ∧ next s' = None ∧
    state s' = Ordered ∧ end_ s' = end_ s ∧ ordered_read f s n r s'.
Proof.
  revert s. induction fuel as [|fuel IH]; intros s Hc Hn Hst Hn0 Hf; [lia|]. cbn [read_loop].
  destruct (hpop (data s)) as [[chunk h]|] eqn:Hpop.
  2:{ exists None, s. split; [done|]. repeat (split; [done|]). split; [split; [done|]|].
      - apply hpop_None in Hpop. unfold pending, bufs. rewrite Hn, Hpop, cnt_nil. lia.
      - intros x. unfold pending. rewrite Hst. simpl. intuition auto. }
  destruct (pop_ok f s chunk h Hc Hn Hpop) as (Hp & Hch & Hh & Hlen & Hlow).
  pose proof Hch as [_ Hpos Ho Hend Hasz]. pose proof Hc as [_ Hbf Hal Hmx Hr He].
  destruct (Z.ltb_spec (bytes_read s) (b_offset chunk)).
  { exists None, s. split; [done|]. repeat (split; [done|]). split; [split; [done|]|].
    - intros [Hx _]. apply Hlow in Hx. lia.
    - intros x. unfold pending. rewrite Hst. simpl. intuition auto. }
  rewrite uadd_ok by (unfold max_stream, u64_max in *; lia). cbn [mbind M_bind].
  rewrite Hp in Hbf, Hal. cbn [sum_len sum_alloc fold_right] in Hbf, Hal. fold (sum_len (helems h)) in Hbf.
  fold (sum_alloc (helems h)) in Hal. pose proof (sum_len_alloc _ _ _ Hh).
  pose proof (sum_len_nonneg (helems h)).
  destruct (Z.leb_spec (b_offset chunk + len (b_bytes chunk)) (bytes_read s)).
  - rewrite !usub_ok by lia. cbn [mbind M_bind]. set (s1 := mkAssembler _ _ _ _ _ _ _).
    assert (Hb1 : bufs s1 = helems h) by (unfold bufs; simpl; by rewrite Hn).
    assert (Hp1 : ∀ x, pending s1 x ↔ pending s x).
    { intros x. unfold pending. rewrite Hb1, Hp, cnt_cons. simpl. rewrite Hst. simpl.
      unfold covers. case_decide; lia. }
    destruct (IH s1) as (r & s' & -> & Hc' & Hn' & Hst' & Hen' & Hr'); try done.
    + split; rewrite ?Hb1; simpl; try done; lia.
    + simpl. lia.
    + exists r, s'. do 5 (split; [done|]). by apply (ordered_read_weaken f s s1).
  - rewrite usub_ok by lia. cbn [mbind M_bind]. set (k := bytes_read s - b_offset chunk).
    pose proof (in_hand_drop f s h chunk k Hc Hn Hp Hch Hh ltac:(lia) ltac:(lia)) as Hih.
    replace (b_offset chunk + k) with (bytes_read s) in Hih by lia.
    set (s0 := mkAssembler _ _ h _ _ _ _) in Hih. set (ch := mkBuffer _ _ _ _) in Hih.
    assert (Hcnt : ∀ x, bytes_read s <= x → cnt x (bufs s) = cnt x (ch :: bufs s0)).
    { intros x Hx. unfold bufs at 2. simpl. rewrite Hn, Hp, !cnt_cons. simpl.
      pose proof (len_dropZ k (b_bytes chunk) ltac:(lia)). unfold covers; simpl.
      repeat case_decide; lia. }
    destruct (take_ordered f s0 s ch n loop_keep Hih loop_keeps) as
      (r & s' & s1 & Htk & Hc' & Hst' & Hen' & Hor & Hd & Hn1 & Hs1); try done.
    exists r, s'. split.
    + destruct (Z.ltb_spec 0 k).
      * rewrite advance_ok by lia. cbn [mbind M_bind].
        rewrite uadd_ok by (unfold max_stream, u64_max in *; lia). cbn [mbind M_bind].
        rewrite usub_ok by lia. cbn [mbind M_bind].
        replace (b_offset chunk + k) with (bytes_read s) by lia. exact Htk.
      * assert (k = 0) as Hk0 by lia. rewrite <- Htk. unfold s0, ch. rewrite Hk0, dropZ_0, Z.sub_0_r.
        replace (bytes_read s) with (b_offset chunk) at 3 by lia. by destruct chunk.
    + split; [done|]. split; [|done]. destruct Hs1 as [->|(c' & -> & _)]; done.
Qed.

Lemma read_ordered_ok f s n :
  inv f s → state s = Ordered → 0 <= n →
  ∃ r s', read s n true = Ret (r, s') ∧ inv f s' ∧ state s' = Ordered ∧ end_ s' = end_ s ∧
    ordered_read f s n r s'.
Proof.
  intros Hi Hst Hn0. pose proof (inv_core _ _ Hi) as Hc. unfold read.
  assert (Hfin : ∀ s', core f s' → next_ok s' → state s' = Ordered → inv f s').
  { intros s' [] Hno Hst'. split; try done. by rewrite Hst'. }
  destruct (next s) as [slot|] eqn:Hn.
  - destruct (i_next _ _ Hi slot Hn) as (_ & Hemp & Ho). set (s0 := mkAssembler _ _ _ _ _ _ _).
    assert (Hb0 : bufs s0 = []) by exact Hemp.
    assert (Hbs : bufs s = [slot]) by (unfold bufs; by rewrite Hn, Hemp).
    assert (Hih : in_hand f s0 slot).
    { destruct Hc as [Hb ? ? ? ? ?]. rewrite Hbs in *. simpl in *. apply Forall_cons in Hb as [Hb _].
      destruct Hb. split; rewrite ?Hb0; simpl; try done; lia. }
    destruct (take_ordered f s0 s slot n slot_keep Hih slot_keeps) as
      (r & s' & s1 & Htk & Hc' & Hst' & Hen' & Hor & Hd & Hn1 & Hs1); try done.
    { intros x _. by rewrite Hb0, Hbs. }
    exists r, s'. split; [exact Htk|]. split; [|done]. apply Hfin; [done| |done].
    intros b Hb. destruct Hs1 as [->|(c' & -> & Hc'o)]; [congruence|].
    simpl in Hb. injection Hb as <-. split; [done|]. split; [simpl; by rewrite Hd|done].
  - destruct (read_loop_ordered_ok f (S (length (helems (data s)))) s n Hc Hn Hst Hn0)
      as (r & s' & -> & Hc' & Hn' & Hst' & Hen' & Hr'); [lia|].
    exists r, s'. split; [done|]. split; [|done]. apply Hfin; [done| |done].
    intros b. by rewrite Hn'.
Qed.

(** What an unordered read returns. *)
Definition unordered_read (f : Z → Z) s (n : Z) (r : option Chunk) s' : Prop :=
  match r with
  | None => s' = s ∧ ∀ x, cnt x (bufs s) = 0%nat
  | Some c => let k := len (c_bytes c) in
      c_bytes c = slice f (c_offset c) k ∧ k <= n ∧ (0 < n → 0 < k) ∧
      bytes_read s' = bytes_read s + k ∧
      (∀ x, cnt x (bufs s) = (cnt x (bufs s') + if decide (c_offset c <= x < c_offset c + k)%Z
                              then 1 else 0)%nat)
  end.

Lemma inv_unordered_next f s recvd : inv f s → state s = Unordered recvd → next s = None.
Proof.
  intros Hi Hst. destruct (next s) eqn:Hn; [|done].
  apply (i_next _ _ Hi) in Hn as [Hn _]. congruence.
Qed.

Lemma read_unordered_ok f s recvd n :
  inv f s → state s = Unordered recvd → 0 <= n →
  ∃ r s', read s n false = Ret (r, s') ∧ inv f s' ∧ state s' = state s ∧ end_ s' = end_ s ∧
    unordered_read f s n r s'.
Proof.
  intros Hi Hst Hn0. pose proof (inv_core _ _ Hi) as Hc. pose proof (inv_unordered_next _ _ _ Hi Hst) as Hn.
  destruct (i_unordered _ _ Hi recvd Hst) as (Hw & Hre & Hone & Hsub & Hsz).
  assert (Hrs : 0 <= rs_size recvd <= end_ s - 0).
  { apply rs_size_bound; [done|destruct Hi; lia|done]. }
  unfold read. cbn [read_loop].
  destruct (hpop (data s)) as [[chunk h]|] eqn:Hpop.
  2:{ exists None, s. split; [done|]. do 3 (split; [done|]). split; [done|]. intros x.
      apply hpop_None in Hpop. unfold bufs. by rewrite Hn, Hpop. }
  destruct (pop_ok f s chunk h Hc Hn Hpop) as (Hp & Hch & Hh & Hlen & _).
  pose proof (bo_nonempty _ _ _ Hch). rewrite Hp in Hsz. cbn [sum_len fold_right] in Hsz.
  fold (sum_len (helems h)) in Hsz. pose proof (sum_len_nonneg (helems h)).
  pose proof (in_hand_drop f s h chunk 0 Hc Hn Hp Hch Hh ltac:(lia) ltac:(lia)) as Hih.
  rewrite Z.sub_0_r, Z.add_0_r, dropZ_0 in Hih.
  rewrite Hn in *. set (s0 := mkAssembler _ _ h _ _ _ _) in *.
  assert (Hb0 : bufs s0 = helems h) by done.
  destruct (take_from_ok f s0 _ n loop_keep Hih loop_keeps Hn0) as
    (c & s' & s1 & Htk & Hc' & Hco & Hcb & Hcl & Hst' & Hbr' & Hen' & Hsum & Hcx & Hd & Hn1 & Hs1).
  simpl in Hco, Hcb, Hcl, Hst', Hbr', Hen', Hsum. rewrite Hb0 in Hcx, Hsum.
  pose proof (len_nonneg (c_bytes c)).
  assert (Hcnt : ∀ x, cnt x (bufs s) = (cnt x (bufs s') +
    if decide (c_offset c <= x < c_offset c + len (c_bytes c))%Z then 1 else 0)%nat).
  { intros x. rewrite Hcx, Hp, cnt_cons, Hco. unfold covers. simpl. repeat case_decide; lia. }
  exists (Some c), s'. split; [rewrite <- Htk; by destruct chunk|].
  split; [|do 2 (split; [done|]); split; [congruence|]; split; [lia|]; split; [lia|]; by split].
  assert (Hn' : next s' = None) by (destruct Hs1 as [->|(c' & -> & _)]; done).
  destruct Hc'. split; try done; [intros b; by rewrite Hn'|].
  rewrite Hst', Hst. intros ? [= <-]. split; [done|]. split; [by rewrite Hen'|].
  split; [|split].
  - intros x. specialize (Hcnt x). specialize (Hone x). lia.
  - intros x Hx. apply Hsub. specialize (Hcnt x). lia.
  - lia.
Qed.

(** * [ensure_ordering] *)

Lemma insert_chunks_ok f e l recvd :
  Forall (buf_ok f e) l → wf recvd → Forall (fun r => rend r <= e) recvd → e <= max_stream →
  (∀ x, (cnt x l <= 1)%nat) → (∀ x, (1 <= cnt x l)%nat → ¬ rs_in x recvd) →
  ∃ recvd', insert_chunks recvd l = Ret recvd' ∧ wf recvd' ∧ Forall (fun r => rend r <= e) recvd' ∧
    (∀ x, rs_in x recvd' ↔ rs_in x recvd ∨ (1 <= cnt x l)%nat) ∧
    rs_size recvd' = rs_size recvd + sum_len l.
Proof.
  intros Hl. revert recvd. induction Hl as [|b l Hb Hl IH]; intros recvd Hw Hre He Hone Hdis; simpl.
  { exists recvd. rewrite Z.add_0_r. do 3 (split; [done|]). split; [|done].
    intros x. rewrite cnt_nil. split; [tauto|]. intros [|]; [done|lia]. }
  destruct Hb as [_ Hpos Ho Hend _].
  rewrite uadd_ok by (unfold max_stream, u64_max in *; lia). cbn [mbind M_bind].
  rewrite bt_insert_ref by (done || unfold max_stream, u64_max in *; lia). cbn [fst].
  set (o := b_offset b) in *. set (n := len (b_bytes b)) in *.
  assert (Hin : ∀ x, rs_in x (ins_ref recvd o (o + n)) ↔ rs_in x recvd ∨ o <= x < o + n)
    by (intros x; apply (ins_ref_in _ _ _ 0); [done|lia]).
  assert (Hcons : ∀ x, cnt x (b :: l) = ((if decide (o <= x < o + n)%Z then 1 else 0) + cnt x l)%nat)
    by (intros x; apply cnt_cons).
  assert (Hno : isect recvd o (o + n) = []).
  { destruct (isect recvd o (o + n)) as [|[a c] k] eqn:Hk; [done|]. exfalso.
    pose proof (isect_range recvd o (o + n) 0 Hw) as Hir. rewrite Hk in Hir.
    apply Forall_cons in Hir as [Hir _]. simpl in Hir.
    pose proof (proj1 (rs_in_isect recvd o (o + n) a)) as Ha. rewrite Hk, rs_in_cons in Ha. simpl in Ha.
    destruct Ha as [Ha1 Ha2]; [lia|]. apply (Hdis a); [|done]. rewrite Hcons. case_decide; lia. }
  destruct (IH (ins_ref recvd o (o + n))) as (recvd' & -> & Hw' & Hre' & Hin' & Hsz'); try done.
  - apply ins_ref_wf; [done|lia..|unfold max_stream, u64_max in *; lia].
  - by apply (ins_ref_hi _ _ _ 0); [|lia|lia|].
  - intros x. specialize (Hone x). rewrite Hcons in Hone. lia.
  - intros x Hx. rewrite Hin. specialize (Hone x). specialize (Hdis x). rewrite Hcons in Hone, Hdis.
    revert Hone Hdis. case_decide; intros; [lia|]. intros [Hr|Hr]; [|lia]. apply Hdis; [lia|done].
  - exists recvd'. split; [done|]. split; [done|]. split; [done|]. split.
    + intros x. rewrite Hin', Hin, Hcons. case_decide; atomize (rs_in x recvd); lia.
    + rewrite Hsz'. rewrite (rs_size_ins_ref _ _ _ 0) by (done || lia). rewrite Hno. simpl. lia.
Qed.

Lemma ensure_unordered_ok f s :
  inv f s → state s = Ordered → (∀ x, (1 <= cnt x (bufs s))%nat → bytes_read s <= x) →
  ∃ s' recvd, ensure_ordering s false = Ret (s', Ok tt) ∧ inv f s' ∧ state s' = Unordered recvd ∧
    bytes_read s' = bytes_read s ∧ end_ s' = end_ s ∧
    (∀ x, pending s' x ↔ pending s x) ∧
    (∀ x, rs_in x recvd ↔ 0 <= x < bytes_read s ∨ pending s x).
Proof.
  intros Hi Hst Hstale. pose proof (inv_core _ _ Hi) as Hc. unfold ensure_ordering. rewrite Hst. simpl.
  destruct (flush_ok f s Hc) as (Hc1 & Hn1 & Hst1 & Hbr1 & Hen1 & Hbf1 & Hal1 & Hp1).
  assert (Hdef : ∃ s2, (match helems (data (flush s)) with [] => Ret (flush s) | _ => defragment (flush s) end)
    = Ret s2 ∧ core f s2 ∧ next s2 = None ∧ bytes_read s2 = bytes_read s ∧ end_ s2 = end_ s ∧
    ∀ x, cnt x (bufs s2) = Nat.min 1 (cnt x (bufs s))).
  { destruct (helems (data (flush s))) eqn:Hd.
    - exists (flush s). do 5 (split; [done|]). intros x. rewrite <- Hp1. unfold bufs. by rewrite Hn1, Hd.
    - destruct (defragment_ok f _ Hc1) as (s2 & -> & Hc2 & Hn2 & _ & Hbr2 & Hen2 & _ & Hcnt).
      exists s2. split; [done|]. split; [done|]. split; [done|]. split; [congruence|].
      split; [congruence|]. intros x. rewrite Hcnt. by rewrite Hp1. }
  destruct Hdef as (s2 & -> & Hc2 & Hn2 & Hbr2 & Hen2 & Hcnt). cbn [mbind M_bind].
  pose proof Hc2 as [Hb2 Hbf2 Hal2 Hmx2 Hr2 He2].
  assert (Hbs : bufs s2 = helems (data s2)) by (unfold bufs; by rewrite Hn2).
  set (r0 := (BTree.insert BTree.new (mkRange 0 (bytes_read s2))).1).
  assert (Hr0 : wf r0 ∧ Forall (fun r => rend r <= end_ s2) r0 ∧
    (∀ x, rs_in x r0 ↔ 0 <= x < bytes_read s) ∧ rs_size r0 = bytes_read s).
  { unfold r0. destruct (decide (bytes_read s2 = 0)) as [Hz|Hz].
    - rewrite Hz. simpl. split; [done|]. split; [constructor|]. split; [|unfold rs_size; simpl; lia].
      intros x. rewrite rs_in_nil. lia.
    - rewrite bt_insert_ref by (done || unfold max_stream, u64_max in *; lia).
      simpl. unfold wf, rs_size. simpl. split; [unfold max_stream, u64_max in *; lia|].
      split; [repeat constructor; simpl; lia|]. split; [|lia].
      intros x. rewrite rs_in_cons, rs_in_nil. simpl. lia. }
  destruct Hr0 as (Hw0 & Hre0 & Hin0 & Hsz0).
  destruct (insert_chunks_ok f (end_ s2) (helems (data s2)) r0) as (recvd & -> & Hw & Hre & Hin & Hsz);
    rewrite <- ?Hbs; try done.
  { intros x. rewrite Hcnt. lia. }
  { intros x Hx. rewrite Hin0. rewrite Hcnt in Hx. assert (Hx' : (1 <= cnt x (bufs s))%nat) by lia.
    apply Hstale in Hx'. lia. }
  cbn [mbind M_bind mret M_ret]. eexists _, recvd. split; [done|]. rewrite <- Hbs in Hin, Hsz.
  set (s' := mkAssembler _ _ _ _ _ _ _). change (bufs s') with (bufs s2).
  assert (Hpend : ∀ x, pending s' x ↔ pending s x).
  { intros x. unfold pending. change (bufs s') with (bufs s2). rewrite Hcnt, Hst. cbn [state s' is_ordered].
    specialize (Hstale x). split; intros [Hx Hy]; (split; [lia|]); intros; [apply Hstale; lia|done]. }
  split; [|split; [done|split; [done|split; [done|split; [done|]]]]].
  - split; try done; [intros b; simpl; by rewrite Hn2|]. intros ? [= <-].
    split; [done|]. split; [done|]. change (bufs s') with (bufs s2). split; [intros x; rewrite Hcnt; lia|].
    split; [intros x Hx; apply Hin; by right|]. simpl. lia.
  - intros x. rewrite Hin, Hin0, <- Hpend. unfold pending. simpl. intuition discriminate.
Qed.

End Proofs.
