(* ===== verification/AssemblerTheorems.v ===== *)
(** Theorems about the assembler: what any interleaving of received frames and
    application reads delivers, in both read modes. *)
From S2P Require Import Prelude RangeSet Assembler AssemblerSpec.

(** * Sessions *)

Section Session.
Context {H : Type} `{Heap H}.

(** The frames a peer can send: consistent contents, a stream that fits, and an
    allocation estimate that covers the frame and does not overflow the total. *)
Definition frame_ok (s : Assembler H) (o n alloc : Z) : Prop :=
  0 <= o ∧ 0 < n ∧ o + n <= max_stream ∧ n <= alloc ∧ allocated s + alloc * n <= u64_max.

(** [reach f ordered received delivered s]: an application that reads in one mode
    from the start, with the ranges received and the chunks delivered so far. *)
Inductive reach (f : Z → Z) (ordered : bool) : list Range → list Chunk → Assembler H → Prop :=
| reach_open s : ensure_ordering new ordered = Ret (s, Ok tt) → reach f ordered [] [] s
| reach_insert rs out s o n alloc s' :
    reach f ordered rs out s → frame_ok s o n alloc →
    insert s o (slice f o n) alloc = Ret s' →
    reach f ordered (mkRange o (o + n) :: rs) out s'
| reach_read rs out s max c s' :
    reach f ordered rs out s → 0 <= max → read s max ordered = Ret (Some c, s') →
    reach f ordered rs (out ++ [c]) s'
| reach_blocked rs out s max s' :
    reach f ordered rs out s → 0 <= max → read s max ordered = Ret (None, s') →
    reach f ordered rs out s'.

(** How often an offset has been handed to the application. *)
Definition delivered (x : Z) (out : list Chunk) : nat :=
  length (filter (fun c => c_offset c <= x < c_offset c + len (c_bytes c)) out).

Definition received_nat (x : Z) (rs : list Range) : nat := if decide (rs_in x rs) then 1 else 0.

End Session.

Section Sessions.
Context {H : Type} `{Heap H}.
Implicit Types s : Assembler H.

Lemma inv_new f : inv f (new : Assembler H).
Proof.
  assert (Hb : bufs (new : Assembler H) = []) by (unfold bufs; simpl; apply helems_empty).
  split; rewrite ?Hb; try done; simpl; lia || (unfold max_stream; lia) || constructor.
Qed.

Lemma no_pending_new x : ¬ pending (new : Assembler H) x.
Proof. unfold pending, bufs. simpl. rewrite helems_empty, cnt_nil. lia. Qed.

Definition ordered_state (f : Z → Z) (rs : list Range) (out : list Chunk) s : Prop :=
  inv f s ∧ state s = Ordered ∧ concat (c_bytes <$> out) = slice f 0 (bytes_read s) ∧
  (∀ x, 0 <= x < bytes_read s → rs_in x rs) ∧
  (∀ x, pending s x ↔ rs_in x rs ∧ bytes_read s <= x).

Lemma reach_ordered f rs out s : reach f true rs out s → ordered_state f rs out s.
Proof.
  induction 1 as [s Hs|rs out s o n alloc s' _ IH Hok Hins|rs out s mx c s' _ IH Hmx Hrd
                 |rs out s mx s' _ IH Hmx Hrd].
  - simpl in Hs. injection Hs as <-. split; [apply inv_new|]. split; [done|]. split; [done|].
    split; [simpl; lia|]. intros x. rewrite rs_in_nil. pose proof (no_pending_new x). tauto.
  - destruct IH as (Hi & Hst & Hout & Hlow & Hp). destruct Hok as (Ho & Hn & He & Hal & Hmax).
    assert (Hl : len (slice f o n) = n) by (apply len_slice; lia).
    destruct (insert_ordered_ok f s o (slice f o n) alloc) as (s1 & Hs1 & Hi' & Hst' & Hbr & _ & Hp');
      rewrite ?Hl; try done.
    rewrite Hins in Hs1. injection Hs1 as <-. rewrite Hl in Hp'.
    split; [done|]. split; [done|]. rewrite Hbr. split; [done|].
    split; [intros x Hx; rewrite rs_in_cons; right; by apply Hlow|].
    intros x. rewrite Hp', Hp, rs_in_cons. unfold fresh. rewrite Hst. simpl. tauto.
  - destruct IH as (Hi & Hst & Hout & Hlow & Hp).
    destruct (read_ordered_ok f s mx Hi Hst Hmx) as (r & s1 & Hs1 & Hi' & Hst' & _ & Hr & Hp').
    rewrite Hrd in Hs1. injection Hs1 as <- <-. destruct Hr as (_ & Hcb & _ & _ & Hbr & Hdel).
    pose proof (len_nonneg (c_bytes c)). pose proof (i_read _ _ Hi).
    split; [done|]. split; [done|]. split; [|split].
    + rewrite fmap_app, concat_app, Hout, Hbr, slice_app, Z.add_0_l by lia.
      rewrite <- Hcb. simpl. by rewrite app_nil_r.
    + intros x Hx. destruct (decide (x < bytes_read s)); [apply Hlow; lia|].
      apply Hp, Hdel. lia.
    + intros x. rewrite Hp', Hp. intuition lia.
  - destruct IH as (Hi & Hst & Hout & Hlow & Hp).
    destruct (read_ordered_ok f s mx Hi Hst Hmx) as (r & s1 & Hs1 & Hi' & Hst' & _ & Hr & Hp').
    rewrite Hrd in Hs1. injection Hs1 as <- <-. destruct Hr as [Hbr _].
    split; [done|]. split; [done|]. rewrite Hbr. split; [done|]. split; [done|].
    intros x. rewrite Hp', Hp, Hbr. tauto.
Qed.

(** In unordered mode every received offset is buffered or delivered, once. *)
Definition unordered_state (f : Z → Z) (rs : list Range) (out : list Chunk) s : Prop :=
  inv f s ∧ Forall (fun c => c_bytes c = slice f (c_offset c) (len (c_bytes c))) out ∧
  ∃ recvd, state s = Unordered recvd ∧ (∀ x, rs_in x recvd ↔ rs_in x rs) ∧
    ∀ x, (delivered x out + cnt x (bufs s))%nat = received_nat x rs.

Lemma delivered_snoc x out c :
  delivered x (out ++ [c]) =
  (delivered x out + if decide (c_offset c <= x < c_offset c + len (c_bytes c))%Z then 1 else 0)%nat.
Proof.
  unfold delivered. rewrite filter_app, length_app. f_equal. rewrite filter_cons.
  by case_decide.
Qed.

Lemma reach_unordered f rs out s : reach f false rs out s → unordered_state f rs out s.
Proof.
  induction 1 as [s Hs|rs out s o n alloc s' _ IH Hok Hins|rs out s mx c s' _ IH Hmx Hrd
                 |rs out s mx s' _ IH Hmx Hrd].
  - destruct (ensure_unordered_ok f new (inv_new f)) as (s1 & recvd & Hs1 & Hi & Hst & _ & _ & Hp & Hin);
      [done|intros x; unfold bufs; simpl; rewrite helems_empty, cnt_nil; lia|].
    rewrite Hs in Hs1. injection Hs1 as <-. split; [done|]. split; [constructor|]. exists recvd.
    split; [done|]. pose proof no_pending_new as Hno. split.
    + intros x. rewrite Hin, rs_in_nil. simpl. specialize (Hno x). lia || (split; [|done]; intros [?|?]; [lia|done]).
    + intros x. unfold received_nat. case_decide as Hx; [by apply rs_in_nil in Hx|].
      specialize (Hno x). rewrite <- Hp in Hno. unfold pending in Hno. rewrite Hst in Hno. simpl in *.
      unfold delivered. simpl. destruct (cnt x (bufs s)) eqn:E; [done|]. exfalso. apply Hno. split; [lia|done].
  - destruct IH as (Hi & Hout & recvd & Hst & Hin & Hcnt). destruct Hok as (Ho & Hn & He & Hal & Hmax).
    assert (Hl : len (slice f o n) = n) by (apply len_slice; lia).
    destruct (insert_unordered_ok f s recvd o (slice f o n) alloc) as (s1 & Hs1 & Hi' & Hst' & _ & _ & Hp');
      rewrite ?Hl; try done.
    rewrite Hins in Hs1. injection Hs1 as <-. rewrite Hl in Hp', Hst'.
    destruct (i_unordered _ _ Hi recvd Hst) as (Hw & _).
    assert (Hin' : ∀ x, rs_in x (ins_ref recvd o (o + n)) ↔ rs_in x (mkRange o (o + n) :: rs)).
    { intros x. rewrite (ins_ref_in _ _ _ 0), rs_in_cons, Hin by (done || lia). simpl. tauto. }
    split; [done|]. split; [done|]. exists (ins_ref recvd o (o + n)). split; [done|]. split; [done|].
    destruct (i_unordered _ _ Hi' _ Hst') as (_ & _ & Hone & _).
    intros x. specialize (Hp' x). specialize (Hone x). specialize (Hcnt x). specialize (Hin x).
    unfold pending, fresh in Hp'. rewrite Hst, Hst' in Hp'. cbn [is_ordered] in Hp'.
    assert (Hft : ∀ a b : Z, (false = true → a <= b) ↔ 0 = 0) by (intros; split; [lia|discriminate]).
    rewrite !Hft, Hin in Hp'. unfold received_nat in *.
    pose proof (rs_in_cons x (mkRange o (o + n)) rs) as Hc. simpl in Hc.
    revert Hcnt. repeat case_decide; atomize (rs_in x rs); rewrite ?Hc in *; lia.
  - destruct IH as (Hi & Hout & recvd & Hst & Hin & Hcnt).
    destruct (read_unordered_ok f s recvd mx Hi Hst Hmx) as (r & s1 & Hs1 & Hi' & Hst' & _ & Hr).
    rewrite Hrd in Hs1. injection Hs1 as <- <-. destruct Hr as (Hcb & _ & _ & _ & Hcx).
    split; [done|]. split; [by apply Forall_app; split; [done|constructor]|].
    exists recvd. split; [congruence|]. split; [done|].
    intros x. specialize (Hcx x). specialize (Hcnt x). rewrite delivered_snoc. lia.
  - destruct IH as (Hi & Hout & recvd & Hst & Hin & Hcnt).
    destruct (read_unordered_ok f s recvd mx Hi Hst Hmx) as (r & s1 & Hs1 & Hi' & Hst' & _ & Hr).
    rewrite Hrd in Hs1. injection Hs1 as <- <-. destruct Hr as (-> & _).
    split; [done|]. split; [done|]. by exists recvd.
Qed.

End Sessions.

(** * Properties *)

Section Properties.
Context {H : Type} `{Heap H}.
Implicit Types s : Assembler H.

(** C1: for an application that reads a stream in order, whatever the order,
    overlap and duplication of the frames received and however reads and frames
    interleave: the chunks delivered so far are, concatenated, exactly the first
    [bytes_read] bytes of the peer's stream; every next frame is accepted without
    a panic; and a read delivers at least one byte exactly when the byte at the
    read position has been received. *)
Theorem assembler_ordered_stream f rs out s :
  reach f true rs out s →
  concat (c_bytes <$> out) = slice f 0 (bytes_read s) ∧
  (∀ o n alloc, frame_ok s o n alloc → ∃ s', insert s o (slice f o n) alloc = Ret s') ∧
  (∀ max, 0 < max → ∃ r s', read s max true = Ret (r, s') ∧
    match r with
    | Some c => rs_in (bytes_read s) rs ∧ c_offset c = bytes_read s ∧ 0 < len (c_bytes c) <= max
    | None => ¬ rs_in (bytes_read s) rs
    end).
Proof.
  intros (Hi & Hst & Hout & _ & Hp)%reach_ordered. split; [done|]. split.
  - intros o n alloc (Ho & Hn & He & Hal & Hmax).
    assert (Hl : len (slice f o n) = n) by (apply len_slice; lia).
    destruct (insert_ordered_ok f s o (slice f o n) alloc) as (s' & -> & _); rewrite ?Hl; eauto.
  - intros mx Hmx. destruct (read_ordered_ok f s mx Hi Hst ltac:(lia)) as (r & s' & -> & _ & _ & _ & Hr & _).
    exists r, s'. split; [done|]. destruct r as [c|].
    + destruct Hr as (Hco & _ & Hle & Hpos & _ & Hdel). specialize (Hpos Hmx).
      split; [|split; [done|lia]]. apply (Hp (bytes_read s)), Hdel. lia.
    + destruct Hr as [_ Hr]. intros Hx. apply Hr, Hp. split; [done|lia].
Qed.

(** For an application that reads a stream out of order, every offset received
    in a non-empty frame is either still buffered or has been delivered, and never
    more than once in total, whatever overlaps and duplicates arrive; delivered
    chunks carry the peer's bytes; no frame and no read panics; and a read returns
    nothing only when everything received has been delivered. *)
Theorem assembler_unordered_exactly_once f rs out s :
  reach f false rs out s →
  Forall (fun c => c_bytes c = slice f (c_offset c) (len (c_bytes c))) out ∧
  (∀ x, (delivered x out + cnt x (bufs s))%nat = received_nat x rs) ∧
  (∀ o n alloc, frame_ok s o n alloc → ∃ s', insert s o (slice f o n) alloc = Ret s') ∧
  (∀ max, 0 < max → ∃ r s', read s max false = Ret (r, s') ∧
    match r with
    | Some c => 0 < len (c_bytes c) <= max
    | None => ∀ x, delivered x out = received_nat x rs
    end).
Proof.
  intros (Hi & Hout & recvd & Hst & _ & Hcnt)%reach_unordered. split; [done|]. split; [done|]. split.
  - intros o n alloc (Ho & Hn & He & Hal & Hmax).
    assert (Hl : len (slice f o n) = n) by (apply len_slice; lia).
    destruct (insert_unordered_ok f s recvd o (slice f o n) alloc) as (s' & -> & _); rewrite ?Hl; eauto.
  - intros mx Hmx. destruct (read_unordered_ok f s recvd mx Hi Hst ltac:(lia)) as (r & s' & -> & _ & _ & _ & Hr).
    exists r, s'. split; [done|]. destruct r as [c|].
    + destruct Hr as (_ & Hle & Hpos & _). specialize (Hpos Hmx). lia.
    + destruct Hr as [_ Hr]. intros x. specialize (Hr x). specialize (Hcnt x). lia.
Qed.

(** [insert] on a state that satisfies the invariant returns, keeps the
    invariant and the number of bytes read, and makes exactly the frame's fresh
    offsets deliverable: those not yet read in ordered mode, those never received
    in unordered mode. *)
Theorem assembler_insert_correct f s o bytes alloc :
  inv f s → bytes = slice f o (len bytes) → 0 <= o → 0 < len bytes →
  o + len bytes <= max_stream → len bytes <= alloc → allocated s + alloc * len bytes <= u64_max →
  ∃ s', insert s o bytes alloc = Ret s' ∧ inv f s' ∧ bytes_read s' = bytes_read s ∧
    end_ s' = Z.max (end_ s) (o + len bytes) ∧
    (∀ x, pending s' x ↔ pending s x ∨ (o <= x < o + len bytes ∧ fresh s x)).
Proof.
  intros Hi Hf Ho Hn He Hal Hmax. destruct (state s) as [|recvd] eqn:Hst.
  - destruct (insert_ordered_ok f s o bytes alloc) as (s' & ? & ? & _ & ?); eauto.
  - destruct (insert_unordered_ok f s recvd o bytes alloc) as (s' & ? & ? & _ & ?); eauto.
Qed.

(** [defragment] on a state whose buffers satisfy the invariant returns, keeps
    every buffered offset, drops every duplicate, and leaves no allocation beyond
    the bytes buffered. *)
Theorem assembler_defragment_correct f s :
  inv f s →
  ∃ s', defragment s = Ret s' ∧ inv f s' ∧ allocated s' = buffered s' ∧
    (∀ x, pending s' x ↔ pending s x) ∧ (∀ x, (cnt x (bufs s') <= 1)%nat).
Proof.
  intros Hi. destruct (defragment_ok f s (inv_core _ _ Hi))
    as (s' & Hd & Hc & Hn & Hst & Hbr & Hen & Hal & Hcnt).
  exists s'. split; [done|]. split; [|split; [done|split]].
  - pose proof Hc as []. split; try done; [intros b; by rewrite Hn|].
    rewrite Hst. intros recvd Hs. destruct (i_unordered _ _ Hi recvd Hs) as (Hw & Hre & Hone & Hsub & Hsz).
    rewrite Hen, Hbr. split; [done|]. split; [done|]. split; [intros x; rewrite Hcnt; lia|].
    split; [intros x Hx; apply Hsub; rewrite Hcnt in Hx; lia|].
    assert (sum_len (bufs s') <= sum_len (bufs s)); [|lia].
    apply (sum_len_mono f (end_ s)); [by rewrite <- Hen|apply (i_bufs _ _ Hi)|].
    intros x. rewrite Hcnt. lia.
  - intros x. unfold pending. rewrite Hst, Hbr, Hcnt. lia || (split; intros [? ?]; split; [lia|done|lia|done]).
  - intros x. rewrite Hcnt. lia.
Qed.

End Properties.

(** * Concrete sessions *)

Definition sample_stream (x : Z) : Z := x mod 256.

(** Two overlapping frames, the second one first, then a read of three bytes. *)
Definition sample_frames : list Range := [mkRange 0 4; mkRange 2 6].

Definition sample_session (ordered : bool) : M (option Chunk * Assembler (list Buffer)) :=
  '(s, _) ← ensure_ordering new ordered;
  s ← insert s 2 (slice sample_stream 2 4) 100;
  s ← insert s 0 (slice sample_stream 0 4) 100;
  read s 3 ordered.

Lemma sample_reach ordered c s :
  sample_session ordered = Ret (Some c, s) → reach sample_stream ordered sample_frames [c] s.
Proof.
  unfold sample_session. intros Hs.
  apply M_bind_ret in Hs as ([s0 r] & H0 & Hs).
  apply M_bind_ret in Hs as (s1 & H1 & Hs). apply M_bind_ret in Hs as (s2 & H2 & Hs).
  assert (r = Ok tt ∧ allocated s0 = 0) as [-> Ha0]
    by (destruct ordered; vm_compute in H0; by injection H0 as <- <-).
  assert (Ha1 : allocated s1 = 100).
  { destruct ordered; vm_compute in H0; injection H0 as <-; vm_compute in H1; by injection H1 as <-. }
  apply (reach_read sample_stream ordered _ [] s2 3); [|lia|done].
  apply (reach_insert sample_stream ordered _ _ s1 0 4 100); [| |done].
  2:{ unfold frame_ok, max_stream, u64_max. lia. }
  apply (reach_insert sample_stream ordered _ _ s0 2 4 100); [| |done].
  2:{ unfold frame_ok, max_stream, u64_max. lia. }
  by apply reach_open.
Qed.

Definition sample_ordered : Assembler (list Buffer) :=
  mkAssembler Ordered None
    [mkBuffer 2 [2; 3; 4; 5] 100 false; mkBuffer 3 [3] 100 false] 5 200 3 6.

Lemma assembler_ordered_stream_witness :
  concat (c_bytes <$> [mkChunk 0 [0; 1; 2]]) = slice sample_stream 0 3 ∧
  (∃ r s', read sample_ordered 10 true = Ret (r, s') ∧
    match r with
    | Some c => rs_in 3 sample_frames ∧ c_offset c = 3 ∧ 0 < len (c_bytes c) <= 10
    | None => ¬ rs_in 3 sample_frames
    end).
Proof.
  destruct (assembler_ordered_stream sample_stream sample_frames [mkChunk 0 [0; 1; 2]] sample_ordered)
    as (Hout & _ & Hrd); [apply sample_reach; vm_compute; reflexivity|].
  split; [exact Hout|]. apply (Hrd 10). lia.
Defined.

Definition sample_unordered : Assembler (list Buffer) :=
  mkAssembler (Unordered [mkRange 0 6]) None [mkBuffer 2 [2; 3; 4; 5] 100 false] 4 100 2 6.

Lemma assembler_unordered_exactly_once_witness :
  (delivered 1 [mkChunk 0 [0%Z; 1%Z]] + cnt 1 (bufs sample_unordered))%nat = received_nat 1 sample_frames ∧
  (∃ r s', read sample_unordered 3 false = Ret (r, s') ∧
    match r with
    | Some c => 0 < len (c_bytes c) <= 3
    | None => ∀ x, delivered x [mkChunk 0 [0; 1]] = received_nat x sample_frames
    end).
Proof.
  destruct (assembler_unordered_exactly_once sample_stream sample_frames [mkChunk 0 [0; 1]] sample_unordered)
    as (_ & Hcnt & _ & Hrd); [apply sample_reach; vm_compute; reflexivity|].
  split; [apply Hcnt|]. apply (Hrd 3). lia.
Defined.

Lemma sample_inv : inv sample_stream sample_ordered.
Proof.
  apply (reach_ordered _ sample_frames [mkChunk 0 [0; 1; 2]]).
  apply sample_reach. vm_compute. reflexivity.
Qed.

Lemma assembler_insert_correct_witness :
  ∃ s', insert sample_ordered 1 (slice sample_stream 1 9) 20 = Ret s' ∧ inv sample_stream s' ∧
    bytes_read s' = 3 ∧ end_ s' = 10 ∧
    (∀ x, pending s' x ↔ pending sample_ordered x ∨ (1 <= x < 1 + 9 ∧ fresh sample_ordered x)).
Proof.
  apply (assembler_insert_correct sample_stream sample_ordered 1 (slice sample_stream 1 9) 20);
    [exact sample_inv|vm_compute; reflexivity|vm_compute; congruence..].
Defined.

Lemma assembler_defragment_correct_witness :
  ∃ s', defragment sample_ordered = Ret s' ∧ inv sample_stream s' ∧ allocated s' = buffered s' ∧
    (∀ x, pending s' x ↔ pending sample_ordered x) ∧ (∀ x, (cnt x (bufs s') <= 1)%nat).
Proof. apply assembler_defragment_correct, sample_inv. Defined.

(** Switching to unordered reads keeps buffered chunks that start below the
    read position: after frames [0, 10) and [5, 15) and an ordered read of ten
    bytes, the first unordered read returns offsets 5 to 14, five of them a second
    time; [bytes_read] is then 20 for a stream of 15 bytes, and the next frame
    panics on [self.end - self.bytes_read]. *)
Theorem switch_to_unordered_redelivers :
  (s ← insert (H := list Buffer) new 0 (slice sample_stream 0 10) 10;
   s ← insert s 5 (slice sample_stream 5 10) 10;
   '(c1, s) ← read s 10 true;
   '(s, _) ← ensure_ordering s false;
   '(c2, s) ← read s 100 false;
   mret (c1, c2, bytes_read s, end_ s)) =
  Ret (Some (mkChunk 0 (slice sample_stream 0 10)), Some (mkChunk 5 (slice sample_stream 5 10)), 20, 15) ∧
  (s ← insert (H := list Buffer) new 0 (slice sample_stream 0 10) 10;
   s ← insert s 5 (slice sample_stream 5 10) 10;
   '(_, s) ← read s 10 true;
   '(s, _) ← ensure_ordering s false;
   '(_, s) ← read s 100 false;
   insert s 15 [15] 1) = Panic.
Proof. split; vm_compute; reflexivity. Qed.
