(* ===== verification/Recv.v ===== *)
(** The receiving half of a stream: [Recv] of
    [quic-proto/src/connection/streams/recv.rs].

    [Chunks], which works on the whole stream table, is in [Streams.v]. *)
From S2P Require Import Prelude Coding RangeSet Assembler Ids Shared Frame.

Inductive RecvState : Type :=
| Receiving (size : option Z)
| ResetRecvd (size : Z) (error_code : VarInt).

(** [ClosedStream]. *)
Inductive ClosedStream : Type := mkClosedStream.

(** [ShouldTransmit(bool)] is its boolean. *)
Definition ShouldTransmit : Type := bool.

Section Recv.
Context {H : Type} `{Heap H}.

Record Recv : Type := mkRecv {
  r_state : RecvState;
  r_assembler : Assembler H;
  sent_max_stream_data : Z;
  r_end : Z;
  stopped : bool
}.

Definition Recv_new (initial_max_data : Z) : Recv :=
  mkRecv (Receiving None) Assembler.new initial_max_data 0 false.

Definition Recv_reinit (s : Recv) (initial_max_data : Z) : Recv :=
  mkRecv (Receiving None) (Assembler.reinit (r_assembler s)) initial_max_data 0 false.

Definition final_offset (s : Recv) : option Z :=
  match r_state s with Receiving size => size | ResetRecvd size _ => Some size end.

Definition final_offset_unknown (s : Recv) : bool :=
  match r_state s with Receiving None => true | _ => false end.

Definition can_send_flow_control (s : Recv) : bool := final_offset_unknown s && negb (stopped s).

Definition is_receiving (s : Recv) : bool :=
  match r_state s with Receiving _ => true | _ => false end.

Definition reset_code (s : Recv) : option VarInt :=
  match r_state s with ResetRecvd _ error_code => Some error_code | _ => None end.

Definition credit_consumed_by (s : Recv) (offset received max_data : Z) : M (result TransportError Z) :=
  let prev_end := r_end s in
  let new_bytes := sat_sub offset prev_end in
  over ← (if sent_max_stream_data s <? offset then Ret true
          else total ← uadd received new_bytes; Ret (max_data <? total));
  mret (if (over : bool) then Err (mkTransportError FLOW_CONTROL_ERROR) else Ok new_bytes).

(** The value is [(new bytes, stream is closed)]; an error leaves the stream as it
    was. *)
Definition ingest (s : Recv) (frame : Stream) (payload_len received max_data : Z)
    : M (result TransportError (Z * bool) * Recv) :=
  stop ← uadd (st_offset frame) (len (st_data frame));
  if 2 ^ 62 <=? stop then mret (Err (mkTransportError FLOW_CONTROL_ERROR), s)
  else if match final_offset s with
          | Some f => (f <? stop) || (st_fin frame && negb (stop =? f))
          | None => false
          end
  then mret (Err (mkTransportError FINAL_SIZE_ERROR), s)
  else
    c ← credit_consumed_by s stop received max_data;
    match c with
    | Err e => mret (Err e, s)
    | Ok new_bytes =>
        let st := if st_fin frame && negb (stopped s)
                  then match r_state s with Receiving _ => Receiving (Some stop) | st => st end
                  else r_state s in
        a ← (if stopped s then Ret (r_assembler s)
             else Assembler.insert (r_assembler s) (st_offset frame) (st_data frame) payload_len);
        mret (Ok (new_bytes, st_fin frame && stopped s),
              mkRecv st a (sent_max_stream_data s) (Z.max (r_end s) stop) (stopped s))
    end.

(** The value is [(read credits, whether to send STOP_SENDING)]. *)
Definition stop (s : Recv) : M (result ClosedStream (Z * ShouldTransmit) * Recv) :=
  if stopped s then mret (Err mkClosedStream, s)
  else
    let a := Assembler.clear (r_assembler s) in
    let s := mkRecv (r_state s) a (sent_max_stream_data s) (r_end s) true in
    read_credits ← usub (r_end s) (bytes_read a);
    mret (Ok (read_credits, is_receiving s), s).

Definition max_stream_data (s : Recv) (stream_receive_window : Z) : M (Z * ShouldTransmit) :=
  max_stream_data ← uadd (bytes_read (r_assembler s)) stream_receive_window;
  diff ← usub max_stream_data (sent_max_stream_data s);
  mret (max_stream_data, can_send_flow_control s && (stream_receive_window / 8 <=? diff)).

Definition record_sent_max_stream_data (s : Recv) (sent_value : Z) : Recv :=
  if sent_max_stream_data s <? sent_value
  then mkRecv (r_state s) (r_assembler s) sent_value (r_end s) (stopped s) else s.

(** [Recv::reset]; [false] for a redundant reset. *)
Definition Recv_reset (s : Recv) (error_code final : VarInt) (received max_data : Z)
    : M (result TransportError bool * Recv) :=
  if match final_offset s with
     | Some offset => negb (offset =? into_inner final)
     | None => into_inner final <? r_end s
     end
  then mret (Err (mkTransportError FINAL_SIZE_ERROR), s)
  else
    c ← credit_consumed_by s (into_inner final) received max_data;
    match c with
    | Err e => mret (Err e, s)
    | Ok _ =>
        match r_state s with
        | ResetRecvd _ _ => mret (Ok false, s)
        | _ => mret (Ok true,
            mkRecv (ResetRecvd (into_inner final) error_code) (Assembler.clear (r_assembler s))
              (sent_max_stream_data s) (r_end s) (stopped s))
        end
    end.

End Recv.
Arguments Recv H : clear implicits.
Arguments mkRecv {H}.
Arguments r_state {H}.
Arguments r_assembler {H}.
Arguments sent_max_stream_data {H}.
Arguments r_end {H}.
Arguments stopped {H}.
