(* ===== verification/Send.v ===== *)
(** The sending half of a stream: [quic-proto/src/connection/streams/send.rs]. *)
From S2P Require Import Prelude Coding RangeSet SendBuffer Ids Shared Frame.

Inductive SendState : Type := Ready | DataSent (finish_acked : bool) | ResetSent.
#[global] Instance SendState_eq_dec : EqDecision SendState.
Proof. solve_decision. Defined.

Inductive FinishError : Type := FinishStopped (error_code : VarInt) | FinishClosedStream.
Inductive WriteError : Type := WriteBlocked | WriteStopped (error_code : VarInt) | WriteClosedStream.
Record Written : Type := mkWritten { w_bytes : Z; w_chunks : Z }.

(** * Sources of chunks *)

(** [trait BytesSource]: [pop_chunk] yields at most [limit] bytes and the number
    of chunks consumed completely.  [bs_data] is the data still to be yielded;
    [bs_valid] is the invariant of the source. *)
Class BytesSource (S : Type) : Type := {
  pop_chunk : S → Z → M ((list Z * Z) * S);
  bs_data : S → list Z;
  bs_valid : S → Prop;
  pop_chunk_ok s limit : bs_valid s → 0 <= limit →
    ∃ chunk n s', pop_chunk s limit = Ret ((chunk, n), s') ∧ bs_valid s' ∧ 0 <= n ∧
      bs_data s = chunk ++ bs_data s' ∧ len chunk <= limit ∧
      (chunk = [] → limit = 0 ∨ bs_data s = [])
}.

(** [BytesArray]: the slice of chunks and the number consumed; consumed chunks
    have been replaced by empty ones. *)
Record BytesArray : Type := mkBytesArray { ba_chunks : list (list Z); ba_consumed : nat }.
Definition from_chunks (chunks : list (list Z)) : BytesArray := mkBytesArray chunks 0.

Fixpoint BytesArray_pop_loop (fuel : nat) (a : BytesArray) (limit chunks_consumed : Z)
    : M ((list Z * Z) * BytesArray) :=
  match fuel with
  | O => Panic
  | S fuel =>
      match ba_chunks a !! ba_consumed a with
      | None => mret (([], chunks_consumed), a)
      | Some chunk =>
          if len chunk <=? limit then
            let a := mkBytesArray (<[ba_consumed a := []]> (ba_chunks a)) (S (ba_consumed a)) in
            match chunk with
            | [] => BytesArray_pop_loop fuel a limit (chunks_consumed + 1)
            | _ => mret ((chunk, chunks_consumed + 1), a)
            end
          else if 0 <? limit then
            '(front, rest) ← split_to limit chunk;
            mret ((front, chunks_consumed),
                  mkBytesArray (<[ba_consumed a := rest]> (ba_chunks a)) (ba_consumed a))
          else mret (([], chunks_consumed), a)
      end
  end.

Definition BytesArray_pop_chunk (a : BytesArray) (limit : Z) : M ((list Z * Z) * BytesArray) :=
  BytesArray_pop_loop (S (length (ba_chunks a))) a limit 0.

(** [ByteSlice]. *)
Record ByteSlice : Type := mkByteSlice { bsl_data : list Z }.
Definition from_slice (data : list Z) : ByteSlice := mkByteSlice data.

Definition ByteSlice_pop_chunk (s : ByteSlice) (limit : Z) : M ((list Z * Z) * ByteSlice) :=
  let limit := Z.min limit (len (bsl_data s)) in
  if limit =? 0 then mret (([], 0), s)
  else
    '(chunk, rest) ← split_to limit (bsl_data s);
    mret ((chunk, match rest with [] => 1 | _ => 0 end), mkByteSlice rest).

(** * Send *)

Record Send : Type := mkSend {
  s_max_data : Z;
  s_state : SendState;
  s_pending : SendBuffer;
  priority : Z;
  fin_pending : bool;
  s_connection_blocked : bool;
  stop_reason : option VarInt
}.

Definition Send_new (max_data : VarInt) : Send :=
  mkSend (into_inner max_data) Ready SendBuffer.new 0 false false None.

Definition is_reset (s : Send) : bool := match s_state s with ResetSent => true | _ => false end.
Definition is_writable (s : Send) : bool := match s_state s with Ready => true | _ => false end.
Definition is_pending (s : Send) : bool := has_unsent_data (s_pending s) || fin_pending s.
Definition s_offset (s : Send) : Z := SendBuffer.offset (s_pending s).

Definition finish (s : Send) : result FinishError unit * Send :=
  match stop_reason s with
  | Some error_code => (Err (FinishStopped error_code), s)
  | None =>
      match s_state s with
      | Ready => (Ok tt, mkSend (s_max_data s) (DataSent false) (s_pending s) (priority s) true
                           (s_connection_blocked s) (stop_reason s))
      | _ => (Err FinishClosedStream, s)
      end
  end.

Definition set_pending (s : Send) (b : SendBuffer) : Send :=
  mkSend (s_max_data s) (s_state s) b (priority s) (fin_pending s) (s_connection_blocked s) (stop_reason s).

(** The loop of [Send::write]; it ends at the first empty chunk. *)
Fixpoint write_loop {S} `{BytesSource S} (fuel : nat) (b : SendBuffer) (source : S) (limit : Z)
    (result : Written) : M (Written * SendBuffer * S) :=
  match fuel with
  | O => Panic
  | Datatypes.S fuel =>
      '((chunk, chunks_consumed), source) ← pop_chunk source limit;
      let result := mkWritten (w_bytes result + len chunk) (w_chunks result + chunks_consumed) in
      match chunk with
      | [] => mret (result, b, source)
      | _ =>
          limit ← usub limit (len chunk);
          b ← SendBuffer.write b chunk;
          write_loop fuel b source limit result
      end
  end.

(** Each iteration but the last takes at least a byte of the source. *)
Definition Send_write {S} `{BytesSource S} (s : Send) (source : S) (limit : Z)
    : M (result WriteError Written * Send * S) :=
  if negb (is_writable s) then mret (Err WriteClosedStream, s, source)
  else
    match stop_reason s with
    | Some error_code => mret (Err (WriteStopped error_code), s, source)
    | None =>
        budget ← usub (s_max_data s) (SendBuffer.offset (s_pending s));
        if budget =? 0 then mret (Err WriteBlocked, s, source)
        else
          let limit := Z.min limit budget in
          '(result, b, source) ←
            write_loop (Datatypes.S (length (bs_data source))) (s_pending s) source limit (mkWritten 0 0);
          mret (Ok result, set_pending s b, source)
    end.

Definition Send_reset (s : Send) : Send :=
  match s_state s with
  | DataSent _ | Ready => mkSend (s_max_data s) ResetSent (s_pending s) (priority s) (fin_pending s)
                            (s_connection_blocked s) (stop_reason s)
  | ResetSent => s
  end.

Definition try_stop (s : Send) (error_code : VarInt) : bool * Send :=
  match stop_reason s with
  | None => (true, mkSend (s_max_data s) (s_state s) (s_pending s) (priority s) (fin_pending s)
                     (s_connection_blocked s) (Some error_code))
  | Some _ => (false, s)
  end.

Definition Send_ack (s : Send) (frame : StreamMeta) : M (bool * Send) :=
  b ← SendBuffer.ack (s_pending s) (sm_offsets frame);
  match s_state s with
  | DataSent finish_acked =>
      let finish_acked := finish_acked || sm_fin frame in
      mret (finish_acked && is_fully_acked b,
            mkSend (s_max_data s) (DataSent finish_acked) b (priority s) (fin_pending s)
              (s_connection_blocked s) (stop_reason s))
  | _ => mret (false, set_pending s b)
  end.

Definition increase_max_data (s : Send) (offset : Z) : bool * Send :=
  if (offset <=? s_max_data s) || negb (bool_decide (s_state s = Ready)) then (false, s)
  else (SendBuffer.offset (s_pending s) =? s_max_data s,
        mkSend offset (s_state s) (s_pending s) (priority s) (fin_pending s)
          (s_connection_blocked s) (stop_reason s)).

(** * The sources *)

Definition ba_rest (a : BytesArray) : list Z := concat (drop (ba_consumed a) (ba_chunks a)).

Lemma BytesArray_pop_ok fuel a limit n :
  0 <= limit → 0 <= n → (length (ba_chunks a) - ba_consumed a < fuel)%nat →
  ∃ chunk k a', BytesArray_pop_loop fuel a limit n = Ret ((chunk, k), a') ∧ n <= k ∧
    ba_rest a = chunk ++ ba_rest a' ∧ len chunk <= limit ∧ (chunk = [] → limit = 0 ∨ ba_rest a = []).
Proof.
  intros Hl. revert a n. unfold ba_rest. induction fuel as [|fuel IH]; intros [cs i] n Hn Hf;
    cbn [ba_chunks ba_consumed BytesArray_pop_loop] in *; [lia|].
  destruct (cs !! i) as [chunk|] eqn:Hi.
  2:{ apply lookup_ge_None in Hi. eexists [], n, _. split; [done|]. cbn [ba_chunks ba_consumed].
      rewrite drop_ge by done. split; [lia|]. split; [done|]. split; [change (len []) with 0; lia|by right]. }
  assert (Hlt : (i < length cs)%nat) by (by eapply lookup_lt_Some).
  rewrite (drop_S _ _ _ Hi). cbn [concat].
  destruct (Z.leb_spec (len chunk) limit).
  - destruct chunk as [|z chunk].
    + destruct (IH (mkBytesArray (<[i:=[]]> cs) (S i)) (n + 1)) as (c & k & a' & -> & Hk & Hc & Hlc & He);
        [lia|cbn [ba_chunks ba_consumed]; rewrite length_insert; lia|].
      cbn [ba_chunks ba_consumed] in *. rewrite drop_insert_lt in Hc, He by lia.
      exists c, k, a'. split; [done|]. split; [lia|]. by split.
    + eexists (z :: chunk), (n + 1), _. split; [done|]. cbn [ba_chunks ba_consumed].
      rewrite drop_insert_lt by lia. split; [lia|]. split; [done|]. by split.
  - destruct (Z.ltb_spec 0 limit).
    + rewrite split_to_ok by lia. cbn [mbind M_bind mret M_ret]. eexists _, n, _. split; [done|].
      cbn [ba_chunks ba_consumed]. split; [lia|].
      rewrite (drop_S (<[i:=_]> cs) (dropZ limit chunk) i) by (by apply list_lookup_insert_eq).
      rewrite drop_insert_lt by lia. cbn [concat]. split; [|split].
      * rewrite app_assoc. f_equal. unfold takeZ, dropZ. by rewrite take_drop.
      * rewrite len_takeZ by lia. lia.
      * intros He. apply (f_equal len) in He. rewrite len_takeZ in He by lia. change (len []) with 0 in He. lia.
    + eexists [], n, _. split; [done|]. cbn [ba_chunks ba_consumed]. rewrite (drop_S _ _ _ Hi). cbn [concat].
      split; [lia|]. split; [done|]. split; [change (len []) with 0; lia|]. intros _. left. lia.
Qed.

#[global, refine] Instance BytesArray_Source : BytesSource BytesArray := {
  pop_chunk := BytesArray_pop_chunk;
  bs_data := ba_rest;
  bs_valid _ := True
}.
Proof.
  intros a limit _ Hl. destruct (BytesArray_pop_ok (S (length (ba_chunks a))) a limit 0 Hl)
    as (c & k & a' & Hp & Hk & Hd & Hc & He); [lia|lia|]. by exists c, k, a'.
Defined.

#[global, refine] Instance ByteSlice_Source : BytesSource ByteSlice := {
  pop_chunk := ByteSlice_pop_chunk;
  bs_data := bsl_data;
  bs_valid _ := True
}.
Proof.
  intros [d] limit _ Hl. unfold ByteSlice_pop_chunk. cbn [bsl_data]. pose proof (len_nonneg d).
  destruct (Z.eqb_spec (Z.min limit (len d)) 0) as [Hz|Hz].
  - eexists [], 0, _. split; [done|]. split; [done|]. split; [lia|]. split; [done|].
    split; [change (len []) with 0; lia|]. intros _.
    destruct (Z.eq_dec limit 0); [by left|right]. destruct d; [done|]. rewrite len_cons in *.
    pose proof (len_nonneg d). lia.
  - rewrite split_to_ok by lia. cbn [mbind M_bind mret M_ret]. eexists _, _, _. split; [done|].
    split; [done|]. split; [by case_match|]. cbn [bsl_data]. split; [|split].
    + unfold takeZ, dropZ. by rewrite take_drop.
    + rewrite len_takeZ by lia. lia.
    + intros He. apply (f_equal len) in He. rewrite len_takeZ in He by lia. change (len []) with 0 in He. lia.
Defined.

(** * Writing *)

Lemma write_loop_ok {S} `{BytesSource S} fuel w b src limit r :
  SendBuffer.inv w b → bs_valid src → 0 <= limit → SendBuffer.offset b + limit <= 2 ^ 62 - 1 →
  (length (bs_data src) < fuel)%nat →
  ∃ r' b' src', write_loop fuel b src limit r = Ret (r', b', src') ∧ bs_valid src' ∧
    let n := Z.min limit (len (bs_data src)) in
    w_bytes r' = w_bytes r + n ∧ bs_data src = takeZ n (bs_data src) ++ bs_data src' ∧
    SendBuffer.inv (w ++ takeZ n (bs_data src)) b' ∧ SendBuffer.offset b' = SendBuffer.offset b + n ∧
    SendBuffer.base b' = SendBuffer.base b ∧ SendBuffer.unsent b' = SendBuffer.unsent b ∧
    SendBuffer.acks b' = SendBuffer.acks b ∧ SendBuffer.retransmits b' = SendBuffer.retransmits b.
Proof.
  revert w b src limit r. induction fuel as [|fuel IH]; intros w b src limit r Hi Hv Hl Hmax Hf; [lia|].
  cbn [write_loop]. destruct (pop_chunk_ok src limit Hv Hl) as (c & k & s1 & -> & Hv1 & Hk & Hd & Hlc & He).
  cbn [mbind M_bind]. rewrite Hd. pose proof (len_nonneg c). pose proof (len_nonneg (bs_data s1)).
  destruct c as [|z c].
  - eexists _, b, s1. split; [done|]. split; [done|]. cbv zeta. cbn [app w_bytes].
    assert (Z.min limit (len (bs_data s1)) = 0) as ->.
    { destruct (He eq_refl) as [-> | Hnil]; [lia|]. rewrite Hd in Hnil. cbn [app] in Hnil.
      rewrite Hnil. change (len []) with 0. lia. }
    unfold takeZ. cbn [Z.to_nat take app]. rewrite app_nil_r. change (len []) with 0.
    rewrite !Z.add_0_r. done.
  - set (ch := z :: c) in *. rewrite usub_ok by lia. cbn [mbind M_bind].
    destruct (SendBuffer.write_ok w b ch Hi) as (b1 & -> & Hi1 & Ho1 & Hu1 & Hb1 & Ha1 & Hr1); [lia|].
    cbn [mbind M_bind].
    destruct (IH (w ++ ch) b1 s1 (limit - len ch) (mkWritten (w_bytes r + len ch) (w_chunks r + k)))
      as (r' & b' & src' & -> & Hv' & Hw & Hdd & Hi' & Ho' & Hrest); try done; try lia.
    { apply (f_equal length) in Hd. rewrite length_app in Hd. unfold ch in Hd. simpl in Hd. lia. }
    exists r', b', src'. split; [done|]. split; [done|]. cbv zeta. rewrite len_app.
    assert (Hmin : Z.min limit (len ch + len (bs_data s1)) =
      len ch + Z.min (limit - len ch) (len (bs_data s1))) by lia.
    assert (Htk : takeZ (Z.min limit (len ch + len (bs_data s1))) (ch ++ bs_data s1) =
      ch ++ takeZ (Z.min (limit - len ch) (len (bs_data s1))) (bs_data s1)).
    { rewrite Hmin, takeZ_add by lia. rewrite takeZ_app_le, dropZ_app_ge, Z.sub_diag, dropZ_0 by lia.
      f_equal. unfold takeZ, len. by rewrite Nat2Z.id, firstn_all. }
    rewrite Htk, Hmin. cbn [w_bytes] in Hw. split; [lia|].
    split; [by rewrite <- app_assoc, <- Hdd|]. rewrite app_assoc. split; [done|].
    split; [lia|]. destruct Hrest as (? & ? & ? & ?). repeat split; congruence.
Qed.

(** * Properties *)

(** On a stream that is open for writing and has flow control budget, [write]
    takes exactly the first [min(limit, budget, available)] bytes of the source,
    in order, appends them to the send buffer, reports that number, leaves the rest
    in the source, and never buffers beyond the peer's limit [max_data]. *)
Theorem send_write_correct {S} `{BytesSource S} w s src limit :
  is_writable s = true → stop_reason s = None → SendBuffer.inv w (s_pending s) → bs_valid src →
  0 <= limit → s_offset s < s_max_data s → s_max_data s <= 2 ^ 62 - 1 →
  ∃ r s' src', Send_write s src limit = Ret (Ok r, s', src') ∧ bs_valid src' ∧
    let n := Z.min (Z.min limit (s_max_data s - s_offset s)) (len (bs_data src)) in
    w_bytes r = n ∧ bs_data src = takeZ n (bs_data src) ++ bs_data src' ∧
    SendBuffer.inv (w ++ takeZ n (bs_data src)) (s_pending s') ∧
    s_offset s' = s_offset s + n ∧ s_offset s' <= s_max_data s' ∧ s_max_data s' = s_max_data s.
Proof.
  intros Hw Hsr Hi Hv Hl Hb Hm. unfold Send_write, s_offset in *. rewrite Hw, Hsr. cbn [negb].
  rewrite usub_ok by lia. cbn [mbind M_bind].
  destruct (Z.eqb_spec (s_max_data s - SendBuffer.offset (s_pending s)) 0); [lia|].
  destruct (write_loop_ok (Datatypes.S (length (bs_data src))) w (s_pending s) src
    (Z.min limit (s_max_data s - SendBuffer.offset (s_pending s))) (mkWritten 0 0) Hi Hv)
    as (r & b & src' & -> & Hv' & Hr & Hd & Hi' & Ho & _); [lia..|].
  cbn [mbind M_bind mret M_ret]. eexists r, _, src'. split; [done|]. split; [done|]. cbv zeta.
  cbn [s_pending s_max_data set_pending w_bytes] in *. pose proof (len_nonneg (bs_data src)).
  split; [lia|]. split; [done|]. split; [done|]. split; [done|]. split; [lia|done].
Qed.

Lemma send_write_correct_witness :
  ∃ r s' src', Send_write (Send_new (mkVarInt 4)) (from_chunks [[]; [1; 2; 3]; [4; 5]]) 100 = Ret (Ok r, s', src') ∧
    w_bytes r = 4 ∧ bs_data src' = [5] ∧ s_offset s' = 4.
Proof.
  destruct (send_write_correct [] (Send_new (mkVarInt 4)) (from_chunks [[]; [1; 2; 3]; [4; 5]]) 100)
    as (r & s' & src' & Hw & _ & Hb & Hd & _ & Ho & _); try done; try apply SendBuffer.new_inv.
  exists r, s', src'. split; [exact Hw|]. split; [exact Hb|]. split; [|exact Ho].
  cbn in Hd. injection Hd as Hd. symmetry. exact Hd.
Defined.
