(* ===== verification/PendingStreams.v ===== *)
(** The queue of streams with data to send: [PendingStreamsQueue] of
    [quic-proto/src/connection/streams/mod.rs]. *)
From S2P Require Import Prelude Coding Ids.

(** [PendingStream], ordered by priority, then recency, then identifier (the
    derived [Ord]). *)
Record PendingStream : Type := mkPendingStream { ps_priority : Z; ps_recency : Z; ps_id : StreamId }.
#[global] Instance PendingStream_eq_dec : EqDecision PendingStream.
Proof. solve_decision. Defined.

Definition ps_leb (a b : PendingStream) : bool :=
  if ps_priority a <? ps_priority b then true
  else if ps_priority b <? ps_priority a then false
  else if ps_recency a <? ps_recency b then true
  else if ps_recency b <? ps_recency a then false
  else stream_id (ps_id a) <=? stream_id (ps_id b).

(** [BinaryHeap<PendingStream>]: the elements in any order; the order is total, so
    [pop] has one possible result. *)
Fixpoint heap_max (x : PendingStream) (l : list PendingStream) : PendingStream :=
  match l with [] => x | y :: l => heap_max (if ps_leb x y then y else x) l end.

Fixpoint heap_remove (x : PendingStream) (l : list PendingStream) : list PendingStream :=
  match l with
  | [] => []
  | y :: l => if decide (x = y) then l else y :: heap_remove x l
  end.

Definition heap_pop (l : list PendingStream) : option (PendingStream * list PendingStream) :=
  match l with
  | [] => None
  | x :: l' => let m := heap_max x l' in Some (m, heap_remove m l)
  end.

Record PendingStreamsQueue : Type := mkPendingStreamsQueue {
  q_streams : list PendingStream;
  q_next : option PendingStream;
  q_recency : Z
}.

Definition queue_new : PendingStreamsQueue := mkPendingStreamsQueue [] None u64_max.

Definition reinsert_pending (q : PendingStreamsQueue) (id : StreamId) (priority : Z)
    : M PendingStreamsQueue :=
  _ ← rassert (match q_next q with None => true | _ => false end);
  mret (mkPendingStreamsQueue (q_streams q) (Some (mkPendingStream priority (q_recency q) id)) (q_recency q)).

Definition push_pending (q : PendingStreamsQueue) (id : StreamId) (priority : Z)
    : M PendingStreamsQueue :=
  recency ← usub (q_recency q) 1;
  mret (mkPendingStreamsQueue (mkPendingStream priority recency id :: q_streams q) (q_next q) recency).

Definition queue_pop (q : PendingStreamsQueue) : option PendingStream * PendingStreamsQueue :=
  match q_next q with
  | Some p => (Some p, mkPendingStreamsQueue (q_streams q) None (q_recency q))
  | None =>
      match heap_pop (q_streams q) with
      | Some (p, l) => (Some p, mkPendingStreamsQueue l None (q_recency q))
      | None => (None, q)
      end
  end.

Definition queue_clear (q : PendingStreamsQueue) : PendingStreamsQueue :=
  mkPendingStreamsQueue [] None (q_recency q).

Definition queue_iter (q : PendingStreamsQueue) : list PendingStream :=
  option_list (q_next q) ++ q_streams q.

(** * Lemmas *)

Lemma ps_leb_trans a b c : ps_leb a b = true → ps_leb b c = true → ps_leb a c = true.
Proof. unfold ps_leb. zcases; try done; lia. Qed.
Lemma ps_leb_total a b : ps_leb a b = false → ps_leb b a = true.
Proof. unfold ps_leb. zcases; try done; lia. Qed.
Lemma ps_leb_refl a : ps_leb a a = true.
Proof. unfold ps_leb. zcases; try done; lia. Qed.

Lemma heap_max_spec x l :
  heap_max x l ∈ x :: l ∧ Forall (fun y => ps_leb y (heap_max x l) = true) (x :: l).
Proof.
  revert x. induction l as [|y l IH]; intros x; simpl.
  { split; [left|repeat constructor; apply ps_leb_refl]. }
  destruct (ps_leb x y) eqn:E.
  - destruct (IH y) as [Hin Hall]. apply Forall_cons in Hall as [Hy Hall]. split; [by right|].
    repeat constructor; try done. by eapply ps_leb_trans.
  - destruct (IH x) as [Hin Hall]. apply Forall_cons in Hall as [Hx Hall]. split.
    + apply elem_of_cons in Hin as [-> | Hin]; [left|by do 2 right].
    + repeat constructor; try done. eapply ps_leb_trans; [by apply ps_leb_total|done].
Qed.

Lemma heap_remove_perm x l : x ∈ l → l ≡ₚ x :: heap_remove x l.
Proof.
  induction l as [|y l IH]; intros Hx; [by apply not_elem_of_nil in Hx|]. simpl. case_decide as E.
  - by subst.
  - apply elem_of_cons in Hx as [->|Hx]; [done|]. rewrite (IH Hx) at 1. apply Permutation_swap.
Qed.

Lemma heap_pop_spec l p l' :
  heap_pop l = Some (p, l') → l ≡ₚ p :: l' ∧ Forall (fun y => ps_leb y p = true) l.
Proof.
  unfold heap_pop. destruct l as [|x l]; [done|]. intros [= <- <-].
  destruct (heap_max_spec x l) as [Hin Hall]. split; [by apply heap_remove_perm|done].
Qed.

(** Recencies of queued streams are distinct and above the counter. *)
Definition queue_inv (q : PendingStreamsQueue) : Prop :=
  0 <= q_recency q ∧ NoDup (ps_recency <$> q_streams q) ∧
  Forall (fun p => q_recency q <= ps_recency p) (q_streams q).

(** * Properties *)

(** The queue of pending streams is fair.  Popping returns a stream of the
    highest priority; among streams of that priority it is the one queued longest
    ago (recencies decrease with every push), so a stream that is pushed again
    after sending comes after every other stream of its priority; nothing is lost
    or duplicated. *)
Theorem pending_queue_fair q id priority q1 :
  queue_inv q → q_next q = None → push_pending q id priority = Ret q1 →
  queue_inv q1 ∧ queue_iter q1 ≡ₚ mkPendingStream priority (q_recency q - 1) id :: queue_iter q ∧
  ∃ p q2, queue_pop q1 = (Some p, q2) ∧ queue_inv q2 ∧ queue_iter q1 ≡ₚ p :: queue_iter q2 ∧
    (∀ r, r ∈ queue_iter q2 → ps_priority r <= ps_priority p ∧
       (ps_priority r = ps_priority p → ps_recency r < ps_recency p)) ∧
    (ps_id p = id → ps_recency p = q_recency q - 1 → ∀ r, r ∈ q_streams q → ps_priority r < priority).
Proof.
  intros (H0 & Hnd & Hall) Hn Hp. unfold push_pending, usub in Hp.
  destruct (Z.leb_spec 1 (q_recency q)); [|done]. injection Hp as <-.
  set (e := mkPendingStream priority (q_recency q - 1) id).
  assert (Hnew : ps_recency e ∉ ps_recency <$> q_streams q).
  { intros (r & Hr & Hin)%list_elem_of_fmap. rewrite Forall_forall in Hall. specialize (Hall r Hin).
    unfold e in Hr. simpl in Hr. lia. }
  assert (Hi1 : queue_inv (mkPendingStreamsQueue (e :: q_streams q) (q_next q) (q_recency q - 1))).
  { split; simpl; [lia|]. split; [by constructor|]. constructor; [simpl; lia|].
    eapply Forall_impl; [exact Hall|]. simpl. lia. }
  split; [done|]. unfold queue_iter, queue_pop. cbn [q_next q_streams q_recency]. rewrite Hn. simpl.
  split; [done|]. set (m := heap_max e (q_streams q)).
  destruct (heap_max_spec e (q_streams q)) as [Hin Hmax]. fold m in Hin, Hmax.
  pose proof (heap_remove_perm m (e :: q_streams q) Hin) as Hperm. simpl in Hperm.
  set (rest := if decide (m = e) then _ else _) in *.
  assert (Hnd' : NoDup (ps_recency <$> m :: rest)) by (rewrite <- Hperm; by constructor).
  apply NoDup_cons in Hnd' as [Hm Hnd'].
  exists m, (mkPendingStreamsQueue rest None (q_recency q - 1)). split; [done|].
  assert (Hrest : ∀ r, r ∈ rest → r ∈ e :: q_streams q) by (intros r Hr; rewrite Hperm; by right).
  split; [|split; [done|split]].
  - split; simpl; [lia|]. split; [done|]. destruct Hi1 as (_ & _ & Hi1). simpl in Hi1.
    rewrite Hperm in Hi1. by apply Forall_cons in Hi1 as [_ Hi1].
  - intros r Hr. rewrite Forall_forall in Hmax. specialize (Hmax r (Hrest r Hr)).
    assert (ps_recency r ≠ ps_recency m).
    { intros He. apply Hm. rewrite <- He. by apply list_elem_of_fmap_2. }
    unfold ps_leb in Hmax. revert Hmax. zcases; try done; lia.
  - intros _ Hrec r Hr. rewrite Forall_forall in Hmax, Hall.
    assert (Hme : m = e).
    { apply elem_of_cons in Hin as [Hin|Hin]; [done|]. specialize (Hall m Hin). lia. }
    specialize (Hall r Hr). specialize (Hmax r ltac:(by right)). rewrite Hme in Hmax.
    unfold ps_leb in Hmax. simpl in Hmax. revert Hmax. zcases; try done; lia.
Qed.

Definition sample_queue : PendingStreamsQueue :=
  mkPendingStreamsQueue [mkPendingStream 0 10 (mkStreamId 4); mkPendingStream 1 9 (mkStreamId 8)] None 9.

Lemma pending_queue_fair_witness :
  ∃ p q2, queue_pop (mkPendingStreamsQueue
      (mkPendingStream 1 8 (mkStreamId 0) :: q_streams sample_queue) None 8) = (Some p, q2) ∧
    (∀ r, r ∈ queue_iter q2 → ps_priority r <= ps_priority p ∧
       (ps_priority r = ps_priority p → ps_recency r < ps_recency p)).
Proof.
  destruct (pending_queue_fair sample_queue (mkStreamId 0) 1
    (mkPendingStreamsQueue (mkPendingStream 1 8 (mkStreamId 0) :: q_streams sample_queue) None 8))
    as (_ & _ & p & q2 & Hp & _ & _ & Hr & _).
  - split; [simpl; lia|]. split; [|repeat constructor; simpl; lia].
    apply (bool_decide_unpack (NoDup [10; 9])). vm_compute. exact I.
  - reflexivity.
  - reflexivity.
  - exists p, q2. split; [exact Hp|exact Hr].
Defined.
