(* ===== verification/Retransmits.v ===== *)
(** Control data queued for (re)transmission: [Retransmits] and [ThinRetransmits]
    of [quic-proto/src/connection/spaces.rs].

    [Retransmits::is_empty] asks the stream table which flow control updates are
    still worth sending; that table is an argument here. *)
From Stdlib Require Import Btauto.
From stdpp Require Import gmap.
From S2P Require Import Prelude Coding Ids Shared Frame.
Open Scope Z_scope.

(** [std::net::SocketAddr]. *)
Inductive SocketAddr : Type :=
| SocketV4 (ip : Ipv4Addr) (port : Z)
| SocketV6 (ip : Ipv6Addr) (port flowinfo scope_id : Z).

#[global] Instance Ipv4Addr_eq_dec : EqDecision Ipv4Addr.
Proof. solve_decision. Defined.
#[global] Instance Ipv6Addr_eq_dec : EqDecision Ipv6Addr.
Proof. solve_decision. Defined.
#[global] Instance SocketAddr_eq_dec : EqDecision SocketAddr.
Proof. solve_decision. Defined.

Record IssuedCid : Type := mkIssuedCid {
  ic_sequence : Z; ic_id : ConnectionId; ic_reset_token : ResetToken }.

Record Retransmits : Type := mkRetransmits {
  rt_max_data : bool;
  rt_max_stream_id : PerDir bool;
  rt_streams_blocked : PerDir bool;
  rt_reset_stream : list (StreamId * VarInt);
  rt_stop_sending : list StopSending;
  rt_max_stream_data : gset StreamId;
  rt_crypto : list Crypto;
  rt_new_cids : list IssuedCid;
  rt_retire_cids : list Z;
  rt_ack_frequency : bool;
  rt_handshake_done : bool;
  rt_new_tokens : list SocketAddr
}.

Definition Retransmits_default : Retransmits :=
  mkRetransmits false (mkPerDir false false) (mkPerDir false false) [] [] ∅ [] [] [] false false [].

Definition set_rt_max_data (r : Retransmits) (b : bool) : Retransmits :=
  mkRetransmits b (rt_max_stream_id r) (rt_streams_blocked r) (rt_reset_stream r) (rt_stop_sending r)
    (rt_max_stream_data r) (rt_crypto r) (rt_new_cids r) (rt_retire_cids r) (rt_ack_frequency r)
    (rt_handshake_done r) (rt_new_tokens r).
Definition set_rt_max_stream_id (r : Retransmits) (v : PerDir bool) : Retransmits :=
  mkRetransmits (rt_max_data r) v (rt_streams_blocked r) (rt_reset_stream r) (rt_stop_sending r)
    (rt_max_stream_data r) (rt_crypto r) (rt_new_cids r) (rt_retire_cids r) (rt_ack_frequency r)
    (rt_handshake_done r) (rt_new_tokens r).
Definition set_rt_streams_blocked (r : Retransmits) (v : PerDir bool) : Retransmits :=
  mkRetransmits (rt_max_data r) (rt_max_stream_id r) v (rt_reset_stream r) (rt_stop_sending r)
    (rt_max_stream_data r) (rt_crypto r) (rt_new_cids r) (rt_retire_cids r) (rt_ack_frequency r)
    (rt_handshake_done r) (rt_new_tokens r).
Definition set_rt_reset_stream (r : Retransmits) (v : list (StreamId * VarInt)) : Retransmits :=
  mkRetransmits (rt_max_data r) (rt_max_stream_id r) (rt_streams_blocked r) v (rt_stop_sending r)
    (rt_max_stream_data r) (rt_crypto r) (rt_new_cids r) (rt_retire_cids r) (rt_ack_frequency r)
    (rt_handshake_done r) (rt_new_tokens r).
Definition set_rt_stop_sending (r : Retransmits) (v : list StopSending) : Retransmits :=
  mkRetransmits (rt_max_data r) (rt_max_stream_id r) (rt_streams_blocked r) (rt_reset_stream r) v
    (rt_max_stream_data r) (rt_crypto r) (rt_new_cids r) (rt_retire_cids r) (rt_ack_frequency r)
    (rt_handshake_done r) (rt_new_tokens r).
Definition set_rt_max_stream_data (r : Retransmits) (v : gset StreamId) : Retransmits :=
  mkRetransmits (rt_max_data r) (rt_max_stream_id r) (rt_streams_blocked r) (rt_reset_stream r)
    (rt_stop_sending r) v (rt_crypto r) (rt_new_cids r) (rt_retire_cids r) (rt_ack_frequency r)
    (rt_handshake_done r) (rt_new_tokens r).
Definition set_rt_crypto (r : Retransmits) (v : list Crypto) : Retransmits :=
  mkRetransmits (rt_max_data r) (rt_max_stream_id r) (rt_streams_blocked r) (rt_reset_stream r) (rt_stop_sending r)
    (rt_max_stream_data r) v (rt_new_cids r) (rt_retire_cids r) (rt_ack_frequency r) (rt_handshake_done r)
    (rt_new_tokens r).
Definition set_rt_new_cids (r : Retransmits) (v : list IssuedCid) : Retransmits :=
  mkRetransmits (rt_max_data r) (rt_max_stream_id r) (rt_streams_blocked r) (rt_reset_stream r) (rt_stop_sending r)
    (rt_max_stream_data r) (rt_crypto r) v (rt_retire_cids r) (rt_ack_frequency r) (rt_handshake_done r)
    (rt_new_tokens r).
Definition set_rt_retire_cids (r : Retransmits) (v : list Z) : Retransmits :=
  mkRetransmits (rt_max_data r) (rt_max_stream_id r) (rt_streams_blocked r) (rt_reset_stream r) (rt_stop_sending r)
    (rt_max_stream_data r) (rt_crypto r) (rt_new_cids r) v (rt_ack_frequency r) (rt_handshake_done r) (rt_new_tokens
    r).
Definition set_rt_ack_frequency (r : Retransmits) (v : bool) : Retransmits :=
  mkRetransmits (rt_max_data r) (rt_max_stream_id r) (rt_streams_blocked r) (rt_reset_stream r) (rt_stop_sending r)
    (rt_max_stream_data r) (rt_crypto r) (rt_new_cids r) (rt_retire_cids r) v (rt_handshake_done r) (rt_new_tokens r).
Definition set_rt_handshake_done (r : Retransmits) (v : bool) : Retransmits :=
  mkRetransmits (rt_max_data r) (rt_max_stream_id r) (rt_streams_blocked r) (rt_reset_stream r) (rt_stop_sending r)
    (rt_max_stream_data r) (rt_crypto r) (rt_new_cids r) (rt_retire_cids r) (rt_ack_frequency r) v (rt_new_tokens r).
Definition set_rt_new_tokens (r : Retransmits) (v : list SocketAddr) : Retransmits :=
  mkRetransmits (rt_max_data r) (rt_max_stream_id r) (rt_streams_blocked r) (rt_reset_stream r) (rt_stop_sending r)
    (rt_max_stream_data r) (rt_crypto r) (rt_new_cids r) (rt_retire_cids r) (rt_ack_frequency r) (rt_handshake_done r)
    v.

Definition is_nil {A} (l : list A) : bool := match l with [] => true | _ => false end.
Definition any_dir (p : PerDir bool) : bool := at_bi p || at_uni p.

(** [Retransmits::is_empty]; [can_send_flow_control] is the method of the stream
    table. *)
Definition Retransmits_is_empty (can_send_flow_control : StreamId → bool) (r : Retransmits) : bool :=
  negb (rt_max_data r) && negb (any_dir (rt_max_stream_id r)) && negb (any_dir (rt_streams_blocked r))
  && is_nil (rt_reset_stream r) && is_nil (rt_stop_sending r)
  && forallb (fun id => negb (can_send_flow_control id)) (elements (rt_max_stream_data r))
  && is_nil (rt_crypto r) && is_nil (rt_new_cids r) && is_nil (rt_retire_cids r)
  && negb (rt_ack_frequency r) && negb (rt_handshake_done r) && is_nil (rt_new_tokens r).

Definition or_dir (p q : PerDir bool) : PerDir bool := mkPerDir (at_bi p || at_bi q) (at_uni p || at_uni q).

(** [self |= rhs]; retransmitted CRYPTO frames go first, in their order. *)
Definition Retransmits_or (s rhs : Retransmits) : Retransmits :=
  mkRetransmits (rt_max_data s || rt_max_data rhs)
    (or_dir (rt_max_stream_id s) (rt_max_stream_id rhs))
    (or_dir (rt_streams_blocked s) (rt_streams_blocked rhs))
    (rt_reset_stream s ++ rt_reset_stream rhs) (rt_stop_sending s ++ rt_stop_sending rhs)
    (rt_max_stream_data s ∪ rt_max_stream_data rhs)
    (fold_left (fun acc c => c :: acc) (rev (rt_crypto rhs)) (rt_crypto s))
    (rt_new_cids s ++ rt_new_cids rhs) (rt_retire_cids s ++ rt_retire_cids rhs)
    (rt_ack_frequency s || rt_ack_frequency rhs) (rt_handshake_done s || rt_handshake_done rhs)
    (rt_new_tokens s ++ rt_new_tokens rhs).

(** [ThinRetransmits]: allocated on demand. *)
Definition ThinRetransmits : Type := option Retransmits.
Definition Thin_is_empty (can : StreamId → bool) (t : ThinRetransmits) : bool :=
  match t with Some r => Retransmits_is_empty can r | None => true end.
Definition get_or_create (t : ThinRetransmits) : Retransmits := default Retransmits_default t.
Definition Retransmits_or_thin (s : Retransmits) (t : ThinRetransmits) : Retransmits :=
  match t with Some r => Retransmits_or s r | None => s end.
(** [FromIterator]: the union of the retransmits of several packets. *)
Definition Retransmits_from_iter (l : list Retransmits) : Retransmits :=
  fold_left Retransmits_or l Retransmits_default.

(** * Lemmas *)

Lemma Retransmits_or_spec can s rhs :
  Retransmits_is_empty can (Retransmits_or s rhs) =
    Retransmits_is_empty can s && Retransmits_is_empty can rhs ∧
  rt_crypto (Retransmits_or s rhs) = rt_crypto rhs ++ rt_crypto s.
Proof.
  assert (Hfold : ∀ l acc, fold_left (fun acc (c : Crypto) => c :: acc) (rev l) acc = l ++ acc).
  { induction l as [|c l IH]; intros acc; simpl; [done|]. rewrite fold_left_app. simpl. by rewrite IH. }
  split; [|apply Hfold]. unfold Retransmits_is_empty, Retransmits_or. simpl. rewrite Hfold.
  assert (Hnil : ∀ A (l k : list A), is_nil (l ++ k) = is_nil l && is_nil k) by (by intros ? []).
  assert (Hany : ∀ p q, any_dir (or_dir p q) = any_dir p || any_dir q).
  { intros [[] []] [[] []]; done. }
  assert (Hall : forallb (fun id => negb (can id)) (elements (rt_max_stream_data s ∪ rt_max_stream_data rhs)) =
    forallb (fun id => negb (can id)) (elements (rt_max_stream_data s)) &&
    forallb (fun id => negb (can id)) (elements (rt_max_stream_data rhs))).
  { apply eq_iff_eq_true. rewrite andb_true_iff, !forallb_forall.
    setoid_rewrite <- list_elem_of_In. setoid_rewrite elem_of_elements.
    setoid_rewrite elem_of_union. intuition eauto. }
  rewrite Hall, !Hany, !Hnil, !negb_orb. clear.
  repeat match goal with |- context [negb ?b] => generalize (negb b); intros ? end.
  repeat match goal with |- context [is_nil ?b] => generalize (is_nil b); intros ? end.
  repeat match goal with |- context [forallb ?f ?b] => generalize (forallb f b); intros ? end.
  btauto.
Qed.

(** * Properties *)

(** Queueing the retransmissions of a lost packet loses nothing and invents
    nothing: the union is empty exactly when both parts are, whatever the stream
    table says, and handshake data of the lost packet precedes what was already
    queued, in its original order. *)
Theorem retransmits_or_lossless can s rhs :
  Retransmits_is_empty can (Retransmits_or s rhs) =
    Retransmits_is_empty can s && Retransmits_is_empty can rhs ∧
  rt_crypto (Retransmits_or s rhs) = rt_crypto rhs ++ rt_crypto s.
Proof. apply Retransmits_or_spec. Qed.
