(* ===== verification/CidState.v ===== *)
(** Local connection ids: [CidState] of [quic-proto/src/connection/cid_state.rs].

    Times are integers; [max_instant] is the last one the platform's clock represents, beyond which
    [Instant::checked_add] fails. *)
From stdpp Require Import gmap.
From S2P Require Import Prelude Coding Ids Shared Frame Retransmits.
Open Scope Z_scope.

(** * State and operations *)

Record CidTimestamp : Type := mkCidTimestamp { ts_sequence : Z; ts_timestamp : Z }.

Record CidState : Type := mkCidState {
  retire_timestamp : list CidTimestamp;
  issued : Z;
  active_seq : gset Z;
  prev_retire_seq : Z;
  retire_seq : Z;
  local_cid_len : Z;
  cid_lifetime : option Z
}.

Definition set_retire_timestamp (s : CidState) (v : list CidTimestamp) : CidState :=
  mkCidState v (issued s) (active_seq s) (prev_retire_seq s) (retire_seq s) (local_cid_len s) (cid_lifetime s).

Section CidState.
Context (max_instant : Z).

Definition instant_checked_add (now d : Z) : option Z := if now + d <=? max_instant then Some (now + d) else None.

Definition track_lifetime (s : CidState) (new_cid_seq now : Z) : M CidState :=
  match cid_lifetime s with
  | None => mret s
  | Some lifetime =>
      match instant_checked_add now lifetime with
      | None => mret s
      | Some expire_at =>
          let push := set_retire_timestamp s (retire_timestamp s ++ [mkCidTimestamp new_cid_seq expire_at]) in
          match last (retire_timestamp s) with
          | Some last_record =>
              if expire_at =? ts_timestamp last_record then
                _ ← rassert (ts_sequence last_record <? new_cid_seq);
                mret (set_retire_timestamp s
                        (removelast (retire_timestamp s) ++ [mkCidTimestamp new_cid_seq (ts_timestamp last_record)]))
              else mret push
          | None => mret push
          end
      end
  end.

(** [for seq in l { this.track_lifetime(seq, now) }]. *)
Fixpoint track_all (s : CidState) (l : list Z) (now : Z) : M CidState :=
  match l with
  | [] => mret s
  | seq :: l => s ← track_lifetime s seq now; track_all s l now
  end.

Definition CidState_new (cid_len : Z) (cid_lifetime : option Z) (now issued : Z) : M CidState :=
  track_all (mkCidState [] issued (list_to_set (seqZ 0 issued)) 0 0 cid_len cid_lifetime) (seqZ 0 issued) now.

Definition next_timeout (s : CidState) : option Z := ts_timestamp <$> head (retire_timestamp s).

(** [(lo..hi).any(|seq| self.active_seq.contains(&seq))]. *)
Definition any_active (s : CidState) (lo hi : Z) : bool :=
  existsb (fun seq => bool_decide (seq ∈ active_seq s)) (seqZ lo (hi - lo)).

Definition on_cid_timeout (s : CidState) : M (bool * CidState) :=
  let unretired_ids_found := any_active s (prev_retire_seq s) (retire_seq s) in
  let current_retire_prior_to := retire_seq s in
  next_retire_sequence ← match retire_timestamp s with
                         | [] => mret None
                         | seq :: _ => n ← uadd (ts_sequence seq) 1; mret (Some n)
                         end;
  let s := set_retire_timestamp s (tail (retire_timestamp s)) in
  let s := if unretired_ids_found then s
           else mkCidState (retire_timestamp s) (issued s) (active_seq s) (retire_seq s)
                  (default (retire_seq s) next_retire_sequence) (local_cid_len s) (cid_lifetime s) in
  mret (any_active s current_retire_prior_to (retire_seq s), s).

Definition new_cids (s : CidState) (ids : list IssuedCid) (now : Z) : M CidState :=
  match last ids with
  | None => mret s
  | Some last_cid =>
      n ← uadd (issued s) (len ids);
      let s := mkCidState (retire_timestamp s) n
                 (fold_left (fun acc frame => {[ic_sequence frame]} ∪ acc) ids (active_seq s))
                 (prev_retire_seq s) (retire_seq s) (local_cid_len s) (cid_lifetime s) in
      track_lifetime s (ic_sequence last_cid) now
  end.

Definition on_cid_retirement (s : CidState) (sequence limit : Z) : result TransportError bool * CidState :=
  if local_cid_len s =? 0 then (Err (mkTransportError PROTOCOL_VIOLATION), s)
  else if issued s <? sequence then (Err (mkTransportError PROTOCOL_VIOLATION), s)
  else
    let s := mkCidState (retire_timestamp s) (issued s) (active_seq s ∖ {[sequence]}) (prev_retire_seq s)
               (retire_seq s) (local_cid_len s) (cid_lifetime s) in
    (Ok (Z.of_nat (size (active_seq s)) <? limit), s).

Definition state_cid_len (s : CidState) : Z := local_cid_len s.
Definition retire_prior_to (s : CidState) : Z := retire_seq s.

(** * Invariant *)

(** Sequence numbers and expiry times of the records increase. *)
Definition record_lt (a b : CidTimestamp) : Prop := ts_sequence a < ts_sequence b.

Record cid_ok (s : CidState) : Prop := {
  co_issued : 0 <= issued s < 2 ^ 62;
  co_active : ∀ q, q ∈ active_seq s → 0 <= q < issued s;
  co_records : Forall (fun r => 0 <= ts_sequence r < issued s) (retire_timestamp s);
  co_sorted : StronglySorted record_lt (retire_timestamp s);
  co_prev : 0 <= prev_retire_seq s <= retire_seq s;
  co_retire : retire_seq s <= issued s;
  co_future : Forall (fun r => retire_seq s <= ts_sequence r) (retire_timestamp s)
}.

(** The endpoint issues sequence numbers without gaps. *)
Definition ids_ok (s : CidState) (ids : list IssuedCid) : Prop :=
  ic_sequence <$> ids = seqZ (issued s) (len ids) ∧ issued s + len ids < 2 ^ 62.

Inductive cid_state_step : CidState → CidState → Prop :=
| cs_new_cids s ids now s' : ids_ok s ids → new_cids s ids now = Ret s' → cid_state_step s s'
| cs_timeout s b s' : on_cid_timeout s = Ret (b, s') → cid_state_step s s'
| cs_retirement s sequence limit r s' :
    0 <= sequence → on_cid_retirement s sequence limit = (r, s') → cid_state_step s s'.

Inductive cid_state_reachable : CidState → Prop :=
| cr_new l lifetime now n s : 0 <= n < 2 ^ 62 → CidState_new l lifetime now n = Ret s → cid_state_reachable s
| cr_step s s' : cid_state_reachable s → cid_state_step s s' → cid_state_reachable s'.

(** * Lemmas *)

(** [s'] differs from [s] in the records only. *)
Definition same_but_records (s s' : CidState) : Prop :=
  issued s' = issued s ∧ active_seq s' = active_seq s ∧ prev_retire_seq s' = prev_retire_seq s ∧
  retire_seq s' = retire_seq s ∧ local_cid_len s' = local_cid_len s ∧ cid_lifetime s' = cid_lifetime s.

Lemma records_snoc l r :
  StronglySorted record_lt l → Forall (fun x => record_lt x r) l → StronglySorted record_lt (l ++ [r]).
Proof.
  induction 1 as [|x l Hs IH Hx]; intros Hall; simpl; [by repeat constructor|].
  apply Forall_cons in Hall as [? ?]. constructor; [by apply IH|]. apply Forall_app. by repeat constructor.
Qed.

Lemma push_record_ok s l seq t :
  cid_ok s → StronglySorted record_lt l → Forall (fun r => 0 <= ts_sequence r < seq) l →
  Forall (fun r => retire_seq s <= ts_sequence r) l → 0 <= seq < issued s → retire_seq s <= seq →
  let s' := set_retire_timestamp s (l ++ [mkCidTimestamp seq t]) in
  cid_ok s' ∧ same_but_records s s' ∧ Forall (fun r => 0 <= ts_sequence r <= seq) (retire_timestamp s').
Proof.
  intros [Hi Ha Hr Hs Hp Hre Hf] Hl Hb Hfl Hseq Hle. split; [|split; [done|]].
  - split; simpl; try done; try (apply Forall_app; split).
    + eapply Forall_impl; [exact Hb|]. simpl. lia.
    + by repeat constructor; simpl; lia.
    + apply records_snoc; [done|]. eapply Forall_impl; [exact Hb|]. unfold record_lt. simpl. lia.
    + done.
    + by repeat constructor.
  - simpl. apply Forall_app. split; [eapply Forall_impl; [exact Hb|]; simpl; lia|]. repeat constructor; simpl; lia.
Qed.

Lemma track_lifetime_ok s seq now :
  cid_ok s → Forall (fun r => 0 <= ts_sequence r < seq) (retire_timestamp s) → 0 <= seq < issued s → retire_seq s <= seq →
  ∃ s', track_lifetime s seq now = Ret s' ∧ cid_ok s' ∧ same_but_records s s' ∧
    Forall (fun r => 0 <= ts_sequence r <= seq) (retire_timestamp s').
Proof.
  intros Hok Hb Hseq Hle. pose proof Hok as [_ _ _ Hs _ _ Hf]. unfold track_lifetime.
  assert (Hsame : ∃ s', mret s = Ret s' ∧ cid_ok s' ∧ same_but_records s s' ∧
    Forall (fun r => 0 <= ts_sequence r <= seq) (retire_timestamp s')).
  { exists s. split; [done|]. split; [done|]. split; [done|]. eapply Forall_impl; [exact Hb|]. simpl. lia. }
  destruct (cid_lifetime s) as [lifetime|]; [|done]. destruct (instant_checked_add now lifetime) as [t|]; [|done].
  pose proof (push_record_ok s (retire_timestamp s) seq t Hok Hs Hb Hf Hseq Hle) as Hpush.
  destruct (last (retire_timestamp s)) as [r|] eqn:El; [|by eexists; split; [done|exact Hpush]].
  destruct (t =? ts_timestamp r); [|by eexists; split; [done|exact Hpush]].
  apply last_Some in El as [l El]. rewrite El in Hs, Hb, Hf. apply Forall_app in Hb as [Hb [Hr _]%Forall_cons].
  apply Forall_app in Hf as [Hf _]. apply StronglySorted_app_1_l in Hs. simpl in Hr.
  destruct (Z.ltb_spec (ts_sequence r) seq); [|lia]. cbn [rassert mbind M_bind].
  rewrite El, removelast_last. eexists. split; [done|]. by apply push_record_ok.
Qed.

Lemma track_all_ok n : 0 <= n → ∀ s lo now,
  cid_ok s → Forall (fun r => 0 <= ts_sequence r < lo) (retire_timestamp s) → 0 <= lo → lo + n <= issued s →
  retire_seq s <= lo → ∃ s', track_all s (seqZ lo n) now = Ret s' ∧ cid_ok s' ∧ same_but_records s s'.
Proof.
  intros Hn. pattern n. revert n Hn. apply natlike_ind; [|intros n Hn IH]; intros s lo now Hok Hb Hlo Hle Hre.
  - by exists s.
  - rewrite seqZ_cons, Z.pred_succ by lia. cbn [track_all].
    destruct (track_lifetime_ok s lo now Hok Hb) as (s1 & -> & Hok1 & Hsame & Hb1); [lia..|]. cbn [mbind M_bind].
    pose proof Hsame as (Ei & Ea & Ep & Er & El & Elt).
    destruct (IH s1 (Z.succ lo) now Hok1) as (s2 & Ht & Hok2 & Hsame2); [|lia..|].
    { eapply Forall_impl; [exact Hb1|]. simpl. lia. }
    exists s2. split; [done|]. split; [done|]. unfold same_but_records in *. intuition congruence.
Qed.

Lemma CidState_new_ok l lifetime now n :
  0 <= n < 2 ^ 62 → ∃ s, CidState_new l lifetime now n = Ret s ∧ cid_ok s ∧ issued s = n ∧
    active_seq s = list_to_set (seqZ 0 n) ∧ retire_seq s = 0.
Proof.
  intros Hn. unfold CidState_new.
  destruct (track_all_ok n ltac:(lia) (mkCidState [] n (list_to_set (seqZ 0 n)) 0 0 l lifetime) 0 now)
    as (s & -> & Hok & (? & ? & ? & ? & ? & ?)); simpl; try lia; [|constructor|by exists s].
  split; simpl; [lia| |constructor|constructor|lia|lia|constructor].
  intros q [? ?]%elem_of_list_to_set%elem_of_seqZ. lia.
Qed.

Lemma active_insert_all (ids : list IssuedCid) (a : gset Z) q :
  q ∈ fold_left (fun acc frame => {[ic_sequence frame]} ∪ acc) ids a ↔ q ∈ a ∨ q ∈ ic_sequence <$> ids.
Proof.
  revert a. induction ids as [|i ids IH]; intros a; simpl; [set_solver|]. rewrite IH. set_solver.
Qed.

Lemma new_cids_ok s ids now :
  cid_ok s → ids_ok s ids → ∃ s', new_cids s ids now = Ret s' ∧ cid_ok s' ∧
    issued s' = issued s + len ids ∧ retire_seq s' = retire_seq s ∧
    ∀ q, q ∈ active_seq s' ↔ q ∈ active_seq s ∨ issued s <= q < issued s + len ids.
Proof.
  intros Hok [Hids Hmax]. pose proof Hok as [Hi Ha Hr Hs Hp Hre Hf]. unfold new_cids.
  destruct (last ids) as [i|] eqn:El.
  2: { apply last_None in El as ->. exists s. change (len []) with 0. split; [done|]. split; [done|].
       split; [lia|]. split; [done|]. intros q. split; [by left|]. intros [?|?]; [done|lia]. }
  apply last_Some in El as [ids' ->]. rewrite len_app in *. change (len [i]) with 1 in *. pose proof (len_nonneg ids').
  rewrite uadd_ok by (unfold u64_max; lia). cbn [mbind M_bind].
  assert (Ei : ic_sequence i = issued s + len ids').
  { apply (f_equal last) in Hids. rewrite fmap_app in Hids. simpl in Hids. rewrite last_snoc in Hids.
    rewrite seqZ_app in Hids by lia. change (seqZ (issued s + len ids') 1) with [issued s + len ids'] in Hids.
    rewrite last_snoc in Hids. by injection Hids. }
  set (s1 := mkCidState _ _ _ _ _ _ _).
  assert (Hmem : ∀ q, q ∈ active_seq s1 ↔ q ∈ active_seq s ∨ issued s <= q < issued s + (len ids' + 1)).
  { intros q. unfold s1. simpl. rewrite active_insert_all, Hids, elem_of_seqZ. done. }
  destruct (track_lifetime_ok s1 (ic_sequence i) now) as (s2 & -> & Hok2 & (E1 & E2 & _ & E4 & _) & _); simpl; try lia.
  - split; simpl; try done; try lia.
    + intros q [Hq|?]%Hmem; [apply Ha in Hq; lia|lia].
    + eapply Forall_impl; [exact Hr|]. simpl. lia.
  - eapply Forall_impl; [exact Hr|]. simpl. lia.
  - exists s2. split; [done|]. split; [done|]. split; [by rewrite E1|]. split; [done|]. intros q. by rewrite E2.
Qed.

Lemma any_active_spec s lo hi : any_active s lo hi = true ↔ ∃ q, lo <= q < hi ∧ q ∈ active_seq s.
Proof.
  unfold any_active. rewrite existsb_exists. setoid_rewrite <- list_elem_of_In. setoid_rewrite elem_of_seqZ.
  setoid_rewrite bool_decide_eq_true. split; intros (q & ? & ?); exists q; (split; [lia|done]).
Qed.

(** What an expiry does: while the peer still holds an id it was asked to retire, nothing
    but the record goes; otherwise the ids of the record are to be retired. *)
Definition timeout_spec (s : CidState) (b : bool) (s' : CidState) : Prop :=
  issued s' = issued s ∧ active_seq s' = active_seq s ∧ retire_timestamp s' = tail (retire_timestamp s) ∧
  (b = true ↔ ∃ q, retire_seq s <= q < retire_seq s' ∧ q ∈ active_seq s) ∧
  ((∃ q, prev_retire_seq s <= q < retire_seq s ∧ q ∈ active_seq s) →
     retire_seq s' = retire_seq s ∧ prev_retire_seq s' = prev_retire_seq s) ∧
  ((∀ q, prev_retire_seq s <= q < retire_seq s → q ∉ active_seq s) →
     prev_retire_seq s' = retire_seq s ∧
     retire_seq s' = match head (retire_timestamp s) with Some r => ts_sequence r + 1 | None => retire_seq s end).

Lemma on_cid_timeout_ok s : cid_ok s → ∃ b s', on_cid_timeout s = Ret (b, s') ∧ cid_ok s' ∧ timeout_spec s b s'.
Proof.
  intros [Hi Ha Hr Hs Hp Hre Hf]. unfold on_cid_timeout.
  set (next := match retire_timestamp s with [] => _ | _ => _ end).
  assert (Hnext : next = Ret ((fun r => ts_sequence r + 1) <$> head (retire_timestamp s))).
  { unfold next. destruct (retire_timestamp s) as [|r l]; [done|]. apply Forall_cons in Hr as [? _].
    rewrite uadd_ok by (unfold u64_max; lia). done. }
  rewrite Hnext. cbn [mbind M_bind]. do 2 eexists. split; [done|].
  pose proof (any_active_spec s (prev_retire_seq s) (retire_seq s)) as Hany.
  assert (Htail : Forall (fun r => 0 <= ts_sequence r < issued s) (tail (retire_timestamp s)) ∧
    StronglySorted record_lt (tail (retire_timestamp s)) ∧
    Forall (fun r => retire_seq s <= ts_sequence r) (tail (retire_timestamp s)) ∧
    ∀ r, head (retire_timestamp s) = Some r → 0 <= ts_sequence r < issued s ∧ retire_seq s <= ts_sequence r ∧
      Forall (fun x => ts_sequence r + 1 <= ts_sequence x) (tail (retire_timestamp s))).
  { destruct (retire_timestamp s) as [|r l]; [done|]. simpl. apply Forall_cons in Hr as [? ?].
    apply Forall_cons in Hf as [? ?]. apply StronglySorted_inv in Hs as [? Hlt]. repeat (split; [done|]).
    intros ? [= <-]. repeat (split; [done|]). eapply Forall_impl; [exact Hlt|]. unfold record_lt. lia. }
  destruct Htail as (Ht1 & Ht2 & Ht3 & Hhd).
  destruct (any_active s (prev_retire_seq s) (retire_seq s)) eqn:E.
  - apply proj1 in Hany. specialize (Hany eq_refl). split; [by split|]. unfold timeout_spec. simpl.
    repeat (split; [done|]). split; [etrans; [apply any_active_spec|done]|]. split; [done|]. intros Hno. destruct Hany as (q & Hq & Hin).
    by destruct (Hno q Hq).
  - assert (Hno : ¬ ∃ q, prev_retire_seq s <= q < retire_seq s ∧ q ∈ active_seq s) by (intros ?%Hany; done).
    split.
    + destruct (head (retire_timestamp s)) as [r|] eqn:Eh; simpl.
      * destruct (Hhd r eq_refl) as (? & ? & ?). split; simpl; try done; lia.
      * split; simpl; try done; lia.
    + unfold timeout_spec. simpl. repeat (split; [done|]). split; [etrans; [apply any_active_spec|done]|]. split; [done|].
      intros _. split; [done|]. by destruct (head (retire_timestamp s)).
Qed.

Lemma on_cid_retirement_ok s sequence limit r s' :
  cid_ok s → on_cid_retirement s sequence limit = (r, s') → cid_ok s'.
Proof.
  intros [Hi Ha Hr Hs Hp Hre Hf]. unfold on_cid_retirement. destruct (_ =? 0); [by intros [= <- <-]|].
  destruct (issued s <? sequence); [by intros [= <- <-]|]. intros [= <- <-]. split; simpl; try done.
  intros q [Hq _]%elem_of_difference. by apply Ha.
Qed.

Lemma cid_state_reachable_ok s : cid_state_reachable s → cid_ok s.
Proof.
  induction 1 as [l lifetime now n s Hn Hs|s s' _ IH Hs].
  - destruct (CidState_new_ok l lifetime now n Hn) as (? & Heq & Hok & _). congruence.
  - destruct Hs as [s ids now s' Hids Heq|s b s' Heq|s q limit r s' Hq Heq].
    + destruct (new_cids_ok s ids now IH Hids) as (? & Heq' & Hok & _). congruence.
    + destruct (on_cid_timeout_ok s IH) as (? & ? & Heq' & Hok & _). congruence.
    + by eapply on_cid_retirement_ok.
Qed.

End CidState.

(** * Theorems *)

(** The state of the connection ids this endpoint has issued.  In every reachable state issuing ids and
    letting them expire never panic; only ids that were issued are tracked as active; the
    [retire_prior_to] sent to the peer never exceeds what was issued and never
    goes back.  An expiry asks for retirement only once the peer has retired everything asked before, and
    reports that a new id must be sent exactly when it asks for the retirement of an id still active. *)
Theorem cid_state_correct max_instant s ids now :
  cid_state_reachable max_instant s →
  (∀ q, q ∈ active_seq s → 0 <= q < issued s) ∧ 0 <= retire_prior_to s <= issued s ∧
  (ids_ok s ids → ∃ s', new_cids max_instant s ids now = Ret s' ∧ retire_prior_to s' = retire_prior_to s ∧
     ∀ q, q ∈ active_seq s' ↔ q ∈ active_seq s ∨ issued s <= q < issued s + len ids) ∧
  (∃ b s', on_cid_timeout s = Ret (b, s') ∧ retire_prior_to s <= retire_prior_to s' ∧ timeout_spec s b s').
Proof.
  intros Hs%cid_state_reachable_ok. pose proof Hs as [Hi Ha _ _ Hp Hre Hf]. unfold retire_prior_to.
  split; [done|]. split; [lia|]. split.
  - intros Hids. destruct (new_cids_ok max_instant s ids now Hs Hids) as (s' & ? & _ & _ & ? & ?). by exists s'.
  - destruct (on_cid_timeout_ok s Hs) as (b & s' & Heq & _ & Hspec). exists b, s'. split; [done|]. split; [|done].
    destruct Hspec as (_ & _ & _ & _ & H1 & H2).
    destruct (any_active s (prev_retire_seq s) (retire_seq s)) eqn:E.
    + apply any_active_spec in E. by destruct (H1 E) as [-> _].
    + destruct H2 as [_ ->].
      * intros q Hq Hin. assert (any_active s (prev_retire_seq s) (retire_seq s) = true); [|congruence].
        apply any_active_spec. by exists q.
      * destruct (retire_timestamp s); simpl; [done|]. apply Forall_cons in Hf as [? _]. lia.
Qed.

(** A RETIRE_CONNECTION_ID frame is refused exactly when no ids are in use or when its
    number lies beyond every id issued and the next one; otherwise that id is no longer active and
    no other changes.  A new id is announced only when the peer's limit leaves room for one
    more. *)
Theorem cid_retirement_correct s sequence limit :
  let '(r, s') := on_cid_retirement s sequence limit in
  ((∃ e, r = Err e) ↔ local_cid_len s = 0 ∨ issued s < sequence) ∧
  (∀ e, r = Err e → e = mkTransportError PROTOCOL_VIOLATION ∧ s' = s) ∧
  (∀ b, r = Ok b → active_seq s' = active_seq s ∖ {[sequence]} ∧
     (b = true ↔ Z.of_nat (size (active_seq s')) + 1 <= limit)).
Proof.
  unfold on_cid_retirement. destruct (Z.eqb_spec (local_cid_len s) 0); [|destruct (Z.ltb_spec (issued s) sequence)].
  - split; [split; [by left|by eexists]|]. split; [by intros ? [= <-]|done].
  - split; [split; [by right|by eexists]|]. split; [by intros ? [= <-]|done].
  - split; [split; [by intros (? & [=])|by intros [?|?]; [|lia]]|]. split; [done|]. intros b [= <-]. simpl.
    split; [done|]. rewrite Z.ltb_lt. lia.
Qed.

Definition sample_cids : list IssuedCid :=
  [mkIssuedCid 1 (mkConnectionId 1 (replicate 20 1)) (mkResetToken (replicate 16 1));
   mkIssuedCid 2 (mkConnectionId 1 (replicate 20 2)) (mkResetToken (replicate 16 2))].

Lemma cid_state_correct_witness :
  ∃ s s', CidState_new 1000 8 (Some 10) 5 1 = Ret s ∧ new_cids 1000 s sample_cids 6 = Ret s' ∧
    (∀ q, q ∈ active_seq s' ↔ q ∈ active_seq s ∨ 1 <= q < 3).
Proof.
  eexists. destruct (cid_state_correct 1000 (mkCidState [mkCidTimestamp 0 15] 1 {[0]} 0 0 8 (Some 10)) sample_cids 6)
    as (_ & _ & Hn & _).
  { apply (cr_new 1000 8 (Some 10) 5 1); [lia|]. vm_compute. reflexivity. }
  destruct Hn as (s' & Hs & _ & Hq); [split; [reflexivity|done]|].
  exists s'. split; [vm_compute; reflexivity|]. split; [exact Hs|exact Hq].
Defined.

(** The check on the sequence number lets one number through that was never
    issued: the next one. *)
Theorem unissued_cid_retirement_accepted :
  ∃ s s', CidState_new 1000 8 None 0 3 = Ret s ∧ issued s = 3 ∧ 3 ∉ active_seq s ∧
    on_cid_retirement s 3 5 = (Ok true, s').
Proof. do 2 eexists. split; [vm_compute; reflexivity|]. split; [done|]. split; [set_solver by done|vm_compute; reflexivity]. Qed.
