(* ===== verification/Streams.v ===== *)
(** The streams of a connection: [StreamsState] of
    [quic-proto/src/connection/streams/state.rs], and the application interface
    [Streams], [RecvStream], [SendStream] and [Chunks] of [streams/mod.rs] and
    [streams/recv.rs].

    A [FxHashMap] is a [gmap]; an entry [Some None] is a stream the peer may open
    or has opened and that has no state yet.  A [VecDeque] or [Vec] is a list.
    Tracing and frame statistics are left out. *)
From stdpp Require Import gmap.
From S2P Require Import Prelude Coding RangeSet Ids Shared Frame SendBuffer Assembler Recv Send PendingStreams Retransmits.
Open Scope Z_scope.

(** * Data *)

Inductive StreamEvent : Type :=
| Opened (dir : Dir)
| Readable (id : StreamId)
| Writable (id : StreamId)
| Finished (id : StreamId)
| Stopped (id : StreamId) (error_code : VarInt)
| Available (dir : Dir).

Inductive StreamHalf : Type := SendHalf | RecvHalf.
#[global] Instance StreamHalf_eq_dec : EqDecision StreamHalf.
Proof. solve_decision. Defined.

(** Run an action for every element of a list. *)
Fixpoint mfold {A S} (f : S → A → M S) (l : list A) (s : S) : M S :=
  match l with [] => mret s | a :: l => s ← f s a; mfold f l s end.

Section Streams.
Context {H : Type} `{Heap H}.

(** A [Recv] ready to be opened, or opened. *)
Inductive StreamRecv (R : Type) : Type := Free (r : Recv R) | Open (r : Recv R).
Arguments Free {R}.
Arguments Open {R}.

Record StreamsState : Type := mkStreamsState {
  side : Side;
  send : gmap StreamId (option Send);
  recv : gmap StreamId (option (StreamRecv H));
  free_recv : list (StreamRecv H);
  next : PerDir Z;
  max : PerDir Z;
  max_remote : PerDir Z;
  sent_max_remote : PerDir Z;
  allocated_remote_count : PerDir Z;
  max_concurrent_remote_count : PerDir Z;
  flow_control_adjusted : bool;
  next_remote : PerDir Z;
  opened : PerDir bool;
  next_reported_remote : PerDir Z;
  send_streams : Z;
  pending : PendingStreamsQueue;
  events : list StreamEvent;
  connection_blocked : list StreamId;
  max_data : Z;
  receive_window : Z;
  local_max_data : Z;
  sent_max_data : VarInt;
  data_sent : Z;
  data_recvd : Z;
  unacked_data : Z;
  send_window : Z;
  stream_receive_window : Z;
  initial_max_stream_data_uni : VarInt;
  initial_max_stream_data_bidi_local : VarInt;
  initial_max_stream_data_bidi_remote : VarInt;
  receive_window_shrink_debt : Z;
  streams_blocked : PerDir bool
}.

Definition set_send (s : StreamsState) (v : gmap StreamId (option Send)) : StreamsState :=
  mkStreamsState (side s) v (recv s) (free_recv s) (next s) (max s) (max_remote s)
    (sent_max_remote s) (allocated_remote_count s) (max_concurrent_remote_count s)
    (flow_control_adjusted s) (next_remote s) (opened s) (next_reported_remote s) (send_streams
    s) (pending s) (events s) (connection_blocked s) (max_data s) (receive_window s)
    (local_max_data s) (sent_max_data s) (data_sent s) (data_recvd s) (unacked_data s)
    (send_window s) (stream_receive_window s) (initial_max_stream_data_uni s)
    (initial_max_stream_data_bidi_local s) (initial_max_stream_data_bidi_remote s)
    (receive_window_shrink_debt s) (streams_blocked s).
Definition set_recv (s : StreamsState) (v : gmap StreamId (option (StreamRecv H))) : StreamsState :=
  mkStreamsState (side s) (send s) v (free_recv s) (next s) (max s) (max_remote s)
    (sent_max_remote s) (allocated_remote_count s) (max_concurrent_remote_count s)
    (flow_control_adjusted s) (next_remote s) (opened s) (next_reported_remote s) (send_streams
    s) (pending s) (events s) (connection_blocked s) (max_data s) (receive_window s)
    (local_max_data s) (sent_max_data s) (data_sent s) (data_recvd s) (unacked_data s)
    (send_window s) (stream_receive_window s) (initial_max_stream_data_uni s)
    (initial_max_stream_data_bidi_local s) (initial_max_stream_data_bidi_remote s)
    (receive_window_shrink_debt s) (streams_blocked s).
Definition set_free_recv (s : StreamsState) (v : list (StreamRecv H)) : StreamsState :=
  mkStreamsState (side s) (send s) (recv s) v (next s) (max s) (max_remote s) (sent_max_remote
    s) (allocated_remote_count s) (max_concurrent_remote_count s) (flow_control_adjusted s)
    (next_remote s) (opened s) (next_reported_remote s) (send_streams s) (pending s) (events s)
    (connection_blocked s) (max_data s) (receive_window s) (local_max_data s) (sent_max_data s)
    (data_sent s) (data_recvd s) (unacked_data s) (send_window s) (stream_receive_window s)
    (initial_max_stream_data_uni s) (initial_max_stream_data_bidi_local s)
    (initial_max_stream_data_bidi_remote s) (receive_window_shrink_debt s) (streams_blocked s).
Definition set_next (s : StreamsState) (v : PerDir Z) : StreamsState :=
  mkStreamsState (side s) (send s) (recv s) (free_recv s) v (max s) (max_remote s)
    (sent_max_remote s) (allocated_remote_count s) (max_concurrent_remote_count s)
    (flow_control_adjusted s) (next_remote s) (opened s) (next_reported_remote s) (send_streams
    s) (pending s) (events s) (connection_blocked s) (max_data s) (receive_window s)
    (local_max_data s) (sent_max_data s) (data_sent s) (data_recvd s) (unacked_data s)
    (send_window s) (stream_receive_window s) (initial_max_stream_data_uni s)
    (initial_max_stream_data_bidi_local s) (initial_max_stream_data_bidi_remote s)
    (receive_window_shrink_debt s) (streams_blocked s).
Definition set_max (s : StreamsState) (v : PerDir Z) : StreamsState :=
  mkStreamsState (side s) (send s) (recv s) (free_recv s) (next s) v (max_remote s)
    (sent_max_remote s) (allocated_remote_count s) (max_concurrent_remote_count s)
    (flow_control_adjusted s) (next_remote s) (opened s) (next_reported_remote s) (send_streams
    s) (pending s) (events s) (connection_blocked s) (max_data s) (receive_window s)
    (local_max_data s) (sent_max_data s) (data_sent s) (data_recvd s) (unacked_data s)
    (send_window s) (stream_receive_window s) (initial_max_stream_data_uni s)
    (initial_max_stream_data_bidi_local s) (initial_max_stream_data_bidi_remote s)
    (receive_window_shrink_debt s) (streams_blocked s).
Definition set_max_remote (s : StreamsState) (v : PerDir Z) : StreamsState :=
  mkStreamsState (side s) (send s) (recv s) (free_recv s) (next s) (max s) v (sent_max_remote s)
    (allocated_remote_count s) (max_concurrent_remote_count s) (flow_control_adjusted s)
    (next_remote s) (opened s) (next_reported_remote s) (send_streams s) (pending s) (events s)
    (connection_blocked s) (max_data s) (receive_window s) (local_max_data s) (sent_max_data s)
    (data_sent s) (data_recvd s) (unacked_data s) (send_window s) (stream_receive_window s)
    (initial_max_stream_data_uni s) (initial_max_stream_data_bidi_local s)
    (initial_max_stream_data_bidi_remote s) (receive_window_shrink_debt s) (streams_blocked s).
Definition set_sent_max_remote (s : StreamsState) (v : PerDir Z) : StreamsState :=
  mkStreamsState (side s) (send s) (recv s) (free_recv s) (next s) (max s) (max_remote s) v
    (allocated_remote_count s) (max_concurrent_remote_count s) (flow_control_adjusted s)
    (next_remote s) (opened s) (next_reported_remote s) (send_streams s) (pending s) (events s)
    (connection_blocked s) (max_data s) (receive_window s) (local_max_data s) (sent_max_data s)
    (data_sent s) (data_recvd s) (unacked_data s) (send_window s) (stream_receive_window s)
    (initial_max_stream_data_uni s) (initial_max_stream_data_bidi_local s)
    (initial_max_stream_data_bidi_remote s) (receive_window_shrink_debt s) (streams_blocked s).
Definition set_allocated_remote_count (s : StreamsState) (v : PerDir Z) : StreamsState :=
  mkStreamsState (side s) (send s) (recv s) (free_recv s) (next s) (max s) (max_remote s)
    (sent_max_remote s) v (max_concurrent_remote_count s) (flow_control_adjusted s) (next_remote
    s) (opened s) (next_reported_remote s) (send_streams s) (pending s) (events s)
    (connection_blocked s) (max_data s) (receive_window s) (local_max_data s) (sent_max_data s)
    (data_sent s) (data_recvd s) (unacked_data s) (send_window s) (stream_receive_window s)
    (initial_max_stream_data_uni s) (initial_max_stream_data_bidi_local s)
    (initial_max_stream_data_bidi_remote s) (receive_window_shrink_debt s) (streams_blocked s).
Definition set_max_concurrent_remote_count (s : StreamsState) (v : PerDir Z) : StreamsState :=
  mkStreamsState (side s) (send s) (recv s) (free_recv s) (next s) (max s) (max_remote s)
    (sent_max_remote s) (allocated_remote_count s) v (flow_control_adjusted s) (next_remote s)
    (opened s) (next_reported_remote s) (send_streams s) (pending s) (events s)
    (connection_blocked s) (max_data s) (receive_window s) (local_max_data s) (sent_max_data s)
    (data_sent s) (data_recvd s) (unacked_data s) (send_window s) (stream_receive_window s)
    (initial_max_stream_data_uni s) (initial_max_stream_data_bidi_local s)
    (initial_max_stream_data_bidi_remote s) (receive_window_shrink_debt s) (streams_blocked s).
Definition set_flow_control_adjusted (s : StreamsState) (v : bool) : StreamsState :=
  mkStreamsState (side s) (send s) (recv s) (free_recv s) (next s) (max s) (max_remote s)
    (sent_max_remote s) (allocated_remote_count s) (max_concurrent_remote_count s) v
    (next_remote s) (opened s) (next_reported_remote s) (send_streams s) (pending s) (events s)
    (connection_blocked s) (max_data s) (receive_window s) (local_max_data s) (sent_max_data s)
    (data_sent s) (data_recvd s) (unacked_data s) (send_window s) (stream_receive_window s)
    (initial_max_stream_data_uni s) (initial_max_stream_data_bidi_local s)
    (initial_max_stream_data_bidi_remote s) (receive_window_shrink_debt s) (streams_blocked s).
Definition set_next_remote (s : StreamsState) (v : PerDir Z) : StreamsState :=
  mkStreamsState (side s) (send s) (recv s) (free_recv s) (next s) (max s) (max_remote s)
    (sent_max_remote s) (allocated_remote_count s) (max_concurrent_remote_count s)
    (flow_control_adjusted s) v (opened s) (next_reported_remote s) (send_streams s) (pending s)
    (events s) (connection_blocked s) (max_data s) (receive_window s) (local_max_data s)
    (sent_max_data s) (data_sent s) (data_recvd s) (unacked_data s) (send_window s)
    (stream_receive_window s) (initial_max_stream_data_uni s)
    (initial_max_stream_data_bidi_local s) (initial_max_stream_data_bidi_remote s)
    (receive_window_shrink_debt s) (streams_blocked s).
Definition set_opened (s : StreamsState) (v : PerDir bool) : StreamsState :=
  mkStreamsState (side s) (send s) (recv s) (free_recv s) (next s) (max s) (max_remote s)
    (sent_max_remote s) (allocated_remote_count s) (max_concurrent_remote_count s)
    (flow_control_adjusted s) (next_remote s) v (next_reported_remote s) (send_streams s)
    (pending s) (events s) (connection_blocked s) (max_data s) (receive_window s)
    (local_max_data s) (sent_max_data s) (data_sent s) (data_recvd s) (unacked_data s)
    (send_window s) (stream_receive_window s) (initial_max_stream_data_uni s)
    (initial_max_stream_data_bidi_local s) (initial_max_stream_data_bidi_remote s)
    (receive_window_shrink_debt s) (streams_blocked s).
Definition set_next_reported_remote (s : StreamsState) (v : PerDir Z) : StreamsState :=
  mkStreamsState (side s) (send s) (recv s) (free_recv s) (next s) (max s) (max_remote s)
    (sent_max_remote s) (allocated_remote_count s) (max_concurrent_remote_count s)
    (flow_control_adjusted s) (next_remote s) (opened s) v (send_streams s) (pending s) (events
    s) (connection_blocked s) (max_data s) (receive_window s) (local_max_data s) (sent_max_data
    s) (data_sent s) (data_recvd s) (unacked_data s) (send_window s) (stream_receive_window s)
    (initial_max_stream_data_uni s) (initial_max_stream_data_bidi_local s)
    (initial_max_stream_data_bidi_remote s) (receive_window_shrink_debt s) (streams_blocked s).
Definition set_send_streams (s : StreamsState) (v : Z) : StreamsState :=
  mkStreamsState (side s) (send s) (recv s) (free_recv s) (next s) (max s) (max_remote s)
    (sent_max_remote s) (allocated_remote_count s) (max_concurrent_remote_count s)
    (flow_control_adjusted s) (next_remote s) (opened s) (next_reported_remote s) v (pending s)
    (events s) (connection_blocked s) (max_data s) (receive_window s) (local_max_data s)
    (sent_max_data s) (data_sent s) (data_recvd s) (unacked_data s) (send_window s)
    (stream_receive_window s) (initial_max_stream_data_uni s)
    (initial_max_stream_data_bidi_local s) (initial_max_stream_data_bidi_remote s)
    (receive_window_shrink_debt s) (streams_blocked s).
Definition set_pending (s : StreamsState) (v : PendingStreamsQueue) : StreamsState :=
  mkStreamsState (side s) (send s) (recv s) (free_recv s) (next s) (max s) (max_remote s)
    (sent_max_remote s) (allocated_remote_count s) (max_concurrent_remote_count s)
    (flow_control_adjusted s) (next_remote s) (opened s) (next_reported_remote s) (send_streams
    s) v (events s) (connection_blocked s) (max_data s) (receive_window s) (local_max_data s)
    (sent_max_data s) (data_sent s) (data_recvd s) (unacked_data s) (send_window s)
    (stream_receive_window s) (initial_max_stream_data_uni s)
    (initial_max_stream_data_bidi_local s) (initial_max_stream_data_bidi_remote s)
    (receive_window_shrink_debt s) (streams_blocked s).
Definition set_events (s : StreamsState) (v : list StreamEvent) : StreamsState :=
  mkStreamsState (side s) (send s) (recv s) (free_recv s) (next s) (max s) (max_remote s)
    (sent_max_remote s) (allocated_remote_count s) (max_concurrent_remote_count s)
    (flow_control_adjusted s) (next_remote s) (opened s) (next_reported_remote s) (send_streams
    s) (pending s) v (connection_blocked s) (max_data s) (receive_window s) (local_max_data s)
    (sent_max_data s) (data_sent s) (data_recvd s) (unacked_data s) (send_window s)
    (stream_receive_window s) (initial_max_stream_data_uni s)
    (initial_max_stream_data_bidi_local s) (initial_max_stream_data_bidi_remote s)
    (receive_window_shrink_debt s) (streams_blocked s).
Definition set_connection_blocked (s : StreamsState) (v : list StreamId) : StreamsState :=
  mkStreamsState (side s) (send s) (recv s) (free_recv s) (next s) (max s) (max_remote s)
    (sent_max_remote s) (allocated_remote_count s) (max_concurrent_remote_count s)
    (flow_control_adjusted s) (next_remote s) (opened s) (next_reported_remote s) (send_streams
    s) (pending s) (events s) v (max_data s) (receive_window s) (local_max_data s)
    (sent_max_data s) (data_sent s) (data_recvd s) (unacked_data s) (send_window s)
    (stream_receive_window s) (initial_max_stream_data_uni s)
    (initial_max_stream_data_bidi_local s) (initial_max_stream_data_bidi_remote s)
    (receive_window_shrink_debt s) (streams_blocked s).
Definition set_max_data (s : StreamsState) (v : Z) : StreamsState :=
  mkStreamsState (side s) (send s) (recv s) (free_recv s) (next s) (max s) (max_remote s)
    (sent_max_remote s) (allocated_remote_count s) (max_concurrent_remote_count s)
    (flow_control_adjusted s) (next_remote s) (opened s) (next_reported_remote s) (send_streams
    s) (pending s) (events s) (connection_blocked s) v (receive_window s) (local_max_data s)
    (sent_max_data s) (data_sent s) (data_recvd s) (unacked_data s) (send_window s)
    (stream_receive_window s) (initial_max_stream_data_uni s)
    (initial_max_stream_data_bidi_local s) (initial_max_stream_data_bidi_remote s)
    (receive_window_shrink_debt s) (streams_blocked s).
Definition set_receive_window (s : StreamsState) (v : Z) : StreamsState :=
  mkStreamsState (side s) (send s) (recv s) (free_recv s) (next s) (max s) (max_remote s)
    (sent_max_remote s) (allocated_remote_count s) (max_concurrent_remote_count s)
    (flow_control_adjusted s) (next_remote s) (opened s) (next_reported_remote s) (send_streams
    s) (pending s) (events s) (connection_blocked s) (max_data s) v (local_max_data s)
    (sent_max_data s) (data_sent s) (data_recvd s) (unacked_data s) (send_window s)
    (stream_receive_window s) (initial_max_stream_data_uni s)
    (initial_max_stream_data_bidi_local s) (initial_max_stream_data_bidi_remote s)
    (receive_window_shrink_debt s) (streams_blocked s).
Definition set_local_max_data (s : StreamsState) (v : Z) : StreamsState :=
  mkStreamsState (side s) (send s) (recv s) (free_recv s) (next s) (max s) (max_remote s)
    (sent_max_remote s) (allocated_remote_count s) (max_concurrent_remote_count s)
    (flow_control_adjusted s) (next_remote s) (opened s) (next_reported_remote s) (send_streams
    s) (pending s) (events s) (connection_blocked s) (max_data s) (receive_window s) v
    (sent_max_data s) (data_sent s) (data_recvd s) (unacked_data s) (send_window s)
    (stream_receive_window s) (initial_max_stream_data_uni s)
    (initial_max_stream_data_bidi_local s) (initial_max_stream_data_bidi_remote s)
    (receive_window_shrink_debt s) (streams_blocked s).
Definition set_sent_max_data (s : StreamsState) (v : VarInt) : StreamsState :=
  mkStreamsState (side s) (send s) (recv s) (free_recv s) (next s) (max s) (max_remote s)
    (sent_max_remote s) (allocated_remote_count s) (max_concurrent_remote_count s)
    (flow_control_adjusted s) (next_remote s) (opened s) (next_reported_remote s) (send_streams
    s) (pending s) (events s) (connection_blocked s) (max_data s) (receive_window s)
    (local_max_data s) v (data_sent s) (data_recvd s) (unacked_data s) (send_window s)
    (stream_receive_window s) (initial_max_stream_data_uni s)
    (initial_max_stream_data_bidi_local s) (initial_max_stream_data_bidi_remote s)
    (receive_window_shrink_debt s) (streams_blocked s).
Definition set_data_sent (s : StreamsState) (v : Z) : StreamsState :=
  mkStreamsState (side s) (send s) (recv s) (free_recv s) (next s) (max s) (max_remote s)
    (sent_max_remote s) (allocated_remote_count s) (max_concurrent_remote_count s)
    (flow_control_adjusted s) (next_remote s) (opened s) (next_reported_remote s) (send_streams
    s) (pending s) (events s) (connection_blocked s) (max_data s) (receive_window s)
    (local_max_data s) (sent_max_data s) v (data_recvd s) (unacked_data s) (send_window s)
    (stream_receive_window s) (initial_max_stream_data_uni s)
    (initial_max_stream_data_bidi_local s) (initial_max_stream_data_bidi_remote s)
    (receive_window_shrink_debt s) (streams_blocked s).
Definition set_data_recvd (s : StreamsState) (v : Z) : StreamsState :=
  mkStreamsState (side s) (send s) (recv s) (free_recv s) (next s) (max s) (max_remote s)
    (sent_max_remote s) (allocated_remote_count s) (max_concurrent_remote_count s)
    (flow_control_adjusted s) (next_remote s) (opened s) (next_reported_remote s) (send_streams
    s) (pending s) (events s) (connection_blocked s) (max_data s) (receive_window s)
    (local_max_data s) (sent_max_data s) (data_sent s) v (unacked_data s) (send_window s)
    (stream_receive_window s) (initial_max_stream_data_uni s)
    (initial_max_stream_data_bidi_local s) (initial_max_stream_data_bidi_remote s)
    (receive_window_shrink_debt s) (streams_blocked s).
Definition set_unacked_data (s : StreamsState) (v : Z) : StreamsState :=
  mkStreamsState (side s) (send s) (recv s) (free_recv s) (next s) (max s) (max_remote s)
    (sent_max_remote s) (allocated_remote_count s) (max_concurrent_remote_count s)
    (flow_control_adjusted s) (next_remote s) (opened s) (next_reported_remote s) (send_streams
    s) (pending s) (events s) (connection_blocked s) (max_data s) (receive_window s)
    (local_max_data s) (sent_max_data s) (data_sent s) (data_recvd s) v (send_window s)
    (stream_receive_window s) (initial_max_stream_data_uni s)
    (initial_max_stream_data_bidi_local s) (initial_max_stream_data_bidi_remote s)
    (receive_window_shrink_debt s) (streams_blocked s).
Definition set_send_window (s : StreamsState) (v : Z) : StreamsState :=
  mkStreamsState (side s) (send s) (recv s) (free_recv s) (next s) (max s) (max_remote s)
    (sent_max_remote s) (allocated_remote_count s) (max_concurrent_remote_count s)
    (flow_control_adjusted s) (next_remote s) (opened s) (next_reported_remote s) (send_streams
    s) (pending s) (events s) (connection_blocked s) (max_data s) (receive_window s)
    (local_max_data s) (sent_max_data s) (data_sent s) (data_recvd s) (unacked_data s) v
    (stream_receive_window s) (initial_max_stream_data_uni s)
    (initial_max_stream_data_bidi_local s) (initial_max_stream_data_bidi_remote s)
    (receive_window_shrink_debt s) (streams_blocked s).
Definition set_stream_receive_window (s : StreamsState) (v : Z) : StreamsState :=
  mkStreamsState (side s) (send s) (recv s) (free_recv s) (next s) (max s) (max_remote s)
    (sent_max_remote s) (allocated_remote_count s) (max_concurrent_remote_count s)
    (flow_control_adjusted s) (next_remote s) (opened s) (next_reported_remote s) (send_streams
    s) (pending s) (events s) (connection_blocked s) (max_data s) (receive_window s)
    (local_max_data s) (sent_max_data s) (data_sent s) (data_recvd s) (unacked_data s)
    (send_window s) v (initial_max_stream_data_uni s) (initial_max_stream_data_bidi_local s)
    (initial_max_stream_data_bidi_remote s) (receive_window_shrink_debt s) (streams_blocked s).
Definition set_initial_max_stream_data_uni (s : StreamsState) (v : VarInt) : StreamsState :=
  mkStreamsState (side s) (send s) (recv s) (free_recv s) (next s) (max s) (max_remote s)
    (sent_max_remote s) (allocated_remote_count s) (max_concurrent_remote_count s)
    (flow_control_adjusted s) (next_remote s) (opened s) (next_reported_remote s) (send_streams
    s) (pending s) (events s) (connection_blocked s) (max_data s) (receive_window s)
    (local_max_data s) (sent_max_data s) (data_sent s) (data_recvd s) (unacked_data s)
    (send_window s) (stream_receive_window s) v (initial_max_stream_data_bidi_local s)
    (initial_max_stream_data_bidi_remote s) (receive_window_shrink_debt s) (streams_blocked s).
Definition set_initial_max_stream_data_bidi_local (s : StreamsState) (v : VarInt) : StreamsState :=
  mkStreamsState (side s) (send s) (recv s) (free_recv s) (next s) (max s) (max_remote s)
    (sent_max_remote s) (allocated_remote_count s) (max_concurrent_remote_count s)
    (flow_control_adjusted s) (next_remote s) (opened s) (next_reported_remote s) (send_streams
    s) (pending s) (events s) (connection_blocked s) (max_data s) (receive_window s)
    (local_max_data s) (sent_max_data s) (data_sent s) (data_recvd s) (unacked_data s)
    (send_window s) (stream_receive_window s) (initial_max_stream_data_uni s) v
    (initial_max_stream_data_bidi_remote s) (receive_window_shrink_debt s) (streams_blocked s).
Definition set_initial_max_stream_data_bidi_remote (s : StreamsState) (v : VarInt) : StreamsState :=
  mkStreamsState (side s) (send s) (recv s) (free_recv s) (next s) (max s) (max_remote s)
    (sent_max_remote s) (allocated_remote_count s) (max_concurrent_remote_count s)
    (flow_control_adjusted s) (next_remote s) (opened s) (next_reported_remote s) (send_streams
    s) (pending s) (events s) (connection_blocked s) (max_data s) (receive_window s)
    (local_max_data s) (sent_max_data s) (data_sent s) (data_recvd s) (unacked_data s)
    (send_window s) (stream_receive_window s) (initial_max_stream_data_uni s)
    (initial_max_stream_data_bidi_local s) v (receive_window_shrink_debt s) (streams_blocked s).
Definition set_receive_window_shrink_debt (s : StreamsState) (v : Z) : StreamsState :=
  mkStreamsState (side s) (send s) (recv s) (free_recv s) (next s) (max s) (max_remote s)
    (sent_max_remote s) (allocated_remote_count s) (max_concurrent_remote_count s)
    (flow_control_adjusted s) (next_remote s) (opened s) (next_reported_remote s) (send_streams
    s) (pending s) (events s) (connection_blocked s) (max_data s) (receive_window s)
    (local_max_data s) (sent_max_data s) (data_sent s) (data_recvd s) (unacked_data s)
    (send_window s) (stream_receive_window s) (initial_max_stream_data_uni s)
    (initial_max_stream_data_bidi_local s) (initial_max_stream_data_bidi_remote s) v
    (streams_blocked s).
Definition set_streams_blocked (s : StreamsState) (v : PerDir bool) : StreamsState :=
  mkStreamsState (side s) (send s) (recv s) (free_recv s) (next s) (max s) (max_remote s)
    (sent_max_remote s) (allocated_remote_count s) (max_concurrent_remote_count s)
    (flow_control_adjusted s) (next_remote s) (opened s) (next_reported_remote s) (send_streams
    s) (pending s) (events s) (connection_blocked s) (max_data s) (receive_window s)
    (local_max_data s) (sent_max_data s) (data_sent s) (data_recvd s) (unacked_data s)
    (send_window s) (stream_receive_window s) (initial_max_stream_data_uni s)
    (initial_max_stream_data_bidi_local s) (initial_max_stream_data_bidi_remote s)
    (receive_window_shrink_debt s) v.

(** * Stream entries *)

Definition as_open_recv (s : StreamRecv H) : option (Recv H) :=
  match s with Open r => Some r | Free _ => None end.
Definition into_inner_recv (s : StreamRecv H) : Recv H := match s with Open r | Free r => r end.
Definition free (s : StreamRecv H) (initial_max_data : Z) : M (StreamRecv H) :=
  match s with
  | Free _ => Panic
  | Open r => mret (Free (Recv_reinit r initial_max_data))
  end.

(** [get_or_insert_recv] and [get_or_insert_send]: the stream an entry stands
    for; the caller stores it back. *)
Definition get_or_insert_recv (initial_max_data : Z) (o : option (StreamRecv H)) : Recv H :=
  match o with
  | Some (Free r) | Some (Open r) => r
  | None => Recv_new initial_max_data
  end.
Definition get_or_insert_send (max_data : VarInt) (o : option Send) : Send :=
  match o with Some s => s | None => Send_new max_data end.

Definition put_recv (s : StreamsState) (id : StreamId) (r : Recv H) : StreamsState :=
  set_recv s (<[id := Some (Open r)]> (recv s)).
Definition put_send (s : StreamsState) (id : StreamId) (x : Send) : StreamsState :=
  set_send s (<[id := Some x]> (send s)).

(** [self.send.get_mut(&id).and_then(|s| s.as_mut())]. *)
Definition get_send (s : StreamsState) (id : StreamId) : option Send :=
  match send s !! id with Some (Some x) => Some x | _ => None end.
Definition get_open_recv (s : StreamsState) (id : StreamId) : option (Recv H) :=
  match recv s !! id with Some (Some x) => as_open_recv x | _ => None end.

(** * Bookkeeping *)

Definition insert (s : StreamsState) (remote : bool) (id : StreamId) : M StreamsState :=
  let bi := bool_decide (dir id = Bi) in
  s ← (if bi || negb remote then
         _ ← rassert (bool_decide (send s !! id = None));
         Ret (set_send s (<[id := None]> (send s)))
       else Ret s);
  if bi || remote then
    let r := last (free_recv s) in
    let s := set_free_recv s (removelast (free_recv s)) in
    _ ← rassert (bool_decide (recv s !! id = None));
    mret (set_recv s (<[id := r]> (recv s)))
  else mret s.

Definition ensure_remote_streams (s : StreamsState) (d : Dir) : M StreamsState :=
  let new_count := sat_sub (at_dir (max_concurrent_remote_count s) d) (at_dir (allocated_remote_count s) d) in
  let base := at_dir (max_remote s) d in
  s ← mfold (fun s i => insert s true (StreamId_new (Side_not (side s)) d (base + i))) (seqZ 0 new_count) s;
  a ← uadd (at_dir (allocated_remote_count s) d) new_count;
  let s := set_allocated_remote_count s (set_dir (allocated_remote_count s) d a) in
  m ← uadd (at_dir (max_remote s) d) new_count;
  mret (set_max_remote s (set_dir (max_remote s) d m)).

Definition stream_freed (s : StreamsState) (id : StreamId) (half : StreamHalf) : M StreamsState :=
  s ← (if negb (bool_decide (initiator id = side s)) then
         let fully_free := bool_decide (dir id = Uni) ||
           match half with
           | SendHalf => bool_decide (recv s !! id = None)
           | RecvHalf => bool_decide (send s !! id = None)
           end in
         if fully_free then
           n ← usub (at_dir (allocated_remote_count s) (dir id)) 1;
           ensure_remote_streams
             (set_allocated_remote_count s (set_dir (allocated_remote_count s) (dir id) n)) (dir id)
         else Ret s
       else Ret s);
  if decide (half = SendHalf) then n ← usub (send_streams s) 1; mret (set_send_streams s n)
  else mret s.

Definition stream_recv_freed (s : StreamsState) (id : StreamId) (r : StreamRecv H) : M StreamsState :=
  f ← free r (stream_receive_window s);
  stream_freed (set_free_recv s (free_recv s ++ [f])) id RecvHalf.

Definition max_send_data (s : StreamsState) (id : StreamId) : VarInt :=
  let remote := negb (bool_decide (side s = initiator id)) in
  match dir id with
  | Uni => initial_max_stream_data_uni s
  | Bi => if remote then initial_max_stream_data_bidi_local s else initial_max_stream_data_bidi_remote s
  end.

(** The value tells whether to send MAX_DATA. *)
Definition add_read_credits (s : StreamsState) (credits : Z) : M (ShouldTransmit * StreamsState) :=
  let s :=
    if receive_window_shrink_debt s <? credits then
      let net_credits := credits - receive_window_shrink_debt s in
      set_receive_window_shrink_debt (set_local_max_data s (sat_add (local_max_data s) net_credits)) 0
    else set_receive_window_shrink_debt s (receive_window_shrink_debt s - credits) in
  if into_inner VarInt_MAX <? local_max_data s then mret (false, s)
  else
    diff ← usub (local_max_data s) (into_inner (sent_max_data s));
    mret (receive_window s / 8 <=? diff, s).

Definition on_stream_frame (s : StreamsState) (notify_readable : bool) (id : StreamId) : StreamsState :=
  let notify s := set_events s (events s ++ [Readable id]) in
  if bool_decide (initiator id = side s) then if notify_readable then notify s else s
  else if at_dir (next_remote s) (dir id) <=? index id then
    set_opened (set_next_remote s (set_dir (next_remote s) (dir id) (index id + 1)))
      (set_dir (opened s) (dir id) true)
  else if notify_readable then notify s else s.

Definition validate_receive_id (s : StreamsState) (id : StreamId) : result TransportError unit :=
  if bool_decide (side s = initiator id) then
    match dir id with
    | Uni => Err (mkTransportError STREAM_STATE_ERROR)
    | Bi => if at_bi (next s) <=? index id then Err (mkTransportError STREAM_STATE_ERROR) else Ok tt
    end
  else if at_dir (max_remote s) (dir id) <=? index id then Err (mkTransportError STREAM_LIMIT_ERROR)
  else Ok tt.

Definition is_local_unopened (s : StreamsState) (id : StreamId) : bool :=
  at_dir (next s) (dir id) <=? index id.

Definition write_limit (s : StreamsState) : M Z :=
  n ← usub (max_data s) (data_sent s);
  mret (Z.min n (sat_sub (send_window s) (unacked_data s))).

(** Queue MAX_STREAMS frames when an eighth of the window has been consumed. *)
Definition queue_max_stream_id (s : StreamsState) (p : Retransmits) : M (bool * Retransmits) :=
  mfold (fun '(queued, p) d =>
    diff ← usub (at_dir (max_remote s) d) (at_dir (sent_max_remote s) d);
    mret (if at_dir (max_concurrent_remote_count s) d / 8 <? diff
          then (true, set_rt_max_stream_id p (set_dir (rt_max_stream_id p) d true))
          else (queued, p))) Dir_iter (false, p).

(** * Construction and configuration *)

Definition new (sd : Side) (max_remote_uni max_remote_bi : VarInt) (send_window : Z)
    (receive_window stream_receive_window : VarInt) : M StreamsState :=
  let counts := mkPerDir (into_inner max_remote_bi) (into_inner max_remote_uni) in
  let this := mkStreamsState sd ∅ ∅ [] (mkPerDir 0 0) (mkPerDir 0 0) counts counts counts counts false
    (mkPerDir 0 0) (mkPerDir false false) (mkPerDir 0 0) 0 queue_new [] [] 0
    (into_inner receive_window) (into_inner receive_window) receive_window 0 0 0 send_window
    (into_inner stream_receive_window) (mkVarInt 0) (mkVarInt 0) (mkVarInt 0) 0 (mkPerDir false false) in
  mfold (fun s d =>
    mfold (fun s i => insert s true (StreamId_new (Side_not sd) d i)) (seqZ 0 (at_dir (max_remote s) d)) s)
    Dir_iter this.

Definition received_max_data (s : StreamsState) (n : VarInt) : StreamsState :=
  set_max_data s (Z.max (max_data s) (into_inner n)).

(** The transport parameters [set_params] reads. *)
Record StreamParams : Type := mkStreamParams {
  p_max_stream_data_uni : VarInt; p_max_stream_data_bidi_local : VarInt;
  p_max_stream_data_bidi_remote : VarInt; p_max_streams_bidi : VarInt; p_max_streams_uni : VarInt;
  p_max_data : VarInt
}.

Definition set_params (s : StreamsState) (p : StreamParams) : StreamsState :=
  let s := set_initial_max_stream_data_uni s (p_max_stream_data_uni p) in
  let s := set_initial_max_stream_data_bidi_local s (p_max_stream_data_bidi_local p) in
  let s := set_initial_max_stream_data_bidi_remote s (p_max_stream_data_bidi_remote p) in
  let s := set_max s (mkPerDir (into_inner (p_max_streams_bidi p)) (into_inner (p_max_streams_uni p))) in
  let s := received_max_data s (p_max_data p) in
  fold_left (fun s i =>
    let id := StreamId_new (Side_not (side s)) Bi i in
    match get_send s id with
    | Some x => put_send s id (mkSend (into_inner (p_max_stream_data_bidi_local p)) (s_state x) (s_pending x)
                  (priority x) (fin_pending x) (s_connection_blocked x) (stop_reason x))
    | None => s
    end) (seqZ 0 (at_bi (max_remote s))) s.

Definition zero_rtt_rejected (s : StreamsState) : M StreamsState :=
  s ← mfold (fun s d =>
    s ← mfold (fun s i =>
      let id := StreamId_new (side s) d i in
      _ ← unwrap (send s !! id);
      let s := set_send s (delete id (send s)) in
      match d with
      | Bi => _ ← unwrap (recv s !! id); mret (set_recv s (delete id (recv s)))
      | Uni => mret s
      end) (seqZ 0 (at_dir (next s) d)) s;
    let s := set_next s (set_dir (next s) d 0) in
    mret (if flow_control_adjusted s then set_sent_max_remote s (set_dir (sent_max_remote s) d 0) else s))
    Dir_iter s;
  let s := set_pending s (queue_clear (pending s)) in
  let s := set_send_streams s 0 in
  let s := set_data_sent s 0 in
  mret (set_connection_blocked s []).

Definition set_max_concurrent (s : StreamsState) (d : Dir) (count : VarInt) : M StreamsState :=
  let s := set_flow_control_adjusted s true in
  let s := set_max_concurrent_remote_count s (set_dir (max_concurrent_remote_count s) d (into_inner count)) in
  ensure_remote_streams s d.

Definition max_concurrent (s : StreamsState) (d : Dir) : Z := at_dir (allocated_remote_count s) d.

Definition configure_send_window (s : StreamsState) (w : Z) : StreamsState := set_send_window s w.

(** [set_receive_window]; [true] when the window has been expanded. *)
Definition configure_receive_window (s : StreamsState) (w : VarInt) : bool * StreamsState :=
  let w := into_inner w in
  if receive_window s <? w then
    (true, set_receive_window (set_local_max_data s (sat_add (local_max_data s) (w - receive_window s))) w)
  else
    (false, set_receive_window (set_receive_window_shrink_debt s
       (sat_add (receive_window_shrink_debt s) (receive_window s - w))) w).

(** * Frames from the peer *)

Definition received (s : StreamsState) (frame : Stream) (payload_len : Z)
    : M (result TransportError ShouldTransmit * StreamsState) :=
  let id := st_id frame in
  match validate_receive_id s id with
  | Err e => mret (Err e, s)
  | Ok _ =>
      match recv s !! id with
      | None => mret (Ok false, s)
      | Some o =>
          let rs := get_or_insert_recv (stream_receive_window s) o in
          let s := put_recv s id rs in
          if negb (is_receiving rs) then mret (Ok false, s)
          else
            '(r, rs) ← ingest rs frame payload_len (data_recvd s) (local_max_data s);
            let s := put_recv s id rs in
            match r with
            | Err e => mret (Err e, s)
            | Ok (new_bytes, closed) =>
                let s := set_data_recvd s (sat_add (data_recvd s) new_bytes) in
                if negb (stopped rs) then mret (Ok false, on_stream_frame s true id)
                else
                  s ← (if (closed : bool) then
                         stream_recv_freed (set_recv s (delete id (recv s))) id (Open rs)
                       else Ret s);
                  '(t, s) ← add_read_credits s new_bytes;
                  mret (Ok t, s)
            end
      end
  end.

Definition received_reset (s : StreamsState) (frame : ResetStream)
    : M (result TransportError ShouldTransmit * StreamsState) :=
  let id := rs_id frame in
  let final := into_inner (rs_final_offset frame) in
  match validate_receive_id s id with
  | Err e => mret (Err e, s)
  | Ok _ =>
      match recv s !! id with
      | None => mret (Ok false, s)
      | Some o =>
          let rs := get_or_insert_recv (stream_receive_window s) o in
          '(r, rs) ← Recv_reset rs (rs_error_code frame) (rs_final_offset frame) (data_recvd s) (local_max_data s);
          let s := put_recv s id rs in
          match r with
          | Err e => mret (Err e, s)
          | Ok false => mret (Ok false, s)
          | Ok true =>
              let br := bytes_read (r_assembler rs) in
              let stop := stopped rs in
              let e := r_end rs in
              s ← (if stop then stream_recv_freed (set_recv s (delete id (recv s))) id (Open rs) else Ret s);
              let s := on_stream_frame s (negb stop) id in
              if negb (br =? final) then
                n ← usub final e;
                let s := set_data_recvd s (sat_add (data_recvd s) n) in
                c ← usub final br;
                '(t, s) ← add_read_credits s c;
                mret (Ok t, s)
              else mret (Ok false, s)
          end
      end
  end.

Definition received_stop_sending (s : StreamsState) (id : StreamId) (error_code : VarInt) : StreamsState :=
  match send s !! id with
  | None => s
  | Some o =>
      let stream := get_or_insert_send (max_send_data s id) o in
      let '(newly, stream) := try_stop stream error_code in
      let s := put_send s id stream in
      if newly then on_stream_frame (set_events s (events s ++ [Stopped id error_code])) false id else s
  end.

Definition reset_acked (s : StreamsState) (id : StreamId) : M StreamsState :=
  match send s !! id with
  | Some (Some x) =>
      if is_reset x then stream_freed (set_send s (delete id (send s))) id SendHalf else mret s
  | _ => mret s
  end.

Definition received_ack_of (s : StreamsState) (frame : StreamMeta) : M StreamsState :=
  let id := sm_id frame in
  match send s !! id with
  | Some (Some stream) =>
      if is_reset stream then mret s
      else
        n ← usub (rend (sm_offsets frame)) (rstart (sm_offsets frame));
        u ← usub (unacked_data s) n;
        let s := set_unacked_data s u in
        '(done, stream) ← Send_ack stream frame;
        let s := put_send s id stream in
        if negb done then mret s
        else
          s ← stream_freed (set_send s (delete id (send s))) id SendHalf;
          mret (set_events s (events s ++ [Finished id]))
  | _ => mret s
  end.

Definition retransmit (s : StreamsState) (frame : StreamMeta) : M StreamsState :=
  let id := sm_id frame in
  match get_send s id with
  | None => mret s
  | Some stream =>
      q ← (if negb (is_pending stream) then push_pending (pending s) id (priority stream) else Ret (pending s));
      b ← SendBuffer.retransmit (s_pending stream) (sm_offsets frame);
      let stream := mkSend (s_max_data stream) (s_state stream) b (priority stream)
        (fin_pending stream || sm_fin frame) (s_connection_blocked stream) (stop_reason stream) in
      mret (put_send (set_pending s q) id stream)
  end.

Definition retransmit_all_for_0rtt (s : StreamsState) : M StreamsState :=
  mfold (fun s d =>
    mfold (fun s i =>
      let id := StreamId_new Client d i in
      match get_send s id with
      | None => mret s
      | Some stream =>
          if is_fully_acked (s_pending stream) && negb (fin_pending stream) then mret s
          else
            q ← (if negb (is_pending stream) then push_pending (pending s) id (priority stream)
                 else Ret (pending s));
            b ← SendBuffer.retransmit_all_for_0rtt (s_pending stream);
            mret (put_send (set_pending s q) id (Send.set_pending stream b))
      end) (seqZ 0 (at_dir (next s) d)) s) Dir_iter s.

Definition received_max_streams (s : StreamsState) (d : Dir) (count : Z)
    : result TransportError unit * StreamsState :=
  if MAX_STREAM_COUNT <? count then (Err (mkTransportError FRAME_ENCODING_ERROR), s)
  else if at_dir (max s) d <? count then
    let s := set_max s (set_dir (max s) d count) in
    let s := set_streams_blocked s (set_dir (streams_blocked s) d false) in
    (Ok tt, set_events s (events s ++ [Available d]))
  else (Ok tt, s).

Definition received_max_stream_data (s : StreamsState) (id : StreamId) (offset : Z)
    : M (result TransportError unit * StreamsState) :=
  if negb (bool_decide (initiator id = side s)) && bool_decide (dir id = Uni)
  then mret (Err (mkTransportError STREAM_STATE_ERROR), s)
  else
    limit ← write_limit s;
    match send s !! id with
    | Some o =>
        let '(unblocked, ss) := increase_max_data (get_or_insert_send (max_send_data s id) o) offset in
        let s :=
          if unblocked then
            if 0 <? limit then set_events (put_send s id ss) (events s ++ [Writable id])
            else if negb (s_connection_blocked ss) then
              set_connection_blocked
                (put_send s id (mkSend (s_max_data ss) (s_state ss) (s_pending ss) (priority ss)
                   (fin_pending ss) true (stop_reason ss))) (connection_blocked s ++ [id])
            else put_send s id ss
          else put_send s id ss in
        mret (Ok tt, on_stream_frame s false id)
    | None =>
        if bool_decide (initiator id = side s) && is_local_unopened s id
        then mret (Err (mkTransportError STREAM_STATE_ERROR), s)
        else mret (Ok tt, on_stream_frame s false id)
    end.

(** * Sending *)

(** Whether any stream data is queued. *)
Definition can_send_stream_data (s : StreamsState) : bool :=
  existsb (fun p => match get_send s (ps_id p) with Some x => negb (is_reset x) | None => false end)
    (queue_iter (pending s)).

Definition stream_can_send_flow_control (s : StreamsState) (id : StreamId) : bool :=
  match get_open_recv s id with Some r => can_send_flow_control r | None => false end.

(** [write_control_frames], a block of frames at a time.  [Tx] is what it
    changes: the stream table, the frames queued, the frames the packet carries
    and the packet's buffer. *)
Record Tx : Type := mkTx {
  tx_streams : StreamsState; tx_pending : Retransmits; tx_sent : Retransmits; tx_buf : list Z }.

Definition tx_push (t : Tx) (s : StreamsState) (p sent : Retransmits) (frame : M (list Z)) : M Tx :=
  bs ← frame; mret (mkTx s p sent (tx_buf t ++ bs)).
Definition tx_drop (t : Tx) (p : Retransmits) : Tx := mkTx (tx_streams t) p (tx_sent t) (tx_buf t).

(** [queue] holds [pending.reset_stream] with its end first. *)
Fixpoint write_resets (queue : list (StreamId * VarInt)) (t : Tx) (max_size : Z) : M Tx :=
  if len (tx_buf t) + ResetStream_SIZE_BOUND <? max_size then
    match queue with
    | [] => mret t
    | (id, error_code) :: rest =>
        let p := set_rt_reset_stream (tx_pending t) (rev rest) in
        match get_send (tx_streams t) id with
        | None => write_resets rest (tx_drop t p) max_size
        | Some stream =>
            offset ← (match VarInt_from_u64 (s_offset stream) with Ok v => Ret v | Err _ => Panic end);
            let sent := set_rt_reset_stream (tx_sent t) (rt_reset_stream (tx_sent t) ++ [(id, error_code)]) in
            t ← tx_push t (tx_streams t) p sent (ResetStream_encode (mkResetStream id error_code offset));
            write_resets rest t max_size
        end
    end
  else mret t.

Fixpoint write_stop_sendings (queue : list StopSending) (t : Tx) (max_size : Z) : M Tx :=
  if len (tx_buf t) + StopSending_SIZE_BOUND <? max_size then
    match queue with
    | [] => mret t
    | frame :: rest =>
        let p := set_rt_stop_sending (tx_pending t) (rev rest) in
        let sent := set_rt_stop_sending (tx_sent t) (rt_stop_sending (tx_sent t) ++ [frame]) in
        t ← tx_push t (tx_streams t) p sent (StopSending_encode frame);
        write_stop_sendings rest t max_size
    end
  else mret t.

Definition write_max_data (t : Tx) (max_size : Z) : M Tx :=
  if rt_max_data (tx_pending t) && (len (tx_buf t) + 9 <? max_size) then
    let s := tx_streams t in
    let max := match VarInt_from_u64 (local_max_data s) with Ok v => v | Err _ => VarInt_MAX end in
    let s := if into_inner (sent_max_data s) <? into_inner max then set_sent_max_data s max else s in
    tx_push t s (set_rt_max_data (tx_pending t) false) (set_rt_max_data (tx_sent t) true)
      (encode MAX_DATA ⧺ VarInt_encode max)
  else mret t.

(** [iter().next()] of a [HashSet] gives some element; [pick] is that choice. *)
Fixpoint write_max_stream_datas (pick : gset StreamId → option StreamId) (fuel : nat) (t : Tx) (max_size : Z)
    : M Tx :=
  match fuel with
  | O => Panic
  | S fuel =>
      if len (tx_buf t) + 17 <? max_size then
        match pick (rt_max_stream_data (tx_pending t)) with
        | None => mret t
        | Some id =>
            let s := tx_streams t in
            let p := set_rt_max_stream_data (tx_pending t) (rt_max_stream_data (tx_pending t) ∖ {[id]}) in
            match get_open_recv s id with
            | None => write_max_stream_datas pick fuel (tx_drop t p) max_size
            | Some rs =>
                if negb (can_send_flow_control rs)
                then write_max_stream_datas pick fuel (tx_drop t p) max_size
                else
                  let sent := set_rt_max_stream_data (tx_sent t) ({[id]} ∪ rt_max_stream_data (tx_sent t)) in
                  '(max, _) ← max_stream_data rs (stream_receive_window s);
                  t ← tx_push t (put_recv s id (record_sent_max_stream_data rs max)) p sent
                        (encode MAX_STREAM_DATA ⧺ encode id ⧺ write_var max);
                  write_max_stream_datas pick fuel t max_size
            end
        end
      else mret t
  end.

Definition write_max_streams (t : Tx) (max_size : Z) (d : Dir) : M Tx :=
  let s := tx_streams t in
  if negb (at_dir (rt_max_stream_id (tx_pending t)) d) || (max_size <=? len (tx_buf t) + 9) then mret t
  else
    tx_push t (set_sent_max_remote s (set_dir (sent_max_remote s) d (at_dir (max_remote s) d)))
      (set_rt_max_stream_id (tx_pending t) (set_dir (rt_max_stream_id (tx_pending t)) d false))
      (set_rt_max_stream_id (tx_sent t) (set_dir (rt_max_stream_id (tx_sent t)) d true))
      (encode (match d with Uni => MAX_STREAMS_UNI | Bi => MAX_STREAMS_BIDI end)
       ⧺ write_var (at_dir (max_remote s) d)).

Definition write_streams_blocked (t : Tx) (max_size : Z) (d : Dir) : M Tx :=
  let blocked := at_dir (streams_blocked (tx_streams t)) d in
  let p := if blocked then set_rt_streams_blocked (tx_pending t)
                             (set_dir (rt_streams_blocked (tx_pending t)) d true) else tx_pending t in
  let s := if blocked then set_streams_blocked (tx_streams t)
                             (set_dir (streams_blocked (tx_streams t)) d false) else tx_streams t in
  if negb (at_dir (rt_streams_blocked p) d) || (max_size <=? len (tx_buf t) + 9)
  then mret (mkTx s p (tx_sent t) (tx_buf t))
  else
    tx_push t s (set_rt_streams_blocked p (set_dir (rt_streams_blocked p) d false))
      (set_rt_streams_blocked (tx_sent t) (set_dir (rt_streams_blocked (tx_sent t)) d true))
      (encode (match d with Uni => STREAMS_BLOCKED_UNI | Bi => STREAMS_BLOCKED_BIDI end)
       ⧺ write_var (at_dir (max s) d)).

(** [retransmits] is allocated by the first frame written; an empty one and
    none are the same here. *)
Definition write_control_frames (pick : gset StreamId → option StreamId) (s : StreamsState)
    (p : Retransmits) (retransmits : ThinRetransmits) (buf : list Z) (max_size : Z) : M Tx :=
  let t := mkTx s p (get_or_create retransmits) buf in
  t ← write_resets (rev (rt_reset_stream p)) t max_size;
  t ← write_stop_sendings (rev (rt_stop_sending p)) t max_size;
  t ← write_max_data t max_size;
  t ← write_max_stream_datas pick (S (size (rt_max_stream_data p))) t max_size;
  t ← mfold (fun t d => write_max_streams t max_size d) Dir_iter t;
  mfold (fun t d => write_streams_blocked t max_size d) Dir_iter t.

(** The loop of [write_stream_frames].  An iteration takes an entry off the queue
    and, when it puts the stream back, has written at least two bytes. *)
Fixpoint write_stream_frames_loop (fuel : nat) (s : StreamsState) (buf : list Z) (max_buf_size : Z)
    (fair : bool) (metas : list StreamMeta) : M (list StreamMeta * list Z * StreamsState) :=
  match fuel with
  | O => Panic
  | S fuel =>
      if len buf + Stream_SIZE_BOUND <? max_buf_size then
        match queue_pop (pending s) with
        | (None, _) => mret (metas, buf, s)
        | (Some p, q) =>
            let s := set_pending s q in
            let id := ps_id p in
            match get_send s id with
            | None => write_stream_frames_loop fuel s buf max_buf_size fair metas
            | Some stream =>
                if is_reset stream then write_stream_frames_loop fuel s buf max_buf_size fair metas
                else
                  n ← usub max_buf_size (len buf);
                  n ← usub n 1;
                  sz ← VarInt_size (mkVarInt (stream_id id));
                  n ← usub n sz;
                  '((offsets, encode_length), b) ← poll_transmit (s_pending stream) n;
                  let fin := (rend offsets =? SendBuffer.offset b) &&
                    match s_state stream with DataSent _ => true | _ => false end in
                  let stream := mkSend (s_max_data stream) (s_state stream) b (priority stream)
                    (if fin then false else fin_pending stream) (s_connection_blocked stream)
                    (stop_reason stream) in
                  q ← (if is_pending stream then
                         if fair then push_pending (pending s) id (priority stream)
                         else reinsert_pending (pending s) id (priority stream)
                       else Ret (pending s));
                  let s := put_send (set_pending s q) id stream in
                  let meta := mkStreamMeta id offsets fin in
                  hdr ← StreamMeta_encode meta encode_length;
                  data ← copy_loop (Z.to_nat (rend offsets - rstart offsets)) b offsets;
                  write_stream_frames_loop fuel s (buf ++ hdr ++ data) max_buf_size fair (metas ++ [meta])
            end
        end
      else mret (metas, buf, s)
  end.

Definition write_stream_frames (s : StreamsState) (buf : list Z) (max_buf_size : Z) (fair : bool)
    : M (list StreamMeta * list Z * StreamsState) :=
  write_stream_frames_loop
    (S (Z.to_nat (max_buf_size - len buf) + length (queue_iter (pending s)))) s buf max_buf_size fair [].

(** * Events *)

(** The loop of [poll] over the streams blocked on the connection. *)
Fixpoint poll_blocked (blocked_rev : list StreamId) (s : StreamsState)
    : M (option StreamEvent * StreamsState) :=
  match blocked_rev with
  | [] => mret (None, set_connection_blocked s [])
  | id :: rest =>
      match get_send s id with
      | None => poll_blocked rest s
      | Some stream =>
          _ ← rassert (s_connection_blocked stream);
          let stream := mkSend (s_max_data stream) (s_state stream) (s_pending stream) (priority stream)
            (fin_pending stream) false (stop_reason stream) in
          let s := put_send s id stream in
          if is_writable stream && (s_offset stream <? s_max_data stream)
          then mret (Some (Writable id), set_connection_blocked s (rev rest))
          else poll_blocked rest s
      end
  end.

Definition poll (s : StreamsState) : M (option StreamEvent * StreamsState) :=
  if at_bi (opened s) then mret (Some (Opened Bi), set_opened s (set_dir (opened s) Bi false))
  else if at_uni (opened s) then mret (Some (Opened Uni), set_opened s (set_dir (opened s) Uni false))
  else
    limit ← write_limit s;
    '(e, s) ← (if 0 <? limit then poll_blocked (rev (connection_blocked s)) s else Ret (None, s));
    match e with
    | Some e => mret (Some e, s)
    | None =>
        match events s with
        | [] => mret (None, s)
        | e :: rest => mret (Some e, set_events s rest)
        end
    end.

(** * The application's side *)

(** [Streams::open] and [Streams::accept]; [closed] is [conn_state.is_closed()]. *)
Definition open (s : StreamsState) (closed : bool) (d : Dir) : M (option StreamId * StreamsState) :=
  if closed then mret (None, s)
  else if at_dir (max s) d <=? at_dir (next s) d
  then mret (None, set_streams_blocked s (set_dir (streams_blocked s) d true))
  else
    n ← uadd (at_dir (next s) d) 1;
    let s := set_next s (set_dir (next s) d n) in
    let id := StreamId_new (side s) d (n - 1) in
    s ← insert s false id;
    c ← uadd (send_streams s) 1;
    mret (Some id, set_send_streams s c).

Definition accept (s : StreamsState) (d : Dir) : M (option StreamId * StreamsState) :=
  if at_dir (next_remote s) d =? at_dir (next_reported_remote s) d then mret (None, s)
  else
    let x := at_dir (next_reported_remote s) d in
    n ← uadd x 1;
    let s := set_next_reported_remote s (set_dir (next_reported_remote s) d n) in
    s ← (if decide (d = Bi) then c ← uadd (send_streams s) 1; Ret (set_send_streams s c) else Ret s);
    mret (Some (StreamId_new (Side_not (side s)) d x), s).

Definition remote_open_streams (s : StreamsState) (d : Dir) : M Z :=
  n ← usub (at_dir (max_remote s) d) (at_dir (allocated_remote_count s) d);
  usub (at_dir (next_remote s) d) n.

(** [RecvStream::stop]. *)
Definition stop_stream (s : StreamsState) (p : Retransmits) (id : StreamId) (error_code : VarInt)
    : M (result ClosedStream unit * StreamsState * Retransmits) :=
  match recv s !! id with
  | None => mret (Err mkClosedStream, s, p)
  | Some o =>
      '(r, stream) ← Recv.stop (get_or_insert_recv (stream_receive_window s) o);
      let s := put_recv s id stream in
      match r with
      | Err e => mret (Err e, s, p)
      | Ok (read_credits, stop_sending) =>
          let p := if (stop_sending : bool)
                   then set_rt_stop_sending p (rt_stop_sending p ++ [mkStopSending id error_code]) else p in
          s ← (if negb (final_offset_unknown stream)
               then stream_recv_freed (set_recv s (delete id (recv s))) id (Open stream) else Ret s);
          '(t, s) ← add_read_credits s read_credits;
          mret (Ok tt, s, if (t : bool) then set_rt_max_data p true else p)
      end
  end.

(** [RecvStream::received_reset]. *)
Definition poll_received_reset (s : StreamsState) (p : Retransmits) (id : StreamId)
    : M (result ClosedStream (option VarInt) * StreamsState * Retransmits) :=
  match recv s !! id with
  | None => mret (Err mkClosedStream, s, p)
  | Some o =>
      match o with
      | None | Some (Free _) => mret (Ok None, s, p)
      | Some (Open r) =>
          if stopped r then mret (Err mkClosedStream, s, p)
          else
            match reset_code r with
            | None => mret (Ok None, s, p)
            | Some code =>
                s ← stream_recv_freed (set_recv s (delete id (recv s))) id (Open r);
                '(_, p) ← queue_max_stream_id s p;
                mret (Ok (Some code), s, p)
            end
      end
  end.

(** [SendStream::write_source]. *)
Definition write_source {B} `{BytesSource B} (s : StreamsState) (closed : bool) (id : StreamId) (source : B)
    : M (result WriteError Written * StreamsState * B) :=
  if closed then mret (Err WriteBlocked, s, source)
  else
    limit ← write_limit s;
    match send s !! id with
    | None => mret (Err WriteClosedStream, s, source)
    | Some o =>
        let stream := get_or_insert_send (max_send_data s id) o in
        if limit =? 0 then
          let s :=
            if negb (s_connection_blocked stream) then
              set_connection_blocked
                (put_send s id (mkSend (s_max_data stream) (s_state stream) (s_pending stream)
                   (priority stream) (fin_pending stream) true (stop_reason stream)))
                (connection_blocked s ++ [id])
            else put_send s id stream in
          mret (Err WriteBlocked, s, source)
        else
          let was_pending := is_pending stream in
          '(r, stream, source) ← Send_write stream source limit;
          let s := put_send s id stream in
          match r with
          | Err e => mret (Err e, s, source)
          | Ok written =>
              d ← uadd (data_sent s) (w_bytes written);
              let s := set_data_sent s d in
              u ← uadd (unacked_data s) (w_bytes written);
              let s := set_unacked_data s u in
              q ← (if negb was_pending then push_pending (pending s) id (priority stream) else Ret (pending s));
              mret (Ok written, set_pending s q, source)
          end
    end.

(** [SendStream::finish]. *)
Definition finish_stream (s : StreamsState) (id : StreamId) : M (result FinishError unit * StreamsState) :=
  match send s !! id with
  | None => mret (Err FinishClosedStream, s)
  | Some o =>
      let stream := get_or_insert_send (max_send_data s id) o in
      let was_pending := is_pending stream in
      let '(r, stream) := finish stream in
      let s := put_send s id stream in
      match r with
      | Err e => mret (Err e, s)
      | Ok _ =>
          q ← (if negb was_pending then push_pending (pending s) id (priority stream) else Ret (pending s));
          mret (Ok tt, set_pending s q)
      end
  end.

(** [SendStream::reset]. *)
Definition reset_stream (s : StreamsState) (p : Retransmits) (id : StreamId) (error_code : VarInt)
    : M (result ClosedStream unit * StreamsState * Retransmits) :=
  match send s !! id with
  | None => mret (Err mkClosedStream, s, p)
  | Some o =>
      let stream := get_or_insert_send (max_send_data s id) o in
      let s := put_send s id stream in
      if is_reset stream then mret (Err mkClosedStream, s, p)
      else
        n ← unacked (s_pending stream);
        u ← usub (unacked_data s) n;
        let s := put_send (set_unacked_data s u) id (Send_reset stream) in
        mret (Ok tt, s, set_rt_reset_stream p (rt_reset_stream p ++ [(id, error_code)]))
  end.

(** [SendStream::stopped], [set_priority] and [priority]. *)
Definition stream_stopped (s : StreamsState) (id : StreamId) : result ClosedStream (option VarInt) :=
  match send s !! id with
  | Some (Some x) => Ok (stop_reason x)
  | Some None => Ok None
  | None => Err mkClosedStream
  end.
Definition set_priority (s : StreamsState) (id : StreamId) (p : Z) : result ClosedStream unit * StreamsState :=
  match send s !! id with
  | None => (Err mkClosedStream, s)
  | Some o =>
      let x := get_or_insert_send (max_send_data s id) o in
      (Ok tt, put_send s id (mkSend (s_max_data x) (s_state x) (s_pending x) p (fin_pending x)
                               (s_connection_blocked x) (stop_reason x)))
  end.
Definition get_priority (s : StreamsState) (id : StreamId) : result ClosedStream Z :=
  match send s !! id with
  | None => Err mkClosedStream
  | Some o => Ok (match o with Some x => priority x | None => 0 end)
  end.

(** * Reading *)

Inductive ReadableError : Type := ReadClosedStream | ReadIllegalOrdered.
Inductive ReadError : Type := ReadBlocked | ReadReset (error_code : VarInt).

Inductive ChunksState : Type :=
| ChReadable (r : Recv H)
| ChReset (error_code : VarInt)
| ChFinished
| ChFinalized.

(** [Chunks]; the stream table is threaded beside it. *)
Record Chunks : Type := mkChunks { ch_id : StreamId; ch_ordered : bool; ch_state : ChunksState; ch_read : Z }.

(** [Chunks::new].  The entry is removed from the table while it is being read;
    when [ensure_ordering] fails it is not put back. *)
Definition Chunks_new (s : StreamsState) (id : StreamId) (ordered : bool)
    : M (result ReadableError Chunks * StreamsState) :=
  match recv s !! id with
  | None => mret (Err ReadClosedStream, s)
  | Some o =>
      let r := get_or_insert_recv (stream_receive_window s) o in
      if stopped r then mret (Err ReadClosedStream, put_recv s id r)
      else
        let s := set_recv s (delete id (recv s)) in
        '(a, res) ← ensure_ordering (r_assembler r) ordered;
        match res with
        | Err _ => mret (Err ReadIllegalOrdered, s)
        | Ok _ =>
            let r := mkRecv (r_state r) a (sent_max_stream_data r) (r_end r) (stopped r) in
            mret (Ok (mkChunks id ordered (ChReadable r) 0), s)
        end
  end.

Definition Chunks_next (c : Chunks) (s : StreamsState) (max_length : Z)
    : M (result ReadError (option Chunk) * Chunks * StreamsState) :=
  match ch_state c with
  | ChReset error_code => mret (Err (ReadReset error_code), c, s)
  | ChFinished => mret (Ok None, c, s)
  | ChFinalized => Panic
  | ChReadable rs =>
      '(o, a) ← read (r_assembler rs) max_length (ch_ordered c);
      let rs := mkRecv (r_state rs) a (sent_max_stream_data rs) (r_end rs) (stopped rs) in
      match o with
      | Some chunk =>
          n ← uadd (ch_read c) (len (c_bytes chunk));
          mret (Ok (Some chunk), mkChunks (ch_id c) (ch_ordered c) (ChReadable rs) n, s)
      | None =>
          match r_state rs with
          | ResetRecvd _ error_code =>
              _ ← rassert (ch_read c =? 0);
              s ← stream_recv_freed s (ch_id c) (Open rs);
              mret (Err (ReadReset error_code),
                    mkChunks (ch_id c) (ch_ordered c) (ChReset error_code) (ch_read c), s)
          | Receiving size =>
              if bool_decide (size = Some (r_end rs)) && (bytes_read a =? r_end rs) then
                s ← stream_recv_freed s (ch_id c) (Open rs);
                mret (Ok None, mkChunks (ch_id c) (ch_ordered c) ChFinished (ch_read c), s)
              else
                mret (Err ReadBlocked, mkChunks (ch_id c) (ch_ordered c) (ChReadable rs) (ch_read c), s)
          end
      end
  end.

(** [Chunks::finalize_inner]. *)
Definition Chunks_finalize (c : Chunks) (s : StreamsState) (p : Retransmits)
    : M (ShouldTransmit * Chunks * StreamsState * Retransmits) :=
  let fin := mkChunks (ch_id c) (ch_ordered c) ChFinalized (ch_read c) in
  match ch_state c with
  | ChFinalized => mret (false, fin, s, p)
  | st =>
      '(t, p) ← queue_max_stream_id s p;
      '(t, s, p) ←
        (match st with
         | ChReadable rs =>
             '(_, m) ← max_stream_data rs (stream_receive_window s);
             let p := if (m : bool)
                      then set_rt_max_stream_data p ({[ch_id c]} ∪ rt_max_stream_data p) else p in
             Ret (t || m, put_recv s (ch_id c) rs, p)
         | _ => Ret (t, s, p)
         end);
      '(m, s) ← add_read_credits s (ch_read c);
      let p := set_rt_max_data p (rt_max_data p || m) in
      mret (t || m, fin, s, p)
  end.

End Streams.
Arguments StreamsState H : clear implicits.
Arguments Free {R}.
Arguments Open {R}.
Arguments mkStreamsState {H}.
Arguments side {H}.
Arguments send {H}.
Arguments recv {H}.
Arguments free_recv {H}.
Arguments next {H}.
Arguments max {H}.
Arguments max_remote {H}.
Arguments sent_max_remote {H}.
Arguments allocated_remote_count {H}.
Arguments max_concurrent_remote_count {H}.
Arguments flow_control_adjusted {H}.
Arguments next_remote {H}.
Arguments opened {H}.
Arguments next_reported_remote {H}.
Arguments send_streams {H}.
Arguments pending {H}.
Arguments events {H}.
Arguments connection_blocked {H}.
Arguments max_data {H}.
Arguments receive_window {H}.
Arguments local_max_data {H}.
Arguments sent_max_data {H}.
Arguments data_sent {H}.
Arguments data_recvd {H}.
Arguments unacked_data {H}.
Arguments send_window {H}.
Arguments stream_receive_window {H}.
Arguments initial_max_stream_data_uni {H}.
Arguments initial_max_stream_data_bidi_local {H}.
Arguments initial_max_stream_data_bidi_remote {H}.
Arguments receive_window_shrink_debt {H}.
Arguments streams_blocked {H}.
