(* ===== verification/StreamsInv.v ===== *)
(** What the stream table keeps true: [StreamsState] of
    [quic-proto/src/connection/streams/state.rs].

    The invariant has three parts: flow control counters ([flow_ok]), the set of
    streams in the table ([table_ok]) and the state of each stream
    ([entries_ok]).  Each part mentions only the fields it is about, so that an
    operation which leaves them alone preserves it by computation. *)
From stdpp Require Import gmap.
From S2P Require Import Prelude Coding RangeSet Ids Shared Frame SendBuffer Assembler AssemblerSpec AssemblerTheorems.
From S2P Require Import Recv Send PendingStreams Retransmits Streams.
Open Scope Z_scope.

(** * The streams in the table *)

(** How many of the peer's first [n] streams of a direction are in the table. *)
Definition live (sd : Side) (S R : gset StreamId) (n : Z) (d : Dir) : Z :=
  len (filter (fun i => StreamId_new (Side_not sd) d i ∈ S ∪ R) (seqZ 0 n)).

(** [nx], [mr] and [al] are [next], [max_remote] and [allocated_remote_count].
    The table holds only streams that we opened or that the peer may open, each
    half only where its direction has one, and the peer's allocation is the
    number of its streams that are still there. *)
Record table_ok (sd : Side) (S R : gset StreamId) (nx mr al : PerDir Z) : Prop := {
  t_send : ∀ id, id ∈ S → id_wf id ∧
    if decide (initiator id = sd) then index id < at_dir nx (dir id)
    else dir id = Bi ∧ index id < at_bi mr;
  t_recv : ∀ id, id ∈ R → id_wf id ∧
    if decide (initiator id = sd) then dir id = Bi ∧ index id < at_bi nx
    else index id < at_dir mr (dir id);
  t_bound : ∀ d, 0 <= at_dir nx d <= MAX_STREAM_COUNT ∧ 0 <= at_dir mr d <= MAX_STREAM_COUNT;
  t_live : ∀ d, at_dir al d = live sd S R (at_dir mr d) d
}.

Lemma at_set_dir {A} (p : PerDir A) d d' a : at_dir (set_dir p d a) d' = if decide (d = d') then a else at_dir p d'.
Proof. by destruct d, d'. Qed.
Lemma set_set_dir {A} (p : PerDir A) d a b : set_dir (set_dir p d a) d b = set_dir p d b.
Proof. by destruct d. Qed.
Lemma set_at_dir {A} (p : PerDir A) d : set_dir p d (at_dir p d) = p.
Proof. by destruct d, p. Qed.
Lemma Side_not_neq s : Side_not s ≠ s.
Proof. by destruct s. Qed.
Lemma Side_not_other s t : t ≠ s → t = Side_not s.
Proof. by destruct s, t. Qed.

Lemma max_stream_count : MAX_STREAM_COUNT = 2 ^ 60.
Proof. done. Qed.

Lemma remote_parts sd d n :
  0 <= n < MAX_STREAM_COUNT →
  initiator (StreamId_new (Side_not sd) d n) = Side_not sd ∧ dir (StreamId_new (Side_not sd) d n) = d ∧
  index (StreamId_new (Side_not sd) d n) = n ∧ id_wf (StreamId_new (Side_not sd) d n).
Proof.
  rewrite max_stream_count. intros Hn. destruct (StreamId_parts (Side_not sd) d n Hn) as (? & ? & ?).
  auto using StreamId_new_wf.
Qed.

Lemma index_nonneg id : id_wf id → 0 <= index id < MAX_STREAM_COUNT.
Proof.
  rewrite max_stream_count. unfold id_wf, index. intros Hid. rewrite Z.shiftr_div_pow2 by lia.
  change (2 ^ 2) with 4. split; [apply Z.div_pos; lia|apply Z.div_lt_upper_bound; lia].
Qed.

Lemma filter_ext {A} (P Q : A → Prop) `{∀ x, Decision (P x), ∀ x, Decision (Q x)} (l : list A) :
  (∀ x, x ∈ l → P x ↔ Q x) → filter P l = filter Q l.
Proof.
  induction l as [|x l IH]; intros He; [done|]. rewrite !filter_cons.
  rewrite IH by (intros; apply He; by right). specialize (He x ltac:(left)).
  repeat case_decide; tauto || done.
Qed.

Lemma live_ext sd S R S' R' n d :
  (∀ i, 0 <= i < n → StreamId_new (Side_not sd) d i ∈ S ∪ R ↔ StreamId_new (Side_not sd) d i ∈ S' ∪ R') →
  live sd S R n d = live sd S' R' n d.
Proof.
  intros He. unfold live. f_equal. apply filter_ext.
  intros i Hi%elem_of_seqZ. apply He. lia.
Qed.

Lemma live_snoc sd S R n d :
  0 <= n → StreamId_new (Side_not sd) d n ∈ S ∪ R → live sd S R (n + 1) d = live sd S R n d + 1.
Proof.
  intros Hn Hin. unfold live. rewrite seqZ_app by lia. rewrite filter_app, len_app, Z.add_0_l.
  rewrite (seqZ_cons n 1) by lia. rewrite filter_cons, decide_True by done.
  by rewrite (seqZ_nil (Z.succ n)) by lia.
Qed.

Lemma live_remove sd S R S' R' n d k :
  0 <= k < n → n <= MAX_STREAM_COUNT →
  StreamId_new (Side_not sd) d k ∈ S ∪ R →
  S' ∪ R' = (S ∪ R) ∖ {[StreamId_new (Side_not sd) d k]} →
  live sd S' R' n d = live sd S R n d - 1.
Proof.
  intros Hk Hn Hin He. rewrite max_stream_count in Hn.
  assert (Hsplit : seqZ 0 n = seqZ 0 k ++ [k] ++ seqZ (k + 1) (n - k - 1)).
  { replace n with (k + (1 + (n - k - 1))) at 1 by lia. by rewrite !seqZ_app by lia. }
  assert (Hne : ∀ i, 0 <= i < n → i ≠ k → StreamId_new (Side_not sd) d i ∈ S' ∪ R' ↔
                 StreamId_new (Side_not sd) d i ∈ S ∪ R).
  { intros i Hi Hik. rewrite He, elem_of_difference, elem_of_singleton. split; [tauto|].
    intros ?. split; [done|]. intros (_ & _ & ?)%StreamId_new_inj; lia. }
  unfold live. rewrite Hsplit, !filter_app, !len_app.
  rewrite !filter_cons, decide_False, decide_True by (done || rewrite He; clear; set_solver).
  rewrite (filter_ext (fun i => StreamId_new (Side_not sd) d i ∈ S' ∪ R')
    (fun i => StreamId_new (Side_not sd) d i ∈ S ∪ R) (seqZ 0 k)),
    (filter_ext (fun i => StreamId_new (Side_not sd) d i ∈ S' ∪ R')
    (fun i => StreamId_new (Side_not sd) d i ∈ S ∪ R) (seqZ (k + 1) (n - k - 1))).
  - rewrite !filter_nil. autorewrite with quac. lia.
  - intros i Hi%elem_of_seqZ. apply Hne; lia.
  - intros i Hi%elem_of_seqZ. apply Hne; lia.
Qed.

(** Changes of the table. *)
Lemma table_open sd S R nx mr al d :
  table_ok sd S R nx mr al → at_dir nx d < MAX_STREAM_COUNT →
  let id := StreamId_new sd d (at_dir nx d) in
  (id ∉ S) ∧ (id ∉ R) ∧
  table_ok sd ({[id]} ∪ S) (if decide (d = Bi) then {[id]} ∪ R else R) (set_dir nx d (at_dir nx d + 1)) mr al.
Proof.
  intros [Hs Hr Hb Hl] Hlt id. destruct (Hb d) as [Hn _]. rewrite max_stream_count in Hlt.
  destruct (StreamId_parts sd d (at_dir nx d)) as (Hi & Hd & Hx); [lia|].
  assert (Hwf : id_wf id) by (apply StreamId_new_wf; lia). fold id in Hi, Hd, Hx. clearbody id.
  assert (Hns : id ∉ S).
  { intros [_ H]%Hs. rewrite decide_True, Hd, Hx in H by done. lia. }
  assert (Hnr : id ∉ R).
  { intros [_ H]%Hr. rewrite decide_True, Hd, Hx in H by done. destruct H as [-> H]. simpl in *. lia. }
  split; [done|split; [done|]]. split.
  - intros id' [->%elem_of_singleton|[Hw Hid']%Hs]%elem_of_union.
    + split; [done|]. rewrite decide_True, Hd, Hx by done. rewrite at_set_dir. case_decide; [lia|done].
    + split; [done|]. case_decide; [|done]. rewrite at_set_dir. case_decide as E; [rewrite E; lia|done].
  - assert (Hold : ∀ id', id' ∈ R → id_wf id' ∧ if decide (initiator id' = sd)
      then dir id' = Bi ∧ index id' < at_bi (set_dir nx d (at_dir nx d + 1)) else index id' < at_dir mr (dir id')).
    { intros id' [Hw Hid']%Hr. split; [done|]. case_decide; [|done]. destruct Hid'. split; [done|].
      destruct d; simpl in *; lia. }
    case_decide as Hbi; [|done]. intros id' [->%elem_of_singleton|?]%elem_of_union; [|auto].
    split; [done|]. rewrite decide_True, Hx, Hd, Hbi by done. split; [done|]. simpl. lia.
  - intros d'. rewrite at_set_dir. specialize (Hb d'). rewrite max_stream_count in *. case_decide as E; [rewrite <- E in *|]; lia.
  - intros d'. rewrite Hl. apply live_ext. intros i Hi'. destruct (Hb d') as [_ Hmr].
    destruct (remote_parts sd d' i) as (Hi2 & _); [lia|].
    assert (StreamId_new (Side_not sd) d' i ≠ id).
    { intros Heq. rewrite Heq, Hi in Hi2. by apply (Side_not_neq sd). }
    case_decide; rewrite !elem_of_union, ?elem_of_singleton; tauto.
Qed.

Lemma table_insert_remote sd S R nx mr al d :
  table_ok sd S R nx mr al → at_dir mr d < MAX_STREAM_COUNT →
  let id := StreamId_new (Side_not sd) d (at_dir mr d) in
  (id ∉ S) ∧ (id ∉ R) ∧
  table_ok sd (if decide (d = Bi) then {[id]} ∪ S else S) ({[id]} ∪ R) nx
    (set_dir mr d (at_dir mr d + 1)) (set_dir al d (at_dir al d + 1)).
Proof.
  intros [Hs Hr Hb Hl] Hlt id. destruct (Hb d) as [_ Hn].
  destruct (remote_parts sd d (at_dir mr d)) as (Hi & Hd & Hx & Hwf); [lia|]. fold id in Hi, Hd, Hx, Hwf.
  assert (Hid : StreamId_new (Side_not sd) d (at_dir mr d) = id) by done. clearbody id.
  assert (Hrem : initiator id ≠ sd) by (rewrite Hi; apply Side_not_neq).
  assert (Hns : id ∉ S).
  { intros [_ H]%Hs. rewrite decide_False, Hd, Hx in H by done. destruct H as [-> H]. simpl in *. lia. }
  assert (Hnr : id ∉ R).
  { intros [_ H]%Hr. rewrite decide_False, Hd, Hx in H by done. lia. }
  split; [done|split; [done|]]. split.
  - assert (Hold : ∀ id', id' ∈ S → id_wf id' ∧ if decide (initiator id' = sd)
      then index id' < at_dir nx (dir id') else dir id' = Bi ∧ index id' < at_bi (set_dir mr d (at_dir mr d + 1))).
    { intros id' [Hw Hid']%Hs. split; [done|]. case_decide; [done|]. destruct Hid'. split; [done|].
      destruct d; simpl in *; lia. }
    case_decide as Hbi; [|done]. intros id' [->%elem_of_singleton|?]%elem_of_union; [|auto].
    split; [done|]. rewrite decide_False, Hx, Hd, Hbi by done. split; [done|]. simpl. lia.
  - intros id' [->%elem_of_singleton|[Hw Hid']%Hr]%elem_of_union.
    + split; [done|]. rewrite decide_False, Hd, Hx by done. rewrite at_set_dir. case_decide; [lia|done].
    + split; [done|]. case_decide; [done|]. rewrite at_set_dir. case_decide as E; [rewrite E; lia|done].
  - intros d'. rewrite at_set_dir. specialize (Hb d'). case_decide as E; [rewrite <- E in *|]; lia.
  - assert (Hne : ∀ d' i, 0 <= i < MAX_STREAM_COUNT → (d' ≠ d ∨ i ≠ at_dir mr d) → StreamId_new (Side_not sd) d' i ≠ id).
    { rewrite max_stream_count in *. rewrite <- Hid. intros d' i Hi' Hor (_ & ? & ?)%StreamId_new_inj; [|lia..].
      destruct Hor; congruence. }
    intros d'. rewrite !at_set_dir. destruct (Hb d') as [_ Hmr]. case_decide as Hdd.
    + destruct Hdd. rewrite live_snoc, Hl by (lia || (rewrite Hid; apply elem_of_union_r, elem_of_union_l; by apply elem_of_singleton)).
      f_equal. apply live_ext. intros i Hi'. specialize (Hne d i ltac:(lia) ltac:(right; lia)).
      case_decide; rewrite !elem_of_union, ?elem_of_singleton; tauto.
    + rewrite Hl. apply live_ext. intros i Hi'. specialize (Hne d' i ltac:(lia) ltac:(by left)).
      case_decide; rewrite !elem_of_union, ?elem_of_singleton; tauto.
Qed.

(** Dropping a half that leaves the peer's streams as they are. *)
Lemma table_drop sd S R S' R' nx mr al :
  table_ok sd S R nx mr al → S' ⊆ S → R' ⊆ R →
  (∀ id, initiator id ≠ sd → id ∈ S ∪ R → id ∈ S' ∪ R') →
  table_ok sd S' R' nx mr al.
Proof.
  intros [Hs Hr Hb Hl] HS HR Hsame. split; [auto..|]. intros d. rewrite Hl. apply live_ext. intros i Hi.
  destruct (Hb d) as [_ Hmr]. destruct (remote_parts sd d i) as (Hini & _); [lia|]. split.
  - apply Hsame. rewrite Hini. apply Side_not_neq.
  - rewrite !elem_of_union. intros [?|?]; [left|right]; auto.
Qed.

(** Removing one of the peer's streams altogether. *)
Lemma table_free sd S R S' R' nx mr al id :
  table_ok sd S R nx mr al → S' ⊆ S → R' ⊆ R → id ∈ S ∪ R → initiator id ≠ sd →
  S' ∪ R' = (S ∪ R) ∖ {[id]} →
  1 <= at_dir al (dir id) ∧
  table_ok sd S' R' nx mr (set_dir al (dir id) (at_dir al (dir id) - 1)).
Proof.
  intros Ht HS HR Hin Hrem He. destruct Ht as [Hs Hr Hb Hl].
  assert (id_wf id ∧ index id < at_dir mr (dir id)) as [Hwf Hlt].
  { apply elem_of_union in Hin as [[Hw Hx]%Hs|[Hw Hx]%Hr]; rewrite decide_False in Hx by done; [|done].
    destruct Hx as [-> ?]. done. }
  pose proof (index_nonneg id Hwf) as Hidx. pose proof (Side_not_other _ _ Hrem) as Hini.
  assert (Hid : StreamId_new (Side_not sd) (dir id) (index id) = id) by (rewrite <- Hini; by apply StreamId_eta).
  destruct (Hb (dir id)) as [_ Hmr].
  assert (Hone : live sd S' R' (at_dir mr (dir id)) (dir id) = at_dir al (dir id) - 1).
  { rewrite Hl. apply (live_remove sd S R S' R' _ (dir id) (index id)); rewrite ?Hid; done || lia. }
  split.
  { assert (0 <= live sd S' R' (at_dir mr (dir id)) (dir id)) by (unfold live; apply len_nonneg). lia. }
  split; [auto..|]. intros d. rewrite at_set_dir. case_decide as Hd; [by rewrite <- Hd|].
  rewrite Hl. apply live_ext. intros i Hi. destruct (Hb d) as [_ Hmr'].
  destruct (remote_parts sd d i) as (_ & Hdi & _); [lia|]. rewrite He, elem_of_difference, elem_of_singleton.
  split; [|tauto]. intros ?. split; [done|]. intros Heq. apply Hd. by rewrite <- Heq.
Qed.

(** * The state of each stream *)

Section Inv.
Context {H : Type} `{Heap H} (F : StreamId → Z → Z).

(** A receiving half, [w] being the configured window: within the offsets
    announced to the peer, which never exceed what was read plus the window. *)
Record recv_ok (w : Z) (id : StreamId) (r : Recv H) : Prop := {
  ro_asm : AssemblerSpec.inv (F id) (r_assembler r);
  ro_end : end_ (r_assembler r) <= r_end r;
  ro_sent : r_end r <= sent_max_stream_data r <= bytes_read (r_assembler r) + w;
  ro_final : ∀ f, final_offset r = Some f → r_end r <= f <= sent_max_stream_data r
}.

Definition entry_ok (w : Z) (id : StreamId) (e : StreamRecv H) : Prop :=
  match e with Free r => r = Recv_new w | Open r => recv_ok w id r end.

Definition send_ok (x : Send) : Prop := 0 <= s_offset x <= s_max_data x.

Record entries_ok (w : Z) (snd : gmap StreamId (option Send)) (rcv : gmap StreamId (option (StreamRecv H)))
    (fr : list (StreamRecv H)) : Prop := {
  e_send : ∀ id x, snd !! id = Some (Some x) → send_ok x;
  e_recv : ∀ id e, rcv !! id = Some (Some e) → entry_ok w id e;
  e_free : Forall (fun e => e = Free (Recv_new w)) fr
}.

(** * Flow control counters *)

Record flow_ok (s : StreamsState H) : Prop := {
  f_recvd : 0 <= data_recvd s <= local_max_data s;
  f_local : local_max_data s <= u64_max;
  f_sent_max : 0 <= into_inner (sent_max_data s) <= local_max_data s;
  f_sent : 0 <= data_sent s <= max_data s;
  f_windows : 0 <= receive_window s ∧ 0 <= stream_receive_window s ∧ 0 <= receive_window_shrink_debt s;
  f_params : 0 <= into_inner (initial_max_stream_data_uni s) ∧
    0 <= into_inner (initial_max_stream_data_bidi_local s) ∧
    0 <= into_inner (initial_max_stream_data_bidi_remote s);
  f_max : ∀ d, at_dir (max s) d <= MAX_STREAM_COUNT;
  f_concurrent : ∀ d, 0 <= at_dir (max_concurrent_remote_count s) d
}.

Definition table_of (s : StreamsState H) : Prop :=
  table_ok (side s) (dom (send s)) (dom (recv s)) (next s) (max_remote s) (allocated_remote_count s).
Definition entries_of (s : StreamsState H) : Prop :=
  entries_ok (stream_receive_window s) (send s) (recv s) (free_recv s).

Definition sinv (s : StreamsState H) : Prop := flow_ok s ∧ table_of s ∧ entries_of s.

Implicit Types s : StreamsState H.

Lemma recv_new_ok w id : 0 <= w → recv_ok w id (Recv_new w).
Proof. intros Hw. split; simpl; [apply inv_new|lia..|done]. Qed.

Lemma entry_recv_ok w id o :
  0 <= w → match o with Some e => entry_ok w id e | None => True end → recv_ok w id (get_or_insert_recv w o).
Proof. intros Hw. destruct o as [[r|r]|]; simpl; [intros ->|done|intros _]; by apply recv_new_ok. Qed.

Lemma entries_put_send w snd rcv fr id x :
  entries_ok w snd rcv fr → send_ok x → entries_ok w (<[id := Some x]> snd) rcv fr.
Proof. intros [? ? ?] Hx. split; try done. intros id' y [[<- [= <-]]|[? ?]]%lookup_insert_Some; eauto. Qed.
Lemma entries_put_recv w snd rcv fr id r :
  entries_ok w snd rcv fr → recv_ok w id r → entries_ok w snd (<[id := Some (Open r)]> rcv) fr.
Proof. intros [? ? ?] Hx. split; try done. intros id' y [[<- [= <-]]|[? ?]]%lookup_insert_Some; eauto. Qed.
Lemma entries_delete_send w snd rcv fr id :
  entries_ok w snd rcv fr → entries_ok w (delete id snd) rcv fr.
Proof. intros [? ? ?]. split; try done. intros id' y [? ?]%lookup_delete_Some; eauto. Qed.
Lemma entries_delete_recv w snd rcv fr id :
  entries_ok w snd rcv fr → entries_ok w snd (delete id rcv) fr.
Proof. intros [? ? ?]. split; try done. intros id' y [? ?]%lookup_delete_Some; eauto. Qed.

(** Storing a new state for a stream of the table. *)
Lemma put_send_inv s id x : sinv s → is_Some (send s !! id) → send_ok x → sinv (put_send s id x).
Proof.
  intros (Hf & Ht & He) Hin Hx. split; [by destruct Hf|]. split.
  - unfold table_of in *. simpl. by rewrite dom_insert_lookup_L.
  - by apply entries_put_send.
Qed.
Lemma put_recv_inv s id r :
  sinv s → is_Some (recv s !! id) → recv_ok (stream_receive_window s) id r → sinv (put_recv s id r).
Proof.
  intros (Hf & Ht & He) Hin Hx. split; [by destruct Hf|]. split.
  - unfold table_of in *. simpl. by rewrite dom_insert_lookup_L.
  - by apply entries_put_recv.
Qed.

(** * Opening and freeing streams *)

(** The table replaced, everything else kept. *)
Definition with_table s (A : gmap StreamId (option Send)) (B : gmap StreamId (option (StreamRecv H)))
    (C : list (StreamRecv H)) : StreamsState H := set_free_recv (set_recv (set_send s A) B) C.

Lemma insert_ok s remote id :
  entries_of s → send s !! id = None → recv s !! id = None →
  ∃ A B C, Streams.insert s remote id = Ret (with_table s A B C) ∧
    dom A = (if bool_decide (dir id = Bi) || negb remote then {[id]} ∪ dom (send s) else dom (send s)) ∧
    dom B = (if bool_decide (dir id = Bi) || remote then {[id]} ∪ dom (recv s) else dom (recv s)) ∧
    entries_ok (stream_receive_window s) A B C.
Proof.
  intros [Hes Her Hef] Hs Hr. unfold Streams.insert. set (b := bool_decide (dir id = Bi)).
  assert (Hfree : Forall (fun e => e = Free (Recv_new (stream_receive_window s))) (removelast (free_recv s)) ∧
    ∀ e, last (free_recv s) = Some e → e = Free (Recv_new (stream_receive_window s))).
  { destruct (free_recv s) as [|x l _] using rev_ind; [done|]. rewrite removelast_last, last_snoc.
    apply Forall_app in Hef as [? [Hx _]%Forall_cons]. split; [done|]. intros e He. congruence. }
  destruct Hfree as [Hfr Hlast].
  assert (Hsend : ∀ id' x, <[id := None]> (send s) !! id' = Some (Some x) → send_ok x).
  { intros id' x [[_ ?]|[? ?]]%lookup_insert_Some; [done|eauto]. }
  assert (Hrecv : ∀ id' e, <[id := last (free_recv s)]> (recv s) !! id' = Some (Some e) →
    entry_ok (stream_receive_window s) id' e).
  { intros id' e [[<- He]|[? ?]]%lookup_insert_Some; [|eauto]. by rewrite (Hlast e He). }
  rewrite (bool_decide_true (send s !! id = None)) by done.
  destruct (b || negb remote) eqn:E1; cbn [rassert mbind M_bind];
    (destruct (b || remote) eqn:E2;
     [cbn [recv set_send set_free_recv free_recv]; rewrite bool_decide_true by done; cbn [rassert mbind M_bind]|]).
  - exists (<[id:=None]> (send s)), (<[id:=last (free_recv s)]> (recv s)), (removelast (free_recv s)).
    by rewrite !dom_insert_L.
  - exists (<[id:=None]> (send s)), (recv s), (free_recv s). rewrite !dom_insert_L. by destruct s.
  - exists (send s), (<[id:=last (free_recv s)]> (recv s)), (removelast (free_recv s)).
    by rewrite !dom_insert_L.
  - by destruct b, remote.
Qed.

(** The loops that let the peer open [k] more streams; [g] computes the
    identifiers, [mr] and [al] are the counts before. *)
Lemma insert_remote_loop (g : StreamsState H → Z → StreamId) s d base mr al a0 i k :
  (∀ s' j, side s' = side s → g s' j = StreamId_new (Side_not (side s)) d (base + j)) →
  entries_of s → 0 <= k → 0 <= i → base + i + k <= MAX_STREAM_COUNT →
  table_ok (side s) (dom (send s)) (dom (recv s)) (next s) (set_dir mr d (base + i)) (set_dir al d (a0 + i)) →
  ∃ A B C, mfold (fun s i => Streams.insert s true (g s i)) (seqZ i k) s = Ret (with_table s A B C) ∧
    table_ok (side s) (dom A) (dom B) (next s) (set_dir mr d (base + i + k)) (set_dir al d (a0 + i + k)) ∧
    entries_ok (stream_receive_window s) A B C.
Proof.
  intros Hg He Hk. revert s i Hg He. pattern k. apply natlike_ind; [| |done]; clear k Hk.
  - intros s i Hg He Hi Hb Ht. rewrite seqZ_nil by lia. exists (send s), (recv s), (free_recv s).
    rewrite !Z.add_0_r. split; [by destruct s|done].
  - intros k Hk IH s i Hg He Hi Hb Ht. rewrite seqZ_cons by lia. rewrite Z.pred_succ. cbn [mfold].
    destruct (table_insert_remote _ _ _ _ _ _ d Ht) as (Hns & Hnr & Ht'); [rewrite at_set_dir, decide_True by done; lia|].
    rewrite !at_set_dir, !decide_True, !set_set_dir in * by done.
    apply not_elem_of_dom in Hns, Hnr. destruct (t_bound _ _ _ _ _ _ Ht d) as [_ Hbi].
    rewrite at_set_dir, decide_True in Hbi by done. rewrite (Hg s i eq_refl).
    destruct (remote_parts (side s) d (base + i)) as (_ & Hd & _); [lia|].
    destruct (insert_ok s true _ He Hns Hnr) as (A & B & C & -> & HA & HB & He').
    rewrite Hd, orb_true_r in *. cbn [negb] in HA. rewrite orb_false_r in HA. cbn [mbind M_bind].
    destruct (IH (with_table s A B C) (i + 1)) as (A' & B' & C' & HR & Ht'' & He''); [done|done|lia|lia| |].
    { simpl. rewrite HA, HB. rewrite !Z.add_assoc. by repeat case_bool_decide; repeat case_decide. }
    exists A', B', C'. split; [done|]. split; [|done]. simpl in Ht''.
    by rewrite <- !Z.add_assoc, (Z.add_1_l k) in *.
Qed.

(** [ensure_remote_streams] fills the peer's allocation up to the window. *)
Lemma ensure_ok s d :
  entries_of s → table_of s → (∀ d, 0 <= at_dir (max_concurrent_remote_count s) d) →
  at_dir (max_remote s) d + at_dir (max_concurrent_remote_count s) d <= MAX_STREAM_COUNT →
  ∃ A B C mr al, ensure_remote_streams s d =
      Ret (set_max_remote (set_allocated_remote_count (with_table s A B C) al) mr) ∧
    table_ok (side s) (dom A) (dom B) (next s) mr al ∧ entries_ok (stream_receive_window s) A B C ∧
    at_dir al d = Z.max (at_dir (allocated_remote_count s) d) (at_dir (max_concurrent_remote_count s) d).
Proof.
  intros He Ht Hc Hroom. unfold ensure_remote_streams.
  set (n := sat_sub _ _). pose proof (t_bound _ _ _ _ _ _ Ht d) as [_ Hmr].
  assert (Hal : 0 <= at_dir (allocated_remote_count s) d).
  { rewrite (t_live _ _ _ _ _ _ Ht d). apply len_nonneg. }
  assert (Hn : 0 <= n ∧ n <= at_dir (max_concurrent_remote_count s) d ∧ at_dir (allocated_remote_count s) d + n =
    Z.max (at_dir (allocated_remote_count s) d) (at_dir (max_concurrent_remote_count s) d)).
  { specialize (Hc d). unfold n, sat_sub. zcases; lia. }
  assert (Halmr : at_dir (allocated_remote_count s) d <= at_dir (max_remote s) d).
  { rewrite (t_live _ _ _ _ _ _ Ht d). unfold live, len.
    pose proof (length_filter (fun i => StreamId_new (Side_not (side s)) d i ∈ dom (send s) ∪ dom (recv s))
      (seqZ 0 (at_dir (max_remote s) d))) as Hle. rewrite length_seqZ in Hle. lia. }
  destruct (insert_remote_loop (fun s0 i => StreamId_new (Side_not (side s0)) d (at_dir (max_remote s) d + i))
    s d (at_dir (max_remote s) d) (max_remote s) (allocated_remote_count s)
    (at_dir (allocated_remote_count s) d) 0 n) as (A & B & C & Hloop & Ht' & He'); [by intros s0 j ->|done|lia..| |].
  { rewrite !Z.add_0_r, !set_at_dir. exact Ht. }
  rewrite Hloop.
  cbn [mbind M_bind]. rewrite max_stream_count in *.
  do 2 (rewrite uadd_ok by (simpl; unfold u64_max; lia); cbn [mbind M_bind]).
  eexists A, B, C, _, _. split; [reflexivity|]. rewrite !Z.add_0_r in Ht'. split; [exact Ht'|].
  split; [done|]. simpl. rewrite at_set_dir, decide_True by done. lia.
Qed.

(** Room for another window of the peer's streams. *)
Definition room s : Prop :=
  ∀ d, at_dir (max_remote s) d + at_dir (max_concurrent_remote_count s) d <= MAX_STREAM_COUNT.

Definition with_remote s A B C (mr al : PerDir Z) : StreamsState H :=
  set_max_remote (set_allocated_remote_count (with_table s A B C) al) mr.

Definition half_of {A} (half : StreamHalf) (snd rcv : A) : A :=
  match half with SendHalf => snd | RecvHalf => rcv end.

(** [stream_freed] after a half of stream [id] has been taken out of the table;
    [S] and [R] are the streams before. *)
Lemma stream_freed_ok s id half S R :
  entries_of s → (∀ d, 0 <= at_dir (max_concurrent_remote_count s) d) → room s →
  table_ok (side s) S R (next s) (max_remote s) (allocated_remote_count s) → id ∈ half_of half S R →
  dom (send s) = half_of half (S ∖ {[id]}) S → dom (recv s) = half_of half R (R ∖ {[id]}) →
  ∃ A B C mr al, table_ok (side s) (dom A) (dom B) (next s) mr al ∧
    entries_ok (stream_receive_window s) A B C ∧
    stream_freed s id half =
      if decide (half = SendHalf)
      then n ← usub (send_streams s) 1; mret (set_send_streams (with_remote s A B C mr al) n)
      else mret (with_remote s A B C mr al).
Proof.
  intros He Hc Hroom Ht Hin HS HR. unfold stream_freed.
  assert (Hsub : dom (send s) ⊆ S ∧ dom (recv s) ⊆ R)
    by (rewrite HS, HR; destruct half; simpl; split; clear; set_solver).
  destruct Hsub as [HsubS HsubR].
  assert (Hother : initiator id ≠ side s → bool_decide (dir id = Uni) ||
      match half with SendHalf => bool_decide (recv s !! id = None)
                    | RecvHalf => bool_decide (send s !! id = None) end =
    bool_decide (id ∉ dom (send s) ∪ dom (recv s))).
  { intros Hrem. apply eq_iff_eq_true. rewrite orb_true_iff, !bool_decide_eq_true.
    rewrite not_elem_of_union, !not_elem_of_dom. destruct half; simpl in *; rewrite bool_decide_eq_true.
    - assert (send s !! id = None) by (apply not_elem_of_dom; rewrite HS; clear; set_solver).
      destruct (t_send _ _ _ _ _ _ Ht id Hin) as [_ Hx]. rewrite decide_False in Hx by done.
      destruct Hx as [-> _]. intuition congruence.
    - assert (recv s !! id = None) by (apply not_elem_of_dom; rewrite HR; clear; set_solver).
      split; [|tauto]. intros [Hu|?]; [|done]. split; [|done]. apply not_elem_of_dom. intros Hs.
      rewrite HS in Hs. destruct (t_send _ _ _ _ _ _ Ht id Hs) as [_ Hx]. rewrite decide_False in Hx by done.
      destruct Hx. congruence. }
  assert (Hkeep : table_of s → ∃ A B C mr al, table_ok (side s) (dom A) (dom B) (next s) mr al ∧
    entries_ok (stream_receive_window s) A B C ∧ s = with_remote s A B C mr al).
  { intros Ht'. exists (send s), (recv s), (free_recv s), (max_remote s), (allocated_remote_count s).
    split; [done|]. split; [done|]. by destruct s. }
  assert (Hunion : initiator id = side s ∨ id ∈ dom (send s) ∪ dom (recv s) → table_of s).
  { intros Hor. apply (table_drop _ _ _ _ _ _ _ _ Ht HsubS HsubR). intros id' Hrem Hid'.
    destruct (decide (id' = id)) as [->|Hne]; [by destruct Hor|]. rewrite HS, HR.
    destruct half; simpl; clear -Hid' Hne; set_solver. }
  destruct (bool_decide_reflect (initiator id = side s)) as [Hloc|Hrem]; cbn [negb mbind M_bind].
  { destruct Hkeep as (A & B & C & mr & al & Ht' & He' & Heq); [auto|]. exists A, B, C, mr, al.
    split; [done|]. split; [done|]. by rewrite <- Heq. }
  rewrite (Hother Hrem). destruct (bool_decide_reflect (id ∉ dom (send s) ∪ dom (recv s))) as [Hgone|Hleft];
    cycle 1.
  { apply dec_stable in Hleft. destruct Hkeep as (A & B & C & mr & al & Ht' & He' & Heq); [auto|].
    exists A, B, C, mr, al. split; [done|]. split; [done|]. cbn [mbind M_bind]. by rewrite <- Heq. }
  destruct (table_free _ S R (dom (send s)) (dom (recv s)) _ _ _ id Ht) as [Hal Ht']; try done.
  { destruct half; simpl in Hin; clear -Hin; set_solver. }
  { rewrite HS, HR in *. destruct half; simpl in *; clear -Hgone; set_solver. }
  rewrite usub_ok by lia. cbn [mbind M_bind]. set (s1 := set_allocated_remote_count s _).
  destruct (ensure_ok s1 (dir id)) as (A & B & C & mr & al & -> & Ht'' & He'' & _); try done.
  exists A, B, C, mr, al. by split_and!.
Qed.

(** The invariant with the table, the allocation and the counters replaced. *)
Lemma with_remote_inv s A B C mr al :
  flow_ok s → table_ok (side s) (dom A) (dom B) (next s) mr al →
  entries_ok (stream_receive_window s) A B C → sinv (with_remote s A B C mr al).
Proof. intros Hf Ht He. split; [by destruct Hf|by split]. Qed.

Lemma send_freed_inv s id s' :
  sinv s → room s → is_Some (send s !! id) →
  stream_freed (set_send s (delete id (send s))) id SendHalf = Ret s' → sinv s'.
Proof.
  intros (Hf & Ht & He) Hroom Hin Hfreed.
  destruct (stream_freed_ok (set_send s (delete id (send s))) id SendHalf (dom (send s)) (dom (recv s)))
    as (A & B & C & mr & al & Ht' & He' & Hop); try done; simpl.
  - by apply entries_delete_send.
  - apply Hf.
  - by apply elem_of_dom.
  - apply dom_delete_L.
  - rewrite Hop in Hfreed. cbn [decide] in Hfreed. rewrite decide_True in Hfreed by done. inv_M.
    split; [by destruct Hf|by split].
Qed.

(** The receiving half of [id], which is in hand and no longer in the table, is
    recycled.  [s] with the stream put back satisfies the invariant. *)
Lemma recv_freed_inv s id r :
  sinv (put_recv s id r) → recv s !! id = None → room s →
  ∃ A B C mr al, stream_recv_freed s id (Open r) = Ret (with_remote s A B C mr al) ∧
    sinv (with_remote s A B C mr al).
Proof.
  intros (Hf & Ht & He) Hnone Hroom.
  set (s1 := set_free_recv s (free_recv s ++ [Free (Recv_reinit r (stream_receive_window s))])).
  change (stream_recv_freed s id (Open r)) with (stream_freed s1 id RecvHalf). unfold table_of in Ht. simpl in Ht. rewrite dom_insert_L in Ht.
  assert (He1 : entries_of s1).
  { destruct He as [Hes Her Hef]. simpl in *. split; simpl; [done| |].
    - intros id' e Hl. apply Her. rewrite lookup_insert_ne; [done|]. intros ->. congruence.
    - apply Forall_app. split; [done|]. by constructor. }
  destruct (stream_freed_ok s1 id RecvHalf (dom (send s)) ({[id]} ∪ dom (recv s)))
    as (A & B & C & mr & al & Ht' & He' & Hop); try done; simpl.
  - apply Hf.
  - clear. set_solver.
  - apply not_elem_of_dom in Hnone. clear -Hnone. set_solver.
  - exists A, B, C, mr, al. rewrite Hop. split; [done|]. apply with_remote_inv; [by destruct Hf|done..].
Qed.
End Inv.
