(* ===== verification/StreamsOps.v ===== *)
(** Every operation of the stream table keeps its invariant: the operations of
    [Streams.v] against [StreamsInv.v]. *)
From stdpp Require Import gmap.
From S2P Require Import Prelude Coding RangeSet Ids Shared Frame SendBuffer Assembler AssemblerSpec AssemblerTheorems.
From S2P Require Import Recv Send PendingStreams Retransmits Streams StreamsInv.
Open Scope Z_scope.

(** Setters of fields the invariant does not mention. *)
Ltac keep_inv Hs :=
  let Hf := fresh "Hf" in let Ht := fresh "Ht" in let He := fresh "He" in
  destruct Hs as (Hf & Ht & He);
  split; [destruct Hf; split; assumption|split; [exact Ht|exact He]].

(** Take apart [op = Ret _]. *)
Ltac ret_inv :=
  repeat first
  [ match goal with
    | H : @mret M _ _ _ = Ret _ |- _ => unfold mret, M_ret in H
    | H : _ ≫= _ = Ret _ |- _ =>
        let a := fresh "a" in let Ha := fresh "Ha" in apply M_bind_ret in H as (a & Ha & H)
    | H : match ?p with (_, _) => _ end = Ret _ |- _ => is_var p; destruct p
    end
  | progress simplify_eq ].

Section Ops.
Context {H : Type} `{Heap H} (F : StreamId → Z → Z).
Implicit Types (s : StreamsState H) (r : Recv H).
Abbreviation sinv := (sinv F).
Abbreviation recv_ok := (recv_ok F).

(** * The receiving half *)

Lemma inv_clear f (a : Assembler H) : AssemblerSpec.inv f a → AssemblerSpec.inv f (clear a).
Proof.
  intros [Hb Hbf Hal Halm Hrd Hen Hn Hu].
  assert (Hnil : bufs (clear a) = []) by (unfold bufs; simpl; apply helems_empty).
  split; rewrite ?Hnil; simpl; try done.
  intros recvd Hst. destruct (Hu recvd Hst) as (Hw & Hre & Hone & Hsub & Hsz).
  split; [done|]. split; [done|]. split; [intros x; rewrite cnt_nil; lia|].
  split; [intros x; rewrite cnt_nil; lia|]. pose proof (sum_len_nonneg (bufs a)). lia.
Qed.

(** What the peer may send: the bytes of its stream, within the memory and the
    offsets of [AssemblerSpec.v].  An unordered reader gets no empty frames, and a
    FIN is not below data already received. *)
Record frame_ok (r : Recv H) (frame : Stream) (payload_len : Z) : Prop := {
  fo_id : id_wf (st_id frame);
  fo_offset : 0 <= st_offset frame;
  fo_data : st_data frame = slice (F (st_id frame)) (st_offset frame) (len (st_data frame));
  fo_max : st_offset frame + len (st_data frame) <= max_stream;
  fo_payload : len (st_data frame) <= payload_len;
  fo_memory : allocated (r_assembler r) + payload_len * len (st_data frame) <= u64_max;
  fo_nonempty : is_ordered (Assembler.state (r_assembler r)) = true ∨ 0 < len (st_data frame);
  fo_fin : st_fin frame = true → r_end r <= st_offset frame + len (st_data frame)
}.

Lemma assembler_insert_any f (a : Assembler H) o bytes alloc :
  AssemblerSpec.inv f a → bytes = slice f o (len bytes) → 0 <= o → o + len bytes <= max_stream →
  len bytes <= alloc → allocated a + alloc * len bytes <= u64_max →
  (is_ordered (Assembler.state a) = true ∨ 0 < len bytes) →
  ∃ a', Assembler.insert a o bytes alloc = Ret a' ∧ AssemblerSpec.inv f a' ∧ bytes_read a' = bytes_read a ∧
    end_ a' = Z.max (end_ a) (o + len bytes).
Proof.
  intros Hi Hb Ho Hm Hl Hal Hor. destruct (Assembler.state a) as [|recvd] eqn:Hst.
  - destruct (insert_ordered_ok f a o bytes alloc) as (a' & ? & ? & _ & ? & ? & _); eauto.
  - destruct Hor as [|Hpos]; [done|].
    destruct (insert_unordered_ok f a recvd o bytes alloc) as (a' & ? & ? & _ & ? & ? & _); eauto.
Qed.

(** The checks of RFC 9000 on a STREAM or RESET_STREAM frame that takes the
    stream up to offset [stop]; [received] and [limit] are the connection's
    counters. *)
Definition over_limit r (stop received limit : Z) : bool :=
  (sent_max_stream_data r <? stop) || (limit <? received + Z.max 0 (stop - r_end r)).

Lemma credit_consumed_ok w id r stop received limit :
  recv_ok w id r → 0 <= received <= limit → limit <= u64_max - 2 ^ 62 → stop < 2 ^ 62 →
  credit_consumed_by r stop received limit =
  Ret (if over_limit r stop received limit then Err (mkTransportError FLOW_CONTROL_ERROR)
       else Ok (Z.max 0 (stop - r_end r))).
Proof.
  intros Hr Hrec Hlim Hstop. unfold credit_consumed_by, over_limit.
  assert (Hsat : sat_sub stop (r_end r) = Z.max 0 (stop - r_end r)) by (unfold sat_sub; zcases; lia).
  assert (0 <= r_end r).
  { destruct Hr as [Hi He _ _]. pose proof (i_read _ _ Hi). lia. }
  rewrite Hsat. destruct (Z.ltb_spec (sent_max_stream_data r) stop); [done|].
  rewrite uadd_ok by lia. done.
Qed.

Definition final_size_violated r (stop : Z) (fin : bool) : bool :=
  match final_offset r with Some f => (f <? stop) || (fin && negb (stop =? f)) | None => false end.

(** The verdict on a STREAM frame for a stream that is still receiving: the error,
    or the number of bytes it adds. *)
Definition frame_verdict r (frame : Stream) (received limit : Z) : result TransportError Z :=
  let stop := st_offset frame + len (st_data frame) in
  if 2 ^ 62 <=? stop then Err (mkTransportError FLOW_CONTROL_ERROR)
  else if final_size_violated r stop (st_fin frame) then Err (mkTransportError FINAL_SIZE_ERROR)
  else if over_limit r stop received limit then Err (mkTransportError FLOW_CONTROL_ERROR)
  else Ok (Z.max 0 (stop - r_end r)).

Lemma ingest_ok w r frame payload_len received limit :
  recv_ok w (st_id frame) r → frame_ok r frame payload_len → is_receiving r = true →
  0 <= received <= limit → limit <= u64_max - 2 ^ 62 →
  match frame_verdict r frame received limit with
  | Err e => ingest r frame payload_len received limit = Ret (Err e, r)
  | Ok n => ∃ r', ingest r frame payload_len received limit = Ret (Ok (n, st_fin frame && stopped r), r') ∧
      recv_ok w (st_id frame) r' ∧ stopped r' = stopped r ∧ r_end r' = r_end r + n ∧
      bytes_read (r_assembler r') = bytes_read (r_assembler r) ∧ received + n <= limit
  end.
Proof.
  intros Hr Hfr Hrecv Hrec Hlim. pose proof Hr as [Hi He Hs Hfin]. pose proof Hfr as [Hid Ho Hd Hm Hp Hmem Hor Hnf].
  unfold frame_verdict, ingest. pose proof (len_nonneg (st_data frame)).
  rewrite uadd_ok by (unfold max_stream, u64_max in *; lia). cbn [mbind M_bind].
  set (stop := st_offset frame + len (st_data frame)) in *.
  destruct (Z.leb_spec (2 ^ 62) stop); [done|]. unfold final_size_violated.
  destruct (match final_offset r with Some _ => _ | None => _ end) eqn:Hv; [done|].
  rewrite (credit_consumed_ok w (st_id frame)) by done. cbn [mbind M_bind].
  destruct (over_limit r stop received limit) eqn:Hover; [done|].
  apply orb_false_iff in Hover as [Ho1%Z.ltb_ge Ho2%Z.ltb_ge].
  assert (Hins : ∃ a, (if stopped r then Ret (r_assembler r)
      else Assembler.insert (r_assembler r) (st_offset frame) (st_data frame) payload_len) = Ret a ∧
    AssemblerSpec.inv (F (st_id frame)) a ∧ bytes_read a = bytes_read (r_assembler r) ∧
    end_ a <= Z.max (end_ (r_assembler r)) stop).
  { destruct (stopped r); [exists (r_assembler r); split_and!; auto; lia|].
    destruct (assembler_insert_any (F (st_id frame)) (r_assembler r) (st_offset frame) (st_data frame) payload_len)
      as (a & -> & Ha & Hbr & Hen); try done. exists a. split_and!; auto. rewrite Hen. unfold stop. lia. }
  destruct Hins as (a & -> & Ha & Hbr & Hen). cbn [mbind M_bind]. eexists. split; [reflexivity|].
  split; [|simpl; split_and!; auto; lia]. unfold is_receiving in Hrecv.
  split; simpl; [done|lia|rewrite Hbr; lia|]. unfold final_offset in *. simpl.
  destruct (r_state r) as [size|]; [|done]. destruct (st_fin frame && negb (stopped r)) eqn:Hfinb.
  - apply andb_true_iff in Hfinb as [Hf1 _]. specialize (Hnf Hf1). intros f [= <-]. lia.
  - intros f Hsz. simpl in Hsz. specialize (Hfin f Hsz). rewrite Hsz in Hv.
    apply orb_false_iff in Hv as [Hv1%Z.ltb_ge _]. lia.
Qed.

(** The verdict on a RESET_STREAM frame. *)
Definition reset_verdict r (final received limit : Z) : result TransportError unit :=
  if match final_offset r with Some f => negb (f =? final) | None => final <? r_end r end
  then Err (mkTransportError FINAL_SIZE_ERROR)
  else if over_limit r final received limit then Err (mkTransportError FLOW_CONTROL_ERROR)
  else Ok tt.

Lemma Recv_reset_ok w id r code final received limit :
  recv_ok w id r → VarInt_wf final → 0 <= received <= limit → limit <= u64_max - 2 ^ 62 →
  match reset_verdict r (into_inner final) received limit with
  | Err e => Recv_reset r code final received limit = Ret (Err e, r)
  | Ok _ =>
      r_end r <= into_inner final ∧ received + (into_inner final - r_end r) <= limit ∧
      if is_receiving r
      then ∃ r', Recv_reset r code final received limit = Ret (Ok true, r') ∧ recv_ok w id r' ∧
        stopped r' = stopped r ∧ r_end r' = r_end r ∧
        bytes_read (r_assembler r') = bytes_read (r_assembler r) ∧ reset_code r' = Some code
      else Recv_reset r code final received limit = Ret (Ok false, r)
  end.
Proof.
  intros Hr Hwf Hrec Hlim. unfold VarInt_wf in Hwf. pose proof Hr as [Hi He Hs Hfin]. unfold reset_verdict, Recv_reset.
  set (fin := into_inner final) in *.
  assert (Hle : (match final_offset r with Some f => negb (f =? fin) | None => fin <? r_end r end) = false →
    r_end r <= fin).
  { destruct (final_offset r) as [f|]; [|by intros ?%Z.ltb_ge].
    intros Hx%negb_false_iff%Z.eqb_eq. specialize (Hfin f eq_refl). lia. }
  destruct (match final_offset r with Some _ => _ | None => _ end); [done|]. specialize (Hle eq_refl).
  rewrite (credit_consumed_ok w id) by (done || lia). cbn [mbind M_bind].
  destruct (over_limit r fin received limit) eqn:Hover; [done|].
  apply orb_false_iff in Hover as [Ho1%Z.ltb_ge Ho2%Z.ltb_ge].
  split; [done|]. split; [lia|]. unfold is_receiving. destruct (r_state r) eqn:Hst; [|done].
  eexists. split; [reflexivity|]. split; [|done].
  split; simpl; [by apply inv_clear|done|done|]. intros f [= <-]. lia.
Qed.

Lemma stop_ok w id r :
  recv_ok w id r → stopped r = false →
  ∃ r', Recv.stop r = Ret (Ok (r_end r - bytes_read (r_assembler r), is_receiving r), r') ∧
    recv_ok w id r' ∧ 0 <= r_end r - bytes_read (r_assembler r) ∧ r_state r' = r_state r.
Proof.
  intros [Hi He Hs Hfin] Hst. pose proof (i_read _ _ Hi). unfold Recv.stop. rewrite Hst.
  rewrite usub_ok by (simpl; lia). eexists. split; [reflexivity|].
  split; [|split; [lia|done]]. split; simpl; [by apply inv_clear|done..].
Qed.

Lemma record_sent_ok w id r max t :
  recv_ok w id r → max_stream_data r w = Ret (max, t) → recv_ok w id (record_sent_max_stream_data r max).
Proof.
  intros [Hi He Hs Hfin] Hm. unfold max_stream_data, uadd in Hm. zcases; inv_M.
  unfold record_sent_max_stream_data. zcases; [|done]. split; simpl; try done; [lia|].
  intros f Hf. specialize (Hfin f Hf). lia.
Qed.

(** Reading in the mode of the assembler. *)
Lemma read_any f (a : Assembler H) n ordered :
  AssemblerSpec.inv f a → is_ordered (Assembler.state a) = ordered → 0 <= n →
  ∃ o a', read a n ordered = Ret (o, a') ∧ AssemblerSpec.inv f a' ∧
    is_ordered (Assembler.state a') = ordered ∧ end_ a' = end_ a ∧
    bytes_read a' = bytes_read a + match o with Some c => len (c_bytes c) | None => 0 end.
Proof.
  intros Hi <- Hn. destruct (Assembler.state a) as [|recvd] eqn:Hst; cbn [is_ordered].
  - destruct (read_ordered_ok f a n Hi Hst Hn) as (o & a' & Hr & Hi' & Hst' & Hen & Hor & _).
    exists o, a'. rewrite Hst'. do 4 (split; [done|]). destruct o; [|by rewrite Z.add_0_r; destruct Hor].
    by destruct Hor as (_ & _ & _ & _ & ? & _).
  - destruct (read_unordered_ok f a recvd n Hi Hst Hn) as (o & a' & Hr & Hi' & Hst' & Hen & Hor).
    exists o, a'. rewrite Hst', Hst. do 4 (split; [done|]).
    destruct o; [destruct Hor as (_ & _ & _ & Hbr & _); exact Hbr|]. destruct Hor as [-> _]. by rewrite Z.add_0_r.
Qed.

Lemma recv_ok_read w id r a :
  recv_ok w id r → AssemblerSpec.inv (F id) a → end_ a = end_ (r_assembler r) →
  bytes_read (r_assembler r) <= bytes_read a →
  recv_ok w id (mkRecv (r_state r) a (sent_max_stream_data r) (r_end r) (stopped r)).
Proof. intros [Hi He Hs Hfin] Ha Hen Hbr. split; simpl; [done|lia|lia|done]. Qed.

(** * Flow control *)

Lemma add_read_credits_inv s n :
  sinv s → 0 <= n → ∃ t s', add_read_credits s n = Ret (t, s') ∧ sinv s' ∧
    local_max_data s <= local_max_data s' ∧ data_recvd s' = data_recvd s.
Proof.
  intros (Hf & Ht & He) Hn. destruct Hf as [Hr Hl Hsm Hs [Hw1 [Hw2 Hw3]] Hp Hm Hc]. unfold add_read_credits.
  set (s1 := if _ <? n then _ else _).
  assert (Hs1 : sinv s1 ∧ local_max_data s <= local_max_data s1 ∧ data_recvd s1 = data_recvd s ∧
    into_inner (sent_max_data s1) <= local_max_data s1).
  { unfold s1, sat_add. destruct (Z.ltb_spec (receive_window_shrink_debt s) n); simpl;
      (split; [split; [split; simpl; try done; lia|split; [exact Ht|exact He]]|lia]). }
  destruct Hs1 as (Hi & Hle & Hd & Hsent). clearbody s1. destruct (_ <? local_max_data s1); [by eexists _, _|].
  rewrite usub_ok by done. by eexists _, _.
Qed.

Lemma on_stream_frame_inv s b id : sinv s → sinv (on_stream_frame s b id).
Proof.
  intros Hs. unfold on_stream_frame. repeat case_match; try exact Hs; keep_inv Hs.
Qed.

(** A stream of the table, opened if it was not. *)
Lemma recv_entry_ok s id o :
  sinv s → recv s !! id = Some o →
  recv_ok (stream_receive_window s) id (get_or_insert_recv (stream_receive_window s) o).
Proof.
  intros (Hf & _ & He) Hl. apply entry_recv_ok; [apply Hf|].
  destruct o as [e|]; [|done]. by apply (e_recv _ _ _ _ _ He).
Qed.

Lemma send_entry_ok s id o :
  sinv s → send s !! id = Some o → send_ok (get_or_insert_send (max_send_data s id) o).
Proof.
  intros (Hf & _ & He) Hl. destruct o as [x|]; [by apply (e_send _ _ _ _ _ He id)|].
  destruct (f_params _ Hf) as (H1 & H2 & H3). unfold send_ok, s_offset, max_send_data. simpl.
  repeat case_match; lia.
Qed.

(** Taking a stream that is in the table out of it and recycling it. *)
Lemma recv_freed_from_table s id r :
  sinv s → room s → recv s !! id = Some (Some (Open r)) →
  ∃ A B C mr al,
    stream_recv_freed (set_recv s (delete id (recv s))) id (Open r) = Ret (with_remote s A B C mr al) ∧
    sinv (with_remote s A B C mr al).
Proof.
  intros Hs Hroom Hl. set (s1 := set_recv s (delete id (recv s))).
  assert (Hput : put_recv s1 id r = s).
  { unfold put_recv, s1. destruct s. cbn in *. by rewrite insert_delete_id. }
  destruct (recv_freed_inv F s1 id r) as (A & B & C & mr & al & Hop & Hi).
  - by rewrite Hput.
  - apply lookup_delete_eq.
  - done.
  - by exists A, B, C, mr, al.
Qed.

(** The connection's received counter after [n] bytes within the limit. *)
Lemma set_data_recvd_inv s n :
  sinv s → 0 <= n → data_recvd s + n <= local_max_data s →
  sat_add (data_recvd s) n = data_recvd s + n ∧ sinv (set_data_recvd s (data_recvd s + n)).
Proof.
  intros (Hf & Ht & He) Hn Hle. destruct Hf as [Hr Hl Hsm Hs Hw Hp Hm Hc].
  split; [unfold sat_add; lia|]. split; [split; simpl; try done; lia|by split].
Qed.

(** * STREAM and RESET_STREAM *)

(** The limits under which the connection's sums stay in range. *)
Definition sane s : Prop := room s ∧ local_max_data s <= u64_max - 2 ^ 62.

(** What [received] answers: the stream's and the connection's checks in order. *)
Definition received_spec s (frame : Stream) (res : result TransportError ShouldTransmit) s' : Prop :=
  match validate_receive_id s (st_id frame) with
  | Err e => res = Err e ∧ s' = s
  | Ok _ =>
      match recv s !! st_id frame with
      | None => res = Ok false ∧ s' = s
      | Some o =>
          let r := get_or_insert_recv (stream_receive_window s) o in
          if is_receiving r then
            match frame_verdict r frame (data_recvd s) (local_max_data s) with
            | Err e => res = Err e ∧ data_recvd s' = data_recvd s
            | Ok n => (∃ t, res = Ok t) ∧ data_recvd s' = data_recvd s + n
            end
          else res = Ok false ∧ data_recvd s' = data_recvd s
      end
  end.

Lemma received_ok s frame payload_len :
  sinv s → sane s →
  (∀ o, recv s !! st_id frame = Some o →
     frame_ok (get_or_insert_recv (stream_receive_window s) o) frame payload_len) →
  ∃ res s', received s frame payload_len = Ret (res, s') ∧ sinv s' ∧ received_spec s frame res s'.
Proof.
  intros Hs [Hroom Hsane] Hfr. unfold received, received_spec.
  destruct (validate_receive_id s (st_id frame)) as [[]|e]; [|by exists (Err e), s].
  destruct (recv s !! st_id frame) as [o|] eqn:Hl; [|by exists (Ok false), s].
  specialize (Hfr o eq_refl). set (r := get_or_insert_recv _ o) in *.
  pose proof (recv_entry_ok s _ o Hs Hl) as Hr. fold r in Hr.
  assert (Hin : is_Some (recv s !! st_id frame)) by eauto.
  pose proof (put_recv_inv F s _ r Hs Hin Hr) as Hs1. cbv zeta.
  destruct (is_receiving r) eqn:Hrecv; cbn [negb]; [|by eexists _, _].
  destruct Hs as (Hf & _ & _). pose proof (f_recvd _ Hf) as Hrec.
  pose proof (ingest_ok _ r frame payload_len (data_recvd s) (local_max_data s) Hr Hfr Hrecv Hrec Hsane) as Hing.
  change (data_recvd (put_recv s (st_id frame) r)) with (data_recvd s).
  change (local_max_data (put_recv s (st_id frame) r)) with (local_max_data s).
  assert (Hin1 : is_Some (recv (put_recv s (st_id frame) r) !! st_id frame))
    by (simpl; rewrite lookup_insert_eq; eauto).
  destruct (frame_verdict r frame (data_recvd s) (local_max_data s)) as [n|e] eqn:Hv; cycle 1.
  { rewrite Hing. cbn [mbind M_bind]. eexists _, _. split; [reflexivity|]. split; [|done].
    by apply put_recv_inv. }
  destruct Hing as (r' & -> & Hr' & Hst & Hend & Hbr & Hle). cbn [mbind M_bind].
  assert (Hn : 0 <= n).
  { unfold frame_verdict in Hv. repeat case_match; simplify_eq; lia. }
  pose proof (put_recv_inv F _ _ r' Hs1 Hin1 Hr') as Hs2. set (s2 := put_recv _ _ r') in *.
  destruct (set_data_recvd_inv s2 n Hs2 Hn Hle) as [Heq Hs3]. rewrite Heq. set (s3 := set_data_recvd s2 _) in *.
  rewrite Hst. destruct (stopped r); cbn [negb]; cycle 1.
  { eexists _, _. split; [reflexivity|]. split; [by apply on_stream_frame_inv|]. split; [by eexists|].
    unfold on_stream_frame. by repeat case_match. }
  assert (Hfree : ∃ s4, (if st_fin frame && true
      then stream_recv_freed (set_recv s3 (delete (st_id frame) (recv s3))) (st_id frame) (Open r') else Ret s3)
    = Ret s4 ∧ sinv s4 ∧ data_recvd s4 = data_recvd s + n).
  { destruct (st_fin frame); [|by exists s3].
    destruct (recv_freed_from_table s3 (st_id frame) r' Hs3 Hroom) as (A & B & C & mr & al & Hop & Hi);
      [apply lookup_insert_eq|]. by eexists. }
  destruct Hfree as (s4 & -> & Hs4 & Hd4). cbn [mbind M_bind].
  destruct (add_read_credits_inv s4 n Hs4 Hn) as (t & s5 & -> & Hs5 & _ & Hd5). cbn [mbind M_bind].
  eexists _, _. split; [reflexivity|]. split; [done|]. split; [by eexists|]. by rewrite Hd5.
Qed.

Definition received_reset_spec s (frame : ResetStream) (res : result TransportError ShouldTransmit) s' : Prop :=
  match validate_receive_id s (rs_id frame) with
  | Err e => res = Err e ∧ s' = s
  | Ok _ =>
      match recv s !! rs_id frame with
      | None => res = Ok false ∧ s' = s
      | Some o =>
          let r := get_or_insert_recv (stream_receive_window s) o in
          let final := into_inner (rs_final_offset frame) in
          match reset_verdict r final (data_recvd s) (local_max_data s) with
          | Err e => res = Err e ∧ data_recvd s' = data_recvd s
          | Ok _ => (∃ t, res = Ok t) ∧
              data_recvd s' = data_recvd s +
                (if is_receiving r && negb (bytes_read (r_assembler r) =? final) then final - r_end r else 0)
          end
      end
  end.

Lemma received_reset_ok s frame :
  sinv s → sane s → VarInt_wf (rs_final_offset frame) →
  ∃ res s', received_reset s frame = Ret (res, s') ∧ sinv s' ∧ received_reset_spec s frame res s'.
Proof.
  intros Hs [Hroom Hsane] Hwf. unfold received_reset, received_reset_spec.
  destruct (validate_receive_id s (rs_id frame)) as [[]|e]; [|by exists (Err e), s].
  destruct (recv s !! rs_id frame) as [o|] eqn:Hl; [|by exists (Ok false), s].
  set (r := get_or_insert_recv _ o) in *.
  pose proof (recv_entry_ok s _ o Hs Hl) as Hr. fold r in Hr.
  assert (Hin : is_Some (recv s !! rs_id frame)) by eauto. cbv zeta.
  assert (Hrec : 0 <= data_recvd s <= local_max_data s) by (destruct Hs as (Hf & _); apply Hf).
  pose proof (Recv_reset_ok _ _ r (rs_error_code frame) (rs_final_offset frame) (data_recvd s) (local_max_data s)
    Hr Hwf Hrec Hsane) as Hreset. set (final := into_inner (rs_final_offset frame)) in *.
  destruct (reset_verdict r final (data_recvd s) (local_max_data s)) as [[]|e]; cycle 1.
  { rewrite Hreset. cbn [mbind M_bind]. eexists _, _. split; [reflexivity|]. split; [by apply put_recv_inv|done]. }
  destruct Hreset as (Hle & Hlim & Hreset). destruct (is_receiving r); cbn [andb]; cycle 1.
  { rewrite Hreset. cbn [mbind M_bind]. eexists _, _. split; [reflexivity|]. split; [by apply put_recv_inv|].
    split; [by eexists|]. simpl. lia. }
  destruct Hreset as (r' & -> & Hr' & Hst & Hend & Hbr & Hcode). cbn [mbind M_bind].
  pose proof (put_recv_inv F s _ r' Hs Hin Hr') as Hs1. set (s1 := put_recv s (rs_id frame) r') in *.
  rewrite Hst, Hend, Hbr.
  assert (Hfree : ∃ s2, (if stopped r then stream_recv_freed (set_recv s1 (delete (rs_id frame) (recv s1)))
      (rs_id frame) (Open r') else Ret s1) = Ret s2 ∧ sinv s2 ∧ data_recvd s2 = data_recvd s ∧
      local_max_data s2 = local_max_data s).
  { destruct (stopped r); [|by exists s1].
    destruct (recv_freed_from_table s1 (rs_id frame) r' Hs1 Hroom) as (A & B & C & mr & al & Hop & Hi);
      [apply lookup_insert_eq|]. by eexists. }
  destruct Hfree as (s2 & -> & Hs2 & Hd2 & Hl2). cbn [mbind M_bind].
  pose proof (on_stream_frame_inv s2 (negb (stopped r)) (rs_id frame) Hs2) as Hs3.
  set (s3 := on_stream_frame s2 _ _) in *.
  assert (data_recvd s3 = data_recvd s ∧ local_max_data s3 = local_max_data s) as [Hd3 Hl3]
    by (unfold s3, on_stream_frame; by repeat case_match).
  clearbody s3. pose proof (i_read _ _ (ro_asm _ _ _ _ Hr)). pose proof (ro_end _ _ _ _ Hr).
  destruct (Z.eqb_spec (bytes_read (r_assembler r)) final); cbn [negb].
  { eexists _, _. split; [reflexivity|]. split; [done|]. split; [by eexists|]. lia. }
  rewrite !usub_ok by lia. cbn [mbind M_bind].
  destruct (set_data_recvd_inv s3 (final - r_end r) Hs3) as [Heq Hs4]; [lia..|]. rewrite Heq.
  destruct (add_read_credits_inv _ (final - bytes_read (r_assembler r)) Hs4) as (t & s5 & -> & Hs5 & _ & Hd5); [lia|].
  cbn [mbind M_bind]. eexists _, _. split; [reflexivity|]. split; [done|]. split; [by eexists|].
  rewrite Hd5. simpl. lia.
Qed.

(** * The application's reading side *)

Lemma stop_stream_inv s p id code :
  sinv s → room s → ∃ res s' p', stop_stream s p id code = Ret (res, s', p') ∧ sinv s'.
Proof.
  intros Hs Hroom. unfold stop_stream. destruct (recv s !! id) as [o|] eqn:Hl; [|by eexists _, _, _].
  pose proof (recv_entry_ok s _ o Hs Hl) as Hr. set (r := get_or_insert_recv _ o) in *.
  assert (Hin : is_Some (recv s !! id)) by eauto.
  destruct (stopped r) eqn:Hst.
  { assert (Recv.stop r = Ret (Err mkClosedStream, r)) as -> by (unfold Recv.stop; by rewrite Hst).
    cbn [mbind M_bind]. eexists _, _, _. split; [reflexivity|]. by apply put_recv_inv. }
  destruct (stop_ok _ _ r Hr Hst) as (r' & -> & Hr' & Hpos & Hst'). cbn [mbind M_bind].
  pose proof (put_recv_inv F s _ r' Hs Hin Hr') as Hs1. set (s1 := put_recv s id r') in *.
  assert (Hfree : ∃ s2, (if negb (final_offset_unknown r')
      then stream_recv_freed (set_recv s1 (delete id (recv s1))) id (Open r') else Ret s1) = Ret s2 ∧ sinv s2).
  { destruct (negb (final_offset_unknown r')); [|by exists s1].
    destruct (recv_freed_from_table s1 id r' Hs1 Hroom) as (A & B & C & mr & al & Hop & Hi);
      [apply lookup_insert_eq|]. by eexists. }
  destruct Hfree as (s2 & -> & Hs2). cbn [mbind M_bind].
  destruct (add_read_credits_inv s2 _ Hs2 Hpos) as (t & s3 & -> & Hs3 & _). cbn [mbind M_bind].
  by eexists _, _, _.
Qed.

Lemma poll_received_reset_inv s p id res s' p' :
  sinv s → room s → poll_received_reset s p id = Ret (res, s', p') → sinv s'.
Proof.
  intros Hs Hroom. unfold poll_received_reset. destruct (recv s !! id) as [o|] eqn:Hl; [|intros; by ret_inv].
  destruct o as [[r|r]|]; [intros; by ret_inv| |intros; by ret_inv].
  destruct (stopped r); [intros; by ret_inv|]. destruct (reset_code r); [|intros; by ret_inv].
  destruct (recv_freed_from_table s id r Hs Hroom Hl) as (A & B & C & mr & al & Hfree & Hi).
  intros Hop. apply M_bind_ret in Hop as (s1 & Hs1 & Hop). rewrite Hfree in Hs1. injection Hs1 as <-.
  apply M_bind_ret in Hop as ([b q] & Hq & Hop). injection Hop as _ <- _. exact Hi.
Qed.

(** A read session: [c] holds the stream while [s] is the rest of the table. *)
Definition session_ok (c : Chunks) s : Prop :=
  0 <= ch_read c ∧
  match ch_state c with
  | ChReadable r => sinv (put_recv s (ch_id c) r) ∧ recv s !! ch_id c = None ∧ room s ∧
      is_ordered (Assembler.state (r_assembler r)) = ch_ordered c
  | _ => sinv s
  end.

(** Switching to unordered reads is safe when no buffered chunk starts below the
    read position. *)
Definition switch_ok s id (ordered : bool) : Prop :=
  ∀ o, recv s !! id = Some o → ordered = false →
  let a := r_assembler (get_or_insert_recv (stream_receive_window s) o) in
  Assembler.state a = Ordered → ∀ x, (1 <= cnt x (bufs a))%nat → bytes_read a <= x.

Lemma Chunks_new_inv s id ordered :
  sinv s → room s → switch_ok s id ordered →
  ∃ res s', Chunks_new s id ordered = Ret (res, s') ∧
    match res with
    | Ok c => session_ok c s'
    | Err ReadClosedStream => sinv s'
    | Err ReadIllegalOrdered => True
    end.
Proof.
  intros Hs Hroom Hsw. unfold Chunks_new. destruct (recv s !! id) as [o|] eqn:Hl; [|by eexists _, _].
  specialize (Hsw o Hl). pose proof (recv_entry_ok s _ o Hs Hl) as Hr. set (r := get_or_insert_recv _ o) in *.
  assert (Hin : is_Some (recv s !! id)) by eauto.
  destruct (stopped r) eqn:Hst; [eexists _, _; split; [reflexivity|by apply put_recv_inv]|].
  assert (Hens : ∃ a res, ensure_ordering (r_assembler r) ordered = Ret (a, res) ∧
    match res with
    | Ok _ => AssemblerSpec.inv (F id) a ∧ is_ordered (Assembler.state a) = ordered ∧
        end_ a = end_ (r_assembler r) ∧ bytes_read a = bytes_read (r_assembler r)
    | Err _ => True
    end).
  { destruct Hr as [Hi _ _ _]. destruct (Assembler.state (r_assembler r)) as [|recvd] eqn:Hm.
    - destruct ordered; [eexists _, _; unfold ensure_ordering; rewrite Hm; split; [reflexivity|by rewrite Hm]|].
      destruct (ensure_unordered_ok (F id) (r_assembler r) Hi Hm (Hsw eq_refl Hm))
        as (a & recvd & Ha & Hi' & Hst' & Hbr & Hen & _).
      eexists _, _. split; [exact Ha|]. cbn beta iota. by rewrite Hst'.
    - unfold ensure_ordering. rewrite Hm. destruct ordered; eexists _, _; split; try reflexivity; try done.
      cbn beta iota. by rewrite Hm. }
  destruct Hens as (a & res & -> & Hres). cbn [mbind M_bind]. destruct res as [[]|]; [|by eexists _, _].
  destruct Hres as (Ha & Hord & Hen & Hbr). eexists _, _. split; [reflexivity|].
  split; [done|]. simpl. split; [|split; [apply lookup_delete_eq|split; [exact Hroom|exact Hord]]].
  pose proof (recv_ok_read _ _ r a Hr Ha Hen ltac:(lia)) as Hr1. rewrite Hst in Hr1. set (r1 := mkRecv _ a _ _ _) in *.
  pose proof (put_recv_inv F s id r1 Hs Hin Hr1) as Hs1. unfold put_recv in *. cbn [recv set_recv] in *.
  rewrite insert_delete_eq. exact Hs1.
Qed.

Lemma Chunks_next_inv c s n res c' s' :
  session_ok c s → 0 <= n → Chunks_next c s n = Ret (res, c', s') → session_ok c' s'.
Proof.
  intros [Hrd Hc] Hn. unfold Chunks_next. destruct (ch_state c) as [r|code| |] eqn:Hst.
  2-4: intros Hop; ret_inv; (split; [done|by rewrite Hst]).
  destruct Hc as (Hs & Hnone & Hroom & Hord).
  assert (Hr : recv_ok (stream_receive_window s) (ch_id c) r).
  { destruct Hs as (_ & _ & He). apply (e_recv _ _ _ _ _ He (ch_id c) (Open r)). apply lookup_insert_eq. }
  destruct (read_any (F (ch_id c)) (r_assembler r) n (ch_ordered c) (ro_asm _ _ _ _ Hr) Hord Hn)
    as (o & a & Hread & Ha & Hord' & Hen & Hbr).
  assert (Hlen : 0 <= match o with Some ch => len (c_bytes ch) | None => 0 end)
    by (destruct o; [apply len_nonneg|lia]).
  pose proof (recv_ok_read _ _ r a Hr Ha Hen ltac:(lia)) as Hr1. set (r1 := mkRecv (r_state r) a _ _ _) in *.
  assert (Hs1 : sinv (put_recv s (ch_id c) r1)).
  { pose proof (put_recv_inv F _ (ch_id c) r1 Hs) as Hp. unfold put_recv in *. cbn [recv set_recv] in *.
    rewrite insert_insert_eq in Hp. apply Hp; [by rewrite lookup_insert_eq|done]. }
  destruct (recv_freed_inv F s (ch_id c) r1 Hs1 Hnone Hroom) as (A & B & C & mr & al & Hfree & Hi).
  intros Hop. apply M_bind_ret in Hop as ([o' a'] & Hrd' & Hop). rewrite Hread in Hrd'.
  injection Hrd' as <- <-. fold r1 in Hop. destruct o as [chunk|].
  { apply M_bind_ret in Hop as (m & Hm & Hop). unfold uadd in Hm. destruct (_ <=? u64_max); [|done].
    injection Hm as <-. injection Hop as _ <- <-. split; [simpl; lia|by simpl]. }
  destruct (r_state r1) as [size|sz code].
  - destruct (_ && _).
    + apply M_bind_ret in Hop as (s1 & Hs1' & Hop). rewrite Hfree in Hs1'. injection Hs1' as <-.
      injection Hop as _ <- <-. by split.
    + injection Hop as _ <- <-. split; [done|by simpl].
  - apply M_bind_ret in Hop as (u & _ & Hop). apply M_bind_ret in Hop as (s1 & Hs1' & Hop).
    rewrite Hfree in Hs1'. injection Hs1' as <-. injection Hop as _ <- <-. by split.
Qed.

Lemma Chunks_finalize_inv c s p t c' s' p' :
  session_ok c s → Chunks_finalize c s p = Ret (t, c', s', p') → sinv s'.
Proof.
  intros [Hrd Hc] Hop. unfold Chunks_finalize in Hop.
  assert (Hfin : ∀ s1 t1 p1, sinv s1 →
    ('(m, s) ← add_read_credits s1 (ch_read c);
     let p := set_rt_max_data p1 (rt_max_data p1 || m) in
     mret (t1 || m, mkChunks (ch_id c) (ch_ordered c) ChFinalized (ch_read c), s, p)) = Ret (t, c', s', p') →
    sinv s').
  { intros s1 t1 p1 Hs1 Hop1. destruct (add_read_credits_inv s1 _ Hs1 Hrd) as (m & s2 & Hadd & Hs2 & _).
    apply M_bind_ret in Hop1 as ([m' s2'] & Hadd' & Hop1). rewrite Hadd in Hadd'. injection Hadd' as <- <-.
    by injection Hop1 as _ _ <- _. }
  destruct (ch_state c) as [r|code| |] eqn:Hst.
  2-3: apply M_bind_ret in Hop as ([t1 p1] & _ & Hop); cbn [mbind M_bind] in Hop; by eapply Hfin.
  2: by injection Hop as _ _ <- _.
  destruct Hc as (Hs & Hnone & Hroom & Hord).
  apply M_bind_ret in Hop as ([t1 p1] & _ & Hop). apply M_bind_ret in Hop as ([[t2 s2] p2] & H2 & Hop).
  apply M_bind_ret in H2 as ([mx m] & _ & H2). injection H2 as <- <- <-. by eapply Hfin.
Qed.
End Ops.
