(* ===== verification/StreamsSteps.v ===== *)
(** Everything that can happen to the stream table of a connection, as a step
    relation, and what holds in every state it reaches. *)
From stdpp Require Import gmap.
From S2P Require Import Prelude Coding RangeSet Ids Shared Frame SendBuffer Assembler AssemblerSpec AssemblerTheorems.
From S2P Require Import Recv Send PendingStreams Retransmits Streams StreamsInv StreamsOps.
Open Scope Z_scope.

(** * Send buffers keep their length *)

Lemma ack_loop_offset fuel b b' : ack_loop fuel b = Ret b' → SendBuffer.offset b' = SendBuffer.offset b.
Proof.
  revert b. induction fuel as [|fuel IH]; intros b Hop; [done|]. cbn [ack_loop] in Hop.
  apply M_bind_ret in Hop as (base & _ & Hop). case_decide; [|by injection Hop as <-].
  apply M_bind_ret in Hop as ([popped acks'] & _ & Hop). apply M_bind_ret in Hop as (pre & _ & Hop).
  do 3 (apply M_bind_ret in Hop as (? & _ & Hop)). by apply IH in Hop.
Qed.

Lemma ack_offset b range b' : SendBuffer.ack b range = Ret b' → SendBuffer.offset b' = SendBuffer.offset b.
Proof.
  intros Hop. apply M_bind_ret in Hop as (base & _ & Hop).
  cbv zeta in Hop. case_match. by apply ack_loop_offset in Hop.
Qed.

Lemma poll_transmit_offset b n x b' :
  poll_transmit b n = Ret (x, b') → SendBuffer.offset b' = SendBuffer.offset b.
Proof.
  intros Hop. unfold poll_transmit in Hop. apply M_bind_ret in Hop as (u & _ & Hop).
  destruct (BTree.pop_min (retransmits b)) as [[range|] rt];
    do 3 (apply M_bind_ret in Hop as (? & _ & Hop)); by injection Hop as _ <-.
Qed.

Lemma buffer_retransmit_offset b range b' :
  SendBuffer.retransmit b range = Ret b' → SendBuffer.offset b' = SendBuffer.offset b.
Proof. intros Hop. apply M_bind_ret in Hop as (u & _ & Hop). by injection Hop as <-. Qed.

Lemma buffer_retry_offset b b' :
  SendBuffer.retransmit_all_for_0rtt b = Ret b' → SendBuffer.offset b' = SendBuffer.offset b.
Proof. intros Hop. apply M_bind_ret in Hop as (u & _ & Hop). by injection Hop as <-. Qed.

(** What [Send::write] takes stays within the limit. *)
Lemma write_loop_offset {S} `{BytesSource S} fuel b src limit w w' b' src' :
  0 <= limit → write_loop fuel b src limit w = Ret (w', b', src') →
  w_bytes w <= w_bytes w' <= w_bytes w + limit ∧
  SendBuffer.offset b' - SendBuffer.offset b = w_bytes w' - w_bytes w.
Proof.
  revert b src limit w. induction fuel as [|fuel IH]; intros b src limit w Hl Hop; [done|].
  cbn [write_loop] in Hop. apply M_bind_ret in Hop as ([[chunk k] src1] & _ & Hop).
  pose proof (len_nonneg chunk). destruct chunk as [|x chunk].
  { injection Hop as <- <- _. simpl. change (len []) with 0. lia. }
  apply M_bind_ret in Hop as (l1 & Hl1 & Hop). unfold usub in Hl1. destruct (Z.leb_spec (len (x :: chunk)) limit); [|done].
  injection Hl1 as <-. apply M_bind_ret in Hop as (b1 & Hb1 & Hop).
  assert (SendBuffer.offset b1 = SendBuffer.offset b + len (x :: chunk)).
  { unfold SendBuffer.write in Hb1. apply M_bind_ret in Hb1 as (u & _ & Hb1).
    apply M_bind_ret in Hb1 as (o & Ho & Hb1). injection Hb1 as <-. unfold uadd in Ho. simpl.
    destruct (_ <=? u64_max) in Ho; [by injection Ho as <-|done]. }
  apply IH in Hop; [|lia]. cbn [w_bytes] in Hop. lia.
Qed.

Lemma Send_write_ok {S} `{BytesSource S} x src limit res x' src' :
  send_ok x → 0 <= limit → Send_write x src limit = Ret (res, x', src') →
  send_ok x' ∧ match res with Ok w => 0 <= w_bytes w <= limit | Err _ => True end.
Proof.
  unfold send_ok, s_offset. intros Hx Hl Hop. unfold Send_write in Hop.
  destruct (negb (is_writable x)); [by injection Hop as <- <- _|].
  destruct (stop_reason x); [by injection Hop as <- <- _|].
  apply M_bind_ret in Hop as (budget & Hb & Hop). rewrite usub_ok in Hb by lia. injection Hb as <-.
  destruct (_ =? 0); [by injection Hop as <- <- _|].
  apply M_bind_ret in Hop as ([[w b] src1] & Hw & Hop). injection Hop as <- <- _.
  apply write_loop_offset in Hw; [|lia]. simpl in *. lia.
Qed.

(** What every round of a loop keeps, the loop keeps. *)
Lemma mfold_ind {A S} (P : S → Prop) (f : S → A → M S) l s s' :
  (∀ s a s', a ∈ l → P s → f s a = Ret s' → P s') → P s → mfold f l s = Ret s' → P s'.
Proof.
  revert s. induction l as [|a l IH]; intros s Hf Hs Hop; [by injection Hop as <-|].
  apply M_bind_ret in Hop as (s1 & H1 & Hop). eapply IH; [|eapply Hf; [left|done..]|done].
  intros. eapply Hf; [by right|done..].
Qed.

Section Steps.
Context {H : Type} `{Heap H} (F : StreamId → Z → Z).
Implicit Types (s : StreamsState H) (r : Recv H).
Abbreviation sinv := (sinv F).

(** * The sending operations *)

Lemma get_send_Some s id x : get_send s id = Some x → send s !! id = Some (Some x).
Proof. unfold get_send. by repeat case_match; intros; simplify_eq. Qed.

(** A stream of the table changed without moving its limits. *)
Lemma put_send_same s id x y :
  sinv s → send s !! id = Some (Some x) → s_offset y = s_offset x → s_max_data y = s_max_data x →
  sinv (put_send s id y).
Proof.
  intros Hs Hl Ho Hm. apply put_send_inv; [done|by rewrite Hl|]. unfold send_ok. rewrite Ho, Hm.
  destruct Hs as (_ & _ & He). by apply (e_send _ _ _ _ _ He id).
Qed.

Lemma put_send_entry s id o y :
  sinv s → send s !! id = Some o → s_offset y = s_offset (get_or_insert_send (max_send_data s id) o) →
  s_max_data (get_or_insert_send (max_send_data s id) o) <= s_max_data y → sinv (put_send s id y).
Proof.
  intros Hs Hl Ho Hm. apply put_send_inv; [done|by rewrite Hl|].
  pose proof (send_entry_ok F s id o Hs Hl). unfold send_ok in *. lia.
Qed.

Lemma set_pending_inv s q : sinv s → sinv (Streams.set_pending s q).
Proof. intros Hs. keep_inv Hs. Qed.

Lemma open_inv s closed d o s' : sinv s → open s closed d = Ret (o, s') → sinv s'.
Proof.
  intros Hs Hop. unfold open in Hop. destruct closed; [by injection Hop as _ <-|].
  destruct (Z.leb_spec (at_dir (max s) d) (at_dir (next s) d)); [injection Hop as _ <-; keep_inv Hs|].
  apply M_bind_ret in Hop as (n & Hn & Hop). unfold uadd in Hn. destruct (_ <=? u64_max); [|done].
  injection Hn as <-. apply M_bind_ret in Hop as (s1 & Hins & Hop). apply M_bind_ret in Hop as (c & _ & Hop).
  injection Hop as _ <-. destruct Hs as (Hf & Ht & He). pose proof (f_max _ Hf d).
  destruct (table_open _ _ _ _ _ _ d Ht) as (Hns & Hnr & Ht'); [lia|].
  rewrite Z.add_simpl_r in Hins. cbn [side set_next] in Hins.
  set (id := StreamId_new (side s) d (at_dir (next s) d)) in *. apply not_elem_of_dom in Hns, Hnr.
  destruct (insert_ok F (set_next s (set_dir (next s) d (at_dir (next s) d + 1))) false id He Hns Hnr)
    as (A & B & C & Hins' & HA & HB & He'). rewrite Hins in Hins'. injection Hins' as ->.
  assert (Hd : dir id = d).
  { pose proof (t_bound _ _ _ _ _ _ Ht d). rewrite max_stream_count in *.
    unfold id. destruct (StreamId_parts (side s) d (at_dir (next s) d)) as (_ & ? & _); [lia|done]. }
  rewrite Hd, orb_true_r, orb_false_r in *. cbn [send recv set_next] in HA, HB.
  split; [destruct Hf; by split|]. split; [|exact He']. unfold table_of. simpl. rewrite HA, HB.
  by destruct d.
Qed.

Lemma accept_inv s d o s' : sinv s → accept s d = Ret (o, s') → sinv s'.
Proof.
  intros Hs Hop. unfold accept in Hop. destruct (_ =? _); [by injection Hop as _ <-|].
  apply M_bind_ret in Hop as (n & _ & Hop). apply M_bind_ret in Hop as (s1 & Hs1 & Hop). injection Hop as _ <-.
  case_decide; [apply M_bind_ret in Hs1 as (c & _ & Hs1)|]; injection Hs1 as <-; keep_inv Hs.
Qed.

Lemma received_stop_sending_inv s id code : sinv s → sinv (received_stop_sending s id code).
Proof.
  intros Hs. unfold received_stop_sending. destruct (send s !! id) as [o|] eqn:Hl; [|done].
  unfold try_stop. destruct (stop_reason _).
  - by eapply put_send_entry.
  - apply on_stream_frame_inv. pose proof (put_send_entry s id o (mkSend
      (s_max_data (get_or_insert_send (max_send_data s id) o)) (s_state (get_or_insert_send (max_send_data s id) o))
      (s_pending (get_or_insert_send (max_send_data s id) o)) (priority (get_or_insert_send (max_send_data s id) o))
      (fin_pending (get_or_insert_send (max_send_data s id) o))
      (s_connection_blocked (get_or_insert_send (max_send_data s id) o)) (Some code)) Hs Hl eq_refl) as Hp.
    specialize (Hp ltac:(simpl; lia)). keep_inv Hp.
Qed.

Lemma reset_acked_inv s id s' : sinv s → room s → reset_acked s id = Ret s' → sinv s'.
Proof.
  intros Hs Hroom Hop. unfold reset_acked in Hop.
  destruct (send s !! id) as [[x|]|] eqn:Hl; [|by injection Hop as <-..].
  destruct (is_reset x); [|by injection Hop as <-]. eapply send_freed_inv; [done..|by rewrite Hl|done].
Qed.

Lemma received_ack_of_inv s frame s' : sinv s → room s → received_ack_of s frame = Ret s' → sinv s'.
Proof.
  intros Hs Hroom Hop. unfold received_ack_of in Hop.
  destruct (send s !! sm_id frame) as [[x|]|] eqn:Hl; [|by injection Hop as <-..].
  destruct (is_reset x); [by injection Hop as <-|].
  apply M_bind_ret in Hop as (n & _ & Hop). apply M_bind_ret in Hop as (u & _ & Hop).
  apply M_bind_ret in Hop as ([fin y] & Hack & Hop). set (s1 := set_unacked_data s u) in *.
  assert (Hy : s_offset y = s_offset x ∧ s_max_data y = s_max_data x).
  { unfold Send_ack in Hack. apply M_bind_ret in Hack as (b & Hb & Hack). apply ack_offset in Hb.
    destruct (s_state x); injection Hack as _ <-; by split. }
  assert (Hs1 : sinv s1) by (unfold s1; keep_inv Hs). destruct Hy as [Hy1 Hy2].
  pose proof (put_send_same s1 (sm_id frame) x y Hs1 Hl Hy1 Hy2) as Hs2.
  destruct (negb fin); [by injection Hop as <-|].
  apply M_bind_ret in Hop as (s3 & Hfree & Hop). injection Hop as <-.
  apply send_freed_inv with (F := F) in Hfree; [keep_inv Hfree|done|done|simpl; by rewrite lookup_insert_eq].
Qed.

Lemma retransmit_inv s frame s' : sinv s → Streams.retransmit s frame = Ret s' → sinv s'.
Proof.
  intros Hs Hop. unfold Streams.retransmit in Hop. destruct (get_send s (sm_id frame)) as [x|] eqn:Hl;
    [|by injection Hop as <-]. apply get_send_Some in Hl.
  apply M_bind_ret in Hop as (q & _ & Hop). apply M_bind_ret in Hop as (b & Hb & Hop). injection Hop as <-.
  apply buffer_retransmit_offset in Hb. eapply put_send_same; [by apply set_pending_inv|exact Hl|done..].
Qed.

Lemma retransmit_all_inv s s' : sinv s → Streams.retransmit_all_for_0rtt s = Ret s' → sinv s'.
Proof.
  intros Hs Hop. refine (mfold_ind sinv _ _ _ _ _ Hs Hop). clear s s' Hs Hop. intros s d s' _ Hs Hop.
  refine (mfold_ind sinv _ _ _ _ _ Hs Hop). intros s1 i s2 _ Hs1 Hop1. clear s s' Hs Hop.
  rename s1 into s, s2 into s', Hs1 into Hs, Hop1 into Hop. cbv beta zeta in Hop.
  destruct (get_send s (StreamId_new Client d i)) as [x|] eqn:Hl; [|by injection Hop as <-]. apply get_send_Some in Hl.
  destruct (_ && _); [by injection Hop as <-|].
  apply M_bind_ret in Hop as (q & _ & Hop). apply M_bind_ret in Hop as (b & Hb & Hop). injection Hop as <-.
  apply buffer_retry_offset in Hb. eapply put_send_same; [by apply set_pending_inv|exact Hl|done..].
Qed.

Lemma received_max_streams_inv s d n : sinv s → sinv (received_max_streams s d n).2.
Proof.
  intros Hs. unfold received_max_streams. destruct (Z.ltb_spec MAX_STREAM_COUNT n); [done|].
  destruct (_ <? n); [|done]. destruct Hs as (Hf & Ht & He). split; [|by split].
  destruct Hf. split; simpl; try assumption. intros d'. rewrite at_set_dir. case_decide; [done|auto].
Qed.

Lemma received_max_data_inv s n : sinv s → sinv (received_max_data s n).
Proof.
  intros (Hf & Ht & He). split; [|by split]. destruct Hf. split; simpl; try assumption. lia.
Qed.

Lemma received_max_stream_data_inv s id offset res s' :
  sinv s → received_max_stream_data s id offset = Ret (res, s') → sinv s'.
Proof.
  intros Hs Hop. unfold received_max_stream_data in Hop. destruct (_ && _); [by injection Hop as _ <-|].
  apply M_bind_ret in Hop as (limit & _ & Hop). destruct (send s !! id) as [o|] eqn:Hl; cycle 1.
  { destruct (_ && _); injection Hop as _ <-; [done|by apply on_stream_frame_inv]. }
  set (x := get_or_insert_send (max_send_data s id) o) in *.
  destruct (increase_max_data x offset) as [unblocked y] eqn:Hinc.
  assert (Hy : s_offset y = s_offset x ∧ s_max_data x <= s_max_data y).
  { unfold increase_max_data in Hinc. destruct (Z.leb_spec offset (s_max_data x)); simpl in Hinc;
      [by injection Hinc as _ <-|]. destruct (negb _); injection Hinc as _ <-; simpl; split; done || lia. }
  destruct Hy as [Hy1 Hy2]. pose proof (put_send_entry s id o y Hs Hl Hy1 Hy2) as Hp.
  injection Hop as _ <-. apply on_stream_frame_inv. destruct unblocked; [|done].
  destruct (0 <? limit); [keep_inv Hp|]. destruct (negb _); [|done].
  assert (Hp' : sinv (put_send s id (mkSend (s_max_data y) (s_state y) (s_pending y) (priority y) (fin_pending y)
    true (stop_reason y)))) by (by eapply put_send_entry). keep_inv Hp'.
Qed.

Lemma poll_blocked_inv l s e s' : sinv s → poll_blocked l s = Ret (e, s') → sinv s'.
Proof.
  revert s. induction l as [|id l IH]; intros s Hs Hop; cbn [poll_blocked] in Hop.
  { injection Hop as _ <-. keep_inv Hs. }
  destruct (get_send s id) as [x|] eqn:Hl; [|by eapply IH]. apply get_send_Some in Hl.
  apply M_bind_ret in Hop as (u & _ & Hop). cbv zeta in Hop.
  assert (Hp : sinv (put_send s id (mkSend (s_max_data x) (s_state x) (s_pending x) (priority x) (fin_pending x)
    false (stop_reason x)))) by (by eapply put_send_same).
  destruct (_ && _); [injection Hop as _ <-; keep_inv Hp|by eapply IH].
Qed.

Lemma poll_inv s e s' : sinv s → poll s = Ret (e, s') → sinv s'.
Proof.
  intros Hs Hop. unfold poll in Hop. destruct (at_bi _); [injection Hop as _ <-; keep_inv Hs|].
  destruct (at_uni _); [injection Hop as _ <-; keep_inv Hs|].
  apply M_bind_ret in Hop as (limit & _ & Hop). apply M_bind_ret in Hop as ([e1 s1] & H1 & Hop).
  assert (Hs1 : sinv s1).
  { destruct (0 <? limit); [by eapply poll_blocked_inv|by injection H1 as _ <-]. }
  destruct e1; [by injection Hop as _ <-|]. destruct (events s1); injection Hop as _ <-; [done|keep_inv Hs1].
Qed.

Lemma set_max_concurrent_inv s d count s' :
  sinv s → 0 <= into_inner count → at_dir (max_remote s) d + into_inner count <= MAX_STREAM_COUNT →
  set_max_concurrent s d count = Ret s' → sinv s'.
Proof.
  intros (Hf & Ht & He) Hc Hroom Hop. unfold set_max_concurrent in Hop.
  set (s1 := set_max_concurrent_remote_count (set_flow_control_adjusted s true) _) in Hop.
  assert (Hf1 : flow_ok s1).
  { destruct Hf. split; simpl; try assumption. intros d'. rewrite at_set_dir. by case_decide. }
  destruct (ensure_ok F s1 d He Ht (f_concurrent _ Hf1)) as (A & B & C & mr & al & Hop' & Ht' & He' & _).
  { simpl. rewrite at_set_dir, decide_True by done. done. }
  rewrite Hop in Hop'. injection Hop' as ->. by apply (with_remote_inv F s1).
Qed.

Lemma configure_receive_window_inv s w :
  sinv s → 0 <= into_inner w → sinv (configure_receive_window s w).2.
Proof.
  intros (Hf & Ht & He) Hw. unfold configure_receive_window, sat_add.
  destruct (Z.ltb_spec (receive_window s) (into_inner w)); (split; [|by split]);
    destruct Hf as [? ? ? ? [? [? ?]] ? ? ?]; split; simpl; try assumption; unfold u64_max in *; lia.
Qed.

(** * Writing *)

Lemma write_source_inv {B} `{BytesSource B} s closed id (src : B) res s' src' :
  sinv s → write_source s closed id src = Ret (res, s', src') → sinv s'.
Proof.
  intros Hs Hop. unfold write_source in Hop. destruct closed; [by injection Hop as _ <- _|].
  apply M_bind_ret in Hop as (limit & Hlim & Hop). destruct (send s !! id) as [o|] eqn:Hl;
    [|by injection Hop as _ <- _]. set (x := get_or_insert_send (max_send_data s id) o) in *.
  assert (Hl0 : 0 <= limit ∧ limit <= max_data s - data_sent s).
  { destruct Hs as (Hf & _). pose proof (f_sent _ Hf). unfold write_limit in Hlim.
    rewrite usub_ok in Hlim by lia. injection Hlim as <-. unfold sat_sub. zcases; lia. }
  destruct (limit =? 0).
  { injection Hop as _ <- _. destruct (negb _).
    - assert (Hp : sinv (put_send s id (mkSend (s_max_data x) (s_state x) (s_pending x) (priority x)
        (fin_pending x) true (stop_reason x)))) by (by eapply put_send_entry). keep_inv Hp.
    - by eapply put_send_entry. }
  apply M_bind_ret in Hop as ([[r y] src1] & Hw & Hop).
  apply Send_write_ok in Hw as [Hy Hr]; [|by eapply send_entry_ok|lia].
  assert (Hp : sinv (put_send s id y)) by (apply put_send_inv; [done|by rewrite Hl|done]).
  destruct r as [w|e]; [|by injection Hop as _ <- _].
  apply M_bind_ret in Hop as (ds & Hds & Hop). apply M_bind_ret in Hop as (ua & _ & Hop).
  apply M_bind_ret in Hop as (q & _ & Hop). injection Hop as _ <- _.
  unfold uadd in Hds. destruct (_ <=? u64_max); [|done]. injection Hds as <-.
  destruct Hp as (Hf & Ht & He). split; [|by split]. destruct Hf. split; simpl in *; try assumption. lia.
Qed.

Lemma finish_stream_inv s id res s' : sinv s → finish_stream s id = Ret (res, s') → sinv s'.
Proof.
  intros Hs Hop. unfold finish_stream in Hop. destruct (send s !! id) as [o|] eqn:Hl; [|by injection Hop as _ <-].
  set (x := get_or_insert_send (max_send_data s id) o) in *. destruct (finish x) as [r y] eqn:Hfin.
  assert (Hp : sinv (put_send s id y)).
  { unfold finish in Hfin. eapply put_send_entry; [done..| |];
      repeat case_match; injection Hfin as _ <-; simpl; done || lia. }
  destruct r; [|by injection Hop as _ <-]. apply M_bind_ret in Hop as (q & _ & Hop). injection Hop as _ <-.
  by apply set_pending_inv.
Qed.

Lemma reset_stream_inv s p id code res s' p' :
  sinv s → reset_stream s p id code = Ret (res, s', p') → sinv s'.
Proof.
  intros Hs Hop. unfold reset_stream in Hop. destruct (send s !! id) as [o|] eqn:Hl; [|by injection Hop as _ <- _].
  set (x := get_or_insert_send (max_send_data s id) o) in *.
  assert (Hp : sinv (put_send s id x)) by (by eapply put_send_entry).
  destruct (is_reset x); [by injection Hop as _ <- _|].
  apply M_bind_ret in Hop as (n & _ & Hop). apply M_bind_ret in Hop as (u & _ & Hop). injection Hop as _ <- _.
  assert (Hu : sinv (set_unacked_data (put_send s id x) u)) by keep_inv Hp.
  eapply put_send_same; [exact Hu|apply lookup_insert_eq|..]; unfold Send_reset; by destruct (s_state x).
Qed.

Lemma set_priority_inv s id n : sinv s → sinv (set_priority s id n).2.
Proof.
  intros Hs. unfold set_priority. destruct (send s !! id) as [o|] eqn:Hl; [|done]. by eapply put_send_entry.
Qed.

Lemma write_stream_frames_inv fuel s buf n fair metas out buf' s' :
  sinv s → write_stream_frames_loop fuel s buf n fair metas = Ret (out, buf', s') → sinv s'.
Proof.
  revert s buf metas. induction fuel as [|fuel IH]; intros s buf metas Hs Hop; [done|].
  cbn [write_stream_frames_loop] in Hop. destruct (_ <? n); [|by injection Hop as _ _ <-].
  destruct (queue_pop (Streams.pending s)) as [[e|] q]; [|by injection Hop as _ _ <-].
  apply (set_pending_inv _ q) in Hs. set (s1 := Streams.set_pending s q) in *.
  cbv zeta in Hop. destruct (get_send s1 (ps_id e)) as [x|] eqn:Hl; [|by eapply IH]. apply get_send_Some in Hl.
  destruct (is_reset x); [by eapply IH|].
  do 4 (apply M_bind_ret in Hop as (? & _ & Hop)). apply M_bind_ret in Hop as ([[offs el] b] & Hb & Hop).
  apply poll_transmit_offset in Hb. apply M_bind_ret in Hop as (q2 & _ & Hop).
  do 2 (apply M_bind_ret in Hop as (? & _ & Hop)). eapply IH; [|exact Hop].
  eapply put_send_same; [by apply set_pending_inv|exact Hl|done..].
Qed.

(** * Control frames *)

Lemma tx_push_streams (t : Tx) s p sent frame t' : tx_push t s p sent frame = Ret t' → tx_streams t' = s.
Proof. intros Hop. apply M_bind_ret in Hop as (bs & _ & Hop). by injection Hop as <-. Qed.

Lemma write_resets_streams q t n t' : write_resets (H := H) q t n = Ret t' → tx_streams t' = tx_streams t.
Proof.
  revert t. induction q as [|[id code] q IH]; intros t Hop; cbn [write_resets] in Hop.
  { by destruct (_ <? n); injection Hop as <-. }
  destruct (_ <? n); [|by injection Hop as <-]. destruct (get_send _ _); [|by apply IH in Hop].
  apply M_bind_ret in Hop as (off & _ & Hop). apply M_bind_ret in Hop as (t1 & Ht1 & Hop).
  apply tx_push_streams in Ht1. apply IH in Hop. congruence.
Qed.

Lemma write_stop_sendings_streams q t n t' :
  write_stop_sendings (H := H) q t n = Ret t' → tx_streams t' = tx_streams t.
Proof.
  revert t. induction q as [|f q IH]; intros t Hop; cbn [write_stop_sendings] in Hop.
  { by destruct (_ <? n); injection Hop as <-. }
  destruct (_ <? n); [|by injection Hop as <-]. apply M_bind_ret in Hop as (t1 & Ht1 & Hop).
  apply tx_push_streams in Ht1. apply IH in Hop. congruence.
Qed.

Lemma write_max_data_inv (t : Tx) n t' :
  sinv (tx_streams t) → write_max_data t n = Ret t' → sinv (tx_streams t').
Proof.
  intros Hs Hop. unfold write_max_data in Hop. destruct (_ && _); [|by injection Hop as <-].
  apply tx_push_streams in Hop. rewrite Hop. destruct (_ <? into_inner _) eqn:Hlt; [|done].
  apply Z.ltb_lt in Hlt. destruct Hs as (Hf & Ht & He). split; [|by split].
  destruct Hf. split; simpl in *; try assumption. unfold VarInt_from_u64 in *.
  destruct (Z.ltb_spec (local_max_data (tx_streams t)) (2 ^ 62)); simpl in *; lia.
Qed.

Lemma get_open_recv_Some s id r : get_open_recv s id = Some r → recv s !! id = Some (Some (Open r)).
Proof. unfold get_open_recv, as_open_recv. by repeat case_match; intros; simplify_eq. Qed.

Lemma write_max_stream_datas_inv pick fuel (t : Tx) n t' :
  sinv (tx_streams t) → write_max_stream_datas pick fuel t n = Ret t' → sinv (tx_streams t').
Proof.
  revert t. induction fuel as [|fuel IH]; intros t Hs Hop; [done|]. cbn [write_max_stream_datas] in Hop.
  destruct (_ <? n); [|by injection Hop as <-]. destruct (pick _) as [id|]; [|by injection Hop as <-].
  cbv zeta in Hop. destruct (get_open_recv (tx_streams t) id) as [r|] eqn:Hl; [|by apply IH in Hop].
  apply get_open_recv_Some in Hl. destruct (negb _); [by apply IH in Hop|].
  apply M_bind_ret in Hop as ([m tr] & Hm & Hop). apply M_bind_ret in Hop as (t1 & Ht1 & Hop).
  apply tx_push_streams in Ht1. apply IH in Hop; [done|]. rewrite Ht1.
  apply put_recv_inv; [done|by rewrite Hl|]. eapply record_sent_ok; [|exact Hm].
  destruct Hs as (_ & _ & He). by apply (e_recv _ _ _ _ _ He id (Open r)).
Qed.

Lemma write_control_frames_inv pick s p rt buf n t :
  sinv s → write_control_frames pick s p rt buf n = Ret t → sinv (tx_streams t).
Proof.
  intros Hs Hop. unfold write_control_frames in Hop.
  apply M_bind_ret in Hop as (t1 & H1 & Hop). apply M_bind_ret in Hop as (t2 & H2 & Hop).
  apply M_bind_ret in Hop as (t3 & H3 & Hop). apply M_bind_ret in Hop as (t4 & H4 & Hop).
  apply M_bind_ret in Hop as (t5 & H5 & Hop).
  apply write_resets_streams in H1. apply write_stop_sendings_streams in H2. simpl in H1.
  apply write_max_data_inv in H3; [|by rewrite H2, H1].
  apply write_max_stream_datas_inv in H4; [|done].
  assert (Hs5 : sinv (tx_streams t5)).
  { refine (mfold_ind (fun t => sinv (tx_streams t)) _ _ _ _ _ H4 H5). intros ta d tb _ Ha Hop'.
    unfold write_max_streams in Hop'. destruct (_ || _); [by injection Hop' as <-|].
    apply tx_push_streams in Hop'. rewrite Hop'. keep_inv Ha. }
  refine (mfold_ind (fun t => sinv (tx_streams t)) _ _ _ _ _ Hs5 Hop). intros ta d tb _ Ha Hop'.
  unfold write_streams_blocked in Hop'. cbv zeta in Hop'.
  assert (Hb : sinv (if at_dir (streams_blocked (tx_streams ta)) d
    then set_streams_blocked (tx_streams ta) (set_dir (streams_blocked (tx_streams ta)) d false) else tx_streams ta)).
  { destruct (at_dir (streams_blocked (tx_streams ta)) d); [keep_inv Ha|exact Ha]. }
  destruct (_ || _); [by injection Hop' as <-|]. apply tx_push_streams in Hop'. by rewrite Hop'.
Qed.

(** * 0-RTT rejection *)

Definition delete_all {A} (g : Z → StreamId) (l : list Z) (m : gmap StreamId A) : gmap StreamId A :=
  fold_left (fun m i => delete (g i) m) l m.

Lemma lookup_delete_all {A} g l (m : gmap StreamId A) id :
  delete_all g l m !! id = if decide (id ∈ g <$> l) then None else m !! id.
Proof.
  revert m. induction l as [|i l IH]; intros m; simpl; [done|]. rewrite IH.
  destruct (decide (id ∈ g <$> l)) as [Hin|Hin].
  { by rewrite decide_True by (by right). }
  destruct (decide (id = g i)) as [->|Hne].
  - rewrite decide_True by left. apply lookup_delete_eq.
  - rewrite lookup_delete_ne by done. rewrite decide_False; [done|]. rewrite elem_of_cons. tauto.
Qed.

Lemma drop_local_loop d l s s' :
  mfold (fun s i =>
      let id := StreamId_new (side s) d i in
      _ ← unwrap (send s !! id);
      let s := set_send s (delete id (send s)) in
      match d with
      | Bi => _ ← unwrap (recv s !! id); mret (set_recv s (delete id (recv s)))
      | Uni => mret s
      end) l s = Ret s' →
  s' = with_table s (delete_all (StreamId_new (side s) d) l (send s))
         (if decide (d = Bi) then delete_all (StreamId_new (side s) d) l (recv s) else recv s) (free_recv s).
Proof.
  revert s. induction l as [|i l IH]; intros s Hop.
  { injection Hop as <-. case_decide; by destruct s. }
  apply M_bind_ret in Hop as (s1 & H1 & Hop). apply IH in Hop. rewrite Hop. clear Hop IH.
  apply M_bind_ret in H1 as (u & _ & H1). destruct d.
  - apply M_bind_ret in H1 as (v & _ & H1). injection H1 as <-. by rewrite !decide_True by done.
  - injection H1 as <-. by rewrite !decide_False by done.
Qed.

(** The table without our streams of one direction. *)
Lemma table_drop_local sd S R S' R' nx mr al d :
  table_ok sd S R nx mr al → S' ⊆ S → R' ⊆ R →
  (∀ id, initiator id ≠ sd → id ∈ S ∪ R → id ∈ S' ∪ R') →
  (∀ id, id ∈ S' ∪ R' → initiator id = sd → dir id ≠ d) →
  table_ok sd S' R' (set_dir nx d 0) mr al.
Proof.
  intros Ht HS HR Hrem Hloc. destruct (table_drop _ _ _ _ _ _ _ _ Ht HS HR Hrem) as [Hs Hr Hb Hl]. split; [| | |done].
  - intros id Hid. destruct (Hs id Hid) as [Hw Hx]. split; [done|]. case_decide as Hi; [|done].
    rewrite at_set_dir, decide_False; [done|]. intros Hd. by apply (Hloc id); [by apply elem_of_union_l|..].
  - intros id Hid. destruct (Hr id Hid) as [Hw Hx]. split; [done|]. case_decide as Hi; [|done].
    destruct Hx as [Hx1 Hx2]. split; [done|]. destruct d; [|done]. exfalso.
    by apply (Hloc id); [by apply elem_of_union_r|..].
  - intros d'. rewrite at_set_dir. specialize (Hb d'). rewrite max_stream_count in *. case_decide; lia.
Qed.

Lemma drop_local_inv d s :
  sinv s → let l := seqZ 0 (at_dir (next s) d) in
  sinv (set_next (with_table s (delete_all (StreamId_new (side s) d) l (send s))
    (if decide (d = Bi) then delete_all (StreamId_new (side s) d) l (recv s) else recv s) (free_recv s))
    (set_dir (next s) d 0)).
Proof.
  intros (Hf & Ht & He) l. set (A := delete_all _ l (send s)). set (B := if decide (d = Bi) then _ else _).
  assert (HA : ∀ id x, A !! id = Some x → send s !! id = Some x).
  { intros id x. unfold A. rewrite lookup_delete_all. by case_decide. }
  assert (HB : ∀ id x, B !! id = Some x → recv s !! id = Some x).
  { intros id x. unfold B. case_decide; [|done]. rewrite lookup_delete_all. by case_decide. }
  split; [by destruct Hf|]. split; cycle 1.
  { destruct He as [Hs Hr Hfr]. split; simpl; eauto. }
  unfold table_of. simpl.
  assert (Hg : ∀ id i, id = StreamId_new (side s) d i → i ∈ l → initiator id = side s ∧ dir id = d).
  { intros id i -> Hi%elem_of_seqZ. pose proof (t_bound _ _ _ _ _ _ Ht d). rewrite max_stream_count in *.
    destruct (StreamId_parts (side s) d i) as (? & ? & _); [lia|done]. }
  apply (table_drop_local _ (dom (send s)) (dom (recv s))); [done| | | |].
  - intros id. rewrite !elem_of_dom. intros [x Hx]. eauto.
  - intros id. rewrite !elem_of_dom. intros [x Hx]. eauto.
  - intros id Hrem. assert (Hnot : id ∉ StreamId_new (side s) d <$> l).
    { intros (i & -> & Hi)%list_elem_of_fmap. destruct (Hg _ i eq_refl Hi). congruence. }
    rewrite !elem_of_union, !elem_of_dom. unfold A, B. case_decide; by rewrite ?lookup_delete_all, ?decide_False.
  - intros id Hid Hloc Hd. assert (Hin : id_wf id ∧ index id < at_dir (next s) d).
    { apply elem_of_union in Hid as [[x Hx]%elem_of_dom|[x Hx]%elem_of_dom].
      - apply HA, elem_of_dom_2 in Hx. destruct (t_send _ _ _ _ _ _ Ht id Hx) as [Hw Hy].
        rewrite decide_True, Hd in Hy by done. done.
      - apply HB, elem_of_dom_2 in Hx. destruct (t_recv _ _ _ _ _ _ Ht id Hx) as [Hw Hy].
        rewrite decide_True, Hd in Hy by done. destruct Hy as [-> ?]. done. }
    destruct Hin as [Hw Hlt]. assert (Hmem : id ∈ StreamId_new (side s) d <$> l).
    { apply list_elem_of_fmap. exists (index id). split; [rewrite <- Hd, <- Hloc; symmetry; by apply StreamId_eta|].
      apply elem_of_seqZ. pose proof (index_nonneg id Hw). lia. }
    apply elem_of_union in Hid as [[x Hx]%elem_of_dom|[x Hx]%elem_of_dom].
    + unfold A in Hx. by rewrite lookup_delete_all, decide_True in Hx.
    + unfold B in Hx. destruct (decide (d = Bi)) as [|Hnb].
      { by rewrite lookup_delete_all, decide_True in Hx. }
      apply elem_of_dom_2 in Hx. destruct (t_recv _ _ _ _ _ _ Ht id Hx) as [_ Hy].
      rewrite decide_True in Hy by done. destruct Hy. congruence.
Qed.

Lemma zero_rtt_rejected_inv s s' : sinv s → zero_rtt_rejected s = Ret s' → sinv s'.
Proof.
  intros Hs Hop. apply M_bind_ret in Hop as (s1 & H1 & Hop). injection Hop as <-.
  assert (Hs1 : sinv s1).
  { refine (mfold_ind sinv _ _ _ _ _ Hs H1). intros sa d sb _ Ha Hop. apply M_bind_ret in Hop as (sc & Hc & Hop).
    apply drop_local_loop in Hc. injection Hop as <-. rewrite Hc.
    pose proof (drop_local_inv d sa Ha) as Hd. cbv zeta in Hd |- *.
    match goal with |- context [if ?b then _ else _] => destruct b end; [keep_inv Hd|exact Hd]. }
  destruct Hs1 as (Hf & Ht & He). split; [|by split]. destruct Hf. split; simpl; try assumption. lia.
Qed.

(** * Transport parameters *)

Record params_ok s (p : StreamParams) : Prop := {
  po_data : 0 <= into_inner (p_max_stream_data_uni p) ∧ 0 <= into_inner (p_max_stream_data_bidi_local p) ∧
    0 <= into_inner (p_max_stream_data_bidi_remote p);
  po_streams : into_inner (p_max_streams_bidi p) <= MAX_STREAM_COUNT ∧ into_inner (p_max_streams_uni p) <= MAX_STREAM_COUNT;
  po_sent : ∀ id x, send s !! id = Some (Some x) → initiator id ≠ side s →
    s_offset x <= into_inner (p_max_stream_data_bidi_local p)
}.

Lemma set_params_inv s p : sinv s → params_ok s p → sinv (set_params s p).
Proof.
  intros Hs [Hpd [Hps1 Hps2] Hpo]. unfold set_params. set (v := into_inner (p_max_stream_data_bidi_local p)) in *.
  set (s1 := received_max_data _ _).
  assert (Hs1 : sinv s1 ∧ ∀ id x, send s1 !! id = Some (Some x) → initiator id ≠ side s1 → s_offset x <= v).
  { split; [|exact Hpo]. unfold s1. apply received_max_data_inv. destruct Hs as (Hf & Ht & He). split; [|by split].
    destruct Hf. split; simpl; try assumption. intros []; [exact Hps1|exact Hps2]. }
  assert (Hbi : ∀ i, i ∈ seqZ 0 (at_bi (max_remote s1)) → 0 <= i < MAX_STREAM_COUNT).
  { intros i Hi%elem_of_seqZ. destruct Hs1 as ((_ & Ht & _) & _). destruct (t_bound _ _ _ _ _ _ Ht Bi) as [_ ?].
    simpl in *. lia. }
  clearbody s1. cbv zeta. revert Hbi. generalize (seqZ 0 (at_bi (max_remote s1))) as l. intros l.
  clear Hs Hpo. revert s1 Hs1. induction l as [|i l IH]; intros s1 [Hs1 Ho] Hbi; [done|]. simpl.
  apply IH; [|intros; apply Hbi; by right]. destruct (get_send s1 _) as [x|] eqn:Hl; [|done].
  apply get_send_Some in Hl. destruct (remote_parts (side s1) Bi i) as (Hini & _); [apply Hbi; left|].
  assert (Hrem : initiator (StreamId_new (Side_not (side s1)) Bi i) ≠ side s1) by (rewrite Hini; apply Side_not_neq).
  split.
  - apply put_send_inv; [done|by rewrite Hl|]. specialize (Ho _ x Hl Hrem). destruct Hs1 as (_ & _ & He).
    pose proof (e_send _ _ _ _ _ He _ x Hl) as Hx. unfold send_ok in *. simpl in *. unfold s_offset in *. simpl. lia.
  - intros id y Hy Hr. cbn [send put_send set_send] in Hy. apply lookup_insert_Some in Hy as [[<- [= <-]]|[_ Hy]]; [|by eapply Ho].
    by apply (Ho _ x Hl).
Qed.

(** * The initial state *)

Lemma table_empty sd : table_ok sd ∅ ∅ (mkPerDir 0 0) (mkPerDir 0 0) (mkPerDir 0 0).
Proof.
  assert (HM := max_stream_count).
  split; [intros id Hid; by apply not_elem_of_empty in Hid..| |]; intros []; simpl; lia || (by rewrite HM) || done.
Qed.

Definition config_ok (max_remote_uni max_remote_bi receive_window stream_receive_window : VarInt) : Prop :=
  0 <= into_inner max_remote_uni <= MAX_STREAM_COUNT ∧ 0 <= into_inner max_remote_bi <= MAX_STREAM_COUNT ∧
  VarInt_wf receive_window ∧ VarInt_wf stream_receive_window.

Lemma new_sinv sd mu mb sw rw srw :
  config_ok mu mb rw srw → ∃ s, Streams.new (H := H) sd mu mb sw rw srw = Ret s ∧ sinv s.
Proof.
  intros (Hmu & Hmb & Hrw & Hsrw). unfold VarInt_wf in *. unfold Streams.new.
  set (this := mkStreamsState sd _ _ _ _ _ _ _ _ _ _ _ _ _ _ _ _ _ _ _ _ _ _ _ _ _ _ _ _ _ _ _).
  assert (He : entries_of F this) by (split; simpl; [done..|constructor]).
  assert (Hf : flow_ok this).
  { split; simpl; try lia; [unfold u64_max; lia|intros []; simpl; rewrite max_stream_count; lia|intros []; simpl; lia]. }
  pose proof (table_empty sd) as Ht0. unfold Dir_iter. cbn [mfold].
  destruct (insert_remote_loop F (fun _ i => StreamId_new (Side_not sd) Bi i) this Bi 0 (mkPerDir 0 0) (mkPerDir 0 0)
    0 0 (into_inner mb)) as (A & B & C & Hloop & Ht1 & He1); [done|done|lia..
    |unfold this; cbn [side send recv next]; rewrite !dom_empty_L; exact Ht0|].
  change (at_dir (max_remote this) Bi) with (into_inner mb). rewrite Hloop. cbn [mbind M_bind].
  set (s1 := with_table this A B C) in *.
  destruct (insert_remote_loop F (fun _ i => StreamId_new (Side_not sd) Uni i) s1 Uni 0
    (mkPerDir (into_inner mb) 0) (mkPerDir (into_inner mb) 0) 0 0 (into_inner mu))
    as (A' & B' & C' & Hloop' & Ht2 & He2); [done|done|lia..|exact Ht1|].
  change (at_dir (max_remote s1) Uni) with (into_inner mu). rewrite Hloop'. cbn [mbind M_bind].
  eexists. split; [reflexivity|]. split; [by destruct Hf|]. split; [exact Ht2|exact He2].
Qed.

(** * Steps *)

(** A read session: any number of [next] calls. *)
Inductive chunks_run : Chunks → StreamsState H → Chunks → StreamsState H → Prop :=
| run_nil c s : chunks_run c s c s
| run_next c s n res c1 s1 c2 s2 :
    0 <= n → Chunks_next c s n = Ret (res, c1, s1) → chunks_run c1 s1 c2 s2 → chunks_run c s c2 s2.

(** What the peer, the application and the connection do to the table.  Reads
    are whole sessions: the table is borrowed while one is open. *)
Inductive step : StreamsState H → StreamsState H → Prop :=
| step_received s frame payload_len res s' :
    (∀ o, recv s !! st_id frame = Some o →
      frame_ok F (get_or_insert_recv (stream_receive_window s) o) frame payload_len) →
    received s frame payload_len = Ret (res, s') → step s s'
| step_received_reset s frame res s' :
    VarInt_wf (rs_final_offset frame) → received_reset s frame = Ret (res, s') → step s s'
| step_stop_sending s id code : step s (received_stop_sending s id code)
| step_max_data s n : step s (received_max_data s n)
| step_max_streams s d n : step s (received_max_streams s d n).2
| step_max_stream_data s id n res s' : received_max_stream_data s id n = Ret (res, s') → step s s'
| step_ack s frame s' : received_ack_of s frame = Ret s' → step s s'
| step_reset_acked s id s' : reset_acked s id = Ret s' → step s s'
| step_lost s frame s' : Streams.retransmit s frame = Ret s' → step s s'
| step_retry s s' : Streams.retransmit_all_for_0rtt s = Ret s' → step s s'
| step_rejected s s' : zero_rtt_rejected s = Ret s' → step s s'
| step_params s p : params_ok s p → step s (set_params s p)
| step_stream_frames s buf n fair out buf' s' :
    write_stream_frames s buf n fair = Ret (out, buf', s') → step s s'
| step_control_frames s pick p rt buf n t :
    write_control_frames pick s p rt buf n = Ret t → step s (tx_streams t)
| step_poll s e s' : poll s = Ret (e, s') → step s s'
| step_open s closed d o s' : open s closed d = Ret (o, s') → step s s'
| step_accept s d o s' : accept s d = Ret (o, s') → step s s'
| step_read s id ordered c s1 c2 s2 p t c3 s3 p' :
    switch_ok s id ordered → Chunks_new s id ordered = Ret (Ok c, s1) → chunks_run c s1 c2 s2 →
    Chunks_finalize c2 s2 p = Ret (t, c3, s3, p') → step s s3
| step_stop s p id code res s' p' : stop_stream s p id code = Ret (res, s', p') → step s s'
| step_poll_reset s p id res s' p' : poll_received_reset s p id = Ret (res, s', p') → step s s'
| step_write {B} `{BytesSource B} s closed id (src : B) res s' src' :
    write_source s closed id src = Ret (res, s', src') → step s s'
| step_finish s id res s' : finish_stream s id = Ret (res, s') → step s s'
| step_reset s p id code res s' p' : reset_stream s p id code = Ret (res, s', p') → step s s'
| step_priority s id n : step s (set_priority s id n).2
| step_max_concurrent s d count s' :
    0 <= into_inner count → at_dir (max_remote s) d + into_inner count <= MAX_STREAM_COUNT →
    set_max_concurrent s d count = Ret s' → step s s'
| step_send_window s w : step s (configure_send_window s w)
| step_receive_window s w : 0 <= into_inner w → step s (configure_receive_window s w).2.

(** States a connection reaches before it has used up the identifier space. *)
Inductive reachable : StreamsState H → Prop :=
| reach_new sd mu mb sw rw srw s :
    config_ok mu mb rw srw → Streams.new sd mu mb sw rw srw = Ret s → reachable s
| reach_step s s' : reachable s → sane s → step s s' → reachable s'.

Lemma chunks_run_inv c s c' s' : session_ok F c s → chunks_run c s c' s' → session_ok F c' s'.
Proof. intros Hc Hrun. induction Hrun; [done|]. eauto using Chunks_next_inv. Qed.

Lemma step_inv s s' : sinv s → sane s → step s s' → sinv s'.
Proof.
  intros Hs Hsane Hst. pose proof Hsane as [Hroom Hsum]. destruct Hst as
    [s frame n res s' Hfr Hop|s frame res s' Hwf Hop|s id code|s n|s d n|s id n res s' Hop|s frame s' Hop
    |s id s' Hop|s frame s' Hop|s s' Hop|s s' Hop|s p Hp|s buf n fair out buf' s' Hop|s pick p rt buf n t Hop
    |s e s' Hop|s closed d o s' Hop|s d o s' Hop|s id ordered c s1 c2 s2 p t c3 s3 p' Hsw Hnew Hrun Hfin
    |s p id code res s' p' Hop|s p id res s' p' Hop|B HB s closed id src res s' src' Hop|s id res s' Hop
    |s p id code res s' p' Hop|s id n|s d count s' Hc Hr Hop|s w|s w Hw].
  - destruct (received_ok F s frame n Hs Hsane Hfr) as (res1 & s1 & Hop1 & Hs1 & _). congruence.
  - destruct (received_reset_ok F s frame Hs Hsane Hwf) as (res1 & s1 & Hop1 & Hs1 & _). congruence.
  - by apply received_stop_sending_inv.
  - by apply received_max_data_inv.
  - by apply received_max_streams_inv.
  - by eapply received_max_stream_data_inv.
  - by eapply received_ack_of_inv.
  - by eapply reset_acked_inv.
  - by eapply retransmit_inv.
  - by eapply retransmit_all_inv.
  - by eapply zero_rtt_rejected_inv.
  - by apply set_params_inv.
  - by eapply write_stream_frames_inv.
  - by eapply write_control_frames_inv.
  - by eapply poll_inv.
  - by eapply open_inv.
  - by eapply accept_inv.
  - destruct (Chunks_new_inv F s id ordered Hs Hroom Hsw) as (res & s0 & Hnew' & Hc).
    rewrite Hnew in Hnew'. injection Hnew' as <- <-. eapply Chunks_finalize_inv; [|exact Hfin].
    by eapply chunks_run_inv.
  - destruct (stop_stream_inv F s p id code Hs Hroom) as (res1 & s1 & p1 & Hop1 & Hs1). congruence.
  - by eapply poll_received_reset_inv.
  - by eapply write_source_inv.
  - by eapply finish_stream_inv.
  - by eapply reset_stream_inv.
  - by apply set_priority_inv.
  - by eapply set_max_concurrent_inv.
  - keep_inv Hs.
  - by apply configure_receive_window_inv.
Qed.

Lemma reachable_inv s : reachable s → sinv s.
Proof.
  induction 1 as [sd mu mb sw rw srw s Hc Hn|s s' _ IH Hsane Hst]; [|by eapply step_inv].
  destruct (new_sinv sd mu mb sw rw srw Hc) as (s0 & Hn0 & Hs0). congruence.
Qed.
End Steps.
