(* ===== verification/StreamsWrite.v ===== *)
(** The STREAM frames of a packet: [StreamsState::write_stream_frames] of
    [quic-proto/src/connection/streams/state.rs], from the send buffers of the
    streams to the bytes a peer's frame iterator reads back. *)
From stdpp Require Import gmap.
From S2P Require Import Prelude Coding RangeSet Ids Shared Frame FrameTheorems SendBuffer Assembler Recv Send.
From S2P Require Import PendingStreams Retransmits Streams.
Open Scope Z_scope.

(** * What the peer reads *)

(** The frames that iterating over a payload gives. *)
Inductive yields : Iter → list Frame → Prop :=
| yields_end it : Iter_next it = (None, it) → yields it []
| yields_more it f it' fs : Iter_next it = (Some (Ok f), it') → yields it' fs → yields it (f :: fs).

(** The frame that a [StreamMeta] stands for, [w] being the stream's data. *)
Definition frame_of (W : StreamId → list Z) (m : StreamMeta) : Frame :=
  let r := sm_offsets m in
  FStream (mkStream (sm_id m) (rstart r) (sm_fin m) (takeZ (rend r - rstart r) (dropZ (rstart r) (W (sm_id m))))).

(** * Send buffers *)

(** A buffer of a stream with data [w] in which nothing acknowledged is queued. *)
Definition buffer_ok (w : list Z) (b : SendBuffer) : Prop :=
  SendBuffer.inv w b ∧ ∀ x, acked b x → ¬ queued b x.

(** A frame without a length field takes all of the space. *)
Lemma poll_transmit_fill w b max_len r b' :
  SendBuffer.inv w b → 16 <= max_len → poll_transmit b max_len = Ret ((r, false), b') →
  rend r - rstart r + meta_size (rstart r) false = max_len.
Proof.
  intros Hi Hm Hop. pose proof Hi as [Ho Hmax Hb Hu Hd Ha Has Hr Hrr]. unfold poll_transmit in Hop.
  apply M_bind_ret in Hop as (u & _ & Hop). unfold BTree.pop_min, BTree.peek_min in Hop.
  destruct (retransmits b) as [|[x y] rt]; cbn [head] in Hop.
  - destruct (poll_plan max_len (unsent b) (SendBuffer.offset b)) as (m1 & m2 & H1 & H2 & H3 & H4 & _);
      [done|unfold SendBuffer.base in *; lia|lia|].
    rewrite H1 in Hop. cbn [mbind M_bind] in Hop. rewrite (usub_ok (SendBuffer.offset b)) in Hop by lia.
    cbn [mbind M_bind] in Hop. rewrite H2 in Hop. cbn [mbind M_bind] in Hop. injection Hop as <- He <-. cbn [rstart rend].
    rewrite He in *. apply Z.ltb_ge in He. injection H2 as <-. unfold sat_add, u64_max, SendBuffer.base in *. lia.
  - destruct Hr as (Hx1 & Hx2 & Hx3 & _). apply Forall_cons in Hrr as [Hxy _]. cbn [rstart rend] in *.
    destruct (poll_plan max_len x y) as (m1 & m2 & H1 & H2 & H3 & H4 & _); [done|lia|lia|].
    cbn [rstart rend] in Hop.
    rewrite H1 in Hop. cbn [mbind M_bind] in Hop. rewrite (usub_ok y x) in Hop by lia.
    cbn [mbind M_bind] in Hop. rewrite H2 in Hop. cbn [mbind M_bind] in Hop. injection Hop as <- He _. cbn [rstart rend].
    rewrite He in *. apply Z.ltb_ge in He. injection H2 as <-. unfold sat_add, u64_max in *. lia.
Qed.

(** One poll: the range, its bytes, the buffer after it. *)
Lemma poll_copy w b max_len :
  buffer_ok w b → 16 <= max_len →
  ∃ r el b', poll_transmit b max_len = Ret ((r, el), b') ∧ buffer_ok w b' ∧
    0 <= rstart r <= rend r ∧ rend r <= len w ∧ len w < 2 ^ 62 ∧
    rend r - rstart r + meta_size (rstart r) el <= max_len ∧
    (el = false → rend r - rstart r + meta_size (rstart r) el = max_len) ∧
    copy_loop (Z.to_nat (rend r - rstart r)) b' r = Ret (takeZ (rend r - rstart r) (dropZ (rstart r) w)).
Proof.
  intros [Hi Hac] Hm. destruct (poll_transmit_ok _ _ _ Hi Hm)
    as (r & el & b' & Hop & Hi' & E1 & E2 & E3 & Hu & Hr1 & Hr2 & HQ & HN & Hsz & _).
  exists r, el, b'. split; [done|]. split.
  { split; [done|]. intros x Hx Hq. apply (Hac x); [|apply HQ; by left].
    unfold acked in *. by rewrite <- E2, <- E3. }
  pose proof (inv_unsent _ _ Hi'). pose proof (inv_offset _ _ Hi'). pose proof (inv_max _ _ Hi').
  split; [done|]. split; [lia|]. split; [lia|]. split; [done|]. split.
  { intros ->. exact (poll_transmit_fill _ _ _ _ _ Hi Hm Hop). }
  destruct (decide (rstart r = rend r)) as [Heq|Hne].
  { destruct r as [a e]; simpl in *. subst e. rewrite Z.sub_diag. simpl. by rewrite Z.eqb_refl. }
  assert (SendBuffer.base b' <= rstart r).
  { rewrite E2. destruct (decide (rstart r < SendBuffer.base b)); [exfalso|lia].
    apply (Hac (rstart r)); [left; lia|]. apply HQ. right. lia. }
  destruct r; simpl in *. apply copy_loop_ok; auto; lia.
Qed.

(** * Headers *)

Lemma meta_size_eq a el : 0 <= a < 2 ^ 62 → meta_size a el = (if a =? 0 then 0 else var_size a) + (if el then 8 else 0).
Proof. intros Ha. unfold meta_size. destruct (a =? 0); [done|]. by rewrite VarInt_size_ok. Qed.

Lemma StreamMeta_encode_len id a e fin el :
  id_wf id → 0 <= a <= e → e < 2 ^ 62 →
  ∃ hdr, StreamMeta_encode (mkStreamMeta id (mkRange a e) fin) el = Ret hdr ∧
    2 <= len hdr <= 1 + var_size (stream_id id) + meta_size a el ∧
    (el = false → len hdr = 1 + var_size (stream_id id) + meta_size a el).
Proof.
  intros Hid Ha He. unfold StreamMeta_encode. cbn [sm_id sm_offsets sm_fin rstart rend].
  destruct (write_var_ok (stream_id id) Hid) as (ib & Hib & Hil).
  change (encode id) with (write_var (stream_id id)). rewrite Hib, meta_size_eq by lia.
  assert (Hty : ∃ t, write_var (if fin then Z.lor (if el then Z.lor (if a =? 0 then STREAM_TYS_start else
      Z.lor STREAM_TYS_start 4) 2 else if a =? 0 then STREAM_TYS_start else Z.lor STREAM_TYS_start 4) 1
      else if el then Z.lor (if a =? 0 then STREAM_TYS_start else Z.lor STREAM_TYS_start 4) 2
      else if a =? 0 then STREAM_TYS_start else Z.lor STREAM_TYS_start 4) = Ret [t]).
  { destruct (a =? 0), el, fin; by eexists. }
  destruct Hty as (ty & ->). pose proof (var_size_range (stream_id id)).
  assert (Hoff : ∃ ob, (if a =? 0 then mret [] else write_var a) = Ret ob ∧
    len ob = if a =? 0 then 0 else var_size a).
  { destruct (a =? 0); [by exists []|]. apply write_var_ok. lia. }
  destruct Hoff as (ob & -> & Hol). pose proof (len_nonneg ob).
  destruct el.
  - rewrite usub_ok by lia. cbn [mbind M_bind]. destruct (write_var_ok (e - a)) as (lb & -> & Hll); [lia|].
    eexists. split; [reflexivity|]. pose proof (var_size_range (e - a)).
    cbn [app]. autorewrite with quac. split; [lia|done].
  - eexists. split; [reflexivity|]. cbn [app]. rewrite len_cons, !len_app. change (len (@nil Z)) with 0. lia.
Qed.

Lemma Iter_next_parser bs t f r :
  bs ≠ [] → frame_parser bs = (Ok f, r) → ∃ ty, Iter_next (mkIter bs t) = (Some (Ok f), mkIter r (Some ty)).
Proof.
  intros Hne Hp. destruct (parser_try_next bs t f r Hp) as [ty Hty]. exists ty.
  unfold Iter_next. rewrite Hty. cbn [it_bytes]. by destruct bs.
Qed.

Lemma stream_frame_read W id r fin el hdr rest t :
  id_wf id → 0 <= rstart r <= rend r → rend r <= len (W id) → len (W id) < 2 ^ 62 →
  StreamMeta_encode (mkStreamMeta id r fin) el = Ret hdr → 2 <= len hdr → (el = false → rest = []) →
  ∃ ty, Iter_next (mkIter (hdr ++ takeZ (rend r - rstart r) (dropZ (rstart r) (W id)) ++ rest) t) =
    (Some (Ok (frame_of W (mkStreamMeta id r fin))), mkIter rest (Some ty)).
Proof.
  intros Hid Hr Hre Hw Hh Hl Hel. destruct r as [a e]. cbn [rstart rend] in *. unfold frame_of.
  cbn [sm_id sm_offsets sm_fin rstart rend].
  set (data := takeZ (e - a) (dropZ a (W id))).
  assert (Hlen : len data = e - a) by (unfold data; rewrite len_takeZ; [lia|rewrite len_dropZ; lia]).
  apply Iter_next_parser; [destruct hdr; [change (len (@nil Z)) with 0 in Hl; lia|done]|].
  replace e with (a + len data) in Hh by lia. destruct el.
  - destruct (enc_stream (mkStream id a fin data)) as (bs & Hb & Hd).
    { cbn [frame_wf st_id st_offset st_data]. split; [done|]. unfold is_var. pose proof (len_nonneg data). lia. }
    cbn [frame_encode st_id st_offset st_data st_fin] in Hb. rewrite Hh in Hb. injection Hb as <-.
    rewrite app_assoc. apply Hd.
  - rewrite (Hel eq_refl), app_nil_r. destruct (enc_stream_last id a fin data Hid) as (bs & Hb & Hd); [unfold is_var; lia|].
    rewrite Hh in Hb. injection Hb as <-. apply Hd.
Qed.

(** * The loop *)

Section Write.
Context {H : Type} `{Heap H} (W : StreamId → list Z).
Implicit Types s : StreamsState H.

(** Every sending stream of the table, [W] being what was written on each. *)
Definition buffers_ok s : Prop :=
  ∀ id x, send s !! id = Some (Some x) → id_wf id ∧ buffer_ok (W id) (s_pending x).

Lemma queue_pop_iter q e q' :
  queue_pop q = (Some e, q') → q_next q' = None ∧ q_recency q' = q_recency q ∧
    length (queue_iter q) = S (length (queue_iter q')).
Proof.
  unfold queue_pop, queue_iter. destruct (q_next q) as [p|] eqn:Hn.
  - by intros [= <- <-].
  - destruct (heap_pop (q_streams q)) as [[p l]|] eqn:Hp; [|done]. intros [= <- <-].
    apply heap_pop_spec in Hp as [Hp _]. by apply Permutation_length in Hp.
Qed.

(** Putting a stream back, in either mode. *)
Lemma requeue_ok (fair : bool) q id n :
  q_next q = None → 1 <= q_recency q →
  ∃ q', (if fair then push_pending q id n else reinsert_pending q id n) = Ret q' ∧
    q_recency q - 1 <= q_recency q' ∧ length (queue_iter q') = S (length (queue_iter q)).
Proof.
  intros Hn Hr. destruct fair.
  - unfold push_pending. rewrite usub_ok by lia. eexists. split; [reflexivity|]. unfold queue_iter. simpl.
    rewrite Hn. simpl. split; [lia|done].
  - unfold reinsert_pending. rewrite Hn. eexists. split; [reflexivity|]. unfold queue_iter. simpl.
    rewrite Hn. simpl. split; [lia|done].
Qed.

Lemma write_stream_frames_loop_ok fuel s buf n fair metas :
  buffers_ok s → len buf <= n → n - len buf <= q_recency (pending s) →
  n - len buf + Z.of_nat (length (queue_iter (pending s))) < Z.of_nat fuel →
  ∃ ms out s', write_stream_frames_loop fuel s buf n fair metas = Ret (metas ++ ms, buf ++ out, s') ∧
    buffers_ok s' ∧ len (buf ++ out) <= n ∧ ∀ t, yields (mkIter out t) (frame_of W <$> ms).
Proof.
  revert s buf metas. induction fuel as [|fuel IH]; intros s buf metas Hb Hl Hrec Hf; [lia|].
  cbn [write_stream_frames_loop].
  assert (Hstop : ∀ s1, buffers_ok s1 → ∃ ms out s',
    Ret (metas, buf, s1) = Ret (metas ++ ms, buf ++ out, s') ∧ buffers_ok s' ∧ len (buf ++ out) <= n ∧
    ∀ t, yields (mkIter out t) (frame_of W <$> ms)).
  { intros s1 Hb1. exists [], [], s1. rewrite !app_nil_r. split; [done|]. split; [done|]. split; [done|].
    intros t. by constructor. }
  destruct (Z.ltb_spec (len buf + Stream_SIZE_BOUND) n) as [Hroom|]; [|by apply Hstop].
  unfold Stream_SIZE_BOUND in Hroom.
  destruct (queue_pop (pending s)) as [[e|] q] eqn:Hq; [|by apply Hstop].
  apply queue_pop_iter in Hq as (Hqn & Hqr & Hql). cbv zeta. set (s1 := Streams.set_pending s q).
  assert (Hskip : ∃ ms out s', write_stream_frames_loop fuel s1 buf n fair metas = Ret (metas ++ ms, buf ++ out, s') ∧
    buffers_ok s' ∧ len (buf ++ out) <= n ∧ ∀ t, yields (mkIter out t) (frame_of W <$> ms)).
  { apply IH; [exact Hb|done|simpl; lia|]. simpl. lia. }
  destruct (get_send s1 (ps_id e)) as [x|] eqn:Hx; [|done]. destruct (is_reset x); [done|].
  assert (Hl1 : send s !! ps_id e = Some (Some x)).
  { unfold get_send in Hx. simpl in Hx. by repeat case_match; simplify_eq. }
  destruct (Hb _ _ Hl1) as [Hid Hbuf]. pose proof (var_size_range (stream_id (ps_id e))) as Hvs.
  do 2 (rewrite usub_ok by lia; cbn [mbind M_bind]). rewrite VarInt_size_ok by exact Hid. cbn [mbind M_bind].
  rewrite usub_ok by lia. cbn [mbind M_bind].
  destruct (poll_copy (W (ps_id e)) (s_pending x) (n - len buf - 1 - var_size (stream_id (ps_id e))) Hbuf)
    as (r & el & b & -> & Hbuf' & Hr & Hrw & Hww & Hsz & Hfill & Hcopy); [lia|]. cbn [mbind M_bind].
  set (fin := (rend r =? SendBuffer.offset b) && _). set (y := mkSend _ _ b _ _ _ _).
  assert (Hq' : ∃ q', (if is_pending y then if fair then push_pending (pending s1) (ps_id e) (priority y)
      else reinsert_pending (pending s1) (ps_id e) (priority y) else Ret (pending s1)) = Ret q' ∧
    q_recency q - 1 <= q_recency q' ∧ (length (queue_iter q') <= S (length (queue_iter q)))%nat).
  { destruct (is_pending y); [|exists q; split; [done|lia]].
    destruct (requeue_ok fair q (ps_id e) (priority y) Hqn) as (q' & ? & ? & ?); [lia|]. exists q'. split; [done|lia]. }
  destruct Hq' as (q' & -> & Hqr' & Hql'). cbn [mbind M_bind].
  destruct (StreamMeta_encode_len (ps_id e) (rstart r) (rend r) fin el Hid) as (hdr & Hh & Hhl & Hhe); [lia..|].
  replace (mkRange (rstart r) (rend r)) with r in Hh by (by destruct r). rewrite Hh. cbn [mbind M_bind].
  rewrite Hcopy. cbn [mbind M_bind]. set (data := takeZ _ _). set (m := mkStreamMeta (ps_id e) r fin).
  assert (Hdl : len data = rend r - rstart r) by (unfold data; rewrite len_takeZ; [lia|rewrite len_dropZ; lia]).
  destruct (IH (put_send (Streams.set_pending s1 q') (ps_id e) y) (buf ++ hdr ++ data) (metas ++ [m]))
    as (ms & out & s' & -> & Hb' & Hlen & Hy); rewrite ?len_app in *.
  - intros id z Hz. cbn [send put_send set_send Streams.set_pending s1] in Hz.
    apply lookup_insert_Some in Hz as [[<- [= <-]]|[_ Hz]]; [by split|by apply Hb].
  - lia.
  - simpl. lia.
  - simpl. lia.
  - exists (m :: ms), (hdr ++ data ++ out), s'. rewrite <- !app_assoc. split; [done|]. split; [done|].
    split; [rewrite ?len_app in *; lia|]. intros t. rewrite fmap_cons.
    destruct (stream_frame_read W (ps_id e) r fin el hdr out t) as [ty Hn]; try done; [lia| |].
    { intros Hel. specialize (Hfill Hel). specialize (Hhe Hel). apply len_0_nil. lia. }
    by eapply yields_more.
Qed.
End Write.
