(* ===== verification/StreamsTheorems.v ===== *)
(** Theorems about the streams of a connection: flow control, the checks on what
    the peer sends, the accounting of streams, and the frames that are written. *)
From stdpp Require Import gmap.
From S2P Require Import Prelude Coding RangeSet Ids Shared Frame FrameTheorems SendBuffer Assembler AssemblerSpec.
From S2P Require Import AssemblerTheorems Recv Send PendingStreams Retransmits Streams StreamsInv StreamsOps StreamsSteps StreamsWrite.
Open Scope Z_scope.

Section Theorems.
Context {H : Type} `{Heap H} (F : StreamId → Z → Z).
Implicit Types s : StreamsState H.



(** A RESET_STREAM frame is checked in the same way: a final size that differs
    from the known one or is below the data received, and one beyond the limits,
    are refused; a repeated reset changes nothing; otherwise the received total is
    raised to the final size. *)
Theorem received_reset_checked s frame :
  StreamsSteps.reachable F s → sane s → VarInt_wf (rs_final_offset frame) →
  ∃ res s', received_reset s frame = Ret (res, s') ∧ received_reset_spec s frame res s'.
Proof.
  intros Hs%reachable_inv Hsane Hwf.
  destruct (received_reset_ok F s frame Hs Hsane Hwf) as (res & s' & ? & _ & ?). eauto.
Qed.


(** C26: writing STREAM frames terminates without a panic, stays within the packet,
    and what is appended is read back by the frame iterator as exactly one STREAM
    frame per reported range, carrying the bytes that the application wrote at
    those offsets.  [W] is what was written on each stream. *)
Theorem stream_frames_written_and_read W s buf max_buf_size fair :
  buffers_ok W s → len buf <= max_buf_size → max_buf_size - len buf <= q_recency (pending s) →
  ∃ metas out s', write_stream_frames s buf max_buf_size fair = Ret (metas, buf ++ out, s') ∧
    buffers_ok W s' ∧ len (buf ++ out) <= max_buf_size ∧ ∀ t, yields (mkIter out t) (frame_of W <$> metas).
Proof.
  intros Hb Hl Hrec. unfold write_stream_frames.
  destruct (write_stream_frames_loop_ok W (S (Z.to_nat (max_buf_size - len buf) + length (queue_iter (pending s))))
    s buf max_buf_size fair [] Hb Hl Hrec) as (ms & out & s' & Hop & ?); [lia|]. by exists ms, out, s'.
Qed.
End Theorems.

(** * Sample runs *)

Definition sample_F : StreamId → Z → Z := fun _ x => x mod 256.

(** A client that lets the server open one stream of each kind, with a window of
    100 bytes for the connection and 50 for a stream. *)
Definition sample_new : M (StreamsState (list Buffer)) :=
  Streams.new Client (mkVarInt 1) (mkVarInt 1) 1000 (mkVarInt 100) (mkVarInt 50).
Definition sample_id : StreamId := StreamId_new Server Uni 0.
Definition sample_stream_frame (o n : Z) (fin : bool) : Stream :=
  mkStream sample_id o fin (slice (sample_F sample_id) o n).

(** The server's first three bytes arrive. *)
Definition sample_received : M (StreamsState (list Buffer)) :=
  s ← sample_new; '(_, s) ← received s (sample_stream_frame 0 3 false) 3; mret s.

Lemma sample_frame_ok s o :
  sample_new = Ret s → recv s !! sample_id = Some o →
  frame_ok sample_F (get_or_insert_recv (stream_receive_window s) o) (sample_stream_frame 0 3 false) 3.
Proof.
  intros Hs Ho. assert (He : (s ← sample_new; mret (recv s !! sample_id, stream_receive_window s)) = Ret (Some None, 50))
    by (vm_compute; reflexivity).
  rewrite Hs in He. cbn [mbind M_bind] in He. injection He as Hr Hw. rewrite Ho in Hr. injection Hr as ->. rewrite Hw.
  split; try (vm_compute; congruence); try reflexivity; try done; try (by left).
Qed.

Lemma sample_new_reachable s : sample_new = Ret s → StreamsSteps.reachable sample_F s ∧ sane s.
Proof.
  intros Hs. split.
  - eapply reach_new; [|exact Hs]. unfold config_ok, VarInt_wf. rewrite max_stream_count. simpl. lia.
  - assert (He : (s ← sample_new; mret (max_remote s, max_concurrent_remote_count s, local_max_data s)) =
      Ret (mkPerDir 1 1, mkPerDir 1 1, 100)) by (vm_compute; reflexivity).
    rewrite Hs in He. cbn [mbind M_bind] in He. injection He as Hm Hc Hl.
    split; [intros d; rewrite Hm, Hc, max_stream_count; destruct d; simpl; lia|rewrite Hl; unfold u64_max; lia].
Qed.

Lemma sample_received_reachable s : sample_received = Ret s → StreamsSteps.reachable sample_F s.
Proof.
  intros Hs. apply M_bind_ret in Hs as (s0 & H0 & Hs). apply M_bind_ret in Hs as ([res s1] & H1 & Hs).
  injection Hs as <-. destruct (sample_new_reachable s0 H0) as [Hr Hsane].
  eapply reach_step; [exact Hr|exact Hsane|]. eapply step_received; [|exact H1].
  intros o. by apply sample_frame_ok.
Qed.



Lemma received_reset_checked_witness :
  ∃ s res s', sample_new = Ret s ∧
    received_reset s (mkResetStream sample_id (mkVarInt 7) (mkVarInt 60)) = Ret (res, s') ∧
    res = Err (mkTransportError FLOW_CONTROL_ERROR).
Proof.
  destruct sample_new as [s|] eqn:Hs; [|vm_compute in Hs; discriminate Hs].
  destruct (received_reset_checked sample_F s (mkResetStream sample_id (mkVarInt 7) (mkVarInt 60)))
    as (res & s' & Hop & Hspec);
    [apply sample_new_reachable, Hs|apply sample_new_reachable, Hs|split; vm_compute; congruence|].
  exists s, res, s'. split; [reflexivity|]. split; [exact Hop|].
  assert (He : (s ← sample_new; mret (received_reset s (mkResetStream sample_id (mkVarInt 7) (mkVarInt 60)))) =
    (s ← sample_new; '(_, s') ← received_reset s (mkResetStream sample_id (mkVarInt 7) (mkVarInt 60));
     mret (Ret (Err (mkTransportError FLOW_CONTROL_ERROR), s')))) by (vm_compute; reflexivity).
  rewrite Hs in He. cbn [mbind M_bind] in He. rewrite Hop in He. cbn [mbind M_bind] in He. unfold mret, M_ret in He. congruence.
Defined.


(** A client without remote streams that has written 70 bytes on its first stream. *)
Definition sample_data : list Z := seqZ 0 70.
Definition sample_send : Send :=
  mkSend 1000 Ready (mkSendBuffer [sample_data] 70 70 0 [] []) 0 false false None.
Definition sample_writing : StreamsState (list Buffer) :=
  mkStreamsState Client (<[mkStreamId 0 := Some sample_send]> ∅) ∅ [] (mkPerDir 1 0) (mkPerDir 1 0) (mkPerDir 0 0)
    (mkPerDir 0 0) (mkPerDir 0 0) (mkPerDir 0 0) false (mkPerDir 0 0) (mkPerDir false false) (mkPerDir 0 0) 1
    (mkPendingStreamsQueue [mkPendingStream 0 (u64_max - 1) (mkStreamId 0)] None (u64_max - 1)) [] [] 1000 100 100
    (mkVarInt 100) 70 0 70 1000 50 (mkVarInt 0) (mkVarInt 0) (mkVarInt 0) 0 (mkPerDir false false).

Lemma sample_buffers_ok : buffers_ok (fun _ => sample_data) sample_writing.
Proof.
  intros id x. cbn [send sample_writing]. intros [[<- [= <-]]|[_ Hx]]%lookup_insert_Some; [|by rewrite lookup_empty in Hx].
  split; [split; vm_compute; congruence|]. split.
  - split; cbn [s_pending sample_send SendBuffer.offset unsent acks retransmits unacked_segments];
      try (vm_compute; done || congruence || (split; congruence)); constructor.
  - intros y [Hy|Hy]; [unfold SendBuffer.base in Hy; simpl in Hy; lia|by apply rs_in_nil in Hy].
Qed.

Lemma stream_frames_written_and_read_witness :
  ∃ metas out s', write_stream_frames sample_writing [] 60 true = Ret (metas, out, s') ∧ len out <= 60 ∧
    yields (mkIter out None) (frame_of (fun _ => sample_data) <$> metas) ∧
    metas = [mkStreamMeta (mkStreamId 0) (mkRange 0 58) false].
Proof.
  destruct (stream_frames_written_and_read (fun _ => sample_data) sample_writing [] 60 true sample_buffers_ok)
    as (metas & out & s' & Hop & _ & Hl & Hy); [vm_compute; congruence|vm_compute; congruence|].
  exists metas, out, s'. split; [exact Hop|]. split; [exact Hl|]. split; [apply Hy|].
  assert (He : ('(m, _, _) ← write_stream_frames sample_writing [] 60 true; mret m) =
    Ret [mkStreamMeta (mkStreamId 0) (mkRange 0 58) false]) by (vm_compute; reflexivity).
  rewrite Hop in He. cbn [mbind M_bind] in He. by injection He.
Defined.

(** * Where the code falls short *)

Definition sample_two_frames : M (StreamsState (list Buffer)) :=
  s ← sample_new;
  '(_, s) ← received s (sample_stream_frame 0 10 false) 10;
  '(_, s) ← received s (sample_stream_frame 5 0 true) 0;
  mret s.

(** A FIN below data already received is accepted, although RFC 9000 makes it
    a FINAL_SIZE_ERROR and the RESET_STREAM handler checks it.  The stream then
    never finishes for an application that reads all of it, and a RESET_STREAM
    that repeats the final size makes a subtraction overflow. *)
Theorem fin_below_received_accepted :
  (s ← sample_new;
   '(_, s) ← received s (sample_stream_frame 0 10 false) 10;
   '(res, _) ← received s (sample_stream_frame 5 0 true) 0; mret res) = Ret (Ok false) ∧
  (s ← sample_two_frames;
   '(res, s) ← Chunks_new s sample_id true;
   match res with
   | Err _ => Panic
   | Ok c =>
       '(r1, c, s) ← Chunks_next c s 100;
       '(r2, c, s) ← Chunks_next c s 100;
       mret (r1, r2)
   end) = Ret (Ok (Some (mkChunk 0 (slice (sample_F sample_id) 0 10))), Err ReadBlocked) ∧
  (s ← sample_two_frames; received_reset s (mkResetStream sample_id (mkVarInt 0) (mkVarInt 5))) = Panic.
Proof. repeat split; vm_compute; reflexivity. Qed.

(** Stopping a stream and then receiving its reset credits the unread bytes
    twice: 32 bytes were received, the connection's limit rises by 64. *)
Theorem stop_then_reset_credits_twice :
  (s ← sample_new;
   '(_, s) ← received s (sample_stream_frame 0 32 false) 32;
   '(_, s, _) ← stop_stream s Retransmits_default sample_id (mkVarInt 0);
   '(_, s) ← received_reset s (mkResetStream sample_id (mkVarInt 0) (mkVarInt 32));
   mret (data_recvd s, local_max_data s)) = Ret (32, 100 + 64).
Proof. vm_compute. reflexivity. Qed.

(** Rejecting 0-RTT forgets every stream we opened but not the unacknowledged
    data on them: the send window stays reduced by data no acknowledgement will
    ever return. *)
Theorem zero_rtt_rejected_leaks_window :
  (s ← sample_new;
   let s := set_params s (mkStreamParams (mkVarInt 500) (mkVarInt 500) (mkVarInt 500) (mkVarInt 1) (mkVarInt 1)
                            (mkVarInt 5000)) in
   '(o, s) ← open s false Uni; id ← unwrap o;
   '(_, s, _) ← write_source s false id (from_slice (seqZ 0 300));
   s ← zero_rtt_rejected s; limit ← write_limit s;
   mret (send_streams s, send s !! id, data_sent s, unacked_data s, send_window s, limit)) =
  Ret (0, None, 0, 300, 1000, 700).
Proof. vm_compute. reflexivity. Qed.

(** An ordered read after an unordered one returns an error and also drops the
    stream: it is gone from the table and every later read reports a closed
    stream, while the peer's allocation still counts it. *)
Theorem illegal_ordered_read_drops_stream :
  (s ← sample_new;
   '(_, s) ← received s (sample_stream_frame 0 10 false) 10;
   '(res, s) ← Chunks_new s sample_id false;
   match res with
   | Err _ => Panic
   | Ok c =>
       '(_, _, s, _) ← Chunks_finalize c s Retransmits_default;
       '(r1, s) ← Chunks_new s sample_id true;
       '(r2, s) ← Chunks_new s sample_id false;
       mret (match r1 with Err e => Some e | Ok _ => None end, match r2 with Err e => Some e | Ok _ => None end,
             recv s !! sample_id, at_dir (allocated_remote_count s) Uni)
   end) = Ret (Some ReadIllegalOrdered, Some ReadClosedStream, None, 1).
Proof. vm_compute. reflexivity. Qed.
