(* ===== verification/Dedup.v ===== *)
(** The packet number deduplicator: [Dedup] of
    [quic-proto/src/connection/spaces.rs].

    The window is a [u128] as an integer below [2^128].  The specification is the
    list of packet numbers inserted so far. *)
From S2P Require Import Prelude.

(** * State and operations *)

Definition u128_max : Z := 2 ^ 128 - 1.
Definition BITFIELD_SIZE : Z := 128.
Definition WINDOW_SIZE : Z := 1 + 16 * 8.

Record Dedup : Type := mkDedup { window : Z; next : Z }.

Definition new : Dedup := mkDedup 0 0.

Definition highest (d : Dedup) : M Z := usub (next d) 1.

(** [x << n] for [n < 128], dropping the bits above the 128th. *)
Definition shl128 (x n : Z) : Z := Z.land (Z.shiftl x n) u128_max.
Definition checked_shl128 (x n : Z) : option Z := if n <? 128 then Some (shl128 x n) else None.

(** [true] when the packet might be a duplicate. *)
Definition insert (d : Dedup) (packet : Z) : M (bool * Dedup) :=
  match checked_sub packet (next d) with
  | Some diff =>
      let w := default 0 (checked_shl128 (Z.lor (shl128 (window d) 1) 1) (Z.min diff u32_max)) in
      next ← uadd packet 1;
      mret (false, mkDedup w next)
  | None =>
      h ← highest d;
      k ← usub h packet;
      if k <? WINDOW_SIZE then
        match checked_sub k 1 with
        | Some bit =>
            let mask := Z.shiftl 1 bit in
            mret (negb (Z.land (window d) mask =? 0), mkDedup (Z.lor (window d) mask) (next d))
        | None => mret (true, d)
        end
      else mret (true, d)
  end.

Definition leading_zeros128 (x : Z) : Z := if x =? 0 then 128 else 127 - Z.log2 x.

Definition smallest_missing_in_interval (d : Dedup) (lower_bound upper_bound : Z) : M (option Z) :=
  _ ← rassert (lower_bound <=? upper_bound);
  h ← highest d;
  _ ← rassert (upper_bound <=? h);
  lower_bound ← uadd lower_bound 1;
  let upper_bound := sat_sub upper_bound 1 in
  gap ← usub h upper_bound;
  let start_offset := Z.max gap 1 - 1 in
  if BITFIELD_SIZE <=? start_offset then mret None
  else
    let end_offset_exclusive := sat_sub h lower_bound in
    let range_len := Z.min (sat_sub end_offset_exclusive start_offset) BITFIELD_SIZE in
    if range_len =? 0 then mret None
    else
      let mask := if range_len =? BITFIELD_SIZE then u128_max
                  else shl128 (Z.shiftl 1 range_len - 1) start_offset in
      let gaps := Z.land (Z.lxor u128_max (window d)) mask in
      let smallest_missing_offset := 128 - leading_zeros128 gaps in
      smallest_missing_packet ← usub h smallest_missing_offset;
      mret (if smallest_missing_packet <=? upper_bound then Some smallest_missing_packet else None).

Definition missing_in_interval (d : Dedup) (lower_bound upper_bound : Z) : M bool :=
  o ← smallest_missing_in_interval d lower_bound upper_bound;
  mret (match o with Some _ => true | None => false end).

(** * Specification *)

(** [d] after the packets [l] have been inserted: bit [b] stands for the packet
    [b + 1] below the highest. *)
Record dedup_ok (l : list Z) (d : Dedup) : Prop := {
  d_next : 0 <= next d <= u64_max;
  d_window : 0 <= window d <= u128_max;
  d_all : Forall (fun p => 0 <= p < next d) l;
  d_highest : 0 < next d → next d - 1 ∈ l;
  d_bits : ∀ b, 0 <= b < 128 → 0 <= next d - 2 - b → Z.testbit (window d) b = true ↔ next d - 2 - b ∈ l
}.

(** A packet that is too old to be tracked. *)
Definition too_old (d : Dedup) (p : Z) : Prop := p + WINDOW_SIZE < next d.

(** * Lemmas *)

Lemma u128_max_ones : u128_max = Z.ones 128.
Proof. done. Qed.

Lemma testbit_shl128 x n b :
  0 <= n → 0 <= b → Z.testbit (shl128 x n) b = (b <? 128) && (n <=? b) && Z.testbit x (b - n).
Proof.
  intros Hn Hb. unfold shl128. rewrite Z.land_spec, u128_max_ones, Z.testbit_ones by lia.
  destruct (Z.leb_spec 0 b); [|lia]. simpl. destruct (Z.leb_spec n b).
  - rewrite Z.shiftl_spec_high by lia. destruct (b <? 128); simpl; by rewrite ?andb_true_r, ?andb_false_r.
  - rewrite Z.shiftl_spec_low by lia. by rewrite andb_false_r.
Qed.

Lemma land_u128_range x : 0 <= Z.land x u128_max <= u128_max.
Proof.
  rewrite u128_max_ones, Z.land_ones by lia. pose proof (Z.mod_pos_bound x (2 ^ 128)).
  rewrite Z.ones_equiv. lia.
Qed.

Lemma shl128_range x n : 0 <= shl128 x n <= u128_max.
Proof. apply land_u128_range. Qed.

(** The bits of a [u128]. *)
Lemma testbit_high x b : 0 <= x <= u128_max → 128 <= b → Z.testbit x b = false.
Proof.
  intros Hx Hb. destruct (Z.eq_dec x 0) as [->|]; [apply Z.bits_0|].
  apply Z.bits_above_log2; [lia|]. assert (Z.log2 x < 128); [|lia].
  apply Z.log2_lt_pow2; [lia|]. unfold u128_max in Hx. lia.
Qed.

Lemma lor_u128_range x y : 0 <= x <= u128_max → 0 <= y <= u128_max → 0 <= Z.lor x y <= u128_max.
Proof.
  intros Hx Hy. assert (Z.lor x y = Z.land (Z.lor x y) u128_max) as ->; [|apply land_u128_range].
  apply Z.bits_inj'. intros b Hb. rewrite Z.land_spec, u128_max_ones, Z.testbit_ones by lia.
  destruct (Z.leb_spec 0 b); [|lia]. destruct (Z.ltb_spec b 128); simpl; [by rewrite andb_true_r|].
  by rewrite Z.lor_spec, !testbit_high.
Qed.

Lemma bit_range b : 0 <= b < 128 → 0 <= Z.shiftl 1 b <= u128_max.
Proof.
  intros Hb. rewrite Z.shiftl_1_l. split; [apply Z.pow_nonneg; lia|].
  pose proof (Z.pow_lt_mono_r 2 b 128). unfold u128_max. lia.
Qed.

Lemma testbit_one_shl b i : 0 <= b → 0 <= i → Z.testbit (Z.shiftl 1 b) i = (i =? b).
Proof. intros Hb Hi. rewrite Z.shiftl_1_l. rewrite Z.pow2_bits_eqb by done. by rewrite Z.eqb_sym. Qed.

Lemma land_bit x b : 0 <= b → negb (Z.land x (Z.shiftl 1 b) =? 0) = Z.testbit x b.
Proof.
  intros Hb. destruct (Z.testbit x b) eqn:Ht.
  - apply negb_true_iff, Z.eqb_neq. intros He. apply (f_equal (fun z => Z.testbit z b)) in He.
    by rewrite Z.land_spec, testbit_one_shl, Z.eqb_refl, Ht, Z.bits_0 in He by lia.
  - apply negb_false_iff, Z.eqb_eq. apply Z.bits_inj'. intros i Hi.
    rewrite Z.land_spec, testbit_one_shl, Z.bits_0 by lia. destruct (Z.eqb_spec i b) as [->|]; [by rewrite Ht|].
    by rewrite andb_false_r.
Qed.

Lemma new_ok : dedup_ok [] new.
Proof. split; simpl; try done; lia. Qed.

(** The window after a packet number to the right of it. *)
Lemma shifted_bits w diff b :
  0 <= w <= u128_max → 0 <= diff → 0 <= b < 128 →
  Z.testbit (default 0 (checked_shl128 (Z.lor (shl128 w 1) 1) (Z.min diff u32_max))) b
  = if b =? diff then true else (diff <? b) && Z.testbit w (b - diff - 1).
Proof.
  intros Hw Hd Hb. unfold checked_shl128, u32_max. destruct (Z.ltb_spec (Z.min diff 4294967295) 128); simpl.
  - replace (Z.min diff 4294967295) with diff by lia. rewrite testbit_shl128 by lia.
    destruct (Z.ltb_spec b 128); [|lia]. simpl. destruct (Z.leb_spec diff b); simpl.
    + rewrite Z.lor_spec, testbit_shl128 by lia. change 1 with (Z.shiftl 1 0) at 3. rewrite testbit_one_shl by lia.
      destruct (Z.eqb_spec b diff); [subst; rewrite Z.sub_diag; by rewrite orb_true_r|].
      destruct (Z.eqb_spec (b - diff) 0); [lia|]. rewrite orb_false_r.
      destruct (Z.ltb_spec (b - diff) 128); [|lia]. destruct (Z.leb_spec 1 (b - diff)); [|lia].
      by destruct (Z.ltb_spec diff b); [|lia].
    + destruct (Z.eqb_spec b diff); [lia|]. by destruct (Z.ltb_spec diff b); [lia|].
  - rewrite Z.bits_0. destruct (Z.eqb_spec b diff); [lia|]. by destruct (Z.ltb_spec diff b); [lia|].
Qed.

Lemma shifted_range w n : 0 <= default 0 (checked_shl128 w n) <= u128_max.
Proof. unfold checked_shl128. destruct (n <? 128); simpl; [apply shl128_range|done]. Qed.

Lemma insert_right l d p :
  dedup_ok l d → next d <= p < u64_max →
  ∃ d', insert d p = Ret (false, d') ∧ dedup_ok (p :: l) d' ∧ next d' = p + 1.
Proof.
  intros [Hn Hw Ha Hh Hb] Hp. unfold insert, checked_sub. destruct (Z.leb_spec (next d) p); [|lia].
  rewrite uadd_ok by lia. eexists. split; [done|]. split; [|done]. rewrite Forall_forall in Ha. split; simpl.
  - lia.
  - apply shifted_range.
  - apply Forall_cons. split; [lia|]. apply Forall_forall. intros q Hq. specialize (Ha _ Hq). lia.
  - intros _. replace (p + 1 - 1) with p by lia. left.
  - intros b Hb1 Hb2. rewrite shifted_bits by lia. destruct (Z.eqb_spec b (p - next d)) as [->|].
    + split; [|done]. intros _. right. replace (p + 1 - 2 - (p - next d)) with (next d - 1) by lia. apply Hh. lia.
    + rewrite elem_of_cons. destruct (Z.ltb_spec (p - next d) b); simpl.
      * rewrite Hb by lia. replace (next d - 2 - (b - (p - next d) - 1)) with (p + 1 - 2 - b) by lia.
        split; [by right|]. intros [?|?]; [lia|done].
      * split; [done|]. intros [?|Hq]; [lia|]. specialize (Ha _ Hq). simpl in Ha. lia.
Qed.

Lemma insert_in_window l d p :
  dedup_ok l d → 0 <= p < next d →
  ∃ dup d', insert d p = Ret (dup, d') ∧ next d' = next d ∧
    (dup = true ↔ p ∈ l ∨ too_old d p) ∧ dedup_ok (p :: l) d'.
Proof.
  intros Hd Hp. pose proof Hd as [Hn Hw Ha Hh Hb]. unfold insert, checked_sub, highest, too_old, WINDOW_SIZE.
  destruct (Z.leb_spec (next d) p); [lia|]. rewrite (usub_ok (next d)) by lia. cbn [mbind M_bind].
  rewrite usub_ok by lia. cbn [mbind M_bind].
  assert (Forall (λ q, 0 <= q < next d) (p :: l)) as Ha' by (by apply Forall_cons).
  destruct (Z.ltb_spec (next d - 1 - p) (1 + 16 * 8)).
  - destruct (Z.leb_spec 1 (next d - 1 - p)).
    + set (b0 := next d - 1 - p - 1). assert (p = next d - 2 - b0) as Ep by (unfold b0; lia).
      assert (0 <= b0 < 128) as Hb0 by (unfold b0; lia). clearbody b0. subst p.
      do 2 eexists. split; [done|]. split; [done|]. split.
      * rewrite land_bit by lia. rewrite Hb by lia. split; [by left|intros [?|?]; [done|lia]].
      * split; simpl; [done| |done| |].
        -- apply lor_u128_range; [done|by apply bit_range].
        -- intros Hpos. right. by apply Hh.
        -- intros b Hb1 Hb2. rewrite Z.lor_spec, testbit_one_shl, orb_true_iff, Z.eqb_eq, Hb, elem_of_cons by lia.
           split; (intros [?|?]; [|]); try (by right); try (by left); [left|right]; lia.
    + assert (p = next d - 1) as -> by lia. assert (next d - 1 ∈ l) as Hin by (apply Hh; lia).
      do 2 eexists. split; [done|]. split; [done|]. split; [by split; [left|]|].
      split; [done..| |]; [intros _; by right|]. intros b Hb1 Hb2. rewrite Hb, elem_of_cons by lia.
      split; [by right|intros [?|?]; [lia|done]].
  - do 2 eexists. split; [done|]. split; [done|]. split; [split; [right; lia|done]|].
    split; [done..| |]; [intros ?; right; by apply Hh|]. intros b Hb1 Hb2. rewrite Hb, elem_of_cons by lia.
    split; [by right|intros [?|?]; [lia|done]].
Qed.

Lemma dedup_insert_ok l d p :
  dedup_ok l d → 0 <= p < u64_max →
  ∃ dup d', insert d p = Ret (dup, d') ∧ dedup_ok (p :: l) d' ∧ next d' = Z.max (next d) (p + 1) ∧
    (dup = true ↔ p ∈ l ∨ too_old d p).
Proof.
  intros Hd Hp. destruct (Z.le_gt_cases (next d) p).
  - destruct (insert_right l d p Hd ltac:(lia)) as (d' & Hi & Hd' & Hn). exists false, d'.
    split; [done|]. split; [done|]. split; [lia|]. split; [done|]. destruct Hd as [_ _ Ha _ _]. rewrite Forall_forall in Ha.
    intros [Hin|Ho]; [specialize (Ha _ Hin); simpl in Ha; lia|]. unfold too_old, WINDOW_SIZE in Ho. lia.
  - destruct (insert_in_window l d p Hd ltac:(lia)) as (dup & d' & Hi & Hn & Hdup & Hd').
    exists dup, d'. split; [done|]. split; [done|]. split; [lia|done].
Qed.

(** The deduplicator after a sequence of packets, the last of them first. *)
Fixpoint inserts (l : list Z) : M Dedup :=
  match l with
  | [] => mret new
  | p :: l => d ← inserts l; r ← insert d p; mret r.2
  end.

(** One more than the highest packet of the sequence. *)
Definition next_of (l : list Z) : Z := foldr (fun p n => Z.max n (p + 1)) 0 l.

Lemma inserts_ok l :
  Forall (fun p => 0 <= p < u64_max) l → ∃ d, inserts l = Ret d ∧ dedup_ok l d ∧ next d = next_of l.
Proof.
  induction 1 as [|p l Hp _ (d & Hd & Hok & Hn)]; simpl.
  - exists new. split; [done|]. split; [apply new_ok|done].
  - destruct (dedup_insert_ok l d p Hok Hp) as (dup & d' & Hi & Hok' & Hn' & _). exists d'.
    rewrite Hd. cbn [mbind M_bind]. rewrite Hi. split; [done|]. split; [done|]. by rewrite Hn', Hn.
Qed.

(** * Gaps *)

(** Packet [p] lies strictly between the bounds, was not received, and is recent
    enough to be tracked. *)
Definition missing (l : list Z) (d : Dedup) (lower upper p : Z) : Prop :=
  lower < p < upper ∧ p ∉ l ∧ ¬ too_old d p.

Lemma leading_zeros_bit x :
  0 < x <= u128_max →
  let o := 128 - leading_zeros128 x in
  1 <= o <= 128 ∧ Z.testbit x (o - 1) = true ∧ ∀ b, o <= b → Z.testbit x b = false.
Proof.
  intros Hx. unfold leading_zeros128. destruct (Z.eqb_spec x 0); [lia|].
  assert (Z.log2 x < 128) by (apply Z.log2_lt_pow2; [lia|]; unfold u128_max in Hx; lia).
  pose proof (Z.log2_nonneg x). split; [lia|]. split.
  - replace (128 - (127 - Z.log2 x) - 1) with (Z.log2 x) by lia. apply Z.bit_log2. lia.
  - intros b Hb. apply Z.bits_above_log2; lia.
Qed.

(** The mask of the offsets to look at; with a full window it is wider. *)
Lemma mask_bits n s b :
  0 < n <= 128 → 0 <= s → 0 <= b < 128 →
  Z.testbit (if n =? BITFIELD_SIZE then u128_max else shl128 (Z.shiftl 1 n - 1) s) b
  = (n =? 128) || ((s <=? b) && (b <? s + n)).
Proof.
  intros Hn Hs Hb. unfold BITFIELD_SIZE. destruct (Z.eqb_spec n 128); simpl.
  - rewrite u128_max_ones, Z.testbit_ones by lia. destruct (Z.leb_spec 0 b), (Z.ltb_spec b 128); try lia; done.
  - rewrite testbit_shl128 by lia. destruct (Z.ltb_spec b 128); [|lia]. simpl.
    destruct (Z.leb_spec s b); [|done]. simpl.
    rewrite Z.shiftl_1_l, Z.sub_1_r, <- Z.ones_equiv, Z.testbit_ones by lia.
    destruct (Z.leb_spec 0 (b - s)); [|lia]. simpl.
    destruct (Z.ltb_spec (b - s) n), (Z.ltb_spec b (s + n)); lia || done.
Qed.

Lemma not_window_bits w b : 0 <= b < 128 → Z.testbit (Z.lxor u128_max w) b = negb (Z.testbit w b).
Proof.
  intros Hb. rewrite Z.lxor_spec, u128_max_ones, Z.testbit_ones by lia.
  destruct (Z.leb_spec 0 b), (Z.ltb_spec b 128); try lia; done.
Qed.

Lemma not_window_range w : 0 <= w <= u128_max → 0 <= Z.lxor u128_max w.
Proof. intros Hw. apply Z.lxor_nonneg. unfold u128_max in *. lia. Qed.

(** The bits of [gaps]: the tracked packets above [lower] that were not received,
    with those above [upper] among them only when the mask is the full window. *)
Lemma gaps_bits l d lower s n b :
  dedup_ok l d → 0 < n <= 128 → 0 <= s → 0 <= lower → n <= next d - 2 - lower - s →
  (n < 128 → n = next d - 2 - lower - s) → 0 <= b < 128 →
  let gaps := Z.land (Z.lxor u128_max (window d))
                (if n =? BITFIELD_SIZE then u128_max else shl128 (Z.shiftl 1 n - 1) s) in
  (Z.testbit gaps b = true → lower < next d - 2 - b ∧ next d - 2 - b ∉ l) ∧
  (s <= b → lower < next d - 2 - b → next d - 2 - b ∉ l → Z.testbit gaps b = true).
Proof.
  intros Hd Hn Hs Hlo Hle Heq Hb gaps. unfold gaps. rewrite Z.land_spec, not_window_bits, mask_bits by lia.
  destruct Hd as [_ _ _ _ Hbits]. specialize (Hbits b Hb).
  destruct (Z.eqb_spec n 128), (Z.leb_spec s b), (Z.ltb_spec b (s + n)); simpl;
    rewrite ?andb_true_r, ?andb_false_r, ?negb_true_iff, <- ?not_true_iff_false; (split; [intros Ht|intros Hsb Hlt Hin]);
    try done; try lia;
    try (rewrite Hbits in Ht by lia; split; [lia|done]); try (rewrite Hbits by lia; done).
Qed.

Lemma gaps_range w m : 0 <= w <= u128_max → 0 <= m <= u128_max → 0 <= Z.land (Z.lxor u128_max w) m <= u128_max.
Proof.
  intros Hw Hm. assert (m = Z.land m u128_max) as ->.
  { apply Z.bits_inj'. intros b Hb. rewrite Z.land_spec, u128_max_ones, Z.testbit_ones by lia.
    destruct (Z.leb_spec 0 b), (Z.ltb_spec b 128); try lia; simpl; [by rewrite andb_true_r|].
    by rewrite testbit_high. }
  rewrite Z.land_assoc. apply land_u128_range.
Qed.

Lemma mask_range n s : 0 <= (if n =? BITFIELD_SIZE then u128_max else shl128 (Z.shiftl 1 n - 1) s) <= u128_max.
Proof. case_match; [done|apply shl128_range]. Qed.

(** What the search answers: the least missing packet. *)
Definition least_missing (l : list Z) (d : Dedup) (lower upper : Z) (o : option Z) : Prop :=
  match o with
  | Some p => missing l d lower upper p ∧ ∀ q, missing l d lower upper q → p <= q
  | None => ∀ q, ¬ missing l d lower upper q
  end.

Lemma search_ok l d lower upper s n :
  dedup_ok l d → 0 <= lower → lower + 1 < upper < next d → s = next d - 1 - upper →
  n = Z.min (upper - lower - 1) 128 →
  ∃ o, (let gaps := Z.land (Z.lxor u128_max (window d))
                (if n =? BITFIELD_SIZE then u128_max else shl128 (Z.shiftl 1 n - 1) s) in
        let smallest_missing_offset := 128 - leading_zeros128 gaps in
        smallest_missing_packet ← usub (next d - 1) smallest_missing_offset;
        mret (if smallest_missing_packet <=? upper - 1 then Some smallest_missing_packet else None)) = Ret o ∧
    least_missing l d lower upper o.
Proof.
  intros Hd Hlo Hup Es En. cbv zeta. set (gaps := Z.land _ _). set (offset := 128 - leading_zeros128 gaps).
  assert (∀ b, 0 <= b < 128 → (Z.testbit gaps b = true → lower < next d - 2 - b ∧ next d - 2 - b ∉ l) ∧
    (s <= b → lower < next d - 2 - b → next d - 2 - b ∉ l → Z.testbit gaps b = true)) as Hbits
    by (intros b Hb; apply gaps_bits; lia || done).
  assert (∀ q, missing l d lower upper q → 0 <= next d - 2 - q < 128 ∧ Z.testbit gaps (next d - 2 - q) = true)
    as Hmiss.
  { intros q (Hq & Hin & Hold). unfold too_old, WINDOW_SIZE in Hold. split; [lia|].
    apply Hbits; [lia|lia|lia|]. by replace (next d - 2 - (next d - 2 - q)) with q by lia. }
  assert (0 <= gaps <= u128_max) as Hr by (apply gaps_range; [apply Hd|apply mask_range]).
  destruct (Z.eq_dec gaps 0) as [E0|].
  - unfold offset. rewrite E0. change (leading_zeros128 0) with 128. rewrite usub_ok by lia. cbn [mbind M_bind].
    destruct (Z.leb_spec (next d - 1 - (128 - 128)) (upper - 1)); [lia|]. exists None. split; [done|].
    intros q Hq. destruct (Hmiss q Hq) as [_ Ht]. by rewrite E0, Z.bits_0 in Ht.
  - pose proof (leading_zeros_bit gaps ltac:(lia)) as (Ho & Hset & Habove). fold offset in Ho, Hset, Habove.
    clearbody offset. destruct (Hbits (offset - 1) ltac:(lia)) as [Hin _]. destruct (Hin Hset) as [Hlt Hnot].
    rewrite usub_ok by lia. cbn [mbind M_bind]. eexists. split; [done|].
    assert (∀ q, missing l d lower upper q → next d - 1 - offset <= q) as Hleast.
    { intros q Hq. destruct (Hmiss q Hq) as [? Ht]. destruct (Z.le_gt_cases offset (next d - 2 - q)); [|lia].
      by rewrite Habove in Ht. }
    destruct (Z.leb_spec (next d - 1 - offset) (upper - 1)); simpl.
    + split; [|done]. unfold missing, too_old, WINDOW_SIZE. split; [lia|]. split; [|lia].
      by replace (next d - 1 - offset) with (next d - 2 - (offset - 1)) by lia.
    + intros q Hq. pose proof (Hleast q Hq). destruct Hq as [Hq _]. lia.
Qed.

(** The start of the range and its length, when there is a packet between the bounds. *)
Lemma interval_offsets n lower upper :
  0 <= lower → lower + 1 < upper < n →
  sat_sub upper 1 = upper - 1 ∧ Z.max (n - 1 - (upper - 1)) 1 - 1 = n - 1 - upper ∧
  Z.min (sat_sub (sat_sub (n - 1) (lower + 1)) (n - 1 - upper)) BITFIELD_SIZE = Z.min (upper - lower - 1) 128.
Proof.
  intros Hlo Hup. unfold sat_sub, BITFIELD_SIZE. destruct (Z.leb_spec 1 upper); [|lia].
  destruct (Z.leb_spec (lower + 1) (n - 1)); [|lia].
  destruct (Z.leb_spec (n - 1 - upper) (n - 1 - (lower + 1))); lia.
Qed.

(** With no packet between the bounds the range is empty. *)
Lemma interval_empty n lower upper :
  0 <= lower <= upper → upper <= lower + 1 → upper < n →
  Z.min (sat_sub (sat_sub (n - 1) (lower + 1)) (Z.max (n - 1 - sat_sub upper 1) 1 - 1)) BITFIELD_SIZE = 0.
Proof.
  intros Hlo Hup Hn. unfold sat_sub, BITFIELD_SIZE.
  destruct (Z.leb_spec 1 upper), (Z.leb_spec (lower + 1) (n - 1)); case_match; lia.
Qed.

Lemma smallest_missing_ok l d lower upper :
  dedup_ok l d → 0 <= lower <= upper → upper < next d →
  ∃ o, smallest_missing_in_interval d lower upper = Ret o ∧ least_missing l d lower upper o.
Proof.
  intros Hd Hlo Hup. pose proof (d_next _ _ Hd) as Hn. unfold smallest_missing_in_interval, highest.
  destruct (Z.leb_spec lower upper); [|lia]. cbn [rassert mbind M_bind].
  rewrite (usub_ok (next d)) by lia. cbn [mbind M_bind].
  destruct (Z.leb_spec upper (next d - 1)); [|lia]. cbn [rassert mbind M_bind].
  rewrite uadd_ok by lia. cbn [mbind M_bind].
  rewrite usub_ok by (unfold sat_sub; case_match; lia). cbn [mbind M_bind]. cbv zeta.
  destruct (Z.le_gt_cases upper (lower + 1)).
  { rewrite interval_empty by lia. exists None. split; [by case_match|]. intros q [? _]. lia. }
  destruct (interval_offsets (next d) lower upper) as (-> & -> & ->); [lia..|].
  destruct (Z.leb_spec BITFIELD_SIZE (next d - 1 - upper)) as [Hs|Hs]; unfold BITFIELD_SIZE in Hs.
  { exists None. split; [done|]. intros q (? & _ & Hold). unfold too_old, WINDOW_SIZE in Hold. lia. }
  destruct (Z.eqb_spec (Z.min (upper - lower - 1) 128) 0); [lia|]. apply search_ok; done || lia.
Qed.

(** * Theorems *)

(** C28: [Dedup::insert], after any sequence of packet numbers, never panics, and it reports
    a packet as a duplicate exactly when that packet was inserted before or lies
    [WINDOW_SIZE] or more below the highest one.  So a replayed packet is never
    accepted, and a new packet inside the window always is. *)
Theorem dedup_insert_correct (l : list Z) (p : Z) :
  Forall (fun p => 0 <= p < u64_max) (p :: l) →
  ∃ d dup d', inserts l = Ret d ∧ insert d p = Ret (dup, d') ∧ inserts (p :: l) = Ret d' ∧
    (dup = true ↔ p ∈ l ∨ p + WINDOW_SIZE < next_of l).
Proof.
  intros [Hp Hl]%Forall_cons. destruct (inserts_ok l Hl) as (d & Hd & Hok & Hn).
  destruct (dedup_insert_ok l d p Hok Hp) as (dup & d' & Hi & _ & _ & Hdup). exists d, dup, d'.
  split; [done|]. split; [done|]. split; [simpl; rewrite Hd; simpl; by rewrite Hi|].
  unfold too_old in Hdup. by rewrite <- Hn.
Qed.

Lemma dedup_insert_correct_witness :
  ∃ d dup d', inserts [5; 300; 299; 2] = Ret d ∧ insert d 299 = Ret (dup, d') ∧
    inserts [299; 5; 300; 299; 2] = Ret d' ∧ (dup = true ↔ 299 ∈ [5; 300; 299; 2] ∨ 299 + WINDOW_SIZE < 301).
Proof. apply (dedup_insert_correct [5; 300; 299; 2] 299). repeat constructor; done. Defined.

(** [Dedup::smallest_missing_in_interval], for bounds at or below the highest packet, never panics and
    returns the least packet strictly between the bounds that was not received and
    is still inside the window, or [None] when there is none; the bit arithmetic on
    the inverted window therefore computes the intended minimum for every placement
    of the interval relative to the 128-bit window. *)
Theorem smallest_missing_correct (l : list Z) (lower upper : Z) :
  Forall (fun p => 0 <= p < u64_max) l → 0 <= lower <= upper → upper < next_of l →
  ∃ d o, inserts l = Ret d ∧ smallest_missing_in_interval d lower upper = Ret o ∧
    least_missing l d lower upper o.
Proof.
  intros Hl Hlo Hup. destruct (inserts_ok l Hl) as (d & Hd & Hok & Hn).
  destruct (smallest_missing_ok l d lower upper Hok Hlo) as (o & Ho & Hleast); [lia|].
  by exists d, o.
Qed.

Lemma smallest_missing_correct_witness :
  ∃ d o, inserts [9; 4; 2; 3; 0] = Ret d ∧ smallest_missing_in_interval d 2 9 = Ret o ∧
    least_missing [9; 4; 2; 3; 0] d 2 9 o.
Proof. apply (smallest_missing_correct [9; 4; 2; 3; 0] 2 9); [repeat constructor; done|done|done]. Defined.
