(* ===== verification/PendingAcks.v ===== *)
(** Packet numbers to acknowledge: [PendingAcks] of
    [quic-proto/src/connection/spaces.rs].

    An [Instant] or [Duration] is an integer number of nanoseconds.  The
    deduplicator [packet_received] consults is the one of [Dedup]. *)
From S2P Require Import Prelude Coding RangeSet Ids Shared Frame FrameTheorems Dedup.

(** * State and operations *)

Definition MAX_ACK_BLOCKS : Z := 64.
Definition LAZY_ACK_THRESHOLD : Z := 10.

Record PendingAcks : Type := mkPendingAcks {
  immediate_ack_required : bool;
  ack_eliciting_since_last_ack_sent : Z;
  non_ack_eliciting_since_last_ack_sent : Z;
  ack_eliciting_threshold : Z;
  reordering_threshold : Z;
  earliest_ack_eliciting_since_last_ack_sent : option Z;
  ranges : list Range;
  largest_packet : option (Z * Z);
  largest_ack_eliciting_packet : option Z;
  largest_acked : option Z
}.

Definition PendingAcks_new : PendingAcks := mkPendingAcks false 0 0 1 1 None [] None None None.

Definition set_immediate (a : PendingAcks) (b : bool) : PendingAcks :=
  mkPendingAcks b (ack_eliciting_since_last_ack_sent a) (non_ack_eliciting_since_last_ack_sent a)
    (ack_eliciting_threshold a) (reordering_threshold a) (earliest_ack_eliciting_since_last_ack_sent a)
    (ranges a) (largest_packet a) (largest_ack_eliciting_packet a) (largest_acked a).
Definition set_ranges (a : PendingAcks) (v : list Range) : PendingAcks :=
  mkPendingAcks (immediate_ack_required a) (ack_eliciting_since_last_ack_sent a)
    (non_ack_eliciting_since_last_ack_sent a) (ack_eliciting_threshold a) (reordering_threshold a)
    (earliest_ack_eliciting_since_last_ack_sent a) v (largest_packet a) (largest_ack_eliciting_packet a)
    (largest_acked a).
Definition set_largest_packet (a : PendingAcks) (v : option (Z * Z)) : PendingAcks :=
  mkPendingAcks (immediate_ack_required a) (ack_eliciting_since_last_ack_sent a)
    (non_ack_eliciting_since_last_ack_sent a) (ack_eliciting_threshold a) (reordering_threshold a)
    (earliest_ack_eliciting_since_last_ack_sent a) (ranges a) v (largest_ack_eliciting_packet a)
    (largest_acked a).
Definition set_earliest (a : PendingAcks) (v : option Z) : PendingAcks :=
  mkPendingAcks (immediate_ack_required a) (ack_eliciting_since_last_ack_sent a)
    (non_ack_eliciting_since_last_ack_sent a) (ack_eliciting_threshold a) (reordering_threshold a)
    v (ranges a) (largest_packet a) (largest_ack_eliciting_packet a) (largest_acked a).
Definition set_non_eliciting (a : PendingAcks) (n : Z) : PendingAcks :=
  mkPendingAcks (immediate_ack_required a) (ack_eliciting_since_last_ack_sent a) n
    (ack_eliciting_threshold a) (reordering_threshold a) (earliest_ack_eliciting_since_last_ack_sent a)
    (ranges a) (largest_packet a) (largest_ack_eliciting_packet a) (largest_acked a).
(** The largest ack-eliciting packet and the number of them since the last ACK. *)
Definition set_eliciting (a : PendingAcks) (largest : option Z) (n : Z) : PendingAcks :=
  mkPendingAcks (immediate_ack_required a) n (non_ack_eliciting_since_last_ack_sent a)
    (ack_eliciting_threshold a) (reordering_threshold a) (earliest_ack_eliciting_since_last_ack_sent a)
    (ranges a) (largest_packet a) largest (largest_acked a).

Definition set_ack_frequency_params (a : PendingAcks) (f : AckFrequency) : PendingAcks :=
  mkPendingAcks (immediate_ack_required a) (ack_eliciting_since_last_ack_sent a)
    (non_ack_eliciting_since_last_ack_sent a) (into_inner (af_ack_eliciting_threshold f))
    (into_inner (af_reordering_threshold f)) (earliest_ack_eliciting_since_last_ack_sent a)
    (ranges a) (largest_packet a) (largest_ack_eliciting_packet a) (largest_acked a).

Definition set_immediate_ack_required (a : PendingAcks) : PendingAcks := set_immediate a true.

Definition on_max_ack_delay_timeout (a : PendingAcks) : PendingAcks :=
  set_immediate a (0 <? ack_eliciting_since_last_ack_sent a).

Definition max_ack_delay_timeout (a : PendingAcks) (max_ack_delay : Z) : option Z :=
  (fun earliest_unacked => earliest_unacked + max_ack_delay) <$> earliest_ack_eliciting_since_last_ack_sent a.

Definition acks_can_send (a : PendingAcks) : bool :=
  immediate_ack_required a && negb (Arr.is_empty (ranges a)).

(** [now - received], which saturates at zero. *)
Definition acks_delay (a : PendingAcks) (now : Z) : Z :=
  match largest_packet a with None => 0 | Some (_, received) => Z.max 0 (now - received) end.

Definition is_out_of_order (a : PendingAcks) (packet_number prev_largest_ack_eliciting : Z) (dedup : Dedup)
    : M bool :=
  if reordering_threshold a =? 0 then mret false
  else if reordering_threshold a =? 1 then
    if packet_number <? prev_largest_ack_eliciting then mret true
    else missing_in_interval dedup prev_largest_ack_eliciting packet_number
  else
    match largest_acked a, largest_ack_eliciting_packet a with
    | Some largest_acked, Some largest_unacked =>
        if largest_acked <? reordering_threshold a then mret false
        else
          largest_reported ← usub largest_acked (reordering_threshold a);
          largest_reported ← uadd largest_reported 1;
          o ← smallest_missing_in_interval dedup largest_reported largest_unacked;
          match o with
          | None => mret false
          | Some smallest_missing_unreported =>
              n ← usub largest_unacked smallest_missing_unreported;
              mret (reordering_threshold a <=? n)
          end
    | _, _ => mret false
    end.

(** Returns whether the max ack delay timer should be armed. *)
Definition packet_received (a : PendingAcks) (now packet_number : Z) (ack_eliciting : bool) (dedup : Dedup)
    : M (bool * PendingAcks) :=
  if negb ack_eliciting then
    n ← uadd (non_ack_eliciting_since_last_ack_sent a) 1;
    mret (false, set_non_eliciting a n)
  else
    let prev_largest_ack_eliciting := default 0 (largest_ack_eliciting_packet a) in
    let largest := match largest_ack_eliciting_packet a with
                   | Some pn => Some (Z.max pn packet_number)
                   | None => Some packet_number
                   end in
    n ← uadd (ack_eliciting_since_last_ack_sent a) 1;
    let a := set_eliciting a largest n in
    let a := set_immediate a (immediate_ack_required a || (ack_eliciting_threshold a <? n)) in
    b ← is_out_of_order a packet_number prev_largest_ack_eliciting dedup;
    let a := set_immediate a (immediate_ack_required a || b) in
    match earliest_ack_eliciting_since_last_ack_sent a with
    | None => if negb (acks_can_send a) then mret (true, set_earliest a (Some now)) else mret (false, a)
    | Some _ => mret (false, a)
    end.

Definition acks_sent (a : PendingAcks) : PendingAcks :=
  mkPendingAcks false 0 0 (ack_eliciting_threshold a) (reordering_threshold a) None (ranges a)
    (largest_packet a) (largest_ack_eliciting_packet a) (largest_ack_eliciting_packet a).

(** [largest_packet] after [packet] arrived. *)
Definition track_largest (a : PendingAcks) (packet now : Z) : PendingAcks :=
  if match largest_packet a with None => true | Some (pn, _) => pn <? packet end
  then set_largest_packet a (Some (packet, now)) else a.

Definition acks_insert_one (a : PendingAcks) (packet now : Z) : M PendingAcks :=
  r ← Arr.insert_one (ranges a) packet;
  let a := track_largest (set_ranges a r.1) packet now in
  mret (if MAX_ACK_BLOCKS <? Arr.size (ranges a) then set_ranges a (Arr.pop_min (ranges a)).2 else a).

Definition subtract_below (a : PendingAcks) (max : Z) : M PendingAcks :=
  e ← uadd max 1; mret (set_ranges a (Arr.remove (ranges a) (mkRange 0 e)).1).

Definition maybe_ack_non_eliciting (a : PendingAcks) : PendingAcks :=
  if LAZY_ACK_THRESHOLD <? non_ack_eliciting_since_last_ack_sent a then set_immediate a true else a.

(** * Specification *)

(** [a] beside the deduplicator [d] of its space, which has recorded the packets
    [l]: only recorded packets are acknowledged. *)
Record pa_ok (l : list Z) (d : Dedup) (a : PendingAcks) : Prop := {
  pa_dedup : dedup_ok l d;
  pa_recorded : Forall (fun p => 0 <= p < 2 ^ 62) l;
  pa_wf : wf (ranges a);
  pa_blocks : len (ranges a) <= MAX_ACK_BLOCKS;
  pa_in : ∀ x, rs_in x (ranges a) → x ∈ l;
  pa_largest : ∀ p, largest_ack_eliciting_packet a = Some p → p ∈ l;
  pa_acked : ∀ x, largest_acked a = Some x → ∃ p, largest_ack_eliciting_packet a = Some p ∧ x <= p;
  pa_threshold : 0 <= reordering_threshold a
}.

(** What a connection does with the pending acknowledgements of a space; packets
    are recorded by the deduplicator first. *)
Inductive pa_step : list Z * Dedup * PendingAcks → list Z * Dedup * PendingAcks → Prop :=
| ps_dedup l d a p dup d' :
    0 <= p < 2 ^ 62 → insert d p = Ret (dup, d') → pa_step (l, d, a) (p :: l, d', a)
| ps_insert_one l d a p now a' :
    p ∈ l → acks_insert_one a p now = Ret a' → pa_step (l, d, a) (l, d, a')
| ps_packet_received l d a now p ack_eliciting b a' :
    p ∈ l → packet_received a now p ack_eliciting d = Ret (b, a') → pa_step (l, d, a) (l, d, a')
| ps_subtract_below l d a max a' :
    0 <= max → subtract_below a max = Ret a' → pa_step (l, d, a) (l, d, a')
| ps_acks_sent l d a : pa_step (l, d, a) (l, d, acks_sent a)
| ps_set_params l d a f :
    VarInt_wf (af_reordering_threshold f) → pa_step (l, d, a) (l, d, set_ack_frequency_params a f)
| ps_set_immediate l d a : pa_step (l, d, a) (l, d, set_immediate_ack_required a)
| ps_timeout l d a : pa_step (l, d, a) (l, d, on_max_ack_delay_timeout a)
| ps_maybe l d a : pa_step (l, d, a) (l, d, maybe_ack_non_eliciting a).

Inductive pa_reachable : list Z * Dedup * PendingAcks → Prop :=
| pr_new : pa_reachable ([], new, PendingAcks_new)
| pr_step s s' : pa_reachable s → pa_step s s' → pa_reachable s'.

(** Whether the packet is out of order: under threshold 1 (RFC 9000) when it is below
    the largest or leaves a gap above it, under a larger one (ACK frequency draft) when
    a packet not yet reported missing has fallen that far behind. *)
Definition out_of_order (l : list Z) (d : Dedup) (a : PendingAcks) (p prev : Z) : Prop :=
  if reordering_threshold a =? 0 then False
  else if reordering_threshold a =? 1 then p < prev ∨ ∃ q, missing l d prev p q
  else ∃ acked unacked q,
    largest_acked a = Some acked ∧ largest_ack_eliciting_packet a = Some unacked ∧
    reordering_threshold a <= acked ∧
    missing l d (acked - reordering_threshold a + 1) unacked q ∧ reordering_threshold a <= unacked - q.

(** * Lemmas *)

Lemma pending_acks_new_ok : pa_ok [] new PendingAcks_new.
Proof.
  split; simpl; [apply new_ok|constructor|done|done| |done|done|lia]. intros x Hx. by apply rs_in_nil in Hx.
Qed.

Lemma recorded_bounds l d p : dedup_ok l d → p ∈ l → 0 <= p < next d.
Proof. intros [_ _ Ha _ _] Hp. rewrite Forall_forall in Ha. by apply Ha. Qed.

Lemma ins_ref_length m s e : (length (ins_ref m s e) <= S (length m))%nat.
Proof.
  revert s e. induction m as [|r m IH]; intros s e; simpl; [lia|]. zcases; simpl; [lia|..].
  - specialize (IH s e). lia.
  - specialize (IH (Z.min (rstart r) s) (Z.max (rend r) e)). lia.
Qed.

Lemma pop_min_ok v : wf v → wf (Arr.pop_min v).2 ∧ (∀ x, rs_in x (Arr.pop_min v).2 → rs_in x v) ∧
  len (Arr.pop_min v).2 = Z.max 0 (len v - 1).
Proof.
  destruct v as [|r v]; simpl; [done|]. intros (? & ? & ? & Hv). rewrite len_cons. pose proof (len_nonneg v).
  split; [eapply wf_from_mono; [|exact Hv]; lia|]. split; [|lia]. intros x Hx. apply rs_in_cons. by right.
Qed.

Lemma insert_one_ok v p :
  wf v → 0 <= p < u64_max → ∃ v' b, Arr.insert_one v p = Ret (v', b) ∧ wf v' ∧
    (∀ x, rs_in x v' ↔ rs_in x v ∨ x = p) ∧ len v' <= len v + 1.
Proof.
  intros Hv Hp. unfold Arr.insert_one. rewrite uadd_ok by lia. cbn [mbind M_bind].
  rewrite (arr_insert_ref v (mkRange p (p + 1)) 0) by (done || (unfold range_is_empty; simpl; zcases; lia || done)).
  do 2 eexists. split; [done|]. simpl. split; [apply ins_ref_wf; done || lia|]. split.
  - intros x. rewrite (ins_ref_in v p (p + 1) 0) by (done || lia). split; (intros [?|?]; [by left|right; lia]).
  - pose proof (ins_ref_length v p (p + 1)). unfold len. lia.
Qed.

(** Removing a prefix splits no range. *)
Lemma remove_prefix_length v e b lo :
  0 <= lo → wf_from lo v → (length (Arr.remove_from v (mkRange 0 e) b).1 <= length v)%nat.
Proof.
  revert b lo. induction v as [|[s t] v IH]; intros b lo Hlo; cbn [Arr.remove_from]; [simpl; lia|].
  intros (? & ? & ? & Hv). cbn [rstart rend] in *.
  destruct (0 =? e); [simpl; lia|]. destruct (e <=? s); [simpl; lia|]. destruct (Z.leb_spec t 0); [lia|].
  specialize (IH true (t + 1) ltac:(lia) Hv). destruct (Arr.remove_from v _ true) as [v' b']. simpl in IH.
  unfold range_is_empty at 1. cbn [rstart rend]. destruct (Z.ltb_spec s 0); [lia|]. cbn [negb andb].
  destruct (range_is_empty _); simpl; [lia|]. unfold range_is_empty. simpl.
  destruct (Z.ltb_spec s 0); [lia|]. simpl. lia.
Qed.

Lemma remove_prefix_ok v e :
  wf v → 0 <= e → let v' := (Arr.remove v (mkRange 0 e)).1 in
  wf v' ∧ (∀ x, rs_in x v' ↔ rs_in x v ∧ e <= x) ∧ len v' <= len v.
Proof.
  intros Hv He. unfold Arr.remove, range_is_empty. cbn [rstart rend].
  destruct (Z.ltb_spec 0 e); simpl.
  - pose proof (remove_from_spec v 0 e false 0 Hv ltac:(lia)) as Hs.
    pose proof (remove_prefix_length v e false 0 ltac:(lia) Hv) as Hl.
    destruct (Arr.remove_from v (mkRange 0 e) false) as [v' b]. destruct Hs as (? & Hin & _). simpl in *.
    split; [done|]. split; [|unfold len; lia]. intros x. rewrite Hin. split; (intros [Hx ?]; split; [done|]); [|lia].
    pose proof (rs_in_bounds _ _ _ Hv Hx). lia.
  - split; [done|]. split; [|lia]. intros x. split; [|tauto]. intros Hx. split; [done|].
    pose proof (rs_in_bounds _ _ _ Hv Hx). lia.
Qed.

Lemma missing_in_interval_ok l d lower upper :
  dedup_ok l d → 0 <= lower <= upper → upper < next d →
  ∃ b, missing_in_interval d lower upper = Ret b ∧ (b = true ↔ ∃ q, missing l d lower upper q).
Proof.
  intros Hd Hlo Hup. destruct (smallest_missing_ok l d lower upper Hd Hlo Hup) as (o & Ho & Hl).
  unfold missing_in_interval. rewrite Ho. cbn [mbind M_bind]. eexists. split; [done|].
  destruct o as [q|]; simpl in Hl; [split; [intros _; exists q; apply Hl|done]|].
  split; [done|]. intros [q Hq]. by destruct (Hl q).
Qed.

Lemma is_out_of_order_ok l d a p prev :
  pa_ok l d a → p ∈ l → 0 <= prev →
  ∃ b, is_out_of_order a p prev d = Ret b ∧ (b = true ↔ out_of_order l d a p prev).
Proof.
  intros [Hd _ _ _ _ Hlg Hac Hthr] Hp Hprev. unfold is_out_of_order, out_of_order.
  destruct (Z.eqb_spec (reordering_threshold a) 0); [by exists false|].
  destruct (Z.eqb_spec (reordering_threshold a) 1).
  { destruct (Z.ltb_spec p prev); [exists true; split; [done|]; split; [by left|done]|].
    pose proof (recorded_bounds _ _ _ Hd Hp).
    destruct (missing_in_interval_ok l d prev p Hd) as (b & Hb & Hspec); [lia..|]. exists b. split; [done|].
    rewrite Hspec. split; [by right|]. intros [?|?]; [lia|done]. }
  destruct (largest_acked a) as [acked|]; [|exists false; split; [done|]; split; [done|]; naive_solver].
  destruct (Hac acked eq_refl) as (unacked & Hu & Hle). rewrite Hu.
  pose proof (recorded_bounds _ _ _ Hd (Hlg _ Hu)). pose proof (d_next _ _ Hd).
  destruct (Z.ltb_spec acked (reordering_threshold a)).
  { exists false. split; [done|]. split; [done|]. intros (? & ? & ? & [= ->] & ? & ? & _). lia. }
  rewrite usub_ok by lia. cbn [mbind M_bind]. rewrite uadd_ok by lia. cbn [mbind M_bind].
  destruct (smallest_missing_ok l d (acked - reordering_threshold a + 1) unacked Hd) as (o & -> & Hl); [lia..|].
  cbn [mbind M_bind]. destruct o as [q|]; simpl in Hl.
  - destruct Hl as [Hq Hleast]. assert (q < unacked) by apply Hq. rewrite usub_ok by lia. cbn [mbind M_bind].
    eexists. split; [done|]. rewrite Z.leb_le. split; [intros ?; by exists acked, unacked, q|].
    intros (? & ? & q' & [= <-] & [= <-] & _ & Hq' & ?). specialize (Hleast _ Hq'). lia.
  - exists false. split; [done|]. split; [done|]. intros (? & ? & q' & [= <-] & [= <-] & _ & Hq' & _).
    by destruct (Hl q').
Qed.

Lemma set_immediate_ok l d a b : pa_ok l d a → pa_ok l d (set_immediate a b).
Proof. by intros []. Qed.

Lemma set_earliest_ok l d a t : pa_ok l d a → pa_ok l d (set_earliest a t).
Proof. by intros []. Qed.

(** The bookkeeping of an ack-eliciting packet. *)
Lemma set_eliciting_ok l d a p n :
  pa_ok l d a → p ∈ l →
  pa_ok l d (set_eliciting a (match largest_ack_eliciting_packet a with
                              | Some pn => Some (Z.max pn p) | None => Some p end) n).
Proof.
  intros [Hd Hr Hw Hb Hin Hlg Hac Hthr] Hp. split; try done; simpl.
  - destruct (largest_ack_eliciting_packet a) as [pn|]; intros ? [= <-]; [|done].
    destruct (Z.max_spec pn p) as [[_ ->]|[_ ->]]; [done|by apply Hlg].
  - intros x Hx. destruct (Hac x Hx) as (pn & -> & ?). eexists. split; [done|]. lia.
Qed.

(** The state an ack-eliciting packet leads to, before the timer. *)
Definition eliciting_state (a : PendingAcks) (p : Z) : PendingAcks :=
  set_eliciting a (match largest_ack_eliciting_packet a with
                   | Some pn => Some (Z.max pn p) | None => Some p end)
    (ack_eliciting_since_last_ack_sent a + 1).

Lemma packet_received_eliciting l d a now p :
  pa_ok l d a → p ∈ l → ack_eliciting_since_last_ack_sent a < u64_max →
  ∃ b arm a', packet_received a now p true d = Ret (arm, a') ∧ pa_ok l d a' ∧
    (b = true ↔ out_of_order l d (eliciting_state a p) p (default 0 (largest_ack_eliciting_packet a))) ∧
    immediate_ack_required a' =
      immediate_ack_required a || (ack_eliciting_threshold a <? ack_eliciting_since_last_ack_sent a + 1) || b ∧
    arm = match earliest_ack_eliciting_since_last_ack_sent a with
          | None => negb (acks_can_send a') | Some _ => false end ∧
    earliest_ack_eliciting_since_last_ack_sent a' =
      if arm then Some now else earliest_ack_eliciting_since_last_ack_sent a.
Proof.
  intros Ha Hp Hn. unfold packet_received. cbn [negb]. rewrite uadd_ok by lia. cbn [mbind M_bind]. cbv zeta.
  fold (eliciting_state a p).
  pose proof (set_eliciting_ok l d a p (ack_eliciting_since_last_ack_sent a + 1) Ha Hp) as Ha1.
  fold (eliciting_state a p) in Ha1. set (a1 := set_immediate (eliciting_state a p) _).
  destruct (is_out_of_order_ok l d a1 p (default 0 (largest_ack_eliciting_packet a))) as (b & -> & Hb).
  { by apply set_immediate_ok. } { done. }
  { destruct (largest_ack_eliciting_packet a) as [pn|] eqn:E; simpl; [|done].
    apply (recorded_bounds l d pn); [apply Ha|]. by apply (pa_largest _ _ _ Ha). }
  cbn [mbind M_bind]. exists b. set (a2 := set_immediate a1 _).
  assert (Ha2 : pa_ok l d a2) by (by apply set_immediate_ok, set_immediate_ok).
  change (earliest_ack_eliciting_since_last_ack_sent a2) with (earliest_ack_eliciting_since_last_ack_sent a).
  destruct (earliest_ack_eliciting_since_last_ack_sent a) as [t|] eqn:Ee;
    [|destruct (acks_can_send a2) eqn:Es; cbn [negb]]; do 2 eexists;
    (split; [done|]; split; [try done; by apply set_earliest_ok|]; split; [exact Hb|]; split; [done|]).
  - done.
  - by rewrite Es.
  - change (acks_can_send (set_earliest a2 (Some now))) with (acks_can_send a2). by rewrite Es.
Qed.

Lemma packet_received_other l d a now p :
  pa_ok l d a → non_ack_eliciting_since_last_ack_sent a < u64_max →
  ∃ a', packet_received a now p false d = Ret (false, a') ∧ pa_ok l d a' ∧
    immediate_ack_required a' = immediate_ack_required a.
Proof.
  intros [] Hn. unfold packet_received. cbn [negb]. rewrite uadd_ok by lia. eexists. by split.
Qed.

(** A counter that would overflow stops the program, so a step stays within bounds. *)
Lemma packet_received_inv l d a now p e b a' :
  pa_ok l d a → p ∈ l → packet_received a now p e d = Ret (b, a') → pa_ok l d a'.
Proof.
  intros Ha Hp Hr. destruct e.
  - destruct (Z.lt_ge_cases (ack_eliciting_since_last_ack_sent a) u64_max) as [Hn|Hn].
    + destruct (packet_received_eliciting l d a now p Ha Hp Hn) as (? & ? & ? & Heq & Hok & _).
      rewrite Heq in Hr. by injection Hr as <- <-.
    + unfold packet_received, uadd in Hr. cbn [negb] in Hr.
      by destruct (Z.leb_spec (ack_eliciting_since_last_ack_sent a + 1) u64_max); [lia|].
  - destruct (Z.lt_ge_cases (non_ack_eliciting_since_last_ack_sent a) u64_max) as [Hn|Hn].
    + destruct (packet_received_other l d a now p Ha Hn) as (? & Heq & Hok & _).
      rewrite Heq in Hr. by injection Hr as <- <-.
    + unfold packet_received, uadd in Hr. cbn [negb] in Hr.
      by destruct (Z.leb_spec (non_ack_eliciting_since_last_ack_sent a + 1) u64_max); [lia|].
Qed.

Lemma acks_insert_one_ok l d a p now :
  pa_ok l d a → p ∈ l → ∃ a', acks_insert_one a p now = Ret a' ∧ pa_ok l d a' ∧
    (len (ranges a) < MAX_ACK_BLOCKS → ∀ x, rs_in x (ranges a') ↔ rs_in x (ranges a) ∨ x = p).
Proof.
  intros [Hd Hr Hw Hb Hin Hlg Hac Hthr] Hp. unfold acks_insert_one, Arr.size.
  pose proof (recorded_bounds _ _ _ Hd Hp). pose proof (d_next _ _ Hd).
  destruct (insert_one_ok (ranges a) p Hw) as (v & b & -> & Hv & Hvin & Hl); [lia|]. cbn [mbind M_bind].
  eexists. split; [done|]. cbn [fst]. set (a1 := track_largest _ p now).
  assert (Ha1 : ranges a1 = v ∧ largest_ack_eliciting_packet a1 = largest_ack_eliciting_packet a ∧
    largest_acked a1 = largest_acked a ∧ reordering_threshold a1 = reordering_threshold a)
    by (unfold a1, track_largest; by case_match). destruct Ha1 as (Hra & Ela & Eac & Et). rewrite Hra.
  assert (Hvl : ∀ x, rs_in x v → x ∈ l) by (intros x [?| ->]%Hvin; [by apply Hin|done]).
  destruct (pop_min_ok v Hv) as (Hpw & Hpin & Hpl). unfold MAX_ACK_BLOCKS in *.
  destruct (Z.ltb_spec 64 (len v)).
  - split; [|lia]. split; simpl; rewrite ?Ela, ?Eac, ?Et; try done; [unfold MAX_ACK_BLOCKS; lia|].
    intros x Hx. by apply Hvl, Hpin.
  - split; [|intros _; by rewrite Hra]. split; rewrite ?Hra, ?Ela, ?Eac, ?Et; done.
Qed.

Lemma subtract_below_ok l d a max :
  pa_ok l d a → 0 <= max < u64_max → ∃ a', subtract_below a max = Ret a' ∧ pa_ok l d a' ∧
    (∀ x, rs_in x (ranges a') ↔ rs_in x (ranges a) ∧ max < x).
Proof.
  intros [Hd Hr Hw Hb Hin Hlg Hac Hthr] Hm. unfold subtract_below. rewrite uadd_ok by lia. cbn [mbind M_bind].
  destruct (remove_prefix_ok (ranges a) (max + 1) Hw) as (Hv & Hvin & Hl); [lia|].
  eexists. split; [done|]. split.
  - split; simpl; try done; [lia|]. intros x [? _]%Hvin. by apply Hin.
  - intros x. simpl. rewrite Hvin. split; (intros [? ?]; split; [done|lia]).
Qed.

Lemma pa_step_inv l d a l' d' a' : pa_ok l d a → pa_step (l, d, a) (l', d', a') → pa_ok l' d' a'.
Proof.
  intros Ha Hs. inversion Hs; subst.
  - destruct Ha as [Hd Hr Hw Hb Hin Hlg Hac Hthr].
    destruct (dedup_insert_ok l d p Hd) as (? & ? & Hi & Hok & _); [unfold u64_max; lia|].
    match goal with H : insert d p = Ret (dup, _) |- _ => rewrite H in Hi end. injection Hi as <- <-.
    split; try done; [by constructor|..]; intros; right; auto.
  - destruct (acks_insert_one_ok l' d' a p now Ha) as (? & Heq & Hok & _); [done|]. congruence.
  - by eapply packet_received_inv.
  - destruct (Z.lt_ge_cases max u64_max).
    + destruct (subtract_below_ok l' d' a max Ha) as (? & Heq & Hok & _); [lia|]. congruence.
    + unfold subtract_below, uadd in *. destruct (Z.leb_spec (max + 1) u64_max); [lia|done].
  - destruct Ha. split; simpl; try done. intros x Hx. exists x. split; [done|lia].
  - destruct Ha. match goal with H : VarInt_wf _ |- _ => destruct H end. by split.
  - by apply set_immediate_ok.
  - by apply set_immediate_ok.
  - unfold maybe_ack_non_eliciting. case_match; [by apply set_immediate_ok|done].
Qed.

Lemma pa_reachable_ok s : pa_reachable s → pa_ok s.1.1 s.1.2 s.2.
Proof.
  induction 1 as [|[[l d] a] [[l' d'] a'] _ IH Hs]; [apply pending_acks_new_ok|]. by eapply pa_step_inv.
Qed.

(** ** The size of an ACK frame *)

Lemma wapp_len m n bs a b :
  m ⧺ n = Ret bs → (∀ x, m = Ret x → len x <= a) → (∀ x, n = Ret x → len x <= b) → len bs <= a + b.
Proof.
  intros H Hm Hn. apply M_bind_ret in H as (x & Hx & H). apply M_bind_ret in H as (y & Hy & H).
  injection H as <-. rewrite len_app. specialize (Hm x Hx). specialize (Hn y Hy). lia.
Qed.

Lemma write_var_len8 x bs : write_var x = Ret bs → len bs <= 8.
Proof. intros ->%write_var_len. apply var_size_range. Qed.

Lemma Ack_blocks_len rest prev q : Ack_encode_blocks prev rest = Ret q → len q <= 16 * len rest.
Proof.
  revert prev q. induction rest as [|r rest IH]; intros prev q; cbn [Ack_encode_blocks]; [by intros [= <-]|].
  intros Hq. do 4 (apply M_bind_ret in Hq as (? & _ & Hq)). rewrite len_cons.
  replace (16 * (1 + len rest)) with (8 + (8 + 16 * len rest)) by lia.
  apply (wapp_len _ _ _ _ _ Hq); [apply write_var_len8|]. intros y Hy.
  apply (wapp_len _ _ _ _ _ Hy); [apply write_var_len8|apply IH].
Qed.

Lemma Ack_encode_len delay v ecn bs : Ack_encode delay v ecn = Ret bs → len bs <= 16 * len v + 41.
Proof.
  unfold Ack_encode, Arr.iter, Arr.size. destruct (rev v) as [|r rest] eqn:E; [done|].
  assert (len v = 1 + len rest) as -> by (rewrite <- (len_cons r), <- E; unfold len; by rewrite length_rev).
  intros H. do 2 (apply M_bind_ret in H as (? & _ & H)).
  replace (16 * (1 + len rest) + 41) with (1 + (8 + (8 + (8 + (8 + (16 * len rest + 24)))))) by lia.
  apply (wapp_len _ _ _ _ _ H); [intros y; destruct ecn; vm_compute; intros [= <-]; vm_compute; done|].
  clear H. intros ? H. apply (wapp_len _ _ _ _ _ H); [apply write_var_len8|].
  clear H. intros ? H. apply (wapp_len _ _ _ _ _ H); [apply write_var_len8|].
  clear H. intros ? H. apply (wapp_len _ _ _ _ _ H);
    [intros ? Hy; apply M_bind_ret in Hy as (? & _ & Hy); by eapply write_var_len8|].
  clear H. intros ? H. apply (wapp_len _ _ _ _ _ H);
    [intros ? Hy; apply M_bind_ret in Hy as (? & _ & Hy); by eapply write_var_len8|].
  clear H. intros ? H. apply (wapp_len _ _ _ _ _ H); [intros ?; apply Ack_blocks_len|].
  clear H. intros ? H. destruct ecn as [e|]; [|by injection H as <-]. unfold EcnCounts_encode in H.
  change 24 with (8 + (8 + 8)). apply (wapp_len _ _ _ _ _ H); [apply write_var_len8|].
  clear H. intros ? H. apply (wapp_len _ _ _ _ _ H); apply write_var_len8.
Qed.

Lemma ranges_bound l v :
  Forall (fun p => 0 <= p < 2 ^ 62) l → (∀ x, rs_in x v → x ∈ l) → wf v → Forall (fun r => rend r <= 2 ^ 62) v.
Proof.
  intros Hl Hin Hv. apply Forall_forall. intros r Hr. rewrite Forall_forall in Hl.
  pose proof (wf_from_Forall _ _ Hv) as Hall. rewrite Forall_forall in Hall. destruct (Hall r Hr) as (? & ? & _).
  assert (Hx : rs_in (rend r - 1) v) by (apply Exists_exists; exists r; split; [done|lia]).
  specialize (Hl _ (Hin _ Hx)). simpl in Hl. lia.
Qed.

(** * Theorems *)

(** The lower bound on the UDP payload every path must carry. *)
Definition min_payload : Z := 1200.

(** The ACK frame of a packet number space.  However many packets arrived and in
    whatever order, the pending acknowledgements form at most [MAX_ACK_BLOCKS] ranges, their
    ACK frame encodes without a panic into at most 1065 bytes, less than the smallest
    datagram every path carries, and the peer decodes it as a list of ranges that
    covers only packets this endpoint recorded as received. *)
Theorem pending_acks_frame_fits s delay ecn rest t :
  pa_reachable s → ranges s.2 ≠ [] → is_var delay → (∀ e, ecn = Some e → ecn_wf e) →
  ∃ bs ack ty l, Ack_encode delay (ranges s.2) ecn = Ret bs ∧ len bs <= 1065 < min_payload ∧
    try_next (mkIter (bs ++ rest) t) = (Ok (FAck ack), mkIter rest (Some ty)) ∧
    ack_delay ack = delay ∧ ack_ecn ack = ecn ∧ Ack_ranges ack = Ret l ∧ len l <= MAX_ACK_BLOCKS ∧
    (∀ lo hi x, (lo, hi) ∈ l → lo <= x <= hi → x ∈ s.1.1).
Proof.
  intros [Hd Hr Hw Hb Hin _ _ _]%pa_reachable_ok Hne Hdl Hecn. unfold MAX_ACK_BLOCKS in *.
  pose proof (ranges_bound _ _ Hr Hin Hw) as Hmax.
  destruct (enc_ack delay (ranges s.2) ecn Hw Hne Hmax ltac:(lia) Hdl Hecn) as (ack & (bs & Hbs & Hdec) & Hd1 & Hd2 & Hd3).
  destruct (parser_try_next _ t _ _ (Hdec rest)) as [ty Hty]. pose proof (Ack_encode_len _ _ _ _ Hbs).
  exists bs, ack, ty, (inclusive <$> rev (ranges s.2)). split; [done|]. split; [unfold min_payload; lia|].
  split; [done|]. split; [done|]. split; [done|]. split; [done|].
  split; [unfold len in *; rewrite length_fmap, length_rev; lia|].
  intros lo hi x (r & [= -> ->] & Hrv)%list_elem_of_fmap Hx. apply Hin, Exists_exists. exists r.
  split; [|lia]. by apply list_elem_of_In, in_rev, list_elem_of_In.
Qed.

(** Packets 5 and 7 have arrived. *)
Definition sample_pending : list Z * Dedup * PendingAcks :=
  ([7; 5], mkDedup 130 8, mkPendingAcks false 0 0 1 1 None [mkRange 5 6; mkRange 7 8] (Some (7, 20)) None None).

Lemma sample_reachable : pa_reachable sample_pending.
Proof.
  eapply pr_step; [eapply pr_step; [eapply pr_step; [eapply pr_step; [apply pr_new|]|]|]|].
  - apply (ps_dedup [] new PendingAcks_new 5 false (mkDedup 32 6)); [lia|done].
  - apply (ps_insert_one _ _ _ 5 10
      (mkPendingAcks false 0 0 1 1 None [mkRange 5 6] (Some (5, 10)) None None)); [left|done].
  - apply (ps_dedup _ _ _ 7 false (mkDedup 130 8)); [lia|done].
  - apply (ps_insert_one _ _ _ 7 20); [left|done].
Qed.

Lemma pending_acks_frame_fits_witness :
  ∃ bs ack ty l, Ack_encode 3 (ranges sample_pending.2) None = Ret bs ∧ len bs <= 1065 < min_payload ∧
    try_next (mkIter (bs ++ []) None) = (Ok (FAck ack), mkIter [] (Some ty)) ∧
    ack_delay ack = 3 ∧ ack_ecn ack = None ∧ Ack_ranges ack = Ret l ∧ len l <= MAX_ACK_BLOCKS ∧
    (∀ lo hi x, (lo, hi) ∈ l → lo <= x <= hi → x ∈ [7; 5]).
Proof.
  apply (pending_acks_frame_fits sample_pending 3 None [] None); [apply sample_reachable|done|unfold is_var; lia|done].
Defined.

(** [PendingAcks::packet_received] for an ack-eliciting packet the deduplicator has recorded
    never panics.  It requires an immediate ACK exactly when one was already required, when more than
    [ack_eliciting_threshold] ack-eliciting packets arrived since the last ACK, or when
    the packet is out of order in the sense of RFC 9000 or of the ACK frequency draft;
    the delay timer is armed, with the time of this packet, exactly when it was
    not running and no ACK can be sent at once. *)
Theorem packet_received_immediate_ack s now p :
  pa_reachable s → p ∈ s.1.1 → ack_eliciting_since_last_ack_sent s.2 < u64_max →
  ∃ b arm a', packet_received s.2 now p true s.1.2 = Ret (arm, a') ∧
    (b = true ↔ out_of_order s.1.1 s.1.2 (eliciting_state s.2 p) p (default 0 (largest_ack_eliciting_packet s.2))) ∧
    immediate_ack_required a' =
      immediate_ack_required s.2 || (ack_eliciting_threshold s.2 <? ack_eliciting_since_last_ack_sent s.2 + 1) || b ∧
    arm = match earliest_ack_eliciting_since_last_ack_sent s.2 with
          | None => negb (acks_can_send a') | Some _ => false end ∧
    earliest_ack_eliciting_since_last_ack_sent a' =
      if arm then Some now else earliest_ack_eliciting_since_last_ack_sent s.2.
Proof.
  intros Hs%pa_reachable_ok Hp Hn.
  destruct (packet_received_eliciting _ _ _ now p Hs Hp Hn) as (b & arm & a' & Hr & _ & Hrest).
  by exists b, arm, a'.
Qed.

Lemma packet_received_immediate_ack_witness :
  ∃ b arm a', packet_received sample_pending.2 20 7 true sample_pending.1.2 = Ret (arm, a') ∧
    (b = true ↔ out_of_order [7; 5] sample_pending.1.2 (eliciting_state sample_pending.2 7) 7 0) ∧
    immediate_ack_required a' = false || (1 <? 1) || b ∧
    arm = negb (acks_can_send a') ∧
    earliest_ack_eliciting_since_last_ack_sent a' = if arm then Some 20 else None.
Proof. apply (packet_received_immediate_ack sample_pending 20 7); [apply sample_reachable|by left|done]. Defined.
