(* ===== verification/Spaces.v ===== *)
(** Packet number spaces: [PacketSpace] and [PacketNumberFilter] of
    [quic-proto/src/connection/spaces.rs].

    The packets in flight, a [BTreeMap] in the source, are the list of its entries in
    key order ([Module OrdMap]).  The packet keys come from the TLS library, so their
    type is a variable; so is the heap of the incoming handshake stream. *)
From stdpp Require Import gmap.
From S2P Require Import Prelude Coding RangeSet Ids Shared Frame Packet Assembler Retransmits Dedup PendingAcks.
Open Scope Z_scope.

(** * [BTreeMap<u64, V>] *)

Module OrdMap.
Section OrdMap.
Context {V : Type}.

Fixpoint insert (k : Z) (v : V) (m : list (Z * V)) : list (Z * V) :=
  match m with
  | [] => [(k, v)]
  | (k', v') :: m' =>
      if k <? k' then (k, v) :: m
      else if k =? k' then (k, v) :: m'
      else (k', v') :: insert k v m'
  end.

(** [remove] returns the value it removed. *)
Fixpoint remove (k : Z) (m : list (Z * V)) : option V * list (Z * V) :=
  match m with
  | [] => (None, [])
  | (k', v') :: m' =>
      if k =? k' then (Some v', m')
      else let '(o, r) := remove k m' in (o, (k', v') :: r)
  end.

(** [range((Bound::Excluded(k), Bound::Unbounded)).next()]. *)
Definition first_above (k : Z) (m : list (Z * V)) : option (Z * V) := head (filter (fun p => k < p.1) m).

End OrdMap.
End OrdMap.

(** * State *)

Record SentPacket : Type := mkSentPacket {
  path_generation : Z;
  time_sent : Z;
  size : Z;
  ack_eliciting : bool;
  sp_largest_acked : option Z;
  retransmits : ThinRetransmits;
  stream_frames : list StreamMeta
}.

Record LostPacket : Type := mkLostPacket { lp_time_sent : Z }.

Record SendableFrames : Type := mkSendableFrames { acks : bool; other : bool }.
Definition SendableFrames_empty : SendableFrames := mkSendableFrames false false.
Definition SendableFrames_is_empty (f : SendableFrames) : bool := negb (acks f) && negb (other f).

Section Spaces.
Context {Keys : Type} {H : Type} `{Heap H}.

Record PacketSpace : Type := mkPacketSpace {
  crypto : option Keys;
  dedup : Dedup;
  rx_packet : Z;
  pending : Retransmits;
  pending_acks : PendingAcks;
  next_packet_number : Z;
  largest_acked_packet : option Z;
  largest_acked_packet_sent : Z;
  largest_ack_eliciting_sent : Z;
  unacked_non_ack_eliciting_tail : Z;
  sent_packets : list (Z * SentPacket);
  lost_packets : list (Z * LostPacket);
  ecn_counters : EcnCounts;
  ecn_feedback : EcnCounts;
  crypto_stream : @Assembler H;
  crypto_offset : Z;
  time_of_last_ack_eliciting_packet : option Z;
  loss_time : option Z;
  loss_probes : Z;
  ping_pending : bool;
  immediate_ack_pending : bool;
  sent_with_keys : Z
}.

Definition set_pending (s : PacketSpace) (v : Retransmits) : PacketSpace :=
  mkPacketSpace (crypto s) (dedup s) (rx_packet s) v (pending_acks s) (next_packet_number s)
    (largest_acked_packet s) (largest_acked_packet_sent s) (largest_ack_eliciting_sent s)
    (unacked_non_ack_eliciting_tail s) (sent_packets s) (lost_packets s) (ecn_counters s) (ecn_feedback s)
    (crypto_stream s) (crypto_offset s) (time_of_last_ack_eliciting_packet s) (loss_time s) (loss_probes s)
    (ping_pending s) (immediate_ack_pending s) (sent_with_keys s).
Definition set_next_packet_number (s : PacketSpace) (v : Z) : PacketSpace :=
  mkPacketSpace (crypto s) (dedup s) (rx_packet s) (pending s) (pending_acks s) v (largest_acked_packet s)
    (largest_acked_packet_sent s) (largest_ack_eliciting_sent s) (unacked_non_ack_eliciting_tail s)
    (sent_packets s) (lost_packets s) (ecn_counters s) (ecn_feedback s) (crypto_stream s) (crypto_offset s)
    (time_of_last_ack_eliciting_packet s) (loss_time s) (loss_probes s) (ping_pending s)
    (immediate_ack_pending s) (sent_with_keys s).
Definition set_largest_ack_eliciting_sent (s : PacketSpace) (v : Z) : PacketSpace :=
  mkPacketSpace (crypto s) (dedup s) (rx_packet s) (pending s) (pending_acks s) (next_packet_number s)
    (largest_acked_packet s) (largest_acked_packet_sent s) v (unacked_non_ack_eliciting_tail s)
    (sent_packets s) (lost_packets s) (ecn_counters s) (ecn_feedback s) (crypto_stream s) (crypto_offset s)
    (time_of_last_ack_eliciting_packet s) (loss_time s) (loss_probes s) (ping_pending s)
    (immediate_ack_pending s) (sent_with_keys s).
Definition set_unacked_non_ack_eliciting_tail (s : PacketSpace) (v : Z) : PacketSpace :=
  mkPacketSpace (crypto s) (dedup s) (rx_packet s) (pending s) (pending_acks s) (next_packet_number s)
    (largest_acked_packet s) (largest_acked_packet_sent s) (largest_ack_eliciting_sent s) v (sent_packets s)
    (lost_packets s) (ecn_counters s) (ecn_feedback s) (crypto_stream s) (crypto_offset s)
    (time_of_last_ack_eliciting_packet s) (loss_time s) (loss_probes s) (ping_pending s)
    (immediate_ack_pending s) (sent_with_keys s).
Definition set_sent_packets (s : PacketSpace) (v : list (Z * SentPacket)) : PacketSpace :=
  mkPacketSpace (crypto s) (dedup s) (rx_packet s) (pending s) (pending_acks s) (next_packet_number s)
    (largest_acked_packet s) (largest_acked_packet_sent s) (largest_ack_eliciting_sent s)
    (unacked_non_ack_eliciting_tail s) v (lost_packets s) (ecn_counters s) (ecn_feedback s) (crypto_stream s)
    (crypto_offset s) (time_of_last_ack_eliciting_packet s) (loss_time s) (loss_probes s) (ping_pending s)
    (immediate_ack_pending s) (sent_with_keys s).
Definition set_ecn_feedback (s : PacketSpace) (v : EcnCounts) : PacketSpace :=
  mkPacketSpace (crypto s) (dedup s) (rx_packet s) (pending s) (pending_acks s) (next_packet_number s)
    (largest_acked_packet s) (largest_acked_packet_sent s) (largest_ack_eliciting_sent s)
    (unacked_non_ack_eliciting_tail s) (sent_packets s) (lost_packets s) (ecn_counters s) v (crypto_stream s)
    (crypto_offset s) (time_of_last_ack_eliciting_packet s) (loss_time s) (loss_probes s) (ping_pending s)
    (immediate_ack_pending s) (sent_with_keys s).
Definition set_ping_pending (s : PacketSpace) (v : bool) : PacketSpace :=
  mkPacketSpace (crypto s) (dedup s) (rx_packet s) (pending s) (pending_acks s) (next_packet_number s)
    (largest_acked_packet s) (largest_acked_packet_sent s) (largest_ack_eliciting_sent s)
    (unacked_non_ack_eliciting_tail s) (sent_packets s) (lost_packets s) (ecn_counters s) (ecn_feedback s)
    (crypto_stream s) (crypto_offset s) (time_of_last_ack_eliciting_packet s) (loss_time s) (loss_probes s) v
    (immediate_ack_pending s) (sent_with_keys s).
Definition set_immediate_ack_pending (s : PacketSpace) (v : bool) : PacketSpace :=
  mkPacketSpace (crypto s) (dedup s) (rx_packet s) (pending s) (pending_acks s) (next_packet_number s)
    (largest_acked_packet s) (largest_acked_packet_sent s) (largest_ack_eliciting_sent s)
    (unacked_non_ack_eliciting_tail s) (sent_packets s) (lost_packets s) (ecn_counters s) (ecn_feedback s)
    (crypto_stream s) (crypto_offset s) (time_of_last_ack_eliciting_packet s) (loss_time s) (loss_probes s)
    (ping_pending s) v (sent_with_keys s).
Definition set_sent_with_keys (s : PacketSpace) (v : Z) : PacketSpace :=
  mkPacketSpace (crypto s) (dedup s) (rx_packet s) (pending s) (pending_acks s) (next_packet_number s)
    (largest_acked_packet s) (largest_acked_packet_sent s) (largest_ack_eliciting_sent s)
    (unacked_non_ack_eliciting_tail s) (sent_packets s) (lost_packets s) (ecn_counters s) (ecn_feedback s)
    (crypto_stream s) (crypto_offset s) (time_of_last_ack_eliciting_packet s) (loss_time s) (loss_probes s)
    (ping_pending s) (immediate_ack_pending s) v.
Definition set_crypto (s : PacketSpace) (v : option Keys) : PacketSpace :=
  mkPacketSpace v (dedup s) (rx_packet s) (pending s) (pending_acks s) (next_packet_number s)
    (largest_acked_packet s) (largest_acked_packet_sent s) (largest_ack_eliciting_sent s)
    (unacked_non_ack_eliciting_tail s) (sent_packets s) (lost_packets s) (ecn_counters s) (ecn_feedback s)
    (crypto_stream s) (crypto_offset s) (time_of_last_ack_eliciting_packet s) (loss_time s) (loss_probes s)
    (ping_pending s) (immediate_ack_pending s) (sent_with_keys s).
Definition set_dedup (s : PacketSpace) (v : Dedup) : PacketSpace :=
  mkPacketSpace (crypto s) v (rx_packet s) (pending s) (pending_acks s) (next_packet_number s)
    (largest_acked_packet s) (largest_acked_packet_sent s) (largest_ack_eliciting_sent s)
    (unacked_non_ack_eliciting_tail s) (sent_packets s) (lost_packets s) (ecn_counters s) (ecn_feedback s)
    (crypto_stream s) (crypto_offset s) (time_of_last_ack_eliciting_packet s) (loss_time s) (loss_probes s)
    (ping_pending s) (immediate_ack_pending s) (sent_with_keys s).
Definition set_rx_packet (s : PacketSpace) (v : Z) : PacketSpace :=
  mkPacketSpace (crypto s) (dedup s) v (pending s) (pending_acks s) (next_packet_number s)
    (largest_acked_packet s) (largest_acked_packet_sent s) (largest_ack_eliciting_sent s)
    (unacked_non_ack_eliciting_tail s) (sent_packets s) (lost_packets s) (ecn_counters s) (ecn_feedback s)
    (crypto_stream s) (crypto_offset s) (time_of_last_ack_eliciting_packet s) (loss_time s) (loss_probes s)
    (ping_pending s) (immediate_ack_pending s) (sent_with_keys s).
Definition set_pending_acks (s : PacketSpace) (v : PendingAcks) : PacketSpace :=
  mkPacketSpace (crypto s) (dedup s) (rx_packet s) (pending s) v (next_packet_number s) (largest_acked_packet s)
    (largest_acked_packet_sent s) (largest_ack_eliciting_sent s) (unacked_non_ack_eliciting_tail s)
    (sent_packets s) (lost_packets s) (ecn_counters s) (ecn_feedback s) (crypto_stream s) (crypto_offset s)
    (time_of_last_ack_eliciting_packet s) (loss_time s) (loss_probes s) (ping_pending s)
    (immediate_ack_pending s) (sent_with_keys s).
Definition set_largest_acked_packet (s : PacketSpace) (v : option Z) : PacketSpace :=
  mkPacketSpace (crypto s) (dedup s) (rx_packet s) (pending s) (pending_acks s) (next_packet_number s) v
    (largest_acked_packet_sent s) (largest_ack_eliciting_sent s) (unacked_non_ack_eliciting_tail s)
    (sent_packets s) (lost_packets s) (ecn_counters s) (ecn_feedback s) (crypto_stream s) (crypto_offset s)
    (time_of_last_ack_eliciting_packet s) (loss_time s) (loss_probes s) (ping_pending s)
    (immediate_ack_pending s) (sent_with_keys s).
Definition set_largest_acked_packet_sent (s : PacketSpace) (v : Z) : PacketSpace :=
  mkPacketSpace (crypto s) (dedup s) (rx_packet s) (pending s) (pending_acks s) (next_packet_number s)
    (largest_acked_packet s) v (largest_ack_eliciting_sent s) (unacked_non_ack_eliciting_tail s)
    (sent_packets s) (lost_packets s) (ecn_counters s) (ecn_feedback s) (crypto_stream s) (crypto_offset s)
    (time_of_last_ack_eliciting_packet s) (loss_time s) (loss_probes s) (ping_pending s)
    (immediate_ack_pending s) (sent_with_keys s).
Definition set_lost_packets (s : PacketSpace) (v : list (Z * LostPacket)) : PacketSpace :=
  mkPacketSpace (crypto s) (dedup s) (rx_packet s) (pending s) (pending_acks s) (next_packet_number s)
    (largest_acked_packet s) (largest_acked_packet_sent s) (largest_ack_eliciting_sent s)
    (unacked_non_ack_eliciting_tail s) (sent_packets s) v (ecn_counters s) (ecn_feedback s) (crypto_stream s)
    (crypto_offset s) (time_of_last_ack_eliciting_packet s) (loss_time s) (loss_probes s) (ping_pending s)
    (immediate_ack_pending s) (sent_with_keys s).
Definition set_ecn_counters (s : PacketSpace) (v : EcnCounts) : PacketSpace :=
  mkPacketSpace (crypto s) (dedup s) (rx_packet s) (pending s) (pending_acks s) (next_packet_number s)
    (largest_acked_packet s) (largest_acked_packet_sent s) (largest_ack_eliciting_sent s)
    (unacked_non_ack_eliciting_tail s) (sent_packets s) (lost_packets s) v (ecn_feedback s) (crypto_stream s)
    (crypto_offset s) (time_of_last_ack_eliciting_packet s) (loss_time s) (loss_probes s) (ping_pending s)
    (immediate_ack_pending s) (sent_with_keys s).
Definition set_crypto_stream (s : PacketSpace) (v : @Assembler H) : PacketSpace :=
  mkPacketSpace (crypto s) (dedup s) (rx_packet s) (pending s) (pending_acks s) (next_packet_number s)
    (largest_acked_packet s) (largest_acked_packet_sent s) (largest_ack_eliciting_sent s)
    (unacked_non_ack_eliciting_tail s) (sent_packets s) (lost_packets s) (ecn_counters s) (ecn_feedback s) v
    (crypto_offset s) (time_of_last_ack_eliciting_packet s) (loss_time s) (loss_probes s) (ping_pending s)
    (immediate_ack_pending s) (sent_with_keys s).
Definition set_crypto_offset (s : PacketSpace) (v : Z) : PacketSpace :=
  mkPacketSpace (crypto s) (dedup s) (rx_packet s) (pending s) (pending_acks s) (next_packet_number s)
    (largest_acked_packet s) (largest_acked_packet_sent s) (largest_ack_eliciting_sent s)
    (unacked_non_ack_eliciting_tail s) (sent_packets s) (lost_packets s) (ecn_counters s) (ecn_feedback s)
    (crypto_stream s) v (time_of_last_ack_eliciting_packet s) (loss_time s) (loss_probes s) (ping_pending s)
    (immediate_ack_pending s) (sent_with_keys s).
Definition set_time_of_last_ack_eliciting_packet (s : PacketSpace) (v : option Z) : PacketSpace :=
  mkPacketSpace (crypto s) (dedup s) (rx_packet s) (pending s) (pending_acks s) (next_packet_number s)
    (largest_acked_packet s) (largest_acked_packet_sent s) (largest_ack_eliciting_sent s)
    (unacked_non_ack_eliciting_tail s) (sent_packets s) (lost_packets s) (ecn_counters s) (ecn_feedback s)
    (crypto_stream s) (crypto_offset s) v (loss_time s) (loss_probes s) (ping_pending s)
    (immediate_ack_pending s) (sent_with_keys s).
Definition set_loss_time (s : PacketSpace) (v : option Z) : PacketSpace :=
  mkPacketSpace (crypto s) (dedup s) (rx_packet s) (pending s) (pending_acks s) (next_packet_number s)
    (largest_acked_packet s) (largest_acked_packet_sent s) (largest_ack_eliciting_sent s)
    (unacked_non_ack_eliciting_tail s) (sent_packets s) (lost_packets s) (ecn_counters s) (ecn_feedback s)
    (crypto_stream s) (crypto_offset s) (time_of_last_ack_eliciting_packet s) v (loss_probes s) (ping_pending s)
    (immediate_ack_pending s) (sent_with_keys s).
Definition set_loss_probes (s : PacketSpace) (v : Z) : PacketSpace :=
  mkPacketSpace (crypto s) (dedup s) (rx_packet s) (pending s) (pending_acks s) (next_packet_number s)
    (largest_acked_packet s) (largest_acked_packet_sent s) (largest_ack_eliciting_sent s)
    (unacked_non_ack_eliciting_tail s) (sent_packets s) (lost_packets s) (ecn_counters s) (ecn_feedback s)
    (crypto_stream s) (crypto_offset s) (time_of_last_ack_eliciting_packet s) (loss_time s) v (ping_pending s)
    (immediate_ack_pending s) (sent_with_keys s).

Definition PacketSpace_new (now : Z) : PacketSpace :=
  mkPacketSpace None Dedup.new 0 Retransmits_default PendingAcks_new 0 None now 0 0 [] [] EcnCounts_ZERO
    EcnCounts_ZERO Assembler.new 0 None None 0 false false 0.

(** * Operations *)

(** The loop over [sent_packets.values_mut()]: the retransmits taken from the oldest
    packet that has any, and the packets left. *)
Fixpoint take_retransmits (can : StreamId → bool) (m : list (Z * SentPacket))
    : option (ThinRetransmits * list (Z * SentPacket)) :=
  match m with
  | [] => None
  | (n, packet) :: m =>
      if negb (Thin_is_empty can (retransmits packet)) then
        Some (retransmits packet,
              (n, mkSentPacket (path_generation packet) (time_sent packet) (size packet) (ack_eliciting packet)
                    (sp_largest_acked packet) None (stream_frames packet)) :: m)
      else
        match take_retransmits can m with
        | Some (r, m') => Some (r, (n, packet) :: m')
        | None => None
        end
  end.

(** [can] is [StreamsState::can_send_flow_control]. *)
Definition maybe_queue_probe (s : PacketSpace) (request_immediate_ack : bool) (can : StreamId → bool)
    : PacketSpace :=
  if loss_probes s =? 0 then s
  else
    let s := if request_immediate_ack then set_immediate_ack_pending s true else s in
    if negb (Retransmits_is_empty can (pending s)) then s
    else
      match take_retransmits can (sent_packets s) with
      | Some (r, m) => set_pending (set_sent_packets s m) (Retransmits_or_thin (pending s) r)
      | None => if negb (immediate_ack_pending s) then set_ping_pending s true else s
      end.

Definition get_tx_number (s : PacketSpace) : M (Z * PacketSpace) :=
  _ ← rassert (next_packet_number s <? 2 ^ 62);
  let x := next_packet_number s in
  n ← uadd (next_packet_number s) 1;
  k ← uadd (sent_with_keys s) 1;
  mret (x, set_sent_with_keys (set_next_packet_number s n) k).

Definition space_can_send (s : PacketSpace) (can : StreamId → bool) : SendableFrames :=
  mkSendableFrames (acks_can_send (pending_acks s))
    (negb (Retransmits_is_empty can (pending s)) || ping_pending s || immediate_ack_pending s).

(** The message of an error of [detect_ecn]. *)
Inductive EcnError : Type := Ect0Regression | Ect1Regression | CeRegression | EcnBleaching | EcnCorruption.

Definition detect_ecn (s : PacketSpace) (newly_acked : Z) (ecn : EcnCounts)
    : M (result EcnError bool * PacketSpace) :=
  match checked_sub (ect0 ecn) (ect0 (ecn_feedback s)) with
  | None => mret (Err Ect0Regression, s)
  | Some ect0_increase =>
  match checked_sub (ect1 ecn) (ect1 (ecn_feedback s)) with
  | None => mret (Err Ect1Regression, s)
  | Some ect1_increase =>
  match checked_sub (ce ecn) (ce (ecn_feedback s)) with
  | None => mret (Err CeRegression, s)
  | Some ce_increase =>
      t ← uadd ect0_increase ect1_increase;
      total_increase ← uadd t ce_increase;
      if total_increase <? newly_acked then mret (Err EcnBleaching, s)
      else
        t ← uadd ect0_increase ce_increase;
        if (t <? newly_acked) || negb (ect1_increase =? 0) then mret (Err EcnCorruption, s)
        else mret (Ok (negb (ce_increase =? 0)), set_ecn_feedback s ecn)
  end end end.

(** Named [take] in the source. *)
Definition take_packet (s : PacketSpace) (number : Z) : M (option SentPacket * PacketSpace) :=
  match OrdMap.remove number (sent_packets s) with
  | (None, _) => mret (None, s)
  | (Some packet, m) =>
      let s := set_sent_packets s m in
      if negb (ack_eliciting packet) && (largest_ack_eliciting_sent s <? number) then
        match checked_sub (unacked_non_ack_eliciting_tail s) 1 with
        | Some n => mret (Some packet, set_unacked_non_ack_eliciting_tail s n)
        | None => Panic
        end
      else mret (Some packet, s)
  end.

Definition MAX_UNACKED_NON_ACK_ELICTING_TAIL : Z := 1000.

Definition sent (s : PacketSpace) (number : Z) (packet : SentPacket) : M (option SentPacket * PacketSpace) :=
  r ← (if ack_eliciting packet then
         mret (None, set_largest_ack_eliciting_sent (set_unacked_non_ack_eliciting_tail s 0) number)
       else if MAX_UNACKED_NON_ACK_ELICTING_TAIL <? unacked_non_ack_eliciting_tail s then
         match OrdMap.first_above (largest_ack_eliciting_sent s) (sent_packets s) with
         | None => Panic
         | Some (oldest_after_ack_eliciting, _) =>
             match OrdMap.remove oldest_after_ack_eliciting (sent_packets s) with
             | (None, _) => Panic
             | (Some packet, m) =>
                 _ ← rassert (negb (ack_eliciting packet));
                 mret (Some packet, set_sent_packets s m)
             end
         end
       else
         n ← uadd (unacked_non_ack_eliciting_tail s) 1;
         mret (None, set_unacked_non_ack_eliciting_tail s n));
  let '(forgotten, s) := r in
  mret (forgotten, set_sent_packets s (OrdMap.insert number packet (sent_packets s))).

Definition has_in_flight (s : PacketSpace) : bool := existsb (fun x => negb (size x.2 =? 0)) (sent_packets s).

(** * [PacketNumberFilter] *)

Record PacketNumberFilter : Type := mkFilter {
  next_skipped_packet_number : Z;
  prev_skipped_packet_number : option Z;
  exponent : Z
}.

(** [2u64.saturating_pow(e)]. *)
Definition saturating_pow2 (e : Z) : Z := Z.min u64_max (2 ^ e).

(** [rng.random_range(lo..hi)]: the generator [rng] picks the element; an empty range
    panics. *)
Definition random_range (rng : Z → Z → Z) (lo hi : Z) : M Z := if lo <? hi then mret (rng lo hi) else Panic.

Definition PacketNumberFilter_new (rng : Z → Z → Z) : M PacketNumberFilter :=
  let exponent := 6 in
  n ← random_range rng 0 (saturating_pow2 exponent);
  mret (mkFilter n None exponent).

Definition peek (f : PacketNumberFilter) (space : PacketSpace) : M Z :=
  let n := next_packet_number space in
  if negb (n =? next_skipped_packet_number f) then mret n else uadd n 1.

Definition allocate (f : PacketNumberFilter) (rng : Z → Z → Z) (space : PacketSpace)
    : M (Z * PacketNumberFilter * PacketSpace) :=
  r ← get_tx_number space;
  let '(n, space) := r in
  if negb (n =? next_skipped_packet_number f) then mret (n, f, space)
  else
    let next_exponent := Z.min u32_max (exponent f + 1) in
    next ← random_range rng (saturating_pow2 (exponent f)) (saturating_pow2 next_exponent);
    r ← get_tx_number space;
    mret (r.1, mkFilter next (Some (next_skipped_packet_number f)) next_exponent, r.2).

Definition check_ack (f : PacketNumberFilter) (space_id : SpaceId) (lo hi : Z) : result TransportError unit :=
  if bool_decide (space_id = SpData)
     && match prev_skipped_packet_number f with Some x => (lo <=? x) && (x <=? hi) | None => false end
  then Err (mkTransportError PROTOCOL_VIOLATION)
  else Ok tt.

End Spaces.
Arguments PacketSpace : clear implicits.

(** * Lemmas on the ordered map *)

Section OrdMapFacts.
Context {V : Type}.
Implicit Types m : list (Z * V).

Lemma omap_remove_spec k m :
  (OrdMap.remove k m = (None, m) ∧ k ∉ m.*1) ∨
  ∃ l v r, m = l ++ (k, v) :: r ∧ k ∉ l.*1 ∧ OrdMap.remove k m = (Some v, l ++ r).
Proof.
  induction m as [|[k' v'] m IH]; simpl; [left; (split; [done|apply not_elem_of_nil])|].
  destruct (Z.eqb_spec k k') as [<-|Hne].
  - right. exists [], v', m. split; [done|]. split; [apply not_elem_of_nil|done].
  - destruct IH as [[-> Hk]|(l & v & r & -> & Hk & ->)].
    + left. split; [done|]. by rewrite not_elem_of_cons.
    + right. exists ((k', v') :: l), v, r. split; [done|]. split; [|done]. simpl. by rewrite not_elem_of_cons.
Qed.

Lemma omap_insert_last k v m : Forall (fun p => p.1 < k) m → OrdMap.insert k v m = m ++ [(k, v)].
Proof.
  induction 1 as [|[k' v'] m Hk _ IH]; simpl; [done|]. simpl in Hk.
  destruct (Z.ltb_spec k k'), (Z.eqb_spec k k'); try lia. by rewrite IH.
Qed.

Lemma first_above_spec k m :
  match OrdMap.first_above k m with
  | Some (k', v) => (k', v) ∈ m ∧ k < k'
  | None => filter (fun p => k < p.1) m = []
  end.
Proof.
  unfold OrdMap.first_above. destruct (filter _ m) as [|[k' v] r] eqn:E; simpl; [done|].
  assert (Hin : (k', v) ∈ filter (fun p => k < p.1) m) by (rewrite E; left).
  apply list_elem_of_filter in Hin. simpl in Hin. tauto.
Qed.

End OrdMapFacts.

(** * Packets in flight *)

Section Inflight.
Context {Keys : Type} {H : Type} `{Heap H}.
Implicit Types s : PacketSpace Keys H.

(** The tracked packets numbered above the last ack-eliciting one. *)
Definition tail_of s : list (Z * SentPacket) :=
  filter (fun x => largest_ack_eliciting_sent s < x.1) (sent_packets s).

(** All packets sent so far are numbered below [bound].  The tail counter is the
    number of packets in the tail, or one more: packet 0 is counted even though it is not above the
    initial value of [largest_ack_eliciting_sent]. *)
Record space_ok (bound : Z) s : Prop := {
  sp_bound : 0 <= bound;
  sp_keys : Forall (fun x => 0 <= x.1 < bound) (sent_packets s);
  sp_nodup : NoDup (sent_packets s).*1;
  sp_largest : 0 <= largest_ack_eliciting_sent s ∧
    (largest_ack_eliciting_sent s < bound ∨ largest_ack_eliciting_sent s = 0);
  sp_tail : Forall (fun x => ack_eliciting x.2 = false) (tail_of s);
  sp_count : unacked_non_ack_eliciting_tail s = len (tail_of s) ∨
    (unacked_non_ack_eliciting_tail s = len (tail_of s) + 1 ∧ 0 < bound);
  sp_max : unacked_non_ack_eliciting_tail s <= MAX_UNACKED_NON_ACK_ELICTING_TAIL + 1
}.

Lemma space_new_ok now : space_ok 0 (PacketSpace_new now).
Proof. split; simpl; try done; try lia; try constructor; done || lia. Qed.

Lemma filter_none {A} (P : A → Prop) `{∀ x, Decision (P x)} l : Forall (fun x => ¬ P x) l → filter P l = [].
Proof. induction 1; [done|]. by rewrite filter_cons_False. Qed.

Lemma take_packet_ok b s n :
  space_ok b s → ∃ o s', take_packet s n = Ret (o, s') ∧ space_ok b s' ∧
    match o with
    | Some p => ∃ l r, sent_packets s = l ++ (n, p) :: r ∧ sent_packets s' = l ++ r
    | None => s' = s ∧ n ∉ (sent_packets s).*1
    end.
Proof.
  intros [Hb Hk Hn Hl Ht Hc Hm]. unfold take_packet.
  destruct (omap_remove_spec n (sent_packets s)) as [[-> Hni]|(l & p & r & E & Hni & ->)].
  { exists None, s. done. }
  unfold tail_of in *. rewrite E in *. rewrite filter_app, filter_cons in *.
  rewrite fmap_app, fmap_cons in Hn. simpl in Hn. rewrite Permutation_app_comm in Hn. simpl in Hn.
  apply NoDup_cons in Hn as [_ Hn]. rewrite Permutation_app_comm, <- fmap_app in Hn.
  apply Forall_app in Hk as [Hkl [_ Hkr]%Forall_cons]. simpl in *.
  destruct (decide (largest_ack_eliciting_sent s < n)).
  - assert (ack_eliciting p = false) as Hp by (apply Forall_app in Ht as [_ [Hp _]%Forall_cons]; done).
    rewrite Hp. destruct (Z.ltb_spec (largest_ack_eliciting_sent s) n); [|lia]. simpl.
    rewrite len_app, len_cons in Hc. unfold checked_sub.
    pose proof (len_nonneg (filter (λ x, largest_ack_eliciting_sent s < x.1) l)).
    pose proof (len_nonneg (filter (λ x, largest_ack_eliciting_sent s < x.1) r)).
    destruct (Z.leb_spec 1 (unacked_non_ack_eliciting_tail s)); [|lia].
    do 2 eexists. split; [done|]. split; [|by exists l, r].
    apply Forall_app in Ht as [Htl [_ Htr]%Forall_cons].
    split; unfold tail_of; simpl; try done; rewrite ?filter_app; [by apply Forall_app..|rewrite len_app; lia|lia].
  - assert (negb (ack_eliciting p) && (largest_ack_eliciting_sent s <? n) = false) as ->.
    { destruct (Z.ltb_spec (largest_ack_eliciting_sent s) n); [lia|apply andb_false_r]. }
    do 2 eexists. split; [done|]. split; [|by exists l, r].
    split; unfold tail_of; simpl; try done; rewrite ?filter_app; done || by apply Forall_app.
Qed.

(** Appending the packet just sent. *)
Lemma append_packet_ok b s n p :
  b <= n → 0 <= b → Forall (fun x => 0 <= x.1 < b) (sent_packets s) → NoDup (sent_packets s).*1 →
  OrdMap.insert n p (sent_packets s) = sent_packets s ++ [(n, p)] ∧
  Forall (fun x => 0 <= x.1 < n + 1) (sent_packets s ++ [(n, p)]) ∧ NoDup (sent_packets s ++ [(n, p)]).*1.
Proof.
  intros Hn Hb Hk Hd. split; [|split].
  - apply omap_insert_last. eapply Forall_impl; [exact Hk|]. simpl. lia.
  - apply Forall_app. split; [eapply Forall_impl; [exact Hk|]; simpl; lia|]. constructor; [simpl; lia|constructor].
  - rewrite fmap_app. apply NoDup_app. split; [done|]. split; [|repeat constructor; apply not_elem_of_nil].
    intros x (y & Ex & Hy)%list_elem_of_fmap Hx%list_elem_of_singleton. rewrite Forall_forall in Hk.
    specialize (Hk _ Hy). simpl in *. lia.
Qed.

Lemma sent_eliciting_ok b s n p :
  space_ok b s → b <= n → ack_eliciting p = true →
  ∃ s', sent s n p = Ret (None, s') ∧ space_ok (n + 1) s' ∧ sent_packets s' = sent_packets s ++ [(n, p)].
Proof.
  intros [Hb Hk Hd Hl Ht Hc Hm] Hn Hp. unfold sent. rewrite Hp. cbn [mbind M_bind mret M_ret]. eexists. split; [done|].
  destruct (append_packet_ok b s n p) as (Hi & Hk' & Hd'); [done..|]. simpl. rewrite Hi. split; [|done].
  assert (Htail : filter (fun x => n < x.1) (sent_packets s ++ [(n, p)]) = []).
  { apply filter_none. eapply Forall_impl; [exact Hk'|]. simpl. lia. }
  split; unfold tail_of; simpl; rewrite ?Htail; try done; try lia. by left.
Qed.

(** The tail of a space after a non-ack-eliciting packet. *)
Lemma tail_append (L : Z) (m : list (Z * SentPacket)) n p :
  filter (fun x => L < x.1) (m ++ [(n, p)]) = filter (fun x => L < x.1) m ++ if decide (L < n) then [(n, p)] else [].
Proof. rewrite filter_app, filter_cons. simpl. by case_decide. Qed.

Lemma sent_other_ok b s n p :
  space_ok b s → b <= n → ack_eliciting p = false →
  unacked_non_ack_eliciting_tail s <= MAX_UNACKED_NON_ACK_ELICTING_TAIL →
  ∃ s', sent s n p = Ret (None, s') ∧ space_ok (n + 1) s' ∧ sent_packets s' = sent_packets s ++ [(n, p)].
Proof.
  intros [Hb Hk Hd Hl Ht Hc Hm] Hn Hp Hle. unfold sent. rewrite Hp.
  destruct (Z.ltb_spec MAX_UNACKED_NON_ACK_ELICTING_TAIL (unacked_non_ack_eliciting_tail s)); [lia|].
  rewrite uadd_ok by (unfold MAX_UNACKED_NON_ACK_ELICTING_TAIL, u64_max in *; lia).
  cbn [mbind M_bind mret M_ret]. eexists. split; [done|].
  destruct (append_packet_ok b s n p) as (Hi & Hk' & Hd'); [done..|]. simpl. rewrite Hi. split; [|done].
  unfold tail_of in *. split; unfold tail_of; simpl; rewrite ?tail_append; try done; try lia.
  - apply Forall_app. split; [done|]. case_decide; repeat constructor; done.
  - rewrite len_app. case_decide.
    + change (len [(n, p)]) with 1. lia.
    + change (len (@nil (Z * SentPacket))) with 0. assert (b = 0) by lia. lia.
Qed.

Lemma sent_forgets_ok b s n p :
  space_ok b s → b <= n → ack_eliciting p = false →
  MAX_UNACKED_NON_ACK_ELICTING_TAIL < unacked_non_ack_eliciting_tail s →
  ∃ q s' k l r, sent s n p = Ret (Some q, s') ∧ space_ok (n + 1) s' ∧ ack_eliciting q = false ∧
    sent_packets s = l ++ (k, q) :: r ∧ sent_packets s' = l ++ r ++ [(n, p)].
Proof.
  intros Hs Hn Hp Hgt. pose proof Hs as [Hb Hk Hd Hl Ht Hc Hm]. unfold sent. rewrite Hp.
  unfold MAX_UNACKED_NON_ACK_ELICTING_TAIL in *.
  destruct (Z.ltb_spec 1000 (unacked_non_ack_eliciting_tail s)); [|lia].
  pose proof (first_above_spec (largest_ack_eliciting_sent s) (sent_packets s)) as Hf.
  destruct (OrdMap.first_above _ _) as [[k v]|].
  2: { unfold tail_of in Hc. rewrite Hf in Hc. change (len (@nil (Z * SentPacket))) with 0 in Hc. lia. }
  destruct Hf as [Hin Hlt].
  destruct (omap_remove_spec k (sent_packets s)) as [[_ Hni]|(l & q & r & E & Hni & ->)].
  { destruct Hni. apply list_elem_of_fmap. by exists (k, v). }
  assert (Hq : ack_eliciting q = false).
  { rewrite Forall_forall in Ht. apply (Ht (k, q)). unfold tail_of. apply list_elem_of_filter.
    split; [done|]. rewrite E. apply elem_of_app. right. left. }
  cbn [mbind M_bind mret M_ret]. rewrite Hq. cbn [rassert negb mbind M_bind].
  assert (Hs1 : Forall (fun x => 0 <= x.1 < b) (l ++ r) ∧ NoDup (l ++ r).*1 ∧
    len (tail_of s) = len (filter (fun x => largest_ack_eliciting_sent s < x.1) (l ++ r)) + 1 ∧
    Forall (fun x => ack_eliciting x.2 = false) (filter (fun x => largest_ack_eliciting_sent s < x.1) (l ++ r))).
  { unfold tail_of in *. rewrite E in Hk, Hd, Ht. rewrite E. rewrite !filter_app, filter_cons_True in * by done.
    rewrite fmap_app, fmap_cons in Hd. apply NoDup_app in Hd as (? & Hdis & [? ?]%NoDup_cons).
    apply Forall_app in Hk as [? [_ ?]%Forall_cons]. apply Forall_app in Ht as [? [_ ?]%Forall_cons].
    rewrite !len_app, len_cons. repeat split; [by apply Forall_app| |lia|by apply Forall_app].
    rewrite fmap_app. apply NoDup_app. split; [done|]. split; [|done]. intros x ? ?. apply (Hdis x); [done|by right]. }
  destruct Hs1 as (Hk1 & Hd1 & Hlen & Ht1).
  destruct (append_packet_ok b (set_sent_packets s (l ++ r)) n p) as (Hi & Hk' & Hd'); [done..|]. simpl in *.
  do 2 eexists. exists k, l, r. split; [done|]. rewrite Hi. split; [|by rewrite <- app_assoc].
  split; unfold tail_of; simpl; rewrite ?tail_append; try done; try lia.
  - apply Forall_app. split; [done|]. case_decide; repeat constructor; done.
  - rewrite len_app. case_decide; [change (len [(n, p)]) with 1; lia|]. exfalso.
    assert (b = 0) by lia. rewrite E in Hk. apply Forall_app in Hk as [_ [? _]%Forall_cons]. simpl in *. lia.
Qed.

(** Whether or not an old packet is forgotten. *)
Lemma sent_ok b s n p :
  space_ok b s → b <= n → ∃ o s', sent s n p = Ret (o, s') ∧ space_ok (n + 1) s' ∧
    match o with
    | None => sent_packets s' = sent_packets s ++ [(n, p)]
    | Some q => ack_eliciting q = false ∧ ∃ k l r,
        sent_packets s = l ++ (k, q) :: r ∧ sent_packets s' = l ++ r ++ [(n, p)]
    end.
Proof.
  intros Hs Hn. destruct (ack_eliciting p) eqn:Hp.
  { destruct (sent_eliciting_ok b s n p Hs Hn Hp) as (s' & ? & ? & ?). by exists None, s'. }
  destruct (Z.le_gt_cases (unacked_non_ack_eliciting_tail s) MAX_UNACKED_NON_ACK_ELICTING_TAIL) as [Hle|Hgt].
  { destruct (sent_other_ok b s n p Hs Hn Hp Hle) as (s' & ? & ? & ?). by exists None, s'. }
  destruct (sent_forgets_ok b s n p Hs Hn Hp Hgt) as (q & s' & k & l & r & ? & ? & ? & ? & ?).
  exists (Some q), s'. split; [done|]. split; [done|]. split; [done|]. by exists k, l, r.
Qed.

Lemma take_retransmits_spec can m :
  match take_retransmits can m with
  | Some (t, m') => Thin_is_empty can t = false ∧ ∃ l n p p' r,
      m = l ++ (n, p) :: r ∧ m' = l ++ (n, p') :: r ∧ ack_eliciting p' = ack_eliciting p ∧
      retransmits p = t ∧ retransmits p' = None ∧
      Forall (fun x => Thin_is_empty can (retransmits x.2) = true) l
  | None => Forall (fun x => Thin_is_empty can (retransmits x.2) = true) m
  end.
Proof.
  induction m as [|[n p] m IH]; simpl; [constructor|].
  destruct (Thin_is_empty can (retransmits p)) eqn:Hp; simpl.
  - destruct (take_retransmits can m) as [[t m']|]; [|by constructor].
    destruct IH as (Ht & l & n1 & p1 & p1' & r & -> & -> & ? & ? & ? & ?). split; [done|].
    exists ((n, p) :: l), n1, p1, p1', r. repeat split; [done..|]. by constructor.
  - split; [done|]. eexists [], n, p, _, m. by repeat split.
Qed.

Lemma replace_packet_ok b s l n p p' r :
  space_ok b s → sent_packets s = l ++ (n, p) :: r → ack_eliciting p' = ack_eliciting p →
  space_ok b (set_sent_packets s (l ++ (n, p') :: r)).
Proof.
  intros [Hb Hk Hd Hl Ht Hc Hm] E Hp. unfold tail_of in *. rewrite E in *.
  rewrite filter_app, filter_cons in *. rewrite fmap_app, fmap_cons in *.
  apply Forall_app in Hk as [? [? ?]%Forall_cons]. apply Forall_app in Ht as [? Ht].
  split; unfold tail_of; simpl; rewrite ?filter_app, ?filter_cons, ?fmap_app, ?fmap_cons; try done.
  - apply Forall_app. split; [done|]. by constructor.
  - apply Forall_app. split; [done|]. simpl in *. case_decide; [|done].
    apply Forall_cons in Ht as [? ?]. constructor; [simpl in *; congruence|done].
  - rewrite len_app in *. simpl in *. by case_decide; rewrite ?len_cons in *.
Qed.

Lemma maybe_queue_probe_ok b s q can : space_ok b s → space_ok b (maybe_queue_probe s q can).
Proof.
  intros Hs. unfold maybe_queue_probe. destruct (loss_probes s =? 0); [done|]. cbv zeta.
  assert (Hs1 : space_ok b (if q then set_immediate_ack_pending s true else s)) by (destruct q; by destruct Hs).
  revert Hs1. generalize (if q then set_immediate_ack_pending s true else s). clear s Hs. intros s Hs.
  destruct (negb _); [done|]. pose proof (take_retransmits_spec can (sent_packets s)) as Ht.
  destruct (take_retransmits can (sent_packets s)) as [[t m]|].
  - destruct Ht as (_ & l & n & p & p' & r & E & -> & Hp & _).
    pose proof (replace_packet_ok b s l n p p' r Hs E Hp) as []. by split.
  - case_match; [|done]. by destruct Hs.
Qed.

(** What happens to the packets of a space: sent under increasing numbers, removed
    because acknowledged or lost, or robbed of their retransmits for a probe. *)
Inductive space_step : Z * PacketSpace Keys H → Z * PacketSpace Keys H → Prop :=
| ss_sent b s n p o s' : b <= n → sent s n p = Ret (o, s') → space_step (b, s) (n + 1, s')
| ss_take b s n o s' : take_packet s n = Ret (o, s') → space_step (b, s) (b, s')
| ss_probe b s q can : space_step (b, s) (b, maybe_queue_probe s q can).

Inductive space_reachable : Z * PacketSpace Keys H → Prop :=
| sr_new now : space_reachable (0, PacketSpace_new now)
| sr_step x y : space_reachable x → space_step x y → space_reachable y.

Lemma space_reachable_ok x : space_reachable x → space_ok x.1 x.2.
Proof.
  induction 1 as [now|x y _ IH Hs]; [apply space_new_ok|].
  destruct Hs as [b s n p o s' Hn Hr|b s n o s' Hr|b s q can]; simpl in *.
  - destruct (sent_ok b s n p IH Hn) as (? & ? & Heq & Hok & _). congruence.
  - destruct (take_packet_ok b s n IH) as (? & ? & Heq & Hok & _). congruence.
  - by apply maybe_queue_probe_ok.
Qed.

Lemma tail_len_bound b s : space_ok b s → len (tail_of s) <= MAX_UNACKED_NON_ACK_ELICTING_TAIL + 1.
Proof. intros []. lia. Qed.

End Inflight.

(** * Packet number allocation *)

Section Filter.
Context {Keys : Type} {H : Type} `{Heap H}.
Implicit Types s : PacketSpace Keys H.

(** [random_range] picks an element of the range. *)
Definition rng_ok (rng : Z → Z → Z) : Prop := ∀ lo hi, lo < hi → lo <= rng lo hi < hi.

(** The numbers returned so far are [l], the last one first.  [fr_other] is anything else a connection
    does to the space, key updates included. *)
Inductive filter_reachable : list Z * PacketNumberFilter * PacketSpace Keys H → Prop :=
| fr_new rng f now : rng_ok rng → PacketNumberFilter_new rng = Ret f → filter_reachable ([], f, PacketSpace_new now)
| fr_allocate rng l f s n f' s' :
    filter_reachable (l, f, s) → rng_ok rng → allocate f rng s = Ret (n, f', s') → filter_reachable (n :: l, f', s')
| fr_other l f s s' :
    filter_reachable (l, f, s) → next_packet_number s' = next_packet_number s →
    0 <= sent_with_keys s' <= sent_with_keys s → filter_reachable (l, f, s').

Record filter_ok (l : list Z) (f : PacketNumberFilter) s : Prop := {
  fo_next : 0 <= next_packet_number s <= 2 ^ 62;
  fo_keys : 0 <= sent_with_keys s <= next_packet_number s;
  fo_sent : Forall (fun n => 0 <= n < next_packet_number s) l;
  fo_skipped : ∀ x, prev_skipped_packet_number f = Some x → 0 <= x < next_packet_number s ∧ x ∉ l;
  fo_exponent : 6 <= exponent f <= 63;
  fo_lower : exponent f = 6 ∨ 2 ^ (exponent f - 1) <= next_skipped_packet_number f
}.

Lemma get_tx_number_ok s :
  0 <= next_packet_number s < 2 ^ 62 → 0 <= sent_with_keys s <= next_packet_number s →
  ∃ s', get_tx_number s = Ret (next_packet_number s, s') ∧
    next_packet_number s' = next_packet_number s + 1 ∧ sent_with_keys s' = sent_with_keys s + 1.
Proof.
  intros Hn Hk. unfold get_tx_number. destruct (Z.ltb_spec (next_packet_number s) (2 ^ 62)); [|lia].
  cbn [rassert mbind M_bind]. rewrite !uadd_ok by (unfold u64_max; lia). eexists. by split.
Qed.

(** A skipped number fits a [u64] with the next one to spare. *)
Lemma skip_exponent l f s :
  filter_ok l f s → next_packet_number s < 2 ^ 62 → next_packet_number s = next_skipped_packet_number f →
  exponent f <= 62 ∧ saturating_pow2 (exponent f) = 2 ^ exponent f ∧
  Z.min u32_max (exponent f + 1) = exponent f + 1 ∧
  saturating_pow2 (exponent f + 1) = 2 ^ (exponent f + 1) ∧ 2 ^ exponent f < 2 ^ (exponent f + 1).
Proof.
  intros [Hn _ _ _ He Hl] Hlt Heq. assert (Hle : exponent f <= 62).
  { destruct Hl as [->|Hl]; [lia|]. assert (exponent f - 1 < 62); [|lia]. apply (Z.pow_lt_mono_r_iff 2); lia. }
  pose proof (Z.pow_le_mono_r 2 (exponent f) 62). pose proof (Z.pow_le_mono_r 2 (exponent f + 1) 63).
  pose proof (Z.pow_lt_mono_r 2 (exponent f) (exponent f + 1)).
  unfold saturating_pow2, u64_max, u32_max. lia.
Qed.

Lemma allocate_ok l f s rng :
  filter_ok l f s → rng_ok rng → next_packet_number s < 2 ^ 62 →
  (next_packet_number s = next_skipped_packet_number f → next_packet_number s + 1 < 2 ^ 62) →
  ∃ n f' s', peek f s = Ret n ∧ allocate f rng s = Ret (n, f', s') ∧ filter_ok (n :: l) f' s' ∧
    next_packet_number s <= n.
Proof.
  intros Hf Hr Hlt Hskip. pose proof Hf as [Hn Hk Hs Hx He Hl]. unfold peek, allocate.
  destruct (get_tx_number_ok s) as (s1 & -> & Hn1 & Hk1); [lia..|]. cbn [mbind M_bind].
  assert (Hs1 : Forall (λ n, 0 <= n < next_packet_number s + 1) l) by (eapply Forall_impl; [exact Hs|]; simpl; lia).
  assert (Hfresh : next_packet_number s ∉ l) by (intros Hin; rewrite Forall_forall in Hs; specialize (Hs _ Hin); simpl in Hs; lia).
  destruct (Z.eqb_spec (next_packet_number s) (next_skipped_packet_number f)) as [E|E]; cbn [negb].
  - specialize (Hskip E). destruct (skip_exponent l f s Hf ltac:(lia) E) as (Hle & -> & Hmin & Hsat & Hpow).
    rewrite Hmin, Hsat. unfold random_range. destruct (Z.ltb_spec (2 ^ exponent f) (2 ^ (exponent f + 1))); [|lia].
    cbn [mbind M_bind mret M_ret]. destruct (get_tx_number_ok s1) as (s2 & -> & Hn2 & Hk2); [lia..|].
    rewrite uadd_ok by (unfold u64_max; lia). specialize (Hr _ _ Hpow).
    do 3 eexists. split; [done|]. split; [cbn [mbind M_bind]; rewrite Hn1; done|]. simpl. split; [|lia].
    split; simpl; try lia.
    + constructor; [lia|]. eapply Forall_impl; [exact Hs1|]. simpl. lia.
    + intros x [= <-]. split; [lia|]. rewrite not_elem_of_cons, <- E. split; [lia|done].
    + right. replace (exponent f + 1 - 1) with (exponent f) by lia. lia.
  - do 3 eexists. split; [done|]. split; [done|]. split; [|lia]. split; try lia; try done.
    + constructor; [lia|]. by rewrite Hn1.
    + intros x Hp. destruct (Hx x Hp). split; [lia|]. rewrite not_elem_of_cons. split; [lia|done].
Qed.

(** Running out of packet numbers stops the program. *)
Lemma allocate_bound l f s rng x :
  filter_ok l f s → rng_ok rng → allocate f rng s = Ret x →
  next_packet_number s < 2 ^ 62 ∧
  (next_packet_number s = next_skipped_packet_number f → next_packet_number s + 1 < 2 ^ 62).
Proof.
  intros Hf Hr Ha. pose proof Hf as [Hn Hk _ _ _ _]. unfold allocate in Ha.
  destruct (Z.lt_ge_cases (next_packet_number s) (2 ^ 62)) as [Hlt|Hge].
  2: { unfold get_tx_number in Ha. destruct (Z.ltb_spec (next_packet_number s) (2 ^ 62)); [lia|done]. }
  split; [done|]. intros E. destruct (get_tx_number_ok s) as (s1 & Hg & Hn1 & Hk1); [lia..|].
  rewrite Hg in Ha. cbn [mbind M_bind] in Ha. rewrite <- E, Z.eqb_refl in Ha. cbn [negb] in Ha.
  apply M_bind_ret in Ha as (? & _ & Ha). apply M_bind_ret in Ha as (? & Ha & _).
  unfold get_tx_number in Ha. destruct (Z.ltb_spec (next_packet_number s1) (2 ^ 62)); [lia|done].
Qed.

Lemma filter_reachable_ok x : filter_reachable x → filter_ok x.1.1 x.1.2 x.2.
Proof.
  induction 1 as [rng f now Hr Hf|rng l f s n f' s' _ IH Hr Ha|l f s s' _ IH Hn Hk]; simpl in *.
  - unfold PacketNumberFilter_new, random_range in Hf. injection Hf as <-. split; simpl; try lia; [constructor|done].
  - destruct (allocate_bound l f s rng _ IH Hr Ha) as [Hlt Hskip].
    destruct (allocate_ok l f s rng IH Hr Hlt Hskip) as (? & ? & ? & _ & Heq & Hok & _). congruence.
  - destruct IH as [? ? ? ? ? ?]. split; try done; rewrite Hn; try done; lia.
Qed.

End Filter.

(** * Theorems *)

(** The packets in flight of a packet number space.  Whatever was sent (under increasing numbers),
    acknowledged, lost or probed, recording the next sent packet and removing any packet never panic:
    the tail counter does not underflow, and when the tail is full there is a packet to
    forget, which is not ack-eliciting.  The space never tracks more than
    [MAX_UNACKED_NON_ACK_ELICTING_TAIL] + 1 packets above the last ack-eliciting one, and it forgets
    nothing else. *)
Theorem sent_packets_tracked {Keys H} `{Heap H} (x : Z * PacketSpace Keys H) n p k :
  space_reachable x → x.1 <= n →
  len (tail_of x.2) <= MAX_UNACKED_NON_ACK_ELICTING_TAIL + 1 ∧
  (∃ o s', sent x.2 n p = Ret (o, s') ∧
    match o with
    | None => sent_packets s' = sent_packets x.2 ++ [(n, p)]
    | Some q => ack_eliciting q = false ∧ ∃ k l r,
        sent_packets x.2 = l ++ (k, q) :: r ∧ sent_packets s' = l ++ r ++ [(n, p)]
    end) ∧
  (∃ o s', take_packet x.2 k = Ret (o, s') ∧
    match o with
    | Some p => ∃ l r, sent_packets x.2 = l ++ (k, p) :: r ∧ sent_packets s' = l ++ r
    | None => s' = x.2 ∧ k ∉ (sent_packets x.2).*1
    end).
Proof.
  intros Hx%space_reachable_ok Hn. split; [by eapply tail_len_bound|]. split.
  - destruct (sent_ok x.1 x.2 n p Hx Hn) as (o & s' & Hr & _ & Ho). by exists o, s'.
  - destruct (take_packet_ok x.1 x.2 k Hx) as (o & s' & Hr & _ & Ho). by exists o, s'.
Qed.

(** Packet number allocation in the data space with its skipped numbers.
    [allocate] never panics while numbers remain, returns what [peek] announced, and
    returns strictly increasing numbers.  The most recently skipped number was never sent: an acknowledgement of
    it is rejected as a protocol violation, and one that covers only numbers that were sent is accepted. *)
Theorem packet_number_filter_correct {Keys H} `{Heap H} l f (s : PacketSpace Keys H) rng :
  filter_reachable (l, f, s) → rng_ok rng → next_packet_number s + 1 < 2 ^ 62 →
  ∃ n f' s', peek f s = Ret n ∧ allocate f rng s = Ret (n, f', s') ∧ Forall (fun m => m < n) l ∧
    (∀ lo hi, (∀ x, lo <= x <= hi → x ∈ n :: l) → check_ack f' SpData lo hi = Ok tt) ∧
    (∀ x lo hi, prev_skipped_packet_number f' = Some x →
      x ∉ n :: l ∧ (lo <= x <= hi → check_ack f' SpData lo hi = Err (mkTransportError PROTOCOL_VIOLATION))).
Proof.
  intros Hf%filter_reachable_ok Hr Hlt. simpl in Hf.
  destruct (allocate_ok l f s rng Hf Hr) as (n & f' & s' & Hp & Ha & Hok & Hn); [lia..|].
  exists n, f', s'. split; [done|]. split; [done|].
  split; [eapply Forall_impl; [apply (fo_sent _ _ _ Hf)|]; simpl; lia|].
  pose proof (fo_skipped _ _ _ Hok) as Hx. unfold check_ack. rewrite bool_decide_true by done. cbn [andb].
  destruct (prev_skipped_packet_number f') as [x|]; [|done]. destruct (Hx x eq_refl) as [_ Hni]. split.
  - intros lo hi Hall. destruct (Z.leb_spec lo x), (Z.leb_spec x hi); simpl; try done. by destruct Hni; apply Hall.
  - intros ? lo hi [= <-]. split; [done|]. intros Hb.
    by destruct (Z.leb_spec lo x), (Z.leb_spec x hi); [|lia..].
Qed.

Lemma or_thin_not_empty can r t : Thin_is_empty can t = false → Retransmits_is_empty can (Retransmits_or_thin r t) = false.
Proof.
  intros Ht. destruct t as [r0|]; [|done]. cbn [Thin_is_empty] in Ht. unfold Retransmits_or_thin.
  destruct (Retransmits_or_spec can r r0) as [-> _]. by rewrite Ht, andb_false_r.
Qed.

(** A loss probe always has something to send.  When a probe is due,
    [maybe_queue_probe] leaves the space with sendable data other than ACKs: what was
    pending, or the retransmittable data of the oldest packet in flight that has any,
    or an IMMEDIATE_ACK or PING; and it keeps every packet in flight. *)
Theorem probe_sendable {Keys H} `{Heap H} (s : PacketSpace Keys H) q can :
  loss_probes s ≠ 0 →
  let s' := maybe_queue_probe s q can in
  other (space_can_send s' can) = true ∧ (sent_packets s').*1 = (sent_packets s).*1 ∧
  (Retransmits_is_empty can (pending s) = false → pending s' = pending s) ∧
  (Retransmits_is_empty can (pending s) = true →
   Exists (fun x => Thin_is_empty can (retransmits x.2) = false) (sent_packets s) →
   Retransmits_is_empty can (pending s') = false).
Proof.
  intros Hl. unfold maybe_queue_probe. destruct (Z.eqb_spec (loss_probes s) 0); [done|]. cbv zeta.
  set (s1 := if q then set_immediate_ack_pending s true else s).
  assert (pending s1 = pending s ∧ sent_packets s1 = sent_packets s) as [Ep Es] by (by destruct q).
  clearbody s1. rewrite Ep, Es. unfold space_can_send. cbn [other].
  destruct (Retransmits_is_empty can (pending s)) eqn:Hp; cbn [negb].
  2: { rewrite Ep, Es, Hp. done. }
  pose proof (take_retransmits_spec can (sent_packets s)) as Ht.
  destruct (take_retransmits can (sent_packets s)) as [[t m]|].
  - destruct Ht as (Ht & l & k & p & p' & r & E & -> & _). cbn [pending sent_packets set_pending set_sent_packets].
    rewrite (or_thin_not_empty can (pending s) t Ht), E, !fmap_app. done.
  - split; [|split; [by destruct (negb _); cbn [sent_packets set_ping_pending]; rewrite Es|]].
    + destruct (immediate_ack_pending s1) eqn:Hi; cbn [negb]; [by rewrite Hi, orb_true_r|].
      cbn [ping_pending set_ping_pending]. by rewrite orb_true_r.
    + split; [done|]. intros _ Hex. exfalso. apply Exists_exists in Hex as (x & Hx & Hne).
      rewrite Forall_forall in Ht. by rewrite Ht in Hne.
Qed.

(** Validation of the peer's ECN counts.  For counts that fit their
    encoding [detect_ecn] never panics; it accepts exactly the counts in which no counter went
    back, ECT(1) did not move, and ECT(0) and CE together grew by at least
    the number of newly acknowledged packets; then it records them and reports whether CE grew.
    Any other counts leave the space unchanged. *)
Theorem detect_ecn_correct {Keys H} `{Heap H} (s : PacketSpace Keys H) newly_acked e :
  let f := ecn_feedback s in
  0 <= ect0 f ∧ 0 <= ect1 f ∧ 0 <= ce f → ect0 e < 2 ^ 62 ∧ ect1 e < 2 ^ 62 ∧ ce e < 2 ^ 62 →
  ∃ r s', detect_ecn s newly_acked e = Ret (r, s') ∧
    match r with
    | Ok congested =>
        ect0 f <= ect0 e ∧ ect1 f = ect1 e ∧ ce f <= ce e ∧
        newly_acked <= (ect0 e - ect0 f) + (ce e - ce f) ∧
        s' = set_ecn_feedback s e ∧ (congested = true ↔ ce f < ce e)
    | Err _ =>
        ¬ (ect0 f <= ect0 e ∧ ect1 f = ect1 e ∧ ce f <= ce e ∧
           newly_acked <= (ect0 e - ect0 f) + (ce e - ce f)) ∧ s' = s
    end.
Proof.
  intros f Hf He. unfold detect_ecn, checked_sub. fold f.
  destruct (Z.leb_spec (ect0 f) (ect0 e)); [|do 2 eexists; split; [done|]; simpl; split; [lia|done]].
  destruct (Z.leb_spec (ect1 f) (ect1 e)); [|do 2 eexists; split; [done|]; simpl; split; [lia|done]].
  destruct (Z.leb_spec (ce f) (ce e)); [|do 2 eexists; split; [done|]; simpl; split; [lia|done]].
  rewrite !uadd_ok by (unfold u64_max; lia). cbn [mbind M_bind]. rewrite uadd_ok by (unfold u64_max; lia).
  cbn [mbind M_bind].
  destruct (Z.ltb_spec (ect0 e - ect0 f + (ect1 e - ect1 f) + (ce e - ce f)) newly_acked);
    [do 2 eexists; split; [done|]; simpl; split; [lia|done]|].
  destruct (Z.ltb_spec (ect0 e - ect0 f + (ce e - ce f)) newly_acked);
    [do 2 eexists; split; [done|]; simpl; split; [lia|done]|].
  destruct (Z.eqb_spec (ect1 e - ect1 f) 0); simpl; do 2 eexists; (split; [done|]); simpl; [|split; [lia|done]].
  repeat (split; [lia || done|]). rewrite negb_true_iff, Z.eqb_neq. lia.
Qed.

(** * Witnesses *)

Definition sample_packet (eliciting : bool) (r : ThinRetransmits) : SentPacket :=
  mkSentPacket 0 0 100 eliciting None r [].
Definition sample_space : PacketSpace unit (list Buffer) := PacketSpace_new 0.
(** Number [n] goes out with [p]. *)
Definition sample_sent (n : Z) (p : SentPacket) : PacketSpace unit (list Buffer) :=
  set_sent_packets (set_unacked_non_ack_eliciting_tail sample_space 1) [(n, p)].

Lemma sent_packets_tracked_witness :
  ∃ o s', sent (sample_sent 4 (sample_packet false None)) 9 (sample_packet true None) = Ret (o, s') ∧
    len (tail_of (sample_sent 4 (sample_packet false None))) <= 1001.
Proof.
  assert (Hr : space_reachable (5, sample_sent 4 (sample_packet false None))).
  { eapply sr_step; [apply (sr_new 0)|]. apply (ss_sent 0 sample_space 4 (sample_packet false None) None); done. }
  destruct (sent_packets_tracked _ 9 (sample_packet true None) 4 Hr ltac:(done)) as (Hl & (o & s' & Hs & _) & _).
  exists o, s'. split; [exact Hs|exact Hl].
Defined.

Definition sample_rng (lo hi : Z) : Z := if lo =? 0 then hi - 1 else lo.

Lemma sample_rng_ok : rng_ok sample_rng.
Proof. intros lo hi Hlt. unfold sample_rng. case_match; lia. Qed.

Lemma packet_number_filter_correct_witness :
  ∃ n f' s', peek (mkFilter 63 None 6) sample_space = Ret n ∧
    allocate (mkFilter 63 None 6) sample_rng sample_space = Ret (n, f', s') ∧
    check_ack f' SpData 0 0 = Ok tt.
Proof.
  assert (Hr : filter_reachable ([], mkFilter 63 None 6, sample_space)) by (apply (fr_new sample_rng); [apply sample_rng_ok|done]).
  destruct (packet_number_filter_correct [] _ sample_space sample_rng Hr sample_rng_ok ltac:(done))
    as (n & f' & s' & Hp & Ha & _ & Hc & _).
  exists n, f', s'. split; [exact Hp|]. split; [exact Ha|]. apply Hc. intros x Hx.
  injection Hp as <-. apply list_elem_of_singleton. change (next_packet_number sample_space) with 0. lia.
Defined.

Definition sample_retransmits : Retransmits := set_rt_max_data Retransmits_default true.
Definition sample_probing : PacketSpace unit (list Buffer) :=
  mkPacketSpace None Dedup.new 0 Retransmits_default PendingAcks_new 5 None 0 4 0
    [(4, sample_packet true (Some sample_retransmits))] [] EcnCounts_ZERO EcnCounts_ZERO Assembler.new 0 None None 1
    false false 5.

Lemma probe_sendable_witness :
  other (space_can_send (maybe_queue_probe sample_probing false (fun _ => false)) (fun _ => false)) = true ∧
  Retransmits_is_empty (fun _ => false) (pending (maybe_queue_probe sample_probing false (fun _ => false))) = false.
Proof.
  destruct (probe_sendable sample_probing false (fun _ => false)) as (Ho & _ & _ & Hm); [discriminate|].
  split; [exact Ho|]. apply Hm; [reflexivity|]. left. reflexivity.
Defined.

Lemma detect_ecn_correct_witness :
  ∃ r s', detect_ecn sample_space 3 (mkEcnCounts 2 0 1) = Ret (r, s') ∧ r = Ok true.
Proof.
  destruct (detect_ecn_correct sample_space 3 (mkEcnCounts 2 0 1)) as (r & s' & Hr & _);
    [done|done|]. exists r, s'. split; [exact Hr|]. vm_compute in Hr. injection Hr as <- _. reflexivity.
Defined.

(** * Divergences *)

(** The next number to skip can be the very number that replaces the skipped one: number
    63 is skipped, 64 is drawn as the next number to skip, and 64 is returned.  From then on no number is ever
    skipped. *)
Theorem skipping_can_stop {Keys H} `{Heap H} (s : PacketSpace Keys H) :
  next_packet_number s = 63 → 0 <= sent_with_keys s <= 63 →
  PacketNumberFilter_new sample_rng = Ret (mkFilter 63 None 6) ∧
  ∃ s', allocate (mkFilter 63 None 6) sample_rng s = Ret (64, mkFilter 64 (Some 63) 7, s') ∧
    ∀ (s1 : PacketSpace Keys H) rng n f s2, next_packet_number s' <= next_packet_number s1 →
      allocate (mkFilter 64 (Some 63) 7) rng s1 = Ret (n, f, s2) → f = mkFilter 64 (Some 63) 7.
Proof.
  intros Hn Hk. split; [done|]. unfold allocate at 1.
  destruct (get_tx_number_ok s) as (s1 & -> & Hn1 & Hk1); [lia..|]. cbn [mbind M_bind]. rewrite Hn.
  destruct (get_tx_number_ok s1) as (s2 & Hg & Hn2 & Hk2); [lia..|].
  exists s2. split; [cbn; rewrite Hg, Hn1, Hn; done|]. intros s3 rng n f s4 Hle Ha.
  unfold allocate in Ha. apply M_bind_ret in Ha as ((n' & s5) & Hg' & Ha).
  unfold get_tx_number in Hg'. apply M_bind_ret in Hg' as (? & _ & Hg'). apply M_bind_ret in Hg' as (? & _ & Hg').
  apply M_bind_ret in Hg' as (? & _ & Hg'). injection Hg' as <- _. simpl in Ha.
  destruct (Z.eqb_spec (next_packet_number s3) 64); [lia|]. simpl in Ha. by injection Ha as _ <- _.
Qed.

(** Send [k] packets that are not ack-eliciting, from number [n] on. *)
Fixpoint send_acks (k : nat) (n : Z) (s : PacketSpace unit (list Buffer)) : M (PacketSpace unit (list Buffer)) :=
  match k with
  | O => mret s
  | S k => r ← sent s n (sample_packet false None); send_acks k (n + 1) r.2
  end.

(** The limit on the tail is exceeded by one: after 1001 packets that
    are not ack-eliciting none has been forgotten. *)
Theorem tail_limit_exceeded :
  ∃ s, send_acks 1001 1 sample_space = Ret s ∧ len (tail_of s) = MAX_UNACKED_NON_ACK_ELICTING_TAIL + 1.
Proof. eexists. split; [vm_compute; reflexivity|vm_compute; reflexivity]. Qed.
