(* ===== verification/PacketCrypto.v ===== *)
(** Packet protection and key updates: [quic-proto/src/connection/packet_crypto.rs], and the
    part of [Connection] that changes the 1-RTT keys ([decrypt_packet], [update_keys],
    [force_key_update], [set_key_discard_timer], [upgrade_crypto] and the [KeyDiscard] timer of
    [quic-proto/src/connection/mod.rs]).

    The keys and the TLS session that derives them belong to the TLS library: the keys are
    the records of [Packet], the session is a type with the function [next_1rtt_keys].  The
    time [pto] of a space is an argument of the operations that arm the discard timer. *)
From stdpp Require Import gmap.
From S2P Require Import Prelude Coding RangeSet Ids Shared Frame Packet Assembler Retransmits Dedup PendingAcks Spaces.
Open Scope Z_scope.

(** * Removing protection *)

Record ZeroRttCrypto : Type := mkZeroRttCrypto { z_header : HeaderKey; z_packet : PacketKey }.

Record PrevCrypto : Type := mkPrevCrypto {
  prev_keys : KeyPair PacketKey; end_packet : option (Z * Z); update_unacked : bool }.

Record UnprotectHeaderResult : Type := mkUnprotectHeaderResult {
  ur_packet : option Packet; stateless_reset : bool }.

Record DecryptPacketResult : Type := mkDecryptPacketResult {
  dr_number : Z; outgoing_key_update_acked : bool; incoming_key_update : bool }.

Definition KEY_UPDATE_MARGIN : Z := 10000.

Section PacketCrypto.
Context {H : Type} `{Heap H}.

(** The key that removes header protection; [None] drops the packet, [Some None] is no protection. *)
Definition header_key_for (p : PartialDecode) (spaces : SpaceId → PacketSpace Keys H)
    (zero_rtt_crypto : option ZeroRttCrypto) : option (option HeaderKey) :=
  if Partial_is_0rtt p then
    match zero_rtt_crypto with Some crypto => Some (Some (z_header crypto)) | None => None end
  else
    match Partial_space p with
    | Some space =>
        match crypto (spaces space) with
        | Some crypto => Some (Some (remote (k_header crypto)))
        | None => None
        end
    | None => Some None
    end.

Definition unprotect_header (partial_decode : PartialDecode) (spaces : SpaceId → PacketSpace Keys H)
    (zero_rtt_crypto : option ZeroRttCrypto) (stateless_reset_token : option ResetToken)
    : M (option UnprotectHeaderResult) :=
  match header_key_for partial_decode spaces zero_rtt_crypto with
  | None => mret None
  | Some header_crypto =>
      let packet := pd_buf partial_decode in
      let stateless_reset :=
        (RESET_TOKEN_SIZE + 5 <=? len packet) &&
        bool_decide (token_bytes <$> stateless_reset_token = Some (dropZ (len packet - RESET_TOKEN_SIZE) packet)) in
      r ← PartialDecode_finish partial_decode header_crypto;
      mret (match r with
            | Ok packet => Some (mkUnprotectHeaderResult (Some packet) stateless_reset)
            | Err _ => if (stateless_reset : bool) then Some (mkUnprotectHeaderResult None true) else None
            end)
  end.

(** [Option::unwrap]. *)
Definition unwrap {A} (o : option A) : M A := match o with Some a => mret a | None => Panic end.

(** The key that opens a packet, and whether it belongs to the next key phase. *)
Definition packet_key_for (h : Header) (number : Z) (spaces : SpaceId → PacketSpace Keys H)
    (zero_rtt_crypto : option ZeroRttCrypto) (conn_key_phase : bool) (prev_crypto : option PrevCrypto)
    (next_crypto : option (KeyPair PacketKey)) : M (PacketKey * bool) :=
  let space := Header_space h in
  if Header_is_0rtt h then z ← unwrap zero_rtt_crypto; mret (z_packet z, false)
  else if Bool.eqb (Header_key_phase h) conn_key_phase || negb (bool_decide (space = SpData)) then
    k ← unwrap (crypto (spaces space)); mret (remote (k_packet k), false)
  else
    match match prev_crypto with
          | Some prev =>
              if match end_packet prev with None => true | Some (pn, _) => number <? pn end then Some prev else None
          | None => None
          end with
    | Some prev => mret (remote (prev_keys prev), false)
    | None => k ← unwrap next_crypto; mret (remote k, true)
    end.

(** Besides the result, the packet, whose payload is decrypted in place. *)
Definition decrypt_packet_body (packet : Packet) (spaces : SpaceId → PacketSpace Keys H)
    (zero_rtt_crypto : option ZeroRttCrypto) (conn_key_phase : bool) (prev_crypto : option PrevCrypto)
    (next_crypto : option (KeyPair PacketKey))
    : M (result (option TransportError) (option DecryptPacketResult) * Packet) :=
  if negb (is_protected (pk_header packet)) then mret (Ok None, packet)
  else
    match Header_number (pk_header packet) with
    | None => mret (Err None, packet)
    | Some pn =>
        let rx_packet := rx_packet (spaces (Header_space (pk_header packet))) in
        expected ← uadd rx_packet 1;
        number ← expand pn expected;
        let packet_key_phase := Header_key_phase (pk_header packet) in
        '(key, crypto_update) ←
          packet_key_for (pk_header packet) number spaces zero_rtt_crypto conn_key_phase prev_crypto next_crypto;
        match pk_decrypt key number (pk_header_data packet) (pk_payload packet) with
        | None => mret (Err None, packet)
        | Some plain =>
            let packet := mkPacket (pk_header packet) (pk_header_data packet) plain in
            valid ← reserved_bits_valid packet;
            if negb valid then mret (Err (Some (mkTransportError PROTOCOL_VIOLATION)), packet)
            else
              let acked :=
                match prev_crypto with
                | Some prev => bool_decide (end_packet prev = None) && Bool.eqb packet_key_phase conn_key_phase
                | None => false
                end in
              if (crypto_update : bool) &&
                 ((number <=? rx_packet) || match prev_crypto with Some x => update_unacked x | None => false end)
              then mret (Err (Some (mkTransportError KEY_UPDATE_ERROR)), packet)
              else mret (Ok (Some (mkDecryptPacketResult number acked crypto_update)), packet)
        end
    end.

(** * Key updates *)

Context {Session : Type} (next_1rtt_keys : Session → option (KeyPair PacketKey) * Session).

(** The fields of [Connection] that hold keys; [key_discard] is the [KeyDiscard] entry of its timers. *)
Record KeyState : Type := mkKeyState {
  session : Session;
  spaces : SpaceId → PacketSpace Keys H;
  zero_rtt_crypto : option ZeroRttCrypto;
  key_phase : bool;
  key_phase_size : Z;
  prev_crypto : option PrevCrypto;
  next_crypto : option (KeyPair PacketKey);
  key_discard : option Z;
  highest_space : SpaceId
}.

Definition set_space (f : SpaceId → PacketSpace Keys H) (id : SpaceId) (s : PacketSpace Keys H) : SpaceId → PacketSpace Keys H :=
  fun id' => if bool_decide (id' = id) then s else f id'.
Definition set_prev_crypto (s : KeyState) (v : option PrevCrypto) : KeyState :=
  mkKeyState (session s) (spaces s) (zero_rtt_crypto s) (key_phase s) (key_phase_size s) v (next_crypto s) (key_discard s)
    (highest_space s).
Definition set_key_discard (s : KeyState) (v : option Z) : KeyState :=
  mkKeyState (session s) (spaces s) (zero_rtt_crypto s) (key_phase s) (key_phase_size s) (prev_crypto s) (next_crypto s) v
    (highest_space s).

(** The keys the session derives next become [next_crypto], which becomes current. *)
Definition update_keys (s : KeyState) (end_packet : option (Z * Z)) (remote : bool) : M KeyState :=
  let '(new, session) := next_1rtt_keys (session s) in
  new ← unwrap new;
  let key_phase_size := sat_sub (confidentiality_limit (local new)) KEY_UPDATE_MARGIN in
  keys ← unwrap (crypto (spaces s SpData));
  next ← unwrap (next_crypto s);
  let old := k_packet keys in
  let data := set_sent_with_keys (set_crypto (spaces s SpData) (Some (mkKeys (k_header keys) next))) 0 in
  mret (mkKeyState session (set_space (spaces s) SpData data) (zero_rtt_crypto s) (negb (key_phase s)) key_phase_size
          (Some (mkPrevCrypto old end_packet remote)) (Some new) (key_discard s) (highest_space s)).

(** [established] is [self.state.is_established()]. *)
Definition force_key_update (s : KeyState) (established : bool) : M KeyState :=
  if negb established then mret s
  else match prev_crypto s with Some _ => mret s | None => update_keys s None false end.

Definition set_key_discard_timer (s : KeyState) (now pto : Z) : M KeyState :=
  start ← match zero_rtt_crypto s with
          | Some _ => mret now
          | None =>
              prev ← unwrap (prev_crypto s);
              e ← unwrap (end_packet prev);
              mret e.2
          end;
  mret (set_key_discard s (Some (start + pto * 3))).

Definition decrypt_packet (s : KeyState) (now : Z) (pto : SpaceId → Z) (packet : Packet)
    : M (result (option TransportError) (option Z) * Packet * KeyState) :=
  '(r, packet) ← decrypt_packet_body packet (spaces s) (zero_rtt_crypto s) (key_phase s) (prev_crypto s) (next_crypto s);
  match r with
  | Err e => mret (Err e, packet, s)
  | Ok None => mret (Ok None, packet, s)
  | Ok (Some result) =>
      let space := Header_space (pk_header packet) in
      s ← (if outgoing_key_update_acked result then
             match prev_crypto s with
             | Some prev =>
                 set_key_discard_timer
                   (set_prev_crypto s (Some (mkPrevCrypto (prev_keys prev) (Some (dr_number result, now)) (update_unacked prev))))
                   now (pto space)
             | None => mret s
             end
           else mret s);
      s ← (if incoming_key_update result then
             s ← update_keys s (Some (dr_number result, now)) true;
             set_key_discard_timer s now (pto space)
           else mret s);
      mret (Ok (Some (dr_number result)), packet, s)
  end.

(** The [KeyDiscard] case of [handle_timeout]. *)
Definition key_discard_timeout (s : KeyState) (now : Z) : KeyState :=
  match key_discard s with
  | Some t =>
      if t <=? now
      then mkKeyState (session s) (spaces s) None (key_phase s) (key_phase_size s) None (next_crypto s) None (highest_space s)
      else s
  | None => s
  end.

(** [space as usize]. *)
Definition space_index (space : SpaceId) : Z := match space with SpInitial => 0 | SpHandshake => 1 | SpData => 2 end.

(** The keys of a new space; for the last one, the first update is computed in advance. *)
Definition upgrade_crypto (s : KeyState) (space : SpaceId) (keys : Keys) (is_client : bool) : M KeyState :=
  _ ← rassert (match crypto (spaces s space) with None => true | Some _ => false end);
  '(next, session) ←
    (if bool_decide (space = SpData) then
       let '(new, session) := next_1rtt_keys (session s) in new ← unwrap new; mret (Some new, session)
     else mret (next_crypto s, session s));
  _ ← rassert (space_index (highest_space s) <? space_index space);
  mret (mkKeyState session (set_space (spaces s) space (set_crypto (spaces s space) (Some keys)))
          (if bool_decide (space = SpData) && is_client then None else zero_rtt_crypto s)
          (key_phase s) (key_phase_size s) (prev_crypto s) next (key_discard s) space).

(** [poll_transmit], once it has decided to send a packet. *)
Definition clear_update_unacked (s : KeyState) : KeyState :=
  match prev_crypto s with
  | Some prev => set_prev_crypto s (Some (mkPrevCrypto (prev_keys prev) (end_packet prev) false))
  | None => s
  end.

(** The largest packet number of [on_packet_authenticated]. *)
Definition note_rx_packet (s : KeyState) (space_id : SpaceId) (packet : Z) : KeyState :=
  let space := spaces s space_id in
  if rx_packet space <=? packet then
    mkKeyState (session s) (set_space (spaces s) space_id (set_rx_packet space packet)) (zero_rtt_crypto s) (key_phase s)
      (key_phase_size s) (prev_crypto s) (next_crypto s) (key_discard s) (highest_space s)
  else s.

End PacketCrypto.
