(* ===== verification/KeyUpdate.v ===== *)
(** Two endpoints that update their 1-RTT keys: the operations of [PacketCrypto] run on both sides of
    an unreliable network that drops, delays, reorders and repeats packets.

    The keys of generation [g] are [mine g] for the packets an endpoint sends and [peers g] for
    those it receives; its session derives the generations in turn.  Ideal packet protection: a packet opens with the key
    of its generation only. *)
From stdpp Require Import gmap.
From S2P Require Import Prelude Coding RangeSet Ids Shared Frame Packet Assembler Retransmits Dedup PendingAcks Spaces PacketCrypto.
Open Scope Z_scope.

(** * The system *)

(** A packet sent in generation [s_gen] under the number [s_num]. *)
Record Sent : Type := mkSent { s_num : Z; s_gen : Z; s_packet : Packet; s_plain : list Z }.

Record sealed_ok (k : Z → PacketKey) (x : Sent) : Prop := {
  so_header : ∃ spin dst pn, pk_header (s_packet x) = HShort spin (Z.odd (s_gen x)) dst pn;
  so_decrypt : ∀ g, pk_decrypt (k g) (s_num x) (pk_header_data (s_packet x)) (pk_payload (s_packet x)) =
                    if g =? s_gen x then Some (s_plain x) else None;
  so_reserved : reserved_bits_valid (s_packet x) = Ret true
}.

Section KeyUpdate.
Context {H : Type} `{Heap H}.

(** The next generation the session derives is its only state. *)
Local Notation KeyState := (@KeyState H Z).

Record Endpoint : Type := mkEndpoint { ks : KeyState; next_num : Z; sent : list Sent; recvd : list Sent }.

Definition gen (e : Endpoint) : Z := session (ks e) - 2.
Definition rx (e : Endpoint) : Z := rx_packet (spaces (ks e) SpData).

Definition key_pair (mine peers : Z → PacketKey) (g : Z) : KeyPair PacketKey := mkKeyPair (mine g) (peers g).
Definition next_keys (mine peers : Z → PacketKey) (g : Z) : option (KeyPair PacketKey) * Z :=
  (Some (key_pair mine peers g), g + 1).

(** The receiver recovers the number of the packet from its wire form. *)
Definition arrives (e : Endpoint) (x : Sent) : Prop :=
  ∀ pn, Header_number (pk_header (s_packet x)) = Some pn → expand pn (rx e + 1) = Ret (s_num x).

(** What an endpoint does, [p] being its peer. An update is forced only when the peer has received a packet of the
    current generation (RFC 9001, section 6.1), and not with the first packet of the connection. *)
Inductive act (mine peers : Z → PacketKey) (e p : Endpoint) : Endpoint → Prop :=
| act_send x :
    next_num e <= s_num x < 2 ^ 62 → s_gen x = gen e → sealed_ok mine x → (s_num x = 0 → s_gen x = 0) →
    act mine peers e p (mkEndpoint (clear_update_unacked (ks e)) (s_num x + 1) (x :: sent e) (recvd e))
| act_recv x now pto n pk ks' :
    x ∈ sent p → arrives e x →
    decrypt_packet (next_keys mine peers) (ks e) now pto (s_packet x) = Ret (Ok (Some n), pk, ks') →
    act mine peers e p (mkEndpoint (note_rx_packet ks' SpData n) (next_num e) (sent e) (x :: recvd e))
| act_force ks' :
    (0 < gen e → ∃ x, x ∈ recvd p ∧ s_gen x = gen e) →
    force_key_update (next_keys mine peers) (ks e) true = Ret ks' →
    act mine peers e p (mkEndpoint ks' (next_num e) (sent e) (recvd e))
| act_discard now :
    act mine peers e p (mkEndpoint (key_discard_timeout (ks e) now) (next_num e) (sent e) (recvd e)).

Inductive system_step (ka kb : Z → PacketKey) : Endpoint * Endpoint → Endpoint * Endpoint → Prop :=
| step_a a b a' : act ka kb a b a' → system_step ka kb (a, b) (a', b)
| step_b a b b' : act kb ka b a b' → system_step ka kb (a, b) (a, b').

(** After the handshake: the keys of generation 0, those of generation 1 in reserve, nothing sent. *)
Definition initial_keys_ok (mine peers : Z → PacketKey) (e : Endpoint) : Prop :=
  zero_rtt_crypto (ks e) = None ∧ prev_crypto (ks e) = None ∧ key_discard (ks e) = None ∧ key_phase (ks e) = false ∧
  session (ks e) = 2 ∧ next_crypto (ks e) = Some (key_pair mine peers 1) ∧
  (∃ hk, crypto (spaces (ks e) SpData) = Some (mkKeys hk (key_pair mine peers 0))) ∧
  rx e = 0 ∧ 0 <= next_num e ∧ sent e = [] ∧ recvd e = [].

Inductive system_reachable (ka kb : Z → PacketKey) : Endpoint * Endpoint → Prop :=
| system_init a b : initial_keys_ok ka kb a → initial_keys_ok kb ka b → system_reachable ka kb (a, b)
| system_next s s' : system_reachable ka kb s → system_step ka kb s s' → system_reachable ka kb s'.

(** * The invariant *)

(** A forced update the peer has not answered yet. *)
Definition update_pending (e : Endpoint) : Prop := ∃ pv, prev_crypto (ks e) = Some pv ∧ end_packet pv = None.

Record one_ok (mine peers : Z → PacketKey) (e : Endpoint) : Prop := {
  o_zero : zero_rtt_crypto (ks e) = None;
  o_keys : ∃ hk, crypto (spaces (ks e) SpData) = Some (mkKeys hk (key_pair mine peers (gen e)));
  o_next : next_crypto (ks e) = Some (key_pair mine peers (gen e + 1));
  o_phase : key_phase (ks e) = Z.odd (gen e);
  o_gen : 0 <= gen e;
  o_prev : ∀ pv, prev_crypto (ks e) = Some pv → prev_keys pv = key_pair mine peers (gen e - 1) ∧ 0 < gen e;
  o_timer : key_discard (ks e) ≠ None → prev_crypto (ks e) ≠ None ∧ ¬ update_pending e;
  o_sent : ∀ x, x ∈ sent e → sealed_ok mine x ∧ 0 <= s_gen x <= gen e ∧ 0 <= s_num x < next_num e ∧ s_num x < 2 ^ 62 ∧
                              (s_num x = 0 → s_gen x = 0);
  o_mono : ∀ x y, x ∈ sent e → y ∈ sent e → s_num x <= s_num y → s_gen x <= s_gen y;
  o_num : 0 <= next_num e
}.

Record pair_ok (e p : Endpoint) : Prop := {
  p_gap : gen e <= gen p + 1;
  p_rx : rx e = 0 ∨ ∃ x, x ∈ sent p ∧ s_num x = rx e ∧ s_gen x <= gen e;
  p_end : ∀ pv n t, prev_crypto (ks e) = Some pv → end_packet pv = Some (n, t) →
            ∃ x, x ∈ sent p ∧ s_num x = n ∧ s_gen x = gen e;
  p_acked : ¬ update_pending e → 0 < gen e → ∃ x, x ∈ sent p ∧ s_gen x = gen e;
  p_recvd : ∀ x, x ∈ recvd e → x ∈ sent p ∧ s_gen x <= gen e ∧ (s_gen x = gen e → ¬ update_pending e);
  p_local : update_pending e → gen p <= gen e;
  p_unacked : ∀ pv, prev_crypto (ks e) = Some pv → update_unacked pv = true →
                (∀ x, x ∈ sent e → s_gen x < gen e) ∧ gen p = gen e ∧ end_packet pv ≠ None
}.

(** * Opening a packet *)

Definition acked_by (e : Endpoint) (x : Sent) : bool :=
  match prev_crypto (ks e) with
  | Some prev => bool_decide (end_packet prev = None) && Bool.eqb (Z.odd (s_gen x)) (key_phase (ks e))
  | None => false
  end.

Definition opened (x : Sent) : Packet := mkPacket (pk_header (s_packet x)) (pk_header_data (s_packet x)) (s_plain x).

Definition unacked (e : Endpoint) : bool :=
  match prev_crypto (ks e) with Some pv => update_unacked pv | None => false end.

Definition selected (e : Endpoint) (x : Sent) (key : PacketKey) (upd : bool) : Prop :=
  packet_key_for (pk_header (s_packet x)) (s_num x) (spaces (ks e)) (zero_rtt_crypto (ks e)) (key_phase (ks e))
    (prev_crypto (ks e)) (next_crypto (ks e)) = Ret (key, upd).

Lemma body_opens k e x g upd :
  sealed_ok k x → arrives e x → 0 <= rx e < 2 ^ 62 → selected e x (k g) upd →
  decrypt_packet_body (s_packet x) (spaces (ks e)) (zero_rtt_crypto (ks e)) (key_phase (ks e)) (prev_crypto (ks e))
    (next_crypto (ks e)) =
  Ret (if g =? s_gen x then
         (if upd && ((s_num x <=? rx e) || unacked e) then Err (Some (mkTransportError KEY_UPDATE_ERROR))
          else Ok (Some (mkDecryptPacketResult (s_num x) (acked_by e x) upd)), opened x)
       else (Err None, s_packet x)).
Proof.
  intros [(spin & dst & pn & Hh) Hdec Hres] Harr Hrx Hsel. unfold decrypt_packet_body. unfold selected in Hsel.
  unfold arrives, reserved_bits_valid in *. rewrite Hh in *. cbn [is_protected negb Header_number Header_space Header_key_phase] in *.
  rewrite uadd_ok by (unfold rx in *; unfold u64_max; lia). cbn [mbind M_bind]. fold (rx e). rewrite (Harr pn eq_refl).
  cbn [mbind M_bind]. rewrite Hsel. cbn [mbind M_bind]. rewrite Hdec.
  destruct (g =? s_gen x); [|done]. cbn [pk_header_data pk_header].
  destruct (pk_header_data (s_packet x)) as [|b hd] eqn:Hhd; [done|]. injection Hres as Hres. cbn [mbind M_bind mret M_ret].
  rewrite Hres. cbn [negb]. unfold opened, unacked, acked_by. rewrite Hh, Hhd.
  destruct (prev_crypto (ks e)); by destruct (upd && _).
Qed.

(** A failure leaves the state as it was. *)
Lemma decrypt_dropped mine peers e x now pto :
  decrypt_packet_body (s_packet x) (spaces (ks e)) (zero_rtt_crypto (ks e)) (key_phase (ks e)) (prev_crypto (ks e))
    (next_crypto (ks e)) = Ret (Err None, s_packet x) →
  decrypt_packet (next_keys mine peers) (ks e) now pto (s_packet x) = Ret (Err None, s_packet x, ks e).
Proof. intros Hb. unfold decrypt_packet. by rewrite Hb. Qed.

(** * Which key opens a packet *)

Section Select.
Context (mine peers : Z → PacketKey) (e p : Endpoint).
Hypotheses (He : one_ok mine peers e) (Hp : one_ok peers mine p) (Hep : pair_ok e p) (Hpe : pair_ok p e).

Lemma rx_range : 0 <= rx e < 2 ^ 62.
Proof.
  destruct (p_rx _ _ Hep) as [->|(x & Hx & <- & _)]; [lia|]. destruct (o_sent _ _ _ Hp x Hx) as (_ & _ & ? & ? & _). lia.
Qed.

(** A packet of a later generation is newer than everything received. *)
Lemma newer_than_rx x : x ∈ sent p → gen e < s_gen x → rx e < s_num x.
Proof.
  intros Hx Hg. destruct (o_sent _ _ _ Hp x Hx) as (_ & ? & ? & _ & Hz). pose proof (o_gen _ _ _ He).
  destruct (p_rx _ _ Hep) as [->|(y & Hy & <- & Hyg)]; [destruct (Z.eq_dec (s_num x) 0); [apply Hz in e0|]; lia|].
  destruct (Z.lt_ge_cases (s_num y) (s_num x)); [done|]. pose proof (o_mono _ _ _ Hp x y Hx Hy). lia.
Qed.

Lemma selected_short x key upd :
  sealed_ok peers x →
  selected e x key upd ↔
  (if Bool.eqb (Z.odd (s_gen x)) (Z.odd (gen e)) then key = peers (gen e) ∧ upd = false
   else match prev_crypto (ks e) with
        | Some prev =>
            if match end_packet prev with None => true | Some (pn, _) => s_num x <? pn end
            then key = peers (gen e - 1) ∧ upd = false else key = peers (gen e + 1) ∧ upd = true
        | None => key = peers (gen e + 1) ∧ upd = true
        end).
Proof.
  intros [(spin & dst & pn & Hh) _ _]. unfold selected, packet_key_for. rewrite Hh.
  cbn [Header_is_0rtt Header_key_phase Header_space]. rewrite bool_decide_true, orb_false_r by done.
  rewrite (o_phase _ _ _ He). destruct (o_keys _ _ _ He) as [hk Hk]. rewrite Hk, (o_next _ _ _ He).
  assert (Hr : ∀ k u, (Ret (k, u) = Ret (key, upd) :> M _) ↔ (key = k ∧ upd = u)) by (intros; split; [by intros [= -> ->]|by intros [-> ->]]).
  destruct (Bool.eqb _ _); [apply Hr|]. destruct (prev_crypto (ks e)) as [pv|] eqn:Hpv; [|apply Hr].
  destruct (match end_packet pv with None => _ | Some _ => _ end); [|apply Hr].
  destruct (o_prev _ _ _ He pv Hpv) as [-> _]. apply Hr.
Qed.

(** The packets that open: those of the current generation, of the next one, and of the previous one as long as its
    keys are kept. *)
Definition accepts (x : Sent) : bool :=
  (s_gen x =? gen e) || (s_gen x =? gen e + 1) ||
  (s_gen x =? gen e - 1) && match prev_crypto (ks e) with Some _ => true | None => false end.

Lemma odd_next g : Z.odd (g + 1) = negb (Z.odd g).
Proof. rewrite Z.odd_add. by destruct (Z.odd g). Qed.

Lemma odd_prev g : Z.odd (g - 1) = negb (Z.odd g).
Proof. rewrite Z.odd_sub. by destruct (Z.odd g). Qed.

Lemma eqb_negb_l b : Bool.eqb (negb b) b = false.
Proof. by destruct b. Qed.

Lemma accepted_selected x :
  x ∈ sent p → accepts x = true → selected e x (peers (s_gen x)) (s_gen x =? gen e + 1).
Proof.
  intros Hx Hacc. destruct (o_sent _ _ _ Hp x Hx) as (Hs & _). apply selected_short; [done|].
  unfold accepts in Hacc. destruct (Z.eqb_spec (s_gen x) (gen e)) as [->|Hne]; cbn [orb] in Hacc.
  { rewrite Bool.eqb_reflx. split; [done|]. apply Z.eqb_neq. lia. }
  destruct (Z.eqb_spec (s_gen x) (gen e + 1)) as [Hg|Hne1]; cbn [orb] in Hacc.
  - rewrite Hg, odd_next, eqb_negb_l. destruct (prev_crypto (ks e)) as [pv|] eqn:Hpv; [|done].
    destruct (o_sent _ _ _ Hp x Hx) as (_ & ? & _). destruct (end_packet pv) as [[n t]|] eqn:Hend.
    + destruct (p_end _ _ Hep pv n t Hpv Hend) as (y & Hy & <- & Hyg).
      destruct (Z.ltb_spec (s_num x) (s_num y)); [|done]. pose proof (o_mono _ _ _ Hp x y Hx Hy). lia.
    + pose proof (p_local _ _ Hep ltac:(by exists pv)). lia.
  - apply andb_true_iff in Hacc as [Hg%Z.eqb_eq Hpv]. rewrite Hg, odd_prev, eqb_negb_l.
    destruct (prev_crypto (ks e)) as [pv|] eqn:Hprev; [|done].
    destruct (end_packet pv) as [[n t]|] eqn:Hend; [|done].
    destruct (p_end _ _ Hep pv n t Hprev Hend) as (y & Hy & <- & Hyg).
    destruct (Z.ltb_spec (s_num x) (s_num y)); [done|]. pose proof (o_mono _ _ _ Hp y x Hy Hx). lia.
Qed.

Lemma rejected_selected x :
  x ∈ sent p → accepts x = false → ∃ g upd, selected e x (peers g) upd ∧ g ≠ s_gen x.
Proof.
  intros Hx Hacc. destruct (o_sent _ _ _ Hp x Hx) as (Hs & _).
  apply orb_false_iff in Hacc as [Hacc Hprev]. apply orb_false_iff in Hacc as [Hg%Z.eqb_neq Hg1%Z.eqb_neq].
  destruct (Bool.eqb (Z.odd (s_gen x)) (Z.odd (gen e))) eqn:Hodd.
  { exists (gen e), false. split; [|lia]. apply selected_short; [done|]. by rewrite Hodd. }
  destruct (prev_crypto (ks e)) as [pv|] eqn:Hpv.
  - rewrite andb_true_r in Hprev. apply Z.eqb_neq in Hprev.
    exists (if match end_packet pv with None => true | Some (pn, _) => s_num x <? pn end then gen e - 1 else gen e + 1).
    exists (negb (match end_packet pv with None => true | Some (pn, _) => s_num x <? pn end)).
    split; [|destruct (match end_packet pv with None => _ | Some _ => _ end); lia].
    apply selected_short; [done|]. rewrite Hodd, Hpv. by destruct (match end_packet pv with None => _ | Some _ => _ end).
  - exists (gen e + 1), true. split; [|lia]. apply selected_short; [done|]. by rewrite Hodd, Hpv.
Qed.

(** * Receiving *)

(** The keys after an update. *)
Definition updated (end_packet : option (Z * Z)) (remote : bool) : KeyState :=
  let s := ks e in
  let data := spaces s SpData in
  mkKeyState (session s + 1)
    (set_space (spaces s) SpData
       (set_sent_with_keys
          (set_crypto data ((fun k => mkKeys (k_header k) (key_pair mine peers (gen e + 1))) <$> crypto data)) 0))
    (zero_rtt_crypto s) (negb (key_phase s)) (sat_sub (confidentiality_limit (mine (gen e + 2))) KEY_UPDATE_MARGIN)
    (Some (mkPrevCrypto (key_pair mine peers (gen e)) end_packet remote)) (Some (key_pair mine peers (gen e + 2)))
    (key_discard s) (highest_space s).

Lemma update_keys_ok end_packet remote :
  update_keys (next_keys mine peers) (ks e) end_packet remote = Ret (updated end_packet remote).
Proof.
  unfold update_keys, next_keys, updated. destruct (o_keys _ _ _ He) as [hk ->]. rewrite (o_next _ _ _ He).
  unfold gen. replace (session (ks e) - 2 + 2) with (session (ks e)) by lia. done.
Qed.

(** The state after a packet that opens. *)
Definition received (x : Sent) (t pto : Z) : KeyState :=
  if s_gen x =? gen e + 1 then set_key_discard (updated (Some (s_num x, t)) true) (Some (t + pto * 3))
  else if acked_by e x then
    match prev_crypto (ks e) with
    | Some prev =>
        set_key_discard (set_prev_crypto (ks e) (Some (mkPrevCrypto (prev_keys prev) (Some (s_num x, t)) (update_unacked prev))))
          (Some (t + pto * 3))
    | None => ks e
    end
  else ks e.

Lemma decrypt_accepted x now pto :
  x ∈ sent p → accepts x = true → arrives e x →
  decrypt_packet (next_keys mine peers) (ks e) now pto (s_packet x) =
    Ret (Ok (Some (s_num x)), opened x, received x now (pto SpData)).
Proof.
  intros Hx Hacc Harr. destruct (o_sent _ _ _ Hp x Hx) as (Hs & Hg & _).
  pose proof (body_opens peers e x (s_gen x) _ Hs Harr rx_range (accepted_selected x Hx Hacc)) as Hb.
  rewrite Z.eqb_refl in Hb. unfold decrypt_packet. rewrite Hb. cbn [mbind M_bind].
  destruct Hs as [(spin & dst & pn & Hh) _ _].
  assert (Hsp : Header_space (pk_header (opened x)) = SpData) by (unfold opened; cbn [pk_header]; by rewrite Hh).
  unfold received. destruct (Z.eqb_spec (s_gen x) (gen e + 1)) as [Hgen|Hgen].
  - assert (Hn : (s_num x <=? rx e) = false) by (apply Z.leb_gt, newer_than_rx; [done|lia]).
    assert (Hu : unacked e = false).
    { unfold unacked. destruct (prev_crypto (ks e)) as [pv|] eqn:Hpv; [|done].
      destruct (update_unacked pv) eqn:Hu; [|done]. destruct (p_unacked _ _ Hep pv Hpv Hu) as (_ & ? & _). lia. }
    assert (Ha : acked_by e x = false).
    { unfold acked_by. destruct (prev_crypto (ks e)); [|done].
      by rewrite (o_phase _ _ _ He), Hgen, odd_next, eqb_negb_l, andb_false_r. }
    rewrite Hn, Hu. cbn [orb andb outgoing_key_update_acked incoming_key_update dr_number mbind M_bind]. rewrite Ha.
    cbn [mbind M_bind mret M_ret]. rewrite update_keys_ok. cbn [mbind M_bind]. unfold set_key_discard_timer.
    change (zero_rtt_crypto (updated (Some (s_num x, now)) true)) with (zero_rtt_crypto (ks e)).
    rewrite (o_zero _ _ _ He). rewrite Hsp. done.
  - cbn [andb outgoing_key_update_acked incoming_key_update dr_number]. destruct (acked_by e x) eqn:Ha; [|done].
    destruct (prev_crypto (ks e)) as [pv|] eqn:Hpv; [|done]. unfold set_key_discard_timer.
    change (zero_rtt_crypto (set_prev_crypto (ks e) _)) with (zero_rtt_crypto (ks e)).
    rewrite (o_zero _ _ _ He), Hsp. done.
Qed.

Lemma decrypt_rejected x now pto :
  x ∈ sent p → accepts x = false → arrives e x →
  decrypt_packet (next_keys mine peers) (ks e) now pto (s_packet x) = Ret (Err None, s_packet x, ks e).
Proof.
  intros Hx Hacc Harr. destruct (o_sent _ _ _ Hp x Hx) as (Hs & _).
  destruct (rejected_selected x Hx Hacc) as (g & upd & Hsel & Hne). apply decrypt_dropped.
  rewrite (body_opens peers e x g upd Hs Harr rx_range Hsel). by rewrite (proj2 (Z.eqb_neq _ _) Hne).
Qed.

End Select.

(** * Preservation *)

(** Two states with the same keys. *)
Definition same_keys (s s' : KeyState) : Prop :=
  session s' = session s ∧ zero_rtt_crypto s' = zero_rtt_crypto s ∧
  crypto (spaces s' SpData) = crypto (spaces s SpData) ∧ next_crypto s' = next_crypto s ∧
  key_phase s' = key_phase s ∧ prev_crypto s' = prev_crypto s ∧ key_discard s' = key_discard s.

Lemma note_rx_ok s n :
  same_keys s (note_rx_packet s SpData n) ∧
  rx_packet (spaces (note_rx_packet s SpData n) SpData) = Z.max (rx_packet (spaces s SpData)) n.
Proof.
  unfold note_rx_packet, same_keys. destruct (Z.leb_spec (rx_packet (spaces s SpData)) n) as [Hle|Hle].
  - cbn [session zero_rtt_crypto spaces next_crypto key_phase prev_crypto key_discard]. unfold set_space.
    rewrite bool_decide_true by done. cbn [crypto rx_packet set_rx_packet]. split; [done|lia].
  - split; [done|lia].
Qed.

(** The peer only sees the generation and the packets sent. *)
Lemma pair_ok_peer p e e' :
  gen e' = gen e → (∀ x, x ∈ sent e → x ∈ sent e') → pair_ok p e → pair_ok p e'.
Proof.
  intros Hg Hs [? Hrx Hend Hack Hrec ? Hun]. split; rewrite ?Hg; try done.
  - destruct Hrx as [?|(x & ? & ?)]; [by left|right; exists x; auto].
  - intros pv n t H1 H2. destruct (Hend pv n t H1 H2) as (x & ? & ?). exists x. auto.
  - intros H1 H2. destruct (Hack H1 H2) as (x & ? & ?). exists x. auto.
  - intros x Hx. destruct (Hrec x Hx) as (? & ?). auto.
Qed.

(** The invariant of an endpoint that keeps its generation. *)
Lemma one_ok_same mine peers e e' :
  one_ok mine peers e → gen e' = gen e → sent e' = sent e → next_num e' = next_num e →
  zero_rtt_crypto (ks e') = zero_rtt_crypto (ks e) → crypto (spaces (ks e') SpData) = crypto (spaces (ks e) SpData) →
  next_crypto (ks e') = next_crypto (ks e) → key_phase (ks e') = key_phase (ks e) →
  (∀ pv, prev_crypto (ks e') = Some pv → ∃ pv0, prev_crypto (ks e) = Some pv0 ∧ prev_keys pv = prev_keys pv0) →
  (key_discard (ks e') ≠ None → prev_crypto (ks e') ≠ None ∧ ¬ update_pending e') →
  one_ok mine peers e'.
Proof.
  intros [] Hg Hs Hn H1 H2 H3 H4 H5 H6.
  split; rewrite ?Hg, ?Hs, ?Hn, ?H1, ?H2, ?H3, ?H4; try done.
  intros pv Hpv. destruct (H5 pv Hpv) as (pv0 & Hpv0 & ->). auto.
Qed.

(** The invariant of the pair when an endpoint keeps its generation, its previous keys and what it sent. *)
Lemma pair_ok_same e e' p :
  pair_ok e p → gen e' = gen e → sent e' = sent e → prev_crypto (ks e') = prev_crypto (ks e) →
  (rx e' = 0 ∨ ∃ x, x ∈ sent p ∧ s_num x = rx e' ∧ s_gen x <= gen e) →
  (∀ x, x ∈ recvd e' → x ∈ recvd e ∨ (x ∈ sent p ∧ s_gen x <= gen e ∧ (s_gen x = gen e → ¬ update_pending e))) →
  pair_ok e' p.
Proof.
  intros [] Hg Hs Hpv Hrx Hrec.
  assert (Hpend : update_pending e' ↔ update_pending e) by (unfold update_pending; by rewrite Hpv).
  split; rewrite ?Hg, ?Hs, ?Hpv, ?Hpend; try done.
  intros x Hx. rewrite Hpend. destruct (Hrec x Hx) as [?|?]; [auto|done].
Qed.

Section Preserved.
Context (mine peers : Z → PacketKey) (e p : Endpoint).
Hypotheses (He : one_ok mine peers e) (Hp : one_ok peers mine p) (Hep : pair_ok e p) (Hpe : pair_ok p e).

Definition preserved (e' : Endpoint) : Prop := one_ok mine peers e' ∧ pair_ok e' p ∧ pair_ok p e'.

(** Sending first forgets that an update is unacknowledged. *)
Lemma clear_preserved : preserved (mkEndpoint (clear_update_unacked (ks e)) (next_num e) (sent e) (recvd e)).
Proof.
  unfold clear_update_unacked. destruct (prev_crypto (ks e)) as [pv|] eqn:Hpv; [|by destruct e].
  set (e' := mkEndpoint _ _ _ _).
  assert (Hpend : update_pending e' ↔ update_pending e).
  { unfold update_pending, e'. cbn [ks prev_crypto set_prev_crypto]. rewrite Hpv.
    split; intros (? & [= <-] & ?); eexists; (split; [done|done]). }
  split; [|split].
  - apply (one_ok_same _ _ e); try done.
    + intros pv' [= <-]. by exists pv.
    + intros Ht. split; [done|]. rewrite Hpend. by apply (o_timer _ _ _ He).
  - destruct Hep as [? Hrx Hend Hack Hrec Hloc Hun]. split; rewrite ?Hpend; try done.
    + intros pv' n t [= <-]. apply (Hend pv n t Hpv).
    + intros x Hx. rewrite Hpend. auto.
    + intros pv' [= <-] [=].
  - by apply (pair_ok_peer _ e).
Qed.

Lemma append_preserved x :
  next_num e <= s_num x < 2 ^ 62 → s_gen x = gen e → sealed_ok mine x → (s_num x = 0 → s_gen x = 0) →
  (∀ pv, prev_crypto (ks e) = Some pv → update_unacked pv = false) →
  preserved (mkEndpoint (ks e) (s_num x + 1) (x :: sent e) (recvd e)).
Proof.
  intros Hn Hgx Hs Hz Hun. pose proof (o_num _ _ _ He). split; [|split].
  - destruct He as [? ? ? ? ? ? ? Hsent Hmono ?]. split; try done; cbn [sent next_num]; [| |lia].
    + change (gen (mkEndpoint (ks e) (s_num x + 1) (x :: sent e) (recvd e))) with (gen e).
      intros y [->|Hy]%elem_of_cons; [split_and!; try done; lia|]. destruct (Hsent y Hy) as (? & ? & ? & ? & ?). split_and!; try done; lia.
    + intros y z [->|Hy]%elem_of_cons [->|Hz']%elem_of_cons Hle; [lia| | |by apply Hmono].
      * destruct (Hsent z Hz') as (_ & _ & ? & _). lia.
      * destruct (Hsent y Hy) as (_ & ? & _). change (s_gen y <= s_gen x). lia.
  - destruct Hep as [? Hrx Hend Hack Hrec Hloc Hunn]. split; try done.
    intros pv Hpv Hu. rewrite (Hun pv Hpv) in Hu. done.
  - apply (pair_ok_peer _ e); [done|intros; by right|done].
Qed.

Lemma discard_preserved now : preserved (mkEndpoint (key_discard_timeout (ks e) now) (next_num e) (sent e) (recvd e)).
Proof.
  unfold key_discard_timeout. destruct (key_discard (ks e)) as [t|] eqn:Ht; [|by destruct e].
  destruct (t <=? now); [|by destruct e]. destruct (o_timer _ _ _ He) as [_ Hnp]; [by rewrite Ht|].
  split; [|split].
  - apply (one_ok_same _ _ e); try done. symmetry. apply He.
  - destruct Hep as [? Hrx Hend Hack Hrec Hloc Hunn]. split; try done.
    + intros _. by apply Hack.
    + intros x Hx. destruct (Hrec x Hx) as (? & ? & _). split; [done|]. split; [done|]. by intros _ (pv & ? & _).
    + by intros (pv & ? & _).
  - by apply (pair_ok_peer _ e).
Qed.

(** The endpoint after an update. *)
Definition updated_to (e' : Endpoint) (end_ : option (Z * Z)) (remote : bool) : Prop :=
  session (ks e') = session (ks e) + 1 ∧ zero_rtt_crypto (ks e') = zero_rtt_crypto (ks e) ∧
  (∃ hk, crypto (spaces (ks e') SpData) = Some (mkKeys hk (key_pair mine peers (gen e + 1)))) ∧
  next_crypto (ks e') = Some (key_pair mine peers (gen e + 2)) ∧ key_phase (ks e') = negb (key_phase (ks e)) ∧
  prev_crypto (ks e') = Some (mkPrevCrypto (key_pair mine peers (gen e)) end_ remote) ∧
  (key_discard (ks e') ≠ None → end_ ≠ None) ∧ sent e' = sent e ∧ next_num e' = next_num e.

Lemma updated_one e' end_ remote : updated_to e' end_ remote → one_ok mine peers e'.
Proof.
  intros (Hses & Hz & Hc & Hn & Hph & Hpv & Hd & Hs & Hnn).
  assert (Hg : gen e' = gen e + 1) by (unfold gen; lia). destruct He as [].
  split; rewrite ?Hg, ?Hs, ?Hnn, ?Hz; try done; try lia.
  - by rewrite Hn, <- Z.add_assoc.
  - rewrite Hph, odd_next. by f_equal.
  - intros pv Hpv'. rewrite Hpv in Hpv'. injection Hpv' as <-. cbn [prev_keys].
    split; [f_equal; lia|lia].
  - intros Hd'. rewrite Hpv. split; [done|]. intros (pv & Hpv' & He'). rewrite Hpv in Hpv'. injection Hpv' as <-. by apply Hd.
  - intros x Hx. destruct (o_sent0 x Hx) as (? & ? & ? & ? & ?). split_and!; try done; lia.
Qed.

Lemma force_preserved ks' :
  (0 < gen e → ∃ x, x ∈ recvd p ∧ s_gen x = gen e) →
  force_key_update (next_keys mine peers) (ks e) true = Ret ks' →
  preserved (mkEndpoint ks' (next_num e) (sent e) (recvd e)).
Proof.
  intros Hrecvd. unfold force_key_update. cbn [negb]. destruct (prev_crypto (ks e)) as [pv|] eqn:Hpv.
  { intros [= <-]. by destruct e. }
  rewrite update_keys_ok by done. intros [= <-].
  assert (Hnp : ¬ update_pending e) by (intros (? & ? & _); congruence).
  set (e' := mkEndpoint _ _ _ _).
  assert (Hg : gen e' = gen e + 1) by (unfold gen, e', updated; cbn [ks session]; lia).
  pose proof (o_gen _ _ _ He) as H0g.
  assert (Hack : 0 < gen e → ∃ x, x ∈ sent p ∧ s_gen x = gen e) by (by apply (p_acked _ _ Hep)).
  assert (Hle : gen e <= gen p).
  { destruct (Z.eq_dec (gen e) 0); [pose proof (o_gen _ _ _ Hp); lia|].
    destruct Hack as (x & Hx & <-); [lia|]. destruct (o_sent _ _ _ Hp x Hx) as (_ & ? & _). lia. }
  split; [|split].
  - apply (updated_one _ None false). unfold updated_to, e', updated. destruct (o_keys _ _ _ He) as [hk Hk].
    cbn [ks session zero_rtt_crypto spaces next_crypto key_phase prev_crypto key_discard sent next_num].
    rewrite Hk. split_and!; try done; [by exists (k_header (mkKeys hk (key_pair mine peers (gen e))))|].
    intros Hd. exfalso. destruct (o_timer _ _ _ He Hd) as [? _]. done.
  - destruct Hep as [? Hrx Hend _ Hrec Hloc Hunn]. split; rewrite ?Hg; try lia.
    + destruct Hrx as [?|(x & ? & ? & ?)]; [by left|right]. exists x. split_and!; try done. lia.
    + by intros pv n t [= <-].
    + intros Hn. exfalso. apply Hn. eexists. split; [done|done].
    + intros x Hx. destruct (Hrec x Hx) as (? & ? & _). split_and!; [done|lia|lia].
    + intros _. pose proof (p_gap _ _ Hpe). lia.
    + by intros pv [= <-].
  - destruct Hpe as [? Hrx Hend Hackp Hrec Hloc Hunn]. split; rewrite ?Hg; try done; try lia.
    + intros Hpend. specialize (Hloc Hpend). destruct (Z.eq_dec (gen e) (gen p)) as [Heq|]; [|lia]. exfalso.
      destruct Hpend as (pv & Hpvp & Hend'). destruct (o_prev _ _ _ Hp pv Hpvp) as [_ ?].
      destruct Hrecvd as (x & Hx & Hgx); [lia|]. destruct (Hrec x Hx) as (_ & _ & Hno). apply Hno; [lia|]. by exists pv.
    + intros pv Hpvp Hu. destruct (Hunn pv Hpvp Hu) as (Hlt & Heq & _). destruct (o_prev _ _ _ Hp pv Hpvp) as [_ ?].
      destruct Hack as (x & Hx & Hgx); [lia|]. specialize (Hlt x Hx). lia.
Qed.

(** The largest number received after one more packet. *)
Lemma rx_after x (ks' : KeyState) :
  x ∈ sent p → rx_packet (spaces ks' SpData) = rx e →
  let e' := mkEndpoint (note_rx_packet ks' SpData (s_num x)) (next_num e) (sent e) (x :: recvd e) in
  rx e' = 0 ∨ ∃ y, y ∈ sent p ∧ s_num y = rx e' ∧ s_gen y <= Z.max (gen e) (s_gen x).
Proof.
  intros Hx Hrx e'. assert (Hr : rx e' = Z.max (rx e) (s_num x))
    by (unfold rx at 1, e'; cbn [ks]; destruct (note_rx_ok ks' (s_num x)) as [_ ->]; by rewrite Hrx).
  rewrite Hr. destruct (Z.max_spec (rx e) (s_num x)) as [[_ ->]|[_ ->]].
  - right. exists x. split_and!; [done|done|lia].
  - destruct (p_rx _ _ Hep) as [?|(y & ? & ? & ?)]; [by left|right]. exists y. split_and!; [done|done|lia].
Qed.

(** A packet of the next generation: the endpoint follows the update. *)
Lemma recv_next_preserved x t pto :
  x ∈ sent p → s_gen x = gen e + 1 →
  preserved (mkEndpoint (note_rx_packet (received mine peers e x t pto) SpData (s_num x)) (next_num e) (sent e) (x :: recvd e)).
Proof.
  intros Hx Hgx. set (e' := mkEndpoint _ _ _ _). destruct (o_sent _ _ _ Hp x Hx) as (_ & Hgp & _).
  set (s1 := received mine peers e x t pto) in *.
  assert (Hs1 : s1 = set_key_discard (updated mine peers e (Some (s_num x, t)) true) (Some (t + pto * 3)))
    by (unfold s1, received; by rewrite (proj2 (Z.eqb_eq _ _) Hgx)).
  pose proof (rx_after x s1 Hx) as Hrx'. fold e' in Hrx'.
  destruct (note_rx_ok s1 (s_num x)) as [(E1 & E2 & E3 & E4 & E5 & E6 & E7) _].
  assert (Hup : updated_to e' (Some (s_num x, t)) true).
  { unfold updated_to, e'. cbn [ks sent next_num]. rewrite E1, E2, E3, E4, E5, E6, Hs1. unfold set_key_discard, updated.
    cbn [session zero_rtt_crypto spaces next_crypto key_phase prev_crypto].
    destruct (o_keys _ _ _ He) as [hk Hk]. rewrite Hk. split_and!; try done.
    by exists (k_header (mkKeys hk (key_pair mine peers (gen e)))). }
  assert (Hpv' : prev_crypto (ks e') = Some (mkPrevCrypto (key_pair mine peers (gen e)) (Some (s_num x, t)) true)) by apply Hup.
  assert (Hg : gen e' = gen e + 1) by (destruct Hup as (Hses & _); unfold gen; lia).
  assert (Hnp : ¬ update_pending e') by (intros (pv & Hpv & He'); rewrite Hpv' in Hpv; injection Hpv as <-; done).
  pose proof (p_gap _ _ Hpe) as Hgap.
  split; [by eapply updated_one|]. split.
  - split; rewrite ?Hg; try lia.
    + rewrite Hgx in Hrx'. destruct Hrx' as [?|(y & ? & ? & ?)]; [by rewrite Hs1|by left|right]. exists y. split_and!; try done; lia.
    + intros pv n t' Hpv Hend. rewrite Hpv' in Hpv. injection Hpv as <-. injection Hend as <- <-. by exists x.
    + intros _ _. by exists x.
    + intros y [->|Hy]%elem_of_cons; [split_and!; try done; lia|].
      destruct (p_recvd _ _ Hep y Hy) as (? & ? & _). split_and!; try done; lia.
    + intros pv Hpv _. rewrite Hpv' in Hpv. injection Hpv as <-. split; [|split; [lia|done]].
      intros y Hy. destruct (o_sent _ _ _ He y Hy) as (_ & ? & _). lia.
  - destruct Hpe as [? Hrx Hend Hackp Hrec Hloc Hunn]. split; rewrite ?Hg; try done; try lia.
    intros pv Hpvp Hu. destruct (Hunn pv Hpvp Hu) as (_ & ? & _). lia.
Qed.

(** A packet of the current or of the previous generation: at most a forced update is answered. *)
Lemma recv_known_preserved x t pto :
  x ∈ sent p → gen e - 1 <= s_gen x <= gen e →
  preserved (mkEndpoint (note_rx_packet (received mine peers e x t pto) SpData (s_num x)) (next_num e) (sent e) (x :: recvd e)).
Proof.
  intros Hx Hgx. set (e' := mkEndpoint _ _ _ _). set (s1 := received mine peers e x t pto) in *.
  pose proof (rx_after x s1 Hx) as Hrx'. fold e' in Hrx'. cbv zeta in Hrx'. rewrite Z.max_l in Hrx' by lia.
  destruct (note_rx_ok s1 (s_num x)) as [(E1 & E2 & E3 & E4 & E5 & E6 & E7) _].
  change (note_rx_packet s1 SpData (s_num x)) with (ks e') in E1, E2, E3, E4, E5, E6, E7.
  assert (Hs1 : s1 = ks e ∧ (s_gen x = gen e → ¬ update_pending e) ∨
    ∃ pv, prev_crypto (ks e) = Some pv ∧ end_packet pv = None ∧ s_gen x = gen e ∧
      s1 = set_key_discard (set_prev_crypto (ks e) (Some (mkPrevCrypto (prev_keys pv) (Some (s_num x, t)) (update_unacked pv))))
             (Some (t + pto * 3))).
  { unfold s1, received. destruct (Z.eqb_spec (s_gen x) (gen e + 1)); [lia|]. unfold acked_by, update_pending.
    destruct (prev_crypto (ks e)) as [pv|] eqn:Hpv; [|left; split; [done|by intros _ (? & ? & _)]].
    rewrite (o_phase _ _ _ He). case_bool_decide as Hend; cbn [andb];
      [|left; split; [done|intros _ (? & [= <-] & ?); done]].
    destruct (Bool.eqb _ _) eqn:Hodd.
    - right. exists pv. split_and!; try done. destruct (Z.eq_dec (s_gen x) (gen e)); [done|].
      assert (s_gen x = gen e - 1) as Hg1 by lia. by rewrite Hg1, odd_prev, eqb_negb_l in Hodd.
    - left. split; [done|]. intros Hg1. by rewrite Hg1, Bool.eqb_reflx in Hodd. }
  destruct Hs1 as [[Hs1 Hnp]|(pv & Hpv & Hend & Hgen & Hs1)].
  - assert (Hg : gen e' = gen e) by (unfold gen at 1; by rewrite E1, Hs1).
    assert (Hpv' : prev_crypto (ks e') = prev_crypto (ks e)) by (by rewrite E6, Hs1).
    assert (Hpend : update_pending e' ↔ update_pending e) by (unfold update_pending; by rewrite Hpv').
    split; [|split].
    + apply (one_ok_same _ _ e); try done; [by rewrite E2, Hs1|by rewrite E3, Hs1|by rewrite E4, Hs1|by rewrite E5, Hs1| |].
      * intros pv Hpv. rewrite Hpv' in Hpv. by exists pv.
      * rewrite E7, Hs1, Hpend, Hpv'. apply (o_timer _ _ _ He).
    + apply (pair_ok_same e); try done; [apply Hrx'; by rewrite Hs1|].
      intros y [->|Hy]%elem_of_cons; [right|by left]. split_and!; try done. lia.
    + by apply (pair_ok_peer _ e).
  - assert (Hg : gen e' = gen e) by (unfold gen at 1; by rewrite E1, Hs1).
    assert (Hpv' : prev_crypto (ks e') = Some (mkPrevCrypto (prev_keys pv) (Some (s_num x, t)) (update_unacked pv)))
      by (by rewrite E6, Hs1).
    assert (Hnp : ¬ update_pending e') by (intros (? & Hpv1 & ?); rewrite Hpv' in Hpv1; injection Hpv1 as <-; done).
    assert (Hun : update_unacked pv = false).
    { destruct (update_unacked pv) eqn:Hu; [|done]. by destruct (p_unacked _ _ Hep pv Hpv Hu) as (_ & _ & ?). }
    split; [|split].
    + apply (one_ok_same _ _ e); try done; [by rewrite E2, Hs1|by rewrite E3, Hs1|by rewrite E4, Hs1|by rewrite E5, Hs1| |].
      * intros pv1 Hpv1. rewrite Hpv' in Hpv1. injection Hpv1 as <-. by exists pv.
      * intros _. by rewrite Hpv'.
    + destruct Hep as [? _ _ _ Hrec _ _]. split; rewrite ?Hg; try done.
      * apply Hrx'. by rewrite Hs1.
      * intros pv1 n t1 Hpv1 Hend1. rewrite Hpv' in Hpv1. injection Hpv1 as <-. injection Hend1 as <- <-. by exists x.
      * intros _ _. by exists x.
      * intros y [->|Hy]%elem_of_cons; [split_and!; try done; lia|]. destruct (Hrec y Hy) as (? & ? & _). by split_and!.
      * intros pv1 Hpv1 Hu1. rewrite Hpv' in Hpv1. injection Hpv1 as <-. cbn [update_unacked] in Hu1. congruence.
    + by apply (pair_ok_peer _ e).
Qed.

End Preserved.

Lemma act_preserved mine peers e p e' :
  one_ok mine peers e → one_ok peers mine p → pair_ok e p → pair_ok p e → act mine peers e p e' →
  one_ok mine peers e' ∧ pair_ok e' p ∧ pair_ok p e'.
Proof.
  intros He Hp Hep Hpe Hact. destruct Hact as [x Hn Hgx Hs Hz|x now pto n pk ks' Hx Harr Hdec|ks' Hr Hf|now].
  - destruct (clear_preserved mine peers e p He Hep Hpe) as (He1 & Hep1 & Hpe1).
    set (e1 := mkEndpoint (clear_update_unacked (ks e)) (next_num e) (sent e) (recvd e)) in *.
    assert (Hg1 : gen e1 = gen e) by (unfold gen, e1, clear_update_unacked; cbn [ks]; by destruct (prev_crypto (ks e))).
    apply (append_preserved mine peers e1 p); try done; [by rewrite Hg1|].
    intros pv. unfold e1, clear_update_unacked. cbn [ks]. destruct (prev_crypto (ks e)) eqn:Hpv; [|congruence].
    by intros [= <-].
  - destruct (accepts e x) eqn:Hacc; [|rewrite (decrypt_rejected mine peers e p) in Hdec; done].
    rewrite (decrypt_accepted mine peers e p) in Hdec by done. injection Hdec as <- <- <-.
    destruct (Z.eq_dec (s_gen x) (gen e + 1)); [by apply recv_next_preserved|].
    apply recv_known_preserved; try done. unfold accepts in Hacc. lia.
  - by apply force_preserved.
  - by apply discard_preserved.
Qed.

Lemma system_ok ka kb s :
  system_reachable ka kb s → one_ok ka kb s.1 ∧ one_ok kb ka s.2 ∧ pair_ok s.1 s.2 ∧ pair_ok s.2 s.1.
Proof.
  assert (Hone : ∀ m q e, initial_keys_ok m q e → one_ok m q e ∧ gen e = 0).
  { intros m q e (Hz & Hpv & Hd & Hph & Hs & Hn & Hk & Hrx & Hnn & Hsent & _).
    assert (Hg : gen e = 0) by (unfold gen; lia). split; [|done].
    split; rewrite ?Hg, ?Hsent; try done; [by rewrite Hpv|by intros x ?%elem_of_nil|by intros x y ?%elem_of_nil]. }
  assert (Hpair : ∀ m q e p, initial_keys_ok m q e → gen e = 0 → gen p = 0 → pair_ok e p).
  { intros m q e p (_ & Hpv & _ & _ & _ & _ & _ & Hrx & _ & Hsent & Hrec) Hge Hgp.
    split; rewrite ?Hge, ?Hgp, ?Hpv, ?Hrec; try done; try lia; try (by left). by intros x ?%elem_of_nil. }
  induction 1 as [a b Ha Hb|s s' _ (Ha & Hb & Hab & Hba) Hstep].
  - destruct (Hone _ _ _ Ha), (Hone _ _ _ Hb). cbn [fst snd].
    split; [done|]. split; [done|]. split; by eapply Hpair.
  - destruct Hstep as [a b a' Hact|a b b' Hact]; cbn [fst snd] in *.
    + destruct (act_preserved ka kb a b a' Ha Hb Hab Hba Hact) as (? & ? & ?). done.
    + destruct (act_preserved kb ka b a b' Hb Ha Hba Hab Hact) as (? & ? & ?). done.
Qed.

End KeyUpdate.

(** * Properties *)


(** * Examples *)

(** Keys that tag a payload with their generation. *)
Definition tag_key (g : Z) : PacketKey :=
  mkPacketKey (fun n b h => takeZ h b ++ g :: dropZ h b)
    (fun n hd b => match b with t :: b => if t =? g then Some b else None | [] => None end) 1 (2 ^ 23) (2 ^ 52).
Definition plain_header_key : HeaderKey := mkHeaderKey 16 (fun _ b => b) (fun _ b => b).
Definition tag_keys (g : Z) : Keys := mkKeys (mkKeyPair plain_header_key plain_header_key) (key_pair tag_key tag_key g).

Definition first_keys (zero_rtt : option ZeroRttCrypto) : @KeyState (list Buffer) Z :=
  mkKeyState 2 (fun id => set_crypto (PacketSpace_new 0) (Some (tag_keys 0))) zero_rtt false 100 None
    (Some (key_pair tag_key tag_key 1)) None SpData.
Definition first_endpoint : @Endpoint (list Buffer) := mkEndpoint (first_keys None) 0 [] [].

(** The packet of generation [g] and number [n] with payload [42]. *)
Definition tagged (n g : Z) : Sent :=
  mkSent n g (mkPacket (HShort false (Z.odd g) (mkConnectionId 0 (repeat 0 20)) (PnU8 n)) [64] [g; 42]) [42].

Lemma tagged_ok n g : sealed_ok tag_key (tagged n g).
Proof.
  split; [by eexists _, _, _| |done]. intros g'. cbn [tagged s_num s_gen s_packet s_plain pk_payload pk_header_data tag_key pk_decrypt].
  by rewrite Z.eqb_sym.
Qed.


(** An endpoint that followed its peer's update and dropped the old keys may force an update before any
    packet of the current keys reached the peer: the peer cannot open what it sends next. *)
Lemma second_update_unreadable :
  (a ← force_key_update (next_keys tag_key tag_key) (first_keys None) true;
   '(_, _, b) ← decrypt_packet (next_keys tag_key tag_key) (first_keys None) 0 (fun _ => 10) (s_packet (tagged 1 1));
   b ← force_key_update (next_keys tag_key tag_key) (key_discard_timeout (note_rx_packet b SpData 1) 30) true;
   '(r, _, _) ← decrypt_packet (next_keys tag_key tag_key) a 40 (fun _ => 10) (s_packet (tagged 1 (session b - 2)));
   mret (session b - 2, r)) = Ret (2, Err None).
Proof. vm_compute. reflexivity. Qed.

(** While a server still holds 0-RTT keys, the timer that discards them also discards the previous 1-RTT keys,
    even those of a forced update the peer has not seen: its packets can no longer be opened. *)
Lemma zero_rtt_discard_drops_unanswered_update :
  (s ← force_key_update (next_keys tag_key tag_key) (first_keys (Some (mkZeroRttCrypto plain_header_key (tag_key 9)))) true;
   '(before, _, s) ← decrypt_packet (next_keys tag_key tag_key) s 0 (fun _ => 10) (s_packet (tagged 1 0));
   s ← set_key_discard_timer (note_rx_packet s SpData 1) 0 10;
   '(after, _, s) ← decrypt_packet (next_keys tag_key tag_key) (key_discard_timeout s 30) 30 (fun _ => 10) (s_packet (tagged 2 0));
   mret (before, after)) = Ret (Ok (Some 1), Err None).
Proof. vm_compute. reflexivity. Qed.

(** A key update in the packet numbered 0 is refused: the largest number received starts at 0 as if packet 0 had
    been received. *)
Lemma update_in_first_packet_refused :
  ('(r, _, _) ← decrypt_packet (next_keys tag_key tag_key) (first_keys None) 0 (fun _ => 10) (s_packet (tagged 0 1));
   mret r) = Ret (Err (Some (mkTransportError KEY_UPDATE_ERROR))).
Proof. vm_compute. reflexivity. Qed.
