(* ===== verification/Timer.v ===== *)
(** The timers of a connection: [quic-proto/src/connection/timer.rs]. *)
From stdpp Require Import sets.
From S2P Require Import Prelude.
Open Scope Z_scope.

Inductive Timer : Type :=
| TLossDetection | TIdle | TClose | TKeyDiscard | TPathValidation | TKeepAlive | TPacing | TPushNewCid | TMaxAckDelay.
#[global] Instance Timer_eq_dec : EqDecision Timer.
Proof. solve_decision. Defined.

(** [timer as usize]. *)
Definition timer_index (t : Timer) : nat :=
  match t with
  | TLossDetection => 0 | TIdle => 1 | TClose => 2 | TKeyDiscard => 3 | TPathValidation => 4 | TKeepAlive => 5 | TPacing => 6
  | TPushNewCid => 7 | TMaxAckDelay => 8
  end%nat.

Definition Timer_VALUES : list Timer :=
  [TLossDetection; TIdle; TClose; TKeyDiscard; TPathValidation; TKeepAlive; TPacing; TPushNewCid; TMaxAckDelay].

(** The array has ten entries, one more than there are timers. *)
Record TimerTable : Type := mkTimerTable { timer_data : list (option Z) }.

Definition TimerTable_default : TimerTable := mkTimerTable (replicate 10 None).

Definition timer_set (t : TimerTable) (timer : Timer) (time : Z) : TimerTable :=
  mkTimerTable (<[timer_index timer := Some time]> (timer_data t)).

Definition timer_get (t : TimerTable) (timer : Timer) : option Z := mjoin (timer_data t !! timer_index timer).

Definition timer_stop (t : TimerTable) (timer : Timer) : TimerTable :=
  mkTimerTable (<[timer_index timer := None]> (timer_data t)).

(** [Iterator::min] of the times that are set. *)
Fixpoint earliest (l : list (option Z)) : option Z :=
  match l with
  | [] => None
  | None :: l => earliest l
  | Some x :: l => match earliest l with Some y => Some (Z.min x y) | None => Some x end
  end.

Definition next_timeout (t : TimerTable) : option Z := earliest (timer_data t).

Definition is_expired (t : TimerTable) (timer : Timer) (after : Z) : bool :=
  match timer_get t timer with Some x => x <=? after | None => false end.

(** * Lemmas *)

Definition timers_ok (t : TimerTable) : Prop := length (timer_data t) = 10%nat ∧ timer_data t !! 9%nat = Some None.

Lemma timer_index_inj a b : timer_index a = timer_index b → a = b.
Proof. by destruct a, b. Qed.

Lemma timer_index_surj i : (i < 9)%nat → ∃ timer, timer_index timer = i.
Proof.
  intros Hi. destruct (Timer_VALUES !! i) as [timer|] eqn:Ht; [|apply lookup_ge_None in Ht; cbn in Ht; lia]. exists timer.
  do 9 (destruct i as [|i]; [by injection Ht as <-|]). lia.
Qed.

Lemma timer_index_lt t timer : timers_ok t → (timer_index timer < length (timer_data t))%nat.
Proof. intros [-> _]. destruct timer; cbn; lia. Qed.

Lemma timers_default_ok : timers_ok TimerTable_default.
Proof. done. Qed.

Lemma timer_set_ok t timer time : timers_ok t → timers_ok (timer_set t timer time).
Proof. intros [Hl H9]. split; cbn; [by rewrite length_insert|]. by rewrite list_lookup_insert_ne by (by destruct timer). Qed.

Lemma timer_stop_ok t timer : timers_ok t → timers_ok (timer_stop t timer).
Proof. intros [Hl H9]. split; cbn; [by rewrite length_insert|]. by rewrite list_lookup_insert_ne by (by destruct timer). Qed.

Lemma timer_get_set t a b time :
  timers_ok t → timer_get (timer_set t a time) b = if decide (a = b) then Some time else timer_get t b.
Proof.
  intros Hok. unfold timer_get, timer_set. cbn. destruct (decide (a = b)) as [<-|Hne].
  - by rewrite list_lookup_insert_eq by (by apply timer_index_lt).
  - rewrite list_lookup_insert_ne; [done|]. intros Heq. by apply timer_index_inj in Heq.
Qed.

Lemma timer_get_stop t a b : timers_ok t → timer_get (timer_stop t a) b = if decide (a = b) then None else timer_get t b.
Proof.
  intros Hok. unfold timer_get, timer_stop. cbn. destruct (decide (a = b)) as [<-|Hne].
  - by rewrite list_lookup_insert_eq by (by apply timer_index_lt).
  - rewrite list_lookup_insert_ne; [done|]. intros Heq. by apply timer_index_inj in Heq.
Qed.

Lemma earliest_spec l :
  match earliest l with
  | Some x => Some x ∈ l ∧ ∀ y, Some y ∈ l → x <= y
  | None => ∀ y, Some y ∉ l
  end.
Proof.
  induction l as [|[a|] l IH]; cbn [earliest]; [by intros y ?%elem_of_nil| |].
  - destruct (earliest l) as [b|].
    + destruct IH as [Hin Hle]. split.
      * destruct (Z.min_spec a b) as [[_ ->]|[_ ->]]; set_solver.
      * intros y [[= ->]|Hy]%elem_of_cons; [lia|]. specialize (Hle y Hy). lia.
    + split; [set_solver|]. intros y [[= ->]|Hy]%elem_of_cons; [lia|]. by apply IH in Hy.
  - destruct (earliest l) as [b|]; [destruct IH as [Hin Hle]; split; [set_solver|]|]; intros y [[=]|Hy]%elem_of_cons.
    + by apply Hle.
    + by apply (IH y).
Qed.

(** A table wakes the connection at the earliest of its timers, and exactly when one is set. *)
Lemma next_timeout_spec t :
  timers_ok t →
  match next_timeout t with
  | Some x => (∃ timer, timer_get t timer = Some x) ∧ ∀ timer y, timer_get t timer = Some y → x <= y
  | None => ∀ timer, timer_get t timer = None
  end.
Proof.
  intros [Hl H9]. unfold next_timeout. pose proof (earliest_spec (timer_data t)) as He.
  assert (Hget : ∀ timer y, timer_get t timer = Some y → Some y ∈ timer_data t).
  { unfold timer_get. intros timer y Hy. destruct (timer_data t !! timer_index timer) as [o|] eqn:Ho; [|done].
    cbn in Hy. subst o. by eapply list_elem_of_lookup_2. }
  destruct (earliest (timer_data t)) as [x|].
  - destruct He as [[i Hi]%list_elem_of_lookup Hle]. split; [|eauto].
    assert (Hlt : (i < 10)%nat) by (rewrite <- Hl; by eapply lookup_lt_Some).
    assert (i ≠ 9)%nat by (intros ->; congruence).
    destruct (timer_index_surj i) as [timer <-]; [lia|].
    exists timer. unfold timer_get. by rewrite Hi.
  - intros timer. destruct (timer_get t timer) as [y|] eqn:Hy; [|done]. exfalso. eapply He, Hget, Hy.
Qed.
