(* ===== verification/AckFrequency.v ===== *)
(** The ACK frequency extension: [quic-proto/src/connection/ack_frequency.rs].  Durations are in nanoseconds. *)
From Stdlib Require Import SpecFloat.
From S2P Require Import Prelude Coding Ids Shared Frame TransportParams PendingAcks Float.
Open Scope Z_scope.

Definition TIMER_GRANULARITY : Z := 10 ^ 6.
Definition MIN_AUTOMATIC_ACK_DELAY : Z := 25 * 10 ^ 6.
Definition MAX_RTT_ERROR : spec_float := decimal f32 2 1.

(** [Duration::from_micros]. *)
Definition from_micros (n : Z) : Z := n * 1000.

(** [Ord::clamp], which panics when the bounds are not ordered. *)
Definition clamp (x lo hi : Z) : M Z := _ ← rassert (lo <=? hi); mret (Z.min (Z.max x lo) hi).

Record AckFrequencyConfig : Type := mkAckFrequencyConfig {
  afc_ack_eliciting_threshold : VarInt;
  afc_max_ack_delay : option Z;
  afc_reordering_threshold : VarInt
}.

Record AckFrequencyState : Type := mkAckFrequencyState {
  in_flight_ack_frequency_frame : option (Z * Z);
  next_outgoing_sequence_number : Z;
  peer_max_ack_delay : Z;
  last_ack_frequency_frame : option Z;
  local_max_ack_delay : Z
}.

Definition AckFrequencyState_new (default_max_ack_delay : Z) : AckFrequencyState :=
  mkAckFrequencyState None 0 default_max_ack_delay None default_max_ack_delay.

Definition candidate_max_ack_delay (s : AckFrequencyState) (rtt : Z) (config : AckFrequencyConfig)
    (peer_params : TransportParameters) : M Z :=
  let min_ack_delay := from_micros (default 0 (min_ack_delay peer_params)) in
  clamp (default (peer_max_ack_delay s) (afc_max_ack_delay config)) min_ack_delay (Z.max rtt MIN_AUTOMATIC_ACK_DELAY).

Definition max_ack_delay_for_pto (s : AckFrequencyState) : Z :=
  match in_flight_ack_frequency_frame s with
  | Some (_, max_ack_delay) => Z.max (peer_max_ack_delay s) max_ack_delay
  | None => peer_max_ack_delay s
  end.

Definition next_sequence_number (s : AckFrequencyState) : M (VarInt * AckFrequencyState) :=
  let seq := next_outgoing_sequence_number s in
  _ ← rassert (seq <=? into_inner VarInt_MAX);
  next ← uadd seq 1;
  mret (mkVarInt seq,
        mkAckFrequencyState (in_flight_ack_frequency_frame s) next (peer_max_ack_delay s) (last_ack_frequency_frame s)
          (local_max_ack_delay s)).

Definition should_send_ack_frequency (s : AckFrequencyState) (rtt : Z) (config : AckFrequencyConfig)
    (peer_params : TransportParameters) : M bool :=
  if next_outgoing_sequence_number s =? 0 then mret true
  else
    let current :=
      match in_flight_ack_frequency_frame s with Some (_, pending) => pending | None => peer_max_ack_delay s end in
    desired ← candidate_max_ack_delay s rtt config peer_params;
    let error := fsub f32 (fdiv f32 (as_secs f32 desired) (as_secs f32 current)) (of_int f32 1) in
    mret (fgt (SFabs error) MAX_RTT_ERROR).

Definition ack_frequency_sent (s : AckFrequencyState) (pn requested_max_ack_delay : Z) : AckFrequencyState :=
  mkAckFrequencyState (Some (pn, requested_max_ack_delay)) (next_outgoing_sequence_number s) (peer_max_ack_delay s)
    (last_ack_frequency_frame s) (local_max_ack_delay s).

Definition ack_frequency_on_acked (s : AckFrequencyState) (pn : Z) : AckFrequencyState :=
  match in_flight_ack_frequency_frame s with
  | Some (number, requested_max_ack_delay) =>
      if number =? pn
      then mkAckFrequencyState None (next_outgoing_sequence_number s) requested_max_ack_delay (last_ack_frequency_frame s)
             (local_max_ack_delay s)
      else s
  | None => s
  end.

Definition ack_frequency_received (s : AckFrequencyState) (frame : AckFrequency) (pending_acks : PendingAcks)
    : result TransportError bool * AckFrequencyState * PendingAcks :=
  let sequence := into_inner (af_sequence frame) in
  if match last_ack_frequency_frame s with Some highest => sequence <=? highest | None => false end
  then (Ok false, s, pending_acks)
  else
    let with_delay d :=
      mkAckFrequencyState (in_flight_ack_frequency_frame s) (next_outgoing_sequence_number s) (peer_max_ack_delay s)
        (Some sequence) d in
    let max_ack_delay := from_micros (into_inner (af_request_max_ack_delay frame)) in
    if max_ack_delay <? TIMER_GRANULARITY
    then (Err (mkTransportError PROTOCOL_VIOLATION), with_delay (local_max_ack_delay s), pending_acks)
    else (Ok true, with_delay max_ack_delay, set_ack_frequency_params pending_acks frame).

(** * Lemmas *)

(** The requested delay lies between what the peer can do and the round-trip time, when these are ordered. *)
Lemma candidate_max_ack_delay_ok s rtt config p :
  from_micros (default 0 (min_ack_delay p)) <= Z.max rtt MIN_AUTOMATIC_ACK_DELAY →
  ∃ d, candidate_max_ack_delay s rtt config p = Ret d ∧
    from_micros (default 0 (min_ack_delay p)) <= d <= Z.max rtt MIN_AUTOMATIC_ACK_DELAY.
Proof.
  intros Hle. unfold candidate_max_ack_delay, clamp, rassert.
  destruct (Z.leb_spec (from_micros (default 0 (min_ack_delay p))) (Z.max rtt MIN_AUTOMATIC_ACK_DELAY)); [|lia].
  eexists. split; [reflexivity|]. lia.
Qed.

(** A peer whose parameters are legal can announce a [min_ack_delay] above the round-trip time; the request for an ACK
    frequency then panics in [clamp]. *)
Lemma min_ack_delay_panics :
  let p := set_min_ack_delay (set_max_ack_delay TransportParameters_default 100) (Some 100000) in
  illegal Client p = false ∧
  candidate_max_ack_delay (AckFrequencyState_new (from_micros 100000)) (50 * 10 ^ 6)
    (mkAckFrequencyConfig (mkVarInt 1) None (mkVarInt 2)) p = Panic.
Proof. by vm_compute. Qed.

(** A stale frame changes nothing; a fresh one is refused exactly when it asks for less than the timer granularity, and
    otherwise sets the delay and the thresholds. *)
Lemma ack_frequency_received_spec s frame acks :
  let fresh := match last_ack_frequency_frame s with Some h => h < into_inner (af_sequence frame) | None => True end in
  let d := from_micros (into_inner (af_request_max_ack_delay frame)) in
  let '(r, s', acks') := ack_frequency_received s frame acks in
  (¬ fresh → r = Ok false ∧ s' = s ∧ acks' = acks) ∧
  (fresh → last_ack_frequency_frame s' = Some (into_inner (af_sequence frame)) ∧
    (d < TIMER_GRANULARITY → r = Err (mkTransportError PROTOCOL_VIOLATION) ∧ acks' = acks ∧
       local_max_ack_delay s' = local_max_ack_delay s) ∧
    (TIMER_GRANULARITY <= d → r = Ok true ∧ local_max_ack_delay s' = d ∧ acks' = set_ack_frequency_params acks frame)).
Proof.
  cbv zeta. unfold ack_frequency_received. set (q := into_inner (af_sequence frame)).
  set (stale := match last_ack_frequency_frame s with Some h => q <=? h | None => false end).
  assert (Hst : if stale then ¬ match last_ack_frequency_frame s with Some h => h < q | None => True end
                else match last_ack_frequency_frame s with Some h => h < q | None => True end).
  { unfold stale. destruct (last_ack_frequency_frame s) as [h|]; [|done]. destruct (Z.leb_spec q h); lia. }
  destruct stale; [by split; intros|].
  destruct (Z.ltb_spec (from_micros (into_inner (af_request_max_ack_delay frame))) TIMER_GRANULARITY); cbn;
    (split; [done|]); intros _; (split; [done|]); split; intros; done || lia.
Qed.
