(* ===== verification/Rtt.v ===== *)
(** The round-trip time estimator, [RttEstimator] of [quic-proto/src/connection/paths.rs].  Durations are in
    nanoseconds. *)
From S2P Require Import Prelude AckFrequency.
Open Scope Z_scope.

Record RttEstimator : Type := mkRttEstimator {
  rtt_latest : Z;
  rtt_smoothed : option Z;
  rtt_var : Z;
  rtt_min : Z
}.

Definition RttEstimator_new (initial_rtt : Z) : RttEstimator :=
  mkRttEstimator initial_rtt None (initial_rtt / 2) initial_rtt.

Definition rtt_get (r : RttEstimator) : Z := default (rtt_latest r) (rtt_smoothed r).

Definition rtt_conservative (r : RttEstimator) : Z := Z.max (rtt_get r) (rtt_latest r).

Definition pto_base (r : RttEstimator) : Z := rtt_get r + Z.max (4 * rtt_var r) TIMER_GRANULARITY.

Definition rtt_update (r : RttEstimator) (ack_delay rtt : Z) : RttEstimator :=
  let latest := rtt in
  let min := Z.min (rtt_min r) latest in
  match rtt_smoothed r with
  | Some smoothed =>
      let adjusted_rtt := if min + ack_delay <=? latest then latest - ack_delay else latest in
      let var_sample := Z.abs (smoothed - adjusted_rtt) in
      mkRttEstimator latest (Some ((7 * smoothed + adjusted_rtt) / 8)) ((3 * rtt_var r + var_sample) / 4) min
  | None => mkRttEstimator latest (Some latest) (latest / 2) latest
  end.

(** * Lemmas *)

(** The samples an estimator is given: the acknowledgement delay the peer reported and the measured time. *)
Definition rtt_run (r : RttEstimator) (samples : list (Z * Z)) : RttEstimator :=
  foldl (fun r s => rtt_update r s.1 s.2) r samples.

(** The estimate lies between the least and the greatest measurement, and the variation is at most their distance
    once past the first measurement's half. *)
Record rtt_ok (lo hi : Z) (r : RttEstimator) : Prop := {
  rtt_ok_latest : lo <= rtt_latest r <= hi;
  rtt_ok_min : lo <= rtt_min r <= rtt_latest r;
  rtt_ok_smoothed : ∀ s, rtt_smoothed r = Some s → rtt_min r <= s <= hi;
  rtt_ok_var : 0 <= rtt_var r <= hi
}.

Lemma rtt_update_ok lo hi r d t :
  0 <= lo → rtt_ok lo hi r → 0 <= d → lo <= t <= hi → rtt_ok lo hi (rtt_update r d t).
Proof.
  intros Hlo [Hl Hm Hs Hv] Hd Ht. unfold rtt_update. destruct (rtt_smoothed r) as [s|] eqn:Es.
  - specialize (Hs s eq_refl). set (min := Z.min (rtt_min r) t).
    set (adj := if min + d <=? t then t - d else t).
    assert (Hadj : min <= adj <= hi) by (unfold adj, min; destruct (Z.leb_spec (Z.min (rtt_min r) t + d) t); lia).
    constructor; cbn [rtt_latest rtt_min rtt_smoothed rtt_var]; [lia|unfold min; lia| |].
    + intros s' [= <-]. split; [apply Z.div_le_lower_bound; lia|]. apply Z.div_le_upper_bound; lia.
    + split; [apply Z.div_pos; lia|]. apply Z.div_le_upper_bound; [lia|]. unfold min in *. lia.
  - constructor; cbn; [lia|lia| |].
    + intros s' [= <-]. lia.
    + split; [apply Z.div_pos; lia|]. apply Z.div_le_upper_bound; lia.
Qed.

Lemma rtt_run_ok lo hi r l :
  0 <= lo → rtt_ok lo hi r → Forall (fun s => 0 <= s.1 ∧ lo <= s.2 <= hi) l → rtt_ok lo hi (rtt_run r l).
Proof.
  intros Hlo. revert r. induction l as [|[d t] l IH]; intros r Hr Hl; [done|].
  apply Forall_cons in Hl as [[Hd Ht] Hl]. apply IH; [by apply rtt_update_ok|done].
Qed.

(** * Property *)

(** Whatever delays the peer reports, the estimates stay within the measurements.  With the initial value and every
    measured time between [lo] and [hi], the smoothed time lies between the least measurement and [hi], the
    conservative time is the larger of the last two, and the probe timeout is at least the smoothed time plus the timer
    granularity and at most five times [hi] plus it. *)
Theorem rtt_estimates_bounded initial lo hi l :
  0 <= lo <= initial → initial <= hi → Forall (fun s => 0 <= s.1 ∧ lo <= s.2 <= hi) l →
  let r := rtt_run (RttEstimator_new initial) l in
  lo <= rtt_min r <= rtt_get r ∧ rtt_get r <= rtt_conservative r <= hi ∧
  rtt_get r + TIMER_GRANULARITY <= pto_base r <= 5 * hi + TIMER_GRANULARITY.
Proof.
  intros Hlo Hhi Hl r.
  assert (Hr : rtt_ok lo hi r).
  { apply rtt_run_ok; [lia| |done]. constructor; cbn; [lia|lia|done|].
    split; [apply Z.div_pos; lia|]. apply Z.div_le_upper_bound; lia. }
  destruct Hr as [Hlat Hmin Hs Hv]. assert (Hget : rtt_min r <= rtt_get r <= hi).
  { unfold rtt_get. destruct (rtt_smoothed r) as [s|]; cbn; [by apply Hs|lia]. }
  unfold rtt_conservative, pto_base, TIMER_GRANULARITY in *. lia.
Qed.

Lemma rtt_estimates_bounded_witness :
  let r := rtt_run (RttEstimator_new 333000000) [(1000000, 50000000); (25000000, 60000000); (0, 40000000)] in
  40000000 <= rtt_min r ∧ rtt_get r = 49843750 ∧ pto_base r <= 5 * 333000000 + TIMER_GRANULARITY.
Proof.
  destruct (rtt_estimates_bounded 333000000 40000000 333000000
    [(1000000, 50000000); (25000000, 60000000); (0, 40000000)]) as ((H1 & _) & _ & (_ & H3)); [lia|lia| |].
  { repeat (apply Forall_cons; split; [cbn; lia|]). by apply Forall_nil. }
  split; [exact H1|]. split; [by vm_compute|exact H3].
Defined.
