(* ===== verification/Congestion.v ===== *)
(** Congestion control: the interface of [quic-proto/src/congestion.rs], and its implementations
    [congestion/new_reno.rs] and [congestion/cubic.rs].

    [Controller] is the trait; [ControllerOk] is what the connection relies on: the window never falls below two
    datagrams, so that a packet can always be sent once nothing is in flight.  Both implementations are shown to provide
    it.  The cube root and the integer power
    of floating-point numbers are library functions, parameters of CUBIC. *)
From Stdlib Require Import SpecFloat.
From S2P Require Import Prelude AckFrequency Rtt Float.
Open Scope Z_scope.

Definition BASE_DATAGRAM_SIZE : Z := 1200.

Class Controller (C : Type) : Type := {
  on_sent : C → Z → Z → Z → M C;
  on_ack : C → Z → Z → Z → bool → RttEstimator → M C;
  on_end_acks : C → Z → Z → bool → option Z → M C;
  on_congestion_event : C → Z → Z → bool → bool → Z → M C;
  on_spurious_congestion_event : C → C;
  on_mtu_update : C → Z → C;
  window : C → Z;
  initial_window : C → Z
}.

(** What happens to a controller, with the arguments of the calls. *)
Inductive Notice : Type :=
| NSent (now bytes last_packet_number : Z)
| NAck (now sent bytes : Z) (app_limited : bool) (rtt : RttEstimator)
| NEndAcks (now in_flight : Z) (app_limited : bool) (largest : option Z)
| NCongestion (now sent : Z) (persistent ecn : bool) (lost_bytes : Z)
| NSpurious
| NMtu (new_mtu : Z).

Definition notify {C} `{Controller C} (c : C) (n : Notice) : M C :=
  match n with
  | NSent now bytes pn => on_sent c now bytes pn
  | NAck now sent bytes app_limited rtt => on_ack c now sent bytes app_limited rtt
  | NEndAcks now in_flight app_limited largest => on_end_acks c now in_flight app_limited largest
  | NCongestion now sent persistent ecn lost => on_congestion_event c now sent persistent ecn lost
  | NSpurious => mret (on_spurious_congestion_event c)
  | NMtu mtu => mret (on_mtu_update c mtu)
  end.

(** * NewReno *)

Record NewRenoConfig : Type := mkNewRenoConfig { nr_initial_window : Z; loss_reduction_factor : spec_float }.

Definition NewRenoConfig_default : NewRenoConfig :=
  mkNewRenoConfig (Z.min (Z.max 14720 (2 * BASE_DATAGRAM_SIZE)) (10 * BASE_DATAGRAM_SIZE)) (decimal f32 5 1).

Record NewReno : Type := mkNewReno {
  nr_config : NewRenoConfig;
  nr_current_mtu : Z;
  nr_window : Z;
  nr_ssthresh : Z;
  nr_recovery_start_time : Z;
  nr_bytes_acked : Z
}.

Definition NewReno_new (config : NewRenoConfig) (now current_mtu : Z) : NewReno :=
  mkNewReno config current_mtu (nr_initial_window config) u64_max now 0.

Definition nr_minimum_window (c : NewReno) : Z := 2 * nr_current_mtu c.

Definition nr_on_ack (c : NewReno) (now sent bytes : Z) (app_limited : bool) (rtt : RttEstimator) : M NewReno :=
  if app_limited || (sent <=? nr_recovery_start_time c) then mret c
  else if nr_window c <? nr_ssthresh c then
    window ← uadd (nr_window c) bytes;
    let bytes_acked := if nr_ssthresh c <=? window then window - nr_ssthresh c else nr_bytes_acked c in
    mret (mkNewReno (nr_config c) (nr_current_mtu c) window (nr_ssthresh c) (nr_recovery_start_time c) bytes_acked)
  else
    bytes_acked ← uadd (nr_bytes_acked c) bytes;
    if nr_window c <=? bytes_acked then
      window ← uadd (nr_window c) (nr_current_mtu c);
      mret (mkNewReno (nr_config c) (nr_current_mtu c) window (nr_ssthresh c) (nr_recovery_start_time c)
              (bytes_acked - nr_window c))
    else
      mret (mkNewReno (nr_config c) (nr_current_mtu c) (nr_window c) (nr_ssthresh c) (nr_recovery_start_time c) bytes_acked).

Definition nr_on_congestion_event (c : NewReno) (now sent : Z) (is_persistent_congestion is_ecn : bool) (lost_bytes : Z)
    : M NewReno :=
  if sent <=? nr_recovery_start_time c then mret c
  else
    let window := to_u64 (fmul f32 (of_int f32 (nr_window c)) (loss_reduction_factor (nr_config c))) in
    let window := Z.max window (nr_minimum_window c) in
    mret (mkNewReno (nr_config c) (nr_current_mtu c) (if is_persistent_congestion then nr_minimum_window c else window) window
            now (nr_bytes_acked c)).

Definition nr_on_mtu_update (c : NewReno) (new_mtu : Z) : NewReno :=
  mkNewReno (nr_config c) new_mtu (Z.max (nr_window c) (2 * new_mtu)) (nr_ssthresh c) (nr_recovery_start_time c)
    (nr_bytes_acked c).

#[global] Instance NewReno_Controller : Controller NewReno := {
  on_sent c _ _ _ := mret c;
  on_ack := nr_on_ack;
  on_end_acks c _ _ _ _ := mret c;
  on_congestion_event := nr_on_congestion_event;
  on_spurious_congestion_event c := c;
  on_mtu_update := nr_on_mtu_update;
  window := nr_window;
  initial_window c := nr_initial_window (nr_config c)
}.

(** * CUBIC *)

Section Cubic.
(** [f64::cbrt] and [f64::powi], whose precision the language leaves open. *)
Context (cbrt : spec_float → spec_float) (powi : spec_float → Z → spec_float).

Definition BETA_CUBIC : spec_float := decimal f64 7 1.
Definition CUBIC_C : spec_float := decimal f64 4 1.

Record CubicState : Type := mkCubicState {
  cu_k : spec_float;
  cu_w_max : spec_float;
  cu_cwnd_inc : Z;
  cu_window : Z;
  cu_ssthresh : Z;
  cu_recovery_start_time : option Z
}.

Record CubicConfig : Type := mkCubicConfig { cu_initial_window : Z }.

Definition CubicConfig_default : CubicConfig :=
  mkCubicConfig (Z.min (Z.max 14720 (2 * BASE_DATAGRAM_SIZE)) (10 * BASE_DATAGRAM_SIZE)).

Record Cubic : Type := mkCubic {
  cu_config : CubicConfig;
  cu_current_mtu : Z;
  cu_state : CubicState;
  cu_pre_congestion_state : option CubicState
}.

Definition f64_of (n : Z) : spec_float := of_int f64 n.

Definition cubic_k (s : CubicState) (max_datagram_size : Z) : spec_float :=
  let w_max := fdiv f64 (cu_w_max s) (f64_of max_datagram_size) in
  cbrt (fdiv f64 (fmul f64 w_max (fsub f64 (f64_of 1) BETA_CUBIC)) CUBIC_C).

Definition w_cubic (s : CubicState) (t max_datagram_size : Z) : spec_float :=
  let w_max := fdiv f64 (cu_w_max s) (f64_of max_datagram_size) in
  fmul f64 (fadd f64 (fmul f64 CUBIC_C (powi (fsub f64 (as_secs f64 t) (cu_k s)) 3)) w_max) (f64_of max_datagram_size).

Definition w_est (s : CubicState) (t rtt max_datagram_size : Z) : spec_float :=
  let w_max := fdiv f64 (cu_w_max s) (f64_of max_datagram_size) in
  let one := f64_of 1 in
  let slope := fdiv f64 (fmul f64 (f64_of 3) (fsub f64 one BETA_CUBIC)) (fadd f64 one BETA_CUBIC) in
  fmul f64 (fadd f64 (fmul f64 w_max BETA_CUBIC) (fdiv f64 (fmul f64 slope (as_secs f64 t)) (as_secs f64 rtt)))
    (f64_of max_datagram_size).

Definition Cubic_new (config : CubicConfig) (now current_mtu : Z) : Cubic :=
  mkCubic config current_mtu (mkCubicState (S754_zero false) (S754_zero false) 0 (cu_initial_window config) u64_max None) None.

Definition cu_minimum_window (c : Cubic) : Z := 2 * cu_current_mtu c.

Definition with_state (c : Cubic) (s : CubicState) : Cubic :=
  mkCubic (cu_config c) (cu_current_mtu c) s (cu_pre_congestion_state c).

(** [now - ca_start_time] saturates at zero. *)
Definition cu_on_ack (c : Cubic) (now sent bytes : Z) (app_limited : bool) (rtt : RttEstimator) : M Cubic :=
  let s := cu_state c in
  if app_limited || match cu_recovery_start_time s with Some t => sent <=? t | None => false end then mret c
  else if cu_window s <? cu_ssthresh s then
    window ← uadd (cu_window s) bytes;
    mret (with_state c (mkCubicState (cu_k s) (cu_w_max s) (cu_cwnd_inc s) window (cu_ssthresh s) (cu_recovery_start_time s)))
  else
    let '(ca_start_time, s) :=
      match cu_recovery_start_time s with
      | Some t => (t, s)
      | None =>
          (now, mkCubicState (S754_zero false) (f64_of (cu_window s)) (cu_cwnd_inc s) (cu_window s) (cu_ssthresh s) (Some now))
      end in
    let t := Z.max 0 (now - ca_start_time) in
    let w_cubic := w_cubic s (t + rtt_get rtt) (cu_current_mtu c) in
    let w_est := w_est s t (rtt_get rtt) (cu_current_mtu c) in
    let cubic_cwnd := cu_window s in
    cubic_cwnd ←
      (if SFltb w_cubic w_est then mret (Z.max cubic_cwnd (to_u64 w_est))
       else if cubic_cwnd <? to_u64 w_cubic then
         let cubic_inc :=
           fmul f64 (fdiv f64 (fsub f64 w_cubic (f64_of cubic_cwnd)) (f64_of cubic_cwnd)) (f64_of (cu_current_mtu c)) in
         uadd cubic_cwnd (to_u64 cubic_inc)
       else mret cubic_cwnd);
    cwnd_inc ← uadd (cu_cwnd_inc s) (cubic_cwnd - cu_window s);
    if cu_current_mtu c <=? cwnd_inc then
      window ← uadd (cu_window s) (cu_current_mtu c);
      mret (with_state c (mkCubicState (cu_k s) (cu_w_max s) 0 window (cu_ssthresh s) (cu_recovery_start_time s)))
    else
      mret (with_state c (mkCubicState (cu_k s) (cu_w_max s) cwnd_inc (cu_window s) (cu_ssthresh s) (cu_recovery_start_time s))).

Definition cu_on_congestion_event (c : Cubic) (now sent : Z) (is_persistent_congestion is_ecn : bool) (lost_bytes : Z)
    : M Cubic :=
  let s := cu_state c in
  if match cu_recovery_start_time s with Some t => sent <=? t | None => false end then mret c
  else
    let pre := if is_ecn then cu_pre_congestion_state c else Some s in
    let w_max :=
      if SFltb (f64_of (cu_window s)) (cu_w_max s)
      then fdiv f64 (fmul f64 (f64_of (cu_window s)) (fadd f64 (f64_of 1) BETA_CUBIC)) (f64_of 2)
      else f64_of (cu_window s) in
    let ssthresh := Z.max (to_u64 (fmul f64 w_max BETA_CUBIC)) (cu_minimum_window c) in
    let cwnd_inc := to_u64 (fmul f64 (f64_of (cu_cwnd_inc s)) BETA_CUBIC) in
    let s := mkCubicState (cu_k s) w_max (cu_cwnd_inc s) ssthresh ssthresh (Some now) in
    let s := mkCubicState (cubic_k s (cu_current_mtu c)) w_max cwnd_inc ssthresh ssthresh (Some now) in
    let s :=
      if is_persistent_congestion then
        mkCubicState (cu_k s) (f64_of (cu_window s)) 0 (cu_minimum_window c)
          (Z.max (to_u64 (fmul f64 (f64_of (cu_window s)) BETA_CUBIC)) (cu_minimum_window c)) None
      else s in
    mret (mkCubic (cu_config c) (cu_current_mtu c) s pre).

Definition cu_on_spurious_congestion_event (c : Cubic) : Cubic :=
  match cu_pre_congestion_state c with
  | Some prior_state =>
      mkCubic (cu_config c) (cu_current_mtu c)
        (if cu_window (cu_state c) <? cu_window prior_state then prior_state else cu_state c) None
  | None => c
  end.

Definition cu_on_mtu_update (c : Cubic) (new_mtu : Z) : Cubic :=
  let s := cu_state c in
  mkCubic (cu_config c) new_mtu
    (mkCubicState (cu_k s) (cu_w_max s) (cu_cwnd_inc s) (Z.max (cu_window s) (2 * new_mtu)) (cu_ssthresh s)
       (cu_recovery_start_time s))
    (cu_pre_congestion_state c).

#[global] Instance Cubic_Controller : Controller Cubic := {
  on_sent c _ _ _ := mret c;
  on_ack := cu_on_ack;
  on_end_acks c _ _ _ _ := mret c;
  on_congestion_event := cu_on_congestion_event;
  on_spurious_congestion_event := cu_on_spurious_congestion_event;
  on_mtu_update := cu_on_mtu_update;
  window c := cu_window (cu_state c);
  initial_window c := cu_initial_window (cu_config c)
}.
End Cubic.

(** * What the connection relies on *)

Definition mtu_after (mtu : Z) (n : Notice) : Z := match n with NMtu m => m | _ => mtu end.

(** Byte counts and sizes are not negative. *)
Definition notice_ok (n : Notice) : Prop :=
  match n with NAck _ _ bytes _ _ => 0 <= bytes | NMtu m => 0 <= m | _ => True end.

Class ControllerOk (C : Type) `{Controller C} : Type := {
  c_mtu : C → Z;
  c_inv : C → Prop;
  c_window c : c_inv c → 2 * c_mtu c <= window c;
  c_notify c n c' : c_inv c → notice_ok n → notify c n = Ret c' → c_inv c' ∧ c_mtu c' = mtu_after (c_mtu c) n
}.

Definition nr_inv (c : NewReno) : Prop :=
  0 <= nr_current_mtu c ∧ 2 * nr_current_mtu c <= nr_window c ∧ 0 <= nr_bytes_acked c.

Lemma nr_notify c n c' :
  nr_inv c → notice_ok n → notify c n = Ret c' → nr_inv c' ∧ nr_current_mtu c' = mtu_after (nr_current_mtu c) n.
Proof.
  intros (Hm & Hw & Hb) Hn.
  destruct n as [| now sent bytes app rtt | | now sent pers ecn lost | | m]; cbn; try (intros [= <-]; done).
  - cbn in Hn. unfold nr_on_ack, nr_inv. destruct (_ || _); [by intros [= <-]|].
    destruct (nr_window c <? nr_ssthresh c); intros Hr; inv_M.
    + apply uadd_inv in Ha as [-> _]. cbn. destruct (Z.leb_spec (nr_ssthresh c) (nr_window c + bytes)); lia.
    + apply uadd_inv in Ha as [-> _]. destruct (Z.leb_spec (nr_window c) (nr_bytes_acked c + bytes)); inv_M.
      * apply uadd_inv in Ha as [-> _]. cbn. lia.
      * cbn. lia.
  - unfold nr_on_congestion_event, nr_inv, nr_minimum_window. destruct (_ <=? _); intros [= <-]; [done|].
    cbn. destruct pers; lia.
  - intros [= <-]. cbn in Hn. unfold nr_inv. cbn. lia.
Qed.

Lemma nr_window_floor c : nr_inv c → 2 * nr_current_mtu c <= window c.
Proof. by intros (_ & Hw & _). Qed.

#[global] Instance NewReno_Ok : ControllerOk NewReno := {
  c_mtu := nr_current_mtu; c_inv := nr_inv; c_window := nr_window_floor; c_notify := nr_notify
}.

Section CubicOk.
Context (cbrt : spec_float → spec_float) (powi : spec_float → Z → spec_float).
#[local] Existing Instance Cubic_Controller.

Definition cu_inv (c : Cubic) : Prop := 0 <= cu_current_mtu c ∧ 2 * cu_current_mtu c <= cu_window (cu_state c).

Lemma cu_window_floor c : cu_inv c → 2 * cu_current_mtu c <= window (Controller := Cubic_Controller cbrt powi) c.
Proof. by intros (_ & Hw). Qed.

(** The window an acknowledgement leaves is the old one or larger. *)
Lemma cu_on_ack_grows c now sent bytes app rtt c' :
  0 <= cu_current_mtu c → 0 <= bytes → cu_on_ack powi c now sent bytes app rtt = Ret c' →
  cu_current_mtu c' = cu_current_mtu c ∧ cu_window (cu_state c) <= cu_window (cu_state c').
Proof.
  intros Hm Hb. unfold cu_on_ack. destruct (_ || _); [intros [= <-]; split; [done|lia]|].
  destruct (_ <? _); intros Hr; inv_M; [apply uadd_inv in Ha as [-> _]; cbn; split; [done|lia]|].
  set (x := match cu_recovery_start_time (cu_state c) with Some t => _ | None => _ end) in Hr.
  assert (Hx : cu_window x.2 = cu_window (cu_state c)) by (unfold x; by destruct (cu_recovery_start_time (cu_state c))).
  clearbody x. destruct x as [start s]. cbn in Hx. inv_M. destruct (_ <=? _) in Hr; inv_M; cbn; rewrite <- Hx.
  - apply uadd_inv in Ha1 as [-> _]. split; [done|lia].
  - split; [done|lia].
Qed.

Lemma cu_notify c n c' :
  cu_inv c → notice_ok n → notify (H := Cubic_Controller cbrt powi) c n = Ret c' →
  cu_inv c' ∧ cu_current_mtu c' = mtu_after (cu_current_mtu c) n.
Proof.
  intros (Hm & Hw) Hn.
  destruct n as [| now sent bytes app rtt | | now sent pers ecn lost | | m]; cbn; try (intros [= <-]; done).
  - cbn in Hn. intros [Hmtu Hwin]%cu_on_ack_grows; [|done..]. unfold cu_inv. lia.
  - unfold cu_on_congestion_event, cu_inv, cu_minimum_window.
    destruct (match cu_recovery_start_time (cu_state c) with Some t => _ | None => _ end); intros [= <-]; [done|].
    destruct pers; cbn; lia.
  - intros [= <-]. unfold cu_on_spurious_congestion_event, cu_inv.
    destruct (cu_pre_congestion_state c) as [prior|]; [|done]. cbn.
    destruct (Z.ltb_spec (cu_window (cu_state c)) (cu_window prior)); lia.
  - intros [= <-]. cbn in Hn. unfold cu_inv. cbn. lia.
Qed.

Definition Cubic_Ok : @ControllerOk Cubic (Cubic_Controller cbrt powi) :=
  @Build_ControllerOk Cubic (Cubic_Controller cbrt powi) cu_current_mtu cu_inv cu_window_floor cu_notify.
End CubicOk.

(** * NewReno's behaviour *)

(** A notice that keeps the counters of [c] in their machine words. *)
Definition nr_fits (c : NewReno) (n : Notice) : Prop :=
  notice_ok n ∧
  match n with
  | NAck _ _ bytes _ _ =>
      nr_window c + bytes <= u64_max ∧ nr_bytes_acked c + bytes <= u64_max ∧ nr_window c + nr_current_mtu c <= u64_max
  | _ => True
  end.

(** What one notice does to the window, the threshold and the start of the recovery period. *)
Definition nr_effect (c : NewReno) (n : Notice) (c' : NewReno) : Prop :=
  match n with
  | NAck _ sent bytes app_limited _ =>
      nr_ssthresh c' = nr_ssthresh c ∧ nr_recovery_start_time c' = nr_recovery_start_time c ∧
      nr_window c' =
        if app_limited || (sent <=? nr_recovery_start_time c) then nr_window c
        else if nr_window c <? nr_ssthresh c then nr_window c + bytes
        else if nr_window c <=? nr_bytes_acked c + bytes then nr_window c + nr_current_mtu c
        else nr_window c
  | NCongestion now sent persistent _ _ =>
      if sent <=? nr_recovery_start_time c then c' = c
      else nr_recovery_start_time c' = now ∧ 2 * nr_current_mtu c <= nr_ssthresh c' ∧
           nr_window c' = if persistent then 2 * nr_current_mtu c else nr_ssthresh c'
  | NMtu m => nr_window c' = Z.max (nr_window c) (2 * m) ∧ nr_recovery_start_time c' = nr_recovery_start_time c
  | _ => c' = c
  end.

(** NewReno never panics on a notice that fits its counters and does what the specification says: it ignores
    acknowledgements of application-limited packets and of packets sent before the recovery period, adds the acknowledged
    bytes in slow start and one datagram per window afterwards; a loss of a packet sent before the
    recovery period changes nothing, any other one starts a new period and reduces the window, to two datagrams under
    persistent congestion; and the window never falls below two datagrams. *)
Theorem new_reno_correct c n :
  nr_inv c → nr_fits c n →
  ∃ c', notify c n = Ret c' ∧ nr_effect c n c' ∧ 2 * mtu_after (nr_current_mtu c) n <= window c'.
Proof.
  intros Hc [Hn Hfit]. assert (Hgoal : ∃ c', notify c n = Ret c' ∧ nr_effect c n c').
  { destruct n as [| now sent bytes app rtt | | now sent pers ecn lost | | m]; cbn; try (by eexists).
    - unfold nr_on_ack. destruct (app || (sent <=? nr_recovery_start_time c)); [by eexists|]. destruct Hfit as (H1 & H2 & H3).
      destruct (nr_window c <? nr_ssthresh c); [rewrite (uadd_ok (nr_window c) bytes) by done; by eexists|].
      rewrite (uadd_ok (nr_bytes_acked c) bytes) by done. cbn [mbind M_bind].
      destruct (nr_window c <=? nr_bytes_acked c + bytes); [|by eexists].
      rewrite (uadd_ok (nr_window c) (nr_current_mtu c)) by done. by eexists.
    - unfold nr_on_congestion_event. destruct (sent <=? nr_recovery_start_time c); [by eexists|]. eexists. split; [reflexivity|].
      cbn. unfold nr_minimum_window. split; [done|]. split; [lia|]. by destruct pers. }
  destruct Hgoal as (c' & Hr & He). exists c'. split; [done|]. split; [done|].
  destruct (nr_notify c n c' Hc Hn Hr) as [Hc' <-]. by apply nr_window_floor.
Qed.

Lemma new_reno_correct_witness :
  let c := NewReno_new NewRenoConfig_default 0 1200 in
  ∃ c', notify c (NCongestion 200 100 false false 1200) = Ret c' ∧ nr_window c' = 6000 ∧ 2400 <= window c'.
Proof.
  intros c. destruct (new_reno_correct c (NCongestion 200 100 false false 1200)) as (c' & Hr & He & Hw).
  - split; [done|]. by vm_compute.
  - done.
  - exists c'. split; [done|]. split; [|exact Hw]. vm_compute in Hr. injection Hr as <-. by vm_compute.
Defined.

(** CUBIC's increment is converted with saturation and then added under overflow checks: twelve days after the last
    congestion event, the first acknowledgement that is not application-limited overflows the sum, whatever the cube
    root, with the power computed by multiplication. *)
Lemma cubic_overflows_after_idle cbrt :
  let powi x n := if n =? 3 then fmul f64 (fmul f64 x x) x else x in
  let idle := mkCubic CubicConfig_default 1200 (mkCubicState (S754_zero false) (f64_of 14720) 0 14720 14720 (Some 0)) None in
  let twelve_days := 12 * 24 * 3600 * 10 ^ 9 in
  notify (H := Cubic_Controller cbrt powi) idle
    (NAck (twelve_days + 50 * 10 ^ 6) twelve_days 1200 false (mkRttEstimator (50 * 10 ^ 6) None (25 * 10 ^ 6) (50 * 10 ^ 6))) =
  Panic.
Proof. by vm_compute. Qed.
