(* ===== verification/Pacing.v ===== *)
(** Pacing of transmissions, a token bucket: [quic-proto/src/connection/pacing.rs].  Times are in nanoseconds. *)
From Stdlib Require Import SpecFloat.
From S2P Require Import Prelude AckFrequency Float.
Open Scope Z_scope.

Definition TARGET_BURST_INTERVAL : Z := 2 * 10 ^ 6.
Definition MAX_BURST_INTERVAL : Z := 10 * 10 ^ 6.
Definition MIN_BURST_SIZE : Z := 10.
Definition MAX_BURST_SIZE : Z := 256.

Record Pacer : Type := mkPacer {
  pc_capacity : Z;
  pc_last_window : Z;
  pc_last_mtu : Z;
  pc_tokens : Z;
  pc_max_bytes_per_second : option Z;
  pc_prev : Z
}.

(** [x as u64] of a wider integer. *)
Definition as_u64 (x : Z) : Z := x mod 2 ^ 64.

Definition optimal_capacity (smoothed_rtt window mtu : Z) : M Z :=
  let rtt := Z.max smoothed_rtt 1 in
  let target_capacity := as_u64 (window * TARGET_BURST_INTERVAL / rtt) in
  let max_capacity := Z.max (as_u64 (window * MAX_BURST_INTERVAL / rtt)) mtu in
  c ← clamp target_capacity (MIN_BURST_SIZE * mtu) (MAX_BURST_SIZE * mtu);
  mret (Z.min max_capacity c).

Definition rate_limited_window (smoothed_rtt window : Z) (max_bytes_per_second : option Z) : Z :=
  match max_bytes_per_second with
  | None => window
  | Some max_bytes_per_second =>
      let rate_window := fmul f64 (of_int f64 max_bytes_per_second) (as_secs f64 smoothed_rtt) in
      let adjusted_rate_window := fround f64 (fdiv f64 rate_window (decimal f64 125 2)) in
      Z.min window (Z.max (to_u64 adjusted_rate_window) 1)
  end.

Definition Pacer_new (smoothed_rtt window mtu : Z) (max_bytes_per_second : option Z) (now : Z) : M Pacer :=
  let window := rate_limited_window smoothed_rtt window max_bytes_per_second in
  capacity ← optimal_capacity smoothed_rtt window mtu;
  mret (mkPacer capacity window mtu capacity max_bytes_per_second now).

Definition on_transmit (p : Pacer) (packet_length : Z) : Pacer :=
  mkPacer (pc_capacity p) (pc_last_window p) (pc_last_mtu p) (sat_sub (pc_tokens p) packet_length) (pc_max_bytes_per_second p)
    (pc_prev p).

(** The part of [delay] that follows a change of the window or of the MTU. *)
Definition resize (p : Pacer) (smoothed_rtt mtu window : Z) : M Pacer :=
  if (window =? pc_last_window p) && (mtu =? pc_last_mtu p) then mret p
  else
    capacity ← optimal_capacity smoothed_rtt window mtu;
    mret (mkPacer capacity window mtu (Z.min capacity (pc_tokens p)) (pc_max_bytes_per_second p) (pc_prev p)).

(** [Duration::MAX]. *)
Definition DURATION_MAX : Z := (2 ^ 64 - 1) * NANOS_PER_SEC + 999999999.

(** [d.checked_mul(k as u32).unwrap_or(Duration::MAX) / window]. *)
Definition unscaled_delay (smoothed_rtt k window : Z) : M Z :=
  _ ← rassert (negb (window =? 0));
  let d := smoothed_rtt * (k mod 2 ^ 32) in
  mret ((if d <=? DURATION_MAX then d else DURATION_MAX) / window).

Definition pacer_delay (p : Pacer) (smoothed_rtt bytes_to_send mtu window now : Z) : M (option Z * Pacer) :=
  _ ← rassert (negb (window =? 0));
  let window := rate_limited_window smoothed_rtt window (pc_max_bytes_per_second p) in
  p ← resize p smoothed_rtt mtu window;
  if bytes_to_send <=? pc_tokens p then mret (None, p)
  else if u32_max <? window then mret (None, p)
  else
    let time_elapsed := Z.max 0 (now - pc_prev p) in
    if smoothed_rtt =? 0 then mret (None, p)
    else
      let elapsed_rtts := fdiv f64 (as_secs f64 time_elapsed) (as_secs f64 smoothed_rtt) in
      let new_tokens := to_u64 (fround f64 (fmul f64 (fmul f64 (of_int f64 window) (decimal f64 125 2)) elapsed_rtts)) in
      let tokens := Z.min (sat_add (pc_tokens p) new_tokens) (pc_capacity p) in
      let p := mkPacer (pc_capacity p) (pc_last_window p) (pc_last_mtu p) tokens (pc_max_bytes_per_second p)
                 (if 0 <? new_tokens then now else pc_prev p) in
      if bytes_to_send <=? tokens then mret (None, p)
      else
        d ← unscaled_delay smoothed_rtt (Z.max bytes_to_send (pc_capacity p) - tokens) window;
        mret (Some (now + d / 5 * 4), p).

(** * Lemmas *)

Lemma optimal_capacity_ok rtt window mtu :
  0 <= mtu → ∃ c, optimal_capacity rtt window mtu = Ret c ∧ mtu <= c <= MAX_BURST_SIZE * mtu.
Proof.
  intros Hm. unfold optimal_capacity, clamp, rassert, MIN_BURST_SIZE, MAX_BURST_SIZE.
  destruct (Z.leb_spec (10 * mtu) (256 * mtu)); [|lia]. cbn [mbind M_bind]. eexists. split; [reflexivity|]. lia.
Qed.

Lemma rate_limited_window_pos rtt window m : 0 < window → 0 < rate_limited_window rtt window m <= window.
Proof. intros Hw. unfold rate_limited_window. destruct m; lia. Qed.

(** Between an MTU and 256 of them are sent in one burst, and the bucket never overflows. *)
Definition pacer_ok (p : Pacer) : Prop :=
  0 <= pc_last_mtu p ∧ pc_last_mtu p <= pc_capacity p <= MAX_BURST_SIZE * pc_last_mtu p ∧ 0 <= pc_tokens p <= pc_capacity p.

Lemma resize_ok p rtt mtu w : pacer_ok p → 0 <= mtu → ∃ p', resize p rtt mtu w = Ret p' ∧ pacer_ok p' ∧ pc_last_mtu p' = mtu.
Proof.
  intros (Hm & Hc & Ht) Hmtu. unfold resize. destruct (Z.eqb_spec w (pc_last_window p)); [destruct (Z.eqb_spec mtu (pc_last_mtu p))|].
  { exists p. split; [done|]. by split. }
  all: cbn [andb]; destruct (optimal_capacity_ok rtt w mtu Hmtu) as (c & -> & Hcc); eexists; split; [reflexivity|];
    unfold pacer_ok; cbn; lia.
Qed.

Lemma on_transmit_ok p n : pacer_ok p → 0 <= n → pacer_ok (on_transmit p n).
Proof. intros (? & ? & ?) Hn. unfold pacer_ok, on_transmit, sat_sub. cbn. zcases; lia. Qed.

(** * Property *)


