(* ===== verification/Datagrams.v ===== *)
(** Unreliable datagrams: [quic-proto/src/connection/datagrams.rs].

    [Datagrams::send] reads the connection's configuration and its [max_size]; these are arguments of [send_datagram]. *)
From S2P Require Import Prelude Coding Ids Frame FrameTheorems.
Open Scope Z_scope.

Record DatagramState : Type := mkDatagramState {
  recv_buffered : Z;
  incoming : list Datagram;
  outgoing : list Datagram;
  outgoing_total : Z;
  send_blocked : bool
}.

Definition DatagramState_default : DatagramState := mkDatagramState 0 [] [] 0 false.

Inductive SendDatagramError : Type := UnsupportedByPeer | Disabled | TooLarge | Blocked (data : list Z).

Definition dlen (d : Datagram) : Z := len (dg_data d).

Definition recv_datagram (s : DatagramState) : M (option (list Z) * DatagramState) :=
  match incoming s with
  | [] => mret (None, s)
  | x :: rest =>
      n ← usub (recv_buffered s) (dlen x);
      mret (Some (dg_data x), mkDatagramState n rest (outgoing s) (outgoing_total s) (send_blocked s))
  end.

(** The loop that drops stale datagrams.  Each turn removes one; with none left and too much buffered the source would
    turn for ever, which is [Panic] here. *)
Fixpoint drop_stale (fuel : nat) (s : DatagramState) (n window : Z) : M DatagramState :=
  if window <? n + recv_buffered s then
    match fuel with
    | O => Panic
    | S fuel => '(_, s) ← recv_datagram s; drop_stale fuel s n window
    end
  else mret s.

Definition datagram_received (s : DatagramState) (datagram : Datagram) (window : option Z)
    : M (result TransportError bool * DatagramState) :=
  match window with
  | None => mret (Err (mkTransportError PROTOCOL_VIOLATION), s)
  | Some window =>
      if window <? dlen datagram then mret (Err (mkTransportError PROTOCOL_VIOLATION), s)
      else
        let was_empty := recv_buffered s =? 0 in
        s ← drop_stale (length (incoming s)) s (dlen datagram) window;
        n ← uadd (recv_buffered s) (dlen datagram);
        mret (Ok was_empty, mkDatagramState n (incoming s ++ [datagram]) (outgoing s) (outgoing_total s) (send_blocked s))
  end.

(** [VecDeque::retain]: the datagrams kept, the new total and whether any was dropped. *)
Fixpoint retain_small (l : list Datagram) (max_payload total : Z) : M (list Datagram * Z * bool) :=
  match l with
  | [] => mret ([], total, false)
  | d :: l =>
      if dlen d <? max_payload then
        '(kept, total, any) ← retain_small l max_payload total; mret (d :: kept, total, any)
      else
        total ← usub total (dlen d);
        '(kept, total, _) ← retain_small l max_payload total; mret (kept, total, true)
  end.

Definition drop_oversized (s : DatagramState) (max_payload : Z) : M (bool * DatagramState) :=
  '(kept, total, any) ← retain_small (outgoing s) max_payload (outgoing_total s);
  mret (any, mkDatagramState (recv_buffered s) (incoming s) kept total (send_blocked s)).

(** Besides the result, the buffer with the frame appended. *)
Definition datagram_write (s : DatagramState) (buf : list Z) (max_size : Z) : M (bool * list Z * DatagramState) :=
  match outgoing s with
  | [] => mret (false, buf, s)
  | d :: rest =>
      n ← Datagram_size d true;
      if max_size <? len buf + n then mret (false, buf, s)
      else
        total ← usub (outgoing_total s) (dlen d);
        bs ← Datagram_encode d true;
        mret (true, buf ++ bs, mkDatagramState (recv_buffered s) (incoming s) rest total (send_blocked s))
  end.

(** The loop of [send] that makes room. *)
Fixpoint drop_oldest (out : list Datagram) (total limit : Z) : M (list Datagram * Z) :=
  if limit <? total then
    match out with
    | [] => Panic
    | prev :: out => total ← usub total (dlen prev); drop_oldest out total limit
    end
  else mret (out, total).

Definition send_datagram (s : DatagramState) (enabled : bool) (max_size : option Z) (send_buffer_size : Z) (data : list Z)
    (drop : bool) : M (result SendDatagramError unit * DatagramState) :=
  if negb enabled then mret (Err Disabled, s)
  else
    match max_size with
    | None => mret (Err UnsupportedByPeer, s)
    | Some max =>
        if max <? len data then mret (Err TooLarge, s)
        else
          let push (out : list Datagram) (total : Z) :=
            total ← uadd total (len data);
            mret (Ok tt, mkDatagramState (recv_buffered s) (incoming s) (out ++ [mkDatagram data]) total (send_blocked s)) in
          if drop then '(out, total) ← drop_oldest (outgoing s) (outgoing_total s) send_buffer_size; push out total
          else
            total ← uadd (outgoing_total s) (len data);
            if send_buffer_size <? total
            then mret (Err (Blocked data), mkDatagramState (recv_buffered s) (incoming s) (outgoing s) (outgoing_total s) true)
            else push (outgoing s) (outgoing_total s)
    end.

Definition send_buffer_space (s : DatagramState) (send_buffer_size : Z) : Z := sat_sub send_buffer_size (outgoing_total s).

(** * Lemmas *)

Fixpoint total (l : list Datagram) : Z := match l with [] => 0 | d :: l => dlen d + total l end.

Lemma total_nonneg l : 0 <= total l.
Proof. induction l as [|d l IH]; cbn [total]; [lia|]. pose proof (len_nonneg (dg_data d)). unfold dlen. lia. Qed.

Lemma total_app k l : total (k ++ l) = total k + total l.
Proof. induction k as [|d k IH]; cbn [total app]; lia. Qed.

(** The two counters are the bytes in the two queues. *)
Definition datagrams_ok (s : DatagramState) : Prop := recv_buffered s = total (incoming s) ∧ outgoing_total s = total (outgoing s).

Lemma recv_datagram_ok s :
  datagrams_ok s →
  ∃ s', recv_datagram s = Ret (dg_data <$> head (incoming s), s') ∧ datagrams_ok s' ∧ incoming s' = tail (incoming s) ∧
    outgoing s' = outgoing s ∧ send_blocked s' = send_blocked s.
Proof.
  intros [Hr Ho]. unfold recv_datagram. destruct (incoming s) as [|x rest] eqn:Hin.
  { exists s. rewrite Hin. split_and!; try done. split; [by rewrite Hin|done]. }
  cbn [total] in Hr. pose proof (total_nonneg rest) as Hn.
  rewrite (usub_ok (recv_buffered s) (dlen x)) by lia. cbn. eexists. split; [reflexivity|].
  unfold datagrams_ok. cbn. split_and!; done || lia.
Qed.

(** The loop drops the shortest prefix after which the new datagram fits. *)
Lemma drop_stale_ok fuel s n window :
  datagrams_ok s → n <= window → (length (incoming s) <= fuel)%nat →
  ∃ k s', drop_stale fuel s n window = Ret s' ∧ datagrams_ok s' ∧ incoming s = k ++ incoming s' ∧
    n + total (incoming s') <= window ∧ outgoing s' = outgoing s ∧ send_blocked s' = send_blocked s ∧
    (∀ k', k' `prefix_of` k → k' ≠ k → window < n + total (incoming s) - total k').
Proof.
  revert s. induction fuel as [|fuel IH]; intros s Hs Hn Hf; cbn [drop_stale].
  - destruct (incoming s) as [|? ?] eqn:Hin; [|cbn in Hf; lia]. destruct Hs as [Hr Ho]. rewrite Hin in Hr. cbn in Hr.
    destruct (Z.ltb_spec window (n + recv_buffered s)); [lia|]. exists [], s. split_and!; try done; [split; [by rewrite Hin|done]|rewrite Hin; cbn; lia|].
    intros k' ->%prefix_nil_inv. done.
  - destruct (Z.ltb_spec window (n + recv_buffered s)) as [Hlt|Hge].
    + destruct (recv_datagram_ok s Hs) as (s1 & -> & Hs1 & Hi1 & Ho1 & Hb1). cbn [mbind M_bind].
      destruct (incoming s) as [|x rest] eqn:Hin; [destruct Hs as [Hr _]; rewrite Hin in Hr; cbn in Hr; lia|].
      destruct (IH s1 Hs1 Hn) as (k & s' & Hd & Hs' & Hk & Hfit & Hout & Hblk & Hmin); [rewrite Hi1; cbn in Hf |- *; lia|].
      cbn in Hi1. exists (x :: k), s'. split_and!; try done.
      * by rewrite <- Hi1, Hk.
      * congruence.
      * congruence.
      * intros k' Hpre Hne. destruct Hs as [Hr _]. rewrite Hin in Hr. destruct k' as [|y k']; [cbn [total] in *; lia|]. apply prefix_cons_inv_1 in Hpre as Hxy; subst y. apply prefix_cons_inv_2 in Hpre.
        assert (Hne' : k' ≠ k) by congruence. specialize (Hmin k' Hpre Hne'). rewrite Hi1 in Hmin. cbn [total]. lia.
    + exists [], s. destruct Hs as [Hr Ho]. split_and!; try done; [lia|]. intros k' ->%prefix_nil_inv. done.
Qed.

Lemma drop_oldest_ok out limit :
  0 <= limit → ∃ k out', drop_oldest out (total out) limit = Ret (out', total out') ∧ out = k ++ out' ∧ total out' <= limit ∧
    (∀ k', k' `prefix_of` k → k' ≠ k → limit < total out - total k').
Proof.
  intros Hl. induction out as [|d out IH]; cbn [drop_oldest total].
  - destruct (Z.ltb_spec limit 0); [lia|]. exists [], []. split_and!; try done. by intros k' ->%prefix_nil_inv.
  - destruct (Z.ltb_spec limit (dlen d + total out)).
    + rewrite (usub_ok (dlen d + total out) (dlen d)) by (pose proof (total_nonneg out); lia). cbn [mbind M_bind].
      replace (dlen d + total out - dlen d) with (total out) by lia. destruct IH as (k & out' & -> & -> & Hfit & Hmin).
      exists (d :: k), out'. split_and!; try done. intros k' Hpre Hne. destruct k' as [|y k']; [cbn [total]; lia|].
      apply prefix_cons_inv_1 in Hpre as Hxy; subst y. apply prefix_cons_inv_2 in Hpre.
      specialize (Hmin k' Hpre ltac:(congruence)). cbn [total]. lia.
    + exists [], (d :: out). split_and!; try done. by intros k' ->%prefix_nil_inv.
Qed.

Lemma retain_small_ok l max t :
  total l <= t → ∃ any, retain_small l max t =
    Ret (filter (fun d => dlen d < max) l, t - (total l - total (filter (fun d => dlen d < max) l)), any) ∧
    (any = true ↔ ∃ d, d ∈ l ∧ max <= dlen d).
Proof.
  revert t. induction l as [|d l IH]; intros t Ht; cbn [retain_small total].
  - exists false. split; [unfold mret, M_ret; do 3 f_equal; cbn; lia|]. split; [done|]. by intros (d & ?%elem_of_nil & _).
  - cbn [total] in Ht. rewrite filter_cons. pose proof (total_nonneg l). destruct (Z.ltb_spec (dlen d) max).
    + destruct (IH t) as (any & -> & Hany); [pose proof (len_nonneg (dg_data d)); unfold dlen in *; lia|].
      cbn [mbind M_bind]. rewrite decide_True by done. exists any. cbn [total]. split; [unfold mret, M_ret; do 3 f_equal; lia|].
      rewrite Hany. setoid_rewrite elem_of_cons. split; [naive_solver|]. intros (x & [->|Hx] & Hge); [lia|eauto].
    + rewrite (usub_ok t (dlen d)) by lia. cbn [mbind M_bind]. destruct (IH (t - dlen d)) as (any & -> & Hany); [lia|].
      cbn [mbind M_bind]. rewrite decide_False by lia. exists true. split; [unfold mret, M_ret; do 3 f_equal; lia|].
      split; [|done]. intros _. exists d. split; [apply elem_of_cons; by left|done].
Qed.

Lemma Datagram_size_ok d : is_var (dlen d) → ∃ bs, Datagram_encode d true = Ret bs ∧ Datagram_size d true = Ret (len bs).
Proof.
  destruct d as [data]. unfold Datagram_encode, Datagram_size, dlen, var_len, VarInt_from_u64, is_var. cbn [dg_data]. intros Hx.
  change (encode (mkFrameType (Z.lor DATAGRAM_TYS_start 1))) with (@Ret (list Z) [49]).
  destruct (enc_var (len data) Hx) as (bs & Hb & _). pose proof (write_var_len _ _ Hb) as Hl. rewrite Hb. cbn.
  destruct (Z.ltb_spec (len data) (2 ^ 62)); [|lia]. rewrite VarInt_size_ok by done. cbn [mbind M_bind].
  eexists. split; [reflexivity|]. unfold mret, M_ret. f_equal. rewrite !len_cons, len_app. lia.
Qed.

(** What is written is one DATAGRAM frame that the peer reads back, and it fits. *)
Lemma datagram_write_ok s buf max d rest :
  datagrams_ok s → outgoing s = d :: rest → is_var (dlen d) →
  ∃ wrote buf' s', datagram_write s buf max = Ret (wrote, buf', s') ∧ datagrams_ok s' ∧ incoming s' = incoming s ∧
    if wrote then outgoing s' = rest ∧ ∃ bs, buf' = buf ++ bs ∧ len buf' <= max ∧ ∀ r, frame_parser (bs ++ r) = (Ok (FDatagram d), r)
    else s' = s ∧ buf' = buf ∧ ∃ bs, frame_encode (FDatagram d) = Ret bs ∧ max < len buf + len bs.
Proof.
  intros [Hr Ho] Hout Hd. unfold datagram_write. rewrite Hout. destruct (Datagram_size_ok d Hd) as (bs & Hbs & ->).
  cbn [mbind M_bind]. destruct (Z.ltb_spec max (len buf + len bs)).
  - exists false, buf, s. split; [done|]. split; [done|]. split; [done|]. split_and!; eauto.
  - pose proof (total_nonneg rest). rewrite Hout in Ho. cbn [total] in Ho.
    rewrite (usub_ok (outgoing_total s) (dlen d)) by lia. cbn [mbind M_bind]. rewrite Hbs. cbn [mbind M_bind].
    eexists true, _, _. split; [reflexivity|]. split; [split; cbn; lia|]. split; [done|]. cbn. split; [done|]. exists bs.
    split; [done|]. split; [rewrite len_app; lia|]. intros r.
    destruct (enc_frame_encode (FDatagram d) Hd) as (bs' & Hbs' & Hdec). cbn [frame_encode] in Hbs'.
    rewrite Hbs in Hbs'. injection Hbs' as <-. apply Hdec.
Qed.

(** The calls of the application and of the connection.  The receive window and the send buffer are settings. *)
Section Queues.
Context (window send_buffer : Z) (Hwindow : 0 <= window < 2 ^ 62) (Hsend : 0 <= send_buffer < 2 ^ 62).

Inductive datagram_step : DatagramState → DatagramState → Prop :=
| ds_received s d r s' : datagram_received s d (Some window) = Ret (r, s') → datagram_step s s'
| ds_recv s r s' : recv_datagram s = Ret (r, s') → datagram_step s s'
| ds_send s enabled max data drop r s' :
    max < 2 ^ 62 → send_datagram s enabled (Some max) send_buffer data drop = Ret (r, s') → datagram_step s s'
| ds_write s buf max r s' : datagram_write s buf max = Ret (r, s') → datagram_step s s'
| ds_drop s max r s' : drop_oversized s max = Ret (r, s') → datagram_step s s'.

Inductive datagram_reachable : DatagramState → Prop :=
| dr_new : datagram_reachable DatagramState_default
| dr_step s s' : datagram_reachable s → datagram_step s s' → datagram_reachable s'.

Record queues_ok (s : DatagramState) : Prop := {
  q_counts : datagrams_ok s;
  q_window : total (incoming s) <= window;
  q_sizes : Forall (fun d => is_var (dlen d)) (outgoing s);
  q_total : total (outgoing s) < send_buffer + 2 ^ 62
}.

Lemma datagram_received_ok s d :
  queues_ok s →
  if window <? dlen d then datagram_received s d (Some window) = Ret (Err (mkTransportError PROTOCOL_VIOLATION), s)
  else ∃ k kept s', datagram_received s d (Some window) = Ret (Ok (recv_buffered s =? 0), s') ∧ queues_ok s' ∧
         incoming s = k ++ kept ∧ incoming s' = kept ++ [d] ∧ outgoing s' = outgoing s ∧
         (∀ k', k' `prefix_of` k → k' ≠ k → window < dlen d + total (incoming s) - total k').
Proof.
  intros [[Hr Ho] Hw Hs Ht]. unfold datagram_received. destruct (Z.ltb_spec window (dlen d)); [done|].
  destruct (drop_stale_ok (length (incoming s)) s (dlen d) window) as (k & s1 & -> & [Hr1 Ho1] & Hk & Hfit & Hout & Hb & Hmin);
    [done|lia|done|]. cbn [mbind M_bind]. pose proof (total_nonneg (incoming s1)).
  rewrite (uadd_ok (recv_buffered s1) (dlen d)) by (unfold u64_max; lia). cbn [mbind M_bind].
  eexists k, (incoming s1), _. split; [reflexivity|]. split; [|split_and!; done].
  constructor; cbn; [split; cbn; [rewrite total_app; cbn; lia|done]|rewrite total_app; cbn; lia|by rewrite Hout..].
Qed.

(** What a call of [send] answers: a datagram that is too large is refused, without [drop] one that does not fit the buffer
    is handed back, and otherwise it is queued last, after dropping the shortest prefix that brings the queue within the
    buffer. *)
Lemma send_ok s max data drop :
  queues_ok s → max < 2 ^ 62 →
  ∃ r s', send_datagram s true (Some max) send_buffer data drop = Ret (r, s') ∧ queues_ok s' ∧ incoming s' = incoming s ∧
    match r with
    | Ok _ => len data <= max ∧ ∃ k kept, outgoing s = k ++ kept ∧ outgoing s' = kept ++ [mkDatagram data] ∧
        (if drop then total kept <= send_buffer else k = [] ∧ total (outgoing s') <= send_buffer) ∧
        (∀ k', k' `prefix_of` k → k' ≠ k → send_buffer < total (outgoing s) - total k')
    | Err TooLarge => max < len data ∧ s' = s
    | Err (Blocked d) => d = data ∧ drop = false ∧ send_buffer < total (outgoing s) + len data ∧ outgoing s' = outgoing s ∧
        send_blocked s' = true
    | Err _ => False
    end.
Proof.
  intros [[Hr Ho] Hw Hs Ht] Hmax. unfold send_datagram. cbn [negb]. destruct (Z.ltb_spec max (len data)).
  { eexists _, s. split; [reflexivity|]. split; [by constructor|]. done. }
  pose proof (len_nonneg data). pose proof (total_nonneg (outgoing s)).
  assert (Hpush : ∀ kept k, outgoing s = k ++ kept → total kept < send_buffer + 2 ^ 62 - len data →
    Forall (fun d => is_var (dlen d)) kept → queues_ok
      (mkDatagramState (recv_buffered s) (incoming s) (kept ++ [mkDatagram data]) (total kept + len data) (send_blocked s))).
  { intros kept k Hk Hlt Hf. constructor; cbn; [split; cbn; [done|rewrite total_app; cbn; unfold dlen; cbn; lia]|done| |].
    - apply Forall_app. split; [done|]. apply Forall_singleton. unfold is_var, dlen. cbn. lia.
    - rewrite total_app. cbn. unfold dlen. cbn. lia. }
  destruct drop.
  - rewrite Ho. destruct (drop_oldest_ok (outgoing s) send_buffer) as (k & kept & -> & Hk & Hfit & Hmin); [lia|].
    cbn [mbind M_bind]. rewrite (uadd_ok (total kept) (len data)) by (unfold u64_max; lia). cbn [mbind M_bind].
    eexists _, _. split; [reflexivity|]. split; [eapply Hpush; [done|lia|]|].
    + rewrite Hk in Hs. by apply Forall_app in Hs as [_ Hs].
    + split; [done|]. split; [lia|]. by exists k, kept.
  - rewrite (uadd_ok (outgoing_total s) (len data)) by (unfold u64_max; lia). cbn [mbind M_bind].
    destruct (Z.ltb_spec send_buffer (outgoing_total s + len data)).
    + eexists _, _. split; [reflexivity|]. split; [by constructor|]. cbn. split_and!; try done. lia.
    + eexists _, _. split; [reflexivity|]. rewrite Ho. split; [eapply (Hpush _ []); [done|lia|done]|]. split; [done|].
      split; [lia|]. exists [], (outgoing s). split; [done|]. split; [done|]. cbn. rewrite total_app. cbn. unfold dlen. cbn.
      split; [split; [done|lia]|]. by intros k' ->%prefix_nil_inv.
Qed.

Lemma drop_oversized_ok s max :
  queues_ok s → ∃ any s', drop_oversized s max = Ret (any, s') ∧ queues_ok s' ∧ incoming s' = incoming s ∧
    outgoing s' = filter (fun d => dlen d < max) (outgoing s) ∧ (any = true ↔ ∃ d, d ∈ outgoing s ∧ max <= dlen d).
Proof.
  intros [[Hr Ho] Hw Hs Ht]. unfold drop_oversized.
  destruct (retain_small_ok (outgoing s) max (outgoing_total s)) as (any & -> & Hany); [lia|]. cbn [mbind M_bind].
  assert (Hle : ∀ l, total (filter (fun d => dlen d < max) l) <= total l).
  { induction l as [|d l IH]; [done|]. rewrite filter_cons. pose proof (len_nonneg (dg_data d)). unfold dlen in *.
    destruct (decide _); cbn [total]; unfold dlen; lia. }
  specialize (Hle (outgoing s)).
  eexists any, _. split; [reflexivity|]. split; [|done]. constructor; cbn; [split; cbn; [done|lia]|done| |lia].
  apply Forall_forall. intros x [_ Hx]%list_elem_of_filter. rewrite Forall_forall in Hs. by apply Hs.
Qed.

Lemma datagram_reachable_ok s : datagram_reachable s → queues_ok s.
Proof.
  induction 1 as [|s s' _ IH Hstep]; [by constructor; cbn; [|lia|apply Forall_nil|lia]|].
  destruct Hstep as [s d r s' Hop|s r s' Hop|s enabled max data drop r s' Hmax Hop|s buf max [w b] s' Hop|s max r s' Hop].
  - pose proof (datagram_received_ok s d IH) as Hok. destruct (window <? dlen d); [congruence|].
    destruct Hok as (? & ? & ? & Hop' & ? & _). congruence.
  - destruct (recv_datagram_ok s (q_counts s IH)) as (s1 & Hop' & Hc & Hin & Hout & _). rewrite Hop in Hop'. injection Hop' as _ <-.
    destruct IH as [_ Hw Hs Ht]. constructor; [done| |by rewrite Hout..]. rewrite Hin.
    destruct (incoming s) as [|x l]; [done|]. cbn [tail total] in *. pose proof (len_nonneg (dg_data x)). unfold dlen in *. lia.
  - destruct enabled; [|by injection Hop as _ <-]. destruct (send_ok s max data drop IH Hmax) as (? & ? & Hop' & ? & _). congruence.
  - destruct (outgoing s) as [|d rest] eqn:Hout; [unfold datagram_write in Hop; rewrite Hout in Hop; by injection Hop as _ _ <-|].
    pose proof (q_sizes s IH) as Hs. rewrite Hout in Hs. apply Forall_cons in Hs as [Hd Hs].
    destruct (datagram_write_ok s buf max d rest (q_counts s IH) Hout Hd) as (w' & b' & s1 & Hop' & Hc & Hin & Hcase).
    rewrite Hop in Hop'. injection Hop' as -> -> ->. destruct IH as [_ Hw _ Ht]. rewrite Hout in Ht. cbn [total] in Ht.
    destruct w'; [destruct Hcase as [Ho' _]|destruct Hcase as [-> _]; constructor; rewrite ?Hout; try done; by apply Forall_cons].
    pose proof (len_nonneg (dg_data d)). unfold dlen in *. constructor; [done|by rewrite Hin|by rewrite Ho'|rewrite Ho'; lia].
  - destruct (drop_oversized_ok s max IH) as (? & ? & Hop' & ? & _). congruence.
Qed.
End Queues.

(** * Property *)

(** In every reachable state of the datagram queues the counters are the bytes queued and no call panics.  A received
    datagram is refused exactly when it is larger than the window; otherwise it is queued last, at most [window] bytes stay
    buffered, and only as many of the oldest datagrams are dropped as needed.  They are delivered in order.  Sending
    refuses, hands back or queues last; the oldest datagram queued is written as soon as its frame fits, and the peer
    reads that datagram. *)
Theorem datagram_queues_correct window send_buffer s :
  0 <= window < 2 ^ 62 → 0 <= send_buffer < 2 ^ 62 → datagram_reachable window send_buffer s →
  recv_buffered s = total (incoming s) ∧ total (incoming s) <= window ∧ outgoing_total s = total (outgoing s) ∧
  (∀ d, if window <? dlen d
        then datagram_received s d (Some window) = Ret (Err (mkTransportError PROTOCOL_VIOLATION), s)
        else ∃ k kept s', datagram_received s d (Some window) = Ret (Ok (recv_buffered s =? 0), s') ∧
          incoming s = k ++ kept ∧ incoming s' = kept ++ [d] ∧
          (∀ k', k' `prefix_of` k → k' ≠ k → window < dlen d + total (incoming s) - total k')) ∧
  (∃ s', recv_datagram s = Ret (dg_data <$> head (incoming s), s') ∧ incoming s' = tail (incoming s)) ∧
  (∀ max data drop, max < 2 ^ 62 → ∃ r s', send_datagram s true (Some max) send_buffer data drop = Ret (r, s') ∧
     match r with
     | Ok _ => ∃ k kept, outgoing s = k ++ kept ∧ outgoing s' = kept ++ [mkDatagram data] ∧ (drop = false → k = [])
     | Err _ => outgoing s' = outgoing s
     end) ∧
  (∀ d rest buf max, outgoing s = d :: rest → ∃ wrote buf' s', datagram_write s buf max = Ret (wrote, buf', s') ∧
     if wrote then outgoing s' = rest ∧ ∃ bs, buf' = buf ++ bs ∧ len buf' <= max ∧ ∀ r, frame_parser (bs ++ r) = (Ok (FDatagram d), r)
     else outgoing s' = outgoing s ∧ buf' = buf).
Proof.
  intros Hw Hb Hs. pose proof (datagram_reachable_ok window send_buffer Hw Hb s Hs) as Hok.
  pose proof Hok as [Hc Hin Hsz _]. destruct Hc as [Hr Ho]. do 3 (split; [done|]). split; [|split; [|split]].
  - intros d. pose proof (datagram_received_ok window send_buffer Hw s d Hok) as Hd. destruct (window <? dlen d); [done|].
    destruct Hd as (k & kept & s' & ? & _ & ? & ? & _ & ?). by exists k, kept, s'.
  - destruct (recv_datagram_ok s (conj Hr Ho)) as (s' & ? & _ & ? & _). by exists s'.
  - intros max data drop Hmax. destruct (send_ok window send_buffer Hb s max data drop Hok Hmax) as (r & s' & Hop & _ & _ & Hcase).
    exists r, s'. split; [done|]. destruct r as [[]|[| | |b]]; try done.
    + destruct Hcase as (_ & k & kept & Hk & Hk' & Hd & _). exists k, kept. split_and!; try done. intros ->. by destruct Hd.
    + by destruct Hcase as [_ ->].
    + by destruct Hcase as (_ & _ & _ & ? & _).
  - intros d rest buf max Hout. rewrite Hout in Hsz. apply Forall_cons in Hsz as [Hd _].
    destruct (datagram_write_ok s buf max d rest (conj Hr Ho) Hout Hd) as (w & b & s' & ? & _ & _ & Hcase). exists w, b, s'.
    split; [done|]. destruct w; [done|]. by destruct Hcase as (-> & -> & _).
Qed.

Lemma datagram_queues_correct_witness :
  ∃ s, datagram_reachable 10 100 s ∧ incoming s = [mkDatagram (replicate 4 7); mkDatagram (replicate 5 8)] ∧
    ∃ k kept s', datagram_received s (mkDatagram (replicate 3 9)) (Some 10) = Ret (Ok false, s') ∧
      incoming s = k ++ kept ∧ incoming s' = kept ++ [mkDatagram (replicate 3 9)].
Proof.
  set (s := mkDatagramState 9 [mkDatagram (replicate 4 7); mkDatagram (replicate 5 8)] [] 0 false).
  assert (Hs : datagram_reachable 10 100 s).
  { eapply dr_step; [|eapply (ds_received _ _ (mkDatagramState 4 [mkDatagram (replicate 4 7)] [] 0 false)
      (mkDatagram (replicate 5 8))); by vm_compute].
    eapply dr_step; [apply dr_new|]. eapply (ds_received _ _ _ (mkDatagram (replicate 4 7))). by vm_compute. }
  exists s. split; [done|]. split; [done|].
  destruct (datagram_queues_correct 10 100 s) as (_ & _ & _ & Hr & _); [lia|lia|done|].
  destruct (Hr (mkDatagram (replicate 3 9))) as (k & kept & s' & ? & ? & ? & _). by exists k, kept, s'.
Defined.

(** With [drop] the loop makes room without counting the new datagram, so the queue grows past the configured buffer. *)
Lemma dropping_send_exceeds_buffer :
  send_datagram (mkDatagramState 0 [] [mkDatagram (replicate 100 0)] 100 false) true (Some 1000) 100 (replicate 60 0) true =
  Ret (Ok tt, mkDatagramState 0 [] [mkDatagram (replicate 100 0); mkDatagram (replicate 60 0)] 160 false).
Proof. by vm_compute. Qed.

(** A datagram of exactly the maximum size may be sent, but [drop_oversized] removes it. *)
Lemma drop_oversized_drops_largest_legal :
  ∃ s, send_datagram DatagramState_default true (Some 50) 100 (replicate 50 0) false = Ret (Ok tt, s) ∧
    drop_oversized s 50 = Ret (true, DatagramState_default).
Proof. eexists. split; by vm_compute. Qed.
