(* ===== verification/Config.v ===== *)
(** The transport settings of a connection: [TransportConfig] of [quic-proto/src/config/transport.rs].

    Durations are in nanoseconds.  The controller factory is a function from the time and the MTU to a controller, so the
    settings depend on the type of controllers; the log sink and the test-only setting are left out. *)
From Stdlib Require Import SpecFloat.
From S2P Require Import Prelude Coding Shared Float Mtud AckFrequency.
Open Scope Z_scope.


Record TransportConfig {C : Type} : Type := mkTransportConfig {
  tc_max_concurrent_bidi_streams : VarInt;
  tc_max_concurrent_uni_streams : VarInt;
  tc_max_idle_timeout : option VarInt;
  tc_stream_receive_window : VarInt;
  tc_receive_window : VarInt;
  tc_send_window : Z;
  tc_send_fairness : bool;
  tc_packet_threshold : Z;
  tc_time_threshold : spec_float;
  tc_initial_rtt : Z;
  tc_initial_mtu : Z;
  tc_min_mtu : Z;
  tc_mtu_discovery_config : option MtuDiscoveryConfig;
  tc_pad_to_mtu : bool;
  tc_ack_frequency_config : option AckFrequencyConfig;
  tc_max_outgoing_bytes_per_second : option Z;
  tc_persistent_congestion_threshold : Z;
  tc_keep_alive_interval : option Z;
  tc_crypto_buffer_size : Z;
  tc_allow_spin : bool;
  tc_datagram_receive_buffer_size : option Z;
  tc_datagram_send_buffer_size : Z;
  tc_congestion_controller_factory : Z → Z → C;
  tc_enable_segmentation_offload : bool
}.
#[global] Arguments TransportConfig C : clear implicits.

(** The default settings, with the factory as an argument. *)
Definition TransportConfig_default {C} (factory : Z → Z → C) : TransportConfig C :=
  let EXPECTED_RTT := 100 in
  let MAX_STREAM_BANDWIDTH := 12500 * 1000 in
  let STREAM_RWND := MAX_STREAM_BANDWIDTH / 1000 * EXPECTED_RTT in
  mkTransportConfig C (mkVarInt 100) (mkVarInt 100) (Some (mkVarInt 30000)) (mkVarInt STREAM_RWND) VarInt_MAX
    (8 * STREAM_RWND) true 3 (fdiv f32 (of_int f32 9) (of_int f32 8)) (333 * 10 ^ 6) INITIAL_MTU INITIAL_MTU
    (Some MtuDiscoveryConfig_default) false None None 3 None (16 * 1024) true (Some STREAM_RWND) (1024 * 1024) factory true.

Definition get_initial_mtu {C} (c : TransportConfig C) : Z := Z.max (tc_initial_mtu c) (tc_min_mtu c).

Definition AckFrequencyConfig_default : AckFrequencyConfig := mkAckFrequencyConfig (mkVarInt 1) None (mkVarInt 2).
