(* ===== verification/Paths.v ===== *)
(** Network paths: [PathData], [InFlight] and [PathResponses] of [quic-proto/src/connection/paths.rs].

    The congestion controller is any instance of [Controller]. *)
From stdpp Require Import gmap.
From S2P Require Import Prelude Coding Ids Shared Packet Assembler Retransmits Spaces Mtud AckFrequency Rtt Congestion Pacing Config.
Open Scope Z_scope.

(** * Packets in flight *)

Record InFlight : Type := mkInFlight { if_bytes : Z; if_ack_eliciting : Z }.

Definition InFlight_new : InFlight := mkInFlight 0 0.

Definition b2z (b : bool) : Z := if b then 1 else 0.

Definition in_flight_insert (f : InFlight) (packet : SentPacket) : M InFlight :=
  bytes ← uadd (if_bytes f) (size packet);
  eliciting ← uadd (if_ack_eliciting f) (b2z (ack_eliciting packet));
  mret (mkInFlight bytes eliciting).

Definition in_flight_remove (f : InFlight) (packet : SentPacket) : M InFlight :=
  bytes ← usub (if_bytes f) (size packet);
  eliciting ← usub (if_ack_eliciting f) (b2z (ack_eliciting packet));
  mret (mkInFlight bytes eliciting).

(** * Paths *)

Section Paths.
Context {C : Type} `{HC : Controller C} {K : Type} {H : Type} `{HH : Heap H}.

Record PathData : Type := mkPathData {
  p_remote : SocketAddr;
  p_rtt : RttEstimator;
  p_sending_ecn : bool;
  p_congestion : C;
  p_pacing : Pacer;
  p_challenge : option Z;
  p_challenge_pending : bool;
  p_validated : bool;
  p_total_sent : Z;
  p_total_recvd : Z;
  p_mtud : MtuDiscovery;
  p_first_packet_after_rtt_sample : option (SpaceId * Z);
  p_in_flight : InFlight;
  p_first_packet : option Z;
  p_generation : Z
}.

Definition PathData_new (remote : SocketAddr) (allow_mtud : bool) (peer_max_udp_payload_size : option Z) (generation now : Z)
    (config : TransportConfig C) : M PathData :=
  let congestion := tc_congestion_controller_factory config now (get_initial_mtu config) in
  pacing ← Pacer_new (tc_initial_rtt config) (initial_window congestion) (get_initial_mtu config)
             (tc_max_outgoing_bytes_per_second config) now;
  mtud ← match tc_mtu_discovery_config config with
         | Some mtud_config =>
             if allow_mtud then MtuDiscovery_new (get_initial_mtu config) (tc_min_mtu config) peer_max_udp_payload_size mtud_config
             else mret (MtuDiscovery_disabled (get_initial_mtu config) (tc_min_mtu config))
         | None => mret (MtuDiscovery_disabled (get_initial_mtu config) (tc_min_mtu config))
         end;
  mret (mkPathData remote (RttEstimator_new (tc_initial_rtt config)) true congestion pacing None false false 0 0 mtud None
          InFlight_new None generation).

Definition from_previous (remote : SocketAddr) (prev : PathData) (generation now : Z) : M PathData :=
  let congestion := p_congestion prev in
  let smoothed_rtt := rtt_get (p_rtt prev) in
  pacing ← Pacer_new smoothed_rtt (window congestion) (current_mtu (p_mtud prev)) (pc_max_bytes_per_second (p_pacing prev)) now;
  mret (mkPathData remote (p_rtt prev) true congestion pacing None false false 0 0 (p_mtud prev)
          (p_first_packet_after_rtt_sample prev) InFlight_new None generation).

Definition path_reset (p : PathData) (now : Z) (config : TransportConfig C) : M PathData :=
  mtud ← MtuDiscovery_reset (p_mtud p) (get_initial_mtu config) (tc_min_mtu config);
  mret (mkPathData (p_remote p) (RttEstimator_new (tc_initial_rtt config)) (p_sending_ecn p)
          (tc_congestion_controller_factory config now (get_initial_mtu config)) (p_pacing p) (p_challenge p)
          (p_challenge_pending p) (p_validated p) (p_total_sent p) (p_total_recvd p) mtud (p_first_packet_after_rtt_sample p)
          (p_in_flight p) (p_first_packet p) (p_generation p)).

Definition anti_amplification_blocked (p : PathData) (bytes_to_send : Z) : M bool :=
  if p_validated p then mret false
  else
    recvd ← umul (p_total_recvd p) 3;
    sent ← uadd (p_total_sent p) bytes_to_send;
    mret (recvd <? sent).

Definition p_current_mtu (p : PathData) : Z := current_mtu (p_mtud p).

Definition set_rtt (p : PathData) (v : RttEstimator) : PathData :=
  mkPathData (p_remote p) v (p_sending_ecn p) (p_congestion p) (p_pacing p) (p_challenge p) (p_challenge_pending p)
    (p_validated p) (p_total_sent p) (p_total_recvd p) (p_mtud p) (p_first_packet_after_rtt_sample p) (p_in_flight p)
    (p_first_packet p) (p_generation p).
Definition set_sending_ecn (p : PathData) (v : bool) : PathData :=
  mkPathData (p_remote p) (p_rtt p) v (p_congestion p) (p_pacing p) (p_challenge p) (p_challenge_pending p)
    (p_validated p) (p_total_sent p) (p_total_recvd p) (p_mtud p) (p_first_packet_after_rtt_sample p) (p_in_flight p)
    (p_first_packet p) (p_generation p).
Definition set_congestion (p : PathData) (v : C) : PathData :=
  mkPathData (p_remote p) (p_rtt p) (p_sending_ecn p) v (p_pacing p) (p_challenge p) (p_challenge_pending p)
    (p_validated p) (p_total_sent p) (p_total_recvd p) (p_mtud p) (p_first_packet_after_rtt_sample p) (p_in_flight p)
    (p_first_packet p) (p_generation p).
Definition set_pacing (p : PathData) (v : Pacer) : PathData :=
  mkPathData (p_remote p) (p_rtt p) (p_sending_ecn p) (p_congestion p) v (p_challenge p) (p_challenge_pending p)
    (p_validated p) (p_total_sent p) (p_total_recvd p) (p_mtud p) (p_first_packet_after_rtt_sample p) (p_in_flight p)
    (p_first_packet p) (p_generation p).
Definition set_challenge (p : PathData) (v : option Z) : PathData :=
  mkPathData (p_remote p) (p_rtt p) (p_sending_ecn p) (p_congestion p) (p_pacing p) v (p_challenge_pending p)
    (p_validated p) (p_total_sent p) (p_total_recvd p) (p_mtud p) (p_first_packet_after_rtt_sample p) (p_in_flight p)
    (p_first_packet p) (p_generation p).
Definition set_challenge_pending (p : PathData) (v : bool) : PathData :=
  mkPathData (p_remote p) (p_rtt p) (p_sending_ecn p) (p_congestion p) (p_pacing p) (p_challenge p) v (p_validated
    p) (p_total_sent p) (p_total_recvd p) (p_mtud p) (p_first_packet_after_rtt_sample p) (p_in_flight p)
    (p_first_packet p) (p_generation p).
Definition set_validated (p : PathData) (v : bool) : PathData :=
  mkPathData (p_remote p) (p_rtt p) (p_sending_ecn p) (p_congestion p) (p_pacing p) (p_challenge p)
    (p_challenge_pending p) v (p_total_sent p) (p_total_recvd p) (p_mtud p) (p_first_packet_after_rtt_sample p)
    (p_in_flight p) (p_first_packet p) (p_generation p).
Definition set_total_sent (p : PathData) (v : Z) : PathData :=
  mkPathData (p_remote p) (p_rtt p) (p_sending_ecn p) (p_congestion p) (p_pacing p) (p_challenge p)
    (p_challenge_pending p) (p_validated p) v (p_total_recvd p) (p_mtud p) (p_first_packet_after_rtt_sample p)
    (p_in_flight p) (p_first_packet p) (p_generation p).
Definition set_total_recvd (p : PathData) (v : Z) : PathData :=
  mkPathData (p_remote p) (p_rtt p) (p_sending_ecn p) (p_congestion p) (p_pacing p) (p_challenge p)
    (p_challenge_pending p) (p_validated p) (p_total_sent p) v (p_mtud p) (p_first_packet_after_rtt_sample p)
    (p_in_flight p) (p_first_packet p) (p_generation p).
Definition set_mtud (p : PathData) (v : MtuDiscovery) : PathData :=
  mkPathData (p_remote p) (p_rtt p) (p_sending_ecn p) (p_congestion p) (p_pacing p) (p_challenge p)
    (p_challenge_pending p) (p_validated p) (p_total_sent p) (p_total_recvd p) v (p_first_packet_after_rtt_sample p)
    (p_in_flight p) (p_first_packet p) (p_generation p).
Definition set_first_packet_after_rtt_sample (p : PathData) (v : option (SpaceId * Z)) : PathData :=
  mkPathData (p_remote p) (p_rtt p) (p_sending_ecn p) (p_congestion p) (p_pacing p) (p_challenge p)
    (p_challenge_pending p) (p_validated p) (p_total_sent p) (p_total_recvd p) (p_mtud p) v (p_in_flight p)
    (p_first_packet p) (p_generation p).
Definition set_in_flight (p : PathData) (v : InFlight) : PathData :=
  mkPathData (p_remote p) (p_rtt p) (p_sending_ecn p) (p_congestion p) (p_pacing p) (p_challenge p) (p_challenge_pending p)
    (p_validated p) (p_total_sent p) (p_total_recvd p) (p_mtud p) (p_first_packet_after_rtt_sample p) v (p_first_packet p)
    (p_generation p).
Definition set_first_packet (p : PathData) (v : option Z) : PathData :=
  mkPathData (p_remote p) (p_rtt p) (p_sending_ecn p) (p_congestion p) (p_pacing p) (p_challenge p) (p_challenge_pending p)
    (p_validated p) (p_total_sent p) (p_total_recvd p) (p_mtud p) (p_first_packet_after_rtt_sample p) (p_in_flight p) v
    (p_generation p).

(** [false] when the packet was sent on another path. *)
Definition remove_in_flight (p : PathData) (packet : SentPacket) : M (bool * PathData) :=
  if negb (path_generation packet =? p_generation p) then mret (false, p)
  else f ← in_flight_remove (p_in_flight p) packet; mret (true, set_in_flight p f).

Definition path_sent (p : PathData) (pn : Z) (packet : SentPacket) (space : PacketSpace K H) : M (PathData * PacketSpace K H) :=
  f ← in_flight_insert (p_in_flight p) packet;
  let p := set_in_flight p f in
  let p := match p_first_packet p with None => set_first_packet p (Some pn) | Some _ => p end in
  '(forgotten, space) ← sent space pn packet;
  p ← match forgotten with
      | Some forgotten => '(_, p) ← remove_in_flight p forgotten; mret p
      | None => mret p
      end;
  mret (p, space).
End Paths.
#[global] Arguments PathData C : clear implicits.

(** * Responses to path challenges *)

Record PathResponse : Type := mkPathResponse { pr_packet : Z; pr_token : Z; pr_remote : SocketAddr }.
Record PathResponses : Type := mkPathResponses { pr_pending : list PathResponse }.

Definition MAX_PATH_RESPONSES : Z := 16.

(** [iter_mut().find]: the first entry for the address, replaced when it is not newer. *)
Fixpoint replace_response (l : list PathResponse) (r : PathResponse) : option (list PathResponse) :=
  match l with
  | [] => None
  | x :: l =>
      if bool_decide (pr_remote x = pr_remote r) then Some ((if pr_packet x <=? pr_packet r then r else x) :: l)
      else match replace_response l r with Some l => Some (x :: l) | None => None end
  end.

Definition responses_push (p : PathResponses) (packet token : Z) (remote : SocketAddr) : PathResponses :=
  let response := mkPathResponse packet token remote in
  match replace_response (pr_pending p) response with
  | Some l => mkPathResponses l
  | None => if len (pr_pending p) <? MAX_PATH_RESPONSES then mkPathResponses (pr_pending p ++ [response]) else p
  end.

Definition pop_off_path (p : PathResponses) (remote : SocketAddr) : option (Z * SocketAddr) * PathResponses :=
  match last (pr_pending p) with
  | None => (None, p)
  | Some response =>
      if bool_decide (pr_remote response = remote) then (None, p)
      else (Some (pr_token response, pr_remote response), mkPathResponses (removelast (pr_pending p)))
  end.

Definition pop_on_path (p : PathResponses) (remote : SocketAddr) : option Z * PathResponses :=
  match last (pr_pending p) with
  | None => (None, p)
  | Some response =>
      if bool_decide (pr_remote response = remote) then (Some (pr_token response), mkPathResponses (removelast (pr_pending p)))
      else (None, p)
  end.

Definition responses_is_empty (p : PathResponses) : bool := match pr_pending p with [] => true | _ => false end.
