(* ===== verification/Token.v ===== *)
(** Address validation tokens: [quic-proto/src/token.rs].

    Times of the system clock are nanoseconds since the Unix epoch.  The key that seals tokens comes from the
    cryptographic library: it is the record [HandshakeTokenKey], whose laws are hypotheses of the theorems.  The log of
    used tokens is any instance of the class [TokenLog], the trait of the same name. *)
From stdpp Require Import gmap.
From S2P Require Import Prelude Coding Ids Shared Frame Packet PacketTheorems TransportParams Retransmits.
Open Scope Z_scope.

(** * The cryptographic interface *)

Record AeadKey : Type := mkAeadKey { ak_seal : list Z → list Z → option (list Z); ak_open : list Z → list Z → option (list Z) }.
Record HandshakeTokenKey : Type := mkHandshakeTokenKey { aead_from_hkdf : list Z → AeadKey }.

(** * Addresses and times *)

Inductive IpAddr : Type := IpV4 (a : Ipv4Addr) | IpV6 (a : Ipv6Addr).
#[global] Instance IpAddr_eq_dec : EqDecision IpAddr.
Proof. solve_decision. Defined.

Definition addr_ip (a : SocketAddr) : IpAddr := match a with SocketV4 ip _ => IpV4 ip | SocketV6 ip _ _ _ => IpV6 ip end.
Definition addr_port (a : SocketAddr) : Z := match a with SocketV4 _ port | SocketV6 _ port _ _ => port end.
(** [SocketAddr::new]. *)
Definition SocketAddr_new (ip : IpAddr) (port : Z) : SocketAddr :=
  match ip with IpV4 a => SocketV4 a port | IpV6 a => SocketV6 a port 0 0 end.

(** [SystemTime + Duration] panics beyond the seconds an [i64] holds. *)
Definition SECOND : Z := 10 ^ 9.
Definition system_time_add (t d : Z) : M Z := if t + d <? 2 ^ 63 * SECOND then mret (t + d) else Panic.

(** * Tokens *)

Inductive TokenPayload : Type :=
| RetryToken (address : SocketAddr) (orig_dst_cid : ConnectionId) (issued : Z)
| ValidationToken (ip : IpAddr) (issued : Z).

Inductive TokenType : Type := TtRetry | TtValidation.
Definition token_type_u8 (t : TokenType) : Z := match t with TtRetry => 0 | TtValidation => 1 end.
Definition TokenType_from_byte (n : Z) : option TokenType := find (fun t => token_type_u8 t =? n) [TtRetry; TtValidation].

Record Token : Type := mkToken { tk_payload : TokenPayload; tk_nonce : Z }.

(** [u128::to_le_bytes] and [u128::from_le_bytes]. *)
Definition le16 (x : Z) : list Z := rev (be_bytes 16 x).
Definition from_le (bs : list Z) : Z := from_be (rev bs).

Definition encode_ip (ip : IpAddr) : list Z :=
  match ip with IpV4 x => be_bytes 1 0 ++ octets4 x | IpV6 x => be_bytes 1 1 ++ octets6 x end.
Definition encode_addr (address : SocketAddr) : list Z := encode_ip (addr_ip address) ++ be_bytes 2 (addr_port address).
Definition encode_unix_secs (time : Z) : list Z := be_bytes 8 (Z.max time 0 / SECOND).

Definition payload_bytes (p : TokenPayload) : list Z :=
  match p with
  | RetryToken address orig_dst_cid issued =>
      be_bytes 1 (token_type_u8 TtRetry) ++ encode_addr address ++ encode_long orig_dst_cid ++ encode_unix_secs issued
  | ValidationToken ip issued => be_bytes 1 (token_type_u8 TtValidation) ++ encode_ip ip ++ encode_unix_secs issued
  end.

Definition Token_encode (t : Token) (key : HandshakeTokenKey) : M (list Z) :=
  match ak_seal (aead_from_hkdf key (le16 (tk_nonce t))) (payload_bytes (tk_payload t)) [] with
  | None => Panic
  | Some buf => mret (buf ++ le16 (tk_nonce t))
  end.

(** Decoders that end in [None] have the error [tt]. *)
Definition olift {A} (p : parser UnexpectedEnd A) : mparser unit A := fun bs => Ret (map_err (fun _ => tt) p bs).

Definition decode_ip : mparser unit IpAddr :=
  b ← olift (decode (A := u8));
  if uval b =? 0 then a ← olift (decode (A := Ipv4Addr)); mret (IpV4 a)
  else if uval b =? 1 then a ← olift (decode (A := Ipv6Addr)); mret (IpV6 a)
  else mfail tt.

Definition decode_addr : mparser unit SocketAddr :=
  ip ← decode_ip;
  port ← olift (decode (A := u16));
  mret (SocketAddr_new ip (uval port)).

Definition decode_unix_secs : mparser unit Z :=
  secs ← olift (decode (A := u64));
  total (system_time_add 0 (uval secs * SECOND)).

Definition decode_token_cid : mparser unit ConnectionId := fun bs =>
  '(r, bs) ← decode_long bs;
  mret (match r with Some cid => Ok cid | None => Err tt end, bs).

Definition decode_payload : mparser unit TokenPayload :=
  b ← olift (decode (A := u8));
  match TokenType_from_byte (uval b) with
  | None => mfail tt
  | Some TtRetry =>
      address ← decode_addr;
      orig_dst_cid ← decode_token_cid;
      issued ← decode_unix_secs;
      mret (RetryToken address orig_dst_cid issued)
  | Some TtValidation =>
      ip ← decode_ip;
      issued ← decode_unix_secs;
      mret (ValidationToken ip issued)
  end.

Definition Token_decode (key : HandshakeTokenKey) (raw_token_bytes : list Z) : M (option Token) :=
  match checked_sub (len raw_token_bytes) 16 with
  | None => mret None
  | Some nonce_slice_start =>
      let sealed_token := takeZ nonce_slice_start raw_token_bytes in
      let nonce_bytes := dropZ nonce_slice_start raw_token_bytes in
      match ak_open (aead_from_hkdf key nonce_bytes) sealed_token [] with
      | None => mret None
      | Some data =>
          '(r, reader) ← decode_payload data;
          mret (match r with
                | Ok payload => if bool_decide (reader = []) then Some (mkToken payload (from_le nonce_bytes)) else None
                | Err _ => None
                end)
      end
  end.

(** * Incoming tokens *)

(** [Ok] is [true]. *)
Class TokenLog (L : Type) : Type := { check_and_insert : L → Z → Z → Z → M (bool * L) }.

(** [NoneTokenLog]. *)
Inductive NoneTokenLog : Type := mkNoneTokenLog.
#[global] Instance NoneTokenLog_TokenLog : TokenLog NoneTokenLog := { check_and_insert l _ _ _ := mret (false, l) }.

(** The settings of a server; the log and the clock are arguments of the operations that use them. *)
Record ServerConfig : Type := mkServerConfig {
  sc_validation_token_lifetime : Z;
  sc_validation_token_sent : Z;
  sc_token_key : HandshakeTokenKey;
  sc_retry_token_lifetime : Z;
  sc_migration : bool;
  sc_preferred_address_v4 : option SocketAddrV4;
  sc_preferred_address_v6 : option SocketAddrV6;
  sc_max_incoming : Z;
  sc_incoming_buffer_size : Z;
  sc_incoming_buffer_size_total : Z
}.

Definition has_preferred_address (c : ServerConfig) : bool :=
  match sc_preferred_address_v4 c, sc_preferred_address_v6 c with None, None => false | _, _ => true end.

Record IncomingToken : Type := mkIncomingToken {
  it_retry_src_cid : option ConnectionId; it_orig_dst_cid : ConnectionId; it_validated : bool }.

Inductive InvalidRetryTokenError : Type := mkInvalidRetryTokenError.

Definition from_header {L} `{TokenLog L} (log : L) (header : InitialHeader) (server_config : ServerConfig)
    (remote_address : SocketAddr) (system_now : Z) : M (result InvalidRetryTokenError IncomingToken * L) :=
  let unvalidated := mkIncomingToken None (ih_dst_cid header) false in
  if bool_decide (ih_token header = []) then mret (Ok unvalidated, log)
  else
    retry ← Token_decode (sc_token_key server_config) (ih_token header);
    match retry with
    | None => mret (Ok unvalidated, log)
    | Some (mkToken (RetryToken address orig_dst_cid issued) _) =>
        if negb (bool_decide (address = remote_address)) then mret (Err mkInvalidRetryTokenError, log)
        else
          expires ← system_time_add issued (sc_retry_token_lifetime server_config);
          if expires <? system_now then mret (Err mkInvalidRetryTokenError, log)
          else mret (Ok (mkIncomingToken (Some (ih_dst_cid header)) orig_dst_cid true), log)
    | Some (mkToken (ValidationToken ip issued) nonce) =>
        if negb (bool_decide (ip = addr_ip remote_address)) then mret (Ok unvalidated, log)
        else
          expires ← system_time_add issued (sc_validation_token_lifetime server_config);
          if expires <? system_now then mret (Ok unvalidated, log)
          else
            '(fresh, log) ← check_and_insert log nonce issued (sc_validation_token_lifetime server_config);
            if (fresh : bool) then mret (Ok (mkIncomingToken None (ih_dst_cid header) true), log)
            else mret (Ok unvalidated, log)
    end.

(** [ResetToken::new]: the first bytes of the signature of the connection id. *)
Record HmacKey : Type := mkHmacKey { hm_sign : list Z → list Z }.
Definition ResetToken_new (key : HmacKey) (id : ConnectionId) : M ResetToken :=
  let signature := hm_sign key (cid_bytes id) in
  _ ← rassert (RESET_TOKEN_SIZE <=? len signature);
  mret (mkResetToken (takeZ RESET_TOKEN_SIZE signature)).

(** * Tokens are read back *)

(** What the authenticated encryption promises: what is sealed is opened again. *)
Definition token_key_ok (key : HandshakeTokenKey) : Prop :=
  ∀ r data, ∃ sealed, ak_seal (aead_from_hkdf key r) data [] = Some sealed ∧
    ak_open (aead_from_hkdf key r) sealed [] = Some data.

Definition ip_wf (ip : IpAddr) : Prop :=
  match ip with IpV4 a => length (octets4 a) = 4%nat | IpV6 a => length (octets6 a) = 16%nat end.
Definition time_wf (t : Z) : Prop := t < 2 ^ 63 * SECOND.
Definition payload_wf (p : TokenPayload) : Prop :=
  match p with
  | RetryToken a cid t => ip_wf (addr_ip a) ∧ 0 <= addr_port a < 2 ^ 16 ∧ cid_wf cid ∧ time_wf t
  | ValidationToken ip t => ip_wf ip ∧ time_wf t
  end.

(** What a token keeps of an address and of a time. *)
Definition token_addr (a : SocketAddr) : SocketAddr := SocketAddr_new (addr_ip a) (addr_port a).
Definition token_time (t : Z) : Z := Z.max t 0 / SECOND * SECOND.
Definition token_payload (p : TokenPayload) : TokenPayload :=
  match p with
  | RetryToken a cid t => RetryToken (token_addr a) cid (token_time t)
  | ValidationToken ip t => ValidationToken ip (token_time t)
  end.

Lemma runs_olift {A} (p : parser UnexpectedEnd A) bs a rest :
  p (bs ++ rest) = (Ok a, rest) → runs (olift p) bs a rest.
Proof. unfold runs, olift, map_err. by intros ->. Qed.

Lemma runs_uint n x rest : 0 <= x < 256 ^ Z.of_nat n → runs (olift (decode (A := uint n))) (be_bytes n x) (mkUint x) rest.
Proof.
  intros Hx. apply runs_olift. destruct (encode_decode (A := uint n) (mkUint x)) as (bs & [= <-] & Hd); [done|]. apply Hd.
Qed.

Lemma runs_ip ip rest : ip_wf ip → runs decode_ip (encode_ip ip) ip rest.
Proof.
  destruct ip as [a|a]; intros Ha; simpl in Ha; unfold decode_ip, encode_ip;
    (eapply runs_bind; [apply runs_uint; lia|]); cbn [uval Z.eqb].
  - rewrite <- (app_nil_r (octets4 a)). eapply runs_bind; [|apply runs_ret]. apply runs_olift.
    by destruct (encode_decode (A := Ipv4Addr) a Ha) as (bs & [= <-] & Hd).
  - rewrite <- (app_nil_r (octets6 a)). eapply runs_bind; [|apply runs_ret]. apply runs_olift.
    by destruct (encode_decode (A := Ipv6Addr) a Ha) as (bs & [= <-] & Hd).
Qed.

Lemma runs_unix_secs t rest : time_wf t → runs decode_unix_secs (encode_unix_secs t) (token_time t) rest.
Proof.
  unfold time_wf, decode_unix_secs, encode_unix_secs, token_time. intros Ht.
  assert (0 <= Z.max t 0 / SECOND < 2 ^ 63) as Hs.
  { split; [apply Z.div_pos; unfold SECOND; lia|]. apply Z.div_lt_upper_bound; unfold SECOND in *; lia. }
  rewrite <- (app_nil_r (be_bytes 8 _)). eapply runs_bind; [apply runs_uint; lia|]. cbn [uval].
  unfold runs, total, system_time_add. rewrite Z.add_0_l.
  destruct (Z.ltb_spec (Z.max t 0 / SECOND * SECOND) (2 ^ 63 * SECOND)); [done|unfold SECOND in *; nia].
Qed.

Lemma runs_addr a rest : ip_wf (addr_ip a) → 0 <= addr_port a < 2 ^ 16 → runs decode_addr (encode_addr a) (token_addr a) rest.
Proof.
  intros Hip Hport. unfold decode_addr, encode_addr. eapply runs_bind; [by apply runs_ip|].
  rewrite <- (app_nil_r (be_bytes 2 _)). eapply runs_bind; [apply runs_uint; lia|]. apply runs_ret.
Qed.

Lemma runs_token_cid c rest : cid_wf c → runs decode_token_cid (encode_long c) c rest.
Proof. intros Hc. unfold runs, decode_token_cid. by rewrite decode_encode_long. Qed.

Lemma runs_payload p rest : payload_wf p → runs decode_payload (payload_bytes p) (token_payload p) rest.
Proof.
  destruct p as [a cid t|ip t]; unfold decode_payload, payload_bytes; cbn [payload_wf token_payload].
  - intros (Hip & Hport & Hcid & Ht). eapply runs_bind; [apply runs_uint; simpl; lia|].
    cbn [uval TokenType_from_byte find token_type_u8 Z.eqb].
    eapply runs_bind; [by apply runs_addr|]. eapply runs_bind; [by apply runs_token_cid|].
    rewrite <- (app_nil_r (encode_unix_secs t)). eapply runs_bind; [by apply runs_unix_secs|]. apply runs_ret.
  - intros (Hip & Ht). eapply runs_bind; [apply runs_uint; simpl; lia|].
    cbn [uval TokenType_from_byte find token_type_u8 Z.eqb].
    eapply runs_bind; [by apply runs_ip|].
    rewrite <- (app_nil_r (encode_unix_secs t)). eapply runs_bind; [by apply runs_unix_secs|]. apply runs_ret.
Qed.

Lemma le16_len x : len (le16 x) = 16.
Proof. unfold le16, len. by rewrite length_rev, be_bytes_length. Qed.

Lemma token_roundtrip key t :
  token_key_ok key → payload_wf (tk_payload t) → 0 <= tk_nonce t < 2 ^ 128 →
  ∃ raw, Token_encode t key = Ret raw ∧ raw ≠ [] ∧
    Token_decode key raw = Ret (Some (mkToken (token_payload (tk_payload t)) (tk_nonce t))).
Proof.
  intros Hkey Hp Hn. destruct (Hkey (le16 (tk_nonce t)) (payload_bytes (tk_payload t))) as (s & Hs & Ho).
  exists (s ++ le16 (tk_nonce t)). unfold Token_encode. rewrite Hs. split; [done|].
  pose proof (le16_len (tk_nonce t)) as H16. pose proof (len_nonneg s) as H0.
  split; [intros E; apply (f_equal len) in E; rewrite len_app, len_nil in E; lia|].
  unfold Token_decode, checked_sub. rewrite len_app, H16. zcases; [|lia].
  replace (len s + 16 - 16) with (len s) by lia. rewrite dropZ_app_ge, Z.sub_diag, dropZ_0 by lia.
  unfold takeZ, len at 1. rewrite take_app_length' by lia. rewrite Ho.
  pose proof (runs_payload (tk_payload t) [] Hp) as Hr. unfold runs in Hr. rewrite app_nil_r in Hr. rewrite Hr.
  cbn [mbind M_bind mret M_ret]. rewrite bool_decide_eq_true_2 by done.
  unfold from_le, le16. by rewrite rev_involutive, from_be_bytes_small by done.
Qed.


(** A key that leaves its input as it is. *)
Definition plain_token_key : HandshakeTokenKey := mkHandshakeTokenKey (fun _ => mkAeadKey (fun d _ => Some d) (fun d _ => Some d)).
Definition sample_server : ServerConfig := mkServerConfig (14 * 86400 * SECOND) 2 plain_token_key (15 * SECOND) true None None 100 1000 10000.
Definition sample_token_cid : ConnectionId := mkConnectionId 2 (7 :: 9 :: replicate 18 0).


(** A client with a scoped IPv6 address cannot return a Retry token: the scope is not kept in it. *)
Lemma retry_token_scoped_address_refused :
  let remote := SocketV6 (mkIpv6 ([254; 128] ++ replicate 13 0 ++ [1])) 4433 0 2 in
  ∃ raw, Token_encode (mkToken (RetryToken remote sample_token_cid (100 * SECOND)) 12345) plain_token_key = Ret raw ∧
    from_header mkNoneTokenLog (mkInitialHeader sample_token_cid sample_token_cid raw (PnU8 0) 1) sample_server
      remote (101 * SECOND) = Ret (Err mkInvalidRetryTokenError, mkNoneTokenLog).
Proof. intros remote. eexists. split; [vm_compute; reflexivity|]. vm_compute. reflexivity. Qed.
