(* ===== verification/TokenLog.v ===== *)
(** The log of used validation tokens: [quic-proto/src/bloom_token_log.rs].

    The Bloom filter comes from a library: it is the class [BloomFilter], whose laws are the class [BloomOk].  The
    capacity of a [HashSet] is decided by the standard library: it is a function of the number of elements, about which
    nothing is assumed. *)
From Stdlib Require Import SpecFloat.
From stdpp Require Import gmap.
From S2P Require Import Prelude Coding Ids Shared Frame Float Packet Retransmits Token.
Open Scope Z_scope.

(** [insert] tells whether the item may have been there before. *)
Class BloomFilter (B : Type) : Type := { with_num_bits : Z → Z → B; bloom_insert : B → Z → bool * B }.

Inductive Filter (B : Type) : Type := FilterSet (hset : gset Z) | FilterBloom (bloom : B).
Arguments FilterSet {B} hset.
Arguments FilterBloom {B} bloom.

Record FilterConfig : Type := mkFilterConfig { filter_max_bytes : Z; k_num : Z }.

(** [std::f64::consts::LN_2]. *)
Definition LN_2 : spec_float := S754_finite false 6243314768165359 (-53).

(** The cast to [u32] saturates. *)
Definition optimal_k_num (num_bytes expected_hits : Z) : Z :=
  let num_bits := Z.min u64_max (num_bytes * 8) in
  let expected_hits := Z.max expected_hits 1 in
  Z.max (Z.min u32_max (to_u64 (fround f64 (fmul f64 (fdiv f64 (of_int f64 num_bits) (of_int f64 expected_hits)) LN_2)))) 1.

Section TokenLog.
Context {B : Type} {HB : BloomFilter B} (capacity : Z → Z).

Record BloomTokenLog : Type := mkBloomTokenLog {
  bl_config : FilterConfig; period_1_start : Z; filter_1 : Filter B; filter_2 : Filter B }.

Definition BloomTokenLog_new (max_bytes k_num : Z) : BloomTokenLog :=
  mkBloomTokenLog (mkFilterConfig (max_bytes / 2) k_num) 0 (FilterSet ∅) (FilterSet ∅).

Definition new_expected_items (max_bytes expected_hits : Z) : BloomTokenLog :=
  BloomTokenLog_new max_bytes (optimal_k_num max_bytes expected_hits).

(** The new filter and whether the fingerprint is fresh. *)
Definition filter_check_and_insert (f : Filter B) (fingerprint : Z) (config : FilterConfig) : bool * Filter B :=
  match f with
  | FilterSet hset =>
      if bool_decide (fingerprint ∈ hset) then (false, f)
      else
        let hset := {[ fingerprint ]} ∪ hset in
        if capacity (Z.of_nat (base.size hset)) * 8 <=? filter_max_bytes config then (true, FilterSet hset)
        else
          let bloom := with_num_bits (Z.max (filter_max_bytes config * 8) 1) (k_num config) in
          (true, FilterBloom (fold_left (fun b item => (bloom_insert b item).2) (elements hset) bloom))
  | FilterBloom bloom =>
      let '(present, bloom) := bloom_insert bloom fingerprint in (negb present, FilterBloom bloom)
  end.

Definition bloom_check_and_insert (s : BloomTokenLog) (nonce issued lifetime : Z) : M (bool * BloomTokenLog) :=
  if lifetime =? 0 then mret (false, s)
  else
    expires_at ← system_time_add issued lifetime;
    if expires_at <? period_1_start s then mret (false, s)
    else
      let periods_forward := (expires_at - period_1_start s) / lifetime in
      let fingerprint := nonce mod 2 ^ 64 in
      let config := bl_config s in
      if periods_forward =? 0 then
        let '(r, f) := filter_check_and_insert (filter_1 s) fingerprint config in
        mret (r, mkBloomTokenLog config (period_1_start s) f (filter_2 s))
      else if periods_forward =? 1 then
        let '(r, f) := filter_check_and_insert (filter_2 s) fingerprint config in
        mret (r, mkBloomTokenLog config (period_1_start s) (filter_1 s) f)
      else if periods_forward =? 2 then
        start ← system_time_add (period_1_start s) lifetime;
        let '(r, f) := filter_check_and_insert (FilterSet ∅) fingerprint config in
        mret (r, mkBloomTokenLog config start (filter_2 s) f)
      else
        let '(r, f) := filter_check_and_insert (FilterSet ∅) fingerprint config in
        mret (r, mkBloomTokenLog config expires_at f (FilterSet ∅)).

#[export] Instance BloomTokenLog_TokenLog : TokenLog BloomTokenLog := { check_and_insert := bloom_check_and_insert }.

(** The attempts a server handles one after the other, each with the token it carried. *)
Record Attempt : Type := mkAttempt { at_header : InitialHeader; at_remote : SocketAddr; at_now : Z }.

Fixpoint handle_attempts (log : BloomTokenLog) (c : ServerConfig) (l : list Attempt)
    : M (list (result InvalidRetryTokenError IncomingToken) * BloomTokenLog) :=
  match l with
  | [] => mret ([], log)
  | a :: l =>
      '(r, log) ← from_header log (at_header a) c (at_remote a) (at_now a);
      '(rs, log) ← handle_attempts log c l;
      mret (r :: rs, log)
  end.

(** * Tokens are accepted once *)

(** What a Bloom filter promises: an item that was inserted is found from then on. *)
Class BloomOk : Type := {
  bloom_mem : B → Z → bool;
  bloom_insert_result : ∀ b x, (bloom_insert b x).1 = bloom_mem b x;
  bloom_insert_mem : ∀ b x y, y = x ∨ bloom_mem b y = true → bloom_mem (bloom_insert b x).2 y = true
}.

Context {HBok : BloomOk}.

Definition filter_mem (f : Filter B) (x : Z) : Prop :=
  match f with FilterSet s => x ∈ s | FilterBloom b => bloom_mem b x = true end.

Lemma bloom_fold_mem l b y :
  y ∈ l ∨ bloom_mem b y = true → bloom_mem (fold_left (fun b item => (bloom_insert b item).2) l b) y = true.
Proof.
  revert b. induction l as [|x l IH]; intros b [Hy|Hy]; cbn [fold_left]; [by apply elem_of_nil in Hy|done|..].
  - apply elem_of_cons in Hy as [->|Hy]; apply IH; [right; apply bloom_insert_mem; auto|auto].
  - apply IH. right. apply bloom_insert_mem. auto.
Qed.

Lemma filter_check_spec f x config r f' :
  filter_check_and_insert f x config = (r, f') →
  (r = true → ¬ filter_mem f x) ∧ (∀ y, filter_mem f y → filter_mem f' y) ∧ (r = true → filter_mem f' x).
Proof.
  destruct f as [s|b]; cbn [filter_check_and_insert].
  - case_bool_decide as Hx; [by intros [= <- <-]|]. destruct (_ <=? _); intros [= <- <-]; cbn [filter_mem].
    + split_and!; [done|set_solver|set_solver].
    + split_and!; [done|intros y Hy|intros _]; apply bloom_fold_mem; left; apply elem_of_elements; set_solver.
  - pose proof (bloom_insert_result b x) as Hr. pose proof (bloom_insert_mem b x) as Hm.
    destruct (bloom_insert b x) as [p b']. cbn [fst snd] in *. intros [= <- <-]. cbn [filter_mem]. split_and!.
    + intros Hp. apply negb_true_iff in Hp. congruence.
    + intros y Hy. by apply Hm; right.
    + intros _. by apply Hm; left.
Qed.

(** Where the log remembers the token of a nonce that expires at a time: it is too old, or in the filter of its period. *)
Definition remembered (lifetime : Z) (s : BloomTokenLog) (nonce expires : Z) : Prop :=
  expires < period_1_start s ∨
  (period_1_start s <= expires < period_1_start s + lifetime ∧ filter_mem (filter_1 s) (nonce mod 2 ^ 64)) ∨
  (period_1_start s + lifetime <= expires < period_1_start s + 2 * lifetime ∧ filter_mem (filter_2 s) (nonce mod 2 ^ 64)).

Lemma bloom_check_spec s nonce issued lifetime :
  0 < lifetime → issued + lifetime < 2 ^ 63 * SECOND →
  ∃ r s', bloom_check_and_insert s nonce issued lifetime = Ret (r, s') ∧
    (r = true → ¬ remembered lifetime s nonce (issued + lifetime) ∧ remembered lifetime s' nonce (issued + lifetime)) ∧
    (∀ n e, remembered lifetime s n e → remembered lifetime s' n e).
Proof.
  intros Hl Hmax. unfold bloom_check_and_insert. rewrite (proj2 (Z.eqb_neq lifetime 0)) by lia.
  unfold system_time_add. rewrite (proj2 (Z.ltb_lt _ _) Hmax). cbn [mbind M_bind mret M_ret].
  set (e := issued + lifetime). set (p := period_1_start s).
  destruct (Z.ltb_spec e p); [eexists _, _; split; [done|]; split; [done|by auto]|].
  pose proof (Z.div_mod (e - p) lifetime ltac:(lia)) as Hdiv. pose proof (Z.mod_pos_bound (e - p) lifetime Hl) as Hmod.
  assert (0 <= (e - p) / lifetime) by (apply Z.div_pos; lia).
  set (k := (e - p) / lifetime) in *. set (m := (e - p) mod lifetime) in *.
  destruct (Z.eqb_spec k 0) as [Hk|]; [|destruct (Z.eqb_spec k 1) as [Hk|]; [|destruct (Z.eqb_spec k 2) as [Hk|]]].
  - rewrite Hk in Hdiv. destruct (filter_check_and_insert _ _ _) as [r f] eqn:Hf. apply filter_check_spec in Hf as (H1 & H2 & H3).
    eexists _, _. split; [done|]. unfold remembered; cbn [period_1_start filter_1 filter_2]; fold p. split.
    + intros ->. split; [intros [?|[[? ?]|[? ?]]]; [lia|by apply H1|lia]|right; left; split; [lia|by apply H3]].
    + intros n' e' [?|[[? ?]|[? ?]]]; [by left|right; left; split; [done|by apply H2]|by right; right].
  - rewrite Hk in Hdiv. destruct (filter_check_and_insert _ _ _) as [r f] eqn:Hf. apply filter_check_spec in Hf as (H1 & H2 & H3).
    eexists _, _. split; [done|]. unfold remembered; cbn [period_1_start filter_1 filter_2]; fold p. split.
    + intros ->. split; [intros [?|[[? ?]|[? ?]]]; [lia|lia|by apply H1]|right; right; split; [lia|by apply H3]].
    + intros n' e' [?|[[? ?]|[? ?]]]; [by left|by right; left|right; right; split; [done|by apply H2]].
  - rewrite Hk in Hdiv. rewrite (proj2 (Z.ltb_lt (p + lifetime) _)) by lia.
    cbn [mbind M_bind mret M_ret].
    destruct (filter_check_and_insert _ _ _) as [r f] eqn:Hf. apply filter_check_spec in Hf as (H1 & H2 & H3).
    eexists _, _. split; [done|]. unfold remembered; cbn [period_1_start filter_1 filter_2]; fold p. split.
    + intros ->. split; [intros [?|[[? ?]|[? ?]]]; lia|right; right; split; [lia|by apply H3]].
    + intros n' e' [?|[[? ?]|[? ?]]]; [left; lia|left; lia|right; left; split; [lia|done]].
  - destruct (filter_check_and_insert _ _ _) as [r f] eqn:Hf. apply filter_check_spec in Hf as (H1 & H2 & H3).
    eexists _, _. split; [done|]. unfold remembered; cbn [period_1_start filter_1 filter_2]; fold p.
    assert (3 * lifetime <= lifetime * k) by nia. split.
    + intros ->. split; [intros [?|[[? ?]|[? ?]]]; lia|right; left; split; [lia|by apply H3]].
    + intros n' e' [?|[[? ?]|[? ?]]]; left; lia.
Qed.

(** The attempt is validated by a NEW_TOKEN token. *)
Definition validates (r : result InvalidRetryTokenError IncomingToken) : Prop := ∃ t, r = Ok t ∧ it_validated t = true.

Lemma from_header_remembers s c a r s' :
  0 < sc_validation_token_lifetime c →
  from_header s (at_header a) c (at_remote a) (at_now a) = Ret (r, s') →
  (∀ n e, remembered (sc_validation_token_lifetime c) s n e → remembered (sc_validation_token_lifetime c) s' n e) ∧
  (∀ ip issued nonce, Token_decode (sc_token_key c) (ih_token (at_header a)) = Ret (Some (mkToken (ValidationToken ip issued) nonce)) →
     validates r →
     ¬ remembered (sc_validation_token_lifetime c) s nonce (issued + sc_validation_token_lifetime c) ∧
     remembered (sc_validation_token_lifetime c) s' nonce (issued + sc_validation_token_lifetime c)).
Proof.
  intros Hl. unfold from_header. case_bool_decide.
  { intros [= <- <-]. split; [done|]. by intros ip issued nonce _ (t & [= <-] & ?). }
  destruct (Token_decode _ _) as [[[[addr cid t|ip t] nonce]|]|]; cbn [mbind M_bind mret M_ret]; [..|done].
  - intros Hr. assert (s' = s) as ->; [|done].
    case_bool_decide; cbn [negb] in Hr; [|by injection Hr]. unfold system_time_add in Hr.
    destruct (_ <? _) in Hr; [|done]. cbn [mbind M_bind mret M_ret] in Hr. destruct (_ <? _) in Hr; by injection Hr.
  - case_bool_decide; cbn [negb]; [|intros [= <- <-]; split; [done|]; by intros ip' i n _ (t' & [= <-] & ?)].
    unfold system_time_add. destruct (Z.ltb_spec (t + sc_validation_token_lifetime c) (2 ^ 63 * SECOND)) as [Hmax|]; [|done].
    cbn [mbind M_bind mret M_ret].
    destruct (_ <? at_now a); [intros [= <- <-]; split; [done|]; by intros ip' i n _ (t' & [= <-] & ?)|].
    destruct (bloom_check_spec s nonce t _ Hl Hmax) as (b & s2 & Hc & Hacc & Hmono).
    cbn [check_and_insert BloomTokenLog_TokenLog]. rewrite Hc. cbn [mbind M_bind mret M_ret].
    destruct b; intros [= <- <-]; (split; [done|]); intros ip' i n [= <- <- <-] (t' & [= <-] & Hv); [|done]. by apply Hacc.
  - intros [= <- <-]. split; [done|]. by intros ip issued nonce [=].
Qed.

Lemma handle_attempts_remembers c l s rs s' n e :
  0 < sc_validation_token_lifetime c → handle_attempts s c l = Ret (rs, s') →
  remembered (sc_validation_token_lifetime c) s n e → remembered (sc_validation_token_lifetime c) s' n e.
Proof.
  intros Hl. revert s rs. induction l as [|a l IH]; intros s rs; cbn [handle_attempts]; [by intros [= _ <-]|].
  destruct (from_header _ _ _ _ _) as [[r s2]|] eqn:Hf; cbn [mbind M_bind]; [|done].
  destruct (handle_attempts s2 c l) as [[rs2 s3]|] eqn:Ha; cbn [mbind M_bind]; [|done].
  intros [= _ <-] Hr. apply (IH s2 rs2); [done|]. by apply (proj1 (from_header_remembers s c a r s2 Hl Hf)).
Qed.

Lemma handle_attempts_app c l1 l2 s rs s' :
  handle_attempts s c (l1 ++ l2) = Ret (rs, s') →
  ∃ rs1 rs2 s1, handle_attempts s c l1 = Ret (rs1, s1) ∧ handle_attempts s1 c l2 = Ret (rs2, s') ∧ rs = rs1 ++ rs2 ∧
    length rs1 = length l1.
Proof.
  revert s rs. induction l1 as [|a l1 IH]; intros s rs; cbn [handle_attempts app].
  { intros Hr. by exists [], rs, s. }
  destruct (from_header _ _ _ _ _) as [[r s2]|] eqn:Hf; cbn [mbind M_bind]; [|done].
  destruct (handle_attempts s2 c (l1 ++ l2)) as [[rs0 s3]|] eqn:Ha; cbn [mbind M_bind]; [|done].
  intros [= <- <-]. apply IH in Ha as (rs1 & rs2 & s1 & H1 & H2 & -> & Hlen).
  exists (r :: rs1), rs2, s1. rewrite H1. cbn [mbind M_bind mret M_ret length]. auto.
Qed.
End TokenLog.

(** C29: Whatever connection attempts arrive, a token of a NEW_TOKEN frame validates at most one of them: a server that
    keeps its used tokens in the Bloom filter log never accepts the same token a second time, however much later, and
    however often the filters were turned over or replaced in between. *)
Theorem validation_token_single_use {B} {HB : BloomFilter B} {HBok : BloomOk} capacity max_bytes k c l rs (log : BloomTokenLog)
    i j (a b : Attempt) r1 r2 ip issued nonce :
  0 < sc_validation_token_lifetime c →
  handle_attempts capacity (BloomTokenLog_new max_bytes k) c l = Ret (rs, log) →
  (i < j)%nat → l !! i = Some a → l !! j = Some b → rs !! i = Some r1 → rs !! j = Some r2 →
  ih_token (at_header a) = ih_token (at_header b) →
  Token_decode (sc_token_key c) (ih_token (at_header a)) = Ret (Some (mkToken (ValidationToken ip issued) nonce)) →
  validates r1 → ¬ validates r2.
Proof.
  intros Hl Hrun Hij Ha Hb Hr1 Hr2 Htok Hd Hv1 Hv2.
  set (L := sc_validation_token_lifetime c) in *.
  rewrite <- (take_drop_middle l i a Ha) in Hrun.
  apply handle_attempts_app in Hrun as (rs1 & rs2 & s1 & H1 & H2 & -> & Hlen1).
  pose proof (lookup_lt_Some _ _ _ Ha) as Hi. pose proof (lookup_lt_Some _ _ _ Hb) as Hj. rewrite length_take in Hlen1.
  cbn [handle_attempts] in H2. destruct (from_header _ _ _ _ _) as [[q s2]|] eqn:Hf in H2; cbn [mbind M_bind] in H2; [|done].
  destruct (handle_attempts capacity s2 c (drop (S i) l)) as [[rs3 s3]|] eqn:H3; cbn [mbind M_bind] in H2; [|done].
  injection H2 as <- <-. rewrite lookup_app_r in Hr1, Hr2 by lia. replace (i - length rs1)%nat with 0%nat in Hr1 by lia.
  injection Hr1 as ->. destruct (j - length rs1)%nat as [|m] eqn:Em; [lia|]. change (rs3 !! m = Some r2) in Hr2.
  pose proof (proj2 (from_header_remembers capacity s1 c a r1 s2 Hl Hf) ip issued nonce Hd Hv1) as [_ Hrem].
  assert (drop (S i) l !! m = Some b) as Hm by (rewrite lookup_drop; rewrite <- Hb; f_equal; lia).
  rewrite <- (take_drop_middle _ m b Hm) in H3.
  apply handle_attempts_app in H3 as (rs4 & rs5 & s4 & H4 & H5 & -> & Hlen4).
  cbn [handle_attempts] in H5. destruct (from_header _ _ _ _ _) as [[q s5]|] eqn:Hf2 in H5; cbn [mbind M_bind] in H5; [|done].
  destruct (handle_attempts capacity s5 c _) as [[rs6 s6]|] eqn:H6 in H5; cbn [mbind M_bind] in H5; [|done].
  injection H5 as <- <-. rewrite length_take in Hlen4. pose proof (lookup_lt_Some _ _ _ Hm).
  rewrite lookup_app_r in Hr2 by lia. replace (m - length rs4)%nat with 0%nat in Hr2 by lia. injection Hr2 as ->.
  rewrite Htok in Hd. pose proof (proj2 (from_header_remembers capacity s4 c b r2 s5 Hl Hf2) ip issued nonce Hd Hv2) as [Hnot _].
  apply Hnot. by apply (handle_attempts_remembers capacity c _ _ _ _ _ _ Hl H4).
Qed.

(** A Bloom filter without false positives: the list of its items. *)
#[export] Instance list_BloomFilter : BloomFilter (list Z) := {
  with_num_bits _ _ := []; bloom_insert b x := (bool_decide (x ∈ b), x :: b) }.
#[export] Instance list_BloomOk : BloomOk (B := list Z).
Proof.
  refine {| bloom_mem b x := bool_decide (x ∈ b) |}; [done|].
  intros b x y Hy. apply bool_decide_eq_true. cbn. rewrite bool_decide_eq_true in Hy. by apply elem_of_cons.
Defined.

Definition sample_attempts : list Attempt :=
  match Token_encode (mkToken (ValidationToken (IpV4 (mkIpv4 [192; 0; 2; 1])) (100 * SECOND)) 12345) plain_token_key with
  | Ret raw =>
      let a := mkAttempt (mkInitialHeader sample_token_cid sample_token_cid raw (PnU8 0) 1) (SocketV4 (mkIpv4 [192; 0; 2; 1]) 4433)
                 (200 * SECOND) in [a; a]
  | Panic => []
  end.

Lemma validation_token_single_use_witness :
  ∃ a r1 r2 log, sample_attempts = [a; a] ∧
    handle_attempts (B := list Z) (fun n => n) (BloomTokenLog_new 100 3) sample_server sample_attempts = Ret ([r1; r2], log) ∧
    validates r1 ∧ ¬ validates r2.
Proof.
  eexists _, _, _, _. split; [vm_compute; reflexivity|]. split; [vm_compute; reflexivity|].
  split; [eexists; by split|].
  eapply (validation_token_single_use (B := list Z) (fun n => n) 100 3 sample_server sample_attempts _ _ 0 1);
    [done|vm_compute; reflexivity|lia|vm_compute; reflexivity|vm_compute; reflexivity|reflexivity|reflexivity|done|vm_compute; reflexivity|].
  eexists; by split.
Defined.

(** The number of hash functions of the default log. *)
Lemma optimal_k_num_default : optimal_k_num (10 * 2 ^ 20) 1000000 = 58.
Proof. vm_compute. reflexivity. Qed.
