(* ===== verification/TokenCache.v ===== *)
(** The client's store of validation tokens: [quic-proto/src/token_memory_cache.rs].

    The slab with its least-recently-used order comes from a library: it is the class [LruSlab], whose laws, the class
    [LruSlabOk], describe it as the list of its entries from the least to the most recently used one.  Server names and
    tokens are lists of bytes. *)
From stdpp Require Import gmap.
From S2P Require Import Prelude.
Open Scope Z_scope.

(** [get_mut] is given the update of the entry it borrows. *)
Class LruSlab (S V : Type) : Type := {
  slab_default : S;
  slab_len : S → Z;
  slab_insert : S → V → Z * S;
  slab_lru : S → option Z;
  slab_get : S → Z → M V;
  slab_set : S → Z → V → S;
  slab_remove : S → Z → M (V * S)
}.

(** The trait of the same name. *)
Class TokenStore (T : Type) : Type := {
  store_insert : T → list Z → list Z → M T;
  store_take : T → list Z → M (option (list Z) * T)
}.

(** [NoneTokenStore]. *)
Inductive NoneTokenStore : Type := mkNoneTokenStore.
#[global] Instance NoneTokenStore_TokenStore : TokenStore NoneTokenStore := {
  store_insert t _ _ := mret t; store_take t _ := mret (None, t) }.

Record CacheEntry : Type := mkCacheEntry { ce_server_name : list Z; ce_tokens : list (list Z) }.

Section TokenCache.
Context {S : Type} {HS : LruSlab S CacheEntry}.

Record TokenMemoryCache : Type := mkTokenMemoryCache {
  max_server_names : Z;
  max_tokens_per_server : Z;
  lookup_name : gmap (list Z) Z;
  lru : S
}.

Definition TokenMemoryCache_new (max_server_names max_tokens_per_server : Z) : TokenMemoryCache :=
  mkTokenMemoryCache max_server_names max_tokens_per_server ∅ slab_default.

(** [get_mut] marks the entry as the most recently used one and lets the caller change it. *)
Definition store (s : TokenMemoryCache) (server_name token : list Z) : M TokenMemoryCache :=
  if max_server_names s =? 0 then mret s
  else if max_tokens_per_server s =? 0 then mret s
  else
    match lookup_name s !! server_name with
    | Some slot =>
        entry ← slab_get (lru s) slot;
        tokens ← (if max_tokens_per_server s <=? len (ce_tokens entry) then
                    _ ← rassert (len (ce_tokens entry) =? max_tokens_per_server s);
                    match ce_tokens entry with [] => Panic | _ :: tokens => mret tokens end
                  else mret (ce_tokens entry));
        mret (mkTokenMemoryCache (max_server_names s) (max_tokens_per_server s) (lookup_name s)
                (slab_set (lru s) slot (mkCacheEntry (ce_server_name entry) (tokens ++ [token]))))
    | None =>
        '(removed_key, l) ←
          (if max_server_names s <=? slab_len (lru s) then
             match slab_lru (lru s) with
             | None => Panic
             | Some slot => '(e, l) ← slab_remove (lru s) slot; mret (Some (ce_server_name e), l)
             end
           else mret (None, lru s));
        let '(slot, l) := slab_insert l (mkCacheEntry server_name [token]) in
        let m := <[server_name := slot]> (lookup_name s) in
        m ← match removed_key with
            | Some name =>
                _ ← rassert (match m !! name with Some _ => true | None => false end);
                mret (base.delete name m)
            | None => mret m
            end;
        mret (mkTokenMemoryCache (max_server_names s) (max_tokens_per_server s) m l)
    end.

Definition take_token (s : TokenMemoryCache) (server_name : list Z) : M (option (list Z) * TokenMemoryCache) :=
  match lookup_name s !! server_name with
  | None => mret (None, s)
  | Some slot =>
      entry ← slab_get (lru s) slot;
      match ce_tokens entry with
      | [] => Panic
      | token :: tokens =>
          let l := slab_set (lru s) slot (mkCacheEntry (ce_server_name entry) tokens) in
          if bool_decide (tokens = []) then
            '(_, l) ← slab_remove l slot;
            mret (Some token, mkTokenMemoryCache (max_server_names s) (max_tokens_per_server s)
                                (base.delete server_name (lookup_name s)) l)
          else mret (Some token, mkTokenMemoryCache (max_server_names s) (max_tokens_per_server s) (lookup_name s) l)
      end
  end.

#[export] Instance TokenMemoryCache_TokenStore : TokenStore TokenMemoryCache := {
  store_insert := store; store_take := take_token }.

(** * What the store promises *)

(** The store as a list of names with their tokens, from the least to the most recently used name. *)
Definition cache : Type := list (list Z * list (list Z)).

Definition of_name (c : cache) (name : list Z) : option (list (list Z)) := snd <$> find (fun e => bool_decide (e.1 = name)) c.
Definition others (c : cache) (name : list Z) : cache := filter (fun e => e.1 ≠ name) c.

Definition spec_store (names tokens : Z) (c : cache) (name token : list Z) : cache :=
  if (names =? 0) || (tokens =? 0) then c
  else
    match of_name c name with
    | Some q => others c name ++ [(name, (if tokens <=? len q then drop 1 q else q) ++ [token])]
    | None => (if names <=? len c then drop 1 c else c) ++ [(name, [token])]
    end.

Definition entry_of (name : list Z) (q : list (list Z)) : cache := match q with [] => [] | _ => [(name, q)] end.

Definition spec_take (c : cache) (name : list Z) : option (list Z) * cache :=
  match of_name c name with
  | Some (t :: q) => (Some t, others c name ++ entry_of name q)
  | _ => (None, c)
  end.

(** The laws of the slab. *)
Class LruSlabOk : Type := {
  entries : S → list (Z * CacheEntry);
  entries_nodup : ∀ s, NoDup (entries s).*1;
  slab_default_ok : entries slab_default = [];
  slab_len_ok : ∀ s, slab_len s = len (entries s);
  slab_insert_ok : ∀ s v, (slab_insert s v).1 ∉ (entries s).*1 ∧ entries (slab_insert s v).2 = entries s ++ [((slab_insert s v).1, v)];
  slab_lru_ok : ∀ s, slab_lru s = fst <$> head (entries s);
  slab_get_ok : ∀ s k v, (k, v) ∈ entries s → slab_get s k = Ret v;
  slab_set_ok : ∀ s k v v', (k, v) ∈ entries s → entries (slab_set s k v') = filter (fun e => e.1 ≠ k) (entries s) ++ [(k, v')];
  slab_remove_ok : ∀ s k v, (k, v) ∈ entries s →
    ∃ s', slab_remove s k = Ret (v, s') ∧ entries s' = filter (fun e => e.1 ≠ k) (entries s)
}.
Context {HSok : LruSlabOk}.

Definition view (e : Z * CacheEntry) : list Z * list (list Z) := (ce_server_name e.2, ce_tokens e.2).

(** The slab holds the cache, and the map finds the slot of every name. *)
Record cache_refines (s : TokenMemoryCache) (c : cache) : Prop := {
  cr_entries : c = map view (entries (lru s));
  cr_names : NoDup c.*1;
  cr_lookup : ∀ name k, lookup_name s !! name = Some k ↔ ∃ q, (k, mkCacheEntry name q) ∈ entries (lru s);
  cr_tokens : Forall (fun e => e.2 ≠ [] ∧ len e.2 <= max_tokens_per_server s) c;
  cr_len : len c <= max_server_names s
}.

Lemma of_name_spec (c : cache) name q : NoDup c.*1 → of_name c name = Some q ↔ (name, q) ∈ c.
Proof.
  unfold of_name. induction c as [|[n q'] c IH]; cbn [find fmap list_fmap fst]; intros Hnd.
  { split; [done|]. intros Hin. by apply elem_of_nil in Hin. }
  apply NoDup_cons in Hnd as [Hn Hnd]. rewrite elem_of_cons. case_bool_decide as Hc; cbn [fst] in Hc.
  - subst n. cbn. split; [intros [= <-]; by left|]. intros [[= <-]|Hin]; [done|]. destruct Hn. apply list_elem_of_fmap.
    by exists (name, q).
  - rewrite IH by done. split; [auto|]. intros [[= <- <-]|Hin]; [done|done].
Qed.

Lemma of_name_none (c : cache) name : of_name c name = None ↔ name ∉ c.*1.
Proof.
  unfold of_name. induction c as [|[n q'] c IH]; cbn [find fmap list_fmap fst].
  { split; [intros _; apply not_elem_of_nil|done]. }
  rewrite elem_of_cons. case_bool_decide as Hc; cbn [fst] in Hc; [subst; cbn; split; [done|intros Hn; destruct Hn; by left]|]. rewrite IH. naive_solver.
Qed.

Lemma filter_keep {A} (P : A → Prop) `{∀ x, Decision (P x)} (l : list A) : (∀ x, x ∈ l → P x) → filter P l = l.
Proof.
  induction l as [|x l IH]; [done|]. intros Hl. rewrite filter_cons, decide_True by (apply Hl; by left).
  rewrite IH; [done|]. intros y Hy. apply Hl. by right.
Qed.

(** Slots and names select the same entry. *)
Lemma view_filter (l : list (Z * CacheEntry)) k name q :
  NoDup l.*1 → NoDup (map view l).*1 → (k, mkCacheEntry name q) ∈ l →
  map view (filter (fun e => e.1 ≠ k) l) = others (map view l) name.
Proof.
  unfold others. induction l as [|[k' [n' q']] l IH]; [done|]. cbn [map list_fmap fmap fst view ce_server_name ce_tokens].
  intros Hk Hn Hin. apply NoDup_cons in Hk as [Hk1 Hk2]. apply NoDup_cons in Hn as [Hn1 Hn2].
  rewrite (filter_cons (A := Z * CacheEntry)), (filter_cons (A := list Z * list (list Z))).
  apply elem_of_cons in Hin as [[= <- <- <-]|Hin].
  - rewrite !decide_False by (cbn; tauto). rewrite (filter_keep _ l), (filter_keep _ (map view l)); [done|..].
    + intros e He Hc. apply Hn1. cbn. rewrite <- Hc. by apply list_elem_of_fmap_2.
    + intros e He Hc. apply Hk1. rewrite <- Hc. by apply list_elem_of_fmap_2.
  - assert (k' ≠ k) by (intros ->; apply Hk1; by apply (list_elem_of_fmap_2 fst _ (k, mkCacheEntry name q))).
    assert (n' ≠ name).
    { intros ->. apply Hn1. apply (list_elem_of_fmap_2 fst _ (name, q)).
      by apply (list_elem_of_fmap_2 view _ (k, mkCacheEntry name q)). }
    rewrite !decide_True by done. cbn [map view ce_server_name ce_tokens snd]. by rewrite IH.
Qed.

Lemma others_names (c : cache) name : name ∉ (others c name).*1.
Proof. unfold others. intros ([n q] & Hn & Hin)%list_elem_of_fmap. apply list_elem_of_filter in Hin as [? _]. by cbn in *. Qed.

Lemma others_sub (c : cache) name : others c name ⊆ c.
Proof. intros e He. by apply list_elem_of_filter in He as [_ ?]. Qed.

Lemma others_cons n q (c : cache) name :
  others ((n, q) :: c) name = if decide (n = name) then others c name else (n, q) :: others c name.
Proof. unfold others. rewrite (filter_cons (A := list Z * list (list Z))). repeat case_decide; cbn in *; tauto. Qed.

Lemma others_nodup (c : cache) name : NoDup c.*1 → NoDup (others c name).*1.
Proof.
  induction c as [|[n q] c IH]; [done|]. intros Hnd. rewrite fmap_cons in Hnd. apply NoDup_cons in Hnd as [Hn Hnd].
  rewrite others_cons. case_decide; [by apply IH|]. rewrite fmap_cons. apply NoDup_cons. split; [|by apply IH].
  intros ([n' q'] & Hn' & Hin)%list_elem_of_fmap. apply Hn. cbn in Hn'. subst n'. apply others_sub in Hin.
  by apply (list_elem_of_fmap_2 fst _ (n, q')).
Qed.

Lemma others_len (c : cache) name q : (name, q) ∈ c → len (others c name) + 1 <= len c.
Proof.
  assert (∀ c : cache, len (others c name) <= len c) as Hle.
  { intros c'. induction c' as [|[n q'] c' IH]; [done|]. rewrite others_cons. case_decide; rewrite ?len_cons; lia. }
  induction c as [|[n q'] c IH]; intros Hin; [by apply elem_of_nil in Hin|].
  rewrite others_cons. apply elem_of_cons in Hin as [[= -> ->]|Hin].
  - rewrite decide_True by done. rewrite len_cons. specialize (Hle c). lia.
  - specialize (IH Hin). case_decide; rewrite ?len_cons; lia.
Qed.

Lemma elem_of_slot (l : list (Z * CacheEntry)) k e e' : NoDup l.*1 → (k, e) ∈ l → (k, e') ∈ l → e = e'.
Proof.
  induction l as [|[k0 e0] l IH]; intros Hnd; [intros H1; by apply elem_of_nil in H1|].
  rewrite fmap_cons in Hnd. apply NoDup_cons in Hnd as [Hn Hnd]. rewrite !elem_of_cons.
  intros [H1|H1] [H2|H2]; [congruence|..|by apply IH]; destruct Hn.
  - injection H1 as -> ->. by apply (list_elem_of_fmap_2 fst _ (k0, e')).
  - injection H2 as -> ->. by apply (list_elem_of_fmap_2 fst _ (k0, e)).
Qed.

(** Changing the tokens of a name, which becomes the most recently used. *)
Lemma refines_update s c name slot q q' l :
  cache_refines s c → lookup_name s !! name = Some slot → (slot, mkCacheEntry name q) ∈ entries (lru s) →
  q' ≠ [] → len q' <= max_tokens_per_server s →
  entries l = filter (fun e => e.1 ≠ slot) (entries (lru s)) ++ [(slot, mkCacheEntry name q')] →
  cache_refines (mkTokenMemoryCache (max_server_names s) (max_tokens_per_server s) (lookup_name s) l) (others c name ++ [(name, q')]).
Proof.
  intros [He Hn Hl Ht Hc] Hslot Hin Hq Hlen Hl'. pose proof (entries_nodup (lru s)) as Hnd.
  assert ((name, q) ∈ c) as Hcin by (rewrite He; by apply (list_elem_of_fmap_2 view _ (slot, mkCacheEntry name q))).
  split; cbn [lru lookup_name max_tokens_per_server max_server_names].
  - rewrite Hl', map_app, (view_filter _ _ name q); [by rewrite <- He|done|by rewrite <- He|done].
  - rewrite fmap_app. apply NoDup_app. split_and!; [by apply others_nodup| |apply NoDup_singleton].
    intros n Hin' ->%list_elem_of_singleton. by apply others_names in Hin'.
  - intros n k. rewrite Hl, Hl'. split; intros [q0 Hq0].
    + destruct (decide (k = slot)) as [->|Hk].
      * pose proof (elem_of_slot _ _ _ _ Hnd Hq0 Hin) as [= -> ->]. exists q'. apply elem_of_app. right. by apply list_elem_of_singleton.
      * exists q0. apply elem_of_app. left. by apply list_elem_of_filter.
    + apply elem_of_app in Hq0 as [Hq0|Hq0]; [apply list_elem_of_filter in Hq0 as [_ ?]; eauto|].
      apply list_elem_of_singleton in Hq0. injection Hq0 as -> -> ->. eauto.
  - apply Forall_app. split; [|by apply Forall_singleton]. apply Forall_forall. intros e He'. apply others_sub in He'.
    by apply (proj1 (Forall_forall _ _) Ht).
  - rewrite len_app, len_cons, len_nil. pose proof (others_len c name q Hcin). lia.
Qed.

(** Adding a name that is not there. *)
Lemma refines_insert s c name token :
  cache_refines s c → lookup_name s !! name = None → 1 <= max_tokens_per_server s → len c + 1 <= max_server_names s →
  let '(slot, l) := slab_insert (lru s) (mkCacheEntry name [token]) in
  cache_refines (mkTokenMemoryCache (max_server_names s) (max_tokens_per_server s) (<[name := slot]> (lookup_name s)) l)
    (c ++ [(name, [token])]).
Proof.
  intros [He Hn Hl Ht Hc] Hnone Hmax Hlen. destruct (slab_insert_ok (lru s) (mkCacheEntry name [token])) as [Hfresh Hl'].
  destruct (slab_insert _ _) as [slot l]. cbn [fst snd] in *.
  assert (∀ k q, (k, mkCacheEntry name q) ∉ entries (lru s)) as Hno.
  { intros k q Hin. assert (lookup_name s !! name = Some k) by (apply Hl; eauto). congruence. }
  split; cbn [lru lookup_name max_tokens_per_server max_server_names].
  - rewrite Hl', map_app. by rewrite <- He.
  - rewrite fmap_app. apply NoDup_app. split_and!; [done| |apply NoDup_singleton].
    intros n Hin ->%list_elem_of_singleton. rewrite He in Hin. apply list_elem_of_fmap in Hin as ([n q] & [= Hnm] & Hin).
    apply list_elem_of_fmap in Hin as ([k [n' q']] & [= -> ->] & Hin). cbn in Hnm. subst n'. by apply Hno in Hin.
  - intros n k. rewrite Hl'. destruct (decide (n = name)) as [->|Hne].
    + rewrite lookup_insert_eq. split.
      * intros [= <-]. eexists. apply elem_of_app. right. by apply list_elem_of_singleton.
      * intros [q Hq]. apply elem_of_app in Hq as [Hq|Hq]; [by apply Hno in Hq|]. apply list_elem_of_singleton in Hq. congruence.
    + rewrite lookup_insert_ne, Hl by done. split; intros [q Hq].
      * exists q. apply elem_of_app. by left.
      * apply elem_of_app in Hq as [Hq|Hq]; [eauto|]. apply list_elem_of_singleton in Hq. congruence.
  - apply Forall_app. split; [done|]. apply Forall_singleton. cbn. split; [done|]. rewrite len_cons, len_nil. lia.
  - rewrite len_app, len_cons, len_nil. lia.
Qed.

(** Removing a name. *)
Lemma refines_remove s c name slot q l :
  cache_refines s c → (slot, mkCacheEntry name q) ∈ entries (lru s) →
  entries l = filter (fun e => e.1 ≠ slot) (entries (lru s)) →
  cache_refines (mkTokenMemoryCache (max_server_names s) (max_tokens_per_server s) (base.delete name (lookup_name s)) l) (others c name).
Proof.
  intros [He Hn Hl Ht Hc] Hin Hl'. pose proof (entries_nodup (lru s)) as Hnd.
  assert ((name, q) ∈ c) as Hcin by (rewrite He; by apply (list_elem_of_fmap_2 view _ (slot, mkCacheEntry name q))).
  assert (lookup_name s !! name = Some slot) as Hslot by (apply Hl; eauto).
  split; cbn [lru lookup_name max_tokens_per_server max_server_names].
  - rewrite Hl', (view_filter _ _ name q); [by rewrite <- He|done|by rewrite <- He|done].
  - by apply others_nodup.
  - intros n k. rewrite Hl'. destruct (decide (n = name)) as [->|Hne].
    + rewrite lookup_delete_eq. split; [done|]. intros [q' Hq]. apply list_elem_of_filter in Hq as [Hk Hq].
      assert (lookup_name s !! name = Some k) by (apply Hl; eauto). cbn in Hk. congruence.
    + rewrite lookup_delete_ne, Hl by done. split; intros [q' Hq]; exists q'.
      * apply list_elem_of_filter. split; [|done]. cbn. intros ->. pose proof (elem_of_slot _ _ _ _ Hnd Hq Hin). congruence.
      * by apply list_elem_of_filter in Hq as [_ ?].
  - apply Forall_forall. intros e He'. apply others_sub in He'. by apply (proj1 (Forall_forall _ _) Ht).
  - pose proof (others_len c name q Hcin). lia.
Qed.

Lemma others_head n q (c : cache) : NoDup (((n, q) :: c).*1) → others ((n, q) :: c) n = c.
Proof.
  rewrite fmap_cons. intros [Hn _]%NoDup_cons. rewrite others_cons, decide_True by done. unfold others. apply filter_keep.
  intros e He Hc. apply Hn. cbn. rewrite <- Hc. by apply list_elem_of_fmap_2.
Qed.

Lemma refines_of_name s c name :
  cache_refines s c →
  match lookup_name s !! name with
  | Some slot => ∃ q, (slot, mkCacheEntry name q) ∈ entries (lru s) ∧ of_name c name = Some q ∧ q ≠ [] ∧ len q <= max_tokens_per_server s
  | None => of_name c name = None
  end.
Proof.
  intros Hr. destruct Hr as [He Hn Hl Ht Hc]. destruct (lookup_name s !! name) as [slot|] eqn:E.
  - apply Hl in E as [q Hq]. exists q.
    assert ((name, q) ∈ c) as Hin by (rewrite He; by apply (list_elem_of_fmap_2 view _ (slot, mkCacheEntry name q))).
    split_and!; [done|by apply of_name_spec|..]; by apply (proj1 (Forall_forall _ _) Ht (name, q)).
  - apply of_name_none. rewrite He. intros Hin. apply list_elem_of_fmap in Hin as ([n q] & -> & Hin).
    apply list_elem_of_fmap in Hin as ([k [n' q']] & [= -> ->] & Hin). cbn in *.
    assert (lookup_name s !! n' = Some k) by (apply Hl; eauto). congruence.
Qed.

Lemma store_refines s c name token :
  cache_refines s c → 0 <= max_tokens_per_server s →
  ∃ s', store s name token = Ret s' ∧
    cache_refines s' (spec_store (max_server_names s) (max_tokens_per_server s) c name token) ∧
    max_server_names s' = max_server_names s ∧ max_tokens_per_server s' = max_tokens_per_server s.
Proof.
  intros Hr Hmax. pose proof (cr_len _ _ Hr) as Hlen. pose proof (len_nonneg c). unfold store, spec_store.
  destruct (Z.eqb_spec (max_server_names s) 0); [by exists s|]. destruct (Z.eqb_spec (max_tokens_per_server s) 0); [by exists s|].
  cbn [orb]. pose proof (refines_of_name s c name Hr) as Hname. destruct (lookup_name s !! name) as [slot|] eqn:E.
  - destruct Hname as (q & Hin & Hq & Hne & Hle). rewrite Hq, (slab_get_ok _ _ _ Hin). cbn [mbind M_bind ce_tokens ce_server_name].
    assert (∀ q1, len q1 + 1 <= max_tokens_per_server s → ∃ s', Ret (mkTokenMemoryCache (max_server_names s) (max_tokens_per_server s)
        (lookup_name s) (slab_set (lru s) slot (mkCacheEntry name (q1 ++ [token])))) = Ret s' ∧
      cache_refines s' (others c name ++ [(name, q1 ++ [token])]) ∧
      max_server_names s' = max_server_names s ∧ max_tokens_per_server s' = max_tokens_per_server s) as Hpush.
    { intros q1 Hq1. eexists. split; [done|]. split; [|done].
      eapply (refines_update s c name slot q); [done..|by destruct q1| |by apply slab_set_ok with (v := mkCacheEntry name q)].
      rewrite len_app, len_cons, len_nil. lia. }
    destruct (Z.leb_spec (max_tokens_per_server s) (len q)).
    + rewrite (proj2 (Z.eqb_eq (len q) (max_tokens_per_server s))) by lia. cbn [rassert mbind M_bind mret M_ret]. destruct q as [|t q]; [done|].
      cbn [drop]. rewrite ?drop_0. apply Hpush. rewrite len_cons in Hle. lia.
    + cbn [mbind M_bind mret M_ret]. apply Hpush. lia.
  - rewrite Hname, slab_len_ok. assert (len (entries (lru s)) = len c) as ->.
    { rewrite (cr_entries _ _ Hr). unfold len. by rewrite length_map. }
    destruct (Z.leb_spec (max_server_names s) (len c)) as [Hfull|Hroom].
    + pose proof (cr_entries _ _ Hr) as He. pose proof (cr_names _ _ Hr) as Hnd. rewrite slab_lru_ok.
      destruct (entries (lru s)) as [|[k [ev q]] l] eqn:El; [subst c; unfold len in *; cbn in *; lia|]. cbn [head fmap option_fmap option_map fst].
      assert ((k, mkCacheEntry ev q) ∈ entries (lru s)) as Hin by (rewrite El; by left).
      destruct (slab_remove_ok _ _ _ Hin) as (l1 & -> & Hl1). cbn [mbind M_bind mret M_ret ce_server_name].
      pose proof (refines_remove s c ev k q l1 Hr Hin Hl1) as Hr1.
      subst c. change (map view ((k, mkCacheEntry ev q) :: l)) with ((ev, q) :: map view l) in *.
      rewrite others_head in Hr1 by done. cbn [drop]. rewrite len_cons in *.
      assert (ev ≠ name) as Hev by (intros ->; apply of_name_none in Hname; apply Hname; by left).
      pose proof (refines_insert _ _ name token Hr1) as Hi. cbn [lookup_name max_tokens_per_server max_server_names lru] in Hi.
      rewrite lookup_delete_ne, E in Hi by done. specialize (Hi eq_refl ltac:(lia) ltac:(lia)).
      destruct (slab_insert l1 _) as [slot l2]. rewrite lookup_insert_ne by done.
      assert (lookup_name s !! ev = Some k) as Ek by (apply (cr_lookup _ _ Hr); eauto). rewrite Ek. cbn [rassert mbind M_bind mret M_ret].
      eexists. split; [done|]. rewrite <- delete_insert_ne in Hi by done. by split.
    + cbn [mbind M_bind mret M_ret]. pose proof (refines_insert s c name token Hr E ltac:(lia) ltac:(lia)) as Hi.
      destruct (slab_insert _ _) as [slot l]. eexists. split; [done|]. by split.
Qed.

Lemma take_refines s c name :
  cache_refines s c →
  ∃ s', take_token s name = Ret ((spec_take c name).1, s') ∧ cache_refines s' (spec_take c name).2 ∧
    max_server_names s' = max_server_names s ∧ max_tokens_per_server s' = max_tokens_per_server s.
Proof.
  intros Hr. pose proof (refines_of_name s c name Hr) as Hname. unfold take_token, spec_take.
  destruct (lookup_name s !! name) as [slot|] eqn:E; [|rewrite Hname; by exists s].
  destruct Hname as (q & Hin & -> & Hne & Hle). rewrite (slab_get_ok _ _ _ Hin). cbn [mbind M_bind ce_tokens ce_server_name].
  destruct q as [|t q]; [done|]. pose proof (slab_set_ok _ _ _ (mkCacheEntry name q) Hin) as Hset. case_bool_decide as Hq.
  - assert ((slot, mkCacheEntry name q) ∈ entries (slab_set (lru s) slot (mkCacheEntry name q))) as Hin2.
    { rewrite Hset. apply elem_of_app. right. by apply list_elem_of_singleton. }
    destruct (slab_remove_ok _ _ _ Hin2) as (l & -> & Hl). cbn [mbind M_bind mret M_ret fst snd]. rewrite Hq, app_nil_r.
    eexists. split; [done|]. split; [|done]. eapply refines_remove; [done..|]. subst q. rewrite Hl, Hset, filter_app.
    rewrite (filter_cons (A := Z * CacheEntry)), decide_False by (cbn; tauto). cbn [filter list_filter]. rewrite app_nil_r.
    apply filter_keep. intros e He. by apply list_elem_of_filter in He as [? _].
  - cbn [fst snd]. eexists. split; [done|]. split; [|done]. destruct q as [|t' q]; [done|].
    eapply (refines_update s c name slot (t :: t' :: q)); [done..| |done]. rewrite len_cons in Hle. lia.
Qed.

(** * Runs *)

Inductive cache_op : Type := OpStore (name token : list Z) | OpTake (name : list Z).

(** The results of the calls of [take], with the names they asked for. *)
Fixpoint run_cache (s : TokenMemoryCache) (ops : list cache_op) : M (list (list Z * option (list Z)) * TokenMemoryCache) :=
  match ops with
  | [] => mret ([], s)
  | OpStore name token :: ops => s ← store_insert s name token; run_cache s ops
  | OpTake name :: ops =>
      '(r, s) ← store_take s name;
      '(rs, s) ← run_cache s ops;
      mret ((name, r) :: rs, s)
  end.

Fixpoint run_spec (names tokens : Z) (c : cache) (ops : list cache_op) : list (list Z * option (list Z)) * cache :=
  match ops with
  | [] => ([], c)
  | OpStore name token :: ops => run_spec names tokens (spec_store names tokens c name token) ops
  | OpTake name :: ops =>
      let '(r, c) := spec_take c name in
      let '(rs, c) := run_spec names tokens c ops in ((name, r) :: rs, c)
  end.

Lemma run_refines ops s c :
  cache_refines s c → 0 <= max_tokens_per_server s →
  ∃ s', run_cache s ops = Ret ((run_spec (max_server_names s) (max_tokens_per_server s) c ops).1, s') ∧
    cache_refines s' (run_spec (max_server_names s) (max_tokens_per_server s) c ops).2 ∧
    max_server_names s' = max_server_names s ∧ max_tokens_per_server s' = max_tokens_per_server s.
Proof.
  revert s c. induction ops as [|[name token|name] ops IH]; intros s c Hr Hmax; cbn [run_cache run_spec]; [by exists s|..].
  - destruct (store_refines s c name token Hr Hmax) as (s1 & Hs & Hr1 & Hn & Ht). cbn [store_insert TokenMemoryCache_TokenStore].
    rewrite Hs. cbn [mbind M_bind]. rewrite <- Hn, <- Ht. rewrite <- Hn, <- Ht in Hr1. apply IH; [done|lia].
  - destruct (take_refines s c name Hr) as (s1 & Hs & Hr1 & Hn & Ht). cbn [store_take TokenMemoryCache_TokenStore].
    rewrite Hs. cbn [mbind M_bind]. destruct (spec_take c name) as [r c1]. cbn [fst snd] in *.
    destruct (IH s1 c1 Hr1 ltac:(lia)) as (s2 & Hs2 & Hr2 & Hn2 & Ht2). rewrite Hs2, <- Hn, <- Ht. cbn [mbind M_bind mret M_ret].
    destruct (run_spec _ _ c1 ops) as [rs c2]. cbn [fst snd] in *. exists s2. split_and!; [done..|congruence|congruence].
Qed.

(** How often a token was stored for a name, was taken for it, and is kept for it. *)
Fixpoint stored (ops : list cache_op) (name token : list Z) : Z :=
  match ops with
  | [] => 0
  | OpStore n t :: ops => (if bool_decide (n = name ∧ t = token) then 1 else 0) + stored ops name token
  | OpTake _ :: ops => stored ops name token
  end.
Fixpoint taken (rs : list (list Z * option (list Z))) (name token : list Z) : Z :=
  match rs with
  | [] => 0
  | (n, r) :: rs => (if bool_decide (n = name ∧ r = Some token) then 1 else 0) + taken rs name token
  end.
Fixpoint occurrences (q : list (list Z)) (token : list Z) : Z :=
  match q with [] => 0 | t :: q => (if bool_decide (t = token) then 1 else 0) + occurrences q token end.
Fixpoint kept (c : cache) (name token : list Z) : Z :=
  match c with
  | [] => 0
  | (n, q) :: c => (if bool_decide (n = name) then occurrences q token else 0) + kept c name token
  end.

Lemma occurrences_app q1 q2 t : occurrences (q1 ++ q2) t = occurrences q1 t + occurrences q2 t.
Proof. induction q1; cbn [app occurrences]; lia. Qed.
Lemma occurrences_nonneg q t : 0 <= occurrences q t.
Proof. induction q; cbn [occurrences]; [lia|]. case_bool_decide; lia. Qed.
Lemma kept_app c1 c2 n t : kept (c1 ++ c2) n t = kept c1 n t + kept c2 n t.
Proof. induction c1 as [|[? ?] ? IH]; cbn [app kept]; lia. Qed.
Lemma kept_nonneg c n t : 0 <= kept c n t.
Proof. induction c as [|[? q] ? IH]; cbn [kept]; [lia|]. pose proof (occurrences_nonneg q t). case_bool_decide; lia. Qed.
Lemma kept_others (c : cache) name q n t :
  of_name c name = Some q → kept (others c name) n t + (if bool_decide (name = n) then occurrences q t else 0) <= kept c n t.
Proof.
  assert (∀ c : cache, kept (others c name) n t <= kept c n t) as Hle.
  { intros c'. induction c' as [|[m q'] c' IH]; [done|]. rewrite others_cons. cbn [kept]. pose proof (occurrences_nonneg q' t).
    case_decide; cbn [kept]; case_bool_decide; lia. }
  unfold of_name. induction c as [|[m q'] c IH]; [done|]. cbn [find fst]. rewrite others_cons. destruct (decide (m = name)) as [->|Hm].
  - rewrite (bool_decide_eq_true_2 (name = name)) by done. cbn. intros [= <-]. specialize (Hle c). case_bool_decide; lia.
  - rewrite (bool_decide_eq_false_2 (m = name)) by done. intros Hq. cbn [kept]. specialize (IH Hq). lia.
Qed.

Lemma spec_store_kept names tokens c name token n t :
  kept (spec_store names tokens c name token) n t <= kept c n t + (if bool_decide (name = n ∧ token = t) then 1 else 0).
Proof.
  unfold spec_store. assert (0 <= if bool_decide (name = n ∧ token = t) then 1 else 0) by (case_bool_decide; lia).
  destruct (_ || _); [lia|].
  assert (∀ q, kept [(name, q ++ [token])] n t = (if bool_decide (name = n) then occurrences q t else 0) +
            (if bool_decide (name = n ∧ token = t) then 1 else 0)) as Hone.
  { intros q. cbn [kept]. rewrite occurrences_app. cbn [occurrences]. repeat case_bool_decide; try tauto; lia. }
  destruct (of_name c name) as [q|] eqn:Hq; rewrite kept_app.
  - rewrite Hone. pose proof (kept_others c name q n t Hq).
    assert (occurrences (if tokens <=? len q then drop 1 q else q) t <= occurrences q t).
    { destruct (_ <=? _); [|lia]. destruct q; cbn [drop occurrences]; [lia|]. rewrite ?drop_0.
      destruct (bool_decide (_ = t)); lia. }
    destruct (bool_decide (name = n)); lia.
  - pose proof (Hone []) as H1. cbn [app occurrences] in H1. rewrite H1.
    assert (kept (if names <=? len c then drop 1 c else c) n t <= kept c n t).
    { destruct (_ <=? _); [|lia]. destruct c as [|[m q] c]; cbn [drop kept]; [lia|]. rewrite ?drop_0.
      pose proof (occurrences_nonneg q t). destruct (bool_decide (m = n)); lia. }
    destruct (bool_decide (name = n)); rewrite Z.add_0_l; apply Zplus_le_compat_r; exact H0.
Qed.

Lemma spec_take_kept c name n t :
  kept (spec_take c name).2 n t + (if bool_decide (name = n ∧ (spec_take c name).1 = Some t) then 1 else 0) <= kept c n t.
Proof.
  unfold spec_take. destruct (of_name c name) as [[|t0 q]|] eqn:Hq; cbn [fst snd];
    [rewrite bool_decide_eq_false_2 by naive_solver; lia| |rewrite bool_decide_eq_false_2 by naive_solver; lia].
  rewrite kept_app. pose proof (kept_others c name _ n t Hq) as Hk. cbn [occurrences] in Hk.
  assert (kept (entry_of name q) n t = if bool_decide (name = n) then occurrences q t else 0) as ->.
  { destruct q; unfold entry_of; cbn [kept occurrences]; destruct (bool_decide (name = n)); lia. }
  repeat case_bool_decide; try naive_solver lia.
Qed.

Lemma run_spec_kept names tokens ops c n t :
  taken (run_spec names tokens c ops).1 n t <= kept c n t + stored ops n t.
Proof.
  revert c. induction ops as [|[name token|name] ops IH]; intros c; cbn [run_spec stored].
  - cbn [fst taken]. pose proof (kept_nonneg c n t). lia.
  - pose proof (spec_store_kept names tokens c name token n t). specialize (IH (spec_store names tokens c name token)). lia.
  - pose proof (spec_take_kept c name n t) as Hk. destruct (spec_take c name) as [r c1]. cbn [fst snd] in Hk. specialize (IH c1).
    destruct (run_spec names tokens c1 ops) as [rs c2]. cbn [fst taken] in *. lia.
Qed.
End TokenCache.

(** C31: The in-memory token store never panics and behaves as a list of server names in order of use, each with a queue
    of tokens: taking returns the oldest token of the name, storing evicts the least recently used name and the oldest
    token when the limits are reached.  The limits hold at all times, and a token is handed out at most as often as it
    was stored, so it is never used for two connections. *)
Theorem token_cache_refines {S} {HS : LruSlab S CacheEntry} {HSok : LruSlabOk} names tokens ops :
  0 <= names → 0 <= tokens →
  ∃ s', run_cache (TokenMemoryCache_new names tokens) ops = Ret ((run_spec names tokens [] ops).1, s') ∧
    cache_refines s' (run_spec names tokens [] ops).2 ∧
    len (run_spec names tokens [] ops).2 <= names ∧
    Forall (fun e => len e.2 <= tokens) (run_spec names tokens [] ops).2 ∧
    ∀ name token, taken (run_spec names tokens [] ops).1 name token <= stored ops name token.
Proof.
  intros Hn Ht. set (s := TokenMemoryCache_new names tokens).
  assert (cache_refines s []) as Hr.
  { split; cbn [s TokenMemoryCache_new lru lookup_name]; rewrite ?slab_default_ok; try done; [apply NoDup_nil_2|].
    intros name k. rewrite lookup_empty. split; [done|]. intros [q Hq]. by apply elem_of_nil in Hq. }
  destruct (run_refines ops s [] Hr Ht) as (s' & Hrun & Hr' & Hn' & Ht'). exists s'. cbn [s TokenMemoryCache_new] in *.
  split_and!; [done..| | |].
  - pose proof (cr_len _ _ Hr') as Hl. by rewrite Hn' in Hl.
  - eapply Forall_impl; [apply (cr_tokens _ _ Hr')|]. intros e [_ He]. by rewrite Ht' in He.
  - intros name token. pose proof (run_spec_kept names tokens ops [] name token) as Hk. cbn [kept] in Hk. lia.
Qed.

(** A slab as the list of its entries, of which the first one of a slot counts. *)
Fixpoint slots (l : list (Z * CacheEntry)) : list (Z * CacheEntry) :=
  match l with [] => [] | (k, e) :: l => (k, e) :: filter (fun x => x.1 ≠ k) (slots l) end.
Fixpoint fresh_slot (l : list (Z * CacheEntry)) : Z := match l with [] => 0 | (k, _) :: l => Z.max (k + 1) (fresh_slot l) end.

#[export] Instance list_LruSlab : LruSlab (list (Z * CacheEntry)) CacheEntry := {
  slab_default := [];
  slab_len s := len (slots s);
  slab_insert s v := (fresh_slot (slots s), slots s ++ [(fresh_slot (slots s), v)]);
  slab_lru s := fst <$> head (slots s);
  slab_get s k := match find (fun e => e.1 =? k) (slots s) with Some e => mret e.2 | None => Panic end;
  slab_set s k v := filter (fun e => e.1 ≠ k) (slots s) ++ [(k, v)];
  slab_remove s k :=
    match find (fun e => e.1 =? k) (slots s) with Some e => mret (e.2, filter (fun e => e.1 ≠ k) (slots s)) | None => Panic end
}.

Lemma filter_slots_nodup (P : Z * CacheEntry → Prop) `{∀ x, Decision (P x)} (l : list (Z * CacheEntry)) :
  NoDup l.*1 → NoDup (filter P l).*1.
Proof.
  intros Hl. eapply sublist_NoDup; [exact Hl|]. apply fmap_sublist, sublist_filter.
Qed.

Lemma slots_nodup l : NoDup (slots l).*1.
Proof.
  induction l as [|[k e] l IH]; [apply NoDup_nil_2|]. cbn [slots]. rewrite fmap_cons. apply NoDup_cons.
  split; [|by apply filter_slots_nodup]. intros ([k' e'] & Hk & Hin)%list_elem_of_fmap. by apply list_elem_of_filter in Hin as [? _].
Qed.

Lemma slots_id l : NoDup l.*1 → slots l = l.
Proof.
  induction l as [|[k e] l IH]; [done|]. rewrite fmap_cons. intros [Hk Hl]%NoDup_cons. cbn [slots]. rewrite IH by done. f_equal.
  apply filter_keep. intros x Hx Hc. apply Hk. cbn. rewrite <- Hc. by apply list_elem_of_fmap_2.
Qed.

Lemma fresh_slot_spec l : Forall (fun k => k < fresh_slot l) l.*1.
Proof.
  induction l as [|[k e] l IH]; [constructor|]. rewrite fmap_cons. cbn [fresh_slot fst]. constructor; [lia|].
  eapply Forall_impl; [exact IH|]. cbn. lia.
Qed.

Lemma find_slot l k v : NoDup l.*1 → (k, v) ∈ l → find (fun e : Z * CacheEntry => e.1 =? k) l = Some (k, v).
Proof.
  induction l as [|[k' e] l IH]; intros Hnd Hin; [by apply elem_of_nil in Hin|]. rewrite fmap_cons in Hnd.
  apply NoDup_cons in Hnd as [Hk Hl]. cbn [find fst]. apply elem_of_cons in Hin as [[= <- <-]|Hin]; [by rewrite Z.eqb_refl|].
  destruct (Z.eqb_spec k' k) as [->|]; [|by apply IH]. destruct Hk. by apply (list_elem_of_fmap_2 fst _ (k, v)).
Qed.

Lemma nodup_snoc (l : list (Z * CacheEntry)) k v : NoDup l.*1 → k ∉ l.*1 → NoDup (l ++ [(k, v)]).*1.
Proof.
  intros Hl Hk. rewrite fmap_app. apply NoDup_app. split_and!; [done| |apply NoDup_singleton].
  by intros x Hx ->%list_elem_of_singleton.
Qed.

Lemma not_filtered (l : list (Z * CacheEntry)) k : k ∉ (filter (fun e => e.1 ≠ k) l).*1.
Proof. intros ([k' e'] & Hk & Hin)%list_elem_of_fmap. apply list_elem_of_filter in Hin as [Hc _]. by cbn in *. Qed.

#[export] Instance list_LruSlabOk : LruSlabOk (S := list (Z * CacheEntry)).
Proof.
  refine {| entries := slots |}; try done.
  - apply slots_nodup.
  - intros s v. cbn [slab_insert list_LruSlab fst snd].
    assert (fresh_slot (slots s) ∉ (slots s).*1) as Hf.
    { intros Hin. pose proof (proj1 (Forall_forall _ _) (fresh_slot_spec (slots s)) _ Hin) as Hlt. cbn in Hlt. lia. }
    split; [done|]. apply slots_id. by apply nodup_snoc; [apply slots_nodup|].
  - intros s k v Hin. cbn. by rewrite (find_slot _ _ _ (slots_nodup s) Hin).
  - intros s k v v' Hin. apply slots_id. apply nodup_snoc; [by apply filter_slots_nodup, slots_nodup|]. apply not_filtered.
  - intros s k v Hin. cbn. rewrite (find_slot _ _ _ (slots_nodup s) Hin). eexists. split; [done|].
    apply slots_id, filter_slots_nodup, slots_nodup.
Defined.

Lemma token_cache_refines_witness :
  let ops := [OpStore [1] [10]; OpStore [2] [20]; OpStore [1] [11]; OpStore [3] [30]; OpTake [2]; OpTake [1]; OpTake [1]] in
  ∃ s', run_cache (TokenMemoryCache_new (S := list (Z * CacheEntry)) 2 2) ops = Ret ([([2], None); ([1], Some [10]); ([1], Some [11])], s').
Proof.
  intros ops. destruct (token_cache_refines (S := list (Z * CacheEntry)) 2 2 ops ltac:(lia) ltac:(lia)) as (s' & Hs & _).
  exists s'. rewrite Hs. vm_compute. reflexivity.
Defined.
