(* ===== verification/Connection.v ===== *)
(** The state of a connection and the parts of its driver shared by sending, receiving and recovery: [Connection] of
    [quic-proto/src/connection/mod.rs].

    The fields of [Connection] are the fields of the source's structure, with the prefix [c_].  The TLS session, the random
    number generator and the client's token store are the classes [Session], [Rng] and [TokenStore]; the congestion
    controller and the heap of received data are those of [Congestion] and [Assembler].  Instants and durations are
    nanoseconds.  Statistics and the event log are left out, and so is the text of transport errors. *)
From stdpp Require Import gmap.
From S2P Require Import Prelude Coding RangeSet Ids Shared Frame Float Packet TransportParams Token TokenCache Assembler Recv Send.
From S2P Require Import PendingStreams Retransmits CidQueue CidState Streams Dedup PendingAcks Mtud Timer AckFrequency Rtt.
From S2P Require Import Congestion Pacing Datagrams Spaces PacketCrypto Config Paths.
Open Scope Z_scope.

(** * Interfaces *)

(** The TLS session. *)
Class Session (T : Type) : Type := {
  tls_initial_keys : T → ConnectionId → Side → Keys;
  tls_early_crypto : T → option (HeaderKey * PacketKey);
  tls_early_data_accepted : T → option bool;
  tls_is_handshaking : T → bool;
  tls_read_handshake : T → list Z → result TransportError bool * T;
  tls_transport_parameters : T → result TransportError (option TransportParameters);
  tls_write_handshake : T → list Z * option Keys * T;
  tls_next_1rtt_keys : T → option (KeyPair PacketKey) * T;
  tls_is_valid_retry : T → ConnectionId → list Z → list Z → bool
}.

(** The random number generator; every draw is followed by [rng_step]. *)
Class Rng (R : Type) : Type := {
  rng_u64 : R → Z;
  rng_u128 : R → Z;
  rng_bool : R → bool;
  rng_range : R → Z → Z → Z;
  rng_ratio : R → Z → Z → bool;
  rng_step : R → R
}.

(** * Data *)

Inductive ConnectionError : Type :=
| VersionMismatch
| CausedBy (e : TransportError)
| ConnectionClosed (x : ConnectionClose)
| ApplicationClosed (x : ApplicationClose)
| ResetByPeer
| TimedOut
| LocallyClosed
| CidsExhausted.

Definition ConnectionError_from_close (x : Close) : ConnectionError :=
  match x with CloseConnection reason => ConnectionClosed reason | CloseApplication reason => ApplicationClosed reason end.

(** [From<TransportError> for Close]. *)
Definition Close_from (e : TransportError) : Close := CloseConnection (mkConnectionClose (te_code e) None []).

Record HandshakeState : Type := mkHandshakeState {
  rem_cid_set : bool; expected_token : list Z; client_hello : option (list Z) }.

Inductive State : Type :=
| StHandshake (h : HandshakeState)
| Established
| StClosed (reason : Close)
| Draining
| Drained.

Definition is_handshake (s : State) : bool := match s with StHandshake _ => true | _ => false end.
Definition is_established (s : State) : bool := match s with Established => true | _ => false end.
Definition is_closed (s : State) : bool := match s with StClosed _ | Draining | Drained => true | _ => false end.
Definition is_drained (s : State) : bool := match s with Drained => true | _ => false end.

Inductive Event : Type :=
| HandshakeDataReady
| Connected
| HandshakeConfirmed
| ConnectionLost (reason : ConnectionError)
| EvStream (e : StreamEvent)
| DatagramReceived
| DatagramsUnblocked.

Inductive EndpointEvent : Type :=
| EvDrained
| EvResetToken (remote : SocketAddr) (token : ResetToken)
| EvNeedIdentifiers (now n : Z)
| EvRetireConnectionId (now sequence : Z) (allow_more_cids : bool).

Definition get_max_ack_delay (params : TransportParameters) : M Z :=
  micros ← umul (max_ack_delay params) 1000; mret (from_micros micros).

Definition MAX_BACKOFF_EXPONENT : Z := 16.

(** [Some(VarInt(0)) | None] disables the timeout. *)
Definition idle_off (x : option VarInt) : bool := match x with Some v => into_inner v =? 0 | None => true end.
Definition from_millis (n : Z) : Z := n * 10 ^ 6.

Definition negotiate_max_idle_timeout (x y : option VarInt) : option Z :=
  match idle_off x, x, idle_off y, y with
  | true, _, true, _ => None
  | true, _, false, Some y => Some (from_millis (into_inner y))
  | false, Some x, true, _ => Some (from_millis (into_inner x))
  | false, Some x, false, Some y => Some (from_millis (Z.min (into_inner x) (into_inner y)))
  | _, _, _, _ => None
  end.

(** [?] on an operation that also changes a state. *)
Definition attempt {E A B S} (m : M (result E A * S)) (k : A → S → M (result E B * S)) : M (result E B * S) :=
  '(r, s) ← m; match r with Ok a => k a s | Err e => mret (Err e, s) end.

Section Connection.
Context {C : Type} {HC : Controller C} {H : Type} {HH : Heap H} {T : Type} {HT : Session T} {R : Type} {HR : Rng R}
  {TS : Type} {HTS : TokenStore TS}.
Context (max_instant : Z).

Inductive ConnectionSide : Type :=
| ClientSide (token : list Z) (token_store : TS) (server_name : list Z)
| ServerSide (server_config : ServerConfig).

Definition side_of (s : ConnectionSide) : Side := match s with ClientSide _ _ _ => Client | ServerSide _ => Server end.
Definition remote_may_migrate (s : ConnectionSide) : bool :=
  match s with ServerSide server_config => sc_migration server_config | ClientSide _ _ _ => false end.

Record Connection : Type := mkConnection {
  c_grease_quic_bit : bool;
  c_config : TransportConfig C;
  c_rng : R;
  c_crypto : T;
  c_handshake_cid : ConnectionId;
  c_rem_handshake_cid : ConnectionId;
  c_local_ip : option IpAddr;
  c_path : PathData C;
  c_path_counter : Z;
  c_allow_mtud : bool;
  c_prev_path : option (ConnectionId * PathData C);
  c_state : State;
  c_side : ConnectionSide;
  c_zero_rtt_enabled : bool;
  c_zero_rtt_crypto : option ZeroRttCrypto;
  c_key_phase : bool;
  c_key_phase_size : Z;
  c_peer_params : TransportParameters;
  c_orig_rem_cid : ConnectionId;
  c_initial_dst_cid : ConnectionId;
  c_retry_src_cid : option ConnectionId;
  c_events : list Event;
  c_endpoint_events : list EndpointEvent;
  c_spin_enabled : bool;
  c_spin : bool;
  c_spaces : SpaceId → PacketSpace Keys H;
  c_highest_space : SpaceId;
  c_prev_crypto : option PrevCrypto;
  c_next_crypto : option (KeyPair PacketKey);
  c_accepted_0rtt : bool;
  c_permit_idle_reset : bool;
  c_idle_timeout : option Z;
  c_timers : TimerTable;
  c_authentication_failures : Z;
  c_error : option ConnectionError;
  c_packet_number_filter : PacketNumberFilter;
  c_path_responses : PathResponses;
  c_close : bool;
  c_ack_frequency : AckFrequencyState;
  c_pto_count : Z;
  c_receiving_ecn : bool;
  c_total_authed_packets : Z;
  c_app_limited : bool;
  c_streams : StreamsState H;
  c_rem_cids : CidQueue;
  c_local_cid_state : CidState;
  c_datagrams : DatagramState;
  c_version : Z
}.

Definition set_c_rng (c : Connection) (v : R) : Connection :=
  mkConnection (c_grease_quic_bit c) (c_config c) v (c_crypto c) (c_handshake_cid c) (c_rem_handshake_cid c)
    (c_local_ip c) (c_path c) (c_path_counter c) (c_allow_mtud c) (c_prev_path c) (c_state c) (c_side c)
    (c_zero_rtt_enabled c) (c_zero_rtt_crypto c) (c_key_phase c) (c_key_phase_size c) (c_peer_params c)
    (c_orig_rem_cid c) (c_initial_dst_cid c) (c_retry_src_cid c) (c_events c) (c_endpoint_events c) (c_spin_enabled c)
    (c_spin c) (c_spaces c) (c_highest_space c) (c_prev_crypto c) (c_next_crypto c) (c_accepted_0rtt c)
    (c_permit_idle_reset c) (c_idle_timeout c) (c_timers c) (c_authentication_failures c) (c_error c)
    (c_packet_number_filter c) (c_path_responses c) (c_close c) (c_ack_frequency c) (c_pto_count c) (c_receiving_ecn
    c) (c_total_authed_packets c) (c_app_limited c) (c_streams c) (c_rem_cids c) (c_local_cid_state c) (c_datagrams c)
    (c_version c).
Definition set_c_crypto (c : Connection) (v : T) : Connection :=
  mkConnection (c_grease_quic_bit c) (c_config c) (c_rng c) v (c_handshake_cid c) (c_rem_handshake_cid c)
    (c_local_ip c) (c_path c) (c_path_counter c) (c_allow_mtud c) (c_prev_path c) (c_state c) (c_side c)
    (c_zero_rtt_enabled c) (c_zero_rtt_crypto c) (c_key_phase c) (c_key_phase_size c) (c_peer_params c)
    (c_orig_rem_cid c) (c_initial_dst_cid c) (c_retry_src_cid c) (c_events c) (c_endpoint_events c) (c_spin_enabled c)
    (c_spin c) (c_spaces c) (c_highest_space c) (c_prev_crypto c) (c_next_crypto c) (c_accepted_0rtt c)
    (c_permit_idle_reset c) (c_idle_timeout c) (c_timers c) (c_authentication_failures c) (c_error c)
    (c_packet_number_filter c) (c_path_responses c) (c_close c) (c_ack_frequency c) (c_pto_count c) (c_receiving_ecn
    c) (c_total_authed_packets c) (c_app_limited c) (c_streams c) (c_rem_cids c) (c_local_cid_state c) (c_datagrams c)
    (c_version c).
Definition set_c_rem_handshake_cid (c : Connection) (v : ConnectionId) : Connection :=
  mkConnection (c_grease_quic_bit c) (c_config c) (c_rng c) (c_crypto c) (c_handshake_cid c) v (c_local_ip c)
    (c_path c) (c_path_counter c) (c_allow_mtud c) (c_prev_path c) (c_state c) (c_side c) (c_zero_rtt_enabled c)
    (c_zero_rtt_crypto c) (c_key_phase c) (c_key_phase_size c) (c_peer_params c) (c_orig_rem_cid c) (c_initial_dst_cid
    c) (c_retry_src_cid c) (c_events c) (c_endpoint_events c) (c_spin_enabled c) (c_spin c) (c_spaces c)
    (c_highest_space c) (c_prev_crypto c) (c_next_crypto c) (c_accepted_0rtt c) (c_permit_idle_reset c)
    (c_idle_timeout c) (c_timers c) (c_authentication_failures c) (c_error c) (c_packet_number_filter c)
    (c_path_responses c) (c_close c) (c_ack_frequency c) (c_pto_count c) (c_receiving_ecn c) (c_total_authed_packets
    c) (c_app_limited c) (c_streams c) (c_rem_cids c) (c_local_cid_state c) (c_datagrams c) (c_version c).
Definition set_c_path (c : Connection) (v : PathData C) : Connection :=
  mkConnection (c_grease_quic_bit c) (c_config c) (c_rng c) (c_crypto c) (c_handshake_cid c) (c_rem_handshake_cid c)
    (c_local_ip c) v (c_path_counter c) (c_allow_mtud c) (c_prev_path c) (c_state c) (c_side c) (c_zero_rtt_enabled c)
    (c_zero_rtt_crypto c) (c_key_phase c) (c_key_phase_size c) (c_peer_params c) (c_orig_rem_cid c) (c_initial_dst_cid
    c) (c_retry_src_cid c) (c_events c) (c_endpoint_events c) (c_spin_enabled c) (c_spin c) (c_spaces c)
    (c_highest_space c) (c_prev_crypto c) (c_next_crypto c) (c_accepted_0rtt c) (c_permit_idle_reset c)
    (c_idle_timeout c) (c_timers c) (c_authentication_failures c) (c_error c) (c_packet_number_filter c)
    (c_path_responses c) (c_close c) (c_ack_frequency c) (c_pto_count c) (c_receiving_ecn c) (c_total_authed_packets
    c) (c_app_limited c) (c_streams c) (c_rem_cids c) (c_local_cid_state c) (c_datagrams c) (c_version c).
Definition set_c_path_counter (c : Connection) (v : Z) : Connection :=
  mkConnection (c_grease_quic_bit c) (c_config c) (c_rng c) (c_crypto c) (c_handshake_cid c) (c_rem_handshake_cid c)
    (c_local_ip c) (c_path c) v (c_allow_mtud c) (c_prev_path c) (c_state c) (c_side c) (c_zero_rtt_enabled c)
    (c_zero_rtt_crypto c) (c_key_phase c) (c_key_phase_size c) (c_peer_params c) (c_orig_rem_cid c) (c_initial_dst_cid
    c) (c_retry_src_cid c) (c_events c) (c_endpoint_events c) (c_spin_enabled c) (c_spin c) (c_spaces c)
    (c_highest_space c) (c_prev_crypto c) (c_next_crypto c) (c_accepted_0rtt c) (c_permit_idle_reset c)
    (c_idle_timeout c) (c_timers c) (c_authentication_failures c) (c_error c) (c_packet_number_filter c)
    (c_path_responses c) (c_close c) (c_ack_frequency c) (c_pto_count c) (c_receiving_ecn c) (c_total_authed_packets
    c) (c_app_limited c) (c_streams c) (c_rem_cids c) (c_local_cid_state c) (c_datagrams c) (c_version c).
Definition set_c_prev_path (c : Connection) (v : option (ConnectionId * PathData C)) : Connection :=
  mkConnection (c_grease_quic_bit c) (c_config c) (c_rng c) (c_crypto c) (c_handshake_cid c) (c_rem_handshake_cid c)
    (c_local_ip c) (c_path c) (c_path_counter c) (c_allow_mtud c) v (c_state c) (c_side c) (c_zero_rtt_enabled c)
    (c_zero_rtt_crypto c) (c_key_phase c) (c_key_phase_size c) (c_peer_params c) (c_orig_rem_cid c) (c_initial_dst_cid
    c) (c_retry_src_cid c) (c_events c) (c_endpoint_events c) (c_spin_enabled c) (c_spin c) (c_spaces c)
    (c_highest_space c) (c_prev_crypto c) (c_next_crypto c) (c_accepted_0rtt c) (c_permit_idle_reset c)
    (c_idle_timeout c) (c_timers c) (c_authentication_failures c) (c_error c) (c_packet_number_filter c)
    (c_path_responses c) (c_close c) (c_ack_frequency c) (c_pto_count c) (c_receiving_ecn c) (c_total_authed_packets
    c) (c_app_limited c) (c_streams c) (c_rem_cids c) (c_local_cid_state c) (c_datagrams c) (c_version c).
Definition set_c_state (c : Connection) (v : State) : Connection :=
  mkConnection (c_grease_quic_bit c) (c_config c) (c_rng c) (c_crypto c) (c_handshake_cid c) (c_rem_handshake_cid c)
    (c_local_ip c) (c_path c) (c_path_counter c) (c_allow_mtud c) (c_prev_path c) v (c_side c) (c_zero_rtt_enabled c)
    (c_zero_rtt_crypto c) (c_key_phase c) (c_key_phase_size c) (c_peer_params c) (c_orig_rem_cid c) (c_initial_dst_cid
    c) (c_retry_src_cid c) (c_events c) (c_endpoint_events c) (c_spin_enabled c) (c_spin c) (c_spaces c)
    (c_highest_space c) (c_prev_crypto c) (c_next_crypto c) (c_accepted_0rtt c) (c_permit_idle_reset c)
    (c_idle_timeout c) (c_timers c) (c_authentication_failures c) (c_error c) (c_packet_number_filter c)
    (c_path_responses c) (c_close c) (c_ack_frequency c) (c_pto_count c) (c_receiving_ecn c) (c_total_authed_packets
    c) (c_app_limited c) (c_streams c) (c_rem_cids c) (c_local_cid_state c) (c_datagrams c) (c_version c).
Definition set_c_side (c : Connection) (v : ConnectionSide) : Connection :=
  mkConnection (c_grease_quic_bit c) (c_config c) (c_rng c) (c_crypto c) (c_handshake_cid c) (c_rem_handshake_cid c)
    (c_local_ip c) (c_path c) (c_path_counter c) (c_allow_mtud c) (c_prev_path c) (c_state c) v (c_zero_rtt_enabled c)
    (c_zero_rtt_crypto c) (c_key_phase c) (c_key_phase_size c) (c_peer_params c) (c_orig_rem_cid c) (c_initial_dst_cid
    c) (c_retry_src_cid c) (c_events c) (c_endpoint_events c) (c_spin_enabled c) (c_spin c) (c_spaces c)
    (c_highest_space c) (c_prev_crypto c) (c_next_crypto c) (c_accepted_0rtt c) (c_permit_idle_reset c)
    (c_idle_timeout c) (c_timers c) (c_authentication_failures c) (c_error c) (c_packet_number_filter c)
    (c_path_responses c) (c_close c) (c_ack_frequency c) (c_pto_count c) (c_receiving_ecn c) (c_total_authed_packets
    c) (c_app_limited c) (c_streams c) (c_rem_cids c) (c_local_cid_state c) (c_datagrams c) (c_version c).
Definition set_c_zero_rtt_enabled (c : Connection) (v : bool) : Connection :=
  mkConnection (c_grease_quic_bit c) (c_config c) (c_rng c) (c_crypto c) (c_handshake_cid c) (c_rem_handshake_cid c)
    (c_local_ip c) (c_path c) (c_path_counter c) (c_allow_mtud c) (c_prev_path c) (c_state c) (c_side c) v
    (c_zero_rtt_crypto c) (c_key_phase c) (c_key_phase_size c) (c_peer_params c) (c_orig_rem_cid c) (c_initial_dst_cid
    c) (c_retry_src_cid c) (c_events c) (c_endpoint_events c) (c_spin_enabled c) (c_spin c) (c_spaces c)
    (c_highest_space c) (c_prev_crypto c) (c_next_crypto c) (c_accepted_0rtt c) (c_permit_idle_reset c)
    (c_idle_timeout c) (c_timers c) (c_authentication_failures c) (c_error c) (c_packet_number_filter c)
    (c_path_responses c) (c_close c) (c_ack_frequency c) (c_pto_count c) (c_receiving_ecn c) (c_total_authed_packets
    c) (c_app_limited c) (c_streams c) (c_rem_cids c) (c_local_cid_state c) (c_datagrams c) (c_version c).
Definition set_c_zero_rtt_crypto (c : Connection) (v : option ZeroRttCrypto) : Connection :=
  mkConnection (c_grease_quic_bit c) (c_config c) (c_rng c) (c_crypto c) (c_handshake_cid c) (c_rem_handshake_cid c)
    (c_local_ip c) (c_path c) (c_path_counter c) (c_allow_mtud c) (c_prev_path c) (c_state c) (c_side c)
    (c_zero_rtt_enabled c) v (c_key_phase c) (c_key_phase_size c) (c_peer_params c) (c_orig_rem_cid c)
    (c_initial_dst_cid c) (c_retry_src_cid c) (c_events c) (c_endpoint_events c) (c_spin_enabled c) (c_spin c)
    (c_spaces c) (c_highest_space c) (c_prev_crypto c) (c_next_crypto c) (c_accepted_0rtt c) (c_permit_idle_reset c)
    (c_idle_timeout c) (c_timers c) (c_authentication_failures c) (c_error c) (c_packet_number_filter c)
    (c_path_responses c) (c_close c) (c_ack_frequency c) (c_pto_count c) (c_receiving_ecn c) (c_total_authed_packets
    c) (c_app_limited c) (c_streams c) (c_rem_cids c) (c_local_cid_state c) (c_datagrams c) (c_version c).
Definition set_c_key_phase (c : Connection) (v : bool) : Connection :=
  mkConnection (c_grease_quic_bit c) (c_config c) (c_rng c) (c_crypto c) (c_handshake_cid c) (c_rem_handshake_cid c)
    (c_local_ip c) (c_path c) (c_path_counter c) (c_allow_mtud c) (c_prev_path c) (c_state c) (c_side c)
    (c_zero_rtt_enabled c) (c_zero_rtt_crypto c) v (c_key_phase_size c) (c_peer_params c) (c_orig_rem_cid c)
    (c_initial_dst_cid c) (c_retry_src_cid c) (c_events c) (c_endpoint_events c) (c_spin_enabled c) (c_spin c)
    (c_spaces c) (c_highest_space c) (c_prev_crypto c) (c_next_crypto c) (c_accepted_0rtt c) (c_permit_idle_reset c)
    (c_idle_timeout c) (c_timers c) (c_authentication_failures c) (c_error c) (c_packet_number_filter c)
    (c_path_responses c) (c_close c) (c_ack_frequency c) (c_pto_count c) (c_receiving_ecn c) (c_total_authed_packets
    c) (c_app_limited c) (c_streams c) (c_rem_cids c) (c_local_cid_state c) (c_datagrams c) (c_version c).
Definition set_c_key_phase_size (c : Connection) (v : Z) : Connection :=
  mkConnection (c_grease_quic_bit c) (c_config c) (c_rng c) (c_crypto c) (c_handshake_cid c) (c_rem_handshake_cid c)
    (c_local_ip c) (c_path c) (c_path_counter c) (c_allow_mtud c) (c_prev_path c) (c_state c) (c_side c)
    (c_zero_rtt_enabled c) (c_zero_rtt_crypto c) (c_key_phase c) v (c_peer_params c) (c_orig_rem_cid c)
    (c_initial_dst_cid c) (c_retry_src_cid c) (c_events c) (c_endpoint_events c) (c_spin_enabled c) (c_spin c)
    (c_spaces c) (c_highest_space c) (c_prev_crypto c) (c_next_crypto c) (c_accepted_0rtt c) (c_permit_idle_reset c)
    (c_idle_timeout c) (c_timers c) (c_authentication_failures c) (c_error c) (c_packet_number_filter c)
    (c_path_responses c) (c_close c) (c_ack_frequency c) (c_pto_count c) (c_receiving_ecn c) (c_total_authed_packets
    c) (c_app_limited c) (c_streams c) (c_rem_cids c) (c_local_cid_state c) (c_datagrams c) (c_version c).
Definition set_c_peer_params (c : Connection) (v : TransportParameters) : Connection :=
  mkConnection (c_grease_quic_bit c) (c_config c) (c_rng c) (c_crypto c) (c_handshake_cid c) (c_rem_handshake_cid c)
    (c_local_ip c) (c_path c) (c_path_counter c) (c_allow_mtud c) (c_prev_path c) (c_state c) (c_side c)
    (c_zero_rtt_enabled c) (c_zero_rtt_crypto c) (c_key_phase c) (c_key_phase_size c) v (c_orig_rem_cid c)
    (c_initial_dst_cid c) (c_retry_src_cid c) (c_events c) (c_endpoint_events c) (c_spin_enabled c) (c_spin c)
    (c_spaces c) (c_highest_space c) (c_prev_crypto c) (c_next_crypto c) (c_accepted_0rtt c) (c_permit_idle_reset c)
    (c_idle_timeout c) (c_timers c) (c_authentication_failures c) (c_error c) (c_packet_number_filter c)
    (c_path_responses c) (c_close c) (c_ack_frequency c) (c_pto_count c) (c_receiving_ecn c) (c_total_authed_packets
    c) (c_app_limited c) (c_streams c) (c_rem_cids c) (c_local_cid_state c) (c_datagrams c) (c_version c).
Definition set_c_orig_rem_cid (c : Connection) (v : ConnectionId) : Connection :=
  mkConnection (c_grease_quic_bit c) (c_config c) (c_rng c) (c_crypto c) (c_handshake_cid c) (c_rem_handshake_cid c)
    (c_local_ip c) (c_path c) (c_path_counter c) (c_allow_mtud c) (c_prev_path c) (c_state c) (c_side c)
    (c_zero_rtt_enabled c) (c_zero_rtt_crypto c) (c_key_phase c) (c_key_phase_size c) (c_peer_params c) v
    (c_initial_dst_cid c) (c_retry_src_cid c) (c_events c) (c_endpoint_events c) (c_spin_enabled c) (c_spin c)
    (c_spaces c) (c_highest_space c) (c_prev_crypto c) (c_next_crypto c) (c_accepted_0rtt c) (c_permit_idle_reset c)
    (c_idle_timeout c) (c_timers c) (c_authentication_failures c) (c_error c) (c_packet_number_filter c)
    (c_path_responses c) (c_close c) (c_ack_frequency c) (c_pto_count c) (c_receiving_ecn c) (c_total_authed_packets
    c) (c_app_limited c) (c_streams c) (c_rem_cids c) (c_local_cid_state c) (c_datagrams c) (c_version c).
Definition set_c_retry_src_cid (c : Connection) (v : option ConnectionId) : Connection :=
  mkConnection (c_grease_quic_bit c) (c_config c) (c_rng c) (c_crypto c) (c_handshake_cid c) (c_rem_handshake_cid c)
    (c_local_ip c) (c_path c) (c_path_counter c) (c_allow_mtud c) (c_prev_path c) (c_state c) (c_side c)
    (c_zero_rtt_enabled c) (c_zero_rtt_crypto c) (c_key_phase c) (c_key_phase_size c) (c_peer_params c)
    (c_orig_rem_cid c) (c_initial_dst_cid c) v (c_events c) (c_endpoint_events c) (c_spin_enabled c) (c_spin c)
    (c_spaces c) (c_highest_space c) (c_prev_crypto c) (c_next_crypto c) (c_accepted_0rtt c) (c_permit_idle_reset c)
    (c_idle_timeout c) (c_timers c) (c_authentication_failures c) (c_error c) (c_packet_number_filter c)
    (c_path_responses c) (c_close c) (c_ack_frequency c) (c_pto_count c) (c_receiving_ecn c) (c_total_authed_packets
    c) (c_app_limited c) (c_streams c) (c_rem_cids c) (c_local_cid_state c) (c_datagrams c) (c_version c).
Definition set_c_events (c : Connection) (v : list Event) : Connection :=
  mkConnection (c_grease_quic_bit c) (c_config c) (c_rng c) (c_crypto c) (c_handshake_cid c) (c_rem_handshake_cid c)
    (c_local_ip c) (c_path c) (c_path_counter c) (c_allow_mtud c) (c_prev_path c) (c_state c) (c_side c)
    (c_zero_rtt_enabled c) (c_zero_rtt_crypto c) (c_key_phase c) (c_key_phase_size c) (c_peer_params c)
    (c_orig_rem_cid c) (c_initial_dst_cid c) (c_retry_src_cid c) v (c_endpoint_events c) (c_spin_enabled c) (c_spin c)
    (c_spaces c) (c_highest_space c) (c_prev_crypto c) (c_next_crypto c) (c_accepted_0rtt c) (c_permit_idle_reset c)
    (c_idle_timeout c) (c_timers c) (c_authentication_failures c) (c_error c) (c_packet_number_filter c)
    (c_path_responses c) (c_close c) (c_ack_frequency c) (c_pto_count c) (c_receiving_ecn c) (c_total_authed_packets
    c) (c_app_limited c) (c_streams c) (c_rem_cids c) (c_local_cid_state c) (c_datagrams c) (c_version c).
Definition set_c_endpoint_events (c : Connection) (v : list EndpointEvent) : Connection :=
  mkConnection (c_grease_quic_bit c) (c_config c) (c_rng c) (c_crypto c) (c_handshake_cid c) (c_rem_handshake_cid c)
    (c_local_ip c) (c_path c) (c_path_counter c) (c_allow_mtud c) (c_prev_path c) (c_state c) (c_side c)
    (c_zero_rtt_enabled c) (c_zero_rtt_crypto c) (c_key_phase c) (c_key_phase_size c) (c_peer_params c)
    (c_orig_rem_cid c) (c_initial_dst_cid c) (c_retry_src_cid c) (c_events c) v (c_spin_enabled c) (c_spin c)
    (c_spaces c) (c_highest_space c) (c_prev_crypto c) (c_next_crypto c) (c_accepted_0rtt c) (c_permit_idle_reset c)
    (c_idle_timeout c) (c_timers c) (c_authentication_failures c) (c_error c) (c_packet_number_filter c)
    (c_path_responses c) (c_close c) (c_ack_frequency c) (c_pto_count c) (c_receiving_ecn c) (c_total_authed_packets
    c) (c_app_limited c) (c_streams c) (c_rem_cids c) (c_local_cid_state c) (c_datagrams c) (c_version c).
Definition set_c_spin (c : Connection) (v : bool) : Connection :=
  mkConnection (c_grease_quic_bit c) (c_config c) (c_rng c) (c_crypto c) (c_handshake_cid c) (c_rem_handshake_cid c)
    (c_local_ip c) (c_path c) (c_path_counter c) (c_allow_mtud c) (c_prev_path c) (c_state c) (c_side c)
    (c_zero_rtt_enabled c) (c_zero_rtt_crypto c) (c_key_phase c) (c_key_phase_size c) (c_peer_params c)
    (c_orig_rem_cid c) (c_initial_dst_cid c) (c_retry_src_cid c) (c_events c) (c_endpoint_events c) (c_spin_enabled c)
    v (c_spaces c) (c_highest_space c) (c_prev_crypto c) (c_next_crypto c) (c_accepted_0rtt c) (c_permit_idle_reset c)
    (c_idle_timeout c) (c_timers c) (c_authentication_failures c) (c_error c) (c_packet_number_filter c)
    (c_path_responses c) (c_close c) (c_ack_frequency c) (c_pto_count c) (c_receiving_ecn c) (c_total_authed_packets
    c) (c_app_limited c) (c_streams c) (c_rem_cids c) (c_local_cid_state c) (c_datagrams c) (c_version c).
Definition set_c_spaces (c : Connection) (v : SpaceId → PacketSpace Keys H) : Connection :=
  mkConnection (c_grease_quic_bit c) (c_config c) (c_rng c) (c_crypto c) (c_handshake_cid c) (c_rem_handshake_cid c)
    (c_local_ip c) (c_path c) (c_path_counter c) (c_allow_mtud c) (c_prev_path c) (c_state c) (c_side c)
    (c_zero_rtt_enabled c) (c_zero_rtt_crypto c) (c_key_phase c) (c_key_phase_size c) (c_peer_params c)
    (c_orig_rem_cid c) (c_initial_dst_cid c) (c_retry_src_cid c) (c_events c) (c_endpoint_events c) (c_spin_enabled c)
    (c_spin c) v (c_highest_space c) (c_prev_crypto c) (c_next_crypto c) (c_accepted_0rtt c) (c_permit_idle_reset c)
    (c_idle_timeout c) (c_timers c) (c_authentication_failures c) (c_error c) (c_packet_number_filter c)
    (c_path_responses c) (c_close c) (c_ack_frequency c) (c_pto_count c) (c_receiving_ecn c) (c_total_authed_packets
    c) (c_app_limited c) (c_streams c) (c_rem_cids c) (c_local_cid_state c) (c_datagrams c) (c_version c).
Definition set_c_highest_space (c : Connection) (v : SpaceId) : Connection :=
  mkConnection (c_grease_quic_bit c) (c_config c) (c_rng c) (c_crypto c) (c_handshake_cid c) (c_rem_handshake_cid c)
    (c_local_ip c) (c_path c) (c_path_counter c) (c_allow_mtud c) (c_prev_path c) (c_state c) (c_side c)
    (c_zero_rtt_enabled c) (c_zero_rtt_crypto c) (c_key_phase c) (c_key_phase_size c) (c_peer_params c)
    (c_orig_rem_cid c) (c_initial_dst_cid c) (c_retry_src_cid c) (c_events c) (c_endpoint_events c) (c_spin_enabled c)
    (c_spin c) (c_spaces c) v (c_prev_crypto c) (c_next_crypto c) (c_accepted_0rtt c) (c_permit_idle_reset c)
    (c_idle_timeout c) (c_timers c) (c_authentication_failures c) (c_error c) (c_packet_number_filter c)
    (c_path_responses c) (c_close c) (c_ack_frequency c) (c_pto_count c) (c_receiving_ecn c) (c_total_authed_packets
    c) (c_app_limited c) (c_streams c) (c_rem_cids c) (c_local_cid_state c) (c_datagrams c) (c_version c).
Definition set_c_prev_crypto (c : Connection) (v : option PrevCrypto) : Connection :=
  mkConnection (c_grease_quic_bit c) (c_config c) (c_rng c) (c_crypto c) (c_handshake_cid c) (c_rem_handshake_cid c)
    (c_local_ip c) (c_path c) (c_path_counter c) (c_allow_mtud c) (c_prev_path c) (c_state c) (c_side c)
    (c_zero_rtt_enabled c) (c_zero_rtt_crypto c) (c_key_phase c) (c_key_phase_size c) (c_peer_params c)
    (c_orig_rem_cid c) (c_initial_dst_cid c) (c_retry_src_cid c) (c_events c) (c_endpoint_events c) (c_spin_enabled c)
    (c_spin c) (c_spaces c) (c_highest_space c) v (c_next_crypto c) (c_accepted_0rtt c) (c_permit_idle_reset c)
    (c_idle_timeout c) (c_timers c) (c_authentication_failures c) (c_error c) (c_packet_number_filter c)
    (c_path_responses c) (c_close c) (c_ack_frequency c) (c_pto_count c) (c_receiving_ecn c) (c_total_authed_packets
    c) (c_app_limited c) (c_streams c) (c_rem_cids c) (c_local_cid_state c) (c_datagrams c) (c_version c).
Definition set_c_next_crypto (c : Connection) (v : option (KeyPair PacketKey)) : Connection :=
  mkConnection (c_grease_quic_bit c) (c_config c) (c_rng c) (c_crypto c) (c_handshake_cid c) (c_rem_handshake_cid c)
    (c_local_ip c) (c_path c) (c_path_counter c) (c_allow_mtud c) (c_prev_path c) (c_state c) (c_side c)
    (c_zero_rtt_enabled c) (c_zero_rtt_crypto c) (c_key_phase c) (c_key_phase_size c) (c_peer_params c)
    (c_orig_rem_cid c) (c_initial_dst_cid c) (c_retry_src_cid c) (c_events c) (c_endpoint_events c) (c_spin_enabled c)
    (c_spin c) (c_spaces c) (c_highest_space c) (c_prev_crypto c) v (c_accepted_0rtt c) (c_permit_idle_reset c)
    (c_idle_timeout c) (c_timers c) (c_authentication_failures c) (c_error c) (c_packet_number_filter c)
    (c_path_responses c) (c_close c) (c_ack_frequency c) (c_pto_count c) (c_receiving_ecn c) (c_total_authed_packets
    c) (c_app_limited c) (c_streams c) (c_rem_cids c) (c_local_cid_state c) (c_datagrams c) (c_version c).
Definition set_c_accepted_0rtt (c : Connection) (v : bool) : Connection :=
  mkConnection (c_grease_quic_bit c) (c_config c) (c_rng c) (c_crypto c) (c_handshake_cid c) (c_rem_handshake_cid c)
    (c_local_ip c) (c_path c) (c_path_counter c) (c_allow_mtud c) (c_prev_path c) (c_state c) (c_side c)
    (c_zero_rtt_enabled c) (c_zero_rtt_crypto c) (c_key_phase c) (c_key_phase_size c) (c_peer_params c)
    (c_orig_rem_cid c) (c_initial_dst_cid c) (c_retry_src_cid c) (c_events c) (c_endpoint_events c) (c_spin_enabled c)
    (c_spin c) (c_spaces c) (c_highest_space c) (c_prev_crypto c) (c_next_crypto c) v (c_permit_idle_reset c)
    (c_idle_timeout c) (c_timers c) (c_authentication_failures c) (c_error c) (c_packet_number_filter c)
    (c_path_responses c) (c_close c) (c_ack_frequency c) (c_pto_count c) (c_receiving_ecn c) (c_total_authed_packets
    c) (c_app_limited c) (c_streams c) (c_rem_cids c) (c_local_cid_state c) (c_datagrams c) (c_version c).
Definition set_c_permit_idle_reset (c : Connection) (v : bool) : Connection :=
  mkConnection (c_grease_quic_bit c) (c_config c) (c_rng c) (c_crypto c) (c_handshake_cid c) (c_rem_handshake_cid c)
    (c_local_ip c) (c_path c) (c_path_counter c) (c_allow_mtud c) (c_prev_path c) (c_state c) (c_side c)
    (c_zero_rtt_enabled c) (c_zero_rtt_crypto c) (c_key_phase c) (c_key_phase_size c) (c_peer_params c)
    (c_orig_rem_cid c) (c_initial_dst_cid c) (c_retry_src_cid c) (c_events c) (c_endpoint_events c) (c_spin_enabled c)
    (c_spin c) (c_spaces c) (c_highest_space c) (c_prev_crypto c) (c_next_crypto c) (c_accepted_0rtt c) v
    (c_idle_timeout c) (c_timers c) (c_authentication_failures c) (c_error c) (c_packet_number_filter c)
    (c_path_responses c) (c_close c) (c_ack_frequency c) (c_pto_count c) (c_receiving_ecn c) (c_total_authed_packets
    c) (c_app_limited c) (c_streams c) (c_rem_cids c) (c_local_cid_state c) (c_datagrams c) (c_version c).
Definition set_c_idle_timeout (c : Connection) (v : option Z) : Connection :=
  mkConnection (c_grease_quic_bit c) (c_config c) (c_rng c) (c_crypto c) (c_handshake_cid c) (c_rem_handshake_cid c)
    (c_local_ip c) (c_path c) (c_path_counter c) (c_allow_mtud c) (c_prev_path c) (c_state c) (c_side c)
    (c_zero_rtt_enabled c) (c_zero_rtt_crypto c) (c_key_phase c) (c_key_phase_size c) (c_peer_params c)
    (c_orig_rem_cid c) (c_initial_dst_cid c) (c_retry_src_cid c) (c_events c) (c_endpoint_events c) (c_spin_enabled c)
    (c_spin c) (c_spaces c) (c_highest_space c) (c_prev_crypto c) (c_next_crypto c) (c_accepted_0rtt c)
    (c_permit_idle_reset c) v (c_timers c) (c_authentication_failures c) (c_error c) (c_packet_number_filter c)
    (c_path_responses c) (c_close c) (c_ack_frequency c) (c_pto_count c) (c_receiving_ecn c) (c_total_authed_packets
    c) (c_app_limited c) (c_streams c) (c_rem_cids c) (c_local_cid_state c) (c_datagrams c) (c_version c).
Definition set_c_timers (c : Connection) (v : TimerTable) : Connection :=
  mkConnection (c_grease_quic_bit c) (c_config c) (c_rng c) (c_crypto c) (c_handshake_cid c) (c_rem_handshake_cid c)
    (c_local_ip c) (c_path c) (c_path_counter c) (c_allow_mtud c) (c_prev_path c) (c_state c) (c_side c)
    (c_zero_rtt_enabled c) (c_zero_rtt_crypto c) (c_key_phase c) (c_key_phase_size c) (c_peer_params c)
    (c_orig_rem_cid c) (c_initial_dst_cid c) (c_retry_src_cid c) (c_events c) (c_endpoint_events c) (c_spin_enabled c)
    (c_spin c) (c_spaces c) (c_highest_space c) (c_prev_crypto c) (c_next_crypto c) (c_accepted_0rtt c)
    (c_permit_idle_reset c) (c_idle_timeout c) v (c_authentication_failures c) (c_error c) (c_packet_number_filter c)
    (c_path_responses c) (c_close c) (c_ack_frequency c) (c_pto_count c) (c_receiving_ecn c) (c_total_authed_packets
    c) (c_app_limited c) (c_streams c) (c_rem_cids c) (c_local_cid_state c) (c_datagrams c) (c_version c).
Definition set_c_authentication_failures (c : Connection) (v : Z) : Connection :=
  mkConnection (c_grease_quic_bit c) (c_config c) (c_rng c) (c_crypto c) (c_handshake_cid c) (c_rem_handshake_cid c)
    (c_local_ip c) (c_path c) (c_path_counter c) (c_allow_mtud c) (c_prev_path c) (c_state c) (c_side c)
    (c_zero_rtt_enabled c) (c_zero_rtt_crypto c) (c_key_phase c) (c_key_phase_size c) (c_peer_params c)
    (c_orig_rem_cid c) (c_initial_dst_cid c) (c_retry_src_cid c) (c_events c) (c_endpoint_events c) (c_spin_enabled c)
    (c_spin c) (c_spaces c) (c_highest_space c) (c_prev_crypto c) (c_next_crypto c) (c_accepted_0rtt c)
    (c_permit_idle_reset c) (c_idle_timeout c) (c_timers c) v (c_error c) (c_packet_number_filter c) (c_path_responses
    c) (c_close c) (c_ack_frequency c) (c_pto_count c) (c_receiving_ecn c) (c_total_authed_packets c) (c_app_limited
    c) (c_streams c) (c_rem_cids c) (c_local_cid_state c) (c_datagrams c) (c_version c).
Definition set_c_error (c : Connection) (v : option ConnectionError) : Connection :=
  mkConnection (c_grease_quic_bit c) (c_config c) (c_rng c) (c_crypto c) (c_handshake_cid c) (c_rem_handshake_cid c)
    (c_local_ip c) (c_path c) (c_path_counter c) (c_allow_mtud c) (c_prev_path c) (c_state c) (c_side c)
    (c_zero_rtt_enabled c) (c_zero_rtt_crypto c) (c_key_phase c) (c_key_phase_size c) (c_peer_params c)
    (c_orig_rem_cid c) (c_initial_dst_cid c) (c_retry_src_cid c) (c_events c) (c_endpoint_events c) (c_spin_enabled c)
    (c_spin c) (c_spaces c) (c_highest_space c) (c_prev_crypto c) (c_next_crypto c) (c_accepted_0rtt c)
    (c_permit_idle_reset c) (c_idle_timeout c) (c_timers c) (c_authentication_failures c) v (c_packet_number_filter c)
    (c_path_responses c) (c_close c) (c_ack_frequency c) (c_pto_count c) (c_receiving_ecn c) (c_total_authed_packets
    c) (c_app_limited c) (c_streams c) (c_rem_cids c) (c_local_cid_state c) (c_datagrams c) (c_version c).
Definition set_c_packet_number_filter (c : Connection) (v : PacketNumberFilter) : Connection :=
  mkConnection (c_grease_quic_bit c) (c_config c) (c_rng c) (c_crypto c) (c_handshake_cid c) (c_rem_handshake_cid c)
    (c_local_ip c) (c_path c) (c_path_counter c) (c_allow_mtud c) (c_prev_path c) (c_state c) (c_side c)
    (c_zero_rtt_enabled c) (c_zero_rtt_crypto c) (c_key_phase c) (c_key_phase_size c) (c_peer_params c)
    (c_orig_rem_cid c) (c_initial_dst_cid c) (c_retry_src_cid c) (c_events c) (c_endpoint_events c) (c_spin_enabled c)
    (c_spin c) (c_spaces c) (c_highest_space c) (c_prev_crypto c) (c_next_crypto c) (c_accepted_0rtt c)
    (c_permit_idle_reset c) (c_idle_timeout c) (c_timers c) (c_authentication_failures c) (c_error c) v
    (c_path_responses c) (c_close c) (c_ack_frequency c) (c_pto_count c) (c_receiving_ecn c) (c_total_authed_packets
    c) (c_app_limited c) (c_streams c) (c_rem_cids c) (c_local_cid_state c) (c_datagrams c) (c_version c).
Definition set_c_path_responses (c : Connection) (v : PathResponses) : Connection :=
  mkConnection (c_grease_quic_bit c) (c_config c) (c_rng c) (c_crypto c) (c_handshake_cid c) (c_rem_handshake_cid c)
    (c_local_ip c) (c_path c) (c_path_counter c) (c_allow_mtud c) (c_prev_path c) (c_state c) (c_side c)
    (c_zero_rtt_enabled c) (c_zero_rtt_crypto c) (c_key_phase c) (c_key_phase_size c) (c_peer_params c)
    (c_orig_rem_cid c) (c_initial_dst_cid c) (c_retry_src_cid c) (c_events c) (c_endpoint_events c) (c_spin_enabled c)
    (c_spin c) (c_spaces c) (c_highest_space c) (c_prev_crypto c) (c_next_crypto c) (c_accepted_0rtt c)
    (c_permit_idle_reset c) (c_idle_timeout c) (c_timers c) (c_authentication_failures c) (c_error c)
    (c_packet_number_filter c) v (c_close c) (c_ack_frequency c) (c_pto_count c) (c_receiving_ecn c)
    (c_total_authed_packets c) (c_app_limited c) (c_streams c) (c_rem_cids c) (c_local_cid_state c) (c_datagrams c)
    (c_version c).
Definition set_c_close (c : Connection) (v : bool) : Connection :=
  mkConnection (c_grease_quic_bit c) (c_config c) (c_rng c) (c_crypto c) (c_handshake_cid c) (c_rem_handshake_cid c)
    (c_local_ip c) (c_path c) (c_path_counter c) (c_allow_mtud c) (c_prev_path c) (c_state c) (c_side c)
    (c_zero_rtt_enabled c) (c_zero_rtt_crypto c) (c_key_phase c) (c_key_phase_size c) (c_peer_params c)
    (c_orig_rem_cid c) (c_initial_dst_cid c) (c_retry_src_cid c) (c_events c) (c_endpoint_events c) (c_spin_enabled c)
    (c_spin c) (c_spaces c) (c_highest_space c) (c_prev_crypto c) (c_next_crypto c) (c_accepted_0rtt c)
    (c_permit_idle_reset c) (c_idle_timeout c) (c_timers c) (c_authentication_failures c) (c_error c)
    (c_packet_number_filter c) (c_path_responses c) v (c_ack_frequency c) (c_pto_count c) (c_receiving_ecn c)
    (c_total_authed_packets c) (c_app_limited c) (c_streams c) (c_rem_cids c) (c_local_cid_state c) (c_datagrams c)
    (c_version c).
Definition set_c_ack_frequency (c : Connection) (v : AckFrequencyState) : Connection :=
  mkConnection (c_grease_quic_bit c) (c_config c) (c_rng c) (c_crypto c) (c_handshake_cid c) (c_rem_handshake_cid c)
    (c_local_ip c) (c_path c) (c_path_counter c) (c_allow_mtud c) (c_prev_path c) (c_state c) (c_side c)
    (c_zero_rtt_enabled c) (c_zero_rtt_crypto c) (c_key_phase c) (c_key_phase_size c) (c_peer_params c)
    (c_orig_rem_cid c) (c_initial_dst_cid c) (c_retry_src_cid c) (c_events c) (c_endpoint_events c) (c_spin_enabled c)
    (c_spin c) (c_spaces c) (c_highest_space c) (c_prev_crypto c) (c_next_crypto c) (c_accepted_0rtt c)
    (c_permit_idle_reset c) (c_idle_timeout c) (c_timers c) (c_authentication_failures c) (c_error c)
    (c_packet_number_filter c) (c_path_responses c) (c_close c) v (c_pto_count c) (c_receiving_ecn c)
    (c_total_authed_packets c) (c_app_limited c) (c_streams c) (c_rem_cids c) (c_local_cid_state c) (c_datagrams c)
    (c_version c).
Definition set_c_pto_count (c : Connection) (v : Z) : Connection :=
  mkConnection (c_grease_quic_bit c) (c_config c) (c_rng c) (c_crypto c) (c_handshake_cid c) (c_rem_handshake_cid c)
    (c_local_ip c) (c_path c) (c_path_counter c) (c_allow_mtud c) (c_prev_path c) (c_state c) (c_side c)
    (c_zero_rtt_enabled c) (c_zero_rtt_crypto c) (c_key_phase c) (c_key_phase_size c) (c_peer_params c)
    (c_orig_rem_cid c) (c_initial_dst_cid c) (c_retry_src_cid c) (c_events c) (c_endpoint_events c) (c_spin_enabled c)
    (c_spin c) (c_spaces c) (c_highest_space c) (c_prev_crypto c) (c_next_crypto c) (c_accepted_0rtt c)
    (c_permit_idle_reset c) (c_idle_timeout c) (c_timers c) (c_authentication_failures c) (c_error c)
    (c_packet_number_filter c) (c_path_responses c) (c_close c) (c_ack_frequency c) v (c_receiving_ecn c)
    (c_total_authed_packets c) (c_app_limited c) (c_streams c) (c_rem_cids c) (c_local_cid_state c) (c_datagrams c)
    (c_version c).
Definition set_c_receiving_ecn (c : Connection) (v : bool) : Connection :=
  mkConnection (c_grease_quic_bit c) (c_config c) (c_rng c) (c_crypto c) (c_handshake_cid c) (c_rem_handshake_cid c)
    (c_local_ip c) (c_path c) (c_path_counter c) (c_allow_mtud c) (c_prev_path c) (c_state c) (c_side c)
    (c_zero_rtt_enabled c) (c_zero_rtt_crypto c) (c_key_phase c) (c_key_phase_size c) (c_peer_params c)
    (c_orig_rem_cid c) (c_initial_dst_cid c) (c_retry_src_cid c) (c_events c) (c_endpoint_events c) (c_spin_enabled c)
    (c_spin c) (c_spaces c) (c_highest_space c) (c_prev_crypto c) (c_next_crypto c) (c_accepted_0rtt c)
    (c_permit_idle_reset c) (c_idle_timeout c) (c_timers c) (c_authentication_failures c) (c_error c)
    (c_packet_number_filter c) (c_path_responses c) (c_close c) (c_ack_frequency c) (c_pto_count c) v
    (c_total_authed_packets c) (c_app_limited c) (c_streams c) (c_rem_cids c) (c_local_cid_state c) (c_datagrams c)
    (c_version c).
Definition set_c_total_authed_packets (c : Connection) (v : Z) : Connection :=
  mkConnection (c_grease_quic_bit c) (c_config c) (c_rng c) (c_crypto c) (c_handshake_cid c) (c_rem_handshake_cid c)
    (c_local_ip c) (c_path c) (c_path_counter c) (c_allow_mtud c) (c_prev_path c) (c_state c) (c_side c)
    (c_zero_rtt_enabled c) (c_zero_rtt_crypto c) (c_key_phase c) (c_key_phase_size c) (c_peer_params c)
    (c_orig_rem_cid c) (c_initial_dst_cid c) (c_retry_src_cid c) (c_events c) (c_endpoint_events c) (c_spin_enabled c)
    (c_spin c) (c_spaces c) (c_highest_space c) (c_prev_crypto c) (c_next_crypto c) (c_accepted_0rtt c)
    (c_permit_idle_reset c) (c_idle_timeout c) (c_timers c) (c_authentication_failures c) (c_error c)
    (c_packet_number_filter c) (c_path_responses c) (c_close c) (c_ack_frequency c) (c_pto_count c) (c_receiving_ecn
    c) v (c_app_limited c) (c_streams c) (c_rem_cids c) (c_local_cid_state c) (c_datagrams c) (c_version c).
Definition set_c_app_limited (c : Connection) (v : bool) : Connection :=
  mkConnection (c_grease_quic_bit c) (c_config c) (c_rng c) (c_crypto c) (c_handshake_cid c) (c_rem_handshake_cid c)
    (c_local_ip c) (c_path c) (c_path_counter c) (c_allow_mtud c) (c_prev_path c) (c_state c) (c_side c)
    (c_zero_rtt_enabled c) (c_zero_rtt_crypto c) (c_key_phase c) (c_key_phase_size c) (c_peer_params c)
    (c_orig_rem_cid c) (c_initial_dst_cid c) (c_retry_src_cid c) (c_events c) (c_endpoint_events c) (c_spin_enabled c)
    (c_spin c) (c_spaces c) (c_highest_space c) (c_prev_crypto c) (c_next_crypto c) (c_accepted_0rtt c)
    (c_permit_idle_reset c) (c_idle_timeout c) (c_timers c) (c_authentication_failures c) (c_error c)
    (c_packet_number_filter c) (c_path_responses c) (c_close c) (c_ack_frequency c) (c_pto_count c) (c_receiving_ecn
    c) (c_total_authed_packets c) v (c_streams c) (c_rem_cids c) (c_local_cid_state c) (c_datagrams c) (c_version c).
Definition set_c_streams (c : Connection) (v : StreamsState H) : Connection :=
  mkConnection (c_grease_quic_bit c) (c_config c) (c_rng c) (c_crypto c) (c_handshake_cid c) (c_rem_handshake_cid c)
    (c_local_ip c) (c_path c) (c_path_counter c) (c_allow_mtud c) (c_prev_path c) (c_state c) (c_side c)
    (c_zero_rtt_enabled c) (c_zero_rtt_crypto c) (c_key_phase c) (c_key_phase_size c) (c_peer_params c)
    (c_orig_rem_cid c) (c_initial_dst_cid c) (c_retry_src_cid c) (c_events c) (c_endpoint_events c) (c_spin_enabled c)
    (c_spin c) (c_spaces c) (c_highest_space c) (c_prev_crypto c) (c_next_crypto c) (c_accepted_0rtt c)
    (c_permit_idle_reset c) (c_idle_timeout c) (c_timers c) (c_authentication_failures c) (c_error c)
    (c_packet_number_filter c) (c_path_responses c) (c_close c) (c_ack_frequency c) (c_pto_count c) (c_receiving_ecn
    c) (c_total_authed_packets c) (c_app_limited c) v (c_rem_cids c) (c_local_cid_state c) (c_datagrams c) (c_version
    c).
Definition set_c_rem_cids (c : Connection) (v : CidQueue) : Connection :=
  mkConnection (c_grease_quic_bit c) (c_config c) (c_rng c) (c_crypto c) (c_handshake_cid c) (c_rem_handshake_cid c)
    (c_local_ip c) (c_path c) (c_path_counter c) (c_allow_mtud c) (c_prev_path c) (c_state c) (c_side c)
    (c_zero_rtt_enabled c) (c_zero_rtt_crypto c) (c_key_phase c) (c_key_phase_size c) (c_peer_params c)
    (c_orig_rem_cid c) (c_initial_dst_cid c) (c_retry_src_cid c) (c_events c) (c_endpoint_events c) (c_spin_enabled c)
    (c_spin c) (c_spaces c) (c_highest_space c) (c_prev_crypto c) (c_next_crypto c) (c_accepted_0rtt c)
    (c_permit_idle_reset c) (c_idle_timeout c) (c_timers c) (c_authentication_failures c) (c_error c)
    (c_packet_number_filter c) (c_path_responses c) (c_close c) (c_ack_frequency c) (c_pto_count c) (c_receiving_ecn
    c) (c_total_authed_packets c) (c_app_limited c) (c_streams c) v (c_local_cid_state c) (c_datagrams c) (c_version
    c).
Definition set_c_local_cid_state (c : Connection) (v : CidState) : Connection :=
  mkConnection (c_grease_quic_bit c) (c_config c) (c_rng c) (c_crypto c) (c_handshake_cid c) (c_rem_handshake_cid c)
    (c_local_ip c) (c_path c) (c_path_counter c) (c_allow_mtud c) (c_prev_path c) (c_state c) (c_side c)
    (c_zero_rtt_enabled c) (c_zero_rtt_crypto c) (c_key_phase c) (c_key_phase_size c) (c_peer_params c)
    (c_orig_rem_cid c) (c_initial_dst_cid c) (c_retry_src_cid c) (c_events c) (c_endpoint_events c) (c_spin_enabled c)
    (c_spin c) (c_spaces c) (c_highest_space c) (c_prev_crypto c) (c_next_crypto c) (c_accepted_0rtt c)
    (c_permit_idle_reset c) (c_idle_timeout c) (c_timers c) (c_authentication_failures c) (c_error c)
    (c_packet_number_filter c) (c_path_responses c) (c_close c) (c_ack_frequency c) (c_pto_count c) (c_receiving_ecn
    c) (c_total_authed_packets c) (c_app_limited c) (c_streams c) (c_rem_cids c) v (c_datagrams c) (c_version c).
Definition set_c_datagrams (c : Connection) (v : DatagramState) : Connection :=
  mkConnection (c_grease_quic_bit c) (c_config c) (c_rng c) (c_crypto c) (c_handshake_cid c) (c_rem_handshake_cid c)
    (c_local_ip c) (c_path c) (c_path_counter c) (c_allow_mtud c) (c_prev_path c) (c_state c) (c_side c)
    (c_zero_rtt_enabled c) (c_zero_rtt_crypto c) (c_key_phase c) (c_key_phase_size c) (c_peer_params c)
    (c_orig_rem_cid c) (c_initial_dst_cid c) (c_retry_src_cid c) (c_events c) (c_endpoint_events c) (c_spin_enabled c)
    (c_spin c) (c_spaces c) (c_highest_space c) (c_prev_crypto c) (c_next_crypto c) (c_accepted_0rtt c)
    (c_permit_idle_reset c) (c_idle_timeout c) (c_timers c) (c_authentication_failures c) (c_error c)
    (c_packet_number_filter c) (c_path_responses c) (c_close c) (c_ack_frequency c) (c_pto_count c) (c_receiving_ecn
    c) (c_total_authed_packets c) (c_app_limited c) (c_streams c) (c_rem_cids c) (c_local_cid_state c) v (c_version
    c).

(** * Access *)

Definition upd_space (c : Connection) (id : SpaceId) (f : PacketSpace Keys H → PacketSpace Keys H) : Connection :=
  set_c_spaces c (set_space (c_spaces c) id (f (c_spaces c id))).
Definition upd_path (c : Connection) (f : PathData C → PathData C) : Connection := set_c_path c (f (c_path c)).
Definition push_event (c : Connection) (e : Event) : Connection := set_c_events c (c_events c ++ [e]).
Definition push_endpoint_event (c : Connection) (e : EndpointEvent) : Connection :=
  set_c_endpoint_events c (c_endpoint_events c ++ [e]).
Definition set_timer (c : Connection) (t : Timer) (time : Z) : Connection := set_c_timers c (timer_set (c_timers c) t time).
Definition stop_timer (c : Connection) (t : Timer) : Connection := set_c_timers c (timer_stop (c_timers c) t).
Definition conn_side (c : Connection) : Side := side_of (c_side c).
Definition conn_is_client (c : Connection) : bool := is_client (conn_side c).
Definition conn_is_server (c : Connection) : bool := is_server (conn_side c).
Definition upd_pending (c : Connection) (f : Retransmits → Retransmits) : Connection :=
  upd_space c SpData (fun s => Spaces.set_pending s (f (Spaces.pending s))).

(** The fields [PacketCrypto] works on. *)
Definition key_state (c : Connection) : @KeyState H T :=
  mkKeyState (c_crypto c) (c_spaces c) (c_zero_rtt_crypto c) (c_key_phase c) (c_key_phase_size c) (c_prev_crypto c)
    (c_next_crypto c) (timer_get (c_timers c) TKeyDiscard) (c_highest_space c).
Definition with_keys (c : Connection) (k : @KeyState H T) : Connection :=
  let c := set_c_crypto c (session k) in
  let c := set_c_spaces c (spaces k) in
  let c := set_c_zero_rtt_crypto c (zero_rtt_crypto k) in
  let c := set_c_key_phase c (key_phase k) in
  let c := set_c_key_phase_size c (key_phase_size k) in
  let c := set_c_prev_crypto c (prev_crypto k) in
  let c := set_c_next_crypto c (next_crypto k) in
  let c := set_c_highest_space c (highest_space k) in
  match key_discard k with Some t => set_timer c TKeyDiscard t | None => stop_timer c TKeyDiscard end.

(** * Keys *)

Definition conn_update_keys (c : Connection) (end_packet : option (Z * Z)) (remote : bool) : M Connection :=
  k ← update_keys tls_next_1rtt_keys (key_state c) end_packet remote; mret (with_keys c k).

Definition conn_force_key_update (c : Connection) : M Connection :=
  k ← force_key_update tls_next_1rtt_keys (key_state c) (is_established (c_state c)); mret (with_keys c k).

Definition conn_upgrade_crypto (c : Connection) (space : SpaceId) (keys : Keys) : M Connection :=
  k ← upgrade_crypto tls_next_1rtt_keys (key_state c) space keys (conn_is_client c); mret (with_keys c k).

(** * Timers *)

Definition pto (c : Connection) (space : SpaceId) : Z :=
  let max_ack_delay := match space with SpData => max_ack_delay_for_pto (c_ack_frequency c) | _ => 0 end in
  pto_base (p_rtt (c_path c)) + max_ack_delay.

Definition conn_set_key_discard_timer (c : Connection) (now : Z) (space : SpaceId) : M Connection :=
  k ← set_key_discard_timer (key_state c) now (pto c space); mret (with_keys c k).

Definition conn_decrypt_packet (c : Connection) (now : Z) (packet : Packet)
    : M (result (option TransportError) (option Z) * Packet * Connection) :=
  '(r, packet, k) ← decrypt_packet tls_next_1rtt_keys (key_state c) now (pto c) packet; mret (r, packet, with_keys c k).

Definition reset_idle_timeout (c : Connection) (now : Z) (space : SpaceId) : Connection :=
  match c_idle_timeout c with
  | None => c
  | Some timeout =>
      if is_closed (c_state c) then stop_timer c TIdle
      else set_timer c TIdle (now + Z.max timeout (3 * pto c space))
  end.

Definition reset_keep_alive (c : Connection) (now : Z) : Connection :=
  match tc_keep_alive_interval (c_config c) with
  | Some interval => if is_established (c_state c) then set_timer c TKeepAlive (now + interval) else c
  | None => c
  end.

Definition reset_cid_retirement (c : Connection) : Connection :=
  match CidState.next_timeout (c_local_cid_state c) with Some t => set_timer c TPushNewCid t | None => c end.

Definition close_common (c : Connection) : Connection := fold_left stop_timer Timer_VALUES c.

Definition set_close_timer (c : Connection) (now : Z) : Connection :=
  set_timer c TClose (now + 3 * pto c (c_highest_space c)).

Definition kill (c : Connection) (reason : ConnectionError) : Connection :=
  let c := close_common c in
  let c := set_c_error c (Some reason) in
  let c := set_c_state c Drained in
  push_endpoint_event c EvDrained.

Definition close_inner (c : Connection) (now : Z) (reason : Close) : Connection :=
  if is_closed (c_state c) then c
  else
    let c := close_common c in
    let c := set_close_timer c now in
    let c := set_c_close c true in
    set_c_state c (StClosed reason).

Definition close (c : Connection) (now : Z) (error_code : VarInt) (reason : list Z) : Connection :=
  close_inner c now (CloseApplication (mkApplicationClose error_code reason)).

Definition ping (c : Connection) : Connection := upd_space c (c_highest_space c) (fun s => set_ping_pending s true).
Definition immediate_ack (c : Connection) : Connection :=
  upd_space c (c_highest_space c) (fun s => set_immediate_ack_pending s true).

(** * Events *)

Definition poll_timeout (c : Connection) : option Z := Timer.next_timeout (c_timers c).

Definition conn_poll (c : Connection) : M (option Event * Connection) :=
  match c_events c with
  | x :: rest => mret (Some x, set_c_events c rest)
  | [] =>
      '(e, s) ← Streams.poll (c_streams c);
      let c := set_c_streams c s in
      match e with
      | Some event => mret (Some (EvStream event), c)
      | None =>
          match c_error c with
          | Some err => mret (Some (ConnectionLost err), set_c_error c None)
          | None => mret (None, c)
          end
      end
  end.

Definition poll_endpoint_events (c : Connection) : option EndpointEvent * Connection :=
  match c_endpoint_events c with
  | x :: rest => (Some x, set_c_endpoint_events c rest)
  | [] => (None, c)
  end.

(** The event [NewIdentifiers] from the endpoint. *)
Definition handle_event (c : Connection) (ids : list IssuedCid) (now : Z) : M Connection :=
  s ← new_cids max_instant (c_local_cid_state c) ids now;
  let c := set_c_local_cid_state c s in
  let c := upd_pending c (fun p => set_rt_new_cids p (rt_new_cids p ++ rev ids)) in
  mret (match timer_get (c_timers c) TPushNewCid with
        | Some x => if x <=? now then reset_cid_retirement c else c
        | None => reset_cid_retirement c
        end).

(** * Paths *)

Definition conn_remove_in_flight (c : Connection) (packet : SentPacket) : M Connection :=
  '(done, p) ← Paths.remove_in_flight (c_path c) packet;
  let c := set_c_path c p in
  if (done : bool) then mret c
  else
    match c_prev_path c with
    | Some (cid, prev) => '(_, prev) ← Paths.remove_in_flight prev packet; mret (set_c_prev_path c (Some (cid, prev)))
    | None => mret c
    end.

Definition on_path_validated (c : Connection) : Connection :=
  let c := upd_path c (fun p => set_validated p true) in
  match c_side c with
  | ServerSide server_config =>
      upd_pending c (fun r => set_rt_new_tokens r
        (replicate (Z.to_nat (sc_validation_token_sent server_config)) (p_remote (c_path c))))
  | ClientSide _ _ _ => c
  end.

Definition set_reset_token (c : Connection) (reset_token : ResetToken) : Connection :=
  let c := push_endpoint_event c (EvResetToken (p_remote (c_path c)) reset_token) in
  set_c_peer_params c (set_stateless_reset_token (c_peer_params c) (Some reset_token)).

Definition update_rem_cid (c : Connection) : M Connection :=
  '(r, q) ← CidQueue_next (c_rem_cids c);
  let c := set_c_rem_cids c q in
  match r with
  | None => mret c
  | Some (reset_token, retired) =>
      let c := upd_pending c (fun p => set_rt_retire_cids p (rt_retire_cids p ++ Arr.elts [retired])) in
      mret (set_reset_token c reset_token)
  end.

Definition local_address_changed (c : Connection) : M Connection := c ← update_rem_cid c; mret (ping c).

(** [u16::try_from(x).unwrap_or(u16::MAX)]. *)
Definition to_u16 (x : Z) : Z := Z.min x 65535.

Definition is_ipv4 (a : SocketAddr) : bool := match a with SocketV4 _ _ => true | SocketV6 _ _ _ _ => false end.

Definition migrate (c : Connection) (now : Z) (remote : SocketAddr) : M Connection :=
  let c := set_c_path_counter c ((c_path_counter c + 1) mod 2 ^ 64) in
  new_path ←
    (if is_ipv4 remote && bool_decide (addr_ip remote = addr_ip (p_remote (c_path c)))
     then from_previous remote (c_path c) (c_path_counter c) now
     else PathData_new remote (c_allow_mtud c) (Some (to_u16 (max_udp_payload_size (c_peer_params c)))) (c_path_counter c) now
            (c_config c));
  let new_path := set_challenge_pending (set_challenge new_path (Some (rng_u64 (c_rng c)))) true in
  let c := set_c_rng c (rng_step (c_rng c)) in
  let prev_pto := pto c SpData in
  let prev := c_path c in
  let c := set_c_path c new_path in
  c ← match p_challenge prev with
      | None =>
          let prev := set_challenge_pending (set_challenge prev (Some (rng_u64 (c_rng c)))) true in
          let c := set_c_rng c (rng_step (c_rng c)) in
          cid ← active (c_rem_cids c);
          mret (set_c_prev_path c (Some (cid, prev)))
      | Some _ => mret c
      end;
  mret (set_timer c TPathValidation (now + 3 * Z.max (pto c SpData) prev_pto)).

Definition path_changed (c : Connection) (now : Z) : M Connection :=
  p ← path_reset (c_path c) now (c_config c); mret (set_c_path c p).

(** * Transport parameters and handshake *)

Definition stream_params (p : TransportParameters) : StreamParams :=
  mkStreamParams (mkVarInt (TransportParams.initial_max_stream_data_uni p))
    (mkVarInt (TransportParams.initial_max_stream_data_bidi_local p))
    (mkVarInt (TransportParams.initial_max_stream_data_bidi_remote p)) (mkVarInt (initial_max_streams_bidi p))
    (mkVarInt (initial_max_streams_uni p)) (mkVarInt (initial_max_data p)).

Definition set_peer_max_ack_delay (s : AckFrequencyState) (v : Z) : AckFrequencyState :=
  mkAckFrequencyState (in_flight_ack_frequency_frame s) (next_outgoing_sequence_number s) v (last_ack_frequency_frame s)
    (local_max_ack_delay s).

Definition set_peer_params (c : Connection) (params : TransportParameters) : M Connection :=
  let c := set_c_streams c (Streams.set_params (c_streams c) (stream_params params)) in
  let c := set_c_idle_timeout c
             (negotiate_max_idle_timeout (tc_max_idle_timeout (c_config c)) (Some (mkVarInt (max_idle_timeout params)))) in
  c ← match preferred_address params with
      | Some info =>
          '(r, q) ← CidQueue_insert (c_rem_cids c)
                      (mkNewConnectionId 1 0 (pa_connection_id info) (pa_stateless_reset_token info));
          match r with Ok _ => mret (set_c_rem_cids c q) | Err _ => Panic end
      | None => mret c
      end;
  delay ← get_max_ack_delay params;
  let c := set_c_ack_frequency c (set_peer_max_ack_delay (c_ack_frequency c) delay) in
  let c := set_c_peer_params c params in
  m ← on_peer_max_udp_payload_size_received (p_mtud (c_path c)) (to_u16 (max_udp_payload_size (c_peer_params c)));
  mret (upd_path c (fun p => set_mtud p m)).

Definition handle_peer_params (c : Connection) (params : TransportParameters) : M (result TransportError unit * Connection) :=
  if negb (bool_decide (Some (c_orig_rem_cid c) = initial_src_cid params)) ||
     (conn_is_client c && (negb (bool_decide (Some (c_initial_dst_cid c) = original_dst_cid params)) ||
                           negb (bool_decide (c_retry_src_cid c = TransportParams.retry_src_cid params))))
  then mret (Err (mkTransportError TRANSPORT_PARAMETER_ERROR), c)
  else c ← set_peer_params c params; mret (Ok tt, c).

(** The parameters of a previous connection that may be used for 0-RTT. *)
Definition cached_params (p : TransportParameters) : TransportParameters :=
  set_max_ack_delay
    (set_ack_delay_exponent
       (set_min_ack_delay
          (set_stateless_reset_token
             (set_retry_src_cid (set_preferred_address (set_original_dst_cid (set_initial_src_cid p None) None) None) None)
             None)
          None)
       (ack_delay_exponent TransportParameters_default))
    (max_ack_delay TransportParameters_default).

Definition init_0rtt (c : Connection) : M Connection :=
  match tls_early_crypto (c_crypto c) with
  | None => mret c
  | Some (header, packet) =>
      let enable c := set_c_zero_rtt_crypto (set_c_zero_rtt_enabled c true) (Some (mkZeroRttCrypto header packet)) in
      if conn_is_client c then
        match tls_transport_parameters (c_crypto c) with
        | Ok None => Panic
        | Ok (Some params) => c ← set_peer_params c (cached_params params); mret (enable c)
        | Err _ => mret c
        end
      else mret (enable c)
  end.

(** The loop that feeds the session; each turn takes a chunk off the stream. *)
Fixpoint read_crypto_loop (fuel : nat) (c : Connection) (space : SpaceId) : M (result TransportError unit * Connection) :=
  match fuel with
  | O => Panic
  | S fuel =>
      '(chunk, stream) ← Assembler.read (crypto_stream (c_spaces c space)) u64_max true;
      let c := upd_space c space (fun s => set_crypto_stream s stream) in
      match chunk with
      | None => mret (Ok tt, c)
      | Some chunk =>
          let '(r, session) := tls_read_handshake (c_crypto c) (c_bytes chunk) in
          let c := set_c_crypto c session in
          match r with
          | Err e => mret (Err e, c)
          | Ok ready => read_crypto_loop fuel (if (ready : bool) then push_event c HandshakeDataReady else c) space
          end
      end
  end.

Definition read_crypto (c : Connection) (space : SpaceId) (crypto : Crypto) (payload_len : Z)
    : M (result TransportError unit * Connection) :=
  let expected := if negb (is_handshake (c_state c)) then SpData
                  else if bool_decide (c_highest_space c = SpInitial) then SpInitial else SpHandshake in
  _ ← rassert (space_index space <=? space_index expected);
  end_ ← uadd (cr_offset crypto) (len (cr_data crypto));
  if (space_index space <? space_index expected) && (bytes_read (crypto_stream (c_spaces c space)) <? end_)
  then mret (Err (mkTransportError PROTOCOL_VIOLATION), c)
  else
    let max := sat_sub end_ (bytes_read (crypto_stream (c_spaces c space))) in
    if tc_crypto_buffer_size (c_config c) <? max then mret (Err (mkTransportError CRYPTO_BUFFER_EXCEEDED), c)
    else
      stream ← Assembler.insert (crypto_stream (c_spaces c space)) (cr_offset crypto) (cr_data crypto) payload_len;
      let c := upd_space c space (fun s => set_crypto_stream s stream) in
      read_crypto_loop (S (S (length (helems (data stream))))) c space.

(** [crypto_turns] bounds the turns of the loop; a session that still has something to write after them would keep the
    source in the loop. *)
Context (crypto_turns : nat).

Fixpoint write_crypto_loop (fuel : nat) (c : Connection) : M Connection :=
  match fuel with
  | O => Panic
  | S fuel =>
      let space := c_highest_space c in
      let '(outgoing, keys, session) := tls_write_handshake (c_crypto c) in
      let c := set_c_crypto c session in
      c ← match keys with
          | Some crypto =>
              match space with
              | SpInitial => conn_upgrade_crypto c SpHandshake crypto
              | SpHandshake => conn_upgrade_crypto c SpData crypto
              | SpData => Panic
              end
          | None => mret c
          end;
      if bool_decide (outgoing = []) then
        if bool_decide (space = c_highest_space c) then mret c else write_crypto_loop fuel c
      else
        let offset := crypto_offset (c_spaces c space) in
        let c := match c_state c with
                 | StHandshake h =>
                     if bool_decide (space = SpInitial) && (offset =? 0) && conn_is_client c
                     then set_c_state c (StHandshake (mkHandshakeState (rem_cid_set h) (expected_token h) (Some outgoing)))
                     else c
                 | _ => c
                 end in
        n ← uadd offset (len outgoing);
        write_crypto_loop fuel
          (upd_space c space (fun s =>
             Spaces.set_pending (set_crypto_offset s n)
               (set_rt_crypto (Spaces.pending s) (rt_crypto (Spaces.pending s) ++ [mkCrypto offset outgoing]))))
  end.

Definition write_crypto (c : Connection) : M Connection := write_crypto_loop crypto_turns c.

Definition issue_first_cids (c : Connection) (now : Z) : M Connection :=
  if state_cid_len (c_local_cid_state c) =? 0 then mret c
  else
    n ← usub (issue_cids_limit (c_peer_params c)) 1;
    n ← match c_side c with
        | ServerSide server_config => if has_preferred_address server_config then usub n 1 else mret n
        | ClientSide _ _ _ => mret n
        end;
    mret (push_endpoint_event c (EvNeedIdentifiers now n)).

(** * Streams and datagrams *)

Definition set_max_concurrent_streams (c : Connection) (d : Dir) (count : VarInt) : M Connection :=
  s ← Streams.set_max_concurrent (c_streams c) d count;
  let c := set_c_streams c s in
  '(_, p) ← Streams.queue_max_stream_id s (Spaces.pending (c_spaces c SpData));
  mret (upd_pending c (fun _ => p)).

Definition conn_set_send_window (c : Connection) (w : Z) : Connection :=
  set_c_streams c (Streams.configure_send_window (c_streams c) w).

Definition conn_set_receive_window (c : Connection) (w : VarInt) : Connection :=
  let '(grew, s) := Streams.configure_receive_window (c_streams c) w in
  let c := set_c_streams c s in
  if (grew : bool) then upd_pending c (fun p => set_rt_max_data p true) else c.

Definition tag_len_1rtt (c : Connection) : Z :=
  match Spaces.crypto (c_spaces c SpData) with
  | Some crypto => tag_len (local (k_packet crypto))
  | None => match c_zero_rtt_crypto c with Some z => tag_len (z_packet z) | None => 16 end
  end.

Definition predict_1rtt_overhead (c : Connection) (pn : option Z) : M Z :=
  pn_len ← match pn with
           | Some pn =>
               n ← PacketNumber_new pn (default 0 (largest_acked_packet (c_spaces c SpData)));
               mret (pn_len n)
           | None => mret 4
           end;
  cid ← active (c_rem_cids c);
  mret (1 + len (cid_bytes cid) + pn_len + tag_len_1rtt c).

(** [Datagrams::max_size]. *)
Definition datagram_max_size (c : Connection) : M (option Z) :=
  overhead ← predict_1rtt_overhead c None;
  n ← usub (p_current_mtu (c_path c)) overhead;
  max_size ← usub n Datagram_SIZE_BOUND;
  mret (match max_datagram_frame_size (c_peer_params c) with
        | Some limit => Some (Z.min (sat_sub limit Datagram_SIZE_BOUND) max_size)
        | None => None
        end).

(** [Datagrams::send]. *)
Definition conn_send_datagram (c : Connection) (data : list Z) (drop : bool)
    : M (result SendDatagramError unit * Connection) :=
  let enabled := match tc_datagram_receive_buffer_size (c_config c) with Some _ => true | None => false end in
  max ← (if enabled then datagram_max_size c else mret None);
  '(r, d) ← send_datagram (c_datagrams c) enabled max (tc_datagram_send_buffer_size (c_config c)) data drop;
  mret (r, set_c_datagrams c d).
End Connection.
#[global] Arguments ConnectionSide TS : clear implicits.
#[global] Arguments Connection C H T R TS : clear implicits.
