(* ===== verification/ConnRecovery.v ===== *)
(** Loss recovery and timeouts of a connection: acknowledgements, loss detection, the loss timer and the expiry of timers in
    [quic-proto/src/connection/mod.rs]. *)
From Stdlib Require Import SpecFloat.
From stdpp Require Import gmap.
From S2P Require Import Prelude Coding RangeSet Ids Shared Frame Float Packet TransportParams Token TokenCache Assembler Recv Send.
From S2P Require Import PendingStreams Retransmits CidQueue CidState Streams Dedup PendingAcks Mtud Timer AckFrequency Rtt.
From S2P Require Import Congestion Pacing Datagrams Spaces PacketCrypto Config Paths Connection.
Open Scope Z_scope.

(** [BTreeMap::get], [BTreeMap::range] of a range with or without its end. *)
Definition map_get {V} (m : list (Z * V)) (k : Z) : option V := snd <$> find (fun e => e.1 =? k) m.
Definition map_range {V} (m : list (Z * V)) (lo hi : Z) : list (Z * V) := filter (fun e => lo <= e.1 < hi) m.
Definition map_range_incl {V} (m : list (Z * V)) (lo hi : Z) : list (Z * V) := filter (fun e => lo <= e.1 <= hi) m.

(** What the loop of [detect_lost_packets] carries from packet to packet. *)
Record LossScan : Type := mkLossScan {
  ls_lost : list Z;
  ls_lost_mtu_probe : option Z;
  ls_size : Z;
  ls_congestion_start : option Z;
  ls_prev : option Z;
  ls_persistent : bool;
  ls_loss_time : option Z
}.

(** The order of pairs of a space and a packet number. *)
Definition space_pn_lt (x y : SpaceId * Z) : bool :=
  (space_index x.1 <? space_index y.1) || ((space_index x.1 =? space_index y.1) && (x.2 <? y.2)).

(** The quantities the loop compares with. *)
Record LossParams : Type := mkLossParams {
  lp_now : Z;
  lp_space : SpaceId;
  lp_due_to_ack : bool;
  lp_loss_delay : Z;
  lp_largest_acked : Z;
  lp_packet_threshold : Z;
  lp_congestion_period : Z;
  lp_mtu_probe : option Z;
  lp_first_after_sample : option (SpaceId * Z)
}.

Definition scan_packet (p : LossParams) (s : LossScan) (entry : Z * SentPacket) : M LossScan :=
  let '(packet, info) := entry in
  let start := if bool_decide (ls_prev s = Some ((packet - 1) mod 2 ^ 64)) then ls_congestion_start s else None in
  let packet_too_old := lp_loss_delay p <=? Z.max 0 (lp_now p - time_sent info) in
  reordered ← (if packet_too_old then mret true else t ← uadd packet (lp_packet_threshold p); mret (t <=? lp_largest_acked p));
  if packet_too_old || reordered then
    if bool_decide (Some packet = lp_mtu_probe p) then
      mret (mkLossScan (ls_lost s) (lp_mtu_probe p) (ls_size s) start (Some packet) (ls_persistent s) (ls_loss_time s))
    else
      n ← uadd (ls_size s) (Spaces.size info);
      let '(start, persistent) :=
        if ack_eliciting info && lp_due_to_ack p then
          match start with
          | Some t => (start, (lp_congestion_period p <? Z.max 0 (time_sent info - t)) || ls_persistent s)
          | None =>
              (if match lp_first_after_sample p with Some x => space_pn_lt x (lp_space p, packet) | None => false end
               then Some (time_sent info) else None, ls_persistent s)
          end
        else (start, ls_persistent s) in
      mret (mkLossScan (ls_lost s ++ [packet]) (ls_lost_mtu_probe s) n start (Some packet) persistent (ls_loss_time s))
  else
    let next_loss_time := time_sent info + lp_loss_delay p in
    mret (mkLossScan (ls_lost s) (ls_lost_mtu_probe s) (ls_size s) None (Some packet) (ls_persistent s)
            (Some (match ls_loss_time s with Some x => Z.min x next_loss_time | None => next_loss_time end))).

Definition scan_packets (p : LossParams) (packets : list (Z * SentPacket)) : M LossScan :=
  mfold (scan_packet p) packets (mkLossScan [] None 0 None None false None).

Section Recovery.
Context {C : Type} {HC : Controller C} {H : Type} {HH : Heap H} {T : Type} {HT : Session T} {R : Type} {HR : Rng R}
  {TS : Type} {HTS : TokenStore TS}.
Local Notation Connection := (Connection C H T R TS).
Context (max_instant : Z) (crypto_turns : nat).

(** * The loss timer *)

Definition loss_time_and_space (c : Connection) : option (Z * SpaceId) :=
  fold_left (fun best id =>
    match loss_time (c_spaces c id) with
    | None => best
    | Some t => match best with Some (b, _) => if t <? b then Some (t, id) else best | None => Some (t, id) end
    end) [SpInitial; SpHandshake; SpData] None.

Definition peer_completed_address_validation (c : Connection) : bool :=
  if conn_is_server c || is_closed (c_state c) then true
  else
    bool_decide (is_Some (largest_acked_packet (c_spaces c SpHandshake))) ||
    bool_decide (is_Some (largest_acked_packet (c_spaces c SpData))) ||
    match Spaces.crypto (c_spaces c SpData), Spaces.crypto (c_spaces c SpHandshake) with Some _, None => true | _, _ => false end.

(** The loop over the spaces; the delay the peer may add counts only for application data, which is left out until the
    handshake is complete. *)
Fixpoint pto_loop (c : Connection) (backoff : Z) (l : list SpaceId) (duration : Z) (result : option (Z * SpaceId))
    : option (Z * SpaceId) :=
  match l with
  | [] => result
  | space :: l =>
      if negb (has_in_flight (c_spaces c space)) then pto_loop c backoff l duration result
      else if bool_decide (space = SpData) && is_handshake (c_state c) then result
      else
        let duration :=
          if bool_decide (space = SpData) then duration + max_ack_delay_for_pto (c_ack_frequency c) * backoff else duration in
        match time_of_last_ack_eliciting_packet (c_spaces c space) with
        | None => pto_loop c backoff l duration result
        | Some last_ack_eliciting =>
            let pto := last_ack_eliciting + duration in
            pto_loop c backoff l duration
              (match result with
               | Some (earliest_pto, _) => if pto <? earliest_pto then Some (pto, space) else result
               | None => Some (pto, space)
               end)
        end
  end.

Definition pto_time_and_space (c : Connection) (now : Z) : M (option (Z * SpaceId)) :=
  let backoff := 2 ^ (Z.min (c_pto_count c) MAX_BACKOFF_EXPONENT) in
  let duration := pto_base (p_rtt (c_path c)) * backoff in
  if if_ack_eliciting (p_in_flight (c_path c)) =? 0 then
    _ ← rassert (negb (peer_completed_address_validation c));
    let space := match c_highest_space c with SpHandshake => SpHandshake | _ => SpInitial end in
    mret (Some (now + duration, space))
  else mret (pto_loop c backoff [SpInitial; SpHandshake; SpData] duration None).

Definition set_loss_detection_timer (c : Connection) (now : Z) : M Connection :=
  if is_closed (c_state c) then mret c
  else
    match loss_time_and_space c with
    | Some (loss_time, _) => mret (set_timer c TLossDetection loss_time)
    | None =>
        blocked ← anti_amplification_blocked (c_path c) 1;
        if (blocked : bool) then mret (stop_timer c TLossDetection)
        else if (if_ack_eliciting (p_in_flight (c_path c)) =? 0) && peer_completed_address_validation c
        then mret (stop_timer c TLossDetection)
        else
          r ← pto_time_and_space c now;
          mret (match r with
                | Some (timeout, _) => set_timer c TLossDetection timeout
                | None => stop_timer c TLossDetection
                end)
    end.

Definition discard_space (c : Connection) (now : Z) (space_id : SpaceId) : M Connection :=
  _ ← rassert (negb (bool_decide (space_id = SpData)));
  let c := if bool_decide (space_id = SpInitial) then
             match c_side c with
             | ClientSide _ token_store server_name => set_c_side c (ClientSide [] token_store server_name)
             | ServerSide _ => c
             end
           else c in
  let packets := sent_packets (c_spaces c space_id) in
  let c := upd_space c space_id (fun s =>
             set_sent_packets (set_loss_time (set_time_of_last_ack_eliciting_packet (set_crypto s None) None) None) []) in
  c ← mfold conn_remove_in_flight (map snd packets) c;
  set_loss_detection_timer c now.

(** * Loss detection *)

Definition drain_lost_packets (c : Connection) (now : Z) (space : SpaceId) : Connection :=
  let two_pto := 2 * pto_base (p_rtt (c_path c)) in
  upd_space c space (fun s =>
    set_lost_packets s (filter (fun e => Z.max 0 (now - lp_time_sent e.2) <= two_pto) (lost_packets s))).

(** The treatment of one lost packet. *)
Definition lose_packet (space : SpaceId) (c : Connection) (packet : Z) : M Connection :=
  '(info, s) ← take_packet (c_spaces c space) packet;
  info ← unwrap info;
  let c := upd_space c space (fun _ => s) in
  c ← conn_remove_in_flight c info;
  st ← mfold Streams.retransmit (stream_frames info) (c_streams c);
  let c := set_c_streams c st in
  let c := upd_space c space (fun s => Spaces.set_pending s (Retransmits_or_thin (Spaces.pending s) (Spaces.retransmits info))) in
  m ← mtud_on_non_probe_lost (p_mtud (c_path c)) packet (Spaces.size info);
  let c := upd_path c (fun p => set_mtud p m) in
  mret (upd_space c space (fun s => set_lost_packets s (OrdMap.insert packet (mkLostPacket (time_sent info)) (lost_packets s)))).

(** A reduced MTU may leave queued datagrams that no longer fit. *)
Definition drop_oversized_datagrams (c : Connection) : M Connection :=
  max ← datagram_max_size c;
  match max with
  | None => mret c
  | Some max_datagram_size =>
      '(dropped, d) ← drop_oversized (c_datagrams c) max_datagram_size;
      let c := set_c_datagrams c d in
      if (dropped : bool) && send_blocked d then
        let d := mkDatagramState (recv_buffered d) (incoming d) (outgoing d) (outgoing_total d) false in
        mret (push_event (set_c_datagrams c d) DatagramsUnblocked)
      else mret c
  end.

(** What follows when packets were lost; [lost] is not empty. *)
Definition on_packets_lost (c : Connection) (now : Z) (pn_space : SpaceId) (scan : LossScan) (largest_lost : Z) : M Connection :=
  let old_bytes_in_flight := if_bytes (p_in_flight (c_path c)) in
  largest ← unwrap (map_get (sent_packets (c_spaces c pn_space)) largest_lost);
  c ← mfold (lose_packet pn_space) (ls_lost scan) c;
  let '(black_hole, m) := mtud_black_hole_detected (p_mtud (c_path c)) now in
  let c := upd_path c (fun p => set_mtud p m) in
  c ← (if (black_hole : bool) then
         drop_oversized_datagrams
           (upd_path c (fun p => set_congestion p (on_mtu_update (p_congestion p) (current_mtu (p_mtud p)))))
       else mret c);
  if negb (old_bytes_in_flight =? if_bytes (p_in_flight (c_path c))) then
    cc ← on_congestion_event (p_congestion (c_path c)) now (time_sent largest) (ls_persistent scan) false (ls_size scan);
    mret (upd_path c (fun p => set_congestion p cc))
  else mret c.

Definition loss_params (c : Connection) (now : Z) (pn_space : SpaceId) (due_to_ack : bool) : M LossParams :=
  d ← mul_f32 (rtt_conservative (p_rtt (c_path c))) (tc_time_threshold (c_config c));
  largest ← unwrap (largest_acked_packet (c_spaces c pn_space));
  let period := Z.min DURATION_MAX (pto c SpData * tc_persistent_congestion_threshold (c_config c)) in
  mret (mkLossParams now pn_space due_to_ack (Z.max d TIMER_GRANULARITY) largest (tc_packet_threshold (c_config c)) period
          (in_flight_mtu_probe (p_mtud (c_path c))) (p_first_packet_after_rtt_sample (c_path c))).

Definition detect_lost_packets (c : Connection) (now : Z) (pn_space : SpaceId) (due_to_ack : bool) : M Connection :=
  p ← loss_params c now pn_space due_to_ack;
  scan ← scan_packets p (map_range (sent_packets (c_spaces c pn_space)) 0 (lp_largest_acked p));
  let c := upd_space c pn_space (fun s => set_loss_time s (ls_loss_time scan)) in
  let c := drain_lost_packets c now pn_space in
  c ← match last (ls_lost scan) with
      | Some largest_lost => on_packets_lost c now pn_space scan largest_lost
      | None => mret c
      end;
  match ls_lost_mtu_probe scan with
  | None => mret c
  | Some packet =>
      '(info, s) ← take_packet (c_spaces c SpData) packet;
      info ← unwrap info;
      let c := upd_space c SpData (fun _ => s) in
      c ← conn_remove_in_flight c info;
      mret (upd_path c (fun p => set_mtud p (mtud_on_probe_lost (p_mtud p))))
  end.

(** * Acknowledgements *)

(** The packets of [lost_packets] that an acknowledgement covers are no longer lost; [true] when none is left. *)
Definition detect_spurious_loss (c : Connection) (ack : Ack) (space : SpaceId) : M (bool * Connection) :=
  if is_nil (lost_packets (c_spaces c space)) then mret (false, c)
  else
    ranges ← Ack_ranges ack;
    let left :=
      fold_left (fun l range => filter (fun e => ¬ (range.1 <= e.1 <= range.2)) l) ranges (lost_packets (c_spaces c space)) in
    mret (is_nil left, upd_space c space (fun s => set_lost_packets s left)).

Definition process_ecn (c : Connection) (now : Z) (space : SpaceId) (newly_acked : Z) (ecn : EcnCounts) (largest_sent_time : Z)
    : M Connection :=
  '(r, s) ← detect_ecn (c_spaces c space) newly_acked ecn;
  let c := upd_space c space (fun _ => s) in
  match r with
  | Err _ =>
      let c := upd_path c (fun p => set_sending_ecn p false) in
      mret (upd_space c space (fun s => set_ecn_feedback s EcnCounts_ZERO))
  | Ok false => mret c
  | Ok true =>
      cc ← on_congestion_event (p_congestion (c_path c)) now largest_sent_time false true 0;
      mret (upd_path c (fun p => set_congestion p cc))
  end.

Definition on_packet_acked (c : Connection) (now : Z) (info : SentPacket) : M Connection :=
  c ← conn_remove_in_flight c info;
  c ← (if ack_eliciting info && bool_decide (p_challenge (c_path c) = None) then
         cc ← on_ack (p_congestion (c_path c)) now (time_sent info) (Spaces.size info) (c_app_limited c) (p_rtt (c_path c));
         mret (upd_path c (fun p => set_congestion p cc))
       else mret c);
  s ← match Spaces.retransmits info with
      | Some retransmits => mfold (fun s x => Streams.reset_acked s x.1) (rt_reset_stream retransmits) (c_streams c)
      | None => mret (c_streams c)
      end;
  s ← mfold Streams.received_ack_of (stream_frames info) s;
  mret (set_c_streams c s).

(** The packets an acknowledgement newly covers, range by range; an error when a skipped number is among them. *)
Fixpoint newly_acked (c : Connection) (space : SpaceId) (ranges : list (Z * Z)) (acked : list Range)
    : M (result TransportError (list Range)) :=
  match ranges with
  | [] => mret (Ok acked)
  | (lo, hi) :: ranges =>
      match check_ack (c_packet_number_filter c) space lo hi with
      | Err e => mret (Err e)
      | Ok _ =>
          acked ← mfold (fun acked e => '(acked, _) ← Arr.insert_one acked e.1; mret acked)
                    (map_range_incl (sent_packets (c_spaces c space)) lo hi) acked;
          newly_acked c space ranges acked
      end
  end.

(** The body of the loop over newly acknowledged packets. *)
Definition ack_packet (now : Z) (space : SpaceId) (s : bool * Connection) (packet : Z) : M (bool * Connection) :=
  let '(ack_eliciting_acked, c) := s in
  '(info, sp) ← take_packet (c_spaces c space) packet;
  let c := upd_space c space (fun _ => sp) in
  match info with
  | None => mret (ack_eliciting_acked, c)
  | Some info =>
      c ← match sp_largest_acked info with
          | Some acked =>
              a ← subtract_below (pending_acks (c_spaces c space)) acked;
              mret (upd_space c space (fun s => set_pending_acks s a))
          | None => mret c
          end;
      let '(mtu_updated, m) := mtud_on_acked (p_mtud (c_path c)) space packet (Spaces.size info) in
      let c := upd_path c (fun p => set_mtud p m) in
      let c := if (mtu_updated : bool)
               then upd_path c (fun p => set_congestion p (on_mtu_update (p_congestion p) (current_mtu (p_mtud p))))
               else c in
      let c := set_c_ack_frequency c (ack_frequency_on_acked (c_ack_frequency c) packet) in
      c ← on_packet_acked c now info;
      mret (ack_eliciting_acked || ack_eliciting info, c)
  end.

(** The RTT sample of an acknowledgement of a new largest packet. *)
Definition take_rtt_sample (c : Connection) (now : Z) (space : SpaceId) (ack : Ack) : Connection :=
  let ack_delay :=
    if negb (bool_decide (space = SpData)) then 0
    else Z.min (peer_max_ack_delay (c_ack_frequency c))
           (from_micros (Z.shiftl (ack_delay ack) (ack_delay_exponent (c_peer_params c)) mod 2 ^ 64)) in
  let rtt := Z.max 0 (now - largest_acked_packet_sent (c_spaces c space)) in
  let c := upd_path c (fun p => set_rtt p (rtt_update (p_rtt p) ack_delay rtt)) in
  match p_first_packet_after_rtt_sample (c_path c) with
  | None => upd_path c (fun p => set_first_packet_after_rtt_sample p (Some (space, next_packet_number (c_spaces c space))))
  | Some _ => c
  end.

(** What the ECN counts of an acknowledgement, or their absence, mean for the path. *)
Definition check_ecn (c : Connection) (now : Z) (space : SpaceId) (ack : Ack) (new_largest : bool) (n : Z) : M Connection :=
  if p_sending_ecn (c_path c) then
    match ack_ecn ack with
    | Some ecn =>
        if new_largest then process_ecn c now space n ecn (largest_acked_packet_sent (c_spaces c space)) else mret c
    | None => mret (upd_path c (fun p => set_sending_ecn p false))
    end
  else mret c.

(** The new largest acknowledged packet of a space. *)
Definition note_largest_acked (c : Connection) (space : SpaceId) (ack : Ack) : bool * Connection :=
  let s := c_spaces c space in
  if match largest_acked_packet s with None => true | Some pn => pn <? ack_largest ack end then
    let s := set_largest_acked_packet s (Some (ack_largest ack)) in
    let s := match map_get (sent_packets s) (ack_largest ack) with
             | Some info => set_largest_acked_packet_sent s (time_sent info)
             | None => s
             end in
    (true, upd_space c space (fun _ => s))
  else (false, c).

Definition on_ack_received (c : Connection) (now : Z) (space : SpaceId) (ack : Ack) : M (result TransportError unit * Connection) :=
  if next_packet_number (c_spaces c space) <=? ack_largest ack then mret (Err (mkTransportError PROTOCOL_VIOLATION), c)
  else
    let '(new_largest, c) := note_largest_acked c space ack in
    '(spurious, c) ← detect_spurious_loss c ack space;
    let c := if (spurious : bool) then upd_path c (fun p => set_congestion p (on_spurious_congestion_event (p_congestion p))) else c in
    ranges ← Ack_ranges ack;
    r ← newly_acked c space ranges Arr.new;
    match r with
    | Err e => mret (Err e, c)
    | Ok acked =>
        if Arr.is_empty acked then mret (Ok tt, c)
        else
          '(ack_eliciting_acked, c) ← mfold (ack_packet now space) (Arr.elts acked) (false, c);
          cc ← on_end_acks (p_congestion (c_path c)) now (if_bytes (p_in_flight (c_path c))) (c_app_limited c)
                 (largest_acked_packet (c_spaces c space));
          let c := upd_path c (fun p => set_congestion p cc) in
          let c := if new_largest && (ack_eliciting_acked : bool) then take_rtt_sample c now space ack else c in
          c ← detect_lost_packets c now space true;
          let c := if peer_completed_address_validation c then set_c_pto_count c 0 else c in
          c ← check_ecn c now space ack new_largest (Arr.size acked);
          c ← set_loss_detection_timer c now;
          mret (Ok tt, c)
    end.

(** * Timeouts *)

Definition on_loss_detection_timeout (c : Connection) (now : Z) : M Connection :=
  match loss_time_and_space c with
  | Some (_, pn_space) => c ← detect_lost_packets c now pn_space false; set_loss_detection_timer c now
  | None =>
      r ← pto_time_and_space c now;
      match r with
      | None => mret c
      | Some (_, space) =>
          count ← (if if_ack_eliciting (p_in_flight (c_path c)) =? 0
                   then _ ← rassert (negb (peer_completed_address_validation c)); mret 1
                   else mret 2);
          let c := upd_space c space (fun s => set_loss_probes s (Z.min u32_max (loss_probes s + count))) in
          let c := set_c_pto_count c (Z.min u32_max (c_pto_count c + 1)) in
          set_loss_detection_timer c now
      end
  end.

(** The expiry of one timer, which is stopped first. *)
Definition on_timeout (now : Z) (c : Connection) (timer : Timer) : M Connection :=
  if negb (is_expired (c_timers c) timer now) then mret c
  else
    let c := stop_timer c timer in
    match timer with
    | TClose => mret (push_endpoint_event (set_c_state c Drained) EvDrained)
    | TIdle => mret (kill c TimedOut)
    | TKeepAlive => mret (ping c)
    | TLossDetection => on_loss_detection_timeout c now
    | TKeyDiscard => mret (set_c_prev_crypto (set_c_zero_rtt_crypto c None) None)
    | TPathValidation =>
        let c := match c_prev_path c with
                 | Some (_, prev) => set_c_prev_path (set_c_path c prev) None
                 | None => c
                 end in
        mret (upd_path c (fun p => set_challenge_pending (set_challenge p None) false))
    | TPacing => mret c
    | TPushNewCid =>
        '(num_new_cid, s) ← on_cid_timeout (c_local_cid_state c);
        let c := set_c_local_cid_state c s in
        mret (if is_closed (c_state c) then c else push_endpoint_event c (EvNeedIdentifiers now (b2z num_new_cid)))
    | TMaxAckDelay =>
        mret (upd_space c SpData (fun s => set_pending_acks s (on_max_ack_delay_timeout (pending_acks s))))
    end.

Definition handle_timeout (c : Connection) (now : Z) : M Connection := mfold (on_timeout now) Timer_VALUES c.
End Recovery.
