(* ===== verification/ConnReceive.v ===== *)
(** Reception of datagrams by a connection: from the datagram to the frames of a packet and their effects, in
    [quic-proto/src/connection/mod.rs]. *)
From stdpp Require Import gmap.
From S2P Require Import Prelude Coding RangeSet Ids Shared Frame FrameTheorems Float Packet PacketSafety TransportParams Token TokenCache.
From S2P Require Import Assembler Recv Send PendingStreams Retransmits CidQueue CidState Streams Dedup PendingAcks Mtud Timer.
From S2P Require Import AckFrequency Rtt Congestion Pacing Datagrams Spaces PacketCrypto Config Paths Connection ConnRecovery.
Open Scope Z_scope.

(** The results of the frame iterator over a payload, in order. *)
Definition frames_of (payload : list Z) : M (result TransportError (list (result InvalidFrame Frame))) :=
  match Iter_new payload with
  | Err e => mret (Err e)
  | Ok it => l ← unwrap (Iter_collect (S (length payload)) it); mret (Ok l)
  end.

Definition MAX_PENDING_RETIRED_CIDS : Z := LEN * 10.

(** Frames a packet that only probes a path may contain. *)
Definition is_probing (f : Frame) : bool :=
  match f with FPadding | FPathChallenge _ | FPathResponse _ | FNewConnectionId _ => true | _ => false end.

(** The versions a Version Negotiation packet lists: the payload in groups of four bytes. *)
Fixpoint lists_version (fuel : nat) (version : Z) (payload : list Z) : bool :=
  match fuel with
  | O => false
  | S fuel =>
      match payload with
      | [] => false
      | _ => ((len (takeZ 4 payload) =? 4) && (from_be (takeZ 4 payload) =? version)) || lists_version fuel version (dropZ 4 payload)
      end
  end.

Section Receive.
Context {C : Type} {HC : Controller C} {H : Type} {HH : Heap H} {T : Type} {HT : Session T} {R : Type} {HR : Rng R}
  {TS : Type} {HTS : TokenStore TS}.
Local Notation Connection := (Connection C H T R TS).
Context (max_instant : Z) (crypto_turns : nat).

Definition on_packet_authenticated (c : Connection) (now : Z) (space_id : SpaceId) (ecn : option EcnCodepoint)
    (packet : option Z) (spin is_1rtt : bool) : M Connection :=
  n ← uadd (c_total_authed_packets c) 1;
  let c := set_c_total_authed_packets c n in
  let c := reset_keep_alive c now in
  let c := reset_idle_timeout c now space_id in
  let c := set_c_permit_idle_reset c true in
  c ← match ecn with
      | Some x =>
          let c := set_c_receiving_ecn c true in
          counts ← EcnCounts_add (ecn_counters (c_spaces c space_id)) x;
          mret (upd_space c space_id (fun s =>
                  let s := set_ecn_counters s counts in
                  if is_ce x then set_pending_acks s (set_immediate_ack_required (pending_acks s)) else s))
      | None => mret c
      end;
  match packet with
  | None => mret c
  | Some packet =>
      c ← (if conn_is_server c then
             c ← (if bool_decide (is_Some (Spaces.crypto (c_spaces c SpInitial))) && bool_decide (space_id = SpHandshake)
                  then discard_space c now SpInitial else mret c);
             if bool_decide (is_Some (c_zero_rtt_crypto c)) && is_1rtt then conn_set_key_discard_timer c now space_id else mret c
           else mret c);
      a ← acks_insert_one (pending_acks (c_spaces c space_id)) packet now;
      let c := upd_space c space_id (fun s => set_pending_acks s a) in
      if rx_packet (c_spaces c space_id) <=? packet then
        let c := upd_space c space_id (fun s => set_rx_packet s packet) in
        mret (set_c_spin c (xorb (conn_is_client c) spin))
      else mret c
  end.

(** * Handshake packets *)

(** The loop over the frames; [Ok None] when a CONNECTION_CLOSE ended it. *)
Fixpoint early_frames (c : Connection) (now : Z) (space : SpaceId) (payload_len : Z) (l : list (result InvalidFrame Frame))
    (ack_eliciting : bool) : M (result TransportError (option bool) * Connection) :=
  match l with
  | [] => mret (Ok (Some ack_eliciting), c)
  | Err e :: _ => mret (Err (InvalidFrame_error e), c)
  | Ok FPadding :: l => early_frames c now space payload_len l ack_eliciting
  | Ok frame :: l =>
      let ack_eliciting := ack_eliciting || is_ack_eliciting frame in
      match frame with
      | FPing => early_frames c now space payload_len l ack_eliciting
      | FCrypto f => attempt (read_crypto c space f payload_len) (fun _ c => early_frames c now space payload_len l ack_eliciting)
      | FAck ack => attempt (on_ack_received c now space ack) (fun _ c => early_frames c now space payload_len l ack_eliciting)
      | FClose reason =>
          mret (Ok None, set_c_state (set_c_error c (Some (ConnectionError_from_close reason))) Draining)
      | _ => mret (Err (mkTransportError PROTOCOL_VIOLATION), c)
      end
  end.

Definition process_early_payload (c : Connection) (now : Z) (packet : Packet) : M (result TransportError unit * Connection) :=
  let space := Header_space (pk_header packet) in
  _ ← rassert (negb (bool_decide (space = SpData)));
  frames ← frames_of (pk_payload packet);
  match frames with
  | Err e => mret (Err e, c)
  | Ok l =>
      attempt (early_frames c now space (len (pk_payload packet)) l false) (fun r c =>
        match r with
        | None => mret (Ok tt, c)
        | Some ack_eliciting =>
            let c := if (ack_eliciting : bool)
                     then upd_space c space (fun s => set_pending_acks s (set_immediate_ack_required (pending_acks s)))
                     else c in
            c ← write_crypto crypto_turns c;
            mret (Ok tt, c)
        end)
  end.

(** * Frames of application packets *)

Definition queue_max_data (transmit : bool) (c : Connection) : Connection :=
  if transmit then upd_pending c (fun p => set_rt_max_data p true) else c.

Definition on_new_connection_id (c : Connection) (frame : NewConnectionId) : M (result TransportError unit * Connection) :=
  cid ← active (c_rem_cids c);
  if len (cid_bytes cid) =? 0 then mret (Err (mkTransportError PROTOCOL_VIOLATION), c)
  else if nc_sequence frame <? nc_retire_prior_to frame then mret (Err (mkTransportError PROTOCOL_VIOLATION), c)
  else
    '(r, q) ← CidQueue_insert (c_rem_cids c) frame;
    let c := set_c_rem_cids c q in
    let switch (c : Connection) :=
      if conn_is_server c && (CidQueue.active_seq (c_rem_cids c) =? 0) then c ← update_rem_cid c; mret (Ok tt, c) else mret (Ok tt, c) in
    match r with
    | Ok None => switch c
    | Ok (Some (retired, reset_token)) =>
        let pending_retired := rt_retire_cids (Spaces.pending (c_spaces c SpData)) in
        if MAX_PENDING_RETIRED_CIDS <? sat_add (len pending_retired) (sat_sub (rend retired) (rstart retired))
        then mret (Err (mkTransportError CONNECTION_ID_LIMIT_ERROR), c)
        else
          let c := upd_pending c (fun p => set_rt_retire_cids p (rt_retire_cids p ++ Arr.elts [retired])) in
          switch (set_reset_token c reset_token)
    | Err ExceedsLimit => mret (Err (mkTransportError CONNECTION_ID_LIMIT_ERROR), c)
    | Err Retired =>
        mret (Ok tt, upd_pending c (fun p => set_rt_retire_cids p (rt_retire_cids p ++ [nc_sequence frame])))
    end.

Definition on_path_response (c : Connection) (remote : SocketAddr) (token : Z) : Connection :=
  if bool_decide (p_challenge (c_path c) = Some token) && bool_decide (remote = p_remote (c_path c)) then
    let c := stop_timer c TPathValidation in
    let c := upd_path c (fun p => set_validated (set_challenge p None) true) in
    match c_prev_path c with
    | Some (cid, prev) => set_c_prev_path c (Some (cid, set_challenge_pending (set_challenge prev None) false))
    | None => c
    end
  else c.

Definition on_stop_sending (c : Connection) (id : StreamId) (error_code : VarInt) : result TransportError unit * Connection :=
  let accept := (Ok tt, set_c_streams c (Streams.received_stop_sending (c_streams c) id error_code)) in
  if negb (bool_decide (initiator id = conn_side c)) then
    if bool_decide (dir id = Uni) then (Err (mkTransportError STREAM_STATE_ERROR), c) else accept
  else if Streams.is_local_unopened (c_streams c) id then (Err (mkTransportError STREAM_STATE_ERROR), c) else accept.

Definition on_ack_frequency (c : Connection) (frame : AckFrequency) : result TransportError unit * Connection :=
  let '(r, s, a) := ack_frequency_received (c_ack_frequency c) frame (pending_acks (c_spaces c SpData)) in
  let c := set_c_ack_frequency c s in
  let c := upd_space c SpData (fun sp => set_pending_acks sp a) in
  match r with
  | Err e => (Err e, c)
  | Ok false => (Ok tt, c)
  | Ok true =>
      (Ok tt, match max_ack_delay_timeout a (local_max_ack_delay s) with
              | Some timeout => set_timer c TMaxAckDelay timeout
              | None => c
              end)
  end.

Definition on_new_token (c : Connection) (token : list Z) : M (result TransportError unit * Connection) :=
  match c_side c with
  | ServerSide _ => mret (Err (mkTransportError PROTOCOL_VIOLATION), c)
  | ClientSide t token_store server_name =>
      if bool_decide (token = []) then mret (Err (mkTransportError FRAME_ENCODING_ERROR), c)
      else store ← store_insert token_store server_name token; mret (Ok tt, set_c_side c (ClientSide t store server_name))
  end.

(** The effect of a frame other than PADDING; a CONNECTION_CLOSE is noted by the loop. *)
Definition payload_frame (c : Connection) (now : Z) (remote : SocketAddr) (number payload_len : Z) (frame : Frame)
    : M (result TransportError unit * Connection) :=
  match frame with
  | FCrypto f => read_crypto c SpData f payload_len
  | FStream f =>
      '(r, s) ← Streams.received (c_streams c) f payload_len;
      let c := set_c_streams c s in
      mret (match r with Ok transmit => (Ok tt, queue_max_data transmit c) | Err e => (Err e, c) end)
  | FAck ack => on_ack_received c now SpData ack
  | FPadding | FPing => mret (Ok tt, c)
  | FClose _ => mret (Ok tt, c)
  | FPathChallenge token =>
      let c := set_c_path_responses c (responses_push (c_path_responses c) number token remote) in
      mret (Ok tt, if bool_decide (remote = p_remote (c_path c)) then
                     if bool_decide (is_Some (min_ack_delay (c_peer_params c))) then immediate_ack c else ping c
                   else c)
  | FPathResponse token => mret (Ok tt, on_path_response c remote token)
  | FMaxData bytes => mret (Ok tt, set_c_streams c (Streams.received_max_data (c_streams c) bytes))
  | FMaxStreamData id offset =>
      '(r, s) ← Streams.received_max_stream_data (c_streams c) id offset; mret (r, set_c_streams c s)
  | FMaxStreams d count =>
      let '(r, s) := Streams.received_max_streams (c_streams c) d count in mret (r, set_c_streams c s)
  | FResetStream f =>
      '(r, s) ← Streams.received_reset (c_streams c) f;
      let c := set_c_streams c s in
      mret (match r with Ok transmit => (Ok tt, queue_max_data transmit c) | Err e => (Err e, c) end)
  | FDataBlocked _ => mret (Ok tt, c)
  | FStreamDataBlocked id _ =>
      mret (if bool_decide (initiator id = conn_side c) && bool_decide (dir id = Uni)
            then (Err (mkTransportError STREAM_STATE_ERROR), c) else (Ok tt, c))
  | FStreamsBlocked _ limit =>
      mret (if MAX_STREAM_COUNT <? limit then (Err (mkTransportError FRAME_ENCODING_ERROR), c) else (Ok tt, c))
  | FStopSending f => mret (on_stop_sending c (ss_id f) (ss_error_code f))
  | FRetireConnectionId sequence =>
      let '(r, s) := on_cid_retirement (c_local_cid_state c) sequence (issue_cids_limit (c_peer_params c)) in
      let c := set_c_local_cid_state c s in
      mret (match r with
            | Ok allow_more_cids => (Ok tt, push_endpoint_event c (EvRetireConnectionId now sequence allow_more_cids))
            | Err e => (Err e, c)
            end)
  | FNewConnectionId f => on_new_connection_id c f
  | FNewToken f => on_new_token c (nt_token f)
  | FDatagram f =>
      '(r, d) ← datagram_received (c_datagrams c) f (tc_datagram_receive_buffer_size (c_config c));
      let c := set_c_datagrams c d in
      mret (match r with
            | Ok was_empty => (Ok tt, if (was_empty : bool) then push_event c DatagramReceived else c)
            | Err e => (Err e, c)
            end)
  | FAckFrequency f => mret (on_ack_frequency c f)
  | FImmediateAck =>
      mret (Ok tt, upd_space c SpData (fun s => set_pending_acks s (set_immediate_ack_required (pending_acks s))))
  | FHandshakeDone =>
      if conn_is_server c then mret (Err (mkTransportError PROTOCOL_VIOLATION), c)
      else
        c ← (if bool_decide (is_Some (Spaces.crypto (c_spaces c SpHandshake))) then discard_space c now SpHandshake else mret c);
        mret (Ok tt, push_event c HandshakeConfirmed)
  end.

(** What the loop over the frames of a packet remembers. *)
Record PayloadScan : Type := mkPayloadScan { ps_ack_eliciting : bool; ps_probing : bool; ps_close : option Close }.

Fixpoint payload_frames (c : Connection) (now : Z) (remote : SocketAddr) (number payload_len : Z) (is_0rtt : bool)
    (l : list (result InvalidFrame Frame)) (s : PayloadScan) : M (result TransportError PayloadScan * Connection) :=
  match l with
  | [] => mret (Ok s, c)
  | Err e :: _ => mret (Err (InvalidFrame_error e), c)
  | Ok FPadding :: l => payload_frames c now remote number payload_len is_0rtt l s
  | Ok frame :: l =>
      if is_0rtt && match frame with FCrypto _ | FClose (CloseApplication _) => true | _ => false end
      then mret (Err (mkTransportError PROTOCOL_VIOLATION), c)
      else
        let s := mkPayloadScan (ps_ack_eliciting s || is_ack_eliciting frame) (ps_probing s && is_probing frame)
                   (match frame with FClose reason => Some reason | _ => ps_close s end) in
        attempt (payload_frame c now remote number payload_len frame) (fun _ c =>
          payload_frames c now remote number payload_len is_0rtt l s)
  end.

(** What follows the frames: acknowledgement, stream credit, closing and migration. *)
Definition after_payload (c : Connection) (now : Z) (remote : SocketAddr) (number : Z) (s : PayloadScan) : M Connection :=
  '(arm, a) ← packet_received (pending_acks (c_spaces c SpData)) now number (ps_ack_eliciting s) (dedup (c_spaces c SpData));
  let c := upd_space c SpData (fun sp => set_pending_acks sp a) in
  let c := if (arm : bool) then set_timer c TMaxAckDelay (now + local_max_ack_delay (c_ack_frequency c)) else c in
  '(_, p) ← Streams.queue_max_stream_id (c_streams c) (Spaces.pending (c_spaces c SpData));
  let c := upd_pending c (fun _ => p) in
  let c := match ps_close s with
           | Some reason =>
               set_c_close (set_c_state (set_c_error c (Some (ConnectionError_from_close reason))) Draining) true
           | None => c
           end in
  if negb (bool_decide (remote = p_remote (c_path c))) && negb (ps_probing s) && (number =? rx_packet (c_spaces c SpData)) then
    match c_side c with
    | ClientSide _ _ _ => Panic
    | ServerSide server_config =>
        _ ← rassert (sc_migration server_config);
        c ← migrate c now remote;
        c ← update_rem_cid c;
        mret (set_c_spin c false)
    end
  else mret c.

Definition process_payload (c : Connection) (now : Z) (remote : SocketAddr) (number : Z) (packet : Packet)
    : M (result TransportError unit * Connection) :=
  frames ← frames_of (pk_payload packet);
  match frames with
  | Err e => mret (Err e, c)
  | Ok l =>
      attempt (payload_frames c now remote number (len (pk_payload packet)) (Header_is_0rtt (pk_header packet)) l
                 (mkPayloadScan false true None))
        (fun s c => c ← after_payload c now remote number s; mret (Ok tt, c))
  end.

(** * Packets *)

(** [From<TransportError> for ConnectionError]. *)
Definition conn_err {A S} (m : M (result TransportError A * S)) : M (result ConnectionError A * S) :=
  '(r, s) ← m; mret (match r with Ok a => Ok a | Err e => Err (CausedBy e) end, s).

(** [self.crypto.transport_parameters()?.ok_or_else(..)?]. *)
Definition peer_transport_parameters (c : Connection) : result ConnectionError TransportParameters :=
  match tls_transport_parameters (c_crypto c) with
  | Err e => Err (CausedBy e)
  | Ok None => Err (CausedBy (mkTransportError (Code_crypto 109)))
  | Ok (Some params) => Ok params
  end.

Definition process_retry (c : Connection) (now : Z) (rem_cid : ConnectionId) (packet : Packet) (hs : HandshakeState)
    : M (result ConnectionError unit * Connection) :=
  match c_side c with
  | ServerSide _ => mret (Err (CausedBy (mkTransportError PROTOCOL_VIOLATION)), c)
  | ClientSide _ token_store server_name =>
      if 1 <? c_total_authed_packets c then mret (Ok tt, c)
      else if len (pk_payload packet) <=? 16 then mret (Ok tt, c)
      else
        cid ← active (c_rem_cids c);
        if negb (tls_is_valid_retry (c_crypto c) cid (pk_header_data packet) (pk_payload packet)) then mret (Ok tt, c)
        else
          hello ← unwrap (client_hello hs);
          let c := set_c_state c (StHandshake (mkHandshakeState (rem_cid_set hs) (expected_token hs) None)) in
          let c := set_c_retry_src_cid c (Some rem_cid) in
          q ← update_initial_cid (c_rem_cids c) rem_cid;
          let c := set_c_rem_cids c q in
          let c := set_c_rem_handshake_cid c rem_cid in
          '(info, sp) ← take_packet (c_spaces c SpInitial) 0;
          let c := upd_space c SpInitial (fun _ => sp) in
          c ← match info with Some info => on_packet_acked c now info | None => mret c end;
          c ← discard_space c now SpInitial;
          let c := upd_space c SpInitial (fun s =>
                     let s' := set_crypto (PacketSpace_new now) (Some (tls_initial_keys (c_crypto c) rem_cid (conn_side c))) in
                     let s' := set_crypto_offset (set_next_packet_number s' (next_packet_number s)) (len hello) in
                     Spaces.set_pending s' (set_rt_crypto (Spaces.pending s') (rt_crypto (Spaces.pending s') ++ [mkCrypto 0 hello]))) in
          let zero_rtt := sent_packets (c_spaces c SpData) in
          let c := upd_space c SpData (fun s => set_sent_packets s []) in
          c ← mfold (fun c info =>
                c ← conn_remove_in_flight c info;
                mret (upd_pending c (fun p => Retransmits_or_thin p (Spaces.retransmits info)))) (map snd zero_rtt) c;
          s ← Streams.retransmit_all_for_0rtt (c_streams c);
          let c := set_c_streams c s in
          let token := takeZ (len (pk_payload packet) - 16) (pk_payload packet) in
          let c := set_c_side c (ClientSide token token_store server_name) in
          mret (Ok tt, set_c_state c (StHandshake (mkHandshakeState false [] None)))
  end.

(** The client learns whether its 0-RTT data was accepted. *)
Definition settle_0rtt (c : Connection) (params : TransportParameters) : M (result ConnectionError unit * Connection) :=
  if negb (c_zero_rtt_enabled c) then mret (Ok tt, c)
  else
    accepted ← unwrap (tls_early_data_accepted (c_crypto c));
    if negb accepted then
      let c := set_c_accepted_0rtt c false in
      s ← Streams.zero_rtt_rejected (c_streams c);
      let c := set_c_streams c s in
      let c := upd_pending c (fun _ => Retransmits_default) in
      let packets := sent_packets (c_spaces c SpData) in
      let c := upd_space c SpData (fun s => set_sent_packets s []) in
      c ← mfold conn_remove_in_flight (map snd packets) c;
      mret (Ok tt, c)
    else
      let c := set_c_accepted_0rtt c true in
      mret (match validate_resumption_from params (c_peer_params c) with Ok _ => Ok tt | Err e => Err (CausedBy e) end, c).

Definition process_handshake_packet (c : Connection) (now : Z) (rem_cid : ConnectionId) (packet : Packet)
    : M (result ConnectionError unit * Connection) :=
  if negb (bool_decide (rem_cid = c_rem_handshake_cid c)) then mret (Ok tt, c)
  else
    let c := on_path_validated c in
    attempt (conn_err (process_early_payload c now packet)) (fun _ c =>
      if is_closed (c_state c) then mret (Ok tt, c)
      else if tls_is_handshaking (c_crypto c) then mret (Ok tt, c)
      else
        let establish (c : Connection) := mret (Ok tt, set_c_state (push_event c Connected) Established) in
        if conn_is_client c then
          match peer_transport_parameters c with
          | Err e => mret (Err e, c)
          | Ok params =>
              attempt (settle_0rtt c params) (fun _ c =>
                let c := match stateless_reset_token params with
                         | Some token => push_endpoint_event c (EvResetToken (p_remote (c_path c)) token)
                         | None => c
                         end in
                attempt (conn_err (handle_peer_params c params)) (fun _ c =>
                  c ← issue_first_cids c now;
                  establish c))
          end
        else
          let c := upd_pending c (fun p => set_rt_handshake_done p true) in
          c ← discard_space c now SpHandshake;
          establish (push_event c HandshakeConfirmed)).

Definition process_initial_packet (c : Connection) (now : Z) (rem_cid : ConnectionId) (packet : Packet) (hs : HandshakeState)
    : M (result ConnectionError unit * Connection) :=
  let go (c : Connection) :=
    let starting_space := c_highest_space c in
    attempt (conn_err (process_early_payload c now packet)) (fun _ c =>
      if conn_is_server c && bool_decide (starting_space = SpInitial) && negb (bool_decide (c_highest_space c = SpInitial)) then
        match peer_transport_parameters c with
        | Err e => mret (Err e, c)
        | Ok params =>
            attempt (conn_err (handle_peer_params c params)) (fun _ c =>
              c ← issue_first_cids c now;
              c ← init_0rtt c;
              mret (Ok tt, c))
        end
      else mret (Ok tt, c)) in
  if negb (rem_cid_set hs) then
    q ← update_initial_cid (c_rem_cids c) rem_cid;
    let c := set_c_rem_cids c q in
    let c := set_c_orig_rem_cid (set_c_rem_handshake_cid c rem_cid) rem_cid in
    go (set_c_state c (StHandshake (mkHandshakeState true (expected_token hs) (client_hello hs))))
  else if negb (bool_decide (rem_cid = c_rem_handshake_cid c)) then mret (Ok tt, c)
  else go c.

(** A closed connection only looks for the peer's CONNECTION_CLOSE. *)
Definition has_close (l : list (result InvalidFrame Frame)) : bool :=
  existsb (fun r => match r with Ok (FClose _) => true | _ => false end) l.

Definition process_decrypted_packet (c : Connection) (now : Z) (remote : SocketAddr) (number : option Z) (packet : Packet)
    : M (result ConnectionError unit * Connection) :=
  match c_state c with
  | Established =>
      if bool_decide (Header_space (pk_header packet) = SpData) then
        n ← unwrap number; conn_err (process_payload c now remote n packet)
      else if has_frames (pk_header packet) then conn_err (process_early_payload c now packet)
      else mret (Ok tt, c)
  | StClosed _ =>
      frames ← frames_of (pk_payload packet);
      mret (match frames with
            | Err e => (Err (CausedBy e), c)
            | Ok l => (Ok tt, if has_close l then set_c_state c Draining else c)
            end)
  | Draining | Drained => mret (Ok tt, c)
  | StHandshake hs =>
      match pk_header packet with
      | HRetry _ rem_cid _ => process_retry c now rem_cid packet hs
      | HLong Handshake _ rem_cid _ _ => process_handshake_packet c now rem_cid packet
      | HInitial h => process_initial_packet c now (ih_src_cid h) packet hs
      | HLong ZeroRtt _ _ _ _ => n ← unwrap number; conn_err (process_payload c now remote n packet)
      | HVersionNegotiate _ _ _ =>
          if 1 <? c_total_authed_packets c then mret (Ok tt, c)
          else if lists_version (S (length (pk_payload packet))) (c_version c) (pk_payload packet) then mret (Ok tt, c)
          else mret (Err VersionMismatch, c)
      | HShort _ _ _ _ => Panic
      end
  end.

(** The state an error leads to; the errors packet processing does not produce have none. *)
Definition error_state (e : ConnectionError) : M State :=
  match e with
  | ApplicationClosed reason => mret (StClosed (CloseApplication reason))
  | ConnectionClosed reason => mret (StClosed (CloseConnection reason))
  | ResetByPeer => mret Drained
  | CausedBy e =>
      if code_u64 (te_code e) =? code_u64 AEAD_LIMIT_REACHED then mret Drained else mret (StClosed (Close_from e))
  | VersionMismatch => mret Draining
  | TimedOut | LocallyClosed | CidsExhausted => Panic
  end.

(** What follows the processing of a packet: errors, timers and the reply with CONNECTION_CLOSE. *)
Definition after_packet (c : Connection) (now : Z) (remote : SocketAddr) (was_closed was_drained : bool)
    (result : result ConnectionError unit) : M Connection :=
  c ← match result with
      | Ok _ => mret c
      | Err e => s ← error_state e; mret (set_c_state (set_c_error c (Some e)) s)
      end;
  let c := if negb was_closed && is_closed (c_state c) then
             let c := close_common c in if negb (is_drained (c_state c)) then set_close_timer c now else c
           else c in
  let c := if negb was_drained && is_drained (c_state c) then stop_timer (push_endpoint_event c EvDrained) TClose else c in
  mret (match c_state c with
        | StClosed _ => set_c_close c (bool_decide (remote = p_remote (c_path c)))
        | _ => c
        end).

(** A packet that was decrypted: duplicates and packets that come too early are dropped ([None]). *)
Definition handle_decrypted (c : Connection) (now : Z) (remote : SocketAddr) (ecn : option EcnCodepoint) (packet : Packet)
    (number : option Z) : M (option (result ConnectionError unit) * Connection) :=
  let space := Header_space (pk_header packet) in
  '(duplicate, c) ← match number with
                    | Some n =>
                        '(dup, d) ← Dedup.insert (dedup (c_spaces c space)) n;
                        mret (dup, upd_space c space (fun s => set_dedup s d))
                    | None => mret (false, c)
                    end;
  if (duplicate : bool) then mret (None, c)
  else if is_handshake (c_state c) && Header_is_short (pk_header packet) then mret (None, c)
  else if match pk_header packet, c_state c with
          | HInitial h, StHandshake hs => conn_is_server c && negb (bool_decide (ih_token h = expected_token hs))
          | _, _ => false
          end then mret (None, c)
  else
    c ← (if negb (is_closed (c_state c)) then
           let spin := match pk_header packet with HShort spin _ _ _ => spin | _ => false end in
           on_packet_authenticated c now space ecn number spin (Header_is_1rtt (pk_header packet))
         else mret c);
    '(r, c) ← process_decrypted_packet c now remote number packet;
    mret (Some r, c).

(** A packet that could not be authenticated counts towards the integrity limit. *)
Definition authentication_failed (c : Connection) : M (option (result ConnectionError unit) * Connection) :=
  n ← uadd (c_authentication_failures c) 1;
  let c := set_c_authentication_failures c n in
  keys ← unwrap (Spaces.crypto (c_spaces c (c_highest_space c)));
  mret (if integrity_limit (local (k_packet keys)) <? n
        then Some (Err (CausedBy (mkTransportError AEAD_LIMIT_REACHED))) else None, c).

Definition handle_packet (c : Connection) (now : Z) (remote : SocketAddr) (ecn : option EcnCodepoint) (packet : option Packet)
    (stateless_reset : bool) : M Connection :=
  if is_handshake (c_state c) && negb (bool_decide (remote = p_remote (c_path c))) then mret c
  else
    let was_closed := is_closed (c_state c) in
    let was_drained := is_drained (c_state c) in
    '(decrypted, c) ← match packet with
                      | None => mret (Err None, c)
                      | Some packet =>
                          '(r, packet, c) ← conn_decrypt_packet c now packet;
                          mret (match r with Ok number => Ok (packet, number) | Err e => Err e end, c)
                      end;
    '(r, c) ← (if stateless_reset then mret (Some (Err ResetByPeer), c)
               else match decrypted with
                    | Err (Some e) => mret (Some (Err (CausedBy e)), c)
                    | Err None => authentication_failed c
                    | Ok (packet, number) => handle_decrypted c now remote ecn packet number
                    end);
    match r with
    | None => mret c
    | Some result => after_packet c now remote was_closed was_drained result
    end.

Definition handle_decode (c : Connection) (now : Z) (remote : SocketAddr) (ecn : option EcnCodepoint)
    (partial_decode : PartialDecode) : M Connection :=
  decoded ← unprotect_header partial_decode (c_spaces c) (c_zero_rtt_crypto c) (stateless_reset_token (c_peer_params c));
  match decoded with
  | Some d => handle_packet c now remote ecn (ur_packet d) (stateless_reset d)
  | None => mret c
  end.

Definition add_recvd (c : Connection) (n : Z) : Connection := upd_path c (fun p => set_total_recvd p (sat_add (p_total_recvd p) n)).

(** Every packet takes at least one byte off the datagram, so its length bounds the turns of the loop. *)
Definition conn_handle_coalesced (c : Connection) (now : Z) (remote : SocketAddr) (ecn : option EcnCodepoint) (data : list Z)
    : M Connection :=
  let c := add_recvd c (len data) in
  r ← handle_coalesced (fun c : Connection => state_cid_len (c_local_cid_state c)) c_version c_grease_quic_bit
        (fun c pd => handle_decode c now remote ecn pd) (S (length data)) c (Some data);
  unwrap r.

Definition handle_datagram (c : Connection) (now : Z) (remote : SocketAddr) (ecn : option EcnCodepoint)
    (first_decode : PartialDecode) (remaining : option (list Z)) : M Connection :=
  if negb (bool_decide (remote = p_remote (c_path c))) && negb (remote_may_migrate (c_side c)) then mret c
  else
    was_blocked ← anti_amplification_blocked (c_path c) 1;
    let data_len := Partial_len first_decode in
    c ← handle_decode c now remote ecn first_decode;
    let c := add_recvd c data_len in
    c ← match remaining with Some data => conn_handle_coalesced c now remote ecn data | None => mret c end;
    if (was_blocked : bool) then set_loss_detection_timer c now else mret c.

(** The first packet of a client, decrypted by the endpoint. *)
Definition handle_first_packet (c : Connection) (now : Z) (remote : SocketAddr) (ecn : option EcnCodepoint) (packet_number : Z)
    (header : InitialHeader) (header_data payload : list Z) (remaining : option (list Z))
    : M (result ConnectionError unit * Connection) :=
  _ ← rassert (conn_is_server c);
  let c := upd_path c (fun p => set_total_recvd p (len header_data + len payload)) in
  c ← match c_state c with
      | StHandshake hs => mret (set_c_state c (StHandshake (mkHandshakeState (rem_cid_set hs) (ih_token header) (client_hello hs))))
      | _ => Panic
      end;
  c ← on_packet_authenticated c now SpInitial ecn (Some packet_number) false false;
  attempt (process_decrypted_packet c now remote (Some packet_number) (mkPacket (HInitial header) header_data payload)) (fun _ c =>
    c ← match remaining with Some data => conn_handle_coalesced c now remote ecn data | None => mret c end;
    mret (Ok tt, c)).
End Receive.
