(* ===== verification/Post.v ===== *)
(** Postconditions of computations that may panic: [post m Q] says that when [m] returns, its result satisfies [Q].

    The rules follow the structure of a computation; [post_walk] applies them, with the hints of the database [post] for
    the operations it meets. *)
From stdpp Require Import base.
From S2P Require Import Prelude Streams.

Definition post {A} (m : M A) (Q : A → Prop) : Prop := match m with Ret a => Q a | Panic => True end.

Lemma post_iff {A} (m : M A) (Q : A → Prop) : post m Q ↔ ∀ a, m = Ret a → Q a.
Proof. destruct m as [a|]; cbn; split; [by intros ? ? [= <-]|auto|done|done]. Qed.

Lemma post_elim {A} (m : M A) (Q : A → Prop) a : post m Q → m = Ret a → Q a.
Proof. rewrite post_iff. auto. Qed.

Lemma post_ret {A} (a : A) (Q : A → Prop) : Q a → post (mret a) Q.
Proof. done. Qed.

Lemma post_panic {A} (Q : A → Prop) : post Panic Q.
Proof. done. Qed.

Lemma post_true {A} (m : M A) : post m (fun _ => True).
Proof. by destruct m. Qed.

Lemma post_eq {A} (m : M A) : post m (fun a => m = Ret a).
Proof. by destruct m. Qed.

Lemma post_weaken {A} (m : M A) (P Q : A → Prop) : post m P → (∀ a, P a → Q a) → post m Q.
Proof. destruct m; cbn; auto. Qed.

Lemma post_bind {A B} (m : M A) (f : A → M B) (P : A → Prop) (Q : B → Prop) :
  post m P → (∀ a, P a → post (f a) Q) → post (m ≫= f) Q.
Proof. destruct m; cbn; auto. Qed.

Lemma post_bind_ret {A B} (a : A) (f : A → M B) (Q : B → Prop) : post (f a) Q → post (mret a ≫= f) Q.
Proof. done. Qed.

Lemma post_bind_assoc {A B D} (m : M A) (f : A → M B) (g : B → M D) (Q : D → Prop) :
  post ((m ≫= f) ≫= g) Q = post (m ≫= (fun a => f a ≫= g)) Q.
Proof. by destruct m. Qed.

(** A loop keeps what every turn keeps. *)
Lemma post_mfold {A S} (f : S → A → M S) (l : list A) (s : S) (I : S → Prop) :
  (∀ s a, I s → post (f s a) I) → I s → post (mfold f l s) I.
Proof.
  intros Hf. revert s. induction l as [|a l IH]; intros s Hs; [done|].
  cbn [mfold]. eapply post_bind; [by apply Hf|]. auto.
Qed.

Create HintDb post discriminated.
#[export] Hint Constants Opaque : post.
#[export] Hint Variables Opaque : post.

(** One step through a computation; the operation in front of a bind is looked up in the hints, and when nothing is known
    of it, nothing is assumed of its result. *)
Ltac post_step :=
  lazymatch goal with
  | |- post (mret _) _ => apply post_ret
  | |- post (Ret _) _ => apply post_ret
  | |- post Panic _ => exact I
  | |- post (Panic ≫= _) _ => exact I
  | |- post (match ?x with _ => _ end ≫= _) _ => first [eapply post_bind; [solve [eauto with post]|intros ? ?] | destruct x]
  | |- post (mret _ ≫= _) _ => apply post_bind_ret
  | |- post ((_ ≫= _) ≫= _) _ => first [eapply post_bind; [solve [eauto with post]|intros ? ?] | rewrite post_bind_assoc]
  | |- post (_ ≫= _) _ =>
      first [eapply post_bind; [solve [eauto with post]|intros ? ?] | eapply post_bind; [apply post_true|intros ? _]]
  | |- post (let x := _ in _) _ => intro
  | |- post (match ?x with _ => _ end) _ => destruct x
  | |- post _ _ => solve [eauto with post]
  end.
