(* ===== verification/PacketBuilder.v ===== *)
(** Assembly of one outgoing packet: [quic-proto/src/connection/packet_builder.rs], and [populate_packet] and
    [populate_acks] of [quic-proto/src/connection/mod.rs].

    The buffer a packet is written to is the list of its bytes.  The order in which a hash set of streams is emptied is
    the argument [pick]. *)
From stdpp Require Import gmap.
From S2P Require Import Prelude Coding RangeSet Ids Shared Frame Float Packet TransportParams Token TokenCache Assembler Recv Send.
From S2P Require Import PendingStreams Retransmits CidQueue CidState Streams Dedup PendingAcks Mtud Timer AckFrequency Rtt.
From S2P Require Import Congestion Pacing Datagrams Spaces PacketCrypto Config Paths Connection ConnRecovery.
Open Scope Z_scope.

(** * Data *)

Record SentFrames : Type := mkSentFrames {
  sf_retransmits : ThinRetransmits;
  sf_largest_acked : option Z;
  sf_stream_frames : list StreamMeta;
  sf_non_retransmits : bool;
  sf_requires_padding : bool
}.

Definition SentFrames_default : SentFrames := mkSentFrames None None [] false false.
Definition sf_ping : SentFrames := mkSentFrames None None [] true false.

Definition is_ack_only (s : SentFrames) (can : StreamId → bool) : bool :=
  bool_decide (is_Some (sf_largest_acked s)) && negb (sf_non_retransmits s) && is_nil (sf_stream_frames s) &&
  Thin_is_empty can (sf_retransmits s).

(** [sent.retransmits.get_or_create()] changed by [f]. *)
Definition upd_retransmits (s : SentFrames) (f : Retransmits → Retransmits) : SentFrames :=
  mkSentFrames (Some (f (get_or_create (sf_retransmits s)))) (sf_largest_acked s) (sf_stream_frames s) (sf_non_retransmits s)
    (sf_requires_padding s).
Definition set_non_retransmits (s : SentFrames) (padding : bool) : SentFrames :=
  mkSentFrames (sf_retransmits s) (sf_largest_acked s) (sf_stream_frames s) true (sf_requires_padding s || padding).

Record PacketBuilder : Type := mkPacketBuilder {
  pb_datagram_start : Z;
  pb_space : SpaceId;
  pb_partial_encode : PartialEncode;
  pb_ack_eliciting : bool;
  pb_exact_number : Z;
  pb_short_header : bool;
  pb_min_size : Z;
  pb_max_size : Z;
  pb_tag_len : Z
}.

Definition pad_to (b : PacketBuilder) (min_size : Z) : M PacketBuilder :=
  n ← uadd (pb_datagram_start b) min_size;
  n ← usub n (pb_tag_len b);
  mret (mkPacketBuilder (pb_datagram_start b) (pb_space b) (pb_partial_encode b) (pb_ack_eliciting b) (pb_exact_number b)
          (pb_short_header b) (Z.max (pb_min_size b) n) (pb_max_size b) (pb_tag_len b)).

(** The text of the close frame sent when the confidentiality limit is near. *)
Definition confidentiality_limit_reached : list Z :=
  [99; 111; 110; 102; 105; 100; 101; 110; 116; 105; 97; 108; 105; 116; 121; 32; 108; 105; 109; 105; 116; 32; 114; 101; 97; 99; 104; 101; 100].

(** [buffer[i] ^= x]. *)
Definition xor_byte (buf : list Z) (i x : Z) : list Z := alter (fun b => Z.lxor b x) (Z.to_nat i) buf.

Section PacketBuilder.
Context {C : Type} {HC : Controller C} {H : Type} {HH : Heap H} {T : Type} {HT : Session T} {R : Type} {HR : Rng R}
  {TS : Type} {HTS : TokenStore TS}.
Local Notation Connection := (Connection C H T R TS).
Context (max_instant : Z).

(** * Headers and protection *)

Definition draw_bool (c : Connection) : bool * Connection := (rng_bool (c_rng c), set_c_rng c (rng_step (c_rng c))).

(** The local keys of a space: its own, or the 0-RTT keys for application data. *)
Definition local_keys (c : Connection) (space : SpaceId) : M (HeaderKey * PacketKey) :=
  match Spaces.crypto (c_spaces c space) with
  | Some crypto => mret (local (k_header crypto), local (k_packet crypto))
  | None =>
      match space, c_zero_rtt_crypto c with
      | SpData, Some zero_rtt => mret (z_header zero_rtt, z_packet zero_rtt)
      | _, _ => Panic
      end
  end.

(** The check of the confidentiality limit: [None] when it was exceeded and the connection is lost. *)
Definition check_confidentiality (c : Connection) (now : Z) (space_id : SpaceId) : M (option Connection) :=
  let sent_with_keys := sent_with_keys (c_spaces c space_id) in
  match space_id with
  | SpData =>
      if c_key_phase_size c <=? sent_with_keys then c ← conn_force_key_update c; mret (Some c) else mret (Some c)
  | _ =>
      key ← match Spaces.crypto (c_spaces c space_id) with
            | Some keys => mret (local (k_packet keys))
            | None => zero_rtt ← unwrap (c_zero_rtt_crypto c); mret (z_packet zero_rtt)
            end;
      let limit := confidentiality_limit key in
      if sat_add sent_with_keys 1 =? limit then
        mret (Some (close_inner c now (CloseConnection (mkConnectionClose AEAD_LIMIT_REACHED None confidentiality_limit_reached))))
      else if limit <? sent_with_keys then mret None
      else mret (Some c)
  end.

(** The number of the next packet of a space; skipping one draws the next number to skip. *)
Definition next_number (c : Connection) (space_id : SpaceId) : M (Z * Connection) :=
  let space := c_spaces c space_id in
  match space_id with
  | SpData =>
      let f := c_packet_number_filter c in
      '(n, f', s) ← allocate f (rng_range (c_rng c)) space;
      let c := if next_packet_number space =? next_skipped_packet_number f then set_c_rng c (rng_step (c_rng c)) else c in
      mret (n, upd_space (set_c_packet_number_filter c f') space_id (fun _ => s))
  | _ => '(n, s) ← get_tx_number space; mret (n, upd_space c space_id (fun _ => s))
  end.

Definition packet_header (c : Connection) (space_id : SpaceId) (dst_cid : ConnectionId) (number : PacketNumber)
    : Header * Connection :=
  match space_id with
  | SpData =>
      match Spaces.crypto (c_spaces c SpData) with
      | Some _ =>
          let '(spin, c) := if c_spin_enabled c then (c_spin c, c) else draw_bool c in
          (HShort spin (c_key_phase c) dst_cid number, c)
      | None => (HLong ZeroRtt dst_cid (c_handshake_cid c) number (c_version c), c)
      end
  | SpHandshake => (HLong Handshake dst_cid (c_handshake_cid c) number (c_version c), c)
  | SpInitial =>
      let token := match c_side c with ClientSide token _ _ => token | ServerSide _ => [] end in
      (HInitial (mkInitialHeader dst_cid (c_handshake_cid c) token number (c_version c)), c)
  end.

Definition is_short_header (h : Header) : bool := match h with HShort _ _ _ _ => true | _ => false end.

Definition PacketBuilder_new (now : Z) (space_id : SpaceId) (dst_cid : ConnectionId) (buffer : list Z)
    (buffer_capacity datagram_start : Z) (ack_eliciting : bool) (c : Connection)
    : M (option PacketBuilder * list Z * Connection) :=
  checked ← check_confidentiality c now space_id;
  match checked with
  | None => mret (None, buffer, kill c (CausedBy (mkTransportError AEAD_LIMIT_REACHED)))
  | Some c =>
      '(exact_number, c) ← next_number c space_id;
      number ← PacketNumber_new exact_number (default 0 (largest_acked_packet (c_spaces c space_id)));
      let '(header, c) := packet_header c space_id dst_cid number in
      '(partial_encode, buffer) ← Header_encode header buffer;
      let '(grease, c) := if grease_quic_bit (c_peer_params c) then draw_bool c else (false, c) in
      let buffer := if (grease : bool) then xor_byte buffer (pe_start partial_encode) FIXED_BIT else buffer in
      '(header_key, packet_key) ← local_keys c space_id;
      let min_size :=
        Z.max (len buffer + sat_sub (sample_size header_key + 4) (pn_len number + tag_len packet_key))
          (pe_start partial_encode + len (cid_bytes dst_cid) + 6) in
      max_size ← usub buffer_capacity (tag_len packet_key);
      _ ← rassert (min_size <=? max_size);
      mret (Some (mkPacketBuilder datagram_start space_id partial_encode ack_eliciting exact_number (is_short_header header)
                    min_size max_size (tag_len packet_key)), buffer, c)
  end.

(** Padding, the room for the tag, and encryption; the length of the packet and whether padding was added. *)
Definition builder_finish (b : PacketBuilder) (c : Connection) (buffer : list Z) : M (Z * bool * list Z) :=
  let pad := len buffer <? pb_min_size b in
  let buffer := buffer ++ replicate (Z.to_nat (pb_min_size b - len buffer)) 0 in
  '(header_crypto, packet_crypto) ← local_keys c (pb_space b);
  _ ← rassert (tag_len packet_crypto =? pb_tag_len b);
  let buffer := buffer ++ replicate (Z.to_nat (tag_len packet_crypto)) 0 in
  let encode_start := pe_start (pb_partial_encode b) in
  packet_buf ← PartialEncode_finish (pb_partial_encode b) (dropZ encode_start buffer) header_crypto
                 (Some (pb_exact_number b, packet_crypto));
  let buffer := takeZ encode_start buffer ++ packet_buf in
  n ← usub (len buffer) encode_start;
  mret (n, pad, buffer).

(** What is recorded of a packet that has been sent. *)
Definition track_sent (b : PacketBuilder) (now : Z) (c : Connection) (sent : SentFrames) (size : Z) : M Connection :=
  let packet := mkSentPacket (p_generation (c_path c)) now size (pb_ack_eliciting b) (sf_largest_acked sent)
                  (sf_retransmits sent) (sf_stream_frames sent) in
  '(p, s) ← path_sent (c_path c) (pb_exact_number b) packet (c_spaces c (pb_space b));
  let c := upd_space (set_c_path c p) (pb_space b) (fun _ => s) in
  let c := reset_keep_alive c now in
  if size =? 0 then mret c
  else
    let c := if pb_ack_eliciting b then
               let c := upd_space c (pb_space b) (fun s => set_time_of_last_ack_eliciting_packet s (Some now)) in
               let c := if c_permit_idle_reset c then reset_idle_timeout c now (pb_space b) else c in
               set_c_permit_idle_reset c false
             else c in
    c ← set_loss_detection_timer c now;
    mret (upd_path c (fun p => set_pacing p (on_transmit (p_pacing p) size))).

Definition finish_and_track (b : PacketBuilder) (now : Z) (c : Connection) (sent : option SentFrames) (buffer : list Z)
    : M (Connection * list Z) :=
  '(size, padded, buffer) ← builder_finish b c buffer;
  match sent with
  | None => mret (c, buffer)
  | Some sent =>
      let size := if padded || pb_ack_eliciting b then size mod 2 ^ 16 else 0 in
      c ← track_sent b now c sent size;
      mret (c, buffer)
  end.

(** * Frames *)

(** The packet under construction: the connection, what the packet carries, and the buffer. *)
Record Fill : Type := mkFill { fl_conn : Connection; fl_sent : SentFrames; fl_buf : list Z }.

Definition fl_write (f : Fill) (c : Connection) (sent : SentFrames) (frame : M (list Z)) : M Fill :=
  bs ← frame; mret (mkFill c sent (fl_buf f ++ bs)).

(** [frame_room f n max_size]: [buf.len() + n < max_size]. *)
Definition frame_room (f : Fill) (n max_size : Z) : bool := len (fl_buf f) + n <? max_size.

Definition space_pending (f : Fill) (id : SpaceId) : Retransmits := Spaces.pending (c_spaces (fl_conn f) id).
Definition with_pending (c : Connection) (id : SpaceId) (p : Retransmits) : Connection :=
  upd_space c id (fun s => Spaces.set_pending s p).

Definition fill_handshake_done (id : SpaceId) (is_0rtt : bool) (f : Fill) : M Fill :=
  let p := space_pending f id in
  if negb is_0rtt && rt_handshake_done p then
    fl_write f (with_pending (fl_conn f) id (set_rt_handshake_done p false))
      (upd_retransmits (fl_sent f) (fun r => set_rt_handshake_done r true)) (encode HANDSHAKE_DONE)
  else mret f.

Definition fill_ping (id : SpaceId) (f : Fill) : M Fill :=
  if ping_pending (c_spaces (fl_conn f) id) then
    fl_write f (upd_space (fl_conn f) id (fun s => set_ping_pending s false)) (set_non_retransmits (fl_sent f) false) (encode PING)
  else mret f.

Definition fill_immediate_ack (id : SpaceId) (f : Fill) : M Fill :=
  if immediate_ack_pending (c_spaces (fl_conn f) id) then
    fl_write f (upd_space (fl_conn f) id (fun s => set_immediate_ack_pending s false)) (set_non_retransmits (fl_sent f) false)
      (encode IMMEDIATE_ACK)
  else mret f.

(** The largest acknowledged packet and the ACK frame. *)
Definition populate_acks (now : Z) (receiving_ecn : bool) (space : PacketSpace Keys H) : M (option Z * list Z) :=
  let acked := ranges (pending_acks space) in
  _ ← rassert (negb (Arr.is_empty acked));
  _ ← rassert (bool_decide (is_Some (Spaces.crypto space)));
  let ecn := if receiving_ecn then Some (ecn_counters space) else None in
  let delay_micros := acks_delay (pending_acks space) now / 1000 mod 2 ^ 64 in
  let delay := Z.shiftr delay_micros (ack_delay_exponent TransportParameters_default) in
  largest ← Arr.max acked;
  frame ← Ack_encode delay acked ecn;
  mret (largest, frame).

Definition fill_acks (now : Z) (id : SpaceId) (f : Fill) : M Fill :=
  let space := c_spaces (fl_conn f) id in
  if acks_can_send (pending_acks space) then
    '(largest, frame) ← populate_acks now (c_receiving_ecn (fl_conn f)) space;
    let s := fl_sent f in
    let sent := mkSentFrames (sf_retransmits s) largest (sf_stream_frames s) (sf_non_retransmits s) (sf_requires_padding s) in
    mret (mkFill (fl_conn f) sent (fl_buf f ++ frame))
  else mret f.

(** [try_into().unwrap_or(VarInt::MAX)] of a number of microseconds. *)
Definition micros_varint (d : Z) : VarInt := if d / 1000 <? 2 ^ 62 then mkVarInt (d / 1000) else VarInt_MAX.

Definition fill_ack_frequency (id : SpaceId) (pn : Z) (f : Fill) : M Fill :=
  let p := space_pending f id in
  if rt_ack_frequency p then
    let c := with_pending (fl_conn f) id (set_rt_ack_frequency p false) in
    '(sequence_number, a) ← next_sequence_number (c_ack_frequency c);
    config ← unwrap (tc_ack_frequency_config (c_config c));
    max_ack_delay ← candidate_max_ack_delay a (rtt_get (p_rtt (c_path c))) config (c_peer_params c);
    let frame := mkAckFrequency sequence_number (afc_ack_eliciting_threshold config) (micros_varint max_ack_delay)
                   (afc_reordering_threshold config) in
    fl_write f (set_c_ack_frequency c (ack_frequency_sent a pn max_ack_delay))
      (upd_retransmits (fl_sent f) (fun r => set_rt_ack_frequency r true)) (AckFrequency_encode frame)
  else mret f.

Definition path_frame (ty : FrameType) (token : Z) : M (list Z) := encode ty ⧺ encode (mkUint (n := 8) token).

Definition fill_path_challenge (id : SpaceId) (max_size : Z) (f : Fill) : M Fill :=
  let c := fl_conn f in
  match p_challenge (c_path c) with
  | Some token =>
      if frame_room f 9 max_size && bool_decide (id = SpData) then
        fl_write f (upd_path c (fun p => set_challenge_pending p false)) (set_non_retransmits (fl_sent f) true)
          (path_frame PATH_CHALLENGE token)
      else mret f
  | None => mret f
  end.

Definition fill_path_response (id : SpaceId) (max_size : Z) (f : Fill) : M Fill :=
  let c := fl_conn f in
  if frame_room f 9 max_size && bool_decide (id = SpData) then
    let '(token, responses) := pop_on_path (c_path_responses c) (p_remote (c_path c)) in
    match token with
    | Some token =>
        fl_write f (set_c_path_responses c responses) (set_non_retransmits (fl_sent f) true) (path_frame PATH_RESPONSE token)
    | None => mret f
    end
  else mret f.

(** The loop over the queued handshake data: a frame that does not fit is cut and its rest queued again. *)
Fixpoint fill_crypto (fuel : nat) (id : SpaceId) (max_size : Z) (f : Fill) : M Fill :=
  match fuel with
  | O => Panic
  | S fuel =>
      if negb (frame_room f Crypto_SIZE_BOUND max_size) then mret f
      else
        let p := space_pending f id in
        match rt_crypto p with
        | [] => mret f
        | frame :: rest =>
            n ← usub max_size (len (fl_buf f));
            n ← usub n 1;
            offset_size ← VarInt_size (mkVarInt (cr_offset frame));
            n ← usub n offset_size;
            max_crypto_data_size ← usub n 2;
            let n := Z.min (Z.min (len (cr_data frame)) (2 ^ 14 - 1)) max_crypto_data_size in
            let truncated := mkCrypto (cr_offset frame) (takeZ n (cr_data frame)) in
            let left := dropZ n (cr_data frame) in
            rest ← (if is_nil left then mret rest else o ← uadd (cr_offset frame) n; mret (mkCrypto o left :: rest));
            f ← fl_write f (with_pending (fl_conn f) id (set_rt_crypto p rest))
                  (upd_retransmits (fl_sent f) (fun r => set_rt_crypto r (rt_crypto r ++ [truncated]))) (Crypto_encode truncated);
            fill_crypto fuel id max_size f
        end
  end.

(** The hash set of streams whose limit is to be sent is emptied in the order of [pick]. *)
Context (pick : gset StreamId → option StreamId).

(** The packet holds a set of retransmits as soon as a frame that is to be repeated when lost has been written. *)
Definition fill_control (id : SpaceId) (max_size : Z) (f : Fill) : M Fill :=
  if negb (bool_decide (id = SpData)) then mret f
  else
    let s := fl_sent f in
    t ← write_control_frames pick (c_streams (fl_conn f)) (space_pending f id) (sf_retransmits s) (fl_buf f) max_size;
    let c := with_pending (set_c_streams (fl_conn f) (tx_streams t)) id (tx_pending t) in
    let retransmits := if len (fl_buf f) <? len (tx_buf t) then Some (tx_sent t) else sf_retransmits s in
    mret (mkFill c (mkSentFrames retransmits (sf_largest_acked s) (sf_stream_frames s) (sf_non_retransmits s)
                      (sf_requires_padding s)) (tx_buf t)).

(** [queue] holds [pending.new_cids] with its end first. *)
Fixpoint fill_new_cids (queue : list IssuedCid) (id : SpaceId) (max_size : Z) (f : Fill) : M Fill :=
  if negb (frame_room f NewConnectionId_SIZE_BOUND max_size) then mret f
  else
    match queue with
    | [] => mret f
    | issued :: rest =>
        let c := fl_conn f in
        let frame := mkNewConnectionId (ic_sequence issued) (CidState.retire_prior_to (c_local_cid_state c)) (ic_id issued)
                       (ic_reset_token issued) in
        f ← fl_write f (with_pending c id (set_rt_new_cids (space_pending f id) (rev rest)))
              (upd_retransmits (fl_sent f) (fun r => set_rt_new_cids r (rt_new_cids r ++ [issued])))
              (NewConnectionId_encode frame);
        fill_new_cids rest id max_size f
    end.

(** [queue] holds [pending.retire_cids] with its end first. *)
Fixpoint fill_retire_cids (queue : list Z) (id : SpaceId) (max_size : Z) (f : Fill) : M Fill :=
  if negb (frame_room f RETIRE_CONNECTION_ID_SIZE_BOUND max_size) then mret f
  else
    match queue with
    | [] => mret f
    | seq :: rest =>
        f ← fl_write f (with_pending (fl_conn f) id (set_rt_retire_cids (space_pending f id) (rev rest)))
              (upd_retransmits (fl_sent f) (fun r => set_rt_retire_cids r (rt_retire_cids r ++ [seq])))
              (encode RETIRE_CONNECTION_ID ⧺ write_var seq);
        fill_retire_cids rest id max_size f
    end.

(** [fuel] is the number of queued datagrams, each of which a turn may take. *)
Fixpoint fill_datagrams_loop (fuel : nat) (max_size : Z) (sent_datagrams : bool) (f : Fill) : M (bool * Fill) :=
  if negb (frame_room f Datagram_SIZE_BOUND max_size) then mret (sent_datagrams, f)
  else
    '(written, buf, d) ← datagram_write (c_datagrams (fl_conn f)) (fl_buf f) max_size;
    let c := set_c_datagrams (fl_conn f) d in
    if (written : bool) then
      let f := mkFill c (set_non_retransmits (fl_sent f) false) buf in
      match fuel with O => Panic | S fuel => fill_datagrams_loop fuel max_size true f end
    else mret (sent_datagrams, mkFill c (fl_sent f) buf).

Definition fill_datagrams (id : SpaceId) (max_size : Z) (f : Fill) : M Fill :=
  '(sent_datagrams, f) ←
    (if bool_decide (id = SpData)
     then fill_datagrams_loop (length (outgoing (c_datagrams (fl_conn f)))) max_size false f
     else mret (false, f));
  let c := fl_conn f in
  let d := c_datagrams c in
  if send_blocked d && sent_datagrams then
    let d := mkDatagramState (recv_buffered d) (incoming d) (outgoing d) (outgoing_total d) false in
    mret (mkFill (set_c_datagrams (push_event c DatagramsUnblocked) d) (fl_sent f) (fl_buf f))
  else mret f.

(** [queue] holds [pending.new_tokens] with its end first; [system_now] is what the server's clock shows. *)
Fixpoint fill_new_tokens (queue : list SocketAddr) (system_now : Z) (id : SpaceId) (max_size : Z) (f : Fill) : M Fill :=
  match queue with
  | [] => mret f
  | remote_addr :: rest =>
      _ ← rassert (bool_decide (id = SpData));
      let c := with_pending (fl_conn f) id (set_rt_new_tokens (space_pending f id) (rev rest)) in
      match c_side c with
      | ClientSide _ _ _ => Panic
      | ServerSide server_config =>
          if negb (bool_decide (remote_addr = p_remote (c_path c)))
          then fill_new_tokens rest system_now id max_size (mkFill c (fl_sent f) (fl_buf f))
          else
            let token := mkToken (ValidationToken (addr_ip remote_addr) system_now) (rng_u128 (c_rng c)) in
            let c := set_c_rng c (rng_step (c_rng c)) in
            bytes ← Token_encode token (sc_token_key server_config);
            let new_token := mkNewToken bytes in
            n ← NewToken_size new_token;
            if max_size <=? len (fl_buf f) + n
            then mret (mkFill (with_pending c id (set_rt_new_tokens (space_pending f id) (rev rest ++ [remote_addr]))) (fl_sent f)
                         (fl_buf f))
            else
              f ← fl_write f c (upd_retransmits (fl_sent f) (fun r => set_rt_new_tokens r (rt_new_tokens r ++ [remote_addr])))
                    (NewToken_encode new_token);
              fill_new_tokens rest system_now id max_size f
      end
  end.

Definition fill_streams (id : SpaceId) (max_size : Z) (f : Fill) : M Fill :=
  if negb (bool_decide (id = SpData)) then mret f
  else
    let c := fl_conn f in
    '(metas, buf, s) ← write_stream_frames (c_streams c) (fl_buf f) max_size (tc_send_fairness (c_config c));
    let sent := fl_sent f in
    mret (mkFill (set_c_streams c s)
            (mkSentFrames (sf_retransmits sent) (sf_largest_acked sent) metas (sf_non_retransmits sent) (sf_requires_padding sent))
            buf).

(** A turn of the loop over handshake data takes a frame off the queue or writes at least three bytes. *)
Definition populate_packet (c : Connection) (now system_now : Z) (id : SpaceId) (buf : list Z) (max_size pn : Z) : M Fill :=
  let is_0rtt := bool_decide (id = SpData) && bool_decide (Spaces.crypto (c_spaces c id) = None) in
  let c := upd_space c id (fun s => set_pending_acks s (maybe_ack_non_eliciting (pending_acks s))) in
  let f := mkFill c SentFrames_default buf in
  f ← fill_handshake_done id is_0rtt f;
  f ← fill_ping id f;
  f ← fill_immediate_ack id f;
  f ← fill_acks now id f;
  f ← fill_ack_frequency id pn f;
  f ← fill_path_challenge id max_size f;
  f ← fill_path_response id max_size f;
  f ← (if is_0rtt then mret f
       else fill_crypto (S (Z.to_nat (max_size - len (fl_buf f)) + length (rt_crypto (space_pending f id)))) id max_size f);
  f ← fill_control id max_size f;
  f ← fill_new_cids (rev (rt_new_cids (space_pending f id))) id max_size f;
  f ← fill_retire_cids (rev (rt_retire_cids (space_pending f id))) id max_size f;
  f ← fill_datagrams id max_size f;
  f ← fill_new_tokens (rev (rt_new_tokens (space_pending f id))) system_now id max_size f;
  fill_streams id max_size f.
End PacketBuilder.
