(* ===== verification/ConnTransmit.v ===== *)
(** Outgoing datagrams of a connection and its creation: [poll_transmit], [send_path_challenge] and [Connection::new] of
    [quic-proto/src/connection/mod.rs].

    [poll_transmit] fills one buffer with the datagrams of a batch.  Its local variables are the record [Batch]; a turn of
    its loop goes on with another one, leaves the loop or returns. *)
From stdpp Require Import gmap.
From S2P Require Import Prelude Coding RangeSet Ids Shared Frame Float Packet TransportParams Token TokenCache Assembler Recv Send.
From S2P Require Import PendingStreams Retransmits CidQueue CidState Streams Dedup PendingAcks Mtud Timer AckFrequency Rtt.
From S2P Require Import Congestion Pacing Datagrams Spaces PacketCrypto Config Paths Connection ConnRecovery PacketBuilder.
Open Scope Z_scope.

Record Transmit : Type := mkTransmit {
  t_destination : SocketAddr;
  t_size : Z;
  t_ecn : option EcnCodepoint;
  t_segment_size : option Z;
  t_src_ip : option IpAddr
}.

(** [VarInt::from_u32(u16::MAX).size()] is 4. *)
Definition MAX_HANDSHAKE_OR_0RTT_HEADER_SIZE : Z := 1 + 4 + 1 + MAX_CID_SIZE + 1 + MAX_CID_SIZE + 4 + 4.
Definition MIN_PACKET_SPACE : Z := MAX_HANDSHAKE_OR_0RTT_HEADER_SIZE + 32.
Definition MAX_PADDING : Z := 16.

Section Transmit.
Context {C : Type} {HC : Controller C} {H : Type} {HH : Heap H} {T : Type} {HT : Session T} {R : Type} {HR : Rng R}
  {TS : Type} {HTS : TokenStore TS}.
Local Notation Connection := (Connection C H T R TS).
Context (max_instant : Z) (crypto_turns transmit_turns : nat) (pick : gset StreamId → option StreamId).

(** * What can be sent *)

Definition can_send_1rtt (c : Connection) (max_size : Z) : M bool :=
  if can_send_stream_data (c_streams c) || p_challenge_pending (c_path c) ||
     match c_prev_path c with Some (_, p) => p_challenge_pending p | None => false end ||
     negb (responses_is_empty (c_path_responses c))
  then mret true
  else
    match outgoing (c_datagrams c) with
    | d :: _ => n ← Datagram_size d true; mret (n <=? max_size)
    | [] => mret false
    end.

Definition conn_space_can_send (c : Connection) (id : SpaceId) (frame_space_1rtt : Z) : M SendableFrames :=
  let no_keys :=
    bool_decide (Spaces.crypto (c_spaces c id) = None) &&
    (negb (bool_decide (id = SpData)) || match c_zero_rtt_crypto c with None => true | Some _ => false end || conn_is_server c) in
  if no_keys then mret SendableFrames_empty
  else
    let s := Spaces.space_can_send (c_spaces c id) (stream_can_send_flow_control (c_streams c)) in
    if bool_decide (id = SpData) then
      b ← can_send_1rtt c frame_space_1rtt; mret (mkSendableFrames (acks s) (other s || b))
    else mret s.

(** * Path challenges *)

(** [capacity] is the capacity of the buffer once the room for the datagram has been reserved. *)
Definition send_path_challenge (c : Connection) (now capacity : Z) (buf : list Z)
    : M (option Transmit * list Z * Connection) :=
  match c_prev_path c with
  | None => mret (None, buf, c)
  | Some (prev_cid, prev_path) =>
      if negb (p_challenge_pending prev_path) then mret (None, buf, c)
      else
        let c := set_c_prev_path c (Some (prev_cid, set_challenge_pending prev_path false)) in
        token ← unwrap (p_challenge prev_path);
        _ ← rassert (bool_decide (c_highest_space c = SpData));
        '(builder, buf, c) ← PacketBuilder_new now SpData prev_cid buf capacity 0 false c;
        match builder with
        | None => mret (None, buf, c)
        | Some builder =>
            frame ← path_frame PATH_CHALLENGE token;
            let buf := buf ++ frame in
            builder ← pad_to builder MIN_INITIAL_SIZE;
            '(_, _, buf) ← builder_finish builder c buf;
            mret (Some (mkTransmit (p_remote prev_path) (len buf) None None (c_local_ip c)), buf, c)
        end
  end.

(** * Batches of datagrams *)

Record Batch : Type := mkBatch {
  b_conn : Connection;
  b_buf : list Z;
  b_num_datagrams : Z;
  b_datagram_start : Z;
  b_segment_size : Z;
  b_buf_capacity : Z;
  b_coalesce : bool;
  b_builder : option PacketBuilder;
  b_sent_frames : option SentFrames;
  b_pad_datagram : bool;
  b_pad_datagram_to_mtu : bool;
  b_congestion_blocked : bool;
  b_spaces : list SpaceId
}.

Inductive Turn : Type :=
| Continue (b : Batch)
| Break (b : Batch)
| Return (t : option Transmit) (buf : list Z) (c : Connection).

Definition set_b_conn (b : Batch) (v : Connection) : Batch :=
  mkBatch v (b_buf b) (b_num_datagrams b) (b_datagram_start b) (b_segment_size b) (b_buf_capacity b) (b_coalesce b) (b_builder b)
    (b_sent_frames b) (b_pad_datagram b) (b_pad_datagram_to_mtu b) (b_congestion_blocked b) (b_spaces b).
Definition set_b_builder (b : Batch) (v : option PacketBuilder) : Batch :=
  mkBatch (b_conn b) (b_buf b) (b_num_datagrams b) (b_datagram_start b) (b_segment_size b) (b_buf_capacity b) (b_coalesce b) v
    (b_sent_frames b) (b_pad_datagram b) (b_pad_datagram_to_mtu b) (b_congestion_blocked b) (b_spaces b).
Definition set_b_pad_to_mtu (b : Batch) (v : bool) : Batch :=
  mkBatch (b_conn b) (b_buf b) (b_num_datagrams b) (b_datagram_start b) (b_segment_size b) (b_buf_capacity b) (b_coalesce b)
    (b_builder b) (b_sent_frames b) (b_pad_datagram b) v (b_congestion_blocked b) (b_spaces b).
Definition set_b_blocked (b : Batch) : Batch :=
  mkBatch (b_conn b) (b_buf b) (b_num_datagrams b) (b_datagram_start b) (b_segment_size b) (b_buf_capacity b) (b_coalesce b)
    (b_builder b) (b_sent_frames b) (b_pad_datagram b) (b_pad_datagram_to_mtu b) true (b_spaces b).
Definition next_space (b : Batch) : Batch :=
  mkBatch (b_conn b) (b_buf b) (b_num_datagrams b) (b_datagram_start b) (b_segment_size b) (b_buf_capacity b) (b_coalesce b)
    (b_builder b) (b_sent_frames b) (b_pad_datagram b) (b_pad_datagram_to_mtu b) (b_congestion_blocked b) (tl (b_spaces b)).
(** The current packet is finished: its builder and its frames are used up. *)
Definition packet_done (b : Batch) (c : Connection) (buf : list Z) : Batch :=
  mkBatch c buf (b_num_datagrams b) (b_datagram_start b) (b_segment_size b) (b_buf_capacity b) (b_coalesce b) None None
    (b_pad_datagram b) (b_pad_datagram_to_mtu b) (b_congestion_blocked b) (b_spaces b).
(** The size of the first datagram becomes the segment size of the batch. *)
Definition clip (b : Batch) : Batch :=
  let n := len (b_buf b) in
  mkBatch (b_conn b) (b_buf b) (b_num_datagrams b) (b_datagram_start b) n n (b_coalesce b) (b_builder b)
    (b_sent_frames b) (b_pad_datagram b) (b_pad_datagram_to_mtu b) (b_congestion_blocked b) (b_spaces b).

(** The room for frames in a 1-RTT packet. *)
Definition frame_space (c : Connection) (segment_size : Z) (pn : Z) : M Z :=
  overhead ← predict_1rtt_overhead c (Some pn); mret (sat_sub segment_size overhead).

(** Why no further datagram may be started now. *)
Inductive Gate : Type := Open | AmplificationBlocked | CongestionBlocked | PacingBlocked (delay : Z).

(** The checks before another datagram is started; pacing spends its tokens as it looks. *)
Definition datagram_allowed (b : Batch) (now : Z) (id : SpaceId) (ack_eliciting : bool) : M (Gate * Connection) :=
  let c := b_conn b in
  n ← umul (b_segment_size b) (b_num_datagrams b);
  n ← uadd n 1;
  blocked ← anti_amplification_blocked (c_path c) n;
  if (blocked : bool) then mret (AmplificationBlocked, c)
  else if ack_eliciting && (loss_probes (c_spaces c id) =? 0) then
    untracked_bytes ← match b_builder b with
                      | Some builder => usub (b_buf_capacity b) (pe_start (pb_partial_encode builder))
                      | None => mret 0
                      end;
    _ ← rassert (untracked_bytes <=? b_segment_size b);
    bytes_to_send ← uadd (b_segment_size b) untracked_bytes;
    n ← uadd (if_bytes (p_in_flight (c_path c))) bytes_to_send;
    if window (p_congestion (c_path c)) <=? n then mret (CongestionBlocked, c)
    else
      '(delay, pacer) ← pacer_delay (p_pacing (c_path c)) (rtt_get (p_rtt (c_path c))) bytes_to_send (p_current_mtu (c_path c))
                          (window (p_congestion (c_path c))) now;
      let c := upd_path c (fun p => set_pacing p pacer) in
      mret (match delay with Some delay => PacingBlocked delay | None => Open end, c)
  else mret (Open, c).

(** The current packet is padded and finished before a new datagram.  The second component is [false] when the loop ends
    here: the packet stays unfinished because it would need too much padding, or the data that was going to be sent does
    not fit the segment size of the batch. *)
Definition finish_datagram (b : Batch) (now : Z) (id : SpaceId) (pn : Z) : M (Batch * bool) :=
  match b_builder b with
  | None => mret (b, true)
  | Some builder =>
      builder ← (if b_pad_datagram b then pad_to builder MIN_INITIAL_SIZE else mret builder);
      let go builder :=
        '(c, buf) ← finish_and_track builder now (b_conn b) (b_sent_frames b) (b_buf b);
        let b := packet_done b c buf in
        if b_num_datagrams b =? 1 then
          let b := clip b in
          if bool_decide (id = SpData) then
            n ← frame_space (b_conn b) (b_segment_size b) pn;
            can ← conn_space_can_send (b_conn b) id n;
            mret (b, negb (SendableFrames_is_empty can))
          else mret (b, true)
        else mret (b, true) in
      if (1 <? b_num_datagrams b) || b_pad_datagram_to_mtu b then
        n ← usub (Z.max (pb_min_size builder) (len (b_buf b))) (b_datagram_start b);
        packet_len_unpadded ← uadd n (pb_tag_len builder);
        if ((packet_len_unpadded + MAX_PADDING <? b_segment_size b) && negb (b_pad_datagram_to_mtu b)) ||
           (b_buf_capacity b <? b_datagram_start b + b_segment_size b)
        then mret (set_b_builder b (Some builder), false)
        else builder ← pad_to builder (b_segment_size b mod 2 ^ 16); go builder
      else go builder
  end.

(** A new datagram in the batch; a loss probe is not larger than the minimum MTU. *)
Definition start_datagram (b : Batch) (id : SpaceId) : M Batch :=
  let c := b_conn b in
  let probes := loss_probes (c_spaces c id) in
  let '(size_limit, c) :=
    if probes =? 0 then (b_segment_size b, c)
    else (Z.min (b_segment_size b) INITIAL_MTU, upd_space c id (fun s => set_loss_probes s (probes - 1))) in
  capacity ← uadd (b_buf_capacity b) size_limit;
  let start := len (b_buf b) in
  _ ← rassert (negb (b_segment_size b =? 0));
  _ ← rassert (start mod b_segment_size b =? 0);
  mret (mkBatch c (b_buf b) (b_num_datagrams b + 1) start (b_segment_size b) capacity true (b_builder b) (b_sent_frames b) false
          (b_pad_datagram_to_mtu b) (b_congestion_blocked b) (b_spaces b)).

(** Room for the next packet: in a new datagram, or in the current one.  [inr] is the batch with room, [inl] the end of
    the turn. *)
Definition make_room (b : Batch) (now max_datagrams : Z) (id : SpaceId) (pn : Z) (ack_eliciting : bool) : M (Turn + Batch) :=
  tag_len ← (key ← local_keys (b_conn b) id; mret (tag_len key.2));
  let buf_end := match b_builder b with
                 | Some builder => Z.max (len (b_buf b)) (pb_min_size builder) + pb_tag_len builder
                 | None => len (b_buf b)
                 end in
  full ← (if b_coalesce b then n ← usub (b_buf_capacity b) buf_end; mret (n <? MIN_PACKET_SPACE + tag_len) else mret true);
  if (full : bool) then
    if max_datagrams <=? b_num_datagrams b then mret (inl (Break b))
    else
      '(gate, c) ← datagram_allowed b now id ack_eliciting;
      let b := set_b_conn b c in
      match gate with
      | AmplificationBlocked => mret (inl (Break b))
      | CongestionBlocked => mret (inl (Continue (set_b_blocked (next_space b))))
      | PacingBlocked delay => mret (inl (Break (set_b_blocked (set_b_conn b (set_timer c TPacing delay)))))
      | Open =>
          '(b, go_on) ← finish_datagram b now id pn;
          if (go_on : bool) then b ← start_datagram b id; mret (inr b) else mret (inl (Break b))
      end
  else
    match b_builder b with
    | None => mret (inr b)
    | Some builder =>
        '(c, buf) ← finish_and_track builder now (b_conn b) (b_sent_frames b) (b_buf b);
        mret (inr (packet_done b c buf))
    end.

(** The frames of a closing connection: acknowledgements and the reason, as far as they fit. *)
Definition fill_close (c : Connection) (now : Z) (id : SpaceId) (builder : PacketBuilder) (buf : list Z) : M (list Z) :=
  let space := c_spaces c id in
  buf ← (if Arr.is_empty (ranges (pending_acks space)) then mret buf
         else '(_, frame) ← populate_acks now (c_receiving_ecn c) space; mret (buf ++ frame));
  _ ← rassert (len buf + ConnectionClose_SIZE_BOUND <? pb_max_size builder);
  max_frame_size ← usub (pb_max_size builder) (len buf);
  frame ← match c_state c with
          | StClosed reason =>
              let transport := match reason with CloseConnection _ => true | CloseApplication _ => false end in
              if bool_decide (id = SpData) || transport then Close_encode reason max_frame_size
              else ConnectionClose_encode (mkConnectionClose APPLICATION_ERROR None []) max_frame_size
          | Draining => ConnectionClose_encode (mkConnectionClose NO_ERROR None []) max_frame_size
          | _ => Panic
          end;
  mret (buf ++ frame).

(** A response to a challenge that came from another address is sent alone. *)
Definition send_off_path_response (b : Batch) (now : Z) (builder : PacketBuilder) : M (option Turn) :=
  let c := b_conn b in
  let '(response, responses) := pop_off_path (c_path_responses c) (p_remote (c_path c)) in
  match response with
  | None => mret None
  | Some (token, remote) =>
      let c := set_c_path_responses c responses in
      frame ← path_frame PATH_RESPONSE token;
      let buf := b_buf b ++ frame in
      builder ← pad_to builder MIN_INITIAL_SIZE;
      '(c, buf) ← finish_and_track builder now c (Some sf_ping) buf;
      mret (Some (Return (Some (mkTransmit remote (len buf) None None (c_local_ip c))) buf c))
  end.

(** The frames of an ordinary packet. *)
Definition send_frames (b : Batch) (now system_now : Z) (id : SpaceId) (builder : PacketBuilder) (can_send : SendableFrames)
    : M Batch :=
  f ← populate_packet pick (b_conn b) now system_now id (b_buf b) (pb_max_size builder) (pb_exact_number builder);
  let c := fl_conn f in
  let sent := fl_sent f in
  n ← usub (b_buf_capacity b) (pb_datagram_start builder);
  _ ← rassert (negb (is_ack_only sent (stream_can_send_flow_control (c_streams c)) && negb (acks can_send) && other can_send &&
                     (n =? p_current_mtu (c_path c)) && is_nil (outgoing (c_datagrams c))));
  let c := if bool_decide (is_Some (sf_largest_acked sent))
           then stop_timer (upd_space c id (fun s => set_pending_acks s (acks_sent (pending_acks s)))) TMaxAckDelay
           else c in
  mret (mkBatch c (fl_buf f) (b_num_datagrams b) (b_datagram_start b) (b_segment_size b) (b_buf_capacity b) (b_coalesce b)
          (b_builder b) (Some sent) (b_pad_datagram b || sf_requires_padding sent) (b_pad_datagram_to_mtu b)
          (b_congestion_blocked b) (b_spaces b)).

(** A packet is written into the room made for it. *)
Definition send_packet (b : Batch) (now system_now : Z) (id : SpaceId) (closing ack_eliciting : bool) (can_send : SendableFrames)
    : M Turn :=
  n ← usub (b_buf_capacity b) (len (b_buf b));
  _ ← rassert (MIN_PACKET_SPACE <=? n);
  let c := b_conn b in
  c ← (if bool_decide (is_Some (Spaces.crypto (c_spaces c SpInitial))) && bool_decide (id = SpHandshake) && conn_is_client c
       then discard_space c now SpInitial else mret c);
  let c := with_keys c (clear_update_unacked (key_state c)) in
  _ ← rassert (match b_builder b, b_sent_frames b with None, None => true | _, _ => false end);
  cid ← active (c_rem_cids c);
  '(builder, buf, c) ← PacketBuilder_new now id cid (b_buf b) (b_buf_capacity b) (b_datagram_start b) ack_eliciting c;
  match builder with
  | None => mret (Return None buf c)
  | Some builder =>
      let pad := b_pad_datagram b || (bool_decide (id = SpInitial) && (conn_is_client c || ack_eliciting)) in
      let b := mkBatch c buf (b_num_datagrams b) (b_datagram_start b) (b_segment_size b) (b_buf_capacity b)
                 (b_coalesce b && negb (pb_short_header builder)) (Some builder) None pad (b_pad_datagram_to_mtu b)
                 (b_congestion_blocked b) (b_spaces b) in
      if closing then
        buf ← fill_close c now id builder buf;
        let last := bool_decide (id = c_highest_space c) in
        let c := if last then set_c_close c false else c in
        let b := mkBatch c buf (b_num_datagrams b) (b_datagram_start b) (b_segment_size b) (b_buf_capacity b) (b_coalesce b)
                   (b_builder b) None (b_pad_datagram b) (b_pad_datagram_to_mtu b) (b_congestion_blocked b) (b_spaces b) in
        mret (if last then Break b else Continue (next_space b))
      else
        off_path ← (if bool_decide (id = SpData) && (b_num_datagrams b =? 1) then send_off_path_response b now builder
                    else mret None);
        match off_path with
        | Some turn => mret turn
        | None => b ← send_frames b now system_now id builder can_send; mret (Continue b)
        end
  end.

(** One turn of the loop. *)
Definition transmit_turn (b : Batch) (now system_now max_datagrams : Z) (closing : bool) : M Turn :=
  match b_spaces b with
  | [] => mret (Break b)
  | id :: _ =>
      let c := b_conn b in
      pn ← peek (c_packet_number_filter c) (c_spaces c SpData);
      room ← frame_space c (b_segment_size b) pn;
      can_send ← conn_space_can_send c id room;
      if SendableFrames_is_empty can_send && (negb closing || bool_decide (Spaces.crypto (c_spaces c id) = None))
      then mret (Continue (next_space b))
      else
        let s := c_spaces c id in
        data ← (if bool_decide (id = SpData) then can_send_1rtt c room else mret false);
        let ack_eliciting :=
          negb (Retransmits_is_empty (stream_can_send_flow_control (c_streams c)) (Spaces.pending s)) || ping_pending s ||
          immediate_ack_pending s || data in
        let b := set_b_pad_to_mtu b (b_pad_datagram_to_mtu b || (bool_decide (id = SpData) && tc_pad_to_mtu (c_config c))) in
        r ← make_room b now max_datagrams id pn ack_eliciting;
        match r with
        | inl turn => mret turn
        | inr b => send_packet b now system_now id closing ack_eliciting can_send
        end
  end.

(** The loop; [inr] is the batch it leaves, and [None] says that the turns ran out. *)
Fixpoint transmit_loop (fuel : nat) (b : Batch) (now system_now max_datagrams : Z) (closing : bool)
    : M (option (option Transmit * list Z * Connection + Batch)) :=
  match fuel with
  | O => mret None
  | S fuel =>
      turn ← transmit_turn b now system_now max_datagrams closing;
      match turn with
      | Continue b => transmit_loop fuel b now system_now max_datagrams closing
      | Break b => mret (Some (inr b))
      | Return t buf c => mret (Some (inl (t, buf, c)))
      end
  end.

(** The last packet of the batch. *)
Definition finish_batch (b : Batch) (now : Z) : M Batch :=
  match b_builder b with
  | None => mret b
  | Some builder =>
      builder ← (if b_pad_datagram b then pad_to builder MIN_INITIAL_SIZE else mret builder);
      builder ← (if b_pad_datagram_to_mtu b && (b_datagram_start b + b_segment_size b <=? b_buf_capacity b)
                 then pad_to builder (b_segment_size b mod 2 ^ 16) else mret builder);
      '(c, buf) ← finish_and_track builder now (b_conn b) (b_sent_frames b) (b_buf b);
      cc ← on_sent (p_congestion (c_path c)) now (len buf) (pb_exact_number builder);
      mret (packet_done b (upd_path c (fun p => set_congestion p cc)) buf)
  end.

(** The MTU probe of an idle connection; [None] when none is due. *)
Definition send_mtu_probe (c : Connection) (now : Z) : M (option (list Z) * Connection) :=
  pn ← peek (c_packet_number_filter c) (c_spaces c SpData);
  '(probe, m) ← mtud_poll_transmit (p_mtud (c_path c)) now pn;
  let c := upd_path c (fun p => set_mtud p m) in
  match probe with
  | None => mret (None, c)
  | Some probe_size =>
      cid ← active (c_rem_cids c);
      '(builder, buf, c) ← PacketBuilder_new now SpData cid [] probe_size 0 true c;
      match builder with
      | None => mret (None, c)
      | Some builder =>
          ping ← encode PING;
          immediate ← (if bool_decide (is_Some (min_ack_delay (c_peer_params c))) then encode IMMEDIATE_ACK else mret []);
          builder ← pad_to builder probe_size;
          '(c, buf) ← finish_and_track builder now c (Some sf_ping) (buf ++ ping ++ immediate);
          mret (Some buf, c)
      end
  end.

Definition transmit_of (c : Connection) (buf : list Z) (num_datagrams segment_size : Z) : option Transmit * list Z * Connection :=
  if is_nil buf then (None, buf, c)
  else
    let c := upd_path c (fun p => set_total_sent p (sat_add (p_total_sent p) (len buf))) in
    (Some (mkTransmit (p_remote (c_path c)) (len buf) (if p_sending_ecn (c_path c) then Some Ect0 else None)
             (if num_datagrams =? 1 then None else Some segment_size) (c_local_ip c)), buf, c).

(** What follows the loop. *)
Definition after_loop (b : Batch) (now : Z) : M (option Transmit * list Z * Connection) :=
  b ← finish_batch b now;
  let buf := b_buf b in
  let c := set_c_app_limited (b_conn b) (is_nil buf && negb (b_congestion_blocked b)) in
  if is_nil buf && is_established (c_state c) then
    '(probe, c) ← send_mtu_probe c now;
    match probe with
    | None => mret (None, buf, c)
    | Some buf => mret (transmit_of c buf 1 (b_segment_size b))
    end
  else mret (transmit_of c buf (b_num_datagrams b) (b_segment_size b)).

(** Loss probes and the ACK_FREQUENCY frame are queued before the loop. *)
Definition queue_probes (c : Connection) : Connection :=
  fold_left (fun c id =>
    let request_immediate_ack := bool_decide (id = SpData) && bool_decide (is_Some (min_ack_delay (c_peer_params c))) in
    upd_space c id (fun s => maybe_queue_probe s request_immediate_ack (stream_can_send_flow_control (c_streams c))))
    [SpInitial; SpHandshake; SpData] c.

Definition queue_ack_frequency (c : Connection) : M Connection :=
  match tc_ack_frequency_config (c_config c) with
  | None => mret c
  | Some config =>
      should ← should_send_ack_frequency (c_ack_frequency c) (rtt_get (p_rtt (c_path c))) config (c_peer_params c);
      mret (upd_pending c (fun p => set_rt_ack_frequency p
              (should && bool_decide (c_highest_space c = SpData) && bool_decide (is_Some (min_ack_delay (c_peer_params c))))))
  end.

(** A batch of datagrams; [transmit_turns] is the number of turns the loop may take. *)
Definition send_batch (c : Connection) (now system_now max_datagrams mtu : Z) (buf : list Z) (closing : bool)
    : M (option Transmit * list Z * Connection) :=
  c ← queue_ack_frequency c;
  let b := mkBatch c buf 0 0 mtu 0 true None None false false false [SpInitial; SpHandshake; SpData] in
  r ← transmit_loop transmit_turns b now system_now max_datagrams closing;
  r ← unwrap r;
  match r with
  | inl out => mret out
  | inr b => after_loop b now
  end.

(** [buf] is empty when the source calls this; [capacity] is the capacity it has once room for a datagram is reserved. *)
Definition conn_poll_transmit (c : Connection) (now system_now max_datagrams capacity : Z) (buf : list Z)
    : M (option Transmit * list Z * Connection) :=
  _ ← rassert (negb (max_datagrams =? 0));
  let max_datagrams := if tc_enable_segmentation_offload (c_config c) then max_datagrams else 1 in
  let mtu := p_current_mtu (c_path c) in
  '(challenge, buf, c) ← send_path_challenge c now capacity buf;
  match challenge with
  | Some t => mret (Some t, buf, c)
  | None =>
      let c := queue_probes c in
      let idle := mret (None, buf, set_c_app_limited c true) in
      let go := send_batch c now system_now max_datagrams mtu buf in
      match c_state c with
      | Drained => idle
      | Draining | StClosed _ => if c_close c then go true else idle
      | _ => go false
      end
  end.

(** * Creation *)

Inductive SideArgs : Type :=
| ClientArgs (token_store : TS) (server_name : list Z)
| ServerArgs (server_config : ServerConfig) (pref_addr_cid : option ConnectionId) (path_validated : bool).

Definition pref_addr_cid (a : SideArgs) : option ConnectionId :=
  match a with ClientArgs _ _ => None | ServerArgs _ cid _ => cid end.
Definition path_validated (a : SideArgs) : bool := match a with ClientArgs _ _ => true | ServerArgs _ _ v => v end.

(** A client takes the token it sends out of its store. *)
Definition ConnectionSide_from (a : SideArgs) : M (ConnectionSide TS) :=
  match a with
  | ClientArgs token_store server_name =>
      '(token, token_store) ← store_take token_store server_name;
      mret (ClientSide (default [] token) token_store server_name)
  | ServerArgs server_config _ _ => mret (ServerSide server_config)
  end.

(** [cid_len] and [cid_lifetime] are those of the generator of local connection ids, and [rng] is the seeded generator of
    random numbers. *)
Definition Connection_new (grease : bool) (config : TransportConfig C) (init_cid loc_cid rem_cid : ConnectionId)
    (remote : SocketAddr) (local_ip : option IpAddr) (crypto : T) (cid_len : Z) (cid_lifetime : option Z)
    (now version : Z) (allow_mtud : bool) (rng : R) (side_args : SideArgs) : M Connection :=
  side ← ConnectionSide_from side_args;
  let initial_space := set_crypto (PacketSpace_new now) (Some (tls_initial_keys crypto init_cid (side_of side))) in
  let state := StHandshake (mkHandshakeState (is_server (side_of side)) [] None) in
  cid_state ← CidState_new max_instant cid_len cid_lifetime now (match pref_addr_cid side_args with Some _ => 2 | None => 1 end);
  path ← PathData_new remote allow_mtud None 0 now config;
  key_phase_size ← random_range (rng_range rng) 10 1000;
  let rng := rng_step rng in
  let '(spin_enabled, rng) := if tc_allow_spin config then (rng_ratio rng 7 8, rng_step rng) else (false, rng) in
  let idle_timeout := match tc_max_idle_timeout config with
                      | Some dur => if into_inner dur =? 0 then None else Some (from_millis (into_inner dur))
                      | None => None
                      end in
  filter ← PacketNumberFilter_new (rng_range rng);
  let rng := rng_step rng in
  ack_delay ← get_max_ack_delay TransportParameters_default;
  streams ← Streams.new (side_of side) (tc_max_concurrent_uni_streams config) (tc_max_concurrent_bidi_streams config)
              (tc_send_window config) (tc_receive_window config) (tc_stream_receive_window config);
  let this :=
    mkConnection grease config rng crypto loc_cid rem_cid local_ip path 0 allow_mtud None state side false None false
      key_phase_size TransportParameters_default rem_cid init_cid None [] [] spin_enabled false
      (fun id => match id with SpInitial => initial_space | _ => PacketSpace_new now end) SpInitial None None false true
      idle_timeout TimerTable_default 0 None filter (mkPathResponses []) false (AckFrequencyState_new ack_delay) 0 false 0
      false streams (CidQueue_new rem_cid) cid_state DatagramState_default version in
  let this := if path_validated side_args then on_path_validated this else this in
  if is_client (side_of side) then this ← write_crypto crypto_turns this; init_0rtt this else mret this.
End Transmit.
