(* ===== verification/ConnInv.v ===== *)
(** What the operations of a connection keep: the accounting of packets in flight and the life cycle of the connection.

    [acct] ties the counters of bytes and of ack-eliciting packets in flight, kept per path, to the packets tracked in the
    three packet number spaces.  [inner ex c0 c] relates the connection [c] inside a handler to the connection [c0] the
    handler started from; [ex] are packets that were taken out of a space and whose bytes are still to be subtracted.  The
    database [post] holds the lemma of each operation. *)
From stdpp Require Import gmap.
From S2P Require Import Prelude Coding RangeSet Ids Shared Frame Float Packet TransportParams Token TokenCache Assembler Recv Send.
From S2P Require Import PendingStreams Retransmits CidQueue CidState Streams Dedup PendingAcks Mtud Timer AckFrequency Rtt.
From S2P Require Import Congestion Pacing Datagrams Spaces PacketCrypto Config Paths Connection ConnRecovery Post.
Open Scope Z_scope.

(** * Accounting *)

Fixpoint sum_of (f : SentPacket → Z) (l : list SentPacket) : Z := match l with [] => 0 | p :: l => f p + sum_of f l end.

#[global] Instance sum_of_perm f : Proper (Permutation ==> eq) (sum_of f).
Proof. intros l1 l2 Hp. induction Hp; cbn; lia. Qed.

Lemma sum_of_zero f l : Forall (fun p => f p = 0) l → sum_of f l = 0.
Proof. induction 1; cbn; lia. Qed.

Lemma sum_of_nonneg f l : Forall (fun p => 0 <= f p) l → 0 <= sum_of f l.
Proof. induction 1; cbn; lia. Qed.

(** What a packet adds to the counters of the path of generation [g]. *)
Definition bytes_of (g : Z) (p : SentPacket) : Z := if path_generation p =? g then size p else 0.
Definition eliciting_of (g : Z) (p : SentPacket) : Z := if path_generation p =? g then b2z (ack_eliciting p) else 0.

(** The counters of a path, with its generation. *)
Definition view {C} (p : PathData C) : Z * InFlight := (p_generation p, p_in_flight p).

(** The number of ack-eliciting packets is exact.  The bytes may exceed those of the tracked packets: a packet of a former
    path that is forgotten is not subtracted from it. *)
Definition covers (l : list SentPacket) (v : Z * InFlight) : Prop :=
  sum_of (bytes_of v.1) l <= if_bytes v.2 ∧ sum_of (eliciting_of v.1) l = if_ack_eliciting v.2.

#[global] Instance covers_perm : Proper (Permutation ==> eq ==> iff) covers.
Proof. intros l1 l2 Hp ? ? <-. unfold covers. by rewrite Hp. Qed.

Record acct (l : list SentPacket) (v : Z * InFlight) (prev : option (Z * InFlight)) (counter : Z) : Prop := {
  acct_path : covers l v;
  acct_gen : v.1 <= counter;
  acct_prev w : prev = Some w → covers l w ∧ w.1 ≠ v.1 ∧ w.1 <= counter;
  acct_packets : Forall (fun p => 0 <= size p ∧ path_generation p <= counter) l
}.

#[global] Instance acct_perm : Proper (Permutation ==> eq ==> eq ==> eq ==> iff) acct.
Proof.
  assert (∀ l1 l2 v w n, l1 ≡ₚ l2 → acct l1 v w n → acct l2 v w n) as Himp.
  { intros l1 l2 v w n Hp [H1 H2 H3 H4]. split; [by rewrite <- Hp|done| |by rewrite <- Hp].
    intros w' Hw. specialize (H3 w' Hw). by rewrite <- Hp. }
  intros l1 l2 Hp ? ? <- ? ? <- ? ? <-. split; apply Himp; [done|by symmetry].
Qed.

(** [in_flight_remove] on the counters of a path never underflows for a tracked packet. *)
Lemma covers_remove l p v :
  path_generation p = v.1 → covers (p :: l) v → Forall (fun p => 0 <= size p) l →
  ∃ f, in_flight_remove v.2 p = Ret f ∧ covers l (v.1, f).
Proof.
  intros Hg [Hb He] Hs. cbn [sum_of] in Hb, He. unfold bytes_of at 1 in Hb. unfold eliciting_of at 1 in He.
  rewrite Hg, Z.eqb_refl in Hb, He.
  assert (0 <= sum_of (bytes_of v.1) l).
  { apply sum_of_nonneg. eapply Forall_impl; [exact Hs|]. intros q Hq. cbn in Hq. unfold bytes_of. zcases; lia. }
  assert (0 <= sum_of (eliciting_of v.1) l).
  { apply sum_of_nonneg. apply Forall_true. intros q. unfold eliciting_of, b2z. zcases; [destruct (ack_eliciting q)|]; lia. }
  unfold in_flight_remove. rewrite usub_ok by lia. cbn [mbind M_bind]. rewrite usub_ok by lia. cbn [mbind M_bind].
  eexists. split; [reflexivity|]. split; cbn; lia.
Qed.

(** A packet of another generation does not count. *)
Lemma covers_other l p v : path_generation p ≠ v.1 → covers (p :: l) v ↔ covers l v.
Proof.
  intros Hg. unfold covers. cbn [sum_of]. unfold bytes_of at 1, eliciting_of at 1.
  destruct (Z.eqb_spec (path_generation p) v.1); [done|]. by rewrite !Z.add_0_l.
Qed.

Section Inv.
Context {C : Type} {HC : Controller C} {H : Type} {HH : Heap H} {T : Type} {HT : Session T} {R : Type} {HR : Rng R}
  {TS : Type} {HTS : TokenStore TS}.
Local Notation Connection := (Connection C H T R TS).
Implicit Types c : Connection.

(** The tracked packets of a connection. *)
Definition packets_in c (id : SpaceId) : list (Z * SentPacket) := sent_packets (c_spaces c id).
Definition tracked c : list SentPacket :=
  map snd (packets_in c SpInitial) ++ map snd (packets_in c SpHandshake) ++ map snd (packets_in c SpData).

(** What the accounting looks at in a space. *)
Definition outline (s : PacketSpace Keys H) : list (Z * SentPacket) * Z := (sent_packets s, next_packet_number s).

(** The packets of a space have been given a number. *)
Definition below (b : Z) (l : list (Z * SentPacket)) : Prop := Forall (fun p => p.1 < b) l.
Lemma below_subset b l l' : l' ⊆ l → below b l → below b l'.
Proof. intros Hs Hb. apply Forall_forall. intros p Hp. apply Hs in Hp. by eapply Forall_forall in Hb. Qed.
Definition keys_ok c : Prop := ∀ id, below (next_packet_number (c_spaces c id)) (packets_in c id).

Definition acct_ok (ex : list SentPacket) c : Prop :=
  acct (ex ++ tracked c) (view (c_path c)) (view ∘ snd <$> c_prev_path c) (c_path_counter c).

(** * The life cycle *)

(** The state without what it carries. *)
Definition phase (s : State) : Z :=
  match s with StHandshake _ => 0 | Established => 1 | StClosed _ => 2 | Draining => 3 | Drained => 4 end.

(** The close timer is left alone. *)
Definition timers_kept (t t' : TimerTable) : Prop := timers_ok t → timers_ok t' ∧ timer_get t' TClose = timer_get t TClose.

#[export] Instance timers_kept_preorder : PreOrder timers_kept.
Proof.
  split; [by intros t|]. intros t1 t2 t3 H1 H2 Hok. destruct (H1 Hok) as [Hok2 E2]. destruct (H2 Hok2) as [Hok3 E3].
  split; congruence.
Qed.

Record inner (ex : list SentPacket) c0 c : Prop := {
  in_acct l : acct_ok l c0 → acct_ok (ex ++ l) c;
  in_numbers id : next_packet_number (c_spaces c id) = next_packet_number (c_spaces c0 id) ∧
    packets_in c id ⊆ packets_in c0 id;
  in_counter : c_path_counter c = c_path_counter c0;
  in_phase : phase (c_state c) = phase (c_state c0);
  in_events : ∃ l, c_endpoint_events c = c_endpoint_events c0 ++ l ∧ EvDrained ∉ l;
  in_timers : timers_kept (c_timers c0) (c_timers c);
  in_side : conn_side c = conn_side c0
}.

Lemma inner_refl c : inner [] c c.
Proof.
  split; try done. exists []. split; [by rewrite app_nil_r|apply not_elem_of_nil].
Qed.

(** What [inner] looks at. *)
Record same_core c c' : Prop := {
  sc_view : view (c_path c') = view (c_path c);
  sc_prev : view ∘ snd <$> c_prev_path c' = view ∘ snd <$> c_prev_path c;
  sc_counter : c_path_counter c' = c_path_counter c;
  sc_state : c_state c' = c_state c;
  sc_events : c_endpoint_events c' = c_endpoint_events c;
  sc_timers : timers_kept (c_timers c) (c_timers c');
  sc_side : conn_side c' = conn_side c;
  sc_outline id : outline (c_spaces c' id) = outline (c_spaces c id)
}.

#[export] Instance same_core_preorder : PreOrder same_core.
Proof.
  split; [by intros c; split|].
  intros c1 c2 c3 [] []. split; [congruence..|by etrans|congruence|congruence].
Qed.

Lemma acct_same ex c c' : same_core c c' → acct_ok ex c → acct_ok ex c'.
Proof.
  intros [Hv Hp Hn _ _ _ _ Hs]. unfold acct_ok, tracked, packets_in.
  assert (Ho : ∀ id, sent_packets (c_spaces c' id) = sent_packets (c_spaces c id)) by (intros id; exact (f_equal fst (Hs id))).
  by rewrite Hv, Hp, Hn, !Ho.
Qed.

Lemma inner_same ex c0 c c' : same_core c c' → inner ex c0 c → inner ex c0 c'.
Proof.
  intros Hs [H1 Hk H2 H3 H5 H6 H7]. split; [intros l Hl; apply (acct_same _ c); auto|..];
    destruct Hs as [_ _ Hn Hst He Ht Hsd Ho]; [intros id; unfold packets_in; injection (Ho id) as -> ->; apply Hk|..]; rewrite ?Hn, ?Hst, ?He, ?Hsd; first [assumption|by etrans].
Qed.

Lemma packets_upd_space c id f id' :
  packets_in (upd_space c id f) id' = if decide (id' = id) then sent_packets (f (c_spaces c id)) else packets_in c id'.
Proof. unfold packets_in, upd_space, set_space. cbn.
  destruct (decide (id' = id)) as [Hi|Hi]; [by rewrite bool_decide_true|by rewrite bool_decide_false]. Qed.

Lemma core_upd_space c id f :
  outline (f (c_spaces c id)) = outline (c_spaces c id) → same_core c (upd_space c id f).
Proof.
  intros Hf. split; try done. intros id'. cbn [upd_space c_spaces set_c_spaces]. unfold set_space. case_bool_decide; [by subst|done].
Qed.

Lemma core_upd_path c f : view (f (c_path c)) = view (c_path c) → same_core c (upd_path c f).
Proof. by split. Qed.

Lemma core_set_side c s : side_of s = side_of (c_side c) → same_core c (set_c_side c s).
Proof. by split. Qed.

Lemma timer_get_set_ne t x y v : x ≠ y → timer_get (timer_set t x v) y = timer_get t y.
Proof. intros Hn. unfold timer_get, timer_set. cbn. rewrite list_lookup_insert_ne; [done|]. by intros ?%timer_index_inj. Qed.

Lemma timer_get_stop_ne t x y : x ≠ y → timer_get (timer_stop t x) y = timer_get t y.
Proof. intros Hn. unfold timer_get, timer_stop. cbn. rewrite list_lookup_insert_ne; [done|]. by intros ?%timer_index_inj. Qed.

Lemma core_set_timer c t v : t ≠ TClose → same_core c (set_timer c t v).
Proof. split; try done. intros Hok. split; [by apply timer_set_ok|]. cbn. by apply timer_get_set_ne. Qed.

Lemma core_stop_timer c t : t ≠ TClose → same_core c (stop_timer c t).
Proof. split; try done. intros Hok. split; [by apply timer_stop_ok|]. cbn. by apply timer_get_stop_ne. Qed.
(** * Primitive changes *)

Lemma inner_state ex c0 c v : inner ex c0 c → phase (c_state c) = phase v → inner ex c0 (set_c_state c v).
Proof. intros [] Hr. split; try done. cbn. congruence. Qed.

Lemma inner_endpoint_event ex c0 c e : inner ex c0 c → e ≠ EvDrained → inner ex c0 (push_endpoint_event c e).
Proof.
  intros [H1 Hk H2 H3 (l & Hl & Hn) H6 H7] He. split; try done. exists (l ++ [e]). cbn. rewrite Hl, <- app_assoc. split; [done|].
  rewrite elem_of_app, list_elem_of_singleton. intros [?|?]; congruence.
Qed.

Lemma inner_prev ex c0 c cid p p' :
  inner ex c0 c → c_prev_path c = Some (cid, p) → view p' = view p → inner ex c0 (set_c_prev_path c (Some (cid, p'))).
Proof.
  intros Hi Hp Hv. apply (inner_same _ _ c); [|done]. split; try done. cbn. rewrite Hp. cbn. by rewrite Hv.
Qed.

(** Packets leave a space. *)
Lemma tracked_upd c id f l :
  map snd (packets_in c id) ≡ₚ l ++ map snd (sent_packets (f (c_spaces c id))) → tracked c ≡ₚ l ++ tracked (upd_space c id f).
Proof.
  intros Hp. unfold tracked. rewrite !packets_upd_space.
  destruct id; repeat (case_decide; [|done] || case_decide); try done; rewrite Hp; solve_Permutation.
Qed.

Lemma inner_leave ex c0 c id f l :
  inner ex c0 c → packets_in c id ≡ₚ l ++ sent_packets (f (c_spaces c id)) →
  next_packet_number (f (c_spaces c id)) = next_packet_number (c_spaces c id) → inner (map snd l ++ ex) c0 (upd_space c id f).
Proof.
  intros [H1 Hk H2 H3 H5 H6 H7] Hp Hn. split; try done.
  - intros l' Hl. apply H1 in Hl. unfold acct_ok in *.
    cbn [upd_space c_path set_c_spaces c_prev_path c_path_counter].
    assert (Hm : map snd (packets_in c id) ≡ₚ map snd l ++ map snd (sent_packets (f (c_spaces c id)))) by (by rewrite Hp, map_app).
    rewrite (tracked_upd _ _ _ _ Hm) in Hl.
    eapply acct_perm; [|reflexivity|reflexivity|reflexivity|exact Hl]. solve_Permutation.
  - intros id'. cbn [upd_space c_spaces set_c_spaces]. rewrite packets_upd_space. unfold set_space.
    destruct (decide (id' = id)) as [->|Hne]; [rewrite bool_decide_true by done|rewrite bool_decide_false by done; apply Hk].
    destruct (Hk id) as [Hk1 Hk2]. split; [congruence|]. etrans; [|exact Hk2]. rewrite Hp. set_solver.
Qed.

Lemma take_packet_packets (s : PacketSpace Keys H) n :
  post (take_packet s n) (fun r => match r.1 with
    | Some info => sent_packets s ≡ₚ (n, info) :: sent_packets r.2 ∧ next_packet_number r.2 = next_packet_number s
    | None => r.2 = s
    end).
Proof.
  unfold take_packet. destruct (omap_remove_spec n (sent_packets s)) as [[-> _]|(l & v & r & Hs & _ & ->)]; [done|].
  assert (sent_packets s ≡ₚ (n, v) :: l ++ r) by (rewrite Hs; by rewrite Permutation_middle).
  destruct (_ && _); [|done]. by destruct (checked_sub _ _).
Qed.

Lemma inner_take ex c0 c id n :
  inner ex c0 c →
  post (take_packet (c_spaces c id) n) (fun r => match r.1 with
    | Some info => inner (info :: ex) c0 (upd_space c id (fun _ => r.2))
    | None => inner ex c0 (upd_space c id (fun _ => r.2))
    end).
Proof.
  intros Hi. eapply post_weaken; [apply take_packet_packets|]. intros [[info|] s]; cbn.
  - intros [Hp Hn]. by apply (inner_leave _ _ _ _ _ [(n, info)]).
  - intros ->. apply (inner_same _ _ c); [by apply core_upd_space|done].
Qed.

(** Subtracting a packet that has been taken out never underflows. *)
Lemma acct_remove ex c p : acct_ok (p :: ex) c → ∃ c', conn_remove_in_flight c p = Ret c' ∧ acct_ok ex c'.
Proof.
  intros [H1 H2 H3 H4]. cbn [app] in *. unfold conn_remove_in_flight, Paths.remove_in_flight.
  assert (Hs : Forall (fun q => 0 <= size q) (ex ++ tracked c)).
  { apply Forall_cons_1 in H4 as [_ H4]. eapply Forall_impl; [exact H4|]. by intros q [? _]. }
  pose proof H4 as [_ H5]%Forall_cons_1.
  destruct (Z.eqb_spec (path_generation p) (p_generation (c_path c))) as [Hg|Hg]; cbn [negb mbind M_bind].
  - destruct (covers_remove _ _ (view (c_path c)) Hg H1 Hs) as (f & Hf & Hc). cbn [view snd] in Hf. rewrite Hf.
    eexists. split; [reflexivity|]. split; try done. intros w Hw. destruct (H3 w Hw) as (Hw1 & Hw2 & Hw3). split; [|done].
    apply covers_other in Hw1; [done|]. rewrite Hg. intros Hx. by apply Hw2.
  - apply covers_other in H1; [|done]. destruct (c_prev_path c) as [[cid prev]|] eqn:Hp; cbn [c_prev_path set_c_path].
    + rewrite Hp. destruct (H3 _ eq_refl) as (Hw1 & Hw2 & Hw3).
      destruct (Z.eqb_spec (path_generation p) (p_generation prev)) as [Hg'|Hg']; cbn [negb mbind M_bind].
      * destruct (covers_remove _ _ (view prev) Hg' Hw1 Hs) as (f & Hf & Hc). cbn [view snd] in Hf. rewrite Hf.
        eexists. split; [reflexivity|]. split; try done. by intros w [= <-].
      * eexists. split; [reflexivity|]. split; try done. intros w [= <-]. split; [|done]. by apply covers_other in Hw1.
    + rewrite Hp. eexists. split; [reflexivity|]. split; try done. cbn. by rewrite Hp.
Qed.

Lemma inner_remove ex c0 c p : inner (p :: ex) c0 c → post (conn_remove_in_flight c p) (inner ex c0).
Proof.
  intros [H1 Hk H2 H3 H5 H6 H7]. apply post_iff. intros c' Hc'.
  assert (∃ v w, c' = set_c_prev_path (set_c_path c v) w) as (v & w & ->).
  { unfold conn_remove_in_flight in Hc'. apply M_bind_ret in Hc' as ([fin p'] & _ & Hc').
    destruct (fin : bool); [injection Hc' as <-; exists p', (c_prev_path c); by destruct c|].
    cbn [c_prev_path set_c_path] in Hc'. destruct (c_prev_path c) as [[cid prev]|] eqn:Hp.
    - apply M_bind_ret in Hc' as ([? prev'] & _ & [= <-]). by eexists _, _.
    - injection Hc' as <-. exists p', None. rewrite <- Hp. by destruct c. }
  split; try done. intros l Hl. apply H1 in Hl. destruct (acct_remove _ _ _ Hl) as (c'' & Hc'' & Hok).
  rewrite Hc' in Hc''. injection Hc'' as <-. exact Hok.
Qed.

Lemma inner_remove_all l ex c0 c : inner (l ++ ex) c0 c → post (mfold conn_remove_in_flight l c) (inner ex c0).
Proof.
  revert c. induction l as [|p l IH]; intros c Hi; [done|]. cbn [mfold]. eapply post_bind; [by apply inner_remove|auto].
Qed.
End Inv.
