(* ===== verification/ConnInvOps.v ===== *)
(** The operations of a connection that its handlers share keep the accounting of packets in flight and the life cycle:
    the lemmas of [inner] for [Connection] and [ConnRecovery]. *)
From stdpp Require Import gmap.
From S2P Require Import Prelude Coding RangeSet Ids Shared Frame Float Packet TransportParams Token TokenCache Assembler Recv Send.
From S2P Require Import PendingStreams Retransmits CidQueue CidState Streams Dedup PendingAcks Mtud Timer AckFrequency Rtt.
From S2P Require Import Congestion Pacing Datagrams Spaces PacketCrypto Config Paths Connection ConnRecovery Post ConnInv.
Open Scope Z_scope.

(** The state changes only in what it carries. *)
Ltac phase_tac :=
  repeat match goal with E : c_state _ = _ |- _ => rewrite E; clear E end;
  repeat match goal with Hi : inner _ _ ?c |- context [phase (c_state ?c)] => rewrite (in_phase _ _ _ Hi); clear Hi end;
  repeat match goal with E : c_state _ = _ |- _ => rewrite E; clear E end; done.

(** The lemmas of operations without a result, collected below. *)
Ltac inner_op := fail.
Ltac inner_setter :=
  lazymatch goal with
  | |- inner _ _ (?f ?c _) => apply (inner_same _ _ c); [generalize c; intros; split; intros; reflexivity|]
  end.

(** A goal [inner ex c0 c] follows from one on an earlier connection when the changes in between leave the core alone. *)
Ltac inner_step :=
  lazymatch goal with
  | |- inner _ _ (upd_pending _ _) => unfold upd_pending
  | |- inner _ _ (upd_space ?c _ _) => apply (inner_same _ _ c); [apply core_upd_space; generalize (c_spaces c); intros; cbn; repeat case_match; reflexivity|]
  | |- inner _ _ (upd_path ?c _) => apply (inner_same _ _ c); [apply core_upd_path; generalize (c_path c); intros; cbn; repeat case_match; reflexivity|]
  | |- inner _ _ (set_timer ?c _ _) => apply (inner_same _ _ c); [apply core_set_timer; discriminate|]
  | |- inner _ _ (stop_timer ?c _) => apply (inner_same _ _ c); [apply core_stop_timer; discriminate|]
  | |- inner _ _ (set_c_side ?c _) =>
      apply (inner_same _ _ c); [apply core_set_side; repeat match goal with E : c_side _ = _ |- _ => rewrite E end; reflexivity|]
  | |- inner _ _ (push_endpoint_event _ _) => apply inner_endpoint_event; [|discriminate]
  | |- inner _ _ (set_c_state _ _) => apply inner_state; [|solve [phase_tac]]
  | |- inner _ _ (match ?x with _ => _ end) => let E := fresh "E" in destruct x eqn:E
  | |- inner _ _ (snd (match ?x with _ => _ end)) => destruct x; cbn [snd fst]
  | |- inner _ _ ?c => first [is_var c; eassumption | inner_op | inner_setter]
  end.
Ltac inner_tac := cbn [snd fst]; repeat inner_step.
#[export] Hint Extern 5 (inner _ _ _) => solve [inner_tac] : post.

(** The walk through an operation whose parts are known. *)
Ltac post_walk := repeat (cbv beta zeta; post_step).
Ltac post_inner := post_walk; try solve [inner_tac].

Section Ops.
Context {C : Type} {HC : Controller C} {H : Type} {HH : Heap H} {T : Type} {HT : Session T} {R : Type} {HR : Rng R}
  {TS : Type} {HTS : TokenStore TS}.
Local Notation Connection := (Connection C H T R TS).
Implicit Types c : Connection.

(** * Keys *)

(** The key operations leave the packets of the spaces alone. *)
Definition keeps (f f' : SpaceId → PacketSpace Keys H) : Prop := ∀ id, outline (f' id) = outline (f id).

Lemma keeps_set_space (f : SpaceId → PacketSpace Keys H) id s : outline s = outline (f id) → keeps f (set_space f id s).
Proof. intros Hs i. unfold set_space. case_bool_decide; [by subst|done]. Qed.

Lemma update_keys_keeps (k : @KeyState H T) e r : post (update_keys tls_next_1rtt_keys k e r) (fun k' => keeps (spaces k) (spaces k')).
Proof. unfold update_keys. post_walk. by apply keeps_set_space. Qed.

Lemma force_key_update_keeps (k : @KeyState H T) b : post (force_key_update tls_next_1rtt_keys k b) (fun k' => keeps (spaces k) (spaces k')).
Proof. unfold force_key_update. post_walk; try done. apply update_keys_keeps. Qed.

Lemma upgrade_crypto_keeps (k : @KeyState H T) id keys b :
  post (upgrade_crypto tls_next_1rtt_keys k id keys b) (fun k' => keeps (spaces k) (spaces k')).
Proof. unfold upgrade_crypto. post_walk; by apply keeps_set_space. Qed.

Lemma set_key_discard_timer_keeps (k : @KeyState H T) now p :
  post (set_key_discard_timer k now p) (fun k' => keeps (spaces k) (spaces k')).
Proof. unfold set_key_discard_timer. by post_walk. Qed.

Lemma keeps_trans (f g h : SpaceId → PacketSpace Keys H) : keeps f g → keeps g h → keeps f h.
Proof. intros H1 H2 id. by rewrite H2. Qed.

Lemma decrypt_packet_keeps (k : @KeyState H T) now p packet :
  post (decrypt_packet tls_next_1rtt_keys k now p packet) (fun r => keeps (spaces k) (spaces r.2)).
Proof.
  unfold decrypt_packet. eapply post_bind; [apply post_true|]. intros [r pk] _. destruct r as [[res|]|e]; [|done|done]. cbv zeta.
  eapply post_bind with (P := fun k' => keeps (spaces k) (spaces k')).
  { destruct (outgoing_key_update_acked res); [|done]. destruct (prev_crypto k); [|done].
    eapply post_weaken; [apply set_key_discard_timer_keeps|done]. }
  intros k1 Hk1. eapply post_bind with (P := fun k' => keeps (spaces k) (spaces k')); [|done].
  destruct (incoming_key_update res); [|done]. eapply post_bind; [apply update_keys_keeps|]. intros k2 Hk2.
  eapply post_weaken; [apply set_key_discard_timer_keeps|]. intros k3 Hk3. eapply keeps_trans; [exact Hk1|].
  exact (keeps_trans _ _ _ Hk2 Hk3).
Qed.

Lemma inner_with_keys ex c0 c k : inner ex c0 c → keeps (c_spaces c) (spaces k) → inner ex c0 (with_keys c k).
Proof.
  intros Hi Hk. unfold with_keys. cbv zeta. set (c1 := set_c_highest_space _ _).
  assert (Hc : inner ex c0 c1).
  { apply (inner_same _ _ (set_c_spaces c (spaces k))); [split; intros; reflexivity|].
    apply (inner_same _ _ c); [|exact Hi]. split; intros; try reflexivity. apply Hk. }
  clearbody c1. destruct (key_discard k); inner_tac.
Qed.

Lemma conn_update_keys_inner ex c0 c e r : inner ex c0 c → post (conn_update_keys c e r) (inner ex c0).
Proof. intros Hi. eapply post_bind; [apply update_keys_keeps|]. intros k Hk. by apply inner_with_keys. Qed.
Lemma conn_force_key_update_inner ex c0 c : inner ex c0 c → post (conn_force_key_update c) (inner ex c0).
Proof. intros Hi. eapply post_bind; [apply force_key_update_keeps|]. intros k Hk. by apply inner_with_keys. Qed.
Lemma conn_upgrade_crypto_inner ex c0 c id keys : inner ex c0 c → post (conn_upgrade_crypto c id keys) (inner ex c0).
Proof. intros Hi. eapply post_bind; [apply upgrade_crypto_keeps|]. intros k Hk. by apply inner_with_keys. Qed.
Lemma conn_set_key_discard_timer_inner ex c0 c now id : inner ex c0 c → post (conn_set_key_discard_timer c now id) (inner ex c0).
Proof. intros Hi. eapply post_bind; [apply set_key_discard_timer_keeps|]. intros k Hk. by apply inner_with_keys. Qed.
Lemma conn_decrypt_packet_inner ex c0 c now packet : inner ex c0 c → post (conn_decrypt_packet c now packet) (fun r => inner ex c0 r.2).
Proof.
  intros Hi. eapply post_bind; [apply decrypt_packet_keeps|]. intros [[r p] k] Hk. by apply inner_with_keys.
Qed.
(** * Timers and paths *)

Lemma reset_idle_timeout_inner ex c0 c now id : inner ex c0 c → inner ex c0 (reset_idle_timeout c now id).
Proof. intros Hi. unfold reset_idle_timeout. inner_tac. Qed.
Lemma reset_keep_alive_inner ex c0 c now : inner ex c0 c → inner ex c0 (reset_keep_alive c now).
Proof. intros Hi. unfold reset_keep_alive. inner_tac. Qed.
Lemma reset_cid_retirement_inner ex c0 c : inner ex c0 c → inner ex c0 (reset_cid_retirement c).
Proof. intros Hi. unfold reset_cid_retirement. inner_tac. Qed.
Lemma ping_inner ex c0 c : inner ex c0 c → inner ex c0 (ping c).
Proof. intros Hi. unfold ping. inner_tac. Qed.
Lemma immediate_ack_inner ex c0 c : inner ex c0 c → inner ex c0 (immediate_ack c).
Proof. intros Hi. unfold immediate_ack. inner_tac. Qed.
Lemma set_reset_token_inner ex c0 c t : inner ex c0 c → inner ex c0 (set_reset_token c t).
Proof. intros Hi. unfold set_reset_token. cbv zeta. inner_tac. Qed.
Lemma on_path_validated_inner ex c0 c : inner ex c0 c → inner ex c0 (on_path_validated c).
Proof. intros Hi. unfold on_path_validated. cbv zeta. inner_tac. Qed.
End Ops.

Ltac inner_op ::=
  lazymatch goal with
  | |- inner _ _ (reset_idle_timeout _ _ _) => apply reset_idle_timeout_inner
  | |- inner _ _ (reset_keep_alive _ _) => apply reset_keep_alive_inner
  | |- inner _ _ (reset_cid_retirement _) => apply reset_cid_retirement_inner
  | |- inner _ _ (ping _) => apply ping_inner
  | |- inner _ _ (immediate_ack _) => apply immediate_ack_inner
  | |- inner _ _ (set_reset_token _ _) => apply set_reset_token_inner
  | |- inner _ _ (on_path_validated _) => apply on_path_validated_inner
  end.
#[export] Hint Resolve conn_update_keys_inner conn_force_key_update_inner conn_upgrade_crypto_inner
  conn_set_key_discard_timer_inner conn_decrypt_packet_inner : post.

Section Ops2.
Context {C : Type} {HC : Controller C} {H : Type} {HH : Heap H} {T : Type} {HT : Session T} {R : Type} {HR : Rng R}
  {TS : Type} {HTS : TokenStore TS}.
Local Notation Connection := (Connection C H T R TS).
Implicit Types c : Connection.

Lemma update_rem_cid_inner ex c0 c : inner ex c0 c → post (update_rem_cid c) (inner ex c0).
Proof. intros Hi. unfold update_rem_cid. post_inner. Qed.
Lemma local_address_changed_inner ex c0 c : inner ex c0 c → post (local_address_changed c) (inner ex c0).
Proof. intros Hi. unfold local_address_changed. eapply post_bind; [by apply update_rem_cid_inner|]. intros c1 Hc1. by apply ping_inner. Qed.
#[local] Hint Resolve update_rem_cid_inner : post.

Lemma path_changed_inner ex c0 c now : inner ex c0 c → post (path_changed c now) (inner ex c0).
Proof.
  intros Hi. unfold path_changed, path_reset. rewrite post_bind_assoc. post_walk. inner_tac.
Qed.

Lemma handle_event_inner ex c0 max_instant c ids now : inner ex c0 c → post (handle_event max_instant c ids now) (inner ex c0).
Proof. intros Hi. unfold handle_event. post_inner. Qed.

Lemma conn_poll_inner ex c0 c : inner ex c0 c → post (conn_poll c) (fun r => inner ex c0 r.2).
Proof. intros Hi. unfold conn_poll. post_inner. Qed.

(** * Transport parameters and handshake *)

Lemma set_peer_params_inner ex c0 c p : inner ex c0 c → post (set_peer_params c p) (inner ex c0).
Proof. intros Hi. unfold set_peer_params. post_inner. Qed.
#[local] Hint Resolve set_peer_params_inner : post.

Lemma handle_peer_params_inner ex c0 c p : inner ex c0 c → post (handle_peer_params c p) (fun r => inner ex c0 r.2).
Proof. intros Hi. unfold handle_peer_params. post_inner. Qed.

Lemma init_0rtt_inner ex c0 c : inner ex c0 c → post (init_0rtt c) (inner ex c0).
Proof. intros Hi. unfold init_0rtt. post_inner. Qed.

Lemma read_crypto_loop_inner ex c0 fuel c id : inner ex c0 c → post (read_crypto_loop fuel c id) (fun r => inner ex c0 r.2).
Proof.
  revert c. induction fuel as [|fuel IH]; intros c Hi; [done|]. cbn [read_crypto_loop]. post_inner.
Qed.

Lemma read_crypto_inner ex c0 c id f n : inner ex c0 c → post (read_crypto c id f n) (fun r => inner ex c0 r.2).
Proof. intros Hi. unfold read_crypto. post_inner. apply read_crypto_loop_inner. inner_tac. Qed.

Lemma write_crypto_loop_inner ex c0 fuel c : inner ex c0 c → post (write_crypto_loop fuel c) (inner ex c0).
Proof.
  revert c. induction fuel as [|fuel IH]; intros c Hi; [done|]. cbn [write_crypto_loop]. post_inner.
Qed.

Lemma issue_first_cids_inner ex c0 c now : inner ex c0 c → post (issue_first_cids c now) (inner ex c0).
Proof. intros Hi. unfold issue_first_cids. post_inner. Qed.
#[local] Hint Resolve handle_peer_params_inner init_0rtt_inner read_crypto_inner write_crypto_loop_inner issue_first_cids_inner : post.

Lemma set_max_concurrent_streams_inner ex c0 c d n : inner ex c0 c → post (set_max_concurrent_streams c d n) (inner ex c0).
Proof. intros Hi. unfold set_max_concurrent_streams. post_inner. Qed.
Lemma conn_set_send_window_inner ex c0 c w : inner ex c0 c → inner ex c0 (conn_set_send_window c w).
Proof. intros Hi. unfold conn_set_send_window. inner_tac. Qed.
Lemma conn_set_receive_window_inner ex c0 c w : inner ex c0 c → inner ex c0 (conn_set_receive_window c w).
Proof. intros Hi. unfold conn_set_receive_window. destruct (configure_receive_window _ _). cbv zeta. inner_tac. Qed.
Lemma conn_send_datagram_inner ex c0 c data drop : inner ex c0 c → post (conn_send_datagram c data drop) (fun r => inner ex c0 r.2).
Proof. intros Hi. unfold conn_send_datagram. post_inner. Qed.

(** * Loss recovery *)

Lemma unwrap_some {A} (o : option A) : post (unwrap o) (fun a => o = Some a).
Proof. by destruct o. Qed.

Lemma set_loss_detection_timer_inner ex c0 c now : inner ex c0 c → post (set_loss_detection_timer c now) (inner ex c0).
Proof. intros Hi. unfold set_loss_detection_timer. post_inner. Qed.
#[local] Hint Resolve set_loss_detection_timer_inner inner_remove : post.

Lemma discard_space_inner ex c0 c now id : inner ex c0 c → post (discard_space c now id) (inner ex c0).
Proof.
  intros Hi. unfold discard_space. eapply post_bind; [apply post_true|]. intros _ _. cbv zeta. set (c1 := if bool_decide (id = SpInitial) then _ else _).
  assert (Hc1 : inner ex c0 c1) by (subst c1; inner_tac). clearbody c1.
  eapply post_bind; [|intros c2 Hc2; by apply set_loss_detection_timer_inner].
  apply inner_remove_all. apply inner_leave; [done| |done]. cbn. by rewrite app_nil_r.
Qed.

Lemma drain_lost_packets_inner ex c0 c now id : inner ex c0 c → inner ex c0 (drain_lost_packets c now id).
Proof. intros Hi. unfold drain_lost_packets. cbv zeta. inner_tac. Qed.

Lemma lose_packet_inner ex c0 c id n : inner ex c0 c → post (lose_packet id c n) (inner ex c0).
Proof.
  intros Hi. unfold lose_packet. eapply post_bind; [by apply inner_take|]. intros [info s] Hs. cbn [fst snd] in Hs.
  eapply post_bind; [apply unwrap_some|]. intros p ->. cbv zeta. eapply post_bind; [by apply inner_remove|]. intros c1 Hc1.
  post_inner.
Qed.

Lemma drop_oversized_datagrams_inner ex c0 c : inner ex c0 c → post (drop_oversized_datagrams c) (inner ex c0).
Proof. intros Hi. unfold drop_oversized_datagrams. post_inner. Qed.

Lemma lose_packets_inner ex c0 id l c : inner ex c0 c → post (mfold (lose_packet id) l c) (inner ex c0).
Proof. apply post_mfold. intros. by apply lose_packet_inner. Qed.
#[local] Hint Resolve drop_oversized_datagrams_inner lose_packets_inner : post.

Lemma on_packets_lost_inner ex c0 c now id scan n : inner ex c0 c → post (on_packets_lost c now id scan n) (inner ex c0).
Proof. intros Hi. unfold on_packets_lost. post_inner. Qed.
#[local] Hint Resolve on_packets_lost_inner : post.

Lemma take_rtt_sample_inner ex c0 c now id ack : inner ex c0 c → inner ex c0 (take_rtt_sample c now id ack).
Proof. intros Hi. unfold take_rtt_sample. cbv zeta. inner_tac. Qed.

Lemma note_largest_acked_inner ex c0 c id ack : inner ex c0 c → inner ex c0 (note_largest_acked c id ack).2.
Proof.
  intros Hi. unfold note_largest_acked. cbv zeta. destruct (largest_acked_packet _) as [n|]; [destruct (n <? _); [|exact Hi]|];
    cbn [snd]; (apply (inner_same _ _ c); [|exact Hi]); apply core_upd_space; by case_match.
Qed.
End Ops2.

Ltac inner_op ::=
  lazymatch goal with
  | |- inner _ _ (reset_idle_timeout _ _ _) => apply reset_idle_timeout_inner
  | |- inner _ _ (reset_keep_alive _ _) => apply reset_keep_alive_inner
  | |- inner _ _ (reset_cid_retirement _) => apply reset_cid_retirement_inner
  | |- inner _ _ (ping _) => apply ping_inner
  | |- inner _ _ (immediate_ack _) => apply immediate_ack_inner
  | |- inner _ _ (set_reset_token _ _) => apply set_reset_token_inner
  | |- inner _ _ (on_path_validated _) => apply on_path_validated_inner
  | |- inner _ _ (drain_lost_packets _ _ _) => apply drain_lost_packets_inner
  | |- inner _ _ (take_rtt_sample _ _ _ _) => apply take_rtt_sample_inner
  end.
#[export] Hint Resolve update_rem_cid_inner set_peer_params_inner handle_peer_params_inner init_0rtt_inner read_crypto_inner
  write_crypto_loop_inner issue_first_cids_inner set_loss_detection_timer_inner inner_remove discard_space_inner
  drop_oversized_datagrams_inner lose_packets_inner on_packets_lost_inner : post.

Section Ops3.
Context {C : Type} {HC : Controller C} {H : Type} {HH : Heap H} {T : Type} {HT : Session T} {R : Type} {HR : Rng R}
  {TS : Type} {HTS : TokenStore TS}.
Local Notation Connection := (Connection C H T R TS).
Implicit Types c : Connection.

Lemma detect_lost_packets_inner ex c0 c now id b : inner ex c0 c → post (detect_lost_packets c now id b) (inner ex c0).
Proof.
  intros Hi. unfold detect_lost_packets. eapply post_bind; [apply post_true|]. intros p _.
  eapply post_bind; [apply post_true|]. intros scan _. cbv zeta. eapply post_bind with (P := inner ex c0).
  { post_inner. }
  intros c1 Hc1. destruct (ls_lost_mtu_probe scan) as [n|]; [|done].
  eapply post_bind; [by apply inner_take|]. intros [info s] Hs. cbn [fst snd] in Hs.
  eapply post_bind; [apply unwrap_some|]. intros q ->. post_inner.
Qed.

Lemma detect_spurious_loss_inner ex c0 c ack id : inner ex c0 c → post (detect_spurious_loss c ack id) (fun r => inner ex c0 r.2).
Proof. intros Hi. unfold detect_spurious_loss. post_inner. Qed.

Lemma detect_ecn_packets (s : PacketSpace Keys H) n e :
  post (detect_ecn s n e) (fun r => outline r.2 = outline s).
Proof. unfold detect_ecn. by post_walk. Qed.

Lemma process_ecn_inner ex c0 c now id n e t : inner ex c0 c → post (process_ecn c now id n e t) (inner ex c0).
Proof.
  intros Hi. unfold process_ecn. eapply post_bind; [apply detect_ecn_packets|]. intros [r s] Hs. cbn [snd] in Hs. cbv zeta.
  set (c1 := upd_space c id (fun _ => s)).
  assert (Hc1 : inner ex c0 c1) by (apply (inner_same _ _ c); [by apply core_upd_space|done]). clearbody c1. post_inner.
Qed.

Lemma on_packet_acked_inner ex c0 c now p : inner (p :: ex) c0 c → post (on_packet_acked c now p) (inner ex c0).
Proof. intros Hi. unfold on_packet_acked. eapply post_bind; [by apply inner_remove|]. intros c1 Hc1. post_inner. Qed.
#[local] Hint Resolve detect_lost_packets_inner detect_spurious_loss_inner process_ecn_inner on_packet_acked_inner : post.

Lemma ack_packet_inner ex c0 now id b c n : inner ex c0 c → post (ack_packet now id (b, c) n) (fun r => inner ex c0 r.2).
Proof.
  intros Hi. unfold ack_packet. eapply post_bind; [by apply inner_take|]. intros [info s] Hs. cbn [fst snd] in Hs. cbv zeta.
  set (c1 := upd_space c id (fun _ => s)) in *. clearbody c1. clear Hi. destruct info as [p|]; [|done]. post_inner.
Qed.

Lemma ack_packets_inner ex c0 now id b c l : inner ex c0 c → post (mfold (ack_packet now id) l (b, c)) (fun r => inner ex c0 r.2).
Proof.
  intros Hi. apply (post_mfold _ _ _ (fun r : bool * Connection => inner ex c0 r.2)); [|done].
  intros [b' c'] n Hr. by apply ack_packet_inner.
Qed.

Lemma check_ecn_inner ex c0 c now id ack b n : inner ex c0 c → post (check_ecn c now id ack b n) (inner ex c0).
Proof. intros Hi. unfold check_ecn. post_inner. Qed.
#[local] Hint Resolve ack_packets_inner check_ecn_inner : post.

Lemma on_ack_received_inner ex c0 c now id ack : inner ex c0 c → post (on_ack_received c now id ack) (fun r => inner ex c0 r.2).
Proof.
  intros Hi. unfold on_ack_received. destruct (_ <=? _); [done|]. pose proof (note_largest_acked_inner _ _ _ id ack Hi) as Hn.
  destruct (note_largest_acked c id ack) as [b c1]. cbn [snd] in Hn. clear Hi. post_inner.
Qed.

Lemma on_loss_detection_timeout_inner ex c0 c now : inner ex c0 c → post (on_loss_detection_timeout c now) (inner ex c0).
Proof. intros Hi. unfold on_loss_detection_timeout. post_inner. Qed.
End Ops3.
#[export] Hint Resolve detect_lost_packets_inner detect_spurious_loss_inner process_ecn_inner on_packet_acked_inner
  check_ecn_inner on_ack_received_inner on_loss_detection_timeout_inner : post.
