(* ===== verification/ConnInvReceive.v ===== *)
(** Packets that arrive keep the accounting of packets in flight and the life cycle: the lemmas of [inner] and [mid] for
    [ConnReceive].

    A packet may move the connection to a later state and, on a server, to a new path; [mid n c0 c] allows for that and for
    [n] new paths.  Only what follows the processing of a packet declares the connection drained. *)
From stdpp Require Import gmap.
From S2P Require Import Prelude Coding RangeSet Ids Shared Frame FrameTheorems Float Packet PacketSafety TransportParams Token TokenCache.
From S2P Require Import Assembler Recv Send PendingStreams Retransmits CidQueue CidState Streams Dedup PendingAcks Mtud Timer.
From S2P Require Import AckFrequency Rtt Congestion Pacing Datagrams Spaces PacketCrypto Config Paths Connection ConnRecovery.
From S2P Require Import ConnReceive Post ConnInv ConnInvOps.
Open Scope Z_scope.

(** [?] on a computation with state. *)
Lemma post_attempt {E A B S} (m : M (result E A * S)) (k : A → S → M (result E B * S)) (P : S → Prop) (Q : result E B * S → Prop) :
  post m (fun r => P r.2) → (∀ e s, P s → Q (Err e, s)) → (∀ a s, P s → post (k a s) Q) → post (attempt m k) Q.
Proof.
  intros Hm He Hk. unfold attempt. eapply post_bind; [exact Hm|]. intros [[a|e] s] Hs; cbn in *; [by apply Hk|by apply He].
Qed.

Section Receive.
Context {C : Type} {HC : Controller C} {H : Type} {HH : Heap H} {T : Type} {HT : Session T} {R : Type} {HR : Rng R}
  {TS : Type} {HTS : TokenStore TS}.
Local Notation Connection := (Connection C H T R TS).
Implicit Types c : Connection.
Context (crypto_turns : nat).

(** * Frames *)

Lemma on_packet_authenticated_inner ex c0 c now id ecn n spin b :
  inner ex c0 c → post (on_packet_authenticated c now id ecn n spin b) (inner ex c0).
Proof. intros Hi. unfold on_packet_authenticated. post_inner. Qed.

Lemma queue_max_data_inner ex c0 c b : inner ex c0 c → inner ex c0 (queue_max_data b c).
Proof. intros Hi. unfold queue_max_data. inner_tac. Qed.

Lemma on_new_connection_id_inner ex c0 c f : inner ex c0 c → post (on_new_connection_id c f) (fun r => inner ex c0 r.2).
Proof. intros Hi. unfold on_new_connection_id. post_inner. Qed.

Lemma on_path_response_inner ex c0 c remote token : inner ex c0 c → inner ex c0 (on_path_response c remote token).
Proof.
  intros Hi. unfold on_path_response. destruct (_ && _); [|done]. cbv zeta. set (c1 := upd_path _ _).
  assert (Hc1 : inner ex c0 c1) by (subst c1; inner_tac). clearbody c1.
  destruct (c_prev_path c1) as [[cid p]|] eqn:Hp; [|done]. by apply (inner_prev _ _ _ cid p).
Qed.

Lemma on_stop_sending_inner ex c0 c id e : inner ex c0 c → inner ex c0 (on_stop_sending c id e).2.
Proof. intros Hi. unfold on_stop_sending. cbv zeta. repeat case_match; inner_tac. Qed.

Lemma on_ack_frequency_inner ex c0 c f : inner ex c0 c → inner ex c0 (on_ack_frequency c f).2.
Proof. intros Hi. unfold on_ack_frequency. destruct (ack_frequency_received _ _ _) as [[r s] a]. cbv zeta.
  destruct r as [[]|]; inner_tac. Qed.

Lemma on_new_token_inner ex c0 c t : inner ex c0 c → post (on_new_token c t) (fun r => inner ex c0 r.2).
Proof. intros Hi. unfold on_new_token. destruct (c_side c) eqn:E; post_inner. Qed.
End Receive.

Ltac inner_op ::=
  lazymatch goal with
  | |- inner _ _ (reset_idle_timeout _ _ _) => apply reset_idle_timeout_inner
  | |- inner _ _ (reset_keep_alive _ _) => apply reset_keep_alive_inner
  | |- inner _ _ (reset_cid_retirement _) => apply reset_cid_retirement_inner
  | |- inner _ _ (ping _) => apply ping_inner
  | |- inner _ _ (immediate_ack _) => apply immediate_ack_inner
  | |- inner _ _ (set_reset_token _ _) => apply set_reset_token_inner
  | |- inner _ _ (on_path_validated _) => apply on_path_validated_inner
  | |- inner _ _ (drain_lost_packets _ _ _) => apply drain_lost_packets_inner
  | |- inner _ _ (take_rtt_sample _ _ _ _) => apply take_rtt_sample_inner
  | |- inner _ _ (queue_max_data _ _) => apply queue_max_data_inner
  | |- inner _ _ (on_path_response _ _ _) => apply on_path_response_inner
  | |- inner _ _ (snd (on_stop_sending _ _ _)) => apply on_stop_sending_inner
  | |- inner _ _ (snd (on_ack_frequency _ _)) => apply on_ack_frequency_inner
  end.
#[export] Hint Resolve on_packet_authenticated_inner on_new_connection_id_inner on_stop_sending_inner on_ack_frequency_inner
  on_new_token_inner : post.

Section Packets.
Context {C : Type} {HC : Controller C} {H : Type} {HH : Heap H} {T : Type} {HT : Session T} {R : Type} {HR : Rng R}
  {TS : Type} {HTS : TokenStore TS}.
Local Notation Connection := (Connection C H T R TS).
Implicit Types c : Connection.
Context (crypto_turns : nat).

Lemma payload_frame_inner ex c0 c now remote n k f :
  inner ex c0 c → post (payload_frame c now remote n k f) (fun r => inner ex c0 r.2).
Proof. intros Hi. destruct f; cbn [payload_frame]; post_inner. Qed.

Lemma payload_frames_inner ex c0 now remote n k z l s c :
  inner ex c0 c → post (payload_frames c now remote n k z l s) (fun r => inner ex c0 r.2).
Proof.
  revert s c. induction l as [|[f|e] l IH]; intros s c Hi; cbn [payload_frames]; [done| |done].
  assert (Hf : post (attempt (payload_frame c now remote n k f) (fun _ c =>
    payload_frames c now remote n k z l
      (mkPayloadScan (ps_ack_eliciting s || is_ack_eliciting f) (ps_probing s && is_probing f)
         (match f with FClose reason => Some reason | _ => ps_close s end)))) (fun r => inner ex c0 r.2)).
  { eapply post_attempt; [by apply payload_frame_inner|done|]. intros _ c1 Hc1. by apply IH. }
  destruct f; try exact (IH _ _ Hi); cbv zeta; (case_match; [exact Hi|exact Hf]).
Qed.

(** * Handshake packets *)

Lemma remove_in_flight_spaces c p : post (conn_remove_in_flight c p) (fun c' => c_spaces c' = c_spaces c).
Proof. unfold conn_remove_in_flight. by post_walk. Qed.

Lemma discard_space_empty c now id : post (discard_space c now id) (fun c' => packets_in c' id = []).
Proof.
  unfold discard_space. eapply post_bind; [apply post_true|]. intros _ _. cbv zeta. set (c1 := upd_space _ id _).
  assert (Hc1 : packets_in c1 id = []) by (subst c1; rewrite packets_upd_space; by rewrite decide_True). clearbody c1.
  eapply post_bind with (P := fun c' => packets_in c' id = []).
  - apply post_mfold; [|done]. intros c2 p Hc2. eapply post_weaken; [apply remove_in_flight_spaces|].
    intros c3 Hc3. unfold packets_in in *. by rewrite Hc3.
  - intros c2 Hc2. unfold set_loss_detection_timer. post_walk; repeat case_match; exact Hc2.
Qed.

(** The 0-RTT packets leave their space and the counters. *)
Lemma take_0rtt_inner ex c0 c f :
  inner ex c0 c → (∀ l c1 p, inner (l ++ ex) c0 c1 → post (f c1 p) (inner (l ++ ex) c0)) →
  post (mfold (fun c p => c ← conn_remove_in_flight c p; f c p) (map snd (packets_in c SpData))
          (upd_space c SpData (fun s => set_sent_packets s []))) (inner ex c0).
Proof.
  intros Hi Hf. assert (Hl : inner (map snd (packets_in c SpData) ++ ex) c0 (upd_space c SpData (fun s => set_sent_packets s []))).
  { apply inner_leave; [done| |done]. cbn. by rewrite app_nil_r. }
  revert Hl. generalize (upd_space c SpData (fun s => set_sent_packets s [])).
  induction (map snd (packets_in c SpData)) as [|p l IH]; intros c1 Hl; [done|].
  cbn [mfold]. eapply post_bind; [|exact IH]. eapply post_bind; [by apply inner_remove|]. intros c2 Hc2. by apply Hf.
Qed.

Lemma discard_space_both ex c0 c now id :
  inner ex c0 c → post (discard_space c now id) (fun c' => inner ex c0 c' ∧ packets_in c' id = []).
Proof.
  intros Hc. apply post_iff. intros c' Hc'. split.
  - exact (post_elim _ _ _ (discard_space_inner _ _ _ _ _ Hc) Hc').
  - exact (post_elim _ _ _ (discard_space_empty _ _ _) Hc').
Qed.

(** An empty space is replaced by another one. *)
Lemma inner_empty_space ex c0 c id f :
  inner ex c0 c → packets_in c id = [] → outline (f (c_spaces c id)) = ([], next_packet_number (c_spaces c id)) →
  inner ex c0 (upd_space c id f).
Proof. intros Hi Hp Hf. apply (inner_same _ _ c); [|done]. apply core_upd_space. rewrite Hf. unfold outline. by rewrite <- Hp. Qed.

Lemma process_retry_inner ex c0 c now cid p hs :
  inner ex c0 c → c_state c = StHandshake hs → post (process_retry c now cid p hs) (fun r => inner ex c0 r.2).
Proof.
  intros Hi Hst. unfold process_retry. destruct (c_side c) as [tk ts name|] eqn:Hside; [|done].
  destruct (1 <? _); [done|]. destruct (_ <=? _); [done|]. eapply post_bind; [apply post_true|]. intros a _.
  destruct (negb _); [done|]. eapply post_bind; [apply post_true|]. intros hello _. cbv zeta.
  eapply post_bind; [apply post_true|]. intros q _. set (c1 := set_c_rem_handshake_cid _ _).
  assert (Hc1 : inner ex c0 c1) by (subst c1; inner_tac).
  assert (Hs1 : c_side c1 = c_side c) by done. rewrite <- Hs1 in Hside. clearbody c1.
  eapply post_bind; [by apply inner_take|]. intros [info sp] Hs. cbn [fst snd] in Hs.
  set (c2 := upd_space c1 _ _) in *. clearbody c2. eapply post_bind with (P := inner ex c0).
  { destruct info; [by apply on_packet_acked_inner|done]. }
  intros c3 Hc3. eapply post_bind; [by apply discard_space_both|]. intros c4 [Hc4 He4].
  set (c5 := upd_space c4 SpInitial _). assert (Hc5 : inner ex c0 c5) by (by apply inner_empty_space). clearbody c5.
  eapply post_bind; [apply take_0rtt_inner; [done|]|].
  { intros l c6 info' Hc6. apply post_ret. inner_tac. }
  intros c6 Hc6. eapply post_bind; [apply post_true|]. intros s _.
  assert (Hp : phase (c_state c6) = 0).
  { rewrite (in_phase _ _ _ Hc6), <- (in_phase _ _ _ Hi), Hst. done. }
  apply post_ret. cbn [snd]. set (c7 := set_c_streams c6 s). assert (Hc7 : inner ex c0 c7) by (subst c7; inner_tac).
  assert (Hs7 : conn_side c7 = Client).
  { rewrite (in_side _ _ _ Hc7), <- (in_side _ _ _ Hc1). unfold conn_side. by rewrite Hside. }
  apply inner_state; [|done]. apply (inner_same _ _ c7); [|done]. apply core_set_side. symmetry. exact Hs7.
Qed.

Lemma settle_0rtt_inner ex c0 c params : inner ex c0 c → post (settle_0rtt c params) (fun r => inner ex c0 r.2).
Proof.
  intros Hi. unfold settle_0rtt. destruct (negb _); [done|]. eapply post_bind; [apply post_true|]. intros a _.
  destruct (negb a); [|apply post_ret; inner_tac]. cbv zeta. eapply post_bind; [apply post_true|]. intros s _.
  set (c1 := upd_pending _ _). assert (Hc1 : inner ex c0 c1) by (subst c1; inner_tac). clearbody c1.
  eapply post_bind; [apply inner_remove_all, inner_leave; [exact Hc1| |done]; cbn; by rewrite app_nil_r|]. done.
Qed.
End Packets.

(** * Packets *)

(** A connection goes from the handshake to being established to being closed, and never back. *)
Definition state_rank (s : State) : Z := Z.min (phase s) 2.

Section Mid.
Context {C : Type} {HC : Controller C} {H : Type} {HH : Heap H} {T : Type} {HT : Session T} {R : Type} {HR : Rng R}
  {TS : Type} {HTS : TokenStore TS}.
Local Notation Connection := (Connection C H T R TS).
Implicit Types c : Connection.
Context (crypto_turns : nat).

(** The invariant of the accounting. *)
Definition flight_ok c : Prop := acct_ok [] c ∧ keys_ok c.

Lemma inner_flight_ok c0 c : inner [] c0 c → flight_ok c0 → flight_ok c.
Proof.
  intros Hi [Ha Hk]. split; [by apply (in_acct _ _ _ Hi [])|]. intros id. destruct (in_numbers _ _ _ Hi id) as [Hn Hb].
  rewrite Hn. eapply below_subset; [exact Hb|apply Hk].
Qed.

Record mid (n : Z) c0 c : Prop := {
  mid_flight : 0 <= c_path_counter c0 → c_path_counter c0 + n < 2 ^ 64 → flight_ok c0 → flight_ok c;
  mid_counter : 0 <= c_path_counter c0 → c_path_counter c0 + n < 2 ^ 64 →
    c_path_counter c0 <= c_path_counter c <= c_path_counter c0 + n;
  mid_rank : state_rank (c_state c0) <= state_rank (c_state c);
  mid_drained : is_drained (c_state c) = is_drained (c_state c0);
  mid_events : ∃ l, c_endpoint_events c = c_endpoint_events c0 ++ l ∧ EvDrained ∉ l;
  mid_timers : timers_kept (c_timers c0) (c_timers c);
  mid_side : conn_side c = conn_side c0
}.

Lemma phase_drained s1 s2 : phase s1 = phase s2 → is_drained s1 = is_drained s2.
Proof. by destruct s1, s2. Qed.
Lemma phase_closed s1 s2 : phase s1 = phase s2 → is_closed s1 = is_closed s2.
Proof. by destruct s1, s2. Qed.
Lemma rank_open s : is_closed s = false → state_rank s <= 1.
Proof. by destruct s. Qed.
Lemma rank_le_closed s v : is_closed v = true → state_rank s <= state_rank v.
Proof. by destruct s, v. Qed.

Lemma mid_refl c : mid 0 c c.
Proof. split; try done; try lia. exists []. split; [by rewrite app_nil_r|apply not_elem_of_nil]. Qed.

Lemma mid_weaken n m c0 c : mid n c0 c → n <= m → mid m c0 c.
Proof.
  intros [H1 H2 H3 H4 H5 H6 H7] Hn. split; try done.
  - intros ? ?. apply H1; lia.
  - intros Hz Hm. specialize (H2 Hz). lia.
Qed.

Lemma mid_inner n c0 c c' : mid n c0 c → inner [] c c' → mid n c0 c'.
Proof.
  intros [H1 H2 H3 H4 (l & Hl & Hln) H6 H7] Hi. pose proof (inner_flight_ok _ _ Hi) as I1.
  destruct Hi as [_ _ I2 I3 (k & Hk & Hkn) I6 I7]. split.
  - intros ? ? ?. auto.
  - by rewrite I2.
  - unfold state_rank in *. by rewrite I3.
  - by rewrite (phase_drained _ _ I3).
  - exists (l ++ k). split; [by rewrite Hk, Hl, app_assoc|]. by rewrite elem_of_app; intros [].
  - by etrans.
  - congruence.
Qed.

Lemma mid_state n c0 c v :
  mid n c0 c → state_rank (c_state c) <= state_rank v → is_drained v = is_drained (c_state c) → mid n c0 (set_c_state c v).
Proof. intros [] Hr Hd. split; try done; cbn; [lia|congruence]. Qed.

Lemma mid_post {A} n c0 c (m : M (A * Connection)) :
  mid n c0 c → post m (fun r => inner [] c r.2) → post m (fun r => mid n c0 r.2).
Proof. intros Hc Hm. eapply post_weaken; [exact Hm|]. intros r. by apply mid_inner. Qed.

Lemma mid_post1 n c0 c (m : M Connection) : mid n c0 c → post m (inner [] c) → post m (mid n c0).
Proof. intros Hc Hm. eapply post_weaken; [exact Hm|]. intros r. by apply mid_inner. Qed.

Lemma early_frames_mid n c0 now id k l b c :
  mid n c0 c → is_drained (c_state c0) = false → post (early_frames c now id k l b) (fun r => mid n c0 r.2).
Proof.
  intros Hm Hd. revert b c Hm. induction l as [|[f|e] l IH]; intros b c Hm; cbn [early_frames]; [done| |done].
  destruct f; try exact (IH _ _ Hm); try exact Hm.
  all: try (eapply post_attempt; [|done|intros _ c1 Hc1; exact (IH _ c1 Hc1)]; apply (mid_post _ _ c); [done|]; eauto using inner_refl with post).
  apply post_ret. cbn [snd]. apply mid_state; [|by apply rank_le_closed|].
  - apply (mid_inner _ _ c); [done|]. pose proof (inner_refl c). inner_tac.
  - cbn. by rewrite (mid_drained _ _ _ Hm).
Qed.

(** A connection with the core of one that is known. *)
Ltac mid_tac :=
  cbn [snd fst];
  match goal with Hm : mid ?n ?c0 ?c |- mid ?n ?c0 _ =>
    apply (mid_inner _ _ c _ Hm); pose proof (inner_refl c); solve [inner_tac] end.
Ltac mid_op := match goal with Hm : mid ?n ?c0 ?c |- _ =>
  first [apply (mid_post n c0 c); [exact Hm|solve [eauto using inner_refl with post]]
        |apply (mid_post1 n c0 c); [exact Hm|solve [eauto using inner_refl with post]]] end.

Lemma write_crypto_mid n c0 c : mid n c0 c → post (write_crypto crypto_turns c) (mid n c0).
Proof. intros Hm. unfold write_crypto. mid_op. Qed.

Lemma process_early_payload_mid n c0 c now p :
  mid n c0 c → is_drained (c_state c0) = false → post (process_early_payload crypto_turns c now p) (fun r => mid n c0 r.2).
Proof.
  intros Hm Hd. unfold process_early_payload. eapply post_bind; [apply post_true|]. intros _ _.
  eapply post_bind; [apply post_true|]. intros [l|e] _; [|done].
  eapply post_attempt; [by apply early_frames_mid|done|]. intros [b|] c1 Hc1; [|done]. cbv zeta.
  set (c2 := if b then _ else _). assert (Hc2 : mid n c0 c2) by (subst c2; destruct b; [mid_tac|done]). clearbody c2.
  eapply post_bind; [by apply write_crypto_mid|]. done.
Qed.

Lemma conn_err_mid {A} n c0 (m : M (result TransportError A * Connection)) :
  post m (fun r => mid n c0 r.2) → post (conn_err m) (fun r => mid n c0 r.2).
Proof. intros Hm. unfold conn_err. eapply post_bind; [exact Hm|]. by intros [[]]. Qed.

(** A new path has a generation no tracked packet has. *)
Lemma acct_new_path l v prev counter g prev' :
  acct l v prev counter → counter < g → prev' = Some v ∨ prev' = prev → acct l (g, InFlight_new) prev' g.
Proof.
  intros [H1 H2 H3 H4] Hg Hp.
  assert (Hz : Forall (fun p => path_generation p ≠ g) l) by (eapply Forall_impl; [exact H4|]; cbn; lia).
  split; cbn [fst snd].
  - split; cbn.
    + rewrite sum_of_zero; [lia|]. eapply Forall_impl; [exact Hz|]. intros p Hne. unfold bytes_of. by rewrite (proj2 (Z.eqb_neq _ _) Hne).
    + apply sum_of_zero. eapply Forall_impl; [exact Hz|]. intros p Hne. unfold eliciting_of. by rewrite (proj2 (Z.eqb_neq _ _) Hne).
  - lia.
  - intros w Hw. destruct Hp as [-> | ->]; [injection Hw as <-; split; [done|lia]|].
    destruct (H3 w Hw) as (Hc & _ & Hle). split; [done|lia].
  - eapply Forall_impl; [exact H4|]. cbn. lia.
Qed.

Record migrated c c' : Prop := {
  mg_view : view (c_path c') = ((c_path_counter c + 1) mod 2 ^ 64, InFlight_new);
  mg_prev : view ∘ snd <$> c_prev_path c' = Some (view (c_path c)) ∨ view ∘ snd <$> c_prev_path c' = view ∘ snd <$> c_prev_path c;
  mg_counter : c_path_counter c' = (c_path_counter c + 1) mod 2 ^ 64;
  mg_state : c_state c' = c_state c;
  mg_events : c_endpoint_events c' = c_endpoint_events c;
  mg_timers : timers_kept (c_timers c) (c_timers c');
  mg_side : conn_side c' = conn_side c;
  mg_spaces : c_spaces c' = c_spaces c
}.

Lemma migrate_spec c now remote : post (migrate c now remote) (migrated c).
Proof.
  unfold migrate. cbv zeta.
  eapply post_bind with (P := fun p => view p = ((c_path_counter c + 1) mod 2 ^ 64, InFlight_new)).
  { case_match; [unfold from_previous|unfold PathData_new]; by post_walk. }
  intros p Hp. eapply post_bind with (P := migrated c).
  - case_match; [apply post_ret; split; try done; by right|].
    eapply post_bind; [apply post_true|]. intros cid _. apply post_ret. split; try done. by left.
  - intros c1 [H1 H2 H3 H4 H5 H6 H7 H8]. apply post_ret. split; try done. intros Hok. destruct (H6 Hok) as [Hok' E].
    split; [by apply timer_set_ok|]. cbn. by rewrite timer_get_set_ne.
Qed.

Lemma migrate_mid n c0 c now remote : mid n c0 c → post (migrate c now remote) (mid (n + 1) c0).
Proof.
  intros [H1 H2 H3 H4 H5 H6 H7]. eapply post_weaken; [apply migrate_spec|]. intros c' [M1 M2 M3 M4 M5 M6 M7 M8].
  split; rewrite ?M4, ?M5, ?M7; [..|done|done|done|by etrans|done].
  - intros Hz Hn Hok. specialize (H2 Hz ltac:(lia)). specialize (H1 Hz ltac:(lia) Hok).
    rewrite Z.mod_small in M1, M3 by lia. destruct H1 as [Ha Hk].
    split; [|unfold keys_ok, packets_in in *; by rewrite M8]. unfold acct_ok, tracked, packets_in in *. rewrite M1, M3, M8.
    eapply acct_new_path; [exact Ha|lia|exact M2].
  - intros Hz Hn. specialize (H2 Hz ltac:(lia)). rewrite M3, Z.mod_small by lia. lia.
Qed.

Lemma after_payload_mid n c0 c now remote k s :
  mid n c0 c → is_drained (c_state c0) = false → post (after_payload c now remote k s) (mid (n + 1) c0).
Proof.
  intros Hm Hd. unfold after_payload. eapply post_bind; [apply post_true|]. intros [arm a] _. cbv zeta.
  eapply post_bind; [apply post_true|]. intros [b p] _. set (c1 := upd_pending _ _).
  assert (Hc1 : mid n c0 c1) by (subst c1; destruct arm; mid_tac). clearbody c1.
  set (c2 := match ps_close s with Some _ => _ | None => _ end).
  assert (Hc2 : mid n c0 c2).
  { subst c2. destruct (ps_close s) as [reason|]; [|done].
    assert (Hx : mid n c0 (set_c_error c1 (Some (ConnectionError_from_close reason)))) by mid_tac.
    assert (Hy : mid n c0 (set_c_state (set_c_error c1 (Some (ConnectionError_from_close reason))) Draining)).
    { apply mid_state; [done|by apply rank_le_closed|]. cbn. by rewrite (mid_drained _ _ _ Hc1). }
    clear Hx. revert Hy. generalize (set_c_state (set_c_error c1 (Some (ConnectionError_from_close reason))) Draining).
    intros c3 Hc3. mid_tac. }
  clearbody c2. destruct (_ && _); [|eapply mid_weaken; [exact Hc2|lia]].
  destruct (c_side c2) as [| sc]; [done|]. eapply post_bind; [apply post_true|]. intros _ _.
  eapply post_bind; [by apply migrate_mid|]. intros c3 Hc3. eapply post_bind; [mid_op|].
  intros c4 Hc4. apply post_ret. mid_tac.
Qed.

Lemma process_payload_mid n c0 c now remote k p :
  mid n c0 c → is_drained (c_state c0) = false → post (process_payload c now remote k p) (fun r => mid (n + 1) c0 r.2).
Proof.
  intros Hm Hd. unfold process_payload. eapply post_bind; [apply post_true|].
  intros [l|e] _; [|apply post_ret; eapply mid_weaken; [exact Hm|lia]].
  eapply post_attempt with (P := mid n c0).
  - apply (mid_post _ _ c); [done|]. apply payload_frames_inner, inner_refl.
  - intros e s Hs. eapply mid_weaken; [exact Hs|lia].
  - intros s c1 Hc1. eapply post_bind; [by apply after_payload_mid|]. done.
Qed.

Lemma establish_mid n c0 c : mid n c0 c → is_closed (c_state c) = false → mid n c0 (set_c_state (push_event c Connected) Established).
Proof.
  intros Hm Ho. apply mid_state.
  - mid_tac.
  - change (state_rank (c_state c) <= 1). by apply rank_open.
  - change (false = is_drained (c_state c)). destruct (c_state c); done.
Qed.

(** What a step that stays in the same phase does, from a connection that is not closed. *)
Definition open_mid (n : Z) c0 c : Prop := mid n c0 c ∧ is_closed (c_state c) = false.

Lemma open_inner n c0 c c' : open_mid n c0 c → inner [] c c' → open_mid n c0 c'.
Proof. intros [Hm Ho] Hi. split; [by apply (mid_inner _ _ c)|]. by rewrite (phase_closed _ _ (in_phase _ _ _ Hi)). Qed.

Lemma open_post {A} n c0 c (m : M (A * Connection)) :
  open_mid n c0 c → post m (fun r => inner [] c r.2) → post m (fun r => open_mid n c0 r.2).
Proof. intros Hc Hm. eapply post_weaken; [exact Hm|]. intros r. by apply open_inner. Qed.

Lemma open_post1 n c0 c (m : M Connection) : open_mid n c0 c → post m (inner [] c) → post m (open_mid n c0).
Proof. intros Hc Hm. eapply post_weaken; [exact Hm|]. intros r. by apply open_inner. Qed.

Lemma conn_err_open {A} n c0 (m : M (result TransportError A * Connection)) :
  post m (fun r => open_mid n c0 r.2) → post (conn_err m) (fun r => open_mid n c0 r.2).
Proof. intros Hm. unfold conn_err. eapply post_bind; [exact Hm|]. by intros [[]]. Qed.

(** The end of the handshake of a client. *)
Lemma client_complete_mid n c0 c now params (f : Connection → Connection) :
  open_mid n c0 c → (∀ c, inner [] c (f c)) →
  post (attempt (settle_0rtt c params) (fun _ c =>
          attempt (conn_err (handle_peer_params (f c) params)) (fun _ c =>
            c ← issue_first_cids c now; mret (Ok tt, set_c_state (push_event c Connected) Established))))
    (fun r : result ConnectionError unit * Connection => mid n c0 r.2).
Proof.
  intros Ho Hf. eapply post_attempt with (P := open_mid n c0); [|by intros ? ? []|].
  { apply (open_post _ _ c); [done|]. apply settle_0rtt_inner, inner_refl. }
  intros _ c1 Hc1. eapply post_attempt with (P := open_mid n c0); [|by intros ? ? []|].
  { apply conn_err_open. apply (open_post _ _ (f c1)); [by apply (open_inner _ _ c1)|]. eauto using inner_refl with post. }
  intros _ c2 Hc2. eapply post_bind; [apply (open_post1 n c0 c2); [done|]; eauto using inner_refl with post|].
  intros c3 [Hc3 Hc3']. by apply establish_mid.
Qed.

Lemma process_handshake_packet_mid n c0 c now cid p :
  mid n c0 c → is_drained (c_state c0) = false →
  post (process_handshake_packet crypto_turns c now cid p) (fun r => mid n c0 r.2).
Proof.
  intros Hm Hd. unfold process_handshake_packet. destruct (negb _); [done|]. cbv zeta.
  set (c1 := on_path_validated c). assert (Hc1 : mid n c0 c1) by (subst c1; mid_tac). clearbody c1.
  eapply post_attempt; [by apply conn_err_mid, process_early_payload_mid|done|]. intros _ c2 Hc2.
  destruct (is_closed (c_state c2)) eqn:Ho; [done|]. destruct (tls_is_handshaking _); [done|].
  destruct (conn_is_client c2).
  - destruct (peer_transport_parameters c2) as [params|e]; [|done].
    apply (client_complete_mid _ _ _ _ _ (fun c => match stateless_reset_token params with
      | Some token => push_endpoint_event c (EvResetToken (p_remote (c_path c)) token) | None => c end)); [done|].
    intros c3. pose proof (inner_refl c3). destruct (stateless_reset_token params); inner_tac.
  - set (c3 := upd_pending _ _).
    assert (Hc3 : open_mid n c0 c3).
    { apply (open_inner _ _ c2); [done|]. subst c3. pose proof (inner_refl c2). inner_tac. }
    clearbody c3. eapply post_bind; [apply (open_post1 n c0 c3); [done|]; eauto using inner_refl with post|].
    intros c4 Hc4. assert (Hc5 : open_mid n c0 (push_event c4 HandshakeConfirmed)).
    { apply (open_inner _ _ c4); [done|]. pose proof (inner_refl c4). inner_tac. }
    destruct Hc5. by apply establish_mid.
Qed.

Lemma process_initial_packet_mid n c0 c now cid p hs :
  mid n c0 c → is_drained (c_state c0) = false → c_state c = StHandshake hs →
  post (process_initial_packet crypto_turns c now cid p hs) (fun r => mid n c0 r.2).
Proof.
  intros Hm Hd Hst. unfold process_initial_packet. cbv zeta.
  assert (Hgo : ∀ c, mid n c0 c → post
    (attempt (conn_err (process_early_payload crypto_turns c now p)) (fun _ c' =>
      if conn_is_server c' && bool_decide (c_highest_space c = SpInitial) && negb (bool_decide (c_highest_space c' = SpInitial)) then
        match peer_transport_parameters c' with
        | Err e => mret (Err e, c')
        | Ok params =>
            attempt (conn_err (handle_peer_params c' params)) (fun _ c =>
              c ← issue_first_cids c now;
              c ← init_0rtt c;
              mret (Ok tt, c))
        end
      else mret (Ok tt, c'))) (fun r : result ConnectionError unit * Connection => mid n c0 r.2)).
  { intros c1 Hc1. eapply post_attempt; [by apply conn_err_mid, process_early_payload_mid|done|]. intros _ c2 Hc2.
    destruct (_ && _); [|done]. destruct (peer_transport_parameters c2) as [params|e]; [|done].
    eapply post_attempt with (P := mid n c0); [apply conn_err_mid; mid_op|done|]. intros _ c3 Hc3.
    eapply post_bind; [mid_op|]. intros c4 Hc4. eapply post_bind; [mid_op|]. done. }
  destruct (negb (rem_cid_set hs)).
  - eapply post_bind; [apply post_true|]. intros q _. apply Hgo. apply (mid_inner _ _ c); [done|]. pose proof (inner_refl c).
    apply inner_state; [inner_tac|]. change (phase (c_state c) = 0). by rewrite Hst.
  - destruct (negb _); [done|]. by apply Hgo.
Qed.

Lemma process_decrypted_packet_mid c now remote number p :
  post (process_decrypted_packet crypto_turns c now remote number p) (fun r => mid 1 c r.2).
Proof.
  pose proof (mid_refl c) as Hr. assert (Hm : mid 1 c c) by (by eapply mid_weaken).
  assert (Hpay : is_drained (c_state c) = false →
    post (n ← unwrap number; conn_err (process_payload c now remote n p)) (fun r => mid 1 c r.2)).
  { intros Hd. eapply post_bind; [apply post_true|]. intros k _. by apply conn_err_mid, (process_payload_mid 0). }
  unfold process_decrypted_packet. destruct (c_state c) as [hs| |reason| |] eqn:Hst; [| | |exact Hm..].
  - assert (Hd : is_drained (c_state c) = false) by (by rewrite Hst). destruct (pk_header p) as [?|[] ? ? ? ?|? ? ?|? ? ? ?|? ? ?].
    + by apply process_initial_packet_mid.
    + by apply process_handshake_packet_mid.
    + exact (Hpay eq_refl).
    + apply (mid_post _ _ c); [done|]. apply process_retry_inner; [apply inner_refl|done].
    + done.
    + destruct (1 <? _); [exact Hm|]. destruct (lists_version _ _ _); exact Hm.
  - destruct (bool_decide _); [exact (Hpay eq_refl)|]. destruct (has_frames _); [|exact Hm].
    apply conn_err_mid, process_early_payload_mid; [done|by rewrite Hst].
  - eapply post_bind; [apply post_true|]. intros [l|e] _; [|exact Hm]. apply post_ret. cbn [snd].
    destruct (has_close l); [|exact Hm]. apply mid_state; [done|by apply rank_le_closed|by rewrite Hst].
Qed.

Lemma inner_mid n c0 c1 c2 : inner [] c0 c1 → mid n c1 c2 → mid n c0 c2.
Proof.
  intros Hi [H1 H2 H3 H4 (l & Hl & Hln) H6 H7]. pose proof (inner_flight_ok _ _ Hi) as I1.
  destruct Hi as [_ _ I2 I3 (k & Hk & Hkn) I6 I7]. rewrite I2 in H1, H2. split.
  - intros ? ? ?. auto.
  - done.
  - unfold state_rank in *. by rewrite <- I3.
  - by rewrite H4, (phase_drained _ _ I3).
  - exists (k ++ l). split; [by rewrite Hl, Hk, app_assoc|]. by rewrite elem_of_app; intros [].
  - by etrans.
  - congruence.
Qed.

(** A packet that is dropped leaves the phase alone. *)
Definition result_ok c0 (r : option (result ConnectionError unit) * Connection) : Prop :=
  match r.1 with Some _ => mid 1 c0 r.2 | None => inner [] c0 r.2 end.

Lemma handle_decrypted_ok c0 c now remote ecn p number :
  inner [] c0 c → post (handle_decrypted crypto_turns c now remote ecn p number) (result_ok c0).
Proof.
  intros Hi. unfold handle_decrypted. cbv zeta. eapply post_bind with (P := fun r => inner [] c0 r.2).
  { destruct number; post_inner. }
  intros [dup c1] Hc1. cbn [snd] in Hc1.
  destruct dup; [done|]. destruct (_ && _); [done|].
  match goal with |- post (if ?b then _ else _) _ => destruct b end; [done|].
  eapply post_bind with (P := inner [] c0); [destruct (negb _); [eauto with post|done]|]. intros c2 Hc2.
  eapply post_bind; [apply process_decrypted_packet_mid|]. intros [r c3] Hc3. cbn [snd] in Hc3. by apply (inner_mid _ _ c2).
Qed.

Lemma inner_mid1 c0 c : inner [] c0 c → mid 1 c0 c.
Proof. intros Hi. apply (mid_inner _ _ c0); [|done]. eapply mid_weaken; [apply mid_refl|lia]. Qed.

Lemma authentication_failed_ok c0 c : inner [] c0 c → post (authentication_failed c) (result_ok c0).
Proof.
  intros Hi. unfold authentication_failed. eapply post_bind; [apply post_true|]. intros n _. cbv zeta.
  eapply post_bind; [apply post_true|]. intros k _. apply post_ret. unfold result_ok. cbn [fst snd].
  assert (inner [] c0 (set_c_authentication_failures c n)) by inner_tac. case_match; [by apply inner_mid1|done].
Qed.
End Mid.
