(* ===== verification/ConnLife.v ===== *)
(** The life cycle of a connection: what every operation its user calls keeps.

    [moved n c0 c] says that an operation that leads from [c0] to [c] keeps the accounting of packets in flight, never goes
    back from a closed connection to an open one, and leaves a closed connection with its close timer armed or reported as
    drained. *)
From stdpp Require Import gmap.
From S2P Require Import Prelude Coding RangeSet Ids Shared Frame FrameTheorems Float Packet PacketSafety TransportParams Token TokenCache.
From S2P Require Import Assembler Recv Send PendingStreams Retransmits CidQueue CidState Streams Dedup PendingAcks Mtud Timer.
From S2P Require Import AckFrequency Rtt Congestion Pacing Datagrams Spaces PacketCrypto Config Paths Connection ConnRecovery.
From S2P Require Import ConnReceive Post ConnInv ConnInvOps ConnInvReceive.
Open Scope Z_scope.

Section Life.
Context {C : Type} {HC : Controller C} {H : Type} {HH : Heap H} {T : Type} {HT : Session T} {R : Type} {HR : Rng R}
  {TS : Type} {HTS : TokenStore TS}.
Local Notation Connection := (Connection C H T R TS).
Implicit Types c : Connection.
Context (crypto_turns : nat).

(** * The life cycle *)

(** [h] are the events the connection has produced for the endpoint.  A closed connection waits for its close timer or has
    told the endpoint that it is drained. *)
Definition settled (h : list EndpointEvent) c : Prop :=
  timers_ok (c_timers c) ∧
  (is_closed (c_state c) = true → is_Some (timer_get (c_timers c) TClose) ∨ EvDrained ∈ h) ∧
  (is_drained (c_state c) = true → EvDrained ∈ h).

(** What an operation of a connection that its user calls does; [n] bounds the number of new paths. *)
Record moved (n : Z) c0 c : Prop := {
  mv_flight : 0 <= c_path_counter c0 → c_path_counter c0 + n < 2 ^ 64 → flight_ok c0 → flight_ok c;
  mv_counter : 0 <= c_path_counter c0 → c_path_counter c0 + n < 2 ^ 64 →
    c_path_counter c0 <= c_path_counter c <= c_path_counter c0 + n;
  mv_rank : state_rank (c_state c0) <= state_rank (c_state c);
  mv_life : ∃ l, c_endpoint_events c = c_endpoint_events c0 ++ l ∧ ∀ h, settled h c0 → settled (h ++ l) c;
  mv_side : conn_side c = conn_side c0
}.

Lemma moved_refl c : moved 0 c c.
Proof. split; try done; try lia. exists []. split; [by rewrite app_nil_r|]. intros h. by rewrite app_nil_r. Qed.

Lemma moved_trans n m c0 c1 c2 : 0 <= n → 0 <= m → moved n c0 c1 → moved m c1 c2 → moved (n + m) c0 c2.
Proof.
  intros Hn Hm [H1 H2 H3 (l & Hl & Hs) H5] [I1 I2 I3 (k & Hk & Ht) I5]. split.
  - intros Hz Hb Hok. specialize (H2 Hz ltac:(lia)). apply I1; [lia|lia|]. apply H1; [lia|lia|done].
  - intros Hz Hb. specialize (H2 Hz ltac:(lia)). specialize (I2 ltac:(lia) ltac:(lia)). lia.
  - lia.
  - exists (l ++ k). split; [by rewrite Hk, Hl, app_assoc|]. intros h Hh. rewrite app_assoc. auto.
  - congruence.
Qed.

Lemma moved_weaken n m c0 c : moved n c0 c → n <= m → moved m c0 c.
Proof.
  intros [H1 H2 H3 H4 H5] Hn. split; try done.
  - intros ? ?. apply H1; lia.
  - intros Hz Hm. specialize (H2 Hz). lia.
Qed.

(** An operation that leaves the phase alone. *)
Lemma inner_moved c0 c : inner [] c0 c → moved 0 c0 c.
Proof.
  intros Hi. pose proof (inner_flight_ok _ _ Hi) as H1. destruct Hi as [_ _ H2 H3 (l & Hl & Hn) H6 H7]. split; try lia.
  - auto.
  - unfold state_rank. by rewrite H3.
  - exists l. split; [done|]. intros h (Hok & Hc & Hd). destruct (H6 Hok) as [Hok' E]. unfold settled.
    rewrite (phase_closed _ _ H3), (phase_drained _ _ H3), E, !elem_of_app. naive_solver.
  - done.
Qed.

(** * Closing *)

(** What the accounting looks at. *)
Record same_acct c c' : Prop := {
  sa_view : view (c_path c') = view (c_path c);
  sa_prev : view ∘ snd <$> c_prev_path c' = view ∘ snd <$> c_prev_path c;
  sa_counter : c_path_counter c' = c_path_counter c;
  sa_outline id : outline (c_spaces c' id) = outline (c_spaces c id);
  sa_side : conn_side c' = conn_side c
}.

#[export] Instance same_acct_preorder : PreOrder same_acct.
Proof. split; [by intros c; split|]. intros c1 c2 c3 [] []. split; intros; congruence. Qed.

Lemma flight_ok_same c c' : same_acct c c' → flight_ok c → flight_ok c'.
Proof.
  intros [Hv Hp Hn Ho _] [Ha Hk].
  assert (Hs : ∀ id, sent_packets (c_spaces c' id) = sent_packets (c_spaces c id)) by (intros id; exact (f_equal fst (Ho id))).
  split; [unfold acct_ok, tracked, packets_in in *; by rewrite Hv, Hp, Hn, !Hs|].
  intros id. unfold packets_in. injection (Ho id) as -> ->. apply Hk.
Qed.

(** Timers, state, error and events do not matter to the accounting. *)
Lemma same_timers c t : same_acct c (set_c_timers c t).
Proof. by split. Qed.
Lemma same_state c v : same_acct c (set_c_state c v).
Proof. by split. Qed.
Lemma same_error c v : same_acct c (set_c_error c v).
Proof. by split. Qed.
Lemma same_close c v : same_acct c (set_c_close c v).
Proof. by split. Qed.
Lemma same_endpoint_event c e : same_acct c (push_endpoint_event c e).
Proof. by split. Qed.

Lemma close_common_timers c : ∃ t, close_common c = set_c_timers c t ∧ (timers_ok (c_timers c) → timers_ok t).
Proof.
  unfold close_common. generalize Timer_VALUES. intros l. revert c. induction l as [|x l IH]; intros c; cbn [fold_left].
  - exists (c_timers c). split; [by destruct c|done].
  - destruct (IH (stop_timer c x)) as (t & -> & Ht). exists t. split; [done|]. intros Hok. apply Ht. by apply timer_stop_ok.
Qed.

(** All timers stop and the close timer starts. *)
Lemma closing_timers c now :
  ∃ t, set_close_timer (close_common c) now = set_c_timers c t ∧
    (timers_ok (c_timers c) → timers_ok t ∧ is_Some (timer_get t TClose)).
Proof.
  destruct (close_common_timers c) as (t & -> & Ht). eexists. split; [reflexivity|]. intros Hok.
  split; [by apply timer_set_ok, Ht|]. rewrite timer_get_set by (by apply Ht). done.
Qed.

Lemma mid_moved n c0 c c' l :
  mid n c0 c → same_acct c c' → c_endpoint_events c' = c_endpoint_events c ++ l → state_rank (c_state c) <= state_rank (c_state c') →
  (∀ h, settled h c0 → settled (h ++ l) c') → moved n c0 c'.
Proof.
  intros [H1 H2 H3 H4 (k & Hk & Hn) H6 H7] Hs He Hr Hset. split.
  - intros ? ? ?. eapply flight_ok_same; [exact Hs|]. auto.
  - by rewrite (sa_counter _ _ Hs).
  - lia.
  - exists (k ++ l). split; [by rewrite He, Hk, app_assoc|]. intros h Hh. destruct (Hset h Hh) as (Hok & Ha & Hb).
    unfold settled. rewrite !elem_of_app in *. naive_solver.
  - by rewrite (sa_side _ _ Hs).
Qed.

Lemma error_state_closed e : post (error_state e) (fun s => is_closed s = true).
Proof. unfold error_state. by post_walk. Qed.

(** What follows the result of a packet: [e] is the state the packet leads to. *)
Lemma settle_moved n c0 c now remote :
  (∃ c1, mid n c0 c1 ∧ same_acct c1 c ∧ c_endpoint_events c = c_endpoint_events c1 ∧ c_timers c = c_timers c1 ∧
     state_rank (c_state c1) <= state_rank (c_state c)) →
  moved n c0 (
    let c := if negb (is_closed (c_state c0)) && is_closed (c_state c) then
               let c := close_common c in if negb (is_drained (c_state c)) then set_close_timer c now else c
             else c in
    let c := if negb (is_drained (c_state c0)) && is_drained (c_state c) then stop_timer (push_endpoint_event c EvDrained) TClose else c in
    match c_state c with
    | StClosed _ => set_c_close c (bool_decide (remote = p_remote (c_path c)))
    | _ => c
    end).
Proof.
  intros (c1 & Hm & Hs & He & Ht & Hr). cbv zeta.
  set (c2 := if negb (is_closed (c_state c0)) && _ then _ else c).
  assert (H2 : ∃ t, c2 = set_c_timers c t ∧ (timers_ok (c_timers c) → timers_ok t ∧
    (is_closed (c_state c0) = true → timer_get t TClose = timer_get (c_timers c) TClose) ∧
    (is_closed (c_state c0) = false → is_closed (c_state c) = true → is_drained (c_state c) = false → is_Some (timer_get t TClose)))).
  { subst c2. destruct (is_closed (c_state c0)); cbn [negb andb]; [exists (c_timers c); split; [by destruct c|done]|].
    destruct (is_closed (c_state c)); [|exists (c_timers c); split; [by destruct c|done]].
    destruct (close_common_timers c) as (t & Hc & Hok). rewrite Hc. cbn [c_state set_c_timers].
    destruct (is_drained (c_state c)); cbn [negb]; [exists t; split; [done|]; intros Hc'; split; [by apply Hok|done]|].
    rewrite <- Hc. destruct (closing_timers c now) as (t' & -> & Ht'). exists t'. split; [done|]. intros Hc'.
    destruct (Ht' Hc') as [? ?]. done. }
  clearbody c2. destruct H2 as (t & -> & H2). cbn [c_state set_c_timers].
  set (c3 := if negb (is_drained (c_state c0)) && _ then _ else _).
  set (l := if negb (is_drained (c_state c0)) && is_drained (c_state c) then [EvDrained] else []).
  assert (H3 : same_acct c c3 ∧ c_endpoint_events c3 = c_endpoint_events c ++ l ∧ c_state c3 = c_state c ∧
    c_timers c3 = if negb (is_drained (c_state c0)) && is_drained (c_state c) then timer_stop t TClose else t).
  { subst c3 l. destruct (_ && _); (split; [by split|]); [done|]. by rewrite app_nil_r. }
  clearbody c3. destruct H3 as (S3 & E3 & St3 & T3).
  set (c4 := match c_state c3 with StClosed _ => _ | _ => _ end).
  assert (H4 : same_acct c3 c4 ∧ c_endpoint_events c4 = c_endpoint_events c3 ∧ c_state c4 = c_state c3 ∧ c_timers c4 = c_timers c3).
  { subst c4. destruct (c_state c3) eqn:E; (split; [by split|done]). }
  clearbody c4. destruct H4 as (S4 & E4 & St4 & T4).
  apply (mid_moved _ _ c1 _ l); [done|by rewrite Hs, S3|by rewrite E4, E3, He|by rewrite St4, St3|].
  intros h Hh. unfold settled. rewrite T4, T3, St4, St3. clear c3 c4 S3 E3 St3 T3 S4 E4 St4 T4.
  destruct Hh as (Hok & Hcl & Hdr). destruct (mid_timers _ _ _ Hm Hok) as [Hok1 E1]. rewrite <- Ht in Hok1, E1.
  destruct (H2 Hok1) as (Hokt & Hsame & Hset). rewrite E1 in Hsame. subst l.
  assert (Hdc : is_drained (c_state c0) = true → is_closed (c_state c0) = true) by (by destruct (c_state c0)).
  destruct (is_drained (c_state c0)) eqn:D0; cbn [negb andb]; rewrite ?app_nil_r.
  - split; [done|]. split; [|auto]. intros _. right. auto.
  - destruct (is_drained (c_state c)) eqn:D; rewrite ?app_nil_r.
    + split; [by apply timer_stop_ok|]. rewrite elem_of_app, list_elem_of_singleton. auto.
    + split; [done|]. split; [|done]. intros Hc. destruct (is_closed (c_state c0)) eqn:C0.
      * rewrite Hsame by done. auto.
      * left. auto.
Qed.

Lemma after_packet_moved n c0 c now remote r :
  mid n c0 c → post (after_packet c now remote (is_closed (c_state c0)) (is_drained (c_state c0)) r) (moved n c0).
Proof.
  intros Hm. unfold after_packet. destruct r as [[]|e].
  - apply post_bind_ret, post_ret, settle_moved. by exists c.
  - rewrite post_bind_assoc. eapply post_bind; [apply error_state_closed|]. intros s Hs. apply post_bind_ret, post_ret, settle_moved.
    exists c. split; [done|]. split; [by split|]. split; [done|]. split; [done|]. by apply rank_le_closed.
Qed.

Lemma handle_packet_moved c now remote ecn p b : post (handle_packet crypto_turns c now remote ecn p b) (moved 1 c).
Proof.
  pose proof (inner_refl c) as Hr.
  assert (Hd : ∀ c', inner [] c c' → moved 1 c c').
  { intros c' Hi. eapply moved_weaken; [by apply inner_moved|lia]. }
  unfold handle_packet. destruct (_ && _); [by apply Hd|]. cbv zeta.
  eapply post_bind with (P := fun r => inner [] c r.2).
  { destruct p; post_inner. }
  intros [d c1] Hc1. cbn [snd] in Hc1. eapply post_bind with (P := result_ok c).
  { destruct b; [by apply inner_mid1|]. destruct d as [[pk k]|[e|]].
    - by apply handle_decrypted_ok.
    - by apply inner_mid1.
    - by apply authentication_failed_ok. }
  intros [[r|] c2] Hc2; [by apply after_packet_moved|by apply Hd].
Qed.

Lemma handle_decode_moved c now remote ecn d : post (handle_decode crypto_turns c now remote ecn d) (moved 1 c).
Proof.
  unfold handle_decode. eapply post_bind; [apply post_true|]. intros [u|] _; [apply handle_packet_moved|].
  eapply moved_weaken; [apply moved_refl|lia].
Qed.

(** A function that keeps the core. *)
Lemma moved_inner n c0 c c' : moved n c0 c → inner [] c c' → 0 <= n → moved n c0 c'.
Proof. intros Hm Hi Hn. rewrite <- (Z.add_0_r n). eapply moved_trans; [done|lia|exact Hm|by apply inner_moved]. Qed.

Lemma add_recvd_inner c n : inner [] c (add_recvd c n).
Proof. pose proof (inner_refl c). unfold add_recvd. inner_tac. Qed.

Lemma coalesced_moved now remote ecn fuel c data :
  post (handle_coalesced (fun c : Connection => state_cid_len (c_local_cid_state c)) c_version c_grease_quic_bit
          (fun c pd => handle_decode crypto_turns c now remote ecn pd) fuel c data)
    (fun r => match r with Some c' => moved (Z.of_nat fuel) c c' | None => True end).
Proof.
  revert c data. induction fuel as [|fuel IH]; intros c data; cbn [handle_coalesced]; (destruct data as [data|]; [|]); try exact I.
  1, 3: eapply moved_weaken; [apply moved_refl|lia].
  eapply post_bind; [apply post_true|]. intros [[pd rest]|e] _; [|eapply moved_weaken; [apply moved_refl|lia]].
  eapply post_bind; [apply handle_decode_moved|]. intros c1 Hc1. eapply post_weaken; [apply IH|]. intros [c2|]; [|done].
  intros Hc2. replace (Z.of_nat (S fuel)) with (1 + Z.of_nat fuel) by lia. eapply moved_trans; [lia|lia|exact Hc1|exact Hc2].
Qed.

Lemma conn_handle_coalesced_moved c now remote ecn data :
  post (conn_handle_coalesced crypto_turns c now remote ecn data) (moved (len data + 1) c).
Proof.
  unfold conn_handle_coalesced. cbv zeta. eapply post_bind; [apply coalesced_moved|]. intros [c'|] Hc'; [|done]. apply post_ret.
  change (moved (len data + 1) c c'). replace (len data + 1) with (0 + Z.of_nat (S (length data))) by (unfold len; lia).
  eapply moved_trans; [lia|lia| |exact Hc']. apply inner_moved, add_recvd_inner.
Qed.

(** The number of packets a datagram may carry, at most. *)
Definition datagram_packets (remaining : option (list Z)) : Z := match remaining with Some data => len data + 2 | None => 1 end.

Lemma handle_datagram_moved c now remote ecn d remaining :
  post (handle_datagram crypto_turns c now remote ecn d remaining) (moved (datagram_packets remaining) c).
Proof.
  assert (Hn : 1 <= datagram_packets remaining) by (destruct remaining; cbn; [pose proof (len_nonneg l)|]; lia).
  unfold handle_datagram. destruct (_ && _); [eapply moved_weaken; [apply moved_refl|lia]|].
  eapply post_bind; [apply post_true|]. intros blocked _. cbv zeta. eapply post_bind; [apply handle_decode_moved|]. intros c1 Hc1.
  eapply post_bind with (P := moved (datagram_packets remaining) c).
  - assert (Hc2 : moved 1 c (add_recvd c1 (Partial_len d))) by (eapply moved_inner; [exact Hc1|apply add_recvd_inner|lia]).
    destruct remaining as [data|]; [|exact Hc2]. eapply post_weaken; [apply conn_handle_coalesced_moved|]. intros c3 Hc3.
    cbn [datagram_packets]. replace (len data + 2) with (1 + (len data + 1)) by lia.
    eapply moved_trans; [lia| |exact Hc2|exact Hc3]. pose proof (len_nonneg data). lia.
  - intros c2 Hc2. destruct blocked; [|exact Hc2]. eapply post_weaken; [apply set_loss_detection_timer_inner, inner_refl|].
    intros c3 Hc3. eapply moved_inner; [exact Hc2|exact Hc3|lia].
Qed.

(** * Closing and timeouts *)

(** An operation that leaves the accounting alone. *)
Lemma same_acct_moved c c' l :
  same_acct c c' → c_endpoint_events c' = c_endpoint_events c ++ l → state_rank (c_state c) <= state_rank (c_state c') →
  (∀ h, settled h c → settled (h ++ l) c') → moved 0 c c'.
Proof. intros. by eapply (mid_moved 0 c c c'); [apply mid_refl|..]. Qed.

Lemma kill_moved c reason : moved 0 c (kill c reason).
Proof.
  unfold kill. destruct (close_common_timers c) as (t & -> & Ht). cbv zeta. apply (same_acct_moved _ _ [EvDrained]).
  - by split.
  - done.
  - by apply rank_le_closed.
  - intros h (Hok & _). split; [by apply Ht|]. rewrite elem_of_app, list_elem_of_singleton. auto.
Qed.

Lemma close_inner_moved c now reason : moved 0 c (close_inner c now reason).
Proof.
  unfold close_inner. destruct (is_closed (c_state c)); [apply moved_refl|]. cbv zeta.
  destruct (closing_timers c now) as (t & -> & Ht). apply (same_acct_moved _ _ []).
  - by split.
  - by rewrite app_nil_r.
  - by apply rank_le_closed.
  - intros h (Hok & _). destruct (Ht Hok) as [Hok' Hc]. rewrite app_nil_r. split; [done|]. split; [|done]. intros _. by left.
Qed.

(** A path that could not be validated is given up for the former one. *)
Lemma revert_moved c cid prev : c_prev_path c = Some (cid, prev) → moved 0 c (set_c_prev_path (set_c_path c prev) None).
Proof.
  intros Hp. split; try done; [|cbn; lia|].
  - intros _ _ [[H1 H2 H3 H4] Hk]. rewrite Hp in H3. destruct (H3 _ eq_refl) as (Hc & _ & Hle). split; [by split|done].
  - exists []. split; [by rewrite app_nil_r|]. intros h. by rewrite app_nil_r.
Qed.

Lemma on_timeout_moved now c t : post (on_timeout now c t) (moved 0 c).
Proof.
  pose proof (inner_refl c) as Hrefl. assert (Hin : ∀ c1, inner [] c c1 → moved 0 c c1) by (intros; by apply inner_moved).
  unfold on_timeout. destruct (negb _); [apply moved_refl|]. cbv zeta.
  assert (Hstop : t ≠ TClose → inner [] c (stop_timer c t)).
  { intros Ht. apply (inner_same _ _ c); [by apply core_stop_timer|apply inner_refl]. }
  destruct t; try specialize (Hstop ltac:(discriminate)).
  - eapply post_weaken; [by apply on_loss_detection_timeout_inner|done].
  - apply post_ret. eapply (moved_trans 0 0); [lia|lia|by apply Hin|apply kill_moved].
  - apply post_ret. apply (same_acct_moved _ _ [EvDrained]).
    + by split.
    + done.
    + by apply rank_le_closed.
    + intros h (Hok & _). split; [by apply timer_stop_ok|]. rewrite elem_of_app, list_elem_of_singleton. auto.
  - apply post_ret, Hin. inner_tac.
  - apply post_ret. set (c1 := stop_timer c TPathValidation) in *. clearbody c1.
    assert (Hm : moved 0 c (match c_prev_path c1 with Some (_, prev) => set_c_prev_path (set_c_path c1 prev) None | None => c1 end)).
    { destruct (c_prev_path c1) as [[cid prev]|] eqn:Hp; [|by apply Hin].
      eapply (moved_trans 0 0); [lia|lia|by apply Hin|by eapply revert_moved]. }
    revert Hm. generalize (match c_prev_path c1 with Some (_, prev) => set_c_prev_path (set_c_path c1 prev) None | None => c1 end).
    intros c2 Hm. eapply moved_inner; [exact Hm| |lia]. pose proof (inner_refl c2). inner_tac.
  - apply post_ret, Hin. inner_tac.
  - by apply post_ret, Hin.
  - set (c1 := stop_timer c TPushNewCid) in *. clearbody c1. eapply post_bind; [apply post_true|]. intros [n s] _.
    apply post_ret, Hin. inner_tac.
  - apply post_ret, Hin. inner_tac.
Qed.

Lemma handle_timeout_moved c now : post (handle_timeout c now) (moved 0 c).
Proof.
  apply post_mfold; [|apply moved_refl]. intros c1 t Hc1. eapply post_weaken; [apply on_timeout_moved|]. intros c2 Hc2.
  by apply (moved_trans 0 0 _ c1).
Qed.
End Life.
