(* ===== verification/ConnLifeTransmit.v ===== *)
(** Transmission keeps the accounting of packets in flight and the life cycle: the lemmas of [inner] and [moved] for
    [PacketBuilder] and [ConnTransmit].

    A packet enters the accounting when it is finished, under a number no tracked packet of its space has. *)
From stdpp Require Import gmap.
From S2P Require Import Prelude Coding RangeSet Ids Shared Frame FrameTheorems Float Packet PacketSafety TransportParams Token TokenCache.
From S2P Require Import Assembler Recv Send PendingStreams Retransmits CidQueue CidState Streams Dedup PendingAcks Mtud Timer.
From S2P Require Import AckFrequency Rtt Congestion Pacing Datagrams Spaces PacketCrypto Config Paths Connection ConnRecovery.
From S2P Require Import ConnReceive PacketBuilder ConnTransmit Post ConnInv ConnInvOps ConnInvReceive ConnLife.
Open Scope Z_scope.

Section Fill.
Context {C : Type} {HC : Controller C} {H : Type} {HH : Heap H} {T : Type} {HT : Session T} {R : Type} {HR : Rng R}
  {TS : Type} {HTS : TokenStore TS}.
Local Notation Connection := (Connection C H T R TS).
Implicit Types c : Connection.
Context (pick : gset StreamId → option StreamId).

(** * Frames *)

Lemma with_pending_inner ex c0 c id p : inner ex c0 c → inner ex c0 (with_pending c id p).
Proof. intros Hi. unfold with_pending. inner_tac. Qed.

Definition fill_ok ex c0 (f : Fill (C := C) (H := H) (T := T) (R := R) (TS := TS)) : Prop := inner ex c0 (fl_conn f).

Lemma fl_write_ok ex c0 f c s (m : M (list Z)) : inner ex c0 c → post (fl_write f c s m) (fill_ok ex c0).
Proof. intros Hi. unfold fl_write. post_walk. exact Hi. Qed.
End Fill.

Ltac inner_op ::=
  lazymatch goal with
  | |- inner _ _ (reset_idle_timeout _ _ _) => apply reset_idle_timeout_inner
  | |- inner _ _ (reset_keep_alive _ _) => apply reset_keep_alive_inner
  | |- inner _ _ (reset_cid_retirement _) => apply reset_cid_retirement_inner
  | |- inner _ _ (ping _) => apply ping_inner
  | |- inner _ _ (immediate_ack _) => apply immediate_ack_inner
  | |- inner _ _ (set_reset_token _ _) => apply set_reset_token_inner
  | |- inner _ _ (on_path_validated _) => apply on_path_validated_inner
  | |- inner _ _ (drain_lost_packets _ _ _) => apply drain_lost_packets_inner
  | |- inner _ _ (take_rtt_sample _ _ _ _) => apply take_rtt_sample_inner
  | |- inner _ _ (queue_max_data _ _) => apply queue_max_data_inner
  | |- inner _ _ (on_path_response _ _ _) => apply on_path_response_inner
  | |- inner _ _ (snd (on_stop_sending _ _ _)) => apply on_stop_sending_inner
  | |- inner _ _ (snd (on_ack_frequency _ _)) => apply on_ack_frequency_inner
  | |- inner _ _ (with_pending _ _ _) => apply with_pending_inner
  end.
#[export] Hint Resolve fl_write_ok : post.

(** A frame is written or left out. *)
Ltac fill_start := let Hf := fresh "Hf" in intros Hf; match type of Hf with fill_ok _ _ ?f => destruct f as [c sent buf] end;
  unfold fill_ok in Hf; cbn [fl_conn] in Hf.
Ltac fill_tac := unfold space_pending; cbn [fl_conn fl_sent fl_buf]; post_walk;
  try (unfold fill_ok; cbn [fl_conn snd]; solve [inner_tac]).

#[export] Hint Extern 5 (fill_ok _ _ (mkFill _ _ _)) => unfold fill_ok; cbn [fl_conn]; solve [inner_tac] : post.

Section Fills.
Context {C : Type} {HC : Controller C} {H : Type} {HH : Heap H} {T : Type} {HT : Session T} {R : Type} {HR : Rng R}
  {TS : Type} {HTS : TokenStore TS}.
Local Notation Connection := (Connection C H T R TS).
Local Notation Fill := (Fill (C := C) (H := H) (T := T) (R := R) (TS := TS)).
Implicit Types (c : Connection) (f : Fill).
Context (pick : gset StreamId → option StreamId).

Lemma fill_handshake_done_ok ex c0 id b f : fill_ok ex c0 f → post (fill_handshake_done id b f) (fill_ok ex c0).
Proof. fill_start. unfold fill_handshake_done. fill_tac. Qed.
Lemma fill_ping_ok ex c0 id f : fill_ok ex c0 f → post (fill_ping id f) (fill_ok ex c0).
Proof. fill_start. unfold fill_ping. fill_tac. Qed.
Lemma fill_immediate_ack_ok ex c0 id f : fill_ok ex c0 f → post (fill_immediate_ack id f) (fill_ok ex c0).
Proof. fill_start. unfold fill_immediate_ack. fill_tac. Qed.
Lemma fill_acks_ok ex c0 now id f : fill_ok ex c0 f → post (fill_acks now id f) (fill_ok ex c0).
Proof. fill_start. unfold fill_acks. fill_tac. Qed.
Lemma fill_ack_frequency_ok ex c0 id pn f : fill_ok ex c0 f → post (fill_ack_frequency id pn f) (fill_ok ex c0).
Proof. fill_start. unfold fill_ack_frequency. fill_tac. Qed.
Lemma fill_path_challenge_ok ex c0 id n f : fill_ok ex c0 f → post (fill_path_challenge id n f) (fill_ok ex c0).
Proof. fill_start. unfold fill_path_challenge. fill_tac. Qed.
Lemma fill_path_response_ok ex c0 id n f : fill_ok ex c0 f → post (fill_path_response id n f) (fill_ok ex c0).
Proof. fill_start. unfold fill_path_response. fill_tac. Qed.

Lemma fill_crypto_ok ex c0 fuel id n f : fill_ok ex c0 f → post (fill_crypto fuel id n f) (fill_ok ex c0).
Proof.
  revert f. induction fuel as [|fuel IH]; intros f; [done|]. cbn [fill_crypto]. fill_start.
  fill_tac.
Qed.

Lemma fill_control_ok ex c0 id n f : fill_ok ex c0 f → post (fill_control pick id n f) (fill_ok ex c0).
Proof. fill_start. unfold fill_control. fill_tac. Qed.

Lemma fill_new_cids_ok ex c0 q id n f : fill_ok ex c0 f → post (fill_new_cids q id n f) (fill_ok ex c0).
Proof. revert f. induction q as [|x q IH]; intros f; cbn [fill_new_cids]; fill_start; fill_tac. Qed.

Lemma fill_retire_cids_ok ex c0 q id n f : fill_ok ex c0 f → post (fill_retire_cids q id n f) (fill_ok ex c0).
Proof. revert f. induction q as [|x q IH]; intros f; cbn [fill_retire_cids]; fill_start; fill_tac. Qed.

Lemma fill_datagrams_loop_ok ex c0 fuel n b f :
  fill_ok ex c0 f → post (fill_datagrams_loop fuel n b f) (fun r => fill_ok ex c0 r.2).
Proof.
  revert b f. induction fuel as [|fuel IH]; intros b f; cbn [fill_datagrams_loop]; fill_start; fill_tac.
Qed.

Lemma fill_datagrams_ok ex c0 id n f : fill_ok ex c0 f → post (fill_datagrams id n f) (fill_ok ex c0).
Proof.
  intros Hf. unfold fill_datagrams. eapply post_bind with (P := fun r => fill_ok ex c0 r.2).
  { case_match; [by apply fill_datagrams_loop_ok|done]. }
  intros [b f1]. cbn [snd]. clear Hf f. fill_start. fill_tac.
Qed.

Lemma fill_new_tokens_ok ex c0 q t id n f : fill_ok ex c0 f → post (fill_new_tokens q t id n f) (fill_ok ex c0).
Proof.
  revert f. induction q as [|x q IH]; intros f; cbn [fill_new_tokens]; fill_start; fill_tac.
Qed.

Lemma fill_streams_ok ex c0 id n f : fill_ok ex c0 f → post (fill_streams id n f) (fill_ok ex c0).
Proof. fill_start. unfold fill_streams. fill_tac. Qed.
#[local] Hint Resolve fill_handshake_done_ok fill_ping_ok fill_immediate_ack_ok fill_acks_ok fill_ack_frequency_ok
  fill_path_challenge_ok fill_path_response_ok fill_crypto_ok fill_control_ok fill_new_cids_ok fill_retire_cids_ok
  fill_datagrams_ok fill_new_tokens_ok fill_streams_ok : post.

Lemma populate_packet_ok ex c0 c now t id buf n pn :
  inner ex c0 c → post (populate_packet pick c now t id buf n pn) (fill_ok ex c0).
Proof.
  intros Hi. unfold populate_packet. cbv zeta.
  set (f := mkFill _ SentFrames_default buf). assert (Hf : fill_ok ex c0 f) by (subst f; unfold fill_ok; cbn [fl_conn]; inner_tac).
  clearbody f. post_walk.
Qed.
End Fills.
#[export] Hint Resolve populate_packet_ok : post.

(** * A packet enters the accounting *)

Section Track.
Context {C : Type} {HC : Controller C} {H : Type} {HH : Heap H} {T : Type} {HT : Session T} {R : Type} {HR : Rng R}
  {TS : Type} {HTS : TokenStore TS}.
Local Notation Connection := (Connection C H T R TS).
Implicit Types c : Connection.

Lemma sent_spec (s : PacketSpace Keys H) n p :
  below n (sent_packets s) →
  post (sent s n p) (fun r => ∃ m, outline r.2 = (m ++ [(n, p)], next_packet_number s) ∧
    match r.1 with
    | Some forgotten => ack_eliciting forgotten = false ∧ ∃ k, sent_packets s ≡ₚ (k, forgotten) :: m
    | None => sent_packets s = m
    end).
Proof.
  intros Hb. unfold sent.
  eapply post_bind with (P := fun r => below n (sent_packets r.2) ∧ next_packet_number r.2 = next_packet_number s ∧
    match r.1 with
    | Some forgotten => ack_eliciting forgotten = false ∧ ∃ k, sent_packets s ≡ₚ (k, forgotten) :: sent_packets r.2
    | None => sent_packets s = sent_packets r.2
    end).
  - destruct (ack_eliciting p); [done|]. destruct (_ <? _); [|by post_walk].
    destruct (OrdMap.first_above _ _) as [[k q]|]; [|done].
    destruct (omap_remove_spec k (sent_packets s)) as [[-> _]|(l & v & r & Hs & _ & ->)]; [done|].
    destruct (ack_eliciting v) eqn:Hv; [done|]. apply post_ret. cbn.
    assert (Hp : sent_packets s ≡ₚ (k, v) :: l ++ r) by (rewrite Hs; by rewrite Permutation_middle).
    split; [|eauto]. unfold below in *. rewrite Hp in Hb. by apply Forall_cons_1 in Hb as [_ ?].
  - intros [fg s1] (Hb1 & Hn & Hm). cbn [fst snd] in *. apply post_ret. exists (sent_packets s1). split; [|done].
    unfold outline. cbn. by rewrite omap_insert_last, Hn.
Qed.

(** The counters with a packet that has just been sent. *)
Lemma covers_insert l p v :
  path_generation p = v.1 → covers l v → post (in_flight_insert v.2 p) (fun f => covers (p :: l) (v.1, f)).
Proof.
  intros Hg [Hb He]. unfold in_flight_insert. apply post_iff. intros f Hf. inv_M.
  apply uadd_inv in Ha as [-> _]. apply uadd_inv in Ha0 as [-> _].
  split; cbn [sum_of fst snd if_bytes if_ack_eliciting]; [unfold bytes_of at 1|unfold eliciting_of at 1]; rewrite Hg, Z.eqb_refl; lia.
Qed.

(** A packet that is not ack-eliciting is forgotten. *)
Lemma covers_forget l p w : ack_eliciting p = false → 0 <= size p → covers (p :: l) w → covers l w.
Proof.
  intros Hp Hs [Hb He]. cbn [sum_of] in *. unfold bytes_of at 1 in Hb. unfold eliciting_of at 1 in He. rewrite Hp in He.
  split; [|]; destruct (path_generation p =? w.1); cbn in *; lia.
Qed.

Lemma acct_forget l p prev counter (pd : PathData C) :
  acct (p :: l) (view pd) prev counter → ack_eliciting p = false →
  post (Paths.remove_in_flight pd p) (fun r => acct l (view r.2) prev counter).
Proof.
  intros [H1 H2 H3 H4] Hp. apply Forall_cons_1 in H4 as [[Hs Hg] H4].
  assert (H3' : ∀ w, prev = Some w → covers l w ∧ w.1 ≠ (view pd).1 ∧ w.1 <= counter).
  { intros w Hw. destruct (H3 w Hw) as (Hc & Hn). split; [by apply (covers_forget _ p)|done]. }
  unfold Paths.remove_in_flight. destruct (Z.eqb_spec (path_generation p) (p_generation pd)) as [Hg'|Hg']; cbn [negb].
  - destruct (covers_remove l p (view pd) Hg' H1) as (f & Hf & Hc).
    { eapply Forall_impl; [exact H4|]. by intros ? []. }
    cbn [view snd] in Hf. rewrite Hf. apply post_bind_ret, post_ret. by split.
  - apply post_ret. split; try done. by apply covers_other in H1.
Qed.

Lemma acct_insert l p prev counter (pd : PathData C) :
  acct l (view pd) prev counter → path_generation p = p_generation pd → 0 <= size p →
  post (in_flight_insert (p_in_flight pd) p) (fun f => acct (p :: l) (view (set_in_flight pd f)) prev counter).
Proof.
  intros [H1 H2 H3 H4] Hg Hs. eapply post_weaken; [by apply (covers_insert l p (view pd))|]. intros f Hf. split; try done.
  - intros w Hw. destruct (H3 w Hw) as (Hc & Hn & Hle). split; [|done]. apply covers_other; [|done]. cbn in *. congruence.
  - constructor; [|done]. split; [done|]. cbn in H2. lia.
Qed.

Lemma path_sent_spec (pd : PathData C) n p (s : PacketSpace Keys H) rest prev counter :
  below n (sent_packets s) → path_generation p = p_generation pd → 0 <= size p →
  acct (map snd (sent_packets s) ++ rest) (view pd) prev counter →
  post (path_sent pd n p s) (fun r => acct (map snd (sent_packets r.2) ++ rest) (view r.1) prev counter ∧
    next_packet_number r.2 = next_packet_number s ∧ ∀ b, n < b → below b (sent_packets s) → below b (sent_packets r.2)).
Proof.
  intros Hb Hg Hs Ha. unfold path_sent. eapply post_bind; [by apply acct_insert|]. intros f Hf. cbv beta in Hf. cbv zeta.
  set (pd1 := match p_first_packet _ with None => _ | Some _ => _ end).
  assert (Hv : view pd1 = view (set_in_flight pd f)) by (subst pd1; by case_match). clearbody pd1. rewrite <- Hv in Hf.
  eapply post_bind; [by apply sent_spec|]. intros [fg s1] (m & Ho & Hm). cbn [fst snd] in *. injection Ho as Ho Hn.
  assert (Hm1 : map snd (sent_packets s1) ++ rest ≡ₚ p :: map snd m ++ rest).
  { rewrite Ho, map_app. cbn [map snd]. solve_Permutation. }
  assert (Hbelow : ∀ b, n < b → below b m → below b (sent_packets s1)).
  { intros b Hlt Hbm. rewrite Ho. apply Forall_app. split; [done|]. by apply Forall_singleton. }
  destruct fg as [q|].
  - destruct Hm as (Hq & k & Hk). rewrite post_bind_assoc. eapply post_bind.
    + apply (acct_forget (p :: map snd m ++ rest) q); [|exact Hq].
      eapply acct_perm; [|reflexivity|reflexivity|reflexivity|exact Hf]. rewrite Hk. cbn. apply Permutation_swap.
    + intros [b pd2] Hp2. cbn [snd] in Hp2. apply post_bind_ret, post_ret. cbn [fst snd]. rewrite Hm1. split; [done|]. split; [done|].
      intros b' Hlt Hb'. apply Hbelow; [done|]. unfold below in *. rewrite Hk in Hb'. by apply Forall_cons_1 in Hb' as [_ ?].
  - apply post_bind_ret, post_ret. cbn [fst snd]. rewrite Hm1. rewrite <- Hm in *. done.
Qed.

(** The packets of the other spaces. *)
Definition others c (id : SpaceId) : list SentPacket :=
  match id with
  | SpInitial => map snd (packets_in c SpHandshake) ++ map snd (packets_in c SpData)
  | SpHandshake => map snd (packets_in c SpInitial) ++ map snd (packets_in c SpData)
  | SpData => map snd (packets_in c SpInitial) ++ map snd (packets_in c SpHandshake)
  end.

Lemma tracked_others c id : tracked c ≡ₚ map snd (packets_in c id) ++ others c id.
Proof. unfold tracked. destruct id; cbn [others]; [done|solve_Permutation..]. Qed.

Lemma others_upd c id f : others (upd_space c id f) id = others c id.
Proof. destruct id; cbn [others]; by rewrite !packets_upd_space. Qed.

(** A number that no packet of its space has yet. *)
Definition fresh c (id : SpaceId) (n : Z) : Prop := below n (packets_in c id) ∧ n < next_packet_number (c_spaces c id).

Lemma fresh_inner c c' id n : inner [] c c' → fresh c id n → fresh c' id n.
Proof. intros Hi [Hb Hn]. destruct (in_numbers _ _ _ Hi id) as [E Hk]. split; [by eapply below_subset|lia]. Qed.

(** The invariant together with a bound on the number of paths. *)
Definition sound c : Prop := 0 <= c_path_counter c < 2 ^ 64 ∧ flight_ok c.

Lemma moved_sound c0 c : moved 0 c0 c → sound c0 → sound c.
Proof.
  intros [H1 H2 _ _ _] [Hc Hf]. specialize (H2 ltac:(lia) ltac:(lia)). split; [lia|]. apply H1; [lia|lia|done].
Qed.

(** A change of the counters only. *)
Lemma moved_with c0 c c' :
  moved 0 c0 c → (sound c0 → flight_ok c → flight_ok c') → c_path_counter c' = c_path_counter c → c_state c' = c_state c →
  c_endpoint_events c' = c_endpoint_events c → c_timers c' = c_timers c → conn_side c' = conn_side c → moved 0 c0 c'.
Proof.
  intros [H1 H2 H3 (l & Hl & Hs) H5] Hf Hn Hst He Ht Hsd. split; rewrite ?Hn, ?Hst, ?He, ?Hsd; try done.
  - intros Hz Hlt H0. apply Hf; [split; [lia|done]|auto].
  - exists l. split; [done|]. intros h Hh. unfold settled. rewrite Ht, Hst. by apply Hs.
Qed.

Lemma path_sent_moved c0 c id n p :
  moved 0 c0 c → (sound c0 → fresh c id n) → path_generation p = p_generation (c_path c) → 0 <= size p →
  post (path_sent (c_path c) n p (c_spaces c id)) (fun r => moved 0 c0 (upd_space (set_c_path c r.1) id (fun _ => r.2))).
Proof.
  intros Hm Hfr Hg Hs. apply post_iff. intros [pd s] Hr. cbn [fst snd]. apply (moved_with _ c); try done.
  intros H0 [Ha Hk]. destruct (Hfr H0) as [Hb Hn].
  unfold acct_ok in Ha. cbn [app] in Ha. rewrite (tracked_others c id) in Ha.
  pose proof (post_elim _ _ _ (path_sent_spec _ _ _ _ _ _ _ Hb Hg Hs Ha) Hr) as (Ha' & Hn' & Hb'). cbn [fst snd] in *.
  split.
  - unfold acct_ok. cbn [app]. rewrite (tracked_others _ id), others_upd, packets_upd_space, decide_True by done. exact Ha'.
  - intros id'. cbn [upd_space c_spaces set_c_spaces]. rewrite packets_upd_space. unfold set_space.
    destruct (decide (id' = id)) as [->|Hne]; [rewrite bool_decide_true by done|rewrite bool_decide_false by done; apply Hk].
    rewrite Hn'. apply Hb'; [done|apply Hk].
Qed.

Lemma moved_post {A} c0 c (m : M (A * Connection)) :
  moved 0 c0 c → post m (fun r => inner [] c r.2) → post m (fun r => moved 0 c0 r.2).
Proof. intros Hc Hm. eapply post_weaken; [exact Hm|]. intros r Hr. by apply (moved_inner 0 _ c). Qed.

Lemma moved_post1 c0 c (m : M Connection) : moved 0 c0 c → post m (inner [] c) → post m (moved 0 c0).
Proof. intros Hc Hm. eapply post_weaken; [exact Hm|]. intros r Hr. by apply (moved_inner 0 _ c). Qed.

Lemma moved_trans0 c0 c1 c2 : moved 0 c0 c1 → moved 0 c1 c2 → moved 0 c0 c2.
Proof. by apply (moved_trans 0 0). Qed.

Lemma track_sent_moved c0 b now c sent size :
  moved 0 c0 c → (sound c0 → fresh c (pb_space b) (pb_exact_number b)) → 0 <= size →
  post (track_sent b now c sent size) (moved 0 c0).
Proof.
  intros Hm Hf Hs. unfold track_sent. cbv zeta. eapply post_bind; [by apply (path_sent_moved c0)|]. intros [pd s] Hm1. cbn [fst snd] in Hm1.
  set (c1 := upd_space _ _ _) in *. clearbody c1. eapply post_weaken with (P := inner [] c1).
  - pose proof (inner_refl c1). post_inner.
  - intros c2 Hc2. by apply (moved_inner 0 _ c1).
Qed.

Lemma finish_and_track_moved c0 b now c sent buf :
  moved 0 c0 c → (sound c0 → fresh c (pb_space b) (pb_exact_number b)) →
  post (finish_and_track b now c sent buf) (fun r => moved 0 c0 r.1).
Proof.
  intros Hm Hf. unfold finish_and_track. eapply post_bind; [apply post_true|]. intros [[n pad] buf1] _.
  destruct sent as [sent|]; [|done]. cbv zeta. eapply post_bind; [apply (track_sent_moved c0); [done|done|]|done].
  destruct (_ || _); [|lia]. apply Z.mod_pos_bound. lia.
Qed.

(** * New packets *)

Lemma get_tx_number_spec (s : PacketSpace Keys H) :
  post (get_tx_number s) (fun r => r.1 = next_packet_number s ∧ outline r.2 = (sent_packets s, next_packet_number s + 1)).
Proof.
  apply post_iff. intros [n s'] Hr. unfold get_tx_number in Hr. inv_M. apply uadd_inv in Ha0 as [-> _]. done.
Qed.

Lemma allocate_spec f rng (s : PacketSpace Keys H) :
  post (allocate f rng s) (fun r => next_packet_number s <= r.1.1 ∧ outline r.2 = (sent_packets s, r.1.1 + 1)).
Proof.
  unfold allocate. eapply post_bind; [apply get_tx_number_spec|]. intros [n s1] [Hx Ho]. cbn [fst snd] in *. subst n.
  destruct (negb _); [apply post_ret; cbn; split; [lia|done]|]. eapply post_bind; [apply post_true|]. intros next _.
  eapply post_bind; [apply get_tx_number_spec|]. intros [n s2] [Hx Ho2]. injection Ho as Ho Hn. cbn [fst snd] in *. subst n.
  apply post_ret. cbn [fst snd]. rewrite Ho2, Ho, Hn. split; [lia|done].
Qed.

(** The numbers of a space advance. *)
Lemma advance_moved c id s n :
  next_packet_number (c_spaces c id) <= n → outline s = (packets_in c id, n + 1) → moved 0 c (upd_space c id (fun _ => s)).
Proof.
  intros Hn Ho. injection Ho as Ho Hs. split; try done; [|cbn; lia|].
  - intros _ _ [Ha Hk]. split.
    + unfold acct_ok in *. cbn [app] in *. rewrite (tracked_others _ id), others_upd, packets_upd_space, decide_True by done.
      rewrite Ho, <- tracked_others. exact Ha.
    + intros id'. cbn [upd_space c_spaces set_c_spaces]. rewrite packets_upd_space. unfold set_space.
      destruct (decide (id' = id)) as [->|Hne]; [rewrite bool_decide_true by done|rewrite bool_decide_false by done; apply Hk].
      rewrite Hs, Ho. eapply Forall_impl; [apply Hk|]. cbn. lia.
  - exists []. split; [by rewrite app_nil_r|]. intros h. by rewrite app_nil_r.
Qed.

Lemma advance_fresh c id s n :
  next_packet_number (c_spaces c id) <= n → outline s = (packets_in c id, n + 1) → keys_ok c → fresh (upd_space c id (fun _ => s)) id n.
Proof.
  intros Hn Ho Hk. injection Ho as Ho Hs. split.
  - rewrite packets_upd_space, decide_True, Ho by done. eapply Forall_impl; [apply Hk|]. cbn. lia.
  - cbn [upd_space c_spaces set_c_spaces]. unfold set_space. rewrite bool_decide_true, Hs by done. lia.
Qed.

Lemma next_number_moved c id :
  post (next_number c id) (fun r => moved 0 c r.2 ∧ (sound c → fresh r.2 id r.1)).
Proof.
  unfold next_number. cbv zeta.
  assert (Hget : post ('(n, s) ← get_tx_number (c_spaces c id); mret (n, upd_space c id (fun _ => s)))
    (fun r => moved 0 c r.2 ∧ (sound c → fresh r.2 id r.1))).
  { eapply post_bind; [apply get_tx_number_spec|]. intros [n s] [Hx Ho]. cbn [fst snd] in *. subst n. apply post_ret. cbn [fst snd].
    split; [by eapply advance_moved|]. intros [_ [_ Hk]]. by apply advance_fresh. }
  destruct id; [exact Hget|exact Hget|]. clear Hget. eapply post_bind; [apply allocate_spec|]. intros [[n f] s] [Hn Ho].
  cbn [fst snd] in *. apply post_ret. cbn [fst snd].
  set (c1 := set_c_packet_number_filter _ f).
  assert (Hi : inner [] c c1) by (subst c1; pose proof (inner_refl c); inner_tac).
  assert (Hsp : c_spaces c1 = c_spaces c) by (subst c1; by case_match). clearbody c1. unfold packets_in in Ho. rewrite <- Hsp in Hn, Ho.
  split.
  - eapply moved_trans0; [by apply inner_moved|]. by apply (advance_moved c1 SpData s n).
  - intros [_ Hf]. apply advance_fresh; [done|done|]. by destruct (inner_flight_ok _ _ Hi Hf).
Qed.

Lemma check_confidentiality_moved c now id :
  post (check_confidentiality c now id) (fun r => match r with Some c' => moved 0 c c' | None => True end).
Proof.
  pose proof (moved_refl c) as Hr.
  assert (Hkey : ∀ key, post (let limit := confidentiality_limit key in
      if sat_add (sent_with_keys (c_spaces c id)) 1 =? limit then
        mret (Some (close_inner c now (CloseConnection (mkConnectionClose AEAD_LIMIT_REACHED None confidentiality_limit_reached))))
      else if limit <? sent_with_keys (c_spaces c id) then mret None
      else mret (Some c)) (fun r => match r with Some c' => moved 0 c c' | None => True end)).
  { intros key. cbv zeta. destruct (_ =? _); [apply close_inner_moved|]. by destruct (_ <? _). }
  unfold check_confidentiality. cbv zeta. destruct id.
  1, 2: eapply post_bind; [apply post_true|]; intros key _; apply Hkey.
  destruct (_ <=? _); [|done]. eapply post_bind; [apply conn_force_key_update_inner, inner_refl|]. intros c1 Hc1. by apply inner_moved.
Qed.

Lemma packet_header_inner ex c0 c id cid n : inner ex c0 c → inner ex c0 (packet_header c id cid n).2.
Proof.
  intros Hi. unfold packet_header. destruct id; [done|done|]. destruct (Spaces.crypto _); [|done].
  destruct (c_spin_enabled c); cbn [snd draw_bool]; [done|]. unfold draw_bool. inner_tac.
Qed.

Lemma PacketBuilder_new_moved now id cid buf cap start e c :
  post (PacketBuilder_new now id cid buf cap start e c) (fun r => moved 0 c r.2 ∧
    match r.1.1 with Some b => pb_space b = id ∧ (sound c → fresh r.2 id (pb_exact_number b)) | None => True end).
Proof.
  unfold PacketBuilder_new. eapply post_bind; [apply check_confidentiality_moved|]. intros [c1|] Hc1.
  2: { apply post_ret. split; [|done]. apply kill_moved. }
  eapply post_bind; [apply next_number_moved|]. intros [n c2] [Hc2 Hf2]. cbn [fst snd] in *.
  eapply post_bind; [apply post_true|]. intros number _. pose proof (packet_header_inner [] c2 c2 id cid number (inner_refl c2)) as Hi.
  destruct (packet_header c2 id cid number) as [header c3]. cbn [snd] in Hi. eapply post_bind; [apply post_true|]. intros [pe buf1] _.
  set (g := if grease_quic_bit _ then _ else _). assert (Hg : inner [] c2 g.2).
  { subst g. destruct (grease_quic_bit _); cbn [snd draw_bool]; [unfold draw_bool; inner_tac|done]. }
  destruct g as [grease c4]. cbn [snd] in Hg. eapply post_bind; [apply post_true|]. intros [hk pk] _. cbv zeta.
  eapply post_bind; [apply post_true|]. intros max _. eapply post_bind; [apply post_true|]. intros _ _. apply post_ret. cbn [fst snd].
  split; [|split; [done|]].
  - eapply moved_inner; [|exact Hg|lia]. by eapply moved_trans0.
  - intros Hs. eapply fresh_inner; [exact Hg|]. apply Hf2. by apply (moved_sound c).
Qed.
End Track.

(** * Batches *)

Section Batches.
Context {C : Type} {HC : Controller C} {H : Type} {HH : Heap H} {T : Type} {HT : Session T} {R : Type} {HR : Rng R}
  {TS : Type} {HTS : TokenStore TS}.
Local Notation Connection := (Connection C H T R TS).
Local Notation Batch := (Batch (C := C) (H := H) (T := T) (R := R) (TS := TS)).
Implicit Types (c : Connection) (b : Batch).
Context (pick : gset StreamId → option StreamId).

(** The packet under construction has a number of its own. *)
Definition builder_ok c0 c (o : option PacketBuilder) : Prop :=
  match o with Some pb => sound c0 → fresh c (pb_space pb) (pb_exact_number pb) | None => True end.
Definition batch_ok c0 b : Prop := moved 0 c0 (b_conn b) ∧ builder_ok c0 (b_conn b) (b_builder b).

Lemma batch_inner c0 b b' : batch_ok c0 b → inner [] (b_conn b) (b_conn b') → b_builder b' = b_builder b → batch_ok c0 b'.
Proof.
  intros [Hm Hb] Hi He. split; [by eapply moved_inner|]. rewrite He. unfold builder_ok in *. destruct (b_builder b); [|done].
  intros Hs. eapply fresh_inner; [exact Hi|]. auto.
Qed.

(** A builder only differs in its padding. *)
Definition same_number (b b' : PacketBuilder) : Prop := pb_space b' = pb_space b ∧ pb_exact_number b' = pb_exact_number b.

Lemma pad_to_number (pb : PacketBuilder) n : post (pad_to pb n) (same_number pb).
Proof. unfold pad_to. by post_walk. Qed.

Lemma batch_finish c0 b pb pb' now sent buf :
  batch_ok c0 b → b_builder b = Some pb → same_number pb pb' →
  post (finish_and_track pb' now (b_conn b) sent buf) (fun r => moved 0 c0 r.1).
Proof. intros [Hm Hb] He [Hs Hn]. rewrite He in Hb. apply finish_and_track_moved; [done|]. rewrite Hs, Hn. exact Hb. Qed.

Lemma packet_done_ok c0 b c buf : moved 0 c0 c → batch_ok c0 (packet_done b c buf).
Proof. by split. Qed.

Lemma datagram_allowed_inner b now id e : post (datagram_allowed b now id e) (fun r => inner [] (b_conn b) r.2).
Proof.
  unfold datagram_allowed. cbv zeta. generalize (b_conn b). intros c. pose proof (inner_refl c). post_inner.
Qed.

Lemma finish_datagram_ok c0 b now id pn : batch_ok c0 b → post (finish_datagram b now id pn) (fun r => batch_ok c0 r.1).
Proof.
  intros Hb. unfold finish_datagram. destruct (b_builder b) as [pb|] eqn:He; [|done].
  eapply post_bind with (P := same_number pb); [destruct (b_pad_datagram b); [apply pad_to_number|done]|]. intros pb1 H1. cbv zeta.
  assert (Hgo : ∀ pb2, same_number pb pb2 → post ('(c, buf) ← finish_and_track pb2 now (b_conn b) (b_sent_frames b) (b_buf b);
    let b := packet_done b c buf in
        if b_num_datagrams b =? 1 then
          let b := clip b in
          if bool_decide (id = SpData) then
            n ← frame_space (b_conn b) (b_segment_size b) pn;
            can ← conn_space_can_send (b_conn b) id n;
            mret (b, negb (SendableFrames_is_empty can))
          else mret (b, true)
        else mret (b, true)) (fun r => batch_ok c0 r.1)).
  { intros pb2 H2. eapply post_bind; [by eapply batch_finish|]. intros [c buf] Hc. cbn [fst] in Hc. cbv zeta.
    pose proof (packet_done_ok c0 b c buf Hc) as Hd. set (b1 := packet_done b c buf) in *. clearbody b1.
    assert (Hclip : batch_ok c0 (clip b1)) by (eapply batch_inner; [exact Hd|apply inner_refl|done]).
    set (b2 := clip b1) in *. clearbody b2. destruct (_ =? _); [|done]. destruct (bool_decide _); [|done].
    eapply post_bind; [apply post_true|]. intros n _. eapply post_bind; [apply post_true|]. intros can _. done. }
  destruct (_ || _); [|by apply Hgo]. eapply post_bind; [apply post_true|]. intros n _. eapply post_bind; [apply post_true|].
  intros k _. destruct (_ || _).
  - apply post_ret. cbn [fst]. destruct Hb as [Hm Hb]. split; [exact Hm|]. rewrite He in Hb. cbn. by destruct H1 as [-> ->].
  - eapply post_bind; [apply pad_to_number|]. intros pb2 H2. apply Hgo. destruct H1, H2. split; congruence.
Qed.

Lemma start_datagram_ok c0 b id : batch_ok c0 b → post (start_datagram b id) (batch_ok c0).
Proof.
  intros Hb. unfold start_datagram. cbv zeta. set (lc := if _ =? 0 then _ else _).
  assert (Hi : inner [] (b_conn b) lc.2).
  { subst lc. generalize (b_conn b). intros c. pose proof (inner_refl c). case_match; cbn [snd]; inner_tac. }
  destruct lc as [limit c1]. cbn [snd] in Hi. eapply post_bind; [apply post_true|]. intros cap _.
  eapply post_bind; [apply post_true|]. intros _ _. eapply post_bind; [apply post_true|]. intros _ _.
  apply post_ret. by eapply batch_inner.
Qed.

Definition turn_ok c0 (t : Turn (C := C) (H := H) (T := T) (R := R) (TS := TS)) : Prop :=
  match t with Continue b | Break b => batch_ok c0 b | Return _ _ c => moved 0 c0 c end.

Lemma make_room_ok c0 b now m id pn e :
  batch_ok c0 b → post (make_room b now m id pn e) (fun r => match r with inl t => turn_ok c0 t | inr b => batch_ok c0 b end).
Proof.
  intros Hb. unfold make_room. rewrite post_bind_assoc. eapply post_bind; [apply post_true|]. intros key _. cbv zeta.
  apply post_bind_ret. eapply post_bind; [apply post_true|]. intros full _. destruct full.
  - destruct (_ <=? _); [done|]. eapply post_bind; [apply datagram_allowed_inner|]. intros [gate c] Hi. cbn [snd] in Hi.
    assert (Hc : batch_ok c0 (set_b_conn b c)) by (by eapply batch_inner).
    destruct gate; [|done|by eapply batch_inner; [exact Hc|apply inner_refl|]|].
    + eapply post_bind; [by apply finish_datagram_ok|]. intros [b1 go] Hb1. cbn [fst] in Hb1. destruct go; [|done].
      eapply post_bind; [by apply start_datagram_ok|]. done.
    + apply post_ret. eapply batch_inner; [exact Hc| |done]. change (inner [] c (set_timer c TPacing delay)).
      pose proof (inner_refl c). inner_tac.
  - destruct (b_builder b) as [pb|] eqn:He; [|done]. eapply post_bind; [by eapply batch_finish|]. intros [c buf] Hc.
    by apply packet_done_ok.
Qed.

Lemma send_off_path_response_ok c0 b now pb pb' :
  batch_ok c0 b → b_builder b = Some pb → same_number pb pb' →
  post (send_off_path_response b now pb') (fun r => match r with Some t => turn_ok c0 t | None => True end).
Proof.
  intros [Hm Hb] He Hn. unfold send_off_path_response. cbv zeta. destruct (pop_off_path _ _) as [[[token remote]|] rest]; [|done].
  eapply post_bind; [apply post_true|]. intros frame _. eapply post_bind; [apply pad_to_number|]. intros pb1 H1.
  set (c1 := set_c_path_responses (b_conn b) rest).
  assert (Hi : inner [] (b_conn b) c1) by (subst c1; generalize (b_conn b); intros c; pose proof (inner_refl c); inner_tac). clearbody c1.
  eapply post_bind; [apply (finish_and_track_moved c0)|intros [c buf] Hc; exact Hc].
  - by eapply moved_inner.
  - intros Hs. rewrite He in Hb. eapply fresh_inner; [exact Hi|]. destruct Hn as [E1 E2], H1 as [-> ->]. rewrite E1, E2. by apply Hb.
Qed.

Lemma send_frames_ok c0 b now t id pb can : batch_ok c0 b → post (send_frames pick b now t id pb can) (batch_ok c0).
Proof.
  intros Hb. unfold send_frames. eapply post_bind; [apply populate_packet_ok, inner_refl|]. intros f Hf. unfold fill_ok in Hf. cbv zeta.
  eapply post_bind; [apply post_true|]. intros n _. eapply post_bind; [apply post_true|]. intros _ _. apply post_ret.
  eapply batch_inner; [exact Hb| |done]. cbn [b_conn]. revert Hf. generalize (fl_conn f). intros c Hc. inner_tac.
Qed.

Lemma clear_update_inner ex c0 c : inner ex c0 c → inner ex c0 (with_keys c (clear_update_unacked (key_state c))).
Proof. intros Hi. apply inner_with_keys; [done|]. intros id. unfold clear_update_unacked. by repeat case_match. Qed.

Lemma send_packet_ok c0 b now t id closing e can :
  batch_ok c0 b → post (send_packet pick b now t id closing e can) (turn_ok c0).
Proof.
  intros [Hm _]. unfold send_packet. eapply post_bind; [apply post_true|]. intros n _. eapply post_bind; [apply post_true|].
  intros _ _. cbv zeta. eapply post_bind with (P := moved 0 c0).
  { case_match; [|done]. apply (moved_post1 _ (b_conn b)); [done|]. apply discard_space_inner, inner_refl. }
  intros c1 Hc1. set (c2 := with_keys _ _).
  assert (Hc2 : moved 0 c0 c2) by (eapply moved_inner; [exact Hc1|apply clear_update_inner, inner_refl|lia]). clearbody c2.
  eapply post_bind; [apply post_true|]. intros _ _. eapply post_bind; [apply post_true|]. intros cid _.
  eapply post_bind; [apply PacketBuilder_new_moved|]. intros [[builder buf] c3] [Hc3 Hb3]. cbn [fst snd] in *.
  assert (Hm3 : moved 0 c0 c3) by (by eapply moved_trans0). destruct builder as [pb|]; [|done]. destruct Hb3 as [Hid Hf].
  assert (Hfr : sound c0 → fresh c3 (pb_space pb) (pb_exact_number pb)).
  { intros Hs. rewrite Hid. apply Hf. by apply (moved_sound c0). }
  destruct closing.
  - eapply post_bind; [apply post_true|]. intros buf1 _. set (last := bool_decide _).
    assert (Hi : inner [] c3 (if last then set_c_close c3 false else c3)) by (pose proof (inner_refl c3); inner_tac).
    apply post_ret.
    assert (batch_ok c0 (mkBatch (if last then set_c_close c3 false else c3) buf1 (b_num_datagrams b) (b_datagram_start b)
      (b_segment_size b) (b_buf_capacity b) (b_coalesce b && negb (pb_short_header pb)) (Some pb) None
      (b_pad_datagram b || (bool_decide (id = SpInitial) && (conn_is_client c3 || e))) (b_pad_datagram_to_mtu b) (b_congestion_blocked b) (b_spaces b))).
    { split; [by eapply moved_inner|]. intros Hs. eapply fresh_inner; [exact Hi|]. by apply Hfr. }
    by destruct last.
  - set (b1 := mkBatch c3 _ _ _ _ _ _ _ _ _ _ _ _). assert (Hb1 : batch_ok c0 b1) by (by split).
    assert (He1 : b_builder b1 = Some pb) by done. clearbody b1.
    eapply post_bind with (P := fun r => match r with Some t => turn_ok c0 t | None => True end).
    { case_match; [by eapply send_off_path_response_ok|done]. }
    intros [t'|] Ht; [exact Ht|]. eapply post_bind; [by apply send_frames_ok|]. done.
Qed.

Lemma transmit_turn_ok c0 b now t m closing : batch_ok c0 b → post (transmit_turn pick b now t m closing) (turn_ok c0).
Proof.
  intros Hb. unfold transmit_turn. destruct (b_spaces b) as [|id ids]; [done|]. cbv zeta.
  eapply post_bind; [apply post_true|]. intros pn _. eapply post_bind; [apply post_true|]. intros room _.
  eapply post_bind; [apply post_true|]. intros can _. destruct (_ && _).
  { apply post_ret. eapply batch_inner; [exact Hb|apply inner_refl|done]. }
  eapply post_bind; [apply post_true|]. intros data _. eapply post_bind.
  { apply (make_room_ok c0). eapply batch_inner; [exact Hb|apply inner_refl|done]. }
  intros [t'|b'] Hr; [exact Hr|]. by apply send_packet_ok.
Qed.

Definition transmit_ok c0 (r : option Transmit * list Z * Connection) : Prop := moved 0 c0 r.2.

Lemma transmit_loop_ok c0 fuel b now t m closing :
  batch_ok c0 b →
  post (transmit_loop pick fuel b now t m closing)
    (fun r => match r with Some (inl o) => transmit_ok c0 o | Some (inr b) => batch_ok c0 b | None => True end).
Proof.
  revert b. induction fuel as [|fuel IH]; intros b Hb; [done|]. cbn [transmit_loop].
  eapply post_bind; [by apply transmit_turn_ok|]. intros [b'|b'|o buf c] Ht; [by apply IH|done|done].
Qed.

Lemma finish_batch_ok c0 b now : batch_ok c0 b → post (finish_batch b now) (batch_ok c0).
Proof.
  intros Hb. unfold finish_batch. destruct (b_builder b) as [pb|] eqn:He; [|done].
  eapply post_bind with (P := same_number pb); [case_match; [apply pad_to_number|done]|]. intros pb1 H1.
  eapply post_bind with (P := same_number pb).
  { case_match; [|done]. eapply post_weaken; [apply pad_to_number|]. intros pb2 H2. destruct H1, H2. split; congruence. }
  intros pb2 H2. eapply post_bind; [by eapply batch_finish|]. intros [c buf] Hc. cbn [fst] in Hc.
  eapply post_bind; [apply post_true|]. intros cc _. apply post_ret, packet_done_ok. eapply moved_inner; [exact Hc| |lia].
  pose proof (inner_refl c). inner_tac.
Qed.

Lemma send_mtu_probe_ok c0 c now : moved 0 c0 c → post (send_mtu_probe c now) (fun r => moved 0 c0 r.2).
Proof.
  intros Hm. unfold send_mtu_probe. eapply post_bind; [apply post_true|]. intros pn _. eapply post_bind; [apply post_true|].
  intros [probe m] _. cbv zeta. set (c1 := upd_path _ _).
  assert (Hc1 : moved 0 c0 c1) by (eapply moved_inner; [exact Hm|subst c1; pose proof (inner_refl c); inner_tac|lia]). clearbody c1.
  destruct probe as [size|]; [|done]. eapply post_bind; [apply post_true|]. intros cid _.
  eapply post_bind; [apply PacketBuilder_new_moved|]. intros [[builder buf] c3] [Hc3 Hb3]. cbn [fst snd] in *.
  assert (Hm3 : moved 0 c0 c3) by (by eapply moved_trans0). destruct builder as [pb|]; [|done]. destruct Hb3 as [Hid Hf].
  eapply post_bind; [apply post_true|]. intros x _. eapply post_bind; [apply post_true|]. intros y _.
  eapply post_bind; [apply pad_to_number|]. intros pb1 [E1 E2]. eapply post_bind; [apply (finish_and_track_moved c0)|].
  - done.
  - intros Hs. rewrite E1, E2, Hid. apply Hf. by apply (moved_sound c0).
  - intros [c4 buf4] Hc4. exact Hc4.
Qed.

Lemma transmit_of_ok c0 c buf n k : moved 0 c0 c → transmit_ok c0 (transmit_of c buf n k).
Proof.
  intros Hm. unfold transmit_of. destruct (is_nil buf); [done|]. cbv zeta. unfold transmit_ok. cbn [snd].
  eapply moved_inner; [exact Hm| |lia]. pose proof (inner_refl c). inner_tac.
Qed.

Lemma after_loop_ok c0 b now : batch_ok c0 b → post (after_loop b now) (transmit_ok c0).
Proof.
  intros Hb. unfold after_loop. eapply post_bind; [by apply finish_batch_ok|]. intros b1 [Hm _]. cbv zeta.
  set (c1 := set_c_app_limited _ _).
  assert (Hc1 : moved 0 c0 c1).
  { eapply moved_inner; [exact Hm| |lia]. subst c1. generalize (b_conn b1). intros c. pose proof (inner_refl c). inner_tac. }
  clearbody c1. destruct (_ && _); [|by apply transmit_of_ok].
  eapply post_bind; [by apply send_mtu_probe_ok|]. intros [[buf|] c2] Hc2; [by apply transmit_of_ok|done].
Qed.

(** * Probes *)

(** The retransmits of a packet do not matter to the accounting. *)
Definition alike (p q : SentPacket) : Prop :=
  path_generation q = path_generation p ∧ size q = size p ∧ ack_eliciting q = ack_eliciting p.
Definition alike_key (x y : Z * SentPacket) : Prop := y.1 = x.1 ∧ alike x.2 y.2.

#[local] Instance alike_refl : Reflexive alike.
Proof. done. Qed.
#[local] Instance alike_key_refl : Reflexive alike_key.
Proof. done. Qed.

Lemma sum_alike g l l' : Forall2 alike l l' →
  sum_of (bytes_of g) l' = sum_of (bytes_of g) l ∧ sum_of (eliciting_of g) l' = sum_of (eliciting_of g) l.
Proof.
  induction 1 as [|p q l l' (Hg & Hs & He) _ [IH1 IH2]]; [done|]. cbn [sum_of]. unfold bytes_of at 1 3, eliciting_of at 1 3.
  rewrite Hg, Hs, He, IH1, IH2. done.
Qed.

Lemma acct_alike l l' v prev n : Forall2 alike l l' → acct l v prev n → acct l' v prev n.
Proof.
  intros Hl [H1 H2 H3 H4]. assert (Hc : ∀ w, covers l w → covers l' w).
  { intros w [Hb He]. destruct (sum_alike w.1 _ _ Hl) as [E1 E2]. unfold covers. rewrite E1, E2. done. }
  split; [auto|done| |].
  - intros w Hw. destruct (H3 w Hw). auto.
  - clear H1 H2 H3 Hc. induction Hl as [|p q l l' (Hg & Hs & _) _ IH]; [done|]. apply Forall_cons_1 in H4 as [Hp H4].
    constructor; [by rewrite Hg, Hs|auto].
Qed.

Lemma take_retransmits_alike can m :
  match take_retransmits can m with Some (_, m') => Forall2 alike_key m m' | None => True end.
Proof.
  induction m as [|[n p] m IH]; [done|]. cbn [take_retransmits]. destruct (negb _); [constructor; [done|]; reflexivity|].
  destruct (take_retransmits can m) as [[r m']|]; [|done]. by constructor.
Qed.

Lemma maybe_queue_probe_alike (s : PacketSpace Keys H) q can :
  Forall2 alike_key (sent_packets s) (sent_packets (maybe_queue_probe s q can)) ∧
  next_packet_number (maybe_queue_probe s q can) = next_packet_number s.
Proof.
  assert (Hr : Forall2 alike_key (sent_packets s) (sent_packets s)) by (reflexivity).
  unfold maybe_queue_probe. destruct (_ =? _); [done|]. cbv zeta. set (s1 := if q then _ else _).
  assert (E : outline s1 = outline s) by (subst s1; by case_match). clearbody s1. injection E as E1 E2. rewrite <- E1 in *.
  pose proof (take_retransmits_alike can (sent_packets s1)) as Ht. destruct (negb _); [done|].
  destruct (take_retransmits can (sent_packets s1)) as [[r m]|]; [done|]. by destruct (negb _).
Qed.

Lemma alike_moved c id f :
  Forall2 alike_key (packets_in c id) (sent_packets (f (c_spaces c id))) →
  next_packet_number (f (c_spaces c id)) = next_packet_number (c_spaces c id) → moved 0 c (upd_space c id f).
Proof.
  intros Ha Hn. apply (moved_with _ c); try done; [apply moved_refl|]. intros _ [Hok Hk]. split.
  - unfold acct_ok in *. cbn [app] in *. rewrite (tracked_others _ id), others_upd, packets_upd_space, decide_True by done.
    rewrite (tracked_others _ id) in Hok. eapply acct_alike; [|exact Hok].
    apply Forall2_app; [|reflexivity]. apply Forall2_fmap, (Forall2_impl _ _ _ _ Ha). by intros ? ? [].
  - intros id'. cbn [upd_space c_spaces set_c_spaces]. rewrite packets_upd_space. unfold set_space.
    destruct (decide (id' = id)) as [->|Hne]; [rewrite bool_decide_true by done|rewrite bool_decide_false by done; apply Hk].
    rewrite Hn. specialize (Hk id). unfold below in *. clear Hn Hok.
    induction Ha as [|x y l l' [Hx _] _ IH]; [done|]. apply Forall_cons_1 in Hk as [Hk1 Hk2]. constructor; [by rewrite Hx|auto].
Qed.

Lemma queue_probes_moved c : moved 0 c (queue_probes c).
Proof.
  unfold queue_probes. assert (Hstep : ∀ c id q can, moved 0 c (upd_space c id (fun s => maybe_queue_probe s q can))).
  { intros c1 id q can. apply alike_moved; apply maybe_queue_probe_alike. }
  cbn [fold_left]. eapply moved_trans0; [|apply Hstep]. eapply moved_trans0; [|apply Hstep]. apply Hstep.
Qed.

Lemma queue_ack_frequency_inner ex c0 c : inner ex c0 c → post (queue_ack_frequency c) (inner ex c0).
Proof. intros Hi. unfold queue_ack_frequency. post_inner. Qed.

Lemma send_path_challenge_ok c now cap buf : post (send_path_challenge c now cap buf) (transmit_ok c).
Proof.
  unfold send_path_challenge. destruct (c_prev_path c) as [[cid prev]|] eqn:Hp; [|apply moved_refl].
  destruct (negb _); [apply moved_refl|]. cbv zeta. set (c1 := set_c_prev_path c _).
  assert (Hc1 : inner [] c c1) by (by apply (inner_prev _ _ c cid prev); [apply inner_refl|..]). clearbody c1.
  eapply post_bind; [apply post_true|]. intros token _. eapply post_bind; [apply post_true|]. intros _ _.
  eapply post_bind; [apply PacketBuilder_new_moved|]. intros [[builder buf1] c2] [Hc2 _]. cbn [fst snd] in *.
  assert (Hm : moved 0 c c2) by (eapply moved_trans0; [by apply inner_moved|done]). destruct builder as [pb|]; [|done].
  eapply post_bind; [apply post_true|]. intros frame _. eapply post_bind; [apply post_true|]. intros pb1 _.
  eapply post_bind; [apply post_true|]. intros [[x y] z] _. done.
Qed.

Lemma send_batch_ok turns c0 c now t m mtu buf closing :
  moved 0 c0 c → post (send_batch turns pick c now t m mtu buf closing) (transmit_ok c0).
Proof.
  intros Hm. unfold send_batch. eapply post_bind; [apply (moved_post1 c0 c); [done|]; apply queue_ack_frequency_inner, inner_refl|].
  intros c3 Hc3. cbv zeta. eapply post_bind; [apply (transmit_loop_ok c0); by split|]. intros [r|] Hr; [|done]. apply post_bind_ret.
  destruct r as [o|b]; [exact Hr|]. by apply after_loop_ok.
Qed.

Lemma conn_poll_transmit_moved turns c now t m cap buf :
  post (conn_poll_transmit turns pick c now t m cap buf) (transmit_ok c).
Proof.
  unfold conn_poll_transmit. eapply post_bind; [apply post_true|]. intros _ _. cbv zeta.
  eapply post_bind; [apply send_path_challenge_ok|]. intros [[o buf1] c1] Hc1. unfold transmit_ok in Hc1. cbn [snd] in Hc1.
  destruct o as [tr|]; [done|]. pose proof (queue_probes_moved c1) as Hq. set (c2 := queue_probes c1) in *. clearbody c2.
  assert (Hc2 : moved 0 c c2) by (by eapply moved_trans0).
  assert (Hidle : moved 0 c (set_c_app_limited c2 true)).
  { eapply moved_inner; [exact Hc2| |lia]. pose proof (inner_refl c2). inner_tac. }
  destruct (c_state c2); try (destruct (c_close c2)); first [by apply send_batch_ok|exact Hidle].
Qed.
End Batches.
