(* ===== verification/ConnSample.v ===== *)
(** A concrete connection: null protection, a four-message handshake, NewReno, the heap of sorted lists and no store of tokens.

    It shows that the hypotheses of the theorems on connections can hold, and lets the definitions be run. *)
From stdpp Require Import gmap.
From S2P Require Import Prelude Coding RangeSet Ids Shared Frame Float Packet TransportParams Token TokenCache Assembler Recv Send.
From S2P Require Import PendingStreams Retransmits CidQueue CidState Streams Dedup PendingAcks Mtud Timer AckFrequency Rtt.
From S2P Require Import Congestion Pacing Datagrams Spaces PacketCrypto Config Paths Connection ConnRecovery ConnReceive.
From S2P Require Import PacketBuilder ConnTransmit.
Open Scope Z_scope.

Definition null_header_key : HeaderKey := mkHeaderKey 16 (fun _ b => b) (fun _ b => b).
Definition null_packet_key : PacketKey :=
  mkPacketKey (fun _ b _ => b) (fun _ _ b => if len b <? 16 then None else Some (takeZ (len b - 16) b)) 16 (2 ^ 23) (2 ^ 36).
Definition null_keys : Keys := mkKeys (mkKeyPair null_header_key null_header_key) (mkKeyPair null_packet_key null_packet_key).

(** A handshake of four messages of one byte: the client sends 1, the server answers 2 and 3, the client ends with 4. *)
Record ToySession : Type := mkToySession { toy_client : bool; toy_stage : Z; toy_peer_params : TransportParameters }.
Definition toy_at (s : ToySession) (n : Z) : ToySession := mkToySession (toy_client s) n (toy_peer_params s).

Definition toy_write (s : ToySession) : list Z * option Keys * ToySession :=
  match toy_client s, toy_stage s with
  | true, 0 => ([1], None, toy_at s 1)
  | true, 2 => ([], Some null_keys, toy_at s 3)
  | true, 4 => ([4], Some null_keys, toy_at s 5)
  | false, 1 => ([2], Some null_keys, toy_at s 2)
  | false, 2 => ([3], Some null_keys, toy_at s 3)
  | _, _ => ([], None, s)
  end.

Definition toy_read (s : ToySession) (data : list Z) : result TransportError bool * ToySession :=
  match toy_client s, toy_stage s, data with
  | true, 1, [2] => (Ok false, toy_at s 2)
  | true, 3, [3] => (Ok true, toy_at s 4)
  | false, 0, [1] => (Ok true, toy_at s 1)
  | false, 3, [4] => (Ok false, toy_at s 5)
  | _, _, _ => (Err (mkTransportError (Code_crypto 10)), s)
  end.

#[export] Instance toy_Session : Session ToySession := {
  tls_initial_keys _ _ _ := null_keys;
  tls_early_crypto _ := None;
  tls_early_data_accepted _ := None;
  tls_is_handshaking s := toy_stage s <? 5;
  tls_read_handshake := toy_read;
  tls_transport_parameters s := Ok (Some (toy_peer_params s));
  tls_write_handshake := toy_write;
  tls_next_1rtt_keys s := (Some (mkKeyPair null_packet_key null_packet_key), s);
  tls_is_valid_retry _ _ _ _ := false
}.

(** A counter in place of random numbers. *)
#[export] Instance counter_Rng : Rng Z := {
  rng_u64 n := n; rng_u128 n := n; rng_bool n := Z.odd n; rng_range n lo _ := lo; rng_ratio n _ _ := Z.odd n; rng_step n := n + 1 }.

Notation SampleConnection := (Connection NewReno (list Buffer) ToySession Z NoneTokenStore).

Definition sample_config : TransportConfig NewReno := TransportConfig_default (NewReno_new NewRenoConfig_default).
Definition sample_addr (n : Z) : SocketAddr := SocketV4 (mkIpv4 [10; 0; 0; n]) 4433.
Definition sample_cid (n : Z) : ConnectionId := mkConnectionId 8 (replicate 8 n ++ replicate 12 0).
Definition far_future : Z := 2 ^ 80.

Definition params_of (src : ConnectionId) (orig : option ConnectionId) : TransportParameters :=
  mkTransportParameters 30000 65527 1000000 100000 100000 100000 10 10 3 25 4 false (Some 65535) (Some src) false None orig
    None None None None None.

(** The client, and the server its first packet creates. *)
Definition sample_client : M SampleConnection :=
  Connection_new far_future 10 true sample_config (sample_cid 9) (sample_cid 1) (sample_cid 9) (sample_addr 2) None
    (mkToySession true 0 (params_of (sample_cid 2) (Some (sample_cid 9)))) 8 None 0 1 true 7 (ClientArgs mkNoneTokenStore []).

Definition null_token_key : HandshakeTokenKey := mkHandshakeTokenKey (fun _ => mkAeadKey (fun d _ => Some d) (fun d _ => Some d)).
Definition sample_server_config : ServerConfig := mkServerConfig 0 0 null_token_key 0 true None None 16 1000000 10000000.

Definition sample_server : M SampleConnection :=
  Connection_new far_future 10 true sample_config (sample_cid 9) (sample_cid 2) (sample_cid 1) (sample_addr 1) None
    (mkToySession false 0 (params_of (sample_cid 1) None)) 8 None 0 1 true 7 (ServerArgs sample_server_config None false).

Definition no_pick (_ : gset StreamId) : option StreamId := None.
Definition sample_transmit (c : SampleConnection) (now : Z) := conn_poll_transmit 50 no_pick c now 0 1 1500 [].
