(* ===== verification/ConnTheorems.v ===== *)
(** The theorems on whole connections: what holds after any sequence of the operations its user may call, from the creation
    of a client, or of a server and its first packet. *)
From stdpp Require Import gmap.
From S2P Require Import Prelude Coding RangeSet Ids Shared Frame FrameTheorems Float Packet PacketSafety TransportParams Token TokenCache.
From S2P Require Import Assembler Recv Send PendingStreams Retransmits CidQueue CidState Streams Dedup PendingAcks Mtud Timer.
From S2P Require Import AckFrequency Rtt Congestion Pacing Datagrams Spaces PacketCrypto Config Paths Connection ConnRecovery.
From S2P Require Import ConnReceive PacketBuilder ConnTransmit Post ConnInv ConnInvOps ConnInvReceive ConnLife ConnLifeTransmit.
From S2P Require Import ConnSample.
Open Scope Z_scope.

Section Runs.
Context {C : Type} {HC : Controller C} {H : Type} {HH : Heap H} {T : Type} {HT : Session T} {R : Type} {HR : Rng R}
  {TS : Type} {HTS : TokenStore TS}.
Local Notation Connection := (Connection C H T R TS).
Implicit Types c : Connection.
Context (max_instant : Z) (crypto_turns transmit_turns : nat) (pick : gset StreamId → option StreamId).

(** * Runs *)

(** The calls the user of a connection may make.  What the application does with its streams is any change of their state
    and of what is queued for them. *)
Inductive Action : Type :=
| ADatagram (now : Z) (remote : SocketAddr) (ecn : option EcnCodepoint) (first_decode : PartialDecode) (remaining : option (list Z))
| ATimeout (now : Z)
| ATransmit (now system_now max_datagrams capacity : Z)
| AClose (now : Z) (error_code : VarInt) (reason : list Z)
| APing
| APoll
| AEndpointEvent
| AIdentifiers (ids : list IssuedCid) (now : Z)
| APathChanged (now : Z)
| ALocalAddress
| AMaxStreams (d : Dir) (count : VarInt)
| ASendWindow (w : Z)
| AReceiveWindow (w : VarInt)
| ASendDatagram (data : list Z) (drop : bool)
| AKeyUpdate
| AStreams (s : StreamsState H) (p : Retransmits).

(** A connection with the events the endpoint has taken from it. *)
Definition perform (w : Connection * list EndpointEvent) (a : Action) : M (Connection * list EndpointEvent) :=
  let '(c, seen) := w in
  let keep (m : M Connection) := c ← m; mret (c, seen) in
  match a with
  | ADatagram now remote ecn d remaining => keep (handle_datagram crypto_turns c now remote ecn d remaining)
  | ATimeout now => keep (handle_timeout c now)
  | ATransmit now system_now m cap => '(_, _, c) ← conn_poll_transmit transmit_turns pick c now system_now m cap []; mret (c, seen)
  | AClose now code reason => mret (close c now code reason, seen)
  | APing => mret (ping c, seen)
  | APoll => '(_, c) ← conn_poll c; mret (c, seen)
  | AEndpointEvent => let '(e, c) := poll_endpoint_events c in mret (c, seen ++ option_list e)
  | AIdentifiers ids now => keep (handle_event max_instant c ids now)
  | APathChanged now => keep (path_changed c now)
  | ALocalAddress => keep (local_address_changed c)
  | AMaxStreams d count => keep (set_max_concurrent_streams c d count)
  | ASendWindow w => mret (conn_set_send_window c w, seen)
  | AReceiveWindow w => mret (conn_set_receive_window c w, seen)
  | ASendDatagram data drop => '(_, c) ← conn_send_datagram c data drop; mret (c, seen)
  | AKeyUpdate => keep (conn_force_key_update c)
  | AStreams s p => mret (upd_pending (set_c_streams c s) (fun _ => p), seen)
  end.

Definition run (acts : list Action) (w : Connection * list EndpointEvent) : M (Connection * list EndpointEvent) :=
  mfold perform acts w.

(** A bound on the number of packets received. *)
Definition packets_received (a : Action) : Z := match a with ADatagram _ _ _ _ remaining => datagram_packets remaining | _ => 0 end.
Definition total_received (acts : list Action) : Z := foldr (fun a n => packets_received a + n) 0 acts.

(** The connections a run starts from, with a bound on the packets received so far. *)
Inductive started : Z → Connection → Prop :=
| started_client grease config init_cid loc_cid rem_cid remote local_ip crypto cid_len cid_lifetime now version allow_mtud rng
    token_store server_name c :
    Connection_new max_instant crypto_turns grease config init_cid loc_cid rem_cid remote local_ip crypto cid_len cid_lifetime now
      version allow_mtud rng (ClientArgs token_store server_name) = Ret c →
    started 0 c
| started_server grease config init_cid loc_cid rem_cid remote local_ip crypto cid_len cid_lifetime now version allow_mtud rng
    server_config pref_addr_cid path_validated now' remote' ecn pn header header_data payload remaining c0 c :
    Connection_new max_instant crypto_turns grease config init_cid loc_cid rem_cid remote local_ip crypto cid_len cid_lifetime now
      version allow_mtud rng (ServerArgs server_config pref_addr_cid path_validated) = Ret c0 →
    handle_first_packet crypto_turns c0 now' remote' ecn pn header header_data payload remaining = Ret (Ok tt, c) →
    is_closed (c_state c) = false →
    started (datagram_packets remaining) c.

(** * Lemmas *)

(** What holds of a connection in a run, with what the endpoint has seen of it. *)
Record run_ok (n : Z) (w : Connection * list EndpointEvent) : Prop := {
  ro_counter : 0 <= c_path_counter w.1 <= n;
  ro_flight : flight_ok w.1;
  ro_settled : settled (w.2 ++ c_endpoint_events w.1) w.1
}.

Lemma moved_run_ok n k c c' seen : moved k c c' → 0 <= k → n + k < 2 ^ 64 → run_ok n (c, seen) → run_ok (n + k) (c', seen).
Proof.
  intros [M1 M2 M3 (l & Hl & Ms) M5] Hk Hb [R1 R2 R3]. cbn [fst snd] in *.
  specialize (M2 ltac:(lia) ltac:(lia)). split; cbn [fst snd]; [lia|apply M1; [lia|lia|done]|].
  rewrite Hl, app_assoc. auto.
Qed.

(** A call moves the connection, or hands an event to the endpoint. *)
Definition performed (k : Z) (w w' : Connection * list EndpointEvent) : Prop :=
  (moved k w.1 w'.1 ∧ w'.2 = w.2) ∨
  (∃ e rest, c_endpoint_events w.1 = e :: rest ∧ w' = (set_c_endpoint_events w.1 rest, w.2 ++ [e])).

Lemma perform_spec a w : post (perform w a) (performed (packets_received a) w).
Proof.
  destruct w as [c seen]. pose proof (inner_refl c) as Hi.
  assert (Hkeep : ∀ m k, post m (moved k c) → post (c ← m; mret (c, seen)) (performed k (c, seen))).
  { intros m k Hm. eapply post_bind; [exact Hm|]. intros c1 Hc1. by left. }
  assert (Hin : ∀ m, post m (inner [] c) → post (c ← m; mret (c, seen)) (performed 0 (c, seen))).
  { intros m Hm. apply Hkeep. eapply post_weaken; [exact Hm|]. intros c1 Hc1. by apply inner_moved. }
  assert (Hin2 : ∀ A (m : M (A * Connection)), post m (fun r => inner [] c r.2) →
    post ('(_, c) ← m; mret (c, seen)) (performed 0 (c, seen))).
  { intros A m Hm. eapply post_bind; [exact Hm|]. intros [x c1] Hc1. left. split; [by apply inner_moved|done]. }
  destruct a; cbn [perform packets_received] in *.
  - apply Hkeep, handle_datagram_moved.
  - apply Hkeep, handle_timeout_moved.
  - eapply post_bind; [apply conn_poll_transmit_moved|]. intros [[x y] c1] Hc1. by left.
  - apply post_ret. left. split; [apply close_inner_moved|done].
  - apply post_ret. left. split; [by apply inner_moved, ping_inner|done].
  - by apply Hin2, conn_poll_inner.
  - unfold poll_endpoint_events. destruct (c_endpoint_events c) as [|e rest] eqn:E; apply post_ret.
    + left. cbn [option_list fst snd]. rewrite app_nil_r. split; [apply moved_refl|done].
    + right. by exists e, rest.
  - by apply Hin, handle_event_inner.
  - by apply Hin, path_changed_inner.
  - by apply Hin, local_address_changed_inner.
  - by apply Hin, set_max_concurrent_streams_inner.
  - apply post_ret. left. split; [by apply inner_moved, conn_set_send_window_inner|done].
  - apply post_ret. left. split; [by apply inner_moved, conn_set_receive_window_inner|done].
  - by apply Hin2, conn_send_datagram_inner.
  - by apply Hin, conn_force_key_update_inner.
  - apply post_ret. left. split; [|done]. apply inner_moved. cbn [fst]. inner_tac.
Qed.

Lemma received_nonneg a : 0 <= packets_received a.
Proof.
  destruct a; cbn [packets_received]; try lia. unfold datagram_packets. case_match; [|lia]. pose proof (len_nonneg l). lia.
Qed.
Lemma total_received_nonneg acts : 0 <= total_received acts.
Proof.
  induction acts as [|a acts IH]; [done|]. change (0 <= packets_received a + total_received acts). pose proof (received_nonneg a). lia.
Qed.

Lemma perform_ok a n w :
  n + packets_received a < 2 ^ 64 → run_ok n w → post (perform w a) (run_ok (n + packets_received a)).
Proof.
  intros Hb Hr. pose proof (received_nonneg a) as Hk. eapply post_weaken; [apply perform_spec|]. destruct w as [c seen].
  intros [c' seen'] [[Hm Hs]|(e & rest & E & [= -> ->])]; cbn [fst snd] in *; [subst seen'; by eapply moved_run_ok|].
  destruct Hr as [R1 R2 R3]. cbn [fst snd] in *. rewrite E in R3. split; cbn [fst snd]; [cbn; lia|done|].
  change (c_endpoint_events (set_c_endpoint_events c rest)) with rest. rewrite <- app_assoc. exact R3.
Qed.

Lemma run_rank acts w : post (run acts w) (fun w' => state_rank (c_state w.1) <= state_rank (c_state w'.1)).
Proof.
  apply (post_mfold perform acts w (fun w' => state_rank (c_state w.1) <= state_rank (c_state w'.1))); [|lia].
  intros w1 a H1. eapply post_weaken; [apply perform_spec|].
  intros w2 [[Hm _]|(e & rest & _ & ->)]; [|done]. pose proof (mv_rank _ _ _ Hm). lia.
Qed.

Lemma run_keeps acts n w :
  n + total_received acts < 2 ^ 64 → run_ok n w → post (run acts w) (run_ok (n + total_received acts)).
Proof.
  unfold run. revert n w. induction acts as [|a acts IH]; intros n w Hb Hr.
  - cbn. by rewrite Z.add_0_r.
  - change (total_received (a :: acts)) with (packets_received a + total_received acts) in *. cbn [mfold].
    pose proof (received_nonneg a). pose proof (total_received_nonneg acts). eapply post_bind; [apply (perform_ok a n); [lia|exact Hr]|].
    intros w1 Hw1. rewrite Z.add_assoc. apply IH; [lia|done].
Qed.

(** An open connection is settled whatever the endpoint has seen. *)
Lemma open_settled h c : timers_ok (c_timers c) → is_closed (c_state c) = false → settled h c.
Proof. intros Ht Hc. split; [done|]. split; [by rewrite Hc|]. destruct (c_state c); done. Qed.

Record newborn c : Prop := {
  nb_counter : c_path_counter c = 0;
  nb_flight : flight_ok c;
  nb_timers : timers_ok (c_timers c);
  nb_open : is_closed (c_state c) = false
}.

Lemma newborn_inner c c' : newborn c → inner [] c c' → newborn c'.
Proof.
  intros [N1 N2 N3 N4] Hi. split.
  - by rewrite (in_counter _ _ _ Hi).
  - by apply (inner_flight_ok c).
  - by destruct (in_timers _ _ _ Hi N3).
  - by rewrite (phase_closed _ _ (in_phase _ _ _ Hi)).
Qed.

Lemma newborn_run_ok c seen : newborn c → run_ok 0 (c, seen).
Proof. intros [N1 N2 N3 N4]. split; cbn [fst snd]; [lia|done|by apply open_settled]. Qed.

(** A connection without packets. *)
Lemma empty_newborn c :
  c_path_counter c = 0 → view (c_path c) = (0, InFlight_new) → c_prev_path c = None → (∀ id, packets_in c id = []) →
  timers_ok (c_timers c) → is_closed (c_state c) = false → newborn c.
Proof.
  intros Hn Hv Hp He Ht Hc. split; try done. split.
  - unfold acct_ok, tracked. rewrite !He, Hv, Hp, Hn. cbn. by split.
  - intros id. unfold packets_in in He. unfold packets_in. rewrite He. constructor.
Qed.

Lemma Connection_new_newborn grease config init_cid loc_cid rem_cid remote local_ip crypto cid_len cid_lifetime now version
    allow_mtud rng args :
  post (Connection_new max_instant crypto_turns grease config init_cid loc_cid rem_cid remote local_ip crypto cid_len cid_lifetime
    now version allow_mtud rng args) newborn.
Proof.
  unfold Connection_new. eapply post_bind; [apply post_true|]. intros side _. cbv zeta.
  eapply post_bind; [apply post_true|]. intros cs _. eapply post_bind with (P := fun p => view p = (0, InFlight_new)).
  { unfold PathData_new. by post_walk. }
  intros path Hpath. eapply post_bind; [apply post_true|]. intros kp _.
  match goal with |- post (let '(_, _) := ?x in _) _ => destruct x as [spin rng1] end.
  eapply post_bind; [apply post_true|]. intros filter _. eapply post_bind; [apply post_true|]. intros delay _.
  eapply post_bind; [apply post_true|]. intros streams _. set (this := mkConnection _ _ _ _ _ _ _ _ _ _ _ _ _ _ _ _ _ _ _ _ _ _ _ _ _ _ _ _ _ _ _ _ _ _ _ _ _ _ _ _ _ _ _ _ _ _ _ _).
  assert (Hthis : newborn this) by (subst this; apply empty_newborn; try done; by intros []). clearbody this.
  set (c1 := if path_validated args then _ else _).
  assert (Hc1 : newborn c1).
  { subst c1. case_match; [|done]. eapply newborn_inner; [exact Hthis|apply on_path_validated_inner, inner_refl]. }
  clearbody c1. destruct (is_client _); [|exact Hc1].
  eapply post_bind; [apply write_crypto_loop_inner, inner_refl|]. intros c2 Hc2.
  eapply post_weaken; [apply init_0rtt_inner, Hc2|]. intros c3 Hc3. by eapply newborn_inner.
Qed.

Lemma first_packet_post c now remote ecn pn header hd payload remaining :
  post (handle_first_packet crypto_turns c now remote ecn pn header hd payload remaining)
    (fun r => r.1 = Ok tt → ∃ c1, mid 1 c c1 ∧ moved (datagram_packets remaining - 1) c1 r.2).
Proof.
  unfold handle_first_packet. eapply post_bind; [apply post_true|]. intros _ _. cbv zeta.
  set (c1 := upd_path c _). assert (Hi : inner [] c c1) by (subst c1; pose proof (inner_refl c); inner_tac). clearbody c1.
  eapply post_bind with (P := inner [] c).
  { destruct (c_state c1) eqn:Hst; try done. apply post_ret. inner_tac. }
  intros c2 Hc2. eapply post_bind; [by apply on_packet_authenticated_inner|]. intros c3 Hc3.
  unfold attempt. eapply post_bind; [apply process_decrypted_packet_mid|]. intros [[[]|e] c4] Hc4; [|done].
  cbn [snd] in Hc4. assert (Hm : mid 1 c c4) by (by apply (inner_mid _ _ c3)).
  eapply post_bind with (P := moved (datagram_packets remaining - 1) c4).
  { destruct remaining as [data|]; [|apply moved_refl]. cbn [datagram_packets]. replace (len data + 2 - 1) with (len data + 1) by lia.
    apply conn_handle_coalesced_moved. }
  intros c5 Hc5. apply post_ret. intros _. by exists c4.
Qed.

Lemma rank_closed s : state_rank s <= 1 → is_closed s = false.
Proof. by destruct s. Qed.

Lemma started_ok n c : started n c → n < 2 ^ 64 → run_ok n (c, []).
Proof.
  intros [? ? ? ? ? ? ? ? ? ? ? ? ? ? ? ? c1 Hnew | ? ? ? ? ? ? ? ? ? ? ? ? ? ? ? ? ? ? ? ? ? ? ? ? remaining c0 c1 Hnew Hfirst Hc] Hb.
  { apply newborn_run_ok. exact (post_elim _ _ _ (Connection_new_newborn _ _ _ _ _ _ _ _ _ _ _ _ _ _ _) Hnew). }
  pose proof (post_elim _ _ _ (Connection_new_newborn _ _ _ _ _ _ _ _ _ _ _ _ _ _ _) Hnew) as [N1 N2 N3 N4].
  pose proof (post_elim _ _ _ (first_packet_post _ _ _ _ _ _ _ _ _) Hfirst eq_refl) as (c2 & Hm & Hv). cbn [snd] in Hv.
  assert (Hn : 1 <= datagram_packets remaining).
  { unfold datagram_packets. case_match; [|lia]. pose proof (len_nonneg l). lia. }
  pose proof (mid_counter _ _ _ Hm ltac:(lia) ltac:(lia)) as Hcnt. pose proof (mid_flight _ _ _ Hm ltac:(lia) ltac:(lia) N2) as Hf.
  destruct (mid_timers _ _ _ Hm N3) as [Ht _]. destruct Hv as [V1 V2 V3 (l & Hl & Vs) V5].
  specialize (V2 ltac:(lia) ltac:(lia)). pose proof (rank_open _ Hc) as Hr.
  destruct (Vs [] ltac:(apply open_settled; [done|apply rank_closed; lia])) as (Ht' & _).
  split; cbn [fst snd]; [lia|apply V1; [lia|lia|done]|by apply open_settled].
Qed.

(** * The close timer *)

(** The connection is drained and has said so. *)
Definition reported c : Prop := is_drained (c_state c) = true ∧ EvDrained ∈ c_endpoint_events c.

Lemma reported_inner c c' : inner [] c c' → reported c → reported c'.
Proof.
  intros Hi [Hd He]. split; [by rewrite (phase_drained _ _ (in_phase _ _ _ Hi))|].
  destruct (in_events _ _ _ Hi) as (l & -> & _). apply elem_of_app. by left.
Qed.

Lemma kill_reported c e : reported (kill c e).
Proof.
  unfold kill. destruct (close_common_timers c) as (t & -> & _). split; [done|]. cbn. apply elem_of_app. right. by apply list_elem_of_singleton.
Qed.

(** The close timer is set to [t]. *)
Definition waiting (t : Z) c : Prop := timers_ok (c_timers c) ∧ timer_get (c_timers c) TClose = Some t.

(** What a timeout other than the one of the close timer keeps. *)
Definition closing_kept (t : Z) c c' : Prop := (waiting t c → waiting t c' ∨ reported c') ∧ (reported c → reported c').

Lemma closing_inner t c c' : inner [] c c' → closing_kept t c c'.
Proof.
  intros Hi. split; [|by apply reported_inner]. intros [Hok Ht]. left. destruct (in_timers _ _ _ Hi Hok) as [Hok' E].
  split; [done|congruence].
Qed.

Lemma closing_trans t c1 c2 c3 : closing_kept t c1 c2 → closing_kept t c2 c3 → closing_kept t c1 c3.
Proof. intros [H1 H2] [H3 H4]. split; [|auto]. intros Hw. destruct (H1 Hw); auto. Qed.

Lemma closing_reported t c c' : reported c' → closing_kept t c c'.
Proof. split; auto. Qed.

Lemma on_timeout_closing t now c x : x ≠ TClose → post (on_timeout now c x) (closing_kept t c).
Proof.
  intros Hx. pose proof (inner_refl c) as Hrefl. unfold on_timeout. destruct (negb _); [by apply closing_inner|]. cbv zeta.
  assert (Hstop : inner [] c (stop_timer c x)) by (apply (inner_same _ _ c); [by apply core_stop_timer|done]).
  destruct x; try done.
  - eapply post_weaken; [by apply on_loss_detection_timeout_inner|]. intros c1. apply closing_inner.
  - apply post_ret, closing_reported, kill_reported.
  - apply post_ret, closing_inner. inner_tac.
  - set (c1 := stop_timer c TPathValidation) in *. clearbody c1. apply post_ret. eapply closing_trans; [by apply closing_inner|].
    destruct (c_prev_path c1) as [[cid prev]|].
    + eapply (closing_trans _ _ (set_c_prev_path (set_c_path c1 prev) None)); [by split; auto|].
      generalize (set_c_prev_path (set_c_path c1 prev) None). intros c2. apply closing_inner. pose proof (inner_refl c2). inner_tac.
    + apply closing_inner. pose proof (inner_refl c1). inner_tac.
  - apply post_ret, closing_inner. inner_tac.
  - by apply post_ret, closing_inner.
  - set (c1 := stop_timer c TPushNewCid) in *. clearbody c1. eapply post_bind; [apply post_true|]. intros [n s] _.
    apply post_ret, closing_inner. inner_tac.
  - apply post_ret, closing_inner. inner_tac.
Qed.

Lemma on_timeout_close t now c : waiting t c ∨ reported c → t <= now → post (on_timeout now c TClose) reported.
Proof.
  intros Hw Ht. unfold on_timeout. destruct (negb _) eqn:E.
  - destruct Hw as [[_ Hw]|Hw]; [|done]. unfold is_expired in E. rewrite Hw in E. apply negb_true_iff, Z.leb_gt in E. lia.
  - cbv zeta. apply post_ret. split; [done|]. cbn. apply elem_of_app. right. by apply list_elem_of_singleton.
Qed.

(** When the close timer expires, the connection is drained and tells the endpoint. *)
Lemma close_timeout t c now : waiting t c → t <= now → post (handle_timeout c now) reported.
Proof.
  intros Hw Ht. unfold handle_timeout, Timer_VALUES. cbn [mfold].
  eapply post_bind; [by apply (on_timeout_closing t)|]. intros c1 [K1 _]. eapply post_bind; [by apply (on_timeout_closing t)|].
  intros c2 [K2 K2']. eapply post_bind; [apply (on_timeout_close t); [|done]|].
  { destruct (K1 Hw) as [Hw1|Hr1]; auto. }
  intros c3 Hc3. do 6 (eapply post_bind; [by apply (on_timeout_closing t)|]; intros ? [_ ?K]; cbv beta in *).
  apply post_ret. auto 10.
Qed.
End Runs.

(** * Properties *)

Section Properties.
Context {C : Type} {HC : Controller C} {H : Type} {HH : Heap H} {T : Type} {HT : Session T} {R : Type} {HR : Rng R}
  {TS : Type} {HTS : TokenStore TS}.
Local Notation Connection := (Connection C H T R TS).
Implicit Types c : Connection.
Context (max_instant : Z) (crypto_turns transmit_turns : nat) (pick : gset StreamId → option StreamId).

(** C4: whatever a connection receives, sends and is asked to do, the counter of ack-eliciting packets in flight on its path
    is exactly the number of those it tracks and the counter of bytes is at least their size, so taking a tracked packet out
    of its space, because it was acknowledged or lost, never makes a counter underflow. *)
Theorem in_flight_accounted n c0 acts c seen :
  started max_instant crypto_turns n c0 → n + total_received acts < 2 ^ 64 →
  run max_instant crypto_turns transmit_turns pick acts (c0, []) = Ret (c, seen) →
  let g := p_generation (c_path c) in
  sum_of (eliciting_of g) (tracked c) = if_ack_eliciting (p_in_flight (c_path c)) ∧
  sum_of (bytes_of g) (tracked c) <= if_bytes (p_in_flight (c_path c)) ∧
  (∀ id k p s, take_packet (c_spaces c id) k = Ret (Some p, s) →
     ∃ c', conn_remove_in_flight (upd_space c id (fun _ => s)) p = Ret c').
Proof.
  intros Hs Hb Hr. pose proof (total_received_nonneg acts) as Ht. apply started_ok in Hs; [|lia].
  destruct (post_elim _ _ _ (run_keeps _ _ _ _ _ _ _ Hb Hs) Hr) as [_ [Ha _] _]. cbn [fst] in Ha.
  destruct (acct_path _ _ _ _ Ha) as [Hbytes Hel]. split; [exact Hel|]. split; [exact Hbytes|].
  intros id k p s Hk. pose proof (post_elim _ _ _ (inner_take [] c c id k (inner_refl c)) Hk) as Hi. cbn [fst snd] in Hi.
  apply (in_acct _ _ _ Hi []) in Ha. destruct (acct_remove _ _ _ Ha) as (c' & Hc' & _). by exists c'.
Qed.

End Properties.

(** * Witnesses *)

Definition sample_run (acts : list Action) (w : SampleConnection * list EndpointEvent) : M (SampleConnection * list EndpointEvent) :=
  run far_future 10 50 no_pick acts w.

(** A run of the sample client whose end satisfies a test. *)
Definition sample_reaches (acts : list Action) (test : SampleConnection → bool) : bool :=
  match c ← sample_client; sample_run acts (c, []) with Ret (c, _) => test c | Panic => false end.

Lemma sample_started c : sample_client = Ret c → started far_future 10 0 c.
Proof. unfold sample_client. intros E. eapply started_client, E. Qed.

Lemma sample_reached acts test :
  sample_reaches acts test = true →
  ∃ c0 c seen, started far_future 10 0 c0 ∧ sample_run acts (c0, []) = Ret (c, seen) ∧ test c = true.
Proof.
  unfold sample_reaches. pose proof sample_started as Hs. destruct sample_client as [c0|]; [|discriminate]. cbn [mbind M_bind].
  destruct (sample_run acts (c0, [])) as [[c seen]|] eqn:E1; [|discriminate]. intros Ht. exists c0, c, seen. auto.
Qed.

Definition sample_sending : list (Action (H := list Buffer)) := [ATransmit 0 0 1 1500].
Definition one_eliciting (c : SampleConnection) : bool :=
  (if_ack_eliciting (p_in_flight (c_path c)) =? 1) && (p_generation (c_path c) =? 0).

Lemma sample_sending_reached : sample_reaches sample_sending one_eliciting = true.
Proof. vm_compute. reflexivity. Qed.

Lemma in_flight_accounted_witness :
  ∃ c : SampleConnection, sum_of (eliciting_of 0) (tracked c) = 1 ∧ if_ack_eliciting (p_in_flight (c_path c)) = 1.
Proof.
  destruct (sample_reached _ _ sample_sending_reached) as (c0 & c & seen & Hs & Hr & Ht).
  apply andb_true_iff in Ht as [Ht Hg]. apply Z.eqb_eq in Ht, Hg.
  assert (Hb : 0 + total_received sample_sending < 2 ^ 64) by done.
  pose proof (in_flight_accounted far_future 10 50 no_pick 0 c0 sample_sending c seen Hs Hb Hr) as Hc.
  cbv zeta in Hc. rewrite Hg, Ht in Hc. exists c. split; [apply Hc|exact Ht].
Defined.

Definition sample_closing : list (Action (H := list Buffer)) := [ATransmit 0 0 1 1500; AClose 5 (mkVarInt 3) [110; 111]].
Definition closed_silently (c : SampleConnection) : bool := is_closed (c_state c) && is_nil (c_endpoint_events c).

Lemma sample_closing_reached : sample_reaches sample_closing closed_silently = true.
Proof. vm_compute. reflexivity. Qed.

