(* ===== verification/ConnSendTheorems.v ===== *)
(** The theorems on sending: the limit on an unvalidated path, silence once a connection is drained, and that filling a batch of
    datagrams comes to an end. *)
From stdpp Require Import gmap.
From S2P Require Import Prelude Coding RangeSet Ids Shared Frame FrameTheorems Float Packet PacketSafety TransportParams Token TokenCache.
From S2P Require Import Assembler Recv Send PendingStreams Retransmits CidQueue CidState Streams Dedup PendingAcks Mtud Timer.
From S2P Require Import AckFrequency Rtt Congestion Pacing Datagrams Spaces PacketCrypto Config Paths Connection ConnRecovery.
From S2P Require Import PacketBuilder ConnTransmit Post ConnSample ConnInv ConnInvOps.
Open Scope Z_scope.

Section Sending.
Context {C : Type} {HC : Controller C} {H : Type} {HH : Heap H} {T : Type} {HT : Session T} {R : Type} {HR : Rng R}
  {TS : Type} {HTS : TokenStore TS}.
Local Notation Connection := (Connection C H T R TS).
Local Notation Batch := (Batch (C := C) (H := H) (T := T) (R := R) (TS := TS)).
Implicit Types (c : Connection) (b : Batch).
Context (transmit_turns : nat) (pick : gset StreamId → option StreamId).

(** A batch in which nothing has been written. *)
Record idle_batch c b : Prop := {
  ib_conn : b_conn b = c;
  ib_buf : b_buf b = [];
  ib_num : b_num_datagrams b = 0;
  ib_capacity : b_buf_capacity b = 0;
  ib_coalesce : b_coalesce b = true;
  ib_builder : b_builder b = None
}.

(** The length of a tag is a [usize]. *)
Definition tags_typed c : Prop := ∀ id hk pk, local_keys c id = Ret (hk, pk) → 0 <= tag_len pk.

Lemma idle_not_allowed c b now id e :
  idle_batch c b → anti_amplification_blocked (c_path c) 1 = Ret true → datagram_allowed b now id e = Ret (AmplificationBlocked, c).
Proof.
  intros [I1 I2 I3 I4 I5 I6] Hb. unfold datagram_allowed, umul. cbv zeta. rewrite I1, I3, Z.mul_0_r. cbn [mbind M_bind].
  change (0 <=? u64_max) with true. cbn [mbind M_bind]. rewrite uadd_ok by done. cbn [mbind M_bind]. change (0 + 1) with 1. by rewrite Hb.
Qed.

Lemma idle_make_room c b now m id pn e :
  idle_batch c b → tags_typed c → anti_amplification_blocked (c_path c) 1 = Ret true →
  post (make_room b now m id pn e) (fun r => ∃ b', r = inl (Break b') ∧ idle_batch c b').
Proof.
  intros Hi Ht Hb. pose proof Hi as [I1 I2 I3 I4 I5 I6]. unfold make_room. rewrite post_bind_assoc, I1.
  eapply post_bind; [apply post_eq|]. intros [hk pk] Hk. apply Ht in Hk. apply post_bind_ret. cbv zeta.
  rewrite I2, I3, I4, I5, I6. change (len (@nil Z)) with 0. rewrite post_bind_assoc, usub_ok by lia. apply post_bind_ret, post_bind_ret.
  cbn [snd]. assert (Hlt : (0 - 0 <? MIN_PACKET_SPACE + tag_len pk) = true).
  { apply Z.ltb_lt. unfold MIN_PACKET_SPACE, MAX_HANDSHAKE_OR_0RTT_HEADER_SIZE, MAX_CID_SIZE. lia. }
  rewrite Hlt. destruct (m <=? 0); [apply post_ret; by exists b|].
  rewrite (idle_not_allowed c) by done. apply post_bind_ret, post_ret. eexists. split; [reflexivity|]. by split.
Qed.

Lemma idle_turn c b now t m closing :
  idle_batch c b → tags_typed c → anti_amplification_blocked (c_path c) 1 = Ret true →
  post (transmit_turn pick b now t m closing) (fun r => ∃ b', (r = Continue b' ∨ r = Break b') ∧ idle_batch c b').
Proof.
  intros Hi Ht Hb. unfold transmit_turn. destruct (b_spaces b) as [|id ids]; [apply post_ret; eauto|]. cbv zeta.
  eapply post_bind; [apply post_true|]. intros pn _. eapply post_bind; [apply post_true|]. intros room _.
  eapply post_bind; [apply post_true|]. intros can _. destruct (_ && _).
  { apply post_ret. eexists. split; [by left|]. destruct Hi. by split. }
  eapply post_bind; [apply post_true|]. intros data _. eapply post_bind.
  { apply (idle_make_room c); [destruct Hi; by split|done|done]. }
  intros r (b' & -> & Hb'). apply post_ret. eauto.
Qed.

Lemma idle_loop c fuel b now t m closing :
  idle_batch c b → tags_typed c → anti_amplification_blocked (c_path c) 1 = Ret true →
  post (transmit_loop pick fuel b now t m closing) (fun r => match r with Some r => ∃ b', r = inr b' ∧ idle_batch c b' | None => True end).
Proof.
  intros Hi Ht Hb. revert b Hi. induction fuel as [|fuel IH]; intros b Hi; [done|]. cbn [transmit_loop].
  eapply post_bind; [by apply (idle_turn c)|]. intros r (b' & [-> | ->] & Hb'); [by apply IH|]. apply post_ret. eauto.
Qed.

(** Nothing was sent. *)
Definition silent (r : option Transmit * list Z * Connection) : Prop := r.1 = (None, []).

Lemma idle_after_loop c b now :
  idle_batch c b → is_established (c_state c) = false → post (after_loop b now) silent.
Proof.
  intros [I1 I2 I3 I4 I5 I6] He. unfold after_loop, finish_batch. rewrite I6. apply post_bind_ret. cbv zeta. rewrite I1, I2.
  cbn [is_nil andb]. change (c_state (set_c_app_limited c (negb (b_congestion_blocked b)))) with (c_state c). rewrite He.
  by apply post_ret.
Qed.

(** What the preparations of a batch leave alone. *)
Record same_sending c c' : Prop := {
  ss_path : c_path c' = c_path c;
  ss_state : c_state c' = c_state c;
  ss_keys id : local_keys c' id = local_keys c id
}.

Lemma queue_probes_same c : same_sending c (queue_probes c).
Proof.
  assert (Hstep : ∀ c id q can, same_sending c (upd_space c id (fun s => maybe_queue_probe s q can))).
  { intros c1 id q can. split; try done. intros id'. unfold local_keys.
    assert (Hk : Spaces.crypto (c_spaces (upd_space c1 id (fun s => maybe_queue_probe s q can)) id') = Spaces.crypto (c_spaces c1 id')).
    { cbn [upd_space c_spaces set_c_spaces]. unfold set_space. case_bool_decide as Hid; [subst id'|done].
      unfold maybe_queue_probe. by repeat case_match. }
    by rewrite Hk. }
  unfold queue_probes. cbn [fold_left].
  set (c1 := upd_space c SpInitial _). set (c2 := upd_space c1 SpHandshake _). set (c3 := upd_space c2 SpData _).
  assert (H1 : same_sending c c1) by apply Hstep. assert (H2 : same_sending c1 c2) by apply Hstep.
  assert (H3 : same_sending c2 c3) by apply Hstep. destruct H1, H2, H3. split; intros; congruence.
Qed.

Lemma queue_ack_frequency_same c : post (queue_ack_frequency c) (same_sending c).
Proof.
  unfold queue_ack_frequency. destruct (tc_ack_frequency_config _); [|by split]. eapply post_bind; [apply post_true|]. intros b _.
  apply post_ret. split; try done. intros id. unfold local_keys, upd_pending. cbn [upd_space c_spaces set_c_spaces c_zero_rtt_crypto].
  unfold set_space. by case_bool_decide; [subst id|].
Qed.

Lemma same_sending_tags c c' : same_sending c c' → tags_typed c → tags_typed c'.
Proof. intros Hs Ht id hk pk Hk. rewrite (ss_keys _ _ Hs) in Hk. eauto. Qed.

Lemma blocked_batch c now t m mtu closing :
  tags_typed c → anti_amplification_blocked (c_path c) 1 = Ret true → is_established (c_state c) = false →
  post (send_batch transmit_turns pick c now t m mtu [] closing) silent.
Proof.
  intros Ht Hb He. unfold send_batch. eapply post_bind; [apply queue_ack_frequency_same|]. intros c1 Hc1. cbv zeta.
  pose proof (same_sending_tags _ _ Hc1 Ht) as Ht1. rewrite <- (ss_path _ _ Hc1) in Hb. rewrite <- (ss_state _ _ Hc1) in He.
  eapply post_bind; [by apply (idle_loop c1)|]. intros [r|]; [|done]. intros (b' & -> & Hb'). apply post_bind_ret.
  by apply (idle_after_loop c1).
Qed.

End Sending.

(** * Witnesses *)

Definition server_blocked (c : SampleConnection) : bool :=
  match anti_amplification_blocked (c_path c) 1 with Ret b => b | Panic => false end &&
  negb (is_established (c_state c)) && match c_prev_path c with None => true | Some _ => false end &&
  match sample_transmit c 0 with Ret _ => true | Panic => false end &&
  forallb (fun id => match local_keys c id with Ret k => 0 <=? tag_len k.2 | Panic => true end) [SpInitial; SpHandshake; SpData].
Definition blocked_check : bool := match sample_server with Ret c => server_blocked c | Panic => false end.

Lemma blocked_checked : blocked_check = true.
Proof. vm_compute. reflexivity. Qed.

Lemma blocked_run : ∃ (c : SampleConnection) r, tags_typed c ∧ c_prev_path c = None ∧
  anti_amplification_blocked (c_path c) 1 = Ret true ∧ is_established (c_state c) = false ∧ sample_transmit c 0 = Ret r.
Proof.
  pose proof blocked_checked as Hc. unfold blocked_check in Hc. destruct sample_server as [c|]; [|discriminate].
  unfold server_blocked in Hc. apply andb_true_iff in Hc as [Hc Ht]. apply andb_true_iff in Hc as [Hc Hs].
  apply andb_true_iff in Hc as [Hc Hp]. apply andb_true_iff in Hc as [Hb He]. apply negb_true_iff in He.
  destruct (anti_amplification_blocked _ _) as [[]|] eqn:Eb; try discriminate Hb. destruct (c_prev_path c) eqn:Ep; [discriminate|].
  destruct (sample_transmit c 0) as [r|] eqn:Es; [|discriminate]. exists c, r. split; [|done].
  intros id hk pk Hk. rewrite forallb_forall in Ht. specialize (Ht id). rewrite Hk in Ht. apply Z.leb_le, Ht. destruct id; cbn; tauto.
Qed.


(** * Batches come to an end *)

Section Ends.
Context {C : Type} {HC : Controller C} {H : Type} {HH : Heap H} {T : Type} {HT : Session T} {R : Type} {HR : Rng R}
  {TS : Type} {HTS : TokenStore TS}.
Local Notation Connection := (Connection C H T R TS).
Implicit Types c : Connection.
Context (pick : gset StreamId → option StreamId).

Lemma len_app_le (n : Z) (a b : list Z) : n <= len a → n <= len (a ++ b).
Proof. rewrite len_app. pose proof (len_nonneg b). lia. Qed.

(** * Header keys *)

(** Header protection changes bytes in place. *)
Definition header_sized (k : HeaderKey) : Prop := 0 <= sample_size k ∧ ∀ o b, len (hk_encrypt k o b) = len b.

(** The key a packet of a space is protected with. *)
Definition header_of (s : SpaceId → PacketSpace Keys H) (z : option ZeroRttCrypto) (id : SpaceId) : option HeaderKey :=
  match Spaces.crypto (s id) with
  | Some crypto => Some (local (k_header crypto))
  | None => match id with SpData => z_header <$> z | _ => None end
  end.
Definition header_key c (id : SpaceId) : option HeaderKey := header_of (c_spaces c) (c_zero_rtt_crypto c) id.
Definition keys_sized c : Prop := ∀ id k, header_key c id = Some k → header_sized k.

(** Sending forgets header keys but never changes one. *)
Definition headers_kept c c' : Prop := ∀ id, header_key c' id = header_key c id ∨ header_key c' id = None.

Lemma local_keys_header c id hk pk : local_keys c id = Ret (hk, pk) → header_key c id = Some hk.
Proof. unfold local_keys, header_key, header_of. destruct (Spaces.crypto _); [by intros [= <- <-]|]. destruct id; try done. destruct (c_zero_rtt_crypto c); [by intros [= <- <-]|done]. Qed.
Lemma headers_kept_refl c : headers_kept c c.
Proof. intros id. by left. Qed.
Lemma headers_kept_sized c c' : headers_kept c c' → keys_sized c → keys_sized c'.
Proof. intros Hk Hs id k Hi. destruct (Hk id) as [E|E]; rewrite E in Hi; [by eapply Hs|done]. Qed.
Lemma headers_kept_trans c c' c'' : headers_kept c c' → headers_kept c' c'' → headers_kept c c''.
Proof. intros H1 H2 id. destruct (H2 id) as [->|E]; [apply H1|by right]. Qed.
Lemma headers_kept_upd c c' id f :
  headers_kept c c' → (Spaces.crypto (f (c_spaces c' id)) = Spaces.crypto (c_spaces c' id)) → headers_kept c (upd_space c' id f).
Proof.
  intros Hk Hf id'. specialize (Hk id').
  assert (E : header_key (upd_space c' id f) id' = header_key c' id'); [|by rewrite E].
  unfold header_key, header_of. cbn [upd_space c_spaces set_c_spaces c_zero_rtt_crypto]. unfold set_space. case_bool_decide; [subst|done]. by rewrite Hf.
Qed.
End Ends.

(** A connection whose header keys are those of another one, after changes of other fields and of spaces. *)
Ltac kept_tac :=
  lazymatch goal with
  | |- headers_kept ?c ?c => apply headers_kept_refl
  | |- headers_kept _ (upd_space _ _ _) => apply headers_kept_upd; [kept_tac|try reflexivity]
  | |- headers_kept _ (with_pending _ _ _) => unfold with_pending; kept_tac
  | |- headers_kept _ (match ?x with _ => _ end) => destruct x; kept_tac
  | |- headers_kept _ _ =>
      first [assumption | match goal with Hk : headers_kept ?c ?c1 |- headers_kept ?c _ => exact Hk end | apply headers_kept_refl |
             lazymatch goal with |- headers_kept ?c (?f ?c1 _) => change (headers_kept c c1); kept_tac end]
  end.

Section Fills.
Context {C : Type} {HC : Controller C} {H : Type} {HH : Heap H} {T : Type} {HT : Session T} {R : Type} {HR : Rng R}
  {TS : Type} {HTS : TokenStore TS}.
Local Notation Connection := (Connection C H T R TS).
Local Notation Fill := (Fill (C := C) (H := H) (T := T) (R := R) (TS := TS)).
Implicit Types c : Connection.
Implicit Types f : Fill.
Context (pick : gset StreamId → option StreamId).

(** * Frames only add to the packet *)

Definition fill_grown c0 (n : Z) f : Prop := headers_kept c0 (fl_conn f) ∧ n <= len (fl_buf f).

Lemma fl_write_grown c0 n f c s (m : M (list Z)) : headers_kept c0 c → n <= len (fl_buf f) → post (fl_write f c s m) (fill_grown c0 n).
Proof.
  intros Hk Hn. unfold fl_write. eapply post_bind; [apply post_true|]. intros bs _. apply post_ret. split; [done|]. by apply len_app_le.
Qed.
End Fills.

Ltac grown_start := let Hk := fresh "Hk" in let Hn := fresh "Hn" in
  intros [Hk Hn]; match type of Hk with headers_kept _ (fl_conn ?f) => destruct f as [c sent buf] end; cbn [fl_conn fl_buf] in Hk, Hn.
Ltac grown_tac := unfold space_pending; cbn [fl_conn fl_sent fl_buf]; repeat (cbv beta zeta; first [
  lazymatch goal with |- post (fl_write _ _ _ _) (fill_grown _ _) => apply fl_write_grown; [kept_tac|cbn [fl_buf]; try done] end | post_step]);
  try (split; cbn [fl_conn fl_buf]; [solve [kept_tac]|repeat apply len_app_le; done]).

Section Fills.
Context {C : Type} {HC : Controller C} {H : Type} {HH : Heap H} {T : Type} {HT : Session T} {R : Type} {HR : Rng R}
  {TS : Type} {HTS : TokenStore TS}.
Local Notation Connection := (Connection C H T R TS).
Local Notation Fill := (Fill (C := C) (H := H) (T := T) (R := R) (TS := TS)).
Implicit Types c : Connection.
Implicit Types f : Fill.
Context (pick : gset StreamId → option StreamId).

Lemma fill_handshake_done_grown c0 n id b f : fill_grown c0 n f → post (fill_handshake_done id b f) (fill_grown c0 n).
Proof. grown_start. unfold fill_handshake_done. grown_tac. Qed.
Lemma fill_ping_grown c0 n id f : fill_grown c0 n f → post (fill_ping id f) (fill_grown c0 n).
Proof. grown_start. unfold fill_ping. grown_tac. Qed.
Lemma fill_immediate_ack_grown c0 n id f : fill_grown c0 n f → post (fill_immediate_ack id f) (fill_grown c0 n).
Proof. grown_start. unfold fill_immediate_ack. grown_tac. Qed.
Lemma fill_acks_grown c0 n now id f : fill_grown c0 n f → post (fill_acks now id f) (fill_grown c0 n).
Proof. grown_start. unfold fill_acks. grown_tac. Qed.
Lemma fill_ack_frequency_grown c0 n id pn f : fill_grown c0 n f → post (fill_ack_frequency id pn f) (fill_grown c0 n).
Proof. grown_start. unfold fill_ack_frequency. grown_tac. Qed.
Lemma fill_path_challenge_grown c0 n id m f : fill_grown c0 n f → post (fill_path_challenge id m f) (fill_grown c0 n).
Proof. grown_start. unfold fill_path_challenge. grown_tac. Qed.
Lemma fill_path_response_grown c0 n id m f : fill_grown c0 n f → post (fill_path_response id m f) (fill_grown c0 n).
Proof. grown_start. unfold fill_path_response. grown_tac. Qed.

Lemma fill_crypto_grown c0 n fuel id m f : fill_grown c0 n f → post (fill_crypto fuel id m f) (fill_grown c0 n).
Proof.
  revert f. induction fuel as [|fuel IH]; intros f; [done|]. grown_start. cbn [fill_crypto]. unfold space_pending. cbn [fl_conn fl_sent fl_buf].
  destruct (negb _); [by apply post_ret|]. destruct (rt_crypto _); [by apply post_ret|]. do 5 (eapply post_bind; [apply post_true|]; intros ? _). cbv zeta.
  eapply post_bind; [apply post_true|]; intros ? _. eapply post_bind; [apply (fl_write_grown c0 n); [kept_tac|exact Hn]|]. apply IH.
Qed.
Lemma fill_new_cids_grown c0 n q id m f : fill_grown c0 n f → post (fill_new_cids q id m f) (fill_grown c0 n).
Proof.
  revert f. induction q as [|x q IH]; intros f; grown_start; cbn [fill_new_cids]; (destruct (negb _); [by apply post_ret|]); [by apply post_ret|].
  eapply post_bind; [apply (fl_write_grown c0 n); [kept_tac|exact Hn]|]. apply IH.
Qed.
Lemma fill_retire_cids_grown c0 n q id m f : fill_grown c0 n f → post (fill_retire_cids q id m f) (fill_grown c0 n).
Proof.
  revert f. induction q as [|x q IH]; intros f; grown_start; cbn [fill_retire_cids]; (destruct (negb _); [by apply post_ret|]); [by apply post_ret|].
  eapply post_bind; [apply (fl_write_grown c0 n); [kept_tac|exact Hn]|]. apply IH.
Qed.
Lemma datagram_write_grown s buf m n : n <= len buf → post (datagram_write s buf m) (fun r => n <= len r.1.2).
Proof. intros Hn. unfold datagram_write. post_walk; cbn [fst snd]; repeat apply len_app_le; done. Qed.
Lemma fill_datagrams_loop_grown c0 n fuel m b f : fill_grown c0 n f → post (fill_datagrams_loop fuel m b f) (fun r => fill_grown c0 n r.2).
Proof.
  revert b f. induction fuel as [|fuel IH]; intros b f; grown_start; cbn [fill_datagrams_loop]; (destruct (negb _); [by apply post_ret|]); cbn [fl_conn fl_sent fl_buf];
    (eapply post_bind; [apply (datagram_write_grown _ _ _ n Hn)|]); intros [[w buf'] d] Hb; cbn [fst snd] in Hb; cbv zeta; (destruct w; [|apply post_ret; by split]);
    [done|]. apply IH. by split.
Qed.
Lemma fill_datagrams_grown c0 n id m f : fill_grown c0 n f → post (fill_datagrams id m f) (fill_grown c0 n).
Proof.
  intros Hf. unfold fill_datagrams. eapply (post_bind _ _ (fun r => fill_grown c0 n r.2)).
  { destruct (bool_decide _); [by apply fill_datagrams_loop_grown|done]. }
  intros [b f'] [Hk Hn]. cbn [snd] in Hk, Hn. cbv zeta. destruct (_ && _); apply post_ret; by split.
Qed.
Lemma fill_new_tokens_grown c0 n q t id m f : fill_grown c0 n f → post (fill_new_tokens q t id m f) (fill_grown c0 n).
Proof.
  revert f. induction q as [|x q IH]; intros f; grown_start; cbn [fill_new_tokens]; [by apply post_ret|].
  eapply post_bind; [apply post_true|]; intros _ _. cbn [fl_conn fl_sent fl_buf]. destruct (c_side _); [done|]. destruct (negb _).
  { apply IH. split; [cbn [fl_conn]; kept_tac|done]. }
  do 2 (eapply post_bind; [apply post_true|]; intros ? _). destruct (_ <=? _).
  { apply post_ret. split; [cbn [fl_conn]; kept_tac|done]. }
  eapply post_bind; [apply (fl_write_grown c0 n); [kept_tac|exact Hn]|]. apply IH.
Qed.

(** What a stream table writes is added to the packet. *)
Definition tx_grown (n : Z) (t : Tx (H := H)) : Prop := n <= len (tx_buf t).
Lemma tx_push_grown t s p sent (m : M (list Z)) n : tx_grown n t → post (tx_push t s p sent m) (tx_grown n).
Proof. intros Hn. unfold tx_push. post_walk. by apply len_app_le. Qed.
Lemma write_max_stream_datas_grown fuel t m n : tx_grown n t → post (write_max_stream_datas pick fuel t m) (tx_grown n).
Proof.
  revert t. induction fuel as [|fuel IH]; intros t Hn; [done|]. cbn [write_max_stream_datas]. destruct (_ <? _); [|by apply post_ret].
  destruct (pick _) as [id|]; [|by apply post_ret]. cbv zeta. destruct (get_open_recv _ _); [|by apply IH]. destruct (negb _); [by apply IH|].
  eapply post_bind; [apply post_true|]. intros [max b] _. eapply post_bind; [by apply tx_push_grown|]. apply IH.
Qed.
Lemma write_control_frames_grown s p r buf m n : n <= len buf → post (write_control_frames pick s p r buf m) (tx_grown n).
Proof.
  intros Hn. unfold write_control_frames. cbv zeta. set (t0 := mkTx _ _ _ _). assert (H0 : tx_grown n t0) by done. clearbody t0. clear Hn.
  eapply (post_bind _ _ (tx_grown n)).
  { revert t0 H0. induction (rev (rt_reset_stream p)) as [|x l IH]; intros t Ht; cbn [write_resets]; (destruct (_ <? _); [|by apply post_ret]); [by apply post_ret|].
    destruct x as [id code]. cbv zeta. destruct (get_send _ _); [|by apply IH]. eapply post_bind; [apply post_true|]. intros o _. cbv zeta.
    eapply post_bind; [by apply tx_push_grown|]. apply IH. }
  intros t1 H1. eapply (post_bind _ _ (tx_grown n)).
  { revert t1 H1. induction (rev (rt_stop_sending p)) as [|x l IH]; intros t Ht; cbn [write_stop_sendings]; (destruct (_ <? _); [|by apply post_ret]); [by apply post_ret|].
    cbv zeta. eapply post_bind; [by apply tx_push_grown|]. apply IH. }
  intros t2 H2. eapply (post_bind _ _ (tx_grown n)).
  { unfold write_max_data. destruct (_ && _); [|by apply post_ret]. cbv zeta. by apply tx_push_grown. }
  intros t3 H3. eapply post_bind; [by apply write_max_stream_datas_grown|]. intros t4 H4. eapply (post_bind _ _ (tx_grown n)).
  { apply post_mfold; [|done]. intros t d Ht. unfold write_max_streams. cbv zeta. destruct (_ || _); [by apply post_ret|]. by apply tx_push_grown. }
  intros t5 H5. apply post_mfold; [|done]. intros t d Ht. unfold write_streams_blocked. cbv zeta. destruct (negb _ || _); [by apply post_ret|]. by apply tx_push_grown.
Qed.
Lemma write_stream_frames_grown (s : @StreamsState H) buf m fair n : n <= len buf → post (write_stream_frames s buf m fair) (fun r => n <= len r.1.2).
Proof.
  unfold write_stream_frames. generalize (S (Z.to_nat (m - len buf) + length (queue_iter (Streams.pending s)))) as fuel, (@nil StreamMeta) as metas.
  intros fuel. revert s buf. induction fuel as [|fuel IH]; intros s buf metas Hn; [done|]. cbn [write_stream_frames_loop].
  destruct (_ <? _); [|by apply post_ret]. destruct (queue_pop _) as [[p|] q]; [|by apply post_ret]. cbv zeta. destruct (get_send _ _) as [stream|]; [|by apply IH].
  destruct (is_reset _); [by apply IH|]. do 4 (eapply post_bind; [apply post_true|]; intros ? _). eapply post_bind; [apply post_true|]. intros [[offsets el] b] _.
  cbv zeta. do 3 (eapply post_bind; [apply post_true|]; intros ? _). apply IH. by apply len_app_le.
Qed.
Lemma fill_control_grown c0 n id m f : fill_grown c0 n f → post (fill_control pick id m f) (fill_grown c0 n).
Proof.
  grown_start. unfold fill_control. destruct (negb _); [by apply post_ret|]. cbv zeta. cbn [fl_conn fl_sent fl_buf].
  eapply post_bind; [by apply write_control_frames_grown|]. intros t Ht. apply post_ret. split; [cbn [fl_conn]; kept_tac|exact Ht].
Qed.
Lemma fill_streams_grown c0 n id m f : fill_grown c0 n f → post (fill_streams id m f) (fill_grown c0 n).
Proof.
  grown_start. unfold fill_streams. destruct (negb _); [by apply post_ret|]. cbv zeta. cbn [fl_conn fl_sent fl_buf].
  eapply post_bind; [by apply write_stream_frames_grown|]. intros [[ms b] s] Hb. apply post_ret. by split.
Qed.
Lemma populate_packet_grown c now t id buf m pn :
  post (populate_packet pick c now t id buf m pn) (fill_grown c (len buf)).
Proof.
  unfold populate_packet. cbv zeta. set (f := mkFill _ _ _). assert (Hf : fill_grown c (len buf) f) by (split; [cbn; kept_tac|cbn; lia]). clearbody f.
  eapply post_bind; [by apply fill_handshake_done_grown|]. clear f Hf. intros f Hf. eapply post_bind; [by apply fill_ping_grown|]. clear f Hf. intros f Hf.
  eapply post_bind; [by apply fill_immediate_ack_grown|]. clear f Hf. intros f Hf. eapply post_bind; [by apply fill_acks_grown|]. clear f Hf. intros f Hf.
  eapply post_bind; [by apply fill_ack_frequency_grown|]. clear f Hf. intros f Hf. eapply post_bind; [by apply fill_path_challenge_grown|]. clear f Hf. intros f Hf.
  eapply post_bind; [by apply fill_path_response_grown|]. clear f Hf. intros f Hf. eapply (post_bind _ _ (fill_grown c (len buf))).
  { destruct (_ && _); [by apply post_ret|by apply fill_crypto_grown]. }
  clear f Hf. intros f Hf. eapply post_bind; [by apply fill_control_grown|]. clear f Hf. intros f Hf. eapply post_bind; [by apply fill_new_cids_grown|].
  clear f Hf. intros f Hf. eapply post_bind; [by apply fill_retire_cids_grown|]. clear f Hf. intros f Hf. eapply post_bind; [by apply fill_datagrams_grown|].
  clear f Hf. intros f Hf. eapply post_bind; [by apply fill_new_tokens_grown|]. clear f Hf. intros f Hf. by apply fill_streams_grown.
Qed.
End Fills.

Section Packets.
Context {C : Type} {HC : Controller C} {H : Type} {HH : Heap H} {T : Type} {HT : Session T} {R : Type} {HR : Rng R}
  {TS : Type} {HTS : TokenStore TS}.
Local Notation Connection := (Connection C H T R TS).
Implicit Types c : Connection.
Context (pick : gset StreamId → option StreamId).

(** * A finished packet is not empty *)

Lemma with_keys_header c k id : header_key (with_keys c k) id = header_of (spaces k) (zero_rtt_crypto k) id.
Proof. unfold with_keys. destruct (key_discard k); reflexivity. Qed.
Lemma update_keys_header (k : @KeyState H T) e r :
  post (update_keys tls_next_1rtt_keys k e r) (fun k' => ∀ id, header_of (spaces k') (zero_rtt_crypto k') id = header_of (spaces k) (zero_rtt_crypto k) id).
Proof.
  unfold update_keys. destruct (tls_next_1rtt_keys _) as [new t]. eapply post_bind; [apply post_true|]. intros n _. cbv zeta.
  eapply post_bind; [apply post_eq|]. intros keys Ek. eapply post_bind; [apply post_true|]. intros next _. apply post_ret.
  destruct (Spaces.crypto (spaces k SpData)) as [keys'|] eqn:Ec; [|done]. injection Ek as ->. intros id. unfold header_of. cbn [spaces zero_rtt_crypto]. unfold set_space. case_bool_decide; [subst id|done]. cbn. by rewrite Ec.
Qed.
Lemma force_key_update_kept c : post (conn_force_key_update c) (headers_kept c).
Proof.
  unfold conn_force_key_update, force_key_update. eapply (post_bind _ _ (fun k => ∀ id, header_of (spaces k) (zero_rtt_crypto k) id = header_key c id)).
  { destruct (negb _); [done|]. destruct (prev_crypto _); [done|]. apply update_keys_header. }
  intros k Hk. apply post_ret. intros id. left. by rewrite with_keys_header.
Qed.
Lemma check_confidentiality_kept c now id : post (check_confidentiality c now id) (fun r => match r with Some c' => headers_kept c c' | None => True end).
Proof.
  assert (Hc : ∀ reason, headers_kept c (close_inner c now reason)).
  { intros reason. unfold close_inner. destruct (is_closed _); exact (headers_kept_refl c). }
  unfold check_confidentiality. destruct id; cbv zeta.
  3: { destruct (_ <=? _); [|apply post_ret; exact (headers_kept_refl c)]. eapply post_bind; [apply force_key_update_kept|]. done. }
  all: eapply post_bind; [apply post_true|]; intros key _; destruct (_ =? _); [apply post_ret, Hc|]; destruct (_ <? _); [done|apply post_ret; exact (headers_kept_refl c)].
Qed.
Lemma get_tx_number_crypto (s : PacketSpace Keys H) : post (get_tx_number s) (fun r => Spaces.crypto r.2 = Spaces.crypto s).
Proof. unfold get_tx_number. do 3 (eapply post_bind; [apply post_true|]; intros ? _). done. Qed.
Lemma allocate_crypto f rng (s : PacketSpace Keys H) : post (allocate f rng s) (fun r => Spaces.crypto r.2 = Spaces.crypto s).
Proof.
  unfold allocate. eapply post_bind; [apply get_tx_number_crypto|]. intros [n s'] Hs. cbn [snd] in Hs. destruct (negb _); [done|]. cbv zeta.
  eapply post_bind; [apply post_true|]; intros next _. eapply post_bind; [apply get_tx_number_crypto|]. intros r Hr. apply post_ret. cbn [snd]. congruence.
Qed.
Lemma next_number_kept c id : post (next_number c id) (fun r => headers_kept c r.2).
Proof.
  unfold next_number. cbv zeta. destruct id.
  3: { eapply post_bind; [apply allocate_crypto|]. intros [[n f] s] Hs. apply post_ret. cbn [snd] in *. destruct (_ =? _); apply headers_kept_upd; try exact Hs; exact (headers_kept_refl c). }
  all: eapply post_bind; [apply get_tx_number_crypto|]; intros [n s] Hs; apply post_ret; cbn [snd] in *; apply headers_kept_upd; [exact (headers_kept_refl c)|exact Hs].
Qed.
Lemma packet_header_kept c id cid n : headers_kept c (packet_header c id cid n).2 ∧ Header_pn (packet_header c id cid n).1 ≠ None.
Proof.
  unfold packet_header. destruct id; try (split; [exact (headers_kept_refl c)|done]). destruct (Spaces.crypto _); [|split; [exact (headers_kept_refl c)|done]].
  destruct (c_spin_enabled c); cbn; (split; [exact (headers_kept_refl c)|done]).
Qed.

(** The packet of a builder starts within the buffer and has a packet number. *)
Definition begun (pb : PacketBuilder) (buf : list Z) : Prop :=
  pe_pn (pb_partial_encode pb) ≠ None ∧ 0 <= pe_start (pb_partial_encode pb) <= len buf.
Definition start_of (pb : PacketBuilder) : Z := pe_start (pb_partial_encode pb).

Lemma PacketBuilder_new_begun now id cid buf cap start e c :
  post (PacketBuilder_new now id cid buf cap start e c) (fun r => headers_kept c r.2 ∧
    match r.1.1 with Some pb => begun pb r.1.2 ∧ start_of pb = len buf | None => True end).
Proof.
  unfold PacketBuilder_new. eapply post_bind; [apply check_confidentiality_kept|]. intros [c1|] H1; [|apply post_ret; split; [exact (headers_kept_refl c)|done]].
  eapply post_bind; [apply next_number_kept|]. intros [n c2] H2. cbn [snd] in H2. eapply post_bind; [apply post_true|]. intros number _.
  destruct (packet_header_kept c2 id cid number) as [H3 Hpn]. destruct (packet_header c2 id cid number) as [header c3]. cbn [fst snd] in H3, Hpn.
  assert (Hk : headers_kept c c3) by eauto using headers_kept_trans. unfold Header_encode. rewrite post_bind_assoc.
  eapply post_bind; [apply post_true|]. intros bytes _. apply post_bind_ret.
  assert (Hd : ∀ g c4, (if grease_quic_bit (c_peer_params c3) then draw_bool c3 else (false, c3)) = (g, c4) → headers_kept c c4).
  { intros g c4. destruct (grease_quic_bit _); [|by intros [= _ <-]]. unfold draw_bool. intros [= _ <-]. exact Hk. }
  destruct (if grease_quic_bit _ then _ else _) as [g c4] eqn:Eg. specialize (Hd g c4 eq_refl). cbv zeta.
  eapply post_bind; [apply post_true|]. intros [hk pk] _. do 2 (eapply post_bind; [apply post_true|]; intros ? _). apply post_ret. split; [done|]. cbn [fst snd].
  split; [|done]. split; [done|]. cbn [pb_partial_encode pe_start]. pose proof (len_nonneg buf). split; [done|]. destruct g; [|by apply len_app_le].
  unfold xor_byte, len. rewrite length_alter. fold (len (buf ++ bytes)). by apply len_app_le.
Qed.

(** The sample header protection needs makes a packet longer than four bytes. *)
Lemma builder_finish_grown pb c buf : keys_sized c → begun pb buf → post (builder_finish pb c buf) (fun r => start_of pb < len r.2).
Proof.
  intros Hs [Hpn Hst]. unfold builder_finish. cbv zeta. eapply post_bind; [apply post_eq|]. intros [hk pk] Hk. apply local_keys_header in Hk.
  destruct (Hs _ _ Hk) as [Hsample Hlen]. eapply post_bind; [apply post_true|]. intros _ _.
  set (buf1 := _ ++ replicate (Z.to_nat (tag_len pk)) 0). assert (Hb : len buf <= len buf1) by (do 2 apply len_app_le; done). clearbody buf1.
  unfold PartialEncode_finish. destruct (pe_pn (pb_partial_encode pb)) as [[n w]|]; [|done]. rewrite post_bind_assoc.
  eapply (post_bind _ _ (fun x => 0 <= x)). { unfold usub. destruct (Z.leb_spec n (header_len (pb_partial_encode pb))); [|done]. cbn. lia. }
  intros pos Hpos. rewrite post_bind_assoc. eapply post_bind; [apply post_true|]. intros b _. cbv zeta. rewrite post_bind_assoc.
  eapply post_bind; [apply (post_eq (rassert _))|]. intros [] Ha. apply post_bind_ret. eapply post_bind; [apply post_true|]. intros k _. apply post_ret. cbn [snd].
  unfold rassert in Ha. destruct (Z.leb_spec (pos + 4 + sample_size hk) (len (pk_encrypt pk (pb_exact_number pb) b (header_len (pb_partial_encode pb))))); [|done].
  unfold start_of. rewrite len_app, Hlen, len_takeZ by lia. lia.
Qed.

Lemma sent_crypto (s : PacketSpace Keys H) n p : post (sent s n p) (fun r => Spaces.crypto r.2 = Spaces.crypto s).
Proof.
  unfold sent. eapply (post_bind _ _ (fun r => Spaces.crypto r.2 = Spaces.crypto s)); [|intros [f s'] Hs; exact Hs].
  destruct (ack_eliciting p); [done|]. destruct (_ <? _).
  - destruct (OrdMap.first_above _ _) as [[k v]|]; [|done]. destruct (OrdMap.remove _ _) as [[x|] m]; [|done]. eapply post_bind; [apply post_true|]. done.
  - eapply post_bind; [apply post_true|]. done.
Qed.
Lemma timer_kept c c1 now id : headers_kept c c1 → headers_kept c (reset_keep_alive c1 now) ∧ headers_kept c (reset_idle_timeout c1 now id).
Proof. intros Hk. unfold reset_keep_alive, reset_idle_timeout. split; repeat case_match; exact Hk. Qed.
Lemma set_loss_detection_timer_kept c c1 now : headers_kept c c1 → post (set_loss_detection_timer c1 now) (headers_kept c).
Proof. intros Hk. unfold set_loss_detection_timer. post_walk; repeat case_match; exact Hk. Qed.
Lemma track_sent_kept pb now c s size : post (track_sent pb now c s size) (headers_kept c).
Proof.
  unfold track_sent. cbv zeta. eapply (post_bind _ _ (fun r => Spaces.crypto r.2 = Spaces.crypto (c_spaces c (pb_space pb)))).
  { unfold path_sent. eapply post_bind; [apply post_true|]. intros f _. cbv zeta. eapply post_bind; [apply sent_crypto|].
    intros [forgotten s'] Hs. cbn [snd] in Hs. eapply post_bind; [apply post_true|]. intros p _. exact Hs. }
  intros [p s'] Hs. cbn [snd] in Hs. assert (H1 : headers_kept c (upd_space (set_c_path c p) (pb_space pb) (fun _ => s'))).
  { apply headers_kept_upd; [exact (headers_kept_refl c)|exact Hs]. }
  apply (timer_kept _ _ now SpData) in H1 as [H1 _]. set (c1 := reset_keep_alive _ _) in *. clearbody c1. destruct (size =? 0); [apply post_ret; exact H1|].
  eapply (post_bind _ _ (headers_kept c)); [|intros c4 H4; apply post_ret; exact H4].
  apply set_loss_detection_timer_kept. destruct (pb_ack_eliciting pb); [|exact H1]. destruct (c_permit_idle_reset _).
  - apply (timer_kept c _ now (pb_space pb)). kept_tac.
  - kept_tac.
Qed.
Lemma finish_and_track_grown pb now c s buf : keys_sized c → begun pb buf →
  post (finish_and_track pb now c s buf) (fun r => headers_kept c r.1 ∧ start_of pb < len r.2).
Proof.
  intros Hs Hb. unfold finish_and_track. eapply post_bind; [by apply builder_finish_grown|]. intros [[n padded] buf'] Hg. cbn [snd] in Hg.
  destruct s as [s|]; [|apply post_ret; split; [apply headers_kept_refl|done]]. cbv zeta.
  eapply post_bind; [apply track_sent_kept|]. intros c' Hc. by apply post_ret.
Qed.
Lemma discard_space_kept c now id : post (discard_space c now id) (headers_kept c).
Proof.
  unfold discard_space. eapply post_bind; [apply (post_eq (rassert _))|]. intros [] Ha. unfold rassert in Ha. case_bool_decide as Hd; [done|]. cbv zeta.
  set (c1 := if bool_decide _ then _ else c). assert (H1 : headers_kept c c1) by (unfold c1; repeat case_match; exact (headers_kept_refl c)). clearbody c1.
  eapply (post_bind _ _ (headers_kept c)); [|intros c2; apply set_loss_detection_timer_kept]. apply post_mfold.
  - intros c2 p H2. unfold conn_remove_in_flight. post_walk; try exact H2.
  - intros id'. unfold header_key at 1 3, header_of. cbn [upd_space c_spaces set_c_spaces c_zero_rtt_crypto]. unfold set_space. case_bool_decide as Hi.
    + subst id'. right. by destruct id.
    + apply H1.
Qed.

(** * Every turn makes progress *)
Local Notation Batch := (Batch (C := C) (H := H) (T := T) (R := R) (TS := TS)).
Implicit Types b : Batch.

Definition batch_begun b : Prop :=
  keys_sized (b_conn b) ∧ match b_builder b with Some pb => begun pb (b_buf b) ∧ start_of pb <= b_buf_capacity b | None => True end.

(** The room behind the start of the packet under construction. *)
Definition room_left b : nat :=
  match b_builder b with Some pb => Z.to_nat (b_buf_capacity b - start_of pb) | None => S (Z.to_nat (b_buf_capacity b)) end.

Lemma datagram_allowed_kept b now id e : post (datagram_allowed b now id e) (fun r => headers_kept (b_conn b) r.2).
Proof. unfold datagram_allowed. post_walk; exact (headers_kept_refl (b_conn b)). Qed.
Lemma pad_to_encode (pb : PacketBuilder) n : post (pad_to pb n) (fun pb' => pb_partial_encode pb' = pb_partial_encode pb).
Proof. unfold pad_to. post_walk. done. Qed.

(** A finished datagram leaves the rest of the batch alone, apart from its sizes. *)
Definition same_batch b b' : Prop := b_num_datagrams b' = b_num_datagrams b ∧ b_spaces b' = b_spaces b.
Lemma finish_datagram_kept b now id pn :
  batch_begun b → post (finish_datagram b now id pn) (fun r => headers_kept (b_conn b) (b_conn r.1) ∧ same_batch b r.1).
Proof.
  intros [Hk Hb]. unfold finish_datagram. destruct (b_builder b) as [pb|] eqn:Eb; [|apply post_ret; split; [apply headers_kept_refl|done]].
  destruct Hb as [Hb _]. eapply (post_bind _ _ (fun pb' => pb_partial_encode pb' = pb_partial_encode pb)); [destruct (b_pad_datagram b); [apply pad_to_encode|done]|].
  intros pb1 E1. cbv zeta.
  assert (Hgo : ∀ pb', pb_partial_encode pb' = pb_partial_encode pb → post ('(c, buf) ← finish_and_track pb' now (b_conn b) (b_sent_frames b) (b_buf b);
    let b := packet_done b c buf in
        if b_num_datagrams b =? 1 then
          let b := clip b in
          if bool_decide (id = SpData) then
            n ← frame_space (b_conn b) (b_segment_size b) pn;
            can ← conn_space_can_send (b_conn b) id n;
            mret (b, negb (SendableFrames_is_empty can))
          else mret (b, true)
        else mret (b, true)) (fun r => headers_kept (b_conn b) (b_conn r.1) ∧ same_batch b r.1)).
  { intros pb' E'. eapply post_bind; [apply finish_and_track_grown; [done|unfold begun; by rewrite E']|]. intros [c buf] [Hc _]. cbn [fst] in Hc. cbv zeta.
    cbn [packet_done b_num_datagrams]. destruct (_ =? 1); [|by apply post_ret]. destruct (bool_decide _); [|by apply post_ret].
    do 2 (eapply post_bind; [apply post_true|]; intros ? _). by apply post_ret. }
  destruct (_ || _); [|by apply Hgo]. do 2 (eapply post_bind; [apply post_true|]; intros ? _).
  destruct (_ || _); [apply post_ret; split; [exact (headers_kept_refl (b_conn b))|done]|]. eapply post_bind; [apply pad_to_encode|]. intros pb2 E2. apply Hgo. congruence.
Qed.
Lemma start_datagram_kept b id :
  post (start_datagram b id) (fun b' => headers_kept (b_conn b) (b_conn b') ∧ b_num_datagrams b' = b_num_datagrams b + 1 ∧ b_spaces b' = b_spaces b).
Proof.
  unfold start_datagram. destruct (_ =? 0); (eapply post_bind; [apply post_true|]; intros cap _; cbv zeta; do 2 (eapply post_bind; [apply post_true|]; intros ? _);
    apply post_ret; split; [|done]); cbn [b_conn]; kept_tac.
Qed.

(** Room is made in a new datagram, or behind the packet that is finished now. *)
Definition room_made (m : Z) b b' : Prop :=
  headers_kept (b_conn b) (b_conn b') ∧ b_spaces b' = b_spaces b ∧
  (b_num_datagrams b < m ∧ b_num_datagrams b' = b_num_datagrams b + 1 ∨
   b_num_datagrams b' = b_num_datagrams b ∧ b_buf_capacity b' = b_buf_capacity b ∧
     match b_builder b with Some pb => start_of pb < len (b_buf b') | None => True end).

Lemma make_room_made b now m id pn e :
  batch_begun b → post (make_room b now m id pn e) (fun r => match r with
    | inl (Continue b') => ∃ c, headers_kept (b_conn b) c ∧ b' = set_b_blocked (next_space (set_b_conn b c))
    | inl _ => True
    | inr b' => room_made m b b'
    end).
Proof.
  intros Hb. unfold make_room. eapply post_bind; [apply post_true|]. intros tag _. cbv zeta. eapply post_bind; [apply post_true|]. intros full _. destruct full.
  - destruct (Z.leb_spec m (b_num_datagrams b)); [done|]. eapply post_bind; [apply datagram_allowed_kept|]. intros [gate c] Hc. cbn [snd] in Hc.
    destruct gate; try done; [|apply post_ret; eauto]. eapply post_bind.
    { apply finish_datagram_kept. destruct Hb as [Hk Hb]. split; [by eapply headers_kept_sized|done]. }
    intros [b1 go_on] [H1 [Hn Hs]]. cbn [fst set_b_conn b_conn b_num_datagrams b_spaces] in *. destruct go_on; [|done].
    eapply post_bind; [apply start_datagram_kept|]. intros b2 (H2 & Hn2 & Hs2). apply post_ret. split; [eauto using headers_kept_trans|]. split; [congruence|]. left. lia.
  - destruct Hb as [Hk Hb]. unfold room_made. destruct (b_builder b) as [pb|] eqn:Eb; [|apply post_ret; split; [apply headers_kept_refl|]; by auto].
    eapply post_bind; [apply finish_and_track_grown; [done|apply Hb]|]. intros [c buf] [Hc Hl]. apply post_ret. split; [done|]. split; [done|]. by right.
Qed.

(** A packet that was begun in the room behind the buffer. *)
Definition packet_begun b b' : Prop :=
  batch_begun b' ∧ b_num_datagrams b' = b_num_datagrams b ∧ b_buf_capacity b' = b_buf_capacity b ∧
  ∃ pb, b_builder b' = Some pb ∧ start_of pb = len (b_buf b).

Lemma send_packet_begun b now t id closing e can :
  keys_sized (b_conn b) → post (send_packet pick b now t id closing e can) (fun r => match r with Continue b' => packet_begun b b' | _ => True end).
Proof.
  intros Hk. unfold send_packet. eapply (post_bind _ _ (fun n => n = b_buf_capacity b - len (b_buf b) ∧ 0 <= n)).
  { unfold usub. destruct (Z.leb_spec (len (b_buf b)) (b_buf_capacity b)); [|done]. cbn. lia. }
  intros n [-> Hn]. eapply post_bind; [apply post_true|]. intros _ _. cbv zeta. eapply (post_bind _ _ (headers_kept (b_conn b))).
  { destruct (_ && _); [apply discard_space_kept|apply headers_kept_refl]. }
  intros c1 H1. eapply post_bind; [apply post_true|]. intros _ _. eapply post_bind; [apply post_true|]. intros cid _. eapply post_bind; [apply PacketBuilder_new_begun|].
  intros [[[pb|] buf] c2] [H2 Hb]; cbn [fst snd] in *; [|done]. destruct Hb as [Hb Hst].
  assert (H2' : headers_kept (b_conn b) c2).
  { eapply headers_kept_trans; [exact H1|]. intros id'. destruct (H2 id') as [E|E]; [|by right]. rewrite E. left. rewrite with_keys_header. unfold clear_update_unacked. by destruct (prev_crypto _). }
  assert (Hs2 : keys_sized c2) by by eapply headers_kept_sized. destruct closing.
  - eapply (post_bind _ _ (fun buf' => len buf <= len buf')). { unfold fill_close. post_walk; repeat apply len_app_le; done. }
    intros buf' Hbuf. apply post_ret. destruct (bool_decide _); [done|]. split; [|split; [done|]; split; [done|]; by exists pb].
    split; [done|]. cbn. destruct Hb as [Hb1 Hb2]. split; [split; [done|lia]|]. unfold start_of in *. lia.
  - eapply (post_bind _ _ (fun r => match r with Some (Return _ _ _) | None => True | _ => False end)).
    { destruct (_ && _); [|done]. unfold send_off_path_response. post_walk; done. }
    intros [turn|] Ht; [apply post_ret; by destruct turn|]. eapply (post_bind _ _ (packet_begun b)); [|by intros b' Hb'].
    unfold send_frames. cbn [b_conn b_buf]. eapply post_bind; [apply populate_packet_grown|]. intros f [Hf Hl]. cbv zeta.
    do 2 (eapply post_bind; [apply post_true|]; intros ? _). apply post_ret. split; [|split; [done|]; split; [done|]; by exists pb].
    split; cbn [b_conn b_builder b_buf b_buf_capacity].
    + eapply headers_kept_sized; [|exact Hs2]. destruct (bool_decide _); [|exact Hf]. unfold stop_timer. kept_tac.
    + destruct Hb as [Hb1 Hb2]. split; [split; [done|lia]|]. unfold start_of in *. lia.
Qed.

Definition turns_less (m : Z) b b' : Prop :=
  b_num_datagrams b < m ∧ b_num_datagrams b < b_num_datagrams b' ∨
  b_num_datagrams b' = b_num_datagrams b ∧
    ((room_left b' < room_left b)%nat ∨ room_left b' = room_left b ∧ (length (b_spaces b') < length (b_spaces b))%nat).

Lemma transmit_turn_less b now t m closing :
  batch_begun b → post (transmit_turn pick b now t m closing) (fun r => match r with Continue b' => batch_begun b' ∧ turns_less m b b' | _ => True end).
Proof.
  intros Hb. unfold transmit_turn. destruct (b_spaces b) as [|id ids] eqn:Es; [done|]. cbv zeta. do 3 (eapply post_bind; [apply post_true|]; intros ? _).
  destruct (_ && _).
  { apply post_ret. split; [exact Hb|]. right. split; [done|]. right. split; [done|]. cbn. rewrite Es. cbn. lia. }
  eapply post_bind; [apply post_true|]. intros data _. eapply post_bind; [apply make_room_made; exact Hb|]. intros [turn|b1] Hr.
  - apply post_ret. destruct turn as [b1| |]; try done. destruct Hr as (c & Hc & ->). split; [split; [by eapply headers_kept_sized, Hb|apply Hb]|].
    right. split; [done|]. right. split; [done|]. cbn. rewrite Es. cbn. lia.
  - destruct Hr as (Hc & Hs & Hn). eapply post_weaken; [apply send_packet_begun; by eapply headers_kept_sized, Hb|].
    intros [b2| |]; try done. intros (Hb2 & Hn2 & Hcap & pb & Ebuilder & Hst). split; [done|]. cbn in Hn.
    destruct Hn as [[Hm Hn]|(Hn & Hcap1 & Hl)]; [left; lia|]. right. split; [congruence|]. left. unfold room_left. rewrite Ebuilder, Hcap, Hcap1, Hst.
    destruct Hb2 as [_ Hb2]. rewrite Ebuilder in Hb2. destruct (b_builder b) as [pb0|] eqn:E0; pose proof (len_nonneg (b_buf b1)); [|lia].
    rewrite Hst, Hcap, Hcap1 in Hb2. lia.
Qed.

(** * The loop ends *)

Definition loop_ends b (now t m : Z) (closing : bool) : Prop :=
  ∃ n r, r ≠ Ret None ∧ ∀ turns, (n <= turns)%nat → transmit_loop pick turns b now t m closing = r.

Lemma loop_ends_turn b now t m closing :
  (∀ b', transmit_turn pick b now t m closing = Ret (Continue b') → loop_ends b' now t m closing) → loop_ends b now t m closing.
Proof.
  intros Hb. destruct (transmit_turn pick b now t m closing) as [[b'|b'|tr buf c]|] eqn:Et.
  1: destruct (Hb b' eq_refl) as (n & r & Hr & Hn); exists (S n), r.
  2: exists 1%nat, (Ret (Some (inr b'))). 3: exists 1%nat, (Ret (Some (inl (tr, buf, c)))). 4: exists 1%nat, Panic.
  all: split; [done|]; intros [|turns] Hle; [lia|]; cbn [transmit_loop]; rewrite Et; cbn [mbind M_bind]; try done. apply Hn. lia.
Qed.

Lemma begun_loop_ends b now t m closing : batch_begun b → loop_ends b now t m closing.
Proof.
  remember (Z.to_nat (m - b_num_datagrams b)) as k eqn:Ek. remember (room_left b) as r eqn:Er. remember (length (b_spaces b)) as s eqn:Es.
  revert r s b Ek Er Es. induction (lt_wf k) as [k _ IHk]. intros r. induction (lt_wf r) as [r _ IHr]. intros s. induction (lt_wf s) as [s _ IHs]. intros b -> -> -> Hb.
  apply loop_ends_turn. intros b' Ht. destruct (post_elim _ _ _ (transmit_turn_less b now t m closing Hb) Ht) as [Hb' [[H1 H2]|[H1 [H2|[H2 H3]]]]].
  - eapply IHk; [|done..]. lia.
  - eapply IHr; [exact H2|by rewrite H1|done..].
  - eapply IHs; [exact H3|by rewrite H1|done..].
Qed.

Lemma queue_ack_frequency_kept c : post (queue_ack_frequency c) (headers_kept c).
Proof.
  unfold queue_ack_frequency. destruct (tc_ack_frequency_config _); [|apply headers_kept_refl]. eapply post_bind; [apply post_true|]. intros b _.
  apply post_ret. unfold upd_pending. kept_tac.
Qed.

(** The batch the loop starts with. *)
Definition first_batch c (mtu : Z) : Batch := mkBatch c [] 0 0 mtu 0 true None None false false false [SpInitial; SpHandshake; SpData].

(** C7: filling a batch of datagrams comes to an end, whatever the connection has to send: each turn of the loop starts a datagram,
    of which a batch holds a bounded number, or a packet behind the one before, or goes on to the next packet number space.  From some
    number of turns on the loop does not run out of them, and the result does not depend on them. *)
Theorem transmission_ends c now t m mtu closing :
  keys_sized c → ∃ n, ∀ turns, (n <= turns)%nat →
    send_batch turns pick c now t m mtu [] closing = send_batch n pick c now t m mtu [] closing ∧
    ∀ c', queue_ack_frequency c = Ret c' → transmit_loop pick turns (first_batch c' mtu) now t m closing ≠ Ret None.
Proof.
  intros Hk. pose proof (queue_ack_frequency_kept c) as Hq. unfold send_batch. destruct (queue_ack_frequency c) as [c1|]; cbn [mbind M_bind]; [|by exists 0%nat].
  fold (first_batch c1 mtu). destruct (begun_loop_ends (first_batch c1 mtu) now t m closing) as (n & r & Hr & Hn).
  { split; [by eapply headers_kept_sized, Hk|done]. }
  exists n. intros turns Hle. rewrite (Hn turns Hle), (Hn n (le_n n)). split; [done|]. intros c' [= <-]. by rewrite (Hn turns Hle).
Qed.
End Packets.

Definition sample_headers : Prop :=
  match sample_server with
  | Ret c => header_key c SpInitial = Some null_header_key ∧ header_key c SpHandshake = None ∧ header_key c SpData = None
  | Panic => False
  end.
Lemma sample_headers_null : sample_headers.
Proof. vm_compute. repeat split. Qed.
Lemma transmission_ends_witness : ∃ (c : SampleConnection) n, sample_server = Ret c ∧
  ∀ turns, (n <= turns)%nat → send_batch turns no_pick c 0 0 1 1200 [] false = send_batch n no_pick c 0 0 1 1200 [] false.
Proof.
  pose proof sample_headers_null as Hc. unfold sample_headers in Hc. destruct sample_server as [c|]; [|done]. destruct Hc as (H1 & H2 & H3).
  destruct (transmission_ends no_pick c 0 0 1 1200 false) as [n Hn].
  { intros [] k Hi; [rewrite H1 in Hi|rewrite H2 in Hi; done|rewrite H3 in Hi; done]. injection Hi as <-. split; [cbn; lia|done]. }
  exists c, n. split; [reflexivity|]. intros turns Hle. exact (proj1 (Hn turns Hle)).
Defined.
