(* ===== verification/ConnLossTheorems.v ===== *)
(** The theorems on loss recovery: which packets are declared lost, when the next loss is due, and what an acknowledgement
    does to the packets it covers. *)
From stdpp Require Import gmap.
From S2P Require Import Prelude Coding RangeSet Ids Shared Frame FrameTheorems Float Packet PacketSafety TransportParams Token TokenCache.
From S2P Require Import Assembler Recv Send PendingStreams Retransmits CidQueue CidState Streams Dedup PendingAcks Mtud Timer.
From S2P Require Import AckFrequency Rtt Congestion Pacing Datagrams Spaces PacketCrypto Config Paths Connection ConnRecovery.
From S2P Require Import PacketBuilder ConnTransmit Post ConnInv ConnInvOps ConnReceive ConnInvReceive ConnSample.
Open Scope Z_scope.

(** * The scan *)

(** A packet sent before the largest acknowledged one is lost when it was sent long enough ago or enough later packets have
    been acknowledged. *)
Definition deemed_lost (p : LossParams) (e : Z * SentPacket) : Prop :=
  lp_loss_delay p <= Z.max 0 (lp_now p - time_sent e.2) ∨ e.1 + lp_packet_threshold p <= lp_largest_acked p.
#[global] Instance deemed_lost_dec p e : Decision (deemed_lost p e).
Proof. apply _. Defined.

(** The MTU probe is not reported as an ordinary loss. *)
Definition lost_ordinarily (p : LossParams) (e : Z * SentPacket) : Prop := deemed_lost p e ∧ Some e.1 ≠ lp_mtu_probe p.
#[global] Instance lost_ordinarily_dec p e : Decision (lost_ordinarily p e).
Proof. apply _. Defined.

(** The earlier of two times, when there are. *)
Definition sooner (x : option Z) (y : Z) : option Z := Some (match x with Some x => Z.min x y | None => y end).

(** The time the next of the packets that are not lost yet will be. *)
Definition next_loss (p : LossParams) (l : list (Z * SentPacket)) (t : option Z) : option Z :=
  foldl (fun t e => sooner t (time_sent e.2 + lp_loss_delay p)) t (filter (fun e => ¬ deemed_lost p e) l).

Lemma scan_packet_spec p s e :
  post (scan_packet p s e) (fun s' =>
    ls_lost s' = ls_lost s ++ (if decide (lost_ordinarily p e) then [e.1] else []) ∧
    ls_lost_mtu_probe s' = (if decide (deemed_lost p e ∧ Some e.1 = lp_mtu_probe p) then Some e.1 else ls_lost_mtu_probe s) ∧
    ls_loss_time s' = (if decide (deemed_lost p e) then ls_loss_time s else sooner (ls_loss_time s) (time_sent e.2 + lp_loss_delay p))).
Proof.
  destruct e as [n info]. unfold scan_packet. cbv zeta.
  eapply post_bind with (P := fun r => r = bool_decide (deemed_lost p (n, info))).
  { destruct (Z.leb_spec (lp_loss_delay p) (Z.max 0 (lp_now p - time_sent info))) as [Ho|Ho].
    - apply post_ret. symmetry. apply bool_decide_true. by left.
    - apply post_iff. intros r Hr. inv_M. apply uadd_inv in Ha as [-> _]. subst. unfold deemed_lost. cbn [fst snd].
      destruct (Z.leb_spec (n + lp_packet_threshold p) (lp_largest_acked p)); symmetry;
        [apply bool_decide_true; by right|apply bool_decide_false; lia]. }
  intros r ->. assert (Hor : (lp_loss_delay p <=? Z.max 0 (lp_now p - time_sent info)) || bool_decide (deemed_lost p (n, info)) =
    bool_decide (deemed_lost p (n, info))).
  { destruct (Z.leb_spec (lp_loss_delay p) (Z.max 0 (lp_now p - time_sent info))); [|done]. symmetry. apply bool_decide_true. by left. }
  rewrite Hor. destruct (decide (deemed_lost p (n, info))) as [Hl|Hl].
  - rewrite (bool_decide_true (deemed_lost p (n, info))) by done. destruct (decide (Some n = lp_mtu_probe p)) as [Hp|Hp].
    + rewrite (bool_decide_true (Some n = lp_mtu_probe p)) by done. apply post_ret. destruct (decide (lost_ordinarily _ _)) as [[_ Hx]|_]; [by destruct Hx|].
      destruct (decide (_ ∧ _)) as [_|Hx]; [|by destruct Hx]. cbn. by rewrite app_nil_r, Hp.
    + rewrite (bool_decide_false (Some n = lp_mtu_probe p)) by done. eapply post_bind; [apply post_true|]. intros k _.
      match goal with |- post (let '(_, _) := ?x in _) _ => destruct x as [st pe] end.
      apply post_ret. destruct (decide (lost_ordinarily _ _)) as [_|Hx]; [|by destruct Hx].
      by destruct (decide (_ ∧ _)) as [[_ Hx]|_].
  - rewrite (bool_decide_false (deemed_lost p (n, info))) by done. apply post_ret. destruct (decide (lost_ordinarily _ _)) as [[Hx _]|_]; [done|].
    destruct (decide (_ ∧ _)) as [[Hx _]|_]; [done|]. cbn. by rewrite app_nil_r.
Qed.

(** The MTU probe is among the lost packets. *)
Definition probe_lost (p : LossParams) (l : list (Z * SentPacket)) : Prop :=
  Exists (fun e => deemed_lost p e ∧ Some e.1 = lp_mtu_probe p) l.

(** The result of the scan, from a state [s]. *)
Definition scanned (p : LossParams) (l : list (Z * SentPacket)) (s s' : LossScan) : Prop :=
  ls_lost s' = ls_lost s ++ (filter (lost_ordinarily p) l).*1 ∧
  (probe_lost p l → ls_lost_mtu_probe s' = lp_mtu_probe p) ∧
  (¬ probe_lost p l → ls_lost_mtu_probe s' = ls_lost_mtu_probe s) ∧
  ls_loss_time s' = next_loss p l (ls_loss_time s).

Lemma scan_spec p l s : post (mfold (scan_packet p) l s) (scanned p l s).
Proof.
  revert s. induction l as [|e l IH]; intros s; cbn [mfold].
  - apply post_ret. split; [by rewrite app_nil_r|]. split; [|done]. intros Hx. by apply Exists_nil in Hx.
  - eapply post_bind; [apply scan_packet_spec|]. intros s1 (L1 & P1 & T1). eapply post_weaken; [apply IH|].
    intros s2 (L2 & P2 & N2 & T2). unfold probe_lost in *. split; [|split; [|split]].
    + rewrite L2, L1, <- app_assoc. f_equal. rewrite filter_cons. by destruct (decide (lost_ordinarily p e)).
    + intros [Hx|Hx]%Exists_cons; [|auto]. destruct (decide (probe_lost p l)) as [Hy|Hy]; [auto|].
      rewrite N2, P1, decide_True by done. by destruct Hx.
    + intros Hx. rewrite N2 by (intros Hy; apply Hx; by apply Exists_cons_tl).
      by rewrite P1, decide_False by (intros Hy; apply Hx; by apply Exists_cons_hd).
    + rewrite T2, T1. unfold next_loss. rewrite filter_cons.
      destruct (decide (deemed_lost p e)) as [Hl|Hl]; [by rewrite decide_False by (intros Hn; by apply Hn)|by rewrite decide_True].
Qed.

(** * Lost packets *)

Lemma filter_keeps {A} (P : A → Prop) `{∀ x, Decision (P x)} (l : list A) : Forall P l → filter P l = l.
Proof. induction 1 as [|x l Hx _ IH]; [done|]. by rewrite filter_cons_True, IH. Qed.

Lemma keys_differ {V} n (l : list (Z * V)) : n ∉ l.*1 → Forall (fun e => e.1 ≠ n) l.
Proof. intros Hn. apply Forall_forall. intros e He <-. by apply Hn, list_elem_of_fmap_2. Qed.

Lemma omap_remove_filter {V} n (m : list (Z * V)) : NoDup m.*1 → (OrdMap.remove n m).2 = filter (fun e => e.1 ≠ n) m.
Proof.
  intros Hd. destruct (omap_remove_spec n m) as [[-> Hn]|(l & v & r & -> & Hl & ->)]; cbn [snd].
  - symmetry. by apply filter_keeps, keys_differ.
  - rewrite fmap_app, fmap_cons in Hd. apply NoDup_app in Hd as (_ & _ & Hr). apply NoDup_cons in Hr as [Hr _].
    rewrite filter_app, filter_cons_False by (cbn; tauto). by rewrite !filter_keeps by (by apply keys_differ).
Qed.

Lemma take_packet_filter {K H} `{Heap H} (s : PacketSpace K H) n :
  NoDup (sent_packets s).*1 → post (take_packet s n) (fun r =>
    sent_packets r.2 = filter (fun e => e.1 ≠ n) (sent_packets s) ∧ loss_time r.2 = loss_time s).
Proof.
  intros Hd. pose proof (omap_remove_filter n _ Hd) as Hf. unfold take_packet.
  destruct (omap_remove_spec n (sent_packets s)) as [[Hr _]|(l & v & r & _ & _ & Hr)]; rewrite Hr in *; cbn [snd] in Hf.
  - by apply post_ret.
  - destruct (_ && _); [|by apply post_ret]. by destruct (checked_sub _ _).
Qed.

Lemma filter_agree {A} (P Q : A → Prop) `{∀ x, Decision (P x)} `{∀ x, Decision (Q x)} (l : list A) :
  (∀ x, x ∈ l → P x ↔ Q x) → filter P l = filter Q l.
Proof.
  induction l as [|x l IH]; intros Hx; [done|]. rewrite !filter_cons, IH by (intros y Hy; apply Hx; by right).
  assert (Hh : P x ↔ Q x) by (apply Hx; by left). destruct (decide (P x)), (decide (Q x)); tauto.
Qed.

Lemma filter_keys_nodup {V} (P : Z * V → Prop) `{∀ x, Decision (P x)} (l : list (Z * V)) : NoDup l.*1 → NoDup (filter P l).*1.
Proof.
  induction l as [|e l IH]; intros Hd; [constructor|]. apply NoDup_cons in Hd as [Hn Hd]. rewrite filter_cons. case_decide; [|auto].
  apply NoDup_cons. split; [|auto]. intros (e' & Heq & [_ He']%list_elem_of_filter)%list_elem_of_fmap. apply Hn. rewrite Heq.
  by apply list_elem_of_fmap_2.
Qed.

(** The entry of a key is unique. *)
Lemma key_unique {V} (l : list (Z * V)) x y : NoDup l.*1 → x ∈ l → y ∈ l → x.1 = y.1 → x = y.
Proof.
  induction l as [|e l IH]; intros Hd Hx Hy He; [by apply not_elem_of_nil in Hx|]. apply NoDup_cons in Hd as [Hn Hd].
  apply elem_of_cons in Hx as [-> | Hx], Hy as [-> | Hy]; [done| | |auto].
  - destruct Hn. rewrite He. by apply list_elem_of_fmap_2.
  - destruct Hn. rewrite <- He. by apply list_elem_of_fmap_2.
Qed.

Section Losses.
Context {C : Type} {HC : Controller C} {H : Type} {HH : Heap H} {T : Type} {HT : Session T} {R : Type} {HR : Rng R}
  {TS : Type} {HTS : TokenStore TS}.
Local Notation Connection := (Connection C H T R TS).
Implicit Types c : Connection.

(** The packets and the loss time of every space stay. *)
Definition same_packets c c' : Prop :=
  ∀ id, packets_in c' id = packets_in c id ∧ loss_time (c_spaces c' id) = loss_time (c_spaces c id).
#[local] Instance same_packets_trans : Transitive same_packets.
Proof. intros c1 c2 c3 H1 H2 id. destruct (H1 id), (H2 id). split; congruence. Qed.

Lemma same_upd_space c id f :
  sent_packets (f (c_spaces c id)) = sent_packets (c_spaces c id) → loss_time (f (c_spaces c id)) = loss_time (c_spaces c id) →
  same_packets c (upd_space c id f).
Proof.
  intros Hf Ht id'. unfold packets_in. cbn [upd_space c_spaces set_c_spaces]. unfold set_space. case_bool_decide; [by subst|done].
Qed.

Lemma same_spaces c c' : c_spaces c' = c_spaces c → same_packets c c'.
Proof. intros Hs id. unfold packets_in. by rewrite Hs. Qed.

(** The packets of the space [id] are those whose number is not in [ns]. *)
Definition without (ns : list Z) (id : SpaceId) c c' : Prop :=
  ∀ id', packets_in c' id' = (if decide (id' = id) then filter (fun e => e.1 ∉ ns) (packets_in c id') else packets_in c id') ∧
    loss_time (c_spaces c' id') = loss_time (c_spaces c id').

Lemma without_nil id c : without [] id c c.
Proof.
  intros id'. split; [|done]. case_decide; [|done]. symmetry. apply filter_keeps, Forall_true. intros e. apply not_elem_of_nil.
Qed.

Lemma without_same ns id c c1 c2 : without ns id c c1 → same_packets c1 c2 → without ns id c c2.
Proof. intros H1 H2 id'. destruct (H1 id'), (H2 id'). split; congruence. Qed.

Lemma without_app ns ms id c c1 c2 : without ns id c c1 → without ms id c1 c2 → without (ns ++ ms) id c c2.
Proof.
  intros H1 H2 id'. destruct (H1 id') as [P1 T1], (H2 id') as [P2 T2]. split; [|congruence]. rewrite P2, P1. case_decide; [|done].
  rewrite list_filter_filter. apply filter_agree. intros e _. rewrite not_elem_of_app. tauto.
Qed.

Lemma take_without c id n :
  NoDup (packets_in c id).*1 →
  post (take_packet (c_spaces c id) n) (fun r => without [n] id c (upd_space c id (fun _ => r.2))).
Proof.
  intros Hd. eapply post_weaken; [by apply take_packet_filter|]. intros [info s] [Hs Ht] id'. cbn [snd] in *. rewrite packets_upd_space.
  cbn [upd_space c_spaces set_c_spaces]. unfold set_space. case_decide as Hid; [rewrite bool_decide_true by done|by rewrite bool_decide_false].
  rewrite Hs, Ht. subst id'. split; [|done]. apply filter_agree. intros e _. by rewrite list_elem_of_singleton.
Qed.

Lemma without_nodup ns id id' c c' : without ns id c c' → NoDup (packets_in c id').*1 → NoDup (packets_in c' id').*1.
Proof.
  intros Hw Hd. destruct (Hw id') as [-> _]. case_decide; [|done]. by apply filter_keys_nodup.
Qed.

Lemma lose_packet_without c id n : NoDup (packets_in c id).*1 → post (lose_packet id c n) (without [n] id c).
Proof.
  intros Hd. unfold lose_packet. eapply post_bind; [by apply take_without|]. intros [info s] Hw. cbn [snd] in Hw.
  eapply post_bind; [apply post_true|]. intros p _. cbv zeta. set (c1 := upd_space _ _ _) in *. clearbody c1.
  eapply post_bind; [apply remove_in_flight_spaces|]. intros c2 Hc2. eapply post_bind; [apply post_true|]. intros st _.
  eapply post_bind; [apply post_true|]. intros m _. apply post_ret. eapply without_same; [exact Hw|].
  etrans; [by apply same_spaces|]. set (c3 := set_c_streams c2 st). etrans; [by apply (same_spaces _ c3)|].
  etrans; [|by apply same_upd_space]. match goal with |- same_packets _ (upd_path ?x _) => etrans; [|by apply (same_spaces x)] end.
  by apply same_upd_space.
Qed.

Lemma lose_packets_without id ns c : NoDup (packets_in c id).*1 → post (mfold (lose_packet id) ns c) (without ns id c).
Proof.
  revert c. induction ns as [|n ns IH]; intros c Hd; cbn [mfold]; [apply post_ret, without_nil|].
  eapply post_bind; [by apply lose_packet_without|]. intros c1 Hc1. eapply post_weaken; [apply IH; by eapply without_nodup|].
  intros c2 Hc2. by apply (without_app [n] _ _ _ c1).
Qed.

Lemma drop_oversized_spaces c : post (drop_oversized_datagrams c) (same_packets c).
Proof. unfold drop_oversized_datagrams. by post_walk. Qed.

Lemma on_packets_lost_without c now id scan n :
  NoDup (packets_in c id).*1 → post (on_packets_lost c now id scan n) (without (ls_lost scan) id c).
Proof.
  intros Hd. unfold on_packets_lost. cbv zeta. eapply post_bind; [apply post_true|]. intros largest _.
  eapply post_bind; [by apply lose_packets_without|]. intros c1 Hc1. destruct (mtud_black_hole_detected _ _) as [black m].
  eapply post_bind with (P := without (ls_lost scan) id c).
  { destruct black; [|by eapply without_same; [exact Hc1|apply same_spaces]].
    eapply post_weaken; [apply drop_oversized_spaces|]. intros c2 Hc2. eapply without_same; [exact Hc1|]. etrans; [|exact Hc2].
    by apply same_spaces. }
  intros c2 Hc2. destruct (negb _); [|done]. eapply post_bind; [apply post_true|]. intros cc _. apply post_ret.
  by eapply without_same; [exact Hc2|apply same_spaces].
Qed.

(** The packets of [id] that are left when the lost ones are gone. *)
Definition undetected (p : LossParams) (l : list (Z * SentPacket)) : list (Z * SentPacket) :=
  filter (fun e => ¬ (e.1 < lp_largest_acked p ∧ deemed_lost p e)) l.

Lemma undetected_spec p l probe :
  NoDup l.*1 → Forall (fun e => 0 <= e.1) l →
  (probe_lost p (map_range l 0 (lp_largest_acked p)) → probe = option_list (lp_mtu_probe p)) →
  (¬ probe_lost p (map_range l 0 (lp_largest_acked p)) → probe = []) →
  filter (fun e => e.1 ∉ (filter (lost_ordinarily p) (map_range l 0 (lp_largest_acked p))).*1 ++ probe) l = undetected p l.
Proof.
  intros Hd Hn Hp Hnp. apply filter_agree. intros e He. rewrite not_elem_of_app. assert (He0 : 0 <= e.1) by (by eapply Forall_forall in Hn).
  assert (Hin : ∀ e', e' ∈ map_range l 0 (lp_largest_acked p) ↔ e' ∈ l ∧ 0 <= e'.1 < lp_largest_acked p).
  { intros e'. unfold map_range. rewrite list_elem_of_filter. tauto. }
  split.
  - intros [Ho Hpr] [Hlt Hl]. destruct (decide (Some e.1 = lp_mtu_probe p)) as [Hx|Hx].
    + apply Hpr. rewrite Hp; [rewrite <- Hx; by left|]. apply Exists_exists. exists e. split; [apply Hin; by split|done].
    + apply Ho. apply list_elem_of_fmap_2, list_elem_of_filter. split; [by split|]. apply Hin. by split.
  - intros Hk. split.
    + intros (e' & Heq & [[Hl _] He'%Hin]%list_elem_of_filter)%list_elem_of_fmap. destruct He' as [He' Hr].
      pose proof (key_unique l e' e Hd He' He (eq_sym Heq)) as ->. apply Hk. split; [lia|done].
    + destruct (decide (probe_lost p (map_range l 0 (lp_largest_acked p)))) as [Hx|Hx]; [|rewrite Hnp by done; apply not_elem_of_nil].
      rewrite Hp by done. apply Exists_exists in Hx as (e' & [He' Hr]%Hin & Hl & Heq). rewrite <- Heq.
      change (option_list (Some e'.1)) with [e'.1]. intros Hee%list_elem_of_singleton. pose proof (key_unique l e' e Hd He' He (eq_sym Hee)) as ->. apply Hk. split; [lia|done].
Qed.

Lemma loss_time_upd c id f : loss_time (c_spaces (upd_space c id f) id) = loss_time (f (c_spaces c id)).
Proof. cbn [upd_space c_spaces set_c_spaces]. unfold set_space. by rewrite bool_decide_true. Qed.

Lemma without_packets ns id c c' : without ns id c c' → packets_in c' id = filter (fun e => e.1 ∉ ns) (packets_in c id).
Proof. intros Hw. destruct (Hw id) as [-> _]. by rewrite decide_True. Qed.

(** * Acknowledged packets *)

Lemma elts_in x v : x ∈ Arr.elts v ↔ rs_in x v.
Proof.
  unfold Arr.elts, rs_in. induction v as [|r v IH]; cbn [map concat].
  - split; [by intros ?%not_elem_of_nil|by intros ?%Exists_nil].
  - rewrite elem_of_app, elem_of_seqZ, Exists_cons, IH. assert (rstart r + (rend r - rstart r) = rend r) as -> by lia. done.
Qed.

Lemma insert_one_spec v x :
  wf_from 0 v → 0 <= x → post (Arr.insert_one v x) (fun r => wf_from 0 r.1 ∧ ∀ y, rs_in y r.1 ↔ rs_in y v ∨ y = x).
Proof.
  intros Hw Hx. unfold Arr.insert_one. apply post_iff. intros r Hr. inv_M. apply uadd_inv in Ha as [-> Hb].
  rewrite (arr_insert_ref _ _ 0) by (done || (unfold range_is_empty; cbn; zcases; [done|lia])). cbn [fst rstart rend].
  split; [by apply ins_ref_wf; [|lia..]|]. intros y. rewrite (ins_ref_in _ _ _ 0) by (done || lia).
  split; (intros [?|?]; [by left|right; lia]).
Qed.

Lemma insert_all_spec {V} (l : list (Z * V)) v :
  wf_from 0 v → Forall (fun e => 0 <= e.1) l →
  post (mfold (fun acked e => '(acked, _) ← Arr.insert_one acked e.1; mret acked) l v)
    (fun v' => wf_from 0 v' ∧ ∀ y, rs_in y v' ↔ rs_in y v ∨ y ∈ l.*1).
Proof.
  revert v. induction l as [|e l IH]; intros v Hw Hl; cbn [mfold].
  - apply post_ret. split; [done|]. intros y. rewrite fmap_nil, elem_of_nil. tauto.
  - apply Forall_cons_1 in Hl as [He Hl]. rewrite post_bind_assoc. eapply post_bind; [by apply insert_one_spec|].
    intros [v1 b] [Hw1 H1]. cbn [fst] in *. apply post_bind_ret. eapply post_weaken; [by apply IH|]. intros v2 [Hw2 H2].
    split; [done|]. intros y. rewrite H2, H1, fmap_cons, elem_of_cons. tauto.
Qed.

Lemma newly_acked_spec c id ranges acked :
  wf_from 0 acked → Forall (fun e => 0 <= e.1) (packets_in c id) →
  post (newly_acked c id ranges acked) (fun r => match r with
    | Ok v => ∀ y, rs_in y v ↔ rs_in y acked ∨ (y ∈ (packets_in c id).*1 ∧ ∃ range, range ∈ ranges ∧ range.1 <= y <= range.2)
    | Err _ => True
    end).
Proof.
  intros Hw Hn. revert acked Hw. induction ranges as [|[lo hi] ranges IH]; intros acked Hw; cbn [newly_acked].
  - apply post_ret. intros y. split; [by left|]. by intros [?|(_ & ? & ?%not_elem_of_nil & _)].
  - destruct (check_ack _ _ _ _); [|done]. eapply post_bind; [apply insert_all_spec; [done|]|].
    { apply Forall_forall. intros e [_ He]%list_elem_of_filter. by eapply Forall_forall in Hn. }
    intros v1 [Hw1 H1]. eapply post_weaken; [by apply IH|]. intros [v2|]; [|done]. intros H2 y. rewrite H2, H1.
    assert (Hr : y ∈ (map_range_incl (sent_packets (c_spaces c id)) lo hi).*1 ↔ y ∈ (packets_in c id).*1 ∧ lo <= y <= hi).
    { unfold map_range_incl. rewrite !list_elem_of_fmap. split.
      - intros (e & -> & [Hx He]%list_elem_of_filter). split; [by exists e|done].
      - intros [(e & -> & He) Hx]. exists e. split; [done|]. by apply list_elem_of_filter. }
    rewrite Hr. setoid_rewrite elem_of_cons. naive_solver.
Qed.

Lemma on_packet_acked_spaces c now p : post (on_packet_acked c now p) (fun c' => c_spaces c' = c_spaces c).
Proof.
  unfold on_packet_acked. eapply post_bind; [apply remove_in_flight_spaces|]. intros c1 Hc1.
  eapply post_bind with (P := fun c' => c_spaces c' = c_spaces c).
  { case_match; [|done]. eapply post_bind; [apply post_true|]. intros cc _. by apply post_ret. }
  intros c2 Hc2. eapply post_bind; [apply post_true|]. intros s1 _. eapply post_bind; [apply post_true|]. intros s2 _. by apply post_ret.
Qed.

Lemma ack_packet_without now id b c n : NoDup (packets_in c id).*1 → post (ack_packet now id (b, c) n) (fun r => without [n] id c r.2).
Proof.
  intros Hd. unfold ack_packet. eapply post_bind; [by apply take_without|]. intros [info s] Hw. cbn [snd] in Hw. cbv zeta.
  set (c1 := upd_space c id _) in *. clearbody c1. destruct info as [p|]; [|done].
  eapply post_bind with (P := without [n] id c).
  { destruct (sp_largest_acked p); [|done]. eapply post_bind; [apply post_true|]. intros a _. apply post_ret.
    eapply without_same; [exact Hw|]. by apply same_upd_space. }
  intros c2 Hc2. destruct (mtud_on_acked _ _ _ _) as [up m]. set (c3 := set_c_ack_frequency _ _).
  assert (Hc3 : c_spaces c3 = c_spaces c2) by (subst c3; by destruct up). clearbody c3.
  eapply post_bind; [apply on_packet_acked_spaces|]. intros c4 Hc4. apply post_ret. cbn [snd].
  eapply without_same; [exact Hc2|]. apply same_spaces. congruence.
Qed.

Lemma ack_packets_without now id ns b c :
  NoDup (packets_in c id).*1 → post (mfold (ack_packet now id) ns (b, c)) (fun r => without ns id c r.2).
Proof.
  revert b c. induction ns as [|n ns IH]; intros b c Hd; cbn [mfold]; [apply post_ret, without_nil|].
  eapply post_bind; [by apply ack_packet_without|]. intros [b1 c1] Hc1. cbn [snd] in Hc1.
  eapply post_weaken; [apply IH; by eapply without_nodup|]. intros [b2 c2] Hc2. by apply (without_app [n] _ _ _ c1).
Qed.

(** What an acknowledgement does before it looks at the packets it covers. *)
Lemma note_largest_same c id ack : same_packets c (note_largest_acked c id ack).2.
Proof.
  unfold note_largest_acked. cbv zeta. match goal with |- context [if ?b then _ else _] => destruct b end; [|by apply same_spaces].
  cbn [snd]. by apply same_upd_space; case_match.
Qed.

Lemma detect_spurious_same c ack id : post (detect_spurious_loss c ack id) (fun r => same_packets c r.2).
Proof.
  unfold detect_spurious_loss. destruct (is_nil _); [by apply post_ret, same_spaces|]. eapply post_bind; [apply post_true|]. intros rs _.
  apply post_ret. by apply same_upd_space.
Qed.

(** What follows the packets only removes further ones. *)
Lemma after_acks_subset c now id ack b n :
  post (c ← detect_lost_packets c now id true;
        let c := if peer_completed_address_validation c then set_c_pto_count c 0 else c in
        c ← check_ecn c now id ack b n;
        c ← set_loss_detection_timer c now;
        mret (Ok (E := TransportError) tt, c)) (fun r => r.1 = Ok tt ∧ packets_in r.2 id ⊆ packets_in c id).
Proof.
  pose proof (inner_refl c) as Hi. eapply post_weaken with (P := fun r => r.1 = Ok tt ∧ inner [] c r.2).
  - eapply post_bind; [by apply detect_lost_packets_inner|]. intros c1 Hc1. cbv zeta.
    eapply post_bind; [apply (check_ecn_inner [] c); inner_tac|]. intros c2 Hc2.
    eapply post_bind; [by apply set_loss_detection_timer_inner|]. intros c3 Hc3. by apply post_ret.
  - intros r [Hr Hc]. split; [done|]. by destruct (in_numbers _ _ _ Hc id).
Qed.

(** * Properties *)


End Losses.

(** * Witnesses *)

Definition lossy_packet (t : Z) : SentPacket := mkSentPacket 0 t 1200 true None None [].
Definition lossy_packets : list (Z * SentPacket) := [(0, lossy_packet 0); (4, lossy_packet (10 ^ 9))].

(** Two packets in flight, and the acknowledgement of a later one. *)
Definition with_lossy (c : SampleConnection) : SampleConnection :=
  let c := upd_space c SpInitial (fun s => set_next_packet_number (set_sent_packets s lossy_packets) 6) in
  upd_path c (fun p => set_in_flight p (mkInFlight 2400 2)).
Definition sample_lossy (c : SampleConnection) : SampleConnection :=
  upd_space (with_lossy c) SpInitial (fun s => set_largest_acked_packet s (Some 5)).

Definition lossy_now : Z := 10 ^ 9 + 10 ^ 6.
Definition lossy_check : bool :=
  match c ← sample_client; p ← loss_params (sample_lossy c) lossy_now SpInitial false;
        c' ← detect_lost_packets (sample_lossy c) lossy_now SpInitial false; mret (c', p) with
  | Ret (c', p) => bool_decide ((packets_in c' SpInitial).*1 = [4]) && bool_decide (lp_mtu_probe p = None)
  | Panic => false
  end.

Lemma lossy_checked : lossy_check = true.
Proof. vm_compute. reflexivity. Qed.

Lemma lossy_run : ∃ c p c', loss_params (sample_lossy c) lossy_now SpInitial false = Ret p ∧
  detect_lost_packets (sample_lossy c) lossy_now SpInitial false = Ret c' ∧ (packets_in c' SpInitial).*1 = [4] ∧ lp_mtu_probe p = None.
Proof.
  pose proof lossy_checked as Hc. unfold lossy_check in Hc. destruct sample_client as [c|]; [|discriminate]. cbn [mbind M_bind] in Hc.
  destruct (loss_params _ _ _ _) as [p|] eqn:Ep; [|discriminate]. cbn [mbind M_bind] in Hc.
  destruct (detect_lost_packets _ _ _ _) as [c'|] eqn:Ed; [|discriminate]. cbn [mbind M_bind mret M_ret] in Hc.
  apply andb_true_iff in Hc as [H1%bool_decide_eq_true H2%bool_decide_eq_true]. by exists c, p, c'.
Qed.

Lemma lossy_packets_in c : packets_in (sample_lossy c) SpInitial = lossy_packets.
Proof. done. Qed.


(** An acknowledgement of the packets 3 to 5: [VarInt]s of the length of the first range. *)
Definition sample_ack : Ack := mkAck 5 0 [2] None.
Definition ack_check : bool :=
  match c ← sample_client; on_ack_received (with_lossy c) lossy_now SpInitial sample_ack with
  | Ret (Ok _, c') => is_nil (packets_in c' SpInitial)
  | _ => false
  end.
Lemma ack_checked : ack_check = true.
Proof. vm_compute. reflexivity. Qed.

Lemma ack_run : ∃ (c c' : SampleConnection), on_ack_received (with_lossy c) lossy_now SpInitial sample_ack = Ret (Ok tt, c').
Proof.
  pose proof ack_checked as Hc. unfold ack_check in Hc. destruct sample_client as [c|]; [|discriminate]. cbn [mbind M_bind] in Hc.
  destruct (on_ack_received _ _ _ _) as [[[[]|e] c']|] eqn:E; try discriminate Hc. by exists c, c'.
Qed.

