(* ===== verification/CidGenerator.v ===== *)
(** Generators of local connection ids: [quic-proto/src/cid_generator.rs] and [quic-proto/src/cid_quic_lb.rs].

    The thread's random number generator and the hash function are outside the sources.  The first is an interface, threaded
    through the generators; the second is an argument of the generator that uses it. *)
From S2P Require Import Prelude Coding Shared.
Open Scope Z_scope.

(** * Interfaces *)

(** [RngCore::fill_bytes] and [random::<u8>]. *)
Class RngCore (R : Type) : Type := {
  fill_bytes : R → Z → list Z * R;
  random_u8 : R → Z * R
}.

Definition byte (b : Z) : Prop := 0 <= b < 256.

(** What is documented: exactly the slice is filled, with bytes. *)
Class RngCoreOk (R : Type) `{RngCore R} : Prop := {
  fill_bytes_len : ∀ r n, 0 <= n → len (fst (fill_bytes r n)) = n;
  fill_bytes_byte : ∀ r n, Forall byte (fst (fill_bytes r n));
  random_u8_byte : ∀ r, byte (fst (random_u8 r))
}.

(** The trait [ConnectionIdGenerator]; [gen_validate] is [true] for [Ok]. *)
Class ConnectionIdGenerator (G : Type) : Type := {
  generate_cid : G → M (ConnectionId * G);
  gen_validate : G → ConnectionId → M bool;
  gen_cid_len : G → Z;
  gen_cid_lifetime : G → option Z
}.

(** What the endpoint relies on: ids have the announced length, which does not change, and pass the generator's own test. *)
Class GeneratorOk (G : Type) `{ConnectionIdGenerator G} : Type := {
  gen_ok : G → Prop;
  generate_ok : ∀ g, gen_ok g → ∃ cid g', generate_cid g = Ret (cid, g') ∧ gen_ok g' ∧ cid_wf cid ∧ cid_len cid = gen_cid_len g ∧
    gen_cid_len g' = gen_cid_len g ∧ gen_cid_lifetime g' = gen_cid_lifetime g ∧ gen_validate g cid = Ret true;
  validate_total : ∀ g cid, gen_ok g → cid_wf cid → cid_len cid = gen_cid_len g → ∃ b, gen_validate g cid = Ret b
}.

(** * Random ids *)

Section Generators.
Context {R : Type} {HR : RngCore R}.

Record RandomConnectionIdGenerator : Type := mkRandomGenerator { rg_cid_len : Z; rg_lifetime : option Z; rg_rng : R }.

Definition RandomConnectionIdGenerator_default (rng : R) : RandomConnectionIdGenerator := mkRandomGenerator 8 None rng.
Definition RandomConnectionIdGenerator_new (cid_len : Z) (rng : R) : M RandomConnectionIdGenerator :=
  _ ← rassert (cid_len <=? MAX_CID_SIZE);
  mret (mkRandomGenerator cid_len (rg_lifetime (RandomConnectionIdGenerator_default rng)) rng).
Definition random_set_lifetime (g : RandomConnectionIdGenerator) (d : Z) : RandomConnectionIdGenerator :=
  mkRandomGenerator (rg_cid_len g) (Some d) (rg_rng g).

(** [&mut bytes_arr[..self.cid_len]] panics beyond the array. *)
Definition random_generate_cid (g : RandomConnectionIdGenerator) : M (ConnectionId * RandomConnectionIdGenerator) :=
  _ ← rassert (rg_cid_len g <=? MAX_CID_SIZE);
  let '(bytes, rng) := fill_bytes (rg_rng g) (rg_cid_len g) in
  cid ← ConnectionId_new bytes;
  mret (cid, mkRandomGenerator (rg_cid_len g) (rg_lifetime g) rng).

#[export] Instance Random_ConnectionIdGenerator : ConnectionIdGenerator RandomConnectionIdGenerator := {
  generate_cid := random_generate_cid;
  gen_validate _ _ := mret true;
  gen_cid_len := rg_cid_len;
  gen_cid_lifetime := rg_lifetime
}.

(** * Ids with a hash *)

Definition NONCE_LEN : Z := 3.
Definition SIGNATURE_LEN : Z := 8 - NONCE_LEN.

(** [hg_hash key nonce] is what [FxHasher] yields after [write_u64(key)] and [write(nonce)]. *)
Record HashedConnectionIdGenerator : Type := mkHashedGenerator {
  hg_key : Z; hg_lifetime : option Z; hg_hash : Z → list Z → Z; hg_rng : R }.

Definition HashedConnectionIdGenerator_from_key (hash : Z → list Z → Z) (rng : R) (key : Z) : HashedConnectionIdGenerator :=
  mkHashedGenerator key None hash rng.
Definition hashed_set_lifetime (g : HashedConnectionIdGenerator) (d : Z) : HashedConnectionIdGenerator :=
  mkHashedGenerator (hg_key g) (Some d) (hg_hash g) (hg_rng g).

(** [to_le_bytes()[..SIGNATURE_LEN]] of the hash. *)
Definition signature (g : HashedConnectionIdGenerator) (nonce : list Z) : list Z :=
  takeZ SIGNATURE_LEN (rev (be_bytes 8 (hg_hash g (hg_key g) nonce))).

Definition hashed_generate_cid (g : HashedConnectionIdGenerator) : M (ConnectionId * HashedConnectionIdGenerator) :=
  let '(nonce, rng) := fill_bytes (hg_rng g) NONCE_LEN in
  cid ← ConnectionId_new (nonce ++ signature g nonce);
  mret (cid, mkHashedGenerator (hg_key g) (hg_lifetime g) (hg_hash g) rng).

(** [split_at] panics on an id shorter than the nonce. *)
Definition hashed_validate (g : HashedConnectionIdGenerator) (cid : ConnectionId) : M bool :=
  '(nonce, sig) ← split_to NONCE_LEN (cid_bytes cid);
  mret (bool_decide (signature g nonce = sig)).

#[export] Instance Hashed_ConnectionIdGenerator : ConnectionIdGenerator HashedConnectionIdGenerator := {
  generate_cid := hashed_generate_cid;
  gen_validate := hashed_validate;
  gen_cid_len _ := NONCE_LEN + SIGNATURE_LEN;
  gen_cid_lifetime := hg_lifetime
}.

(** * Ids with the queue of the connection *)

Definition CONFIG_ROTATION : Z := 0.
Definition SERVER_ID_LEN : Z := 4.

Record QuicLbConnectionIdGenerator : Type := mkQuicLb { lb_queue_id : Z; lb_cid_len : Z; lb_rng : R }.

Definition QuicLb_new (queue_id cid_len : Z) (rng : R) : M QuicLbConnectionIdGenerator :=
  _ ← rassert (cid_len <=? MAX_CID_SIZE);
  _ ← rassert (1 + SERVER_ID_LEN + 4 <=? cid_len);
  mret (mkQuicLb queue_id cid_len rng).

Definition nonce_len (g : QuicLbConnectionIdGenerator) : M Z :=
  n ← usub (lb_cid_len g) 1;
  usub n SERVER_ID_LEN.

Definition lb_generate_cid (g : QuicLbConnectionIdGenerator) : M (ConnectionId * QuicLbConnectionIdGenerator) :=
  n ← nonce_len g;
  _ ← rassert (4 <=? n);
  let '(lower, rng) := random_u8 (lb_rng g) in
  let first := Z.lor (Z.shiftl CONFIG_ROTATION 5) (Z.land lower 31) in
  _ ← rassert (lb_cid_len g <=? MAX_CID_SIZE);
  let '(nonce, rng) := fill_bytes rng n in
  cid ← ConnectionId_new (first :: be_bytes 4 (lb_queue_id g) ++ nonce);
  mret (cid, mkQuicLb (lb_queue_id g) (lb_cid_len g) rng).

(** The first byte and the server id of an id; the indices are within it when its length is that of the generator. *)
Definition lb_fields (bytes : list Z) : M (Z * list Z) :=
  first ← unwrap (head bytes);
  _ ← rassert (1 + SERVER_ID_LEN <=? len bytes);
  mret (first, takeZ SERVER_ID_LEN (dropZ 1 bytes)).

Definition lb_validate (g : QuicLbConnectionIdGenerator) (cid : ConnectionId) : M bool :=
  if negb (len (cid_bytes cid) =? lb_cid_len g) then mret false
  else
    '(first, server_id) ← lb_fields (cid_bytes cid);
    if negb (Z.shiftr first 5 =? CONFIG_ROTATION) then mret false
    else mret (bool_decide (server_id = be_bytes 4 (lb_queue_id g))).

#[export] Instance QuicLb_ConnectionIdGenerator : ConnectionIdGenerator QuicLbConnectionIdGenerator := {
  generate_cid := lb_generate_cid;
  gen_validate := lb_validate;
  gen_cid_len := lb_cid_len;
  gen_cid_lifetime _ := None
}.

Definition decode_queue_id_quic_lb (cid : list Z) : M (option Z) :=
  if len cid <? 1 + SERVER_ID_LEN then mret None
  else
    '(first, server_id) ← lb_fields cid;
    if negb (Z.shiftr first 5 =? CONFIG_ROTATION) then mret None else mret (Some (from_be server_id)).
End Generators.
#[global] Arguments RandomConnectionIdGenerator R : clear implicits.
#[global] Arguments HashedConnectionIdGenerator R : clear implicits.
#[global] Arguments QuicLbConnectionIdGenerator R : clear implicits.

(** * Lemmas *)

Section Lemmas.
Context {R : Type} {HR : RngCore R} {HRok : RngCoreOk R}.

(** Ids built from bytes of the right number. *)
Lemma cid_of_bytes bytes n : len bytes = n → n <= MAX_CID_SIZE →
  ∃ cid, ConnectionId_new bytes = Ret cid ∧ cid_wf cid ∧ cid_bytes cid = bytes ∧ cid_len cid = n.
Proof. intros <- Hn. by apply ConnectionId_new_ok. Qed.

#[export] Program Instance Random_GeneratorOk : GeneratorOk (RandomConnectionIdGenerator R) := {
  gen_ok g := 0 <= rg_cid_len g <= MAX_CID_SIZE
}.
Next Obligation.
  intros g [H0 Hn]. cbn. unfold random_generate_cid. rewrite (proj2 (Z.leb_le _ _) Hn). cbn [rassert mbind M_bind].
  destruct (fill_bytes (rg_rng g) (rg_cid_len g)) as [bytes rng] eqn:E.
  destruct (cid_of_bytes bytes (rg_cid_len g)) as (cid & -> & Hw & _ & Hl); [|done|].
  { pose proof (fill_bytes_len (rg_rng g) (rg_cid_len g) H0) as Hf. by rewrite E in Hf. }
  eexists cid, _. repeat split; try done; apply Hw.
Qed.
Next Obligation. intros g cid _ _ _. by exists true. Qed.

Lemma signature_len (g : HashedConnectionIdGenerator R) nonce : len (signature g nonce) = SIGNATURE_LEN.
Proof. unfold signature. rewrite len_takeZ; [done|]. unfold len. by rewrite length_rev, be_bytes_length. Qed.

Lemma split_app {A} (a b : list A) n : len a = n → split_to n (a ++ b) = Ret (a, b).
Proof.
  intros <-. unfold split_to. rewrite len_app. pose proof (len_nonneg b). rewrite (proj2 (Z.leb_le _ _)) by lia.
  unfold takeZ, dropZ, len. by rewrite Nat2Z.id, take_app_length, drop_app_length.
Qed.

#[export] Program Instance Hashed_GeneratorOk : GeneratorOk (HashedConnectionIdGenerator R) := { gen_ok g := True }.
Next Obligation.
  intros g _. cbn. unfold hashed_generate_cid. destruct (fill_bytes (hg_rng g) NONCE_LEN) as [nonce rng] eqn:E.
  assert (Hf : len nonce = NONCE_LEN).
  { pose proof (fill_bytes_len (hg_rng g) NONCE_LEN ltac:(done)) as Hf. by rewrite E in Hf. }
  destruct (cid_of_bytes (nonce ++ signature g nonce) 8) as (cid & -> & Hw & Hb & Hl); [|done|].
  { by rewrite len_app, signature_len, Hf. }
  eexists cid, _. repeat split; try done; try apply Hw. unfold hashed_validate. rewrite Hb, (split_app _ _ NONCE_LEN) by done.
  cbn. by rewrite bool_decide_true.
Qed.
Next Obligation.
  intros g cid _ Hw Hl. cbn. unfold hashed_validate, split_to. rewrite cid_bytes_len, Hl by done. cbn. by eexists.
Qed.

Lemma nonce_len_ok (g : QuicLbConnectionIdGenerator R) : 1 + SERVER_ID_LEN <= lb_cid_len g → nonce_len g = Ret (lb_cid_len g - 5).
Proof.
  unfold nonce_len, SERVER_ID_LEN. intros H. rewrite usub_ok by lia. cbn [mbind M_bind]. rewrite usub_ok by lia. f_equal. lia.
Qed.

Lemma lower_bits b : 0 <= Z.land b 31 < 32.
Proof. change 31 with (Z.ones 5). rewrite Z.land_ones by lia. by apply Z.mod_pos_bound. Qed.

Lemma lb_fields_cons first id rest : len id = SERVER_ID_LEN → lb_fields (first :: id ++ rest) = Ret (first, id).
Proof.
  intros Hl. unfold lb_fields. cbn [head unwrap mbind M_bind]. rewrite len_cons, len_app. pose proof (len_nonneg rest).
  rewrite (proj2 (Z.leb_le _ _)) by lia. cbn [rassert mbind M_bind]. unfold takeZ, dropZ.
  change (drop (Z.to_nat 1) (first :: id ++ rest)) with (id ++ rest). rewrite take_app_length' by (unfold len in *; lia). done.
Qed.

(** What a generated id looks like. *)
Lemma lb_generates (g : QuicLbConnectionIdGenerator R) : 1 + SERVER_ID_LEN + 4 <= lb_cid_len g <= MAX_CID_SIZE →
  ∃ cid rng lower nonce, lb_generate_cid g = Ret (cid, mkQuicLb (lb_queue_id g) (lb_cid_len g) rng) ∧ cid_wf cid ∧
    cid_len cid = lb_cid_len g ∧ 0 <= lower < 32 ∧ cid_bytes cid = lower :: be_bytes 4 (lb_queue_id g) ++ nonce.
Proof.
  intros [H1 H2]. unfold lb_generate_cid. rewrite nonce_len_ok by (unfold SERVER_ID_LEN in *; lia). cbn [mbind M_bind].
  unfold SERVER_ID_LEN in H1. rewrite (proj2 (Z.leb_le 4 _)) by lia. cbn [rassert mbind M_bind].
  destruct (random_u8 (lb_rng g)) as [b rng1]. rewrite (proj2 (Z.leb_le _ _) H2). cbn [rassert mbind M_bind].
  destruct (fill_bytes rng1 (lb_cid_len g - 5)) as [nonce rng2] eqn:E2.
  pose proof (fill_bytes_len rng1 (lb_cid_len g - 5) ltac:(lia)) as Hf. rewrite E2 in Hf. cbn [fst] in Hf.
  set (lower := Z.land b 31). change (Z.lor (Z.shiftl CONFIG_ROTATION 5) lower) with lower.
  destruct (cid_of_bytes (lower :: be_bytes 4 (lb_queue_id g) ++ nonce) (lb_cid_len g)) as (cid & -> & Hw & Hb & Hl); [|done|].
  { rewrite len_cons, len_app, Hf. unfold len. rewrite be_bytes_length. lia. }
  exists cid, rng2, lower, nonce. repeat split; try done; try apply Hw; apply lower_bits.
Qed.

Lemma lb_fields_total bytes : 1 + SERVER_ID_LEN <= len bytes →
  ∃ first id, lb_fields bytes = Ret (first, id) ∧ len id = SERVER_ID_LEN ∧ ∀ P : Z → Prop, Forall P bytes → Forall P id.
Proof.
  intros Hl. unfold lb_fields. destruct bytes as [|b l]; [by rewrite len_nil in Hl|]. cbn [head unwrap mbind M_bind].
  rewrite (proj2 (Z.leb_le _ _) Hl). cbn [rassert mbind M_bind]. change (dropZ 1 (b :: l)) with l. eexists b, _. split; [done|].
  rewrite len_cons in Hl. split; [rewrite len_takeZ; [done|unfold SERVER_ID_LEN in *; lia]|].
  intros P HP. apply Forall_take. by inversion HP.
Qed.

Lemma from_be_inj a b : len a = len b → Forall byte a → Forall byte b → from_be a = from_be b → a = b.
Proof.
  intros Hl Ha. revert b Hl. induction Ha as [|x a Hx Ha IH]; intros [|y b] Hl Hb He; try done.
  rewrite !len_cons in Hl. assert (Hl' : len a = len b) by lia. rewrite !from_be_cons, Hl' in He.
  apply Forall_cons in Hb as [Hy Hb]. pose proof (from_be_range a Ha). pose proof (from_be_range b Hb). rewrite Hl' in *.
  unfold byte in *. set (p := 256 ^ len b) in *. assert (x = y) as ->.
  { destruct (Z.lt_trichotomy x y) as [|[|]]; [|done|]; exfalso; nia. }
  f_equal. apply IH; [done|done|lia].
Qed.

Lemma be_bytes_from_be bs n : len bs = Z.of_nat n → Forall byte bs → be_bytes n (from_be bs) = bs.
Proof.
  intros Hl Hb. pose proof (from_be_range bs Hb) as Hr. rewrite Hl in Hr. apply from_be_inj; [|apply be_bytes_range|done|].
  - unfold len. rewrite be_bytes_length. unfold len in Hl. lia.
  - by apply from_be_bytes_small.
Qed.

Lemma low_first b : 0 <= b < 32 → Z.shiftr b 5 =? CONFIG_ROTATION = true.
Proof. intros H. apply Z.eqb_eq. rewrite Z.shiftr_div_pow2 by lia. by apply Z.div_small. Qed.

#[export] Program Instance QuicLb_GeneratorOk : GeneratorOk (QuicLbConnectionIdGenerator R) := {
  gen_ok g := 1 + SERVER_ID_LEN + 4 <= lb_cid_len g <= MAX_CID_SIZE
}.
Next Obligation.
  intros g Hg. cbn. destruct (lb_generates g Hg) as (cid & rng & lower & nonce & -> & Hw & Hl & Hlow & Hb).
  exists cid, (mkQuicLb (lb_queue_id g) (lb_cid_len g) rng). repeat split; try done; try apply Hw; try apply Hg.
  unfold lb_validate. rewrite cid_bytes_len, Hl, Z.eqb_refl by done. cbn [negb]. rewrite Hb, lb_fields_cons.
  2: { unfold len. by rewrite be_bytes_length. }
  cbn [mbind M_bind]. rewrite low_first by done. cbn [negb]. by rewrite bool_decide_true.
Qed.
Next Obligation.
  intros g cid Hg Hw Hl. cbn in *. unfold lb_validate. rewrite cid_bytes_len, Hl, Z.eqb_refl by done. cbn [negb].
  destruct (lb_fields_total (cid_bytes cid)) as (first & id & -> & _); [|cbn [mbind M_bind]].
  { rewrite cid_bytes_len by done. unfold SERVER_ID_LEN in *. lia. }
  destruct (Z.shiftr first 5 =? CONFIG_ROTATION); eexists; reflexivity.
Qed.

Lemma QuicLb_new_inv (rng : R) queue n g :
  QuicLb_new queue n rng = Ret g → g = mkQuicLb queue n rng ∧ 1 + SERVER_ID_LEN + 4 <= n <= MAX_CID_SIZE.
Proof.
  intros Hg. apply M_bind_ret in Hg as ([] & H1 & Hg). apply M_bind_ret in Hg as ([] & H2 & [= <-]). unfold rassert in H1, H2.
  destruct (Z.leb_spec n MAX_CID_SIZE); [|done]. by destruct (Z.leb_spec (1 + SERVER_ID_LEN + 4) n).
Qed.

(** A generated id leads to the queue of its generator. *)
Lemma lb_generated_decodes (rng : R) queue n :
  0 <= queue < 2 ^ 32 → 1 + SERVER_ID_LEN + 4 <= n <= MAX_CID_SIZE →
  ∃ cid g', generate_cid (mkQuicLb queue n rng) = Ret (cid, g') ∧ cid_wf cid ∧ cid_len cid = n ∧
    decode_queue_id_quic_lb (cid_bytes cid) = Ret (Some queue).
Proof.
  intros Hq Hn. destruct (lb_generates (mkQuicLb queue n rng)) as (cid & rng' & lower & nonce & Hc & Hw & Hl & Hlow & Hb); [done|].
  exists cid, (mkQuicLb queue n rng'). split; [exact Hc|]. split; [done|]. split; [done|]. rewrite Hb. cbn [lb_queue_id].
  unfold decode_queue_id_quic_lb. rewrite lb_fields_cons by (unfold len; by rewrite be_bytes_length).
  rewrite len_cons, len_app. unfold len at 1. rewrite be_bytes_length. pose proof (len_nonneg nonce).
  destruct (Z.ltb_spec (1 + (Z.of_nat 4 + len nonce)) (1 + SERVER_ID_LEN)) as [Hlt|_]; [unfold SERVER_ID_LEN in Hlt; lia|].
  cbn [mbind M_bind]. rewrite low_first by done. cbn [negb]. by rewrite from_be_bytes_small.
Qed.
End Lemmas.

(** * Properties *)

Section Properties.
Context {R : Type} {HR : RngCore R} {HRok : RngCoreOk R}.

(** An id generated for a queue has the configured length and leads back to that queue, and the test of ids accepts
    exactly the ids of the configured length that lead to the queue of the generator. *)
Theorem quic_lb_steering (rng : R) queue n g :
  0 <= queue < 2 ^ 32 → QuicLb_new queue n rng = Ret g →
  (∃ cid g', generate_cid g = Ret (cid, g') ∧ cid_wf cid ∧ cid_len cid = n ∧ decode_queue_id_quic_lb (cid_bytes cid) = Ret (Some queue)) ∧
  ∀ cid, cid_wf cid → Forall byte (cid_bytes cid) →
    ∃ b, gen_validate g cid = Ret b ∧
      (b = true ↔ cid_len cid = n ∧ decode_queue_id_quic_lb (cid_bytes cid) = Ret (Some queue)).
Proof.
  intros Hq Hg. apply QuicLb_new_inv in Hg as [-> Hn]. split; [by apply lb_generated_decodes|].
  intros cid Hw Hbytes. pose proof (cid_bytes_len cid Hw) as Hl. cbn [gen_validate QuicLb_ConnectionIdGenerator]. unfold lb_validate.
  rewrite Hl. cbn [lb_cid_len lb_queue_id]. destruct (Z.eqb_spec (cid_len cid) n) as [He|He]; cbn [negb].
  2: { exists false. split; [done|]. split; [done|]. by intros [? _]. }
  unfold decode_queue_id_quic_lb. destruct (Z.ltb_spec (len (cid_bytes cid)) (1 + SERVER_ID_LEN)); [unfold SERVER_ID_LEN in *; lia|].
  destruct (lb_fields_total (cid_bytes cid)) as (first & id & -> & Hid & Hsub); [done|]. cbn [mbind M_bind].
  destruct (Z.shiftr first 5 =? CONFIG_ROTATION); cbn [negb]; [|exists false; split; [done|]; split; [done|]; by intros [_ ?]].
  eexists. split; [done|]. rewrite bool_decide_eq_true. split.
  + intros ->. split; [done|]. by rewrite from_be_bytes_small.
  + intros [_ [= <-]]. symmetry. apply be_bytes_from_be; [done|by apply Hsub].
Qed.
End Properties.

(** A counter in place of random bytes. *)
#[export] Instance counter_RngCore : RngCore Z := {
  fill_bytes r n := (replicate (Z.to_nat n) (r mod 256), r + 1); random_u8 r := (r mod 256, r + 1) }.
#[export] Instance counter_RngCoreOk : RngCoreOk Z.
Proof.
  split.
  - intros r n Hn. cbn. unfold len. rewrite length_replicate. lia.
  - intros r n. apply Forall_replicate. by apply Z.mod_pos_bound.
  - intros r. by apply Z.mod_pos_bound.
Qed.

Lemma quic_lb_steering_witness :
  ∃ g cid g', QuicLb_new 7 12 5 = Ret g ∧ generate_cid g = Ret (cid, g') ∧ decode_queue_id_quic_lb (cid_bytes cid) = Ret (Some 7).
Proof.
  destruct (quic_lb_steering 5 7 12 (mkQuicLb 7 12 5)) as [(cid & g' & Hg & _ & _ & Hd) _]; [lia|reflexivity|].
  exists (mkQuicLb 7 12 5), cid, g'. auto.
Defined.
