(* ===== verification/EndpointIndex.v ===== *)
(** Routing of datagrams to connections: [ConnectionIndex], [ResetTokenTable] and [ConnectionMeta] of
    [quic-proto/src/endpoint.rs], and the slab the endpoint keeps its connections in.

    The hash maps are finite maps.  The slab is a library: an interface with a view as a finite map, whose laws are what its
    documentation says of it. *)
From stdpp Require Import gmap.
From S2P Require Import Prelude Coding Ids Shared Frame Packet Retransmits Token.
Open Scope Z_scope.

(** * Keys of the maps *)

#[global] Instance ConnectionId_countable : Countable ConnectionId.
Proof.
  refine (inj_countable' (fun c => (cid_len c, cid_array c)) (fun p => mkConnectionId p.1 p.2) _). by intros [].
Defined.
#[global] Instance ResetToken_countable : Countable ResetToken.
Proof. refine (inj_countable' token_bytes mkResetToken _). by intros []. Defined.
#[global] Instance Ipv4Addr_countable : Countable Ipv4Addr.
Proof. refine (inj_countable' octets4 mkIpv4 _). by intros []. Defined.
#[global] Instance Ipv6Addr_countable : Countable Ipv6Addr.
Proof. refine (inj_countable' octets6 mkIpv6 _). by intros []. Defined.
#[global] Instance IpAddr_countable : Countable IpAddr.
Proof.
  refine (inj_countable' (fun a => match a with IpV4 x => inl x | IpV6 x => inr x end)
    (fun s => match s with inl x => IpV4 x | inr x => IpV6 x end) _). by intros [].
Defined.
#[global] Instance SocketAddr_countable : Countable SocketAddr.
Proof.
  refine (inj_countable'
    (fun a => match a with SocketV4 ip p => inl (ip, p) | SocketV6 ip p f s => inr (ip, p, f, s) end)
    (fun s => match s with inl (ip, p) => SocketV4 ip p | inr (ip, p, f, s) => SocketV6 ip p f s end) _). by intros [].
Defined.

Record FourTuple : Type := mkFourTuple { ft_remote : SocketAddr; ft_local_ip : option IpAddr }.
#[global] Instance FourTuple_eq_dec : EqDecision FourTuple.
Proof. solve_decision. Defined.
#[global] Instance FourTuple_countable : Countable FourTuple.
Proof. refine (inj_countable' (fun t => (ft_remote t, ft_local_ip t)) (fun p => mkFourTuple p.1 p.2) _). by intros []. Defined.

(** * The slab *)

Class Slab (S : Type → Type) : Type := {
  slab_map : ∀ {A}, S A → gmap Z A;
  slab_new : ∀ {A}, S A;
  slab_vacant_key : ∀ {A}, S A → Z;
  slab_insert : ∀ {A}, S A → A → Z * S A;
  slab_try_remove : ∀ {A}, S A → Z → option A * S A;
  slab_set : ∀ {A}, S A → Z → A → S A
}.

(** The key of the next insertion is vacant and announced; the other operations are those of a map. *)
Class SlabOk (S : Type → Type) `{Slab S} : Prop := {
  slab_map_new : ∀ A, slab_map (slab_new (A := A)) = ∅;
  slab_vacant : ∀ A (s : S A), slab_map s !! slab_vacant_key s = None;
  slab_insert_key : ∀ A (s : S A) a, fst (slab_insert s a) = slab_vacant_key s;
  slab_map_insert : ∀ A (s : S A) a, slab_map (snd (slab_insert s a)) = <[slab_vacant_key s := a]> (slab_map s);
  slab_remove_value : ∀ A (s : S A) k, fst (slab_try_remove s k) = slab_map s !! k;
  slab_map_remove : ∀ A (s : S A) k, slab_map (snd (slab_try_remove s k)) = delete k (slab_map s);
  slab_map_set : ∀ A (s : S A) k a, is_Some (slab_map s !! k) → slab_map (slab_set s k a) = <[k := a]> (slab_map s)
}.

(** [Slab::len], [Index] and [Slab::remove], which panic on a vacant key. *)
Definition slab_len {S} `{Slab S} {A} (s : S A) : Z := Z.of_nat (size (slab_map s)).
Definition slab_index {S} `{Slab S} {A} (s : S A) (k : Z) : M A := unwrap (slab_map s !! k).
Definition slab_remove {S} `{Slab S} {A} (s : S A) (k : Z) : M (A * S A) :=
  let '(a, s) := slab_try_remove s k in a ← unwrap a; mret (a, s).

(** * Connections as the endpoint knows them *)

(** A handle is the key of the connection in the slab. *)
Notation ConnectionHandle := Z (only parsing).

Record ConnectionMeta : Type := mkConnectionMeta {
  cm_init_cid : ConnectionId;
  cm_cids_issued : Z;
  cm_loc_cids : gmap Z ConnectionId;
  cm_addresses : FourTuple;
  cm_side : Side;
  cm_reset_token : option (SocketAddr * ResetToken)
}.

(** [ConnectionId::is_empty] through [Deref]. *)
Definition cid_is_empty (c : ConnectionId) : bool := len (cid_bytes c) =? 0.

(** * Reset tokens *)

Notation ResetTokenTable := (gmap SocketAddr (gmap ResetToken ConnectionHandle)) (only parsing).

Definition tokens_insert (t : ResetTokenTable) (remote : SocketAddr) (token : ResetToken) (ch : ConnectionHandle)
    : bool * ResetTokenTable :=
  let m := default ∅ (t !! remote) in
  (bool_decide (is_Some (m !! token)), <[remote := <[token := ch]> m]> t).

Definition tokens_remove (t : ResetTokenTable) (remote : SocketAddr) (token : ResetToken) : ResetTokenTable :=
  match t !! remote with
  | None => t
  | Some m => let m := delete token m in if bool_decide (m = ∅) then delete remote t else <[remote := m]> t
  end.

Definition tokens_get (t : ResetTokenTable) (remote : SocketAddr) (token : list Z) : option ConnectionHandle :=
  if len token =? RESET_TOKEN_SIZE then m ← t !! remote; m !! mkResetToken token else None.

(** * The index *)

Inductive RouteDatagramTo : Type := ToIncoming (incoming_idx : Z) | ToConnection (ch : ConnectionHandle).
#[global] Instance RouteDatagramTo_eq_dec : EqDecision RouteDatagramTo.
Proof. solve_decision. Defined.

Record ConnectionIndex : Type := mkConnectionIndex {
  connection_ids_initial : gmap ConnectionId RouteDatagramTo;
  connection_ids : gmap ConnectionId ConnectionHandle;
  incoming_connection_remotes : gmap FourTuple ConnectionHandle;
  outgoing_connection_remotes : gmap SocketAddr ConnectionHandle;
  connection_reset_tokens : ResetTokenTable
}.

Definition ConnectionIndex_default : ConnectionIndex := mkConnectionIndex ∅ ∅ ∅ ∅ ∅.

Definition set_ids_initial (x : ConnectionIndex) (v : gmap ConnectionId RouteDatagramTo) : ConnectionIndex :=
  mkConnectionIndex v (connection_ids x) (incoming_connection_remotes x) (outgoing_connection_remotes x) (connection_reset_tokens x).
Definition set_ids (x : ConnectionIndex) (v : gmap ConnectionId ConnectionHandle) : ConnectionIndex :=
  mkConnectionIndex (connection_ids_initial x) v (incoming_connection_remotes x) (outgoing_connection_remotes x) (connection_reset_tokens x).
Definition set_incoming_remotes (x : ConnectionIndex) (v : gmap FourTuple ConnectionHandle) : ConnectionIndex :=
  mkConnectionIndex (connection_ids_initial x) (connection_ids x) v (outgoing_connection_remotes x) (connection_reset_tokens x).
Definition set_outgoing_remotes (x : ConnectionIndex) (v : gmap SocketAddr ConnectionHandle) : ConnectionIndex :=
  mkConnectionIndex (connection_ids_initial x) (connection_ids x) (incoming_connection_remotes x) v (connection_reset_tokens x).
Definition set_reset_tokens (x : ConnectionIndex) (v : ResetTokenTable) : ConnectionIndex :=
  mkConnectionIndex (connection_ids_initial x) (connection_ids x) (incoming_connection_remotes x) (outgoing_connection_remotes x) v.

Definition insert_initial_incoming (x : ConnectionIndex) (dst_cid : ConnectionId) (incoming_key : Z) : ConnectionIndex :=
  if cid_is_empty dst_cid then x
  else set_ids_initial x (<[dst_cid := ToIncoming incoming_key]> (connection_ids_initial x)).

Definition remove_initial (x : ConnectionIndex) (dst_cid : ConnectionId) : M ConnectionIndex :=
  if cid_is_empty dst_cid then mret x
  else
    _ ← rassert (bool_decide (is_Some (connection_ids_initial x !! dst_cid)));
    mret (set_ids_initial x (delete dst_cid (connection_ids_initial x))).

Definition insert_initial (x : ConnectionIndex) (dst_cid : ConnectionId) (connection : ConnectionHandle) : ConnectionIndex :=
  if cid_is_empty dst_cid then x
  else set_ids_initial x (<[dst_cid := ToConnection connection]> (connection_ids_initial x)).

Definition insert_conn (x : ConnectionIndex) (addresses : FourTuple) (dst_cid : ConnectionId) (connection : ConnectionHandle)
    (side : Side) : ConnectionIndex :=
  if len (cid_bytes dst_cid) =? 0 then
    match side with
    | Server => set_incoming_remotes x (<[addresses := connection]> (incoming_connection_remotes x))
    | Client => set_outgoing_remotes x (<[ft_remote addresses := connection]> (outgoing_connection_remotes x))
    end
  else set_ids x (<[dst_cid := connection]> (connection_ids x)).

Definition index_retire (x : ConnectionIndex) (dst_cid : ConnectionId) : ConnectionIndex :=
  set_ids x (delete dst_cid (connection_ids x)).

(** The order in which the values of [loc_cids] are visited does not matter. *)
Definition index_remove (x : ConnectionIndex) (conn : ConnectionMeta) : M ConnectionIndex :=
  x ← (if is_server (cm_side conn) then remove_initial x (cm_init_cid conn) else mret x);
  let x := set_ids x (fold_left (fun m cid => delete cid m) (map snd (map_to_list (cm_loc_cids conn))) (connection_ids x)) in
  let x := set_incoming_remotes x (delete (cm_addresses conn) (incoming_connection_remotes x)) in
  let x := set_outgoing_remotes x (delete (ft_remote (cm_addresses conn)) (outgoing_connection_remotes x)) in
  mret (match cm_reset_token conn with
        | Some (remote, token) => set_reset_tokens x (tokens_remove (connection_reset_tokens x) remote token)
        | None => x
        end).

(** The first of four lookups that finds something; [∪] on options prefers its left side. *)
Definition index_get (x : ConnectionIndex) (addresses : FourTuple) (datagram : PartialDecode) : option RouteDatagramTo :=
  let dst_cid := Partial_dst_cid datagram in
  let by_cid := if negb (cid_is_empty dst_cid) then ToConnection <$> connection_ids x !! dst_cid else None in
  let by_initial := if Partial_is_initial datagram || Partial_is_0rtt datagram then connection_ids_initial x !! dst_cid else None in
  let by_remote := if cid_is_empty dst_cid then
                     ToConnection <$> (incoming_connection_remotes x !! addresses ∪ outgoing_connection_remotes x !! ft_remote addresses)
                   else None in
  let data := pd_buf datagram in
  let by_token := if len data <? RESET_TOKEN_SIZE then None
                  else ToConnection <$> tokens_get (connection_reset_tokens x) (ft_remote addresses) (dropZ (len data - RESET_TOKEN_SIZE) data) in
  by_cid ∪ by_initial ∪ by_remote ∪ by_token.
