(* ===== verification/Endpoint.v ===== *)
(** The endpoint: [quic-proto/src/endpoint.rs], with the settings of [quic-proto/src/config/mod.rs] it uses.

    An endpoint turns datagrams into events for connections, answers the ones no connection is there for, and creates
    connections.  TLS configurations, the slab, the generator of connection ids and the random numbers are interfaces.
    [new_cid] draws ids until one is free; the number of draws is bounded by [cid_turns], and an operation that would need
    more yields [None]. *)
From stdpp Require Import gmap.
From S2P Require Import Prelude Coding RangeSet Ids Shared Frame Float Packet TransportParams Token TokenCache Assembler Recv Send.
From S2P Require Import PendingStreams Retransmits CidQueue CidState Streams Dedup PendingAcks Mtud Timer AckFrequency Rtt.
From S2P Require Import Congestion Pacing Datagrams Spaces PacketCrypto Config Paths Connection ConnRecovery ConnReceive.
From S2P Require Import PacketBuilder ConnTransmit CidGenerator EndpointIndex.
Open Scope Z_scope.

(** A computation that may run out of turns, followed by another one. *)
Definition turns_bind {A B} (m : M (option A)) (k : A → M (option B)) : M (option B) :=
  r ← m;
  match r with Some a => k a | None => mret None end.
Notation "' x ⇐ m ; k" := (turns_bind m (fun x => k))
  (at level 20, x pattern, m at level 100, k at level 200, only parsing).

(** * Interfaces *)

Inductive ConnectError : Type :=
| EndpointStopping
| ConnectCidsExhausted
| InvalidServerName (name : list Z)
| InvalidRemoteAddress (a : SocketAddr)
| NoDefaultClientConfig
| ConnectUnsupportedVersion.

(** [crypto::ServerConfig]; no keys for a version the implementation does not know. *)
Class CryptoServerConfig (SC T : Type) : Type := {
  server_initial_keys : SC → Z → ConnectionId → option Keys;
  retry_tag : SC → Z → ConnectionId → list Z → list Z;
  server_start_session : SC → Z → TransportParameters → T
}.

(** [crypto::ClientConfig]. *)
Class CryptoClientConfig (CC T : Type) : Type := {
  client_start_session : CC → Z → list Z → TransportParameters → result ConnectError T
}.

(** The random numbers of an endpoint, beyond those of a connection. *)
Class EndpointRng (R : Type) : Type := {
  from_seed : list Z → R;
  shuffle : R → list Z → list Z * R
}.

(** * Data *)

(** [EndpointConfig]; [ec_generator] is what the generator factory makes. *)
Record EndpointConfig {G : Type} : Type := mkEndpointConfig {
  ec_reset_key : HmacKey;
  ec_max_udp_payload_size : VarInt;
  ec_generator : G;
  ec_supported_versions : list Z;
  ec_grease_quic_bit : bool;
  ec_min_reset_interval : Z;
  ec_rng_seed : option (list Z)
}.
#[global] Arguments EndpointConfig G : clear implicits.
#[global] Arguments mkEndpointConfig {G}.

(** [ServerConfig], with the log of tokens it shares. *)
Record ServerSettings {C SC L : Type} : Type := mkServerSettings {
  ss_transport : TransportConfig C;
  ss_crypto : SC;
  ss_config : ServerConfig;
  ss_log : L
}.
#[global] Arguments ServerSettings C SC L : clear implicits.
#[global] Arguments mkServerSettings {C SC L}.

(** [ClientConfig]; [cc_initial_dst_cid] is what the provider of initial ids returns. *)
Record ClientConfig {C CC TS : Type} : Type := mkClientConfig {
  cc_transport : TransportConfig C;
  cc_crypto : CC;
  cc_token_store : TS;
  cc_initial_dst_cid : ConnectionId;
  cc_version : Z
}.
#[global] Arguments ClientConfig C CC TS : clear implicits.
#[global] Arguments mkClientConfig {C CC TS}.

Record DatagramConnectionEvent : Type := mkDatagramConnectionEvent {
  de_now : Z;
  de_remote : SocketAddr;
  de_ecn : option EcnCodepoint;
  de_first_decode : PartialDecode;
  de_remaining : option (list Z)
}.

(** [decode_datagram_connection_event], for callers that route datagrams themselves. *)
Definition decode_datagram_connection_event (now : Z) (remote : SocketAddr) (ecn : option EcnCodepoint) (data : list Z)
    (local_cid_len : Z) (supported_versions : list Z) (grease_quic_bit : bool) : M (result PacketDecodeError DatagramConnectionEvent) :=
  d ← PartialDecode_new data (FixedLengthConnectionIdParser local_cid_len) supported_versions grease_quic_bit;
  mret (match d with
        | Ok (first_decode, remaining) => Ok (mkDatagramConnectionEvent now remote ecn first_decode remaining)
        | Err e => Err e
        end).

Record IncomingBuffer : Type := mkIncomingBuffer { ib_datagrams : list DatagramConnectionEvent; ib_total_bytes : Z }.
Definition IncomingBuffer_default : IncomingBuffer := mkIncomingBuffer [] 0.

(** The packet of an incoming connection is kept as its header, the bytes of the header and the payload. *)
Record Incoming : Type := mkIncoming {
  in_received_at : Z;
  in_addresses : FourTuple;
  in_ecn : option EcnCodepoint;
  in_header : InitialHeader;
  in_header_data : list Z;
  in_payload : list Z;
  in_rest : option (list Z);
  in_crypto : Keys;
  in_token : IncomingToken;
  in_incoming_idx : Z
}.

Definition remote_address_validated (i : Incoming) : bool := it_validated (in_token i).
Definition may_retry (i : Incoming) : bool := bool_decide (it_retry_src_cid (in_token i) = None).
Definition orig_dst_cid (i : Incoming) : ConnectionId := it_orig_dst_cid (in_token i).

Inductive DatagramEvent : Type :=
| ForConnection (ch : ConnectionHandle) (event : DatagramConnectionEvent)
| NewConnection (incoming : Incoming)
| Response (transmit : Transmit).

Record AcceptError : Type := mkAcceptError { ae_cause : ConnectionError; ae_response : option Transmit }.

(** Short for the transport errors the endpoint makes. *)
Definition refused : TransportError := mkTransportError CONNECTION_REFUSED.

(** A response to a datagram that came in on the given addresses. *)
Definition respond (addresses : FourTuple) (buf : list Z) : Transmit :=
  mkTransmit (ft_remote addresses) (len buf) None None (ft_local_ip addresses).

(** [ip.is_unspecified()]. *)
Definition is_unspecified (ip : IpAddr) : bool :=
  forallb (fun b => b =? 0) (match ip with IpV4 a => octets4 a | IpV6 a => octets6 a end).

Section Endpoint.
Context {C : Type} {HC : Controller C} {H : Type} {HH : Heap H} {T : Type} {HT : Session T} {R : Type} {HR : Rng R}
  {TS : Type} {HTS : TokenStore TS}.
Context {HRC : RngCore R} {HER : EndpointRng R} {G : Type} {HG : ConnectionIdGenerator G} {SL : Type → Type} {HS : Slab SL}
  {SC : Type} {HSC : CryptoServerConfig SC T} {CC : Type} {HCC : CryptoClientConfig CC T} {L : Type} {HL : TokenLog L}.
Local Notation Connection := (Connection C H T R TS).
Context (max_instant : Z) (crypto_turns cid_turns : nat).

Record Endpoint : Type := mkEndpoint {
  e_rng : R;
  e_index : ConnectionIndex;
  e_connections : SL ConnectionMeta;
  e_generator : G;
  e_config : EndpointConfig G;
  e_server_config : option (ServerSettings C SC L);
  e_allow_mtud : bool;
  e_last_stateless_reset : option Z;
  e_incoming_buffers : SL IncomingBuffer;
  e_all_incoming_buffers_total_bytes : Z
}.

Definition set_e_rng (e : Endpoint) (v : R) : Endpoint :=
  mkEndpoint v (e_index e) (e_connections e) (e_generator e) (e_config e) (e_server_config e) (e_allow_mtud e)
    (e_last_stateless_reset e) (e_incoming_buffers e) (e_all_incoming_buffers_total_bytes e).
Definition set_e_index (e : Endpoint) (v : ConnectionIndex) : Endpoint :=
  mkEndpoint (e_rng e) v (e_connections e) (e_generator e) (e_config e) (e_server_config e) (e_allow_mtud e)
    (e_last_stateless_reset e) (e_incoming_buffers e) (e_all_incoming_buffers_total_bytes e).
Definition set_e_connections (e : Endpoint) (v : SL ConnectionMeta) : Endpoint :=
  mkEndpoint (e_rng e) (e_index e) v (e_generator e) (e_config e) (e_server_config e) (e_allow_mtud e)
    (e_last_stateless_reset e) (e_incoming_buffers e) (e_all_incoming_buffers_total_bytes e).
Definition set_e_generator (e : Endpoint) (v : G) : Endpoint :=
  mkEndpoint (e_rng e) (e_index e) (e_connections e) v (e_config e) (e_server_config e) (e_allow_mtud e)
    (e_last_stateless_reset e) (e_incoming_buffers e) (e_all_incoming_buffers_total_bytes e).
Definition set_server_config (e : Endpoint) (v : option (ServerSettings C SC L)) : Endpoint :=
  mkEndpoint (e_rng e) (e_index e) (e_connections e) (e_generator e) (e_config e) v (e_allow_mtud e)
    (e_last_stateless_reset e) (e_incoming_buffers e) (e_all_incoming_buffers_total_bytes e).
Definition set_e_last_stateless_reset (e : Endpoint) (v : option Z) : Endpoint :=
  mkEndpoint (e_rng e) (e_index e) (e_connections e) (e_generator e) (e_config e) (e_server_config e) (e_allow_mtud e)
    v (e_incoming_buffers e) (e_all_incoming_buffers_total_bytes e).
Definition set_e_incoming (e : Endpoint) (buffers : SL IncomingBuffer) (total : Z) : Endpoint :=
  mkEndpoint (e_rng e) (e_index e) (e_connections e) (e_generator e) (e_config e) (e_server_config e) (e_allow_mtud e)
    (e_last_stateless_reset e) buffers total.

(** [Endpoint::new]; [os_rng] is the generator the operating system seeds. *)
Definition Endpoint_new (os_rng : R) (config : EndpointConfig G) (server_config : option (ServerSettings C SC L))
    (allow_mtud : bool) : Endpoint :=
  mkEndpoint (match ec_rng_seed config with Some seed => from_seed seed | None => os_rng end) ConnectionIndex_default slab_new
    (ec_generator config) config server_config allow_mtud None slab_new 0.

(** * Connection ids *)

Definition cids_exhausted (e : Endpoint) : bool :=
  let cid_len := gen_cid_len (e_generator e) in
  if (cid_len =? 0) || (4 <? cid_len) then false
  else
    let bits := cid_len * 8 in
    let space := Z.shiftl 1 bits in
    let reserve := Z.shiftl 1 (bits - 2) in
    space - reserve <? Z.of_nat (base.size (connection_ids (e_index e))).

Fixpoint new_cid_loop (turns : nat) (e : Endpoint) (ch : ConnectionHandle) : M (option (ConnectionId * Endpoint)) :=
  match turns with
  | O => mret None
  | S turns =>
      '(cid, g) ← generate_cid (e_generator e);
      let e := set_e_generator e g in
      if cid_is_empty cid then
        _ ← rassert (gen_cid_len (e_generator e) =? 0);
        mret (Some (cid, e))
      else if bool_decide (connection_ids (e_index e) !! cid = None) then
        mret (Some (cid, set_e_index e (set_ids (e_index e) (<[cid := ch]> (connection_ids (e_index e))))))
      else new_cid_loop turns e ch
  end.
Definition new_cid (e : Endpoint) (ch : ConnectionHandle) : M (option (ConnectionId * Endpoint)) := new_cid_loop cid_turns e ch.

(** [ConnectionEventInner::NewIdentifiers]. *)
Record ConnectionEvent : Type := mkNewIdentifiers { ce_ids : list IssuedCid; ce_now : Z }.

(** One turn of the loop of [send_new_identifiers]: an id, recorded under the next sequence number. *)
Definition issue_cid (e : Endpoint) (ch : ConnectionHandle) : M (option (IssuedCid * Endpoint)) :=
  '(id, e) ⇐ new_cid e ch;
  meta ← slab_index (e_connections e) ch;
  let sequence := cm_cids_issued meta in
  issued ← uadd sequence 1;
  let meta := mkConnectionMeta (cm_init_cid meta) issued (<[sequence := id]> (cm_loc_cids meta)) (cm_addresses meta)
                (cm_side meta) (cm_reset_token meta) in
  let e := set_e_connections e (slab_set (e_connections e) ch meta) in
  token ← ResetToken_new (ec_reset_key (e_config e)) id;
  mret (Some (mkIssuedCid sequence id token, e)).

Fixpoint issue_cids (num : nat) (e : Endpoint) (ch : ConnectionHandle) (ids : list IssuedCid)
    : M (option (list IssuedCid * Endpoint)) :=
  match num with
  | O => mret (Some (ids, e))
  | S num => '(id, e) ⇐ issue_cid e ch; issue_cids num e ch (ids ++ [id])
  end.

Definition send_new_identifiers (e : Endpoint) (now : Z) (ch : ConnectionHandle) (num : Z)
    : M (option (ConnectionEvent * Endpoint)) :=
  '(ids, e) ⇐ issue_cids (Z.to_nat num) e ch [];
  mret (Some (mkNewIdentifiers ids now, e)).

(** * Events of connections *)

Definition set_cm_reset_token (m : ConnectionMeta) (v : option (SocketAddr * ResetToken)) : ConnectionMeta :=
  mkConnectionMeta (cm_init_cid m) (cm_cids_issued m) (cm_loc_cids m) (cm_addresses m) (cm_side m) v.
Definition set_cm_loc_cids (m : ConnectionMeta) (v : gmap Z ConnectionId) : ConnectionMeta :=
  mkConnectionMeta (cm_init_cid m) (cm_cids_issued m) v (cm_addresses m) (cm_side m) (cm_reset_token m).

Definition on_reset_token (e : Endpoint) (ch : ConnectionHandle) (remote : SocketAddr) (token : ResetToken) : M Endpoint :=
  meta ← slab_index (e_connections e) ch;
  let e := set_e_connections e (slab_set (e_connections e) ch (set_cm_reset_token meta (Some (remote, token)))) in
  let tokens := connection_reset_tokens (e_index e) in
  let tokens := match cm_reset_token meta with Some (r, t) => tokens_remove tokens r t | None => tokens end in
  let '(_, tokens) := tokens_insert tokens remote token ch in
  mret (set_e_index e (set_reset_tokens (e_index e) tokens)).

Definition on_retire_connection_id (e : Endpoint) (ch : ConnectionHandle) (now seq : Z) (allow_more_cids : bool)
    : M (option (option ConnectionEvent * Endpoint)) :=
  meta ← slab_index (e_connections e) ch;
  match cm_loc_cids meta !! seq with
  | None => mret (Some (None, e))
  | Some cid =>
      let e := set_e_connections e (slab_set (e_connections e) ch (set_cm_loc_cids meta (delete seq (cm_loc_cids meta)))) in
      let e := set_e_index e (index_retire (e_index e) cid) in
      if allow_more_cids then
        '(event, e) ⇐ send_new_identifiers e now ch 1;
        mret (Some (Some event, e))
      else mret (Some (None, e))
  end.

Definition on_drained (e : Endpoint) (ch : ConnectionHandle) : M Endpoint :=
  let '(conn, connections) := slab_try_remove (e_connections e) ch in
  let e := set_e_connections e connections in
  match conn with
  | Some conn => index ← index_remove (e_index e) conn; mret (set_e_index e index)
  | None => mret e
  end.

Definition endpoint_handle_event (e : Endpoint) (ch : ConnectionHandle) (event : EndpointEvent)
    : M (option (option ConnectionEvent * Endpoint)) :=
  match event with
  | EvNeedIdentifiers now n => '(event, e) ⇐ send_new_identifiers e now ch n; mret (Some (Some event, e))
  | EvResetToken remote token => e ← on_reset_token e ch remote token; mret (Some (None, e))
  | EvRetireConnectionId now seq allow_more_cids => on_retire_connection_id e ch now seq allow_more_cids
  | EvDrained => e ← on_drained e ch; mret (Some (None, e))
  end.

(** * Responses without a connection *)

(** A draw of the endpoint's random numbers. *)
Definition draw_range (rng : R) (lo hi : Z) : M (Z * R) := n ← random_range (rng_range rng) lo hi; mret (n, rng_step rng).

Definition MIN_PADDING_LEN : Z := 5.
Definition IDEAL_MIN_PADDING_LEN : Z := MIN_PADDING_LEN + MAX_CID_SIZE.

(** [buf.resize] leaves exactly the padding, which is then overwritten. *)
Definition stateless_reset (e : Endpoint) (now inciting_dgram_len : Z) (addresses : FourTuple) (dst_cid : ConnectionId) (buf : list Z)
    : M (option Transmit * list Z * Endpoint) :=
  if match e_last_stateless_reset e with Some last => now <? last + ec_min_reset_interval (e_config e) | None => false end
  then mret (None, buf, e)
  else
    match checked_sub inciting_dgram_len RESET_TOKEN_SIZE with
    | Some headroom =>
        if MIN_PADDING_LEN <? headroom then
          let max_padding_len := headroom - 1 in
          let e := set_e_last_stateless_reset e (Some now) in
          '(padding_len, rng) ← (if max_padding_len <=? IDEAL_MIN_PADDING_LEN then mret (max_padding_len, e_rng e)
                                 else draw_range (e_rng e) IDEAL_MIN_PADDING_LEN max_padding_len);
          let '(padding, rng) := fill_bytes rng padding_len in
          let e := set_e_rng e rng in
          buf ← match padding with b :: l => mret (Z.lor 64 (Z.shiftr b 2) :: l) | [] => Panic end;
          token ← ResetToken_new (ec_reset_key (e_config e)) dst_cid;
          let buf := buf ++ token_bytes token in
          _ ← rassert (len buf <? inciting_dgram_len);
          mret (Some (respond addresses buf), buf, e)
        else mret (None, buf, e)
    | None => mret (None, buf, e)
    end.

Definition initial_close (e : Endpoint) (version : Z) (addresses : FourTuple) (crypto : Keys) (remote_id : ConnectionId)
    (reason : TransportError) (buf : list Z) : M (Transmit * list Z * Endpoint) :=
  '(local_id, g) ← generate_cid (e_generator e);
  let e := set_e_generator e g in
  let header := HInitial (mkInitialHeader remote_id local_id [] (PnU8 0) version) in
  '(partial_encode, buf) ← Header_encode header buf;
  max_len ← usub INITIAL_MTU (header_len partial_encode);
  max_len ← usub max_len (tag_len (local (k_packet crypto)));
  frame ← Close_encode (Close_from reason) max_len;
  let buf := buf ++ frame ++ replicate (Z.to_nat (tag_len (local (k_packet crypto)))) 0 in
  buf ← PartialEncode_finish partial_encode buf (local (k_header crypto)) (Some (0, local (k_packet crypto)));
  mret (respond addresses buf, buf, e).

(** The answer to a packet of an unknown version, [None] when the endpoint is no server. *)
Definition version_negotiation (e : Endpoint) (addresses : FourTuple) (src_cid dst_cid : ConnectionId) (version : Z) (buf : list Z)
    : M (option Transmit * list Z * Endpoint) :=
  match e_server_config e with
  | None => mret (None, buf, e)
  | Some _ =>
      let '(random, rng) := random_u8 (e_rng e) in
      let e := set_e_rng e rng in
      '(_, buf) ← Header_encode (HVersionNegotiate (Z.lor random 64) dst_cid src_cid) buf;
      let grease := if version =? 169486906 then 169486922 else 169486906 in
      let buf := buf ++ be_bytes 4 grease ++ concat (map (be_bytes 4) (ec_supported_versions (e_config e))) in
      mret (Some (respond addresses buf), buf, e)
  end.

(** * The parameters of a connection *)

Definition ReservedTransportParameter_random (rng : R) : M (ReservedTransportParameter * R) :=
  '(rand, rng) ← draw_range rng 0 (2 ^ 62 - 27);
  id ← generate_reserved_id rand;
  '(payload_len, rng) ← draw_range rng 0 MAX_PAYLOAD_LEN;
  let '(payload, rng) := fill_bytes rng payload_len in
  mret (mkReserved id (payload ++ replicate (Z.to_nat (MAX_PAYLOAD_LEN - payload_len)) 0) payload_len, rng).

(** [TransportParameters::new] with the endpoint's settings, ids and random numbers. *)
Definition endpoint_params (e : Endpoint) (config : TransportConfig C) (loc_cid : ConnectionId) (migration : option bool)
    : M (TransportParameters * Endpoint) :=
  '(reserved, rng) ← ReservedTransportParameter_random (e_rng e);
  let '(order, rng) := shuffle rng (map Z.of_nat (seq 0 (length SUPPORTED))) in
  let pc := mkParamConfig (into_inner (tc_max_concurrent_bidi_streams config)) (into_inner (tc_max_concurrent_uni_streams config))
              (into_inner (tc_receive_window config)) (into_inner (tc_stream_receive_window config))
              (into_inner <$> tc_max_idle_timeout config) (tc_datagram_receive_buffer_size config)
              (into_inner (ec_max_udp_payload_size (e_config e))) (ec_grease_quic_bit (e_config e))
              (gen_cid_len (e_generator e)) migration in
  mret (TransportParameters_new pc loc_cid reserved order, set_e_rng e rng).

(** * New connections *)

Definition args_side (a : SideArgs (TS := TS)) : Side := match a with ClientArgs _ _ => Client | ServerArgs _ _ _ => Server end.

Definition add_connection (e : Endpoint) (ch : ConnectionHandle) (version : Z) (init_cid loc_cid rem_cid : ConnectionId)
    (addresses : FourTuple) (now : Z) (tls : T) (transport_config : TransportConfig C) (side_args : SideArgs)
    : M (Connection * Endpoint) :=
  let '(rng_seed, rng) := fill_bytes (e_rng e) 32 in
  let e := set_e_rng e rng in
  let side := args_side side_args in
  let pref_addr_cid := pref_addr_cid side_args in
  conn ← Connection_new max_instant crypto_turns (ec_grease_quic_bit (e_config e)) transport_config init_cid loc_cid rem_cid
           (ft_remote addresses) (ft_local_ip addresses) tls (gen_cid_len (e_generator e)) (gen_cid_lifetime (e_generator e))
           now version (e_allow_mtud e) (from_seed rng_seed) side_args;
  let '(cids_issued, loc_cids) := match pref_addr_cid with
                                  | Some cid => (2, <[1 := cid]> (<[0 := loc_cid]> (∅ : gmap Z ConnectionId)))
                                  | None => (1, <[0 := loc_cid]> ∅)
                                  end in
  let '(id, connections) := slab_insert (e_connections e) (mkConnectionMeta init_cid cids_issued loc_cids addresses side None) in
  let e := set_e_connections e connections in
  _ ← rassert (id =? ch);
  mret (conn, set_e_index e (insert_conn (e_index e) addresses loc_cid ch side)).

Definition connect (e : Endpoint) (now : Z) (config : ClientConfig C CC TS) (remote : SocketAddr) (server_name : list Z)
    : M (option (result ConnectError (ConnectionHandle * Connection) * Endpoint)) :=
  if cids_exhausted e then mret (Some (Err ConnectCidsExhausted, e))
  else if (addr_port remote =? 0) || is_unspecified (addr_ip remote) then mret (Some (Err (InvalidRemoteAddress remote), e))
  else if negb (bool_decide (cc_version config ∈ ec_supported_versions (e_config e))) then mret (Some (Err ConnectUnsupportedVersion, e))
  else
    let remote_id := cc_initial_dst_cid config in
    let ch := slab_vacant_key (e_connections e) in
    '(loc_cid, e) ⇐ new_cid e ch;
    '(params, e) ← endpoint_params e (cc_transport config) loc_cid None;
    match client_start_session (cc_crypto config) (cc_version config) server_name params with
    | Err error => mret (Some (Err error, e))
    | Ok tls =>
        '(conn, e) ← add_connection e ch (cc_version config) remote_id loc_cid remote_id (mkFourTuple remote None) now tls
                       (cc_transport config) (ClientArgs (cc_token_store config) server_name);
        mret (Some (Ok (ch, conn), e))
    end.

(** * Incoming datagrams *)

Definition server_settings (e : Endpoint) : M (ServerSettings C SC L) := unwrap (e_server_config e).

Definition early_validate_first_packet (e : Endpoint) (header : ProtectedInitialHeader) : M (result TransportError unit) :=
  settings ← server_settings e;
  if cids_exhausted e || (sc_max_incoming (ss_config settings) <=? slab_len (e_incoming_buffers e)) then mret (Err refused)
  else if (len (cid_bytes (pi_dst_cid header)) <? 8) &&
          (range_is_empty (token_pos header) || negb (len (cid_bytes (pi_dst_cid header)) =? gen_cid_len (e_generator e)))
  then mret (Err (mkTransportError PROTOCOL_VIOLATION))
  else mret (Ok tt).

(** A new attempt: its buffer and its entry in the index. *)
Definition new_incoming (e : Endpoint) (event : DatagramConnectionEvent) (addresses : FourTuple) (crypto : Keys)
    (header : InitialHeader) (packet : Packet) (token : IncomingToken) : Incoming * Endpoint :=
  let '(incoming_idx, buffers) := slab_insert (e_incoming_buffers e) IncomingBuffer_default in
  let e := set_e_incoming e buffers (e_all_incoming_buffers_total_bytes e) in
  let e := set_e_index e (insert_initial_incoming (e_index e) (ih_dst_cid header) incoming_idx) in
  (mkIncoming (de_now event) addresses (de_ecn event) header (pk_header_data packet) (pk_payload packet) (de_remaining event)
     crypto token incoming_idx, e).

(** [system_now] is what the server's clock shows. *)
Definition ep_handle_first_packet (e : Endpoint) (system_now datagram_len : Z) (event : DatagramConnectionEvent)
    (addresses : FourTuple) (buf : list Z) : M (option DatagramEvent * list Z * Endpoint) :=
  let dst_cid := Partial_dst_cid (de_first_decode event) in
  header ← unwrap (as_initial (plain_header (de_first_decode event)));
  match e_server_config e with
  | None =>
      '(t, buf, e) ← stateless_reset e (de_now event) datagram_len addresses dst_cid buf;
      mret (Response <$> t, buf, e)
  | Some settings =>
      if datagram_len <? MIN_INITIAL_SIZE then mret (None, buf, e)
      else
        match server_initial_keys (ss_crypto settings) (pi_version header) dst_cid with
        | None => mret (None, buf, e)
        | Some crypto =>
            valid ← early_validate_first_packet e header;
            match valid with
            | Err reason =>
                '(t, buf, e) ← initial_close e (pi_version header) addresses crypto (pi_src_cid header) reason buf;
                mret (Some (Response t), buf, e)
            | Ok _ =>
                packet ← PartialDecode_finish (de_first_decode event) (Some (remote (k_header crypto)));
                match packet with
                | Err _ => mret (None, buf, e)
                | Ok packet =>
                    bits_valid ← reserved_bits_valid packet;
                    if negb bits_valid then mret (None, buf, e)
                    else
                      header ← match pk_header packet with HInitial header => mret header | _ => Panic end;
                      '(token, log) ← from_header (ss_log settings) header (ss_config settings) (ft_remote addresses) system_now;
                      let e := set_server_config e (Some (mkServerSettings (ss_transport settings) (ss_crypto settings)
                                                            (ss_config settings) log)) in
                      match token with
                      | Err _ =>
                          '(t, buf, e) ← initial_close e (ih_version header) addresses crypto (ih_src_cid header)
                                           (mkTransportError INVALID_TOKEN) buf;
                          mret (Some (Response t), buf, e)
                      | Ok token =>
                          let '(incoming, e) := new_incoming e event addresses crypto header packet token in
                          mret (Some (NewConnection incoming), buf, e)
                      end
                end
            end
        end
  end.

(** [checked_add] followed by the comparison with a limit. *)
Definition fits (total n limit : Z) : bool := (total + n <=? u64_max) && (total + n <=? limit).

(** A datagram for an attempt the application has not decided on is kept while there is room. *)
Definition buffer_datagram (e : Endpoint) (incoming_idx datagram_len : Z) (event : DatagramConnectionEvent) : M Endpoint :=
  incoming_buffer ← slab_index (e_incoming_buffers e) incoming_idx;
  settings ← server_settings e;
  let config := ss_config settings in
  if fits (ib_total_bytes incoming_buffer) datagram_len (sc_incoming_buffer_size config) &&
     fits (e_all_incoming_buffers_total_bytes e) datagram_len (sc_incoming_buffer_size_total config)
  then
    total ← uadd (ib_total_bytes incoming_buffer) datagram_len;
    all ← uadd (e_all_incoming_buffers_total_bytes e) datagram_len;
    mret (set_e_incoming e (slab_set (e_incoming_buffers e) incoming_idx
                              (mkIncomingBuffer (ib_datagrams incoming_buffer ++ [event]) total)) all)
  else mret e.

(** A decoded datagram. *)
Definition route (e : Endpoint) (system_now datagram_len : Z) (event : DatagramConnectionEvent) (addresses : FourTuple) (buf : list Z)
    : M (option DatagramEvent * list Z * Endpoint) :=
  let first_decode := de_first_decode event in
  let dst_cid := Partial_dst_cid first_decode in
  match index_get (e_index e) addresses first_decode with
  | Some (ToIncoming incoming_idx) => e ← buffer_datagram e incoming_idx datagram_len event; mret (None, buf, e)
  | Some (ToConnection ch) => mret (Some (ForConnection ch event), buf, e)
  | None =>
      match as_initial (plain_header first_decode) with
      | Some _ => ep_handle_first_packet e system_now datagram_len event addresses buf
      | None =>
          if has_long_header first_decode then mret (None, buf, e)
          else
            invalid ← (if negb (Partial_is_initial first_decode) then b ← gen_validate (e_generator e) dst_cid; mret (negb b)
                       else mret false);
            if (invalid : bool) then mret (None, buf, e)
            else if cid_is_empty dst_cid then mret (None, buf, e)
            else
              '(t, buf, e) ← stateless_reset e (de_now event) datagram_len addresses dst_cid buf;
              mret (Response <$> t, buf, e)
      end
  end.

Definition ep_handle (e : Endpoint) (now system_now : Z) (remote : SocketAddr) (local_ip : option IpAddr)
    (ecn : option EcnCodepoint) (data buf : list Z) : M (option DatagramEvent * list Z * Endpoint) :=
  let datagram_len := len data in
  d ← PartialDecode_new data (FixedLengthConnectionIdParser (gen_cid_len (e_generator e))) (ec_supported_versions (e_config e))
        (ec_grease_quic_bit (e_config e));
  match d with
  | Ok (first_decode, remaining) =>
      route e system_now datagram_len (mkDatagramConnectionEvent now remote ecn first_decode remaining) (mkFourTuple remote local_ip) buf
  | Err (UnsupportedVersion src_cid dst_cid version) =>
      '(t, buf, e) ← version_negotiation e (mkFourTuple remote local_ip) src_cid dst_cid version buf;
      mret (Response <$> t, buf, e)
  | Err (InvalidHeader _) => mret (None, buf, e)
  end.

(** * Deciding on incoming connections *)

(** Take the buffer of an attempt. *)
Definition take_buffer (e : Endpoint) (incoming_idx : Z) : M (IncomingBuffer * Endpoint) :=
  '(incoming_buffer, buffers) ← slab_remove (e_incoming_buffers e) incoming_idx;
  total ← usub (e_all_incoming_buffers_total_bytes e) (ib_total_bytes incoming_buffer);
  mret (incoming_buffer, set_e_incoming e buffers total).

Definition ep_remove_initial (e : Endpoint) (dst_cid : ConnectionId) : M Endpoint :=
  index ← remove_initial (e_index e) dst_cid;
  mret (set_e_index e index).

Definition clean_up_incoming (e : Endpoint) (incoming : Incoming) : M Endpoint :=
  e ← ep_remove_initial e (ih_dst_cid (in_header incoming));
  '(_, e) ← take_buffer e (in_incoming_idx incoming);
  mret e.

Definition refuse (e : Endpoint) (incoming : Incoming) (buf : list Z) : M (Transmit * list Z * Endpoint) :=
  e ← clean_up_incoming e incoming;
  initial_close e (ih_version (in_header incoming)) (in_addresses incoming) (in_crypto incoming) (ih_src_cid (in_header incoming))
    refused buf.

Definition ignore (e : Endpoint) (incoming : Incoming) : M Endpoint := clean_up_incoming e incoming.

Definition retry (e : Endpoint) (system_now : Z) (incoming : Incoming) (buf : list Z)
    : M (result Incoming Transmit * list Z * Endpoint) :=
  if negb (may_retry incoming) then mret (Err incoming, buf, e)
  else
    e ← clean_up_incoming e incoming;
    settings ← server_settings e;
    '(loc_cid, g) ← generate_cid (e_generator e);
    let e := set_e_generator e g in
    let header := in_header incoming in
    let payload := RetryToken (ft_remote (in_addresses incoming)) (ih_dst_cid header) system_now in
    let token := mkToken payload (rng_u128 (e_rng e)) in
    let e := set_e_rng e (rng_step (e_rng e)) in
    token ← Token_encode token (sc_token_key (ss_config settings));
    '(encode, buf) ← Header_encode (HRetry (ih_src_cid header) loc_cid (ih_version header)) buf;
    let buf := buf ++ token in
    let buf := buf ++ retry_tag (ss_crypto settings) (ih_version header) (ih_dst_cid header) buf in
    buf ← PartialEncode_finish encode buf (local (k_header (in_crypto incoming))) None;
    mret (Ok (respond (in_addresses incoming) buf), buf, e).

(** The parameters of the server of an accepted connection, and the id of its preferred address. *)
Definition accept_params (e : Endpoint) (ch : ConnectionHandle) (settings : ServerSettings C SC L) (loc_cid : ConnectionId)
    (token : IncomingToken) : M (option (TransportParameters * option ConnectionId * Endpoint)) :=
  let config := ss_config settings in
  '(params, e) ← endpoint_params e (ss_transport settings) loc_cid (Some (sc_migration config));
  reset_token ← ResetToken_new (ec_reset_key (e_config e)) loc_cid;
  let params := set_stateless_reset_token params (Some reset_token) in
  let params := set_original_dst_cid params (Some (it_orig_dst_cid token)) in
  let params := set_retry_src_cid params (it_retry_src_cid token) in
  if has_preferred_address config then
    '(cid, e) ⇐ new_cid e ch;
    t ← ResetToken_new (ec_reset_key (e_config e)) cid;
    let preferred := mkPreferredAddress (sc_preferred_address_v4 config) (sc_preferred_address_v6 config) cid t in
    mret (Some (set_preferred_address params (Some preferred), Some cid, e))
  else mret (Some (params, None, e)).

(** The connection of an accepted attempt, after the first packet, or the error that ended it. *)
Definition start_connection (e : Endpoint) (incoming : Incoming) (incoming_buffer : IncomingBuffer) (settings : ServerSettings C SC L)
    (packet_number : Z) (payload : list Z) (buf : list Z)
    : M (option (result AcceptError (ConnectionHandle * Connection) * list Z * Endpoint)) :=
  let header := in_header incoming in
  let ch := slab_vacant_key (e_connections e) in
  '(loc_cid, e) ⇐ new_cid e ch;
  '(params, pref_addr_cid, e) ⇐ accept_params e ch settings loc_cid (in_token incoming);
  let tls := server_start_session (ss_crypto settings) (ih_version header) params in
  '(conn, e) ← add_connection e ch (ih_version header) (ih_dst_cid header) loc_cid (ih_src_cid header) (in_addresses incoming)
                 (in_received_at incoming) tls (ss_transport settings)
                 (ServerArgs (ss_config settings) pref_addr_cid (remote_address_validated incoming));
  let e := set_e_index e (insert_initial (e_index e) (ih_dst_cid header) ch) in
  '(r, conn) ← handle_first_packet crypto_turns conn (in_received_at incoming) (ft_remote (in_addresses incoming))
                 (in_ecn incoming) packet_number header (in_header_data incoming) payload (in_rest incoming);
  match r with
  | Ok _ =>
      conn ← mfold (fun conn event =>
               handle_datagram crypto_turns conn (de_now event) (de_remote event) (de_ecn event) (de_first_decode event)
                 (de_remaining event)) (ib_datagrams incoming_buffer) conn;
      mret (Some (Ok (ch, conn), buf, e))
  | Err error =>
      '(_, e) ⇐ endpoint_handle_event e ch EvDrained;
      match error with
      | CausedBy t =>
          '(response, buf, e) ← initial_close e (ih_version header) (in_addresses incoming) (in_crypto incoming) (ih_src_cid header) t buf;
          mret (Some (Err (mkAcceptError error (Some response)), buf, e))
      | _ => mret (Some (Err (mkAcceptError error None), buf, e))
      end
  end.

Definition accept (e : Endpoint) (incoming : Incoming) (now : Z) (buf : list Z) (server_config : option (ServerSettings C SC L))
    : M (option (result AcceptError (ConnectionHandle * Connection) * list Z * Endpoint)) :=
  '(incoming_buffer, e) ← take_buffer e (in_incoming_idx incoming);
  let header := in_header incoming in
  packet_number ← expand (ih_number header) 0;
  settings ← match server_config with Some s => mret s | None => server_settings e end;
  if match tc_max_idle_timeout (ss_transport settings) with
     | Some timeout => in_received_at incoming + from_millis (into_inner timeout) <=? now
     | None => false
     end
  then
    e ← ep_remove_initial e (ih_dst_cid header);
    mret (Some (Err (mkAcceptError TimedOut None), buf, e))
  else if cids_exhausted e then
    e ← ep_remove_initial e (ih_dst_cid header);
    '(response, buf, e) ← initial_close e (ih_version header) (in_addresses incoming) (in_crypto incoming) (ih_src_cid header) refused buf;
    mret (Some (Err (mkAcceptError CidsExhausted (Some response)), buf, e))
  else
    match pk_decrypt (remote (k_packet (in_crypto incoming))) packet_number (in_header_data incoming) (in_payload incoming) with
    | None =>
        e ← ep_remove_initial e (ih_dst_cid header);
        mret (Some (Err (mkAcceptError (CausedBy (mkTransportError PROTOCOL_VIOLATION)) None), buf, e))
    | Some payload => start_connection e incoming incoming_buffer settings packet_number payload buf
    end.
End Endpoint.
#[global] Arguments Endpoint C R G SL SC L : clear implicits.
