(* ===== verification/EndpointInv.v ===== *)
(** What the tables of an endpoint say of each other: the ids of live connections lead to them, the attempts that wait for
    a decision have their buffer and their route, and nothing else is in the tables.

    The lemmas here are about the tables alone; [EndpointOps] shows that the operations of the endpoint keep them. *)
From stdpp Require Import gmap.
From S2P Require Import Prelude Coding Ids Shared Frame Packet Retransmits Token Connection PacketBuilder ConnTransmit CidGenerator EndpointIndex Endpoint.
Open Scope Z_scope.

(** * Local connection ids *)

Definition nonempty (cid : ConnectionId) : Prop := cid_is_empty cid = false.

(** The connection [meta] has the local id [cid]. *)
Definition owns (meta : ConnectionMeta) (cid : ConnectionId) : Prop := ∃ seq, cm_loc_cids meta !! seq = Some cid.

(** The ids of one connection: sequence numbers below the next one, no id twice. *)
Record meta_ok (meta : ConnectionMeta) : Prop := mkMetaOk {
  mo_issued : ∀ seq cid, cm_loc_cids meta !! seq = Some cid → 0 <= seq < cm_cids_issued meta;
  mo_positive : 0 <= cm_cids_issued meta;
  mo_inj : ∀ s1 s2 cid, nonempty cid → cm_loc_cids meta !! s1 = Some cid → cm_loc_cids meta !! s2 = Some cid → s1 = s2
}.

(** The ids of live connections lead to them, and every id that leads anywhere belongs to the connection it leads to, except
    those of [extra]. *)
Record ids_ok (ids : gmap ConnectionId ConnectionHandle) (conns : gmap Z ConnectionMeta) (extra : gset ConnectionId) : Prop := mkIdsOk {
  io_meta : ∀ ch meta, conns !! ch = Some meta → meta_ok meta;
  io_routed : ∀ ch meta cid, conns !! ch = Some meta → owns meta cid → nonempty cid → ids !! cid = Some ch;
  io_owned : ∀ cid ch, ids !! cid = Some ch → nonempty cid ∧ ((∃ meta, conns !! ch = Some meta ∧ owns meta cid) ∨ cid ∈ extra)
}.

Lemma ids_ok_empty extra : ids_ok ∅ ∅ extra.
Proof. split; intros *; rewrite lookup_empty; discriminate. Qed.

Lemma ids_ok_extra ids conns X Y : ids_ok ids conns X → X ⊆ Y → ids_ok ids conns Y.
Proof. intros [Hm Hr Ho] HXY. split; [done|done|]. intros cid ch Hc. destruct (Ho _ _ Hc) as [? [?|?]]; set_solver. Qed.

(** A fresh id for a connection that is not there yet, or will get it. *)
Lemma ids_fresh ids conns X cid ch :
  ids_ok ids conns X → ids !! cid = None → nonempty cid → ids_ok (<[cid := ch]> ids) conns ({[cid]} ∪ X).
Proof.
  intros [Hm Hr Ho] Hf Hn. split; [done| |].
  - intros ch' meta cid' Hc Hw Hn'. pose proof (Hr _ _ _ Hc Hw Hn') as H. rewrite lookup_insert_ne; [done|]. intros <-. congruence.
  - intros cid' ch' Hc. apply lookup_insert_Some in Hc as [[<- <-]|[Hne Hc]]; [split; [done|right; set_solver]|].
    destruct (Ho _ _ Hc) as [? [?|?]]; split; auto. right. set_solver.
Qed.

(** A new connection takes its ids out of the exceptions. *)
Lemma ids_add ids conns X Y ch meta :
  ids_ok ids conns X → conns !! ch = None → meta_ok meta →
  (∀ cid, owns meta cid → nonempty cid → ids !! cid = Some ch) → (∀ cid, cid ∈ X → nonempty cid → cid ∈ Y ∨ owns meta cid) →
  ids_ok ids (<[ch := meta]> conns) Y.
Proof.
  intros [Hm Hr Ho] Hf Hmeta Hown HX. split.
  - intros ch' m Hc. apply lookup_insert_Some in Hc as [[<- <-]|[Hne Hc]]; eauto.
  - intros ch' m cid Hc Hw Hn. apply lookup_insert_Some in Hc as [[<- <-]|[Hne Hc]]; eauto.
  - intros cid ch' Hc. destruct (Ho _ _ Hc) as [Hn [(m & Hm' & Hw)|Hx]]; split; try done.
    + left. exists m. rewrite lookup_insert_ne; [auto|]. intros <-. congruence.
    + destruct (HX _ Hx Hn) as [?|Hw]; [by right|left]. exists meta. rewrite (Hown _ Hw Hn) in Hc. injection Hc as ->.
      by rewrite lookup_insert_eq.
Qed.

(** An id issued to a live connection. *)
Lemma ids_issue ids conns X ch meta cid :
  ids_ok ids conns ({[cid]} ∪ X) → conns !! ch = Some meta → (nonempty cid → ids !! cid = Some ch) →
  (nonempty cid → ¬ owns meta cid) →
  ids_ok ids (<[ch := mkConnectionMeta (cm_init_cid meta) (cm_cids_issued meta + 1) (<[cm_cids_issued meta := cid]> (cm_loc_cids meta))
                        (cm_addresses meta) (cm_side meta) (cm_reset_token meta)]> conns) X.
Proof.
  intros [Hm Hr Ho] Hc Hroute Hfresh. set (meta' := mkConnectionMeta _ _ _ _ _ _). destruct (Hm _ _ Hc) as [H1 H2 H3].
  assert (Hkeep : ∀ c, owns meta c → owns meta' c).
  { intros c [s Hs]. exists s. cbn. rewrite lookup_insert_ne; [done|]. intros <-. apply H1 in Hs. lia. }
  assert (Hnew : ∀ c, owns meta' c → owns meta c ∨ c = cid).
  { intros c [s Hs]. cbn in Hs. apply lookup_insert_Some in Hs as [[_ <-]|[_ Hs]]; [by right|left; by exists s]. }
  assert (Hmeta : meta_ok meta').
  { split; cbn.
    - intros s c Hs. apply lookup_insert_Some in Hs as [[<- _]|[_ Hs]]; [lia|]. apply H1 in Hs. lia.
    - lia.
    - intros s1 s2 c Hn Hs1 Hs2. apply lookup_insert_Some in Hs1 as [[<- <-]|[Hn1 Hs1]]; apply lookup_insert_Some in Hs2 as [[<- E]|[Hn2 Hs2]].
      + done.
      + destruct (Hfresh Hn). by exists s2.
      + subst c. destruct (Hfresh Hn). by exists s1.
      + eauto. }
  split.
  - intros ch' m Hc'. apply lookup_insert_Some in Hc' as [[<- <-]|[Hne Hc']]; eauto.
  - intros ch' m c Hc' Hw Hn. apply lookup_insert_Some in Hc' as [[<- <-]|[Hne Hc']]; [|by eauto].
    apply Hnew in Hw as [Hw| ->]; eauto.
  - intros c ch' Hids. destruct (Ho _ _ Hids) as [Hn [(m & Hc' & Hw)|Hx]]; split; try done.
    + left. destruct (decide (ch' = ch)) as [->|Hne].
      * exists meta'. rewrite lookup_insert_eq. split; [done|]. apply Hkeep. congruence.
      * exists m. by rewrite lookup_insert_ne by done.
    + apply elem_of_union in Hx as [Hx|Hx]; [|by right]. apply elem_of_singleton in Hx as ->. left. exists meta'.
      rewrite (Hroute Hn) in Hids. injection Hids as <-. rewrite lookup_insert_eq. split; [done|].
      exists (cm_cids_issued meta). cbn. by rewrite lookup_insert_eq.
Qed.

(** An id the peer retired. *)
Lemma ids_retire ids conns X ch meta seq cid :
  ids_ok ids conns X → conns !! ch = Some meta → cm_loc_cids meta !! seq = Some cid →
  ids_ok (delete cid ids) (<[ch := set_cm_loc_cids meta (delete seq (cm_loc_cids meta))]> conns) X.
Proof.
  intros [Hm Hr Ho] Hc Hs. set (meta' := set_cm_loc_cids _ _). destruct (Hm _ _ Hc) as [H1 H2 H3].
  assert (Hsub : ∀ c, owns meta' c → owns meta c).
  { intros c [s Hs']. cbn in Hs'. apply lookup_delete_Some in Hs' as [_ Hs']. by exists s. }
  assert (Hne : ∀ c, owns meta' c → nonempty c → c ≠ cid).
  { intros c [s Hs'] Hn ->. cbn in Hs'. apply lookup_delete_Some in Hs' as [Hd Hs']. destruct Hd. by eapply H3. }
  split.
  - intros ch' m Hc'. apply lookup_insert_Some in Hc' as [[<- <-]|[_ Hc']]; [|by eauto]. split; cbn; [|done|].
    + intros s c Hs'. apply lookup_delete_Some in Hs' as [_ Hs']. eauto.
    + intros s1 s2 c Hn Hs1 Hs2. apply lookup_delete_Some in Hs1 as [_ Hs1], Hs2 as [_ Hs2]. eauto.
  - intros ch' m c Hc' Hw Hn. apply lookup_insert_Some in Hc' as [[<- <-]|[Hch Hc']].
    + rewrite lookup_delete_ne by (symmetry; auto). eauto.
    + pose proof (Hr _ _ _ Hc' Hw Hn) as Hi. rewrite lookup_delete_ne; [done|]. intros ->.
      assert (ids !! c = Some ch) by (eapply Hr; [done|by exists seq|done]). congruence.
  - intros c ch' Hi. apply lookup_delete_Some in Hi as [Hd Hi]. destruct (Ho _ _ Hi) as [Hn [(m & Hc' & Hw)|Hx]]; split; auto. left.
    destruct (decide (ch' = ch)) as [->|Hch]; [|exists m; by rewrite lookup_insert_ne by done].
    exists meta'. rewrite lookup_insert_eq. split; [done|]. rewrite Hc in Hc'. injection Hc' as <-. destruct Hw as [s Hs']. exists s. cbn.
    rewrite lookup_delete_ne; [done|]. intros <-. congruence.
Qed.

Lemma delete_all_lookup (l : list ConnectionId) (m : gmap ConnectionId ConnectionHandle) k :
  fold_left (fun m cid => delete cid m) l m !! k = if decide (k ∈ l) then None else m !! k.
Proof.
  revert m. induction l as [|x l IH]; intros m; cbn [fold_left]; [by rewrite decide_False by set_solver|].
  rewrite IH. destruct (decide (k ∈ l)); [by rewrite decide_True by set_solver|].
  destruct (decide (k = x)) as [->|]; [rewrite lookup_delete_eq, decide_True by set_solver; done|].
  rewrite lookup_delete_ne by done. by rewrite decide_False by set_solver.
Qed.

Definition own_list (meta : ConnectionMeta) : list ConnectionId := map snd (map_to_list (cm_loc_cids meta)).

Lemma own_list_spec meta cid : cid ∈ own_list meta ↔ owns meta cid.
Proof.
  unfold own_list, owns. rewrite list_elem_of_fmap. split.
  - intros ([s c] & -> & He). apply elem_of_map_to_list in He. by exists s.
  - intros [s Hs]. exists (s, cid). split; [done|]. by apply elem_of_map_to_list.
Qed.

(** A connection that is gone takes its ids with it. *)
Lemma ids_remove ids conns X ch meta :
  ids_ok ids conns X → conns !! ch = Some meta →
  ids_ok (fold_left (fun m cid => delete cid m) (own_list meta) ids) (delete ch conns) X.
Proof.
  intros [Hm Hr Ho] Hc. split.
  - intros ch' m Hc'. apply lookup_delete_Some in Hc' as [_ Hc']. eauto.
  - intros ch' m cid Hc' Hw Hn. apply lookup_delete_Some in Hc' as [Hne Hc']. rewrite delete_all_lookup, decide_False; [eauto|].
    rewrite own_list_spec. intros Hw'. pose proof (Hr _ _ _ Hc Hw' Hn). pose proof (Hr _ _ _ Hc' Hw Hn). congruence.
  - intros cid ch'. rewrite delete_all_lookup. destruct (decide _) as [|Hd]; [done|]. intros Hi.
    destruct (Ho _ _ Hi) as [Hn [(m & Hc' & Hw)|Hx]]; split; auto. left. exists m. rewrite lookup_delete_ne; [done|].
    intros <-. apply Hd, own_list_spec. congruence.
Qed.

(** * Routes by initial id *)

Definition dst_of (i : Incoming) : ConnectionId := ih_dst_cid (in_header i).

(** The initial id of an attempt leads to it, that of a server's connection to the connection, and to nothing else. *)
Record initial_ok (init : gmap ConnectionId RouteDatagramTo) (conns : gmap Z ConnectionMeta) (pending : list Incoming) : Prop := mkInitialOk {
  no_nonempty : ∀ cid r, init !! cid = Some r → nonempty cid;
  no_pending : ∀ i, i ∈ pending → nonempty (dst_of i) → init !! dst_of i = Some (ToIncoming (in_incoming_idx i));
  no_server : ∀ ch meta, conns !! ch = Some meta → cm_side meta = Server → nonempty (cm_init_cid meta) →
    init !! cm_init_cid meta = Some (ToConnection ch);
  no_incoming : ∀ cid k, init !! cid = Some (ToIncoming k) → ∃ i, i ∈ pending ∧ dst_of i = cid ∧ in_incoming_idx i = k;
  no_connection : ∀ cid ch, init !! cid = Some (ToConnection ch) →
    ∃ meta, conns !! ch = Some meta ∧ cm_side meta = Server ∧ cm_init_cid meta = cid
}.

(** What an update of the ids or the token of a connection leaves. *)
Definition like (m m' : ConnectionMeta) : Prop :=
  cm_init_cid m' = cm_init_cid m ∧ cm_addresses m' = cm_addresses m ∧ cm_side m' = cm_side m.

Lemma initial_like init conns pending ch meta meta' :
  initial_ok init conns pending → conns !! ch = Some meta → like meta meta' → initial_ok init (<[ch := meta']> conns) pending.
Proof.
  intros [He Hp Hs Hi Hc] Hm (E1 & _ & E3). split; [done|done| |done|].
  - intros ch' m Hm' Hside Hn. apply lookup_insert_Some in Hm' as [[<- <-]|[_ Hm']]; [|by eauto]. rewrite E1, E3 in *. eauto.
  - intros cid ch' Hc'. destruct (Hc _ _ Hc') as (m & Hm' & Hside & Hcid). destruct (decide (ch' = ch)) as [->|Hne].
    + exists meta'. rewrite lookup_insert_eq, E1, E3. split; [done|]. split; congruence.
    + exists m. by rewrite lookup_insert_ne by done.
Qed.

(** An attempt that was not there. *)
Lemma initial_new init conns pending i :
  initial_ok init conns pending → init !! dst_of i = None →
  initial_ok (if cid_is_empty (dst_of i) then init else <[dst_of i := ToIncoming (in_incoming_idx i)]> init) conns (i :: pending).
Proof.
  intros [He Hp Hs Hi Hc] Hf. destruct (cid_is_empty (dst_of i)) eqn:En; split.
  - done.
  - intros j [->|Hj]%elem_of_cons Hn; [unfold nonempty in Hn; congruence|auto].
  - done.
  - intros cid k Hk. destruct (Hi _ _ Hk) as (j & Hj & Hjk). exists j. split; [by right|done].
  - done.
  - intros cid r Hr. apply lookup_insert_Some in Hr as [[<- _]|[_ Hr]]; [done|eauto].
  - intros j [->|Hj]%elem_of_cons Hn; [by rewrite lookup_insert_eq|]. pose proof (Hp _ Hj Hn). rewrite lookup_insert_ne; [done|]. congruence.
  - intros ch m Hm Hside Hn. pose proof (Hs _ _ Hm Hside Hn). rewrite lookup_insert_ne; [done|]. congruence.
  - intros cid k Hk. apply lookup_insert_Some in Hk as [[<- [= <-]]|[Hne Hk]]; [exists i; split; [by left|done]|].
    destruct (Hi _ _ Hk) as (j & Hj & Hjk). exists j. split; [by right|done].
  - intros cid ch Hk. apply lookup_insert_Some in Hk as [[<- ?]|[Hne Hk]]; [done|auto].
Qed.

(** The other attempts have other keys. *)
Lemma other_idx l1 i l2 j :
  NoDup (in_incoming_idx <$> l1 ++ i :: l2) → j ∈ l1 ++ l2 → in_incoming_idx j ≠ in_incoming_idx i.
Proof.
  intros Hd Hj He. rewrite fmap_app, fmap_cons in Hd. apply NoDup_app in Hd as (_ & Hd1 & [Hd2 _]%NoDup_cons).
  assert (Hin : ∀ l, j ∈ l → in_incoming_idx i ∈ in_incoming_idx <$> l) by (intros l Hl; apply list_elem_of_fmap; by exists j).
  apply elem_of_app in Hj as [Hj|Hj]; apply Hin in Hj; [|done]. apply (Hd1 _ Hj). by left.
Qed.

(** Nothing else has the initial id of an attempt. *)
Lemma initial_others init conns l1 i l2 :
  initial_ok init conns (l1 ++ i :: l2) → NoDup (in_incoming_idx <$> l1 ++ i :: l2) → nonempty (dst_of i) →
  init !! dst_of i = Some (ToIncoming (in_incoming_idx i)) ∧
  (∀ j, j ∈ l1 ++ l2 → nonempty (dst_of j) → dst_of j ≠ dst_of i) ∧
  (∀ ch meta, conns !! ch = Some meta → cm_side meta = Server → nonempty (cm_init_cid meta) → cm_init_cid meta ≠ dst_of i).
Proof.
  intros [He Hp Hs Hi Hc] Hd Hn. assert (Hx : init !! dst_of i = Some (ToIncoming (in_incoming_idx i))) by (apply Hp; set_solver).
  split; [done|]. split.
  - intros j Hj Hnj E. apply (other_idx _ _ _ _ Hd Hj).
    assert (Hy : init !! dst_of j = Some (ToIncoming (in_incoming_idx j))) by (apply Hp; set_solver). congruence.
  - intros ch m Hm Hside Hnm E. pose proof (Hs _ _ Hm Hside Hnm). congruence.
Qed.

(** An attempt that was decided on. *)
Lemma initial_forget init conns l1 i l2 :
  initial_ok init conns (l1 ++ i :: l2) → NoDup (in_incoming_idx <$> l1 ++ i :: l2) →
  initial_ok (if cid_is_empty (dst_of i) then init else delete (dst_of i) init) conns (l1 ++ l2).
Proof.
  intros Hok Hd. assert (Hin : ∀ j, j ∈ l1 ++ l2 → j ∈ l1 ++ i :: l2) by set_solver.
  assert (Hout : ∀ j, j ∈ l1 ++ i :: l2 → j = i ∨ j ∈ l1 ++ l2) by set_solver.
  destruct (cid_is_empty (dst_of i)) eqn:En.
  { destruct Hok as [He Hp Hs Hi Hc]. split; auto. intros cid k Hk. destruct (Hi _ _ Hk) as (j & Hj & Hjc & Hjk). exists j.
    split; [|done]. destruct (Hout _ Hj) as [->|]; [|done]. apply He in Hk. unfold nonempty in Hk. congruence. }
  destruct (initial_others _ _ _ _ _ Hok Hd En) as (Hx & Hj & Hm). destruct Hok as [He Hp Hs Hi Hc]. split.
  - intros cid r Hr. apply lookup_delete_Some in Hr as [_ Hr]. eauto.
  - intros j Hj' Hn. rewrite lookup_delete_ne by (symmetry; auto). auto.
  - intros ch m Hm' Hside Hn. rewrite lookup_delete_ne by (symmetry; eauto). eauto.
  - intros cid k Hk. apply lookup_delete_Some in Hk as [Hne Hk]. destruct (Hi _ _ Hk) as (j & Hj' & Hjc & Hjk). exists j.
    split; [|done]. destruct (Hout _ Hj') as [->|]; [|done]. congruence.
  - intros cid ch Hk. apply lookup_delete_Some in Hk as [_ Hk]. eauto.
Qed.

(** An attempt that became a connection. *)
Lemma initial_accept init conns l1 i l2 ch meta :
  initial_ok init conns (l1 ++ i :: l2) → NoDup (in_incoming_idx <$> l1 ++ i :: l2) → conns !! ch = None →
  cm_side meta = Server → cm_init_cid meta = dst_of i →
  initial_ok (if cid_is_empty (dst_of i) then init else <[dst_of i := ToConnection ch]> init) (<[ch := meta]> conns) (l1 ++ l2).
Proof.
  intros Hok Hd Hf Hside Hcid. assert (Hin : ∀ j, j ∈ l1 ++ l2 → j ∈ l1 ++ i :: l2) by set_solver.
  assert (Hout : ∀ j, j ∈ l1 ++ i :: l2 → j = i ∨ j ∈ l1 ++ l2) by set_solver.
  destruct (cid_is_empty (dst_of i)) eqn:En.
  { destruct Hok as [He Hp Hs Hi Hc]. split; auto.
    - intros ch' m Hm Hsm Hn. apply lookup_insert_Some in Hm as [[<- <-]|[_ Hm]]; [unfold nonempty in Hn; congruence|auto].
    - intros cid k Hk. destruct (Hi _ _ Hk) as (j & Hj & Hjc & Hjk). exists j.
      split; [|done]. destruct (Hout _ Hj) as [->|]; [|done]. apply He in Hk. unfold nonempty in Hk. congruence.
    - intros cid ch' Hk. destruct (Hc _ _ Hk) as (m & Hm & ?). exists m. rewrite lookup_insert_ne; [done|]. congruence. }
  destruct (initial_others _ _ _ _ _ Hok Hd En) as (Hx & Hj & Hm). destruct Hok as [He Hp Hs Hi Hc]. split.
  - intros cid r Hr. apply lookup_insert_Some in Hr as [[<- _]|[_ Hr]]; [done|eauto].
  - intros j Hj' Hn. rewrite lookup_insert_ne by (symmetry; auto). auto.
  - intros ch' m Hm' Hsm Hn. apply lookup_insert_Some in Hm' as [[<- <-]|[_ Hm']]; [by rewrite Hcid, lookup_insert_eq|].
    rewrite lookup_insert_ne by (symmetry; eauto). eauto.
  - intros cid k Hk. apply lookup_insert_Some in Hk as [[_ ?]|[Hne Hk]]; [done|]. destruct (Hi _ _ Hk) as (j & Hj' & Hjc & Hjk). exists j.
    split; [|done]. destruct (Hout _ Hj') as [->|]; [|done]. congruence.
  - intros cid ch' Hk. apply lookup_insert_Some in Hk as [[<- [= <-]]|[Hne Hk]]; [exists meta; by rewrite lookup_insert_eq|].
    destruct (Hc _ _ Hk) as (m & Hm' & ?). exists m. rewrite lookup_insert_ne; [done|]. congruence.
Qed.

(** A client's connection has no initial route. *)
Lemma initial_client init conns pending ch meta :
  initial_ok init conns pending → conns !! ch = None → cm_side meta = Client → initial_ok init (<[ch := meta]> conns) pending.
Proof.
  intros [He Hp Hs Hi Hc] Hf Hside. split; auto.
  - intros ch' m Hm Hsm Hn. apply lookup_insert_Some in Hm as [[<- <-]|[_ Hm]]; [congruence|auto].
  - intros cid ch' Hk. destruct (Hc _ _ Hk) as (m & Hm & ?). exists m. rewrite lookup_insert_ne; [done|]. congruence.
Qed.

(** A connection that is gone. *)
Lemma initial_gone init conns pending ch meta :
  initial_ok init conns pending → conns !! ch = Some meta →
  initial_ok (if is_server (cm_side meta) && negb (cid_is_empty (cm_init_cid meta)) then delete (cm_init_cid meta) init else init)
    (delete ch conns) pending.
Proof.
  intros [He Hp Hs Hi Hc] Hm. set (b := is_server _ && _).
  assert (Hb : ∀ cid, init !! cid = Some (ToConnection ch) → b = true ∧ cid = cm_init_cid meta).
  { intros cid Hk. pose proof (He _ _ Hk) as Hn. destruct (Hc _ _ Hk) as (m & Hm' & Hside & <-). rewrite Hm in Hm'. injection Hm' as <-.
    subst b. rewrite Hside. unfold nonempty in Hn. by rewrite Hn. }
  assert (Ht : b = true → init !! cm_init_cid meta = Some (ToConnection ch)).
  { intros [Hs' Hn]%andb_true_iff. apply Hs; [done|by destruct (cm_side meta)|]. unfold nonempty. by destruct (cid_is_empty _). }
  assert (Hl : ∀ cid, (if b then delete (cm_init_cid meta) init else init) !! cid =
    if decide (init !! cid = Some (ToConnection ch)) then None else init !! cid).
  { intros cid. destruct (decide _) as [Hk|Hk].
    - destruct (Hb _ Hk) as [-> ->]. by rewrite lookup_delete_eq.
    - destruct b; [|done]. rewrite lookup_delete_ne; [done|]. intros <-. auto. }
  split.
  - intros cid r. rewrite Hl. destruct (decide _); [done|]. apply He.
  - intros j Hj Hn. pose proof (Hp _ Hj Hn) as E. rewrite Hl, decide_False; congruence.
  - intros ch' m Hm' Hside Hn. apply lookup_delete_Some in Hm' as [Hne Hm']. pose proof (Hs _ _ Hm' Hside Hn) as E.
    rewrite Hl, decide_False; congruence.
  - intros cid k. rewrite Hl. destruct (decide _); [done|]. apply Hi.
  - intros cid ch'. rewrite Hl. destruct (decide _) as [|Hd]; [done|]. intros Hk. destruct (Hc _ _ Hk) as (m & Hm' & ?). exists m.
    rewrite lookup_delete_ne; [done|]. congruence.
Qed.

(** * Buffers of attempts *)

(** The bytes of a datagram, from its first packet on. *)
Definition event_len (event : DatagramConnectionEvent) : Z :=
  Partial_len (de_first_decode event) + match de_remaining event with Some rest => len rest | None => 0 end.

Definition buffer_ok (b : IncomingBuffer) : Prop := ib_total_bytes b = foldr Z.add 0 (map event_len (ib_datagrams b)) ∧ 0 <= ib_total_bytes b.

Definition buffered (m : gmap Z IncomingBuffer) : Z := map_fold (fun _ b n => ib_total_bytes b + n) 0 m.

(** Bounds of the settings of a server. *)
Record Caps : Type := mkCaps { cap_buffer : Z; cap_total : Z; cap_count : Z }.
Definition capped (caps : Caps) (config : ServerConfig) : Prop :=
  sc_incoming_buffer_size config <= cap_buffer caps ∧ sc_incoming_buffer_size_total config <= cap_total caps ∧
  sc_max_incoming config <= cap_count caps.

(** Every attempt has one buffer, the counter is the sum of what they hold, and the limits are kept. *)
Record buffers_ok (caps : Caps) (buffers : gmap Z IncomingBuffer) (total : Z) (pending : list Incoming) : Prop := mkBuffersOk {
  bo_keys : ∀ k, is_Some (buffers !! k) ↔ k ∈ in_incoming_idx <$> pending;
  bo_nodup : NoDup (in_incoming_idx <$> pending);
  bo_buffer : ∀ k b, buffers !! k = Some b → buffer_ok b;
  bo_total : total = buffered buffers;
  bo_each : ∀ k b, buffers !! k = Some b → ib_total_bytes b <= Z.max 0 (cap_buffer caps);
  bo_all : total <= Z.max 0 (cap_total caps);
  bo_count : len pending <= Z.max 0 (cap_count caps)
}.

Lemma buffers_size caps buffers total pending : buffers_ok caps buffers total pending → Z.of_nat (size buffers) = len pending.
Proof.
  intros Hb. unfold len. f_equal. rewrite <- (length_fmap in_incoming_idx pending), <- size_dom.
  rewrite <- (size_list_to_set (C := gset Z)) by apply Hb. f_equal. apply set_eq. intros k. rewrite elem_of_dom, elem_of_list_to_set. apply Hb.
Qed.

Lemma buffered_insert m k b : m !! k = None → buffered (<[k := b]> m) = ib_total_bytes b + buffered m.
Proof. intros Hk. unfold buffered. rewrite map_fold_insert_L; [done| |done]. intros; lia. Qed.

Lemma buffered_delete m k b : m !! k = Some b → buffered m = ib_total_bytes b + buffered (delete k m).
Proof. intros Hk. unfold buffered. rewrite (map_fold_delete_L _ _ k b m); [done| |done]. intros; lia. Qed.

Lemma buffered_nonneg m : (∀ k b, m !! k = Some b → buffer_ok b) → 0 <= buffered m.
Proof.
  induction m as [|k b m Hk IH] using map_ind; [done|]. intros Hb. rewrite buffered_insert by done.
  destruct (Hb k b) as [_ Hn]; [by rewrite lookup_insert_eq|]. enough (0 <= buffered m) by lia. apply IH.
  intros k' b' Hk'. apply (Hb k'). rewrite lookup_insert_ne; congruence.
Qed.

Lemma buffers_new caps buffers total pending i :
  buffers_ok caps buffers total pending → buffers !! in_incoming_idx i = None → len pending < cap_count caps →
  buffers_ok caps (<[in_incoming_idx i := IncomingBuffer_default]> buffers) total (i :: pending).
Proof.
  intros [Hk Hd Hb Ht He Ha Hc] Hf Hn. split.
  - intros k. rewrite fmap_cons, elem_of_cons, <- Hk, lookup_insert_is_Some'. naive_solver.
  - rewrite fmap_cons, NoDup_cons. split; [|done]. rewrite <- Hk, Hf. by intros [? ?].
  - intros k b Hkb. apply lookup_insert_Some in Hkb as [[_ <-]|[_ Hkb]]; [done|eauto].
  - by rewrite buffered_insert.
  - intros k b Hkb. apply lookup_insert_Some in Hkb as [[_ <-]|[_ Hkb]]; [cbn; lia|eauto].
  - done.
  - rewrite len_cons. lia.
Qed.

Lemma buffers_take caps buffers total l1 i l2 b :
  buffers_ok caps buffers total (l1 ++ i :: l2) → buffers !! in_incoming_idx i = Some b →
  ib_total_bytes b <= total ∧ buffers_ok caps (delete (in_incoming_idx i) buffers) (total - ib_total_bytes b) (l1 ++ l2).
Proof.
  intros [Hk Hd Hb Ht Heach Ha Hc] Hi. pose proof (buffered_delete _ _ _ Hi) as He. destruct (Hb _ _ Hi) as [_ Hpos].
  assert (Hb' : ∀ k b, delete (in_incoming_idx i) buffers !! k = Some b → buffer_ok b).
  { intros k b' Hkb. apply lookup_delete_Some in Hkb as [_ Hkb]. eauto. }
  pose proof (buffered_nonneg _ Hb'). split; [lia|]. split; [| |done|lia| |lia|].
  - intros k. rewrite lookup_delete_is_Some, Hk, fmap_app, fmap_cons, fmap_app, !elem_of_app, elem_of_cons. split; [naive_solver|].
    intros Hkl. split; [|naive_solver]. intros <-. rewrite <- elem_of_app, <- fmap_app in Hkl.
    apply list_elem_of_fmap in Hkl as (j & Hij & Hj). by eapply other_idx.
  - rewrite fmap_app, fmap_cons in Hd. rewrite fmap_app. apply NoDup_app in Hd as (H1 & H2 & [H3 H4]%NoDup_cons).
    apply NoDup_app. split; [done|]. split; [|done]. intros k Hk1 Hk2. apply (H2 k Hk1). by right.
  - intros k b' Hkb. apply lookup_delete_Some in Hkb as [_ Hkb]. eauto.
  - rewrite len_app, len_cons in Hc. rewrite len_app. lia.
Qed.

Lemma buffers_store caps buffers total pending k b event :
  buffers_ok caps buffers total pending → buffers !! k = Some b → 0 <= event_len event →
  ib_total_bytes b + event_len event <= cap_buffer caps → total + event_len event <= cap_total caps →
  buffers_ok caps (<[k := mkIncomingBuffer (ib_datagrams b ++ [event]) (ib_total_bytes b + event_len event)]> buffers)
    (total + event_len event) pending.
Proof.
  intros [Hk Hd Hb Ht Heach Ha Hc] Hkb He H1 H2. split; [|done| | | |lia|done].
  - intros k'. rewrite lookup_insert_is_Some', <- Hk. naive_solver.
  - intros k' b' Hkb'. apply lookup_insert_Some in Hkb' as [[_ <-]|[_ Hkb']]; [|by eauto]. destruct (Hb _ _ Hkb) as [Hs Hn].
    split; cbn [ib_total_bytes ib_datagrams]; [|lia]. rewrite map_app, foldr_app. cbn [map foldr]. rewrite Z.add_0_r.
    rewrite Hs at 1. clear. induction (ib_datagrams b) as [|x l IH]; cbn [map foldr]; lia.
  - rewrite (buffered_delete _ k _ (lookup_insert_eq _ _ _)), delete_insert_eq. cbn [ib_total_bytes].
    rewrite Ht, (buffered_delete _ _ _ Hkb). lia.
  - intros k' b' Hkb'. apply lookup_insert_Some in Hkb' as [[_ <-]|[_ Hkb']]; [cbn; lia|eauto].
Qed.

(** * Reset tokens *)

(** Every token leads to a connection that has it, and addresses without tokens are dropped. *)
Record tokens_ok (tokens : ResetTokenTable) (conns : gmap Z ConnectionMeta) : Prop := mkTokensOk {
  to_live : ∀ r m t ch, tokens !! r = Some m → m !! t = Some ch →
    ∃ meta, conns !! ch = Some meta ∧ cm_reset_token meta = Some (r, t);
  to_nonempty : ∀ r m, tokens !! r = Some m → m ≠ ∅
}.

Lemma tokens_remove_lookup tokens remote token r m :
  tokens_remove tokens remote token !! r = Some m →
  ∃ m0, tokens !! r = Some m0 ∧ (∀ t ch, m !! t = Some ch → m0 !! t = Some ch ∧ (r, t) ≠ (remote, token)) ∧ (m ≠ ∅ ∨ m = m0).
Proof.
  unfold tokens_remove. destruct (tokens !! remote) as [m0|] eqn:E0.
  - destruct (bool_decide_reflect (delete token m0 = ∅)) as [Hd|Hd]; intros Hr.
    + apply lookup_delete_Some in Hr as [Hne Hr]. exists m. split; [done|]. split; [|by right]. intros t ch Ht. split; [done|]. congruence.
    + apply lookup_insert_Some in Hr as [[<- <-]|[Hne Hr]].
      * exists m0. split; [done|]. split; [|by left]. intros t ch Ht. apply lookup_delete_Some in Ht as [Hne Ht]. split; [done|]. congruence.
      * exists m. split; [done|]. split; [|by right]. intros t ch Ht. split; [done|]. congruence.
  - intros Hr. exists m. split; [done|]. split; [|by right]. intros t ch Ht. split; [done|]. congruence.
Qed.

Lemma tokens_removed tokens conns conns' remote token :
  tokens_ok tokens conns →
  (∀ ch meta r t, conns !! ch = Some meta → cm_reset_token meta = Some (r, t) → (r, t) ≠ (remote, token) →
     ∃ meta', conns' !! ch = Some meta' ∧ cm_reset_token meta' = Some (r, t)) →
  tokens_ok (tokens_remove tokens remote token) conns'.
Proof.
  intros [Hl Hn] Hc. split.
  - intros r m t ch Hr Ht. destruct (tokens_remove_lookup _ _ _ _ _ Hr) as (m0 & Hr0 & Hm & _). destruct (Hm _ _ Ht) as [Ht0 Hne].
    destruct (Hl _ _ _ _ Hr0 Ht0) as (meta & Hm' & Hrt). eauto.
  - intros r m Hr. destruct (tokens_remove_lookup _ _ _ _ _ Hr) as (m0 & Hr0 & Hm & [?| ->]); eauto.
Qed.

Lemma tokens_inserted tokens conns remote token ch meta :
  tokens_ok tokens (delete ch conns) → cm_reset_token meta = Some (remote, token) →
  tokens_ok (snd (tokens_insert tokens remote token ch)) (<[ch := meta]> conns).
Proof.
  intros [Hl Hn] Hm. unfold tokens_insert. cbn [snd]. split.
  - intros r m t ch' Hr Ht. assert (Hold : ∀ m0, tokens !! r = Some m0 → m0 !! t = Some ch' →
      ∃ meta', <[ch := meta]> conns !! ch' = Some meta' ∧ cm_reset_token meta' = Some (r, t)).
    { intros m0 Hr0 Ht0. destruct (Hl _ _ _ _ Hr0 Ht0) as (m' & Hm' & Hrt). apply lookup_delete_Some in Hm' as [Hne Hm'].
      exists m'. by rewrite lookup_insert_ne. }
    apply lookup_insert_Some in Hr as [[<- <-]|[Hne Hr]]; [|eauto].
    apply lookup_insert_Some in Ht as [[<- <-]|[Hne Ht]]; [exists meta; by rewrite lookup_insert_eq|].
    destruct (tokens !! remote) as [m0|] eqn:E0; [eauto|done].
  - intros r m Hr. apply lookup_insert_Some in Hr as [[<- <-]|[Hne Hr]]; [|eauto]. apply insert_non_empty.
Qed.

Lemma tokens_like tokens conns ch meta meta' :
  tokens_ok tokens conns → conns !! ch = Some meta → cm_reset_token meta' = cm_reset_token meta → tokens_ok tokens (<[ch := meta']> conns).
Proof.
  intros [Hl Hn] Hm He. split; [|done]. intros r m t ch' Hr Ht. destruct (Hl _ _ _ _ Hr Ht) as (m' & Hm' & Hrt).
  destruct (decide (ch' = ch)) as [->|Hne]; [exists meta'; rewrite lookup_insert_eq; split; congruence|].
  exists m'. by rewrite lookup_insert_ne.
Qed.

(** * Routes by address *)

Record remotes_ok (incoming : gmap FourTuple ConnectionHandle) (outgoing : gmap SocketAddr ConnectionHandle)
    (conns : gmap Z ConnectionMeta) : Prop := mkRemotesOk {
  ro_incoming : ∀ a ch, incoming !! a = Some ch → ∃ meta, conns !! ch = Some meta ∧ cm_addresses meta = a ∧ cm_side meta = Server;
  ro_outgoing : ∀ r ch, outgoing !! r = Some ch → ∃ meta, conns !! ch = Some meta ∧ ft_remote (cm_addresses meta) = r ∧ cm_side meta = Client
}.

Lemma remotes_like incoming outgoing conns ch meta meta' :
  remotes_ok incoming outgoing conns → conns !! ch = Some meta → like meta meta' → remotes_ok incoming outgoing (<[ch := meta']> conns).
Proof.
  intros [Hi Ho] Hm (_ & E2 & E3). split; intros a ch' Ha.
  - destruct (Hi _ _ Ha) as (m & Hm' & <- & Hs). destruct (decide (ch' = ch)) as [->|Hne].
    + exists meta'. rewrite lookup_insert_eq, E2, E3. split; [done|]. split; congruence.
    + exists m. by rewrite lookup_insert_ne.
  - destruct (Ho _ _ Ha) as (m & Hm' & <- & Hs). destruct (decide (ch' = ch)) as [->|Hne].
    + exists meta'. rewrite lookup_insert_eq, E2, E3. split; [done|]. split; congruence.
    + exists m. by rewrite lookup_insert_ne.
Qed.

Lemma remotes_new incoming outgoing conns ch meta :
  remotes_ok incoming outgoing conns → conns !! ch = None → remotes_ok incoming outgoing (<[ch := meta]> conns).
Proof.
  intros [Hi Ho] Hf. split; intros a ch' Ha.
  - destruct (Hi _ _ Ha) as (m & Hm & ?). exists m. rewrite lookup_insert_ne; [done|]. congruence.
  - destruct (Ho _ _ Ha) as (m & Hm & ?). exists m. rewrite lookup_insert_ne; [done|]. congruence.
Qed.

Lemma remotes_gone incoming outgoing conns ch meta :
  remotes_ok incoming outgoing conns → conns !! ch = Some meta →
  remotes_ok (delete (cm_addresses meta) incoming) (delete (ft_remote (cm_addresses meta)) outgoing) (delete ch conns).
Proof.
  intros [Hi Ho] Hm. split; intros a ch' Ha; apply lookup_delete_Some in Ha as [Hne Ha].
  - destruct (Hi _ _ Ha) as (m & Hm' & <- & ?). exists m. rewrite lookup_delete_ne; [done|]. congruence.
  - destruct (Ho _ _ Ha) as (m & Hm' & <- & ?). exists m. rewrite lookup_delete_ne; [done|]. congruence.
Qed.

(** * Looking up a datagram *)

Lemma union_Some_l {A} (a : A) o : Some a ∪ o = Some a.
Proof. by destruct o. Qed.

Lemma union_None_l {A} (o : option A) : None ∪ o = o.
Proof. by destruct o. Qed.

(** What the index found, and that the lookups before found nothing. *)
Lemma index_get_cases x addresses datagram :
  let dst := Partial_dst_cid datagram in
  match index_get x addresses datagram with
  | Some (ToIncoming k) => connection_ids_initial x !! dst = Some (ToIncoming k)
  | Some (ToConnection ch) =>
      (nonempty dst ∧ connection_ids x !! dst = Some ch) ∨ connection_ids_initial x !! dst = Some (ToConnection ch) ∨
      incoming_connection_remotes x !! addresses = Some ch ∨ outgoing_connection_remotes x !! ft_remote addresses = Some ch ∨
      ∃ m t, connection_reset_tokens x !! ft_remote addresses = Some m ∧ m !! t = Some ch
  | None => (nonempty dst → connection_ids x !! dst = None) ∧
      (Partial_is_initial datagram || Partial_is_0rtt datagram = true → connection_ids_initial x !! dst = None)
  end.
Proof.
  cbv zeta. unfold index_get. set (dst := Partial_dst_cid datagram). cbv zeta. set (data := pd_buf datagram).
  set (tok := if len data <? RESET_TOKEN_SIZE then None else _).
  assert (Ht : match tok with Some (ToConnection ch) => ∃ m t, connection_reset_tokens x !! ft_remote addresses = Some m ∧ m !! t = Some ch
    | Some (ToIncoming _) => False | None => True end).
  { subst tok. destruct (_ <? _); [done|]. unfold tokens_get. destruct (_ =? _); [|done].
    destruct (connection_reset_tokens x !! ft_remote addresses) as [m|] eqn:Em; [|done]. cbn [mbind option_bind].
    destruct (m !! _) as [ch|] eqn:Ech; cbn; [|done]. eauto. }
  clearbody tok. unfold nonempty. destruct (cid_is_empty dst) eqn:En; cbn [negb].
  - destruct (Partial_is_initial datagram || Partial_is_0rtt datagram);
      [destruct (connection_ids_initial x !! dst) as [[?|?]|] eqn:Ei; cbn; auto|];
      destruct (incoming_connection_remotes x !! addresses) as [?|]; cbn; auto;
      destruct (outgoing_connection_remotes x !! ft_remote addresses) as [ch'|]; cbn; auto;
      destruct tok as [[?|?]|]; cbn in *; first [done|solve [auto 10]|by split].
  - destruct (connection_ids x !! dst) as [ch|] eqn:Ec; cbn; [rewrite !union_Some_l; by left|].
    destruct (Partial_is_initial datagram || Partial_is_0rtt datagram);
      [destruct (connection_ids_initial x !! dst) as [[?|?]|] eqn:Ei; cbn; auto|];
      destruct tok as [[?|?]|]; cbn in *; first [done|solve [auto 10]|by split].
Qed.
