(* ===== verification/EndpointOps.v ===== *)
(** The operations of an endpoint keep its tables in order. *)
From stdpp Require Import gmap.
From S2P Require Import Prelude Coding RangeSet Ids Shared Frame Float Packet PacketSafety TransportParams Token TokenCache Assembler Recv Send.
From S2P Require Import PendingStreams Retransmits CidQueue CidState Streams Dedup PendingAcks Mtud Timer AckFrequency Rtt.
From S2P Require Import Congestion Pacing Datagrams Spaces PacketCrypto Config Paths Connection ConnRecovery ConnReceive.
From S2P Require Import PacketBuilder ConnTransmit CidGenerator EndpointIndex Endpoint Post EndpointInv.
Open Scope Z_scope.

(** * Computations that may run out of turns *)

Definition within {A} (m : M (option A)) (Q : A → Prop) : Prop := post m (fun r => match r with Some a => Q a | None => True end).

Lemma within_bind {A B} (m : M (option A)) (k : A → M (option B)) (P : A → Prop) (Q : B → Prop) :
  within m P → (∀ a, P a → within (k a) Q) → within (turns_bind m k) Q.
Proof. intros Hm Hk. eapply post_bind; [exact Hm|]. intros [a|] Ha; [by apply Hk|done]. Qed.

Lemma within_step {A B} (m : M A) (k : A → M (option B)) (P : A → Prop) (Q : B → Prop) :
  post m P → (∀ a, P a → within (k a) Q) → within (m ≫= k) Q.
Proof. apply post_bind. Qed.

Lemma within_done {A} (a : A) (Q : A → Prop) : Q a → within (mret (Some a)) Q.
Proof. done. Qed.

Lemma within_weaken {A} (m : M (option A)) (P Q : A → Prop) : within m P → (∀ a, P a → Q a) → within m Q.
Proof. intros Hm HPQ. eapply post_weaken; [exact Hm|]. intros [a|]; auto. Qed.

Section Ops.
Context {C : Type} {HC : Controller C} {H : Type} {HH : Heap H} {T : Type} {HT : Session T} {R : Type} {HR : Rng R}
  {TS : Type} {HTS : TokenStore TS}.
Context {HRC : RngCore R} {HER : EndpointRng R} {G : Type} {HG : ConnectionIdGenerator G} {SL : Type → Type} {HS : Slab SL}
  {HSok : SlabOk SL} {SC : Type} {HSC : CryptoServerConfig SC T} {CC : Type} {HCC : CryptoClientConfig CC T} {L : Type} {HL : TokenLog L}.
Local Notation Endpoint := (Endpoint C R G SL SC L).
Context (max_instant : Z) (crypto_turns cid_turns : nat) (caps : Caps).
Implicit Types e : Endpoint.

(** * The invariant *)

Definition conns_of e : gmap Z ConnectionMeta := slab_map (e_connections e).

(** [routed] are the attempts with a route, [pending] those with a buffer: the same but while one is accepted.  [leaked] are the
    ids no connection has. *)
Record ep_ok e (routed pending : list Incoming) (leaked : gset ConnectionId) : Prop := mkEpOk {
  eo_ids : ids_ok (connection_ids (e_index e)) (conns_of e) leaked;
  eo_initial : initial_ok (connection_ids_initial (e_index e)) (conns_of e) routed;
  eo_buffers : buffers_ok caps (slab_map (e_incoming_buffers e)) (e_all_incoming_buffers_total_bytes e) pending;
  eo_tokens : tokens_ok (connection_reset_tokens (e_index e)) (conns_of e);
  eo_remotes : remotes_ok (incoming_connection_remotes (e_index e)) (outgoing_connection_remotes (e_index e)) (conns_of e);
  eo_server : ∀ config, ss_config <$> e_server_config e = Some config → capped caps config
}.

Lemma Endpoint_new_ok os_rng config server_config mtud :
  (∀ s, server_config = Some s → capped caps (ss_config s)) → ep_ok (Endpoint_new os_rng config server_config mtud) [] [] ∅.
Proof.
  intros Hcap. split; cbn; unfold conns_of; cbn; rewrite ?slab_map_new; [apply ids_ok_empty| | | | |].
  - split; intros *; rewrite ?lookup_empty; try done. intros Hi. by apply elem_of_nil in Hi.
  - split; try done; try lia; [|by constructor|rewrite len_nil; lia]. intros k. rewrite lookup_empty. split; [by intros [? ?]|]. cbn. by intros ?%elem_of_nil.
  - split; intros *; by rewrite lookup_empty.
  - split; intros *; by rewrite lookup_empty.
  - intros config' Hs. destruct server_config as [s|]; [|done]. injection Hs as <-. auto.
Qed.

(** Everything but the random numbers, the generator of ids, the log of tokens and the time of the last reset. *)
Record kept e e' : Prop := mkKept {
  kp_index : e_index e' = e_index e;
  kp_conns : e_connections e' = e_connections e;
  kp_buffers : e_incoming_buffers e' = e_incoming_buffers e;
  kp_total : e_all_incoming_buffers_total_bytes e' = e_all_incoming_buffers_total_bytes e;
  kp_config : e_config e' = e_config e;
  kp_server : (ss_config <$> e_server_config e') = (ss_config <$> e_server_config e)
}.

#[local] Instance kept_preorder : PreOrder kept.
Proof. split; [by split|]. intros e1 e2 e3 [] []. split; by etrans. Qed.

Lemma kept_ok e e' routed pending leaked : kept e e' → ep_ok e routed pending leaked → ep_ok e' routed pending leaked.
Proof. intros [E1 E2 E3 E4 _ E6] [I1 I2 I3 I4 I5 I6]. split; unfold conns_of in *; by rewrite ?E1, ?E2, ?E3, ?E4, ?E6. Qed.

Lemma kept_rng e v : kept e (set_e_rng e v).
Proof. done. Qed.
Lemma kept_generator e v : kept e (set_e_generator e v).
Proof. done. Qed.
Lemma kept_last e v : kept e (set_e_last_stateless_reset e v).
Proof. done. Qed.

Lemma initial_close_kept e version addresses crypto remote_id reason buf :
  post (initial_close e version addresses crypto remote_id reason buf) (fun r => kept e r.2).
Proof.
  unfold initial_close. eapply post_bind; [apply post_true|]. intros [id g] _. cbv zeta.
  eapply post_bind; [apply post_true|]. intros [pe b] _. do 4 (eapply post_bind; [apply post_true|]; intros ? _). by apply post_ret.
Qed.

Lemma stateless_reset_kept e now n addresses dst buf : post (stateless_reset e now n addresses dst buf) (fun r => kept e r.2).
Proof.
  unfold stateless_reset. match goal with |- post (if ?b then _ else _) _ => destruct b end; [by apply post_ret|].
  destruct (checked_sub n RESET_TOKEN_SIZE) as [h|]; [|by apply post_ret]. destruct (MIN_PADDING_LEN <? h); [|by apply post_ret]. cbv zeta.
  eapply post_bind; [apply post_true|]. intros [k rng] _. destruct (fill_bytes rng k) as [p rng2].
  do 3 (eapply post_bind; [apply post_true|]; intros ? _). by apply post_ret.
Qed.

Lemma version_negotiation_kept e addresses src dst version buf :
  post (version_negotiation e addresses src dst version buf) (fun r => kept e r.2).
Proof.
  unfold version_negotiation. destruct (e_server_config e) as [s|] eqn:Es; [|by apply post_ret]. destruct (random_u8 _) as [b rng]. cbv zeta.
  eapply post_bind; [apply post_true|]. intros [pe b'] _. by apply post_ret.
Qed.

Lemma endpoint_params_kept e config loc_cid migration : post (endpoint_params e config loc_cid migration) (fun r => kept e r.2).
Proof.
  unfold endpoint_params. eapply post_bind; [apply post_true|]. intros [p rng] _. destruct (shuffle _ _) as [o rng2]. by apply post_ret.
Qed.

(** * Ids *)

Definition with_id e (cid : ConnectionId) (ch : ConnectionHandle) : Endpoint :=
  if cid_is_empty cid then e else set_e_index e (set_ids (e_index e) (<[cid := ch]> (connection_ids (e_index e)))).

Lemma new_cid_spec turns e ch :
  within (new_cid_loop turns e ch) (fun r =>
    (nonempty r.1 → connection_ids (e_index e) !! r.1 = None) ∧ kept (with_id e r.1 ch) r.2).
Proof.
  revert e. induction turns as [|turns IH]; intros e; cbn [new_cid_loop]; [done|].
  eapply within_step; [apply post_true|]. intros [cid g] _. cbv zeta. destruct (cid_is_empty cid) eqn:En.
  { eapply within_step; [apply post_true|]. intros _ _. apply within_done. unfold with_id, nonempty. cbn [fst snd]. by rewrite En. }
  case_bool_decide as Hf; [|].
  - apply within_done. unfold with_id. cbn [fst snd]. rewrite En. done.
  - eapply within_weaken; [apply IH|]. intros [c e'] [H1 H2]. cbn [fst snd] in *. split; [done|]. etrans; [|exact H2].
    unfold with_id. by destruct (cid_is_empty c).
Qed.

(** After an id was drawn it is an exception until a connection has it. *)
Lemma with_id_ok e cid ch routed pending leaked :
  ep_ok e routed pending leaked → (nonempty cid → connection_ids (e_index e) !! cid = None) →
  ep_ok (with_id e cid ch) routed pending ({[cid]} ∪ leaked).
Proof.
  intros [I1 I2 I3 I4 I5 I6] Hf. unfold with_id. destruct (cid_is_empty cid) eqn:En; split; try done.
  - eapply ids_ok_extra; [done|]. set_solver.
  - by apply ids_fresh; [|apply Hf|].
Qed.

Lemma new_cid_ok e ch routed pending leaked :
  ep_ok e routed pending leaked →
  within (new_cid cid_turns e ch) (fun r =>
    ep_ok r.2 routed pending ({[r.1]} ∪ leaked) ∧ (nonempty r.1 → connection_ids (e_index e) !! r.1 = None) ∧
    (nonempty r.1 → connection_ids (e_index r.2) !! r.1 = Some ch) ∧ kept (with_id e r.1 ch) r.2).
Proof.
  intros He. eapply within_weaken; [apply new_cid_spec|]. intros [cid e'] [Hf Hk]. cbn [fst snd] in *.
  pose proof (with_id_ok e cid ch routed pending leaked He Hf) as Hw. split; [by eapply kept_ok|]. split; [done|]. split; [|done].
  intros Hn. rewrite (kp_index _ _ Hk). unfold with_id. rewrite Hn. cbn. by rewrite lookup_insert_eq.
Qed.

Lemma fresh_not_owned e routed pending leaked cid ch meta :
  ep_ok e routed pending leaked → connection_ids (e_index e) !! cid = None → conns_of e !! ch = Some meta → nonempty cid → ¬ owns meta cid.
Proof. intros [[_ Hr _] _ _ _ _ _] Hf Hm Hn Hw. pose proof (Hr _ _ _ Hm Hw Hn). congruence. Qed.

Lemma with_id_conns e cid ch : e_connections (with_id e cid ch) = e_connections e.
Proof. unfold with_id. by destruct (cid_is_empty cid). Qed.

Lemma slab_index_post {A} (s : SL A) k : post (slab_index s k) (fun a => slab_map s !! k = Some a).
Proof. unfold slab_index. destruct (slab_map s !! k) as [a|] eqn:E; [by apply post_ret|done]. Qed.

(** A change of one connection that keeps its addresses, its side and its initial id. *)
Lemma ep_ok_meta e routed pending leaked X ch meta meta' (ids : gmap ConnectionId ConnectionHandle) :
  ep_ok e routed pending leaked → conns_of e !! ch = Some meta → like meta meta' → cm_reset_token meta' = cm_reset_token meta →
  ids_ok ids (<[ch := meta']> (conns_of e)) X →
  ep_ok (set_e_index (set_e_connections e (slab_set (e_connections e) ch meta')) (set_ids (e_index e) ids)) routed pending X.
Proof.
  intros [I1 I2 I3 I4 I5 I6] Hm Hl Ht Hids. split; cbn; unfold conns_of; cbn; rewrite ?slab_map_set by (by eexists); [done| |done| | |done].
  - by eapply initial_like.
  - by eapply tokens_like.
  - by eapply remotes_like.
Qed.

Lemma ep_ok_conn e routed pending leaked X ch meta meta' :
  ep_ok e routed pending leaked → conns_of e !! ch = Some meta → like meta meta' → cm_reset_token meta' = cm_reset_token meta →
  ids_ok (connection_ids (e_index e)) (<[ch := meta']> (conns_of e)) X →
  ep_ok (set_e_connections e (slab_set (e_connections e) ch meta')) routed pending X.
Proof. intros He Hm Hl Ht Hids. pose proof (ep_ok_meta _ _ _ _ _ _ _ _ _ He Hm Hl Ht Hids) as [I1 I2 I3 I4 I5 I6]. by split. Qed.

Lemma issue_cid_ok e ch routed pending leaked :
  ep_ok e routed pending leaked → within (issue_cid cid_turns e ch) (fun r => ep_ok r.2 routed pending leaked).
Proof.
  intros He. unfold issue_cid. eapply within_bind; [by apply (new_cid_ok e ch)|]. intros [cid e1] (H1 & Hf & Hr & Hk). cbn [fst snd] in *.
  eapply within_step; [apply slab_index_post|]. intros meta Hm. cbv zeta.
  eapply within_step; [apply post_iff, uadd_inv|]. intros n [-> _]. eapply within_step; [apply post_true|]. intros token _. apply within_done.
  cbn [snd]. eapply ep_ok_conn; [exact H1|exact Hm|done|done|]. apply ids_issue; [apply H1|exact Hm|exact Hr|].
  intros Hn. eapply fresh_not_owned; [exact He|by apply Hf| |done]. unfold conns_of. rewrite <- (with_id_conns e cid ch), <- (kp_conns _ _ Hk). exact Hm.
Qed.

Lemma issue_cids_ok num e ch ids routed pending leaked :
  ep_ok e routed pending leaked → within (issue_cids cid_turns num e ch ids) (fun r => ep_ok r.2 routed pending leaked).
Proof.
  revert e ids. induction num as [|num IH]; intros e ids He; cbn [issue_cids]; [by apply within_done|].
  eapply within_bind; [by apply issue_cid_ok|]. intros [id e1] H1. by apply IH.
Qed.

Lemma send_new_identifiers_ok e now ch num routed pending leaked :
  ep_ok e routed pending leaked → within (send_new_identifiers cid_turns e now ch num) (fun r => ep_ok r.2 routed pending leaked).
Proof.
  intros He. unfold send_new_identifiers. eapply within_bind; [by apply issue_cids_ok|]. intros [ids e1] H1. by apply within_done.
Qed.

(** * Events of connections *)

Lemma on_reset_token_ok e ch remote token routed pending leaked :
  ep_ok e routed pending leaked → post (on_reset_token e ch remote token) (fun e' => ep_ok e' routed pending leaked).
Proof.
  intros He. unfold on_reset_token. eapply post_bind; [apply slab_index_post|]. intros meta Hm. change (conns_of e !! ch = Some meta) in Hm. cbv zeta.
  set (meta' := set_cm_reset_token meta (Some (remote, token))). set (tokens := match cm_reset_token meta with Some (r, t) => _ | None => _ end).
  destruct (tokens_insert tokens remote token ch) as [dup tokens'] eqn:Et. apply post_ret. destruct He as [I1 I2 I3 I4 I5 I6].
  assert (Hset : slab_map (slab_set (e_connections e) ch meta') = <[ch := meta']> (conns_of e)) by (apply slab_map_set; by eexists).
  split; cbn; try change (conns_of _) with (slab_map (slab_set (e_connections e) ch meta')); rewrite ?Hset; [| |done| | |done].
  - destruct I1 as [Hmo Hr Ho]. assert (Hown : ∀ c, owns meta' c ↔ owns meta c) by done. split.
    + intros ch' m Hc. apply lookup_insert_Some in Hc as [[<- <-]|[_ Hc]]; [destruct (Hmo _ _ Hm); by split|eauto].
    + intros ch' m c Hc Hw Hn. apply lookup_insert_Some in Hc as [[<- <-]|[_ Hc]]; [apply Hown in Hw|]; eauto.
    + intros c ch' Hc. destruct (Ho _ _ Hc) as [Hn [(m & Hm' & Hw)|Hx]]; split; auto. left. destruct (decide (ch' = ch)) as [->|Hne].
      * exists meta'. rewrite lookup_insert_eq. split; [done|]. apply Hown. congruence.
      * exists m. by rewrite lookup_insert_ne.
  - by eapply initial_like.
  - replace tokens' with (snd (tokens_insert tokens remote token ch)) by (by rewrite Et). apply tokens_inserted; [|done].
    subst tokens. destruct (cm_reset_token meta) as [[r t]|] eqn:Er.
    + eapply tokens_removed; [done|]. intros ch' m r' t' Hm' Hrt Hne. exists m. rewrite lookup_delete_ne; [done|]. intros <-.
      congruence.
    + destruct I4 as [Hl Hn]. split; [|done]. intros r m t ch' Hr Ht. destruct (Hl _ _ _ _ Hr Ht) as (m' & Hm' & Hrt). exists m'.
      rewrite lookup_delete_ne; [done|]. intros <-. congruence.
  - by eapply remotes_like.
Qed.

Lemma on_retire_ok e ch now seq more routed pending leaked :
  ep_ok e routed pending leaked → within (on_retire_connection_id cid_turns e ch now seq more) (fun r => ep_ok r.2 routed pending leaked).
Proof.
  intros He. unfold on_retire_connection_id. eapply within_step; [apply slab_index_post|]. intros meta Hm.
  destruct (cm_loc_cids meta !! seq) as [cid|] eqn:Es; [|by apply within_done]. cbv zeta.
  set (e1 := set_e_index _ _). assert (H1 : ep_ok e1 routed pending leaked).
  { refine (ep_ok_meta e routed pending leaked leaked ch meta (set_cm_loc_cids meta (delete seq (cm_loc_cids meta)))
      (delete cid (connection_ids (e_index e))) He Hm _ _ _); [done|done|]. eapply ids_retire; [apply He|exact Hm|done]. }
  clearbody e1. destruct more; [|by apply within_done].
  eapply within_bind; [by apply send_new_identifiers_ok|]. intros [ev e2] H2. by apply within_done.
Qed.

Lemma remove_initial_total (x : ConnectionIndex) (cid : ConnectionId) :
  (nonempty cid → is_Some (connection_ids_initial x !! cid)) →
  remove_initial x cid = Ret (set_ids_initial x (if cid_is_empty cid then connection_ids_initial x else delete cid (connection_ids_initial x))).
Proof.
  intros Hs. unfold remove_initial. destruct (cid_is_empty cid) eqn:En; [by destruct x|]. by rewrite bool_decide_true by auto.
Qed.

(** What the index is after a connection is gone. *)
Lemma index_remove_total e routed pending leaked ch meta :
  ep_ok e routed pending leaked → conns_of e !! ch = Some meta →
  ∃ x, index_remove (e_index e) meta = Ret x ∧
    connection_ids x = fold_left (fun m cid => delete cid m) (own_list meta) (connection_ids (e_index e)) ∧
    connection_ids_initial x = (if is_server (cm_side meta) && negb (cid_is_empty (cm_init_cid meta))
      then delete (cm_init_cid meta) (connection_ids_initial (e_index e)) else connection_ids_initial (e_index e)) ∧
    incoming_connection_remotes x = delete (cm_addresses meta) (incoming_connection_remotes (e_index e)) ∧
    outgoing_connection_remotes x = delete (ft_remote (cm_addresses meta)) (outgoing_connection_remotes (e_index e)) ∧
    connection_reset_tokens x = match cm_reset_token meta with
      | Some (r, t) => tokens_remove (connection_reset_tokens (e_index e)) r t | None => connection_reset_tokens (e_index e) end.
Proof.
  intros He Hm. unfold index_remove. destruct (is_server (cm_side meta)) eqn:Es.
  - rewrite remove_initial_total.
    2: { intros Hn. exists (ToConnection ch). apply (no_server _ _ _ (eo_initial _ _ _ _ He)); [done|by destruct (cm_side meta)|done]. }
    cbn [mbind M_bind andb]. eexists. split; [reflexivity|]. destruct (cm_reset_token meta) as [[r t]|], (cid_is_empty (cm_init_cid meta)); done.
  - cbn [mbind M_bind mret M_ret andb]. eexists. split; [reflexivity|]. by destruct (cm_reset_token meta) as [[r t]|].
Qed.

Lemma on_drained_ok e ch routed pending leaked :
  ep_ok e routed pending leaked → ∃ e', on_drained e ch = Ret e' ∧ ep_ok e' routed pending leaked ∧ conns_of e' = delete ch (conns_of e) ∧
    e_config e' = e_config e ∧ e_server_config e' = e_server_config e.
Proof.
  intros He. unfold on_drained. destruct (slab_try_remove (e_connections e) ch) as [conn conns] eqn:Er.
  assert (Hv : conn = conns_of e !! ch) by (unfold conns_of; rewrite <- slab_remove_value, Er; done).
  assert (Hc : slab_map conns = delete ch (conns_of e)) by (unfold conns_of; rewrite <- slab_map_remove, Er; done).
  destruct conn as [meta|].
  - destruct (index_remove_total e routed pending leaked ch meta He (eq_sym Hv)) as (x & Hx & X1 & X2 & X3 & X4 & X5).
    cbn [e_index set_e_connections]. rewrite Hx. cbn [mbind M_bind]. eexists. split; [reflexivity|]. destruct He as [I1 I2 I3 I4 I5 I6]. split; [|done].
    split; cbn; try change (conns_of _) with (slab_map conns); rewrite ?Hc, ?X1, ?X2, ?X3, ?X4, ?X5; [by apply ids_remove|by apply initial_gone|done| |by apply remotes_gone|done].
    destruct (cm_reset_token meta) as [[r t]|] eqn:Et.
    + eapply tokens_removed; [done|]. intros ch' m r' t' Hm' Hrt Hne. exists m. rewrite lookup_delete_ne; [done|]. intros <-. congruence.
    + destruct I4 as [Hl Hn]. split; [|done]. intros r m t ch' Hr Ht. destruct (Hl _ _ _ _ Hr Ht) as (m' & Hm' & Hrt). exists m'.
      rewrite lookup_delete_ne; [done|]. intros <-. congruence.
  - eexists. split; [reflexivity|]. assert (Hd : slab_map conns = conns_of e) by (rewrite Hc; by apply delete_id).
    destruct He as [I1 I2 I3 I4 I5 I6]. split; [|done]. split; cbn; try change (conns_of _) with (slab_map conns); rewrite ?Hd; done.
Qed.

Lemma endpoint_handle_event_ok e ch event routed pending leaked :
  ep_ok e routed pending leaked → within (endpoint_handle_event cid_turns e ch event) (fun r => ep_ok r.2 routed pending leaked).
Proof.
  intros He. destruct event as [|remote token|now n|now seq more]; cbn [endpoint_handle_event].
  - destruct (on_drained_ok e ch routed pending leaked He) as (e' & -> & H' & _). by apply within_done.
  - eapply within_step; [by apply on_reset_token_ok|]. intros e' H'. by apply within_done.
  - eapply within_bind; [by apply send_new_identifiers_ok|]. intros [ev e'] H'. by apply within_done.
  - by apply on_retire_ok.
Qed.

(** * New connections *)

Definition first_cids (loc_cid : ConnectionId) (pref : option ConnectionId) : Z * gmap Z ConnectionId :=
  match pref with
  | Some cid => (2, <[1 := cid]> (<[0 := loc_cid]> ∅))
  | None => (1, <[0 := loc_cid]> ∅)
  end.
Definition new_meta (init_cid loc_cid : ConnectionId) (pref : option ConnectionId) (addresses : FourTuple) (side : Side) : ConnectionMeta :=
  mkConnectionMeta init_cid (first_cids loc_cid pref).1 (first_cids loc_cid pref).2 addresses side None.

Lemma new_meta_owns init loc pref addresses side cid : owns (new_meta init loc pref addresses side) cid ↔ cid = loc ∨ pref = Some cid.
Proof.
  unfold owns, new_meta, first_cids. cbn [cm_loc_cids]. split.
  - intros [s Hs]. destruct pref as [p|]; cbn [snd] in Hs; repeat (apply lookup_insert_Some in Hs as [[_ <-]|[_ Hs]]; [auto|]); done.
  - intros [->|Hp]; [exists 0|exists 1; subst pref; cbn [snd]; by rewrite lookup_insert_eq]. destruct pref; cbn [snd].
    + by rewrite lookup_insert_ne, lookup_insert_eq.
    + by rewrite lookup_insert_eq.
Qed.

Lemma new_meta_ok init loc pref addresses side :
  (∀ p, pref = Some p → nonempty p → p ≠ loc) → meta_ok (new_meta init loc pref addresses side).
Proof.
  intros Hp. unfold new_meta, first_cids. destruct pref as [p|]; cbn [fst snd]; split; cbn [cm_loc_cids cm_cids_issued]; try lia.
  - intros s c Hs. repeat (apply lookup_insert_Some in Hs as [[<- _]|[_ Hs]]; [lia|]). done.
  - intros s1 s2 c Hn Hs1 Hs2. specialize (Hp p eq_refl).
    apply lookup_insert_Some in Hs1 as [[<- <-]|[_ [[<- <-]|[_ Hs1]]%lookup_insert_Some]];
      apply lookup_insert_Some in Hs2 as [[<- E]|[_ [[<- E]|[_ Hs2]]%lookup_insert_Some]]; try done; by destruct (Hp ltac:(by subst)).
  - intros s c Hs. repeat (apply lookup_insert_Some in Hs as [[<- _]|[_ Hs]]; [lia|]). done.
  - intros s1 s2 c Hn Hs1 Hs2. apply lookup_insert_Some in Hs1 as [[<- <-]|[_ Hs1]], Hs2 as [[<- E]|[_ Hs2]]; done.
Qed.

(** A new connection in the slab and the index, whatever the connection itself is. *)
Definition added e e' (ch : ConnectionHandle) (meta : ConnectionMeta) (loc : ConnectionId) : Prop :=
  conns_of e' = <[ch := meta]> (conns_of e) ∧ e_index e' = insert_conn (e_index e) (cm_addresses meta) loc ch (cm_side meta) ∧
  e_incoming_buffers e' = e_incoming_buffers e ∧ e_all_incoming_buffers_total_bytes e' = e_all_incoming_buffers_total_bytes e ∧
  e_config e' = e_config e ∧ e_server_config e' = e_server_config e.

Lemma add_connection_spec e ch version init loc rem addresses now tls config args :
  ch = slab_vacant_key (e_connections e) →
  post (add_connection (H := H) (TS := TS) max_instant crypto_turns e ch version init loc rem addresses now tls config args)
    (fun r => added e r.2 ch (new_meta init loc (pref_addr_cid args) addresses (args_side args)) loc).
Proof.
  intros ->. unfold add_connection. destruct (fill_bytes (e_rng e) 32) as [seed rng]. cbv zeta.
  eapply post_bind; [apply post_true|]. intros conn _.
  assert (Hm : ∀ n l, match pref_addr_cid args with Some cid => (2, <[1 := cid]> (<[0 := loc]> (∅ : gmap Z ConnectionId))) | None => (1, <[0 := loc]> ∅) end = (n, l) →
    mkConnectionMeta init n l addresses (args_side args) None = new_meta init loc (pref_addr_cid args) addresses (args_side args)).
  { intros n l E. unfold new_meta, first_cids. by rewrite E. }
  destruct (match pref_addr_cid args with Some cid => _ | None => _ end) as [n l]. specialize (Hm n l eq_refl). rewrite Hm.
  cbn [e_connections set_e_rng].
  pose proof (slab_map_insert _ (e_connections e) (new_meta init loc (pref_addr_cid args) addresses (args_side args))) as Hi.
  destruct (slab_insert (e_connections e) _) as [id conns]. cbn [snd] in Hi. eapply post_bind; [apply post_true|]. intros _ _. apply post_ret.
  unfold added. cbn. unfold conns_of. cbn. by rewrite Hi.
Qed.

Lemma tokens_new tokens conns ch meta : tokens_ok tokens conns → conns !! ch = None → tokens_ok tokens (<[ch := meta]> conns).
Proof.
  intros [Hl Hn] Hf. split; [|done]. intros r m t ch' Hr Ht. destruct (Hl _ _ _ _ Hr Ht) as (m' & Hm' & Hrt). exists m'.
  rewrite lookup_insert_ne; [done|]. congruence.
Qed.

(** The tables but the one of initial ids after a connection was added. *)
Lemma added_ok e e' ch init loc pref addresses side routed pending leaked X :
  ep_ok e routed pending X → conns_of e !! ch = None → added e e' ch (new_meta init loc pref addresses side) loc →
  (∀ p, pref = Some p → nonempty p → p ≠ loc) →
  (∀ cid, cid = loc ∨ pref = Some cid → nonempty cid → connection_ids (e_index e) !! cid = Some ch) →
  (∀ cid, cid ∈ X → nonempty cid → cid ∈ leaked ∨ cid = loc ∨ pref = Some cid) →
  connection_ids_initial (e_index e') = connection_ids_initial (e_index e) ∧
  ids_ok (connection_ids (e_index e')) (conns_of e') leaked ∧
  buffers_ok caps (slab_map (e_incoming_buffers e')) (e_all_incoming_buffers_total_bytes e') pending ∧
  tokens_ok (connection_reset_tokens (e_index e')) (conns_of e') ∧
  remotes_ok (incoming_connection_remotes (e_index e')) (outgoing_connection_remotes (e_index e')) (conns_of e').
Proof.
  intros [I1 I2 I3 I4 I5 I6] Hf (A1 & A2 & A3 & A4 & _) Hp Hr HX. rewrite A1, A2, A3, A4. set (meta := new_meta _ _ _ _ _) in *.
  assert (Hids : connection_ids (insert_conn (e_index e) addresses loc ch side) = connection_ids (e_index e)).
  { unfold insert_conn. destruct (len (cid_bytes loc) =? 0) eqn:El; [by destruct side|]. cbn. apply insert_id, Hr; [by left|exact El]. }
  cbn [cm_addresses cm_side meta new_meta] in *. rewrite Hids. split; [|split; [|split; [done|split]]].
  - unfold insert_conn. destruct (len (cid_bytes loc) =? 0); [by destruct side|done].
  - eapply ids_add; [exact I1|done|by apply new_meta_ok|intros c Hc; apply Hr; by apply new_meta_owns in Hc|].
    intros c Hc Hn. destruct (HX c Hc Hn) as [?|?]; [by left|right; by apply new_meta_owns].
  - assert (Ht : connection_reset_tokens (insert_conn (e_index e) addresses loc ch side) = connection_reset_tokens (e_index e)).
    { unfold insert_conn. destruct (len (cid_bytes loc) =? 0); [by destruct side|done]. }
    rewrite Ht. by apply tokens_new.
  - pose proof (remotes_new _ _ _ ch meta I5 Hf) as [Hi Ho]. unfold insert_conn. destruct (len (cid_bytes loc) =? 0); [|by split].
    destruct side; split; cbn; try done; intros a ch' Ha; apply lookup_insert_Some in Ha as [[<- <-]|[_ Ha]]; auto;
      exists meta; by rewrite lookup_insert_eq.
Qed.

(** The ids that are in the index of [e'] and not in that of [e]. *)
Definition new_ids e e' : gset ConnectionId := dom (connection_ids (e_index e')) ∖ dom (connection_ids (e_index e)).

Lemma ep_ok_exceptions e routed pending X Y :
  ep_ok e routed pending X → (∀ cid, cid ∈ X → cid ∈ dom (connection_ids (e_index e)) → cid ∈ Y) → ep_ok e routed pending Y.
Proof.
  intros [[Hm Hr Ho] I2 I3 I4 I5] HX. split; try done. split; [done|done|]. intros cid ch Hc.
  destruct (Ho _ _ Hc) as [Hn [?|Hx]]; split; auto. right. apply HX; [done|]. by eapply elem_of_dom_2.
Qed.

Lemma kept_conns e e' : kept e e' → conns_of e' = conns_of e.
Proof. intros Hk. unfold conns_of. by rewrite (kp_conns _ _ Hk). Qed.

Lemma new_cid_conns e e1 cid ch : kept (with_id e cid ch) e1 → e_connections e1 = e_connections e.
Proof. intros Hk. by rewrite (kp_conns _ _ Hk), with_id_conns. Qed.

Lemma connect_ok e now (config : ClientConfig C CC TS) remote name routed pending leaked :
  ep_ok e routed pending leaked →
  within (connect (H := H) max_instant crypto_turns cid_turns e now config remote name) (fun r =>
    match r.1 with
    | Ok (ch, _) => ep_ok r.2 routed pending leaked ∧ conns_of e !! ch = None ∧ is_Some (conns_of r.2 !! ch)
    | Err _ => ep_ok r.2 routed pending (new_ids e r.2 ∪ leaked)
    end).
Proof.
  intros He. assert (Hsame : ep_ok e routed pending (new_ids e e ∪ leaked)) by (eapply ep_ok_exceptions; [done|]; set_solver).
  unfold connect. destruct (cids_exhausted e); [by apply within_done|]. destruct (_ || _); [by apply within_done|].
  destruct (negb _); [by apply within_done|]. cbv zeta. set (ch := slab_vacant_key (e_connections e)).
  eapply within_bind; [exact (new_cid_ok e ch routed pending leaked He)|]. intros [loc e1] (H1 & Hf & Hr & Hk). cbn [fst snd] in *.
  eapply within_step; [apply (endpoint_params_kept e1)|]. intros [params e2] Hk2. cbn [snd] in Hk2.
  pose proof (kept_ok _ _ _ _ _ Hk2 H1) as H2. pose proof (new_cid_conns _ _ _ _ Hk) as Hc1. pose proof (kp_conns _ _ Hk2) as Hc2.
  pose proof (slab_vacant _ (e_connections e)) as Hv. fold ch in Hv.
  destruct (client_start_session _ _ _ _) as [tls|err].
  - eapply within_step; [apply add_connection_spec; subst ch; congruence|]. intros [conn e3] Ha. apply within_done. cbn [fst snd] in *.
    assert (Hv2 : conns_of e2 !! ch = None) by (unfold conns_of; rewrite Hc2, Hc1; exact Hv).
    assert (Hids : connection_ids (e_index e2) = connection_ids (e_index e1)) by (by rewrite (kp_index _ _ Hk2)).
    destruct (added_ok _ _ _ _ _ _ _ _ _ _ leaked _ H2 Hv2 Ha) as (B1 & B2 & B3 & B4 & B5).
    { done. }
    { intros cid [->|?] Hn; [|done]. rewrite Hids. auto. }
    { intros cid Hcid _. apply elem_of_union in Hcid as [Hcid|Hcid]; [|by left]. apply elem_of_singleton in Hcid. auto. }
    destruct Ha as (A1 & _ & _ & _ & _ & A6). split; [|split; [exact Hv|rewrite A1, lookup_insert_eq; by eexists]]. split; auto.
    + rewrite B1, A1. apply initial_client; [apply H2|done|done].
    + rewrite A6. apply H2.
  - apply within_done. cbn [fst snd]. eapply ep_ok_exceptions; [exact H2|]. intros cid Hcid Hd. apply elem_of_union in Hcid as [Hcid|?]; [|set_solver].
    apply elem_of_singleton in Hcid as ->. apply elem_of_union_l. unfold new_ids. apply elem_of_difference. split; [done|].
    apply not_elem_of_dom, Hf. apply elem_of_dom in Hd as [ch' Hd]. by apply (io_owned _ _ _ (eo_ids _ _ _ _ H2)) in Hd as [? _].
Qed.

(** * Decisions on attempts *)

Lemma take_buffer_total e l1 i l2 leaked :
  ep_ok e (l1 ++ i :: l2) (l1 ++ i :: l2) leaked →
  ∃ b buffers total, take_buffer e (in_incoming_idx i) = Ret (b, set_e_incoming e buffers total) ∧
    slab_map buffers = delete (in_incoming_idx i) (slab_map (e_incoming_buffers e)) ∧ buffers_ok caps (slab_map buffers) total (l1 ++ l2).
Proof.
  intros [I1 I2 I3 I4 I5 I6]. assert (Hin : is_Some (slab_map (e_incoming_buffers e) !! in_incoming_idx i)).
  { apply (bo_keys _ _ _ _ I3). rewrite fmap_app, fmap_cons. set_solver. }
  destruct Hin as [b Hb]. destruct (buffers_take _ _ _ _ _ _ _ I3 Hb) as [Hle Hok]. unfold take_buffer, slab_remove.
  pose proof (slab_remove_value _ (e_incoming_buffers e) (in_incoming_idx i)) as Hv. pose proof (slab_map_remove _ (e_incoming_buffers e) (in_incoming_idx i)) as Hm.
  destruct (slab_try_remove _ _) as [o buffers]. cbn [fst snd] in Hv, Hm. rewrite Hv, Hb. cbn [Prelude.unwrap mbind M_bind mret M_ret].
  rewrite usub_ok by done. cbn [mbind M_bind mret M_ret]. eexists b, buffers, _. rewrite Hm. done.
Qed.

Lemma initial_present e l1 i l2 leaked :
  ep_ok e (l1 ++ i :: l2) (l1 ++ i :: l2) leaked → nonempty (dst_of i) → is_Some (connection_ids_initial (e_index e) !! dst_of i).
Proof. intros He Hn. eexists. apply (no_pending _ _ _ (eo_initial _ _ _ _ He)); [set_solver|done]. Qed.

(** Forgetting an attempt whose buffer was taken. *)
Lemma forget_ok e e1 l1 i l2 leaked :
  ep_ok e (l1 ++ i :: l2) (l1 ++ i :: l2) leaked → e_index e1 = e_index e → e_connections e1 = e_connections e →
  e_server_config e1 = e_server_config e →
  buffers_ok caps (slab_map (e_incoming_buffers e1)) (e_all_incoming_buffers_total_bytes e1) (l1 ++ l2) →
  ∃ e2, ep_remove_initial e1 (dst_of i) = Ret e2 ∧ ep_ok e2 (l1 ++ l2) (l1 ++ l2) leaked ∧ e_connections e2 = e_connections e1 ∧
    connection_ids (e_index e2) = connection_ids (e_index e1) ∧ e_config e2 = e_config e1 ∧ e_server_config e2 = e_server_config e1.
Proof.
  intros He Ei Ec Es Hb. unfold ep_remove_initial. rewrite Ei, remove_initial_total by (intros Hn; by eapply initial_present).
  cbn [mbind M_bind]. eexists. split; [reflexivity|]. split; [|done]. destruct He as [I1 I2 I3 I4 I5 I6].
  split; cbn; unfold conns_of in *; cbn; rewrite ?Ec; [done| |done|done|done|].
  - apply initial_forget; [done|apply I3].
  - by rewrite Es.
Qed.

Lemma clean_up_incoming_total e l1 i l2 leaked :
  ep_ok e (l1 ++ i :: l2) (l1 ++ i :: l2) leaked →
  ∃ e', clean_up_incoming e i = Ret e' ∧ ep_ok e' (l1 ++ l2) (l1 ++ l2) leaked ∧ e_connections e' = e_connections e ∧
    slab_map (e_incoming_buffers e') = delete (in_incoming_idx i) (slab_map (e_incoming_buffers e)) ∧
    connection_ids (e_index e') = connection_ids (e_index e) ∧ e_config e' = e_config e ∧ e_server_config e' = e_server_config e.
Proof.
  intros He. destruct (take_buffer_total _ _ _ _ _ He) as (b & buffers & total & Ht & Hb & Hok).
  destruct (forget_ok e (set_e_incoming e buffers total) l1 i l2 leaked He eq_refl eq_refl eq_refl Hok) as (e2 & Hr & H2 & Hc & Hi & Hcfg & Hs).
  unfold clean_up_incoming. change (ih_dst_cid (in_header i)) with (dst_of i).
  assert (E : ∃ e0, ep_remove_initial e (dst_of i) = Ret e0 ∧ e2 = set_e_incoming e0 buffers total ∧
    e_incoming_buffers e0 = e_incoming_buffers e ∧ e_all_incoming_buffers_total_bytes e0 = e_all_incoming_buffers_total_bytes e).
  { revert Hr. unfold ep_remove_initial. cbn [e_index set_e_incoming]. destruct (remove_initial _ _) as [x|]; [|done].
    cbn [mbind M_bind mret M_ret]. intros [= <-]. by eexists. }
  destruct E as (e0 & -> & -> & Eb & Et). cbn [mbind M_bind]. revert Ht. unfold take_buffer. rewrite Eb, Et.
  destruct (slab_remove _ _) as [[b' bs]|]; [|done]. cbn [mbind M_bind]. destruct (usub _ _) as [t|]; [|done]. cbn [mbind M_bind mret M_ret].
  intros [= -> <- <-]. eexists. split; [reflexivity|]. auto 10.
Qed.

Lemma refuse_ok e l1 i l2 leaked buf :
  ep_ok e (l1 ++ i :: l2) (l1 ++ i :: l2) leaked → post (refuse e i buf) (fun r => ep_ok r.2 (l1 ++ l2) (l1 ++ l2) leaked ∧ conns_of r.2 = conns_of e).
Proof.
  intros He. unfold refuse. destruct (clean_up_incoming_total _ _ _ _ _ He) as (e1 & -> & H1 & Hc & _). cbn [mbind M_bind].
  eapply post_weaken; [apply initial_close_kept|]. intros r Hk. split; [eapply kept_ok; [exact Hk|done]|]. rewrite (kept_conns _ _ Hk). unfold conns_of. by rewrite Hc.
Qed.

Lemma retry_kept e system_now l1 i l2 leaked buf :
  ep_ok e (l1 ++ i :: l2) (l1 ++ i :: l2) leaked →
  post (retry e system_now i buf) (fun r => match r.1.1 with Ok _ => ep_ok r.2 (l1 ++ l2) (l1 ++ l2) leaked | Err _ => r.2 = e end).
Proof.
  intros He. unfold retry. destruct (negb (may_retry i)); [by apply post_ret|].
  destruct (clean_up_incoming_total _ _ _ _ _ He) as (e1 & -> & H1 & _). cbn [mbind M_bind].
  eapply post_bind; [apply post_true|]. intros settings _. eapply post_bind; [apply post_true|]. intros [cid g] _. cbv zeta.
  eapply post_bind; [apply post_true|]. intros token _. eapply post_bind; [apply post_true|]. intros [pe b] _.
  eapply post_bind; [apply post_true|]. intros b2 _. apply post_ret. cbn [fst snd]. eapply kept_ok; [|exact H1]. done.
Qed.

Lemma with_id_lookup e e1 cid ch c x :
  kept (with_id e cid ch) e1 → (nonempty cid → connection_ids (e_index e) !! cid = None) →
  connection_ids (e_index e) !! c = Some x → connection_ids (e_index e1) !! c = Some x.
Proof.
  intros Hk Hf Hc. rewrite (kp_index _ _ Hk). unfold with_id. destruct (cid_is_empty cid) eqn:En; [done|]. cbn.
  rewrite lookup_insert_ne; [done|]. intros <-. rewrite Hf in Hc; done.
Qed.

Lemma accept_params_ok e ch settings loc token routed pending X :
  ep_ok e routed pending X →
  within (accept_params cid_turns e ch settings loc token) (fun r =>
    let '(_, pref, e') := r in
    ep_ok e' routed pending (list_to_set (option_list pref) ∪ X) ∧ e_connections e' = e_connections e ∧
    (∀ p, pref = Some p → nonempty p → connection_ids (e_index e) !! p = None ∧ connection_ids (e_index e') !! p = Some ch) ∧
    (∀ c x, connection_ids (e_index e) !! c = Some x → connection_ids (e_index e') !! c = Some x)).
Proof.
  intros He. unfold accept_params. cbv zeta. eapply within_step; [apply (endpoint_params_kept e)|]. intros [params e1] Hk1. cbn [snd] in Hk1.
  pose proof (kept_ok _ _ _ _ _ Hk1 He) as H1. eapply within_step; [apply post_true|]. intros t _.
  destruct (has_preferred_address (ss_config settings)).
  - eapply within_bind; [exact (new_cid_ok e1 ch routed pending X H1)|]. intros [p e2] (H2 & Hf & Hr & Hk2). cbn [fst snd] in *.
    eapply within_step; [apply post_true|]. intros t2 _. apply within_done. rewrite <- (kp_index _ _ Hk1). split; [|split; [|split]].
    + eapply ep_ok_exceptions; [exact H2|]. cbn. set_solver.
    + by rewrite (new_cid_conns _ _ _ _ Hk2), (kp_conns _ _ Hk1).
    + intros q [= <-] Hn. auto.
    + intros c x. by eapply with_id_lookup.
  - apply within_done. split; [|split; [|split]]; [|by apply Hk1|done|by rewrite (kp_index _ _ Hk1)].
    eapply ep_ok_exceptions; [exact H1|]. cbn. set_solver.
Qed.

Lemma insert_initial_same (x : ConnectionIndex) cid ch :
  connection_ids (insert_initial x cid ch) = connection_ids x ∧ connection_reset_tokens (insert_initial x cid ch) = connection_reset_tokens x ∧
  incoming_connection_remotes (insert_initial x cid ch) = incoming_connection_remotes x ∧
  outgoing_connection_remotes (insert_initial x cid ch) = outgoing_connection_remotes x ∧
  connection_ids_initial (insert_initial x cid ch) =
    if cid_is_empty cid then connection_ids_initial x else <[cid := ToConnection ch]> (connection_ids_initial x).
Proof. unfold insert_initial. by destruct (cid_is_empty cid). Qed.

(** The tables between the creation of an accepted connection and its first packet. *)
Lemma created_ok e e' ch l1 i l2 loc pref X leaked :
  ep_ok e (l1 ++ i :: l2) (l1 ++ l2) X → NoDup (in_incoming_idx <$> l1 ++ i :: l2) → conns_of e !! ch = None →
  added e e' ch (new_meta (dst_of i) loc pref (in_addresses i) Server) loc →
  (∀ p, pref = Some p → nonempty p → p ≠ loc) →
  (∀ cid, cid = loc ∨ pref = Some cid → nonempty cid → connection_ids (e_index e) !! cid = Some ch) →
  (∀ cid, cid ∈ X → nonempty cid → cid ∈ leaked ∨ cid = loc ∨ pref = Some cid) →
  ep_ok (set_e_index e' (insert_initial (e_index e') (dst_of i) ch)) (l1 ++ l2) (l1 ++ l2) leaked.
Proof.
  intros He Hd Hf Ha Hp Hr HX. destruct (added_ok _ _ _ _ _ _ _ _ _ _ leaked _ He Hf Ha Hp Hr HX) as (B1 & B2 & B3 & B4 & B5).
  destruct (insert_initial_same (e_index e') (dst_of i) ch) as (S1 & S2 & S3 & S4 & S5). destruct Ha as (A1 & _ & _ & _ & _ & A6).
  split; cbn; rewrite ?S1, ?S2, ?S3, ?S4, ?S5; try done; [|rewrite A6; apply He].
  rewrite B1. change (conns_of (set_e_index _ _)) with (conns_of e'). rewrite A1. apply initial_accept; [apply He|done|done|done|done].
Qed.

Lemma start_connection_ok e l1 i l2 leaked b settings pn payload buf :
  ep_ok e (l1 ++ i :: l2) (l1 ++ l2) leaked → NoDup (in_incoming_idx <$> l1 ++ i :: l2) →
  within (start_connection (H := H) (TS := TS) max_instant crypto_turns cid_turns e i b settings pn payload buf) (fun r =>
    ep_ok r.2 (l1 ++ l2) (l1 ++ l2) leaked ∧
    match r.1.1 with Ok (ch, _) => conns_of e !! ch = None ∧ is_Some (conns_of r.2 !! ch) | Err _ => True end).
Proof.
  intros He Hd. unfold start_connection. cbv zeta. set (ch := slab_vacant_key (e_connections e)).
  pose proof (slab_vacant _ (e_connections e)) as Hv. fold ch in Hv.
  eapply within_bind; [exact (new_cid_ok e ch _ _ _ He)|]. intros [loc e1] (H1 & Hf & Hr & Hk). cbn [fst snd] in *.
  pose proof (new_cid_conns _ _ _ _ Hk) as Hc1.
  eapply within_bind; [exact (accept_params_ok e1 ch settings loc (in_token i) _ _ _ H1)|]. intros [[params pref] e2] (H2 & Hc2 & Hpref & Hkeep).
  eapply within_step; [apply add_connection_spec; subst ch; congruence|]. intros [conn e3] Ha. cbn [snd pref_addr_cid args_side] in Ha.
  assert (Hv2 : conns_of e2 !! ch = None) by (unfold conns_of; rewrite Hc2, Hc1; exact Hv).
  assert (H3 : ep_ok (set_e_index e3 (insert_initial (e_index e3) (dst_of i) ch)) (l1 ++ l2) (l1 ++ l2) leaked).
  { eapply created_ok; [exact H2|exact Hd|exact Hv2|exact Ha| | |].
    - intros p Hp Hn ->. destruct (Hpref _ Hp Hn) as [Hnone _]. rewrite (Hr Hn) in Hnone. done.
    - intros cid [->|Hp] Hn; [by apply Hkeep, Hr|by apply Hpref].
    - intros cid Hcid _. apply elem_of_union in Hcid as [Hcid|[Hcid|Hcid]%elem_of_union].
      + right. right. destruct pref as [p|]; cbn in Hcid; [|set_solver]. f_equal. set_solver.
      + right. left. by apply elem_of_singleton in Hcid.
      + by left. }
  change (ih_dst_cid (in_header i)) with (dst_of i). set (e4 := set_e_index e3 _) in *.
  assert (Hlive : is_Some (conns_of e4 !! ch)).
  { change (conns_of e4) with (conns_of e3). destruct Ha as (-> & _). rewrite lookup_insert_eq. by eexists. }
  clearbody e4. eapply within_step; [apply post_true|]. intros [r conn'] _. destruct r as [[]|err].
  - eapply within_step; [apply post_true|]. intros conn2 _. apply within_done. cbn [fst snd]. auto.
  - eapply within_bind; [exact (endpoint_handle_event_ok e4 ch EvDrained _ _ _ H3)|]. intros [ev e5] H5. cbn [snd] in H5.
    destruct err; try (by apply within_done). eapply within_step; [apply (initial_close_kept e5)|]. intros [[t b'] e6] Hk6. apply within_done.
    cbn [fst snd] in *. split; [|done]. eapply kept_ok; [exact Hk6|done].
Qed.

Lemma accept_ok e l1 i l2 leaked now buf server_config :
  ep_ok e (l1 ++ i :: l2) (l1 ++ i :: l2) leaked →
  within (accept (H := H) (TS := TS) max_instant crypto_turns cid_turns e i now buf server_config) (fun r =>
    ep_ok r.2 (l1 ++ l2) (l1 ++ l2) leaked ∧
    match r.1.1 with Ok (ch, _) => conns_of e !! ch = None ∧ is_Some (conns_of r.2 !! ch) | Err _ => True end).
Proof.
  intros He. unfold accept. destruct (take_buffer_total _ _ _ _ _ He) as (b & buffers & total & -> & Hb & Hok). cbn [mbind M_bind]. cbv zeta.
  set (e1 := set_e_incoming e buffers total).
  destruct (forget_ok e e1 l1 i l2 leaked He eq_refl eq_refl eq_refl Hok) as (e2 & Hr & H2 & Hc & _). change (ih_dst_cid (in_header i)) with (dst_of i).
  assert (H1 : ep_ok e1 (l1 ++ i :: l2) (l1 ++ l2) leaked) by (destruct He; by split).
  pose proof (bo_nodup _ _ _ _ (eo_buffers _ _ _ _ He)) as Hd. assert (Hc1 : conns_of e1 = conns_of e) by done. clearbody e1.
  eapply within_step; [apply post_true|]. intros pn _. eapply within_step; [apply post_true|]. intros settings _.
  match goal with |- within (if ?x then _ else _) _ => destruct x end; [rewrite Hr; by apply within_done|].
  destruct (cids_exhausted e1).
  { rewrite Hr. cbn [mbind M_bind]. eapply within_step; [apply (initial_close_kept e2)|]. intros [[t b'] e3] Hk. apply within_done.
    cbn [fst snd] in *. split; [|done]. eapply kept_ok; [exact Hk|done]. }
  destruct (pk_decrypt _ _ _ _) as [payload|]; [|rewrite Hr; by apply within_done]. rewrite <- Hc1. by apply start_connection_ok.
Qed.

(** * Datagrams *)

Lemma partial_new_len bytes parser versions grease :
  post (PartialDecode_new bytes parser versions grease) (fun r =>
    match r with
    | Ok (pd, rest) => Partial_len pd + match rest with Some r => len r | None => 0 end = len bytes
    | Err _ => True
    end).
Proof.
  unfold PartialDecode_new. eapply post_bind; [apply post_true|]. intros [[h|err] rest] _; [|by apply post_ret]. cbv zeta.
  eapply post_bind; [apply post_true|]. intros n _. destruct (len bytes ?= n); apply post_ret; unfold Partial_len; cbn [pd_buf]; [lia|done|].
  unfold takeZ, dropZ, len. rewrite length_take, length_drop. lia.
Qed.

(** Removing the header protection of an Initial packet does not change its destination. *)
Lemma finish_initial pd k x :
  plain_header pd = PInitial x →
  post (PartialDecode_finish pd k) (fun r =>
    match r with Ok p => match pk_header p with HInitial h => ih_dst_cid h = pi_dst_cid x | _ => True end | Err _ => True end).
Proof.
  intros Hp. unfold PartialDecode_finish. rewrite Hp. destruct x as [dst src tp n v]. cbv zeta.
  eapply post_bind; [apply post_true|]. intros key _. eapply post_bind; [apply post_true|]. intros [[[number buf] pos]|err] _; [|by apply post_ret].
  eapply post_bind; [apply post_true|]. intros [hd pl] _. eapply post_bind with (P := fun h => match h with HInitial h => ih_dst_cid h = dst | _ => True end).
  - eapply post_bind; [apply post_true|]. intros token _. by apply post_ret.
  - intros h Hh. by apply post_ret.
Qed.

Lemma buffer_datagram_ok e pending leaked k n event cid :
  ep_ok e pending pending leaked → connection_ids_initial (e_index e) !! cid = Some (ToIncoming k) → n = event_len event → 0 <= n →
  post (buffer_datagram e k n event) (fun e' => ep_ok e' pending pending leaked ∧ conns_of e' = conns_of e).
Proof.
  intros He Hc -> Hn. unfold buffer_datagram. eapply post_bind; [apply slab_index_post|]. intros b Hb.
  eapply post_bind with (P := fun s => ss_config <$> e_server_config e = Some (ss_config s)).
  { unfold server_settings. by destruct (e_server_config e). }
  intros settings Hs. cbv zeta. destruct (fits (ib_total_bytes b) (event_len event) _ && _) eqn:Hfit; [|by apply post_ret].
  eapply post_bind; [apply post_iff, uadd_inv|]. intros t1 [-> _]. eapply post_bind; [apply post_iff, uadd_inv|]. intros t2 [-> _]. apply post_ret.
  unfold fits in Hfit. apply andb_true_iff in Hfit as [[_ F1]%andb_true_iff [_ F2]%andb_true_iff]. apply Z.leb_le in F1, F2.
  destruct He as [I1 I2 I3 I4 I5 I6]. destruct (I6 _ Hs) as (C1 & C2 & _). split; [|done]. split; try done. cbn.
  rewrite slab_map_set by (exists b; exact Hb). apply buffers_store; [done|exact Hb|done|lia|lia].
Qed.

Lemma new_incoming_ok e pending leaked event addresses crypto header packet token :
  ep_ok e pending pending leaked → connection_ids_initial (e_index e) !! ih_dst_cid header = None → len pending < cap_count caps →
  let r := new_incoming e event addresses crypto header packet token in
  ep_ok r.2 (r.1 :: pending) (r.1 :: pending) leaked ∧ conns_of r.2 = conns_of e.
Proof.
  intros [I1 I2 I3 I4 I5 I6] Hf Hn. unfold new_incoming.
  pose proof (slab_insert_key _ (e_incoming_buffers e) IncomingBuffer_default) as Hk.
  pose proof (slab_map_insert _ (e_incoming_buffers e) IncomingBuffer_default) as Hm.
  pose proof (slab_vacant _ (e_incoming_buffers e)) as Hv.
  destruct (slab_insert (e_incoming_buffers e) IncomingBuffer_default) as [idx buffers]. cbn [fst snd] in Hk, Hm. subst idx. cbv zeta. cbn [fst snd].
  set (i := mkIncoming _ _ _ _ _ _ _ _ _ _). split; [|done]. pose proof (initial_new _ _ _ i I2 Hf) as I2'.
  assert (Hx : connection_ids_initial (insert_initial_incoming (e_index e) (ih_dst_cid header) (slab_vacant_key (e_incoming_buffers e))) =
    (if cid_is_empty (dst_of i) then connection_ids_initial (e_index e)
     else <[dst_of i := ToIncoming (in_incoming_idx i)]> (connection_ids_initial (e_index e)))).
  { unfold insert_initial_incoming. change (dst_of i) with (ih_dst_cid header). by destruct (cid_is_empty _). }
  split; cbn; rewrite ?Hx; try done.
  - unfold insert_initial_incoming. by destruct (cid_is_empty _).
  - rewrite Hm. by apply (buffers_new caps _ _ _ i).
  - unfold insert_initial_incoming. by destruct (cid_is_empty _).
  - unfold insert_initial_incoming. by destruct (cid_is_empty _).
Qed.

(** What a datagram may lead to: the attempts after it. *)
Definition after_datagram (pending : list Incoming) (event : option DatagramEvent) : list Incoming :=
  match event with Some (NewConnection i) => i :: pending | _ => pending end.

Definition handled e pending leaked (r : option DatagramEvent * list Z * Endpoint) : Prop :=
  ep_ok r.2 (after_datagram pending r.1.1) (after_datagram pending r.1.1) leaked ∧ conns_of r.2 = conns_of e.

Lemma handled_kept e e' pending leaked ev buf :
  ep_ok e pending pending leaked → kept e e' → after_datagram pending ev = pending → handled e pending leaked (ev, buf, e').
Proof. intros He Hk Ha. unfold handled. cbn [fst snd]. rewrite Ha. split; [by eapply kept_ok|by apply kept_conns]. Qed.

Lemma handled_response e pending leaked (m : M (option Transmit * list Z * Endpoint)) :
  ep_ok e pending pending leaked → post m (fun r => kept e r.2) →
  post (mbind (M := M) (fun '(t, buf, e) => mret (M := M) (Response <$> (t : option Transmit), buf, e)) m) (handled e pending leaked).
Proof.
  intros He Hm. eapply post_bind; [exact Hm|]. intros [[t b] e'] Hk. apply post_ret. apply handled_kept; [done|exact Hk|by destruct t].
Qed.

Lemma handled_close e e0 pending leaked (m : M (Transmit * list Z * Endpoint)) :
  ep_ok e pending pending leaked → kept e e0 → post m (fun r => kept e0 r.2) →
  post (mbind (M := M) (fun '(t, buf, e) => mret (M := M) (Some (Response t), buf, e)) m) (handled e pending leaked).
Proof.
  intros He H0 Hm. eapply post_bind; [exact Hm|]. intros [[t b] e'] Hk. apply post_ret. apply handled_kept; [done|by etrans|done].
Qed.

Lemma early_validate_room e header :
  post (early_validate_first_packet e header) (fun r => match r with
    | Ok _ => ∃ s, e_server_config e = Some s ∧ slab_len (e_incoming_buffers e) < sc_max_incoming (ss_config s) | Err _ => True end).
Proof.
  unfold early_validate_first_packet. eapply post_bind with (P := fun s => e_server_config e = Some s).
  { unfold server_settings. by destruct (e_server_config e). }
  intros s Hs. destruct (cids_exhausted e); [by apply post_ret|]. cbn [orb].
  destruct (Z.leb_spec (sc_max_incoming (ss_config s)) (slab_len (e_incoming_buffers e))); [by apply post_ret|].
  match goal with |- post (if ?x then _ else _) _ => destruct x end; apply post_ret; [done|]. eauto.
Qed.

Lemma ep_handle_first_packet_ok e system_now n event addresses buf pending leaked :
  ep_ok e pending pending leaked → connection_ids_initial (e_index e) !! Partial_dst_cid (de_first_decode event) = None →
  post (ep_handle_first_packet e system_now n event addresses buf) (handled e pending leaked).
Proof.
  intros He Hf. unfold ep_handle_first_packet. cbv zeta.
  destruct (plain_header (de_first_decode event)) as [x| | | |] eqn:Hp; try done. cbn [as_initial unwrap mbind M_bind mret M_ret].
  assert (Hsame : ∀ b, post (mret (None, b, e)) (handled e pending leaked)) by (intros b; apply post_ret, handled_kept; done).
  destruct (e_server_config e) as [settings|] eqn:Es; [|apply handled_response; [done|apply stateless_reset_kept]].
  destruct (n <? MIN_INITIAL_SIZE); [apply Hsame|]. lazymatch goal with |- post (match ?k with _ => _ end) _ => destruct k as [crypto|] end; [|apply Hsame].
  eapply post_bind; [apply early_validate_room|]. intros [[]|reason] Hroom; [|apply (handled_close e e); [done|done|apply initial_close_kept]].
  eapply post_bind; [by apply (finish_initial _ _ x)|]. intros [packet|err] Hfin; [|apply Hsame].
  eapply post_bind; [apply post_true|]. intros valid _. destruct (negb valid); [apply Hsame|].
  destruct (pk_header packet) as [header| | | |]; try done. apply post_bind_ret.
  eapply post_bind; [apply post_true|]. intros [token log] _. cbv zeta. set (e1 := set_server_config e _).
  assert (Hk : kept e e1) by (subst e1; split; try done; cbn; by rewrite Es).
  destruct token as [token|]; [|apply (handled_close e e1); [done|done|apply initial_close_kept]].
  pose proof (kept_ok _ _ _ _ _ Hk He) as H1.
  pose proof (new_incoming_ok e1 pending leaked event addresses crypto header packet token H1) as Hnew.
  destruct (new_incoming e1 event addresses crypto header packet token) as [i e2]. apply post_ret. unfold handled. cbn [fst snd after_datagram] in *.
  rewrite <- (kept_conns _ _ Hk). apply Hnew.
  - rewrite (kp_index _ _ Hk), Hfin. unfold Partial_dst_cid in Hf. by rewrite Hp in Hf.
  - destruct Hroom as (s & Hs & Hlt). rewrite Es in Hs. injection Hs as <-. destruct He as [_ _ I3 _ _ I6].
    pose proof (buffers_size _ _ _ _ I3) as Hsize. destruct (I6 (ss_config settings)) as (_ & _ & Hc); [by rewrite Es|].
    unfold slab_len in Hlt. lia.
Qed.

Lemma route_ok e system_now n event addresses buf pending leaked :
  ep_ok e pending pending leaked → n = event_len event → 0 <= n →
  post (route e system_now n event addresses buf) (handled e pending leaked).
Proof.
  intros He Hn H0. unfold route. cbv zeta.
  assert (Hsame : ∀ b, post (mret (None, b, e)) (handled e pending leaked)) by (intros b; apply post_ret, handled_kept; done).
  pose proof (index_get_cases (e_index e) addresses (de_first_decode event)) as Hg. cbv zeta in Hg.
  destruct (index_get (e_index e) addresses (de_first_decode event)) as [[k|ch]|].
  - eapply post_bind; [by eapply buffer_datagram_ok|]. intros e' [H' Hc]. apply post_ret. by split.
  - apply post_ret, handled_kept; done.
  - destruct (as_initial (plain_header (de_first_decode event))) as [x|] eqn:Hi.
    + apply ep_handle_first_packet_ok; [done|]. apply Hg. unfold Partial_is_initial, Partial_space.
      by destruct (plain_header (de_first_decode event)).
    + destruct (has_long_header _); [apply Hsame|]. eapply post_bind; [apply post_true|]. intros invalid _.
      destruct invalid; [apply Hsame|]. destruct (cid_is_empty _); [apply Hsame|].
      apply handled_response; [done|apply stateless_reset_kept].
Qed.

Lemma ep_handle_ok e now system_now remote local_ip ecn data buf pending leaked :
  ep_ok e pending pending leaked → post (ep_handle e now system_now remote local_ip ecn data buf) (handled e pending leaked).
Proof.
  intros He. unfold ep_handle. cbv zeta. eapply post_bind; [apply partial_new_len|]. intros [[pd rest]|err] Hd.
  - apply route_ok; [done| |apply len_nonneg]. unfold event_len. cbn [de_first_decode de_remaining]. lia.
  - destruct err as [src dst version|reason]; [apply handled_response; [done|apply version_negotiation_kept]|].
    apply post_ret, handled_kept; done.
Qed.
End Ops.
