(* ===== verification/EndpointSample.v ===== *)
(** A concrete endpoint, and a handshake between it and the client of [ConnSample], run to the end. *)
From stdpp Require Import gmap.
From S2P Require Import Prelude Coding RangeSet Ids Shared Frame Float Packet TransportParams Token TokenCache Assembler Recv Send.
From S2P Require Import PendingStreams Retransmits CidQueue CidState Streams Dedup PendingAcks Mtud Timer AckFrequency Rtt.
From S2P Require Import Congestion Pacing Datagrams Spaces PacketCrypto Config Paths Connection ConnRecovery ConnReceive.
From S2P Require Import PacketBuilder ConnTransmit CidGenerator EndpointIndex Endpoint ConnSample.
Open Scope Z_scope.

(** * Instances *)

(** A slab that always takes the key after the largest one. *)
Definition next_key {A} (m : gmap Z A) : Z := map_fold (fun k _ n => Z.max (k + 1) n) 0 m.

Lemma next_key_above {A} (m : gmap Z A) k a : m !! k = Some a → k < next_key m.
Proof.
  revert k a. induction m as [|i x m Hi IH] using map_ind; intros k a; [by rewrite lookup_empty|].
  assert (E : next_key (<[i := x]> m) = Z.max (i + 1) (next_key m)).
  { unfold next_key. rewrite map_fold_insert_L; [done| |done]. intros; lia. }
  rewrite E. intros Hk. apply lookup_insert_Some in Hk as [[<- _]|[_ Hk]]; [lia|]. apply IH in Hk. lia.
Qed.

#[export] Instance gmap_Slab : Slab (fun A => gmap Z A) := {
  slab_map _ m := m;
  slab_new _ := ∅;
  slab_vacant_key _ := next_key;
  slab_insert _ m a := (next_key m, <[next_key m := a]> m);
  slab_try_remove _ m k := (m !! k, delete k m);
  slab_set _ m k a := <[k := a]> m
}.
#[export] Instance gmap_SlabOk : SlabOk (fun A => gmap Z A).
Proof.
  split; try done. intros A s. cbn. destruct (s !! next_key s) as [a|] eqn:E; [|done]. apply next_key_above in E. lia.
Qed.

#[export] Instance counter_EndpointRng : EndpointRng Z := { from_seed bytes := hd 0 bytes; shuffle r l := (l, r + 1) }.

(** The TLS configurations of the toy handshake; the sessions know the parameters of the peer. *)
Record ToyConfig : Type := mkToyConfig { tc_peer_params : TransportParameters; tc_fails : bool }.
#[export] Instance toy_CryptoServerConfig : CryptoServerConfig ToyConfig ToySession := {
  server_initial_keys _ version _ := if version =? 1 then Some null_keys else None;
  retry_tag _ _ _ _ := replicate 16 0;
  server_start_session c _ _ := mkToySession false 0 (tc_peer_params c)
}.
#[export] Instance toy_CryptoClientConfig : CryptoClientConfig ToyConfig ToySession := {
  client_start_session c _ name _ := if tc_fails c then Err (InvalidServerName name) else Ok (mkToySession true 0 (tc_peer_params c))
}.

Notation SampleEndpoint := (Endpoint NewReno Z (RandomConnectionIdGenerator Z) (fun A => gmap Z A) ToyConfig NoneTokenLog).

Definition sample_reset_key : HmacKey := mkHmacKey (fun bytes => takeZ 32 (bytes ++ replicate 32 1)).
Definition sample_endpoint_config : EndpointConfig (RandomConnectionIdGenerator Z) :=
  mkEndpointConfig sample_reset_key (mkVarInt 1472) (mkRandomGenerator 8 None 2) [1] true (20 * 10 ^ 6) None.
Definition sample_settings : ServerSettings NewReno ToyConfig NoneTokenLog :=
  mkServerSettings sample_config (mkToyConfig (params_of (sample_cid 1) None) false) sample_server_config mkNoneTokenLog.
Definition sample_endpoint : SampleEndpoint := Endpoint_new 7 sample_endpoint_config (Some sample_settings) true.

(** * A handshake *)

(** The datagrams a connection has to send, at most [n]. *)
Fixpoint datagrams (n : nat) (c : SampleConnection) (now : Z) : M (list (list Z) * SampleConnection) :=
  match n with
  | O => mret ([], c)
  | S n =>
      '(t, buf, c) ← sample_transmit c now;
      match t with
      | None => mret ([], c)
      | Some _ => '(l, c) ← datagrams n c now; mret (buf :: l, c)
      end
  end.

Definition receive (c : SampleConnection) (now : Z) (remote : SocketAddr) (data : list Z) : M SampleConnection :=
  d ← PartialDecode_new data (FixedLengthConnectionIdParser 8) [1] true;
  match d with
  | Ok (pd, rest) => handle_datagram 10 c now remote None pd rest
  | Err _ => mret c
  end.

(** One exchange: what the first side has to send, received by the second. *)
Definition exchange (a b : SampleConnection) (now : Z) (from : SocketAddr) : M (SampleConnection * SampleConnection) :=
  '(l, a) ← datagrams 5 a now;
  b ← mfold (fun b data => receive b now from data) l b;
  mret (a, b).

(** The client's first datagram creates the connection at the server, which the application accepts. *)
Definition sample_accept : M (option (SampleConnection * SampleConnection * SampleEndpoint)) :=
  client ← sample_client;
  '(l, client) ← datagrams 1 client 0;
  first ← Prelude.unwrap (head l);
  '(event, _, e) ← ep_handle sample_endpoint 0 0 (sample_addr 1) None None first [];
  match event with
  | Some (NewConnection incoming) =>
      '(r, _, e) ⇐ accept (H := list Buffer) (TS := NoneTokenStore) far_future 10 5 e incoming 0 [] None;
      match r with Ok (_, server) => mret (Some (client, server, e)) | Err _ => mret None end
  | _ => mret None
  end.

Definition sample_handshake : M (option (SampleConnection * SampleConnection)) :=
  '(client, server, _) ⇐ sample_accept;
  '(server, client) ← exchange server client (10 ^ 7) (sample_addr 2);
  '(client, server) ← exchange client server (2 * 10 ^ 7) (sample_addr 1);
  '(server, client) ← exchange server client (3 * 10 ^ 7) (sample_addr 2);
  mret (Some (client, server)).

(** * Data on a stream *)

Definition sample_data : list Z := [104; 101; 108; 108; 111].

(** The client opens a stream, writes to it and finishes it. *)
Definition client_writes (c : SampleConnection) : M (option (StreamId * SampleConnection)) :=
  '(id, s) ← Streams.open (c_streams c) (is_closed (c_state c)) Bi;
  match id with
  | None => mret None
  | Some id =>
      '(_, s, _) ← write_source s false id (from_chunks [sample_data]);
      '(_, s) ← finish_stream s id;
      mret (Some (id, set_c_streams c s))
  end.

(** The server accepts the stream and reads a chunk. *)
Definition server_reads (c : SampleConnection) : M (option (StreamId * list Z)) :=
  '(id, s) ← Streams.accept (c_streams c) Bi;
  match id with
  | None => mret None
  | Some id =>
      '(r, s) ← Chunks_new s id true;
      match r with
      | Err _ => mret None
      | Ok chunks =>
          '(r, _, _) ← Chunks_next chunks s 1000;
          mret (match r with Ok (Some chunk) => Some (id, c_bytes chunk) | _ => None end)
      end
  end.

(** Handshake, data, close: what the server read, and the states of both sides at the end. *)
Definition sample_session : M (option (list Z * State * State * State * State)) :=
  '(client, server) ⇐ sample_handshake;
  let '(client0, server0) := (client, server) in
  '(id, client) ⇐ client_writes client;
  '(client, server) ← exchange client server (4 * 10 ^ 7) (sample_addr 1);
  '(id', data) ⇐ server_reads server;
  '(server, client) ← exchange server client (5 * 10 ^ 7) (sample_addr 2);
  let client := close client (6 * 10 ^ 7) (mkVarInt 0) [] in
  '(client, server) ← exchange client server (6 * 10 ^ 7) (sample_addr 1);
  mret (Some (if decide (id = id') then data else [], c_state client0, c_state server0, c_state client, c_state server)).
