(* ===== verification/EndpointTheorems.v ===== *)
(** Properties of endpoints: routing of datagrams, the buffers of attempts, stateless resets and connection ids. *)
From stdpp Require Import gmap.
From S2P Require Import Prelude Coding RangeSet Ids Shared Frame Float Packet TransportParams Token TokenCache Assembler Recv Send.
From S2P Require Import PendingStreams Retransmits CidQueue CidState Streams Dedup PendingAcks Mtud Timer AckFrequency Rtt.
From S2P Require Import Congestion Pacing Datagrams Spaces PacketCrypto Config Paths Connection ConnRecovery ConnReceive.
From S2P Require Import PacketBuilder ConnTransmit CidGenerator EndpointIndex Endpoint Post EndpointInv EndpointOps ConnSample EndpointSample.
Open Scope Z_scope.

(** * Runs *)

Section Runs.
Context {C : Type} {HC : Controller C} {H : Type} {HH : Heap H} {T : Type} {HT : Session T} {R : Type} {HR : Rng R}
  {TS : Type} {HTS : TokenStore TS}.
Context {HRC : RngCore R} {HER : EndpointRng R} {G : Type} {HG : ConnectionIdGenerator G} {SL : Type → Type} {HS : Slab SL}
  {SC : Type} {HSC : CryptoServerConfig SC T} {CC : Type} {HCC : CryptoClientConfig CC T} {L : Type} {HL : TokenLog L}.
Local Notation Endpoint := (Endpoint C R G SL SC L).
Context (max_instant : Z) (crypto_turns cid_turns : nat).

(** An endpoint, the attempts its application has not decided on, and the ids of connections that could not be started. *)
Record World : Type := mkWorld { w_endpoint : Endpoint; w_pending : list Incoming; w_leaked : gset ConnectionId }.

Inductive EndpointAction : Type :=
| EHandle (now system_now : Z) (remote : SocketAddr) (local_ip : option IpAddr) (ecn : option EcnCodepoint) (data : list Z)
| EEvent (ch : ConnectionHandle) (event : EndpointEvent)
| EConnect (now : Z) (config : ClientConfig C CC TS) (remote : SocketAddr) (name : list Z)
| EAccept (k : nat) (now : Z) (config : option (ServerSettings C SC L))
| ERefuse (k : nat)
| ERetry (k : nat) (system_now : Z)
| EIgnore (k : nat)
| EConfigure (config : option (ServerSettings C SC L)).

(** The [k]-th attempt and the others. *)
Definition with_attempt (w : World) (k : nat) (f : Incoming → list Incoming → M (option World)) : M (option World) :=
  match w_pending w !! k with
  | Some i => f i (take k (w_pending w) ++ drop (S k) (w_pending w))
  | None => mret (Some w)
  end.

Definition ep_perform (a : EndpointAction) (w : World) : M (option World) :=
  let e := w_endpoint w in
  match a with
  | EHandle now system_now remote local_ip ecn data =>
      '(event, _, e) ← ep_handle e now system_now remote local_ip ecn data [];
      mret (Some (mkWorld e (after_datagram (w_pending w) event) (w_leaked w)))
  | EEvent ch event => '(_, e) ⇐ endpoint_handle_event cid_turns e ch event; mret (Some (mkWorld e (w_pending w) (w_leaked w)))
  | EConnect now config remote name =>
      '(r, e') ⇐ connect (H := H) max_instant crypto_turns cid_turns e now config remote name;
      mret (Some (mkWorld e' (w_pending w) (match r with Ok _ => w_leaked w | Err _ => new_ids e e' ∪ w_leaked w end)))
  | EAccept k now config =>
      with_attempt w k (fun i others =>
        '(_, _, e) ⇐ accept (H := H) (TS := TS) max_instant crypto_turns cid_turns e i now [] config;
        mret (Some (mkWorld e others (w_leaked w))))
  | ERefuse k => with_attempt w k (fun i others => '(_, _, e) ← refuse e i []; mret (Some (mkWorld e others (w_leaked w))))
  | ERetry k system_now =>
      with_attempt w k (fun i others =>
        '(r, _, e) ← retry e system_now i [];
        mret (Some (mkWorld e (match r with Ok _ => others | Err _ => w_pending w end) (w_leaked w))))
  | EIgnore k => with_attempt w k (fun i others => e ← ignore e i; mret (Some (mkWorld e others (w_leaked w))))
  | EConfigure config => mret (Some (mkWorld (set_server_config e config) (w_pending w) (w_leaked w)))
  end.

Fixpoint ep_run (acts : list EndpointAction) (w : World) : M (option World) :=
  match acts with
  | [] => mret (Some w)
  | a :: acts => turns_bind (ep_perform a w) (ep_run acts)
  end.

(** The server settings an action brings respect the bounds. *)
Definition action_capped (caps : Caps) (a : EndpointAction) : Prop :=
  match a with EConfigure (Some s) => capped caps (ss_config s) | _ => True end.

Context {HSok : SlabOk SL} (caps : Caps).

Definition world_ok (w : World) : Prop := ep_ok caps (w_endpoint w) (w_pending w) (w_pending w) (w_leaked w).

Lemma with_attempt_ok w k f Q :
  (∀ l1 i l2, w_pending w = l1 ++ i :: l2 → within (f i (l1 ++ l2)) Q) → Q w → within (with_attempt w k f) Q.
Proof.
  intros Hf Hq. unfold with_attempt. destruct (w_pending w !! k) as [i|] eqn:Ek; [|done]. apply Hf. symmetry. by apply take_drop_middle.
Qed.

Lemma ep_perform_ok a w : world_ok w → action_capped caps a → within (ep_perform a w) world_ok.
Proof.
  intros Hw Ha. unfold world_ok in *. destruct a as [now sn remote ip ecn data|ch event|now config remote name|k now config|k|k sn|k|config]; cbn [ep_perform]; cbv zeta.
  - eapply within_step; [by apply (ep_handle_ok caps)|]. intros [[ev b] e] [H1 _]. by apply within_done.
  - eapply within_bind; [by apply (endpoint_handle_event_ok cid_turns caps)|]. intros [ev e] H1. by apply within_done.
  - eapply within_bind; [by apply (connect_ok max_instant crypto_turns cid_turns caps)|]. intros [[[ch conn]|err] e] H1; apply within_done; [apply H1|exact H1].
  - apply with_attempt_ok; [|done]. intros l1 i l2 E. rewrite E in Hw.
    eapply within_bind; [by apply (accept_ok max_instant crypto_turns cid_turns caps)|]. intros [[r b] e] [H1 _]. by apply within_done.
  - apply with_attempt_ok; [|done]. intros l1 i l2 E. rewrite E in Hw.
    eapply within_step; [by apply (refuse_ok caps)|]. intros [[r b] e] [H1 _]. by apply within_done.
  - apply with_attempt_ok; [|done]. intros l1 i l2 E. rewrite E in Hw.
    eapply within_step; [by apply (retry_kept caps)|]. intros [[[t|j] b] e] H1; apply within_done; [exact H1|]. cbn in H1. subst e. cbn. by rewrite E.
  - apply with_attempt_ok; [|done]. intros l1 i l2 E. rewrite E in Hw. unfold ignore.
    destruct (clean_up_incoming_total caps _ _ _ _ _ Hw) as (e & -> & H1 & _). by apply within_done.
  - apply within_done. destruct Hw as [I1 I2 I3 I4 I5 I6]. split; try done. intros c Hc. cbn in Hc. destruct config as [s|]; [|done].
    by injection Hc as <-.
Qed.

Lemma ep_run_ok acts w : world_ok w → Forall (action_capped caps) acts → within (ep_run acts w) world_ok.
Proof.
  intros Hw Ha. revert w Hw. induction Ha as [|a acts Ha _ IH]; intros w Hw; cbn [ep_run]; [by apply within_done|].
  eapply within_bind; [by apply ep_perform_ok|]. intros w' Hw'. by apply IH.
Qed.

(** Connections the index leads to are there. *)
Lemma routes_live (e : Endpoint) routed pending leaked addresses d ch :
  ep_ok caps e routed pending leaked → index_get (e_index e) addresses d = Some (ToConnection ch) →
  is_Some (conns_of e !! ch) ∨ Partial_dst_cid d ∈ leaked.
Proof.
  intros [[_ _ Hown] [_ _ _ _ Hconn] _ Htok Hrem _] Hg. pose proof (index_get_cases (e_index e) addresses d) as Hx. cbv zeta in Hx. rewrite Hg in Hx.
  destruct Hx as [[Hn Hc]|[Hc|[Hc|[Hc|(m & t & Hm & Ht)]]]].
  - destruct (Hown _ _ Hc) as [_ [(meta & Hm & _)|Hx]]; [left; by exists meta|by right].
  - destruct (Hconn _ _ Hc) as (meta & Hm & _). left. by exists meta.
  - destruct (ro_incoming _ _ _ Hrem _ _ Hc) as (meta & Hm & _). left. by exists meta.
  - destruct (ro_outgoing _ _ _ Hrem _ _ Hc) as (meta & Hm & _). left. by exists meta.
  - destruct (to_live _ _ Htok _ _ _ _ Hm Ht) as (meta & Hmeta & _). left. by exists meta.
Qed.

Definition first_world (os_rng : R) (config : EndpointConfig G) (server_config : option (ServerSettings C SC L)) (mtud : bool) : World :=
  mkWorld (Endpoint_new os_rng config server_config mtud) [] ∅.

(** What runs from a new endpoint reach. *)
Lemma ep_reached os_rng config server_config mtud acts w :
  action_capped caps (EConfigure server_config) → Forall (action_capped caps) acts →
  ep_run acts (first_world os_rng config server_config mtud) = Ret (Some w) → world_ok w.
Proof.
  intros Hs Ha Hr. refine (post_elim _ _ _ (ep_run_ok acts _ _ Ha) Hr). apply Endpoint_new_ok. by intros s ->.
Qed.
End Runs.

(** * Properties *)

(** A number drawn from a range is in it. *)
Class RngOk (R : Type) `{Rng R} : Prop := { rng_range_in : ∀ r lo hi, lo < hi → lo <= rng_range r lo hi < hi }.

Section Properties.
Context {C : Type} {HC : Controller C} {H : Type} {HH : Heap H} {T : Type} {HT : Session T} {R : Type} {HR : Rng R}
  {TS : Type} {HTS : TokenStore TS}.
Context {HRC : RngCore R} {HER : EndpointRng R} {G : Type} {HG : ConnectionIdGenerator G} {SL : Type → Type} {HS : Slab SL}
  {HSok : SlabOk SL} {SC : Type} {HSC : CryptoServerConfig SC T} {CC : Type} {HCC : CryptoClientConfig CC T} {L : Type} {HL : TokenLog L}.
Context (max_instant : Z) (crypto_turns cid_turns : nat) (caps : Caps).
Local Notation Endpoint := (Endpoint C R G SL SC L).
Local Notation run_of acts w := (ep_run (C := C) (H := H) (TS := TS) (CC := CC) max_instant crypto_turns cid_turns acts w).



(** The connection ids the generator yields in its next [n] draws. *)
Fixpoint drawn (n : nat) (g : G) : list ConnectionId :=
  match n with
  | O => []
  | S n => match generate_cid g with Ret (cid, g) => cid :: drawn n g | Panic => [] end
  end.

Context {HGok : GeneratorOk G}.

Lemma drawn_length n g : gen_ok g → length (drawn n g) = n.
Proof.
  revert g. induction n as [|n IH]; intros g Hg; cbn [drawn]; [done|]. destruct (generate_ok g Hg) as (cid & g' & -> & Hg' & _).
  cbn [length]. by rewrite IH.
Qed.

Lemma cid_empty_len cid : cid_wf cid → cid_is_empty cid = (cid_len cid =? 0).
Proof. intros Hw. unfold cid_is_empty. by rewrite cid_bytes_len. Qed.

Lemma new_cid_finds n (e : Endpoint) (ch : Z) :
  gen_ok (e_generator e) → (∃ cid, cid ∈ drawn n (e_generator e) ∧ connection_ids (e_index e) !! cid = None) →
  ∃ cid e', new_cid_loop n e ch = Ret (Some (cid, e')) ∧ cid_len cid = gen_cid_len (e_generator e) ∧
    (nonempty cid → connection_ids (e_index e) !! cid = None ∧ connection_ids (e_index e') = <[cid := ch]> (connection_ids (e_index e))).
Proof.
  revert e. induction n as [|n IH]; intros e Hg (c & Hc & Hf); cbn [drawn new_cid_loop] in *; [by apply elem_of_nil in Hc|].
  destruct (generate_ok _ Hg) as (cid & g & Eg & Hg' & Hw & Hl & Hlen & _). rewrite Eg in *. cbn [mbind M_bind]. cbv zeta.
  destruct (cid_is_empty cid) eqn:En.
  { cbn [e_generator set_e_generator]. rewrite Hlen, <- Hl, <- cid_empty_len, En by done. cbn [rassert mbind M_bind].
    eexists _, _. split; [reflexivity|]. split; [done|]. unfold nonempty. congruence. }
  case_bool_decide as Hfree.
  { eexists _, _. split; [reflexivity|]. split; [done|]. intros _. by split. }
  destruct (IH (set_e_generator e g) Hg') as (cid' & e' & H1 & H2 & H3).
  { apply elem_of_cons in Hc as [->|Hc]; [done|]. by exists c. }
  exists cid', e'. split; [done|]. split; [|done]. by rewrite H2.
Qed.

(** C36: drawing an id for a connection ends as soon as the generator has yielded more different ids than are in use; the id has
    the announced length and, when ids are not empty, was free before and leads to the connection afterwards, and nothing else
    of the index changes. *)
Theorem new_cid_terminates n (e : Endpoint) (ch : Z) :
  gen_ok (e_generator e) → NoDup (drawn n (e_generator e)) → (base.size (connection_ids (e_index e)) < n)%nat →
  ∃ cid e', new_cid_loop n e ch = Ret (Some (cid, e')) ∧ cid_len cid = gen_cid_len (e_generator e) ∧
    (cid_is_empty cid = false → connection_ids (e_index e) !! cid = None ∧
       connection_ids (e_index e') = <[cid := ch]> (connection_ids (e_index e))).
Proof.
  intros Hg Hd Hn. apply new_cid_finds; [done|].
  destruct (decide (Exists (fun cid => connection_ids (e_index e) !! cid = None) (drawn n (e_generator e)))) as [Hx|Hx].
  { apply Exists_exists in Hx as (cid & ? & ?). by exists cid. }
  exfalso. apply not_Exists_Forall in Hx; [|intros; apply _].
  assert (Hsub : (list_to_set (drawn n (e_generator e)) : gset ConnectionId) ⊆ dom (connection_ids (e_index e))).
  { intros cid Hcid. apply elem_of_list_to_set in Hcid. apply elem_of_dom. rewrite Forall_forall in Hx. specialize (Hx cid Hcid). cbn in Hx.
    by destruct (connection_ids (e_index e) !! cid) eqn:E; [eexists|]. }
  apply subseteq_size in Hsub. rewrite size_list_to_set, drawn_length, size_dom in Hsub by done. lia.
Qed.

Context {HRCok : RngCoreOk R} {HRok : RngOk R}.

(** Whether the endpoint may send a reset now for a datagram of [n] bytes. *)
Definition may_reset (e : Endpoint) (now n : Z) : Prop :=
  21 < n ∧ match e_last_stateless_reset e with Some last => last + ec_min_reset_interval (e_config e) <= now | None => True end.

Lemma draw_padding (rng : R) m : MIN_PADDING_LEN <= m →
  ∃ k rng', (if m <=? IDEAL_MIN_PADDING_LEN then mret (m, rng) else draw_range rng IDEAL_MIN_PADDING_LEN m) = Ret (k, rng') ∧
    MIN_PADDING_LEN <= k <= m.
Proof.
  intros Hm. destruct (Z.leb_spec m IDEAL_MIN_PADDING_LEN); [exists m, rng; split; [done|lia]|].
  unfold draw_range, random_range. rewrite (proj2 (Z.ltb_lt _ _)) by done. cbn [mbind M_bind mret M_ret].
  eexists _, _. split; [reflexivity|]. pose proof (rng_range_in rng IDEAL_MIN_PADDING_LEN m ltac:(done)).
  unfold IDEAL_MIN_PADDING_LEN, MIN_PADDING_LEN, MAX_CID_SIZE in *. lia.
Qed.

Lemma reset_first_byte b : byte b → Z.land (Z.lor 64 (Z.shiftr b 2)) 192 = 64.
Proof.
  intros Hb. assert (Hall : forallb (fun b => Z.land (Z.lor 64 (Z.shiftr b 2)) 192 =? 64) (map Z.of_nat (seq 0 256)) = true) by reflexivity.
  rewrite forallb_forall in Hall. apply Z.eqb_eq, Hall. apply in_map_iff. exists (Z.to_nat b). unfold byte in Hb.
  split; [lia|]. apply in_seq. lia.
Qed.

(** The reset, when one may be sent. *)
Lemma stateless_reset_sent (e : Endpoint) now n addresses dst buf :
  may_reset e now n → RESET_TOKEN_SIZE <= len (hm_sign (ec_reset_key (e_config e)) (cid_bytes dst)) →
  let token := takeZ RESET_TOKEN_SIZE (hm_sign (ec_reset_key (e_config e)) (cid_bytes dst)) in
  ∃ padding e', stateless_reset e now n addresses dst buf = Ret (Some (respond addresses (padding ++ token)), padding ++ token, e') ∧
    e_last_stateless_reset e' = Some now ∧ 5 <= len padding < n - RESET_TOKEN_SIZE ∧ Z.land (hd 0 padding) 192 = 64 ∧ len token = RESET_TOKEN_SIZE.
Proof.
  intros [Hn Hlast] Hkey. cbv zeta. unfold stateless_reset.
  match goal with |- context [if ?b then mret (None, buf, e) else _] => assert (b = false) as -> end.
  { destruct (e_last_stateless_reset e) as [last|]; [|done]. apply Z.ltb_ge. lia. }
  unfold checked_sub. rewrite (proj2 (Z.leb_le RESET_TOKEN_SIZE n)) by (unfold RESET_TOKEN_SIZE; lia).
  rewrite (proj2 (Z.ltb_lt MIN_PADDING_LEN _)) by (unfold MIN_PADDING_LEN, RESET_TOKEN_SIZE; lia). cbv zeta.
  destruct (draw_padding (e_rng (set_e_last_stateless_reset e (Some now))) (n - RESET_TOKEN_SIZE - 1)) as (k & rng & -> & Hk).
  { unfold MIN_PADDING_LEN, RESET_TOKEN_SIZE. lia. }
  cbn [mbind M_bind]. destruct (fill_bytes rng k) as [padding rng2] eqn:Ef. unfold MIN_PADDING_LEN in Hk.
  assert (Hl : len padding = k) by (pose proof (fill_bytes_len rng k ltac:(lia)) as Hf; by rewrite Ef in Hf).
  assert (Hb : Forall byte padding) by (pose proof (fill_bytes_byte rng k) as Hf; by rewrite Ef in Hf).
  destruct padding as [|b l]; [rewrite len_nil in Hl; lia|]. cbn [mbind M_bind mret M_ret]. unfold ResetToken_new. cbn [e_config set_e_rng set_e_last_stateless_reset].
  rewrite (proj2 (Z.leb_le _ _) Hkey). cbn [rassert mbind M_bind mret M_ret token_bytes].
  set (token := takeZ RESET_TOKEN_SIZE _). assert (Ht : len token = RESET_TOKEN_SIZE) by (apply len_takeZ; unfold RESET_TOKEN_SIZE in *; lia).
  rewrite len_cons in Hl. assert (Hlen : len ((Z.lor 64 (Z.shiftr b 2) :: l) ++ token) = k + RESET_TOKEN_SIZE) by (rewrite len_app, len_cons; lia).
  rewrite (proj2 (Z.ltb_lt _ _)) by lia. cbn [rassert mbind M_bind].
  eexists (_ :: l), _. split; [reflexivity|]. split; [done|]. rewrite len_cons. split; [lia|]. split; [|done].
  cbn [hd]. apply reset_first_byte. by inversion Hb.
Qed.

(** C12: a stateless reset is sent exactly when the datagram is large enough for one and the last reset is old enough; it is
    smaller than the datagram it answers, looks like a packet with a short header, ends in the token of the id, and the peer
    routes it to the connection that was given this token.  Otherwise nothing is sent. *)
Theorem stateless_reset_bounded (e : Endpoint) now n addresses dst buf :
  let token := takeZ RESET_TOKEN_SIZE (hm_sign (ec_reset_key (e_config e)) (cid_bytes dst)) in
  RESET_TOKEN_SIZE <= len (hm_sign (ec_reset_key (e_config e)) (cid_bytes dst)) →
  (¬ may_reset e now n → stateless_reset e now n addresses dst buf = Ret (None, buf, e)) ∧
  (may_reset e now n → ∃ buf' e',
     stateless_reset e now n addresses dst buf = Ret (Some (respond addresses buf'), buf', e') ∧ e_last_stateless_reset e' = Some now ∧
     21 <= len buf' < n ∧ Z.land (hd 0 buf') 192 = 64 ∧ dropZ (len buf' - RESET_TOKEN_SIZE) buf' = token ∧
     ∀ x a datagram m ch, pd_buf datagram = buf' → connection_reset_tokens x !! ft_remote a = Some m → m !! mkResetToken token = Some ch →
       Partial_is_initial datagram || Partial_is_0rtt datagram = false → cid_is_empty (Partial_dst_cid datagram) = false →
       connection_ids x !! Partial_dst_cid datagram = None → index_get x a datagram = Some (ToConnection ch)).
Proof.
  intros token Hkey. split.
  - intros Hno. unfold stateless_reset. destruct (match e_last_stateless_reset e with Some last => _ | None => _ end) eqn:El; [done|].
    unfold checked_sub. destruct (Z.leb_spec RESET_TOKEN_SIZE n); [|done]. destruct (Z.ltb_spec MIN_PADDING_LEN (n - RESET_TOKEN_SIZE)); [|done].
    exfalso. apply Hno. split; [unfold MIN_PADDING_LEN, RESET_TOKEN_SIZE in *; lia|]. destruct (e_last_stateless_reset e) as [last|]; [|done].
    apply Z.ltb_ge in El. lia.
  - intros Hyes. destruct (stateless_reset_sent e now n addresses dst buf Hyes Hkey) as (padding & e' & Hr & Hl & Hp & Hb & Ht). fold token in Hr, Ht.
    assert (Hd : dropZ (len (padding ++ token) - RESET_TOKEN_SIZE) (padding ++ token) = token).
    { rewrite len_app, Ht. replace (len padding + _ - _) with (len padding) by lia. unfold dropZ, len. by rewrite Nat2Z.id, drop_app_length. }
    exists (padding ++ token), e'. split; [exact Hr|]. split; [exact Hl|]. rewrite len_app, Ht in *. unfold RESET_TOKEN_SIZE in *. split; [lia|].
    split; [by destruct padding|]. split; [exact Hd|].
    intros x a d m ch Hbuf Hm Hch Hini Hn Hids. unfold index_get. cbv zeta. rewrite Hn, Hini, Hids, Hbuf, len_app, Ht. cbn [negb fmap option_fmap option_map].
    rewrite !union_None_l. unfold RESET_TOKEN_SIZE. destruct (Z.ltb_spec (len padding + 16) 16); [lia|]. unfold tokens_get. rewrite Hd, Ht, Z.eqb_refl, Hm.
    cbn [mbind option_bind]. by rewrite Hch.
Qed.
End Properties.

Definition session_ok : bool :=
  match sample_session with
  | Ret (Some (data, Established, Established, StClosed _, Draining)) => bool_decide (data = sample_data)
  | _ => false
  end.
Lemma session_ok_true : session_ok = true.
Proof. vm_compute. reflexivity. Qed.

(** A client and a server that exchange their datagrams get through a whole session: the client's first datagram becomes an
    attempt at the server's endpoint, which the application accepts; after three more flights both sides are established; what
    the client writes to a stream is what the server reads from it; and when the client closes, the server drains. *)
Theorem session_end_to_end :
  ∃ reason, sample_session = Ret (Some (sample_data, Established, Established, StClosed reason, Draining)).
Proof.
  pose proof session_ok_true as Hs. unfold session_ok in Hs.
  destruct sample_session as [[[[[[data c1] s1] c2] s2]|]|]; [|discriminate|discriminate].
  destruct c1; try discriminate. destruct s1; try discriminate. destruct c2 as [| |reason| |]; try discriminate. destruct s2; try discriminate.
  apply bool_decide_eq_true_1 in Hs as ->. by exists reason.
Qed.

(** * Where the code does less than it means to *)

Definition toy_client_config (fails : bool) : ClientConfig NewReno ToyConfig NoneTokenStore :=
  mkClientConfig sample_config (mkToyConfig (params_of (sample_cid 2) (Some (sample_cid 9))) fails) mkNoneTokenStore (sample_cid 9) 1.
Definition sample_connect (e : SampleEndpoint) (fails : bool) :=
  connect (H := list Buffer) far_future 10 5 e 0 (toy_client_config fails) (sample_addr 2) [].

(** A connection whose handshake cannot be started leaves its id behind: the index leads it to a handle without a connection,
    which the next connection gets. *)
Lemma failed_connect_leaks_id :
  match sample_connect sample_endpoint true with
  | Ret (Some (Err _, e)) => bool_decide (connection_ids (e_index e) !! sample_cid 2 = Some 0 ∧ slab_map (e_connections e) = ∅) &&
      match sample_connect e false with Ret (Some (Ok (ch, _), _)) => ch =? 0 | _ => false end
  | _ => false
  end = true.
Proof. vm_compute. reflexivity. Qed.

(** A client without connection ids: when one of two connections to the same address is drained, the other is not reached. *)
Definition zero_cid_endpoint : SampleEndpoint :=
  Endpoint_new 7 (mkEndpointConfig sample_reset_key (mkVarInt 1472) (mkRandomGenerator 0 None 2) [1] true (20 * 10 ^ 6) None) None true.
Definition empty_cid : ConnectionId := mkConnectionId 0 (replicate 20 0).
Definition from_server : PartialDecode := mkPartialDecode (PShort false empty_cid) [64] 1.
Definition finds (e : SampleEndpoint) : option RouteDatagramTo := index_get (e_index e) (mkFourTuple (sample_addr 2) None) from_server.

Lemma drained_connection_hides_another :
  match sample_connect zero_cid_endpoint false with
  | Ret (Some (Ok (first, _), e)) =>
      match sample_connect e false with
      | Ret (Some (Ok (second, _), e)) =>
          bool_decide (finds e = Some (ToConnection second)) &&
          match on_drained e first with
          | Ret e => bool_decide (finds e = None ∧ is_Some (slab_map (e_connections e) !! second))
          | Panic => false
          end
      | _ => false
      end
  | _ => false
  end = true.
Proof. vm_compute. reflexivity. Qed.

(** The client's first datagram. *)
Definition first_datagram : list Z :=
  match (client ← sample_client; datagrams 1 client 0) with Ret (d :: _, _) => d | _ => [] end.

(** Taking the server's settings away while an attempt waits makes the next datagram of the attempt panic. *)
Lemma reconfigured_endpoint_panics :
  match ep_handle sample_endpoint 0 0 (sample_addr 1) None None first_datagram [] with
  | Ret (Some (NewConnection _), _, e) =>
      match ep_handle (set_server_config e None) 5 0 (sample_addr 1) None None first_datagram [] with Panic => true | Ret _ => false end
  | _ => false
  end = true.
Proof. vm_compute. reflexivity. Qed.

(** An idle timeout of zero, which disables the timeout of connections, makes every attempt time out when it is accepted. *)
Lemma zero_idle_timeout_refuses {C H T R TS G SL SC L} `{Controller C} `{Heap H} `{Session T} `{HR : Rng R} `{TokenStore TS} `{RngCore R}
    `{EndpointRng R} `{ConnectionIdGenerator G} `{SlabOk SL} `{CryptoServerConfig SC T} `{TokenLog L} max_instant crypto_turns cid_turns
    (e : Endpoint C R G SL SC L) caps l1 i l2 leaked now buf settings number :
  ep_ok caps e (l1 ++ i :: l2) (l1 ++ i :: l2) leaked → tc_max_idle_timeout (ss_transport settings) = Some (mkVarInt 0) →
  in_received_at i <= now → expand (ih_number (in_header i)) 0 = Ret number →
  ∃ e', accept (H := H) (TS := TS) max_instant crypto_turns cid_turns e i now buf (Some settings) =
    Ret (Some (Err (mkAcceptError TimedOut None), buf, e')).
Proof.
  intros He Ht Hn Hx. unfold accept. destruct (take_buffer_total _ _ _ _ _ _ He) as (b & buffers & total & -> & _ & Hok). cbn [mbind M_bind]. cbv zeta.
  rewrite Hx. cbn [mbind M_bind mret M_ret]. rewrite Ht. cbn [into_inner]. unfold from_millis. rewrite Z.mul_0_l, Z.add_0_r, (proj2 (Z.leb_le _ _) Hn).
  destruct (forget_ok _ e (set_e_incoming e buffers total) l1 i l2 leaked He eq_refl eq_refl eq_refl Hok) as (e2 & Hr & _).
  change (ih_dst_cid (in_header i)) with (dst_of i). rewrite Hr. cbn [mbind M_bind mret M_ret]. by exists e2.
Qed.

(** * Witnesses *)

Definition sample_world : World := first_world 7 sample_endpoint_config (Some sample_settings) true.
Definition sample_acts : list (EndpointAction (C := NewReno) (TS := NoneTokenStore) (CC := ToyConfig) (SC := ToyConfig) (L := NoneTokenLog)) :=
  [EHandle 0 0 (sample_addr 1) None None first_datagram; EHandle 5 0 (sample_addr 1) None None first_datagram].
Definition sample_caps : Caps := mkCaps 1000000 10000000 16.

Definition sample_ep_run acts : M (option World) :=
  ep_run (H := list Buffer) (TS := NoneTokenStore) (CC := ToyConfig) far_future 10 5 acts sample_world.

(** A run to a state the test accepts. *)
Definition ep_reaches acts (test : World → bool) : bool := match sample_ep_run acts with Ret (Some w) => test w | _ => false end.

Lemma ep_reaches_spec acts test : ep_reaches acts test = true → ∃ w, sample_ep_run acts = Ret (Some w) ∧ test w = true.
Proof. unfold ep_reaches. destruct (sample_ep_run acts) as [[w|]|]; try discriminate. intros Ht. by exists w. Qed.

Lemma sample_capped : Forall (action_capped sample_caps) sample_acts.
Proof. do 2 (apply Forall_cons; split; [exact I|]). apply Forall_nil_2. Qed.

Lemma sample_config_capped :
  action_capped (C := NewReno) (TS := NoneTokenStore) (CC := ToyConfig) sample_caps (EConfigure (Some sample_settings)).
Proof. cbn. unfold capped. cbn. lia. Qed.

(** The second copy of the datagram is kept for the attempt the first one made. *)
Definition one_waiting (w : World (C := NewReno) (R := Z) (G := RandomConnectionIdGenerator Z) (SL := fun A => gmap Z A) (SC := ToyConfig) (L := NoneTokenLog)) : bool :=
  (len (w_pending w) =? 1) && (e_all_incoming_buffers_total_bytes (w_endpoint w) =? 1200).

Lemma one_waiting_reached : ep_reaches sample_acts one_waiting = true.
Proof. vm_compute. reflexivity. Qed.


(** The attempt is accepted, and its initial id leads to the connection. *)
Definition accepting : list (EndpointAction (C := NewReno) (TS := NoneTokenStore) (CC := ToyConfig) (SC := ToyConfig) (L := NoneTokenLog)) :=
  [EHandle 0 0 (sample_addr 1) None None first_datagram; EAccept 0 0 None].
Definition sample_datagram : PartialDecode := mkPartialDecode (PShort false (sample_cid 2)) [64] 1.
Definition one_accepted (w : World (C := NewReno) (R := Z) (G := RandomConnectionIdGenerator Z) (SL := fun A => gmap Z A) (SC := ToyConfig) (L := NoneTokenLog)) : bool :=
  match slab_map (e_connections (w_endpoint w)) !! 0 with Some meta => bool_decide (cm_loc_cids meta !! 0 = Some (sample_cid 2)) | None => false end.

Lemma one_accepted_reached : ep_reaches accepting one_accepted = true.
Proof. vm_compute. reflexivity. Qed.


#[export] Instance counter_RngOk : RngOk Z.
Proof. split. intros r lo hi Hl. cbn. lia. Qed.

Lemma new_cid_terminates_witness :
  ∃ cid e', new_cid_loop 3 sample_endpoint 0 = Ret (Some (cid, e')) ∧ cid_len cid = 8.
Proof.
  destruct (new_cid_terminates 3 sample_endpoint 0) as (cid & e' & Hn & Hl & _).
  - cbn. unfold MAX_CID_SIZE. lia.
  - apply (bool_decide_unpack _). vm_compute. exact I.
  - vm_compute. lia.
  - exists cid, e'. split; [exact Hn|exact Hl].
Defined.

Lemma stateless_reset_bounded_witness :
  ∃ buf e', stateless_reset sample_endpoint 0 40 (mkFourTuple (sample_addr 1) None) (sample_cid 5) [] =
    Ret (Some (respond (mkFourTuple (sample_addr 1) None) buf), buf, e') ∧ len buf < 40.
Proof.
  destruct (stateless_reset_bounded sample_endpoint 0 40 (mkFourTuple (sample_addr 1) None) (sample_cid 5) []) as [_ Hyes].
  { vm_compute. discriminate. }
  destruct Hyes as (buf & e' & Hr & _ & [_ Hlt] & _); [split; [lia|exact I]|]. exists buf, e'. split; [exact Hr|exact Hlt].
Defined.
