(* ===== verification/TileNet.v ===== *)
(** Network tiles: the packet types of [quac-interface] and [quac-tile], the socket of [quac-socket], the reader and writer of
    [quac-network-tile-socket] and the wiring of [quac/src/tileset.rs].

    A reader takes datagrams from a socket and pushes each into the queue of an engine tile, which it chooses by the connection
    id; a writer takes the datagrams of its engine tiles from their queues and sends them.  The queues (a lock-free library) and
    the kernel are interfaces with a view of their contents. *)
From stdpp Require Import gmap.
From S2P Require Import Prelude Coding Ids Shared Frame Packet Retransmits Token CidGenerator.
Open Scope Z_scope.

(** * Interfaces *)

(** [crossbeam_queue::ArrayQueue]: a bounded first-in first-out queue; [push] reports whether there was room. *)
Class ArrayQueue (Q : Type → Type) : Type := {
  queue_items : ∀ {A}, Q A → list A;
  queue_cap : ∀ {A}, Q A → Z;
  queue_new : ∀ {A}, Z → Q A;
  queue_push : ∀ {A}, Q A → A → bool * Q A;
  queue_pop : ∀ {A}, Q A → option A * Q A
}.
Class ArrayQueueOk (Q : Type → Type) `{ArrayQueue Q} : Prop := {
  queue_new_items : ∀ A n, queue_items (queue_new (A := A) n) = [];
  queue_new_cap : ∀ A n, queue_cap (queue_new (A := A) n) = n;
  queue_push_ok : ∀ A (q : Q A) a, fst (queue_push q a) = (len (queue_items q) <? queue_cap q);
  queue_push_items : ∀ A (q : Q A) a,
    queue_items (snd (queue_push q a)) = if len (queue_items q) <? queue_cap q then queue_items q ++ [a] else queue_items q;
  queue_push_cap : ∀ A (q : Q A) a, queue_cap (snd (queue_push q a)) = queue_cap q;
  queue_pop_head : ∀ A (q : Q A), fst (queue_pop q) = head (queue_items q);
  queue_pop_items : ∀ A (q : Q A), queue_items (snd (queue_pop q)) = tail (queue_items q);
  queue_pop_cap : ∀ A (q : Q A), queue_cap (snd (queue_pop q)) = queue_cap q
}.
Definition queue_len {Q} `{ArrayQueue Q} {A} (q : Q A) : Z := len (queue_items q).

(** A completion of the error queue of a socket: whether the kernel copied, and the range of ids. *)
Record ZcCompletion : Type := mkZcCompletion { ee_zerocopy : bool; ee_copied : bool; ee_info : Z; ee_data : Z }.

(** [sendmmsg], [recvmmsg] and [recvmsg] on the error queue; an error is its number.  [kernel_sent] is what the kernel has
    taken over for sending. *)
Class Kernel (K : Type) : Type := {
  kernel_sent : K → list (SocketAddr * list Z);
  sendmmsg : K → bool → list (SocketAddr * list Z) → result Z Z * K;
  recvmmsg : K → Z → result Z (list (SocketAddr * list Z)) * K;
  recv_completion : K → option (option ZcCompletion) * K
}.
Class KernelOk (K : Type) `{Kernel K} : Prop := {
  sendmmsg_taken : ∀ k zc msgs, match fst (sendmmsg k zc msgs) with
    | Ok n => 0 <= n <= len msgs ∧ kernel_sent (snd (sendmmsg k zc msgs)) = kernel_sent k ++ takeZ n msgs
    | Err _ => kernel_sent (snd (sendmmsg k zc msgs)) = kernel_sent k
    end
}.
Definition ENOBUFS : Z := 105.
Definition EWOULDBLOCK : Z := 11.

(** * Packets *)

Inductive NetEcn : Type := NetEct0 | NetEct1 | NetCe.

Record RecvMeta : Type := mkRecvMeta {
  rm_src : SocketAddr; rm_dst_ip : option IpAddr; rm_ecn : option NetEcn; rm_len : Z; rm_stride : Z
}.
Definition RecvMeta_default : RecvMeta := mkRecvMeta (SocketV4 (mkIpv4 [0; 0; 0; 0]) 0) None None 0 0.

Record Segment : Type := mkSegment { sg_buf : list Z; sg_offset : Z; sg_len : Z }.
Record ScatterGather : Type := mkScatterGather { segments : list Segment }.

(** [&s.buf.as_ref()[s.offset..s.offset + s.len]]. *)
Definition segment_slice (s : Segment) : M (list Z) :=
  stop ← uadd (sg_offset s) (sg_len s);
  _ ← rassert (stop <=? len (sg_buf s));
  mret (takeZ (sg_len s) (dropZ (sg_offset s) (sg_buf s))).

Definition as_contiguous (g : ScatterGather) : M (option (list Z)) :=
  match segments g with
  | [s] => b ← segment_slice s; mret (Some b)
  | _ => mret None
  end.

Fixpoint total_len_of (l : list Segment) (acc : Z) : M Z :=
  match l with
  | [] => mret acc
  | s :: l => acc ← uadd acc (sg_len s); total_len_of l acc
  end.
Definition total_len (g : ScatterGather) : M Z := total_len_of (segments g) 0.

(** The bytes of all segments, one after the other. *)
Fixpoint gather (l : list Segment) : M (list Z) :=
  match l with
  | [] => mret []
  | s :: l => b ← segment_slice s; rest ← gather l; mret (b ++ rest)
  end.

Record NetTransmit : Type := mkNetTransmit {
  nt_destination : SocketAddr; nt_ecn : option NetEcn; nt_contents : ScatterGather;
  nt_segment_size : option Z; nt_src_ip : option IpAddr
}.

Definition QUEUE_CAP : Z := 1024.
Definition CID_LEN : Z := 9.

Record RxPacket : Type := mkRxPacket { rx_meta : RecvMeta; rx_payload : list Z }.
Record TxPacket : Type := mkTxPacket {
  tp_destination : SocketAddr; tp_ecn : option NetEcn; tp_payload : list Z; tp_segment_size : option Z; tp_src_ip : option IpAddr
}.

(** * Steering *)

(** The destination id of the first packet: after the version and a length byte in a long header, of fixed length in a short one. *)
Definition extract_dcid (payload : list Z) : option (list Z) :=
  match payload with
  | [] => None
  | first :: _ =>
      if negb (Z.land first 128 =? 0) then
        if len payload <? 6 then None
        else
          let dcil := nth 5 payload 0 in
          if len payload <? 6 + dcil then None else Some (takeZ dcil (dropZ 6 payload))
      else if len payload <? 1 + CID_LEN then None
      else Some (takeZ CID_LEN (dropZ 1 payload))
  end.

(** [fastrand::usize(0..n)] is [draw n]; it panics on an empty range, and [%] by zero does. *)
Definition route_packet (draw : Z → Z) (payload : list Z) (num_engine_tiles : Z) : M Z :=
  let random := _ ← rassert (0 <? num_engine_tiles); mret (draw num_engine_tiles) in
  match extract_dcid payload with
  | Some dcid =>
      queue_id ← decode_queue_id_quic_lb dcid;
      match queue_id with
      | Some queue_id => _ ← rassert (negb (num_engine_tiles =? 0)); mret (queue_id mod num_engine_tiles)
      | None => random
      end
  | None => random
  end.

(** * The socket *)

Definition BATCH : Z := 64.
Definition AF_INET : Z := 2.
Definition AF_INET6 : Z := 10.

(** [sockaddr_storage]: the family, and the bytes of the fields as they lie in memory. *)
Record SockaddrStorage : Type := mkSockaddr {
  sa_family : Z; sa_port : list Z; sa_addr : list Z; sa_flowinfo : Z; sa_scope_id : Z
}.

Definition sockaddr_from_socketaddr (addr : SocketAddr) : SockaddrStorage * Z :=
  match addr with
  | SocketV4 ip port => (mkSockaddr AF_INET (be_bytes 2 port) (octets4 ip) 0 0, 16)
  | SocketV6 ip port flowinfo scope_id => (mkSockaddr AF_INET6 (be_bytes 2 port) (octets6 ip) flowinfo scope_id, 28)
  end.

Definition socketaddr_from_raw (sa : SockaddrStorage) (n : Z) : SocketAddr :=
  if (sa_family sa =? AF_INET) && (16 <=? n) then SocketV4 (mkIpv4 (sa_addr sa)) (from_be (sa_port sa))
  else if (sa_family sa =? AF_INET6) && (28 <=? n) then
    SocketV6 (mkIpv6 (sa_addr sa)) (from_be (sa_port sa)) (sa_flowinfo sa) (sa_scope_id sa)
  else SocketV4 (mkIpv4 [0; 0; 0; 0]) 0.

Section Socket.
Context {K : Type} {HK : Kernel K}.

Record OsSocket : Type := mkOsSocket {
  os_kernel : K; os_queue_id : Z; os_zc_in_flight : list NetTransmit; os_zerocopy_enabled : bool
}.

Definition set_queue_id (s : OsSocket) (queue_id : Z) : OsSocket :=
  mkOsSocket (os_kernel s) queue_id (os_zc_in_flight s) (os_zerocopy_enabled s).

(** The message the kernel gets for a transmit: its segments gathered, whatever its segment size. *)
Definition message (t : NetTransmit) : M (SocketAddr * list Z) :=
  bytes ← gather (segments (nt_contents t));
  mret (nt_destination t, bytes).
Fixpoint messages (l : list NetTransmit) : M (list (SocketAddr * list Z)) :=
  match l with
  | [] => mret []
  | t :: l => m ← message t; rest ← messages l; mret (m :: rest)
  end.

(** [transmits.drain(..n)]. *)
Definition drain {A} (n : Z) (l : list A) : M (list A * list A) := split_to n l.

(** The loop over batches; [zerocopy] is the flag computed before it. *)
Fixpoint send_loop (fuel : nat) (s : OsSocket) (zerocopy : bool) (transmits : list NetTransmit) (total_sent offset : Z)
    : M (option (OsSocket * list NetTransmit * Z)) :=
  match fuel with
  | O => mret None
  | S fuel =>
      if offset <? len transmits then
        let n := Z.min (len transmits - offset) BATCH in
        let chunk := takeZ n (dropZ offset transmits) in
        msgs ← messages chunk;
        let '(ret, k) := sendmmsg (os_kernel s) zerocopy msgs in
        match ret with
        | Err e =>
            if os_zerocopy_enabled s && (e =? ENOBUFS) then
              '(accepted, transmits) ← drain total_sent transmits;
              send_loop fuel (mkOsSocket k (os_queue_id s) (os_zc_in_flight s ++ accepted) false) zerocopy transmits total_sent offset
            else mret (Some (mkOsSocket k (os_queue_id s) (os_zc_in_flight s) (os_zerocopy_enabled s), transmits, total_sent))
        | Ok sent =>
            let s := mkOsSocket k (os_queue_id s) (os_zc_in_flight s) (os_zerocopy_enabled s) in
            if sent <? n then mret (Some (s, transmits, total_sent + sent))
            else send_loop fuel s zerocopy transmits (total_sent + sent) (offset + sent)
        end
      else mret (Some (s, transmits, total_sent))
  end.

(** Turns that are enough: every turn but one sends something or ends the loop. *)
Definition send_turns (transmits : list NetTransmit) : nat := S (S (length transmits)).

Definition socket_send (s : OsSocket) (transmits : list NetTransmit) : M (option (list NetTransmit * OsSocket)) :=
  match transmits with
  | [] => mret (Some ([], s))
  | _ =>
      r ← send_loop (send_turns transmits) s (os_zerocopy_enabled s) transmits 0 0;
      match r with
      | None => mret None
      | Some (s, transmits, total_sent) =>
          '(accepted, unsent) ← drain total_sent transmits;
          mret (Some (unsent, if os_zerocopy_enabled s
                              then mkOsSocket (os_kernel s) (os_queue_id s) (os_zc_in_flight s ++ accepted) true else s))
      end
  end.

(** [drain_completions]; the kernel has finitely many completions, at most [fuel] are taken. *)
Fixpoint drain_completions_loop (fuel : nat) (s : OsSocket) : OsSocket :=
  match fuel with
  | O => s
  | S fuel =>
      let '(r, k) := recv_completion (os_kernel s) in
      match r with
      | None => mkOsSocket k (os_queue_id s) (os_zc_in_flight s) (os_zerocopy_enabled s)
      | Some None => drain_completions_loop fuel (mkOsSocket k (os_queue_id s) (os_zc_in_flight s) (os_zerocopy_enabled s))
      | Some (Some c) =>
          if ee_zerocopy c then
            let count := ((ee_data c - ee_info c) mod 2 ^ 32 + 1) mod 2 ^ 32 in
            drain_completions_loop fuel (mkOsSocket k (os_queue_id s) (dropZ count (os_zc_in_flight s))
                                           (if ee_copied c then false else os_zerocopy_enabled s))
          else drain_completions_loop fuel (mkOsSocket k (os_queue_id s) (os_zc_in_flight s) (os_zerocopy_enabled s))
      end
  end.
Definition drain_completions (fuel : nat) (s : OsSocket) : OsSocket :=
  match os_zc_in_flight s with [] => s | _ => drain_completions_loop fuel s end.

(** [recv]: the metadata and the buffers of the datagrams the kernel has, at most as many as there are slots. *)
Definition received_of (d : SocketAddr * list Z) : RecvMeta * ScatterGather :=
  let '(src, bytes) := d in
  let n := len bytes in
  (mkRecvMeta src None None n n, mkScatterGather [mkSegment bytes 0 n]).

Definition socket_recv (s : OsSocket) (meta_len : Z) : result Z (list (RecvMeta * ScatterGather)) * OsSocket :=
  if meta_len =? 0 then (Ok [], s)
  else
    let '(r, k) := recvmmsg (os_kernel s) (Z.min meta_len BATCH) in
    let s := mkOsSocket k (os_queue_id s) (os_zc_in_flight s) (os_zerocopy_enabled s) in
    match r with
    | Err e => (Err e, s)
    | Ok [] => (Err EWOULDBLOCK, s)
    | Ok l => (Ok (map received_of l), s)
    end.
End Socket.
#[global] Arguments OsSocket K : clear implicits.

(** * Reader and writer *)

(** What a tile shares with an engine: the flag the engine sets before it parks, whether its thread handle is published, and
    the token [unpark] leaves. *)
Record EngineWake : Type := mkEngineWake { ew_parked : bool; ew_thread : bool; ew_token : bool }.
Definition unpark (w : EngineWake) : EngineWake := mkEngineWake (ew_parked w) (ew_thread w) true.

Section Tile.
Context {Q : Type → Type} {HQ : ArrayQueue Q} {K : Type} {HK : Kernel K}.

(** [OsNetworkTile], with the wake-up state of the engines. *)
Record OsNetworkTile : Type := mkOsNetworkTile {
  nt_rx_queues : list (Q RxPacket); nt_tx_queues : list (Q TxPacket); nt_engines : list EngineWake
}.
Definition num_engine_tiles (t : OsNetworkTile) : Z := len (nt_rx_queues t).

(** The payload of a received datagram. *)
Definition payload_of (g : ScatterGather) : M (list Z) :=
  c ← as_contiguous g;
  match c with
  | Some slice => mret slice
  | None => _ ← total_len g; gather (segments g)
  end.

(** One datagram of a batch: pushed into the queue of an engine, which is woken when it sleeps. *)
Definition deliver (draw : Z → Z) (t : OsNetworkTile) (d : RecvMeta * ScatterGather) : M OsNetworkTile :=
  let '(m, sg) := d in
  payload ← payload_of sg;
  tile_idx ← route_packet draw payload (num_engine_tiles t);
  q ← unwrap (nt_rx_queues t !! Z.to_nat tile_idx);
  let '(push_ok, q) := queue_push q (mkRxPacket m payload) in
  let t := mkOsNetworkTile (<[Z.to_nat tile_idx := q]> (nt_rx_queues t)) (nt_tx_queues t) (nt_engines t) in
  if push_ok then
    w ← unwrap (nt_engines t !! Z.to_nat tile_idx);
    mret (if ew_parked w && ew_thread w
          then mkOsNetworkTile (nt_rx_queues t) (nt_tx_queues t) (<[Z.to_nat tile_idx := unpark w]> (nt_engines t)) else t)
  else mret t.

(** A turn of the reader; [draws i] is the random choice for the [i]-th datagram of the batch.  [None] when the reader stops. *)
Fixpoint deliver_all (draws : nat → Z → Z) (i : nat) (t : OsNetworkTile) (l : list (RecvMeta * ScatterGather)) : M OsNetworkTile :=
  match l with
  | [] => mret t
  | d :: l => t ← deliver (draws i) t d; deliver_all draws (S i) t l
  end.

Definition reader_turn (draws : nat → Z → Z) (t : OsNetworkTile) (s : OsSocket K) : M (option (OsNetworkTile * OsSocket K)) :=
  let '(r, s) := socket_recv s BATCH in
  match r with
  | Ok l => t ← deliver_all draws 0 t l; mret (Some (t, s))
  | Err e => mret (if e =? EWOULDBLOCK then Some (t, s) else None)
  end.

(** A packet of an engine, sent by the writer; what the socket does not take is dropped. *)
Definition transmit_packet (p : TxPacket) : NetTransmit :=
  mkNetTransmit (tp_destination p) (tp_ecn p) (mkScatterGather [mkSegment (tp_payload p) 0 (len (tp_payload p))])
    (tp_segment_size p) (tp_src_ip p).

Fixpoint write_queue (fuel : nat) (q : Q TxPacket) (s : OsSocket K) (sent_any : bool) : M (option (Q TxPacket * OsSocket K * bool)) :=
  match fuel with
  | O => mret None
  | S fuel =>
      let '(p, q) := queue_pop q in
      match p with
      | None => mret (Some (q, s, sent_any))
      | Some p =>
          r ← socket_send s [transmit_packet p];
          match r with
          | None => mret None
          | Some (_, s) => write_queue fuel q s true
          end
      end
  end.

(** A turn of the writer over its queues; the boolean says whether it found anything. *)
Fixpoint writer_turn (l : list (Q TxPacket)) (s : OsSocket K) (sent_any : bool) : M (option (list (Q TxPacket) * OsSocket K * bool)) :=
  match l with
  | [] => mret (Some ([], s, sent_any))
  | q :: l =>
      r ← write_queue (S (length (queue_items q))) q s sent_any;
      match r with
      | None => mret None
      | Some (q, s, sent_any) =>
          r ← writer_turn l s sent_any;
          match r with
          | None => mret None
          | Some (l, s, sent_any) => mret (Some (q :: l, s, sent_any))
          end
      end
  end.
End Tile.
#[global] Arguments OsNetworkTile Q : clear implicits.

(** * Wiring *)

(** Queue [(i, j)] leads from the reader of network tile [i] to engine tile [j]; queue [j] from engine tile [j] to a writer. *)
Definition engine_rx (num_network j : Z) : list (Z * Z) := map (fun i => (i, j)) (seqZ 0 num_network).
Definition network_rx (num_engine i : Z) : list (Z * Z) := map (fun j => (i, j)) (seqZ 0 num_engine).
Definition network_tx (num_network num_engine i : Z) : list Z := base.filter (fun j => j mod num_network = i) (seqZ 0 num_engine).
