(* ===== verification/TileNetTheorems.v ===== *)
(** Properties of network tiles: the quick parse of the reader agrees with the decoder of packets, datagrams reach the engine
    whose connection they are for, and the socket sends a prefix of what it is given. *)
From stdpp Require Import gmap.
From S2P Require Import Prelude Coding Ids Shared Frame Packet Retransmits Token CidGenerator TileNet.
Open Scope Z_scope.

(** * Steering *)

Lemma from_buf_bytes buf n cid rest : ConnectionId_from_buf buf n = Ret (cid, rest) → 0 <= n → n <= len buf ∧ cid_bytes cid = takeZ n buf.
Proof.
  intros Hc Hn. apply M_bind_ret in Hc as ([] & _ & Hc). apply M_bind_ret in Hc as ([bytes r] & Hs & Hc).
  apply M_bind_ret in Hc as (c & Hc & [= <- <-]). unfold split_to in Hs. destruct (Z.leb_spec n (len buf)); [|done]. injection Hs as <- <-.
  apply M_bind_ret in Hc as ([] & _ & [= <-]). split; [done|]. unfold cid_bytes. cbn [cid_len cid_array].
  rewrite takeZ_app_le by lia. unfold takeZ at 1, len. rewrite Nat2Z.id. by apply take_ge.
Qed.

(** A decoder that succeeds, step by step. *)
Lemma mparser_bind_ok {E A B} (p : mparser E A) (f : A → mparser E B) bs b rest :
  mbind f p bs = Ret (Ok b, rest) → ∃ a bs', p bs = Ret (Ok a, bs') ∧ f a bs' = Ret (Ok b, rest).
Proof. unfold mbind, mparser_bind. destruct (p bs) as [[[a|e] bs']|] eqn:E'; [|done..]. intros Hf. by exists a, bs'. Qed.

Lemma get_u8_ok bs (x : u8) rest : mlift decode bs = Ret (Ok x, rest) → bs = uval x :: rest.
Proof.
  unfold mlift, map_err. cbn [decode uint_Codec]. destruct bs as [|b bs]; [done|]. rewrite len_cons. pose proof (len_nonneg bs).
  destruct (Z.ltb_spec (1 + len bs) (Z.of_nat 1)); [lia|]. intros [= <- <-]. done.
Qed.

Lemma get_u32_ok bs (x : u32) rest : mlift decode bs = Ret (Ok x, rest) → ∃ a b c d, bs = a :: b :: c :: d :: rest.
Proof.
  unfold mlift, map_err. cbn [decode uint_Codec]. destruct (Z.ltb_spec (len bs) (Z.of_nat 4)) as [|Hl]; [done|]. intros [= <- <-].
  destruct bs as [|a [|b [|c [|d bs]]]]; rewrite ?len_cons, ?len_nil in Hl; try lia. by exists a, b, c, d.
Qed.

Lemma get_cid_ok bs cid rest : get_cid bs = Ret (Ok cid, rest) → Forall byte bs →
  ∃ n bs', bs = n :: bs' ∧ 0 <= n <= len bs' ∧ cid_bytes cid = takeZ n bs'.
Proof.
  unfold get_cid, decode_long. cbn [decode uint_Codec]. intros Hd Hb. destruct bs as [|n bs]; [done|]. rewrite len_cons in Hd.
  pose proof (len_nonneg bs). destruct (Z.ltb_spec (1 + len bs) (Z.of_nat 1)); [lia|].
  change (uval (mkUint (from_be (take 1 (n :: bs))))) with n in Hd. change (drop 1 (n :: bs)) with bs in Hd.
  destruct (_ || _); [done|]. destruct (ConnectionId_from_buf bs n) as [[c r]|] eqn:E; [|done]. injection Hd as <- <-.
  apply Forall_cons in Hb as [Hn _]. unfold byte in Hn. apply from_buf_bytes in E as [? ?]; [|lia]. exists n, bs. split; [done|]. split; [lia|done].
Qed.

(** What the long header begins with. *)
Lemma extract_long first a b c d n bs :
  Z.land first 128 <> 0 → 0 <= n <= len bs → extract_dcid (first :: a :: b :: c :: d :: n :: bs) = Some (takeZ n bs).
Proof.
  intros Hf Hn. unfold extract_dcid. rewrite (proj2 (Z.eqb_neq _ _) Hf). cbn [negb nth]. rewrite !len_cons.
  destruct (Z.ltb_spec (1 + (1 + (1 + (1 + (1 + (1 + len bs)))))) 6); [lia|].
  by destruct (Z.ltb_spec (1 + (1 + (1 + (1 + (1 + (1 + len bs)))))) (6 + n)); [lia|].
Qed.

(** The quick parse of the tile finds the id the decoder finds. *)
Lemma header_dcid n versions grease data h rest :
  Forall byte data → ProtectedHeader_decode n (FixedLengthConnectionIdParser CID_LEN) versions grease data = Ret (Ok h, rest) →
  extract_dcid data = Some (cid_bytes (Protected_dst_cid h)).
Proof.
  intros Hb Hd. apply mparser_bind_ok in Hd as (first & bs & H1 & Hd). apply get_u8_ok in H1 as ->. cbv zeta in Hd.
  destruct (negb grease && _); [done|]. destruct (Z.eqb_spec (Z.land (uval first) LONG_HEADER_FORM) 0) as [Hf|Hf].
  - apply mparser_bind_ok in Hd as (cid & bs' & H2 & [= <- <-]). cbn [Protected_dst_cid]. unfold FixedLengthConnectionIdParser in H2.
    destruct (Z.leb_spec CID_LEN (len bs)); [|done]. destruct (ConnectionId_from_buf bs CID_LEN) as [[c r]|] eqn:E; [|done].
    injection H2 as <- <-. apply from_buf_bytes in E as [_ E]; [|done]. unfold extract_dcid.
    change 128 with LONG_HEADER_FORM. rewrite Hf, Z.eqb_refl, len_cons. cbn [negb].
    destruct (Z.ltb_spec (1 + len bs) (1 + CID_LEN)); [lia|]. by rewrite E.
  - apply mparser_bind_ok in Hd as (version & bs1 & H2 & Hd). apply get_u32_ok in H2 as (a & b & c & d & ->).
    do 5 (apply Forall_cons in Hb as [_ Hb]). apply mparser_bind_ok in Hd as (dst & bs2 & H3 & Hd).
    apply get_cid_ok in H3 as (k & bs3 & -> & Hk & E); [|done]. rewrite extract_long, <- E by done. do 2 f_equal.
    apply mparser_bind_ok in Hd as (src & bs4 & _ & Hd). destruct (_ =? 0); [by injection Hd as <- _|]. destruct (negb _); [done|].
    apply mparser_bind_ok in Hd as (ty & bs5 & _ & Hd). destruct ty as [| |ty].
    + apply mparser_bind_ok in Hd as (? & ? & _ & Hd). apply mparser_bind_ok in Hd as (? & ? & _ & Hd). destruct (_ <? _); [done|].
      apply mparser_bind_ok in Hd as (? & ? & _ & Hd). apply mparser_bind_ok in Hd as (? & ? & _ & Hd). by injection Hd as <- _.
    + by injection Hd as <- _.
    + apply mparser_bind_ok in Hd as (? & ? & _ & Hd). by injection Hd as <- _.
Qed.

Lemma extract_dcid_agrees versions grease data pd rest :
  Forall byte data → PartialDecode_new data (FixedLengthConnectionIdParser CID_LEN) versions grease = Ret (Ok (pd, rest)) →
  extract_dcid data = Some (cid_bytes (Partial_dst_cid pd)).
Proof.
  intros Hb Hd. apply M_bind_ret in Hd as ([[h|e] r] & Hh & Hd); [|done]. apply M_bind_ret in Hd as (n & _ & Hd).
  rewrite (header_dcid _ _ _ _ _ _ Hb Hh). by destruct (len data ?= n); [injection Hd as <- _|done|injection Hd as <- _].
Qed.

Lemma decode_queue_id_total bs : ∃ o, decode_queue_id_quic_lb bs = Ret o.
Proof.
  unfold decode_queue_id_quic_lb. destruct (Z.ltb_spec (len bs) (1 + SERVER_ID_LEN)); [by eexists|].
  destruct (lb_fields_total bs) as (first & id & -> & _); [done|]. cbn [mbind M_bind].
  destruct (Z.shiftr first 5 =? CONFIG_ROTATION); by eexists.
Qed.

(** Every datagram gets an engine. *)
Lemma route_packet_total draw payload n : 0 < n → 0 <= draw n < n → ∃ j, route_packet draw payload n = Ret j ∧ 0 <= j < n.
Proof.
  intros Hn Hd. assert (Hr : ∃ j, (_ ← rassert (0 <? n); mret (draw n)) = Ret j ∧ 0 <= j < n).
  { exists (draw n). by rewrite (proj2 (Z.ltb_lt _ _) Hn). }
  unfold route_packet. destruct (extract_dcid payload) as [dcid|]; [|done].
  destruct (decode_queue_id_total dcid) as [[q|] ->]; cbn [mbind M_bind]; [|done].
  destruct (Z.eqb_spec n 0); [lia|]. cbn. exists (q mod n). split; [done|]. by apply Z.mod_pos_bound.
Qed.

Section Steering.
Context {Q : Type → Type} {HQ : ArrayQueue Q} {HQok : ArrayQueueOk Q} {R : Type} {HR : RngCore R} {HRok : RngCoreOk R}.

Lemma payload_of_received src payload : len payload <= u64_max → payload_of (snd (received_of (src, payload))) = Ret payload.
Proof.
  intros Hl. cbn. unfold segment_slice. cbn [sg_offset sg_len sg_buf]. rewrite uadd_ok by lia. cbn [mbind M_bind].
  rewrite Z.add_0_l, Z.leb_refl. cbn. rewrite dropZ_0. unfold takeZ, len. by rewrite Nat2Z.id, take_ge.
Qed.

(** An id made for an engine leads to it. *)
Lemma steered draw payload n j versions grease pd rest (rng : R) queue g g' :
  Forall byte payload → route_packet draw payload n = Ret j →
  PartialDecode_new payload (FixedLengthConnectionIdParser CID_LEN) versions grease = Ret (Ok (pd, rest)) →
  0 <= queue < n → n <= 2 ^ 32 → QuicLb_new queue CID_LEN rng = Ret g → generate_cid g = Ret (Partial_dst_cid pd, g') → j = queue.
Proof.
  intros Hb Hj Hpd Hqu Hmax Hg Hgen. apply QuicLb_new_inv in Hg as [-> Hlb].
  destruct (lb_generated_decodes rng queue CID_LEN) as (cid & g2 & Hgen' & _ & _ & Hdec); [lia|done|].
  rewrite Hgen' in Hgen. injection Hgen as -> _. unfold route_packet in Hj. rewrite (extract_dcid_agrees _ _ _ _ _ Hb Hpd), Hdec in Hj.
  cbn [mbind M_bind] in Hj. destruct (Z.eqb_spec n 0); [lia|]. cbn in Hj. injection Hj as <-. by apply Z.mod_small.
Qed.

(** A datagram for engine [j]. *)
Lemma deliver_to draw (t : OsNetworkTile Q) m sg payload (j : Z) q w :
  payload_of sg = Ret payload → route_packet draw payload (num_engine_tiles t) = Ret j →
  nt_rx_queues t !! Z.to_nat j = Some q → nt_engines t !! Z.to_nat j = Some w →
  let p := queue_push q (mkRxPacket m payload) in
  deliver draw t (m, sg) = Ret (mkOsNetworkTile (<[Z.to_nat j := snd p]> (nt_rx_queues t)) (nt_tx_queues t)
    (if fst p && (ew_parked w && ew_thread w) then <[Z.to_nat j := unpark w]> (nt_engines t) else nt_engines t)).
Proof.
  intros Hp Hj Hq Hw. cbv zeta. unfold deliver. rewrite Hp. cbn [mbind M_bind]. rewrite Hj. cbn [mbind M_bind]. rewrite Hq.
  cbn [unwrap mbind M_bind]. destruct (queue_push q _) as [[] q']; cbn [fst snd andb]; [|done].
  cbn [nt_engines]. rewrite Hw. cbn [unwrap mbind M_bind]. by destruct (ew_parked w && ew_thread w).
Qed.

(** C17: whatever datagram a reader receives, it goes to the end of the queue of exactly one engine, unless that queue is full,
    and the engine is unparked when it sleeps; a datagram whose first packet the endpoint decodes and which carries an id made
    for an engine goes to that engine. *)
Theorem datagrams_steered (draw : Z → Z) (t : OsNetworkTile Q) src payload :
  (∀ n, 0 < n → 0 <= draw n < n) → nt_rx_queues t ≠ [] → length (nt_engines t) = length (nt_rx_queues t) →
  Forall byte payload → len payload <= u64_max →
  ∃ (j : Z) q w t', route_packet draw payload (num_engine_tiles t) = Ret j ∧
    nt_rx_queues t !! Z.to_nat j = Some q ∧ nt_engines t !! Z.to_nat j = Some w ∧
    deliver draw t (received_of (src, payload)) = Ret t' ∧ nt_tx_queues t' = nt_tx_queues t ∧
    (∀ k, k ≠ Z.to_nat j → nt_rx_queues t' !! k = nt_rx_queues t !! k ∧ nt_engines t' !! k = nt_engines t !! k) ∧
    (queue_len q < queue_cap q →
       (∃ q', nt_rx_queues t' !! Z.to_nat j = Some q' ∧
          queue_items q' = queue_items q ++ [mkRxPacket (fst (received_of (src, payload))) payload]) ∧
       nt_engines t' !! Z.to_nat j = Some (if ew_parked w && ew_thread w then unpark w else w)) ∧
    (queue_cap q <= queue_len q →
       (∃ q', nt_rx_queues t' !! Z.to_nat j = Some q' ∧ queue_items q' = queue_items q) ∧ nt_engines t' = nt_engines t) ∧
    (∀ versions grease pd rest (rng : R) queue g g',
       PartialDecode_new payload (FixedLengthConnectionIdParser CID_LEN) versions grease = Ret (Ok (pd, rest)) →
       0 <= queue < num_engine_tiles t → num_engine_tiles t <= 2 ^ 32 →
       QuicLb_new queue CID_LEN rng = Ret g → generate_cid g = Ret (Partial_dst_cid pd, g') → j = queue).
Proof.
  intros Hd Hne Hlen Hb Hl. assert (Hn : 0 < num_engine_tiles t).
  { unfold num_engine_tiles, len. destruct (nt_rx_queues t); [done|]. cbn [length]. lia. }
  destruct (route_packet_total draw payload _ Hn (Hd _ Hn)) as (j & Hj & Hr).
  assert (Hlt : (Z.to_nat j < length (nt_rx_queues t))%nat) by (unfold num_engine_tiles, len in Hr; lia).
  destruct (lookup_lt_is_Some_2 _ _ Hlt) as [q Hq]. assert (Hlt' := Hlt). rewrite <- Hlen in Hlt'. destruct (lookup_lt_is_Some_2 _ _ Hlt') as [w Hw].
  exists j, q, w. eexists. split; [done|]. split; [done|]. split; [done|].
  split; [by apply deliver_to; [by apply (payload_of_received src)|..]|]. cbn [nt_rx_queues nt_tx_queues nt_engines].
  set (pkt := mkRxPacket _ payload). rewrite queue_push_ok. split; [done|]. split.
  { intros k Hk. rewrite list_lookup_insert_ne by done. split; [done|]. by destruct (_ && _); [rewrite list_lookup_insert_ne|]. }
  rewrite list_lookup_insert_eq by done. unfold queue_len. split; [|split].
  - intros Hroom. rewrite (proj2 (Z.ltb_lt _ _) Hroom). cbn [andb]. split.
    + eexists. split; [done|]. by rewrite queue_push_items, (proj2 (Z.ltb_lt _ _) Hroom).
    + by destruct (ew_parked w && ew_thread w); [rewrite list_lookup_insert_eq|].
  - intros Hfull. rewrite (proj2 (Z.ltb_ge _ _) Hfull). cbn [andb]. split; [|done]. eexists. split; [done|].
    by rewrite queue_push_items, (proj2 (Z.ltb_ge _ _) Hfull).
  - intros. by eapply steered.
Qed.
End Steering.

(** * The socket *)

Lemma elem_of_slice {A} (x : A) n off l : x ∈ takeZ n (dropZ off l) → x ∈ l.
Proof.
  intros Hx. rewrite <- (takeZ_dropZ off l). apply elem_of_app. right. rewrite <- (takeZ_dropZ n (dropZ off l)). apply elem_of_app. by left.
Qed.

Lemma messages_map f l : (∀ t, t ∈ l → message t = Ret (f t)) → messages l = Ret (map f l).
Proof.
  induction l as [|t l IH]; intros Hf; [done|]. cbn [messages map]. rewrite (Hf t) by set_solver. cbn [mbind M_bind].
  by rewrite IH by (intros; apply Hf; set_solver).
Qed.

Section Socket.
Context {K : Type} {HK : Kernel K} {HKok : KernelOk K}.
Local Notation OsSocket := (OsSocket K).

(** What the loop leaves: the kernel has the messages of a prefix, whose length it reports. *)
Lemma send_loop_ok (f : NetTransmit → SocketAddr * list Z) l sent0 flights fuel (s : OsSocket) flag off :
  (∀ t, t ∈ l → message t = Ret (f t)) → 0 <= off <= len l → kernel_sent (os_kernel s) = sent0 ++ map f (takeZ off l) →
  os_zc_in_flight s = flights → (os_zerocopy_enabled s = true → len l <= BATCH ∧ (off = 0 ∨ off = len l)) →
  len l - off + (if os_zerocopy_enabled s then 1 else 0) < Z.of_nat fuel →
  ∃ s' n, send_loop fuel s flag l off off = Ret (Some (s', l, n)) ∧ off <= n <= len l ∧
    kernel_sent (os_kernel s') = sent0 ++ map f (takeZ n l) ∧ os_zc_in_flight s' = flights ∧
    (os_zerocopy_enabled s' = true → os_zerocopy_enabled s = true) ∧ os_queue_id s' = os_queue_id s.
Proof.
  intros Hf. revert s off. induction fuel as [|fuel IH]; intros s off Ho Hk Hfl Hz Hfuel; [destruct (os_zerocopy_enabled s); lia|].
  cbn [send_loop]. destruct (Z.ltb_spec off (len l)) as [Hlt|Hge]; [|by exists s, off; repeat split; try done; lia].
  set (n := Z.min (len l - off) BATCH). assert (Hn : 0 < n <= len l - off) by (unfold n, BATCH; lia).
  assert (Hd : len (dropZ off l) = len l - off) by (rewrite len_dropZ; lia).
  rewrite (messages_map f) by (intros t Ht; by eapply Hf, elem_of_slice).
  cbn [mbind M_bind]. pose proof (sendmmsg_taken (os_kernel s) flag (map f (takeZ n (dropZ off l)))) as Hs.
  destruct (sendmmsg (os_kernel s) flag _) as [[sent|e] k]; cbn [fst snd] in Hs.
  - destruct Hs as [Hsent Hk']. unfold len in Hsent at 1. rewrite length_map in Hsent. fold (len (takeZ n (dropZ off l))) in Hsent.
    rewrite len_takeZ in Hsent by lia.
    assert (Hk2 : kernel_sent k = sent0 ++ map f (takeZ (off + sent) l)).
    { rewrite Hk', Hk, takeZ_add by lia. rewrite map_app, app_assoc. f_equal. unfold takeZ. by rewrite firstn_map, take_take, Nat.min_l by lia. }
    destruct (Z.ltb_spec sent n) as [Hlt2|Hge2].
    + eexists _, (off + sent). split; [done|]. cbn. repeat split; try done; lia.
    + destruct (IH (mkOsSocket k (os_queue_id s) (os_zc_in_flight s) (os_zerocopy_enabled s)) (off + sent)) as (s' & m & Hs' & Hm & Hk3 & Hfl' & Hz' & Hq');
        cbn [os_kernel os_zc_in_flight os_zerocopy_enabled] in *; try done; try lia.
      { intros Ht. destruct (Hz Ht) as [Hb [->| ->]]; [|lia]. split; [done|]. right. unfold n in *. lia. }
      exists s', m. repeat split; try done; lia.
  - destruct (os_zerocopy_enabled s) eqn:Ez; cbn [andb].
    + destruct (Z.eqb_spec e ENOBUFS).
      * destruct (Hz eq_refl) as [Hb [->| ->]]; [|lia]. unfold drain. rewrite split_to_ok by lia. cbn [mbind M_bind].
        rewrite takeZ_0, dropZ_0, app_nil_r.
        destruct (IH (mkOsSocket k (os_queue_id s) (os_zc_in_flight s) false) 0) as (s' & m & Hs' & Hm & Hk3 & Hfl' & Hz' & Hq');
          cbn [os_kernel os_zc_in_flight os_zerocopy_enabled] in *; try done; try lia; [by rewrite Hs|].
        exists s', m. repeat split; try done; lia.
      * eexists _, off. split; [done|]. cbn. repeat split; try done; try lia. by rewrite Hs.
    + eexists _, off. split; [done|]. cbn. repeat split; try done; try lia. by rewrite Hs.
Qed.

(** C18: the socket never panics on at most one batch of packets, or when it copies, and it hands a prefix of them to the
    kernel, each as one message in order, and returns the rest; the buffers of the packets sent are kept while the kernel may
    still read them, unless zero-copy sending was given up. *)
Theorem socket_sends_prefix (f : NetTransmit → SocketAddr * list Z) (s : OsSocket) l :
  (∀ t, t ∈ l → message t = Ret (f t)) → len l <= BATCH ∨ os_zerocopy_enabled s = false →
  ∃ n unsent s', socket_send s l = Ret (Some (unsent, s')) ∧ l = takeZ n l ++ unsent ∧
    kernel_sent (os_kernel s') = kernel_sent (os_kernel s) ++ map f (takeZ n l) ∧
    os_zc_in_flight s' = os_zc_in_flight s ++ (if os_zerocopy_enabled s' then takeZ n l else []) ∧
    (os_zerocopy_enabled s' = true → os_zerocopy_enabled s = true).
Proof.
  intros Hf Hb. destruct l as [|t l'] eqn:El.
  { exists 0, [], s. cbn. repeat split; try done; by rewrite ?app_nil_r; destruct (os_zerocopy_enabled s); rewrite ?app_nil_r. }
  rewrite <- El in *. assert (Hl : 0 < len l) by (rewrite El, len_cons; pose proof (len_nonneg l'); lia).
  destruct (send_loop_ok f l (kernel_sent (os_kernel s)) (os_zc_in_flight s) (send_turns l) s (os_zerocopy_enabled s) 0)
    as (s' & n & Hs & Hn & Hk & Hfl & Hz & Hq); try done; try lia.
  { by rewrite takeZ_0, app_nil_r. }
  { intros Hz. split; [destruct Hb as [?|Hb]; [done|by rewrite Hb in Hz]|by left]. }
  { unfold send_turns, len. destruct (os_zerocopy_enabled s); lia. }
  exists n, (dropZ n l), (if os_zerocopy_enabled s' then mkOsSocket (os_kernel s') (os_queue_id s') (os_zc_in_flight s' ++ takeZ n l) true else s').
  unfold socket_send. destruct l as [|t0 l0]; [done|]. rewrite Hs. cbn [mbind M_bind]. unfold drain. rewrite split_to_ok by lia.
  cbn [mbind M_bind]. split; [done|]. split; [by rewrite takeZ_dropZ|].
  destruct (os_zerocopy_enabled s') eqn:Ez; cbn [os_kernel os_zc_in_flight os_zerocopy_enabled].
  - rewrite Hfl. by repeat split.
  - rewrite Ez, app_nil_r. by repeat split.
Qed.
End Socket.

Lemma message_of_packet p : len (tp_payload p) <= u64_max → message (transmit_packet p) = Ret (tp_destination p, tp_payload p).
Proof.
  intros Hl. unfold message, transmit_packet. cbn [nt_contents segments gather nt_destination]. unfold segment_slice. cbn [sg_offset sg_len sg_buf].
  rewrite uadd_ok by lia. cbn [mbind M_bind]. rewrite Z.add_0_l, Z.leb_refl. cbn. rewrite dropZ_0, app_nil_r. unfold takeZ, len.
  by rewrite Nat2Z.id, take_ge.
Qed.

Lemma sockaddr_roundtrip a : 0 <= addr_port a < 2 ^ 16 →
  socketaddr_from_raw (fst (sockaddr_from_socketaddr a)) (snd (sockaddr_from_socketaddr a)) = a.
Proof.
  intros Hp. destruct a as [[ip] port|[ip] port flow scope]; unfold socketaddr_from_raw; cbn [sockaddr_from_socketaddr fst snd addr_port sa_family sa_port sa_addr sa_flowinfo sa_scope_id AF_INET AF_INET6] in *;
    rewrite ?Z.eqb_refl; cbn -[be_bytes from_be]; by rewrite from_be_bytes_small by (change (256 ^ Z.of_nat 2) with (2 ^ 16); lia).
Qed.

(** * Wiring *)

(** Every queue has one producer and one consumer: the reader of tile [i] and engine [j] for [(i, j)], and engine [j] and one
    writer for [j]. *)
Lemma queues_wired num_network num_engine i j : 0 < num_network →
  ((i, j) ∈ engine_rx num_network j ↔ 0 <= i < num_network) ∧ ((i, j) ∈ network_rx num_engine i ↔ 0 <= j < num_engine) ∧
  (0 <= j < num_engine → 0 <= j mod num_network < num_network ∧ ∀ k, j ∈ network_tx num_network num_engine k ↔ k = j mod num_network).
Proof.
  intros Hn. unfold engine_rx, network_rx, network_tx. rewrite !list_elem_of_fmap. split; [|split].
  - split; [intros (x & [= ->] & Hx); apply elem_of_seqZ in Hx; lia|]. intros Hi. exists i. split; [done|]. apply elem_of_seqZ. lia.
  - split; [intros (x & [= ->] & Hx); apply elem_of_seqZ in Hx; lia|]. intros Hi. exists j. split; [done|]. apply elem_of_seqZ. lia.
  - intros Hj. split; [by apply Z.mod_pos_bound|]. intros k. rewrite list_elem_of_filter, elem_of_seqZ. split; [by intros [<- _]|].
    intros ->. split; [done|lia].
Qed.

(** * Instances *)

Record ListQueue (A : Type) : Type := mkListQueue { lq_cap : Z; lq_items : list A }.
Arguments mkListQueue {A}.
Arguments lq_cap {A}.
Arguments lq_items {A}.
#[export] Instance ListQueue_ArrayQueue : ArrayQueue ListQueue := {
  queue_items _ := lq_items; queue_cap _ := lq_cap; queue_new _ n := mkListQueue n [];
  queue_push _ q a := if len (lq_items q) <? lq_cap q then (true, mkListQueue (lq_cap q) (lq_items q ++ [a])) else (false, q);
  queue_pop _ q := (head (lq_items q), mkListQueue (lq_cap q) (tail (lq_items q)))
}.
#[export] Instance ListQueue_ArrayQueueOk : ArrayQueueOk ListQueue.
Proof. split; try done; intros A q a; cbn; by destruct (_ <? _). Qed.

(** A kernel that answers as a script says, and takes everything after its end; it records the messages and the flags. *)
Record ScriptKernel : Type := mkScriptKernel {
  sk_replies : list (result Z Z); sk_sent : list (SocketAddr * list Z); sk_flags : list bool
}.
Definition script_send (k : ScriptKernel) (zc : bool) (msgs : list (SocketAddr * list Z)) : result Z Z * ScriptKernel :=
  let '(r, rest) := match sk_replies k with [] => (Ok (len msgs), []) | r :: rest => (r, rest) end in
  match r with
  | Ok n => let n := Z.max 0 (Z.min n (len msgs)) in (Ok n, mkScriptKernel rest (sk_sent k ++ takeZ n msgs) (sk_flags k ++ [zc]))
  | Err e => (Err e, mkScriptKernel rest (sk_sent k) (sk_flags k ++ [zc]))
  end.
#[export] Instance ScriptKernel_Kernel : Kernel ScriptKernel := {
  kernel_sent := sk_sent; sendmmsg := script_send; recvmmsg k _ := (Err EWOULDBLOCK, k); recv_completion k := (None, k)
}.
#[export] Instance ScriptKernel_KernelOk : KernelOk ScriptKernel.
Proof.
  split. intros k zc msgs. cbn. unfold script_send. pose proof (len_nonneg msgs).
  destruct (sk_replies k) as [|[n|e] rest]; cbn; try done; split; try done; lia.
Qed.

Definition sample_remote (n : Z) : SocketAddr := SocketV4 (mkIpv4 [192; 0; 2; n]) 4433.
Definition sample_tx (n : Z) : TxPacket := mkTxPacket (sample_remote n) None [n; n] None None.
Definition sample_socket (replies : list (result Z Z)) : OsSocket ScriptKernel := mkOsSocket (mkScriptKernel replies [] []) 0 [] true.

(** * Where the code does less than it means to *)

(** A packet that carries several segments is sent as one datagram. *)
Lemma segments_sent_as_one_datagram :
  let p := mkTxPacket (sample_remote 1) None (replicate 2400 7) (Some 1200) None in
  ∃ s, socket_send (sample_socket []) [transmit_packet p] = Ret (Some ([], s)) ∧
    kernel_sent (os_kernel s) = [(sample_remote 1, replicate 2400 7)].
Proof. eexists. split; vm_compute; reflexivity. Qed.

(** When the kernel runs out of buffers after a first batch, the packets of that batch are taken out of the vector twice. *)
Lemma no_buffers_after_batch_panics :
  socket_send (sample_socket [Ok 64; Err ENOBUFS; Err ENOBUFS]) (map (fun n => transmit_packet (sample_tx (Z.of_nat n))) (seq 0 65)) = Panic.
Proof. vm_compute. reflexivity. Qed.

(** The second attempt is made with the flag it is meant to avoid, and the buffer is not kept although the kernel may read it. *)
Lemma no_buffers_retry_keeps_flag :
  ∃ s, socket_send (sample_socket [Err ENOBUFS; Ok 1]) [transmit_packet (sample_tx 1)] = Ret (Some ([], s)) ∧
    sk_flags (os_kernel s) = [true; true] ∧ os_zc_in_flight s = [].
Proof. eexists. split; vm_compute; [reflexivity|]. split; reflexivity. Qed.

(** The client's first datagrams carry an id the server did not choose: two of them may go to different engines. *)
Lemma first_flight_scattered :
  let data := [192; 0; 0; 0; 1; 8; 255; 1; 2; 3; 4; 5; 6; 7; 0; 0; 0] in
  route_packet (fun _ => 0) data 2 = Ret 0 ∧ route_packet (fun _ => 1) data 2 = Ret 1.
Proof. split; reflexivity. Qed.

(** * Witnesses *)

Definition sample_tile : OsNetworkTile ListQueue :=
  mkOsNetworkTile (replicate 3 (queue_new QUEUE_CAP)) [] (replicate 3 (mkEngineWake true true false)).
Definition sample_lb_cid : list Z := [5; 0; 0; 0; 2; 6; 6; 6; 6].
Definition sample_short : list Z := 64 :: sample_lb_cid ++ [1; 2; 3].

Lemma datagrams_steered_witness :
  ∃ j t', route_packet (fun _ => 0) sample_short 3 = Ret j ∧ deliver (fun _ => 0) sample_tile (received_of (sample_remote 1, sample_short)) = Ret t' ∧ j = 2.
Proof.
  destruct (datagrams_steered (R := Z) (fun _ => 0) sample_tile (sample_remote 1) sample_short)
    as (j & q & w & t' & Hj & _ & _ & Ht & _ & _ & _ & _ & Hs).
  - intros n Hn. lia.
  - done.
  - reflexivity.
  - unfold sample_short, sample_lb_cid. repeat (apply Forall_cons; split; [unfold byte; lia|]). apply Forall_nil. exact I.
  - vm_compute. discriminate.
  - exists j, t'. split; [exact Hj|]. split; [exact Ht|].
    refine (Hs [1] true _ _ 5 2 (mkQuicLb 2 9 5) _ _ _ _ _ _); [vm_compute; reflexivity|split; [lia|vm_compute; reflexivity]|vm_compute; discriminate|vm_compute; reflexivity|vm_compute; reflexivity].
Defined.

Lemma socket_sends_prefix_witness :
  ∃ n unsent s', socket_send (sample_socket [Ok 1]) [transmit_packet (sample_tx 1); transmit_packet (sample_tx 2)] = Ret (Some (unsent, s')) ∧
    [transmit_packet (sample_tx 1); transmit_packet (sample_tx 2)] = takeZ n [transmit_packet (sample_tx 1); transmit_packet (sample_tx 2)] ++ unsent.
Proof.
  destruct (socket_sends_prefix (fun t => (nt_destination t, match segments (nt_contents t) with s :: _ => sg_buf s | [] => [] end))
    (sample_socket [Ok 1]) [transmit_packet (sample_tx 1); transmit_packet (sample_tx 2)]) as (n & unsent & s' & Hs & Hl & _).
  - intros t Ht. apply elem_of_cons in Ht as [->|Ht]; [reflexivity|]. apply elem_of_cons in Ht as [->|Ht]; [reflexivity|]. by apply elem_of_nil in Ht.
  - left. vm_compute. discriminate.
  - exists n, unsent, s'. split; [exact Hs|exact Hl].
Defined.
