(* ===== verification/Bridge.v ===== *)
(** The memory an engine shares with the application and the handles of the application: [quac/src/bridge.rs] and
    [quac/src/app.rs].

    The engine and the tasks of the application run at the same time and meet in queues, flags and wakers.  Cells and connection
    states are shared objects: they live in a store and handles hold their addresses.  A function of the application is a program
    of atomic accesses, so that the accesses of others can come in between. *)
From stdpp Require Import gmap.
From S2P Require Import Prelude Coding Ids Shared Frame Packet Retransmits Token TileNet.
Open Scope Z_scope.

(** * Interfaces *)

(** [futures_util::task::AtomicWaker]: the last task registered is woken, once; tasks are numbers. *)
Class AtomicWaker (W : Type) : Type := {
  waker_task : W → option Z;
  waker_new : W;
  waker_register : W → Z → W;
  waker_wake : W → option Z * W
}.
Class AtomicWakerOk (W : Type) `{AtomicWaker W} : Prop := {
  waker_new_task : waker_task waker_new = None;
  waker_register_task : ∀ w t, waker_task (waker_register w t) = Some t;
  waker_wake_woken : ∀ w, fst (waker_wake w) = waker_task w;
  waker_wake_task : ∀ w, waker_task (snd (waker_wake w)) = None
}.

(** * Shared data *)

Definition RECV_DATA_CAP : Z := 16.
Definition EVT_QUEUE_CAP : Z := 256.

Inductive TileAppCommand : Type :=
| CmdWrite (conn : Z) (stream : StreamId) (data : list Z) (fin : bool)
| CmdOpenStream (conn : Z) (dir : Dir)
| CmdFinish (conn : Z) (stream : StreamId)
| CmdResetStream (conn : Z) (stream : StreamId) (code : Z)
| CmdCloseConn (conn : Z).

(** [ConnEvent]; the cell of a stream is its address. *)
Inductive ConnEvent : Type :=
| PeerBiStream (id : StreamId) (cell : Z)
| PeerUniStream (id : StreamId) (cell : Z)
| LocalStream (id : StreamId) (cell : Z)
| ConnectionClosed.

(** [app::Connection]: the address of its state and the slot of the engine. *)
Record AppConnection : Type := mkAppConnection { ac_state : Z; ac_slot : Z }.
Definition AppConnection_new (state : Z) : AppConnection := mkAppConnection state u32_max.
Definition with_slot (c : AppConnection) (slot : Z) : AppConnection := mkAppConnection (ac_state c) slot.

Section Bridge.
Context {Q : Type → Type} {HQ : ArrayQueue Q} {W : Type} {HW : AtomicWaker W}.

Record StreamCell : Type := mkStreamCell { recv_data : Q (list Z); recv_waker : W; recv_fin : bool; send_waker : W }.
Definition StreamCell_new : StreamCell := mkStreamCell (queue_new RECV_DATA_CAP) waker_new false waker_new.

(** The part of [ConnState] that belongs to one connection; the command queue and the parking state are those of the tile. *)
Record ConnState : Type := mkConnState { evt_queue : Q ConnEvent; evt_waker : W }.
Definition ConnState_new : ConnState := mkConnState (queue_new EVT_QUEUE_CAP) waker_new.

(** What an engine and its application share; [sh_woken] lists the tasks that were woken, [sh_next] is the next address. *)
Record Shared : Type := mkShared {
  sh_cells : gmap Z StreamCell; sh_conns : gmap Z ConnState; sh_next : Z; sh_cmds : Q TileAppCommand;
  sh_incoming : Q AppConnection; sh_accept_waker : W; sh_wake : EngineWake; sh_woken : list Z
}.
Definition set_cells (s : Shared) (v : gmap Z StreamCell) : Shared :=
  mkShared v (sh_conns s) (sh_next s) (sh_cmds s) (sh_incoming s) (sh_accept_waker s) (sh_wake s) (sh_woken s).
Definition set_conns (s : Shared) (v : gmap Z ConnState) : Shared :=
  mkShared (sh_cells s) v (sh_next s) (sh_cmds s) (sh_incoming s) (sh_accept_waker s) (sh_wake s) (sh_woken s).
Definition set_next_address (s : Shared) (v : Z) : Shared :=
  mkShared (sh_cells s) (sh_conns s) v (sh_cmds s) (sh_incoming s) (sh_accept_waker s) (sh_wake s) (sh_woken s).
Definition set_cmds (s : Shared) (v : Q TileAppCommand) : Shared :=
  mkShared (sh_cells s) (sh_conns s) (sh_next s) v (sh_incoming s) (sh_accept_waker s) (sh_wake s) (sh_woken s).
Definition set_incoming (s : Shared) (v : Q AppConnection) (w : W) : Shared :=
  mkShared (sh_cells s) (sh_conns s) (sh_next s) (sh_cmds s) v w (sh_wake s) (sh_woken s).
Definition set_wake (s : Shared) (v : EngineWake) : Shared :=
  mkShared (sh_cells s) (sh_conns s) (sh_next s) (sh_cmds s) (sh_incoming s) (sh_accept_waker s) v (sh_woken s).
Definition add_woken (s : Shared) (t : option Z) : Shared :=
  mkShared (sh_cells s) (sh_conns s) (sh_next s) (sh_cmds s) (sh_incoming s) (sh_accept_waker s) (sh_wake s) (sh_woken s ++ option_list t).

(** * Programs of atomic accesses *)

(** An access yields the rest of the program, chosen by what it sees, and changes the memory. *)
Inductive Prog (A : Type) : Type :=
| Done (a : A)
| Step (rest : Shared → Prog A) (effect : Shared → Shared).
Arguments Done {A}.
Arguments Step {A}.

Fixpoint prog_bind {A B} (p : Prog A) (k : A → Prog B) : Prog B :=
  match p with
  | Done a => k a
  | Step rest effect => Step (fun s => prog_bind (rest s) k) effect
  end.

(** The program alone, with nothing in between. *)
Fixpoint prog_run {A} (p : Prog A) (s : Shared) : A * Shared :=
  match p with
  | Done a => (a, s)
  | Step rest effect => prog_run (rest s) (effect s)
  end.

(** Others act before every access. *)
Fixpoint prog_run_among {A} (p : Prog A) (others : nat → Shared → Shared) (n : nat) (s : Shared) : A * Shared :=
  match p with
  | Done a => (a, s)
  | Step rest effect => let s := others n s in prog_run_among (rest s) others (S n) (effect s)
  end.

Definition access {A B} (f : Shared → A * Shared) (k : A → Prog B) : Prog B := Step (fun s => k (fst (f s))) (fun s => snd (f s)).

(** * Accesses *)

Definition pop_data (a : Z) (s : Shared) : option (list Z) * Shared :=
  match sh_cells s !! a with
  | Some c =>
      let '(d, q) := queue_pop (recv_data c) in
      (d, set_cells s (<[a := mkStreamCell q (recv_waker c) (recv_fin c) (send_waker c)]> (sh_cells s)))
  | None => (None, s)
  end.
Definition load_fin (a : Z) (s : Shared) : bool * Shared :=
  (match sh_cells s !! a with Some c => recv_fin c | None => false end, s).
Definition register_recv (a task : Z) (s : Shared) : unit * Shared :=
  (tt, match sh_cells s !! a with
       | Some c => set_cells s (<[a := mkStreamCell (recv_data c) (waker_register (recv_waker c) task) (recv_fin c) (send_waker c)]> (sh_cells s))
       | None => s
       end).
Definition register_send (a task : Z) (s : Shared) : unit * Shared :=
  (tt, match sh_cells s !! a with
       | Some c => set_cells s (<[a := mkStreamCell (recv_data c) (recv_waker c) (recv_fin c) (waker_register (send_waker c) task)]> (sh_cells s))
       | None => s
       end).
Definition pop_event (a : Z) (s : Shared) : option ConnEvent * Shared :=
  match sh_conns s !! a with
  | Some c => let '(e, q) := queue_pop (evt_queue c) in (e, set_conns s (<[a := mkConnState q (evt_waker c)]> (sh_conns s)))
  | None => (None, s)
  end.
Definition push_back_event (a : Z) (e : ConnEvent) (s : Shared) : bool * Shared :=
  match sh_conns s !! a with
  | Some c => let '(ok, q) := queue_push (evt_queue c) e in (ok, set_conns s (<[a := mkConnState q (evt_waker c)]> (sh_conns s)))
  | None => (false, s)
  end.
Definition register_evt (a task : Z) (s : Shared) : unit * Shared :=
  (tt, match sh_conns s !! a with
       | Some c => set_conns s (<[a := mkConnState (evt_queue c) (waker_register (evt_waker c) task)]> (sh_conns s))
       | None => s
       end).
Definition pop_incoming (s : Shared) : option AppConnection * Shared :=
  let '(c, q) := queue_pop (sh_incoming s) in (c, set_incoming s q (sh_accept_waker s)).
Definition register_accept (task : Z) (s : Shared) : unit * Shared :=
  (tt, set_incoming s (sh_incoming s) (waker_register (sh_accept_waker s) task)).
Definition push_cmd (cmd : TileAppCommand) (s : Shared) : bool * Shared :=
  let '(ok, q) := queue_push (sh_cmds s) cmd in (ok, set_cmds s q).
Definition load_parked (s : Shared) : bool * Shared := (ew_parked (sh_wake s), s).
Definition unpark_engine (s : Shared) : unit * Shared :=
  (tt, if ew_thread (sh_wake s) then set_wake s (unpark (sh_wake s)) else s).

(** The engine's side: it pushes data and the end of a stream into a cell, streams and the end of a connection into its queue of
    events, and wakes who waits. *)
Definition push_data (a : Z) (d : list Z) (s : Shared) : bool * Shared :=
  match sh_cells s !! a with
  | Some c =>
      let '(ok, q) := queue_push (recv_data c) d in
      (ok, set_cells s (<[a := mkStreamCell q (recv_waker c) (recv_fin c) (send_waker c)]> (sh_cells s)))
  | None => (false, s)
  end.
Definition store_fin (a : Z) (s : Shared) : Shared :=
  match sh_cells s !! a with
  | Some c => set_cells s (<[a := mkStreamCell (recv_data c) (recv_waker c) true (send_waker c)]> (sh_cells s))
  | None => s
  end.
Definition wake_recv (a : Z) (s : Shared) : Shared :=
  match sh_cells s !! a with
  | Some c =>
      let '(t, w) := waker_wake (recv_waker c) in
      add_woken (set_cells s (<[a := mkStreamCell (recv_data c) w (recv_fin c) (send_waker c)]> (sh_cells s))) t
  | None => s
  end.
Definition wake_send (a : Z) (s : Shared) : Shared :=
  match sh_cells s !! a with
  | Some c =>
      let '(t, w) := waker_wake (send_waker c) in
      add_woken (set_cells s (<[a := mkStreamCell (recv_data c) (recv_waker c) (recv_fin c) w]> (sh_cells s))) t
  | None => s
  end.
Definition push_event (a : Z) (e : ConnEvent) (s : Shared) : Shared := snd (push_back_event a e s).
Definition wake_evt (a : Z) (s : Shared) : Shared :=
  match sh_conns s !! a with
  | Some c => let '(t, w) := waker_wake (evt_waker c) in add_woken (set_conns s (<[a := mkConnState (evt_queue c) w]> (sh_conns s))) t
  | None => s
  end.
Definition push_incoming (c : AppConnection) (s : Shared) : Shared :=
  set_incoming s (snd (queue_push (sh_incoming s) c)) (sh_accept_waker s).
Definition wake_accept (s : Shared) : Shared :=
  let '(t, w) := waker_wake (sh_accept_waker s) in add_woken (set_incoming s (sh_incoming s) w) t.

(** * Commands *)

Definition wake_engine : Prog unit := access load_parked (fun parked => if parked then access unpark_engine Done else Done tt).
Definition send_cmd (cmd : TileAppCommand) : Prog unit := access (push_cmd cmd) (fun _ => wake_engine).

(** * Handles *)

Inductive Poll (A : Type) : Type := Ready (a : A) | Pending.
Arguments Ready {A}.
Arguments Pending {A}.

Record SendStream : Type := mkSendStream { ss_state : Z; ss_slot : Z; ss_id : StreamId; ss_cell : Z }.
Record RecvStream : Type := mkRecvStream { rs_state : Z; rs_slot : Z; rs_id : StreamId; rs_cell : Z; rs_leftover : list Z }.
Definition SendStream_new (state slot : Z) (id : StreamId) (cell : Z) : SendStream := mkSendStream state slot id cell.
Definition RecvStream_new (state slot : Z) (id : StreamId) (cell : Z) : RecvStream := mkRecvStream state slot id cell [].

(** [app::Endpoint::accept], one poll of its future. *)
Definition poll_accept (task : Z) : Prog (Poll (option AppConnection)) :=
  access pop_incoming (fun c =>
    match c with
    | Some conn => Done (Ready (Some conn))
    | None =>
        access (register_accept task) (fun _ =>
        access pop_incoming (fun c => match c with Some conn => Done (Ready (Some conn)) | None => Done Pending end))
    end).

(** The loop over the events of a connection, every branch of which leaves it: [Some (Some _)] for a stream it waits for,
    [Some None] when the connection is closed; another event is put back at the end. *)
Definition scan_events (state : Z) (wanted : ConnEvent → option (StreamId * Z)) {B} (k : option (option (StreamId * Z)) → Prog B) : Prog B :=
  access (pop_event state) (fun ev =>
    match ev with
    | None => k None
    | Some ev =>
        match wanted ev with
        | Some found => k (Some (Some found))
        | None =>
            match ev with
            | ConnectionClosed => k (Some None)
            | other => access (push_back_event state other) (fun _ => k None)
            end
        end
    end).

Definition streams_of (c : AppConnection) (found : option (StreamId * Z)) : option (SendStream * RecvStream) :=
  match found with
  | Some (id, cell) => Some (SendStream_new (ac_state c) (ac_slot c) id cell, RecvStream_new (ac_state c) (ac_slot c) id cell)
  | None => None
  end.

(** One poll of the futures of [accept_bi] and [open_bi]. *)
Definition poll_streams (c : AppConnection) (task : Z) (wanted : ConnEvent → option (StreamId * Z))
    : Prog (Poll (option (SendStream * RecvStream))) :=
  scan_events (ac_state c) wanted (fun r =>
    match r with
    | Some found => Done (Ready (streams_of c found))
    | None =>
        access (register_evt (ac_state c) task) (fun _ =>
        scan_events (ac_state c) wanted (fun r =>
          match r with
          | Some found => Done (Ready (streams_of c found))
          | None => Done Pending
          end))
    end).

Definition peer_bi (e : ConnEvent) : option (StreamId * Z) := match e with PeerBiStream id cell => Some (id, cell) | _ => None end.
Definition local_bi (e : ConnEvent) : option (StreamId * Z) :=
  match e with LocalStream id cell => if decide (dir id = Bi) then Some (id, cell) else None | _ => None end.
Definition poll_accept_bi (c : AppConnection) (task : Z) := poll_streams c task peer_bi.

(** [open_bi]: the command, then a poll of the future; [started] tells whether the command was sent by an earlier poll. *)
Definition poll_open_bi (c : AppConnection) (task : Z) (started : bool) : Prog (Poll (option (SendStream * RecvStream))) :=
  if started then poll_streams c task local_bi
  else prog_bind (send_cmd (CmdOpenStream (ac_slot c) Bi)) (fun _ => poll_streams c task local_bi).

Definition SendStream_finish (s : SendStream) : Prog unit := send_cmd (CmdFinish (ss_slot s) (ss_id s)).

Definition poll_write (s : SendStream) (task : Z) (buf : list Z) : Prog (Poll Z) :=
  access (push_cmd (CmdWrite (ss_slot s) (ss_id s) buf false)) (fun ok =>
    if ok then prog_bind wake_engine (fun _ => Done (Ready (len buf)))
    else access (register_send (ss_cell s) task) (fun _ => Done Pending)).
Definition poll_flush : Prog (Poll unit) := Done (Ready tt).
Definition poll_shutdown (s : SendStream) : Prog (Poll unit) :=
  prog_bind (send_cmd (CmdFinish (ss_slot s) (ss_id s))) (fun _ => Done (Ready tt)).

(** [poll_read] into a buffer with [room] free bytes: the bytes put there, none at the end of the stream. *)
Definition set_leftover (r : RecvStream) (v : list Z) : RecvStream := mkRecvStream (rs_state r) (rs_slot r) (rs_id r) (rs_cell r) v.
Definition serve (r : RecvStream) (room : Z) (chunk : list Z) : Poll (list Z) * RecvStream :=
  let n := Z.min (len chunk) room in
  (Ready (takeZ n chunk), if n <? len chunk then set_leftover r (dropZ n chunk) else r).

Definition read_fin_again (r : RecvStream) : Prog (Poll (list Z) * RecvStream) :=
  access (load_fin (rs_cell r)) (fun fin => if fin then Done (Ready [], r) else Done (Pending, r)).
Definition read_pop_again (r : RecvStream) (room : Z) : Prog (Poll (list Z) * RecvStream) :=
  access (pop_data (rs_cell r)) (fun chunk =>
    match chunk with Some chunk => Done (serve r room chunk) | None => read_fin_again r end).
Definition read_register (r : RecvStream) (task room : Z) : Prog (Poll (list Z) * RecvStream) :=
  access (register_recv (rs_cell r) task) (fun _ => read_pop_again r room).
Definition read_fin (r : RecvStream) (task room : Z) : Prog (Poll (list Z) * RecvStream) :=
  access (load_fin (rs_cell r)) (fun fin => if fin then Done (Ready [], r) else read_register r task room).
Definition poll_read (r : RecvStream) (task room : Z) : Prog (Poll (list Z) * RecvStream) :=
  match rs_leftover r with
  | _ :: _ =>
      let n := Z.min (len (rs_leftover r)) room in
      Done (Ready (takeZ n (rs_leftover r)), set_leftover r (dropZ n (rs_leftover r)))
  | [] =>
      access (pop_data (rs_cell r)) (fun chunk =>
        match chunk with Some chunk => Done (serve r room chunk) | None => read_fin r task room end)
  end.
End Bridge.
#[global] Arguments StreamCell Q W : clear implicits.
#[global] Arguments ConnState Q W : clear implicits.
#[global] Arguments Shared Q W : clear implicits.
#[global] Arguments Done {Q W A}.
#[global] Arguments Step {Q W A}.
#[global] Arguments Ready {A}.
#[global] Arguments Pending {A}.
