(* ===== verification/BridgeTheorems.v ===== *)
(** Properties of the memory shared by engine and application: what the engine pushes for a stream is what the application
    reads, whatever the interleaving, and a reader that waits is woken. *)
From stdpp Require Import gmap.
From S2P Require Import Prelude Coding Ids Shared Frame Packet Retransmits Token TileNet Bridge TileNetTheorems.
Open Scope Z_scope.

(** * A stream between engine and reader *)

Section Pipe.
Context {Q : Type → Type} {HQ : ArrayQueue Q} {HQok : ArrayQueueOk Q} {W : Type} {HW : AtomicWaker W} {HWok : AtomicWakerOk W}.
Local Notation Shared := (Shared Q W).
Local Notation ReadProg := (Prog (Q := Q) (W := W) (Poll (list Z) * RecvStream)).

(** The cell [a], a reader that polls as [task] and the engine.  [pi_pushed] and [pi_delivered] are all bytes pushed and
    delivered; [pi_owed] says that the engine pushed something and has not called the waker yet, [pi_woken] that the task was
    woken since its last poll began, [pi_waits] that this poll returned [Pending]. *)
Record Pipe : Type := mkPipe {
  pi_shared : Shared; pi_stream : RecvStream; pi_prog : option (Z * ReadProg); pi_pushed : list Z; pi_delivered : list Z;
  pi_owed : bool; pi_woken : bool; pi_waits : bool; pi_eof : bool
}.

Definition cell_of (a : Z) (s : Shared) : option (StreamCell Q W) := sh_cells s !! a.
Definition woken_now (task : Z) (o : option (StreamCell Q W)) : bool :=
  match o with Some c => bool_decide (waker_task (recv_waker c) = Some task) | None => false end.

Inductive pipe_step (a task : Z) : Pipe → Pipe → Prop :=
| pipe_push s r p pushed delivered owed woken waits eof d :
    d ≠ [] → pipe_step a task (mkPipe s r p pushed delivered owed woken waits eof)
      (mkPipe (snd (push_data a d s)) r p (if fst (push_data a d s) then pushed ++ d else pushed) delivered
         (owed || fst (push_data a d s)) woken waits eof)
| pipe_fin s r p pushed delivered owed woken waits eof :
    pipe_step a task (mkPipe s r p pushed delivered owed woken waits eof)
      (mkPipe (store_fin a s) r p pushed delivered true woken waits eof)
| pipe_wake s r p pushed delivered owed woken waits eof :
    pipe_step a task (mkPipe s r p pushed delivered owed woken waits eof)
      (mkPipe (wake_recv a s) r p pushed delivered false (woken || woken_now task (cell_of a s)) waits eof)
| pipe_other s s' r p pushed delivered owed woken waits eof :
    cell_of a s' = cell_of a s →
    pipe_step a task (mkPipe s r p pushed delivered owed woken waits eof) (mkPipe s' r p pushed delivered owed woken waits eof)
| pipe_poll s r pushed delivered owed woken waits eof room :
    0 <= room → pipe_step a task (mkPipe s r None pushed delivered owed woken waits eof)
      (mkPipe s r (Some (room, poll_read r task room)) pushed delivered owed false false eof)
| pipe_access s r room rest effect pushed delivered owed woken waits eof :
    pipe_step a task (mkPipe s r (Some (room, Step rest effect)) pushed delivered owed woken waits eof)
      (mkPipe (effect s) r (Some (room, rest s)) pushed delivered owed woken waits eof)
| pipe_ready s r r' room bs pushed delivered owed woken waits eof :
    pipe_step a task (mkPipe s r (Some (room, Done (Ready bs, r'))) pushed delivered owed woken waits eof)
      (mkPipe s r' None pushed (delivered ++ bs) owed woken false (eof || (is_nil bs && (0 <? room))))
| pipe_pending s r r' room pushed delivered owed woken waits eof :
    pipe_step a task (mkPipe s r (Some (room, Done (Pending, r'))) pushed delivered owed woken waits eof)
      (mkPipe s r' None pushed delivered owed woken true eof).

(** The phases of a poll, with the bytes the reader holds in each. *)
Definition registered (task : Z) (c : StreamCell Q W) (woken : bool) : Prop := waker_task (recv_waker c) = Some task ∨ woken = true.
Definition has_data (c : StreamCell Q W) : Prop := queue_items (recv_data c) ≠ [].

Inductive phase (a task room : Z) (c : StreamCell Q W) (owed woken : bool) : ReadProg → list Z → Prop :=
| phase_start r : rs_cell r = a → phase a task room c owed woken (poll_read r task room) (rs_leftover r)
| phase_fin r : rs_cell r = a → rs_leftover r = [] → phase a task room c owed woken (read_fin r task room) []
| phase_register r : rs_cell r = a → rs_leftover r = [] → phase a task room c owed woken (read_register r task room) []
| phase_pop r : rs_cell r = a → rs_leftover r = [] → registered task c woken → phase a task room c owed woken (read_pop_again r room) []
| phase_fin_again r : rs_cell r = a → rs_leftover r = [] → registered task c woken → (has_data c → owed = true ∨ woken = true) →
    phase a task room c owed woken (read_fin_again r) []
| phase_ready r bs : rs_cell r = a → (bs = [] → 0 < room → recv_fin c = true) →
    phase a task room c owed woken (Done (Ready bs, r)) (bs ++ rs_leftover r)
| phase_pending r : rs_cell r = a → registered task c woken → (has_data c ∨ recv_fin c = true → owed = true ∨ woken = true) →
    phase a task room c owed woken (Done (Pending, r)) (rs_leftover r).

Definition waiting_ok (task : Z) (c : StreamCell Q W) (owed woken : bool) : Prop :=
  registered task c woken ∧ (has_data c ∨ recv_fin c = true → owed = true ∨ woken = true).

(** The bytes delivered, held and queued are the bytes pushed. *)
Definition pipe_ok (a task : Z) (p : Pipe) : Prop :=
  ∃ c held, cell_of a (pi_shared p) = Some c ∧ rs_cell (pi_stream p) = a ∧ Forall (fun d => d ≠ []) (queue_items (recv_data c)) ∧
    pi_delivered p ++ held ++ concat (queue_items (recv_data c)) = pi_pushed p ∧ (pi_eof p = true → recv_fin c = true) ∧
    match pi_prog p with
    | None => held = rs_leftover (pi_stream p) ∧ (pi_waits p = true → waiting_ok task c (pi_owed p) (pi_woken p))
    | Some (room, prog) => phase a task room c (pi_owed p) (pi_woken p) prog held ∧ 0 <= room
    end.

(** What the engine does between two accesses of the reader. *)
Definition engine_did (task : Z) (c : StreamCell Q W) (owed woken : bool) (c' : StreamCell Q W) (owed' woken' : bool) : Prop :=
  (recv_fin c = true → recv_fin c' = true) ∧
  (registered task c woken → registered task c' woken' ∧
     ((has_data c → owed = true ∨ woken = true) → has_data c' → owed' = true ∨ woken' = true) ∧
     ((has_data c ∨ recv_fin c = true → owed = true ∨ woken = true) → has_data c' ∨ recv_fin c' = true → owed' = true ∨ woken' = true)).

Lemma phase_kept a task room c owed woken c' owed' woken' p held :
  engine_did task c owed woken c' owed' woken' → phase a task room c owed woken p held → phase a task room c' owed' woken' p held.
Proof.
  intros [Hf Hr] Hp. destruct Hp; try (by constructor; auto); destruct Hr as (? & ? & ?); try done; constructor; auto.
Qed.

Lemma pipe_engine a task s s' r p pushed pushed' delivered owed owed' woken woken' waits eof c c' :
  cell_of a s = Some c → cell_of a s' = Some c' → engine_did task c owed woken c' owed' woken' →
  (Forall (fun d => d ≠ []) (queue_items (recv_data c)) → Forall (fun d => d ≠ []) (queue_items (recv_data c'))) →
  (∀ l, l ++ concat (queue_items (recv_data c)) = pushed → l ++ concat (queue_items (recv_data c')) = pushed') →
  pipe_ok a task (mkPipe s r p pushed delivered owed woken waits eof) → pipe_ok a task (mkPipe s' r p pushed' delivered owed' woken' waits eof).
Proof.
  intros Hc Hc' Hd Hne Hb (c0 & held & H1 & H2 & H3 & H4 & H5 & H6). cbn in *. rewrite Hc in H1. injection H1 as <-.
  exists c', held. cbn. split; [done|]. split; [done|]. split; [auto|]. split.
  { rewrite app_assoc in *. by apply Hb. }
  split; [intros He; by apply Hd, H5|]. destruct p as [[room prog]|].
  - destruct H6 as [H6 H7]. split; [by eapply phase_kept|done].
  - destruct H6 as [-> Hw]. split; [done|]. intros Ht. destruct (Hw Ht) as [Hreg Hdat]. destruct Hd as [_ Hd]. destruct (Hd Hreg) as (? & _ & ?).
    by split; auto.
Qed.

Lemma set_cells_lookup a (s : Shared) c : cell_of a (set_cells s (<[a := c]> (sh_cells s))) = Some c.
Proof. unfold cell_of. cbn. by rewrite lookup_insert_eq. Qed.

Lemma push_step a task s r p pushed delivered owed woken waits eof d : d ≠ [] →
  pipe_ok a task (mkPipe s r p pushed delivered owed woken waits eof) →
  pipe_ok a task (mkPipe (snd (push_data a d s)) r p (if fst (push_data a d s) then pushed ++ d else pushed) delivered
    (owed || fst (push_data a d s)) woken waits eof).
Proof.
  intros Hd Hok. pose proof Hok as (c & held & H1 & _). cbn in H1. unfold push_data. pose proof H1 as Hc. unfold cell_of in Hc. rewrite Hc.
  pose proof (queue_push_ok _ (recv_data c) d) as E1. pose proof (queue_push_items _ (recv_data c) d) as E2.
  destruct (queue_push (recv_data c) d) as [ok q]. cbn [fst snd] in *. rewrite <- E1 in E2.
  eapply pipe_engine; [exact H1|apply set_cells_lookup| | | |exact Hok]; cbn [recv_data].
  - split; [done|]. intros Hr. split; [exact Hr|]. unfold has_data. cbn [recv_data recv_fin]. rewrite E2.
    split; intros Hx Hy; (destruct ok; [left; apply orb_true_r|]); rewrite orb_false_r; auto.
  - intros Hf. rewrite E2. destruct ok; [|done]. apply Forall_app. split; [done|]. by apply Forall_singleton.
  - intros l Hl. rewrite E2. destruct ok; [|done]. rewrite concat_app. cbn. by rewrite app_nil_r, app_assoc, Hl.
Qed.

Lemma fin_step a task s r p pushed delivered owed woken waits eof :
  pipe_ok a task (mkPipe s r p pushed delivered owed woken waits eof) →
  pipe_ok a task (mkPipe (store_fin a s) r p pushed delivered true woken waits eof).
Proof.
  intros Hok. pose proof Hok as (c & held & H1 & _). cbn in H1. unfold store_fin. pose proof H1 as Hc. unfold cell_of in Hc. rewrite Hc.
  eapply pipe_engine; [exact H1|apply set_cells_lookup| |done|done|exact Hok]. split; [done|]. intros Hr. split; [exact Hr|]. by split; left.
Qed.

Lemma wake_step a task s r p pushed delivered owed woken waits eof :
  pipe_ok a task (mkPipe s r p pushed delivered owed woken waits eof) →
  pipe_ok a task (mkPipe (wake_recv a s) r p pushed delivered false (woken || woken_now task (cell_of a s)) waits eof).
Proof.
  intros Hok. pose proof Hok as (c & held & H1 & _). cbn in H1. unfold wake_recv. pose proof H1 as Hc. unfold cell_of in Hc. rewrite Hc.
  destruct (waker_wake (recv_waker c)) as [t w] eqn:Ew. eapply pipe_engine; [exact H1| | | | |exact Hok].
  - unfold cell_of. cbn. apply lookup_insert_eq.
  - split; [done|]. intros Hr. assert (Hw : woken || woken_now task (cell_of a s) = true).
    { rewrite H1. cbn. destruct Hr as [Hr| ->]; [|done]. by rewrite bool_decide_true, orb_true_r. }
    rewrite Hw. split; [by right|]. by split; right.
  - done.
  - done.
Qed.

(** Serving a chunk splits it. *)
Lemma serve_phase a task room c owed woken r chunk : 0 <= room → rs_cell r = a → rs_leftover r = [] → chunk ≠ [] →
  phase a task room c owed woken (Done (serve r room chunk)) chunk.
Proof.
  intros Hroom Ha Hl Hne. unfold serve. cbv zeta. set (n := Z.min (len chunk) room). pose proof (len_nonneg chunk).
  assert (E : chunk = takeZ n chunk ++ rs_leftover (if n <? len chunk then set_leftover r (dropZ n chunk) else r)).
  { destruct (Z.ltb_spec n (len chunk)); cbn; [by rewrite takeZ_dropZ|]. rewrite Hl, app_nil_r. unfold takeZ. rewrite take_ge; [done|].
    unfold len in *. lia. }
  enough (Hp : phase a task room c owed woken (Done (Ready (takeZ n chunk), if n <? len chunk then set_leftover r (dropZ n chunk) else r))
    (takeZ n chunk ++ rs_leftover (if n <? len chunk then set_leftover r (dropZ n chunk) else r))) by (rewrite <- E in Hp; exact Hp).
  constructor; [by destruct (n <? len chunk)|]. intros Ht Hr. exfalso.
  assert (Hn : len (takeZ n chunk) = n) by (apply len_takeZ; lia). rewrite Ht, len_nil in Hn. apply Hne, len_0_nil. lia.
Qed.

Lemma phase_eof a task room c owed woken r : rs_cell r = a → rs_leftover r = [] → recv_fin c = true →
  phase a task room c owed woken (Done (Ready [], r)) [].
Proof. intros Ha Hl Hf. pose proof (phase_ready a task room c owed woken r [] Ha (fun _ _ => Hf)) as Hp. by rewrite Hl in Hp. Qed.

Lemma phase_wait a task room c owed woken r : rs_cell r = a → rs_leftover r = [] → waiting_ok task c owed woken →
  phase a task room c owed woken (Done (Pending, r)) [].
Proof. intros Ha Hl [Hr Hd]. pose proof (phase_pending a task room c owed woken r Ha Hr Hd) as Hp. by rewrite Hl in Hp. Qed.

(** A pop: the chunk is served, or the poll goes on with an empty queue. *)
Lemma pop_step a task s r r0 room k pushed delivered owed woken waits eof c :
  cell_of a s = Some c → rs_cell r = a → rs_cell r0 = a → rs_leftover r0 = [] → Forall (fun d => d ≠ []) (queue_items (recv_data c)) →
  delivered ++ concat (queue_items (recv_data c)) = pushed → (eof = true → recv_fin c = true) → 0 <= room →
  (∀ q, queue_items q = [] → phase a task room (mkStreamCell q (recv_waker c) (recv_fin c) (send_waker c)) owed woken k []) →
  pipe_ok a task (mkPipe (snd (pop_data (rs_cell r0) s)) r
    (Some (room, match fst (pop_data (rs_cell r0) s) with Some chunk => Done (serve r0 room chunk) | None => k end))
    pushed delivered owed woken waits eof).
Proof.
  intros Hc Hr Ha Hl Hne Hp He Hroom Hk. unfold pop_data. unfold cell_of in Hc. rewrite Ha, Hc.
  pose proof (queue_pop_head _ (recv_data c)) as E1. pose proof (queue_pop_items _ (recv_data c)) as E2.
  destruct (queue_pop (recv_data c)) as [d q]. cbn [fst snd] in *.
  exists (mkStreamCell q (recv_waker c) (recv_fin c) (send_waker c)), (default [] d).
  cbn [pi_shared pi_stream pi_prog pi_pushed pi_delivered pi_owed pi_woken pi_eof recv_data recv_fin].
  split; [by apply set_cells_lookup|]. split; [done|].
  destruct (queue_items (recv_data c)) as [|d0 items] eqn:Ei; cbn in E1, E2; subst d; rewrite E2; cbn [default].
  - split; [done|]. split; [done|]. split; [done|]. split; [by apply Hk|done].
  - apply Forall_cons in Hne as [Hd0 Hne]. split; [done|]. split; [by rewrite <- Hp|]. split; [done|]. split; [by apply serve_phase|done].
Qed.

(** An access of the reader. *)
Lemma access_step a task s r room rest effect pushed delivered owed woken waits eof :
  pipe_ok a task (mkPipe s r (Some (room, Step rest effect)) pushed delivered owed woken waits eof) →
  pipe_ok a task (mkPipe (effect s) r (Some (room, rest s)) pushed delivered owed woken waits eof).
Proof.
  intros (c & held & H1 & H2 & H3 & H4 & H5 & [H6 H7]). cbn in *. pose proof H1 as Hc. unfold cell_of in Hc.
  remember (Step rest effect) as p eqn:Hp. destruct H6 as [r0 Ha|r0 Ha Hl|r0 Ha Hl|r0 Ha Hl Hr|r0 Ha Hl Hr Hd| |]; [..|done|done].
  - unfold poll_read in Hp. destruct (rs_leftover r0) as [|b l] eqn:El; [|done]. injection Hp as <- <-.
    eapply pop_step; try done. intros q Hq. by constructor.
  - unfold read_fin in Hp. injection Hp as <- <-. cbn. unfold load_fin. cbn. rewrite Ha, Hc. exists c, []. cbn. do 5 (split; [done|]).
    split; [|done]. destruct (recv_fin c) eqn:Ef; [by apply phase_eof|by constructor].
  - unfold read_register in Hp. injection Hp as <- <-. cbn. rewrite Ha, Hc.
    eexists (mkStreamCell (recv_data c) (waker_register (recv_waker c) task) (recv_fin c) (send_waker c)), []. cbn.
    split; [by apply set_cells_lookup|]. do 4 (split; [done|]). split; [|done]. constructor; [done|done|]. left. cbn. by apply waker_register_task.
  - unfold read_pop_again in Hp. injection Hp as <- <-. eapply pop_step; try done. intros q Hq. constructor; [done|done|done|]. unfold has_data. cbn.
    by rewrite Hq.
  - unfold read_fin_again in Hp. injection Hp as <- <-. cbn. unfold load_fin. cbn. rewrite Ha, Hc. exists c, []. cbn. do 5 (split; [done|]).
    split; [|done]. destruct (recv_fin c) eqn:Ef; [by apply phase_eof|]. apply phase_wait; [done|done|]. split; [done|].
    intros [?|?]; [auto|congruence].
Qed.

Lemma pipe_step_ok a task p p' : pipe_step a task p p' → pipe_ok a task p → pipe_ok a task p'.
Proof.
  intros Hs. destruct Hs as [s r p pushed delivered owed woken waits eof d Hd| | |s s' r p pushed delivered owed woken waits eof Hc|
    s r pushed delivered owed woken waits eof room Hroom| |s r r' room bs pushed delivered owed woken waits eof|s r r' room pushed delivered owed woken waits eof].
  - by apply push_step.
  - apply fin_step.
  - apply wake_step.
  - intros (c & held & H1 & H2 & H3 & H4 & H5 & H6). cbn in *. exists c, held. cbn. by rewrite Hc.
  - intros (c & held & H1 & H2 & H3 & H4 & H5 & [-> H6]). cbn in *. exists c, (rs_leftover r). cbn. do 5 (split; [done|]). split; [by constructor|done].
  - apply access_step.
  - intros (c & held & H1 & H2 & H3 & H4 & H5 & [H6 H7]). cbn in *. remember (Done (Ready bs, r')) as p eqn:Hp. destruct H6 as [r0 Ha|r0|r0|r0|r0|r0 bs0 Ha Hf|r0]; try done.
    + unfold poll_read in Hp. destruct (rs_leftover r0) as [|b l] eqn:El; [done|]. rewrite <- El in *. injection Hp as <- <-.
      assert (Hne : rs_leftover r0 ≠ []) by (by rewrite El). clear El b l.
      exists c, (dropZ (Z.min (len (rs_leftover r0)) room) (rs_leftover r0)). cbn. split; [done|]. split; [done|]. split; [done|].
      split; [by rewrite <- app_assoc, (app_assoc (takeZ _ _)), takeZ_dropZ|]. split; [|done]. intros Hx. apply orb_true_iff in Hx as [Hx|Hx]; [auto|].
      exfalso. apply andb_true_iff in Hx as [Hx Hr%Z.ltb_lt]. pose proof (len_nonneg (rs_leftover r0)).
      assert (Hn : len (takeZ (Z.min (len (rs_leftover r0)) room) (rs_leftover r0)) = Z.min (len (rs_leftover r0)) room) by (apply len_takeZ; lia).
      destruct (takeZ _ _); [|done]. rewrite len_nil in Hn. apply Hne, len_0_nil. lia.
    + injection Hp as -> ->. exists c, (rs_leftover r'). cbn. split; [done|]. split; [done|]. split; [done|]. split; [by rewrite <- H4, <- !app_assoc|].
      split; [|done]. intros Hx. apply orb_true_iff in Hx as [Hx|Hx]; [auto|]. apply andb_true_iff in Hx as [Hx Hr%Z.ltb_lt]. destruct bs; [by apply Hf|done].
  - intros (c & held & H1 & H2 & H3 & H4 & H5 & [H6 H7]). cbn in *. remember (Done (Pending, r')) as p eqn:Hp. destruct H6 as [r0 Ha|r0|r0|r0|r0|r0 bs0 Ha Hf|r0 Ha Hr Hd]; try done.
    + unfold poll_read in Hp. by destruct (rs_leftover r0).
    + injection Hp as ->. exists c, (rs_leftover r'). cbn. do 5 (split; [done|]). split; [done|]. by intros _.
Qed.

Lemma pipe_run_ok a task p p' : rtc (pipe_step a task) p p' → pipe_ok a task p → pipe_ok a task p'.
Proof. induction 1 as [|p1 p2 p3 Hs _ IH]; [done|]. intros Hok. by eapply IH, pipe_step_ok. Qed.

(** The engine has made the cell and the application a handle for it; nothing was pushed yet. *)
Definition pipe_start (a : Z) (s : Shared) (state slot : Z) (id : StreamId) : Pipe :=
  mkPipe s (RecvStream_new state slot id a) None [] [] false false false false.

(** C15: whatever the engine pushes and the reader polls, in whatever interleaving of their accesses, the bytes delivered are a
    prefix of the bytes pushed; between polls the rest is in the handle and in the queue; the end of the stream is only reported
    when the engine has announced it, and a reader that waits while there is something to read has been or is about to be woken. *)
Theorem received_bytes_piped a task s state slot id p :
  cell_of a s = Some StreamCell_new → rtc (pipe_step a task) (pipe_start a s state slot id) p →
  ∃ c, cell_of a (pi_shared p) = Some c ∧ pi_delivered p `prefix_of` pi_pushed p ∧
    (pi_eof p = true → recv_fin c = true) ∧
    (pi_prog p = None → pi_delivered p ++ rs_leftover (pi_stream p) ++ concat (queue_items (recv_data c)) = pi_pushed p) ∧
    (pi_prog p = None → pi_waits p = true → pi_owed p = false → queue_items (recv_data c) ≠ [] ∨ recv_fin c = true → pi_woken p = true).
Proof.
  intros Hc Hr. assert (Hok : pipe_ok a task p).
  { apply (pipe_run_ok _ _ _ _ Hr). exists StreamCell_new, []. cbn. rewrite queue_new_items.
    by repeat split. }
  destruct Hok as (c & held & H1 & H2 & H3 & H4 & H5 & H6). exists c. split; [done|]. split; [by exists (held ++ concat (queue_items (recv_data c)))|].
  split; [done|]. split; intros Hp; rewrite Hp in H6; destruct H6 as [-> Hw]; [done|].
  intros Ht Ho Hd. destruct (Hw Ht) as [_ Hx]. destruct (Hx Hd) as [?|?]; congruence.
Qed.
End Pipe.

(** * Instances *)

#[export] Instance option_AtomicWaker : AtomicWaker (option Z) := {
  waker_task w := w; waker_new := None; waker_register _ t := Some t; waker_wake w := (w, None)
}.
#[export] Instance option_AtomicWakerOk : AtomicWakerOk (option Z).
Proof. by split. Qed.

Notation SampleShared := (Shared ListQueue (option Z)).
Definition sample_shared (events : list ConnEvent) (cmds : list TileAppCommand) (cap : Z) : SampleShared :=
  mkShared {[0 := StreamCell_new]} {[1 := mkConnState (mkListQueue EVT_QUEUE_CAP events) None]} 2 (mkListQueue cap cmds)
    (queue_new QUEUE_CAP) None (mkEngineWake true true false) [].
Definition sample_stream_id : StreamId := StreamId_new Client Bi 0.
Definition sample_recv : RecvStream := RecvStream_new 1 0 sample_stream_id 0.
Definition sample_send : SendStream := SendStream_new 1 0 sample_stream_id 0.

(** * Where the code does less than it means to *)

(** The engine pushes the last bytes of a stream and announces its end between the reader's look into the queue and its look at
    the flag: the reader reports the end of the stream, and the bytes stay in the queue. *)
Definition last_bytes (n : nat) (s : SampleShared) : SampleShared :=
  if decide (n = 1%nat) then store_fin 0 (snd (push_data 0 [104; 105] s)) else s.
Lemma end_before_last_bytes :
  let '(r, s) := prog_run_among (poll_read sample_recv 5 10) last_bytes 0 (sample_shared [] [] 4) in
  fst r = Ready [] ∧ (queue_items ∘ recv_data <$> sh_cells s !! 0) = Some [[104; 105]].
Proof. split; reflexivity. Qed.

(** A stream the peer opened waits behind two other events: [accept_bi] returns [Pending] and leaves it in the queue. *)
Lemma accept_bi_passes_over :
  let uni := StreamId_new Client Uni 0 in
  let '(r, s) := prog_run (poll_accept_bi (mkAppConnection 1 0) 5)
    (sample_shared [LocalStream sample_stream_id 7; PeerUniStream uni 8; PeerBiStream sample_stream_id 0] [] 4) in
  r = Pending ∧ (queue_items ∘ evt_queue <$> sh_conns s !! 1) =
    Some [PeerBiStream sample_stream_id 0; LocalStream sample_stream_id 7; PeerUniStream uni 8].
Proof. split; reflexivity. Qed.

(** When the queue of commands is full the command that finishes a stream is lost, and [poll_shutdown] reports success. *)
Lemma shutdown_lost :
  let '(r, s) := prog_run (poll_shutdown sample_send) (sample_shared [] [CmdCloseConn 3] 1) in
  r = Ready tt ∧ queue_items (sh_cmds s) = [CmdCloseConn 3].
Proof. split; reflexivity. Qed.

(** * Witnesses *)

(** The engine pushes a chunk, and the reader takes a byte of it. *)
Lemma one_byte_read : ∃ p : Pipe (Q := ListQueue) (W := option Z),
  rtc (pipe_step 0 5) (pipe_start 0 (sample_shared [] [] 4) 1 0 sample_stream_id) p ∧ pi_delivered p = [7] ∧ pi_pushed p = [7; 8].
Proof.
  eexists. split.
  - eapply rtc_l; [apply (pipe_push 0 5 _ _ _ _ _ _ _ _ _ [7; 8]); discriminate|].
    eapply rtc_l; [apply (pipe_poll 0 5 _ _ _ _ _ _ _ _ 1); lia|]. eapply rtc_l; [apply pipe_access|]. eapply rtc_l; [apply pipe_ready|]. apply rtc_refl.
  - split; reflexivity.
Qed.

Lemma received_bytes_piped_witness :
  ∃ p : Pipe (Q := ListQueue) (W := option Z), pi_delivered p = [7] ∧ pi_pushed p = [7; 8] ∧ pi_delivered p `prefix_of` pi_pushed p.
Proof.
  destruct one_byte_read as (p & Hr & Hd & Hp). exists p. split; [exact Hd|]. split; [exact Hp|].
  destruct (received_bytes_piped 0 5 (sample_shared [] [] 4) 1 0 sample_stream_id p eq_refl Hr) as (c & _ & Hx & _). exact Hx.
Defined.
