(* ===== verification/EngineTile.v ===== *)
(** The loop of an engine thread: [run_engine] of [quac/src/engine_tile.rs] with the producers that wake it, [wake_engine] of
    [quac/src/bridge.rs] and the reader of [quac-network-tile-socket].

    The engine looks into its queues one after the other, spins for a while when they are empty, then announces in a flag that it
    is going to sleep, looks into its queues once more and parks.  A producer pushes into a queue, then looks at the flag and
    unparks the engine when it is set.  Threads interleave at these accesses, which take effect in one order for all of them.  The
    source asks for less: it stores the flag with [Release] and loads it with [Acquire], which lets the store take effect after later
    loads of the engine, unless the operations of the queue prevent it.  The last section shows what this would allow. *)
From stdpp Require Import list relations.
From S2P Require Import Prelude.
Open Scope nat_scope.

Definition SPIN_ITERS : nat := 200.

(** Which call of [run_once] of the loop is running: the first, one of the spinning loop, or the check after the flag is set. *)
Inductive Call : Type := First | Spinning (idle : nat) (any_work : bool) | Checking.

(** Where the engine is: before a pop of queue [k] in a call that has found work or not, before it sets the flag, before
    [park], in [park], and before it clears the flag.  [deadline] says whether it parks with a timeout. *)
Inductive EnginePc : Type :=
| Looking (c : Call) (k : nat) (did_work : bool)
| Committing
| BeforePark (deadline : bool)
| Asleep (deadline : bool)
| AfterPark.

(** Where a producer is: between pushes, after a push into queue [k], and before [unpark] because the flag was set. *)
Inductive ProducerPc : Type := Outside | Pushed (k : nat) | Unparking (k : nat).

(** The numbers of packets and commands in the queues, the flag, the token [unpark] leaves, and the threads. *)
Record Parking : Type := mkParking {
  pk_queues : list nat; pk_parked : bool; pk_token : bool; pk_engine : EnginePc; pk_producers : list ProducerPc
}.

(** After a call of [run_once]. *)
Definition after_call (c : Call) (did_work : bool) (deadline : bool) : EnginePc :=
  match c with
  | First => if did_work then Looking First 0 false else Looking (Spinning 0 false) 0 false
  | Spinning idle any_work =>
      let '(idle, any_work) := if did_work then (0, true) else (S idle, any_work) in
      if idle <? SPIN_ITERS then Looking (Spinning idle any_work) 0 false
      else if any_work then Looking First 0 false else Committing
  | Checking => if did_work then AfterPark else BeforePark deadline
  end.

Inductive parking_step : Parking → Parking → Prop :=
(* the engine *)
| engine_pops q parked token c k w ps n :
    q !! k = Some (S n) →
    parking_step (mkParking q parked token (Looking c k w) ps) (mkParking (<[k := n]> q) parked token (Looking c k true) ps)
| engine_passes q parked token c k w ps :
    q !! k = Some 0 → S k < length q →
    parking_step (mkParking q parked token (Looking c k w) ps) (mkParking q parked token (Looking c (S k) w) ps)
| engine_returns q parked token c k w ps other deadline :
    q !! k = Some 0 → S k = length q →
    parking_step (mkParking q parked token (Looking c k w) ps) (mkParking q parked token (after_call c (w || other) deadline) ps)
| engine_commits q parked token ps :
    parking_step (mkParking q parked token Committing ps) (mkParking q true token (Looking Checking 0 false) ps)
| engine_parks q parked deadline ps :
    parking_step (mkParking q parked false (BeforePark deadline) ps) (mkParking q parked false (Asleep deadline) ps)
| engine_passes_park q parked deadline ps :
    parking_step (mkParking q parked true (BeforePark deadline) ps) (mkParking q parked false AfterPark ps)
| engine_wakes q parked deadline ps :
    parking_step (mkParking q parked true (Asleep deadline) ps) (mkParking q parked false AfterPark ps)
| engine_times_out q parked token ps :
    parking_step (mkParking q parked token (Asleep true) ps) (mkParking q parked token AfterPark ps)
| engine_goes_on q parked token ps :
    parking_step (mkParking q parked token AfterPark ps) (mkParking q false token (Looking First 0 false) ps)
(* producer [i] *)
| producer_pushes q parked token e ps i k n :
    ps !! i = Some Outside → q !! k = Some n →
    parking_step (mkParking q parked token e ps) (mkParking (<[k := S n]> q) parked token e (<[i := Pushed k]> ps))
| producer_finds_full q parked token e ps i k :
    ps !! i = Some Outside → parking_step (mkParking q parked token e ps) (mkParking q parked token e (<[i := Pushed k]> ps))
| producer_looks q parked token e ps i k :
    ps !! i = Some (Pushed k) →
    parking_step (mkParking q parked token e ps) (mkParking q parked token e (<[i := if parked : bool then Unparking k else Outside]> ps))
| producer_unparks q parked token e ps i k :
    ps !! i = Some (Unparking k) →
    parking_step (mkParking q parked token e ps) (mkParking q parked true e (<[i := Outside]> ps)).

(** The thread handle is published, and the engine starts its loop. *)
Definition parking_start (num_queues num_producers : nat) : Parking :=
  mkParking (replicate num_queues 0) false false (Looking First 0 false) (replicate num_producers Outside).

(** * The invariant *)

(** The flag is set from the commitment to the end of the sleep. *)
Definition committed (e : EnginePc) : bool :=
  match e with Looking Checking _ _ | BeforePark _ | Asleep _ | AfterPark => true | _ => false end.

(** The queues the engine has found empty since it set the flag, and will not look into before it sleeps. *)
Definition checked (e : EnginePc) (k : nat) : Prop :=
  match e with Looking Checking j _ => k < j | BeforePark _ | Asleep _ => True | _ => False end.

(** A producer that is about to look at the flag or to unpark. *)
Definition waking (ps : list ProducerPc) (k : nat) : Prop := ∃ i, ps !! i = Some (Pushed k) ∨ ps !! i = Some (Unparking k).

Record parking_ok (p : Parking) : Prop := {
  po_flag : pk_parked p = committed (pk_engine p);
  po_queues : 0 < length (pk_queues p);
  po_checked : ∀ k n, checked (pk_engine p) k → pk_queues p !! k = Some (S n) → pk_token p = true ∨ waking (pk_producers p) k
}.

(** A producer that moves without dropping its duty. *)
Lemma waking_kept ps i pc pc' k : ps !! i = Some pc →
  (pc = Pushed k ∨ pc = Unparking k → pc' = Pushed k ∨ pc' = Unparking k) → waking ps k → waking (<[i := pc']> ps) k.
Proof.
  intros Hi Hd (j & Hj). destruct (decide (i = j)) as [<-|Hne].
  - exists i. rewrite list_lookup_insert_eq by (by eapply lookup_lt_Some). rewrite Hi in Hj.
    destruct Hd as [->| ->]; [|by left|by right]. destruct Hj as [[=]|[=]]; auto.
  - exists j. by rewrite list_lookup_insert_ne.
Qed.

Lemma after_call_committed c w d : committed (after_call c w d) = match c with Checking => true | _ => false end.
Proof. destruct c; unfold after_call; repeat case_match; simplify_eq; done. Qed.

Lemma after_call_checked c w d k : checked (after_call c w d) k → c = Checking.
Proof. destruct c; unfold after_call; repeat case_match; simplify_eq; done. Qed.

Lemma parking_step_ok p p' : parking_step p p' → parking_ok p → parking_ok p'.
Proof.
  intros Hs [Hf Hq Hc]. destruct Hs as [q parked token c k w ps n Hk|q parked token c k w ps Hk Hlt|q parked token c k w ps other d Hk Hl|
    q parked token ps|q parked d ps|q parked d ps|q parked d ps|q parked token ps|q parked token ps|q parked token e ps i k n Hi Hk|
    q parked token e ps i k Hi|q parked token e ps i k Hi|q parked token e ps i k Hi];
    cbn [pk_queues pk_parked pk_token pk_engine pk_producers] in *; split; cbn [pk_queues pk_parked pk_token pk_engine pk_producers]; try done;
    rewrite ?length_insert; try done.
  - intros j m Hj Hm. apply (Hc j m); [done|]. destruct c; try done. cbn in Hj. by rewrite list_lookup_insert_ne in Hm by lia.
  - intros j m Hj Hm. destruct c; try done. cbn in Hj. destruct (decide (j = k)) as [->|]; [congruence|]. apply (Hc j m); [cbn; lia|done].
  - rewrite after_call_committed. by destruct c.
  - intros j m Hj Hm. pose proof (after_call_checked _ _ _ _ Hj) as ->. pose proof (lookup_lt_Some _ _ _ Hm).
    destruct (decide (j = k)) as [->|]; [congruence|]. apply (Hc j m); [cbn; lia|done].
  - intros j m Hj. cbn in Hj. lia.
  - intros j m Hj Hm. destruct (decide (j = k)) as [->|Hne].
    + right. exists i. left. apply list_lookup_insert_eq. by eapply lookup_lt_Some.
    + rewrite list_lookup_insert_ne in Hm by done. destruct (Hc j m Hj Hm) as [?|Hw]; [by left|right]. eapply waking_kept; [done| |done]. by intros [?|?].
  - intros j m Hj Hm. destruct (Hc j m Hj Hm) as [?|Hw]; [by left|right]. eapply waking_kept; [done| |done]. by intros [?|?].
  - intros j m Hj Hm. destruct (Hc j m Hj Hm) as [?|Hw]; [by left|right]. eapply waking_kept; [done| |done]. intros [[= ->]|?]; [|done].
    rewrite Hf. assert (committed e = true) as -> by (destruct e as [[]| | | |]; done). by right.
  - intros j m Hj Hm. by left.
Qed.

Lemma parking_run_ok p p' : rtc parking_step p p' → parking_ok p → parking_ok p'.
Proof. induction 1 as [|p1 p2 p3 Hs _ IH]; [done|]. intros Hok. by eapply IH, parking_step_ok. Qed.


(** The engine finds its queue empty in every call, up to its commitment. *)
Definition before_commit (p p' : Parking) : Prop := parking_step p p' ∧ pk_engine p ≠ Committing.
Lemma spins token ps idle : idle <= SPIN_ITERS → idle ≠ 0 →
  rtc before_commit (mkParking [0] false token (Looking (Spinning (SPIN_ITERS - idle) false) 0 false) ps) (mkParking [0] false token Committing ps).
Proof.
  induction idle as [|idle IH]; [done|]. intros Hi _. eapply rtc_l; [by split; [apply (engine_returns _ _ _ _ _ _ _ false false)|]|].
  cbn [after_call orb]. replace (S (SPIN_ITERS - S idle)) with (SPIN_ITERS - idle) by lia.
  destruct (decide (idle = 0)) as [->|Hne].
  - rewrite Nat.sub_0_r, Nat.ltb_irrefl. apply rtc_refl.
  - destruct (Nat.ltb_spec (SPIN_ITERS - idle) SPIN_ITERS); [|lia]. by apply IH; [lia|].
Qed.
Lemma reaches_commit : rtc before_commit (parking_start 1 1) (mkParking [0] false false Committing [Outside]).
Proof.
  eapply rtc_l; [by split; [apply (engine_returns _ _ _ _ _ _ _ false false)|]|]. cbn [after_call orb]. by apply (spins false [Outside] SPIN_ITERS).
Qed.

(** It commits, finds its queue empty once more and falls asleep. *)
Lemma falls_asleep : rtc parking_step (parking_start 1 1) (mkParking [0] true false (Asleep false) [Outside]).
Proof.
  etransitivity; [eapply rtc_subrel; [|exact reaches_commit]; by intros ?? [? _]|]. eapply rtc_l; [apply engine_commits|].
  eapply rtc_l; [by apply (engine_returns _ _ _ _ _ _ _ false false)|]. eapply rtc_l; [apply engine_parks|]. apply rtc_refl.
Qed.


(** * Delayed stores *)

(** The commitment of the engine is a store that other threads may see later; [Some] is the value on its way. *)
Inductive delayed_step : Parking * option bool → Parking * option bool → Prop :=
| commits_unseen q parked token ps :
    delayed_step (mkParking q parked token Committing ps, None) (mkParking q parked token (Looking Checking 0 false) ps, Some true)
| store_seen q parked token e ps v :
    delayed_step (mkParking q parked token e ps, Some v) (mkParking q v token e ps, None)
| as_before p p' v :
    parking_step p p' → (pk_engine p = Committing → pk_engine p' = Committing) → delayed_step (p, v) (p', v).

(** A producer pushes and looks at the flag before the store is seen: the engine sleeps with a packet in its queue, the flag is
    set, and nobody is going to wake it. *)
Lemma wakeup_lost_when_delayed : rtc delayed_step (parking_start 1 1, None) (mkParking [1] true false (Asleep false) [Outside], None).
Proof.
  etransitivity; [apply (rtc_congruence (fun p => (p, None)) delayed_step (R := before_commit)); [|exact reaches_commit]; intros p p' [Hs Hc]; by apply as_before|].
  eapply rtc_l; [apply commits_unseen|].
  eapply rtc_l; [apply as_before; [by apply (engine_returns _ _ _ _ _ _ _ false false)|done]|]. cbn [after_call orb].
  eapply rtc_l; [apply as_before; [by apply (producer_pushes _ _ _ _ _ 0 0 0)|done]|].
  eapply rtc_l; [apply as_before; [by apply (producer_looks _ _ _ _ _ 0 0)|done]|].
  eapply rtc_l; [apply as_before; [apply engine_parks|done]|]. apply rtc_once, store_seen.
Qed.
