(* ===== verification/TileEngine.v ===== *)
(** The engine: [TileEngine] of [quac/src/tile_engine.rs], which drives an endpoint and its connections.

    Packets come from the queues of the readers, commands from the queue of the application; datagrams go to the queue of a
    writer.  Every loop that ends when a connection has nothing left to say is bounded by [turns], and an operation that would
    need more yields [None]. *)
From stdpp Require Import gmap sorting.
From S2P Require Import Prelude Coding RangeSet Ids Shared Frame Float Packet TransportParams Token TokenCache Assembler Recv Send.
From S2P Require Import PendingStreams Retransmits CidQueue CidState Streams Dedup PendingAcks Mtud Timer AckFrequency Rtt.
From S2P Require Import Congestion Pacing Datagrams Spaces PacketCrypto Config Paths Connection ConnRecovery ConnReceive.
From S2P Require Import PacketBuilder ConnTransmit CidGenerator EndpointIndex Endpoint TileNet Bridge.
Open Scope Z_scope.

Definition MAX_DATAGRAMS : Z := 10.
Definition CMD_QUEUE_CAP : Z := 4096.
(** The capacity send buffers are made with. *)
Definition SEND_BUF_CAP : Z := 65536.
Definition MAX_CHUNK : Z := 65536.

Definition map_ecn_to_proto (e : NetEcn) : EcnCodepoint := match e with NetEct0 => Ect0 | NetEct1 => Ect1 | NetCe => Ce end.
Definition map_ecn_from_proto (e : EcnCodepoint) : option NetEcn :=
  Some (match e with Ect0 => NetEct0 | Ect1 => NetEct1 | Ce => NetCe end).

(** The entries of a slab in the order of their keys. *)
Definition slab_list {SL} `{Slab SL} {A} (s : SL A) : list (Z * A) :=
  omap (fun k => (fun a => (k, a)) <$> slab_map s !! k) (merge_sort Z.le (elements (dom (slab_map s)))).

Section Engine.
Context {C : Type} {HC : Controller C} {H : Type} {HH : Heap H} {T : Type} {HT : Session T} {R : Type} {HR : Rng R}
  {TS : Type} {HTS : TokenStore TS}.
Context {HRC : RngCore R} {HER : EndpointRng R} {G : Type} {HG : ConnectionIdGenerator G} {SL : Type → Type} {HS : Slab SL}
  {SC : Type} {HSC : CryptoServerConfig SC T} {L : Type} {HL : TokenLog L}.
Context {Q : Type → Type} {HQ : ArrayQueue Q} {W : Type} {HW : AtomicWaker W}.
Context (max_instant : Z) (crypto_turns cid_turns transmit_turns : nat) (pick : gset StreamId → option StreamId).
Local Notation Connection := (Connection C H T R TS).
Local Notation Endpoint := (Endpoint C R G SL SC L).

Record ConnectionSlot : Type := mkSlot {
  sl_handle : ConnectionHandle; sl_inner : Connection; sl_send_buf : list Z; sl_next_timeout : option Z;
  sl_has_pending_send : bool; sl_streams : gmap StreamId Z; sl_conn_state : Z
}.
Definition set_inner (s : ConnectionSlot) (v : Connection) : ConnectionSlot :=
  mkSlot (sl_handle s) v (sl_send_buf s) (sl_next_timeout s) (sl_has_pending_send s) (sl_streams s) (sl_conn_state s).
Definition set_send_buf (s : ConnectionSlot) (v : list Z) : ConnectionSlot :=
  mkSlot (sl_handle s) (sl_inner s) v (sl_next_timeout s) (sl_has_pending_send s) (sl_streams s) (sl_conn_state s).
Definition set_next_timeout (s : ConnectionSlot) (v : option Z) : ConnectionSlot :=
  mkSlot (sl_handle s) (sl_inner s) (sl_send_buf s) v (sl_has_pending_send s) (sl_streams s) (sl_conn_state s).
Definition set_pending_flag (s : ConnectionSlot) (v : bool) : ConnectionSlot :=
  mkSlot (sl_handle s) (sl_inner s) (sl_send_buf s) (sl_next_timeout s) v (sl_streams s) (sl_conn_state s).
Definition set_streams (s : ConnectionSlot) (v : gmap StreamId Z) : ConnectionSlot :=
  mkSlot (sl_handle s) (sl_inner s) (sl_send_buf s) (sl_next_timeout s) (sl_has_pending_send s) v (sl_conn_state s).

(** [TileEngine]; the command queue, the queue of new connections and the parking state are in [te_shared]. *)
Record TileEngine : Type := mkTileEngine {
  te_endpoint : Endpoint; te_server_config : ServerSettings C SC L; te_endpoint_scratch : list Z; te_connections : SL ConnectionSlot;
  te_ch_to_slot : gmap Z Z; te_rx_queues : list (Q RxPacket); te_tx_queue : Q TxPacket; te_shared : Shared Q W;
  te_pending_send : list Z; te_due_slots : list Z
}.
Definition set_endpoint (e : TileEngine) (v : Endpoint) : TileEngine :=
  mkTileEngine v (te_server_config e) (te_endpoint_scratch e) (te_connections e) (te_ch_to_slot e) (te_rx_queues e) (te_tx_queue e)
    (te_shared e) (te_pending_send e) (te_due_slots e).
Definition set_scratch (e : TileEngine) (v : list Z) : TileEngine :=
  mkTileEngine (te_endpoint e) (te_server_config e) v (te_connections e) (te_ch_to_slot e) (te_rx_queues e) (te_tx_queue e)
    (te_shared e) (te_pending_send e) (te_due_slots e).
Definition set_slots (e : TileEngine) (v : SL ConnectionSlot) (m : gmap Z Z) : TileEngine :=
  mkTileEngine (te_endpoint e) (te_server_config e) (te_endpoint_scratch e) v m (te_rx_queues e) (te_tx_queue e)
    (te_shared e) (te_pending_send e) (te_due_slots e).
Definition set_rx_queues (e : TileEngine) (v : list (Q RxPacket)) : TileEngine :=
  mkTileEngine (te_endpoint e) (te_server_config e) (te_endpoint_scratch e) (te_connections e) (te_ch_to_slot e) v (te_tx_queue e)
    (te_shared e) (te_pending_send e) (te_due_slots e).
Definition set_tx_queue (e : TileEngine) (v : Q TxPacket) : TileEngine :=
  mkTileEngine (te_endpoint e) (te_server_config e) (te_endpoint_scratch e) (te_connections e) (te_ch_to_slot e) (te_rx_queues e) v
    (te_shared e) (te_pending_send e) (te_due_slots e).
Definition set_shared (e : TileEngine) (v : Shared Q W) : TileEngine :=
  mkTileEngine (te_endpoint e) (te_server_config e) (te_endpoint_scratch e) (te_connections e) (te_ch_to_slot e) (te_rx_queues e)
    (te_tx_queue e) v (te_pending_send e) (te_due_slots e).
Definition set_pending_send (e : TileEngine) (v : list Z) : TileEngine :=
  mkTileEngine (te_endpoint e) (te_server_config e) (te_endpoint_scratch e) (te_connections e) (te_ch_to_slot e) (te_rx_queues e)
    (te_tx_queue e) (te_shared e) v (te_due_slots e).
Definition set_due_slots (e : TileEngine) (v : list Z) : TileEngine :=
  mkTileEngine (te_endpoint e) (te_server_config e) (te_endpoint_scratch e) (te_connections e) (te_ch_to_slot e) (te_rx_queues e)
    (te_tx_queue e) (te_shared e) (te_pending_send e) v.

(** [TileEngine::new]; the queues come from the tile set. *)
Definition TileEngine_new (os_rng : R) (rx_queues : list (Q RxPacket)) (tx_queue : Q TxPacket) (incoming : Q AppConnection)
    (incoming_waker : W) (endpoint_config : EndpointConfig G) (server_config : ServerSettings C SC L) : TileEngine :=
  mkTileEngine (Endpoint_new os_rng endpoint_config (Some server_config) true) server_config [] slab_new ∅ rx_queues tx_queue
    (mkShared ∅ ∅ 0 (queue_new CMD_QUEUE_CAP) incoming incoming_waker (mkEngineWake false false false) []) [] [].

(** * Slots *)

Definition get_slot (e : TileEngine) (slot_idx : Z) : option ConnectionSlot := slab_map (te_connections e) !! slot_idx.
Definition put_slot (e : TileEngine) (slot_idx : Z) (s : ConnectionSlot) : TileEngine :=
  set_slots e (slab_set (te_connections e) slot_idx s) (te_ch_to_slot e).

(** [if !slot.has_pending_send { slot.has_pending_send = true; self.pending_send.push(slot_idx); }] after a change of the slot. *)
Definition put_and_queue (e : TileEngine) (slot_idx : Z) (s : ConnectionSlot) : TileEngine :=
  if sl_has_pending_send s then put_slot e slot_idx s
  else let e := put_slot e slot_idx (set_pending_flag s true) in set_pending_send e (te_pending_send e ++ [slot_idx]).

Definition push_tx (e : TileEngine) (t : Transmit) (payload : list Z) : TileEngine :=
  set_tx_queue e (snd (queue_push (te_tx_queue e)
    (mkTxPacket (t_destination t) (match t_ecn t with Some x => map_ecn_from_proto x | None => None end) payload (t_segment_size t) (t_src_ip t)))).

Definition enqueue_proto_transmit (e : TileEngine) (transmit : Transmit) : TileEngine :=
  let size := t_size transmit in
  if (size =? 0) || (len (te_endpoint_scratch e) <? size) then e
  else push_tx e transmit (takeZ size (te_endpoint_scratch e)).

(** * Streams *)

(** [slot.inner.streams().accept(dir)] and [open(dir)]. *)
Definition slot_accept (s : ConnectionSlot) (d : Dir) : M (option StreamId * ConnectionSlot) :=
  '(id, st) ← Streams.accept (c_streams (sl_inner s)) d;
  mret (id, set_inner s (set_c_streams (sl_inner s) st)).
Definition slot_open (s : ConnectionSlot) (d : Dir) : M (option StreamId * ConnectionSlot) :=
  '(id, st) ← Streams.open (c_streams (sl_inner s)) (is_closed (c_state (sl_inner s))) d;
  mret (id, set_inner s (set_c_streams (sl_inner s) st)).

Definition open_stream_cell (e : TileEngine) (slot_idx : Z) (id : StreamId) (local : bool) : TileEngine :=
  let a := sh_next (te_shared e) in
  let sh := set_next_address (set_cells (te_shared e) (<[a := StreamCell_new]> (sh_cells (te_shared e)))) (a + 1) in
  let event := if local then LocalStream id a else if decide (dir id = Bi) then PeerBiStream id a else PeerUniStream id a in
  match get_slot e slot_idx with
  | None => e
  | Some slot =>
      let e := put_slot e slot_idx (set_streams slot (<[id := a]> (sl_streams slot))) in
      set_shared e (wake_evt (sl_conn_state slot) (push_event (sl_conn_state slot) event sh))
  end.

(** The loop over the chunks of a stream: it ends when there is no room left for another one, at the end of the stream or when
    nothing more can be read. *)
Fixpoint read_chunks (room : nat) (c : Chunks) (s : StreamsState H) (chunks_local : list (list Z))
    : M (list (list Z) * bool * Chunks * StreamsState H) :=
  match room with
  | O => mret (chunks_local, false, c, s)
  | S room =>
      '(r, c, s) ← Chunks_next c s MAX_CHUNK;
      match r with
      | Ok (Some chunk) => read_chunks room c s (chunks_local ++ [c_bytes chunk])
      | Ok None => mret (chunks_local, true, c, s)
      | Err _ => mret (chunks_local, false, c, s)
      end
  end.

(** The chunks pushed into a cell; the boolean says whether one was taken. *)
Fixpoint push_chunks (a : Z) (l : list (list Z)) (sh : Shared Q W) (pushed : bool) : bool * Shared Q W :=
  match l with
  | [] => (pushed, sh)
  | d :: l => let '(ok, sh) := push_data a d sh in push_chunks a l sh (pushed || ok)
  end.

Definition cell_room (sh : Shared Q W) (a : Z) : Z :=
  sat_sub RECV_DATA_CAP (match sh_cells sh !! a with Some c => queue_len (recv_data c) | None => 0 end).

Definition data_pending (c : Connection) : Retransmits := Spaces.pending (c_spaces c SpData).
Definition set_stream_state (c : Connection) (st : StreamsState H) (p : Retransmits) : Connection := upd_pending (set_c_streams c st) (fun _ => p).

Definition drain_readable_stream (e : TileEngine) (slot_idx : Z) (id : StreamId) : M TileEngine :=
  match get_slot e slot_idx with
  | None => mret e
  | Some slot =>
      match sl_streams slot !! id with
      | None => mret e
      | Some a =>
          let room := cell_room (te_shared e) a in
          if room =? 0 then mret e
          else
            let c := sl_inner slot in
            '(r, st) ← Chunks_new (c_streams c) id true;
            match r with
            | Err _ => mret (put_slot e slot_idx (set_inner slot (set_c_streams c st)))
            | Ok chunks =>
                '(chunks_local, fin, chunks, st) ← read_chunks (Z.to_nat room) chunks st [];
                '(_, _, st, p) ← Chunks_finalize chunks st (data_pending c);
                let e := put_slot e slot_idx (set_inner slot (set_stream_state c st p)) in
                let '(pushed, sh) := push_chunks a chunks_local (te_shared e) false in
                let sh := if (fin : bool) then store_fin a sh else sh in
                mret (set_shared e (if pushed || fin then wake_recv a sh else sh))
            end
      end
  end.

(** * Events of connections *)

(** The endpoint events of a connection; [answer] says whether the endpoint's replies go back to it. *)
Fixpoint endpoint_events (turns : nat) (e : TileEngine) (slot_idx : Z) (ch : ConnectionHandle) (answer : bool) : M (option TileEngine) :=
  match turns with
  | O => mret None
  | S turns =>
      match get_slot e slot_idx with
      | None => mret (Some e)
      | Some slot =>
          let '(ev, c) := poll_endpoint_events (sl_inner slot) in
          let e := put_slot e slot_idx (set_inner slot c) in
          match ev with
          | None => mret (Some e)
          | Some ev =>
              '(reply, ep) ⇐ endpoint_handle_event cid_turns (te_endpoint e) ch ev;
              let e := set_endpoint e ep in
              match reply with
              | Some reply =>
                  if answer then
                    c ← handle_event max_instant c (ce_ids reply) (ce_now reply);
                    endpoint_events turns (put_slot e slot_idx (set_inner slot c)) slot_idx ch answer
                  else endpoint_events turns e slot_idx ch answer
              | None => endpoint_events turns e slot_idx ch answer
              end
          end
      end
  end.

(** The streams the peer has opened; the data of bidirectional ones is delivered at once. *)
Fixpoint accept_streams (turns : nat) (e : TileEngine) (slot_idx : Z) (d : Dir) : M (option TileEngine) :=
  match turns with
  | O => mret None
  | S turns =>
      match get_slot e slot_idx with
      | None => mret (Some e)
      | Some slot =>
          '(id, slot) ← slot_accept slot d;
          let e := put_slot e slot_idx slot in
          match id with
          | None => mret (Some e)
          | Some id =>
              let e := open_stream_cell e slot_idx id false in
              e ← (if decide (d = Bi) then drain_readable_stream e slot_idx id else mret e);
              accept_streams turns e slot_idx d
          end
      end
  end.

(** [retry_pending_opens]; [drain] is [drain_connection_events] of the slot. *)
Definition retry_pending_opens (drain : TileEngine → M (option TileEngine)) (e : TileEngine) (slot_idx : Z) (d : Dir)
    : M (option TileEngine) :=
  match get_slot e slot_idx with
  | None => mret (Some e)
  | Some slot =>
      '(id, slot) ← slot_open slot d;
      let e := put_slot e slot_idx slot in
      match id with
      | None => mret (Some e)
      | Some id =>
          let e := open_stream_cell e slot_idx id true in
          let e := match get_slot e slot_idx with Some slot => put_and_queue e slot_idx slot | None => e end in
          drain e
      end
  end.

Definition wake_writer (e : TileEngine) (slot_idx : Z) (id : StreamId) : TileEngine :=
  match get_slot e slot_idx with
  | Some slot => match sl_streams slot !! id with Some a => set_shared e (wake_send a (te_shared e)) | None => e end
  | None => e
  end.

(** The event [ConnectionLost]. *)
Definition lose_connection (turns : nat) (e : TileEngine) (slot_idx : Z) (ch : ConnectionHandle) : M (option TileEngine) :=
  r ← endpoint_events turns e slot_idx ch false;
  match r with
  | None => mret None
  | Some e =>
      slot ← slab_index (te_connections e) slot_idx;
      let a := sl_conn_state slot in
      let e := set_shared e (wake_evt a (push_event a ConnectionClosed (te_shared e))) in
      '(_, slots) ← slab_remove (te_connections e) slot_idx;
      mret (Some (set_slots e slots (delete ch (te_ch_to_slot e))))
  end.

Fixpoint app_events (drain : TileEngine → M (option TileEngine)) (turns : nat) (e : TileEngine) (slot_idx : Z) (ch : ConnectionHandle)
    : M (option TileEngine) :=
  match turns with
  | O => mret None
  | S turns =>
      match get_slot e slot_idx with
      | None => mret (Some e)
      | Some slot =>
          '(ev, c) ← conn_poll (sl_inner slot);
          let slot := set_inner slot c in
          let e := put_slot e slot_idx slot in
          match ev with
          | None => mret (Some e)
          | Some (EvStream (Opened d)) => 'e ⇐ accept_streams turns e slot_idx d; app_events drain turns e slot_idx ch
          | Some (EvStream (Readable id)) => e ← drain_readable_stream e slot_idx id; app_events drain turns e slot_idx ch
          | Some (EvStream (Writable id)) => app_events drain turns (wake_writer e slot_idx id) slot_idx ch
          | Some (EvStream (Available d)) => 'e ⇐ retry_pending_opens drain e slot_idx d; app_events drain turns e slot_idx ch
          | Some Connected => app_events drain turns (put_and_queue e slot_idx slot) slot_idx ch
          | Some (ConnectionLost _) => lose_connection turns e slot_idx ch
          | Some _ => app_events drain turns e slot_idx ch
          end
      end
  end.

Definition refresh_timeout (e : TileEngine) (slot_idx : Z) : TileEngine :=
  match get_slot e slot_idx with
  | Some slot => put_slot e slot_idx (set_next_timeout slot (poll_timeout (sl_inner slot)))
  | None => e
  end.

Fixpoint drain_connection_events (turns : nat) (e : TileEngine) (slot_idx : Z) : M (option TileEngine) :=
  match turns with
  | O => mret None
  | S turns =>
      match get_slot e slot_idx with
      | None => mret (Some e)
      | Some slot =>
          let ch := sl_handle slot in
          'e ⇐ endpoint_events turns e slot_idx ch true;
          'e ⇐ app_events (fun e => drain_connection_events turns e slot_idx) turns e slot_idx ch;
          mret (Some (refresh_timeout e slot_idx))
      end
  end.

Context (turns : nat).
Local Notation drain_events := (drain_connection_events turns).

(** * Receiving *)

Definition on_datagram (e : TileEngine) (ch : ConnectionHandle) (ev : DatagramConnectionEvent) : M (option TileEngine) :=
  match te_ch_to_slot e !! ch with
  | None => mret (Some e)
  | Some slot_idx =>
      e ← match get_slot e slot_idx with
          | None => mret e
          | Some slot =>
              c ← handle_datagram crypto_turns (sl_inner slot) (de_now ev) (de_remote ev) (de_ecn ev) (de_first_decode ev) (de_remaining ev);
              mret (put_and_queue e slot_idx (set_inner slot c))
          end;
      drain_events e slot_idx
  end.

Definition on_new_connection (e : TileEngine) (incoming : Incoming) (now : Z) : M (option TileEngine) :=
  '(r, buf, ep) ⇐ accept (H := H) (TS := TS) max_instant crypto_turns cid_turns (te_endpoint e) incoming now (te_endpoint_scratch e)
                    (Some (te_server_config e));
  let e := set_scratch (set_endpoint e ep) buf in
  match r with
  | Ok (ch, conn) =>
      let a := sh_next (te_shared e) in
      let sh := set_next_address (set_conns (te_shared e) (<[a := ConnState_new]> (sh_conns (te_shared e)))) (a + 1) in
      let '(slot_idx, slots) := slab_insert (te_connections e) (mkSlot ch conn [] None true ∅ a) in
      let e := set_slots e slots (<[ch := slot_idx]> (te_ch_to_slot e)) in
      let e := set_pending_send e (te_pending_send e ++ [slot_idx]) in
      let app_conn := with_slot (AppConnection_new a) (slot_idx mod 2 ^ 32) in
      let e := set_shared e (wake_accept (push_incoming app_conn sh)) in
      drain_events e slot_idx
  | Err err => mret (Some (match ae_response err with Some t => enqueue_proto_transmit e t | None => e end))
  end.

(** A packet from the queue of a reader. *)
Definition dispatch (e : TileEngine) (now system_now : Z) (pkt : RxPacket) : M (option TileEngine) :=
  let ecn := match rm_ecn (rx_meta pkt) with Some x => Some (map_ecn_to_proto x) | None => None end in
  '(dg, buf, ep) ← ep_handle (te_endpoint e) now system_now (rm_src (rx_meta pkt)) (rm_dst_ip (rx_meta pkt)) ecn (rx_payload pkt) [];
  let e := set_scratch (set_endpoint e ep) buf in
  match dg with
  | Some (ForConnection ch ev) => on_datagram e ch ev
  | Some (NewConnection incoming) => on_new_connection e incoming now
  | Some (Response t) => mret (Some (enqueue_proto_transmit e t))
  | None => mret (Some e)
  end.

(** The packets of queue [i], and of all queues. *)
Fixpoint recv_queue (fuel : nat) (e : TileEngine) (i : nat) (now system_now : Z) (did_work : bool) : M (option (bool * TileEngine)) :=
  match fuel with
  | O => mret None
  | S fuel =>
      q ← unwrap (te_rx_queues e !! i);
      let '(pkt, q) := queue_pop q in
      let e := set_rx_queues e (<[i := q]> (te_rx_queues e)) in
      match pkt with
      | None => mret (Some (did_work, e))
      | Some pkt => 'e ⇐ dispatch e now system_now pkt; recv_queue fuel e i now system_now true
      end
  end.
Fixpoint recv_queues (n : nat) (e : TileEngine) (i : nat) (now system_now : Z) (did_work : bool) : M (option (bool * TileEngine)) :=
  match n with
  | O => mret (Some (did_work, e))
  | S n =>
      '(did_work, e) ⇐ recv_queue (S (match te_rx_queues e !! i with Some q => length (queue_items q) | None => 0 end)) e i now system_now did_work;
      recv_queues n e (S i) now system_now did_work
  end.
Definition recv_and_dispatch (e : TileEngine) (now system_now : Z) : M (option (bool * TileEngine)) :=
  recv_queues (length (te_rx_queues e)) e 0 now system_now false.

(** * Commands of the application *)

(** A command for a slot: a change of its connection, after which the slot is queued for sending and its events are drained. *)
Definition with_slot_conn (e : TileEngine) (slot_idx : Z) (f : Connection → M Connection) : M (option TileEngine) :=
  e ← match get_slot e slot_idx with
      | None => mret e
      | Some slot => c ← f (sl_inner slot); mret (put_and_queue e slot_idx (set_inner slot c))
      end;
  drain_events e slot_idx.

Definition write_cmd (stream : StreamId) (data : list Z) (fin : bool) (c : Connection) : M Connection :=
  '(_, st, _) ← write_source (c_streams c) (is_closed (c_state c)) stream (from_slice data);
  if fin then '(_, st) ← finish_stream st stream; mret (set_c_streams c st) else mret (set_c_streams c st).
Definition finish_cmd (stream : StreamId) (c : Connection) : M Connection :=
  '(_, st) ← finish_stream (c_streams c) stream;
  mret (set_c_streams c st).
(** [code as u32] drops the upper half. *)
Definition reset_cmd (stream : StreamId) (code : Z) (c : Connection) : M Connection :=
  '(_, st, p) ← reset_stream (c_streams c) (data_pending c) stream (mkVarInt (code mod 2 ^ 32));
  mret (set_stream_state c st p).

(** One command; [clock] is the time when a connection is closed. *)
Definition process_command (e : TileEngine) (clock : Z) (cmd : TileAppCommand) : M (option TileEngine) :=
  match cmd with
  | CmdWrite conn stream data fin => with_slot_conn e conn (write_cmd stream data fin)
  | CmdOpenStream conn d =>
      match get_slot e conn with
      | None => mret (Some e)
      | Some _ => retry_pending_opens (fun e => drain_events e conn) e conn d
      end
  | CmdFinish conn stream => with_slot_conn e conn (finish_cmd stream)
  | CmdResetStream conn stream code => with_slot_conn e conn (reset_cmd stream code)
  | CmdCloseConn conn => with_slot_conn e conn (fun c => mret (close c clock (mkVarInt 0) []))
  end.

Fixpoint process_commands (fuel : nat) (e : TileEngine) (clock : nat → Z) (did_work : bool) : M (option (bool * TileEngine)) :=
  match fuel with
  | O => mret None
  | S fuel =>
      let '(cmd, q) := queue_pop (sh_cmds (te_shared e)) in
      let e := set_shared e (set_cmds (te_shared e) q) in
      match cmd with
      | None => mret (Some (did_work, e))
      | Some cmd => 'e ⇐ process_command e (clock fuel) cmd; process_commands fuel e clock true
      end
  end.
Definition process_app_commands (e : TileEngine) (clock : nat → Z) : M (option (bool * TileEngine)) :=
  process_commands (S (length (queue_items (sh_cmds (te_shared e))))) e clock false.

(** * Timers *)

Definition due (now : Z) (s : ConnectionSlot) : bool := match sl_next_timeout s with Some t => t <=? now | None => false end.

Fixpoint fire (l : list Z) (e : TileEngine) (now : Z) : M (option TileEngine) :=
  match l with
  | [] => mret (Some e)
  | i :: l =>
      e ← match get_slot e i with
          | None => mret e
          | Some slot => c ← handle_timeout (sl_inner slot) now; mret (put_and_queue e i (set_inner slot c))
          end;
      'e ⇐ drain_events e i;
      fire l e now
  end.
Definition fire_timers (e : TileEngine) (now : Z) : M (option (bool * TileEngine)) :=
  let due_slots := map fst (List.filter (fun p => due now (snd p)) (slab_list (te_connections e))) in
  let e := set_due_slots e due_slots in
  'e ⇐ fire due_slots e now;
  mret (Some (match due_slots with [] => false | _ => true end, e)).

(** * Transmitting *)

(** The loop over the datagrams of one connection. *)
Fixpoint transmit_slot (fuel : nat) (e : TileEngine) (slot_idx now system_now : Z) (first_poll did_work : bool)
    : M (option (bool * TileEngine)) :=
  match fuel with
  | O => mret None
  | S fuel =>
      match get_slot e slot_idx with
      | None => mret (Some (did_work, e))
      | Some slot =>
          '(t, buf, c) ← conn_poll_transmit transmit_turns pick (sl_inner slot) now system_now MAX_DATAGRAMS SEND_BUF_CAP (sl_send_buf slot);
          let slot := set_send_buf (set_inner slot c) buf in
          match t with
          | None =>
              mret (Some (did_work,
                if first_poll then put_slot e slot_idx slot
                else let e := put_slot e slot_idx (set_pending_flag slot true) in set_pending_send e (te_pending_send e ++ [slot_idx])))
          | Some t =>
              '(payload, _) ← split_to (t_size t) buf;
              let e := push_tx (put_slot e slot_idx (set_send_buf slot [])) t payload in
              transmit_slot fuel (refresh_timeout e slot_idx) slot_idx now system_now false true
          end
      end
  end.

Fixpoint transmit_slots (l : list Z) (e : TileEngine) (now system_now : Z) (did_work : bool) : M (option (bool * TileEngine)) :=
  match l with
  | [] => mret (Some (did_work, e))
  | slot_idx :: l =>
      match get_slot e slot_idx with
      | None => transmit_slots l e now system_now did_work
      | Some slot =>
          let e := put_slot e slot_idx (set_pending_flag slot false) in
          '(did_work, e) ⇐ transmit_slot turns e slot_idx now system_now true did_work;
          transmit_slots l e now system_now did_work
      end
  end.
Definition drive_transmit (e : TileEngine) (now system_now : Z) : M (option (bool * TileEngine)) :=
  transmit_slots (te_pending_send e) (set_pending_send e []) now system_now false.

Definition next_deadline (e : TileEngine) : option Z :=
  foldr (fun p acc => match sl_next_timeout (snd p), acc with
                      | Some t, Some m => Some (Z.min t m)
                      | Some t, None => Some t
                      | None, _ => acc
                      end) None (slab_list (te_connections e)).

(** * A turn of the engine *)

Definition run_once (e : TileEngine) (now system_now : Z) (clock : nat → Z) : M (option (option Z * bool * TileEngine)) :=
  '(w1, e) ⇐ recv_and_dispatch e now system_now;
  '(w2, e) ⇐ process_app_commands e clock;
  '(w3, e) ⇐ drive_transmit e now system_now;
  '(w4, e) ⇐ fire_timers e now;
  let did_work := w1 || w2 || w3 || w4 in
  'e ⇐ (if (did_work : bool) then '(_, e) ⇐ drive_transmit e now system_now; mret (Some e) else mret (Some e));
  mret (Some (next_deadline e, did_work, e)).
End Engine.
#[global] Arguments ConnectionSlot C H T R TS : clear implicits.
#[global] Arguments TileEngine C H T R TS G SL SC L Q W : clear implicits.
