(* ===== verification/TileEngineInv.v ===== *)
(** The invariant of engines: slots, the memory they share with the application and the endpoint belong together, and every
    operation keeps it. *)
From stdpp Require Import gmap.
From S2P Require Import Prelude Coding RangeSet Ids Shared Frame Float Packet TransportParams Token TokenCache Assembler Recv Send.
From S2P Require Import PendingStreams Retransmits CidQueue CidState Streams Dedup PendingAcks Mtud Timer AckFrequency Rtt.
From S2P Require Import Congestion Pacing Datagrams Spaces PacketCrypto Config Paths Connection ConnRecovery ConnReceive.
From S2P Require Import PacketBuilder ConnTransmit CidGenerator EndpointIndex Endpoint Post EndpointInv EndpointOps TileNet Bridge TileEngine.
Open Scope Z_scope.

(** * Shared memory *)

Section Memory.
Context {Q : Type → Type} {HQ : ArrayQueue Q} {HQok : ArrayQueueOk Q} {W : Type} {HW : AtomicWaker W}.
Local Notation Shared := (Shared Q W).
Implicit Types sh : Shared.

Definition cell_ok (c : StreamCell Q W) : Prop := queue_cap (recv_data c) = RECV_DATA_CAP ∧ queue_len (recv_data c) <= RECV_DATA_CAP.

(** Objects stay where they are, and queues within their bounds. *)
Record mem_kept sh sh' : Prop := mkMemKept {
  mk_next : sh_next sh' = sh_next sh;
  mk_conns : dom (sh_conns sh') = dom (sh_conns sh);
  mk_cells : dom (sh_cells sh') = dom (sh_cells sh);
  mk_cell : ∀ a c c', sh_cells sh !! a = Some c → sh_cells sh' !! a = Some c' → cell_ok c → cell_ok c'
}.

Lemma mem_kept_refl sh : mem_kept sh sh.
Proof. split; try done. by intros a c c' -> [= <-]. Qed.
Lemma mem_kept_trans sh1 sh2 sh3 : mem_kept sh1 sh2 → mem_kept sh2 sh3 → mem_kept sh1 sh3.
Proof.
  intros [A1 A2 A3 A4] [B1 B2 B3 B4]. split; try congruence. intros a c c' Hc Hc' Hok.
  assert (Ha : a ∈ dom (sh_cells sh2)) by (rewrite A3; by eapply elem_of_dom_2). apply elem_of_dom in Ha as [c2 Hc2]. eauto.
Qed.

(** A cell or a connection state is changed in place. *)
Lemma mem_kept_cell sh a c c' : sh_cells sh !! a = Some c → (cell_ok c → cell_ok c') → mem_kept sh (set_cells sh (<[a := c']> (sh_cells sh))).
Proof.
  intros Hc Hok. split; try done; cbn [sh_cells set_cells].
  - apply dom_insert_lookup_L. by eexists.
  - intros b d d' Hd Hd' Ho. apply lookup_insert_Some in Hd' as [[<- <-]|[_ Hd']]; [|congruence]. rewrite Hc in Hd. injection Hd as <-. auto.
Qed.
Lemma mem_kept_conn sh a c c' : sh_conns sh !! a = Some c → mem_kept sh (set_conns sh (<[a := c']> (sh_conns sh))).
Proof.
  intros Hc. split; try done; cbn [sh_conns sh_cells set_conns].
  - apply dom_insert_lookup_L. by eexists.
  - by intros b d d' -> [= <-].
Qed.
Lemma mem_kept_same sh sh' : sh_next sh' = sh_next sh → sh_conns sh' = sh_conns sh → sh_cells sh' = sh_cells sh → mem_kept sh sh'.
Proof. intros E1 E2 E3. split; [done|by rewrite E2|by rewrite E3|]. rewrite E3. by intros a c c' -> [= <-]. Qed.

Lemma mem_kept_woken sh sh' t : mem_kept sh sh' → mem_kept sh (add_woken sh' t).
Proof. intros Hk. eapply mem_kept_trans; [exact Hk|]. by apply mem_kept_same. Qed.

Lemma push_data_kept a d sh : mem_kept sh (snd (push_data a d sh)).
Proof.
  unfold push_data. destruct (sh_cells sh !! a) as [c|] eqn:E; [|apply mem_kept_refl].
  pose proof (queue_push_items _ (recv_data c) d) as E1. pose proof (queue_push_cap _ (recv_data c) d) as E2.
  destruct (queue_push (recv_data c) d) as [ok q]. cbn [fst snd] in *. apply mem_kept_cell with c; [done|]. unfold cell_ok, queue_len. cbn [recv_data].
  rewrite E1, E2. intros [-> Hl]. split; [done|]. destruct (Z.ltb_spec (len (queue_items (recv_data c))) RECV_DATA_CAP); [|done].
  rewrite len_app, len_cons, len_nil. lia.
Qed.
Lemma push_chunks_kept a l sh pushed : mem_kept sh (snd (push_chunks a l sh pushed)).
Proof.
  revert sh pushed. induction l as [|d l IH]; intros sh pushed; [apply mem_kept_refl|]. cbn [push_chunks]. pose proof (push_data_kept a d sh) as Hk.
  destruct (push_data a d sh) as [ok sh1]. cbn [snd] in *. eapply mem_kept_trans; [exact Hk|apply IH].
Qed.
Lemma store_fin_kept a sh : mem_kept sh (store_fin a sh).
Proof. unfold store_fin. destruct (sh_cells sh !! a) as [c|] eqn:E; [|apply mem_kept_refl]. by apply mem_kept_cell with c. Qed.
Lemma wake_recv_kept a sh : mem_kept sh (wake_recv a sh).
Proof.
  unfold wake_recv. destruct (sh_cells sh !! a) as [c|] eqn:E; [|apply mem_kept_refl]. destruct (waker_wake _). by apply mem_kept_woken, mem_kept_cell with c.
Qed.
Lemma wake_send_kept a sh : mem_kept sh (wake_send a sh).
Proof.
  unfold wake_send. destruct (sh_cells sh !! a) as [c|] eqn:E; [|apply mem_kept_refl]. destruct (waker_wake _). by apply mem_kept_woken, mem_kept_cell with c.
Qed.
Lemma push_event_kept a ev sh : mem_kept sh (push_event a ev sh).
Proof.
  unfold push_event, push_back_event. destruct (sh_conns sh !! a) as [c|] eqn:E; [|apply mem_kept_refl]. destruct (queue_push _ _). by apply mem_kept_conn with c.
Qed.
Lemma wake_evt_kept a sh : mem_kept sh (wake_evt a sh).
Proof.
  unfold wake_evt. destruct (sh_conns sh !! a) as [c|] eqn:E; [|apply mem_kept_refl]. destruct (waker_wake _). by apply mem_kept_woken, mem_kept_conn with c.
Qed.
Lemma push_incoming_kept c sh : mem_kept sh (push_incoming c sh).
Proof. by apply mem_kept_same. Qed.
Lemma wake_accept_kept sh : mem_kept sh (wake_accept sh).
Proof. unfold wake_accept. destruct (waker_wake _). by apply mem_kept_woken, mem_kept_same. Qed.
End Memory.

(** * Engines *)

Section Invariant.
Context {C : Type} {HC : Controller C} {H : Type} {HH : Heap H} {T : Type} {HT : Session T} {R : Type} {HR : Rng R}
  {TS : Type} {HTS : TokenStore TS}.
Context {HRC : RngCore R} {HER : EndpointRng R} {G : Type} {HG : ConnectionIdGenerator G} {SL : Type → Type} {HS : Slab SL}
  {HSok : SlabOk SL} {SC : Type} {HSC : CryptoServerConfig SC T} {L : Type} {HL : TokenLog L}.
Context {Q : Type → Type} {HQ : ArrayQueue Q} {HQok : ArrayQueueOk Q} {W : Type} {HW : AtomicWaker W}.
Context (max_instant : Z) (crypto_turns cid_turns transmit_turns : nat) (pick : gset StreamId → option StreamId) (caps : Caps).
Local Notation Connection := (Connection C H T R TS).
Local Notation ConnectionSlot := (ConnectionSlot C H T R TS).
Local Notation TileEngine := (TileEngine C H T R TS G SL SC L Q W).
Implicit Types (e : TileEngine) (s t : ConnectionSlot) (sh : Shared Q W) (m : gmap Z ConnectionSlot) (X : gset Z).

(** Every slot has a connection state and cells of its own, all of them below the next address. *)
Record mem_ok sh m : Prop := mkMemOk {
  mo_conn : ∀ i s, m !! i = Some s → sl_conn_state s ∈ dom (sh_conns sh);
  mo_stream : ∀ i s id a, m !! i = Some s → sl_streams s !! id = Some a → a ∈ dom (sh_cells sh);
  mo_conn_inj : ∀ i s j t, m !! i = Some s → m !! j = Some t → sl_conn_state s = sl_conn_state t → i = j;
  mo_stream_inj : ∀ i s id j t jd a, m !! i = Some s → m !! j = Some t → sl_streams s !! id = Some a → sl_streams t !! jd = Some a → i = j ∧ id = jd;
  mo_fresh : ∀ a, a ∈ dom (sh_conns sh) ∪ dom (sh_cells sh) → a < sh_next sh;
  mo_cells : ∀ a c, sh_cells sh !! a = Some c → cell_ok c
}.

Lemma mem_ok_kept sh sh' m : mem_kept sh sh' → mem_ok sh m → mem_ok sh' m.
Proof.
  intros [K1 K2 K3 K4] [A1 A2 A3 A4 A5 A6]. split; try done; rewrite ?K1, ?K2, ?K3; [done|done|done|]. intros a c' Hc'.
  assert (Ha : a ∈ dom (sh_cells sh)) by (rewrite <- K3; by eapply elem_of_dom_2). apply elem_of_dom in Ha as [c Hc]. eauto.
Qed.

Lemma mem_ok_put sh m i s s' : mem_ok sh m → m !! i = Some s → sl_streams s' = sl_streams s → sl_conn_state s' = sl_conn_state s → mem_ok sh (<[i := s']> m).
Proof.
  intros [A1 A2 A3 A4 A5 A6] Hi Es Ec.
  assert (Hb : ∀ j t, <[i := s']> m !! j = Some t → ∃ t0, m !! j = Some t0 ∧ sl_streams t = sl_streams t0 ∧ sl_conn_state t = sl_conn_state t0).
  { intros j t Ht. apply lookup_insert_Some in Ht as [[<- <-]|[_ Ht]]; eauto. }
  split; try done.
  - intros j t Ht. destruct (Hb _ _ Ht) as (t0 & H0 & _ & ->). eauto.
  - intros j t id a Ht. destruct (Hb _ _ Ht) as (t0 & H0 & -> & _). eauto.
  - intros j t k u Ht Hu. destruct (Hb _ _ Ht) as (t0 & H0 & _ & ->), (Hb _ _ Hu) as (u0 & H1 & _ & ->). eauto.
  - intros j t id k u kd a Ht Hu. destruct (Hb _ _ Ht) as (t0 & H0 & -> & _), (Hb _ _ Hu) as (u0 & H1 & -> & _). eauto.
Qed.

Lemma mem_ok_delete sh m i : mem_ok sh m → mem_ok sh (delete i m).
Proof.
  intros [A1 A2 A3 A4 A5 A6]. assert (Hb : ∀ j t, delete i m !! j = Some t → m !! j = Some t) by (intros j t Ht; by apply lookup_delete_Some in Ht as [_ Ht]).
  split; try done; eauto.
Qed.

(** A cell for a stream of a slot, and a slot with its connection state, at the next address. *)
Lemma mem_ok_cell sh m i s id :
  mem_ok sh m → m !! i = Some s →
  mem_ok (set_next_address (set_cells sh (<[sh_next sh := StreamCell_new]> (sh_cells sh))) (sh_next sh + 1))
    (<[i := set_streams s (<[id := sh_next sh]> (sl_streams s))]> m).
Proof.
  intros [A1 A2 A3 A4 A5 A6] Hi. set (s' := set_streams s _).
  assert (Hfr : ∀ j t kd, m !! j = Some t → sl_streams t !! kd = Some (sh_next sh) → False).
  { intros j t kd Ht Ha. pose proof (A5 (sh_next sh)). pose proof (A2 _ _ _ _ Ht Ha). apply (Z.lt_irrefl (sh_next sh)). set_solver. }
  assert (Hb : ∀ j t, <[i := s']> m !! j = Some t → ∃ t0, m !! j = Some t0 ∧ sl_conn_state t = sl_conn_state t0 ∧
    ∀ kd a, sl_streams t !! kd = Some a → sl_streams t0 !! kd = Some a ∨ j = i ∧ kd = id ∧ a = sh_next sh).
  { intros j t Ht. apply lookup_insert_Some in Ht as [[<- <-]|[_ Ht]]; [|eauto]. exists s. split; [done|]. split; [done|]. intros kd a Ha. cbn in Ha.
    apply lookup_insert_Some in Ha as [[<- <-]|[_ Ha]]; auto. }
  split; cbn [sh_conns sh_cells sh_next set_next_address set_cells].
  - intros j t Ht. destruct (Hb _ _ Ht) as (t0 & H0 & -> & _). eauto.
  - intros j t kd a Ht Ha. destruct (Hb _ _ Ht) as (t0 & H0 & _ & Hs). rewrite dom_insert. destruct (Hs _ _ Ha) as [Ho|(_ & _ & ->)]; [|set_solver].
    apply elem_of_union_r. eauto.
  - intros j t k u Ht Hu. destruct (Hb _ _ Ht) as (t0 & H0 & -> & _), (Hb _ _ Hu) as (u0 & H1 & -> & _). eauto.
  - intros j t jd k u kd a Ht Hu Ha Ha'. destruct (Hb _ _ Ht) as (t0 & H0 & _ & Hs), (Hb _ _ Hu) as (u0 & H1 & _ & Hs').
    destruct (Hs _ _ Ha) as [Ho|(-> & -> & ->)], (Hs' _ _ Ha') as [Ho'|(-> & -> & E)]; [eauto| |by destruct (Hfr k u0 kd)|done].
    subst a. by destruct (Hfr j t0 jd).
  - intros a Ha. rewrite dom_insert in Ha. destruct (decide (a = sh_next sh)) as [->|]; [lia|]. pose proof (A5 a). assert (a < sh_next sh) by set_solver. lia.
  - intros a c Hc. apply lookup_insert_Some in Hc as [[<- <-]|[_ Hc]]; [|eauto]. unfold cell_ok, queue_len. cbn [recv_data StreamCell_new].
    rewrite queue_new_cap, queue_new_items. done.
Qed.

Lemma mem_ok_conn sh m i s :
  mem_ok sh m → m !! i = None → sl_streams s = ∅ → sl_conn_state s = sh_next sh →
  mem_ok (set_next_address (set_conns sh (<[sh_next sh := ConnState_new]> (sh_conns sh))) (sh_next sh + 1)) (<[i := s]> m).
Proof.
  intros [A1 A2 A3 A4 A5 A6] Hi Es Ec.
  assert (Hfr : ∀ j t, m !! j = Some t → sl_conn_state t < sh_next sh) by (intros j t Ht; pose proof (A1 _ _ Ht); apply A5; set_solver).
  assert (Hs : ∀ j t kd a, <[i := s]> m !! j = Some t → sl_streams t !! kd = Some a → m !! j = Some t).
  { intros j t kd a Ht Ha. apply lookup_insert_Some in Ht as [[<- <-]|[_ Ht]]; [|done]. by rewrite Es, lookup_empty in Ha. }
  split; cbn [sh_conns sh_cells sh_next set_next_address set_conns].
  - intros j t Ht. rewrite dom_insert. apply lookup_insert_Some in Ht as [[<- <-]|[_ Ht]]; [set_solver|]. apply elem_of_union_r. eauto.
  - intros j t kd a Ht Ha. eauto.
  - intros j t k u Ht Hu E. rewrite lookup_insert_Some in Ht, Hu. destruct Ht as [[<- <-]|[_ Ht]], Hu as [[<- <-]|[_ Hu]]; [done| | |eauto].
    + pose proof (Hfr _ _ Hu). lia.
    + pose proof (Hfr _ _ Ht). lia.
  - intros j t jd k u kd a Ht Hu Ha Ha'. eauto.
  - intros a Ha. rewrite dom_insert in Ha. destruct (decide (a = sh_next sh)) as [->|]; [lia|]. pose proof (A5 a). assert (a < sh_next sh) by set_solver. lia.
  - intros a c Hc. eauto.
Qed.

(** [idle_since c0 c]: [c] comes from [c0] by polls that had nothing to send and by streams that could not be opened. *)
Inductive idle_since (c0 : Connection) : Connection → Prop :=
| idle_none : idle_since c0 c0
| idle_poll c now system_now buf buf' c' :
    idle_since c0 c → conn_poll_transmit transmit_turns pick c now system_now MAX_DATAGRAMS SEND_BUF_CAP buf = Ret (None, buf', c') →
    idle_since c0 c'
| idle_blocked c d st :
    idle_since c0 c → Streams.open (c_streams c) (is_closed (c_state c)) d = Ret (None, st) → idle_since c0 (set_c_streams c st).

(** The deadline of a slot is the one its connection had when it was last not idle. *)
Definition fresh s : Prop := ∃ c0, sl_next_timeout s = poll_timeout c0 ∧ idle_since c0 (sl_inner s).

(** The invariant.  The slots of [X] may have an old deadline, and those of [l] be about to be polled. *)
Record engine_ok X (l : list Z) e : Prop := mkEngineOk {
  en_endpoint : ep_ok caps (te_endpoint e) [] [] ∅;
  en_handles : ∀ h i, te_ch_to_slot e !! h = Some i → ∃ s, get_slot e i = Some s ∧ sl_handle s = h;
  en_queued : ∀ i s, get_slot e i = Some s → sl_has_pending_send s = true → i ∈ l ++ te_pending_send e;
  en_memory : mem_ok (te_shared e) (slab_map (te_connections e));
  en_fresh : ∀ i s, get_slot e i = Some s → i ∉ X → fresh s
}.

Lemma engine_ok_mono X X' l e : engine_ok X l e → X ⊆ X' → engine_ok X' l e.
Proof. intros [] Hs. split; try done. intros i s Hi Hn. apply (en_fresh0 i); [done|set_solver]. Qed.

(** Only these parts matter. *)
Lemma engine_ok_parts X l e e' :
  engine_ok X l e → ep_ok caps (te_endpoint e') [] [] ∅ → te_connections e' = te_connections e → te_ch_to_slot e' = te_ch_to_slot e →
  mem_kept (te_shared e) (te_shared e') → te_pending_send e' = te_pending_send e → engine_ok X l e'.
Proof.
  intros [A1 A2 A3 A4 A5] Hep Ec Em Hk Ep. split; unfold get_slot in *; rewrite ?Ec, ?Em, ?Ep; try done. by eapply mem_ok_kept.
Qed.

Definition same_place s s' : Prop :=
  sl_handle s' = sl_handle s ∧ sl_streams s' = sl_streams s ∧ sl_conn_state s' = sl_conn_state s.

Lemma slots_put e i s s' : get_slot e i = Some s → slab_map (te_connections (put_slot e i s')) = <[i := s']> (slab_map (te_connections e)).
Proof. intros Hi. apply slab_map_set. by exists s. Qed.
Lemma get_put e i s s' j : get_slot e i = Some s → get_slot (put_slot e i s') j = if decide (i = j) then Some s' else get_slot e j.
Proof. intros Hi. unfold get_slot at 1. rewrite (slots_put _ _ s) by done. case_decide; [subst; apply lookup_insert_eq|by apply lookup_insert_ne]. Qed.

Lemma put_slot_ok X l e i s s' :
  engine_ok X l e → get_slot e i = Some s → same_place s s' → (sl_has_pending_send s' = true → i ∈ l ++ te_pending_send e) →
  (i ∉ X → fresh s') → engine_ok X l (put_slot e i s').
Proof.
  intros [A1 A2 A3 A4 A5] Hi (E1 & E2 & E3) Hf Hx. split; [done| | | |].
  - intros h j Hj. destruct (A2 h j Hj) as (t & Ht & <-). rewrite (get_put _ _ s) by done. case_decide; [|eauto]. subst j. exists s'. split; [done|]. congruence.
  - intros j t. rewrite (get_put _ _ s) by done. case_decide; [subst j; intros [= <-]; auto|eauto].
  - rewrite (slots_put _ _ s) by done. by apply mem_ok_put with s.
  - intros j t. rewrite (get_put _ _ s) by done. case_decide; [subst j; intros [= <-]; auto|eauto].
Qed.

(** A slot that is flagged is queued. *)
Lemma queue_ok X l e i s s' :
  engine_ok X l e → get_slot e i = Some s → same_place s s' → (i ∉ X → fresh s') →
  engine_ok X l (set_pending_send (put_slot e i s') (te_pending_send (put_slot e i s') ++ [i])).
Proof.
  intros He Hi Hp Hx. cut (engine_ok X (l ++ [i]) (put_slot e i s')).
  { intros [A1 A2 A3 A4 A5]. split; try done. intros j t Hj Hf. pose proof (A3 j t Hj Hf) as Hin. cbn in Hin |- *. set_solver. }
  apply put_slot_ok with s; try done; [|set_solver]. destruct He as [A1 A2 A3 A4 A5]. split; try done. intros j t Hj Hf. pose proof (A3 j t Hj Hf). set_solver.
Qed.
Lemma put_and_queue_ok X l e i s s' :
  engine_ok X l e → get_slot e i = Some s → same_place s s' → sl_has_pending_send s' = sl_has_pending_send s → (i ∉ X → fresh s') →
  engine_ok X l (put_and_queue e i s').
Proof.
  intros He Hi Hp Hf Hx. unfold put_and_queue. destruct (sl_has_pending_send s') eqn:E.
  - apply put_slot_ok with s; try done. intros _. by apply (en_queued _ _ _ He i s).
  - by apply queue_ok with s.
Qed.
End Invariant.
