(* ===== verification/TileEngineOps.v ===== *)
(** The operations of an engine keep its invariant. *)
From stdpp Require Import gmap.
From S2P Require Import Prelude Coding RangeSet Ids Shared Frame Float Packet TransportParams Token TokenCache Assembler Recv Send.
From S2P Require Import PendingStreams Retransmits CidQueue CidState Streams Dedup PendingAcks Mtud Timer AckFrequency Rtt.
From S2P Require Import Congestion Pacing Datagrams Spaces PacketCrypto Config Paths Connection ConnRecovery ConnReceive.
From S2P Require Import PacketBuilder ConnTransmit CidGenerator EndpointIndex Endpoint Post EndpointInv EndpointOps TileNet Bridge TileEngine TileEngineInv.
Open Scope Z_scope.

Section Ops.
Context {C : Type} {HC : Controller C} {H : Type} {HH : Heap H} {T : Type} {HT : Session T} {R : Type} {HR : Rng R}
  {TS : Type} {HTS : TokenStore TS}.
Context {HRC : RngCore R} {HER : EndpointRng R} {G : Type} {HG : ConnectionIdGenerator G} {SL : Type → Type} {HS : Slab SL}
  {HSok : SlabOk SL} {SC : Type} {HSC : CryptoServerConfig SC T} {L : Type} {HL : TokenLog L}.
Context {Q : Type → Type} {HQ : ArrayQueue Q} {HQok : ArrayQueueOk Q} {W : Type} {HW : AtomicWaker W}.
Context (max_instant : Z) (crypto_turns cid_turns transmit_turns : nat) (pick : gset StreamId → option StreamId) (caps : Caps).
Local Notation Connection := (Connection C H T R TS).
Local Notation ConnectionSlot := (ConnectionSlot C H T R TS).
Local Notation TileEngine := (TileEngine C H T R TS G SL SC L Q W).
Local Notation engine_ok := (engine_ok transmit_turns pick caps).
Local Notation fresh := (fresh transmit_turns pick).
Implicit Types (e : TileEngine) (s : ConnectionSlot) (sh : Shared Q W) (X : gset Z).

(** * One slot *)

(** The invariant while slot [i], which has handle [ch], is worked on. *)
Definition at_slot (i : Z) (ch : ConnectionHandle) (l : list Z) e : Prop :=
  engine_ok {[i]} l e ∧ ∀ s, get_slot e i = Some s → sl_handle s = ch.

Lemma at_put i ch l e s s' :
  at_slot i ch l e → get_slot e i = Some s → same_place s s' → sl_has_pending_send s' = sl_has_pending_send s → at_slot i ch l (put_slot e i s').
Proof.
  intros [He Hh] Hi Hp Hf. split.
  - apply put_slot_ok with s; try done; [|set_solver]. rewrite Hf. by apply (en_queued _ _ _ _ _ _ He).
  - intros t. rewrite (get_put _ _ s) by done. rewrite decide_True by done. intros [= <-]. destruct Hp as (-> & _). by apply Hh.
Qed.
Lemma at_put_inner i ch l e s c : at_slot i ch l e → get_slot e i = Some s → at_slot i ch l (put_slot e i (set_inner s c)).
Proof. intros He Hi. by apply at_put with s. Qed.
Lemma at_queue i ch l e s s' :
  at_slot i ch l e → get_slot e i = Some s → same_place s s' → sl_has_pending_send s' = sl_has_pending_send s → at_slot i ch l (put_and_queue e i s').
Proof.
  intros [He Hh] Hi Hp Hf. split.
  - apply put_and_queue_ok with s; try done. set_solver.
  - intros t Ht. assert (Ht' : sl_handle t = sl_handle s').
    { unfold put_and_queue in Ht. destruct (sl_has_pending_send s').
      - rewrite (get_put _ _ s), decide_True in Ht by done. by injection Ht as <-.
      - unfold get_slot in Ht. cbn [te_connections set_pending_send] in Ht. fold (get_slot (put_slot e i (set_pending_flag s' true)) i) in Ht.
        rewrite (get_put _ _ s), decide_True in Ht by done. by injection Ht as <-. }
    rewrite Ht'. destruct Hp as (-> & _). by apply Hh.
Qed.
Lemma at_shared i ch l e sh : at_slot i ch l e → mem_kept (te_shared e) sh → at_slot i ch l (set_shared e sh).
Proof. intros [He Hh] Hk. split; [|done]. eapply engine_ok_parts; [exact He|apply He|done..]. Qed.
Lemma at_endpoint i ch l e ep : at_slot i ch l e → ep_ok caps ep [] [] ∅ → at_slot i ch l (set_endpoint e ep).
Proof. intros [He Hh] Hk. split; [|done]. eapply engine_ok_parts; [exact He|done..|apply mem_kept_refl|done]. Qed.

(** * Streams *)

Lemma open_stream_cell_ok i ch l e id local : at_slot i ch l e → at_slot i ch l (open_stream_cell e i id local).
Proof.
  intros [He Hh]. unfold open_stream_cell. cbv zeta. destruct (get_slot e i) as [s|] eqn:Hi; [|by split; [|rewrite Hi]].
  match goal with |- at_slot _ _ _ (set_shared _ (wake_evt _ (push_event _ ?ev ?sh0))) => set (sh1 := sh0); set (event := ev) end.
  set (s' := set_streams s _). set (e1 := put_slot e i s').
  assert (Hm : mem_ok (wake_evt (sl_conn_state s) (push_event (sl_conn_state s) event sh1)) (slab_map (te_connections e1))).
  { eapply mem_ok_kept; [eapply mem_kept_trans; [apply push_event_kept|apply wake_evt_kept]|].
    unfold e1. rewrite (slots_put _ _ s) by done. apply mem_ok_cell; [apply He|done]. }
  destruct He as [A1 A2 A3 A4 A5]. split.
  - split; [done| | |done|].
    + intros h j Hj. destruct (A2 h j Hj) as (t & Ht & <-). change (get_slot (set_shared e1 ?x) j) with (get_slot e1 j). unfold e1.
      rewrite (get_put _ _ s) by done. case_decide; [|eauto]. subst j. rewrite Hi in Ht. injection Ht as <-. by exists s'.
    + intros j t. change (get_slot (set_shared e1 ?x) j) with (get_slot e1 j). unfold e1. rewrite (get_put _ _ s) by done.
      case_decide; [subst j; intros [= <-] Hf; exact (A3 i s Hi Hf)|exact (A3 j t)].
    + intros j t Hj Hn. apply (A5 j t); [|done]. revert Hj. change (get_slot (set_shared e1 ?x) j) with (get_slot e1 j). unfold e1.
      rewrite (get_put _ _ s) by done. by rewrite decide_False by set_solver.
  - intros t. change (get_slot (set_shared e1 ?x) i) with (get_slot e1 i). unfold e1. rewrite (get_put _ _ s), decide_True by done.
    intros [= <-]. exact (Hh s eq_refl).
Qed.

Lemma drain_readable_stream_ok i ch l e id : at_slot i ch l e → post (drain_readable_stream e i id) (at_slot i ch l).
Proof.
  intros He. unfold drain_readable_stream. destruct (get_slot e i) as [s|] eqn:Hi; [|by apply post_ret]. destruct (sl_streams s !! id) as [a|]; [|by apply post_ret].
  cbv zeta. destruct (_ =? 0); [by apply post_ret|]. eapply post_bind; [apply post_true|]. intros [[chunks|err] st] _; [|by apply post_ret, at_put_inner].
  eapply post_bind; [apply post_true|]. intros [[[chunks_local fin] chunks'] st'] _. eapply post_bind; [apply post_true|]. intros [[[x y] st2] p] _. cbv zeta.
  pose proof (push_chunks_kept a chunks_local (te_shared e) false) as Hk. cbn [te_shared put_slot set_slots].
  destruct (push_chunks _ _ _ _) as [pushed sh]. cbn [snd] in Hk. apply post_ret, at_shared; [by apply at_put_inner|]. cbn [te_shared put_slot set_slots].
  eapply mem_kept_trans; [exact Hk|]. destruct fin; cbn; [eapply mem_kept_trans; [apply store_fin_kept|]|]; destruct pushed; cbn;
    auto using wake_recv_kept, mem_kept_refl.
Qed.

(** * Events *)

Lemma endpoint_events_ok turns i ch l e ch' answer : at_slot i ch l e → within (endpoint_events max_instant cid_turns turns e i ch' answer) (at_slot i ch l).
Proof.
  revert e. induction turns as [|turns IH]; intros e He; [done|]. cbn [endpoint_events]. destruct (get_slot e i) as [s|] eqn:Hi; [|by apply within_done].
  destruct (poll_endpoint_events (sl_inner s)) as [ev c]. pose proof (at_put_inner _ _ _ _ _ c He Hi) as H1. destruct ev as [ev|]; [|by apply within_done].
  eapply within_bind; [apply (endpoint_handle_event_ok _ caps), H1|]. intros [reply ep] Hep. cbn [snd] in Hep. cbv zeta.
  pose proof (at_endpoint _ _ _ _ _ H1 Hep) as H2. destruct reply as [reply|]; [|by apply IH]. destruct answer; [|by apply IH].
  eapply within_step; [apply post_true|]. intros c' _. apply IH.
  assert (Hi' : get_slot (set_endpoint (put_slot e i (set_inner s c)) ep) i = Some (set_inner s c)).
  { change (get_slot (set_endpoint ?x ep) i) with (get_slot x i). by rewrite (get_put _ _ s), decide_True. }
  exact (at_put_inner _ _ _ _ _ c' H2 Hi').
Qed.

Lemma slot_accept_inner s d : post (slot_accept s d) (fun r => ∃ c, snd r = set_inner s c).
Proof. unfold slot_accept. eapply post_bind; [apply post_true|]. intros [id st] _. apply post_ret. by eexists. Qed.
Lemma slot_open_inner s d : post (slot_open s d) (fun r => ∃ c, snd r = set_inner s c).
Proof. unfold slot_open. eapply post_bind; [apply post_true|]. intros [id st] _. apply post_ret. by eexists. Qed.

Lemma accept_streams_ok turns i ch l e d : at_slot i ch l e → within (accept_streams turns e i d) (at_slot i ch l).
Proof.
  revert e. induction turns as [|turns IH]; intros e He; [done|]. cbn [accept_streams]. destruct (get_slot e i) as [s|] eqn:Hi; [|by apply within_done].
  eapply within_step; [apply slot_accept_inner|]. intros [id slot] [c E]. cbn [snd] in E. subst slot. cbv zeta. pose proof (at_put_inner _ _ _ _ _ c He Hi) as H1.
  destruct id as [id|]; [|by apply within_done]. pose proof (open_stream_cell_ok _ _ _ _ id false H1) as H2. eapply within_step; [|intros e2; apply IH].
  case_decide; [by apply drain_readable_stream_ok|by apply post_ret].
Qed.

Lemma retry_pending_opens_ok drain i ch l e d :
  (∀ e, at_slot i ch l e → within (drain e) (at_slot i ch l)) → at_slot i ch l e → within (retry_pending_opens drain e i d) (at_slot i ch l).
Proof.
  intros Hd He. unfold retry_pending_opens. destruct (get_slot e i) as [s|] eqn:Hi; [|by apply within_done].
  eapply within_step; [apply slot_open_inner|]. intros [id slot] [c E]. cbn [snd] in E. subst slot. cbv zeta. pose proof (at_put_inner _ _ _ _ _ c He Hi) as H1.
  destruct id as [id|]; [|by apply within_done]. pose proof (open_stream_cell_ok _ _ _ _ id true H1) as H2. apply Hd.
  destruct (get_slot (open_stream_cell _ i id true) i) as [s2|] eqn:Hi2; [|done]. by apply at_queue with s2.
Qed.

Lemma wake_writer_ok i ch l e id : at_slot i ch l e → at_slot i ch l (wake_writer e i id).
Proof.
  intros He. unfold wake_writer. destruct (get_slot e i) as [s|]; [|done]. destruct (sl_streams s !! id); [|done]. apply at_shared; [done|apply wake_send_kept].
Qed.

Lemma lose_connection_ok turns i ch l e : at_slot i ch l e → within (lose_connection max_instant cid_turns turns e i ch) (at_slot i ch l).
Proof.
  intros He. unfold lose_connection. eapply within_step; [by apply (endpoint_events_ok _ i ch l)|]. intros [e1|] H1; [|done].
  eapply within_step; [apply slab_index_post|]. intros s Hi. cbv zeta.
  set (sh := wake_evt _ _). assert (H2 : at_slot i ch l (set_shared e1 sh)).
  { apply at_shared; [done|]. eapply mem_kept_trans; [apply push_event_kept|apply wake_evt_kept]. }
  change (te_connections (set_shared e1 sh)) with (te_connections e1). set (e2 := set_shared e1 sh) in *. clearbody sh.
  eapply within_step. { apply post_eq. } intros [x slots] Hr. unfold slab_remove in Hr. pose proof (slab_map_remove _ (te_connections e1) i) as Hm.
  destruct (slab_try_remove (te_connections e1) i) as [y slots']. cbn [snd] in Hm. destruct y as [y|]; [|done]. injection Hr as -> ->. apply within_done.
  destruct H2 as [[A1 A2 A3 A4 A5] Hh]. set (e3 := set_slots _ _ _).
  assert (Hg : ∀ j t, get_slot e3 j = Some t → j ≠ i ∧ get_slot e2 j = Some t).
  { intros j t Ht. unfold get_slot in Ht. cbn in Ht. rewrite Hm in Ht. apply lookup_delete_Some in Ht as [? ?]. done. }
  split; [split|].
  - done.
  - intros h j Hj. cbn in Hj. apply lookup_delete_Some in Hj as [Hne Hj]. destruct (A2 h j Hj) as (t & Ht & Eh).
    assert (j ≠ i) by (intros ->; by rewrite (Hh _ Ht) in Eh). exists t. split; [|done]. unfold get_slot. cbn. rewrite Hm. by rewrite lookup_delete_ne.
  - intros j t Ht. apply A3. by apply Hg.
  - cbn. rewrite Hm. by apply mem_ok_delete.
  - intros j t Ht. apply A5. by apply Hg.
  - intros t [? _]%Hg. done.
Qed.

Lemma app_events_ok drain turns i ch l e :
  (∀ e, at_slot i ch l e → within (drain e) (at_slot i ch l)) → at_slot i ch l e →
  within (app_events max_instant cid_turns drain turns e i ch) (at_slot i ch l).
Proof.
  intros Hd. revert e. induction turns as [|turns IH]; intros e He; [done|]. cbn [app_events]. destruct (get_slot e i) as [s|] eqn:Hi; [|by apply within_done].
  eapply within_step; [apply post_true|]. intros [ev c] _. cbv zeta. pose proof (at_put_inner _ _ _ _ _ c He Hi) as H1.
  destruct ev as [ev|]; [|by apply within_done]. assert (Hi1 : get_slot (put_slot e i (set_inner s c)) i = Some (set_inner s c)) by (by rewrite (get_put _ _ s), decide_True).
  destruct ev as [| | |reason|ev| |]; try (by apply IH); [by apply IH, at_queue with (set_inner s c)|by apply lose_connection_ok|].
  destruct ev as [d|id|id|id|id code|d]; try (by apply IH).
  - eapply within_bind; [by apply accept_streams_ok|]. intros e2. apply IH.
  - eapply within_step; [by apply drain_readable_stream_ok|]. intros e2. apply IH.
  - by apply IH, wake_writer_ok.
  - eapply within_bind; [by apply retry_pending_opens_ok|]. intros e2. apply IH.
Qed.

(** Refreshing the deadline of the slot ends the work on it. *)
Lemma refresh_timeout_ok i ch l e : at_slot i ch l e → engine_ok ∅ l (refresh_timeout e i) ∧ ∀ s, get_slot (refresh_timeout e i) i = Some s → sl_handle s = ch.
Proof.
  intros [He Hh]. unfold refresh_timeout. destruct (get_slot e i) as [s|] eqn:Hi.
  - set (s' := set_next_timeout s _). assert (Hf : fresh s') by (exists (sl_inner s); split; [done|constructor]). split.
    + cut (engine_ok {[i]} l (put_slot e i s')).
      { intros [A1 A2 A3 A4 A5]. split; try done. intros j t Hj _. destruct (decide (j = i)) as [->|]; [|apply (A5 j t); [done|set_solver]].
        rewrite (get_put _ _ s), decide_True in Hj by done. by injection Hj as <-. }
      apply put_slot_ok with s; [done|done|done| |done]. exact (en_queued _ _ _ _ _ _ He i s Hi).
    + intros t. rewrite (get_put _ _ s), decide_True by done. intros [= <-]. exact (Hh s eq_refl).
  - split; [|by rewrite Hi]. destruct He as [A1 A2 A3 A4 A5]. split; try done. intros j t Hj _. apply (A5 j t); [done|]. intros ->%elem_of_singleton. congruence.
Qed.

Lemma at_slot_of i ch l e : engine_ok ∅ l e → (∀ s, get_slot e i = Some s → sl_handle s = ch) → at_slot i ch l e.
Proof. intros He Hh. split; [|done]. apply engine_ok_mono with ∅; [done|apply empty_subseteq]. Qed.

Lemma drain_at turns i ch l e : at_slot i ch l e → within (drain_connection_events max_instant cid_turns turns e i) (at_slot i ch l).
Proof.
  revert e. induction turns as [|turns IH]; intros e He; [done|]. cbn [drain_connection_events]. destruct (get_slot e i) as [s|] eqn:Hi; [|by apply within_done].
  rewrite (proj2 He s Hi). eapply within_bind; [by apply (endpoint_events_ok _ i ch l)|]. intros e1 H1. eapply within_bind; [by apply app_events_ok|].
  intros e2 H2. apply within_done. destruct (refresh_timeout_ok _ _ _ _ H2). by apply at_slot_of.
Qed.

Lemma drain_connection_events_ok turns i l e : engine_ok {[i]} l e → within (drain_connection_events max_instant cid_turns turns e i) (engine_ok ∅ l).
Proof.
  intros He. destruct turns as [|turns]; [done|]. cbn [drain_connection_events]. destruct (get_slot e i) as [s|] eqn:Hi.
  - assert (Ha : at_slot i (sl_handle s) l e) by (split; [done|]; rewrite Hi; by intros ? [= <-]).
    eapply within_bind; [by apply (endpoint_events_ok _ i (sl_handle s) l)|]. intros e1 H1.
    eapply within_bind; [apply app_events_ok, H1; intros e'; apply drain_at|]. intros e2 H2. apply within_done. by eapply refresh_timeout_ok.
  - apply within_done. destruct He as [A1 A2 A3 A4 A5]. split; try done. intros j t Hj _. apply (A5 j t); [done|]. intros ->%elem_of_singleton. congruence.
Qed.

(** * Receiving *)

Context (turns : nat).

(** A change of the connection of a slot, after which it is queued and its events are drained. *)
Lemma changed_ok i l e s c : engine_ok ∅ l e → get_slot e i = Some s → engine_ok {[i]} l (put_and_queue e i (set_inner s c)).
Proof.
  intros He Hi. apply put_and_queue_ok with s; try done; [|set_solver]. apply engine_ok_mono with ∅; [done|apply empty_subseteq].
Qed.
Lemma unchanged_ok i l e : engine_ok ∅ l e → engine_ok {[i]} l e.
Proof. intros He. apply engine_ok_mono with ∅; [done|apply empty_subseteq]. Qed.
#[local] Hint Resolve changed_ok unchanged_ok : core.

Lemma with_slot_conn_ok (f : Connection → M Connection) i l e :
  engine_ok ∅ l e → within (with_slot_conn max_instant cid_turns turns e i f) (engine_ok ∅ l).
Proof.
  intros He. apply within_step with (engine_ok {[i]} l); [|intros e1; apply drain_connection_events_ok].
  destruct (get_slot e i) as [s|] eqn:Hi; [|by apply post_ret; auto]. eapply post_bind; [apply post_true|]. intros c _. apply post_ret. auto.
Qed.

Lemma scratch_endpoint_ok X l e ep buf : engine_ok X l e → ep_ok caps ep [] [] ∅ → engine_ok X l (set_scratch (set_endpoint e ep) buf).
Proof. intros He Hep. eapply engine_ok_parts; [exact He|done..|apply mem_kept_refl|done]. Qed.
Lemma enqueue_ok X l e t : engine_ok X l e → engine_ok X l (enqueue_proto_transmit e t).
Proof. intros He. unfold enqueue_proto_transmit. cbv zeta. destruct (_ || _); [done|]. eapply engine_ok_parts; [exact He|apply He|done|done|apply mem_kept_refl|done]. Qed.

(** A slot for a new connection: its flag is set and it is queued. *)
Lemma new_slot_ok l e ch conn :
  engine_ok ∅ l e →
  let a := sh_next (te_shared e) in
  let sh := set_next_address (set_conns (te_shared e) (<[a := ConnState_new]> (sh_conns (te_shared e)))) (a + 1) in
  let '(i, slots) := slab_insert (te_connections e) (mkSlot ch conn [] None true ∅ a) in
  ∀ app, engine_ok {[i]} l (set_shared (set_pending_send (set_slots e slots (<[ch := i]> (te_ch_to_slot e))) (te_pending_send e ++ [i])) (wake_accept (push_incoming app sh))).
Proof.
  intros [A1 A2 A3 A4 A5]. cbv zeta. set (s := mkSlot _ _ _ _ _ _ _). pose proof (slab_insert_key _ (te_connections e) s) as Ek. pose proof (slab_map_insert _ (te_connections e) s) as Em.
  pose proof (slab_vacant _ (te_connections e)) as Hv. destruct (slab_insert (te_connections e) s) as [i slots]. cbn [fst snd] in *. rewrite <- Ek in *. clear Ek. intros app.
  assert (Hg : ∀ j, slab_map slots !! j = if decide (i = j) then Some s else slab_map (te_connections e) !! j).
  { intros j. rewrite Em. case_decide; [subst; apply lookup_insert_eq|by apply lookup_insert_ne]. }
  split; [done| | | |]; unfold get_slot; cbn [te_connections te_ch_to_slot te_pending_send te_shared set_shared set_pending_send set_slots].
  - intros h j Hj. rewrite Hg. apply lookup_insert_Some in Hj as [[<- <-]|[Hne Hj]]; [exists s; by rewrite decide_True|].
    destruct (A2 h j Hj) as (t & Ht & Eh). exists t. rewrite decide_False; [done|]. intros <-. unfold get_slot in Ht. congruence.
  - intros j t. rewrite Hg. case_decide; [subst; set_solver|]. intros Hj Hf. pose proof (A3 j t Hj Hf). set_solver.
  - eapply mem_ok_kept; [eapply mem_kept_trans; [apply push_incoming_kept|apply wake_accept_kept]|]. rewrite Em. by apply mem_ok_conn.
  - intros j t. rewrite Hg. case_decide; [subst; set_solver|]. intros Hj _. by apply (A5 j t).
Qed.

Lemma on_new_connection_ok e incoming now l :
  (∀ ep, engine_ok ∅ l (set_endpoint e ep) ↔ ep_ok caps ep [] [] ∅) → ep_ok caps (te_endpoint e) [incoming] [incoming] ∅ →
  within (on_new_connection max_instant crypto_turns cid_turns turns e incoming now) (engine_ok ∅ l).
Proof.
  intros He Hep. unfold on_new_connection.
  eapply within_bind; [by apply (accept_ok max_instant crypto_turns cid_turns caps (te_endpoint e) [] incoming [] ∅)|].
  intros [[r buf] ep] [H1 _]. cbn [fst snd] in H1. cbv zeta. set (e1 := set_scratch (set_endpoint e ep) buf).
  assert (H2 : engine_ok ∅ l e1). { apply He in H1 as H2. eapply engine_ok_parts; [exact H2|done|done|done|apply mem_kept_refl|done]. }
  clearbody e1. destruct r as [[ch conn]|err].
  - pose proof (new_slot_ok l e1 ch conn H2) as Hn. cbv zeta in Hn. destruct (slab_insert _ _) as [i slots]. apply drain_connection_events_ok, Hn.
  - apply within_done. destruct (ae_response err); [by apply enqueue_ok|done].
Qed.

Lemma dispatch_ok l e now system_now pkt :
  engine_ok ∅ l e → within (dispatch max_instant crypto_turns cid_turns turns e now system_now pkt) (engine_ok ∅ l).
Proof.
  intros He. unfold dispatch. cbv zeta. eapply within_step; [apply (ep_handle_ok caps), He|]. intros [[dg buf] ep] [H1 _]. cbn [fst snd] in H1. cbv zeta.
  destruct dg as [[ch ev|incoming|t]|]; cbn [after_datagram] in H1.
  - unfold on_datagram. destruct (te_ch_to_slot _ !! ch) as [i|]; [|by apply within_done, scratch_endpoint_ok].
    by apply (with_slot_conn_ok (fun c => handle_datagram _ c _ _ _ _ _)), scratch_endpoint_ok.
  - apply on_new_connection_ok; [|done]. intros ep'. split; [by intros [? _ _ _ _]|]. intros Hep. eapply engine_ok_parts; [exact He|done..|apply mem_kept_refl|done].
  - by apply within_done, enqueue_ok, scratch_endpoint_ok.
  - by apply within_done, scratch_endpoint_ok.
Qed.

Lemma recv_queue_ok fuel l e i now system_now w :
  engine_ok ∅ l e → within (recv_queue max_instant crypto_turns cid_turns turns fuel e i now system_now w) (fun r => engine_ok ∅ l r.2).
Proof.
  revert e w. induction fuel as [|fuel IH]; intros e w He; [done|]. cbn [recv_queue]. eapply within_step; [apply post_true|]. intros q _.
  destruct (queue_pop q) as [pkt q']. cbv zeta.
  assert (H1 : engine_ok ∅ l (set_rx_queues e (<[i := q']> (te_rx_queues e)))) by (eapply engine_ok_parts; [exact He|apply He|done|done|apply mem_kept_refl|done]).
  destruct pkt as [pkt|]; [|by apply within_done]. eapply within_bind; [by apply dispatch_ok|]. intros e2 H2. by apply IH.
Qed.
Lemma recv_and_dispatch_ok l e now system_now :
  engine_ok ∅ l e → within (recv_and_dispatch max_instant crypto_turns cid_turns turns e now system_now) (fun r => engine_ok ∅ l r.2).
Proof.
  intros He. unfold recv_and_dispatch. generalize (length (te_rx_queues e)) 0%nat false. intros n. revert e He. induction n as [|n IH]; intros e He i w; [by apply within_done|].
  cbn [recv_queues]. eapply within_bind; [by apply recv_queue_ok|]. intros [w' e'] H'. by apply IH.
Qed.

(** * Commands *)

(** Without room for another stream the slot keeps its deadline. *)
Lemma slot_open_idle s d :
  fresh s → post (slot_open s d) (fun r => ∃ c, r.2 = set_inner s c ∧ (r.1 = None → fresh (set_inner s c))).
Proof.
  intros (c0 & Ht & Hi). unfold slot_open. eapply post_bind; [apply post_eq|]. intros [id st] E. apply post_ret. eexists. split; [done|]. cbn [fst]. intros ->.
  exists c0. split; [done|]. by eapply idle_blocked.
Qed.

Lemma open_command_ok i l e d :
  engine_ok ∅ l e →
  within (retry_pending_opens (fun e => drain_connection_events max_instant cid_turns turns e i) e i d) (engine_ok ∅ l).
Proof.
  intros He. unfold retry_pending_opens. destruct (get_slot e i) as [s|] eqn:Hi; [|by apply within_done].
  assert (Hf : fresh s) by (apply (en_fresh _ _ _ _ _ _ He i); [done|set_solver]). eapply within_step; [by apply slot_open_idle|]. intros [id slot] (c & E & Hn).
  cbn [fst snd] in *. subst slot. cbv zeta. destruct id as [id|].
  - assert (Ha : at_slot i (sl_handle s) l e) by (apply at_slot_of; [done|]; rewrite Hi; by intros ? [= <-]).
    pose proof (open_stream_cell_ok _ _ _ _ id true (at_put_inner _ _ _ _ _ c Ha Hi)) as H2. apply drain_connection_events_ok.
    destruct (get_slot (open_stream_cell _ i id true) i) as [s2|] eqn:Hi2; [|apply H2]. by apply (at_queue i (sl_handle s) l _ s2).
  - apply within_done. apply put_slot_ok with s; try done; [|auto]. exact (en_queued _ _ _ _ _ _ He i s Hi).
Qed.

Lemma process_command_ok l e clock cmd : engine_ok ∅ l e → within (process_command max_instant cid_turns turns e clock cmd) (engine_ok ∅ l).
Proof.
  intros He. destruct cmd; cbn [process_command]; try (by apply with_slot_conn_ok). destruct (get_slot e _); [|by apply within_done]. by apply open_command_ok.
Qed.

Lemma process_app_commands_ok l e clock : engine_ok ∅ l e → within (process_app_commands max_instant cid_turns turns e clock) (fun r => engine_ok ∅ l r.2).
Proof.
  unfold process_app_commands. generalize (S (length (queue_items (sh_cmds (te_shared e))))) false. intros fuel. revert e.
  induction fuel as [|fuel IH]; intros e w He; [done|]. cbn [process_commands]. destruct (queue_pop _) as [cmd q]. cbv zeta.
  assert (H1 : engine_ok ∅ l (set_shared e (set_cmds (te_shared e) q))) by (eapply engine_ok_parts; [exact He|apply He|done|done|by apply mem_kept_same|done]).
  destruct cmd as [cmd|]; [|by apply within_done]. eapply within_bind; [by apply process_command_ok|]. intros e2. apply IH.
Qed.

(** * Timers *)

Lemma fire_ok l slots e now : engine_ok ∅ l e → within (fire max_instant cid_turns turns slots e now) (engine_ok ∅ l).
Proof.
  revert e. induction slots as [|i slots IH]; intros e He; [by apply within_done|]. cbn [fire].
  apply within_step with (engine_ok {[i]} l).
  - destruct (get_slot e i) as [s|] eqn:Hi; [|by apply post_ret; auto]. eapply post_bind; [apply post_true|]. intros c _. apply post_ret. auto.
  - intros e1 H1. eapply within_bind; [by apply drain_connection_events_ok|]. intros e2. apply IH.
Qed.
Lemma fire_timers_ok l e now : engine_ok ∅ l e → within (fire_timers max_instant cid_turns turns e now) (fun r => engine_ok ∅ l r.2).
Proof.
  intros He. unfold fire_timers. cbv zeta. eapply within_bind; [apply fire_ok|intros e1 H1; by apply within_done].
  eapply engine_ok_parts; [exact He|apply He|done|done|apply mem_kept_refl|done].
Qed.

(** * Transmitting *)

Lemma transmit_slot_ok fuel l e i now system_now first w :
  engine_ok ∅ l e → within (transmit_slot transmit_turns pick fuel e i now system_now first w) (fun r => engine_ok ∅ l r.2).
Proof.
  revert e first w. induction fuel as [|fuel IH]; intros e first w He; [done|]. cbn [transmit_slot]. destruct (get_slot e i) as [s|] eqn:Hi; [|by apply within_done].
  eapply within_step; [apply post_eq|]. intros [[t buf] c] E. cbv zeta. set (s' := set_send_buf (set_inner s c) buf). destruct t as [t|].
  - eapply within_step; [apply post_true|]. intros [payload x] _. cbv zeta. apply IH.
    assert (Ha : at_slot i (sl_handle s) l (put_slot e i (set_send_buf s' []))).
    { apply at_put with s; try done. apply at_slot_of; [done|]. rewrite Hi. by intros ? [= <-]. }
    eapply refresh_timeout_ok. destruct Ha as [Ha1 Ha2]. split; [|exact Ha2].
    eapply engine_ok_parts; [exact Ha1|apply Ha1|done|done|apply mem_kept_refl|done].
  - apply within_done. cbn [snd]. assert (Hf : fresh s').
    { destruct (en_fresh _ _ _ _ _ _ He i s Hi) as (c0 & Ht & Hc); [set_solver|]. exists c0. split; [done|]. by eapply idle_poll. }
    destruct first; [|by apply queue_ok with s]. apply put_slot_ok with s; try done. exact (en_queued _ _ _ _ _ _ He i s Hi).
Qed.

Lemma transmit_slots_ok l e now system_now w :
  engine_ok ∅ l e → within (transmit_slots transmit_turns pick turns l e now system_now w) (fun r => engine_ok ∅ [] r.2).
Proof.
  revert e w. induction l as [|i l IH]; intros e w He; cbn [transmit_slots]; [by apply within_done|]. destruct (get_slot e i) as [s|] eqn:Hi.
  - set (s' := set_pending_flag s false). assert (H1 : engine_ok ∅ (i :: l) (put_slot e i s')).
    { apply put_slot_ok with s; try done. intros _. destruct (en_fresh _ _ _ _ _ _ He i s Hi) as (c0 & ? & ?); [set_solver|]. by exists c0. }
    eapply within_bind; [apply (transmit_slot_ok _ l)|intros [w' e']; apply IH]. destruct H1 as [A1 A2 A3 A4 A5]. split; try done.
    intros j t Hj Hf. destruct (decide (i = j)) as [<-|Hne]; [|pose proof (A3 j t Hj Hf); set_solver].
    rewrite (get_put _ _ s), decide_True in Hj by done. by injection Hj as <-.
  - apply IH. destruct He as [A1 A2 A3 A4 A5]. split; try done. intros j t Hj Hf. pose proof (A3 j t Hj Hf) as Hin.
    assert (j ≠ i) by (intros ->; congruence). set_solver.
Qed.

Lemma drive_transmit_ok e now system_now :
  engine_ok ∅ [] e → within (drive_transmit transmit_turns pick turns e now system_now) (fun r => engine_ok ∅ [] r.2).
Proof.
  intros [A1 A2 A3 A4 A5]. apply transmit_slots_ok. split; try done. intros i s Hi Hf. cbn. rewrite app_nil_r. exact (A3 i s Hi Hf).
Qed.

Lemma run_once_ok e now system_now clock :
  engine_ok ∅ [] e →
  within (run_once max_instant crypto_turns cid_turns transmit_turns pick turns e now system_now clock) (fun r => engine_ok ∅ [] r.2 ∧ r.1.1 = next_deadline r.2).
Proof.
  intros He. unfold run_once. eapply within_bind; [by apply recv_and_dispatch_ok|]. intros [w1 e1] H1. cbn [snd] in H1.
  eapply within_bind; [by apply process_app_commands_ok|]. intros [w2 e2] H2. cbn [snd] in H2.
  eapply within_bind; [by apply drive_transmit_ok|]. intros [w3 e3] H3. cbn [snd] in H3.
  eapply within_bind; [by apply fire_timers_ok|]. intros [w4 e4] H4. cbn [snd] in H4. cbv zeta.
  apply within_bind with (engine_ok ∅ []); [|intros e5 H5; by apply within_done]. destruct (_ || _); [|by apply within_done].
  eapply within_bind; [by apply drive_transmit_ok|]. intros [w5 e5] H5. by apply within_done.
Qed.
End Ops.
