(* ===== verification/TileSample.v ===== *)
(** A concrete engine, a session of the client of [ConnSample] with it, and runs that show on concrete inputs what the code leaves
    undone. *)
From stdpp Require Import gmap.
From S2P Require Import Prelude Coding RangeSet Ids Shared Frame Float Packet TransportParams Token TokenCache Assembler Recv Send.
From S2P Require Import PendingStreams Retransmits CidQueue CidState Streams Dedup PendingAcks Mtud Timer AckFrequency Rtt.
From S2P Require Import Congestion Pacing Datagrams Spaces PacketCrypto Config Paths Connection ConnRecovery ConnReceive.
From S2P Require Import PacketBuilder ConnTransmit CidGenerator EndpointIndex Endpoint ConnSample EndpointSample.
From S2P Require Import TileNet TileNetTheorems Bridge BridgeTheorems TileEngine.
Open Scope Z_scope.

Notation SampleEngine := (TileEngine NewReno (list Buffer) ToySession Z NoneTokenStore (QuicLbConnectionIdGenerator Z) (fun A => gmap Z A)
  ToyConfig NoneTokenLog ListQueue (option Z)).

Definition sample_tile_config : EndpointConfig (QuicLbConnectionIdGenerator Z) :=
  mkEndpointConfig sample_reset_key (mkVarInt 1472) (mkQuicLb 0 CID_LEN 2) [1] true (20 * 10 ^ 6) None.
Definition sample_engine : SampleEngine :=
  TileEngine_new 7 [queue_new QUEUE_CAP] (queue_new QUEUE_CAP) (queue_new QUEUE_CAP) None sample_tile_config sample_settings.

Definition first_pick (l : gset StreamId) : option StreamId := head (elements l).
Definition engine_turn (e : SampleEngine) (now : Z) : M (option (option Z * bool * SampleEngine)) :=
  run_once far_future 10 5 50 first_pick 40 e now 0 (fun _ => now).

(** Datagrams for the engine, a turn of it, and the packets it sent. *)
Definition feed (e : SampleEngine) (l : list (list Z)) : SampleEngine :=
  set_rx_queues e (map (fun q => mkListQueue (lq_cap q) (lq_items q ++ map (fun d => mkRxPacket (fst (received_of (sample_addr 1, d))) d) l)) (te_rx_queues e)).
Definition taken (e : SampleEngine) : list TxPacket * SampleEngine :=
  (queue_items (te_tx_queue e), set_tx_queue e (queue_new QUEUE_CAP)).
Definition command (e : SampleEngine) (cmd : TileAppCommand) : SampleEngine := set_shared e (snd (push_cmd cmd (te_shared e))).

Definition serve_datagrams (e : SampleEngine) (l : list (list Z)) (now : Z) : M (option (list TxPacket * SampleEngine)) :=
  '(_, _, e) ⇐ engine_turn (feed e l) now;
  mret (Some (taken e)).

(** The datagrams of a packet, as a socket that segments would send them. *)
Fixpoint split_segments (fuel : nat) (n : Z) (l : list Z) : list (list Z) :=
  match fuel, l with
  | O, _ | _, [] => []
  | S fuel, _ => takeZ n l :: split_segments fuel n (dropZ n l)
  end.
Definition datagrams_of (p : TxPacket) : list (list Z) :=
  match tp_segment_size p with Some n => split_segments (length (tp_payload p)) n (tp_payload p) | None => [tp_payload p] end.

(** One exchange between the client and the engine. *)
Definition tile_exchange (c : SampleConnection) (e : SampleEngine) (now : Z) : M (option (SampleConnection * SampleEngine)) :=
  '(l, c) ← datagrams 5 c now;
  '(out, e) ⇐ serve_datagrams e l now;
  c ← mfold (fun c d => receive c now (sample_addr 2) d) (concat (map datagrams_of out)) c;
  mret (Some (c, e)).

(** The id the engine gives to its first connection, and a client that expects it. *)
Definition first_cid : ConnectionId := mkConnectionId 9 ([2; 0; 0; 0; 0; 3; 3; 3; 3] ++ replicate 11 0).
Definition tile_client : M SampleConnection :=
  Connection_new far_future 10 true sample_config (sample_cid 9) (sample_cid 1) (sample_cid 9) (sample_addr 2) None
    (mkToySession true 0 (params_of first_cid (Some (sample_cid 9)))) 8 None 0 1 true 7 (ClientArgs mkNoneTokenStore []).

Definition tile_handshake : M (option (SampleConnection * SampleEngine)) :=
  c ← tile_client;
  '(c, e) ⇐ tile_exchange c sample_engine 0;
  '(c, e) ⇐ tile_exchange c e (10 ^ 7);
  tile_exchange c e (2 * 10 ^ 7).

(** The client opens a stream and writes to it. *)
Definition client_open (c : SampleConnection) : M (StreamId * SampleConnection) :=
  '(id, st) ← Streams.open (c_streams c) false Bi;
  id ← Prelude.unwrap id;
  mret (id, set_c_streams c st).
Definition stream_zero : StreamId := StreamId_new Client Bi 0.

Definition tile_stream : M (option (SampleConnection * SampleEngine)) :=
  '(c, e) ⇐ tile_handshake;
  '(id, c) ← client_open c;
  c ← write_cmd id [1; 2; 3] false c;
  tile_exchange c e (3 * 10 ^ 7).

(** * Runs that show what the code leaves undone *)

Definition ms (n : Z) : Z := n * 10 ^ 6.
Definition ends {A} (m : M (option A)) (test : A → bool) : bool := match m with Ret (Some a) => test a | _ => false end.
Definition slot_test (e : SampleEngine) (i : Z) (test : ConnectionSlot NewReno (list Buffer) ToySession Z NoneTokenStore → bool) : bool :=
  match get_slot e i with Some s => test s | None => false end.
(** A command for the engine, and a turn. *)
Definition obey (e : SampleEngine) (cmd : TileAppCommand) (now : Z) : M (option SampleEngine) :=
  '(_, _, e) ⇐ engine_turn (command e cmd) now;
  mret (Some e).
Definition bytes (n : Z) : list Z := repeat 5 (Z.to_nat n).

(** * Connections that end *)

(** The slot of a connection the peer closes goes, and with it the timer that would have drained the connection: the endpoint keeps
    the connection and its ids, and no deadline is left. *)
Definition closed_by_peer : M (option (SampleConnection * SampleEngine)) :=
  '(c, e) ⇐ tile_handshake;
  tile_exchange (close c (ms 30) (mkVarInt 0) []) e (ms 30).
Lemma lost_connection_kept_by_endpoint :
  ends closed_by_peer (fun '(_, e) =>
    bool_decide (dom (te_connections e) = ∅) && bool_decide (dom (e_connections (te_endpoint e)) = {[0]}) &&
    negb (bool_decide (dom (connection_ids (e_index (te_endpoint e))) = ∅)) && bool_decide (next_deadline e = None)) = true.
Proof. vm_compute. reflexivity. Qed.

(** The slot of a connection closed by the application stays when the connection is drained. *)
Lemma closed_slot_stays :
  ends ('(_, e) ⇐ tile_handshake; 'e ⇐ obey e (CmdCloseConn 0) (ms 30); '(_, _, e) ⇐ engine_turn e (ms 100000); mret (Some e)) (fun e =>
    bool_decide (dom (e_connections (te_endpoint e)) = ∅) && slot_test e 0 (fun s => is_drained (c_state (sl_inner s)))) = true.
Proof. vm_compute. reflexivity. Qed.

(** A new connection gets the slot of one that is gone; a command of the old one's handle closes it. *)
Definition second_client : M SampleConnection :=
  Connection_new far_future 10 true sample_config (sample_cid 8) (sample_cid 1) (sample_cid 8) (sample_addr 2) None
    (mkToySession true 0 (params_of first_cid (Some (sample_cid 8)))) 8 None 0 1 true 7 (ClientArgs mkNoneTokenStore []).
Lemma slot_reused :
  ends ('(_, e) ⇐ closed_by_peer;
        c ← second_client;
        '(_, e) ⇐ tile_exchange c e (ms 40);
        'e' ⇐ obey e (CmdCloseConn 0) (ms 41);
        mret (Some (e, e'))) (fun '(e, e') =>
    bool_decide (map ac_slot (queue_items (sh_incoming (te_shared e))) = [0; 0]) &&
    slot_test e 0 (fun s => (sl_handle s =? 1) && negb (is_closed (c_state (sl_inner s)))) &&
    slot_test e' 0 (fun s => (sl_handle s =? 1) && is_closed (c_state (sl_inner s)))) = true.
Proof. vm_compute. reflexivity. Qed.

(** * Data of streams *)

Definition written (e : SampleEngine) (id : StreamId) : option Z :=
  match get_slot e 0 with
  | Some s => match send (c_streams (sl_inner s)) !! id with Some (Some x) => Some (SendBuffer.offset (s_pending x)) | _ => None end
  | None => None
  end.
Definition receiving (e : SampleEngine) (id : StreamId) : option (Recv (list Buffer)) :=
  match get_slot e 0 with
  | Some s => match recv (c_streams (sl_inner s)) !! id with Some (Some (Streams.Open r)) => Some r | _ => None end
  | None => None
  end.
Definition cell_data (e : SampleEngine) (a : Z) : option (list (list Z) * bool) :=
  (fun c => (queue_items (recv_data c), recv_fin c)) <$> sh_cells (te_shared e) !! a.

(** Of a write that exceeds what the peer allows only a part is taken; the application was told that all of it was. *)
Lemma write_cut_off :
  ends ('(_, e) ⇐ tile_stream;
        let '(r, sh) := prog_run (poll_write (SendStream_new 0 0 stream_zero 1) 1 (bytes 100001)) (te_shared e) in
        'e' ⇐ process_app_commands far_future 5 40 (set_shared e sh) (fun _ => ms 40);
        mret (Some (r, snd e'))) (fun '(r, e) =>
    match r with Ready n => n =? 100001 | Pending => false end && bool_decide (written e stream_zero = Some 100000)) = true.
Proof. vm_compute. reflexivity. Qed.

(** Seventeen frames with a byte each: the last one stays in the connection when the application has read the others, and later
    turns do not deliver it. *)
Fixpoint send_bytes (n : nat) (c : SampleConnection) (now : Z) : M (list (list Z) * SampleConnection) :=
  match n with
  | O => mret ([], c)
  | S n =>
      c ← write_cmd stream_zero [Z.of_nat n] false c;
      '(l, c) ← datagrams 1 c now;
      '(l', c) ← send_bytes n c now;
      mret (l ++ l', c)
  end.
Fixpoint pop_all (n : nat) (a : Z) (sh : Shared ListQueue (option Z)) : Shared ListQueue (option Z) :=
  match n with O => sh | S n => pop_all n a (snd (pop_data a sh)) end.
Definition seventeen : M (option (SampleEngine * SampleEngine)) :=
  '(c, e) ⇐ tile_handshake;
  '(_, c) ← client_open c;
  '(l, c) ← send_bytes 17 c (ms 30);
  '(_, e1) ⇐ serve_datagrams e l (ms 30);
  '(_, _, e2) ⇐ engine_turn (set_shared e1 (pop_all 16 1 (te_shared e1))) (ms 100);
  '(_, _, e2) ⇐ engine_turn e2 (ms 1000);
  mret (Some (e1, e2)).
Lemma seventeenth_chunk_stuck :
  ends seventeen (fun '(e1, e2) =>
    bool_decide (cell_data e1 1 = Some (map (fun n => [n]) [16; 15; 14; 13; 12; 11; 10; 9; 8; 7; 6; 5; 4; 3; 2; 1], false)) &&
    bool_decide (cell_data e2 1 = Some ([], false)) &&
    bool_decide (r_end <$> receiving e2 stream_zero = Some 17)) = true.
Proof. vm_compute. reflexivity. Qed.

(** The engine takes note of a reset, and the stream is gone; the reader is not told. *)
Lemma reset_not_reported :
  ends ('(c, e) ⇐ tile_stream;
        c ← reset_cmd stream_zero 7 c;
        tile_exchange c e (ms 40)) (fun '(_, e) =>
    bool_decide (cell_data e 1 = Some ([[1; 2; 3]], false)) &&
    match receiving e stream_zero with Some _ => false | None => true end) = true.
Proof. vm_compute. reflexivity. Qed.

(** A reader that waits is not woken when the peer closes the connection. *)
Definition reader_waits (e : SampleEngine) : SampleEngine :=
  set_shared e (snd (prog_run (poll_read (RecvStream_new 0 0 stream_zero 1) 5 100) (pop_all 1 1 (te_shared e)))).
Lemma reader_left_waiting :
  ends ('(c, e) ⇐ tile_stream; tile_exchange (close c (ms 40) (mkVarInt 0) []) (reader_waits e) (ms 40)) (fun '(_, e) =>
    bool_decide (dom (te_connections e) = ∅) && bool_decide (cell_data e 1 = Some ([], false)) &&
    bool_decide (recv_waker <$> sh_cells (te_shared e) !! 1 = Some (Some 5)) && bool_decide (5 ∉ sh_woken (te_shared e))) = true.
Proof. vm_compute. reflexivity. Qed.

(** * Deadlines *)

(** Writes of one datagram each until the pacer holds one back: the deadline of the slot is not the one the pacer asks for. *)
Fixpoint exchanges (n : nat) (c : SampleConnection) (e : SampleEngine) (now : Z) : M (option (SampleConnection * SampleEngine)) :=
  match n with
  | O => mret (Some (c, e))
  | S n => '(c, e) ⇐ tile_exchange c e now; exchanges n c e (now + ms 10)
  end.
Fixpoint writes (n : nat) (e : SampleEngine) (now : Z) : M (option SampleEngine) :=
  match n with
  | O => mret (Some e)
  | S n => 'e ⇐ obey e (CmdWrite 0 stream_zero (bytes 1300) false) now; writes n e now
  end.
Lemma pacing_deadline_missed :
  ends ('(c, e) ⇐ tile_stream;
        '(_, e) ⇐ exchanges 10 c (command e (CmdWrite 0 stream_zero (bytes 60000) false)) (ms 40);
        writes 15 e (ms 140)) (fun e =>
    bool_decide (te_pending_send e = []) &&
    slot_test e 0 (fun s => bool_decide (sl_next_timeout s = Some 155000000) && bool_decide (poll_timeout (sl_inner s) = Some 141536000))) = true.
Proof. vm_compute. reflexivity. Qed.

(** * Streams nobody asked for *)

(** A higher limit on streams makes the engine open one, although no command to open a stream is waiting. *)
Lemma unasked_stream_opened :
  ends ('(_, e) ⇐ tile_handshake;
        s ← Prelude.unwrap (get_slot e 0);
        let '(_, st) := received_max_streams (c_streams (sl_inner s)) Bi 20 in
        drain_connection_events far_future 5 40 (put_slot e 0 (set_inner s (set_c_streams (sl_inner s) st))) 0) (fun e =>
    slot_test e 0 (fun s => bool_decide (dom (sl_streams s) = {[StreamId_new Server Bi 0]})) &&
    bool_decide (len (queue_items (sh_cmds (te_shared e))) = 0)) = true.
Proof. vm_compute. reflexivity. Qed.
