(* ===== verification/TileEngineTheorems.v ===== *)
(** Properties of engines: where datagrams go, what waits for which deadline, the memory of slots, and the data of streams. *)
From stdpp Require Import gmap sorting.
From S2P Require Import Prelude Coding RangeSet Ids Shared Frame Float Packet TransportParams Token TokenCache Assembler Recv Send.
From S2P Require Import PendingStreams Retransmits CidQueue CidState Streams Dedup PendingAcks Mtud Timer AckFrequency Rtt.
From S2P Require Import Congestion Pacing Datagrams Spaces PacketCrypto Config Paths Connection ConnRecovery ConnReceive.
From S2P Require Import PacketBuilder ConnTransmit CidGenerator EndpointIndex Endpoint Post EndpointInv EndpointOps EndpointTheorems.
From S2P Require Import TileNet Bridge TileEngine TileEngineInv TileEngineOps.
From S2P Require Import ConnSample EndpointSample TileNetTheorems BridgeTheorems TileSample.
Open Scope Z_scope.

(** * Runs *)

Section Runs.
Context {C : Type} {HC : Controller C} {H : Type} {HH : Heap H} {T : Type} {HT : Session T} {R : Type} {HR : Rng R}
  {TS : Type} {HTS : TokenStore TS}.
Context {HRC : RngCore R} {HER : EndpointRng R} {G : Type} {HG : ConnectionIdGenerator G} {SL : Type → Type} {HS : Slab SL}
  {HSok : SlabOk SL} {SC : Type} {HSC : CryptoServerConfig SC T} {L : Type} {HL : TokenLog L}.
Context {Q : Type → Type} {HQ : ArrayQueue Q} {HQok : ArrayQueueOk Q} {W : Type} {HW : AtomicWaker W}.
Context (max_instant : Z) (crypto_turns cid_turns transmit_turns : nat) (pick : gset StreamId → option StreamId) (turns : nat).
Local Notation Connection := (Connection C H T R TS).
Local Notation ConnectionSlot := (ConnectionSlot C H T R TS).
Local Notation TileEngine := (TileEngine C H T R TS G SL SC L Q W).
Implicit Types (e : TileEngine) (s : ConnectionSlot) (sh : Shared Q W).

(** The accesses the application makes to the memory it shares with the engine. *)
Inductive AppAccess : Type :=
| PopData (a : Z)
| RegisterRecv (a task : Z)
| RegisterSend (a task : Z)
| PopEvent (a : Z)
| PushBackEvent (a : Z) (ev : ConnEvent)
| RegisterEvt (a task : Z)
| PopIncoming
| RegisterAccept (task : Z)
| PushCmd (cmd : TileAppCommand)
| Unpark.
Definition app_access (x : AppAccess) sh : Shared Q W :=
  match x with
  | PopData a => snd (pop_data a sh)
  | RegisterRecv a task => snd (register_recv a task sh)
  | RegisterSend a task => snd (register_send a task sh)
  | PopEvent a => snd (pop_event a sh)
  | PushBackEvent a ev => snd (push_back_event a ev sh)
  | RegisterEvt a task => snd (register_evt a task sh)
  | PopIncoming => snd (pop_incoming sh)
  | RegisterAccept task => snd (register_accept task sh)
  | PushCmd cmd => snd (push_cmd cmd sh)
  | Unpark => snd (unpark_engine sh)
  end.

(** What happens to an engine: turns, packets from the readers, packets taken by the writer, accesses of the application. *)
Inductive EngineAction : Type :=
| TakeTurn (now system_now : Z) (clock : nat → Z)
| PacketIn (i : nat) (p : RxPacket)
| PacketOut
| Access (x : AppAccess).
Definition engine_perform (a : EngineAction) e : M (option TileEngine) :=
  match a with
  | TakeTurn now system_now clock =>
      '(_, _, e) ⇐ run_once max_instant crypto_turns cid_turns transmit_turns pick turns e now system_now clock; mret (Some e)
  | PacketIn i p => mret (Some (set_rx_queues e (alter (fun q => snd (queue_push q p)) i (te_rx_queues e))))
  | PacketOut => mret (Some (set_tx_queue e (snd (queue_pop (te_tx_queue e)))))
  | Access x => mret (Some (set_shared e (app_access x (te_shared e))))
  end.
Fixpoint engine_run (acts : list EngineAction) e : M (option TileEngine) :=
  match acts with
  | [] => mret (Some e)
  | a :: acts => turns_bind (engine_perform a e) (engine_run acts)
  end.

Lemma app_access_kept x sh : mem_kept sh (app_access x sh).
Proof.
  destruct x; cbn [app_access].
  - unfold pop_data. destruct (sh_cells sh !! a) as [c|] eqn:E; [|apply mem_kept_refl].
    pose proof (queue_pop_items _ (recv_data c)) as Hp. pose proof (queue_pop_cap _ (recv_data c)) as Hc.
    destruct (queue_pop (recv_data c)) as [d q]. apply mem_kept_cell with c; [done|]. cbn [fst snd] in *.
    unfold cell_ok, queue_len. cbn [recv_data]. rewrite Hc.
    rewrite Hp. intros [-> Hl]. split; [done|]. destruct (queue_items (recv_data c)); cbn [tail]; rewrite ?len_cons in *; lia.
  - unfold register_recv. cbn [snd]. destruct (sh_cells sh !! a) as [c|] eqn:E; [|apply mem_kept_refl]. by apply mem_kept_cell with c.
  - unfold register_send. cbn [snd]. destruct (sh_cells sh !! a) as [c|] eqn:E; [|apply mem_kept_refl]. by apply mem_kept_cell with c.
  - unfold pop_event. destruct (sh_conns sh !! a) as [c|] eqn:E; [|apply mem_kept_refl]. destruct (queue_pop _). by apply mem_kept_conn with c.
  - apply push_event_kept.
  - unfold register_evt. cbn [snd]. destruct (sh_conns sh !! a) as [c|] eqn:E; [|apply mem_kept_refl]. by apply mem_kept_conn with c.
  - unfold pop_incoming. destruct (queue_pop _). by apply mem_kept_same.
  - by apply mem_kept_same.
  - unfold push_cmd. destruct (queue_push _ _). by apply mem_kept_same.
  - unfold unpark_engine. cbn [snd]. destruct (ew_thread _); by apply mem_kept_same.
Qed.

Context (caps : Caps).
Local Notation engine_ok := (engine_ok transmit_turns pick caps).

Lemma engine_perform_ok a e : engine_ok ∅ [] e → within (engine_perform a e) (engine_ok ∅ []).
Proof.
  intros He. destruct a as [now system_now clock|i p| |x]; cbn [engine_perform].
  - eapply within_bind; [by apply run_once_ok|]. intros [[d w] e'] [H1 _]. by apply within_done.
  - apply within_done. eapply engine_ok_parts; [exact He|apply He|done|done|apply mem_kept_refl|done].
  - apply within_done. eapply engine_ok_parts; [exact He|apply He|done|done|apply mem_kept_refl|done].
  - apply within_done. eapply engine_ok_parts; [exact He|apply He|done|done|apply app_access_kept|done].
Qed.
Lemma engine_run_ok acts e : engine_ok ∅ [] e → within (engine_run acts e) (engine_ok ∅ []).
Proof.
  revert e. induction acts as [|a acts IH]; intros e He; cbn [engine_run]; [by apply within_done|]. eapply within_bind; [by apply engine_perform_ok|]. intros e'. apply IH.
Qed.
End Runs.

(** * Deadlines *)

Lemma slab_list_elem {SL} `{Slab SL} {A} (s : SL A) k a : (k, a) ∈ slab_list s ↔ slab_map s !! k = Some a.
Proof.
  unfold slab_list. rewrite list_elem_of_omap. split.
  - intros (j & _ & Hj). apply fmap_Some in Hj as (b & Hb & [= -> ->]). done.
  - intros Hk. exists k. split; [|by rewrite Hk]. rewrite merge_sort_Permutation. apply elem_of_elements. by eapply elem_of_dom_2.
Qed.

(** [d] is the least of the deadlines. *)
Definition least_deadline {A} (deadline : A → option Z) (l : list A) (d : option Z) : Prop :=
  (∀ a t, a ∈ l → deadline a = Some t → ∃ t', d = Some t' ∧ t' <= t) ∧ (∀ t, d = Some t → ∃ a, a ∈ l ∧ deadline a = Some t).

Lemma least_deadline_foldr {A} (deadline : A → option Z) (l : list A) :
  least_deadline deadline l (foldr (fun a acc => match deadline a, acc with
                                                 | Some t, Some m => Some (Z.min t m)
                                                 | Some t, None => Some t
                                                 | None, _ => acc
                                                 end) None l).
Proof.
  induction l as [|a l [IH1 IH2]]; [split; [by intros a t ?%elem_of_nil|done]|]. cbn [foldr]. set (d := foldr _ None l) in *. clearbody d. split.
  - intros b t [->|Hb]%elem_of_cons Ht; [rewrite Ht; destruct d; eexists; split; [done|lia|done|lia]|].
    destruct (IH1 b t Hb Ht) as (m & -> & Hm). destruct (deadline a); eexists; (split; [done|lia]).
  - intros t Ht. destruct (deadline a) as [ta|] eqn:Ea; [|destruct (IH2 t Ht) as (b & ? & ?); exists b; split; [by apply elem_of_cons; right|done]].
    destruct d as [m|]; injection Ht as <-; [|exists a; split; [apply elem_of_cons; by left|done]].
    destruct (Z.min_spec ta m) as [[_ ->]|[_ ->]]; [exists a; split; [apply elem_of_cons; by left|done]|].
    destruct (IH2 m eq_refl) as (b & ? & ?). exists b. split; [by apply elem_of_cons; right|done].
Qed.

Section Reached.
Context {C : Type} {HC : Controller C} {H : Type} {HH : Heap H} {T : Type} {HT : Session T} {R : Type} {HR : Rng R}
  {TS : Type} {HTS : TokenStore TS}.
Context {HRC : RngCore R} {HER : EndpointRng R} {G : Type} {HG : ConnectionIdGenerator G} {SL : Type → Type} {HS : Slab SL}
  {HSok : SlabOk SL} {SC : Type} {HSC : CryptoServerConfig SC T} {L : Type} {HL : TokenLog L}.
Context {Q : Type → Type} {HQ : ArrayQueue Q} {HQok : ArrayQueueOk Q} {W : Type} {HW : AtomicWaker W}.
Context (max_instant : Z) (crypto_turns cid_turns transmit_turns : nat) (pick : gset StreamId → option StreamId) (turns : nat).
Local Notation TileEngine := (TileEngine C H T R TS G SL SC L Q W).
Local Notation ConnectionSlot := (ConnectionSlot C H T R TS).

(** The engines runs of a new engine reach. *)
Definition engine_reached (os_rng : R) (rx_queues : list (Q RxPacket)) (tx_queue : Q TxPacket) (incoming : Q AppConnection) (waker : W)
    (endpoint_config : EndpointConfig G) (server_config : ServerSettings C SC L) (acts : list EngineAction) : M (option TileEngine) :=
  engine_run max_instant crypto_turns cid_turns transmit_turns pick turns acts
    (TileEngine_new os_rng rx_queues tx_queue incoming waker endpoint_config server_config).

(** The limits of a server's settings. *)
Definition settings_caps (s : ServerSettings C SC L) : Caps :=
  mkCaps (sc_incoming_buffer_size (ss_config s)) (sc_incoming_buffer_size_total (ss_config s)) (sc_max_incoming (ss_config s)).

Lemma engine_reached_ok os_rng rx tx incoming waker config settings acts e :
  engine_reached os_rng rx tx incoming waker config settings acts = Ret (Some e) →
  engine_ok transmit_turns pick (settings_caps settings) ∅ [] e.
Proof.
  intros Hr. refine (post_elim _ _ _ (engine_run_ok _ _ _ _ _ _ (settings_caps settings) acts _ _) Hr). split; unfold get_slot; cbn; rewrite ?slab_map_new.
  - apply Endpoint_new_ok. intros s [= <-]. unfold capped. cbn. lia.
  - intros h i. by rewrite lookup_empty.
  - intros i s. by rewrite lookup_empty.
  - split; cbn; intros *; rewrite ?lookup_empty, ?dom_empty_L; done.
  - intros i s. by rewrite lookup_empty.
Qed.

(** C13: whatever packets, commands and accesses an engine sees, no attempt to connect is left waiting in its endpoint, every
    datagram the endpoint can route goes to a connection the endpoint has, and the slot the engine finds for a connection exists
    and is that connection's. *)
Theorem engine_datagrams_reach_slots os_rng rx tx incoming waker config settings acts e :
  engine_reached os_rng rx tx incoming waker config settings acts = Ret (Some e) →
  slab_map (e_incoming_buffers (te_endpoint e)) = ∅ ∧ e_all_incoming_buffers_total_bytes (te_endpoint e) = 0 ∧
  (∀ addresses d, match index_get (e_index (te_endpoint e)) addresses d with
                  | Some (ToIncoming _) => False
                  | Some (ToConnection ch) => is_Some (slab_map (e_connections (te_endpoint e)) !! ch)
                  | None => True
                  end) ∧
  (∀ ch i, te_ch_to_slot e !! ch = Some i → ∃ s, get_slot e i = Some s ∧ sl_handle s = ch).
Proof.
  intros Hr. apply engine_reached_ok in Hr as [Hep Hh _ _ _].
  assert (He : slab_map (e_incoming_buffers (te_endpoint e)) = ∅).
  { apply map_empty. intros k. apply eq_None_not_Some. rewrite (bo_keys _ _ _ _ (eo_buffers _ _ _ _ _ Hep) k). cbn. by intros ?%elem_of_nil. }
  split; [done|]. split; [by rewrite (bo_total _ _ _ _ (eo_buffers _ _ _ _ _ Hep)), He|]. split; [|done].
  intros addresses d. destruct (index_get _ addresses d) as [[k|ch]|] eqn:Eg; [| |done].
  - pose proof (index_get_cases (e_index (te_endpoint e)) addresses d) as Hc. cbv zeta in Hc. rewrite Eg in Hc.
    destruct (no_incoming _ _ _ (eo_initial _ _ _ _ _ Hep) _ _ Hc) as (i & Hi & _). by apply elem_of_nil in Hi.
  - destruct (routes_live _ _ _ _ _ _ _ _ Hep Eg) as [Hl|Hl]; [done|set_solver].
Qed.

(** C19: in every engine a slot that is marked for sending is in the queue of slots to send for, and its deadline is the
    one of its connection when it was last not idle; a turn ends with the least deadline of all slots. *)
Theorem engine_slots_scheduled os_rng rx tx incoming waker config settings acts e :
  engine_reached os_rng rx tx incoming waker config settings acts = Ret (Some e) →
  (∀ i s, get_slot e i = Some s →
    (sl_has_pending_send s = true → i ∈ te_pending_send e) ∧
    ∃ c0, sl_next_timeout s = poll_timeout c0 ∧ idle_since transmit_turns pick c0 (sl_inner s)) ∧
  ∀ now system_now clock d w e',
    run_once max_instant crypto_turns cid_turns transmit_turns pick turns e now system_now clock = Ret (Some (d, w, e')) →
    (∀ i s t, get_slot e' i = Some s → sl_next_timeout s = Some t → ∃ t', d = Some t' ∧ t' <= t) ∧
    (∀ t, d = Some t → ∃ i s, get_slot e' i = Some s ∧ sl_next_timeout s = Some t).
Proof.
  intros Hr. apply engine_reached_ok in Hr as He. split.
  - intros i s Hi. split; [exact (en_queued _ _ _ _ _ _ He i s Hi)|]. apply (en_fresh _ _ _ _ _ _ He i s Hi). set_solver.
  - intros now system_now clock d w e' Hrun. pose proof (post_elim _ _ _ (run_once_ok max_instant crypto_turns cid_turns transmit_turns pick _ turns e now system_now clock He) Hrun) as [_ Hd].
    cbn [fst snd] in Hd. subst d. destruct (least_deadline_foldr (fun p => sl_next_timeout (snd p)) (slab_list (te_connections e'))) as [H1 H2]. split.
    + intros i s t Hi Ht. by apply (H1 (i, s)); [apply slab_list_elem|].
    + intros t Ht. destruct (H2 t Ht) as ([i s] & Hi & Hs). exists i, s. split; [by apply slab_list_elem|done].
Qed.


(** * Data *)

(** What a stream gives up to a cell with [room] places. *)
Definition readable_chunks (s : StreamsState H) (id : StreamId) (room : Z) : M (list (list Z) * bool) :=
  if room =? 0 then mret ([], false)
  else
    '(r, s) ← Chunks_new s id true;
    match r with
    | Err _ => mret ([], false)
    | Ok chunks => '(chunks_local, fin, _, _) ← read_chunks (Z.to_nat room) chunks s []; mret (chunks_local, fin)
    end.

Lemma read_chunks_len room chunks (st : StreamsState H) l :
  post (read_chunks room chunks st l) (fun r => len r.1.1.1 <= len l + Z.of_nat room).
Proof.
  revert chunks st l. induction room as [|room IH]; intros chunks st l; cbn [read_chunks]; [apply post_ret; cbn; lia|].
  eapply post_bind; [apply post_true|]. intros [[r c'] st'] _. destruct r as [[chunk|]|]; [|apply post_ret; cbn; lia..].
  eapply post_weaken; [apply IH|]. cbn. intros x. rewrite len_app, len_cons, len_nil. lia.
Qed.

Lemma push_chunks_all a l (sh : Shared Q W) pushed c :
  sh_cells sh !! a = Some c → queue_len (recv_data c) + len l <= queue_cap (recv_data c) →
  ∃ q, queue_items q = queue_items (recv_data c) ++ l ∧
    push_chunks a l sh pushed = (pushed || negb (len l =? 0), set_cells sh (<[a := mkStreamCell q (recv_waker c) (recv_fin c) (send_waker c)]> (sh_cells sh))).
Proof.
  revert sh pushed c. induction l as [|d l IH]; intros sh pushed c Hc Hl.
  - exists (recv_data c). rewrite app_nil_r, orb_false_r. split; [done|]. destruct c as [q w f sw]. cbn. rewrite insert_id by done. by destruct sh.
  - rewrite len_cons in Hl. cbn [push_chunks]. unfold push_data. rewrite Hc. pose proof (queue_push_ok _ (recv_data c) d) as Ho.
    pose proof (queue_push_items _ (recv_data c) d) as Hi. pose proof (queue_push_cap _ (recv_data c) d) as Hp. unfold queue_len in *.
    destruct (queue_push (recv_data c) d) as [ok q]. cbn [fst snd] in *. pose proof (len_nonneg l).
    rewrite (proj2 (Z.ltb_lt _ _)) in Ho, Hi by lia. subst ok. set (c1 := mkStreamCell q _ _ _).
    destruct (IH (set_cells sh (<[a := c1]> (sh_cells sh))) (pushed || true) c1) as (q' & Hq & ->).
    + apply lookup_insert_eq.
    + cbn. rewrite Hi, Hp, len_app, len_cons, len_nil. lia.
    + exists q'. split; [rewrite Hq; cbn; by rewrite Hi, <- app_assoc|]. cbn. rewrite insert_insert_eq, len_cons. f_equal.
      rewrite orb_true_r. symmetry. apply orb_true_iff. right. apply negb_true_iff, Z.eqb_neq. lia.
Qed.

(** The end of a delivery. *)
Lemma end_of_delivery a (sh : Shared Q W) c (fin wake : bool) :
  sh_cells sh !! a = Some c →
  let sh1 := if fin then store_fin a sh else sh in
  let sh2 := if wake then wake_recv a sh1 else sh1 in
  ∃ c', sh_cells sh2 !! a = Some c' ∧ recv_data c' = recv_data c ∧ recv_fin c' = recv_fin c || fin ∧
    (∀ b, b ≠ a → sh_cells sh2 !! b = sh_cells sh !! b) ∧
    (wake = true → ∀ task, fst (waker_wake (recv_waker c)) = Some task → task ∈ sh_woken sh2).
Proof.
  intros Hc. cbv zeta. assert (H1 : ∃ c1, sh_cells (if fin then store_fin a sh else sh) !! a = Some c1 ∧ recv_data c1 = recv_data c ∧
    recv_waker c1 = recv_waker c ∧ recv_fin c1 = recv_fin c || fin ∧ ∀ b, b ≠ a → sh_cells (if fin then store_fin a sh else sh) !! b = sh_cells sh !! b).
  { destruct fin; [|by exists c; rewrite orb_false_r]. unfold store_fin. rewrite Hc. eexists. split; [apply lookup_insert_eq|]. cbn. rewrite orb_true_r.
    repeat (split; [done|]). intros b Hb. by apply lookup_insert_ne. }
  destruct H1 as (c1 & E1 & D1 & W1 & F1 & O1). set (sh1 := if fin then store_fin a sh else sh) in *. clearbody sh1.
  destruct wake; [|by exists c1]. unfold wake_recv. rewrite E1, W1. destruct (waker_wake (recv_waker c)) as [t w]. eexists. cbn. split; [apply lookup_insert_eq|].
  cbn. repeat (split; [done|]). split; [intros b Hb; by rewrite lookup_insert_ne, O1|]. intros _ task ->. cbn. set_solver.
Qed.

End Reached.

(** * A session *)

(** The session of [TileSample] as seen by the engine. *)
Definition packets_in (l : list (list Z)) (now : Z) : list EngineAction :=
  map (fun d => PacketIn 0 (mkRxPacket (fst (received_of (sample_addr 1, d))) d)) l ++ [TakeTurn now 0 (fun _ => now)].
Definition exchange_acts (c : SampleConnection) (e : SampleEngine) (now : Z) : M (option (SampleConnection * SampleEngine * list EngineAction)) :=
  '(l, _) ← datagrams 5 c now;
  '(c, e) ⇐ tile_exchange c e now;
  mret (Some (c, e, packets_in l now)).
Definition stream_acts : list EngineAction :=
  match (c ← tile_client;
         '(c, e, a1) ⇐ exchange_acts c sample_engine 0;
         '(c, e, a2) ⇐ exchange_acts c e (10 ^ 7);
         '(c, e, a3) ⇐ exchange_acts c e (2 * 10 ^ 7);
         '(id, c) ← client_open c;
         c ← write_cmd id [1; 2; 3] false c;
         '(_, _, a4) ⇐ exchange_acts c e (3 * 10 ^ 7);
         mret (Some (a1 ++ a2 ++ a3 ++ a4))) with
  | Ret (Some l) => l
  | _ => []
  end.
Definition sample_reached (acts : list EngineAction) : M (option SampleEngine) :=
  engine_reached far_future 10 5 50 first_pick 40 7 [queue_new QUEUE_CAP] (queue_new QUEUE_CAP) (queue_new QUEUE_CAP) None
    sample_tile_config sample_settings acts.
Definition engine_reaches (acts : list EngineAction) (test : SampleEngine → bool) : bool :=
  match sample_reached acts with Ret (Some e) => test e | _ => false end.
Lemma engine_reaches_spec acts test : engine_reaches acts test = true → ∃ e, sample_reached acts = Ret (Some e) ∧ test e = true.
Proof. unfold engine_reaches. destruct (sample_reached acts) as [[e|]|]; try discriminate. intros Ht. by exists e. Qed.

(** The connection has a slot, and its stream a cell. *)
Definition has_stream (e : SampleEngine) : bool :=
  bool_decide (te_ch_to_slot e !! 0 = Some 0) &&
  match get_slot e 0 with Some s => bool_decide (sl_streams s !! stream_zero = Some 1) | None => false end.
Lemma stream_reached : engine_reaches stream_acts has_stream = true.
Proof. vm_compute. reflexivity. Qed.

Lemma engine_datagrams_reach_slots_witness :
  ∃ e, sample_reached stream_acts = Ret (Some e) ∧ ∃ s, get_slot e 0 = Some s ∧ sl_handle s = 0.
Proof.
  destruct (engine_reaches_spec _ _ stream_reached) as (e & Hr & Ht). apply andb_true_iff in Ht as [Ht _]. apply bool_decide_eq_true_1 in Ht.
  pose proof Hr as Hrun. unfold sample_reached in Hrun.
  destruct (engine_datagrams_reach_slots far_future 10 5 50 first_pick 40 7 _ _ _ None sample_tile_config sample_settings stream_acts e Hrun) as (_ & _ & _ & Hs).
  exists e. split; [exact Hr|]. exact (Hs 0 0 Ht).
Defined.

Lemma engine_slots_scheduled_witness :
  ∃ e, sample_reached stream_acts = Ret (Some e) ∧
    ∃ s c0, get_slot e 0 = Some s ∧ sl_next_timeout s = poll_timeout c0 ∧ idle_since 50 first_pick c0 (sl_inner s).
Proof.
  destruct (engine_reaches_spec _ _ stream_reached) as (e & Hr & Ht). apply andb_true_iff in Ht as [_ Ht].
  destruct (get_slot e 0) as [s|] eqn:Hi; [|discriminate]. pose proof Hr as Hrun. unfold sample_reached in Hrun.
  destruct (engine_slots_scheduled far_future 10 5 50 first_pick 40 7 _ _ _ None sample_tile_config sample_settings stream_acts e Hrun) as [Hs _].
  destruct (Hs 0 s Hi) as [_ (c0 & H1 & H2)]. exists e. split; [exact Hr|]. exists s, c0. split; [exact Hi|]. split; [exact H1|exact H2].
Defined.


(** More bytes and the end of the stream have arrived, and are not yet delivered. *)
Definition undelivered : M (option SampleEngine) :=
  '(c, e) ⇐ tile_stream;
  c ← write_cmd stream_zero [4; 5] true c;
  '(l, _) ← datagrams 1 c (4 * 10 ^ 7);
  '(dg, _, ep) ← ep_handle (te_endpoint e) (4 * 10 ^ 7) 0 (sample_addr 1) None None (hd [] l) [];
  match dg, get_slot e 0 with
  | Some (ForConnection _ ev), Some s =>
      c ← handle_datagram 10 (sl_inner s) (de_now ev) (de_remote ev) (de_ecn ev) (de_first_decode ev) (de_remaining ev);
      mret (Some (put_slot e 0 (set_inner s c)))
  | _, _ => mret None
  end.
Definition cell_items (e : SampleEngine) : option (list (list Z)) := (fun c => queue_items (recv_data c)) <$> sh_cells (te_shared e) !! 1.
Definition deliverable (e : SampleEngine) : bool :=
  match get_slot e 0 with Some s => bool_decide (sl_streams s !! stream_zero = Some 1) | None => false end &&
  match sh_cells (te_shared e) !! 1 with Some c => bool_decide (cell_ok c) | None => false end && bool_decide (cell_items e = Some [[1; 2; 3]]) &&
  match drain_readable_stream e 0 stream_zero with Ret e' => bool_decide (cell_items e' = Some [[1; 2; 3]; [4; 5]]) | Panic => false end.
Lemma undelivered_reached : match undelivered with Ret (Some e) => deliverable e | _ => false end = true.
Proof. vm_compute. reflexivity. Qed.

