(* ===== verification/Bbr.v ===== *)
(** The BBR congestion controller: [quic-proto/src/congestion/bbr/mod.rs] with its bandwidth estimate [bw_estimation.rs] and the
    windowed maximum [min_max.rs].

    Arithmetic on [u64] panics on overflow; gains are [f32] and products with them [f64], as in the source.  A duration is a number of
    nanoseconds; the difference of two instants saturates at zero. *)
From Stdlib Require Import SpecFloat Sorted.
From stdpp Require Import list sets.
From S2P Require Import Prelude AckFrequency Rtt Float Congestion Post.
Open Scope Z_scope.

Definition since (now t : Z) : Z := Z.max 0 (now - t).
Definition as_micros (d : Z) : Z := d / 1000.

(** * The windowed maximum *)

Record MinMaxSample : Type := mkSample { time : Z; value : Z }.
Record MinMax : Type := mkMinMax { mm_window : Z; mm_0 : MinMaxSample; mm_1 : MinMaxSample; mm_2 : MinMaxSample }.

Definition MinMaxSample_default : MinMaxSample := mkSample 0 0.
Definition MinMax_default : MinMax := mkMinMax 10 MinMaxSample_default MinMaxSample_default MinMaxSample_default.
Definition mm_get (m : MinMax) : Z := value (mm_0 m).
Definition mm_fill (m : MinMax) (s : MinMaxSample) : MinMax := mkMinMax (mm_window m) s s s.
Definition mm_reset (m : MinMax) : MinMax := mm_fill m MinMaxSample_default.

Definition subwin_update (m : MinMax) (s : MinMaxSample) : M MinMax :=
  dt ← usub (time s) (time (mm_0 m));
  if mm_window m <? dt then
    let m := mkMinMax (mm_window m) (mm_1 m) (mm_2 m) s in
    dt ← usub (time s) (time (mm_0 m));
    mret (if mm_window m <? dt then mkMinMax (mm_window m) (mm_1 m) (mm_2 m) s else m)
  else if (time (mm_1 m) =? time (mm_0 m)) && (mm_window m / 4 <? dt) then mret (mkMinMax (mm_window m) (mm_0 m) s s)
  else if (time (mm_2 m) =? time (mm_1 m)) && (mm_window m / 2 <? dt) then mret (mkMinMax (mm_window m) (mm_0 m) (mm_1 m) s)
  else mret m.

Definition update_max (m : MinMax) (current_round measurement : Z) : M MinMax :=
  let s := mkSample current_round measurement in
  if (value (mm_0 m) =? 0) || (value (mm_0 m) <=? value s) then mret (mm_fill m s)
  else
    dt ← usub (time s) (time (mm_2 m));
    if mm_window m <? dt then mret (mm_fill m s)
    else
      subwin_update (if value (mm_1 m) <=? value s then mkMinMax (mm_window m) (mm_0 m) s s
                     else if value (mm_2 m) <=? value s then mkMinMax (mm_window m) (mm_0 m) (mm_1 m) s
                     else m) s.

(** * The bandwidth estimate *)

Record BandwidthEstimation : Type := mkBandwidthEstimation {
  total_acked : Z; prev_total_acked : Z; acked_time : option Z; prev_acked_time : option Z;
  total_sent : Z; prev_total_sent : Z; sent_time : option Z; prev_sent_time : option Z;
  max_filter : MinMax; acked_at_last_window : Z
}.
Definition BandwidthEstimation_default : BandwidthEstimation := mkBandwidthEstimation 0 0 None None 0 0 None None MinMax_default 0.

(** [window_duration_ns as u64] drops the upper bits of a [u128]; division by a multiple of [2 ^ 64] panics. *)
Definition bw_from_delta (bytes delta : Z) : M (option Z) :=
  if delta =? 0 then mret None
  else
    b_ns ← umul bytes 1000000000;
    _ ← rassert (negb (delta mod 2 ^ 64 =? 0));
    mret (Some (b_ns / (delta mod 2 ^ 64))).

Definition bw_on_sent (b : BandwidthEstimation) (now bytes : Z) : M BandwidthEstimation :=
  total ← uadd (total_sent b) bytes;
  mret (mkBandwidthEstimation (total_acked b) (prev_total_acked b) (acked_time b) (prev_acked_time b) total (total_sent b)
          (Some now) (sent_time b) (max_filter b) (acked_at_last_window b)).

Definition bw_send_rate (b : BandwidthEstimation) (prev_sent_time : Z) : M Z :=
  match sent_time b with
  | Some sent_time =>
      if prev_sent_time <? sent_time then
        d ← usub (total_sent b) (prev_total_sent b);
        r ← bw_from_delta d (since sent_time prev_sent_time);
        mret (default 0 r)
      else mret u64_max
  | None => mret u64_max
  end.
Definition bw_ack_rate (b : BandwidthEstimation) (now : Z) : M Z :=
  match prev_acked_time b with
  | Some prev_acked_time =>
      d ← usub (total_acked b) (prev_total_acked b);
      r ← bw_from_delta d (since now prev_acked_time);
      mret (default 0 r)
  | None => mret 0
  end.
Definition set_max_filter (b : BandwidthEstimation) (v : MinMax) : BandwidthEstimation :=
  mkBandwidthEstimation (total_acked b) (prev_total_acked b) (acked_time b) (prev_acked_time b) (total_sent b) (prev_total_sent b)
    (sent_time b) (prev_sent_time b) v (acked_at_last_window b).

Definition bw_on_ack (b : BandwidthEstimation) (now sent bytes round : Z) (app_limited : bool) : M BandwidthEstimation :=
  total ← uadd (total_acked b) bytes;
  let b := mkBandwidthEstimation total (total_acked b) (Some now) (acked_time b) (total_sent b) (prev_total_sent b)
             (sent_time b) (prev_sent_time b) (max_filter b) (acked_at_last_window b) in
  match prev_sent_time b with
  | None => mret b
  | Some prev_sent_time =>
      send_rate ← bw_send_rate b prev_sent_time;
      ack_rate ← bw_ack_rate b now;
      let bandwidth := Z.min send_rate ack_rate in
      if negb app_limited && (mm_get (max_filter b) <? bandwidth) then
        f ← update_max (max_filter b) round bandwidth;
        mret (set_max_filter b f)
      else mret b
  end.

Definition bytes_acked_this_window (b : BandwidthEstimation) : M Z := usub (total_acked b) (acked_at_last_window b).
Definition bw_end_acks (b : BandwidthEstimation) : BandwidthEstimation :=
  mkBandwidthEstimation (total_acked b) (prev_total_acked b) (acked_time b) (prev_acked_time b) (total_sent b) (prev_total_sent b)
    (sent_time b) (prev_sent_time b) (max_filter b) (total_acked b).
Definition get_estimate (b : BandwidthEstimation) : Z := mm_get (max_filter b).

(** * Aggregation of acknowledgements *)

Record AckAggregationState : Type := mkAckAggregation { max_ack_height : MinMax; epoch_start : option Z; epoch_bytes : Z }.
Definition AckAggregationState_default : AckAggregationState := mkAckAggregation MinMax_default None 0.

Definition update_ack_aggregation_bytes (a : AckAggregationState) (newly_acked_bytes now round max_bandwidth : Z)
    : M (Z * AckAggregationState) :=
  n ← umul max_bandwidth (as_micros (since now (default now (epoch_start a))) mod 2 ^ 64);
  let expected := n / 1000000 in
  if epoch_bytes a <=? expected then mret (0, mkAckAggregation (max_ack_height a) (Some now) newly_acked_bytes)
  else
    bytes ← uadd (epoch_bytes a) newly_acked_bytes;
    diff ← usub bytes expected;
    f ← update_max (max_ack_height a) round diff;
    mret (diff, mkAckAggregation f (epoch_start a) bytes).

(** * The controller *)

Inductive Mode : Type := Startup | Drain | ProbeBw | ProbeRtt.
Inductive RecoveryState : Type := NotInRecovery | Conservation | Growth.
Definition in_recovery (r : RecoveryState) : bool := match r with NotInRecovery => false | _ => true end.
#[global] Instance Mode_eq : EqDecision Mode.
Proof. solve_decision. Defined.
#[global] Instance RecoveryState_eq : EqDecision RecoveryState.
Proof. solve_decision. Defined.

Record BbrConfig : Type := mkBbrConfig { bc_initial_window : Z }.
Definition BbrConfig_default : BbrConfig := mkBbrConfig (200 * BASE_DATAGRAM_SIZE).

Definition K_DEFAULT_HIGH_GAIN : spec_float := decimal f32 2885 3.
Definition K_DERIVED_HIGH_CWNDGAIN : spec_float := of_int f32 2.
Definition one32 : spec_float := of_int f32 1.
Definition K_PACING_GAIN : list spec_float := [decimal f32 125 2; decimal f32 75 2; one32; one32; one32; one32; one32; one32].
Definition K_STARTUP_GROWTH_TARGET : spec_float := decimal f32 125 2.
Definition K_MODERATE_PROBE_RTT_MULTIPLIER : spec_float := decimal f32 75 2.
Definition K_PROBE_RTT_TIME : Z := 200 * 10 ^ 6.
Definition F32_EPSILON : spec_float := S754_finite false (2 ^ 23) (-46).
Definition calculate_min_window (current_mtu : Z) : Z := 4 * current_mtu.

(** [x as f64] of an [f32], and [x.abs()]. *)
Definition widen (x : spec_float) : spec_float :=
  match x with
  | S754_finite s m e => binary_normalize (prec f64) (emax f64) (if s then Z.neg m else Z.pos m) e s
  | x => x
  end.
Definition fabs (x : spec_float) : spec_float :=
  match x with
  | S754_zero _ => S754_zero false
  | S754_infinity _ => S754_infinity false
  | S754_finite _ m e => S754_finite false m e
  | S754_nan => S754_nan
  end.

Section Bbr.
(** [random_range(0..7)] of the generator. *)
Context {R : Type} (draw : R → Z * R).

Record Bbr : Type := mkBbr {
  b_config : BbrConfig;
  b_current_mtu : Z;
  b_max_bandwidth : BandwidthEstimation;
  b_acked_bytes : Z;
  b_mode : Mode;
  b_loss_state : Z;
  b_recovery_state : RecoveryState;
  b_recovery_window : Z;
  b_is_at_full_bandwidth : bool;
  b_pacing_gain : spec_float;
  b_high_gain : spec_float;
  b_drain_gain : spec_float;
  b_cwnd_gain : spec_float;
  b_high_cwnd_gain : spec_float;
  b_last_cycle_start : option Z;
  b_current_cycle_offset : Z;
  b_init_cwnd : Z;
  b_min_cwnd : Z;
  b_prev_in_flight_count : Z;
  b_exit_probe_rtt_at : option Z;
  b_probe_rtt_last_started_at : option Z;
  b_min_rtt : Z;
  b_exiting_quiescence : bool;
  b_pacing_rate : Z;
  b_max_acked_packet_number : Z;
  b_max_sent_packet_number : Z;
  b_end_recovery_at_packet_number : Z;
  b_cwnd : Z;
  b_current_round_trip_end_packet_number : Z;
  b_round_count : Z;
  b_bw_at_last_round : Z;
  b_round_wo_bw_gain : Z;
  b_ack_aggregation : AckAggregationState;
  b_random_number_generator : R
}.
Definition set_b_max_bandwidth (b : Bbr) (v : BandwidthEstimation) : Bbr :=
    mkBbr (b_config b) (b_current_mtu b) v (b_acked_bytes b) (b_mode b) (b_loss_state b) (b_recovery_state b)
      (b_recovery_window b) (b_is_at_full_bandwidth b) (b_pacing_gain b) (b_high_gain b) (b_drain_gain b) (b_cwnd_gain b)
      (b_high_cwnd_gain b) (b_last_cycle_start b) (b_current_cycle_offset b) (b_init_cwnd b) (b_min_cwnd b)
      (b_prev_in_flight_count b) (b_exit_probe_rtt_at b) (b_probe_rtt_last_started_at b) (b_min_rtt b)
      (b_exiting_quiescence b) (b_pacing_rate b) (b_max_acked_packet_number b) (b_max_sent_packet_number b)
      (b_end_recovery_at_packet_number b) (b_cwnd b) (b_current_round_trip_end_packet_number b) (b_round_count b)
      (b_bw_at_last_round b) (b_round_wo_bw_gain b) (b_ack_aggregation b) (b_random_number_generator b).
Definition set_b_acked_bytes (b : Bbr) (v : Z) : Bbr :=
    mkBbr (b_config b) (b_current_mtu b) (b_max_bandwidth b) v (b_mode b) (b_loss_state b) (b_recovery_state b)
      (b_recovery_window b) (b_is_at_full_bandwidth b) (b_pacing_gain b) (b_high_gain b) (b_drain_gain b) (b_cwnd_gain b)
      (b_high_cwnd_gain b) (b_last_cycle_start b) (b_current_cycle_offset b) (b_init_cwnd b) (b_min_cwnd b)
      (b_prev_in_flight_count b) (b_exit_probe_rtt_at b) (b_probe_rtt_last_started_at b) (b_min_rtt b)
      (b_exiting_quiescence b) (b_pacing_rate b) (b_max_acked_packet_number b) (b_max_sent_packet_number b)
      (b_end_recovery_at_packet_number b) (b_cwnd b) (b_current_round_trip_end_packet_number b) (b_round_count b)
      (b_bw_at_last_round b) (b_round_wo_bw_gain b) (b_ack_aggregation b) (b_random_number_generator b).
Definition set_b_mode (b : Bbr) (v : Mode) : Bbr :=
    mkBbr (b_config b) (b_current_mtu b) (b_max_bandwidth b) (b_acked_bytes b) v (b_loss_state b) (b_recovery_state b)
      (b_recovery_window b) (b_is_at_full_bandwidth b) (b_pacing_gain b) (b_high_gain b) (b_drain_gain b) (b_cwnd_gain b)
      (b_high_cwnd_gain b) (b_last_cycle_start b) (b_current_cycle_offset b) (b_init_cwnd b) (b_min_cwnd b)
      (b_prev_in_flight_count b) (b_exit_probe_rtt_at b) (b_probe_rtt_last_started_at b) (b_min_rtt b)
      (b_exiting_quiescence b) (b_pacing_rate b) (b_max_acked_packet_number b) (b_max_sent_packet_number b)
      (b_end_recovery_at_packet_number b) (b_cwnd b) (b_current_round_trip_end_packet_number b) (b_round_count b)
      (b_bw_at_last_round b) (b_round_wo_bw_gain b) (b_ack_aggregation b) (b_random_number_generator b).
Definition set_b_loss_state (b : Bbr) (v : Z) : Bbr :=
    mkBbr (b_config b) (b_current_mtu b) (b_max_bandwidth b) (b_acked_bytes b) (b_mode b) v (b_recovery_state b)
      (b_recovery_window b) (b_is_at_full_bandwidth b) (b_pacing_gain b) (b_high_gain b) (b_drain_gain b) (b_cwnd_gain b)
      (b_high_cwnd_gain b) (b_last_cycle_start b) (b_current_cycle_offset b) (b_init_cwnd b) (b_min_cwnd b)
      (b_prev_in_flight_count b) (b_exit_probe_rtt_at b) (b_probe_rtt_last_started_at b) (b_min_rtt b)
      (b_exiting_quiescence b) (b_pacing_rate b) (b_max_acked_packet_number b) (b_max_sent_packet_number b)
      (b_end_recovery_at_packet_number b) (b_cwnd b) (b_current_round_trip_end_packet_number b) (b_round_count b)
      (b_bw_at_last_round b) (b_round_wo_bw_gain b) (b_ack_aggregation b) (b_random_number_generator b).
Definition set_b_recovery_state (b : Bbr) (v : RecoveryState) : Bbr :=
    mkBbr (b_config b) (b_current_mtu b) (b_max_bandwidth b) (b_acked_bytes b) (b_mode b) (b_loss_state b) v
      (b_recovery_window b) (b_is_at_full_bandwidth b) (b_pacing_gain b) (b_high_gain b) (b_drain_gain b) (b_cwnd_gain b)
      (b_high_cwnd_gain b) (b_last_cycle_start b) (b_current_cycle_offset b) (b_init_cwnd b) (b_min_cwnd b)
      (b_prev_in_flight_count b) (b_exit_probe_rtt_at b) (b_probe_rtt_last_started_at b) (b_min_rtt b)
      (b_exiting_quiescence b) (b_pacing_rate b) (b_max_acked_packet_number b) (b_max_sent_packet_number b)
      (b_end_recovery_at_packet_number b) (b_cwnd b) (b_current_round_trip_end_packet_number b) (b_round_count b)
      (b_bw_at_last_round b) (b_round_wo_bw_gain b) (b_ack_aggregation b) (b_random_number_generator b).
Definition set_b_recovery_window (b : Bbr) (v : Z) : Bbr :=
    mkBbr (b_config b) (b_current_mtu b) (b_max_bandwidth b) (b_acked_bytes b) (b_mode b) (b_loss_state b)
      (b_recovery_state b) v (b_is_at_full_bandwidth b) (b_pacing_gain b) (b_high_gain b) (b_drain_gain b) (b_cwnd_gain b)
      (b_high_cwnd_gain b) (b_last_cycle_start b) (b_current_cycle_offset b) (b_init_cwnd b) (b_min_cwnd b)
      (b_prev_in_flight_count b) (b_exit_probe_rtt_at b) (b_probe_rtt_last_started_at b) (b_min_rtt b)
      (b_exiting_quiescence b) (b_pacing_rate b) (b_max_acked_packet_number b) (b_max_sent_packet_number b)
      (b_end_recovery_at_packet_number b) (b_cwnd b) (b_current_round_trip_end_packet_number b) (b_round_count b)
      (b_bw_at_last_round b) (b_round_wo_bw_gain b) (b_ack_aggregation b) (b_random_number_generator b).
Definition set_b_is_at_full_bandwidth (b : Bbr) (v : bool) : Bbr :=
    mkBbr (b_config b) (b_current_mtu b) (b_max_bandwidth b) (b_acked_bytes b) (b_mode b) (b_loss_state b)
      (b_recovery_state b) (b_recovery_window b) v (b_pacing_gain b) (b_high_gain b) (b_drain_gain b) (b_cwnd_gain b)
      (b_high_cwnd_gain b) (b_last_cycle_start b) (b_current_cycle_offset b) (b_init_cwnd b) (b_min_cwnd b)
      (b_prev_in_flight_count b) (b_exit_probe_rtt_at b) (b_probe_rtt_last_started_at b) (b_min_rtt b)
      (b_exiting_quiescence b) (b_pacing_rate b) (b_max_acked_packet_number b) (b_max_sent_packet_number b)
      (b_end_recovery_at_packet_number b) (b_cwnd b) (b_current_round_trip_end_packet_number b) (b_round_count b)
      (b_bw_at_last_round b) (b_round_wo_bw_gain b) (b_ack_aggregation b) (b_random_number_generator b).
Definition set_b_pacing_gain (b : Bbr) (v : spec_float) : Bbr :=
    mkBbr (b_config b) (b_current_mtu b) (b_max_bandwidth b) (b_acked_bytes b) (b_mode b) (b_loss_state b)
      (b_recovery_state b) (b_recovery_window b) (b_is_at_full_bandwidth b) v (b_high_gain b) (b_drain_gain b)
      (b_cwnd_gain b) (b_high_cwnd_gain b) (b_last_cycle_start b) (b_current_cycle_offset b) (b_init_cwnd b) (b_min_cwnd b)
      (b_prev_in_flight_count b) (b_exit_probe_rtt_at b) (b_probe_rtt_last_started_at b) (b_min_rtt b)
      (b_exiting_quiescence b) (b_pacing_rate b) (b_max_acked_packet_number b) (b_max_sent_packet_number b)
      (b_end_recovery_at_packet_number b) (b_cwnd b) (b_current_round_trip_end_packet_number b) (b_round_count b)
      (b_bw_at_last_round b) (b_round_wo_bw_gain b) (b_ack_aggregation b) (b_random_number_generator b).
Definition set_b_cwnd_gain (b : Bbr) (v : spec_float) : Bbr :=
    mkBbr (b_config b) (b_current_mtu b) (b_max_bandwidth b) (b_acked_bytes b) (b_mode b) (b_loss_state b)
      (b_recovery_state b) (b_recovery_window b) (b_is_at_full_bandwidth b) (b_pacing_gain b) (b_high_gain b)
      (b_drain_gain b) v (b_high_cwnd_gain b) (b_last_cycle_start b) (b_current_cycle_offset b) (b_init_cwnd b)
      (b_min_cwnd b) (b_prev_in_flight_count b) (b_exit_probe_rtt_at b) (b_probe_rtt_last_started_at b) (b_min_rtt b)
      (b_exiting_quiescence b) (b_pacing_rate b) (b_max_acked_packet_number b) (b_max_sent_packet_number b)
      (b_end_recovery_at_packet_number b) (b_cwnd b) (b_current_round_trip_end_packet_number b) (b_round_count b)
      (b_bw_at_last_round b) (b_round_wo_bw_gain b) (b_ack_aggregation b) (b_random_number_generator b).
Definition set_b_last_cycle_start (b : Bbr) (v : option Z) : Bbr :=
    mkBbr (b_config b) (b_current_mtu b) (b_max_bandwidth b) (b_acked_bytes b) (b_mode b) (b_loss_state b)
      (b_recovery_state b) (b_recovery_window b) (b_is_at_full_bandwidth b) (b_pacing_gain b) (b_high_gain b)
      (b_drain_gain b) (b_cwnd_gain b) (b_high_cwnd_gain b) v (b_current_cycle_offset b) (b_init_cwnd b) (b_min_cwnd b)
      (b_prev_in_flight_count b) (b_exit_probe_rtt_at b) (b_probe_rtt_last_started_at b) (b_min_rtt b)
      (b_exiting_quiescence b) (b_pacing_rate b) (b_max_acked_packet_number b) (b_max_sent_packet_number b)
      (b_end_recovery_at_packet_number b) (b_cwnd b) (b_current_round_trip_end_packet_number b) (b_round_count b)
      (b_bw_at_last_round b) (b_round_wo_bw_gain b) (b_ack_aggregation b) (b_random_number_generator b).
Definition set_b_current_cycle_offset (b : Bbr) (v : Z) : Bbr :=
    mkBbr (b_config b) (b_current_mtu b) (b_max_bandwidth b) (b_acked_bytes b) (b_mode b) (b_loss_state b)
      (b_recovery_state b) (b_recovery_window b) (b_is_at_full_bandwidth b) (b_pacing_gain b) (b_high_gain b)
      (b_drain_gain b) (b_cwnd_gain b) (b_high_cwnd_gain b) (b_last_cycle_start b) v (b_init_cwnd b) (b_min_cwnd b)
      (b_prev_in_flight_count b) (b_exit_probe_rtt_at b) (b_probe_rtt_last_started_at b) (b_min_rtt b)
      (b_exiting_quiescence b) (b_pacing_rate b) (b_max_acked_packet_number b) (b_max_sent_packet_number b)
      (b_end_recovery_at_packet_number b) (b_cwnd b) (b_current_round_trip_end_packet_number b) (b_round_count b)
      (b_bw_at_last_round b) (b_round_wo_bw_gain b) (b_ack_aggregation b) (b_random_number_generator b).
Definition set_b_prev_in_flight_count (b : Bbr) (v : Z) : Bbr :=
    mkBbr (b_config b) (b_current_mtu b) (b_max_bandwidth b) (b_acked_bytes b) (b_mode b) (b_loss_state b)
      (b_recovery_state b) (b_recovery_window b) (b_is_at_full_bandwidth b) (b_pacing_gain b) (b_high_gain b)
      (b_drain_gain b) (b_cwnd_gain b) (b_high_cwnd_gain b) (b_last_cycle_start b) (b_current_cycle_offset b) (b_init_cwnd b)
      (b_min_cwnd b) v (b_exit_probe_rtt_at b) (b_probe_rtt_last_started_at b) (b_min_rtt b) (b_exiting_quiescence b)
      (b_pacing_rate b) (b_max_acked_packet_number b) (b_max_sent_packet_number b) (b_end_recovery_at_packet_number b)
      (b_cwnd b) (b_current_round_trip_end_packet_number b) (b_round_count b) (b_bw_at_last_round b) (b_round_wo_bw_gain b)
      (b_ack_aggregation b) (b_random_number_generator b).
Definition set_b_exit_probe_rtt_at (b : Bbr) (v : option Z) : Bbr :=
    mkBbr (b_config b) (b_current_mtu b) (b_max_bandwidth b) (b_acked_bytes b) (b_mode b) (b_loss_state b)
      (b_recovery_state b) (b_recovery_window b) (b_is_at_full_bandwidth b) (b_pacing_gain b) (b_high_gain b)
      (b_drain_gain b) (b_cwnd_gain b) (b_high_cwnd_gain b) (b_last_cycle_start b) (b_current_cycle_offset b) (b_init_cwnd b)
      (b_min_cwnd b) (b_prev_in_flight_count b) v (b_probe_rtt_last_started_at b) (b_min_rtt b) (b_exiting_quiescence b)
      (b_pacing_rate b) (b_max_acked_packet_number b) (b_max_sent_packet_number b) (b_end_recovery_at_packet_number b)
      (b_cwnd b) (b_current_round_trip_end_packet_number b) (b_round_count b) (b_bw_at_last_round b) (b_round_wo_bw_gain b)
      (b_ack_aggregation b) (b_random_number_generator b).
Definition set_b_probe_rtt_last_started_at (b : Bbr) (v : option Z) : Bbr :=
    mkBbr (b_config b) (b_current_mtu b) (b_max_bandwidth b) (b_acked_bytes b) (b_mode b) (b_loss_state b)
      (b_recovery_state b) (b_recovery_window b) (b_is_at_full_bandwidth b) (b_pacing_gain b) (b_high_gain b)
      (b_drain_gain b) (b_cwnd_gain b) (b_high_cwnd_gain b) (b_last_cycle_start b) (b_current_cycle_offset b) (b_init_cwnd b)
      (b_min_cwnd b) (b_prev_in_flight_count b) (b_exit_probe_rtt_at b) v (b_min_rtt b) (b_exiting_quiescence b)
      (b_pacing_rate b) (b_max_acked_packet_number b) (b_max_sent_packet_number b) (b_end_recovery_at_packet_number b)
      (b_cwnd b) (b_current_round_trip_end_packet_number b) (b_round_count b) (b_bw_at_last_round b) (b_round_wo_bw_gain b)
      (b_ack_aggregation b) (b_random_number_generator b).
Definition set_b_min_rtt (b : Bbr) (v : Z) : Bbr :=
    mkBbr (b_config b) (b_current_mtu b) (b_max_bandwidth b) (b_acked_bytes b) (b_mode b) (b_loss_state b)
      (b_recovery_state b) (b_recovery_window b) (b_is_at_full_bandwidth b) (b_pacing_gain b) (b_high_gain b)
      (b_drain_gain b) (b_cwnd_gain b) (b_high_cwnd_gain b) (b_last_cycle_start b) (b_current_cycle_offset b) (b_init_cwnd b)
      (b_min_cwnd b) (b_prev_in_flight_count b) (b_exit_probe_rtt_at b) (b_probe_rtt_last_started_at b) v
      (b_exiting_quiescence b) (b_pacing_rate b) (b_max_acked_packet_number b) (b_max_sent_packet_number b)
      (b_end_recovery_at_packet_number b) (b_cwnd b) (b_current_round_trip_end_packet_number b) (b_round_count b)
      (b_bw_at_last_round b) (b_round_wo_bw_gain b) (b_ack_aggregation b) (b_random_number_generator b).
Definition set_b_exiting_quiescence (b : Bbr) (v : bool) : Bbr :=
    mkBbr (b_config b) (b_current_mtu b) (b_max_bandwidth b) (b_acked_bytes b) (b_mode b) (b_loss_state b)
      (b_recovery_state b) (b_recovery_window b) (b_is_at_full_bandwidth b) (b_pacing_gain b) (b_high_gain b)
      (b_drain_gain b) (b_cwnd_gain b) (b_high_cwnd_gain b) (b_last_cycle_start b) (b_current_cycle_offset b) (b_init_cwnd b)
      (b_min_cwnd b) (b_prev_in_flight_count b) (b_exit_probe_rtt_at b) (b_probe_rtt_last_started_at b) (b_min_rtt b) v
      (b_pacing_rate b) (b_max_acked_packet_number b) (b_max_sent_packet_number b) (b_end_recovery_at_packet_number b)
      (b_cwnd b) (b_current_round_trip_end_packet_number b) (b_round_count b) (b_bw_at_last_round b) (b_round_wo_bw_gain b)
      (b_ack_aggregation b) (b_random_number_generator b).
Definition set_b_pacing_rate (b : Bbr) (v : Z) : Bbr :=
    mkBbr (b_config b) (b_current_mtu b) (b_max_bandwidth b) (b_acked_bytes b) (b_mode b) (b_loss_state b)
      (b_recovery_state b) (b_recovery_window b) (b_is_at_full_bandwidth b) (b_pacing_gain b) (b_high_gain b)
      (b_drain_gain b) (b_cwnd_gain b) (b_high_cwnd_gain b) (b_last_cycle_start b) (b_current_cycle_offset b) (b_init_cwnd b)
      (b_min_cwnd b) (b_prev_in_flight_count b) (b_exit_probe_rtt_at b) (b_probe_rtt_last_started_at b) (b_min_rtt b)
      (b_exiting_quiescence b) v (b_max_acked_packet_number b) (b_max_sent_packet_number b)
      (b_end_recovery_at_packet_number b) (b_cwnd b) (b_current_round_trip_end_packet_number b) (b_round_count b)
      (b_bw_at_last_round b) (b_round_wo_bw_gain b) (b_ack_aggregation b) (b_random_number_generator b).
Definition set_b_max_acked_packet_number (b : Bbr) (v : Z) : Bbr :=
    mkBbr (b_config b) (b_current_mtu b) (b_max_bandwidth b) (b_acked_bytes b) (b_mode b) (b_loss_state b)
      (b_recovery_state b) (b_recovery_window b) (b_is_at_full_bandwidth b) (b_pacing_gain b) (b_high_gain b)
      (b_drain_gain b) (b_cwnd_gain b) (b_high_cwnd_gain b) (b_last_cycle_start b) (b_current_cycle_offset b) (b_init_cwnd b)
      (b_min_cwnd b) (b_prev_in_flight_count b) (b_exit_probe_rtt_at b) (b_probe_rtt_last_started_at b) (b_min_rtt b)
      (b_exiting_quiescence b) (b_pacing_rate b) v (b_max_sent_packet_number b) (b_end_recovery_at_packet_number b)
      (b_cwnd b) (b_current_round_trip_end_packet_number b) (b_round_count b) (b_bw_at_last_round b) (b_round_wo_bw_gain b)
      (b_ack_aggregation b) (b_random_number_generator b).
Definition set_b_max_sent_packet_number (b : Bbr) (v : Z) : Bbr :=
    mkBbr (b_config b) (b_current_mtu b) (b_max_bandwidth b) (b_acked_bytes b) (b_mode b) (b_loss_state b)
      (b_recovery_state b) (b_recovery_window b) (b_is_at_full_bandwidth b) (b_pacing_gain b) (b_high_gain b)
      (b_drain_gain b) (b_cwnd_gain b) (b_high_cwnd_gain b) (b_last_cycle_start b) (b_current_cycle_offset b) (b_init_cwnd b)
      (b_min_cwnd b) (b_prev_in_flight_count b) (b_exit_probe_rtt_at b) (b_probe_rtt_last_started_at b) (b_min_rtt b)
      (b_exiting_quiescence b) (b_pacing_rate b) (b_max_acked_packet_number b) v (b_end_recovery_at_packet_number b)
      (b_cwnd b) (b_current_round_trip_end_packet_number b) (b_round_count b) (b_bw_at_last_round b) (b_round_wo_bw_gain b)
      (b_ack_aggregation b) (b_random_number_generator b).
Definition set_b_end_recovery_at_packet_number (b : Bbr) (v : Z) : Bbr :=
    mkBbr (b_config b) (b_current_mtu b) (b_max_bandwidth b) (b_acked_bytes b) (b_mode b) (b_loss_state b)
      (b_recovery_state b) (b_recovery_window b) (b_is_at_full_bandwidth b) (b_pacing_gain b) (b_high_gain b)
      (b_drain_gain b) (b_cwnd_gain b) (b_high_cwnd_gain b) (b_last_cycle_start b) (b_current_cycle_offset b) (b_init_cwnd b)
      (b_min_cwnd b) (b_prev_in_flight_count b) (b_exit_probe_rtt_at b) (b_probe_rtt_last_started_at b) (b_min_rtt b)
      (b_exiting_quiescence b) (b_pacing_rate b) (b_max_acked_packet_number b) (b_max_sent_packet_number b) v (b_cwnd b)
      (b_current_round_trip_end_packet_number b) (b_round_count b) (b_bw_at_last_round b) (b_round_wo_bw_gain b)
      (b_ack_aggregation b) (b_random_number_generator b).
Definition set_b_cwnd (b : Bbr) (v : Z) : Bbr :=
    mkBbr (b_config b) (b_current_mtu b) (b_max_bandwidth b) (b_acked_bytes b) (b_mode b) (b_loss_state b)
      (b_recovery_state b) (b_recovery_window b) (b_is_at_full_bandwidth b) (b_pacing_gain b) (b_high_gain b)
      (b_drain_gain b) (b_cwnd_gain b) (b_high_cwnd_gain b) (b_last_cycle_start b) (b_current_cycle_offset b) (b_init_cwnd b)
      (b_min_cwnd b) (b_prev_in_flight_count b) (b_exit_probe_rtt_at b) (b_probe_rtt_last_started_at b) (b_min_rtt b)
      (b_exiting_quiescence b) (b_pacing_rate b) (b_max_acked_packet_number b) (b_max_sent_packet_number b)
      (b_end_recovery_at_packet_number b) v (b_current_round_trip_end_packet_number b) (b_round_count b)
      (b_bw_at_last_round b) (b_round_wo_bw_gain b) (b_ack_aggregation b) (b_random_number_generator b).
Definition set_b_current_round_trip_end_packet_number (b : Bbr) (v : Z) : Bbr :=
    mkBbr (b_config b) (b_current_mtu b) (b_max_bandwidth b) (b_acked_bytes b) (b_mode b) (b_loss_state b)
      (b_recovery_state b) (b_recovery_window b) (b_is_at_full_bandwidth b) (b_pacing_gain b) (b_high_gain b)
      (b_drain_gain b) (b_cwnd_gain b) (b_high_cwnd_gain b) (b_last_cycle_start b) (b_current_cycle_offset b) (b_init_cwnd b)
      (b_min_cwnd b) (b_prev_in_flight_count b) (b_exit_probe_rtt_at b) (b_probe_rtt_last_started_at b) (b_min_rtt b)
      (b_exiting_quiescence b) (b_pacing_rate b) (b_max_acked_packet_number b) (b_max_sent_packet_number b)
      (b_end_recovery_at_packet_number b) (b_cwnd b) v (b_round_count b) (b_bw_at_last_round b) (b_round_wo_bw_gain b)
      (b_ack_aggregation b) (b_random_number_generator b).
Definition set_b_round_count (b : Bbr) (v : Z) : Bbr :=
    mkBbr (b_config b) (b_current_mtu b) (b_max_bandwidth b) (b_acked_bytes b) (b_mode b) (b_loss_state b)
      (b_recovery_state b) (b_recovery_window b) (b_is_at_full_bandwidth b) (b_pacing_gain b) (b_high_gain b)
      (b_drain_gain b) (b_cwnd_gain b) (b_high_cwnd_gain b) (b_last_cycle_start b) (b_current_cycle_offset b) (b_init_cwnd b)
      (b_min_cwnd b) (b_prev_in_flight_count b) (b_exit_probe_rtt_at b) (b_probe_rtt_last_started_at b) (b_min_rtt b)
      (b_exiting_quiescence b) (b_pacing_rate b) (b_max_acked_packet_number b) (b_max_sent_packet_number b)
      (b_end_recovery_at_packet_number b) (b_cwnd b) (b_current_round_trip_end_packet_number b) v (b_bw_at_last_round b)
      (b_round_wo_bw_gain b) (b_ack_aggregation b) (b_random_number_generator b).
Definition set_b_bw_at_last_round (b : Bbr) (v : Z) : Bbr :=
    mkBbr (b_config b) (b_current_mtu b) (b_max_bandwidth b) (b_acked_bytes b) (b_mode b) (b_loss_state b)
      (b_recovery_state b) (b_recovery_window b) (b_is_at_full_bandwidth b) (b_pacing_gain b) (b_high_gain b)
      (b_drain_gain b) (b_cwnd_gain b) (b_high_cwnd_gain b) (b_last_cycle_start b) (b_current_cycle_offset b) (b_init_cwnd b)
      (b_min_cwnd b) (b_prev_in_flight_count b) (b_exit_probe_rtt_at b) (b_probe_rtt_last_started_at b) (b_min_rtt b)
      (b_exiting_quiescence b) (b_pacing_rate b) (b_max_acked_packet_number b) (b_max_sent_packet_number b)
      (b_end_recovery_at_packet_number b) (b_cwnd b) (b_current_round_trip_end_packet_number b) (b_round_count b) v
      (b_round_wo_bw_gain b) (b_ack_aggregation b) (b_random_number_generator b).
Definition set_b_round_wo_bw_gain (b : Bbr) (v : Z) : Bbr :=
    mkBbr (b_config b) (b_current_mtu b) (b_max_bandwidth b) (b_acked_bytes b) (b_mode b) (b_loss_state b)
      (b_recovery_state b) (b_recovery_window b) (b_is_at_full_bandwidth b) (b_pacing_gain b) (b_high_gain b)
      (b_drain_gain b) (b_cwnd_gain b) (b_high_cwnd_gain b) (b_last_cycle_start b) (b_current_cycle_offset b) (b_init_cwnd b)
      (b_min_cwnd b) (b_prev_in_flight_count b) (b_exit_probe_rtt_at b) (b_probe_rtt_last_started_at b) (b_min_rtt b)
      (b_exiting_quiescence b) (b_pacing_rate b) (b_max_acked_packet_number b) (b_max_sent_packet_number b)
      (b_end_recovery_at_packet_number b) (b_cwnd b) (b_current_round_trip_end_packet_number b) (b_round_count b)
      (b_bw_at_last_round b) v (b_ack_aggregation b) (b_random_number_generator b).
Definition set_b_ack_aggregation (b : Bbr) (v : AckAggregationState) : Bbr :=
    mkBbr (b_config b) (b_current_mtu b) (b_max_bandwidth b) (b_acked_bytes b) (b_mode b) (b_loss_state b)
      (b_recovery_state b) (b_recovery_window b) (b_is_at_full_bandwidth b) (b_pacing_gain b) (b_high_gain b)
      (b_drain_gain b) (b_cwnd_gain b) (b_high_cwnd_gain b) (b_last_cycle_start b) (b_current_cycle_offset b) (b_init_cwnd b)
      (b_min_cwnd b) (b_prev_in_flight_count b) (b_exit_probe_rtt_at b) (b_probe_rtt_last_started_at b) (b_min_rtt b)
      (b_exiting_quiescence b) (b_pacing_rate b) (b_max_acked_packet_number b) (b_max_sent_packet_number b)
      (b_end_recovery_at_packet_number b) (b_cwnd b) (b_current_round_trip_end_packet_number b) (b_round_count b)
      (b_bw_at_last_round b) (b_round_wo_bw_gain b) v (b_random_number_generator b).
Definition set_b_random_number_generator (b : Bbr) (v : R) : Bbr :=
    mkBbr (b_config b) (b_current_mtu b) (b_max_bandwidth b) (b_acked_bytes b) (b_mode b) (b_loss_state b)
      (b_recovery_state b) (b_recovery_window b) (b_is_at_full_bandwidth b) (b_pacing_gain b) (b_high_gain b)
      (b_drain_gain b) (b_cwnd_gain b) (b_high_cwnd_gain b) (b_last_cycle_start b) (b_current_cycle_offset b) (b_init_cwnd b)
      (b_min_cwnd b) (b_prev_in_flight_count b) (b_exit_probe_rtt_at b) (b_probe_rtt_last_started_at b) (b_min_rtt b)
      (b_exiting_quiescence b) (b_pacing_rate b) (b_max_acked_packet_number b) (b_max_sent_packet_number b)
      (b_end_recovery_at_packet_number b) (b_cwnd b) (b_current_round_trip_end_packet_number b) (b_round_count b)
      (b_bw_at_last_round b) (b_round_wo_bw_gain b) (b_ack_aggregation b) v.

Definition has_losses (b : Bbr) : bool := negb (b_loss_state b =? 0).

Definition Bbr_new (rng : R) (config : BbrConfig) (current_mtu : Z) : Bbr :=
  mkBbr config current_mtu BandwidthEstimation_default 0 Startup 0 NotInRecovery 0 false K_DEFAULT_HIGH_GAIN K_DEFAULT_HIGH_GAIN
    (fdiv f32 one32 K_DEFAULT_HIGH_GAIN) K_DEFAULT_HIGH_GAIN K_DEFAULT_HIGH_GAIN None 0 (bc_initial_window config)
    (calculate_min_window current_mtu) 0 None None 0 false 0 0 0 0 (bc_initial_window config) 0 0 0 0 AckAggregationState_default rng.

Definition enter_startup_mode (b : Bbr) : Bbr :=
  set_b_cwnd_gain (set_b_pacing_gain (set_b_mode b Startup) (b_high_gain b)) (b_high_cwnd_gain b).

Definition enter_probe_bandwidth_mode (b : Bbr) (now : Z) : M Bbr :=
  let b := set_b_last_cycle_start (set_b_cwnd_gain (set_b_mode b ProbeBw) K_DERIVED_HIGH_CWNDGAIN) (Some now) in
  let '(i, rng) := draw (b_random_number_generator b) in
  let b := set_b_random_number_generator b rng in
  let i := if 1 <=? i then i + 1 else i in
  gain ← unwrap (K_PACING_GAIN !! Z.to_nat i);
  mret (set_b_pacing_gain (set_b_current_cycle_offset b i) gain).

Definition update_recovery_state (b : Bbr) (is_round_start : bool) : Bbr :=
  let b := if has_losses b then set_b_end_recovery_at_packet_number b (b_max_sent_packet_number b) else b in
  match b_recovery_state b with
  | NotInRecovery =>
      if has_losses b then
        set_b_current_round_trip_end_packet_number (set_b_recovery_window (set_b_recovery_state b Conservation) 0)
          (b_max_sent_packet_number b)
      else b
  | Growth | Conservation =>
      let b := if bool_decide (b_recovery_state b = Conservation) && is_round_start then set_b_recovery_state b Growth else b in
      if negb (has_losses b) && (b_end_recovery_at_packet_number b <? b_max_acked_packet_number b)
      then set_b_recovery_state b NotInRecovery else b
  end.

Definition get_target_cwnd (b : Bbr) (gain : spec_float) : M Z :=
  bdp ← umul (as_micros (b_min_rtt b) mod 2 ^ 64) (get_estimate (b_max_bandwidth b));
  let cwnd := to_u64 (fdiv f64 (fmul f64 (widen gain) (of_int f64 bdp)) (of_int f64 1000000)) in
  mret (if cwnd =? 0 then b_init_cwnd b else Z.max cwnd (b_min_cwnd b)).
Definition get_probe_rtt_cwnd (b : Bbr) : M Z := get_target_cwnd b K_MODERATE_PROBE_RTT_MULTIPLIER.

Definition update_gain_cycle_phase (b : Bbr) (now in_flight : Z) : M Bbr :=
  let advance := match b_last_cycle_start b with Some t => b_min_rtt b <? since now t | None => false end in
  advance ← (if fgt (b_pacing_gain b) one32 && negb (has_losses b) then
               target ← get_target_cwnd b (b_pacing_gain b);
               mret (if b_prev_in_flight_count b <? target then false else advance)
             else mret advance);
  advance ← (if SFltb (b_pacing_gain b) one32 then
               target ← get_target_cwnd b one32;
               mret (if in_flight <=? target then true else advance)
             else mret advance);
  if (advance : bool) then
    let offset := (b_current_cycle_offset b + 1) mod 8 in
    let b := set_b_last_cycle_start (set_b_current_cycle_offset b offset) (Some now) in
    gain ← unwrap (K_PACING_GAIN !! Z.to_nat offset);
    stay ← (if SFltb (b_pacing_gain b) one32 && SFltb (fabs (fsub f32 gain one32)) F32_EPSILON then
              target ← get_target_cwnd b one32;
              mret (target <? in_flight)
            else mret false);
    mret (if (stay : bool) then b else set_b_pacing_gain b gain)
  else mret b.

Definition maybe_exit_startup_or_drain (b : Bbr) (now in_flight : Z) : M Bbr :=
  let b := if bool_decide (b_mode b = Startup) && b_is_at_full_bandwidth b
           then set_b_cwnd_gain (set_b_pacing_gain (set_b_mode b Drain) (b_drain_gain b)) (b_high_cwnd_gain b) else b in
  if decide (b_mode b = Drain) then
    target ← get_target_cwnd b one32;
    if in_flight <=? target then enter_probe_bandwidth_mode b now else mret b
  else mret b.

Definition is_min_rtt_expired (b : Bbr) (now : Z) (app_limited : bool) : bool :=
  negb app_limited && match b_probe_rtt_last_started_at b with Some last => 10 * 10 ^ 9 <? since now last | None => true end.

Definition maybe_enter_or_exit_probe_rtt (b : Bbr) (now : Z) (is_round_start : bool) (bytes_in_flight : Z) (app_limited : bool) : M Bbr :=
  let b := if is_min_rtt_expired b now app_limited && negb (b_exiting_quiescence b) && negb (bool_decide (b_mode b = ProbeRtt))
           then set_b_probe_rtt_last_started_at (set_b_exit_probe_rtt_at (set_b_pacing_gain (set_b_mode b ProbeRtt) one32) None) (Some now)
           else b in
  b ← (if decide (b_mode b = ProbeRtt) then
         match b_exit_probe_rtt_at b with
         | None =>
             target ← get_probe_rtt_cwnd b;
             limit ← uadd target (b_current_mtu b);
             mret (if bytes_in_flight <? limit then set_b_exit_probe_rtt_at b (Some (now + K_PROBE_RTT_TIME)) else b)
         | Some exit_time =>
             if is_round_start && (exit_time <=? now) then
               if b_is_at_full_bandwidth b then enter_probe_bandwidth_mode b now else mret (enter_startup_mode b)
             else mret b
         end
       else mret b);
  mret (set_b_exiting_quiescence b false).

Definition calculate_pacing_rate (b : Bbr) : M Bbr :=
  let bw := get_estimate (b_max_bandwidth b) in
  if bw =? 0 then mret b
  else
    let target_rate := to_u64 (fmul f64 (of_int f64 bw) (widen (b_pacing_gain b))) in
    if b_is_at_full_bandwidth b then mret (set_b_pacing_rate b target_rate)
    else if (b_pacing_rate b =? 0) && negb (b_min_rtt b =? 0) then
      r ← bw_from_delta (b_init_cwnd b) (b_min_rtt b);
      rate ← unwrap r;
      mret (set_b_pacing_rate b rate)
    else mret (if b_pacing_rate b <? target_rate then set_b_pacing_rate b target_rate else b).

Definition calculate_cwnd (b : Bbr) (bytes_acked excess_acked : Z) : M Bbr :=
  if decide (b_mode b = ProbeRtt) then mret b
  else
    target ← get_target_cwnd b (b_cwnd_gain b);
    target_window ← uadd target (if b_is_at_full_bandwidth b then mm_get (max_ack_height (b_ack_aggregation b)) else excess_acked);
    b ← (if b_is_at_full_bandwidth b then
           n ← uadd (b_cwnd b) bytes_acked;
           mret (set_b_cwnd b (Z.min target_window n))
         else if SFltb (b_cwnd_gain b) (of_int f32 target_window) || (b_acked_bytes b <? b_init_cwnd b) then
           n ← uadd (b_cwnd b) bytes_acked;
           mret (set_b_cwnd b n)
         else mret b);
    mret (if b_cwnd b <? b_min_cwnd b then set_b_cwnd b (b_min_cwnd b) else b).

Definition calculate_recovery_window (b : Bbr) (bytes_acked bytes_lost in_flight : Z) : M Bbr :=
  if negb (in_recovery (b_recovery_state b)) then mret b
  else
    limit ← uadd in_flight bytes_acked;
    if b_recovery_window b =? 0 then mret (set_b_recovery_window b (Z.max (b_min_cwnd b) limit))
    else
      let w := if bytes_lost <=? b_recovery_window b then b_recovery_window b - bytes_lost else b_current_mtu b in
      w ← (if decide (b_recovery_state b = Growth) then uadd w bytes_acked else mret w);
      mret (set_b_recovery_window b (Z.max (Z.max w limit) (b_min_cwnd b))).

Definition check_if_full_bw_reached (b : Bbr) (app_limited : bool) : M Bbr :=
  if app_limited then mret b
  else
    let target := to_u64 (fmul f64 (of_int f64 (b_bw_at_last_round b)) (widen K_STARTUP_GROWTH_TARGET)) in
    let bw := get_estimate (b_max_bandwidth b) in
    if target <=? bw then
      let a := b_ack_aggregation b in
      mret (set_b_ack_aggregation (set_b_round_wo_bw_gain (set_b_bw_at_last_round b bw) 0)
              (mkAckAggregation (mm_reset (max_ack_height a)) (epoch_start a) (epoch_bytes a)))
    else
      n ← uadd (b_round_wo_bw_gain b) 1;
      let b := set_b_round_wo_bw_gain b n in
      mret (if (3 <=? n) || in_recovery (b_recovery_state b) then set_b_is_at_full_bandwidth b true else b).

(** * The interface *)

Definition bbr_on_sent (b : Bbr) (now bytes last_packet_number : Z) : M Bbr :=
  bw ← bw_on_sent (b_max_bandwidth b) now bytes;
  mret (set_b_max_bandwidth (set_b_max_sent_packet_number b last_packet_number) bw).

Definition bbr_on_ack (b : Bbr) (now sent bytes : Z) (app_limited : bool) (rtt : RttEstimator) : M Bbr :=
  bw ← bw_on_ack (b_max_bandwidth b) now sent bytes (b_round_count b) app_limited;
  acked ← uadd (b_acked_bytes b) bytes;
  let b := set_b_acked_bytes (set_b_max_bandwidth b bw) acked in
  mret (if is_min_rtt_expired b now app_limited || (rtt_min rtt <? b_min_rtt b) then set_b_min_rtt b (rtt_min rtt) else b).

Definition bbr_on_end_acks (b : Bbr) (now in_flight : Z) (app_limited : bool) (largest_packet_num_acked : option Z) : M Bbr :=
  bytes_acked ← bytes_acked_this_window (b_max_bandwidth b);
  '(excess_acked, a) ← update_ack_aggregation_bytes (b_ack_aggregation b) bytes_acked now (b_round_count b) (get_estimate (b_max_bandwidth b));
  let b := set_b_max_bandwidth (set_b_ack_aggregation b a) (bw_end_acks (b_max_bandwidth b)) in
  let b := match largest_packet_num_acked with Some n => set_b_max_acked_packet_number b n | None => b end in
  let is_round_start := (0 <? bytes_acked) && (b_current_round_trip_end_packet_number b <? b_max_acked_packet_number b) in
  b ← (if is_round_start then
         n ← uadd (b_round_count b) 1;
         mret (set_b_round_count (set_b_current_round_trip_end_packet_number b (b_max_sent_packet_number b)) n)
       else mret b);
  let b := update_recovery_state b is_round_start in
  b ← (if decide (b_mode b = ProbeBw) then update_gain_cycle_phase b now in_flight else mret b);
  b ← (if is_round_start && negb (b_is_at_full_bandwidth b) then check_if_full_bw_reached b app_limited else mret b);
  b ← maybe_exit_startup_or_drain b now in_flight;
  b ← maybe_enter_or_exit_probe_rtt b now is_round_start in_flight app_limited;
  b ← calculate_pacing_rate b;
  b ← calculate_cwnd b bytes_acked excess_acked;
  b ← calculate_recovery_window b bytes_acked (b_loss_state b) in_flight;
  mret (set_b_loss_state (set_b_prev_in_flight_count b in_flight) 0).

Definition bbr_on_congestion_event (b : Bbr) (now sent : Z) (is_persistent_congestion is_ecn : bool) (lost_bytes : Z) : M Bbr :=
  n ← uadd (b_loss_state b) lost_bytes;
  mret (set_b_loss_state b n).

Definition bbr_on_mtu_update (b : Bbr) (new_mtu : Z) : Bbr :=
  let min := calculate_min_window new_mtu in
  mkBbr (b_config b) new_mtu (b_max_bandwidth b) (b_acked_bytes b) (b_mode b) (b_loss_state b) (b_recovery_state b)
    (b_recovery_window b) (b_is_at_full_bandwidth b) (b_pacing_gain b) (b_high_gain b) (b_drain_gain b) (b_cwnd_gain b)
    (b_high_cwnd_gain b) (b_last_cycle_start b) (b_current_cycle_offset b) (Z.max (bc_initial_window (b_config b)) min) min
    (b_prev_in_flight_count b) (b_exit_probe_rtt_at b) (b_probe_rtt_last_started_at b) (b_min_rtt b) (b_exiting_quiescence b)
    (b_pacing_rate b) (b_max_acked_packet_number b) (b_max_sent_packet_number b) (b_end_recovery_at_packet_number b)
    (Z.max (b_cwnd b) min) (b_current_round_trip_end_packet_number b) (b_round_count b) (b_bw_at_last_round b)
    (b_round_wo_bw_gain b) (b_ack_aggregation b) (b_random_number_generator b).

Definition bbr_window (b : Bbr) : M Z :=
  if decide (b_mode b = ProbeRtt) then get_probe_rtt_cwnd b
  else mret (if in_recovery (b_recovery_state b) && negb (bool_decide (b_mode b = Startup)) then Z.min (b_cwnd b) (b_recovery_window b) else b_cwnd b).

Definition bbr_initial_window (b : Bbr) : Z := bc_initial_window (b_config b).
End Bbr.

(** * The windowed maximum *)

(** Measurements with their rounds, in order. *)
Fixpoint mm_run (m : MinMax) (l : list (Z * Z)) : M MinMax :=
  match l with
  | [] => mret m
  | (round, measurement) :: l => m ← update_max m round measurement; mm_run m l
  end.

(** The three samples were measured, in rounds up to [r]. *)
Definition measured (seen : list (Z * Z)) (r : Z) (s : MinMaxSample) : Prop := (time s, value s) ∈ seen ∧ time s <= r.
Definition mm_ok (seen : list (Z * Z)) (r : Z) (m : MinMax) : Prop :=
  measured seen r (mm_0 m) ∧ measured seen r (mm_1 m) ∧ measured seen r (mm_2 m) ∧ r - time (mm_0 m) <= mm_window m.

Lemma usub_ret a b : b <= a → usub a b = Ret (a - b).
Proof. intros Hb. unfold usub. by rewrite (proj2 (Z.leb_le _ _)). Qed.

Lemma subwin_update_ok seen m s :
  measured seen (time s) (mm_0 m) → measured seen (time s) (mm_1 m) → measured seen (time s) (mm_2 m) → measured seen (time s) s →
  value s <= value (mm_0 m) → value s <= value (mm_1 m) → value s <= value (mm_2 m) → time s - time (mm_2 m) <= mm_window m → 0 <= mm_window m →
  ∃ m', subwin_update m s = Ret m' ∧ mm_ok seen (time s) m' ∧ value s <= mm_get m' ∧ mm_window m' = mm_window m.
Proof.
  intros [I0 T0] [I1 T1] [I2 T2] [I T] V0 V1 V2 Hw Hn. unfold subwin_update. rewrite (usub_ret (time s) (time (mm_0 m))) by done. cbn [mbind M_bind]. cbv beta zeta.
  destruct (Z.ltb_spec (mm_window m) (time s - time (mm_0 m))) as [Ho|Hi].
  - cbn [mm_0 mm_1 mm_2 mm_window]. rewrite usub_ret by done. cbn [mbind M_bind]. cbv beta zeta. eexists. split; [reflexivity|].
    destruct (Z.ltb_spec (mm_window m) (time s - time (mm_1 m))); unfold mm_ok, measured, mm_get; cbn; repeat split; done || lia.
  - destruct (_ && _); [|destruct (_ && _)]; eexists; (split; [reflexivity|]); unfold mm_ok, measured, mm_get; cbn; repeat split; done || lia.
Qed.

(** One measurement; the first one replaces the samples that are not set. *)
Lemma update_max_ok seen r m round v :
  (value (mm_0 m) = 0 ∨ mm_ok seen r m) → r <= round → 0 <= mm_window m →
  ∃ m', update_max m round v = Ret m' ∧ mm_ok (seen ++ [(round, v)]) round m' ∧ v <= mm_get m' ∧ mm_window m' = mm_window m.
Proof.
  intros Hm Hr Hw. unfold update_max. set (s := mkSample round v). assert (Hs : measured (seen ++ [(round, v)]) round s) by (split; cbn; [set_solver|lia]).
  assert (Hfill : mm_ok (seen ++ [(round, v)]) round (mm_fill m s)) by (unfold mm_ok, mm_fill; cbn; repeat split; try apply Hs; lia).
  destruct (Z.eqb_spec (value (mm_0 m)) 0) as [E|E]; [exists (mm_fill m s); cbn; repeat split; try apply Hfill; done || lia|].
  destruct (Z.leb_spec (value (mm_0 m)) (value s)) as [Hv|Hv]; [exists (mm_fill m s); cbn; repeat split; try apply Hfill; done || lia|].
  destruct Hm as [Hm|([I0 T0] & [I1 T1] & [I2 T2] & Hwin)]; [done|]. cbn [orb]. cbn [time s value] in *. rewrite usub_ret by lia. cbn [mbind M_bind]. cbv beta zeta.
  destruct (Z.ltb_spec (mm_window m) (round - time (mm_2 m))) as [Ho|Hi]; [exists (mm_fill m s); cbn; repeat split; try apply Hfill; done || lia|].
  assert (M0 : measured (seen ++ [(round, v)]) round (mm_0 m)) by (split; [set_solver|lia]).
  assert (M1 : measured (seen ++ [(round, v)]) round (mm_1 m)) by (split; [set_solver|lia]).
  assert (M2 : measured (seen ++ [(round, v)]) round (mm_2 m)) by (split; [set_solver|lia]).
  set (m1 := if value (mm_1 m) <=? v then _ else _).
  destruct (subwin_update_ok (seen ++ [(round, v)]) m1 s) as (m' & H1 & H2 & H3 & H4).
  all: try (unfold m1; repeat case_match; cbn; try done; rewrite ?Z.leb_le, ?Z.leb_gt in *; lia).
  exists m'. split; [exact H1|]. split; [exact H2|]. split; [exact H3|]. rewrite H4. unfold m1. repeat case_match; done.
Qed.

(** The filter of the largest value of ten rounds: whatever is measured, with rounds that do not go back, it does not
    panic, and it yields a value that was measured in the last ten rounds and is no less than the last one measured. *)
Theorem windowed_maximum l round v :
  StronglySorted Z.le (map fst (l ++ [(round, v)])) →
  ∃ m, mm_run MinMax_default (l ++ [(round, v)]) = Ret m ∧ v <= mm_get m ∧
    ∃ r, (r, mm_get m) ∈ l ++ [(round, v)] ∧ round - 10 <= r <= round.
Proof.
  intros Hs. cut (∀ l2 seen r m, (value (mm_0 m) = 0 ∨ mm_ok seen r m) → mm_window m = 10 → StronglySorted Z.le (r :: map fst (l2 ++ [(round, v)])) →
    ∃ m', mm_run m (l2 ++ [(round, v)]) = Ret m' ∧ v <= mm_get m' ∧ mm_ok (seen ++ l2 ++ [(round, v)]) round m' ∧ mm_window m' = 10).
  { intros Hc. destruct l as [|[r0 v0] l].
    - destruct (Hc [] [] round MinMax_default (or_introl eq_refl) eq_refl) as (m & H1 & H2 & ([H3 H4] & _ & _ & H5) & H6).
      { constructor; [done|]. constructor; [cbn; lia|constructor]. }
      exists m. split; [done|]. split; [done|]. exists (time (mm_0 m)). split; [done|]. rewrite H6 in H5. lia.
    - destruct (Hc ((r0, v0) :: l) [] r0 MinMax_default (or_introl eq_refl) eq_refl) as (m & H1 & H2 & ([H3 H4] & _ & _ & H5) & H6).
      { constructor; [done|]. cbn in *. inversion Hs; subst. constructor; [lia|done]. }
      exists m. split; [done|]. split; [done|]. exists (time (mm_0 m)). split; [done|]. rewrite H6 in H5. lia. }
  induction l2 as [|[r1 v1] l2 IH]; intros seen r m Hm Hw Hsort; cbn [app map fst] in Hsort; inversion Hsort as [|? ? Hs2 Hle]; subst.
  - destruct (update_max_ok seen r m round v Hm) as (m' & H1 & H2 & H3 & H4); [by inversion Hle|lia|]. cbn. rewrite H1. cbn. exists m'.
    split; [done|]. split; [done|]. split; [done|lia].
  - destruct (update_max_ok seen r m r1 v1 Hm) as (m' & H1 & H2 & H3 & H4); [by inversion Hle|lia|]. cbn. rewrite H1. cbn [mbind M_bind].
    destruct (IH (seen ++ [(r1, v1)]) r1 m') as (m2 & G1 & G2 & G3 & G4); [by right|lia|done|].
    exists m2. rewrite <- app_assoc in G3. done.
Qed.
Lemma windowed_maximum_witness :
  ∃ m, mm_run MinMax_default [(1, 50); (2, 20); (8, 10); (12, 5)] = Ret m ∧ 5 <= mm_get m.
Proof.
  destruct (windowed_maximum [(1, 50); (2, 20); (8, 10)] 12 5) as (m & H1 & H2 & _); [|exists m; split; [exact H1|exact H2]].
  repeat (apply SSorted_cons; [|repeat (apply List.Forall_cons; [cbn; lia|]); apply List.Forall_nil]). apply SSorted_nil.
Defined.

(** * The controller *)

Section Controller.
Context {R : Type} (draw : R → Z * R).
Local Notation Bbr := (Bbr (R := R)).
Implicit Types b : Bbr.

Definition bbr_notify b (n : Notice) : M Bbr :=
  match n with
  | NSent now bytes pn => bbr_on_sent b now bytes pn
  | NAck now sent bytes app_limited rtt => bbr_on_ack b now sent bytes app_limited rtt
  | NEndAcks now in_flight app_limited largest => bbr_on_end_acks draw b now in_flight app_limited largest
  | NCongestion now sent persistent ecn lost => bbr_on_congestion_event b now sent persistent ecn lost
  | NSpurious => mret b
  | NMtu mtu => mret (bbr_on_mtu_update b mtu)
  end.
Fixpoint bbr_run (l : list Notice) b : M Bbr :=
  match l with [] => mret b | n :: l => b ← bbr_notify b n; bbr_run l b end.

(** The window, its limits and the bandwidth estimate stay. *)
Definition keeps b b' : Prop :=
  b_cwnd b' = b_cwnd b ∧ b_min_cwnd b' = b_min_cwnd b ∧ b_init_cwnd b' = b_init_cwnd b ∧ b_config b' = b_config b ∧
  b_max_bandwidth b' = b_max_bandwidth b.
#[local] Instance keeps_preorder : PreOrder keeps.
Proof. split; [by intros b|]. intros b1 b2 b3 (A1 & A2 & A3 & A4 & A5) (B1 & B2 & B3 & B4 & B5). repeat split; congruence. Qed.

Ltac keeps_step :=
  lazymatch goal with
  | |- post (mret _) _ => apply post_ret
  | |- post Panic _ => apply post_panic
  | |- post (_ ≫= _) _ => eapply post_bind; [apply post_true|intros ? _]
  | |- post (if ?x then _ else _) _ => destruct x
  | |- post (match ?x with _ => _ end) _ => destruct x
  | |- post (let _ := _ in _) _ => cbv zeta
  | |- keeps _ _ => case_match
  end.
Ltac keeps_tac := repeat keeps_step; done.

Lemma enter_probe_bandwidth_mode_keeps b now : post (enter_probe_bandwidth_mode draw b now) (keeps b).
Proof. unfold enter_probe_bandwidth_mode. cbv zeta. destruct (draw _). keeps_tac. Qed.
Lemma update_recovery_state_keeps b start : keeps b (update_recovery_state b start).
Proof.
  unfold update_recovery_state. set (b1 := if has_losses b then _ else b). assert (H1 : keeps b b1) by (unfold b1; by case_match).
  cbv zeta. clearbody b1. etrans; [exact H1|]. repeat case_match; done.
Qed.
Lemma update_gain_cycle_phase_keeps b now in_flight : post (update_gain_cycle_phase b now in_flight) (keeps b).
Proof. unfold update_gain_cycle_phase. keeps_tac. Qed.
Lemma maybe_exit_startup_or_drain_keeps b now in_flight : post (maybe_exit_startup_or_drain draw b now in_flight) (keeps b).
Proof.
  unfold maybe_exit_startup_or_drain. set (b1 := if _ && _ then _ else b). assert (H1 : keeps b b1) by (unfold b1; by case_match).
  cbv zeta. clearbody b1. case_decide; [|by apply post_ret]. eapply post_bind; [apply post_true|]. intros target _. case_match; [|by apply post_ret].
  eapply post_weaken; [apply enter_probe_bandwidth_mode_keeps|]. intros b2 H2. by etrans.
Qed.
Lemma maybe_enter_or_exit_probe_rtt_keeps b now start bytes app_limited :
  post (maybe_enter_or_exit_probe_rtt draw b now start bytes app_limited) (keeps b).
Proof.
  unfold maybe_enter_or_exit_probe_rtt. set (b1 := if _ && _ then _ else b). assert (H1 : keeps b b1) by (unfold b1; by case_match).
  cbv zeta. clearbody b1. apply post_bind with (keeps b1); [|intros b2 H2; apply post_ret; etrans; [exact H1|]; by etrans; [exact H2|]].
  case_decide; [|by apply post_ret]. destruct (b_exit_probe_rtt_at b1); [|keeps_tac]. case_match; [|by apply post_ret].
  case_match; [apply enter_probe_bandwidth_mode_keeps|by apply post_ret].
Qed.
Lemma calculate_pacing_rate_keeps b : post (calculate_pacing_rate b) (keeps b).
Proof. unfold calculate_pacing_rate. keeps_tac. Qed.
Lemma check_if_full_bw_reached_keeps b app_limited : post (check_if_full_bw_reached b app_limited) (keeps b).
Proof. unfold check_if_full_bw_reached. keeps_tac. Qed.

(** Nothing the window is made of is below [f]. *)
Definition floor_ok (f : Z) b : Prop := f <= b_cwnd b ∧ f <= b_min_cwnd b ∧ f <= b_init_cwnd b ∧ f <= bc_initial_window (b_config b).
Lemma keeps_floor f b b' : keeps b b' → floor_ok f b → floor_ok f b'.
Proof. intros (E1 & E2 & E3 & E4 & _). unfold floor_ok. by rewrite E1, E2, E3, E4. Qed.

Lemma get_target_cwnd_floor f b gain : floor_ok f b → post (get_target_cwnd b gain) (fun w => f <= w).
Proof.
  intros (_ & F2 & F3 & _). unfold get_target_cwnd. eapply post_bind; [apply post_true|]. intros bdp _. apply post_ret.
  generalize (to_u64 (fdiv f64 (fmul f64 (widen gain) (of_int f64 bdp)) (of_int f64 1000000))). intros x. destruct (x =? 0); lia.
Qed.

Lemma calculate_cwnd_ok f b bytes_acked excess :
  floor_ok f b → post (calculate_cwnd b bytes_acked excess) (fun b' => floor_ok f b' ∧ b_max_bandwidth b' = b_max_bandwidth b).
Proof.
  intros (F1 & F2 & F3 & F4). unfold calculate_cwnd. case_decide; [by apply post_ret|]. eapply post_bind; [apply post_true|]. intros target _.
  eapply post_bind; [apply post_true|]. intros tw _.
  apply post_bind with (fun b' => b_min_cwnd b' = b_min_cwnd b ∧ b_init_cwnd b' = b_init_cwnd b ∧ b_config b' = b_config b ∧ b_max_bandwidth b' = b_max_bandwidth b).
  - keeps_tac || (repeat keeps_step; done).
  - intros b' (E1 & E2 & E3 & E4). apply post_ret. unfold floor_ok. destruct (Z.ltb_spec (b_cwnd b') (b_min_cwnd b')); cbn; rewrite E2, E3, ?E1, ?E4;
      repeat split; done || lia.
Qed.

Lemma calculate_recovery_window_ok b acked lost in_flight :
  post (calculate_recovery_window b acked lost in_flight) (fun b' =>
    keeps b b' ∧ (in_recovery (b_recovery_state b') = true → b_min_cwnd b' <= b_recovery_window b')).
Proof.
  unfold calculate_recovery_window. destruct (in_recovery (b_recovery_state b)) eqn:E; cbn [negb]; [|apply post_ret; split; [done|congruence]].
  eapply post_bind; [apply post_true|]. intros limit _. destruct (_ =? 0); [apply post_ret; split; [done|]; cbn; lia|]. cbv zeta.
  eapply post_bind; [apply post_true|]. intros w _. apply post_ret. split; [done|]. cbn. lia.
Qed.

(** The invariant: while recovering, the recovery window is not below [f] either. *)
Definition bbr_ok (f : Z) b : Prop := floor_ok f b ∧ (in_recovery (b_recovery_state b) = true → f <= b_recovery_window b).

Lemma bbr_on_end_acks_ok f b now in_flight app_limited largest :
  floor_ok f b →
  post (bbr_on_end_acks draw b now in_flight app_limited largest) (fun b' => bbr_ok f b' ∧ get_estimate (b_max_bandwidth b') = get_estimate (b_max_bandwidth b)).
Proof.
  intros Hf. unfold bbr_on_end_acks. eapply post_bind; [apply post_true|]. intros bytes _. eapply post_bind; [apply post_true|]. intros [excess a] _. cbv zeta.
  set (b1 := match largest with Some n => _ | None => _ end).
  assert (H1 : floor_ok f b1 ∧ get_estimate (b_max_bandwidth b1) = get_estimate (b_max_bandwidth b)) by (unfold b1; destruct largest; split; done).
  clearbody b1. destruct H1 as [H1 E1]. rewrite <- E1. clear E1 Hf.
  apply post_bind with (keeps b1); [keeps_tac|]. intros b2 K2. set (b3 := update_recovery_state _ _).
  assert (K3 : keeps b1 b3) by (etrans; [exact K2|apply update_recovery_state_keeps]). clearbody b3.
  apply post_bind with (keeps b1). { case_decide; [|by apply post_ret]. eapply post_weaken; [apply update_gain_cycle_phase_keeps|]. intros ? ?; by etrans. }
  intros b4 K4. apply post_bind with (keeps b1). { case_match; [|by apply post_ret]. eapply post_weaken; [apply check_if_full_bw_reached_keeps|]. intros ? ?; by etrans. }
  intros b5 K5. apply post_bind with (keeps b1). { eapply post_weaken; [apply maybe_exit_startup_or_drain_keeps|]. intros ? ?; by etrans. }
  intros b6 K6. apply post_bind with (keeps b1). { eapply post_weaken; [apply maybe_enter_or_exit_probe_rtt_keeps|]. intros ? ?; by etrans. }
  intros b7 K7. apply post_bind with (keeps b1). { eapply post_weaken; [apply calculate_pacing_rate_keeps|]. intros ? ?; by etrans. }
  intros b8 K8. eapply post_bind; [apply (calculate_cwnd_ok f), (keeps_floor f b1); done|]. intros b9 [F9 E9].
  eapply post_bind; [apply calculate_recovery_window_ok|]. intros b10 [K10 R10]. apply post_ret. pose proof (keeps_floor f _ _ K10 F9) as F10.
  split; [split|]; cbn.
  - exact F10.
  - intros Hr. specialize (R10 Hr). destruct F10 as (_ & F & _). lia.
  - destruct K10 as (_ & _ & _ & _ & ->), K8 as (_ & _ & _ & _ & E8). by rewrite E9, E8.
Qed.

(** The estimate only takes a sample that exceeds it. *)
Lemma bw_on_ack_estimate e now sent bytes round app_limited :
  post (bw_on_ack e now sent bytes round app_limited) (fun e' => get_estimate e <= get_estimate e').
Proof.
  unfold bw_on_ack. eapply post_bind; [apply post_true|]. intros total _. cbv zeta. cbn [prev_sent_time]. destruct (prev_sent_time e); [|apply post_ret; unfold get_estimate; cbn; lia].
  eapply post_bind; [apply post_true|]. intros send_rate _. eapply post_bind; [apply post_true|]. intros ack_rate _. cbn [max_filter].
  destruct (negb app_limited && (mm_get (max_filter e) <? Z.min send_rate ack_rate)) eqn:E; [|apply post_ret; unfold get_estimate; cbn; lia].
  apply andb_true_iff in E as [_ E]. apply Z.ltb_lt in E. eapply post_bind; [|intros f Hf; apply post_ret; exact Hf].
  unfold update_max. cbn [value]. fold (mm_get (max_filter e)). rewrite (proj2 (Z.leb_le _ _)) by lia. rewrite orb_true_r. apply post_ret.
  unfold get_estimate, mm_get. cbn. unfold mm_get in E. lia.
Qed.

Lemma bw_on_sent_estimate e now bytes : post (bw_on_sent e now bytes) (fun e' => get_estimate e' = get_estimate e).
Proof. unfold bw_on_sent. eapply post_bind; [apply post_true|]. intros total _. by apply post_ret. Qed.

(** No notice lowers the MTU so far that four datagrams are less than [f]. *)
Definition mtu_above (f : Z) (n : Notice) : Prop := match n with NMtu m => f <= calculate_min_window m | _ => True end.

Lemma bbr_notify_ok f b n :
  bbr_ok f b → mtu_above f n →
  post (bbr_notify b n) (fun b' => bbr_ok f b' ∧ get_estimate (b_max_bandwidth b) <= get_estimate (b_max_bandwidth b')).
Proof.
  intros [Hf Hr] Hn. destruct n as [now bytes pn|now sent bytes al rtt|now in_flight al largest|now sent p ecn lost| |mtu]; cbn [bbr_notify].
  - unfold bbr_on_sent. eapply post_bind; [apply bw_on_sent_estimate|]. intros bw Hb. apply post_ret. split; [done|]. cbn. by rewrite Hb.
  - unfold bbr_on_ack. eapply post_bind; [apply bw_on_ack_estimate|]. intros bw Hb. eapply post_bind; [apply post_true|]. intros acked _. cbv zeta.
    apply post_ret. destruct (_ || _); (split; [done|exact Hb]).
  - eapply post_weaken; [by apply (bbr_on_end_acks_ok f)|]. intros b' [Hok E]. split; [done|lia].
  - unfold bbr_on_congestion_event. eapply post_bind; [apply post_true|]. intros n _. apply post_ret. split; [done|cbn; lia].
  - apply post_ret. split; [done|lia].
  - apply post_ret. cbn [mtu_above] in Hn. destruct Hf as (F1 & F2 & F3 & F4). split; [|cbn; lia]. split; [|exact Hr]. unfold floor_ok. cbn. lia.
Qed.
Lemma bbr_run_ok f l b :
  bbr_ok f b → Forall (mtu_above f) l →
  post (bbr_run l b) (fun b' => bbr_ok f b' ∧ get_estimate (b_max_bandwidth b) <= get_estimate (b_max_bandwidth b')).
Proof.
  intros Hb Hl. revert b Hb. induction Hl as [|n l Hn _ IH]; intros b Hb; cbn [bbr_run]; [by apply post_ret; split; [|lia]|].
  eapply post_bind; [by apply (bbr_notify_ok f)|]. intros b1 [H1 E1]. eapply post_weaken; [by apply IH|]. intros b2 [H2 E2]. split; [done|lia].
Qed.

Lemma Bbr_new_ok f rng config mtu : f <= bc_initial_window config → f <= calculate_min_window mtu → bbr_ok f (Bbr_new rng config mtu).
Proof. intros H1 H2. split; [|done]. unfold floor_ok. cbn. lia. Qed.

(** C39: whatever is sent, acknowledged and lost, and in whatever mode BBR is, also while it probes for the round trip time
    and while it recovers from losses, its window is never below the smaller of the initial window and four datagrams of the
    smallest MTU; a run in which a counter of 64 bits overflows has no later window. *)
Theorem bbr_window_floor f rng config mtu l b w :
  f <= bc_initial_window config → f <= calculate_min_window mtu → Forall (mtu_above f) l →
  bbr_run l (Bbr_new rng config mtu) = Ret b → bbr_window b = Ret w → f <= w.
Proof.
  intros Hi Hm Hl Hr Hw. pose proof (post_elim _ _ _ (bbr_run_ok f l _ (Bbr_new_ok f rng config mtu Hi Hm) Hl) Hr) as [[(F1 & F2 & F3 & F4) Hrec] _].
  unfold bbr_window in Hw. case_decide.
  - exact (post_elim _ _ _ (get_target_cwnd_floor f b _ (conj F1 (conj F2 (conj F3 F4)))) Hw).
  - injection Hw as <-. destruct (in_recovery (b_recovery_state b)); [|done]. specialize (Hrec eq_refl). destruct (negb _); cbn; lia.
Qed.

(** The bandwidth estimate never falls, whatever later rounds measure. *)
Lemma bandwidth_never_falls l b b' : bbr_run l b = Ret b' → get_estimate (b_max_bandwidth b) <= get_estimate (b_max_bandwidth b').
Proof.
  revert b. induction l as [|n l IH]; intros b Hr; [injection Hr as <-; lia|]. cbn [bbr_run] in Hr. destruct (bbr_notify b n) as [b1|] eqn:E; [|done].
  specialize (IH b1 Hr). set (f := Z.min (Z.min (b_cwnd b) (b_min_cwnd b)) (Z.min (Z.min (b_init_cwnd b) (bc_initial_window (b_config b)))
    (Z.min (b_recovery_window b) (match n with NMtu m => calculate_min_window m | _ => 0 end)))).
  assert (Hb : bbr_ok f b) by (split; [repeat split; unfold f; lia|intros _; unfold f; lia]).
  assert (Hn : mtu_above f n) by (destruct n; try done; cbn; unfold f; lia).
  pose proof (post_elim _ _ _ (bbr_notify_ok f b n Hb Hn) E) as [_ E1]. lia.
Qed.
End Controller.

(** * A run *)

Definition sample_bbr : Bbr := Bbr_new 0 BbrConfig_default 1200.
Definition sample_draw (n : Z) : Z * Z := (n mod 7, n + 1).
Definition sample_rtt : RttEstimator := mkRttEstimator (50 * 10 ^ 6) None (25 * 10 ^ 6) (50 * 10 ^ 6).
Definition sample_notices : list Notice :=
  [NSent 0 1200 0; NSent (10 ^ 6) 1200 1; NAck (50 * 10 ^ 6) 0 1200 false sample_rtt; NAck (51 * 10 ^ 6) (10 ^ 6) 1200 false sample_rtt;
   NEndAcks (51 * 10 ^ 6) 0 false (Some 1)].

Lemma sample_bbr_window :
  match bbr_run sample_draw sample_notices sample_bbr with Ret b => match bbr_window b with Ret _ => true | Panic => false end | Panic => false end = true.
Proof. vm_compute. reflexivity. Qed.
Lemma bbr_window_floor_witness :
  ∃ b w, bbr_run sample_draw sample_notices sample_bbr = Ret b ∧ bbr_window b = Ret w ∧ 4800 <= w.
Proof.
  pose proof sample_bbr_window as Ht. destruct (bbr_run sample_draw sample_notices sample_bbr) as [b|] eqn:E; [|discriminate].
  destruct (bbr_window b) as [w|] eqn:Ew; [|discriminate]. exists b, w. split; [reflexivity|]. split; [exact Ew|].
  refine (bbr_window_floor sample_draw 4800 0 BbrConfig_default 1200 sample_notices b w _ _ _ E Ew); [vm_compute; discriminate|vm_compute; discriminate|].
  repeat (apply Forall_cons; split; [exact I|]). apply Forall_nil_2.
Defined.

(** The first acknowledgements already start the phase that measures the round trip time, before anything was probed. *)
Lemma first_acks_probe_rtt :
  match bbr_run sample_draw sample_notices sample_bbr with Ret b => bool_decide (b_mode b = ProbeRtt) | Panic => false end = true.
Proof. vm_compute. reflexivity. Qed.

(** Outside of full bandwidth the gain, not the window, is compared with the target: the window grows however large it is. *)
Lemma window_outgrows_target :
  let b := set_b_acked_bytes (set_b_cwnd sample_bbr (10 ^ 9)) (10 ^ 9) in
  get_target_cwnd b (b_cwnd_gain b) = Ret 240000 ∧
  match calculate_cwnd b 1200 0 with Ret b' => b_cwnd b' =? 10 ^ 9 + 1200 | Panic => false end = true.
Proof. vm_compute. split; reflexivity. Qed.
