(* ===== verification/Settings.v ===== *)
(** The builders of settings: [quic-proto/src/config/mod.rs] and [config/transport.rs].

    A setter is a constructor with its argument; a sequence of calls is a list.  [IdleTimeout] is the number it wraps.  The log
    sink, the clock and the keys drawn at random for the defaults are left out. *)
From Stdlib Require Import SpecFloat.
From stdpp Require Import gmap.
From S2P Require Import Prelude Coding RangeSet Ids Shared Frame Float Packet TransportParams Token TokenCache Assembler Recv Send.
From S2P Require Import PendingStreams Retransmits CidQueue CidState Streams Dedup PendingAcks Mtud Timer AckFrequency Rtt.
From S2P Require Import Congestion Pacing Datagrams Spaces PacketCrypto Config Paths Connection ConnRecovery ConnReceive.
From S2P Require Import PacketBuilder ConnTransmit CidGenerator EndpointIndex Endpoint Post EndpointInv EndpointOps EndpointTheorems.
From S2P Require Import TransportParamsTheorems ConnSample EndpointSample.
Open Scope Z_scope.

Definition DEFAULT_SUPPORTED_VERSIONS : list Z := [1; 4278190109; 4278190110; 4278190111; 4278190112; 4278190113; 4278190114].

Section Settings.
Context {C : Type}.

(** * Transport settings *)

(** [IdleTimeout::try_from] of a duration in nanoseconds. *)
Definition IdleTimeout_try_from (d : Z) : result VarIntBoundsExceeded VarInt := VarInt_try_from_u128 (d / 10 ^ 6).

(** The setters of [TransportConfig] up to [min_mtu]. *)
Inductive LimitSetting : Type :=
| TrMaxConcurrentBidiStreams (value : VarInt)
| TrMaxConcurrentUniStreams (value : VarInt)
| TrMaxIdleTimeout (value : option VarInt)
| TrStreamReceiveWindow (value : VarInt)
| TrReceiveWindow (value : VarInt)
| TrSendWindow (value : Z)
| TrSendFairness (value : bool)
| TrPacketThreshold (value : Z)
| TrTimeThreshold (value : spec_float)
| TrInitialRtt (value : Z)
| TrInitialMtu (value : Z)
| TrMinMtu (value : Z).
Definition apply_LimitSetting (c : TransportConfig C) (s : LimitSetting) : TransportConfig C :=
  match s with
  | TrMaxConcurrentBidiStreams value =>
      mkTransportConfig C value (tc_max_concurrent_uni_streams c) (tc_max_idle_timeout c) (tc_stream_receive_window c)
        (tc_receive_window c) (tc_send_window c) (tc_send_fairness c) (tc_packet_threshold c) (tc_time_threshold c)
        (tc_initial_rtt c) (tc_initial_mtu c) (tc_min_mtu c) (tc_mtu_discovery_config c) (tc_pad_to_mtu c)
        (tc_ack_frequency_config c) (tc_max_outgoing_bytes_per_second c) (tc_persistent_congestion_threshold c)
        (tc_keep_alive_interval c) (tc_crypto_buffer_size c) (tc_allow_spin c) (tc_datagram_receive_buffer_size c)
        (tc_datagram_send_buffer_size c) (tc_congestion_controller_factory c) (tc_enable_segmentation_offload c)
  | TrMaxConcurrentUniStreams value =>
      mkTransportConfig C (tc_max_concurrent_bidi_streams c) value (tc_max_idle_timeout c) (tc_stream_receive_window c)
        (tc_receive_window c) (tc_send_window c) (tc_send_fairness c) (tc_packet_threshold c) (tc_time_threshold c)
        (tc_initial_rtt c) (tc_initial_mtu c) (tc_min_mtu c) (tc_mtu_discovery_config c) (tc_pad_to_mtu c)
        (tc_ack_frequency_config c) (tc_max_outgoing_bytes_per_second c) (tc_persistent_congestion_threshold c)
        (tc_keep_alive_interval c) (tc_crypto_buffer_size c) (tc_allow_spin c) (tc_datagram_receive_buffer_size c)
        (tc_datagram_send_buffer_size c) (tc_congestion_controller_factory c) (tc_enable_segmentation_offload c)
  | TrMaxIdleTimeout value =>
      mkTransportConfig C (tc_max_concurrent_bidi_streams c) (tc_max_concurrent_uni_streams c) value
        (tc_stream_receive_window c) (tc_receive_window c) (tc_send_window c) (tc_send_fairness c) (tc_packet_threshold c)
        (tc_time_threshold c) (tc_initial_rtt c) (tc_initial_mtu c) (tc_min_mtu c) (tc_mtu_discovery_config c) (tc_pad_to_mtu c)
        (tc_ack_frequency_config c) (tc_max_outgoing_bytes_per_second c) (tc_persistent_congestion_threshold c)
        (tc_keep_alive_interval c) (tc_crypto_buffer_size c) (tc_allow_spin c) (tc_datagram_receive_buffer_size c)
        (tc_datagram_send_buffer_size c) (tc_congestion_controller_factory c) (tc_enable_segmentation_offload c)
  | TrStreamReceiveWindow value =>
      mkTransportConfig C (tc_max_concurrent_bidi_streams c) (tc_max_concurrent_uni_streams c) (tc_max_idle_timeout c) value
        (tc_receive_window c) (tc_send_window c) (tc_send_fairness c) (tc_packet_threshold c) (tc_time_threshold c)
        (tc_initial_rtt c) (tc_initial_mtu c) (tc_min_mtu c) (tc_mtu_discovery_config c) (tc_pad_to_mtu c)
        (tc_ack_frequency_config c) (tc_max_outgoing_bytes_per_second c) (tc_persistent_congestion_threshold c)
        (tc_keep_alive_interval c) (tc_crypto_buffer_size c) (tc_allow_spin c) (tc_datagram_receive_buffer_size c)
        (tc_datagram_send_buffer_size c) (tc_congestion_controller_factory c) (tc_enable_segmentation_offload c)
  | TrReceiveWindow value =>
      mkTransportConfig C (tc_max_concurrent_bidi_streams c) (tc_max_concurrent_uni_streams c) (tc_max_idle_timeout c)
        (tc_stream_receive_window c) value (tc_send_window c) (tc_send_fairness c) (tc_packet_threshold c) (tc_time_threshold c)
        (tc_initial_rtt c) (tc_initial_mtu c) (tc_min_mtu c) (tc_mtu_discovery_config c) (tc_pad_to_mtu c)
        (tc_ack_frequency_config c) (tc_max_outgoing_bytes_per_second c) (tc_persistent_congestion_threshold c)
        (tc_keep_alive_interval c) (tc_crypto_buffer_size c) (tc_allow_spin c) (tc_datagram_receive_buffer_size c)
        (tc_datagram_send_buffer_size c) (tc_congestion_controller_factory c) (tc_enable_segmentation_offload c)
  | TrSendWindow value =>
      mkTransportConfig C (tc_max_concurrent_bidi_streams c) (tc_max_concurrent_uni_streams c) (tc_max_idle_timeout c)
        (tc_stream_receive_window c) (tc_receive_window c) value (tc_send_fairness c) (tc_packet_threshold c)
        (tc_time_threshold c) (tc_initial_rtt c) (tc_initial_mtu c) (tc_min_mtu c) (tc_mtu_discovery_config c) (tc_pad_to_mtu c)
        (tc_ack_frequency_config c) (tc_max_outgoing_bytes_per_second c) (tc_persistent_congestion_threshold c)
        (tc_keep_alive_interval c) (tc_crypto_buffer_size c) (tc_allow_spin c) (tc_datagram_receive_buffer_size c)
        (tc_datagram_send_buffer_size c) (tc_congestion_controller_factory c) (tc_enable_segmentation_offload c)
  | TrSendFairness value =>
      mkTransportConfig C (tc_max_concurrent_bidi_streams c) (tc_max_concurrent_uni_streams c) (tc_max_idle_timeout c)
        (tc_stream_receive_window c) (tc_receive_window c) (tc_send_window c) value (tc_packet_threshold c)
        (tc_time_threshold c) (tc_initial_rtt c) (tc_initial_mtu c) (tc_min_mtu c) (tc_mtu_discovery_config c) (tc_pad_to_mtu c)
        (tc_ack_frequency_config c) (tc_max_outgoing_bytes_per_second c) (tc_persistent_congestion_threshold c)
        (tc_keep_alive_interval c) (tc_crypto_buffer_size c) (tc_allow_spin c) (tc_datagram_receive_buffer_size c)
        (tc_datagram_send_buffer_size c) (tc_congestion_controller_factory c) (tc_enable_segmentation_offload c)
  | TrPacketThreshold value =>
      mkTransportConfig C (tc_max_concurrent_bidi_streams c) (tc_max_concurrent_uni_streams c) (tc_max_idle_timeout c)
        (tc_stream_receive_window c) (tc_receive_window c) (tc_send_window c) (tc_send_fairness c) value (tc_time_threshold c)
        (tc_initial_rtt c) (tc_initial_mtu c) (tc_min_mtu c) (tc_mtu_discovery_config c) (tc_pad_to_mtu c)
        (tc_ack_frequency_config c) (tc_max_outgoing_bytes_per_second c) (tc_persistent_congestion_threshold c)
        (tc_keep_alive_interval c) (tc_crypto_buffer_size c) (tc_allow_spin c) (tc_datagram_receive_buffer_size c)
        (tc_datagram_send_buffer_size c) (tc_congestion_controller_factory c) (tc_enable_segmentation_offload c)
  | TrTimeThreshold value =>
      mkTransportConfig C (tc_max_concurrent_bidi_streams c) (tc_max_concurrent_uni_streams c) (tc_max_idle_timeout c)
        (tc_stream_receive_window c) (tc_receive_window c) (tc_send_window c) (tc_send_fairness c) (tc_packet_threshold c) value
        (tc_initial_rtt c) (tc_initial_mtu c) (tc_min_mtu c) (tc_mtu_discovery_config c) (tc_pad_to_mtu c)
        (tc_ack_frequency_config c) (tc_max_outgoing_bytes_per_second c) (tc_persistent_congestion_threshold c)
        (tc_keep_alive_interval c) (tc_crypto_buffer_size c) (tc_allow_spin c) (tc_datagram_receive_buffer_size c)
        (tc_datagram_send_buffer_size c) (tc_congestion_controller_factory c) (tc_enable_segmentation_offload c)
  | TrInitialRtt value =>
      mkTransportConfig C (tc_max_concurrent_bidi_streams c) (tc_max_concurrent_uni_streams c) (tc_max_idle_timeout c)
        (tc_stream_receive_window c) (tc_receive_window c) (tc_send_window c) (tc_send_fairness c) (tc_packet_threshold c)
        (tc_time_threshold c) value (tc_initial_mtu c) (tc_min_mtu c) (tc_mtu_discovery_config c) (tc_pad_to_mtu c)
        (tc_ack_frequency_config c) (tc_max_outgoing_bytes_per_second c) (tc_persistent_congestion_threshold c)
        (tc_keep_alive_interval c) (tc_crypto_buffer_size c) (tc_allow_spin c) (tc_datagram_receive_buffer_size c)
        (tc_datagram_send_buffer_size c) (tc_congestion_controller_factory c) (tc_enable_segmentation_offload c)
  | TrInitialMtu value =>
      mkTransportConfig C (tc_max_concurrent_bidi_streams c) (tc_max_concurrent_uni_streams c) (tc_max_idle_timeout c)
        (tc_stream_receive_window c) (tc_receive_window c) (tc_send_window c) (tc_send_fairness c) (tc_packet_threshold c)
        (tc_time_threshold c) (tc_initial_rtt c) (Z.max value INITIAL_MTU) (tc_min_mtu c) (tc_mtu_discovery_config c)
        (tc_pad_to_mtu c) (tc_ack_frequency_config c) (tc_max_outgoing_bytes_per_second c)
        (tc_persistent_congestion_threshold c) (tc_keep_alive_interval c) (tc_crypto_buffer_size c) (tc_allow_spin c)
        (tc_datagram_receive_buffer_size c) (tc_datagram_send_buffer_size c) (tc_congestion_controller_factory c)
        (tc_enable_segmentation_offload c)
  | TrMinMtu value =>
      mkTransportConfig C (tc_max_concurrent_bidi_streams c) (tc_max_concurrent_uni_streams c) (tc_max_idle_timeout c)
        (tc_stream_receive_window c) (tc_receive_window c) (tc_send_window c) (tc_send_fairness c) (tc_packet_threshold c)
        (tc_time_threshold c) (tc_initial_rtt c) (tc_initial_mtu c) (Z.max value INITIAL_MTU) (tc_mtu_discovery_config c)
        (tc_pad_to_mtu c) (tc_ack_frequency_config c) (tc_max_outgoing_bytes_per_second c)
        (tc_persistent_congestion_threshold c) (tc_keep_alive_interval c) (tc_crypto_buffer_size c) (tc_allow_spin c)
        (tc_datagram_receive_buffer_size c) (tc_datagram_send_buffer_size c) (tc_congestion_controller_factory c)
        (tc_enable_segmentation_offload c)
  end.

(** The other setters. *)
Inductive PathSetting : Type :=
| TrMtuDiscoveryConfig (value : option MtuDiscoveryConfig)
| TrPadToMtu (value : bool)
| TrAckFrequencyConfig (value : option AckFrequencyConfig)
| TrMaxOutgoingBytesPerSecond (value : option Z)
| TrPersistentCongestionThreshold (value : Z)
| TrKeepAliveInterval (value : option Z)
| TrCryptoBufferSize (value : Z)
| TrAllowSpin (value : bool)
| TrDatagramReceiveBufferSize (value : option Z)
| TrDatagramSendBufferSize (value : Z)
| TrCongestionControllerFactory (value : Z → Z → C)
| TrEnableSegmentationOffload (value : bool).
Definition apply_PathSetting (c : TransportConfig C) (s : PathSetting) : TransportConfig C :=
  match s with
  | TrMtuDiscoveryConfig value =>
      mkTransportConfig C (tc_max_concurrent_bidi_streams c) (tc_max_concurrent_uni_streams c) (tc_max_idle_timeout c)
        (tc_stream_receive_window c) (tc_receive_window c) (tc_send_window c) (tc_send_fairness c) (tc_packet_threshold c)
        (tc_time_threshold c) (tc_initial_rtt c) (tc_initial_mtu c) (tc_min_mtu c) value (tc_pad_to_mtu c)
        (tc_ack_frequency_config c) (tc_max_outgoing_bytes_per_second c) (tc_persistent_congestion_threshold c)
        (tc_keep_alive_interval c) (tc_crypto_buffer_size c) (tc_allow_spin c) (tc_datagram_receive_buffer_size c)
        (tc_datagram_send_buffer_size c) (tc_congestion_controller_factory c) (tc_enable_segmentation_offload c)
  | TrPadToMtu value =>
      mkTransportConfig C (tc_max_concurrent_bidi_streams c) (tc_max_concurrent_uni_streams c) (tc_max_idle_timeout c)
        (tc_stream_receive_window c) (tc_receive_window c) (tc_send_window c) (tc_send_fairness c) (tc_packet_threshold c)
        (tc_time_threshold c) (tc_initial_rtt c) (tc_initial_mtu c) (tc_min_mtu c) (tc_mtu_discovery_config c) value
        (tc_ack_frequency_config c) (tc_max_outgoing_bytes_per_second c) (tc_persistent_congestion_threshold c)
        (tc_keep_alive_interval c) (tc_crypto_buffer_size c) (tc_allow_spin c) (tc_datagram_receive_buffer_size c)
        (tc_datagram_send_buffer_size c) (tc_congestion_controller_factory c) (tc_enable_segmentation_offload c)
  | TrAckFrequencyConfig value =>
      mkTransportConfig C (tc_max_concurrent_bidi_streams c) (tc_max_concurrent_uni_streams c) (tc_max_idle_timeout c)
        (tc_stream_receive_window c) (tc_receive_window c) (tc_send_window c) (tc_send_fairness c) (tc_packet_threshold c)
        (tc_time_threshold c) (tc_initial_rtt c) (tc_initial_mtu c) (tc_min_mtu c) (tc_mtu_discovery_config c) (tc_pad_to_mtu c)
        value (tc_max_outgoing_bytes_per_second c) (tc_persistent_congestion_threshold c) (tc_keep_alive_interval c)
        (tc_crypto_buffer_size c) (tc_allow_spin c) (tc_datagram_receive_buffer_size c) (tc_datagram_send_buffer_size c)
        (tc_congestion_controller_factory c) (tc_enable_segmentation_offload c)
  | TrMaxOutgoingBytesPerSecond value =>
      mkTransportConfig C (tc_max_concurrent_bidi_streams c) (tc_max_concurrent_uni_streams c) (tc_max_idle_timeout c)
        (tc_stream_receive_window c) (tc_receive_window c) (tc_send_window c) (tc_send_fairness c) (tc_packet_threshold c)
        (tc_time_threshold c) (tc_initial_rtt c) (tc_initial_mtu c) (tc_min_mtu c) (tc_mtu_discovery_config c) (tc_pad_to_mtu c)
        (tc_ack_frequency_config c) value (tc_persistent_congestion_threshold c) (tc_keep_alive_interval c)
        (tc_crypto_buffer_size c) (tc_allow_spin c) (tc_datagram_receive_buffer_size c) (tc_datagram_send_buffer_size c)
        (tc_congestion_controller_factory c) (tc_enable_segmentation_offload c)
  | TrPersistentCongestionThreshold value =>
      mkTransportConfig C (tc_max_concurrent_bidi_streams c) (tc_max_concurrent_uni_streams c) (tc_max_idle_timeout c)
        (tc_stream_receive_window c) (tc_receive_window c) (tc_send_window c) (tc_send_fairness c) (tc_packet_threshold c)
        (tc_time_threshold c) (tc_initial_rtt c) (tc_initial_mtu c) (tc_min_mtu c) (tc_mtu_discovery_config c) (tc_pad_to_mtu c)
        (tc_ack_frequency_config c) (tc_max_outgoing_bytes_per_second c) value (tc_keep_alive_interval c)
        (tc_crypto_buffer_size c) (tc_allow_spin c) (tc_datagram_receive_buffer_size c) (tc_datagram_send_buffer_size c)
        (tc_congestion_controller_factory c) (tc_enable_segmentation_offload c)
  | TrKeepAliveInterval value =>
      mkTransportConfig C (tc_max_concurrent_bidi_streams c) (tc_max_concurrent_uni_streams c) (tc_max_idle_timeout c)
        (tc_stream_receive_window c) (tc_receive_window c) (tc_send_window c) (tc_send_fairness c) (tc_packet_threshold c)
        (tc_time_threshold c) (tc_initial_rtt c) (tc_initial_mtu c) (tc_min_mtu c) (tc_mtu_discovery_config c) (tc_pad_to_mtu c)
        (tc_ack_frequency_config c) (tc_max_outgoing_bytes_per_second c) (tc_persistent_congestion_threshold c) value
        (tc_crypto_buffer_size c) (tc_allow_spin c) (tc_datagram_receive_buffer_size c) (tc_datagram_send_buffer_size c)
        (tc_congestion_controller_factory c) (tc_enable_segmentation_offload c)
  | TrCryptoBufferSize value =>
      mkTransportConfig C (tc_max_concurrent_bidi_streams c) (tc_max_concurrent_uni_streams c) (tc_max_idle_timeout c)
        (tc_stream_receive_window c) (tc_receive_window c) (tc_send_window c) (tc_send_fairness c) (tc_packet_threshold c)
        (tc_time_threshold c) (tc_initial_rtt c) (tc_initial_mtu c) (tc_min_mtu c) (tc_mtu_discovery_config c) (tc_pad_to_mtu c)
        (tc_ack_frequency_config c) (tc_max_outgoing_bytes_per_second c) (tc_persistent_congestion_threshold c)
        (tc_keep_alive_interval c) value (tc_allow_spin c) (tc_datagram_receive_buffer_size c) (tc_datagram_send_buffer_size c)
        (tc_congestion_controller_factory c) (tc_enable_segmentation_offload c)
  | TrAllowSpin value =>
      mkTransportConfig C (tc_max_concurrent_bidi_streams c) (tc_max_concurrent_uni_streams c) (tc_max_idle_timeout c)
        (tc_stream_receive_window c) (tc_receive_window c) (tc_send_window c) (tc_send_fairness c) (tc_packet_threshold c)
        (tc_time_threshold c) (tc_initial_rtt c) (tc_initial_mtu c) (tc_min_mtu c) (tc_mtu_discovery_config c) (tc_pad_to_mtu c)
        (tc_ack_frequency_config c) (tc_max_outgoing_bytes_per_second c) (tc_persistent_congestion_threshold c)
        (tc_keep_alive_interval c) (tc_crypto_buffer_size c) value (tc_datagram_receive_buffer_size c)
        (tc_datagram_send_buffer_size c) (tc_congestion_controller_factory c) (tc_enable_segmentation_offload c)
  | TrDatagramReceiveBufferSize value =>
      mkTransportConfig C (tc_max_concurrent_bidi_streams c) (tc_max_concurrent_uni_streams c) (tc_max_idle_timeout c)
        (tc_stream_receive_window c) (tc_receive_window c) (tc_send_window c) (tc_send_fairness c) (tc_packet_threshold c)
        (tc_time_threshold c) (tc_initial_rtt c) (tc_initial_mtu c) (tc_min_mtu c) (tc_mtu_discovery_config c) (tc_pad_to_mtu c)
        (tc_ack_frequency_config c) (tc_max_outgoing_bytes_per_second c) (tc_persistent_congestion_threshold c)
        (tc_keep_alive_interval c) (tc_crypto_buffer_size c) (tc_allow_spin c) value (tc_datagram_send_buffer_size c)
        (tc_congestion_controller_factory c) (tc_enable_segmentation_offload c)
  | TrDatagramSendBufferSize value =>
      mkTransportConfig C (tc_max_concurrent_bidi_streams c) (tc_max_concurrent_uni_streams c) (tc_max_idle_timeout c)
        (tc_stream_receive_window c) (tc_receive_window c) (tc_send_window c) (tc_send_fairness c) (tc_packet_threshold c)
        (tc_time_threshold c) (tc_initial_rtt c) (tc_initial_mtu c) (tc_min_mtu c) (tc_mtu_discovery_config c) (tc_pad_to_mtu c)
        (tc_ack_frequency_config c) (tc_max_outgoing_bytes_per_second c) (tc_persistent_congestion_threshold c)
        (tc_keep_alive_interval c) (tc_crypto_buffer_size c) (tc_allow_spin c) (tc_datagram_receive_buffer_size c) value
        (tc_congestion_controller_factory c) (tc_enable_segmentation_offload c)
  | TrCongestionControllerFactory value =>
      mkTransportConfig C (tc_max_concurrent_bidi_streams c) (tc_max_concurrent_uni_streams c) (tc_max_idle_timeout c)
        (tc_stream_receive_window c) (tc_receive_window c) (tc_send_window c) (tc_send_fairness c) (tc_packet_threshold c)
        (tc_time_threshold c) (tc_initial_rtt c) (tc_initial_mtu c) (tc_min_mtu c) (tc_mtu_discovery_config c) (tc_pad_to_mtu c)
        (tc_ack_frequency_config c) (tc_max_outgoing_bytes_per_second c) (tc_persistent_congestion_threshold c)
        (tc_keep_alive_interval c) (tc_crypto_buffer_size c) (tc_allow_spin c) (tc_datagram_receive_buffer_size c)
        (tc_datagram_send_buffer_size c) value (tc_enable_segmentation_offload c)
  | TrEnableSegmentationOffload value =>
      mkTransportConfig C (tc_max_concurrent_bidi_streams c) (tc_max_concurrent_uni_streams c) (tc_max_idle_timeout c)
        (tc_stream_receive_window c) (tc_receive_window c) (tc_send_window c) (tc_send_fairness c) (tc_packet_threshold c)
        (tc_time_threshold c) (tc_initial_rtt c) (tc_initial_mtu c) (tc_min_mtu c) (tc_mtu_discovery_config c) (tc_pad_to_mtu c)
        (tc_ack_frequency_config c) (tc_max_outgoing_bytes_per_second c) (tc_persistent_congestion_threshold c)
        (tc_keep_alive_interval c) (tc_crypto_buffer_size c) (tc_allow_spin c) (tc_datagram_receive_buffer_size c)
        (tc_datagram_send_buffer_size c) (tc_congestion_controller_factory c) value
  end.

Inductive TransportSetting : Type := Limit (s : LimitSetting) | Path (s : PathSetting).
Definition apply_transport (c : TransportConfig C) (s : TransportSetting) : TransportConfig C :=
  match s with Limit s => apply_LimitSetting c s | Path s => apply_PathSetting c s end.

(** [MtuDiscoveryConfig]. *)
Inductive MtuSetting : Type :=
| MtuInterval (value : Z)
| MtuUpperBound (value : Z)
| MtuBlackHoleCooldown (value : Z)
| MtuMinimumChange (value : Z).
Definition apply_mtu (c : MtuDiscoveryConfig) (s : MtuSetting) : MtuDiscoveryConfig :=
  match s with
  | MtuInterval value => mkMtuDiscoveryConfig value (cfg_upper_bound c) (cfg_minimum_change c) (black_hole_cooldown c)
  | MtuUpperBound value => mkMtuDiscoveryConfig (interval c) (Z.min value MAX_UDP_PAYLOAD) (cfg_minimum_change c) (black_hole_cooldown c)
  | MtuBlackHoleCooldown value => mkMtuDiscoveryConfig (interval c) (cfg_upper_bound c) (cfg_minimum_change c) value
  | MtuMinimumChange value => mkMtuDiscoveryConfig (interval c) (cfg_upper_bound c) value (black_hole_cooldown c)
  end.

(** [AckFrequencyConfig]. *)
Inductive AckSetting : Type :=
| AckElicitingThreshold (value : VarInt)
| AckMaxDelay (value : option Z)
| AckReorderingThreshold (value : VarInt).
Definition apply_ack (c : AckFrequencyConfig) (s : AckSetting) : AckFrequencyConfig :=
  match s with
  | AckElicitingThreshold value => mkAckFrequencyConfig value (afc_max_ack_delay c) (afc_reordering_threshold c)
  | AckMaxDelay value => mkAckFrequencyConfig (afc_ack_eliciting_threshold c) value (afc_reordering_threshold c)
  | AckReorderingThreshold value => mkAckFrequencyConfig (afc_ack_eliciting_threshold c) (afc_max_ack_delay c) value
  end.

(** * Settings of endpoints *)

Inductive ConfigError : Type := OutOfBounds.

Definition EndpointConfig_new {G : Type} (reset_key : HmacKey) (hashed_generator : G) : EndpointConfig G :=
  mkEndpointConfig reset_key (mkVarInt (1500 - 28)) hashed_generator DEFAULT_SUPPORTED_VERSIONS true (20 * 10 ^ 6) None.

Inductive EndpointSetting {G : Type} : Type :=
| EpCidGenerator (factory : G)
| EpResetKey (key : HmacKey)
| EpMaxUdpPayloadSize (value : Z)
| EpSupportedVersions (versions : list Z)
| EpGreaseQuicBit (value : bool)
| EpMinResetInterval (value : Z)
| EpRngSeed (seed : option (list Z)).
Definition apply_endpoint {G} (c : EndpointConfig G) (s : EndpointSetting) : result ConfigError (EndpointConfig G) :=
  let '(mkEndpointConfig key size generator versions grease reset seed) := c in
  match s with
  | EpCidGenerator factory => Ok (mkEndpointConfig key size factory versions grease reset seed)
  | EpResetKey key => Ok (mkEndpointConfig key size generator versions grease reset seed)
  | EpMaxUdpPayloadSize value =>
      if negb ((1200 <=? value) && (value <=? 65527)) then Err OutOfBounds
      else Ok (mkEndpointConfig key (mkVarInt value) generator versions grease reset seed)
  | EpSupportedVersions versions => Ok (mkEndpointConfig key size generator versions grease reset seed)
  | EpGreaseQuicBit grease => Ok (mkEndpointConfig key size generator versions grease reset seed)
  | EpMinResetInterval reset => Ok (mkEndpointConfig key size generator versions grease reset seed)
  | EpRngSeed seed => Ok (mkEndpointConfig key size generator versions grease reset seed)
  end.

(** * Settings of servers *)

(** [ValidationTokenConfig]; [bloom] says whether the feature is enabled. *)
Record ValidationTokenConfig {L : Type} : Type := mkValidationTokenConfig { vt_lifetime : Z; vt_log : L; vt_sent : Z }.
Definition ValidationTokenConfig_default {L : Type} (log : L) (bloom : bool) : ValidationTokenConfig :=
  mkValidationTokenConfig L (2 * 7 * 24 * 60 * 60 * 10 ^ 9) log (if bloom then 2 else 0).
Inductive ValidationSetting {L : Type} : Type :=
| VtLifetime (value : Z)
| VtLog (log : L)
| VtSent (value : Z).
Definition apply_validation {L} (c : ValidationTokenConfig (L := L)) (s : ValidationSetting) : ValidationTokenConfig :=
  match s with
  | VtLifetime value => mkValidationTokenConfig L value (vt_log c) (vt_sent c)
  | VtLog log => mkValidationTokenConfig L (vt_lifetime c) log (vt_sent c)
  | VtSent value => mkValidationTokenConfig L (vt_lifetime c) (vt_log c) value
  end.

Definition ServerConfig_new {SC L : Type} (factory : Z → Z → C) (crypto : SC) (token_key : HandshakeTokenKey) (log : L) (bloom : bool)
    : ServerSettings C SC L :=
  let v := ValidationTokenConfig_default log bloom in
  mkServerSettings (TransportConfig_default factory) crypto
    (mkServerConfig (vt_lifetime v) (vt_sent v) token_key (15 * 10 ^ 9) true None None (Z.shiftl 1 16) (Z.shiftl 10 20) (Z.shiftl 100 20))
    (vt_log v).

Inductive ServerSetting {L : Type} : Type :=
| SvTransport (transport : TransportConfig C)
| SvValidationToken (validation_token : ValidationTokenConfig (L := L))
| SvTokenKey (value : HandshakeTokenKey)
| SvRetryTokenLifetime (value : Z)
| SvMigration (value : bool)
| SvPreferredAddressV4 (address : option SocketAddrV4)
| SvPreferredAddressV6 (address : option SocketAddrV6)
| SvMaxIncoming (value : Z)
| SvIncomingBufferSize (value : Z)
| SvIncomingBufferSizeTotal (value : Z).
Definition apply_server {SC L} (s : ServerSettings C SC L) (x : ServerSetting (L := L)) : ServerSettings C SC L :=
  let '(mkServerSettings transport crypto config log) := s in
  let '(mkServerConfig lifetime sent key retry migration v4 v6 max each total) := config in
  let with_config config := mkServerSettings transport crypto config log in
  match x with
  | SvTransport transport => mkServerSettings transport crypto config log
  | SvValidationToken v =>
      mkServerSettings transport crypto (mkServerConfig (vt_lifetime v) (vt_sent v) key retry migration v4 v6 max each total) (vt_log v)
  | SvTokenKey key => with_config (mkServerConfig lifetime sent key retry migration v4 v6 max each total)
  | SvRetryTokenLifetime retry => with_config (mkServerConfig lifetime sent key retry migration v4 v6 max each total)
  | SvMigration migration => with_config (mkServerConfig lifetime sent key retry migration v4 v6 max each total)
  | SvPreferredAddressV4 v4 => with_config (mkServerConfig lifetime sent key retry migration v4 v6 max each total)
  | SvPreferredAddressV6 v6 => with_config (mkServerConfig lifetime sent key retry migration v4 v6 max each total)
  | SvMaxIncoming max => with_config (mkServerConfig lifetime sent key retry migration v4 v6 max each total)
  | SvIncomingBufferSize each => with_config (mkServerConfig lifetime sent key retry migration v4 v6 max each total)
  | SvIncomingBufferSizeTotal total => with_config (mkServerConfig lifetime sent key retry migration v4 v6 max each total)
  end.

(** * Settings of clients *)

(** [initial_dst_cid] is an id of full length from the random generator. *)
Definition ClientConfig_new {CC TS : Type} (factory : Z → Z → C) (crypto : CC) (memory_cache : TS) (initial_dst_cid : ConnectionId)
    : ClientConfig C CC TS :=
  mkClientConfig (TransportConfig_default factory) crypto memory_cache initial_dst_cid 1.

Inductive ClientSetting {TS : Type} : Type :=
| ClInitialDstCid (provider : ConnectionId)
| ClTransport (transport : TransportConfig C)
| ClTokenStore (store : TS)
| ClVersion (version : Z).
Definition apply_client {CC TS} (c : ClientConfig C CC TS) (s : ClientSetting (TS := TS)) : ClientConfig C CC TS :=
  match s with
  | ClInitialDstCid provider => mkClientConfig (cc_transport c) (cc_crypto c) (cc_token_store c) provider (cc_version c)
  | ClTransport transport => mkClientConfig transport (cc_crypto c) (cc_token_store c) (cc_initial_dst_cid c) (cc_version c)
  | ClTokenStore store => mkClientConfig (cc_transport c) (cc_crypto c) store (cc_initial_dst_cid c) (cc_version c)
  | ClVersion version => mkClientConfig (cc_transport c) (cc_crypto c) (cc_token_store c) (cc_initial_dst_cid c) version
  end.
End Settings.

(** * What is announced *)

Section Transport.
Context {C : Type}.

(** The values the types of the arguments allow. *)
Definition varint_ok (v : VarInt) : Prop := 0 <= into_inner v < 2 ^ 62.
Definition limit_typed (s : LimitSetting) : Prop :=
  match s with
  | TrMaxConcurrentBidiStreams v | TrMaxConcurrentUniStreams v | TrStreamReceiveWindow v | TrReceiveWindow v => varint_ok v
  | TrMaxIdleTimeout v => opt_wf varint_ok v
  | TrInitialMtu v | TrMinMtu v => 0 <= v < 2 ^ 16
  | _ => True
  end.
Definition path_typed (s : PathSetting (C := C)) : Prop :=
  match s with TrDatagramReceiveBufferSize v => opt_wf (fun n => 0 <= n) v | _ => True end.
Definition transport_typed (s : TransportSetting (C := C)) : Prop := match s with Limit s => limit_typed s | Path s => path_typed s end.

(** What settings made by the setters satisfy. *)
Record transport_ok (c : TransportConfig C) : Prop := mkTransportOk {
  to_bidi : varint_ok (tc_max_concurrent_bidi_streams c);
  to_uni : varint_ok (tc_max_concurrent_uni_streams c);
  to_idle : opt_wf varint_ok (tc_max_idle_timeout c);
  to_stream : varint_ok (tc_stream_receive_window c);
  to_receive : varint_ok (tc_receive_window c);
  to_initial : INITIAL_MTU <= tc_initial_mtu c < 2 ^ 16;
  to_min : INITIAL_MTU <= tc_min_mtu c < 2 ^ 16;
  to_datagrams : opt_wf (fun n => 0 <= n) (tc_datagram_receive_buffer_size c)
}.

Lemma transport_default_ok factory : transport_ok (TransportConfig_default (C := C) factory).
Proof. split; vm_compute; intuition discriminate. Qed.
Lemma apply_transport_ok c s : transport_ok c → transport_typed s → transport_ok (apply_transport c s).
Proof.
  intros [] Ht. destruct s as [s|s]; destruct s; cbn in Ht; split; try done; cbn; unfold INITIAL_MTU; lia.
Qed.
Lemma configured_ok factory l : Forall transport_typed l → transport_ok (fold_left apply_transport l (TransportConfig_default factory)).
Proof.
  intros Hl. generalize (transport_default_ok factory). generalize (TransportConfig_default (C := C) factory).
  induction Hl as [|s l Hs _ IH]; intros c Hc; [done|]. cbn [fold_left]. by apply IH, apply_transport_ok.
Qed.
End Transport.

(** The settings of an endpoint after calls of setters, none of which failed. *)
Fixpoint configure_endpoint {G} (c : EndpointConfig G) (l : list EndpointSetting) : result ConfigError (EndpointConfig G) :=
  match l with
  | [] => Ok c
  | s :: l => match apply_endpoint c s with Ok c => configure_endpoint c l | Err e => Err e end
  end.
Lemma configure_endpoint_payload {G} (c c' : EndpointConfig G) l :
  1200 <= into_inner (ec_max_udp_payload_size c) < 2 ^ 62 → configure_endpoint c l = Ok c' → 1200 <= into_inner (ec_max_udp_payload_size c') < 2 ^ 62.
Proof.
  revert c. induction l as [|s l IH]; intros c Hc Hl; [by injection Hl as <-|]. cbn in Hl. destruct (apply_endpoint c s) as [c1|] eqn:E; [|done].
  apply (IH c1); [|done]. destruct c, s; cbn in E; try (by injection E as <-). destruct (negb _) eqn:En; [done|]. injection E as <-. cbn.
  apply negb_false_iff, andb_true_iff in En as [H1%Z.leb_le H2%Z.leb_le]. lia.
Qed.

(** Shuffling rearranges. *)
Class ShuffleOk (R : Type) `{EndpointRng R} : Prop := { shuffle_perm : ∀ r l, fst (shuffle r l) ≡ₚ l }.

Section Announced.
Context {C : Type} {R : Type} {HR : Rng R} {HRok : RngOk R} {HRC : RngCore R} {HRCok : RngCoreOk R} {HER : EndpointRng R} {HERok : ShuffleOk R}
  {G : Type} {HG : ConnectionIdGenerator G} {SL : Type → Type} {HS : Slab SL} {SC : Type} {L : Type}.
Local Notation Endpoint := (Endpoint C R G SL SC L).

Lemma draw_range_ok (r : R) lo hi : lo < hi → ∃ n, draw_range r lo hi = Ret (n, rng_step r) ∧ lo <= n < hi.
Proof.
  intros Hlt. unfold draw_range, random_range. pose proof (rng_range_in r lo hi Hlt) as Hr. rewrite (proj2 (Z.ltb_lt _ _)) by done. cbn.
  eexists. split; [reflexivity|done].
Qed.

Definition reserved_wf (p : ReservedTransportParameter) : Prop :=
  0 <= rp_payload_len p <= len (rp_payload p) ∧ len (rp_payload p) = MAX_PAYLOAD_LEN ∧ 0 <= rp_id p < 2 ^ 62 ∧ rp_id p mod 31 = 27.
Lemma reserved_random_ok (r : R) : ∃ p r', ReservedTransportParameter_random r = Ret (p, r') ∧ reserved_wf p.
Proof. unfold reserved_wf.
  unfold ReservedTransportParameter_random. destruct (draw_range_ok r 0 (2 ^ 62 - 27)) as (rand & -> & Hrand); [lia|]. cbn [mbind M_bind].
  assert (Hid : generate_reserved_id rand = Ret (31 * (rand / 31) + 27)).
  { unfold generate_reserved_id. rewrite (proj2 (Z.eqb_eq _ _)) by (rewrite Z.mul_comm, Z.add_comm, Z_mod_plus_full; done). cbn [rassert mbind M_bind].
    unfold VarInt_from_u64. pose proof (Z.mul_div_le rand 31). destruct (Z.ltb_spec (31 * (rand / 31) + 27) (2 ^ 62)); [done|lia]. }
  rewrite Hid. cbn [mbind M_bind]. destruct (draw_range_ok (rng_step r) 0 MAX_PAYLOAD_LEN) as (n & -> & Hn); [done|]. cbn [mbind M_bind].
  pose proof (fill_bytes_len (rng_step (rng_step r)) n (proj1 Hn)) as Hl. destruct (fill_bytes _ n) as [payload r'] eqn:Ef. cbn [fst] in Hl.
  eexists _, r'. split; [reflexivity|]. cbn [rp_payload_len rp_payload rp_id]. unfold MAX_PAYLOAD_LEN in *.
  assert (Hlen : len (payload ++ replicate (Z.to_nat (16 - n)) 0) = 16) by (rewrite len_app, Hl; unfold len; rewrite length_replicate; lia).
  rewrite Hlen. pose proof (Z.mul_div_le rand 31). pose proof (Z.div_pos rand 31). split; [lia|]. split; [done|]. split; [lia|].
  rewrite Z.mul_comm, Z.add_comm, Z_mod_plus_full. done.
Qed.

(** Parameters made from settings in range are well formed, and neither side finds an illegal value in them. *)
Lemma new_params_wf (pc : ParamConfig) loc_cid reserved order side :
  Forall (fun x => 0 <= x < 2 ^ 62) [default 0 (pc_max_idle_timeout pc); pc_receive_window pc; pc_stream_receive_window pc] →
  1200 <= pc_max_udp_payload_size pc < 2 ^ 62 → 0 <= pc_max_concurrent_bidi_streams pc <= MAX_STREAM_COUNT →
  0 <= pc_max_concurrent_uni_streams pc <= MAX_STREAM_COUNT → opt_wf (fun n => 0 <= n) (pc_datagram_receive_buffer_size pc) →
  cid_wf loc_cid → reserved_wf reserved →
  params_wf (TransportParameters_new pc loc_cid reserved order) ∧ illegal side (TransportParameters_new pc loc_cid reserved order) = false.
Proof.
  intros Hv Hu Hb Hn Hd Hcid Hres. rewrite !Forall_cons in Hv. destruct Hv as (Hi & Hw & Hs & _). change MAX_STREAM_COUNT with (2 ^ 60) in *.
  unfold TransportParameters_new. split.
  - split_and!; try done.
    + intros id ip Hip. destruct id; try discriminate Hip; injection Hip as <-; cbn; try lia. destruct (_ =? 0); lia.
    + cbn. destruct (pc_datagram_receive_buffer_size pc); cbn in *; [lia|done].
  - unfold illegal. cbn. change MAX_STREAM_COUNT with (2 ^ 60). rewrite andb_false_r, !orb_false_r, !orb_false_iff, !Z.ltb_ge.
    change (Z.shiftl 1 14 <=? 25) with false. destruct (_ =? 0); lia.
Qed.

End Announced.

(** * Configured endpoints *)

#[export] Instance counter_ShuffleOk : ShuffleOk Z.
Proof. split. done. Qed.

Definition tuned_transport : list (TransportSetting (C := NewReno)) :=
  [Limit (TrMaxConcurrentBidiStreams (mkVarInt 7)); Limit (TrReceiveWindow (mkVarInt 1000000)); Limit (TrMaxIdleTimeout None);
   Limit (TrInitialMtu 100); Path (TrDatagramReceiveBufferSize (Some 100000))].
Definition tuned_config : EndpointConfig (RandomConnectionIdGenerator Z) :=
  match configure_endpoint (EndpointConfig_new sample_reset_key (mkRandomGenerator 8 None 2)) [EpMaxUdpPayloadSize 1350; EpGreaseQuicBit false] with
  | Ok c => c
  | Err _ => sample_endpoint_config
  end.
Definition tuned_endpoint : SampleEndpoint := Endpoint_new 7 tuned_config None true.


(** What [side] makes of the parameters of its peer. *)
Definition refused (side : Side) (p : TransportParameters) : bool :=
  match TransportParameters_write p with
  | Ret bs => match TransportParameters_read side bs with Ret (Err IllegalValue, _) => true | _ => false end
  | Panic => false
  end.

(** A limit on streams above what the protocol allows can be configured: the peer refuses the connection. *)
Lemma stream_limit_refused :
  let config := apply_transport sample_config (Limit (TrMaxConcurrentBidiStreams (mkVarInt (2 ^ 60 + 1)))) in
  match endpoint_params tuned_endpoint config (sample_cid 1) None with Ret (p, _) => refused Server p | Panic => false end = true.
Proof. vm_compute. reflexivity. Qed.

(** A server with connection ids of length zero announces its preferred address all the same, with an empty id: the client
    refuses the connection. *)
Definition no_ids : RandomConnectionIdGenerator Z := mkRandomGenerator 0 None 2.
Definition addressed_server : ServerConfig :=
  mkServerConfig 0 0 null_token_key 0 true (Some (mkSocketAddrV4 [192; 0; 2; 1] 4433)) None 16 1000000 10000000.
Definition empty_cid : ConnectionId := mkConnectionId 0 (replicate 20 0).
Lemma preferred_address_refused :
  let settings := mkServerSettings sample_config (mkToyConfig (params_of (sample_cid 1) None) false) addressed_server mkNoneTokenLog in
  let e : SampleEndpoint := Endpoint_new 7 (EndpointConfig_new sample_reset_key no_ids) (Some settings) true in
  match accept_params 10 e 0 settings empty_cid (mkIncomingToken None (sample_cid 1) false) with
  | Ret (Some (p, _, _)) => refused Client p
  | _ => false
  end = true.
Proof. vm_compute. reflexivity. Qed.
